(* ===== verification/_CoqProject ===== *)
-Q . S2P
Prelude.v
Cred.v
Rlist.v
Frag.v
Ring.v
Cksum.v
Mbuf.v
MbufBook.v
MbufOps.v
Sockbuf.v
SockbufInv.v
NetRun.v
NetSpec.v
Kmalloc.v
KmallocInv.v
KmallocOps.v
KmallocRun.v
KmallocSpec.v
NameCache.v
NcInv.v
NcOps.v
NcRun.v
NcSpec.v
Callout.v
TimeVal.v
Resource.v
Clock.v
Fork.v
Lockf.v
Fdesc.v
Pgrp.v
PgrpInv.v
PgrpCalls.v
Exit.v
ForkInv.v
ExitInv.v
WaitInv.v
Life.v
LifeSpec.v
SleepQ.v
Sleep.v
SleepInv.v
SleepCalls.v
SleepSpec.v
Signal.v
SignalInv.v
SignalPost.v
SignalTake.v
SignalSend.v
SignalSys.v
SignalRun.v
SignalSpec.v
SignalEdge.v
