(* ===== verification/Prelude.v ===== *)
(** * Verification of FreeBSD 1.x kernel resource management

    This library models the part of the FreeBSD 1.x kernel (src/sys) that keeps
    the books: processes, their groups and sessions, their credentials, open
    files, locks, limits and timers, the signals they send and take, the queues
    they sleep and run on, the kernel's own memory and that of the network, the
    cache of names, and the small algorithms that hand out space.  Every
    definition follows the C code line by line; each component is one file (or a
    few), and its theorems say what the rest of the kernel relies on.

    ** How the C code is rendered

    The port is the i386 one: a [short] is 16 bits, an [int], a [long] and a
    pointer 32.  Integers are values of [Z]; where an assignment narrows, the
    conversion ([u16], [s32], ...) is written out.  A structure that is shared
    is a record in a store, a finite map from addresses ([loc]) to records, and
    a pointer is an address, so that aliasing, reference counts and dangling
    pointers are what they are in the code.  A list threaded through structures
    is the Rocq list of its elements.  A routine returns an [outcome]: a value,
    a [panic], or [Fault] for a dereference of something that is not there.
    Calls into parts of the kernel that are not modelled are events of a log, in
    the order they are made; user memory (copyin, copyout), file operations and
    pathname lookup are arguments.  A call that sleeps ends its step there.

    ** The parts

    - This file: the outcome monad, addresses, machine integers, counts over
      finite maps, the error numbers, and the tactics and hints all files use.
    - [Cred] (kern_prot.c, ucred.h, and the places in kern_fork.c, kern_exit.c,
      kern_execve.c, kern_descrip.c that touch credentials): shared credential
      structures with reference counts, and the set-id calls.
    - [Fork] (kern_fork.c to line 165): the limits on processes, the choice of a
      process id.
    - [Pgrp], [PgrpInv], [PgrpCalls] (kern_proc.c; setsid and setpgid in
      kern_prot.c; the controlling terminal in tty.c and vfs_vnops.c): process
      groups, sessions, job control counts.  [Pgrp] has the definitions,
      [PgrpInv] the invariant [Inv] of the process world and the proof that
      moving a process between groups keeps it, [PgrpCalls] the calls.
    - [Exit], [ForkInv], [ExitInv], [WaitInv] (kern_exit.c and the second part
      of fork1): the birth of a child, kexit, wait1.
    - [Life], [LifeSpec]: these calls as the steps of one system, started from
      process 0 and init; the properties and their instances.
    - [SleepQ], [Sleep], [SleepInv], [SleepCalls], [SleepSpec] (kern_synch.c;
      setrq, remrq and swtch in locore.s; the end of a trap in trap.c): sleep
      queues, run queues and priorities.  [SleepQ] has one sleep queue with its
      links and shows that they hold a list, [Sleep] the routines on these lists
      and on the process world of [Pgrp], [SleepInv] the invariant [Sq] of the
      queues, [SleepCalls] what each routine does to it, [SleepSpec] the
      properties.
    - [Signal], [SignalInv], [SignalPost], [SignalTake], [SignalSend],
      [SignalSys], [SignalRun], [SignalSpec], [SignalEdge] (kern_sig.c,
      signalvar.h; sendsig and sigreturn in machdep.c; tsleep in kern_synch.c;
      the loop at the return to user mode in trap.c): signals, on the process
      world and the queues.  [Signal] has the definitions; [SignalInv] sets of
      signals and the invariant [sig_ok] of one process; [SignalPost] psignal and
      the table of what it does; [SignalTake] issig, psig and the loop that takes
      signals; [SignalSend] kill; [SignalSys] tsleep and fork; [SignalRun] all of
      it as the steps of one system; [SignalSpec] and [SignalEdge] the
      properties.
    - [Resource] (kern_resource.c): priorities, limits shared copy-on-write,
      usage.
    - [TimeVal] (kern_time.c): time arithmetic, interval timers, against a type
      class of timeouts; [Callout] (kern_clock.c) implements the class with the
      delta queue; [Clock] (kern_clock.c) is the clock interrupt.
    - [Fdesc] (kern_descrip.c; open in vfs_syscalls.c): descriptor tables and
      open files.
    - [Lockf] (ufs_lockf.c): advisory record locks.
    - [Rlist] (subr_rlist.c), [Frag] (ufs_subr.c, ufs_alloc.c), [Ring]
      (tty_ring.c), [Cksum] (in_cksum.c): lists of free extents, fragment maps,
      character queues, the internet checksum.
    - [Mbuf], [MbufBook], [MbufOps] (uipc_mbuf.c, mbuf.h; ip_drain in
      ip_input.c): mbufs, clusters and the routines on chains.  [Mbuf] has the
      definitions, [MbufBook] the books ([Ledger]: every mbuf that exists is in
      one place, and the counts agree with it) and allocation, [MbufOps] the
      routines on chains.  A chain is the list of its mbufs, which its owner holds
      by value; the clusters, which mbufs share, are in a store.
    - [Sockbuf], [SockbufInv] (uipc_socket2.c, socketvar.h): socket buffers on
      those chains, the queue of records a buffer stands for, and each routine as
      a transition of that queue.
    - [NetRun], [NetSpec]: chains in the hands of protocols and one socket buffer
      as one system; the properties and their instances.

    - [Kmalloc], [KmallocInv], [KmallocOps], [KmallocRun], [KmallocSpec]
      (kern_malloc.c, malloc.h): the kernel's malloc.  Free blocks are linked
      through words of the memory they manage, a store of 32-bit words in which a
      page that kmem_malloc has not handed out cannot be touched; buckets, page
      records and statistics are the arrays of the code.  malloc is cut where it
      can sleep: at the limit of its type, and in kmem_malloc, whose answer (no
      pages, or pages of kmem_map that are not in use and have anything in them) is
      part of the event that goes on.  [Kmalloc] has the definitions, [KmallocInv]
      the layout of the pages, [KmallocOps] what each step does to it,
      [KmallocRun] the allocator and its callers as one system, [KmallocSpec] the
      properties.

    - [NameCache], [NcInv], [NcOps], [NcRun], [NcSpec] (vfs_cache.c; the hash in
      vfs_lookup.c, the new id in getnewvnode): the name cache.  [NameCache] has
      the definitions, [NcInv] the invariant: entries that are valid by the ids of
      their vnodes, and chains on which the entries of one name are in the order of
      their last use; [NcOps] what each operation does to the answers the cache has
      for a name, [NcRun] the cache and its callers as one system, in which a name
      has a stack of entries, [NcSpec] the properties.

    [Cred], [Fdesc], [Lockf], [Life], [SignalRun], [NetRun], [KmallocRun] and
    [NcRun] have a type of events and a function that runs a list of them; their
    safety theorems are about every run.  In [NetRun], [KmallocRun] and [NcRun] the
    functions run whatever event they are given, and the theorems are about the runs
    of [proper], [kproper] and [nproper] events, the ones that callers may cause: a
    caller uses the chains it holds and copies no cluster past 256 references; it
    asks malloc for no size that wraps around and frees the blocks it holds, once;
    it passes vnodes that there are to the name cache.  [mclrefcnt_wraps],
    [kmem_request] and [double_free] say what other events do.  In [SignalRun] the events are the
    signals posted by the kernel and sent by processes, the calls of the process
    on the processor, its return to user mode, its sleeps and its going on after
    one or after a stop, wakeups, timeouts, the clock's second, preemption and
    forks.  A world with [calm] holds the invariant of the process world, of the
    queues and of the signals, and its current process is runnable and waits for
    nothing.

    ** What the theorems show

    - Invariants of the state, kept by every operation in every order: exact
      reference counts of credentials ([cred_refcounts]) and open files, but for
      two events that the code gets wrong and that [flawed] tells apart
      ([fd_event_safe]); the process world, which says that the process table,
      the hash tables, the tree, the groups, the sessions and the terminals agree
      ([life_safe]), and that the job control counts are exact
      ([jobc_orphaned]); well-formed lock lists without conflicting locks
      ([lf_reach_safe]); extents sorted and apart ([rlist_free_spec]); queues and
      processes that agree ([queues_ok]), and signal sets that agree with the
      actions, SIGKILL and SIGSTOP out of reach ([signal_sets_ok]), while
      processes signal one another ([signal_safe]); exact reference counts of
      clusters, and no mbuf or cluster lost or used after it is freed
      ([net_safe]); blocks of the kernel's malloc apart from each other, what is
      written in them kept, and exact statistics ([kmem_safe]); a name cache that
      answers what was entered last of what has not been withdrawn ([nc_safe]).
    - What each call does on every branch, errors included: [setsid_spec],
      [setpgid_spec], [kexit_spec], [wait1_spec], [sctty_spec], [spgrp_spec],
      [psignal_spec], [sigkill_spec], [kill_spec], [tsleep_spec], [sfork_spec],
      [execsigs_spec], [wakeup_spec], [swtch_spec], [updatepri_spec],
      [dup_dup2_spec], [open_spec], [setrlimit_spec], [setpriority_safe],
      [lf_lists_spec], [hardclock_spec], [m_copym_spec], [m_pullup_spec],
      [m_adj_spec], [sb_space] and others; that m_adj takes off what M_PREPEND
      put on ([prepend_adj_roundtrip]); that what is entered in the name cache is
      found ([enter_lookup]), and nothing after the ids wrap around
      ([cache_purge_wraps]); the sizes malloc asks for
      ([kmem_request]); that a call that sleeps in malloc is woken when the blocks
      of its type are freed ([kmem_wakeup]).
    - Refinement and equivalence: the delta queue is a table of times
      ([callout_refines]), the set-id calls a transition of ids
      ([cred_call_refines]), fork1 the search on the table of ids
      ([fork1_refines]), the ring a bounded deque ([ring_refines_deque]),
      a linked sleep queue a list ([sleepq_refines]), a socket buffer a queue of
      records ([sockbuf_refines]), the
      unrolled checksum the sum of 16-bit words ([in_cksum_c_correct]), the
      table-driven map search the search itself ([mapsearch_spec]).
    - Termination: the loop that takes signals ([user_spec]: what a process that
      returns to user mode leaves, and that a killed one does not return),
      [softclock_runs_due], [realitexpire_spec], [drain_ends],
      [cache_purgevfs_spec], and
      within the others every loop.
    - Where the code does not do what it means to, a theorem with a run that
      shows it: [fork1_pid_collision], [jobc_init_drift], [sctty_again_leaks],
      [deadlock_check_dangling], [lf_interrupt_drops], [fdcopy_overrun],
      [dupfd_use_after_free], [osetreuid_keeps_saved], [adjtime_never_finishes],
      [rlist_free_tail_overlap_undetected], [rb_write_overrun_loses],
      [schedcpu_usage], [trapsignal_stuck], [issig_traced_stale],
      [mclrefcnt_wraps], [m_adj_spec] for the header it forgets, [double_free] for
      the blocks freed twice that malloc does not notice, [kmem_request] for the
      sizes that wrap around, [nc_only_faults] for the name cache with one entry and
      [purge_wrap_stale] for the vnode ids that come back.

    ** Loops and fuel

    Loops over lists are structural.  The others carry a bound that the theorems
    show to be enough: the growth of a descriptor table, [fd_fuel] = 32
    doublings; the search for a process id, twice [PID_MAX] retries; the walk of
    [inferior] to the root, as many steps as there are processes; the loops of
    the lock code, one step more than the list is long; [realitexpire], the
    number of periods that have passed; [wakeup], one more than there are
    processes on the queues, since each round takes one off; [issig], 33 rounds,
    each of which takes one of at most 31 pending signals; the loop at the return
    to user mode, 32, since each handler it starts is blocked; [execsigs], 32;
    [psignal], two levels, since a stop is told to the parent with SIGCHLD, which
    is no stop signal; [m_pullup], as many rounds as the chain has mbufs, since
    each round that does not end it frees one; [sbflush], one more than there are
    records, since each round drops at least one ([sbflush_ok]); the loop of
    malloc that links the blocks of a page, NBPG rounds, of which a page of the
    smallest blocks needs 256 ([carve_ok], [carve_fuel]); cache_purgevfs, which
    starts again after each entry, the square of one more than there are entries
    ([purgevfs_runs]); the loop of nchinit, 32 doublings ([nchash_loop_ok]).

    ** Not modelled

    Virtual memory, namei and the file systems above the allocation maps,
    sockets above their buffers, protocols apart from the checksum, kmem_malloc
    and kmem_free below malloc, System V shared memory, drivers and machine
    code: some could be modelled the same way (System V shared memory), others
    are I/O that a functional model does not capture. Within the components:
    vm_fork and the address space in fork and exit, kernel tracing, process
    accounting and debugging output are events or left out.  That vgoneall of a
    terminal's vnode closes the terminal is part of [exit_session]. In the
    signals: coredump is a parameter; the frame and the registers of sendsig and
    sigreturn; procxmt, what a debugger does to a stopped process (a traced
    process stops in the system of [SignalRun], and what it does next is the
    subject of [issig_traced_stale]); and a process that psig ends stays current
    there, since kexit is a step of [Life], which has no queues.  In the mbufs:
    what malloc and kmem_malloc hand out is a supply in the world, a call that
    waits for memory is one whose supply has some; interrupts are off where the
    code says splimp; the locks and the wakeups of socket buffers.  In malloc: the
    checks under DIAGNOSTIC, and the macros MALLOC and FREE of a kernel without
    KMEMSTATS.  The other components take the memory malloc gives them as fresh
    addresses, which is what [kmem_safe] says of it.  In the name cache: a call of
    cache_enter is one step, though malloc may sleep in it; [nc_safe] is about
    fewer than 2^32 events, so that the ids do not wrap around. *)

From Stdlib Require Export ZArith Lia.
From stdpp Require Export base gmap list strings numbers.

#[global] Open Scope Z_scope.

(** ** Outcomes

    A kernel routine returns, calls [panic], or dereferences a pointer that is
    not the address of a live object. *)
Inductive outcome (A : Type) : Type :=
  | Ok (a : A)
  | Panic (msg : string)
  | Fault.
Arguments Ok {A} _.
Arguments Panic {A} _.
Arguments Fault {A}.

#[export] Instance outcome_ret : MRet outcome := fun A a => Ok a.
#[export] Instance outcome_bind : MBind outcome := fun A B f m =>
  match m with
  | Ok a => f a
  | Panic s => Panic s
  | Fault => Fault
  end.
#[export] Instance outcome_fmap : FMap outcome := fun A B f m =>
  match m with
  | Ok a => Ok (f a)
  | Panic s => Panic s
  | Fault => Fault
  end.

(** A dereference: the object at an address, or a fault. *)
Definition deref {A} (o : option A) : outcome A :=
  match o with Some a => Ok a | None => Fault end.

Lemma bind_Ok {A B} (m : outcome A) (f : A -> outcome B) b :
  (m ≫= f) = Ok b -> exists a, m = Ok a /\ f a = Ok b.
Proof. destruct m; cbn; intros H; [eauto | discriminate..]. Qed.

Lemma deref_Ok {A} (o : option A) a : deref o = Ok a <-> o = Some a.
Proof. destruct o; cbn; split; congruence. Qed.

(** ** Machine integers

    The i386 port: [short] is 16 bits, [int], [long] and pointers are 32.  A
    value of a C integer type is kept as the [Z] it denotes; the conversions
    below are what an assignment to the type does. *)
Definition wrapu (w z : Z) : Z := z mod 2 ^ w.
Definition wraps (w z : Z) : Z := (z + 2 ^ (w - 1)) mod 2 ^ w - 2 ^ (w - 1).

Definition u8 := wrapu 8.
Definition u16 := wrapu 16.
Definition u32 := wrapu 32.
Definition s8 := wraps 8.
Definition s16 := wraps 16.
Definition s32 := wraps 32.

Lemma wrapu_range w z : 0 <= w -> 0 <= wrapu w z < 2 ^ w.
Proof. intros; apply Z.mod_pos_bound; lia. Qed.

Lemma wrapu_id w z : 0 <= z < 2 ^ w -> wrapu w z = z.
Proof. intros; apply Z.mod_small; lia. Qed.

Lemma wraps_range w z : 0 < w -> - 2 ^ (w - 1) <= wraps w z < 2 ^ (w - 1).
Proof.
  intros Hw. unfold wraps.
  assert (2 ^ w = 2 * 2 ^ (w - 1)) as E
    by (rewrite <- Z.pow_succ_r by lia; f_equal; lia).
  pose proof (Z.mod_pos_bound (z + 2 ^ (w - 1)) (2 ^ w)).
  assert (0 < 2 ^ (w - 1)) by lia. lia.
Qed.

Lemma wraps_id w z : 0 < w -> - 2 ^ (w - 1) <= z < 2 ^ (w - 1) -> wraps w z = z.
Proof.
  intros Hw Hz. unfold wraps.
  assert (2 ^ w = 2 * 2 ^ (w - 1)) as E
    by (rewrite <- Z.pow_succ_r by lia; f_equal; lia).
  rewrite Z.mod_small; lia.
Qed.

Lemma u32_id z : 0 <= z < 2 ^ 32 -> u32 z = z.
Proof. apply wrapu_id. Qed.
Lemma u16_id z : 0 <= z < 2 ^ 16 -> u16 z = z.
Proof. apply wrapu_id. Qed.
Lemma u8_id z : 0 <= z < 2 ^ 8 -> u8 z = z.
Proof. apply wrapu_id. Qed.
Lemma s32_id z : - 2 ^ 31 <= z < 2 ^ 31 -> s32 z = z.
Proof. intros; apply wraps_id; lia. Qed.
Lemma s16_id z : - 2 ^ 15 <= z < 2 ^ 15 -> s16 z = z.
Proof. intros; apply wraps_id; lia. Qed.
Lemma u32_range z : 0 <= u32 z < 2 ^ 32.
Proof. apply wrapu_range; lia. Qed.
Lemma u16_range z : 0 <= u16 z < 2 ^ 16.
Proof. apply wrapu_range; lia. Qed.

Lemma s32_range z : - 2 ^ 31 <= s32 z < 2 ^ 31.
Proof. apply (wraps_range 32 z); lia. Qed.
Lemma s32_idem z : s32 (s32 z) = s32 z.
Proof. apply s32_id, s32_range. Qed.
Lemma s32_add_l a b : s32 (s32 a + b) = s32 (a + b).
Proof.
  unfold s32, wraps.
  replace ((a + 2 ^ (32 - 1)) mod 2 ^ 32 - 2 ^ (32 - 1) + b + 2 ^ (32 - 1))
    with ((a + 2 ^ (32 - 1)) mod 2 ^ 32 + b) by lia.
  rewrite Z.add_mod_idemp_l by lia. do 2 f_equal. lia.
Qed.

Lemma s16_range z : - 2 ^ 15 <= s16 z < 2 ^ 15.
Proof. apply (wraps_range 16 z); lia. Qed.
Lemma s16_idem z : s16 (s16 z) = s16 z.
Proof. apply s16_id, s16_range. Qed.

(** *** Flag words *)

(** [flag & bit]. *)
Definition has (flag bit : Z) : bool := negb (Z.land flag bit =? 0).

(** [a &~ b]. *)
Definition andnot (a b : Z) : Z := Z.land a (Z.lnot b).

Lemma has_lor f b c : Z.land b c = 0 -> has (Z.lor f b) c = has f c.
Proof. intros E. unfold has. by rewrite Z.land_lor_distr_l, E, Z.lor_0_r. Qed.

Lemma has_clear f b c : Z.land b c = 0 -> has (Z.land f (Z.lnot b)) c = has f c.
Proof.
  intros E. unfold has. do 2 f_equal. apply Z.bits_inj'. intros i Hi. rewrite !Z.land_spec, Z.lnot_spec by done.
  assert (Z.testbit (Z.land b c) i = false) as Hb by (by rewrite E, Z.bits_0). rewrite Z.land_spec in Hb.
  destruct (Z.testbit f i), (Z.testbit b i), (Z.testbit c i); done.
Qed.

(** The hints of the development: the ranges of the machine integers here, the
    parts of their invariants in the components. *)
Create HintDb kernel.
#[export] Hint Resolve u16_range u32_range s16_range s32_range : kernel.
#[export] Hint Rewrite s16_idem s32_idem : kernel.

(** [bool_prop] turns the boolean comparisons of the code in the context and
    the goal into propositions and splits the conditionals. *)
Ltac bool_prop :=
  repeat match goal with
    | H : (_ && _)%bool = true |- _ => apply andb_true_iff in H as [? ?]
    | H : (_ || _)%bool = false |- _ => apply orb_false_iff in H as [? ?]
    | H : negb _ = true |- _ => apply negb_true_iff in H
    | H : negb _ = false |- _ => apply negb_false_iff in H
    | H : (_ && _)%bool = false |- _ => apply andb_false_iff in H
    | H : (_ || _)%bool = true |- _ => apply orb_true_iff in H
    | H : (_ <=? _) = true |- _ => apply Z.leb_le in H
    | H : (_ <=? _) = false |- _ => apply Z.leb_gt in H
    | H : (_ <? _) = true |- _ => apply Z.ltb_lt in H
    | H : (_ <? _) = false |- _ => apply Z.ltb_ge in H
    | H : (_ =? _) = true |- _ => apply Z.eqb_eq in H
    | H : (_ =? _) = false |- _ => apply Z.eqb_neq in H
    end.

Ltac case_if :=
  match goal with
  | |- context [if ?b then _ else _] => destruct b eqn:?
  | H : context [if ?b then _ else _] |- _ => destruct b eqn:?
  end; bool_prop.

(** Addresses of kernel objects. *)
Abbreviation loc := positive (only parsing).

(** The next address the kernel allocator hands out is above all live ones. *)
Definition new_loc {A} (m : gmap loc A) : loc :=
  map_fold (fun k _ acc => Pos.max k acc) 1%positive m + 1.

Lemma new_loc_fresh {A} (m : gmap loc A) : m !! new_loc m = None.
Proof.
  assert (forall k, is_Some (m !! k) ->
    (k <= map_fold (fun k _ acc => Pos.max k acc) 1%positive m)%positive) as H.
  { apply (map_fold_weak_ind (fun r m => forall k, is_Some (m !! k) -> (k <= r)%positive)).
    - intros k [? Hk]. by rewrite lookup_empty in Hk.
    - intros i x m' r Hi IH k Hk. destruct (decide (k = i)) as [->|Hne]; [lia|].
      rewrite lookup_insert_ne in Hk by done. specialize (IH k Hk). lia. }
  unfold new_loc. destruct (m !! _) eqn:E; [|done].
  specialize (H _ (mk_is_Some _ _ E)). lia.
Qed.

(** *** Counting the entries of a table that refer to something *)

Section Count.
Context {K A : Type} `{Countable K} (P : A -> Prop) `{forall x, Decision (P x)}.

Definition one (x : A) : nat := if decide (P x) then 1 else 0.
Definition count_map (m : gmap K A) : nat := size (filter (fun kv => P kv.2) m).

Lemma count_map_fresh m i x : m !! i = None -> count_map (<[i:=x]> m) = (one x + count_map m)%nat.
Proof.
  intros Hi. unfold count_map, one. destruct (decide (P x)).
  - rewrite map_filter_insert_True by done. rewrite map_size_insert_None; [done|].
    rewrite map_lookup_filter_None. by left.
  - rewrite map_filter_insert_False by done. rewrite delete_id by done. done.
Qed.

Lemma count_map_delete m i x : m !! i = Some x -> count_map m = (one x + count_map (delete i m))%nat.
Proof.
  intros Hi. rewrite <- count_map_fresh with (i := i) by (by apply lookup_delete_eq).
  by rewrite insert_delete_id.
Qed.

Lemma count_map_insert m i x y : m !! i = Some x ->
  (count_map (<[i:=y]> m) + one x = count_map m + one y)%nat.
Proof.
  intros Hi. rewrite (count_map_delete m i x) by done.
  rewrite <- insert_delete_eq, count_map_fresh by (by apply lookup_delete_eq). lia.
Qed.

Lemma count_map_pos m i x : m !! i = Some x -> P x -> (0 < count_map m)%nat.
Proof.
  intros Hi Hx. rewrite (count_map_delete m i x) by done. unfold one.
  rewrite decide_True by done. lia.
Qed.

Lemma count_map_zero m : (forall i x, m !! i = Some x -> ~ P x) -> count_map m = 0%nat.
Proof.
  intros Hz. unfold count_map. apply map_size_empty_iff, map_empty. intros i.
  apply map_lookup_filter_None. destruct (m !! i) eqn:E; [right|by left].
  intros x [= <-]. by eapply Hz.
Qed.

(** One reference only: no other entry refers to the thing counted. *)
Lemma count_map_one m i x j y :
  m !! i = Some x -> P x -> (count_map m <= 1)%nat -> m !! j = Some y -> P y -> i = j.
Proof.
  intros Hi Hx Hc Hj Hy. destruct (decide (i = j)); [done|exfalso].
  rewrite (count_map_delete m i x) in Hc by done.
  assert (0 < count_map (delete i m))%nat.
  { apply (count_map_pos _ j y); [|done]. by rewrite lookup_delete_ne. }
  unfold one in Hc. rewrite decide_True in Hc by done. lia.
Qed.
End Count.

(** Two tables with the same entries that refer to something. *)
Lemma count_map_ext {K A B : Type} `{Countable K} (P : A -> Prop) (Q : B -> Prop)
    `{forall x, Decision (P x)} `{forall x, Decision (Q x)} (m : gmap K A) (m' : gmap K B) :
  (forall k, (exists x, m !! k = Some x /\ P x) <-> exists y, m' !! k = Some y /\ Q y) ->
  count_map P m = count_map Q m'.
Proof.
  intros E. unfold count_map. rewrite <- !size_dom. f_equal. apply set_eq. intros k.
  rewrite !elem_of_dom. unfold is_Some. setoid_rewrite map_lookup_filter_Some. cbn. naive_solver.
Qed.

(** *** Adding up over a table *)

Section Sum.
Context {K A : Type} `{Countable K} (wt : A -> nat).

Definition sum_map (m : gmap K A) : nat := map_fold (fun _ x acc => (wt x + acc)%nat) 0%nat m.

Lemma sum_map_fresh m i x : m !! i = None -> sum_map (<[i:=x]> m) = (wt x + sum_map m)%nat.
Proof. intros Hi. unfold sum_map. rewrite map_fold_insert_L; [done| |done]. intros. lia. Qed.

Lemma sum_map_delete m i x : m !! i = Some x -> sum_map m = (wt x + sum_map (delete i m))%nat.
Proof.
  intros Hi. rewrite <- sum_map_fresh with (i := i) by (by apply lookup_delete_eq).
  by rewrite insert_delete_id.
Qed.

Lemma sum_map_insert m i x y : m !! i = Some x ->
  (sum_map (<[i:=y]> m) + wt x = sum_map m + wt y)%nat.
Proof.
  intros Hi. rewrite (sum_map_delete m i x) by done.
  rewrite <- insert_delete_eq, sum_map_fresh by (by apply lookup_delete_eq). lia.
Qed.

Lemma sum_map_zero m : (forall i x, m !! i = Some x -> wt x = 0%nat) -> sum_map m = 0%nat.
Proof.
  induction m as [|i x m Hi IH] using map_ind; intros Hz; [done|].
  rewrite sum_map_fresh by done. rewrite (Hz i x) by apply lookup_insert_eq.
  apply IH. intros j y Hj. apply (Hz j). rewrite lookup_insert_ne; [done|]. by intros ->; rewrite Hi in Hj.
Qed.

Lemma sum_map_ge m i x : m !! i = Some x -> (wt x <= sum_map m)%nat.
Proof. intros Hi. rewrite (sum_map_delete m i x) by done. lia. Qed.
End Sum.

(** ** Error numbers (sys/sys/errno.h) *)

Definition EPERM := 1.
Definition ESRCH := 3.
Definition EINTR := 4.
Definition EBADF := 9.
Definition EDEADLK := 11.
Definition EACCES := 13.
Definition EFAULT := 14.
Definition EINVAL := 22.
Definition ENFILE := 23.
Definition EMFILE := 24.
Definition EAGAIN := 35.
Definition ENAMETOOLONG := 63.

(** ** Advisory lock requests (sys/sys/fcntl.h, unistd.h) *)

Definition F_RDLCK : Z := 1.
Definition F_UNLCK : Z := 2.
Definition F_WRLCK : Z := 3.
Definition F_GETLK : Z := 7.
Definition F_SETLK : Z := 8.
Definition F_WAIT : Z := 16.
Definition F_FLOCK : Z := 32.
Definition F_POSIX : Z := 64.
Definition SEEK_SET : Z := 0.
Definition SEEK_CUR : Z := 1.
Definition SEEK_END : Z := 2.

(** [struct flock] *)
Record flock := mkFlock { l_type : Z; l_whence : Z; l_start : Z; l_len : Z; l_pid : Z }.
