(* ===== verification/Cred.v ===== *)
(** * Credentials (sys/kern/kern_prot.c, struct ucred and struct pcred)

    A [ucred] is shared, with a 16-bit reference count, by the processes and by
    whatever else holds it (open files: [w_held]); a process changes its
    credentials through [crcopy].  The credential parts of fork1, wait and
    execve are here too. *)

From S2P Require Import Prelude.

Definition NGROUPS : Z := 16.
Definition ASU : Z := 2.

Record ucred := mkUcred {
  cr_ref : Z;                (* u_short *)
  cr_uid : Z;                (* uid_t, 16 bits *)
  cr_ngroups : Z;
  cr_groups : list Z;        (* NGROUPS gid_t's *)
}.

Record pcred := mkPcred {
  pc_ucred : loc;
  p_ruid : Z; p_svuid : Z; p_rgid : Z; p_svgid : Z;
  p_refcnt : Z;
}.

(** The fields of a [struct proc] used here; each process has a [pcred] of its
    own, made by fork1. *)
Record proc := mkProc { p_cred : pcred; p_acflag : Z }.

Record world := mkWorld {
  w_ucred : gmap loc ucred;
  w_proc : gmap loc proc;
  w_held : list loc;         (* references held outside the process table *)
}.

Definition set_ucreds (m : gmap loc ucred) (w : world) : world :=
  mkWorld m (w_proc w) (w_held w).
Definition set_proc (p : loc) (pr : proc) (w : world) : world :=
  mkWorld (w_ucred w) (<[p := pr]> (w_proc w)) (w_held w).

(** ** Reference counting *)

Definition with_ref (n : Z) (c : ucred) : ucred :=
  mkUcred n (cr_uid c) (cr_ngroups c) (cr_groups c).

Definition crhold (cr : loc) (w : world) : outcome world :=
  c ← deref (w_ucred w !! cr);
  mret (set_ucreds (<[cr := with_ref (u16 (cr_ref c + 1)) c]> (w_ucred w)) w).

Definition crget (w : world) : loc * world :=
  let cr := new_loc (w_ucred w) in
  (cr, set_ucreds (<[cr := mkUcred 1 0 0 (replicate 16 0)]> (w_ucred w)) w).

Definition crfree (cr : loc) (w : world) : outcome world :=
  c ← deref (w_ucred w !! cr);
  let n := u16 (cr_ref c - 1) in
  if negb (n =? 0) then mret (set_ucreds (<[cr := with_ref n c]> (w_ucred w)) w)
  else mret (set_ucreds (delete cr (w_ucred w)) w).

Definition crcopy (cr : loc) (w : world) : outcome (loc * world) :=
  c ← deref (w_ucred w !! cr);
  if cr_ref c =? 1 then mret (cr, w)
  else
    let '(newcr, w) := crget w in
    let w := set_ucreds (<[newcr := c]> (w_ucred w)) w in
    w ← crfree cr w;
    mret (newcr, set_ucreds (<[newcr := with_ref 1 c]> (w_ucred w)) w).

Definition crdup (cr : loc) (w : world) : outcome (loc * world) :=
  let '(newcr, w) := crget w in
  c ← deref (w_ucred w !! cr);
  mret (newcr, set_ucreds (<[newcr := with_ref 1 c]> (w_ucred w)) w).

(** ** Privilege *)

(** The error and the accounting flags, when there are some. *)
Definition suser (cred : ucred) (acflag : option Z) : Z * option Z :=
  if cr_uid cred =? 0 then (0, (fun f => Z.lor f ASU) <$> acflag)
  else (EPERM, acflag).

(** [suser(cred, &p->p_acflag)]. *)
Definition suser_p (p : loc) (cred : loc) (w : world) : outcome (Z * world) :=
  c ← deref (w_ucred w !! cred);
  pr ← deref (w_proc w !! p);
  let '(error, fl) := suser c (Some (p_acflag pr)) in
  mret (error, set_proc p (mkProc (p_cred pr) (default (p_acflag pr) fl)) w).

(** A failed test is skipped when the ids already allow the change. *)
Definition unless (allowed : bool) (p cred : loc) (w : world) : outcome (Z * world) :=
  if allowed then mret (0, w) else suser_p p cred w.

Definition groupmember (gid : Z) (cred : ucred) : bool :=
  existsb (Z.eqb gid) (take (Z.to_nat (cr_ngroups cred)) (cr_groups cred)).

(** ** System calls: the error and the state *)

(** "Copy credentials so other references do not see our changes": [crcopy],
    the stores into the copy [fc], and those into the [pcred] [fp]. *)
Definition commit (p : loc) (fc : ucred -> ucred) (fp : pcred -> pcred) (w : world) : outcome (Z * world) :=
  pr ← deref (w_proc w !! p);
  '(cr, w) ← crcopy (pc_ucred (p_cred pr)) w;
  c ← deref (w_ucred w !! cr);
  let pc := p_cred pr in
  let pc := mkPcred cr (p_ruid pc) (p_svuid pc) (p_rgid pc) (p_svgid pc) (p_refcnt pc) in
  mret (0, set_proc p (mkProc (fp pc) (p_acflag pr)) (set_ucreds (<[cr := fc c]> (w_ucred w)) w)).

Definition set_uid (uid : Z) (c : ucred) : ucred :=
  mkUcred (cr_ref c) uid (cr_ngroups c) (cr_groups c).
Definition set_gid (gid : Z) (c : ucred) : ucred :=
  mkUcred (cr_ref c) (cr_uid c) (cr_ngroups c) (<[0%nat := gid]> (cr_groups c)).

(** [p->p_cred] and the credentials it points to. *)
Definition load (p : loc) (w : world) : outcome (pcred * ucred) :=
  pr ← deref (w_proc w !! p);
  c ← deref (w_ucred w !! pc_ucred (p_cred pr));
  mret (p_cred pr, c).

Definition setuid (p : loc) (uap_uid : Z) (w : world) : outcome (Z * world) :=
  '(pc, _) ← load p w;
  let uid := u16 uap_uid in
  '(error, w) ← unless (uid =? p_ruid pc) p (pc_ucred pc) w;
  if negb (error =? 0) then mret (error, w)
  else commit p (set_uid uid)
    (fun pc => mkPcred (pc_ucred pc) uid uid (p_rgid pc) (p_svgid pc) (p_refcnt pc)) w.

Definition seteuid (p : loc) (uap_euid : Z) (w : world) : outcome (Z * world) :=
  '(pc, _) ← load p w;
  let euid := u16 uap_euid in
  '(error, w) ← unless ((euid =? p_ruid pc) || (euid =? p_svuid pc)) p (pc_ucred pc) w;
  if negb (error =? 0) then mret (error, w)
  else commit p (set_uid euid) id w.

Definition setgid (p : loc) (uap_gid : Z) (w : world) : outcome (Z * world) :=
  '(pc, _) ← load p w;
  let gid := u16 uap_gid in
  '(error, w) ← unless (gid =? p_rgid pc) p (pc_ucred pc) w;
  if negb (error =? 0) then mret (error, w)
  else commit p (set_gid gid)
    (fun pc => mkPcred (pc_ucred pc) (p_ruid pc) (p_svuid pc) gid gid (p_refcnt pc)) w.

Definition setegid (p : loc) (uap_egid : Z) (w : world) : outcome (Z * world) :=
  '(pc, _) ← load p w;
  let egid := u16 uap_egid in
  '(error, w) ← unless ((egid =? p_rgid pc) || (egid =? p_svgid pc)) p (pc_ucred pc) w;
  if negb (error =? 0) then mret (error, w)
  else commit p (set_gid egid) id w.

Definition osetreuid (p : loc) (uap_ruid uap_euid : Z) (w : world) : outcome (Z * world) :=
  '(pc, c) ← load p w;
  let ruid := if uap_ruid =? -1 then p_ruid pc else u16 uap_ruid in
  '(error, w) ← unless ((ruid =? p_ruid pc) || (ruid =? cr_uid c)) p (pc_ucred pc) w;
  if negb (error =? 0) then mret (error, w)
  else
    let euid := if uap_euid =? -1 then cr_uid c else u16 uap_euid in
    '(error, w) ← unless ((euid =? cr_uid c) || (euid =? p_ruid pc) || (euid =? p_svuid pc))
                    p (pc_ucred pc) w;
    if negb (error =? 0) then mret (error, w)
    else commit p (set_uid euid)
      (fun pc => mkPcred (pc_ucred pc) ruid (p_svuid pc) (p_rgid pc) (p_svgid pc) (p_refcnt pc)) w.

Definition cr_gid (c : ucred) : Z := default 0 (cr_groups c !! 0%nat).

Definition osetregid (p : loc) (uap_rgid uap_egid : Z) (w : world) : outcome (Z * world) :=
  '(pc, c) ← load p w;
  let rgid := if uap_rgid =? -1 then p_rgid pc else u16 uap_rgid in
  '(error, w) ← unless ((rgid =? p_rgid pc) || (rgid =? cr_gid c)) p (pc_ucred pc) w;
  if negb (error =? 0) then mret (error, w)
  else
    let egid := if uap_egid =? -1 then cr_gid c else u16 uap_egid in
    '(error, w) ← unless ((egid =? cr_gid c) || (egid =? p_rgid pc) || (egid =? p_svgid pc))
                    p (pc_ucred pc) w;
    if negb (error =? 0) then mret (error, w)
    else commit p (set_gid egid)
      (fun pc => mkPcred (pc_ucred pc) (p_ruid pc) (p_svuid pc) rgid (p_svgid pc) (p_refcnt pc)) w.

(** [gidset] is what [copyin] yields: an error or the integers. *)
Definition setgroups (p : loc) (gidsetsize : Z) (gidset : Z + list Z) (w : world) : outcome (Z * world) :=
  '(pc, _) ← load p w;
  '(error, w) ← suser_p p (pc_ucred pc) w;
  if negb (error =? 0) then mret (error, w)
  else
    let ngrp := u32 gidsetsize in
    if NGROUPS <? ngrp then mret (EINVAL, w)
    else match gidset with
      | inl error => mret (error, w)
      | inr groups =>
          commit p (fun c => mkUcred (cr_ref c) (cr_uid c) ngrp
              ((u16 <$> take (Z.to_nat ngrp) groups) ++ drop (Z.to_nat ngrp) (cr_groups c)))
            id w
      end.

(** *** Queries: the error and the words of [retval] *)

Definition getuid (p : loc) (w : world) : outcome (Z * list Z) :=
  '(pc, c) ← load p w; mret (0, [p_ruid pc; cr_uid c]).
Definition geteuid (p : loc) (w : world) : outcome (Z * list Z) :=
  '(_, c) ← load p w; mret (0, [cr_uid c]).
Definition getgid (p : loc) (w : world) : outcome (Z * list Z) :=
  '(pc, c) ← load p w; mret (0, [p_rgid pc; cr_gid c]).
Definition getegid (p : loc) (w : world) : outcome (Z * list Z) :=
  '(_, c) ← load p w; mret (0, [cr_gid c]).

(** The groups copied out, when some are; [cout] is what [copyout] returns. *)
Definition getgroups (p : loc) (gidsetsize cout : Z) (w : world) : outcome (Z * list Z * list Z) :=
  '(_, c) ← load p w;
  let ngrp := u32 gidsetsize in
  if ngrp =? 0 then mret (0, [cr_ngroups c], [])
  else if ngrp <? cr_ngroups c then mret (EINVAL, [], [])
  else if negb (cout =? 0) then mret (cout, [], [])
  else mret (0, [cr_ngroups c], take (Z.to_nat (cr_ngroups c)) (cr_groups c)).

(** ** Fork, wait and exec *)

(** fork1: the child's [pcred] is a copy and holds the same [ucred]. *)
Definition cred_fork (p1 p2 : loc) (w : world) : outcome (Z * world) :=
  pr ← deref (w_proc w !! p1);
  let pc := p_cred pr in
  let pc2 := mkPcred (pc_ucred pc) (p_ruid pc) (p_svuid pc) (p_rgid pc) (p_svgid pc) 1 in
  w ← crhold (pc_ucred pc) (set_proc p2 (mkProc pc2 0) w);
  mret (0, w).

(** wait: the credentials of a dead process are let go. *)
Definition cred_exit (p : loc) (w : world) : outcome (Z * world) :=
  pr ← deref (w_proc w !! p);
  if p_refcnt (p_cred pr) - 1 =? 0 then
    w ← crfree (pc_ucred (p_cred pr)) w;
    mret (0, mkWorld (w_ucred w) (delete p (w_proc w)) (w_held w))
  else mret (0, w).

(** execve of a file with (some of) the set-id bits, process not traced:
    [vsuid] and [vsgid] are the owner ids of the file when the bit is set. *)
Definition cred_exec (p : loc) (vsuid vsgid : option Z) (w : world) : outcome (Z * world) :=
  '(_, w) ← match vsuid with
    | Some uid => commit p (set_uid uid)
        (fun pc => mkPcred (pc_ucred pc) (p_ruid pc) uid (p_rgid pc) (p_svgid pc) (p_refcnt pc)) w
    | None => mret (0, w)
    end;
  match vsgid with
  | Some gid => commit p (set_gid gid)
      (fun pc => mkPcred (pc_ucred pc) (p_ruid pc) (p_svuid pc) (p_rgid pc) gid (p_refcnt pc)) w
  | None => mret (0, w)
  end.

(** falloc and ffree: an open file holds the credentials it was opened with. *)
Definition file_hold (p : loc) (w : world) : outcome (Z * world) :=
  pr ← deref (w_proc w !! p);
  let cr := pc_ucred (p_cred pr) in
  w ← crhold cr w;
  mret (0, mkWorld (w_ucred w) (w_proc w) (cr :: w_held w)).

Definition file_release (i : nat) (w : world) : outcome (Z * world) :=
  cr ← deref (w_held w !! i);
  w ← crfree cr w;
  mret (0, mkWorld (w_ucred w) (w_proc w) (delete i (w_held w))).

(** ** Events and their steps *)

Inductive call :=
  | Setuid (uid : Z) | Seteuid (euid : Z) | Setgid (gid : Z) | Setegid (egid : Z)
  | Osetreuid (ruid euid : Z) | Osetregid (rgid egid : Z)
  | Setgroups (n : Z) (gidset : Z + list Z)
  | Execve (vsuid vsgid : option Z).

Definition run_call (p : loc) (k : call) (w : world) : outcome (Z * world) :=
  match k with
  | Setuid u => setuid p u w
  | Seteuid u => seteuid p u w
  | Setgid g => setgid p g w
  | Setegid g => setegid p g w
  | Osetreuid r e => osetreuid p r e w
  | Osetregid r e => osetregid p r e w
  | Setgroups n g => setgroups p n g w
  | Execve u g => cred_exec p u g w
  end.

Inductive event := Call (p : loc) (k : call) | Fork (p1 p2 : loc) | Exit (p : loc)
  | Hold (p : loc) | Release (i : nat).

Definition run_event (e : event) (w : world) : outcome (Z * world) :=
  match e with
  | Call p k => run_call p k w
  | Fork p1 p2 => cred_fork p1 p2 w
  | Exit p => cred_exit p w
  | Hold p => file_hold p w
  | Release i => file_release i w
  end.

(** How many references there are; fork and open are refused (by the process
    and file tables) long before the 16-bit counts are full. *)
Definition total (w : world) : Z := Z.of_nat (size (w_proc w) + length (w_held w)).

(** What a caller must provide: an existing process, a new slot, sane
    arguments from [copyin] and from the file's attributes. *)
Definition enabled (e : event) (w : world) : Prop :=
  match e with
  | Call p k => is_Some (w_proc w !! p) /\
      match k with
      | Setgroups n (inr g) => Z.of_nat (length g) = u32 n
      | Execve u g => (forall x, u = Some x -> 0 <= x < 2 ^ 16) /\ (forall x, g = Some x -> 0 <= x < 2 ^ 16)
      | _ => True
      end
  | Fork p1 p2 => is_Some (w_proc w !! p1) /\ w_proc w !! p2 = None /\ total w + 1 < 2 ^ 16
  | Exit p => is_Some (w_proc w !! p)
  | Hold p => is_Some (w_proc w !! p) /\ total w + 1 < 2 ^ 16
  | Release i => (i < length (w_held w))%nat
  end.

Inductive cstep (ok : event -> Prop) (w w' : world) : Prop :=
  | CStep (e : event) (error : Z) :
      ok e -> enabled e w -> run_event e w = Ok (error, w') -> cstep ok w w'.

(** ** The invariant *)

Definition points_to (l : loc) (pr : proc) : Prop := pc_ucred (p_cred pr) = l.
#[export] Instance points_to_dec l pr : Decision (points_to l pr).
Proof. unfold points_to. apply _. Defined.

Definition held (l : loc) (h : list loc) : nat := length (filter (eq l) h).
Definition refs (w : world) (l : loc) : nat :=
  (count_map (points_to l) (w_proc w) + held l (w_held w))%nat.

Definition is_id (i : Z) : Prop := 0 <= i < 2 ^ 16.
Definition wf_ucred (c : ucred) : Prop :=
  is_id (cr_uid c) /\ 0 <= cr_ngroups c <= NGROUPS /\ length (cr_groups c) = Z.to_nat NGROUPS
  /\ Forall is_id (cr_groups c).
Definition wf_pcred (pc : pcred) : Prop :=
  is_id (p_ruid pc) /\ is_id (p_svuid pc) /\ is_id (p_rgid pc) /\ is_id (p_svgid pc)
  /\ p_refcnt pc = 1.

(** Every count is the number of references; nothing referenced is freed and
    nothing allocated is unreferenced. *)
Record inv (w : world) : Prop := mkInv {
  inv_ref : forall l, match w_ucred w !! l with
    | Some c => cr_ref c = Z.of_nat (refs w l) /\ (0 < refs w l)%nat /\ wf_ucred c
    | None => refs w l = 0%nat
    end;
  inv_total : total w < 2 ^ 16;
  inv_proc : forall p pr, w_proc w !! p = Some pr -> wf_pcred (p_cred pr);
}.

(** ** Reference counts, apart from who holds the references *)

Definition counts (m : gmap loc ucred) (rf : loc -> nat) : Prop :=
  forall l, match m !! l with
    | Some c => cr_ref c = Z.of_nat (rf l) /\ (0 < rf l)%nat /\ wf_ucred c
    | None => rf l = 0%nat
    end.

Definition add1 (l : loc) (rf : loc -> nat) (k : loc) : nat :=
  if decide (k = l) then S (rf k) else rf k.
Definition sub1 (l : loc) (rf : loc -> nat) (k : loc) : nat :=
  if decide (k = l) then pred (rf k) else rf k.

(** What a reference shows: the credentials without the count. *)
Definition content (c : ucred) : Z * Z * list Z := (cr_uid c, cr_ngroups c, cr_groups c).

Lemma counts_lookup m rf l : counts m rf -> (0 < rf l)%nat ->
  exists c, m !! l = Some c /\ cr_ref c = Z.of_nat (rf l) /\ wf_ucred c.
Proof. intros Hc Hl. specialize (Hc l). destruct (m !! l); [naive_solver|lia]. Qed.

Lemma counts_ext m rf rf' : (forall l, rf l = rf' l) -> counts m rf -> counts m rf'.
Proof. intros He Hc l. specialize (Hc l). by rewrite <- He. Qed.

(** Replace one entry, everything else as it was. *)
Lemma counts_insert m rf rf' l c :
  counts m rf -> (forall k, k <> l -> rf' k = rf k) ->
  cr_ref c = Z.of_nat (rf' l) -> (0 < rf' l)%nat -> wf_ucred c -> counts (<[l:=c]> m) rf'.
Proof.
  intros Hc He Hr Hp Hw k. destruct (decide (k = l)) as [->|Hne].
  - by rewrite lookup_insert_eq.
  - rewrite lookup_insert_ne by done. rewrite He by done. apply Hc.
Qed.

Lemma crhold_spec l w rf : counts (w_ucred w) rf -> (0 < rf l)%nat -> Z.of_nat (rf l) + 1 < 2 ^ 16 ->
  exists m, crhold l w = Ok (set_ucreds m w) /\ counts m (add1 l rf)
    /\ forall k, content <$> m !! k = content <$> w_ucred w !! k.
Proof.
  intros Hc Hl Hb. destruct (counts_lookup _ _ _ Hc Hl) as (c&Hm&Hr&Hw).
  unfold crhold. rewrite Hm. cbn. eexists. split; [reflexivity|]. split.
  - apply (counts_insert _ rf); [done| | | |done]; unfold add1.
    + intros k Hk. by rewrite decide_False.
    + rewrite decide_True by done. cbn. rewrite Hr, u16_id; lia.
    + rewrite decide_True by done. lia.
  - intros k. destruct (decide (k = l)) as [->|Hne].
    + by rewrite lookup_insert_eq, Hm.
    + by rewrite lookup_insert_ne.
Qed.

Lemma crfree_spec l w rf : counts (w_ucred w) rf -> (0 < rf l)%nat -> Z.of_nat (rf l) < 2 ^ 16 ->
  exists m, crfree l w = Ok (set_ucreds m w) /\ counts m (sub1 l rf)
    /\ (forall k, (0 < sub1 l rf k)%nat -> content <$> m !! k = content <$> w_ucred w !! k)
    /\ (forall k, w_ucred w !! k = None -> m !! k = None).
Proof.
  intros Hc Hl Hb. destruct (counts_lookup _ _ _ Hc Hl) as (c&Hm&Hr&Hw).
  unfold crfree. rewrite Hm. cbn [deref mbind outcome_bind mret outcome_ret].
  rewrite u16_id by lia. rewrite Hr. destruct (Z.of_nat (rf l) - 1 =? 0) eqn:E; cbn [negb]; bool_prop.
  - eexists. split; [reflexivity|]. split_and!.
    + intros k. unfold sub1. destruct (decide (k = l)) as [->|Hne].
      * rewrite lookup_delete_eq. lia.
      * rewrite lookup_delete_ne by done. apply Hc.
    + intros k Hk. unfold sub1 in Hk. destruct (decide (k = l)) as [->|Hne]; [lia|].
      by rewrite lookup_delete_ne.
    + intros k Hk. by rewrite lookup_delete_None; right.
  - eexists. split; [reflexivity|]. split_and!.
    + apply (counts_insert _ rf); [done| | | |done]; unfold sub1.
      * intros k Hk. by rewrite decide_False.
      * rewrite decide_True by done. cbn. lia.
      * rewrite decide_True by done. lia.
    + intros k _. destruct (decide (k = l)) as [->|Hne].
      * by rewrite lookup_insert_eq, Hm.
      * by rewrite lookup_insert_ne.
    + intros k Hk. rewrite lookup_insert_ne; [done|]. by intros ->; rewrite Hm in Hk.
Qed.

(** [crcopy] moves one reference from [l] to a [ucred] with the same contents
    that nobody else refers to; what the other references show is kept. *)
Lemma crcopy_spec l w rf : counts (w_ucred w) rf -> (0 < rf l)%nat -> Z.of_nat (rf l) < 2 ^ 16 ->
  exists l' m c, crcopy l w = Ok (l', set_ucreds m w) /\ counts m (add1 l' (sub1 l rf))
    /\ add1 l' (sub1 l rf) l' = 1%nat
    /\ m !! l' = Some c /\ (content <$> w_ucred w !! l) = Some (content c)
    /\ (forall k, (0 < sub1 l rf k)%nat -> content <$> m !! k = content <$> w_ucred w !! k).
Proof.
  intros Hc Hl Hb. destruct (counts_lookup _ _ _ Hc Hl) as (c&Hm&Hr&Hw).
  unfold crcopy. rewrite Hm. cbn [deref mbind outcome_bind]. case_if.
  - exists l, (w_ucred w), c. split; [by destruct w|].
    assert (forall k, add1 l (sub1 l rf) k = rf k) as He.
    { intros k. unfold add1, sub1. destruct (decide (k = l)) as [->|]; lia. }
    split_and!; [|rewrite He; lia|done|done|done].
    by apply (counts_ext _ rf).
  - unfold crget. cbn [set_ucreds w_ucred w_proc w_held].
    set (l' := new_loc (w_ucred w)). rewrite insert_insert_eq.
    pose proof (new_loc_fresh (w_ucred w)) as Hf. fold l' in Hf.
    assert (l' <> l) as Hne by (intros ->; congruence).
    assert (rf l' = 0%nat) as Hrf by (specialize (Hc l'); by rewrite Hf in Hc).
    unfold crfree. cbn [w_ucred set_ucreds]. rewrite lookup_insert_ne, Hm by done.
    cbn [deref mbind outcome_bind mret outcome_ret]. rewrite u16_id by lia.
    replace (negb (cr_ref c - 1 =? 0)) with true by (symmetry; apply negb_true_iff, Z.eqb_neq; lia).
    cbn [mbind outcome_bind w_ucred set_ucreds w_proc w_held].
    eexists l', _, (with_ref 1 c). split; [reflexivity|].
    assert (add1 l' (sub1 l rf) l' = 1%nat) as H1.
    { unfold add1, sub1. rewrite decide_True, decide_False by done. lia. }
    split_and!; [|done|cbn [w_ucred set_ucreds]; by rewrite lookup_insert_eq|done|].
    + intros k. cbn [w_ucred set_ucreds]. destruct (decide (k = l')) as [->|Hk'].
      { rewrite lookup_insert_eq, H1. split_and!; [done|lia|done]. }
      rewrite lookup_insert_ne by done. unfold add1, sub1. rewrite decide_False by done.
      destruct (decide (k = l)) as [->|Hkl].
      * rewrite lookup_insert_eq. cbn. split_and!; [lia|lia|done].
      * rewrite !lookup_insert_ne by done. apply Hc.
    + intros k Hk. cbn [w_ucred set_ucreds]. destruct (decide (k = l')) as [->|Hk'].
      { unfold sub1 in Hk. rewrite decide_False in Hk by done. lia. }
      rewrite lookup_insert_ne by done. destruct (decide (k = l)) as [->|Hkl].
      * by rewrite lookup_insert_eq, Hm.
      * by rewrite !lookup_insert_ne.
Qed.

(** ** Who holds the references *)

Lemma refs_le_total w l : Z.of_nat (refs w l) <= total w.
Proof.
  unfold refs, total, held, count_map.
  pose proof (map_filter_subseteq (fun kv => points_to l kv.2) (w_proc w)) as Hs.
  apply map_subseteq_size in Hs.
  pose proof (length_filter (eq l) (w_held w)). lia.
Qed.

Lemma count_points (m : gmap loc proc) p pr pr' l : m !! p = Some pr ->
  count_map (points_to l) (<[p := pr']> m)
  = add1 (pc_ucred (p_cred pr')) (sub1 (pc_ucred (p_cred pr)) (fun l => count_map (points_to l) m)) l.
Proof.
  intros Hp. pose proof (count_map_insert (points_to l) m p pr pr' Hp) as H.
  assert (points_to l pr -> (0 < count_map (points_to l) m)%nat) as Hpos
    by (intros; by eapply count_map_pos).
  unfold one, points_to, add1, sub1 in *. repeat case_decide; subst; try done; lia.
Qed.

Lemma refs_pos w p pr : w_proc w !! p = Some pr -> (0 < refs w (pc_ucred (p_cred pr)))%nat.
Proof.
  intros Hp. unfold refs. pose proof (count_map_pos (points_to (pc_ucred (p_cred pr))) _ p pr Hp).
  unfold points_to in *. specialize (H eq_refl). lia.
Qed.

Lemma held_pos w l : l ∈ w_held w -> (0 < held l (w_held w))%nat.
Proof.
  intros Hl. unfold held. assert (l ∈ filter (eq l) (w_held w)) as Hf
    by (apply list_elem_of_filter; done).
  destruct (filter _ _); [by apply not_elem_of_nil in Hf|cbn; lia].
Qed.

(** The references other than the one process [p] has. *)
Lemma others_proc w p pr q prq : w_proc w !! p = Some pr -> w_proc w !! q = Some prq -> q <> p ->
  (0 < sub1 (pc_ucred (p_cred pr)) (refs w) (pc_ucred (p_cred prq)))%nat.
Proof.
  intros Hp Hq Hne. unfold sub1. pose proof (refs_pos w q prq Hq). case_decide as Hd; [|done].
  unfold refs in *. destruct (decide (count_map (points_to (pc_ucred (p_cred prq))) (w_proc w) <= 1)%nat);
    [|lia].
  exfalso. apply Hne. eapply (count_map_one (points_to (pc_ucred (p_cred prq)))); eauto; unfold points_to; done.
Qed.

Lemma others_held w p pr h : w_proc w !! p = Some pr -> h ∈ w_held w ->
  (0 < sub1 (pc_ucred (p_cred pr)) (refs w) h)%nat.
Proof.
  intros Hp Hh. pose proof (held_pos w h Hh). unfold sub1, refs. case_decide as Hd; [|lia].
  pose proof (count_map_pos (points_to h) _ p pr Hp). unfold points_to in *. subst.
  specialize (H0 eq_refl). lia.
Qed.

(** ** What a process and a holder see *)

Definition ids (pc : pcred) : Z * Z * Z * Z := (p_ruid pc, p_svuid pc, p_rgid pc, p_svgid pc).

Definition hview (w : world) (h : loc) : option (Z * Z * list Z) := content <$> w_ucred w !! h.
Definition pview (w : world) (p : loc) : option (Z * Z * Z * Z * (Z * Z * list Z)) :=
  pr ← w_proc w !! p;
  pair (ids (p_cred pr)) <$> hview w (pc_ucred (p_cred pr)).

(** A step of [p] that nobody else notices. *)
Definition isolated (p : loc) (w w' : world) : Prop :=
  (forall q, q <> p -> pview w' q = pview w q) /\ w_held w' = w_held w
  /\ (forall h, h ∈ w_held w -> hview w' h = hview w h).

Lemma inv_counts w : inv w -> counts (w_ucred w) (refs w).
Proof. intros [Hc _ _] l. apply Hc. Qed.

Lemma inv_bound w l : inv w -> Z.of_nat (refs w l) < 2 ^ 16.
Proof. intros [_ Ht _]. pose proof (refs_le_total w l). lia. Qed.

Lemma inv_load w p pr : inv w -> w_proc w !! p = Some pr ->
  exists c, load p w = Ok (p_cred pr, c) /\ w_ucred w !! pc_ucred (p_cred pr) = Some c
    /\ wf_ucred c /\ pview w p = Some (ids (p_cred pr), content c).
Proof.
  intros Hi Hp.
  destruct (counts_lookup _ _ (pc_ucred (p_cred pr)) (inv_counts w Hi)) as (c&Hm&_&Hw);
    [by eapply refs_pos|].
  exists c. unfold load, pview, hview. rewrite Hp. cbn. rewrite Hm. done.
Qed.

(** Accounting flags matter to nobody. *)
Lemma set_acflag_inv w p pr fl : inv w -> w_proc w !! p = Some pr ->
  inv (set_proc p (mkProc (p_cred pr) fl) w)
  /\ (forall q, pview (set_proc p (mkProc (p_cred pr) fl) w) q = pview w q).
Proof.
  intros Hi Hp. split.
  - assert (forall l, refs (set_proc p (mkProc (p_cred pr) fl) w) l = refs w l) as Hr.
    { intros l. unfold refs. cbn [w_proc set_proc w_held]. rewrite (count_points _ p pr) by done.
      cbn [p_cred]. unfold add1, sub1.
      pose proof (refs_pos w p pr Hp).
      pose proof (count_map_pos (points_to (pc_ucred (p_cred pr))) _ p pr Hp eq_refl).
      repeat case_decide; subst; lia. }
    destruct Hi as [Hc Ht Hpr]. split.
    + intros l. specialize (Hc l). cbn. rewrite Hr. done.
    + unfold total in *. cbn. rewrite map_size_insert_Some by done. done.
    + intros q prq. cbn. destruct (decide (q = p)) as [->|Hne].
      * rewrite lookup_insert_eq. intros [= <-]. cbn. by eapply Hpr.
      * rewrite lookup_insert_ne by done. apply Hpr.
  - intros q. unfold pview. cbn. destruct (decide (q = p)) as [->|Hne].
    + by rewrite lookup_insert_eq, Hp.
    + by rewrite lookup_insert_ne.
Qed.

(** *** The update of a process's credentials *)

Definition good_fc (fc : ucred -> ucred) : Prop := forall c,
  cr_ref (fc c) = cr_ref c /\ (wf_ucred c -> wf_ucred (fc c))
  /\ forall c', content c' = content c -> content (fc c') = content (fc c).
Definition good_fp (fp : pcred -> pcred) : Prop := forall pc,
  pc_ucred (fp pc) = pc_ucred pc /\ (wf_pcred pc -> wf_pcred (fp pc))
  /\ forall pc', ids pc' = ids pc -> ids (fp pc') = ids (fp pc).

Lemma commit_spec p fc fp w pr c :
  inv w -> w_proc w !! p = Some pr -> w_ucred w !! pc_ucred (p_cred pr) = Some c ->
  good_fc fc -> good_fp fp ->
  exists w', commit p fc fp w = Ok (0, w') /\ inv w' /\ isolated p w w'
    /\ pview w' p = Some (ids (fp (p_cred pr)), content (fc c)).
Proof.
  intros Hi Hp Hm Hfc Hfp. set (l := pc_ucred (p_cred pr)) in *.
  destruct (crcopy_spec l w (refs w) (inv_counts w Hi)) as (l'&m&c1&Hcr&Hcm&H1&Hm1&Hco&Hoth);
    [by eapply refs_pos|by apply inv_bound|].
  unfold commit. rewrite Hp. cbn [deref mbind outcome_bind]. fold l. rewrite Hcr.
  cbn [mbind outcome_bind w_ucred set_ucreds]. rewrite Hm1. cbn [deref mbind outcome_bind mret outcome_ret].
  set (pc := mkPcred l' _ _ _ _ _). eexists. split; [reflexivity|].
  rewrite Hm in Hco. cbn in Hco. injection Hco as Hco1 Hco2 Hco3.
  assert (content (fc c1) = content (fc c)) as Hcfc
    by (apply Hfc; unfold content; congruence).
  assert (pc_ucred (fp pc) = l') as Hl' by (by destruct (Hfp pc) as (->&_)).
  assert (forall k, (0 < sub1 l (refs w) k)%nat ->
    content <$> (<[l':=fc c1]> m) !! k = content <$> w_ucred w !! k) as Hoth'.
  { intros k Hk. rewrite lookup_insert_ne; [by apply Hoth|]. intros <-.
    unfold add1 in H1. rewrite decide_True in H1 by done. lia. }
  split_and!.
  - destruct Hi as [Hc Ht Hpr]. split.
    + assert (counts (<[l':=fc c1]> m) (add1 l' (sub1 l (refs w)))) as Hk.
      { destruct (counts_lookup _ _ l' Hcm) as (c2&Hm2&Hr2&Hw2); [lia|]. rewrite Hm1 in Hm2.
        injection Hm2 as <-. destruct (Hfc c1) as (Hf1&Hf2&_).
        apply (counts_insert _ (add1 l' (sub1 l (refs w)))); [done|done|by rewrite Hf1|lia|by apply Hf2]. }
      intros k. specialize (Hk k). cbn [w_ucred set_proc set_ucreds].
      replace (refs _ k) with (add1 l' (sub1 l (refs w)) k); [done|].
      pose proof (refs_pos w p pr Hp) as Hpos.
      assert (k = l -> (0 < count_map (points_to k) (w_proc w))%nat) as Hkl
        by (intros ->; by apply (count_map_pos _ _ p pr)).
      unfold refs. cbn [w_proc set_proc set_ucreds w_held].
      rewrite (count_points _ p pr) by done. cbn [p_cred]. rewrite Hl'. fold l.
      unfold add1, sub1. repeat case_decide; try specialize (Hkl ltac:(done)); lia.
    + unfold total in *. cbn. rewrite map_size_insert_Some by done. done.
    + intros q prq. cbn. destruct (decide (q = p)) as [->|Hne].
      * rewrite lookup_insert_eq. intros [= <-]. cbn. apply Hfp. by apply (Hpr p pr) in Hp.
      * rewrite lookup_insert_ne by done. apply Hpr.
  - split_and!; [|done|].
    + intros q Hq. unfold pview. cbn. rewrite lookup_insert_ne by done.
      destruct (w_proc w !! q) as [prq|] eqn:Eq; [|done]. cbn.
      pose proof (Hoth' (pc_ucred (p_cred prq)) (others_proc w p pr q prq Hp Eq Hq)) as He.
      unfold hview. cbn. by rewrite He.
    + intros h Hh. unfold hview. cbn. apply Hoth'. by eapply others_held.
  - unfold pview, hview. cbn. rewrite lookup_insert_eq. cbn. rewrite Hl', lookup_insert_eq. cbn.
    rewrite Hcfc. do 2 f_equal. by apply Hfp.
Qed.

(** A step that changes no credentials at all. *)
Record calm (p : loc) (pr : proc) (w w' : world) : Prop := mkCalm {
  calm_inv : inv w';
  calm_ucred : w_ucred w' = w_ucred w;
  calm_held : w_held w' = w_held w;
  calm_view : forall q, pview w' q = pview w q;
  calm_proc : exists fl, w_proc w' !! p = Some (mkProc (p_cred pr) fl);
}.

Lemma calm_isolated p pr w w' : calm p pr w w' -> isolated p w w'.
Proof. intros [_ Hu Hh Hv _]. split_and!; [done|done|]. intros. unfold hview. by rewrite Hu. Qed.

Lemma calm_refl p pr w : inv w -> w_proc w !! p = Some pr -> calm p pr w w.
Proof. intros. split; try done. exists (p_acflag pr). by destruct pr. Qed.

Lemma isolated_trans p w w1 w2 : isolated p w w1 -> isolated p w1 w2 -> isolated p w w2.
Proof.
  intros (Hq1&Hh1&Hv1) (Hq2&Hh2&Hv2). split_and!; [|congruence|].
  - intros q Hq. by rewrite Hq2, Hq1.
  - intros h Hh. by rewrite Hv2, Hv1 by (by rewrite ?Hh1).
Qed.

Lemma suser_p_spec p w pr c : inv w -> w_proc w !! p = Some pr ->
  w_ucred w !! pc_ucred (p_cred pr) = Some c ->
  exists w', suser_p p (pc_ucred (p_cred pr)) w = Ok (if cr_uid c =? 0 then 0 else EPERM, w')
    /\ calm p pr w w'.
Proof.
  intros Hi Hp Hm. unfold suser_p, suser. rewrite Hm, Hp. cbn [deref mbind outcome_bind].
  assert (forall fl, calm p pr w (set_proc p (mkProc (p_cred pr) fl) w)) as Hcalm.
  { intros fl. destruct (set_acflag_inv w p pr fl Hi Hp) as [Hi' Hv]. split; try done.
    exists fl. cbn. by rewrite lookup_insert_eq. }
  case_if; cbn; eexists; (split; [reflexivity|]); apply Hcalm.
Qed.

Lemma unless_spec b p w pr c : inv w -> w_proc w !! p = Some pr ->
  w_ucred w !! pc_ucred (p_cred pr) = Some c ->
  exists w', unless b p (pc_ucred (p_cred pr)) w = Ok (if b || (cr_uid c =? 0) then 0 else EPERM, w')
    /\ calm p pr w w'.
Proof.
  intros Hi Hp Hm. unfold unless. destruct b; cbn [orb].
  - exists w. split; [done|]. by apply calm_refl.
  - by apply suser_p_spec.
Qed.

(** The outcome of a call against what it should do to the caller's view. *)
Definition meets (p : loc) (w : world) (o : outcome (Z * world))
    (r : Z * (Z * Z * Z * Z * (Z * Z * list Z))) : Prop :=
  exists w', o = Ok (r.1, w') /\ inv w' /\ pview w' p = Some r.2 /\ isolated p w w'.

Lemma calm_meets p pr c w w1 e : w_proc w !! p = Some pr ->
  w_ucred w !! pc_ucred (p_cred pr) = Some c ->
  calm p pr w w1 -> meets p w (Ok (e, w1)) (e, (ids (p_cred pr), content c)).
Proof.
  intros Hp Hm Hc. exists w1. split_and!; [done|by apply Hc| |by eapply calm_isolated].
  rewrite (calm_view _ _ _ _ Hc). unfold pview, hview. rewrite Hp. cbn. by rewrite Hm.
Qed.

Lemma commit_meets p pr c w w1 fc fp : w_proc w !! p = Some pr ->
  w_ucred w !! pc_ucred (p_cred pr) = Some c -> calm p pr w w1 -> good_fc fc -> good_fp fp ->
  meets p w (commit p fc fp w1) (0, (ids (fp (p_cred pr)), content (fc c))).
Proof.
  intros Hp Hm Hc Hfc Hfp. destruct (calm_proc _ _ _ _ Hc) as [fl Hp1].
  destruct (commit_spec p fc fp w1 _ c (calm_inv _ _ _ _ Hc) Hp1) as (w2&->&Hi2&Hiso&Hv);
    [cbn; by rewrite (calm_ucred _ _ _ _ Hc)|done..|].
  exists w2. split_and!; [done|done|done|]. eapply isolated_trans; [by eapply calm_isolated|done].
Qed.

(** The shape of setuid, seteuid, setgid and setegid. *)
Lemma guarded_meets p pr c w b fc fp : inv w -> w_proc w !! p = Some pr ->
  w_ucred w !! pc_ucred (p_cred pr) = Some c -> good_fc fc -> good_fp fp ->
  meets p w
    ('(error, w) ← unless b p (pc_ucred (p_cred pr)) w;
     if negb (error =? 0) then mret (error, w) else commit p fc fp w)
    (if b || (cr_uid c =? 0) then (0, (ids (fp (p_cred pr)), content (fc c)))
     else (EPERM, (ids (p_cred pr), content c))).
Proof.
  intros Hi Hp Hm Hfc Hfp. destruct (unless_spec b p w pr c Hi Hp Hm) as (w1&->&Hc).
  cbn [mbind outcome_bind]. destruct (b || (cr_uid c =? 0)); cbn [Z.eqb negb].
  - by apply commit_meets.
  - by eapply calm_meets.
Qed.

(** *** The updates keep the types *)

Lemma u16_is_id z : is_id (u16 z).
Proof. apply u16_range. Qed.

Lemma good_set_uid uid : is_id uid -> good_fc (set_uid uid).
Proof.
  intros Hu c. split_and!; [done| |].
  - intros [_ Hrest]. split; [done|exact Hrest].
  - unfold content. cbn. intros c' [=]. congruence.
Qed.

Lemma good_set_gid gid : is_id gid -> good_fc (set_gid gid).
Proof.
  intros Hg c. split_and!; [done| |].
  - intros (?&?&?&?). unfold wf_ucred. cbn. rewrite length_insert.
    split; [done|]. split; [done|]. split; [done|by apply Forall_insert].
  - unfold content. cbn. intros c' [=]. congruence.
Qed.

Lemma good_id : good_fp id.
Proof. intros pc. split; [done|]. split; [done|]. by intros. Qed.

(** An update of a [pcred] that stores 16-bit ids. *)
Ltac good_fp :=
  intros pc; split; [done|]; split;
    [intros (?&?&?&?&?); unfold wf_pcred; cbn [p_ruid p_svuid p_rgid p_svgid p_refcnt];
       split_and!; first [done|apply u16_is_id|idtac]
    |intros pc' Hids; unfold ids in *; cbn in *; congruence].

(** ** Specification of the calls, on the caller's ids alone *)

Definition call_spec (k : call) (v : Z * Z * Z * Z * (Z * Z * list Z)) :
    Z * (Z * Z * Z * Z * (Z * Z * list Z)) :=
  let '(r, s, rg, sg, (e, n, gs)) := v in
  let gid := default 0 (gs !! 0%nat) in
  match k with
  | Setuid u =>
      let u := u16 u in
      if (u =? r) || (e =? 0) then (0, (u, u, rg, sg, (u, n, gs))) else (EPERM, v)
  | Seteuid u =>
      let u := u16 u in
      if (u =? r) || (u =? s) || (e =? 0) then (0, (r, s, rg, sg, (u, n, gs))) else (EPERM, v)
  | Setgid g =>
      let g := u16 g in
      if (g =? rg) || (e =? 0) then (0, (r, s, g, g, (e, n, <[0%nat := g]> gs))) else (EPERM, v)
  | Setegid g =>
      let g := u16 g in
      if (g =? rg) || (g =? sg) || (e =? 0) then (0, (r, s, rg, sg, (e, n, <[0%nat := g]> gs)))
      else (EPERM, v)
  | Osetreuid a b =>
      let a := if a =? -1 then r else u16 a in
      let b := if b =? -1 then e else u16 b in
      if ((a =? r) || (a =? e) || (e =? 0)) && ((b =? e) || (b =? r) || (b =? s) || (e =? 0))
      then (0, (a, s, rg, sg, (b, n, gs))) else (EPERM, v)
  | Osetregid a b =>
      let a := if a =? -1 then rg else u16 a in
      let b := if b =? -1 then gid else u16 b in
      if ((a =? rg) || (a =? gid) || (e =? 0)) && ((b =? gid) || (b =? rg) || (b =? sg) || (e =? 0))
      then (0, (r, s, a, sg, (e, n, <[0%nat := b]> gs))) else (EPERM, v)
  | Setgroups m g =>
      let m := u32 m in
      if negb (e =? 0) then (EPERM, v)
      else if NGROUPS <? m then (EINVAL, v)
      else match g with
        | inl error => (error, v)
        | inr l => (0, (r, s, rg, sg, (e, m, (u16 <$> l) ++ drop (length l) gs)))
        end
  | Execve u g =>
      let '(s, e) := match u with Some u => (u, u) | None => (s, e) end in
      let '(sg, gs) := match g with Some g => (g, <[0%nat := g]> gs) | None => (sg, gs) end in
      (0, (r, s, rg, sg, (e, n, gs)))
  end.

Lemma calm_unless b p pr c w w1 : w_ucred w !! pc_ucred (p_cred pr) = Some c -> calm p pr w w1 ->
  exists w2, unless b p (pc_ucred (p_cred pr)) w1 = Ok (if b || (cr_uid c =? 0) then 0 else EPERM, w2)
    /\ calm p pr w w2.
Proof.
  intros Hm Hc. destruct (calm_proc _ _ _ _ Hc) as [fl Hp1].
  destruct (unless_spec b p w1 _ c (calm_inv _ _ _ _ Hc) Hp1) as (w2&Hu&[]);
    [cbn; by rewrite (calm_ucred _ _ _ _ Hc)|].
  exists w2. split; [exact Hu|]. destruct Hc. split; [done|congruence..| |done].
  intros q. congruence.
Qed.

(** The shape of osetreuid and osetregid: two tests. *)
Lemma guarded2_meets p pr c w b1 b2 fc fp : inv w -> w_proc w !! p = Some pr ->
  w_ucred w !! pc_ucred (p_cred pr) = Some c -> good_fc fc -> good_fp fp ->
  meets p w
    ('(error, w) ← unless b1 p (pc_ucred (p_cred pr)) w;
     if negb (error =? 0) then mret (error, w)
     else
       '(error, w) ← unless b2 p (pc_ucred (p_cred pr)) w;
       if negb (error =? 0) then mret (error, w) else commit p fc fp w)
    (if (b1 || (cr_uid c =? 0)) && (b2 || (cr_uid c =? 0))
     then (0, (ids (fp (p_cred pr)), content (fc c))) else (EPERM, (ids (p_cred pr), content c))).
Proof.
  intros Hi Hp Hm Hfc Hfp. destruct (unless_spec b1 p w pr c Hi Hp Hm) as (w1&->&Hc).
  cbn [mbind outcome_bind]. destruct (b1 || (cr_uid c =? 0)); cbn [Z.eqb negb andb];
    [|by eapply calm_meets].
  destruct (calm_unless b2 p pr c w w1 Hm Hc) as (w2&->&Hc2). cbn [mbind outcome_bind].
  destruct (b2 || (cr_uid c =? 0)); cbn [Z.eqb negb andb]; [by apply commit_meets|by eapply calm_meets].
Qed.

Lemma good_setgroups m l : 0 <= m <= NGROUPS -> Z.of_nat (length l) = m ->
  good_fc (fun c => mkUcred (cr_ref c) (cr_uid c) m
    ((u16 <$> take (Z.to_nat m) l) ++ drop (Z.to_nat m) (cr_groups c))).
Proof.
  intros Hm Hl c. split; [done|]. split.
  - intros (?&?&Hlen&?). unfold wf_ucred. cbn. split; [done|]. split; [done|]. split.
    + rewrite length_app, length_fmap, length_take, length_drop. unfold NGROUPS in *. lia.
    + apply Forall_app_2; [|by apply Forall_drop]. apply Forall_fmap, Forall_true. intros; apply u16_is_id.
  - unfold content. cbn. intros c' [=]. congruence.
Qed.

(** setgroups: the super-user test, then the copy. *)
Lemma setgroups_meets p pr c w m g : inv w -> enabled (Call p (Setgroups m g)) w ->
  w_proc w !! p = Some pr -> w_ucred w !! pc_ucred (p_cred pr) = Some c ->
  meets p w (setgroups p m g w) (call_spec (Setgroups m g) (ids (p_cred pr), content c)).
Proof.
  intros Hi [_ Hg] Hp Hm. destruct (inv_load w p pr Hi Hp) as (c'&Hl&Hm'&Hwc&_).
  rewrite Hm in Hm'. injection Hm' as <-.
  unfold setgroups. rewrite Hl. cbn [mbind outcome_bind].
  destruct (suser_p_spec p w pr c Hi Hp Hm) as (w1&->&Hc). cbn [mbind outcome_bind].
  cbn [call_spec ids content]. destruct (cr_uid c =? 0); cbn [Z.eqb negb]; [|by eapply calm_meets].
  case_if; [by eapply calm_meets|]. destruct g as [error|l]; [by eapply calm_meets|].
  assert (0 <= u32 m) by apply u32_range.
  rewrite <- Hg, Nat2Z.id, firstn_all.
  apply (commit_meets p pr c w w1 (fun c => mkUcred (cr_ref c) (cr_uid c) (Z.of_nat (length l))
    ((u16 <$> l) ++ drop (length l) (cr_groups c))) id Hp Hm Hc); [|apply good_id].
  pose proof (good_setgroups (Z.of_nat (length l)) l ltac:(lia) eq_refl) as H'.
  by rewrite Nat2Z.id, firstn_all in H'.
Qed.

Lemma meets_trans p k2 w o r1 r2 : meets p w o r1 ->
  (forall w1, inv w1 -> pview w1 p = Some r1.2 -> meets p w1 (k2 w1) r2) ->
  meets p w ('(_, w) ← o; k2 w) r2.
Proof.
  intros (w1&->&Hi&Hv&Hiso) Hk. cbn [mbind outcome_bind].
  destruct (Hk w1 Hi Hv) as (w2&->&?&?&?). exists w2. split_and!; try done; by eapply isolated_trans.
Qed.

Lemma pview_Some w p v : inv w -> pview w p = Some v ->
  exists pr c, w_proc w !! p = Some pr /\ w_ucred w !! pc_ucred (p_cred pr) = Some c
    /\ v = (ids (p_cred pr), content c) /\ wf_ucred c.
Proof.
  intros Hi. unfold pview, hview. destruct (w_proc w !! p) as [pr|] eqn:Hp; [|done]. cbn.
  destruct (inv_load w p pr Hi Hp) as (c&_&Hm&Hw&_). rewrite Hm. cbn. intros [= <-]. exists pr, c. done.
Qed.

Lemma maybe_commit_meets (o : option Z) p pr c w fc fp : inv w -> w_proc w !! p = Some pr ->
  w_ucred w !! pc_ucred (p_cred pr) = Some c ->
  (forall x, o = Some x -> good_fc (fc x) /\ good_fp (fp x)) ->
  meets p w (match o with Some x => commit p (fc x) (fp x) w | None => mret (0, w) end)
    (0, match o with Some x => (ids (fp x (p_cred pr)), content (fc x c))
        | None => (ids (p_cred pr), content c) end).
Proof.
  intros Hi Hp Hm Hg. pose proof (calm_refl p pr w Hi Hp). destruct o as [x|].
  - destruct (Hg x eq_refl). by apply commit_meets.
  - by eapply calm_meets.
Qed.

Lemma exec_meets p pr c w u g : inv w -> enabled (Call p (Execve u g)) w ->
  w_proc w !! p = Some pr -> w_ucred w !! pc_ucred (p_cred pr) = Some c ->
  meets p w (cred_exec p u g w) (call_spec (Execve u g) (ids (p_cred pr), content c)).
Proof.
  intros Hi (_&Hu&Hg) Hp Hm. unfold cred_exec.
  eapply meets_trans.
  - apply (maybe_commit_meets u p pr c w set_uid
      (fun uid pc => mkPcred (pc_ucred pc) (p_ruid pc) uid (p_rgid pc) (p_svgid pc) (p_refcnt pc)) Hi Hp Hm).
    intros x Hx. split; [by apply good_set_uid, Hu|]. specialize (Hu x Hx). good_fp.
  - intros w1 Hi1 Hv1. destruct (pview_Some w1 p _ Hi1 Hv1) as (pr1&c1&Hp1&Hm1&Hv&_). cbn [snd] in Hv.
    match goal with |- meets _ _ _ ?r => replace r with (0, match g with
      | Some x => (ids (mkPcred (pc_ucred (p_cred pr1)) (p_ruid (p_cred pr1)) (p_svuid (p_cred pr1))
                     (p_rgid (p_cred pr1)) x (p_refcnt (p_cred pr1))), content (set_gid x c1))
      | None => (ids (p_cred pr1), content c1) end) end.
    + apply (maybe_commit_meets g p pr1 c1 w1 set_gid
        (fun gid pc => mkPcred (pc_ucred pc) (p_ruid pc) (p_svuid pc) (p_rgid pc) gid (p_refcnt pc)) Hi1 Hp1 Hm1).
      intros x Hx. split; [by apply good_set_gid, Hg|]. specialize (Hg x Hx). good_fp.
    + unfold ids, content, set_gid in *. cbn [call_spec] in *.
      destruct u, g; cbn in *; congruence.
Qed.

Lemma call_meets p k w pr c : inv w -> enabled (Call p k) w -> w_proc w !! p = Some pr ->
  w_ucred w !! pc_ucred (p_cred pr) = Some c -> wf_ucred c ->
  meets p w (run_call p k w) (call_spec k (ids (p_cred pr), content c)).
Proof.
  intros Hi Hen Hp Hm Hwc. destruct (inv_load w p pr Hi Hp) as (c'&Hl&Hm'&_&_).
  rewrite Hm in Hm'. injection Hm' as <-. pose proof (inv_proc _ Hi p pr Hp) as (?&?&?&?&?).
  destruct Hwc as (?&_&_&Hgs).
  assert (is_id (cr_gid c)) as Hgid.
  { unfold cr_gid. destruct (cr_groups c); [done|]. by apply Forall_cons_iff in Hgs as [? _]. }
  destruct k as [u|u|g|g|a b|a b|m g|u g]; cbn [run_call].
  - unfold setuid. rewrite Hl. cbn [mbind outcome_bind].
    eapply guarded_meets; [done..|apply good_set_uid, u16_is_id|good_fp].
  - unfold seteuid. rewrite Hl. cbn [mbind outcome_bind].
    eapply guarded_meets; [done..|apply good_set_uid, u16_is_id|apply good_id].
  - unfold setgid. rewrite Hl. cbn [mbind outcome_bind].
    eapply guarded_meets; [done..|apply good_set_gid, u16_is_id|good_fp].
  - unfold setegid. rewrite Hl. cbn [mbind outcome_bind].
    eapply guarded_meets; [done..|apply good_set_gid, u16_is_id|apply good_id].
  - unfold osetreuid. rewrite Hl. cbn [mbind outcome_bind].
    assert (is_id (if a =? -1 then p_ruid (p_cred pr) else u16 a)) by (case_if; [done|apply u16_is_id]).
    eapply (guarded2_meets p pr c w); [done..| |good_fp].
    apply good_set_uid. case_if; [done|apply u16_is_id].
  - unfold osetregid. rewrite Hl. cbn [mbind outcome_bind].
    assert (is_id (if a =? -1 then p_rgid (p_cred pr) else u16 a)) by (case_if; [done|apply u16_is_id]).
    eapply (guarded2_meets p pr c w); [done..| |good_fp].
    apply good_set_gid. case_if; [done|apply u16_is_id].
  - by apply setgroups_meets.
  - by apply exec_meets.
Qed.

(** ** Fork, exit and open files *)

Lemma held_cons l x h : held l (x :: h) = (held l h + if decide (l = x) then 1 else 0)%nat.
Proof. unfold held. rewrite filter_cons. case_decide; cbn; lia. Qed.

Lemma held_delete l h i x : h !! i = Some x ->
  held l h = (held l (delete i h) + if decide (l = x) then 1 else 0)%nat.
Proof.
  intros Hi. rewrite <- held_cons. unfold held.
  apply Permutation_length. by rewrite <- (delete_Permutation h i x).
Qed.

(** What the table [m] shows for the references counted by [rf] is what [w] shows. *)
Lemma inv_intro w' m rf : w_ucred w' = m -> counts m rf -> (forall l, refs w' l = rf l) ->
  total w' < 2 ^ 16 -> (forall p pr, w_proc w' !! p = Some pr -> wf_pcred (p_cred pr)) -> inv w'.
Proof.
  intros Hu Hc Hr Ht Hp. split; [|done|done].
  intros l. rewrite Hu, Hr. apply Hc.
Qed.

Lemma cred_fork_spec p1 p2 w : inv w -> enabled (Fork p1 p2) w ->
  exists w', cred_fork p1 p2 w = Ok (0, w') /\ inv w'
    /\ pview w' p2 = pview w p1 /\ (forall q, q <> p2 -> pview w' q = pview w q).
Proof.
  intros Hi ([pr Hp]&Hnew&Ht). unfold cred_fork. rewrite Hp. cbn [deref mbind outcome_bind].
  set (l := pc_ucred (p_cred pr)). set (w1 := set_proc _ _ w).
  destruct (crhold_spec l w1 (refs w)) as (m&->&Hm&Hv); [exact (inv_counts w Hi)|by apply (refs_pos w p1)| |].
  { pose proof (refs_le_total w l). lia. }
  cbn [mbind outcome_bind mret outcome_ret]. eexists. split; [reflexivity|].
  split; [|split].
  - apply (inv_intro _ m (add1 l (refs w))); [done|done| | |].
    + intros k. unfold refs. cbn. rewrite count_map_fresh by done. unfold one, points_to, add1. cbn.
      fold l. repeat case_decide; subst; try done; lia.
    + unfold total in *. cbn. rewrite map_size_insert_None by done. lia.
    + intros q prq. cbn. destruct (decide (q = p2)) as [->|Hne].
      * rewrite lookup_insert_eq. intros [= <-]. cbn. destruct (inv_proc _ Hi p1 pr Hp) as (?&?&?&?&?).
        unfold wf_pcred. cbn. done.
      * rewrite lookup_insert_ne by done. apply (inv_proc _ Hi).
  - unfold pview, hview. cbn. rewrite lookup_insert_eq, Hp. cbn. by rewrite Hv.
  - intros q Hq. unfold pview, hview. cbn. rewrite lookup_insert_ne by done.
    destruct (w_proc w !! q); [|done]. cbn. by rewrite Hv.
Qed.

Lemma cred_exit_spec p w : inv w -> enabled (Exit p) w ->
  exists w', cred_exit p w = Ok (0, w') /\ inv w' /\ isolated p w w' /\ pview w' p = None.
Proof.
  intros Hi [pr Hp]. unfold cred_exit. rewrite Hp. cbn [deref mbind outcome_bind].
  destruct (inv_proc _ Hi p pr Hp) as (_&_&_&_&->). cbn [Z.sub Z.add Z.opp Z.pos_sub Z.eqb].
  set (l := pc_ucred (p_cred pr)).
  destruct (crfree_spec l w (refs w)) as (m&->&Hm&Hv&_); [exact (inv_counts w Hi)|by apply (refs_pos w p)|by apply inv_bound|].
  cbn [mbind outcome_bind mret outcome_ret w_ucred w_proc w_held set_ucreds].
  eexists. split; [reflexivity|]. split; [|split].
  - apply (inv_intro _ m (sub1 l (refs w))); [done|done| | |].
    + intros k. unfold sub1, refs. cbn [w_proc w_held].
      rewrite (count_map_delete _ (w_proc w) p pr) by done. unfold one, points_to. fold l. repeat case_decide; subst; try done; lia.
    + pose proof (inv_total _ Hi). unfold total in *. cbn.
      rewrite map_size_delete_Some by done. lia.
    + intros q prq. cbn. intros Hq. apply lookup_delete_Some in Hq as [_ Hq]. by apply (inv_proc _ Hi q).
  - split_and!; [|done|].
    + intros q Hq. unfold pview, hview. cbn. rewrite lookup_delete_ne by done.
      destruct (w_proc w !! q) as [prq|] eqn:Eq; [|done]. cbn. rewrite Hv; [done|].
      by eapply others_proc.
    + intros h Hh. unfold hview. cbn. rewrite Hv; [done|]. by eapply others_held.
  - unfold pview. cbn. by rewrite lookup_delete_eq.
Qed.

Lemma file_hold_spec p w : inv w -> enabled (Hold p) w ->
  exists w', file_hold p w = Ok (0, w') /\ inv w' /\ (forall q, pview w' q = pview w q).
Proof.
  intros Hi ([pr Hp]&Ht). unfold file_hold. rewrite Hp. cbn [deref mbind outcome_bind].
  set (l := pc_ucred (p_cred pr)).
  destruct (crhold_spec l w (refs w)) as (m&->&Hm&Hv); [exact (inv_counts w Hi)|by apply (refs_pos w p)| |].
  { pose proof (refs_le_total w l). lia. }
  cbn [mbind outcome_bind mret outcome_ret w_ucred w_proc w_held set_ucreds].
  eexists. split; [reflexivity|]. split.
  - apply (inv_intro _ m (add1 l (refs w))); [done|done| | |apply (inv_proc _ Hi)].
    + intros k. unfold refs, add1. cbn [w_proc w_held]. rewrite held_cons. case_decide; lia.
    + unfold total in *. cbn. lia.
  - intros q. unfold pview, hview. cbn. destruct (w_proc w !! q); [|done]. cbn. by rewrite Hv.
Qed.

Lemma file_release_spec i w : inv w -> enabled (Release i) w ->
  exists w', file_release i w = Ok (0, w') /\ inv w' /\ (forall q, pview w' q = pview w q).
Proof.
  intros Hi Hen. unfold file_release. destruct (lookup_lt_is_Some_2 _ _ Hen) as [l Hl].
  rewrite Hl. cbn [deref mbind outcome_bind].
  pose proof (held_delete l _ _ _ Hl) as Hh. rewrite decide_True in Hh by done.
  destruct (crfree_spec l w (refs w)) as (m&->&Hm&Hv&_); [exact (inv_counts w Hi)|unfold refs; lia|by apply inv_bound|].
  cbn [mbind outcome_bind mret outcome_ret w_ucred w_proc w_held set_ucreds].
  eexists. split; [reflexivity|]. split.
  - apply (inv_intro _ m (sub1 l (refs w))); [done|done| | |apply (inv_proc _ Hi)].
    + intros k. unfold refs, sub1. cbn [w_proc w_held]. rewrite (held_delete k _ _ _ Hl).
      case_decide; lia.
    + pose proof (inv_total _ Hi). unfold total in *. cbn. rewrite length_delete by (by eexists). lia.
  - intros q. unfold pview, hview. cbn. destruct (w_proc w !! q) as [prq|] eqn:Eq; [|done]. cbn.
    rewrite Hv; [done|]. unfold sub1, refs.
    pose proof (count_map_pos (points_to (pc_ucred (p_cred prq))) _ q prq Eq eq_refl).
    case_decide as Hd; [|lia]. rewrite Hd in *. lia.
Qed.

(** ** Properties *)


Lemma event_inv e w : inv w -> enabled e w ->
  exists error w', run_event e w = Ok (error, w') /\ inv w'.
Proof.
  intros Hi Hen. destruct e as [p k|p1 p2|p|p|i]; cbn [run_event].
  - destruct Hen as [[pr Hp] Hk]. destruct (inv_load w p pr Hi Hp) as (c&_&Hm&Hw&_).
    destruct (call_meets p k w pr c) as (w'&->&?&_); [done|by split|done..|]. eauto.
  - destruct (cred_fork_spec p1 p2 w Hi Hen) as (w'&->&?&_). eauto.
  - destruct (cred_exit_spec p w Hi Hen) as (w'&->&?&_). eauto.
  - destruct (file_hold_spec p w Hi Hen) as (w'&->&?&_). eauto.
  - destruct (file_release_spec i w Hi Hen) as (w'&->&?&_). eauto.
Qed.

(** C10. through any sequence of credential calls, execs, forks, exits, opens
    and closes, every [cr_ref] is the number of processes and files that refer
    to the structure; so nothing in use is freed, nothing unused is kept, and
    every enabled event succeeds. *)
Theorem cred_refcounts w w' :
  inv w -> rtc (cstep (fun _ => True)) w w' ->
  (forall l, match w_ucred w' !! l with
     | Some c => cr_ref c = Z.of_nat (refs w' l) /\ (0 < refs w' l)%nat /\ wf_ucred c
     | None => refs w' l = 0%nat
     end)
  /\ forall e, enabled e w' -> exists error w'', run_event e w' = Ok (error, w'').
Proof.
  intros Hi Hr. assert (inv w') as Hi'.
  { induction Hr as [|w1 w2 w3 [e error _ Hen Hrun] _ IH]; [done|]. apply IH.
    destruct (event_inv e w1 Hi Hen) as (?&?&Hrun'&?). rewrite Hrun in Hrun'. congruence. }
  split; [apply (inv_ref _ Hi')|]. intros e Hen.
  destruct (event_inv e w' Hi' Hen) as (error&w''&?&_). eauto.
Qed.

(** The user ids of a view: real, saved, effective. *)
Definition uids (v : Z * Z * Z * Z * (Z * Z * list Z)) : list Z :=
  let '(r, s, _, _, (e, _, _)) := v in [r; s; e].

Lemma call_spec_uids k v : 0 ∉ uids v -> (forall u g, k <> Execve (Some u) g) ->
  uids (call_spec k v).2 ⊆ uids v.
Proof.
  destruct v as [[[[r s] rg] sg] [[e n] gs]]. cbn [uids]. intros H0 Hk x.
  rewrite !not_elem_of_cons in H0. destruct H0 as (?&?&?&_).
  assert (e =? 0 = false) as He by (apply Z.eqb_neq; congruence).
  destruct k as [u|u|g|g|a b|a b|m g|u g]; cbn [call_spec]; rewrite ?He, ?orb_false_r; cbn [negb].
  - case_if; cbn; rewrite !elem_of_cons; naive_solver.
  - case_if; cbn; rewrite !elem_of_cons; [|naive_solver]. destruct Heqb; bool_prop; naive_solver.
  - case_if; cbn; rewrite !elem_of_cons; naive_solver.
  - case_if; cbn; rewrite !elem_of_cons; naive_solver.
  - destruct (_ && _) eqn:E; cbn [snd uids]; rewrite !elem_of_cons; [|naive_solver].
    apply andb_true_iff in E as [E1 E2].
    repeat match goal with
      | H : (_ || _)%bool = true |- _ => apply orb_true_iff in H as [H|H]
      | H : (_ =? _) = true |- _ => apply Z.eqb_eq in H
      end; naive_solver.
  - destruct (_ && _); cbn; rewrite !elem_of_cons; naive_solver.
  - cbn. rewrite !elem_of_cons; naive_solver.
  - destruct u as [u|]; [by destruct (Hk u g)|]. destruct g; cbn; rewrite !elem_of_cons; naive_solver.
Qed.

Lemma event_others e w w' error p : inv w -> enabled e w -> run_event e w = Ok (error, w') ->
  is_Some (pview w p) -> (forall k, e <> Call p k) -> e <> Exit p -> pview w' p = pview w p.
Proof.
  intros Hi Hen Hrun Hp Hc He. destruct e as [q k|p1 p2|q|q|i]; cbn [run_event] in Hrun.
  - assert (p <> q) by (intros ->; by apply (Hc k)).
    destruct Hen as [[pr Hq] Hk]. destruct (inv_load w q pr Hi Hq) as (c&_&Hm&Hw&_).
    destruct (call_meets q k w pr c) as (w1&Hr1&_&_&Hiso); [done|by split|done..|].
    rewrite Hrun in Hr1. injection Hr1 as _ <-. by apply Hiso.
  - destruct (cred_fork_spec p1 p2 w Hi Hen) as (w1&Hr1&_&_&Hv).
    rewrite Hrun in Hr1. injection Hr1 as _ <-. apply Hv. intros ->.
    destruct Hen as (_&Hn&_). unfold pview in Hp. rewrite Hn in Hp. by destruct Hp.
  - destruct (cred_exit_spec q w Hi Hen) as (w1&Hr1&_&Hiso&_).
    rewrite Hrun in Hr1. injection Hr1 as _ <-. apply Hiso. congruence.
  - destruct (file_hold_spec q w Hi Hen) as (w1&Hr1&_&Hv). rewrite Hrun in Hr1. injection Hr1 as _ <-. apply Hv.
  - destruct (file_release_spec i w Hi Hen) as (w1&Hr1&_&Hv). rewrite Hrun in Hr1. injection Hr1 as _ <-. apply Hv.
Qed.

(** C17. no privilege from nothing.  A process whose real, saved and effective
    user ids are not the super-user's keeps to those three ids, whatever it and
    all the other processes call in whatever order, until it executes a set-id
    program (or is gone). *)
Theorem cred_no_escalation p w w' v :
  inv w -> pview w p = Some v -> 0 ∉ uids v ->
  rtc (cstep (fun e => e <> Exit p /\ forall u g, e <> Call p (Execve (Some u) g))) w w' ->
  exists v', pview w' p = Some v' /\ uids v' ⊆ uids v.
Proof.
  intros Hi Hv H0 Hr. revert v Hi Hv H0.
  induction Hr as [w|w1 w2 w3 [e error [Hne Hnx] Hen Hrun] _ IH]; intros v Hi Hv H0; [by exists v|].
  assert (inv w2) as Hi2.
  { destruct (event_inv e w1 Hi Hen) as (?&?&Hrun'&?). rewrite Hrun in Hrun'. congruence. }
  assert (exists v2, pview w2 p = Some v2 /\ uids v2 ⊆ uids v) as (v2&Hv2&Hs).
  { assert ((exists k, e = Call p k) \/ forall k, e <> Call p k) as [[k ->]|Hnc].
    { destruct e as [q k|?|?|?|?]; [|right; congruence..].
      destruct (decide (q = p)) as [->|]; [left; eauto|right; congruence]. }
    - destruct (pview_Some w1 p v Hi Hv) as (pr&c&Hp&Hm&->&Hw).
      destruct (call_meets p k w1 pr c) as (w'&Hr&_&Hv'&_); [done..|].
      cbn [run_event] in Hrun. rewrite Hrun in Hr. injection Hr as _ <-. eexists. split; [done|].
      apply call_spec_uids; [done|]. intros u g ->. by apply (Hnx u g).
    - exists v. split; [|done]. rewrite <- Hv. eapply event_others; eauto. }
  destruct (IH v2 Hi2 Hv2) as (v'&?&?); [set_solver|]. exists v'. split; [done|]. by etrans.
Qed.

(** Calls without user memory or set-id files are always enabled. *)
Definition plain_call (k : call) : Prop :=
  match k with
  | Setgroups _ _ => False
  | Execve u g => u = None /\ g = None
  | _ => True
  end.

Lemma plain_step p k w v : inv w -> pview w p = Some v -> plain_call k ->
  exists w', run_call p k w = Ok ((call_spec k v).1, w') /\ inv w'
    /\ pview w' p = Some (call_spec k v).2.
Proof.
  intros Hi Hv Hk. destruct (pview_Some w p v Hi Hv) as (pr&c&Hp&Hm&->&Hw).
  destruct (call_meets p k w pr c) as (w2&?&?&?&_); [done| |done..|by exists w2].
  split; [by eexists|]. destruct k; try done. by destruct Hk as [-> ->].
Qed.

(** dropping privilege with the old setreuid is not final.  After a
    process with saved id 0 has set its real and effective ids to an
    unprivileged user, and even after executing an ordinary program, it gets
    effective id 0 back by seteuid. *)
Theorem osetreuid_keeps_saved p u w r rg sg n gs :
  inv w -> 0 < u < 65535 -> pview w p = Some (r, 0, rg, sg, (0, n, gs)) ->
  exists w1 w2 w3,
    run_call p (Osetreuid u u) w = Ok (0, w1) /\ pview w1 p = Some (u, 0, rg, sg, (u, n, gs))
    /\ run_call p (Execve None None) w1 = Ok (0, w2)
    /\ run_call p (Seteuid 0) w2 = Ok (0, w3) /\ pview w3 p = Some (u, 0, rg, sg, (0, n, gs)).
Proof.
  intros Hi Hu Hv.
  destruct (plain_step p (Osetreuid u u) w _ Hi Hv) as (w1&Hr1&Hi1&Hv1); [done|].
  assert (call_spec (Osetreuid u u) (r, 0, rg, sg, (0, n, gs)) = (0, (u, 0, rg, sg, (u, n, gs)))) as E1.
  { cbn [call_spec]. replace (u =? -1) with false by lia. rewrite u16_id by lia.
    rewrite !orb_true_r. done. }
  rewrite E1 in Hr1, Hv1. cbn [fst snd] in Hr1, Hv1.
  destruct (plain_step p (Execve None None) w1 _ Hi1 Hv1) as (w2&Hr2&Hi2&Hv2); [done|].
  cbn [call_spec fst snd] in Hr2, Hv2.
  destruct (plain_step p (Seteuid 0) w2 _ Hi2 Hv2) as (w3&Hr3&Hi3&Hv3); [done|].
  exists w1, w2, w3. split_and!; try done.
  - rewrite Hr3. cbn [call_spec]. change (u16 0) with 0. by rewrite orb_true_r.
  - rewrite Hv3. cbn [call_spec]. change (u16 0) with 0. by rewrite orb_true_r.
Qed.

(** *** Witnesses: two processes and an open file share credentials *)

Definition w0 : world :=
  mkWorld {[1%positive := mkUcred 3 100 1 (7 :: replicate 15 0)]}
    {[10%positive := mkProc (mkPcred 1 100 0 7 7 1) 0; 11%positive := mkProc (mkPcred 1 100 100 7 7 1) 0]}
    [1%positive].

Lemma w0_inv : inv w0.
Proof.
  split.
  - intros l. destruct (decide (l = 1%positive)) as [->|Hne].
    + cbn [w_ucred w0]. rewrite lookup_singleton_eq. split; [reflexivity|]. split.
      * apply Nat.ltb_lt. vm_compute. reflexivity.
      * split; [cbn; unfold is_id; lia|]. split; [cbn; unfold NGROUPS; lia|]. split; [reflexivity|].
        cbn. repeat constructor; lia.
    + cbn [w_ucred w0]. rewrite lookup_singleton_ne by done. unfold refs.
      rewrite count_map_zero; [cbn; by rewrite decide_False by done|].
      intros i x Hx. unfold points_to. intros <-. apply Hne. cbn [w_proc w0] in Hx.
      apply lookup_insert_Some in Hx as [[_ <-]|[_ Hx]]; [done|].
      by apply lookup_singleton_Some in Hx as [_ <-].
  - vm_compute. reflexivity.
  - intros p pr Hp. cbn [w_proc w0] in Hp.
    apply lookup_insert_Some in Hp as [[_ <-]|[_ Hp]]; [|apply lookup_singleton_Some in Hp as [_ <-]];
      unfold wf_pcred, is_id; cbn; lia.
Qed.


Lemma cred_refcounts_witness :
  exists error w', run_event (Fork 11 12) w0 = Ok (error, w').
Proof.
  apply (cred_refcounts w0 w0 w0_inv); [apply rtc_refl|].
  split; [by eexists|]. split; [reflexivity|vm_compute; reflexivity].
Defined.

Lemma cred_no_escalation_witness :
  exists v', pview w0 11 = Some v' /\ uids v' ⊆ [100; 100; 100].
Proof.
  apply (cred_no_escalation 11 w0 w0 (100, 100, 7, 7, (100, 1, 7 :: replicate 15 0)) w0_inv);
    [reflexivity| |apply rtc_refl].
  cbn [uids]. rewrite !not_elem_of_cons. repeat split; try discriminate. apply not_elem_of_nil.
Defined.

Definition w1 : world :=
  mkWorld {[1%positive := mkUcred 1 0 1 (7 :: replicate 15 0)]}
    {[10%positive := mkProc (mkPcred 1 100 0 7 7 1) 0]} [].

Lemma w1_inv : inv w1.
Proof.
  split.
  - intros l. destruct (decide (l = 1%positive)) as [->|Hne].
    + cbn [w_ucred w1]. rewrite lookup_singleton_eq. split; [reflexivity|]. split.
      * apply Nat.ltb_lt. vm_compute. reflexivity.
      * split; [cbn; unfold is_id; lia|]. split; [cbn; unfold NGROUPS; lia|]. split; [reflexivity|].
        cbn. repeat constructor; lia.
    + cbn [w_ucred w1]. rewrite lookup_singleton_ne by done. unfold refs.
      rewrite count_map_zero; [done|].
      intros i x Hx. unfold points_to. intros <-. apply Hne. cbn [w_proc w1] in Hx.
      by apply lookup_singleton_Some in Hx as [_ <-].
  - vm_compute. reflexivity.
  - intros p pr Hp. cbn [w_proc w1] in Hp. apply lookup_singleton_Some in Hp as [_ <-]. unfold wf_pcred, is_id. cbn. lia.
Qed.

Lemma osetreuid_keeps_saved_witness :
  exists w2 w3 w4, run_call 10 (Osetreuid 100 100) w1 = Ok (0, w2)
    /\ run_call 10 (Execve None None) w2 = Ok (0, w3) /\ run_call 10 (Seteuid 0) w3 = Ok (0, w4).
Proof.
  destruct (osetreuid_keeps_saved 10 100 w1 100 7 7 1 (7 :: replicate 15 0) w1_inv)
    as (w2&w3&w4&?&_&?&?&_); [lia|reflexivity|]. exists w2, w3, w4. split_and!; assumption.
Defined.
