(* ===== verification/Rlist.v ===== *)
(** * Resource lists (sys/kern/subr_rlist.c)

    A resource list is a singly linked list of extents [rl_start, rl_end] of
    [unsigned] resource numbers (swap blocks), kept here as a Rocq list.
    [rlist_free] returns an extent to the list, [rlist_alloc] takes one
    first-fit, [rlist_destroy] empties the list.  [M_NOWAIT] allocations may
    fail: [malloc_ok] says whether this call's [malloc] succeeds, and the code,
    which does not test for it, then writes through a null pointer. *)

From S2P Require Import Prelude.

(** [struct rlist] of sys/kern/rlist.h without its link. *)
Record rlist := mkRlist { rl_start : Z; rl_end : Z }.

(** The [loop:] part of [rlist_free]; the boolean says whether control goes to
    [scan:]. *)
Fixpoint rlist_free_loop (malloc_ok : bool) (l : list rlist) (start end_ : Z)
  : outcome (list rlist * bool) :=
  match l with
  | [] => if malloc_ok then Ok ([mkRlist start end_], false) else Fault
  | r :: tl =>
      if (rl_start r <=? start) && (start <=? rl_end r) then
        Panic "overlapping front rlist_free: freed twice?"
      else if (rl_start r <=? end_) && (end_ <=? rl_end r) then
        Panic "overlapping tail rlist_free: freed twice?"
      else if u32 (end_ + 1) =? rl_start r then
        Ok (mkRlist start (rl_end r) :: tl, true)
      else if end_ <? rl_start r then
        if malloc_ok then Ok (mkRlist start end_ :: r :: tl, false) else Fault
      else if u32 (rl_end r + 1) =? start then
        Ok (mkRlist (rl_start r) end_ :: tl, true)
      else if rl_end r <? start then
        '(tl', scan) ← rlist_free_loop malloc_ok tl start end_;
        mret (r :: tl', scan)
      else Panic "rlist_free: can't happen"
  end.

(** The [scan:] part: coalesce neighbours from the element [lp] on. *)
Fixpoint rlist_scan (lp : rlist) (l : list rlist) : list rlist :=
  match l with
  | [] => [lp]
  | lpn :: tl =>
      if u32 (rl_end lp + 1) =? rl_start lpn
      then rlist_scan (mkRlist (rl_start lp) (rl_end lpn)) tl
      else lp :: rlist_scan lpn tl
  end.

Definition rlist_free (malloc_ok : bool) (l : list rlist) (start end_ : Z)
  : outcome (list rlist) :=
  '(l', scan) ← rlist_free_loop malloc_ok l start end_;
  match scan, l' with
  | true, head :: tl => mret (rlist_scan head tl)
  | _, _ => mret l'
  end.

(** [rlist_alloc]: [Some (loc, l')] when it returns 1 with [*loc = loc]. *)
Fixpoint rlist_alloc (l : list rlist) (size : Z) : option (Z * list rlist) :=
  match l with
  | [] => None
  | r :: tl =>
      if size <=? u32 (rl_end r - rl_start r + 1) then
        let start' := u32 (rl_start r + size) in
        Some (rl_start r,
              if rl_end r <? start' then tl else mkRlist start' (rl_end r) :: tl)
      else
        match rlist_alloc tl size with
        | None => None
        | Some (loc, tl') => Some (loc, r :: tl')
        end
  end.

(** [rlist_destroy]: the emptied list and the elements given to [free]. *)
Fixpoint rlist_destroy (l : list rlist) : list rlist * list rlist :=
  match l with
  | [] => ([], [])
  | lp :: nlp => let '(l', freed) := rlist_destroy nlp in (l', lp :: freed)
  end.

(** ** Well-formed lists and the set they denote *)

Definition UMAX : Z := 2 ^ 32 - 1.

(** Sorted, separated by at least one missing number, starting at [lo] or
    above; the largest [unsigned] is never a member. *)
Fixpoint rl_wf_from (lo : Z) (l : list rlist) : Prop :=
  match l with
  | [] => True
  | r :: tl => lo <= rl_start r /\ rl_start r <= rl_end r /\ rl_end r < UMAX
               /\ rl_wf_from (rl_end r + 2) tl
  end.
Definition rl_wf (l : list rlist) : Prop := rl_wf_from 0 l.

Fixpoint rl_mem (x : Z) (l : list rlist) : Prop :=
  match l with
  | [] => False
  | r :: tl => rl_start r <= x <= rl_end r \/ rl_mem x tl
  end.

Definition rl_len (r : rlist) : Z := rl_end r - rl_start r + 1.

Lemma rl_wf_weaken lo lo' l : lo' <= lo -> rl_wf_from lo l -> rl_wf_from lo' l.
Proof. destruct l; cbn; intuition lia. Qed.

Lemma rl_mem_ge lo l x : rl_wf_from lo l -> rl_mem x l -> lo <= x.
Proof.
  revert lo; induction l as [|r tl IH]; cbn; [done|].
  intros lo (?&?&?&Hw) [?|Hm]; [lia|]. specialize (IH _ Hw Hm). cbn in *. lia.
Qed.

(** Sorted and disjoint, but neighbours may touch: what [rlist_free_loop]
    leaves for the coalescing scan. *)
Fixpoint rl_sorted_from (lo : Z) (l : list rlist) : Prop :=
  match l with
  | [] => True
  | r :: tl => lo <= rl_start r /\ rl_start r <= rl_end r /\ rl_end r < UMAX
               /\ rl_sorted_from (rl_end r + 1) tl
  end.

Lemma rl_wf_sorted lo l : rl_wf_from lo l -> rl_sorted_from lo l.
Proof.
  revert lo; induction l as [|r tl IH]; cbn; [done|].
  intros lo (?&?&?&Hw). repeat split; try lia.
  apply IH, (rl_wf_weaken (rl_end r + 2)); [lia | done].
Qed.

(** The end of a member plus one does not wrap. *)
Lemma u32_succ x : 0 <= x < UMAX -> u32 (x + 1) = x + 1.
Proof. unfold UMAX; intros; apply u32_id; lia. Qed.

Lemma rlist_scan_spec l : forall lo lp,
  0 <= lo -> rl_sorted_from lo (lp :: l) ->
  rl_wf_from lo (rlist_scan lp l)
  /\ forall x, rl_mem x (rlist_scan lp l) <-> rl_mem x (lp :: l).
Proof.
  induction l as [|n tl IH]; intros lo lp Hlo; cbn [rl_sorted_from rlist_scan].
  - intros (?&?&?&_). cbn. intuition.
  - intros (?&?&?&?&?&?&Htl). rewrite u32_succ by lia. case_if.
    + destruct (IH lo (mkRlist (rl_start lp) (rl_end n))) as [Hw Hm]; [done|cbn; intuition lia|].
      split; [done|]. intros x. rewrite Hm. cbn. intuition lia.
    + destruct (IH (rl_end lp + 2) n) as [Hw Hm]; [lia|cbn; intuition lia|].
      split; [cbn; intuition lia|]. intros x. cbn. rewrite Hm. done.
Qed.

Lemma rlist_free_loop_spec l : forall lo start end_,
  rl_wf_from lo l -> 0 <= lo <= start -> start <= end_ < UMAX ->
  (forall x, start <= x <= end_ -> ~ rl_mem x l) ->
  exists l' scan, rlist_free_loop true l start end_ = Ok (l', scan)
    /\ rl_sorted_from lo l' /\ (scan = false -> rl_wf_from lo l')
    /\ forall x, rl_mem x l' <-> rl_mem x l \/ start <= x <= end_.
Proof.
  induction l as [|r tl IH]; intros lo s e Hwf Hlo Hse Hdisj; cbn [rlist_free_loop].
  { exists [mkRlist s e], false. cbn. intuition lia. }
  pose proof Hwf as (?&?&?&Htl).
  assert (Hst : rl_sorted_from (rl_end r + 1) tl).
  { apply rl_wf_sorted, (rl_wf_weaken (rl_end r + 2)); [lia|done]. }
  assert (rl_end r < s \/ e < rl_start r) as Hsep.
  { destruct (decide (rl_end r < s)); [by left|right].
    destruct (decide (e < rl_start r)); [done|].
    destruct (Hdisj (Z.max s (rl_start r))); cbn; lia. }
  rewrite !u32_succ by lia.
  repeat case_if; try lia.
  - eexists _, _. split; [done|]. cbn.
    split; [|split; [done|]]; [|intros x]; intuition lia.
  - eexists _, _. split; [done|]. cbn. intuition lia.
  - eexists _, _. split; [done|]. cbn. split; [|split; [done|]].
    + repeat split; try lia. destruct tl as [|n tl]; cbn in *; [done|].
      destruct Hst as (?&?&?&?). repeat split; try lia; try done.
      destruct (decide (e < rl_start n)); [lia|].
      destruct (Hdisj (Z.max s (rl_start n))); [lia|]. right; left; lia.
    + intros x; intuition lia.
  - destruct (IH (rl_end r + 2) s e) as (l'&sc&Hl&Hs&Hw&Hm); try done; [lia| |].
    { intros x Hx Hin. apply (Hdisj x Hx). cbn. auto. }
    rewrite Hl. eexists _, _. split; [done|]. cbn.
    split; [|split].
    + repeat split; try lia. clear -Hs. destruct l'; cbn in *; intuition lia.
    + intros E. specialize (Hw E). intuition lia.
    + intros x. rewrite Hm. intuition lia.
Qed.

(** A well-formed list is determined by its members. *)
Lemma rl_wf_unique l1 : forall lo l2, rl_wf_from lo l1 -> rl_wf_from lo l2 ->
  (forall x, rl_mem x l1 <-> rl_mem x l2) -> l1 = l2.
Proof.
  induction l1 as [|a t1 IH]; intros lo [|b t2] H1 H2 Hm; [done| | |].
  - destruct H2 as (?&?&_). destruct (proj2 (Hm (rl_start b))). cbn. lia.
  - destruct H1 as (?&?&_). destruct (proj1 (Hm (rl_start a))). cbn. lia.
  - destruct H1 as (?&?&?&W1), H2 as (?&?&?&W2).
    assert (G1 : forall x, rl_mem x t1 -> rl_end a + 2 <= x) by (intros; eapply rl_mem_ge; eauto).
    assert (G2 : forall x, rl_mem x t2 -> rl_end b + 2 <= x) by (intros; eapply rl_mem_ge; eauto).
    cbn in Hm.
    assert (rl_start a = rl_start b) as Es.
    { destruct (proj1 (Hm (rl_start a))) as [?|K]; [lia| |specialize (G2 _ K)];
      (destruct (proj2 (Hm (rl_start b))) as [?|K']; [lia| |specialize (G1 _ K')]; lia). }
    assert (rl_end a = rl_end b) as Ee.
    { destruct (Z.lt_trichotomy (rl_end a) (rl_end b)) as [?|[?|?]]; [|done|].
      - destruct (proj2 (Hm (rl_end a + 1))) as [?|K]; [lia..|specialize (G1 _ K); lia].
      - destruct (proj1 (Hm (rl_end b + 1))) as [?|K]; [lia..|specialize (G2 _ K); lia]. }
    f_equal; [destruct a, b; cbn in *; congruence|].
    apply (IH (rl_end a + 2)); [done|by rewrite Ee|].
    intros x. split; intros K.
    + specialize (G1 _ K). destruct (proj1 (Hm x)); auto; lia.
    + specialize (G2 _ K). destruct (proj2 (Hm x)); auto; lia.
Qed.

Lemma rlist_alloc_wf l : forall lo size loc l',
  rl_wf_from lo l -> 0 <= lo -> 0 < size < 2 ^ 32 ->
  rlist_alloc l size = Some (loc, l') ->
  rl_wf_from lo l'
  /\ (forall x, loc <= x < loc + size -> rl_mem x l)
  /\ (forall x, rl_mem x l' <-> rl_mem x l /\ ~ (loc <= x < loc + size)).
Proof.
  induction l as [|r tl IH]; intros lo size loc l' Hwf Hlo Hsz; cbn [rlist_alloc]; [done|].
  destruct Hwf as (?&?&?&Htl). unfold UMAX in *.
  assert (G : forall x, rl_mem x tl -> rl_end r + 2 <= x) by (intros; eapply rl_mem_ge; eauto).
  rewrite (u32_id (_ - _ + 1)) by lia. destruct (size <=? _) eqn:E; bool_prop.
  - rewrite u32_id by lia. intros [= <- <-].
    case_if; cbn; (split; [|split]).
    + apply (rl_wf_weaken (rl_end r + 2)); [lia|done].
    + intros x Hx. left. lia.
    + intros x. split; [intros K; specialize (G _ K); split; [auto|lia]|].
      intros [[?|?] ?]; [lia|done].
    + repeat split; (lia || done).
    + intros x Hx. left. lia.
    + intros x. split; [|lia || intuition lia].
      intros [?|K]; [lia|specialize (G _ K); split; [auto|lia]].
  - destruct (rlist_alloc tl size) as [[loc' tl']|] eqn:Ea; [|done]. intros [= <- <-].
    destruct (IH (rl_end r + 2) size loc' tl') as (W&M1&M2); try done; [lia|].
    cbn. split; [|split]; [intuition lia|auto|].
    intros x. rewrite M2. split; [|tauto].
    intros [?|?]; [|tauto]. split; [auto|].
    intros Hx. specialize (G _ (M1 _ Hx)). lia.
Qed.

(** First fit: the extent comes from the start of the first element that is
    long enough. *)
Lemma rlist_alloc_first_fit l : forall lo size,
  rl_wf_from lo l -> 0 <= lo ->
  match rlist_alloc l size with
  | Some (loc, _) => exists l1 r l2, l = l1 ++ r :: l2 /\ loc = rl_start r
      /\ size <= rl_len r /\ Forall (fun q => rl_len q < size) l1
  | None => Forall (fun q => rl_len q < size) l
  end.
Proof.
  unfold rl_len.
  induction l as [|r tl IH]; intros lo size Hwf Hlo; cbn [rlist_alloc]; [constructor|].
  destruct Hwf as (?&?&?&Htl). unfold UMAX in *.
  rewrite (u32_id (_ - _ + 1)) by lia. destruct (size <=? _) eqn:E; bool_prop.
  - exists [], r, tl. repeat split; [lia|constructor].
  - specialize (IH (rl_end r + 2) size Htl ltac:(lia)).
    destruct (rlist_alloc tl size) as [[loc' tl']|]; [|constructor; [lia|done]].
    destruct IH as (l1&q&l2&->&?&?&?). exists (r :: l1), q, l2.
    repeat split; [done|done|]. constructor; [lia|done].
Qed.

Lemma rlist_free_loop_overlap ok l : forall lo start end_,
  rl_wf_from lo l -> 0 <= lo -> 0 <= start <= end_ -> end_ < UMAX ->
  (exists x, start <= x <= end_ /\ rl_mem x l) ->
  Forall (fun r => rl_end r + 1 <> start) l ->
  exists msg, rlist_free_loop ok l start end_ = Panic msg.
Proof.
  induction l as [|r tl IH]; intros lo s e Hwf Hlo Hs He (x&Hx&Hin) Hadj; [done|].
  destruct Hwf as (?&?&?&Htl). apply Forall_cons_iff in Hadj as [Ha Hadj].
  cbn [rlist_free_loop]. rewrite !u32_succ by lia.
  assert (G : forall y, rl_mem y tl -> rl_end r + 2 <= y) by (intros; eapply rl_mem_ge; eauto).
  destruct Hin as [?|Hin]; repeat case_if; eauto; try lia;
    try (specialize (G _ Hin); lia).
  - destruct (IH (rl_end r + 2) s e) as [msg ->]; eauto; lia.
Qed.

(** ** Properties *)

(** Without memory the loop does the same as long as it merges the extent. *)
Lemma rlist_free_loop_no_memory l start end_ :
  rlist_free_loop false l start end_ =
    ('(l', scan) ← rlist_free_loop true l start end_; if (scan : bool) then Ok (l', scan) else Fault).
Proof.
  induction l as [|r tl IH]; [done|]. cbn [rlist_free_loop].
  repeat (case_if; [done|]). case_if; [|done]. rewrite IH. by destruct (rlist_free_loop true tl start end_) as [[l' []]| |].
Qed.

(** An element that ends right before the extent, or starts right after it. *)
Definition touches (start end_ : Z) (l : list rlist) : Prop :=
  Exists (fun r => rl_start r = end_ + 1 \/ rl_end r + 1 = start) l.

Lemma rlist_free_loop_scans l lo start end_ l' scan : rl_wf_from lo l -> 0 <= lo -> 0 <= start <= end_ -> end_ < UMAX ->
  (forall x, start <= x <= end_ -> ~ rl_mem x l) ->
  rlist_free_loop true l start end_ = Ok (l', scan) -> scan = true <-> touches start end_ l.
Proof.
  revert lo l' scan. unfold touches. induction l as [|r tl IH]; intros lo l' scan Hwf H0 Hs He Hd; cbn [rlist_free_loop].
  { intros [= _ <-]. by rewrite Exists_nil. }
  destruct Hwf as (H1&H2&H3&Hw). rewrite Exists_cons, !u32_succ by lia.
  assert (forall x, start <= x <= end_ -> ~ (rl_start r <= x <= rl_end r)) as Hr by (intros x Hx Hm; by apply (Hd x Hx); left).
  assert (~ (rl_start r <= start <= rl_end r)) by (apply Hr; lia). assert (~ (rl_start r <= end_ <= rl_end r)) by (apply Hr; lia).
  assert (Hn : ~ (start <= rl_start r <= end_)) by (intros Hx; apply (Hr _ Hx); lia).
  assert (forall x, In x tl -> rl_end r + 2 <= rl_start x <= rl_end x) as Hfar.
  { clear -Hw H2. revert Hw. generalize (rl_end r + 2). induction tl as [|y tl IH]; intros k Hw x Hx; [done|].
    destruct Hw as (?&?&?&Hw). destruct Hx as [->|Hx]; [lia|]. specialize (IH _ Hw x Hx). lia. }
  repeat case_if; try done; intros [= _ <-] || intros E.
  - split; [|done]. intros _. left. left. lia.
  - split; [done|]. intros [[?|?]|Hx]; [lia|lia|]. apply Exists_exists in Hx as (x&Hx&Hc). specialize (Hfar x Hx). lia.
  - split; [|done]. intros _. left. right. lia.
  - destruct (rlist_free_loop true tl start end_) as [[tl' sc]| |] eqn:Et; cbn in E; try done. injection E as _ <-.
    rewrite (IH _ tl' sc Hw) by (done || lia || (intros x Hx Hm; by apply (Hd x Hx); right)).
    split; [by right|]. intros [[?|?]|Hx]; [lia|lia|done].
Qed.

(** What the call leaves, when malloc gives memory. *)
Lemma rlist_free_ok l start end_ :
  rl_wf l -> 0 <= start <= end_ -> end_ < UMAX -> (forall x, start <= x <= end_ -> ~ rl_mem x l) ->
  exists l', rlist_free true l start end_ = Ok l' /\ rl_wf l' /\
    (rlist_free false l start end_ = Ok l' /\ touches start end_ l \/ rlist_free false l start end_ = Fault /\ ~ touches start end_ l) /\
    forall x, rl_mem x l' <-> rl_mem x l \/ start <= x <= end_.
Proof.
  intros Hwf Hs He Hd.
  destruct (rlist_free_loop_spec l 0 start end_ Hwf) as (l'&sc&Hl&Hst&Hw&Hm); [lia..|done|].
  pose proof (rlist_free_loop_scans l 0 start end_ l' sc Hwf ltac:(lia) Hs He Hd Hl) as Ht.
  unfold rlist_free. rewrite rlist_free_loop_no_memory, Hl. cbn. destruct sc.
  2: { exists l'. split; [done|]. split; [by apply Hw|]. split; [right; split; [done|]; intros H; by apply Ht in H|done]. }
  assert (touches start end_ l) by (by apply Ht).
  destruct l' as [|h tl]; [exists []; split; [done|split; [exact I|split; [by left|exact Hm]]]|].
  destruct (rlist_scan_spec tl 0 h ltac:(lia) Hst) as [W M].
  exists (rlist_scan h tl). split; [done|]. split; [done|]. split; [by left|]. intros x. by rewrite M.
Qed.

(** C31. Returning an extent start..end, below UINT_MAX, that shares no number with
    a well-formed list whose members are below UINT_MAX: when malloc gives memory,
    or when the extent touches an element of the list, so that none is needed, the
    list is afterwards well-formed (sorted, disjoint, coalesced) and holds exactly
    the old members and the extent; when malloc(M_NOWAIT) fails and the extent
    touches none, the code writes through a null pointer. *)
Theorem rlist_free_spec malloc_ok l start end_ :
  rl_wf l -> 0 <= start <= end_ -> end_ < UMAX ->
  (forall x, start <= x <= end_ -> ~ rl_mem x l) ->
  (malloc_ok = false /\ ~ touches start end_ l /\ rlist_free malloc_ok l start end_ = Fault) \/
  ((malloc_ok = true \/ touches start end_ l) /\ exists l', rlist_free malloc_ok l start end_ = Ok l' /\ rl_wf l'
    /\ forall x, rl_mem x l' <-> rl_mem x l \/ start <= x <= end_).
Proof.
  intros Hwf Hs He Hd. destruct (rlist_free_ok l start end_ Hwf Hs He Hd) as (l'&E&W&[(E'&Ht)|(E'&Ht)]&M); destruct malloc_ok;
    try (by left); right; (split; [tauto|by exists l']).
Qed.

Lemma rlist_free_spec_witness :
  exists l', rlist_free false [mkRlist 0 4; mkRlist 9 12] 5 8 = Ok l' /\ rl_wf l'
    /\ forall x, rl_mem x l' <-> rl_mem x [mkRlist 0 4; mkRlist 9 12] \/ 5 <= x <= 8.
Proof.
  destruct (rlist_free_spec false [mkRlist 0 4; mkRlist 9 12] 5 8) as [(_&Hn&_)|(_&H)]; [..|exact H];
    try (unfold rl_wf; cbn; unfold UMAX; lia).
  exfalso. apply Hn. left. right. done.
Defined.

(** freeing an extent that meets a member of the list panics, whatever
    [malloc] does, provided it does not start right after an element. *)
Theorem rlist_free_double_free_panics ok l start end_ :
  rl_wf l -> 0 <= start <= end_ -> end_ < UMAX ->
  (exists x, start <= x <= end_ /\ rl_mem x l) ->
  Forall (fun r => rl_end r + 1 <> start) l ->
  exists msg, rlist_free ok l start end_ = Panic msg.
Proof.
  intros Hwf Hs He Hx Ha.
  destruct (rlist_free_loop_overlap ok l 0 start end_ Hwf ltac:(lia) Hs He Hx Ha) as [msg H].
  exists msg. unfold rlist_free. by rewrite H.
Qed.

Lemma rlist_free_double_free_panics_witness :
  exists msg, rlist_free true [mkRlist 0 4; mkRlist 9 12] 6 20 = Panic msg.
Proof.
  apply (rlist_free_double_free_panics true [mkRlist 0 4; mkRlist 9 12] 6 20);
    unfold rl_wf; cbn; unfold UMAX; try lia.
  - exists 10. cbn. lia.
  - repeat constructor; cbn; lia.
Defined.

(** an extent that starts right after an element is merged into it without
    looking at the next element: a double free that reaches into the next
    element is not detected and leaves two overlapping elements. *)
Theorem rlist_free_tail_overlap_undetected ok a b c d rest end_ :
  rl_wf (mkRlist a b :: mkRlist c d :: rest) -> c <= end_ < d ->
  exists l', rlist_free ok (mkRlist a b :: mkRlist c d :: rest) (b + 1) end_
    = Ok (mkRlist a end_ :: l') /\ rl_mem end_ l'.
Proof.
  unfold rl_wf. cbn [rl_wf_from rl_start rl_end]. intros (?&?&?&?&?&?&Hr) He.
  unfold rlist_free. cbn [rlist_free_loop rl_start rl_end].
  rewrite !u32_succ by lia. repeat case_if; try lia.
  cbn [mbind outcome_bind rlist_scan rl_start rl_end].
  rewrite u32_succ by lia. case_if; [lia|]. eexists. split; [done|].
  destruct (rlist_scan_spec rest c (mkRlist c d)) as [_ ->]; [lia| |cbn; lia].
  cbn. repeat split; try lia. by apply rl_wf_sorted, (rl_wf_weaken (d + 2)); [lia|].
Qed.

Lemma rlist_free_tail_overlap_undetected_witness :
  exists l', rlist_free true [mkRlist 0 4; mkRlist 7 9] 5 8
    = Ok (mkRlist 0 8 :: l') /\ rl_mem 8 l'.
Proof.
  apply (rlist_free_tail_overlap_undetected true 0 4 7 9 [] 8); unfold rl_wf; cbn; unfold UMAX; lia.
Defined.

(** [rlist_alloc] fails exactly when no element is long enough; otherwise
    it takes [size] members off the front of the first long enough element and
    the list stays well formed. *)
Theorem rlist_alloc_spec l size :
  rl_wf l -> 0 < size < 2 ^ 32 ->
  match rlist_alloc l size with
  | None => Forall (fun r => rl_len r < size) l
  | Some (loc, l') =>
      rl_wf l'
      /\ (forall x, loc <= x < loc + size -> rl_mem x l)
      /\ (forall x, rl_mem x l' <-> rl_mem x l /\ ~ (loc <= x < loc + size))
      /\ exists l1 r l2, l = l1 ++ r :: l2 /\ loc = rl_start r
           /\ size <= rl_len r /\ Forall (fun q => rl_len q < size) l1
  end.
Proof.
  intros Hwf Hsz. pose proof (rlist_alloc_first_fit l 0 size Hwf ltac:(lia)) as Hff.
  destruct (rlist_alloc l size) as [[loc l']|] eqn:E; [|done].
  destruct (rlist_alloc_wf l 0 size loc l' Hwf ltac:(lia) Hsz E) as (?&?&?). auto.
Qed.

Lemma rlist_alloc_spec_witness :
  match rlist_alloc [mkRlist 0 4; mkRlist 7 9] 2 with
  | None => Forall (fun r => rl_len r < 2) [mkRlist 0 4; mkRlist 7 9]
  | Some (loc, l') =>
      rl_wf l'
      /\ (forall x, loc <= x < loc + 2 -> rl_mem x [mkRlist 0 4; mkRlist 7 9])
      /\ (forall x, rl_mem x l' <->
            rl_mem x [mkRlist 0 4; mkRlist 7 9] /\ ~ (loc <= x < loc + 2))
      /\ exists l1 r l2, [mkRlist 0 4; mkRlist 7 9] = l1 ++ r :: l2 /\ loc = rl_start r
           /\ 2 <= rl_len r /\ Forall (fun q => rl_len q < 2) l1
  end.
Proof.
  apply (rlist_alloc_spec [mkRlist 0 4; mkRlist 7 9] 2); unfold rl_wf; cbn; unfold UMAX; lia.
Defined.

(** allocating an extent and freeing it again restores the list exactly. *)
Theorem rlist_alloc_free_roundtrip l size loc l' :
  rl_wf l -> 0 < size < 2 ^ 32 -> rlist_alloc l size = Some (loc, l') ->
  rlist_free true l' loc (loc + size - 1) = Ok l.
Proof.
  intros Hwf Hsz E.
  destruct (rlist_alloc_wf l 0 size loc l' Hwf ltac:(lia) Hsz E) as (Hwf'&Hin&Hmem).
  pose proof (rl_mem_ge _ _ _ Hwf (Hin loc ltac:(lia))) as H0.
  assert (loc + size - 1 < UMAX) as Hmax.
  { assert (forall lo k x, rl_wf_from lo k -> rl_mem x k -> x < UMAX) as B.
    { intros lo k; revert lo; induction k as [|q k IH]; intros lo x W M; [done|].
      destruct W as (?&?&?&W), M; [lia|eauto]. }
    eapply B, (Hin (loc + size - 1)); [exact Hwf|lia]. }
  destruct (rlist_free_ok l' loc (loc + size - 1)) as (l2&->&Hwf2&_&Hm2); [done|lia|done| |].
  { intros x Hx K. apply Hmem in K as [_ K]. lia. }
  f_equal. apply (rl_wf_unique _ 0); [done|done|].
  intros x. rewrite Hm2, Hmem. split; [|intros K; destruct (decide (loc <= x < loc + size)); [right; lia|left; auto]].
  intros [[? _]|?]; [done|apply Hin; lia].
Qed.

Lemma rlist_alloc_free_roundtrip_witness :
  rlist_free true [mkRlist 2 4; mkRlist 7 9] 0 (0 + 2 - 1) = Ok [mkRlist 0 4; mkRlist 7 9].
Proof.
  apply (rlist_alloc_free_roundtrip [mkRlist 0 4; mkRlist 7 9] 2 0);
    [unfold rl_wf; cbn; unfold UMAX; lia|lia|reflexivity].
Defined.
