(* ===== verification/Frag.v ===== *)
(** * Fragment accounting in the FFS free maps (sys/ufs/ufs_subr.c,
      sys/ufs/ufs_tables.c and [mapsearch] of sys/ufs/ufs_alloc.c)

    A cylinder group's free map has a bit per fragment, set when the fragment
    is free; [fs_frag] (1, 2, 4 or 8) fragments make a block.  [isblock],
    [clrblock] and [setblock] test and change a whole block; [fragacct] counts
    the maximal free runs shorter than a block; [mapsearch] finds a run of a
    given length through the [fragtbl] tables.  Bytes and [int]s are [Z]; the
    free map is the list of its bytes. *)

From S2P Require Import Prelude.

Definition NBBY : Z := 8.

(** ** Tables (ufs_tables.c) *)

Definition around : list Z :=
  [0x3; 0x7; 0xf; 0x1f; 0x3f; 0x7f; 0xff; 0x1ff; 0x3ff].
Definition inside : list Z :=
  [0x0; 0x2; 0x6; 0xe; 0x1e; 0x3e; 0x7e; 0xfe; 0x1fe].

Definition fragtbl124 : list Z := [
    0x00; 0x16; 0x16; 0x2a; 0x16; 0x16; 0x26; 0x4e;
    0x16; 0x16; 0x16; 0x3e; 0x2a; 0x3e; 0x4e; 0x8a;
    0x16; 0x16; 0x16; 0x3e; 0x16; 0x16; 0x36; 0x5e;
    0x16; 0x16; 0x16; 0x3e; 0x3e; 0x3e; 0x5e; 0x9e;
    0x16; 0x16; 0x16; 0x3e; 0x16; 0x16; 0x36; 0x5e;
    0x16; 0x16; 0x16; 0x3e; 0x3e; 0x3e; 0x5e; 0x9e;
    0x2a; 0x3e; 0x3e; 0x2a; 0x3e; 0x3e; 0x2e; 0x6e;
    0x3e; 0x3e; 0x3e; 0x3e; 0x2a; 0x3e; 0x6e; 0xaa;
    0x16; 0x16; 0x16; 0x3e; 0x16; 0x16; 0x36; 0x5e;
    0x16; 0x16; 0x16; 0x3e; 0x3e; 0x3e; 0x5e; 0x9e;
    0x16; 0x16; 0x16; 0x3e; 0x16; 0x16; 0x36; 0x5e;
    0x16; 0x16; 0x16; 0x3e; 0x3e; 0x3e; 0x5e; 0x9e;
    0x26; 0x36; 0x36; 0x2e; 0x36; 0x36; 0x26; 0x6e;
    0x36; 0x36; 0x36; 0x3e; 0x2e; 0x3e; 0x6e; 0xae;
    0x4e; 0x5e; 0x5e; 0x6e; 0x5e; 0x5e; 0x6e; 0x4e;
    0x5e; 0x5e; 0x5e; 0x7e; 0x6e; 0x7e; 0x4e; 0xce;
    0x16; 0x16; 0x16; 0x3e; 0x16; 0x16; 0x36; 0x5e;
    0x16; 0x16; 0x16; 0x3e; 0x3e; 0x3e; 0x5e; 0x9e;
    0x16; 0x16; 0x16; 0x3e; 0x16; 0x16; 0x36; 0x5e;
    0x16; 0x16; 0x16; 0x3e; 0x3e; 0x3e; 0x5e; 0x9e;
    0x16; 0x16; 0x16; 0x3e; 0x16; 0x16; 0x36; 0x5e;
    0x16; 0x16; 0x16; 0x3e; 0x3e; 0x3e; 0x5e; 0x9e;
    0x3e; 0x3e; 0x3e; 0x3e; 0x3e; 0x3e; 0x3e; 0x7e;
    0x3e; 0x3e; 0x3e; 0x3e; 0x3e; 0x3e; 0x7e; 0xbe;
    0x2a; 0x3e; 0x3e; 0x2a; 0x3e; 0x3e; 0x2e; 0x6e;
    0x3e; 0x3e; 0x3e; 0x3e; 0x2a; 0x3e; 0x6e; 0xaa;
    0x3e; 0x3e; 0x3e; 0x3e; 0x3e; 0x3e; 0x3e; 0x7e;
    0x3e; 0x3e; 0x3e; 0x3e; 0x3e; 0x3e; 0x7e; 0xbe;
    0x4e; 0x5e; 0x5e; 0x6e; 0x5e; 0x5e; 0x6e; 0x4e;
    0x5e; 0x5e; 0x5e; 0x7e; 0x6e; 0x7e; 0x4e; 0xce;
    0x8a; 0x9e; 0x9e; 0xaa; 0x9e; 0x9e; 0xae; 0xce;
    0x9e; 0x9e; 0x9e; 0xbe; 0xaa; 0xbe; 0xce; 0x8a].

Definition fragtbl8 : list Z := [
    0x00; 0x01; 0x01; 0x02; 0x01; 0x01; 0x02; 0x04;
    0x01; 0x01; 0x01; 0x03; 0x02; 0x03; 0x04; 0x08;
    0x01; 0x01; 0x01; 0x03; 0x01; 0x01; 0x03; 0x05;
    0x02; 0x03; 0x03; 0x02; 0x04; 0x05; 0x08; 0x10;
    0x01; 0x01; 0x01; 0x03; 0x01; 0x01; 0x03; 0x05;
    0x01; 0x01; 0x01; 0x03; 0x03; 0x03; 0x05; 0x09;
    0x02; 0x03; 0x03; 0x02; 0x03; 0x03; 0x02; 0x06;
    0x04; 0x05; 0x05; 0x06; 0x08; 0x09; 0x10; 0x20;
    0x01; 0x01; 0x01; 0x03; 0x01; 0x01; 0x03; 0x05;
    0x01; 0x01; 0x01; 0x03; 0x03; 0x03; 0x05; 0x09;
    0x01; 0x01; 0x01; 0x03; 0x01; 0x01; 0x03; 0x05;
    0x03; 0x03; 0x03; 0x03; 0x05; 0x05; 0x09; 0x11;
    0x02; 0x03; 0x03; 0x02; 0x03; 0x03; 0x02; 0x06;
    0x03; 0x03; 0x03; 0x03; 0x02; 0x03; 0x06; 0x0a;
    0x04; 0x05; 0x05; 0x06; 0x05; 0x05; 0x06; 0x04;
    0x08; 0x09; 0x09; 0x0a; 0x10; 0x11; 0x20; 0x40;
    0x01; 0x01; 0x01; 0x03; 0x01; 0x01; 0x03; 0x05;
    0x01; 0x01; 0x01; 0x03; 0x03; 0x03; 0x05; 0x09;
    0x01; 0x01; 0x01; 0x03; 0x01; 0x01; 0x03; 0x05;
    0x03; 0x03; 0x03; 0x03; 0x05; 0x05; 0x09; 0x11;
    0x01; 0x01; 0x01; 0x03; 0x01; 0x01; 0x03; 0x05;
    0x01; 0x01; 0x01; 0x03; 0x03; 0x03; 0x05; 0x09;
    0x03; 0x03; 0x03; 0x03; 0x03; 0x03; 0x03; 0x07;
    0x05; 0x05; 0x05; 0x07; 0x09; 0x09; 0x11; 0x21;
    0x02; 0x03; 0x03; 0x02; 0x03; 0x03; 0x02; 0x06;
    0x03; 0x03; 0x03; 0x03; 0x02; 0x03; 0x06; 0x0a;
    0x03; 0x03; 0x03; 0x03; 0x03; 0x03; 0x03; 0x07;
    0x02; 0x03; 0x03; 0x02; 0x06; 0x07; 0x0a; 0x12;
    0x04; 0x05; 0x05; 0x06; 0x05; 0x05; 0x06; 0x04;
    0x05; 0x05; 0x05; 0x07; 0x06; 0x07; 0x04; 0x0c;
    0x08; 0x09; 0x09; 0x0a; 0x09; 0x09; 0x0a; 0x0c;
    0x10; 0x11; 0x11; 0x12; 0x20; 0x21; 0x40; 0x80].

(** [fragtbl]: null for the sizes that are not fragment counts. *)
Definition fragtbl : list (option (list Z)) :=
  [None; Some fragtbl124; Some fragtbl124; None; Some fragtbl124;
   None; None; None; Some fragtbl8].

Definition fragtbl_of (fs_frag : Z) : outcome (list Z) :=
  deref (mjoin (fragtbl !! Z.to_nat fs_frag)).

(** Array indexing by a C integer. *)
Definition idx (l : list Z) (i : Z) : outcome Z :=
  if i <? 0 then Fault else deref (l !! Z.to_nat i).

(** ** fragacct *)

(** The loop over [pos]; a turn advances [pos] by at least one, so
    [fs_frag + 1] turns are enough. *)
Fixpoint fragacct_pos (turns : nat) (fs_frag fragmap siz cnt field subfield pos : Z)
    (fraglist : list Z) : list Z :=
  match turns with
  | O => fraglist
  | S turns =>
      if pos <=? fs_frag then
        if Z.land fragmap field =? subfield then
          fragacct_pos turns fs_frag fragmap siz cnt
            (Z.shiftl (Z.shiftl field siz) 1) (Z.shiftl (Z.shiftl subfield siz) 1)
            (pos + siz + 1)
            (alter (fun v => s32 (v + cnt)) (Z.to_nat siz) fraglist)
        else
          fragacct_pos turns fs_frag fragmap siz cnt
            (Z.shiftl field 1) (Z.shiftl subfield 1) (pos + 1) fraglist
      else fraglist
  end.

(** The loop over [siz]. *)
Fixpoint fragacct_siz (turns : nat) (fs_frag fragmap inblk cnt siz : Z)
    (fraglist : list Z) : outcome (list Z) :=
  match turns with
  | O => mret fraglist
  | S turns =>
      if siz <? fs_frag then
        if Z.land inblk (Z.shiftl 1 (siz + Z.rem fs_frag NBBY)) =? 0 then
          fragacct_siz turns fs_frag fragmap inblk cnt (siz + 1) fraglist
        else
          field ← idx around siz;
          subfield ← idx inside siz;
          fragacct_siz turns fs_frag fragmap inblk cnt (siz + 1)
            (fragacct_pos (Z.to_nat (fs_frag + 1)) fs_frag fragmap siz cnt
               field subfield siz fraglist)
      else mret fraglist
  end.

Definition fragacct (fs_frag fragmap : Z) (fraglist : list Z) (cnt : Z)
  : outcome (list Z) :=
  tbl ← fragtbl_of fs_frag;
  e ← idx tbl fragmap;
  fragacct_siz (Z.to_nat fs_frag) fs_frag (Z.shiftl fragmap 1) (Z.shiftl e 1) cnt 1
    fraglist.

(** ** Block operations *)

Definition isblock (fs_frag : Z) (cp : list Z) (h : Z) : outcome bool :=
  match fs_frag with
  | 8 => b ← idx cp h; mret (b =? 0xff)
  | 4 => let mask := u8 (Z.shiftl 0x0f (Z.shiftl (Z.land h 0x1) 2)) in
         b ← idx cp (Z.shiftr h 1); mret (Z.land b mask =? mask)
  | 2 => let mask := u8 (Z.shiftl 0x03 (Z.shiftl (Z.land h 0x3) 1)) in
         b ← idx cp (Z.shiftr h 2); mret (Z.land b mask =? mask)
  | 1 => let mask := u8 (Z.shiftl 0x01 (Z.land h 0x7)) in
         b ← idx cp (Z.shiftr h 3); mret (Z.land b mask =? mask)
  | _ => Panic "isblock"
  end.

(** [cp[i] = f(cp[i])] for a byte array. *)
Definition upd (f : Z -> Z) (cp : list Z) (i : Z) : outcome (list Z) :=
  b ← idx cp i; mret (<[Z.to_nat i := u8 (f b)]> cp).

Definition clrblock (fs_frag : Z) (cp : list Z) (h : Z) : outcome (list Z) :=
  match fs_frag with
  | 8 => upd (fun _ => 0) cp h
  | 4 => upd (fun b => Z.land b (Z.lnot (Z.shiftl 0x0f (Z.shiftl (Z.land h 0x1) 2))))
           cp (Z.shiftr h 1)
  | 2 => upd (fun b => Z.land b (Z.lnot (Z.shiftl 0x03 (Z.shiftl (Z.land h 0x3) 1))))
           cp (Z.shiftr h 2)
  | 1 => upd (fun b => Z.land b (Z.lnot (Z.shiftl 0x01 (Z.land h 0x7))))
           cp (Z.shiftr h 3)
  | _ => Panic "clrblock"
  end.

Definition setblock (fs_frag : Z) (cp : list Z) (h : Z) : outcome (list Z) :=
  match fs_frag with
  | 8 => upd (fun _ => 0xff) cp h
  | 4 => upd (fun b => Z.lor b (Z.shiftl 0x0f (Z.shiftl (Z.land h 0x1) 2)))
           cp (Z.shiftr h 1)
  | 2 => upd (fun b => Z.lor b (Z.shiftl 0x03 (Z.shiftl (Z.land h 0x3) 1)))
           cp (Z.shiftr h 2)
  | 1 => upd (fun b => Z.lor b (Z.shiftl 0x01 (Z.land h 0x7)))
           cp (Z.shiftr h 3)
  | _ => Panic "setblock"
  end.

(** ** Byte scans

    [scanc], [skpc] and [locc] walk [cp .. cp + size) and return how many
    bytes remain; the list is the array from [cp] on, at least [size] long. *)
Fixpoint scanc (size : nat) (cp table : list Z) (mask : Z) : outcome Z :=
  match size with
  | O => mret 0
  | S n =>
      c ← deref (head cp);
      t ← idx table c;
      if Z.land t mask =? 0 then scanc n (tail cp) table mask
      else mret (Z.of_nat size)
  end.

Fixpoint skpc (mask : Z) (size : nat) (cp : list Z) : outcome Z :=
  match size with
  | O => mret 0
  | S n =>
      c ← deref (head cp);
      if c =? mask then skpc mask n (tail cp) else mret (Z.of_nat size)
  end.

Fixpoint locc (mask : Z) (size : nat) (cp : list Z) : outcome Z :=
  match size with
  | O => mret 0
  | S n =>
      c ← deref (head cp);
      if c =? mask then mret (Z.of_nat size) else locc mask n (tail cp)
  end.

(** ** mapsearch *)

(** [blkmap] of sys/ufs/fs.h. *)
Definition blkmap (fs_frag : Z) (map : list Z) (l : Z) : outcome Z :=
  b ← idx map (Z.quot l NBBY);
  mret (Z.land (Z.shiftr b (Z.rem l NBBY)) (Z.shiftr 0xff (NBBY - fs_frag))).

(** The loop over [pos] of [mapsearch]: the first position that matches. *)
Fixpoint mapsearch_pos (turns : nat) (fs_frag allocsiz blk field subfield pos : Z)
  : option Z :=
  match turns with
  | O => None
  | S turns =>
      if pos <=? fs_frag - allocsiz then
        if Z.land blk field =? subfield then Some pos
        else mapsearch_pos turns fs_frag allocsiz blk
               (Z.shiftl field 1) (Z.shiftl subfield 1) (pos + 1)
      else None
  end.

(** The loop over the blocks of the byte found. *)
Fixpoint mapsearch_blk (turns : nat) (fs_frag : Z) (map : list Z) (allocsiz i bno : Z)
  : outcome Z :=
  match turns with
  | O => Panic "alloccg: block not in map"
  | S turns =>
      if bno <? i then
        blk ← blkmap fs_frag map bno;
        field ← idx around allocsiz;
        subfield ← idx inside allocsiz;
        match mapsearch_pos (Z.to_nat (fs_frag - allocsiz + 1)) fs_frag allocsiz
                (Z.shiftl blk 1) field subfield 0 with
        | Some pos => mret (bno + pos)
        | None => mapsearch_blk turns fs_frag map allocsiz i (bno + fs_frag)
        end
      else Panic "alloccg: block not in map"
  end.

Record cg := mkCg { cg_frotor : Z; cg_blksfree : list Z }.

(** [fs_fpg] is the number of fragments of a group; [dtogd] is [bpref % fs_fpg]
    and [howmany(fs_fpg, NBBY)] the number of bytes of the map. *)
Definition mapsearch (fs_frag fs_fpg : Z) (cgp : cg) (bpref allocsiz : Z)
  : outcome (Z * cg) :=
  let map := cg_blksfree cgp in
  let start := if bpref =? 0 then Z.quot (cg_frotor cgp) NBBY
               else Z.quot (Z.rem bpref fs_fpg) NBBY in
  let len := Z.quot (fs_fpg + (NBBY - 1)) NBBY - start in
  tbl ← fragtbl_of fs_frag;
  if len <? 0 then Fault else
  let mask := u8 (Z.shiftl 1 (allocsiz - 1 + Z.rem fs_frag NBBY)) in
  loc ← scanc (Z.to_nat len) (drop (Z.to_nat start) map) tbl mask;
  '(start, len, loc) ←
    (if loc =? 0 then
       loc ← scanc (Z.to_nat (start + 1)) map tbl mask;
       if loc =? 0 then Panic "alloccg: map corrupted"
       else mret (0, start + 1, loc)
     else mret (start, len, loc));
  let bno := (start + len - loc) * NBBY in
  r ← mapsearch_blk (Z.to_nat NBBY) fs_frag map allocsiz (bno + NBBY) bno;
  mret (r, mkCg bno map).

(** ** Specification of the free runs of a block *)

Definition bit_run (map p n : Z) : bool :=
  forallb (fun i => Z.testbit map i) (seqZ p n).

(** Fragments [p .. p + siz) of a block of [frag] fragments are a maximal free
    run of the block's bits [map]. *)
Definition is_run (frag map p siz : Z) : bool :=
  bit_run map p siz
  && ((p =? 0) || negb (Z.testbit map (p - 1)))
  && ((p + siz =? frag) || negb (Z.testbit map (p + siz))).

(** How many maximal free runs of exactly [siz] fragments the block has. *)
Definition run_count (frag map siz : Z) : Z :=
  Z.of_nat (length (filter (fun p => is_run frag map p siz = true)
                           (seqZ 0 (frag - siz + 1)))).

Definition frag_ok (frag : Z) : Prop := frag = 1 \/ frag = 2 \/ frag = 4 \/ frag = 8.

(** *** The increments [fragacct] makes, as the list of sizes it bumps *)

Fixpoint pos_hits (turns : nat) (frag fragmap siz field subfield pos : Z) : list Z :=
  match turns with
  | O => []
  | S turns =>
      if pos <=? frag then
        if Z.land fragmap field =? subfield then
          siz :: pos_hits turns frag fragmap siz
            (Z.shiftl (Z.shiftl field siz) 1) (Z.shiftl (Z.shiftl subfield siz) 1)
            (pos + siz + 1)
        else pos_hits turns frag fragmap siz (Z.shiftl field 1) (Z.shiftl subfield 1) (pos + 1)
      else []
  end.

Fixpoint siz_hits (turns : nat) (frag fragmap inblk siz : Z) : outcome (list Z) :=
  match turns with
  | O => mret []
  | S turns =>
      if siz <? frag then
        if Z.land inblk (Z.shiftl 1 (siz + Z.rem frag NBBY)) =? 0
        then siz_hits turns frag fragmap inblk (siz + 1)
        else
          field ← idx around siz;
          subfield ← idx inside siz;
          hs ← siz_hits turns frag fragmap inblk (siz + 1);
          mret (pos_hits (Z.to_nat (frag + 1)) frag fragmap siz field subfield siz ++ hs)
      else mret []
  end.

Definition acct_hits (frag fragmap : Z) : outcome (list Z) :=
  tbl ← fragtbl_of frag;
  e ← idx tbl fragmap;
  siz_hits (Z.to_nat frag) frag (Z.shiftl fragmap 1) (Z.shiftl e 1) 1.

Definition bumps (cnt : Z) (hs fraglist : list Z) : list Z :=
  foldl (fun l siz => alter (fun v => s32 (v + cnt)) (Z.to_nat siz) l) fraglist hs.

Lemma fragacct_pos_hits turns frag fragmap siz cnt : forall field subfield pos l,
  fragacct_pos turns frag fragmap siz cnt field subfield pos l
  = bumps cnt (pos_hits turns frag fragmap siz field subfield pos) l.
Proof.
  induction turns as [|n IH]; intros; cbn; [done|].
  repeat case_if; rewrite ?IH; done.
Qed.

Lemma fragacct_siz_hits turns frag fragmap inblk cnt : forall siz l,
  fragacct_siz turns frag fragmap inblk cnt siz l
  = (hs ← siz_hits turns frag fragmap inblk siz; mret (bumps cnt hs l)).
Proof.
  induction turns as [|n IH]; intros siz l; cbn [fragacct_siz siz_hits]; [done|].
  repeat case_if; [apply IH| |done].
  destruct (idx around siz); cbn; [|done..]. destruct (idx inside siz); cbn; [|done..].
  rewrite fragacct_pos_hits, IH.
  destruct (siz_hits n frag fragmap inblk (siz + 1)); cbn; [|done..].
  unfold bumps. by rewrite foldl_app.
Qed.

Lemma fragacct_hits frag fragmap l cnt :
  fragacct frag fragmap l cnt = (hs ← acct_hits frag fragmap; mret (bumps cnt hs l)).
Proof.
  unfold fragacct, acct_hits. destruct (fragtbl_of frag); cbn; [|done..].
  destruct (idx a fragmap); cbn; [|done..]. apply fragacct_siz_hits.
Qed.

Definition hit_count (siz : Z) (hs : list Z) : Z :=
  Z.of_nat (length (filter (fun s => s = siz) hs)).

Lemma bumps_cons cnt h hs l :
  bumps cnt (h :: hs) l
  = bumps cnt hs (alter (fun v => s32 (v + cnt)) (Z.to_nat h) l).
Proof. done. Qed.

Lemma bumps_lookup cnt hs : forall l i v,
  Forall (fun s => 0 <= s) hs -> 0 <= i -> l !! Z.to_nat i = Some v -> s32 v = v ->
  bumps cnt hs l !! Z.to_nat i = Some (s32 (v + hit_count i hs * cnt)).
Proof.
  unfold hit_count. induction hs as [|h hs IH]; intros l i v Hp Hi Hl Hv.
  { cbn. rewrite Hl. do 2 f_equal. rewrite Z.mul_0_l, Z.add_0_r. done. }
  apply Forall_cons_iff in Hp as [Hh Hp]. rewrite filter_cons, bumps_cons.
  case_decide as Hd.
  - subst h. erewrite (IH _ i (s32 (v + cnt))); [|done|done| |].
    + rewrite s32_add_l. do 2 f_equal. cbn [length]. lia.
    + by rewrite list_lookup_alter_eq, Hl.
    + apply s32_idem.
  - apply IH; try done. rewrite list_lookup_alter_ne; [done|lia].
Qed.

Lemma bumps_length cnt hs : forall l, length (bumps cnt hs l) = length l.
Proof.
  induction hs as [|h hs IH]; intros l; cbn; [done|].
  etransitivity; [apply IH|]. by rewrite length_alter.
Qed.

(** The increments are one for each maximal run: checked for every map of every
    fragment count. *)
Definition acct_ok (frag map : Z) : bool :=
  match acct_hits frag map with
  | Ok hs => forallb (fun h => (1 <=? h) && (h <? frag)) hs
             && forallb (fun siz => hit_count siz hs =? run_count frag map siz)
                        (seqZ 1 (frag - 1))
  | _ => false
  end.

Lemma acct_ok_all frag map : frag_ok frag -> 0 <= map < 2 ^ frag -> acct_ok frag map = true.
Proof.
  intros Hf Hm.
  assert (forallb (fun f => forallb (acct_ok f) (seqZ 0 (2 ^ f))) [1; 2; 4; 8] = true) as A
    by (vm_compute; reflexivity).
  rewrite forallb_forall in A. specialize (A frag).
  rewrite forallb_forall in A. apply A.
  - unfold frag_ok in Hf. cbn. intuition.
  - apply list_elem_of_In, elem_of_seqZ. lia.
Qed.

(** *** The map as a bit sequence *)

Definition map_bit (cp : list Z) (n : Z) : bool :=
  Z.testbit (cp !!! Z.to_nat (n / 8)) (n mod 8).

Definition bytes_ok (cp : list Z) : Prop := Forall (fun b => 0 <= b < 256) cp.

(** The bits of block [h] inside its byte. *)
Definition blk_mask (frag h : Z) : Z := Z.shiftl (Z.ones frag) ((h * frag) mod 8).

Lemma blk_index frag h :
  frag_ok frag -> 0 <= h ->
  (frag = 8 /\ h * frag / 8 = h /\ (h * frag) mod 8 = 0)
  \/ (frag = 4 /\ h * frag / 8 = Z.shiftr h 1
      /\ ((h * frag) mod 8 = 0 /\ Z.land h 1 = 0 \/ (h * frag) mod 8 = 4 /\ Z.land h 1 = 1))
  \/ (frag = 2 /\ h * frag / 8 = Z.shiftr h 2
      /\ (h * frag) mod 8 = 2 * Z.land h 3 /\ 0 <= Z.land h 3 < 4)
  \/ (frag = 1 /\ h * frag / 8 = Z.shiftr h 3
      /\ (h * frag) mod 8 = Z.land h 7 /\ 0 <= Z.land h 7 < 8).
Proof.
  intros Hf Hh.
  pose proof (Z.land_ones h 1 ltac:(lia)) as E1.
  pose proof (Z.land_ones h 2 ltac:(lia)) as E2.
  pose proof (Z.land_ones h 3 ltac:(lia)) as E3.
  change (Z.ones 1) with 1 in E1. change (Z.ones 2) with 3 in E2. change (Z.ones 3) with 7 in E3.
  rewrite !Z.shiftr_div_pow2 by lia.
  change (2 ^ 1) with 2 in *. change (2 ^ 2) with 4 in *. change (2 ^ 3) with 8 in *.
  rewrite E1, E2, E3.
  destruct Hf as [->|[->|[->| ->]]]; [do 3 right|do 2 right; left|right; left|left];
    (split; [done|]); Z.to_euclidean_division_equations; lia.
Qed.

Lemma blk_mask_bits frag h j : frag_ok frag -> 0 <= h -> 0 <= j ->
  Z.testbit (blk_mask frag h) j
  = ((h * frag) mod 8 <=? j) && (j <? (h * frag) mod 8 + frag).
Proof.
  intros Hf Hh Hj. unfold blk_mask.
  rewrite Z.shiftl_spec by lia.
  assert (0 <= frag) by (unfold frag_ok in Hf; lia).
  rewrite Z.testbit_ones by lia. do 2 (f_equal; try lia).
Qed.

Lemma blk_mask_byte frag h : frag_ok frag -> 0 <= h -> 0 <= blk_mask frag h < 256.
Proof.
  intros Hf Hh. unfold blk_mask. rewrite Z.shiftl_mul_pow2, Z.ones_equiv by (apply Z.mod_pos_bound; lia).
  destruct (blk_index frag h Hf Hh) as [(->&_&->)|[(->&_&[[-> _]|[-> _]])|[(->&_&->&?)|(->&_&->&?)]]];
    [cbn; lia..| |].
  - assert (Z.land h 3 = 0 \/ Z.land h 3 = 1 \/ Z.land h 3 = 2 \/ Z.land h 3 = 3) as K by lia.
    destruct K as [->|[->|[->| ->]]]; cbn; lia.
  - assert (Z.land h 7 = 0 \/ Z.land h 7 = 1 \/ Z.land h 7 = 2 \/ Z.land h 7 = 3
      \/ Z.land h 7 = 4 \/ Z.land h 7 = 5 \/ Z.land h 7 = 6 \/ Z.land h 7 = 7) as K by lia.
    destruct K as [->|[->|[->|[->|[->|[->|[->| ->]]]]]]]; cbn; lia.
Qed.

Lemma idx_ok cp i : 0 <= i < Z.of_nat (length cp) ->
  idx cp i = Ok (cp !!! Z.to_nat i) /\ cp !! Z.to_nat i = Some (cp !!! Z.to_nat i).
Proof.
  intros Hi. unfold idx. case_if; [lia|].
  destruct (lookup_lt_is_Some_2 cp (Z.to_nat i)) as [b Hb]; [lia|].
  rewrite (list_lookup_total_correct _ _ _ Hb), Hb. done.
Qed.

Lemma bytes_ok_lookup cp i : bytes_ok cp -> 0 <= cp !!! i < 256.
Proof.
  intros Hb. destruct (cp !! i) eqn:E.
  - rewrite (list_lookup_total_correct _ _ _ E). exact (Forall_lookup_1 _ _ _ _ Hb E).
  - rewrite list_lookup_total_alt, E. cbn. lia.
Qed.

Lemma byte_lor a b : 0 <= a < 256 -> 0 <= b < 256 ->
  0 <= Z.lor a b < 256 /\ u8 (Z.lor a b) = Z.lor a b.
Proof.
  intros Ha Hb.
  assert (Z.lor a b = Z.lor a b mod 2 ^ 8) as E.
  { rewrite <- Z.land_ones, Z.land_lor_distr_l, !Z.land_ones, !Z.mod_small by lia. done. }
  pose proof (Z.mod_pos_bound (Z.lor a b) (2 ^ 8) ltac:(lia)). split; [lia|]. symmetry; exact E.
Qed.

Lemma byte_ldiff a b : 0 <= a < 256 ->
  0 <= Z.ldiff a b < 256 /\ u8 (Z.ldiff a b) = Z.ldiff a b.
Proof.
  intros Ha.
  assert (Z.ldiff a b = Z.ldiff a b mod 2 ^ 8) as E.
  { rewrite <- Z.land_ones, !Z.ldiff_land by lia.
    rewrite <- Z.land_assoc, (Z.land_comm (Z.lnot b)), Z.land_assoc.
    rewrite Z.land_ones, Z.mod_small by lia. done. }
  pose proof (Z.mod_pos_bound (Z.ldiff a b) (2 ^ 8) ltac:(lia)). split; [lia|]. symmetry; exact E.
Qed.

(** The three operations as one mask operation on one byte. *)
Lemma block_ops_mask frag cp h :
  frag_ok frag -> bytes_ok cp -> 0 <= h -> h * frag / 8 < Z.of_nat (length cp) ->
  let i := Z.to_nat (h * frag / 8) in
  let m := blk_mask frag h in
  isblock frag cp h = Ok (Z.land (cp !!! i) m =? m)
  /\ setblock frag cp h = Ok (<[i := Z.lor (cp !!! i) m]> cp)
  /\ clrblock frag cp h = Ok (<[i := Z.ldiff (cp !!! i) m]> cp).
Proof.
  intros Hf Hb Hh Hl i m.
  pose proof (bytes_ok_lookup cp i Hb) as Hby.
  pose proof (blk_mask_byte frag h Hf Hh) as Hm. fold m in Hm.
  assert (0 <= h * frag / 8) as Hi by (apply Z.div_pos; unfold frag_ok in Hf; nia).
  destruct (idx_ok cp (h * frag / 8)) as [Hidx _]; [lia|]. fold i in Hidx.
  assert (Hu : forall v, u8 v = wrapu 8 v) by done.
  destruct (byte_lor (cp !!! i) m Hby Hm) as [_ El].
  destruct (byte_ldiff (cp !!! i) m Hby) as [_ Ed].
  unfold setblock, clrblock, isblock, upd.
  destruct (blk_index frag h Hf Hh)
    as [(->&Ei&E8)|[(->&Ei&E4)|[(->&Ei&E2&_)|(->&Ei&E1&_)]]].
  - rewrite <- Ei at 1 2 3. rewrite Hidx. cbn -[u8]. rewrite <- Ei. fold i.
    assert (m = 255) as -> by (unfold m, blk_mask; rewrite E8; done).
    repeat split; do 2 f_equal.
    + rewrite (Z.land_ones _ 8), Z.mod_small by lia. done.
    + change 255 with (Z.ones 8). rewrite Z.lor_ones_low; [done|lia|].
      destruct (decide (cp !!! i = 0)) as [->|]; [cbn; lia|apply Z.log2_lt_pow2; lia].
    + change 255 with (Z.ones 8). rewrite Z.ldiff_ones_r_low; [done|lia|].
      destruct (decide (cp !!! i = 0)) as [->|]; [cbn; lia|apply Z.log2_lt_pow2; lia].
  - rewrite <- Ei, Hidx.
    assert (Z.shiftl 15 (Z.shiftl (Z.land h 1) 2) = m) as Em.
    { unfold m, blk_mask. destruct E4 as [[-> ->]|[-> ->]]; done. }
    rewrite Em. cbn -[u8]. fold i. rewrite (u8_id m) by lia.
    rewrite <- Z.ldiff_land, El, Ed. done.
  - rewrite <- Ei, Hidx.
    assert (Z.shiftl 3 (Z.shiftl (Z.land h 3) 1) = m) as Em.
    { unfold m, blk_mask. rewrite E2. by f_equal. }
    rewrite Em. cbn -[u8]. fold i. rewrite (u8_id m) by lia.
    rewrite <- Z.ldiff_land, El, Ed. done.
  - rewrite <- Ei, Hidx.
    assert (Z.shiftl 1 (Z.land h 7) = m) as Em.
    { unfold m, blk_mask. rewrite E1. done. }
    rewrite Em. cbn -[u8]. fold i. rewrite (u8_id m) by lia.
    rewrite <- Z.ldiff_land, El, Ed. done.
Qed.

(** A byte of the updated map. *)
Lemma map_bit_insert cp i b n : (i < length cp)%nat -> 0 <= n ->
  map_bit (<[i := b]> cp) n
  = if decide (Z.to_nat (n / 8) = i) then Z.testbit b (n mod 8) else map_bit cp n.
Proof.
  intros Hi Hn. unfold map_bit. case_decide as E.
  - subst i. by rewrite list_lookup_total_insert_eq.
  - rewrite list_lookup_total_insert_ne; [done|congruence].
Qed.

Lemma bytes_ok_insert cp i b : bytes_ok cp -> 0 <= b < 256 -> bytes_ok (<[i := b]> cp).
Proof. intros. by apply Forall_insert. Qed.

(** Bit [n] lies in block [h] iff it lies in the block's byte under its mask. *)
Lemma block_bit_mask frag h n : frag_ok frag -> 0 <= h -> 0 <= n ->
  (h * frag <=? n) && (n <? h * frag + frag)
  = bool_decide (Z.to_nat (n / 8) = Z.to_nat (h * frag / 8))
    && Z.testbit (blk_mask frag h) (n mod 8).
Proof.
  intros Hf Hh Hn. rewrite blk_mask_bits by (try done; apply Z.mod_pos_bound; lia).
  apply Bool.eq_iff_eq_true. rewrite !andb_true_iff, bool_decide_eq_true, !Z.leb_le, !Z.ltb_lt.
  destruct Hf as [->|[->|[->| ->]]]; Z.to_euclidean_division_equations; lia.
Qed.

Lemma block_bits_mask frag cp h : frag_ok frag -> 0 <= h ->
  Z.land (cp !!! Z.to_nat (h * frag / 8)) (blk_mask frag h) = blk_mask frag h
  <-> forall i, 0 <= i < frag -> map_bit cp (h * frag + i) = true.
Proof.
  intros Hf Hh. split.
  - intros E i Hi.
    assert (0 <= h * frag + i) as Hn by (unfold frag_ok in Hf; nia).
    pose proof (block_bit_mask frag h (h * frag + i) Hf Hh Hn) as B.
    replace ((h * frag <=? h * frag + i) && (h * frag + i <? h * frag + frag)) with true in B
      by (symmetry; apply andb_true_iff; rewrite Z.leb_le, Z.ltb_lt; lia).
    symmetry in B. apply andb_true_iff in B as [Bi Bm]. apply bool_decide_eq_true in Bi.
    unfold map_bit. rewrite Bi. rewrite <- E in Bm. rewrite Z.land_spec in Bm.
    by apply andb_true_iff in Bm as [? _].
  - intros Hall. apply Z.bits_inj'. intros j Hj. rewrite Z.land_spec.
    destruct (Z.testbit (blk_mask frag h) j) eqn:Em; [|by rewrite andb_false_r].
    rewrite andb_true_r. rewrite blk_mask_bits in Em by done.
    apply andb_true_iff in Em as [E1 E2]. bool_prop.
    specialize (Hall (j - (h * frag) mod 8) ltac:(lia)). unfold map_bit in Hall.
    assert ((h * frag + (j - (h * frag) mod 8)) / 8 = h * frag / 8
            /\ (h * frag + (j - (h * frag) mod 8)) mod 8 = j) as [Ea Eb].
    { clear Hall. destruct Hf as [->|[->|[->| ->]]]; Z.to_euclidean_division_equations; lia. }
    by rewrite Ea, Eb in Hall.
Qed.

(** *** Scans *)

Lemma scanc_spec size table mask : forall cp r,
  scanc size cp table mask = Ok r ->
  0 <= r <= Z.of_nat size
  /\ Forall (fun c => exists t, idx table c = Ok t /\ Z.land t mask = 0)
       (take (size - Z.to_nat r) cp)
  /\ (r <> 0 -> exists c t, cp !! (size - Z.to_nat r)%nat = Some c
       /\ idx table c = Ok t /\ Z.land t mask <> 0).
Proof.
  induction size as [|n IH]; intros cp r H.
  { injection H as <-. cbn. split; [lia|]. split; [constructor|done]. }
  cbn [scanc] in H. destruct cp as [|c cp]; [done|]. cbn in H.
  destruct (idx table c) as [t| |] eqn:Et; [|done..]. cbn in H. case_if.
  - destruct (IH _ _ H) as (?&Hf&Hn). replace (S n - Z.to_nat r)%nat with (S (n - Z.to_nat r)) by lia.
    split; [lia|]. split; [|exact Hn]. cbn. constructor; [eauto|done].
  - injection H as <-. replace (S n - Z.to_nat (Z.of_nat (S n)))%nat with O by lia.
    split; [lia|]. split; [constructor|]. intros _. by exists c, t.
Qed.

Lemma scanc_total size table mask : forall cp,
  (size <= length cp)%nat -> Forall (fun c => is_Some (table !! Z.to_nat c) /\ 0 <= c) cp ->
  exists r, scanc size cp table mask = Ok r.
Proof.
  induction size as [|n IH]; intros cp Hl Hf; [by eexists|].
  destruct cp as [|c cp]; cbn in Hl; [lia|]. apply Forall_cons_iff in Hf as [[[t Ht] Hc] Hf].
  cbn [scanc]. unfold idx. cbn. case_if; [lia|]. rewrite Ht. cbn. case_if; [|by eexists].
  apply IH; [lia|done].
Qed.

(** *** Searching one byte of the map *)

(** Fragments [p .. p + siz) of the byte are a maximal free run of the block
    that holds [p]. *)
Definition run_at (frag byte p siz : Z) : bool :=
  is_run frag (Z.land (Z.shiftr byte (p / frag * frag)) (Z.ones frag)) (p mod frag) siz.

(** The same for the whole map. *)
Definition map_run (frag : Z) (map : list Z) (n siz : Z) : bool :=
  run_at frag (map !!! Z.to_nat (n / 8)) (n mod 8) siz.

Definition frag_mask (frag allocsiz : Z) : Z :=
  u8 (Z.shiftl 1 (allocsiz - 1 + Z.rem frag NBBY)).

(** [mapsearch_blk] on a one byte map. *)
Definition byte_search (frag byte allocsiz : Z) : outcome Z :=
  mapsearch_blk 8 frag [byte] allocsiz 8 0.

Definition byte_search_ok (frag byte allocsiz : Z) : bool :=
  match tbl ← fragtbl_of frag; idx tbl byte with
  | Ok t =>
      if Z.land t (frag_mask frag allocsiz) =? 0
      then forallb (fun p => negb (run_at frag byte p allocsiz)) (seqZ 0 8)
      else match byte_search frag byte allocsiz with
           | Ok p => (0 <=? p) && (p <? 8) && run_at frag byte p allocsiz
               && forallb (fun q => negb (run_at frag byte q allocsiz)) (seqZ 0 p)
           | _ => false
           end
  | _ => false
  end.

Lemma byte_search_ok_all frag byte siz :
  frag_ok frag -> 0 <= byte < 256 -> 1 <= siz <= frag -> byte_search_ok frag byte siz = true.
Proof.
  intros Hf Hb Hs.
  assert (forallb (fun f => forallb (fun b => forallb (byte_search_ok f b) (seqZ 1 f))
    (seqZ 0 256)) [1; 2; 4; 8] = true) as A by (vm_compute; reflexivity).
  rewrite forallb_forall in A. specialize (A frag).
  rewrite forallb_forall in A. specialize (fun H => A H byte).
  rewrite forallb_forall in A. apply A.
  - unfold frag_ok in Hf. cbn. intuition.
  - apply list_elem_of_In, elem_of_seqZ. lia.
  - apply list_elem_of_In, elem_of_seqZ. lia.
Qed.

Lemma quot_rem_pos a b : 0 <= a -> 0 < b -> Z.quot a b = a / b /\ Z.rem a b = a mod b.
Proof. intros. split; [apply Z.quot_div_nonneg|apply Z.rem_mod_nonneg]; lia. Qed.

(** The search in the byte [k] of a map is the search of the one byte map. *)
Lemma mapsearch_blk_byte turns frag map siz k : forall off,
  0 <= k < Z.of_nat (length map) -> 0 <= off -> 0 < frag ->
  mapsearch_blk turns frag map siz (k * 8 + 8) (k * 8 + off)
  = (fun p => k * 8 + p) <$> mapsearch_blk turns frag [map !!! Z.to_nat k] siz 8 off.
Proof.
  induction turns as [|n IH]; intros off Hk Ho Hf; cbn [mapsearch_blk]; [done|].
  replace (k * 8 + off <? k * 8 + 8) with (off <? 8) by lia.
  destruct (off <? 8) eqn:E; [|done]. bool_prop.
  unfold blkmap, NBBY. destruct (quot_rem_pos (k * 8 + off) 8) as [-> ->]; [lia..|].
  destruct (quot_rem_pos off 8) as [-> ->]; [lia..|].
  replace ((k * 8 + off) / 8) with k by (Z.to_euclidean_division_equations; lia).
  replace ((k * 8 + off) mod 8) with off by (Z.to_euclidean_division_equations; lia).
  replace (off / 8) with 0 by (Z.to_euclidean_division_equations; lia).
  rewrite (Z.mod_small off) by lia.
  destruct (idx_ok map k Hk) as [-> _].
  replace (idx [map !!! Z.to_nat k] 0) with (Ok (map !!! Z.to_nat k)) by done.
  cbn [mbind outcome_bind mret outcome_ret].
  destruct (idx around siz); cbn [mbind outcome_bind]; [|done..].
  destruct (idx inside siz); cbn [mbind outcome_bind]; [|done..].
  destruct (mapsearch_pos _ _ _ _ _ _ _); cbn.
  - unfold mret, outcome_ret. f_equal. lia.
  - rewrite <- Z.add_assoc, IH by lia. done.
Qed.

Lemma fragtbl_of_ok frag : frag_ok frag ->
  exists tbl, fragtbl_of frag = Ok tbl /\ length tbl = 256%nat.
Proof. intros [->|[->|[->| ->]]]; eexists; split; reflexivity. Qed.

(** A byte that passes the table test is found by the sift, and the others have
    no run. *)
Lemma byte_found frag map k siz tbl t :
  frag_ok frag -> bytes_ok map -> 0 <= k < Z.of_nat (length map) -> 1 <= siz <= frag ->
  fragtbl_of frag = Ok tbl -> idx tbl (map !!! Z.to_nat k) = Ok t ->
  if decide (Z.land t (frag_mask frag siz) = 0)
  then forall p, 0 <= p < 8 -> map_run frag map (k * 8 + p) siz = false
  else exists p, mapsearch_blk (Z.to_nat NBBY) frag map siz (k * NBBY + NBBY) (k * NBBY) = Ok (k * 8 + p)
         /\ 0 <= p < 8 /\ map_run frag map (k * 8 + p) siz = true
         /\ forall q, 0 <= q < p -> map_run frag map (k * 8 + q) siz = false.
Proof.
  intros Hf Hb Hk Hs Ht Hi.
  pose proof (byte_search_ok_all frag (map !!! Z.to_nat k) siz Hf (bytes_ok_lookup _ _ Hb) Hs) as A.
  unfold byte_search_ok in A. rewrite Ht in A. cbn [mbind outcome_bind] in A. rewrite Hi in A.
  assert (P : forall p, 0 <= p < 8 -> (k * 8 + p) / 8 = k /\ (k * 8 + p) mod 8 = p)
    by (intros; Z.to_euclidean_division_equations; lia).
  unfold map_run. case_decide as E.
  - rewrite E in A. cbn in A. intros p Hp. destruct (P p Hp) as [-> ->].
    rewrite forallb_forall in A. apply negb_true_iff, A, list_elem_of_In, elem_of_seqZ. lia.
  - destruct (Z.eqb_spec (Z.land t (frag_mask frag siz)) 0); [done|].
    unfold byte_search in A.
    pose proof (mapsearch_blk_byte 8 frag map siz k 0 Hk ltac:(lia) ltac:(unfold frag_ok in Hf; lia)) as B.
    rewrite Z.add_0_r in B. change (Z.to_nat NBBY) with 8%nat. change NBBY with 8. rewrite B.
    destruct (mapsearch_blk 8 frag [map !!! Z.to_nat k] siz 8 0) as [p| |]; [|done..].
    apply andb_true_iff in A as [A A3]. apply andb_true_iff in A as [A1 A2]. bool_prop. exists p. cbn.
    destruct (P p ltac:(lia)) as [-> ->]. do 3 (split; [done|]). intros q Hq. destruct (P q ltac:(lia)) as [-> ->].
    rewrite forallb_forall in A3. apply negb_true_iff, A3, list_elem_of_In, elem_of_seqZ. lia.
Qed.

(** A scan of the map bytes [s .. s + len). *)
Lemma scan_map tbl mask map s len :
  length tbl = 256%nat -> bytes_ok map -> 0 <= s -> 0 <= len ->
  s + len <= Z.of_nat (length map) ->
  exists r, scanc (Z.to_nat len) (drop (Z.to_nat s) map) tbl mask = Ok r
    /\ 0 <= r <= len
    /\ (forall k, s <= k < s + len - r -> exists t, idx tbl (map !!! Z.to_nat k) = Ok t
          /\ Z.land t mask = 0)
    /\ (r <> 0 -> exists t, idx tbl (map !!! Z.to_nat (s + len - r)) = Ok t
          /\ Z.land t mask <> 0).
Proof.
  intros Ht Hb Hs Hl Hle.
  destruct (scanc_total (Z.to_nat len) tbl mask (drop (Z.to_nat s) map)) as [r Hr].
  - rewrite length_drop. lia.
  - apply Forall_drop. eapply Forall_impl; [|exact Hb]. intros c Hc. cbn in Hc.
    split; [apply lookup_lt_is_Some_2; lia|lia].
  - exists r. split; [done|]. destruct (scanc_spec _ _ _ _ _ Hr) as (Hrange&Hz&Hnz).
    split; [lia|]. split.
    + intros k Hk. rewrite Forall_lookup in Hz.
      apply (Hz (Z.to_nat (k - s))). rewrite lookup_take_lt by lia. rewrite lookup_drop.
      replace (Z.to_nat s + Z.to_nat (k - s))%nat with (Z.to_nat k) by lia.
      by apply idx_ok; lia.
    + intros Hr0. destruct (Hnz Hr0) as (c&t&Hc&Hi&Hm). exists t. split; [|done].
      rewrite lookup_drop in Hc.
      replace (Z.to_nat s + (Z.to_nat len - Z.to_nat r))%nat with (Z.to_nat (s + len - r)) in Hc by lia.
      by rewrite (list_lookup_total_correct _ _ _ Hc).
Qed.

(** The place of fragment [n] in a search of a map of [len] bytes that starts at
    byte [start] and wraps round. *)
Definition search_place (start len n : Z) : Z := 8 * ((n / 8 - start) mod len) + n mod 8.

Lemma byte_place k p : 0 <= p < 8 -> (k * 8 + p) / 8 = k /\ (k * 8 + p) mod 8 = p.
Proof. intros. Z.to_euclidean_division_equations; lia. Qed.

(** The bytes that do not pass the table test have no run. *)
Lemma byte_empty frag map n siz tbl t :
  frag_ok frag -> bytes_ok map -> 0 <= n < 8 * Z.of_nat (length map) -> 1 <= siz <= frag -> fragtbl_of frag = Ok tbl ->
  idx tbl (map !!! Z.to_nat (n / 8)) = Ok t -> Z.land t (frag_mask frag siz) = 0 -> map_run frag map n siz = false.
Proof.
  intros Hf Hb Hn Hs Htbl Ht Hm0.
  pose proof (byte_found frag map (n / 8) siz tbl t Hf Hb ltac:(Z.to_euclidean_division_equations; lia) Hs Htbl Ht) as B.
  rewrite decide_True in B by done. specialize (B (n mod 8)).
  replace (n / 8 * 8 + n mod 8) with n in B by (Z.to_euclidean_division_equations; lia).
  apply B. apply Z.mod_pos_bound; lia.
Qed.

(** The sift of the first byte, from [start] on, that passed the table test. *)
Lemma search_hit frag map k siz tbl t start :
  frag_ok frag -> bytes_ok map -> 0 <= k < Z.of_nat (length map) -> 1 <= siz <= frag ->
  fragtbl_of frag = Ok tbl -> idx tbl (map !!! Z.to_nat k) = Ok t ->
  Z.land t (frag_mask frag siz) <> 0 ->
  (forall j, 0 <= j < Z.of_nat (length map) -> (j - start) mod Z.of_nat (length map) < (k - start) mod Z.of_nat (length map) ->
    exists t, idx tbl (map !!! Z.to_nat j) = Ok t /\ Z.land t (frag_mask frag siz) = 0) ->
  match r ← mapsearch_blk (Z.to_nat NBBY) frag map siz (k * NBBY + NBBY) (k * NBBY);
        mret (r, mkCg (k * NBBY) map)
  with
  | Ok (bno, cgp') => 0 <= bno < 8 * Z.of_nat (length map)
      /\ map_run frag map bno siz = true /\ cgp' = mkCg (bno / 8 * 8) map
      /\ forall n, 0 <= n < 8 * Z.of_nat (length map) -> map_run frag map n siz = true ->
           search_place start (Z.of_nat (length map)) bno <= search_place start (Z.of_nat (length map)) n
  | _ => False
  end.
Proof.
  intros Hf Hb Hk Hs Htbl Ht Hm Hbefore.
  pose proof (byte_found frag map k siz tbl t Hf Hb Hk Hs Htbl Ht) as B.
  rewrite decide_False in B by done. destruct B as (p&->&Hp&Hrun&Hfirst). cbn.
  destruct (byte_place k p Hp) as [E1 E2]. split; [lia|]. split; [done|]. split; [by rewrite E1|].
  intros n Hn Hrn. unfold search_place. rewrite E1, E2. set (len := Z.of_nat (length map)) in *.
  assert (0 <= n / 8 < len /\ 0 <= n mod 8 < 8) as (Hn8&Hm8) by (Z.to_euclidean_division_equations; lia).
  destruct (Z.lt_trichotomy ((n / 8 - start) mod len) ((k - start) mod len)) as [Hlt|[Heq|Hgt]]; [|  |lia].
  - exfalso. destruct (Hbefore (n / 8) Hn8 Hlt) as (t'&Ht'&Hm0). rewrite (byte_empty frag map n siz tbl t') in Hrn; done.
  - assert (n / 8 = k) as Ek.
    { pose proof (Z.div_mod (n / 8 - start) len ltac:(lia)) as H1. pose proof (Z.div_mod (k - start) len ltac:(lia)) as H2.
      assert ((n / 8 - start) / len = (k - start) / len); nia. }
    destruct (Z.lt_ge_cases (n mod 8) p) as [Hlt|]; [|lia]. exfalso. specialize (Hfirst (n mod 8) ltac:(lia)).
    replace (k * 8 + n mod 8) with n in Hfirst by (Z.to_euclidean_division_equations; lia). congruence.
Qed.

(** ** Properties *)

(** on a block map, [fragacct] adds [cnt] to [fraglist[siz]] once for every
    maximal run of exactly [siz] free fragments, for each [siz] smaller than a
    block, and changes nothing else. *)
Theorem fragacct_spec frag fragmap fraglist cnt :
  frag_ok frag -> 0 <= fragmap < 2 ^ frag ->
  Forall (fun v => s32 v = v) fraglist ->
  exists l', fragacct frag fragmap fraglist cnt = Ok l'
    /\ length l' = length fraglist
    /\ forall siz v, 0 <= siz -> fraglist !! Z.to_nat siz = Some v ->
       l' !! Z.to_nat siz
       = Some (if (1 <=? siz) && (siz <? frag)
               then s32 (v + run_count frag fragmap siz * cnt) else v).
Proof.
  intros Hf Hm Hv. pose proof (acct_ok_all frag fragmap Hf Hm) as A. unfold acct_ok in A.
  rewrite fragacct_hits. destruct (acct_hits frag fragmap) as [hs| |]; [|done..].
  apply andb_true_iff in A as [A1 A2]. rewrite forallb_forall in A1, A2.
  assert (Hpos : forall h, h ∈ hs -> 1 <= h < frag).
  { intros h Hh. apply list_elem_of_In in Hh. specialize (A1 h Hh). bool_prop. lia. }
  exists (bumps cnt hs fraglist). split; [done|]. split; [apply bumps_length|].
  intros siz v Hs Hl.
  rewrite (bumps_lookup cnt hs fraglist siz v); try done.
  - f_equal. case_if.
    + do 3 f_equal. apply Z.eqb_eq, A2, list_elem_of_In, elem_of_seqZ. lia.
    + assert (filter (fun s => s = siz) hs = []) as E.
      { destruct (filter _ _) as [|x k] eqn:E; [done|]. exfalso.
        assert (x ∈ filter (fun s => s = siz) hs) as Hx by (rewrite E; left).
        apply list_elem_of_filter in Hx as [-> Hx]. specialize (Hpos _ Hx).
        destruct Heqb; bool_prop; lia. }
      unfold hit_count. rewrite E. cbn. rewrite Z.add_0_r. by apply (Forall_lookup_1 _ _ _ _ Hv Hl).
  - apply Forall_forall. intros x Hx. apply list_elem_of_In in Hx. specialize (Hpos _ Hx). lia.
  - by apply (Forall_lookup_1 _ _ _ _ Hv Hl).
Qed.

Lemma fragacct_spec_witness :
  exists l', fragacct 8 0xcd [0; 5; 6; 7; 0; 0; 0; 0] 1 = Ok l'
    /\ length l' = 8%nat
    /\ forall siz v, 0 <= siz -> [0; 5; 6; 7; 0; 0; 0; 0] !! Z.to_nat siz = Some v ->
       l' !! Z.to_nat siz
       = Some (if (1 <=? siz) && (siz <? 8) then s32 (v + run_count 8 0xcd siz * 1) else v).
Proof.
  apply (fragacct_spec 8 0xcd [0; 5; 6; 7; 0; 0; 0; 0] 1); [right; right; by right|lia|].
  repeat constructor.
Defined.

(** [isblock] tests, [setblock] sets and [clrblock] clears exactly the bits
    of block [h] in the free map, for each of the four block sizes. *)
Theorem block_ops_spec frag cp h :
  frag_ok frag -> bytes_ok cp -> 0 <= h -> h * frag + frag <= 8 * Z.of_nat (length cp) ->
  (exists b, isblock frag cp h = Ok b
     /\ (b = true <-> forall i, 0 <= i < frag -> map_bit cp (h * frag + i) = true))
  /\ (exists cp', setblock frag cp h = Ok cp' /\ bytes_ok cp' /\ length cp' = length cp
     /\ forall n, 0 <= n -> map_bit cp' n
        = if (h * frag <=? n) && (n <? h * frag + frag) then true else map_bit cp n)
  /\ (exists cp', clrblock frag cp h = Ok cp' /\ bytes_ok cp' /\ length cp' = length cp
     /\ forall n, 0 <= n -> map_bit cp' n
        = if (h * frag <=? n) && (n <? h * frag + frag) then false else map_bit cp n).
Proof.
  intros Hf Hb Hh Hl.
  assert (0 <= h * frag / 8 < Z.of_nat (length cp)) as Hi
    by (destruct Hf as [->|[->|[->| ->]]]; Z.to_euclidean_division_equations; lia).
  destruct (block_ops_mask frag cp h Hf Hb Hh ltac:(lia)) as (->&->&->).
  pose proof (bytes_ok_lookup cp (Z.to_nat (h * frag / 8)) Hb) as Hby.
  pose proof (blk_mask_byte frag h Hf Hh) as Hm.
  split; [|split]; (eexists; split; [reflexivity|]).
  - rewrite Z.eqb_eq. by apply block_bits_mask.
  - split; [apply bytes_ok_insert; [done|by apply byte_lor]|]. split; [apply length_insert|].
    intros n Hn. rewrite map_bit_insert, block_bit_mask by (done || lia).
    unfold map_bit. case_decide as E; [|by rewrite bool_decide_eq_false_2].
    rewrite bool_decide_eq_true_2 by done. rewrite Z.lor_spec, <- E. cbn [andb].
    destruct (Z.testbit (blk_mask frag h) (n mod 8)); [apply orb_true_r|apply orb_false_r].
  - split; [apply bytes_ok_insert; [done|by apply byte_ldiff]|]. split; [apply length_insert|].
    intros n Hn. rewrite map_bit_insert, block_bit_mask by (done || lia).
    unfold map_bit. case_decide as E; [|by rewrite bool_decide_eq_false_2].
    rewrite bool_decide_eq_true_2 by done. rewrite Z.ldiff_spec, <- E. cbn [andb].
    destruct (Z.testbit (blk_mask frag h) (n mod 8)); [apply andb_false_r|apply andb_true_r].
Qed.

Lemma block_ops_spec_witness :
  let cp := [0xf0; 0x3c] in
  (exists b, isblock 4 cp 1 = Ok b
     /\ (b = true <-> forall i, 0 <= i < 4 -> map_bit cp (1 * 4 + i) = true))
  /\ (exists cp', setblock 4 cp 1 = Ok cp' /\ bytes_ok cp' /\ length cp' = length cp
     /\ forall n, 0 <= n -> map_bit cp' n
        = if (1 * 4 <=? n) && (n <? 1 * 4 + 4) then true else map_bit cp n)
  /\ (exists cp', clrblock 4 cp 1 = Ok cp' /\ bytes_ok cp' /\ length cp' = length cp
     /\ forall n, 0 <= n -> map_bit cp' n
        = if (1 * 4 <=? n) && (n <? 1 * 4 + 4) then false else map_bit cp n).
Proof.
  apply (block_ops_spec 4 [0xf0; 0x3c] 1); [right; right; by left| |lia|cbn; lia].
  repeat constructor; lia.
Defined.

(** Where [mapsearch] starts: the byte of the fragment asked for, or of the rotor. *)
Definition search_start (fpg : Z) (cgp : cg) (bpref : Z) : Z :=
  (if bpref =? 0 then cg_frotor cgp else bpref mod fpg) / 8.

Lemma search_start_range fpg cgp bpref : 0 < fpg -> 0 <= bpref -> 0 <= cg_frotor cgp < fpg ->
  0 <= search_start fpg cgp bpref < (fpg + 7) / 8 /\
  (if bpref =? 0 then Z.quot (cg_frotor cgp) NBBY else Z.quot (Z.rem bpref fpg) NBBY) = search_start fpg cgp bpref.
Proof.
  intros Hfpg Hbp Hrot. unfold search_start, NBBY. case_if.
  - rewrite (proj1 (quot_rem_pos (cg_frotor cgp) 8 ltac:(lia) ltac:(done))).
    split; [|done]. Z.to_euclidean_division_equations; lia.
  - rewrite (proj2 (quot_rem_pos bpref fpg ltac:(lia) ltac:(lia))).
    pose proof (Z.mod_pos_bound bpref fpg ltac:(lia)).
    rewrite (proj1 (quot_rem_pos (bpref mod fpg) 8 ltac:(lia) ltac:(done))).
    split; [|done]. Z.to_euclidean_division_equations; lia.
Qed.

Lemma turn_after start len j : 0 <= start < len -> 0 <= j < len -> (j - start) mod len = if j <? start then j - start + len else j - start.
Proof.
  intros Hs Hj. destruct (Z.ltb_spec j start); [|apply Z.mod_small; lia].
  symmetry. apply (Z.mod_unique _ _ (-1)); lia.
Qed.

(** C32. [mapsearch] scans the whole map, wrapping round once, from the byte of the
    fragment asked for ([bpref] modulo the size of the group) or, when none is, of
    the rotor: of the maximal free runs of exactly [allocsiz] fragments inside one
    block it returns the first fragment of the one that is first in this order (by
    byte from the start byte on, and inside the byte by fragment) and moves the
    rotor to its byte, or it panics when the map holds no such run; it neither
    faults nor reaches its second panic. *)
Theorem mapsearch_spec frag fpg cgp bpref allocsiz :
  frag_ok frag -> 1 <= allocsiz <= frag -> bytes_ok (cg_blksfree cgp) ->
  0 < fpg -> 0 <= bpref -> 0 <= cg_frotor cgp < fpg ->
  Z.of_nat (length (cg_blksfree cgp)) = (fpg + 7) / 8 ->
  match mapsearch frag fpg cgp bpref allocsiz with
  | Ok (bno, cgp') =>
      0 <= bno < 8 * Z.of_nat (length (cg_blksfree cgp))
      /\ map_run frag (cg_blksfree cgp) bno allocsiz = true
      /\ cgp' = mkCg (bno / 8 * 8) (cg_blksfree cgp)
      /\ forall n, 0 <= n < 8 * Z.of_nat (length (cg_blksfree cgp)) -> map_run frag (cg_blksfree cgp) n allocsiz = true ->
           search_place (search_start fpg cgp bpref) ((fpg + 7) / 8) bno <= search_place (search_start fpg cgp bpref) ((fpg + 7) / 8) n
  | Panic msg =>
      msg = "alloccg: map corrupted"%string
      /\ forall n, 0 <= n < 8 * Z.of_nat (length (cg_blksfree cgp)) ->
         map_run frag (cg_blksfree cgp) n allocsiz = false
  | Fault => False
  end.
Proof.
  intros Hf Hs Hb Hfpg Hbp Hrot Hlen. unfold mapsearch.
  destruct (search_start_range fpg cgp bpref Hfpg Hbp Hrot) as (Hst&->). set (map := cg_blksfree cgp) in *.
  rewrite (proj1 (quot_rem_pos (fpg + (NBBY - 1)) NBBY ltac:(unfold NBBY; lia) ltac:(done))).
  change ((fpg + (NBBY - 1)) / NBBY) with ((fpg + 7) / 8). rewrite <- Hlen in *. set (start := search_start fpg cgp bpref) in *.
  clearbody start. destruct (fragtbl_of_ok frag Hf) as (tbl&Htbl&Htl). rewrite Htbl. cbn [mbind outcome_bind].
  case_if; [lia|].
  change (u8 (Z.shiftl 1 (allocsiz - 1 + Z.rem frag NBBY))) with (frag_mask frag allocsiz).
  destruct (scan_map tbl (frag_mask frag allocsiz) map start (Z.of_nat (length map) - start))
    as (r&->&Hr&Hz&Hnz); [done|done|lia..|]. cbn [mbind outcome_bind].
  destruct (r =? 0) eqn:Er; bool_prop; cbn [mbind outcome_bind].
  - destruct (scan_map tbl (frag_mask frag allocsiz) map 0 (start + 1))
      as (r2&E2&Hr2&Hz2&Hnz2); [done|done|lia..|]. change (drop (Z.to_nat 0) map) with map in E2. rewrite E2. cbn [mbind outcome_bind].
    destruct (r2 =? 0) eqn:Er2; bool_prop; cbn [mbind outcome_bind].
    + split; [done|]. intros n Hn.
      assert (exists t, idx tbl (map !!! Z.to_nat (n / 8)) = Ok t
              /\ Z.land t (frag_mask frag allocsiz) = 0) as (t&Ht&Hm0).
      { destruct (decide (n / 8 < start)); [apply Hz2|apply Hz];
          Z.to_euclidean_division_equations; lia. }
      by apply (byte_empty frag map n allocsiz tbl t).
    + destruct (Hnz2 Er2) as (t&Ht&Hm0). cbn [mret outcome_ret mbind outcome_bind].
      pose proof (fun Hk => search_hit frag map (0 + (start + 1) - r2) allocsiz tbl t start Hf Hb Hk Hs Htbl Ht Hm0) as B.
      specialize (B ltac:(lia)). destruct (mapsearch_blk _ _ _ _ _ _); lapply B; try done; intros j Hj; rewrite !turn_after by lia;
        destruct (Z.ltb_spec j start), (Z.ltb_spec (0 + (start + 1) - r2) start); intros Hlt; (apply Hz2; lia) || (apply Hz; lia) || lia.
  - destruct (Hnz Er) as (t&Ht&Hm0). cbn [mret outcome_ret mbind outcome_bind].
    pose proof (fun Hk => search_hit frag map (start + (Z.of_nat (length map) - start) - r) allocsiz tbl t start Hf Hb Hk Hs Htbl Ht Hm0) as B.
    specialize (B ltac:(lia)). destruct (mapsearch_blk _ _ _ _ _ _); lapply B; try done; intros j Hj; rewrite !turn_after by lia;
      rewrite (proj2 (Z.ltb_ge (start + (Z.of_nat (length map) - start) - r) start)) by lia;
      destruct (Z.ltb_spec j start); intros Hlt; (apply Hz; lia) || lia.
Qed.

(** Bytes 0 and 1 have the same runs of 2; the search from fragment 8 on finds that of byte 1. *)
Lemma mapsearch_spec_witness : exists bno cgp', mapsearch 8 24 (mkCg 0 [0xcd; 0xcd; 0x00]) 8 2 = Ok (bno, cgp') /\
  map_run 8 [0xcd; 0xcd; 0x00] bno 2 = true /\ cgp' = mkCg (bno / 8 * 8) [0xcd; 0xcd; 0x00] /\
  search_place 1 3 bno <= search_place 1 3 10 /\ map_run 8 [0xcd; 0xcd; 0x00] 2 2 = true /\ bno = 10.
Proof.
  pose proof (mapsearch_spec 8 24 (mkCg 0 [0xcd; 0xcd; 0x00]) 8 2) as H.
  destruct (mapsearch 8 24 (mkCg 0 [0xcd; 0xcd; 0x00]) 8 2) as [[bno cgp']|msg|] eqn:E.
  - exists bno, cgp'. destruct H as (_&H1&H2&H3); [right; right; by right|lia|repeat constructor; lia|lia..|cbn; lia|reflexivity|].
    split; [done|]. split; [done|]. split; [done|]. split; [apply (H3 10); [cbn; lia|reflexivity]|]. split; [reflexivity|].
    by vm_compute in E; injection E as <- _.
  - exfalso. by vm_compute in E.
  - exfalso. by vm_compute in E.
Defined.
