(* ===== verification/Ring.v ===== *)
(** * Terminal ring buffers (sys/kern/tty_ring.c, macros of sys/sys/tty.h)

    A [struct ringb] holds [RBSZ] characters and two pointers into them, kept
    here as offsets.  One slot stays unused, so that equal offsets mean an empty
    buffer.  Characters are bytes 0..255. *)

From S2P Require Import Prelude.

Definition RBSZ : Z := 1024.

Record ringb := mkRingb { rb_hd : Z; rb_tl : Z; rb_buf : list Z }.

(** ** Macros of tty.h, on offsets *)

Definition RB_SUCC (p : Z) : Z := if RBSZ - 1 <=? p then 0 else p + 1.
Definition RB_ROLLOVER (p : Z) : Z := if RBSZ - 1 <? p then 0 else p.
Definition RB_PRED (p : Z) : Z := if p <=? 0 then RBSZ - 1 else p - 1.

Definition RB_LEN (r : ringb) : Z :=
  if rb_hd r <=? rb_tl r then rb_tl r - rb_hd r else RBSZ - (rb_hd r - rb_tl r).

Definition RB_CONTIGPUT (r : ringb) : Z :=
  if RB_PRED (rb_hd r) <? rb_tl r then RBSZ - rb_tl r
  else RB_PRED (rb_hd r) - rb_tl r.

Definition RB_CONTIGGET (r : ringb) : Z :=
  if rb_hd r <=? rb_tl r then rb_tl r - rb_hd r else RBSZ - rb_hd r.

(** ** Operations: the value returned and the buffer left *)

Definition putc (c : Z) (r : ringb) : outcome (Z * ringb) :=
  let nxtp := RB_SUCC (rb_tl r) in
  if nxtp =? rb_hd r then mret (-1, r)
  else mret (0, mkRingb (rb_hd r) nxtp (<[Z.to_nat (rb_tl r) := u8 c]> (rb_buf r))).

Definition getc (r : ringb) : outcome (Z * ringb) :=
  if rb_hd r =? rb_tl r then mret (-1, r)
  else
    c ← deref (rb_buf r !! Z.to_nat (rb_hd r));
    mret (c, mkRingb (RB_SUCC (rb_hd r)) (rb_tl r) (rb_buf r)).

(** [nextc] steps the cursor [*cpp]; the character comes back as a (signed)
    [char]. *)
Definition nextc (cpp : Z) (r : ringb) : outcome (Z * Z) :=
  if cpp =? rb_tl r then mret (0, cpp)
  else
    c ← deref (rb_buf r !! Z.to_nat cpp);
    mret (s8 c, RB_SUCC cpp).

Definition ungetc (c : Z) (r : ringb) : outcome (Z * ringb) :=
  let backp := RB_PRED (rb_hd r) in
  if backp =? rb_tl r then mret (-1, r)
  else mret (0, mkRingb backp (rb_tl r) (<[Z.to_nat backp := u8 c]> (rb_buf r))).

Definition unputc (r : ringb) : outcome (Z * ringb) :=
  if rb_hd r =? rb_tl r then mret (-1, r)
  else
    let backp := RB_PRED (rb_tl r) in
    c ← deref (rb_buf r !! Z.to_nat backp);
    mret (c, mkRingb (rb_hd r) backp (rb_buf r)).

Definition initrb (r : ringb) : ringb := mkRingb 0 0 (rb_buf r).

(** [bcopy] of the [n] first characters of [src] to offset [p]; it faults when
    the source is shorter or the copy would leave the array. *)
Definition bcopy (src : list Z) (n p : Z) (buf : list Z) : outcome (list Z) :=
  if (0 <=? n) && (n <=? Z.of_nat (length src)) && (p + n <=? RBSZ) then
    mret (take (Z.to_nat p) buf ++ take (Z.to_nat n) src
          ++ drop (Z.to_nat p + Z.to_nat n) buf)
  else Fault.

Definition rb_write (to : ringb) (buf : list Z) (nfrom : Z) : outcome (Z * ringb) :=
  let ntoright := RB_CONTIGPUT to in
  if nfrom <? ntoright then
    b ← bcopy buf nfrom (rb_tl to) (rb_buf to);
    mret (nfrom, mkRingb (rb_hd to) (rb_tl to + nfrom) b)
  else
    b ← bcopy buf ntoright (rb_tl to) (rb_buf to);
    let nfrom := nfrom - ntoright in
    let ntoleft := rb_hd to in
    let nfrom := if ntoleft <? nfrom then ntoleft else nfrom in
    b ← bcopy (drop (Z.to_nat ntoright) buf) nfrom 0 b;
    mret (ntoright + nfrom, mkRingb (rb_hd to) nfrom b).

(** [catb]: both buffers as it leaves them. *)
Definition catb (from to : ringb) : outcome (ringb * ringb) :=
  let nfromright := RB_CONTIGGET from in
  '(_, to) ← rb_write to (drop (Z.to_nat (rb_hd from)) (rb_buf from)) nfromright;
  let from := mkRingb (RB_ROLLOVER (rb_hd from + nfromright)) (rb_tl from) (rb_buf from) in
  let nfromleft := RB_CONTIGGET from in
  '(_, to) ← rb_write to (drop (Z.to_nat (rb_hd from)) (rb_buf from)) nfromleft;
  mret (mkRingb (rb_hd from + nfromleft) (rb_tl from) (rb_buf from), to).

(** ** Specification: a bounded double-ended queue *)

Definition wf (r : ringb) : Prop :=
  length (rb_buf r) = Z.to_nat RBSZ /\ 0 <= rb_hd r < RBSZ /\ 0 <= rb_tl r < RBSZ.

Definition contents (r : ringb) : list Z :=
  (fun i => rb_buf r !!! Z.to_nat ((rb_hd r + i) mod RBSZ)) <$> seqZ 0 (RB_LEN r).

(** The number of characters a buffer can hold. *)
Definition capacity : Z := RBSZ - 1.

Lemma RB_LEN_mod r : wf r -> RB_LEN r = (rb_tl r - rb_hd r) mod RBSZ.
Proof.
  intros (_&?&?). unfold RB_LEN, RBSZ in *.
  case_if; Z.to_euclidean_division_equations; lia.
Qed.

Lemma RB_LEN_bounds r : wf r -> 0 <= RB_LEN r <= capacity.
Proof.
  intros H. rewrite RB_LEN_mod by done. unfold capacity, RBSZ.
  pose proof (Z.mod_pos_bound (rb_tl r - rb_hd r) 1024). lia.
Qed.

Lemma contents_length r : wf r -> Z.of_nat (length (contents r)) = RB_LEN r.
Proof.
  intros H. unfold contents. rewrite length_fmap, length_seqZ.
  pose proof (RB_LEN_bounds r H). lia.
Qed.

Lemma contents_lookup r (i : nat) : wf r -> Z.of_nat i < RB_LEN r ->
  contents r !! i = rb_buf r !! Z.to_nat ((rb_hd r + Z.of_nat i) mod RBSZ).
Proof.
  intros (Hb&?&?) Hi. unfold contents.
  rewrite list_lookup_fmap, lookup_seqZ_lt by lia. cbn. rewrite Z.add_0_l.
  symmetry. apply list_lookup_lookup_total_lt. rewrite Hb. unfold RBSZ.
  pose proof (Z.mod_pos_bound (rb_hd r + Z.of_nat i) 1024). lia.
Qed.

Lemma contents_lookup_ge r (i : nat) : wf r -> RB_LEN r <= Z.of_nat i -> contents r !! i = None.
Proof.
  intros H Hi. apply lookup_ge_None_2. pose proof (contents_length r H). lia.
Qed.

(** Two descriptions of a queue agree when their lengths and their characters
    do. *)
Lemma contents_eq r l : wf r -> RB_LEN r = Z.of_nat (length l) ->
  (forall i : nat, (i < length l)%nat ->
     rb_buf r !! Z.to_nat ((rb_hd r + Z.of_nat i) mod RBSZ) = l !! i) ->
  contents r = l.
Proof.
  intros Hw Hl Hi. apply list_eq. intros i. destruct (decide (i < length l)%nat).
  - rewrite contents_lookup by (done || lia). by apply Hi.
  - rewrite contents_lookup_ge by (done || lia). symmetry. apply lookup_ge_None_2. lia.
Qed.

(** Offsets are compared after their [mod] is expanded. *)
Ltac ring_lia :=
  unfold RB_CONTIGPUT, RB_CONTIGGET, RB_LEN, RB_SUCC, RB_PRED, RB_ROLLOVER, capacity, RBSZ in *;
  cbn [rb_hd rb_tl rb_buf] in *; repeat case_if; try lia;
  Z.to_euclidean_division_equations; lia.

Lemma put_spec r c : wf r -> RB_LEN r < capacity ->
  let r' := mkRingb (rb_hd r) (RB_SUCC (rb_tl r)) (<[Z.to_nat (rb_tl r) := c]> (rb_buf r)) in
  wf r' /\ contents r' = contents r ++ [c].
Proof.
  intros Hw Hl r'. pose proof Hw as (Hb&?&?). pose proof (RB_LEN_bounds r Hw).
  assert (wf r') as Hw'.
  { subst r'. unfold wf. cbn. rewrite length_insert. split; [done|].
    unfold RB_SUCC, RBSZ in *. case_if; lia. }
  split; [done|]. pose proof (contents_length r Hw) as Hlen.
  apply contents_eq; [done| |].
  - rewrite length_app. cbn [length]. subst r'. clear Hw' Hb. ring_lia.
  - intros i Hi. rewrite length_app in Hi. cbn [length] in Hi. subst r'. cbn [rb_hd rb_buf].
    destruct (decide (Z.of_nat i < RB_LEN r)) as [Hlt|Hge].
    + rewrite lookup_app_l by lia. rewrite contents_lookup by done.
      apply list_lookup_insert_ne. intros E. clear Hw' Hb Hi Hlen. ring_lia.
    + assert (i = length (contents r)) as -> by lia. rewrite lookup_app_r, Nat.sub_diag by done.
      replace (Z.to_nat _) with (Z.to_nat (rb_tl r)); [apply list_lookup_insert_eq; unfold RBSZ in *; lia|].
      rewrite Hlen. f_equal. clear Hw' Hb Hi Hlen Hge. ring_lia.
Qed.

Lemma getc_spec r : wf r -> 0 < RB_LEN r ->
  exists c, getc r = Ok (c, mkRingb (RB_SUCC (rb_hd r)) (rb_tl r) (rb_buf r))
    /\ wf (mkRingb (RB_SUCC (rb_hd r)) (rb_tl r) (rb_buf r))
    /\ contents r = c :: contents (mkRingb (RB_SUCC (rb_hd r)) (rb_tl r) (rb_buf r)).
Proof.
  intros Hw Hl. set (r' := mkRingb _ _ _). pose proof Hw as (Hb&?&?).
  assert (wf r') as Hw'.
  { subst r'. unfold wf. cbn. split; [done|]. unfold RB_SUCC, RBSZ in *. case_if; lia. }
  destruct (lookup_lt_is_Some_2 (rb_buf r) (Z.to_nat (rb_hd r))) as [c Hc];
    [unfold RBSZ in *; lia|].
  exists c. unfold getc. case_if; [exfalso; clear Hb Hc Hw'; ring_lia|].
  rewrite Hc. split; [done|]. split; [done|].
  pose proof (contents_length r' Hw') as Hlen.
  apply contents_eq; [done| |].
  - cbn [length]. rewrite Nat2Z.inj_succ, Hlen. subst r'. clear Hb Hc Hw' Hlen. ring_lia.
  - intros i Hi. cbn [length] in Hi. destruct i as [|i]; cbn [lookup list_lookup].
    + rewrite Z.add_0_r, Z.mod_small by lia. done.
    + rewrite contents_lookup by (done || lia). subst r'. cbn [rb_hd rb_buf]. do 2 f_equal.
      clear Hb Hc Hw' Hlen Hi. ring_lia.
Qed.

Lemma unput_spec r : wf r -> 0 < RB_LEN r ->
  exists c, unputc r = Ok (c, mkRingb (rb_hd r) (RB_PRED (rb_tl r)) (rb_buf r))
    /\ wf (mkRingb (rb_hd r) (RB_PRED (rb_tl r)) (rb_buf r))
    /\ contents r = contents (mkRingb (rb_hd r) (RB_PRED (rb_tl r)) (rb_buf r)) ++ [c].
Proof.
  intros Hw Hl. set (r' := mkRingb _ _ _). pose proof Hw as (Hb&?&?).
  assert (wf r') as Hw'.
  { subst r'. unfold wf. cbn. split; [done|]. unfold RB_PRED, RBSZ in *. case_if; lia. }
  destruct (lookup_lt_is_Some_2 (rb_buf r) (Z.to_nat (RB_PRED (rb_tl r)))) as [c Hc].
  { destruct Hw' as (_&_&?). cbn in *. unfold RBSZ in *. lia. }
  exists c. unfold unputc. case_if; [exfalso; clear Hb Hc Hw'; ring_lia|].
  rewrite Hc. split; [done|]. split; [done|].
  pose proof (contents_length r' Hw') as Hlen.
  assert (RB_LEN r = RB_LEN r' + 1) as Hrl by (subst r'; clear Hb Hc Hw' Hlen; ring_lia).
  apply contents_eq; [done| |].
  - rewrite length_app. cbn [length]. lia.
  - intros i Hi. rewrite length_app in Hi. cbn [length] in Hi.
    destruct (decide (Z.of_nat i < RB_LEN r')).
    + rewrite lookup_app_l by lia. rewrite contents_lookup by done. done.
    + assert (i = length (contents r')) as -> by lia. rewrite lookup_app_r, Nat.sub_diag by done.
      rewrite Hlen. cbn. rewrite <- Hc. do 2 f_equal. subst r'. clear Hb Hc Hw' Hlen Hi Hrl n.
      ring_lia.
Qed.

Lemma unget_spec r c : wf r -> RB_LEN r < capacity ->
  let r' := mkRingb (RB_PRED (rb_hd r)) (rb_tl r)
              (<[Z.to_nat (RB_PRED (rb_hd r)) := c]> (rb_buf r)) in
  wf r' /\ contents r' = c :: contents r.
Proof.
  intros Hw Hl r'. pose proof Hw as (Hb&?&?). pose proof (RB_LEN_bounds r Hw).
  assert (0 <= RB_PRED (rb_hd r) < RBSZ) as Hp by (unfold RB_PRED, RBSZ in *; case_if; lia).
  assert (wf r') as Hw'.
  { subst r'. unfold wf. cbn. rewrite length_insert. auto. }
  split; [done|]. pose proof (contents_length r Hw) as Hlen.
  apply contents_eq; [done| |].
  - cbn [length]. subst r'. rewrite Nat2Z.inj_succ, Hlen. clear Hw' Hb Hlen. ring_lia.
  - intros i Hi. cbn [length] in Hi. subst r'. cbn [rb_hd rb_buf].
    destruct i as [|i]; cbn [lookup list_lookup].
    + rewrite Z.add_0_r, Z.mod_small by done. apply list_lookup_insert_eq.
      unfold RBSZ in *; lia.
    + assert (Z.of_nat i < RB_LEN r) as Hil by lia. rewrite contents_lookup by done.
      rewrite list_lookup_insert_ne by (intros E; clear Hw' Hb Hi Hlen; ring_lia).
      do 2 f_equal. clear Hw' Hb Hi Hlen. ring_lia.
Qed.

(** *** Block writes *)

Lemma bcopy_ok src n p buf :
  0 <= n <= Z.of_nat (length src) -> 0 <= p -> p + n <= RBSZ ->
  length buf = Z.to_nat RBSZ ->
  exists b, bcopy src n p buf = Ok b /\ length b = Z.to_nat RBSZ
    /\ forall j : nat, b !! j
       = if decide (p <= Z.of_nat j < p + n) then src !! (j - Z.to_nat p)%nat else buf !! j.
Proof.
  intros Hn Hp Hpn Hb. unfold bcopy.
  replace ((0 <=? n) && (n <=? Z.of_nat (length src)) && (p + n <=? RBSZ)) with true by lia.
  eexists. split; [reflexivity|]. unfold RBSZ in *. split.
  - rewrite !length_app, length_take, length_take, length_drop. lia.
  - intros j. destruct (decide (Z.of_nat j < p)).
    + rewrite decide_False by lia. rewrite lookup_app_l by (rewrite length_take; lia).
      by rewrite lookup_take_lt by lia.
    + rewrite lookup_app_r by (rewrite length_take; lia). rewrite length_take.
      replace (j - Z.to_nat p `min` length buf)%nat with (j - Z.to_nat p)%nat by lia.
      case_decide.
      * rewrite lookup_app_l by (rewrite length_take; lia). by rewrite lookup_take_lt by lia.
      * rewrite lookup_app_r by (rewrite length_take; lia). rewrite length_take, lookup_drop.
        f_equal. lia.
Qed.

(** Characters copied behind the tail, without wrapping, are appended. *)
Lemma append_block r src n b :
  wf r -> 0 <= n -> n <= Z.of_nat (length src) -> rb_tl r + n <= RBSZ ->
  RB_LEN r + n <= capacity -> bcopy src n (rb_tl r) (rb_buf r) = Ok b ->
  let r' := mkRingb (rb_hd r) (RB_ROLLOVER (rb_tl r + n)) b in
  wf r' /\ contents r' = contents r ++ take (Z.to_nat n) src.
Proof.
  intros Hw Hn0 Hn Ht Hcap Hbc r'. pose proof Hw as (Hb&?&?). pose proof (RB_LEN_bounds r Hw).
  destruct (bcopy_ok src n (rb_tl r) (rb_buf r)) as (b'&Hb'&Hlb&Hlk); [lia..|done|].
  rewrite Hbc in Hb'. injection Hb' as <-.
  assert (wf r') as Hw'.
  { subst r'. unfold wf. cbn. split; [done|]. unfold RB_ROLLOVER, RBSZ in *. case_if; lia. }
  split; [done|]. pose proof (contents_length r Hw) as Hlen.
  assert (length (take (Z.to_nat n) src) = Z.to_nat n) as Htk by (rewrite length_take; lia).
  apply contents_eq; [done| |].
  - rewrite length_app, Htk, Nat2Z.inj_add, Hlen. subst r'. clear Hw' Hb Hlb Hlk Hlen Hbc Htk.
    ring_lia.
  - intros i Hi. rewrite length_app, Htk in Hi. subst r'. cbn [rb_hd rb_buf]. rewrite Hlk.
    destruct (decide (Z.of_nat i < RB_LEN r)) as [Hlt|Hge].
    + rewrite lookup_app_l by lia. rewrite contents_lookup by done.
      rewrite decide_False; [done|]. clear Hw' Hb Hlb Hlk Hlen Hbc Htk Hi. ring_lia.
    + rewrite lookup_app_r by lia. rewrite lookup_take_lt by lia.
      rewrite decide_True by (clear Hw' Hb Hlb Hlk Hbc Htk; ring_lia).
      f_equal. clear Hw' Hb Hlb Hlk Hbc Htk. ring_lia.
Qed.

Lemma CONTIGPUT_bounds r : wf r ->
  0 <= RB_CONTIGPUT r /\ RB_CONTIGPUT r <= capacity - RB_LEN r
  /\ rb_tl r + RB_CONTIGPUT r <= RBSZ.
Proof.
  intros (_&?&?). unfold capacity, RB_CONTIGPUT, RB_LEN, RB_PRED, RBSZ in *.
  destruct (rb_hd r <=? 0) eqn:?; repeat case_if; repeat split; lia.
Qed.

(** Fewer characters than the free space are all appended. *)
Lemma rb_write_fits to buf n : wf to -> 0 <= n <= Z.of_nat (length buf) ->
  n < capacity - RB_LEN to ->
  exists to', rb_write to buf n = Ok (n, to') /\ wf to'
    /\ contents to' = contents to ++ take (Z.to_nat n) buf.
Proof.
  intros Hw Hn Hfree. pose proof Hw as (Hb&Hhd&Htl). pose proof (RB_LEN_bounds to Hw) as Hlen.
  pose proof (CONTIGPUT_bounds to Hw) as (Hc0&Hc&Hct). unfold rb_write. case_if.
  - destruct (bcopy_ok buf n (rb_tl to) (rb_buf to)) as (b&Hbc&_); [lia..|done|].
    rewrite Hbc. cbn [mbind outcome_bind mret outcome_ret]. eexists. split; [reflexivity|].
    pose proof (append_block to buf n b Hw ltac:(lia) ltac:(lia) ltac:(lia) ltac:(lia) Hbc) as A.
    replace (RB_ROLLOVER (rb_tl to + n)) with (rb_tl to + n) in A; [exact A|].
    unfold RB_ROLLOVER. case_if; lia.
  - assert (0 < rb_hd to <= rb_tl to /\ RB_CONTIGPUT to = RBSZ - rb_tl to) as [Hgap Hcr].
    { clear Hc Hct Hc0 Hb. ring_lia. }
    destruct (bcopy_ok buf (RB_CONTIGPUT to) (rb_tl to) (rb_buf to)) as (b&Hbc&_);
      [lia..|done|].
    rewrite Hbc. cbn [mbind outcome_bind mret outcome_ret].
    assert (RB_LEN to = rb_tl to - rb_hd to) as Hle by (unfold RB_LEN; case_if; lia).
    destruct (append_block to buf (RB_CONTIGPUT to) b Hw) as [Hw1 Hc1];
      [lia|lia|lia|unfold capacity in *; lia|done|].
    replace (RB_ROLLOVER (rb_tl to + RB_CONTIGPUT to)) with 0 in *
      by (unfold RB_ROLLOVER; case_if; lia).
    set (n2 := n - RB_CONTIGPUT to). case_if; [unfold capacity, n2 in *; lia|].
    set (to1 := mkRingb (rb_hd to) 0 b) in *.
    assert (RB_LEN to1 = RBSZ - rb_hd to) as Hle1
      by (unfold RB_LEN, to1; cbn [rb_hd rb_tl]; case_if; lia).
    destruct (bcopy_ok (drop (Z.to_nat (RB_CONTIGPUT to)) buf) n2 0 b) as (b2&Hbc2&_).
    { rewrite length_drop. lia. } { lia. } { unfold n2, capacity, RBSZ in *. lia. }
    { apply Hw1. }
    rewrite Hbc2. cbn [mbind outcome_bind mret outcome_ret].
    replace (RB_CONTIGPUT to + n2) with n by lia. eexists. split; [reflexivity|].
    destruct (append_block to1 (drop (Z.to_nat (RB_CONTIGPUT to)) buf) n2 b2 Hw1) as [Hw2 Hc2];
      [lia|rewrite length_drop; lia|cbn; unfold capacity, n2 in *; lia
      |unfold capacity, n2 in *; lia|exact Hbc2|].
    change (rb_hd to1) with (rb_hd to) in *. change (rb_tl to1) with 0 in *.
    replace (RB_ROLLOVER (0 + n2)) with n2 in *
      by (unfold RB_ROLLOVER, n2, capacity in *; case_if; lia).
    split; [exact Hw2|]. rewrite Hc2, Hc1, <- app_assoc. f_equal.
    rewrite take_take_drop. f_equal. lia.
Qed.

(** The characters of a buffer as the two contiguous blocks [catb] copies. *)
Lemma contents_blocks r : wf r ->
  contents r = take (Z.to_nat (RB_CONTIGGET r)) (drop (Z.to_nat (rb_hd r)) (rb_buf r))
               ++ take (Z.to_nat (RB_LEN r - RB_CONTIGGET r)) (rb_buf r).
Proof.
  intros Hw. pose proof Hw as (Hb&?&?). pose proof (RB_LEN_bounds r Hw).
  assert (0 <= RB_CONTIGGET r <= RB_LEN r /\ rb_hd r + RB_CONTIGGET r <= RBSZ) as [Hg Hgr]
    by (clear Hb Hw; ring_lia).
  assert (length (take (Z.to_nat (RB_CONTIGGET r)) (drop (Z.to_nat (rb_hd r)) (rb_buf r)))
          = Z.to_nat (RB_CONTIGGET r)) as Hl1.
  { rewrite length_take, length_drop. unfold RBSZ in *. lia. }
  apply contents_eq; [done| |].
  - rewrite length_app, Hl1, length_take. unfold capacity, RBSZ in *. lia.
  - intros i Hi. rewrite length_app, Hl1, length_take in Hi.
    destruct (decide (Z.of_nat i < RB_CONTIGGET r)).
    + rewrite lookup_app_l by lia. rewrite lookup_take_lt, lookup_drop by lia. f_equal.
      rewrite Z.mod_small by lia. lia.
    + rewrite lookup_app_r by lia. rewrite Hl1, lookup_take_lt by lia. f_equal.
      clear Hb Hw Hl1. ring_lia.
Qed.

(** ** Properties *)

(** C40. the single character operations implement a double-ended queue of at
    most [RBSZ - 1] characters: [putc] appends, [getc] takes the first,
    [ungetc] prepends, [unputc] takes the last; each returns -1 and changes
    nothing exactly when the queue is full (or empty). *)
Theorem ring_refines_deque r c :
  wf r ->
  (match putc c r with
   | Ok (v, r') => wf r' /\
       if RB_LEN r =? capacity then v = -1 /\ r' = r
       else v = 0 /\ contents r' = contents r ++ [u8 c]
   | _ => False end)
  /\ (match getc r with
   | Ok (v, r') => wf r' /\
       if RB_LEN r =? 0 then v = -1 /\ r' = r else contents r = v :: contents r'
   | _ => False end)
  /\ (match ungetc c r with
   | Ok (v, r') => wf r' /\
       if RB_LEN r =? capacity then v = -1 /\ r' = r
       else v = 0 /\ contents r' = u8 c :: contents r
   | _ => False end)
  /\ (match unputc r with
   | Ok (v, r') => wf r' /\
       if RB_LEN r =? 0 then v = -1 /\ r' = r else contents r = contents r' ++ [v]
   | _ => False end)
  /\ contents (initrb r) = [].
Proof.
  intros Hw. pose proof (RB_LEN_bounds r Hw) as Hl. pose proof Hw as (_&?&?).
  split; [|split; [|split; [|split]]].
  - unfold putc. destruct (RB_SUCC (rb_tl r) =? rb_hd r) eqn:E; cbn; bool_prop.
    + split; [done|]. case_if; [done|]. exfalso. clear Hw. ring_lia.
    + destruct (put_spec r (u8 c) Hw) as [? ?]; [clear Hw; ring_lia|].
      split; [done|]. case_if; [exfalso; clear Hw; ring_lia|done].
  - destruct (RB_LEN r =? 0) eqn:E; bool_prop.
    + unfold getc. case_if; [done|]. exfalso. clear Hw. ring_lia.
    + destruct (getc_spec r Hw) as (v&->&?&?); [lia|done].
  - unfold ungetc. destruct (RB_PRED (rb_hd r) =? rb_tl r) eqn:E; cbn; bool_prop.
    + split; [done|]. case_if; [done|]. exfalso. clear Hw. ring_lia.
    + destruct (unget_spec r (u8 c) Hw) as [? ?]; [clear Hw; ring_lia|].
      split; [done|]. case_if; [exfalso; clear Hw; ring_lia|done].
  - destruct (RB_LEN r =? 0) eqn:E; bool_prop.
    + unfold unputc. case_if; [done|]. exfalso. clear Hw. ring_lia.
    + destruct (unput_spec r Hw) as (v&->&?&?); [lia|done].
  - reflexivity.
Qed.

(** [rb_write] of fewer characters than the free space appends all of
    them; [catb] of a queue that leaves a free slot moves it whole. *)
Theorem rb_write_catb_spec to from buf n :
  wf to -> wf from ->
  (0 <= n <= Z.of_nat (length buf) -> n < capacity - RB_LEN to ->
   exists to', rb_write to buf n = Ok (n, to') /\ wf to'
     /\ contents to' = contents to ++ take (Z.to_nat n) buf)
  /\ (RB_LEN from < capacity - RB_LEN to ->
      exists from' to', catb from to = Ok (from', to') /\ wf from' /\ wf to'
        /\ contents from' = [] /\ contents to' = contents to ++ contents from).
Proof.
  intros Hto Hfrom. split; [intros; by apply rb_write_fits|].
  intros Hfree. pose proof Hfrom as (Hb&?&?). pose proof (RB_LEN_bounds from Hfrom).
  assert (0 <= RB_CONTIGGET from <= RB_LEN from /\ rb_hd from + RB_CONTIGGET from <= RBSZ) as [Hg Hgr]
    by (clear Hb Hto Hfrom Hfree; ring_lia).
  set (from1 := mkRingb (RB_ROLLOVER (rb_hd from + RB_CONTIGGET from)) (rb_tl from) (rb_buf from)).
  assert (RB_CONTIGGET from1 = RB_LEN from - RB_CONTIGGET from
          /\ (rb_hd from1 = 0 \/ RB_CONTIGGET from1 = 0)
          /\ rb_hd from1 + RB_CONTIGGET from1 = rb_tl from) as (Hg1&Hh1&Hend).
  { subst from1. clear Hb Hto Hfrom Hfree. ring_lia. }
  unfold catb. fold from1.
  destruct (rb_write_fits to (drop (Z.to_nat (rb_hd from)) (rb_buf from)) (RB_CONTIGGET from) Hto)
    as (to1&->&Hw1&Hc1); [rewrite length_drop; unfold RBSZ in *; lia|lia|].
  cbn [mbind outcome_bind].
  assert (RB_LEN to1 = RB_LEN to + RB_CONTIGGET from) as Hl1.
  { rewrite <- (contents_length to1), <- (contents_length to), Hc1, length_app, length_take,
      length_drop by done. unfold RBSZ in *. lia. }
  destruct (rb_write_fits to1 (drop (Z.to_nat (rb_hd from1)) (rb_buf from1)) (RB_CONTIGGET from1) Hw1)
    as (to2&->&Hw2&Hc2); [rewrite length_drop; subst from1; cbn [rb_buf rb_hd] in *; unfold RBSZ, capacity in *; lia|lia|].
  cbn [mbind outcome_bind]. rewrite Hend. eexists _, _. split; [reflexivity|].
  split; [done|]. split; [done|]. split.
  { unfold contents, RB_LEN. cbn [rb_hd rb_tl]. rewrite Z.leb_refl, Z.sub_diag. done. }
  rewrite Hc2, Hc1, (contents_blocks from Hfrom), Hg1, <- app_assoc. do 2 f_equal.
  destruct Hh1 as [->|E]; [done|]. rewrite <- Hg1, E. done.
Qed.

(** a write of more characters than are free does not stop at the free
    space.  With the head not behind the tail it copies one character too many
    (or, from a head at offset 0, exactly the free space), leaves the tail on
    the head and so makes the queue empty, while reporting every character as
    written; with the tail behind the head an exact fill drops both the new
    characters and those that had wrapped. *)
Theorem rb_write_overrun_loses to buf n :
  wf to -> n <= Z.of_nat (length buf) ->
  (rb_hd to <= rb_tl to -> RB_CONTIGPUT to + rb_hd to <= n ->
   exists to', rb_write to buf n = Ok (RB_CONTIGPUT to + rb_hd to, to')
     /\ contents to' = [])
  /\ (rb_tl to < rb_hd to -> n = RB_CONTIGPUT to ->
   exists to', rb_write to buf n = Ok (n, to') /\ rb_tl to' = 0
     /\ RB_LEN to' = RBSZ - rb_hd to).
Proof.
  intros Hw Hn. pose proof Hw as (Hb&Hhd&Htl).
  pose proof (CONTIGPUT_bounds to Hw) as (Hc0&Hc&Hct). split; intros Hht Hcn.
  all: unfold rb_write; case_if; [lia|].
  all: destruct (bcopy_ok buf (RB_CONTIGPUT to) (rb_tl to) (rb_buf to)) as (b&->&Hlb&_);
    [lia..|done|].
  all: cbn [mbind outcome_bind mret outcome_ret].
  - replace (if rb_hd to <? n - RB_CONTIGPUT to then rb_hd to else n - RB_CONTIGPUT to)
      with (rb_hd to) by (case_if; lia).
    destruct (bcopy_ok (drop (Z.to_nat (RB_CONTIGPUT to)) buf) (rb_hd to) 0 b) as (b2&->&_);
      [rewrite length_drop; lia|lia|lia|done|].
    eexists. split; [reflexivity|]. unfold contents, RB_LEN. cbn [rb_hd rb_tl].
    rewrite Z.leb_refl, Z.sub_diag. done.
  - rewrite Hcn, Z.sub_diag. replace (if rb_hd to <? 0 then rb_hd to else 0) with 0 by (case_if; lia).
    destruct (bcopy_ok (drop (Z.to_nat (RB_CONTIGPUT to)) buf) 0 0 b) as (b2&->&_);
      [lia|lia|unfold RBSZ; lia|done|].
    eexists. split; [rewrite Z.add_0_r; reflexivity|]. cbn [rb_tl].
    split; [done|]. unfold RB_LEN. cbn [rb_hd rb_tl]. case_if; lia.
Qed.

(** *** Witnesses *)

Definition rb0 : ringb := mkRingb 1022 3 (seqZ 0 1024).

Lemma wf_rb0 : wf rb0.
Proof. unfold wf, rb0, RBSZ. cbn [rb_hd rb_tl rb_buf]. rewrite length_seqZ. lia. Qed.

Lemma ring_refines_deque_witness :
  wf rb0 /\ contents rb0 = [1022; 1023; 0; 1; 2]
  /\ contents (initrb rb0) = [].
Proof.
  split; [exact wf_rb0|]. split; [vm_compute; reflexivity|].
  apply (ring_refines_deque rb0 65 wf_rb0).
Defined.

Lemma rb_write_catb_spec_witness :
  exists from' to', catb rb0 (initrb rb0) = Ok (from', to') /\ contents to' = [1022; 1023; 0; 1; 2].
Proof.
  assert (wf (initrb rb0)) as W.
  { unfold wf, initrb, rb0, RBSZ. cbn [rb_hd rb_tl rb_buf]. rewrite length_seqZ. lia. }
  destruct (rb_write_catb_spec (initrb rb0) rb0 [] 0 W wf_rb0) as [_ H].
  destruct H as (f&t&E&_&_&_&Hc); [vm_compute; reflexivity|].
  exists f, t. split; [exact E|]. rewrite Hc. vm_compute. reflexivity.
Defined.

Lemma rb_write_overrun_loses_witness :
  let full := mkRingb 1 1 (seqZ 0 1024) in
  exists to', rb_write full (seqZ 0 1030) 1030 = Ok (1024, to') /\ contents to' = [].
Proof.
  intros full.
  assert (wf full) as W.
  { unfold wf, full, RBSZ. cbn [rb_hd rb_tl rb_buf]. rewrite length_seqZ. lia. }
  destruct (rb_write_overrun_loses full (seqZ 0 1030) 1030 W) as [H _];
    [rewrite length_seqZ; lia|].
  apply H; vm_compute; discriminate.
Defined.
