(* ===== verification/Cksum.v ===== *)
(** * The Internet checksum (sys/netinet/in_cksum.c)

    [in_cksum_c] sums the 16-bit words of a chain of mbufs.  The words may
    straddle mbufs and the data may start at odd addresses; the machine is
    little endian.  The main theorem is that the result is the ones' complement
    checksum of the bytes, however they are cut into mbufs. *)

From S2P Require Import Prelude.

(** An mbuf: the address of its first byte ([mtod]) and its bytes. *)
Record mbuf := mkMbuf { m_data : Z; m_dat : list Z }.
Definition m_len (m : mbuf) : Z := Z.of_nat (length (m_dat m)).

(** ** The macros *)

Definition ADDCARRY (x : Z) : Z := if 65535 <? x then x - 65535 else x.
(** [l_util] splits the 32 bits of [sum] into two unsigned halves. *)
Definition REDUCE (sum : Z) : Z :=
  let l := u32 sum in
  ADDCARRY (Z.land l 65535 + Z.shiftr l 16).

(** [s_util.s], from its two characters. *)
Definition s_util (c0 c1 : Z) : Z := c0 + 256 * c1.

(** ** The loops over the words of one mbuf

    The pointer [w] is the list of the bytes from it to the end of the mbuf: a
    read past the end of the list faults. *)

(** [k] consecutive [sum += w[i]]. *)
Fixpoint add_words (k : nat) (sum : Z) (w : list Z) : outcome (Z * list Z) :=
  match k with
  | O => mret (sum, w)
  | S k =>
      match w with
      | a :: b :: w => add_words k (s32 (sum + s_util a b)) w
      | _ => Fault
      end
  end.

(** [while ((mlen -= 2 * k) >= 0)], [k] words at each turn. *)
Fixpoint while_words (k fuel : nat) (sum : Z) (w : list Z) (mlen : Z) : outcome (Z * list Z * Z) :=
  match fuel with
  | O => Fault
  | S fuel =>
      let mlen := mlen - 2 * Z.of_nat k in
      if 0 <=? mlen then
        '(sum, w) ← add_words k sum w;
        while_words k fuel sum w mlen
      else mret (sum, w, mlen)
  end.

(** [*(char * )w] and the pointer behind it. *)
Definition next_char (w : list Z) : outcome (Z * list Z) :=
  match w with c :: w => mret (c, w) | [] => Fault end.

(** The variables that live from one mbuf to the next; [byte_swapped] is 0
    between mbufs. *)
Record ckstate := mkCk { ck_sum : Z; ck_mlen : Z; ck_len : Z; ck_c0 : Z }.

(** Lines 72-90: finish the word the last mbuf began, and clip the length. *)
Definition ck_enter (m : mbuf) (s : ckstate) : outcome (Z * list Z * ckstate) :=
  '(addr, w, sum, mlen, len) ←
    (if ck_mlen s =? -1 then
       '(c1, w) ← next_char (m_dat m);
       mret (m_data m + 1, w, s32 (ck_sum s + s_util (ck_c0 s) c1), m_len m - 1, ck_len s - 1)
     else mret (m_data m, m_dat m, ck_sum s, m_len m, ck_len s));
  let mlen := if len <? mlen then len else mlen in
  mret (addr, w, mkCk sum mlen (len - mlen) (ck_c0 s)).

(** Lines 94-101: force to an even boundary. *)
Definition ck_align (addr : Z) (w : list Z) (s : ckstate) : outcome (list Z * bool * ckstate) :=
  if Z.odd addr && (0 <? ck_mlen s) then
    let sum := s32 (Z.shiftl (REDUCE (ck_sum s)) 8) in
    '(c0, w) ← next_char w;
    mret (w, true, mkCk sum (ck_mlen s - 1) (ck_len s) c0)
  else mret (w, false, s).

(** Lines 106-118: the unrolled loops. *)
Definition ck_unrolled (sum : Z) (w : list Z) (mlen : Z) : outcome (Z * list Z * Z) :=
  let fuel := S (length w) in
  '(sum, w, mlen) ← while_words 16 fuel sum w mlen;
  '(sum, w, mlen) ← while_words 4 fuel sum w (mlen + 32);
  mret (sum, w, mlen + 8).

(** Lines 121-136: the last words, and the byte left over. *)
Definition ck_tail (sum : Z) (w : list Z) (mlen len c0 : Z) (byte_swapped : bool) : outcome ckstate :=
  let sum := REDUCE sum in
  '(sum, w, mlen) ← while_words 1 (S (length w)) sum w mlen;
  if byte_swapped then
    let sum := s32 (Z.shiftl (REDUCE sum) 8) in
    if mlen =? -1 then
      '(c1, _) ← next_char w;
      mret (mkCk (s32 (sum + s_util c0 c1)) 0 len c0)
    else mret (mkCk sum (-1) len c0)
  else if mlen =? -1 then
    '(c0, _) ← next_char w;
    mret (mkCk sum mlen len c0)
  else mret (mkCk sum mlen len c0).

Definition ck_words (w : list Z) (byte_swapped : bool) (s : ckstate) : outcome ckstate :=
  '(sum, w, mlen) ← ck_unrolled (ck_sum s) w (ck_mlen s);
  if (mlen =? 0) && negb byte_swapped then mret (mkCk sum mlen (ck_len s) (ck_c0 s))
  else ck_tail sum w mlen (ck_len s) (ck_c0 s) byte_swapped.

Definition ck_mbuf (m : mbuf) (s : ckstate) : outcome ckstate :=
  if m_len m =? 0 then mret s
  else
    '(addr, w, s) ← ck_enter m s;
    '(w, byte_swapped, s) ← ck_align addr w s;
    ck_words w byte_swapped s.

Fixpoint ck_chain (m : list mbuf) (s : ckstate) : outcome ckstate :=
  match m with
  | [] => mret s
  | m0 :: m =>
      if ck_len s =? 0 then mret s
      else s ← ck_mbuf m0 s; ck_chain m s
  end.

(** The checksum and whether "out of data" is printed.  [junk] is what the
    uninitialised [s_util.c[0]] holds. *)
Definition in_cksum_c (junk : Z) (m : list mbuf) (len : Z) : outcome (Z * bool) :=
  s ← ck_chain m (mkCk 0 0 len junk);
  let sum := if ck_mlen s =? -1 then s32 (ck_sum s + s_util (ck_c0 s) 0) else ck_sum s in
  let sum := REDUCE sum in
  mret (Z.land (Z.lnot sum) 65535, negb (ck_len s =? 0)).

(** ** Specification: the ones' complement sum *)

(** The sum of the little endian words of a byte string, an odd last byte
    padded with zero. *)
Fixpoint words (l : list Z) : Z :=
  match l with
  | a :: b :: l => s_util a b + words l
  | [a] => a
  | [] => 0
  end.

(** Ones' complement addition to 16 bits: 0 only for 0. *)
Definition fold16 (v : Z) : Z := if v =? 0 then 0 else (v - 1) mod 65535 + 1.
Definition cksum_spec (l : list Z) : Z := 65535 - fold16 (words l).

Definition is_byte (c : Z) : Prop := 0 <= c < 256.

(** Sums that fold to the same ones' complement number. *)
Definition eq1 (a b : Z) : Prop :=
  0 <= a /\ 0 <= b /\ (exists k, a - b = 65535 * k) /\ (a = 0 <-> b = 0).

(** ** Ones' complement arithmetic *)

Lemma eq1_refl a : 0 <= a -> eq1 a a.
Proof. intros. repeat split; try lia. exists 0. lia. Qed.

Lemma eq1_trans a b c : eq1 a b -> eq1 b c -> eq1 a c.
Proof.
  intros (?&?&[k Hk]&?) (?&?&[j Hj]&?). repeat split; try lia. exists (k + j). lia.
Qed.

Lemma eq1_sym a b : eq1 a b -> eq1 b a.
Proof. intros (?&?&[k Hk]&?). repeat split; try lia. exists (- k). lia. Qed.

Lemma eq1_add a b c d : eq1 a b -> eq1 c d -> eq1 (a + c) (b + d).
Proof.
  intros (?&?&[k Hk]&?) (?&?&[j Hj]&?). repeat split; try lia. exists (k + j). lia.
Qed.

Lemma eq1_add_r a b c : 0 <= c -> eq1 a b -> eq1 (a + c) (b + c).
Proof. intros. by apply eq1_add, eq1_refl. Qed.

Lemma eq1_256 a b : eq1 a b -> eq1 (256 * a) (256 * b).
Proof. intros (?&?&[k Hk]&?). repeat split; try lia. exists (256 * k). lia. Qed.

(** Two byte swaps cancel. *)
Lemma eq1_65536 a : 0 <= a -> eq1 (256 * (256 * a)) a.
Proof. intros. repeat split; try lia. exists a. lia. Qed.

Lemma u32_s32 v : 0 <= v < 2 ^ 32 -> u32 (s32 v) = v.
Proof.
  intros Hv. unfold u32, s32, wrapu, wraps. cbn in *. Z.to_euclidean_division_equations. lia.
Qed.

Lemma REDUCE_spec v : 0 <= v < 2 ^ 32 ->
  0 <= REDUCE (s32 v) <= 65535 /\ eq1 (REDUCE (s32 v)) v.
Proof.
  intros Hv. unfold REDUCE, ADDCARRY. rewrite u32_s32 by done.
  assert (Z.land v 65535 = v mod 2 ^ 16) as -> by (apply (Z.land_ones v 16); lia).
  rewrite Z.shiftr_div_pow2 by lia.
  pose proof (Z.div_mod v (2 ^ 16)) as E.
  pose proof (Z.mod_pos_bound v (2 ^ 16)). pose proof (Z.div_pos v (2 ^ 16)).
  assert (v / 2 ^ 16 < 2 ^ 16) by (apply Z.div_lt_upper_bound; lia).
  set (lo := v mod 2 ^ 16) in *. set (hi := v / 2 ^ 16) in *. clearbody lo hi.
  cbn in *.
  case_if; (split; [lia|]); (repeat split; try lia).
  - exists (- hi - 1). lia.
  - exists (- hi). lia.
Qed.

Lemma eq1_fold16 v x : 0 <= v <= 65535 -> eq1 v x -> v = fold16 x.
Proof.
  intros Hv (?&?&[k Hk]&?). unfold fold16. case_if; [lia|].
  replace (x - 1) with (v - 1 + (- k) * 65535) by lia.
  rewrite Z.mod_add, Z.mod_small by lia. lia.
Qed.

(** ** Sums of words *)

Lemma list_ind2 (P : list Z -> Prop) :
  P [] -> (forall a, P [a]) -> (forall a b l, P l -> P (a :: b :: l)) -> forall l, P l.
Proof.
  intros H0 H1 H2. fix IH 1. intros [|a [|b l]]; [done|done|]. apply H2, IH.
Qed.

Lemma words_range l : Forall is_byte l -> 0 <= words l /\ 2 * words l <= 65535 * (Z.of_nat (length l) + 1).
Proof.
  induction l as [|a|a b l IH] using list_ind2; intros H; cbn -[Z.mul Z.add Z.of_nat].
  - lia.
  - apply Forall_cons_iff in H as [Ha _]. unfold is_byte in Ha. lia.
  - apply Forall_cons_iff in H as [Ha H]. apply Forall_cons_iff in H as [Hb H].
    unfold is_byte, s_util in *. specialize (IH H). lia.
Qed.

Lemma words_range_even l : Forall is_byte l -> Nat.Even (length l) ->
  2 * words l <= 65535 * Z.of_nat (length l).
Proof.
  induction l as [|a|a b l IH] using list_ind2; intros H Hev; cbn -[Z.mul Z.add Z.of_nat].
  - lia.
  - exfalso. destruct Hev as [k Hk]. cbn in Hk. lia.
  - apply Forall_cons_iff in H as [Ha H]. apply Forall_cons_iff in H as [Hb H].
    unfold is_byte, s_util in *. assert (Nat.Even (length l)) as Hev'.
    { destruct Hev as [k Hk]. cbn in Hk. exists (k - 1)%nat. lia. }
    specialize (IH H Hev'). lia.
Qed.

Lemma words_nonneg l : Forall is_byte l -> 0 <= words l.
Proof. intros; by apply words_range. Qed.

Lemma words_app l1 l2 : Nat.Even (length l1) -> words (l1 ++ l2) = words l1 + words l2.
Proof.
  induction l1 as [|a|a b l IH] using list_ind2; intros [k Hk]; cbn -[Z.mul Z.add] in *.
  - lia.
  - lia.
  - rewrite IH by (exists (k - 1)%nat; lia). lia.
Qed.

Lemma words_snoc_odd l x : Nat.Odd (length l) -> words (l ++ [x]) = words l + 256 * x.
Proof.
  induction l as [|a|a b l IH] using list_ind2; intros [k Hk]; cbn -[Z.mul Z.add] in *.
  - lia.
  - unfold s_util. lia.
  - rewrite IH by (exists (k - 1)%nat; lia). lia.
Qed.

(** A byte in front swaps the bytes of all the words behind it. *)
Lemma words_cons c l : is_byte c -> Forall is_byte l -> eq1 (words (c :: l)) (c + 256 * words l).
Proof.
  intros Hc. revert c Hc. induction l as [|a|a b l IH] using list_ind2; intros c Hc H.
  - cbn. unfold is_byte in *. rewrite Z.add_0_r. apply eq1_refl. lia.
  - cbn -[Z.mul]. apply Forall_cons_iff in H as [Ha _]. unfold is_byte, s_util in *.
    rewrite Z.add_0_r. apply eq1_refl. lia.
  - apply Forall_cons_iff in H as [Ha H]. apply Forall_cons_iff in H as [Hb H].
    change (words (c :: a :: b :: l)) with (s_util c a + words (b :: l)).
    change (words (a :: b :: l)) with (s_util a b + words l).
    specialize (IH b Hb H). pose proof (words_nonneg l H).
    unfold s_util, is_byte in *.
    eapply eq1_trans; [apply eq1_add; [apply eq1_refl; lia|exact IH]|].
    repeat split; try lia. exists (- b). lia.
Qed.

(** ** The word loops *)

Lemma add_words_spec k v w :
  Forall is_byte w -> (2 * k <= length w)%nat ->
  add_words k (s32 v) w = Ok (s32 (v + words (take (2 * k) w)), drop (2 * k) w).
Proof.
  revert v w. induction k as [|k IH]; intros v w Hw Hl; cbn [add_words].
  - cbn. by rewrite Z.add_0_r.
  - destruct w as [|a [|b w]]; [cbn in Hl; lia..|].
    apply Forall_cons_iff in Hw as [_ Hw]. apply Forall_cons_iff in Hw as [_ Hw].
    cbn in Hl. rewrite s32_add_l, IH by (done || lia).
    replace (2 * S k)%nat with (S (S (2 * k))) by lia. cbn -[Z.add Nat.mul]. do 3 f_equal. lia.
Qed.

Lemma while_words_spec k fuel v w mlen :
  (0 < k)%nat -> Forall is_byte w -> 0 <= mlen <= Z.of_nat (length w) -> (length w < fuel)%nat ->
  exists n, Nat.Even n /\ Z.of_nat n <= mlen < Z.of_nat n + 2 * Z.of_nat k
    /\ while_words k fuel (s32 v) w mlen
       = Ok (s32 (v + words (take n w)), drop n w, mlen - Z.of_nat n - 2 * Z.of_nat k).
Proof.
  intros Hk. revert v w mlen. induction fuel as [|fuel IH]; intros v w mlen Hw Hm Hf; [lia|].
  cbn [while_words]. case_if.
  - rewrite add_words_spec by (done || lia). cbn [mbind outcome_bind].
    destruct (IH (v + words (take (2 * k) w)) (drop (2 * k) w) (mlen - 2 * Z.of_nat k))
      as (n&[h Hn]&Hb&->); [by apply Forall_drop|rewrite length_drop; lia..|].
    exists (2 * k + n)%nat. split; [exists (k + h)%nat; lia|]. split; [lia|].
    rewrite drop_drop, <- (take_take_drop w (2 * k) n), words_app, Z.add_assoc.
    + do 2 f_equal. lia.
    + rewrite length_take. exists k. lia.
  - exists 0%nat. split; [by exists 0%nat|]. split; [lia|]. cbn. rewrite drop_0, Z.add_0_r.
    do 2 f_equal. lia.
Qed.

(** ** The invariant of the chain loop

    [Acc sum B]: [sum] stands for the words of the bytes [B], evenly many;
    with the bound that keeps 32 bits enough. *)
Definition Acc (sum : Z) (B : list Z) : Prop :=
  exists v, sum = s32 v /\ eq1 v (words B)
    /\ 2 * v <= 65535 * (512 + Z.of_nat (length B)) /\ Nat.Even (length B).

(** Between mbufs a byte may be pending in [s_util.c[0]]. *)
Definition ck_inv (s : ckstate) (B : list Z) : Prop :=
  (ck_mlen s <> -1 /\ Acc (ck_sum s) B)
  \/ (ck_mlen s = -1 /\ is_byte (ck_c0 s) /\ exists v, ck_sum s = s32 v
      /\ 0 <= v /\ eq1 (v + ck_c0 s) (words B)
      /\ 2 * v <= 65535 * (511 + Z.of_nat (length B)) /\ Nat.Odd (length B)).

(** The longest packet. *)
Definition max_len : Z := 65536.

Lemma Acc_range sum B : Acc sum B -> Z.of_nat (length B) <= max_len ->
  exists v, sum = s32 v /\ 0 <= v < 2 ^ 32 /\ eq1 v (words B) /\ Nat.Even (length B)
    /\ 2 * v <= 65535 * (512 + Z.of_nat (length B)).
Proof.
  intros (v&->&He&Hb&Hev) Hl. exists v. pose proof He as (?&_). unfold max_len in Hl.
  split_and!; (done || lia).
Qed.

Lemma Acc_app v B D :
  Forall is_byte D -> eq1 v (words B) -> 2 * v <= 65535 * (512 + Z.of_nat (length B)) ->
  Nat.Even (length B) -> Nat.Even (length D) -> Acc (s32 (v + words D)) (B ++ D).
Proof.
  intros HD He Hb HB HDe. exists (v + words D). split; [done|]. rewrite words_app by done.
  split; [apply eq1_add_r; [by apply words_nonneg|done]|].
  pose proof (words_range_even D HD HDe). rewrite length_app. split; [lia|].
  by apply Nat.Even_Even_add.
Qed.

Lemma ck_unrolled_spec v w mlen :
  Forall is_byte w -> 0 <= mlen <= Z.of_nat (length w) ->
  exists n, Nat.Even n /\ Z.of_nat n <= mlen
    /\ ck_unrolled (s32 v) w mlen = Ok (s32 (v + words (take n w)), drop n w, mlen - Z.of_nat n).
Proof.
  intros Hw Hm. unfold ck_unrolled.
  destruct (while_words_spec 16 (S (length w)) v w mlen) as (n1&Hn1&Hr1&->); [lia|done|lia..|].
  cbn [mbind outcome_bind].
  destruct (while_words_spec 4 (S (length w)) (v + words (take n1 w)) (drop n1 w)
    (mlen - Z.of_nat n1 - 2 * Z.of_nat 16 + 32)) as (n2&Hn2&Hr2&->);
    [lia|by apply Forall_drop|rewrite length_drop; lia..|].
  cbn [mbind outcome_bind mret outcome_ret].
  exists (n1 + n2)%nat. split; [by apply Nat.Even_Even_add|]. split; [lia|].
  rewrite <- Z.add_assoc, <- words_app, take_take_drop, drop_drop
    by (by rewrite length_take_le by lia).
  do 2 f_equal. lia.
Qed.

(** The words left, from an even boundary and with no byte pending. *)
Lemma ck_tail_plain sum w mlen len c0 B :
  Forall is_byte w -> 0 <= mlen <= Z.of_nat (length w) -> Acc sum B ->
  Z.of_nat (length B) + mlen <= max_len ->
  exists s', ck_tail sum w mlen len c0 false = Ok s' /\ ck_len s' = len
    /\ ck_inv s' (B ++ take (Z.to_nat mlen) w).
Proof.
  intros Hw Hm HA Hmax. unfold ck_tail.
  destruct (Acc_range _ _ HA) as (v&->&Hv&He&Hev&Hb); [lia|].
  destruct (REDUCE_spec v Hv) as [Hr Hre]. set (r := REDUCE (s32 v)) in *.
  replace r with (s32 r) by (apply s32_id; lia).
  destruct (while_words_spec 1 (S (length w)) r w mlen) as (n&Hn&Hrn&->); [lia|done|lia..|].
  cbn [mbind outcome_bind].
  pose proof (Acc_app r B (take n w) (Forall_take _ _ _ Hw) (eq1_trans _ _ _ Hre He)) as HA2.
  rewrite length_take_le in HA2 by lia. specialize (HA2 ltac:(lia) Hev Hn). case_if.
  - destruct (lookup_lt_is_Some_2 w n) as [c Hc]; [lia|].
    rewrite (drop_S _ _ _ Hc). cbn [next_char mbind outcome_bind mret outcome_ret].
    eexists. split; [reflexivity|]. split; [done|]. right. cbn [ck_mlen ck_c0 ck_sum].
    replace (Z.to_nat mlen) with (S n) by lia.
    rewrite (take_S_r _ _ _ Hc), app_assoc, length_app.
    destruct HA2 as (v2&->&He2&Hb2&Hev2). pose proof He2 as (?&_).
    assert (is_byte c) as Hcb by (by apply (Forall_lookup_1 _ _ _ _ Hw Hc)).
    split_and!; [lia|done|]. exists v2. cbn [length].
    rewrite words_app by done. cbn [words].
    split_and!; [done|done|apply eq1_add_r; [apply Hcb|done]|lia|].
    rewrite Nat.add_1_r. by apply Nat.Odd_succ.
  - eexists. split; [reflexivity|]. split; [done|]. left. cbn [ck_mlen ck_sum].
    replace (Z.to_nat mlen) with n by lia. split; [lia|done].
Qed.

Lemma ck_words_plain s B w :
  Forall is_byte w -> 0 <= ck_mlen s <= Z.of_nat (length w) -> Acc (ck_sum s) B ->
  Z.of_nat (length B) + ck_mlen s <= max_len ->
  exists s', ck_words w false s = Ok s' /\ ck_len s' = ck_len s
    /\ ck_inv s' (B ++ take (Z.to_nat (ck_mlen s)) w).
Proof.
  intros Hw Hm HA Hmax.
  destruct (Acc_range _ _ HA) as (v&Hs&_&He&Hev&Hb); [lia|]. unfold ck_words. rewrite Hs.
  destruct (ck_unrolled_spec v w (ck_mlen s)) as (n&Hn&Hnm&->); [done..|].
  cbn [mbind outcome_bind].
  pose proof (Acc_app v B (take n w) (Forall_take _ _ _ Hw) He Hb Hev) as HA1.
  rewrite length_take_le in HA1 by lia. specialize (HA1 Hn).
  destruct (ck_mlen s - Z.of_nat n =? 0) eqn:E0; cbn [andb negb].
  { bool_prop. eexists. split; [reflexivity|]. split; [done|]. left. cbn [ck_mlen ck_sum].
    replace (Z.to_nat (ck_mlen s)) with n by lia. split; [lia|done]. }
  destruct (ck_tail_plain (s32 (v + words (take n w))) (drop n w) (ck_mlen s - Z.of_nat n)
    (ck_len s) (ck_c0 s) (B ++ take n w)) as (s'&->&Hl&Hi);
    [by apply Forall_drop|rewrite length_drop; lia|done|rewrite length_app, length_take_le; lia|].
  exists s'. split; [done|]. split; [done|].
  rewrite <- app_assoc, take_take_drop in Hi.
  by replace (n + Z.to_nat (ck_mlen s - Z.of_nat n))%nat with (Z.to_nat (ck_mlen s)) in Hi by lia.
Qed.

(** The same from an odd address: the bytes behind [c0] are summed swapped, and
    swapped back by the two shifts. *)
Lemma swap_eq v B D c r :
  eq1 v (256 * words B) -> Nat.Even (length B) -> is_byte c -> Forall is_byte D ->
  eq1 r (v + words D) -> eq1 (256 * r + c) (words (B ++ c :: D)).
Proof.
  intros Hv HB Hc HD Hr. pose proof (words_nonneg D HD). assert (0 <= c) by (apply Hc).
  rewrite words_app by done.
  assert (0 <= words B) by (destruct Hv as (_&?&_); lia).
  eapply eq1_trans; [apply eq1_add_r, eq1_256; [done|exact Hr]|].
  eapply eq1_trans; [|apply eq1_add, eq1_sym, (words_cons c D Hc HD); by apply eq1_refl].
  replace (256 * (v + words D) + c) with (256 * v + (c + 256 * words D)) by lia.
  apply eq1_add_r; [lia|].
  eapply eq1_trans; [apply eq1_256, Hv|]. by apply eq1_65536.
Qed.

Lemma ck_tail_swapped u v w mlen len c0 B D :
  Forall is_byte w -> Forall is_byte D -> is_byte c0 -> 0 <= mlen <= Z.of_nat (length w) ->
  mlen <= max_len ->
  Nat.Even (length B) -> Nat.Even (length D) -> eq1 v (256 * words B) ->
  0 <= u < 2 ^ 32 -> eq1 u (v + words D) ->
  exists s', ck_tail (s32 u) w mlen len c0 true = Ok s' /\ ck_len s' = len
    /\ ck_inv s' (B ++ c0 :: D ++ take (Z.to_nat mlen) w).
Proof.
  intros Hw HD Hc0 Hm Hmax HB HDe Hv Hu Hue. unfold ck_tail.
  destruct (REDUCE_spec u Hu) as [Hr Hre]. set (r := REDUCE (s32 u)) in *.
  replace r with (s32 r) by (apply s32_id; lia).
  destruct (while_words_spec 1 (S (length w)) r w mlen) as (n&Hn&Hrn&->); [lia|done|lia..|].
  cbn [mbind outcome_bind].
  pose proof (words_range_even (take n w) (Forall_take _ _ _ Hw)) as Hwn.
  rewrite length_take_le in Hwn by lia. specialize (Hwn Hn).
  pose proof (words_nonneg (take n w) (Forall_take _ _ _ Hw)).
  destruct (REDUCE_spec (r + words (take n w))) as [Hr2 Hre2]; [unfold max_len in *; lia|].
  set (r2 := REDUCE (s32 (r + words (take n w)))) in *. clearbody r2 r.
  rewrite Z.shiftl_mul_pow2 by lia. change (2 ^ 8) with 256.
  assert (eq1 r2 (v + words (D ++ take n w))) as Hr2v.
  { rewrite words_app, Z.add_assoc by done. eapply eq1_trans; [exact Hre2|].
    apply eq1_add_r; [done|]. by eapply eq1_trans. }
  unfold is_byte in Hc0. case_if.
  - destruct (lookup_lt_is_Some_2 w n) as [c Hc]; [lia|].
    rewrite (drop_S _ _ _ Hc). cbn [next_char mbind outcome_bind mret outcome_ret].
    eexists. split; [reflexivity|]. split; [done|]. left. cbn [ck_mlen ck_sum]. split; [lia|].
    replace (Z.to_nat mlen) with (S n) by lia. rewrite (take_S_r _ _ _ Hc), app_assoc.
    assert (is_byte c) as Hcb by (by apply (Forall_lookup_1 _ _ _ _ Hw Hc)).
    rewrite s32_add_l. exists (256 * (r2 + c) + c0). unfold is_byte, s_util in *.
    split_and!; [f_equal; lia| |rewrite length_app; cbn [length]; rewrite !length_app; cbn [length]; lia|].
    + apply (swap_eq v); [done|done|done| |].
      * repeat apply Forall_app_2; [done|by apply Forall_take|]. by apply Forall_cons_iff.
      * rewrite words_app; [cbn [words]; rewrite Z.add_assoc; apply eq1_add_r; [lia|done]|].
        rewrite length_app, length_take_le by lia. by apply Nat.Even_Even_add.
    + rewrite length_app. cbn [length]. rewrite !length_app, length_take_le by lia. cbn [length].
      destruct HB as [h1 ->], HDe as [h2 ->], Hn as [h3 ->]. exists (h1 + h2 + h3 + 1)%nat. lia.
  - eexists. split; [reflexivity|]. split; [done|]. right. cbn [ck_mlen ck_sum ck_c0].
    replace (Z.to_nat mlen) with n by lia. split_and!; [done|done|].
    exists (256 * r2). rewrite length_app. cbn [length]. rewrite length_app, length_take_le by lia.
    split_and!; [f_equal; lia|lia| |lia|].
    + apply (swap_eq v); [done..| |done]. apply Forall_app_2; [done|by apply Forall_take].
    + destruct HB as [h1 ->], HDe as [h2 ->], Hn as [h3 ->]. exists (h1 + h2 + h3)%nat. lia.
Qed.

Lemma ck_words_swapped s B w v :
  Forall is_byte w -> 0 <= ck_mlen s <= Z.of_nat (length w) -> ck_mlen s <= max_len ->
  is_byte (ck_c0 s) -> ck_sum s = s32 v -> v <= 65535 * 256 -> eq1 v (256 * words B) ->
  Nat.Even (length B) ->
  exists s', ck_words w true s = Ok s' /\ ck_len s' = ck_len s
    /\ ck_inv s' (B ++ ck_c0 s :: take (Z.to_nat (ck_mlen s)) w).
Proof.
  intros Hw Hm Hmax Hc0 Hs Hvb He HB. unfold ck_words. rewrite Hs.
  destruct (ck_unrolled_spec v w (ck_mlen s)) as (n&Hn&Hnm&->); [done..|].
  cbn [mbind outcome_bind]. rewrite andb_false_r.
  pose proof (words_range_even (take n w) (Forall_take _ _ _ Hw)) as Hwn.
  rewrite length_take_le in Hwn by lia. specialize (Hwn Hn).
  pose proof (words_nonneg (take n w) (Forall_take _ _ _ Hw)).
  assert (0 <= v) by (destruct He as (?&_); lia).
  destruct (ck_tail_swapped (v + words (take n w)) v (drop n w) (ck_mlen s - Z.of_nat n)
    (ck_len s) (ck_c0 s) B (take n w)) as (s'&->&Hl&Hi); try done.
  - by apply Forall_drop.
  - by apply Forall_take.
  - rewrite length_drop. lia.
  - lia.
  - rewrite length_take_le by lia. done.
  - unfold max_len in *. lia.
  - apply eq1_refl. lia.
  - exists s'. split; [done|]. split; [done|]. rewrite take_take_drop in Hi.
    by replace (n + Z.to_nat (ck_mlen s - Z.of_nat n))%nat with (Z.to_nat (ck_mlen s)) in Hi by lia.
Qed.

(** One mbuf, up to [len] of its bytes. *)
Lemma ck_enter_spec m s B :
  Forall is_byte (m_dat m) -> ck_inv s B -> 0 < ck_len s -> 0 < m_len m ->
  exists pre w addr s1, ck_enter m s = Ok (addr, w, s1) /\ m_dat m = pre ++ w
    /\ Acc (ck_sum s1) (B ++ pre) /\ 0 <= ck_mlen s1 <= Z.of_nat (length w)
    /\ Z.of_nat (length pre) + ck_mlen s1 = Z.min (ck_len s) (m_len m)
    /\ ck_len s1 = ck_len s - Z.min (ck_len s) (m_len m).
Proof.
  intros Hm Hi Hl Hml. unfold ck_enter. destruct Hi as [[Hne HA]|(Heq&Hc0&v&Hs&Hv&He&Hb&Hodd)].
  - case_if; [done|]. exists [], (m_dat m), (m_data m). cbn [mbind outcome_bind mret outcome_ret].
    eexists. split; [reflexivity|]. rewrite app_nil_r. cbn [ck_sum ck_mlen ck_len length].
    unfold m_len in *. split_and!; (done || case_if; lia).
  - case_if; [|done]. destruct (m_dat m) as [|c w] eqn:Ed; [unfold m_len in *; rewrite Ed in *; cbn in *; lia|].
    exists [c], w, (m_data m + 1). cbn [next_char mbind outcome_bind mret outcome_ret].
    eexists. split; [reflexivity|]. cbn [ck_sum ck_mlen ck_len length].
    assert (m_len m = Z.of_nat (length w) + 1) as Hlen by (unfold m_len; rewrite Ed; cbn [length]; lia).
    apply Forall_cons_iff in Hm as [Hc _]. unfold is_byte in *.
    split_and!; [done| |case_if; lia..].
    rewrite Hs, s32_add_l. exists (v + s_util (ck_c0 s) c). unfold s_util.
    rewrite words_snoc_odd, length_app by done. cbn [length].
    split_and!; [done| |lia|rewrite Nat.add_1_r; by apply Nat.Even_succ].
    rewrite Z.add_assoc. apply eq1_add_r; [lia|done].
Qed.

Lemma ck_mbuf_spec m s B :
  Forall is_byte (m_dat m) -> ck_inv s B -> 0 < ck_len s ->
  Z.of_nat (length B) + Z.min (ck_len s) (m_len m) <= max_len ->
  exists s', ck_mbuf m s = Ok s' /\ ck_len s' = ck_len s - Z.min (ck_len s) (m_len m)
    /\ ck_inv s' (B ++ take (Z.to_nat (ck_len s)) (m_dat m)).
Proof.
  intros Hm Hi Hl Hmax. unfold ck_mbuf. case_if.
  { exists s. split; [done|]. split; [lia|].
    assert (m_dat m = []) as -> by (destruct (m_dat m) eqn:Ed; [done|unfold m_len in *; rewrite Ed in *; cbn in *; lia]).
    by rewrite take_nil, app_nil_r. }
  assert (0 < m_len m) as Hml by (unfold m_len in *; lia).
  destruct (ck_enter_spec m s B Hm Hi Hl Hml) as (pre&w&addr&s1&->&Hd&HA&Hm1&Hsum&Hlen).
  cbn [mbind outcome_bind]. rewrite Hd in Hm. apply Forall_app in Hm as [Hpre Hw].
  assert (take (Z.to_nat (ck_len s)) (m_dat m) = pre ++ take (Z.to_nat (ck_mlen s1)) w) as ->.
  { assert (m_len m = Z.of_nat (length pre) + Z.of_nat (length w)) as Hmw
      by (unfold m_len; rewrite Hd, length_app; lia).
    rewrite Hd, take_app_ge by lia. f_equal. apply list_eq. intros i.
    destruct (decide (i < Z.to_nat (ck_mlen s1))%nat).
    - rewrite !lookup_take_lt; [done|lia..].
    - rewrite (lookup_take_ge w (Z.to_nat (ck_mlen s1))) by lia.
      destruct (decide (i < length w)%nat); [rewrite lookup_take_ge; [done|lia]|].
      apply lookup_ge_None_2. rewrite length_take. lia. }
  rewrite app_assoc. rewrite <- Hlen.
  unfold ck_align. case_if.
  - destruct w as [|c0 w]; [cbn in *; lia|]. cbn [next_char mbind outcome_bind mret outcome_ret].
    apply Forall_cons_iff in Hw as [Hc0 Hw].
    destruct (Acc_range _ _ HA) as (v&->&Hv&He&Hev&Hb); [rewrite length_app; lia|].
    destruct (REDUCE_spec v Hv) as [Hr Hre]. set (r := REDUCE (s32 v)) in *.
    rewrite Z.shiftl_mul_pow2 by lia. change (2 ^ 8) with 256.
    destruct (ck_words_swapped (mkCk (s32 (r * 256)) (ck_mlen s1 - 1) (ck_len s1) c0) (B ++ pre) w (r * 256))
      as (s'&->&Hl'&Hi'); cbn [ck_mlen ck_sum ck_c0 length] in *; try done; try lia.
    + rewrite Z.mul_comm. apply eq1_256. by eapply eq1_trans.
    + exists s'. split; [done|]. split; [done|].
      replace (Z.to_nat (ck_mlen s1)) with (S (Z.to_nat (ck_mlen s1 - 1))) by lia. exact Hi'.
  - cbn [mbind outcome_bind mret outcome_ret].
    apply ck_words_plain; try done. rewrite length_app. lia.
Qed.

Definition bytes_of (m : list mbuf) : list Z := m ≫= m_dat.

Lemma ck_chain_spec m s B :
  Forall is_byte (bytes_of m) -> ck_inv s B -> 0 <= ck_len s ->
  Z.of_nat (length B) + Z.min (ck_len s) (Z.of_nat (length (bytes_of m))) <= max_len ->
  exists s', ck_chain m s = Ok s'
    /\ ck_len s' = ck_len s - Z.min (ck_len s) (Z.of_nat (length (bytes_of m)))
    /\ ck_inv s' (B ++ take (Z.to_nat (ck_len s)) (bytes_of m)).
Proof.
  revert s B. induction m as [|m0 m IH]; intros s B Hm Hi Hl Hmax; cbn [ck_chain].
  { exists s. split; [done|]. cbn [bytes_of mbind list_bind] in *. cbn in *.
    rewrite take_nil, app_nil_r. split; [lia|done]. }
  change (bytes_of (m0 :: m)) with (m_dat m0 ++ bytes_of m) in *.
  apply Forall_app in Hm as [Hm0 Hm]. rewrite length_app in *. case_if.
  { exists s. split; [done|]. rewrite Heqb. cbn [Z.to_nat take]. rewrite take_0, app_nil_r.
    split; [lia|done]. }
  destruct (ck_mbuf_spec m0 s B Hm0 Hi) as (s1&->&Hl1&Hi1); [lia|unfold m_len in *; lia|].
  cbn [mbind outcome_bind].
  destruct (IH s1 _ Hm Hi1) as (s2&->&Hl2&Hi2);
    [unfold m_len in *; lia|rewrite length_app, length_take; unfold m_len in *; lia|].
  exists s2. split; [done|]. split; [unfold m_len in *; lia|].
  rewrite take_app, app_assoc.
  replace (Z.to_nat (ck_len s) - length (m_dat m0))%nat with (Z.to_nat (ck_len s1))
    by (unfold m_len in *; lia).
  exact Hi2.
Qed.

(** ** Properties *)

Lemma in_cksum_c_eq junk m len :
  Forall is_byte (bytes_of m) -> 0 <= len ->
  Z.min len (Z.of_nat (length (bytes_of m))) <= max_len ->
  in_cksum_c junk m len
  = Ok (cksum_spec (take (Z.to_nat len) (bytes_of m)), Z.of_nat (length (bytes_of m)) <? len).
Proof.
  intros Hm Hl Hmax. unfold in_cksum_c.
  destruct (ck_chain_spec m (mkCk 0 0 len junk) [] Hm) as (s&->&Hls&Hi); [|done|cbn; lia|].
  { left. cbn. split; [done|]. exists 0. split_and!; [done|by apply eq1_refl|cbn; lia|by exists 0%nat]. }
  cbn [mbind outcome_bind mret outcome_ret app ck_len] in *.
  set (bs := take (Z.to_nat len) (bytes_of m)) in *.
  assert (Z.of_nat (length bs) <= max_len) as Hbs by (unfold bs; rewrite length_take; lia).
  set (sum := if ck_mlen s =? -1 then _ else _).
  assert (exists v, sum = s32 v /\ 0 <= v < 2 ^ 32 /\ eq1 v (words bs)) as (v&->&Hv&He).
  { subst sum. destruct Hi as [[Hne HA]|(Heq&Hc0&v&Hs&Hv&He&Hb&Hodd)]; case_if; try done.
    - destruct (Acc_range _ _ HA) as (v&?&?&?&_); [done|]. by exists v.
    - exists (v + ck_c0 s). rewrite Hs. unfold s_util, is_byte, max_len in *.
      rewrite s32_add_l. split_and!; [f_equal; lia|lia..|done]. }
  destruct (REDUCE_spec v Hv) as [Hr Hre].
  pose proof (eq1_fold16 _ _ Hr (eq1_trans _ _ _ Hre He)) as Hf.
  f_equal. f_equal.
  - unfold cksum_spec. rewrite <- Hf. set (r := REDUCE (s32 v)) in *. clearbody r.
    change 65535 with (Z.ones 16) at 1. rewrite Z.land_ones by lia.
    unfold Z.lnot. rewrite <- Z.sub_1_r. change (2 ^ 16) with 65536.
    Z.to_euclidean_division_equations. lia.
  - rewrite Hls. destruct (Z.of_nat (length (bytes_of m)) <? len) eqn:E; bool_prop;
      [apply negb_true_iff, Z.eqb_neq|apply negb_false_iff, Z.eqb_eq]; lia.
Qed.

(** C30. on a chain whose checksummed part has at most 65536 bytes, the
    checksum reads no byte outside the mbufs, terminates, and is the ones'
    complement of the ones' complement sum of the first [len] bytes: it depends
    neither on how the bytes are cut into mbufs nor on the addresses they
    start at, nor on the uninitialised variable, and the message is printed
    exactly when the chain is shorter than [len]. *)
Theorem in_cksum_c_correct junk m len :
  Forall is_byte (bytes_of m) -> 0 <= len ->
  Z.min len (Z.of_nat (length (bytes_of m))) <= max_len ->
  in_cksum_c junk m len
  = Ok (cksum_spec (take (Z.to_nat len) (bytes_of m)), Z.of_nat (length (bytes_of m)) <? len).
Proof. apply in_cksum_c_eq. Qed.

Lemma fold16_bounds v : 0 <= v -> 0 <= fold16 v <= 65535.
Proof. intros. unfold fold16. case_if; [lia|]. pose proof (Z.mod_pos_bound (v - 1) 65535). lia. Qed.

Lemma cksum_spec_stored W : 0 <= W -> fold16 (W + (65535 - fold16 W)) = 65535.
Proof.
  intros HW. unfold fold16. repeat case_if; Z.to_euclidean_division_equations; lia.
Qed.

(** the receiver's test.  When the sender computes the checksum with a
    zero field at an even offset and stores it there (low byte first), the
    checksum of the whole packet, in whatever mbufs it arrives, is 0. *)
Theorem in_cksum_c_verifies junk junk' m m' pre post ck out :
  bytes_of m = pre ++ [0; 0] ++ post -> Nat.Even (length pre) ->
  Forall is_byte (bytes_of m) -> Z.of_nat (length (bytes_of m)) <= max_len ->
  in_cksum_c junk m (Z.of_nat (length (bytes_of m))) = Ok (ck, out) ->
  bytes_of m' = pre ++ [ck mod 256; ck / 256] ++ post ->
  in_cksum_c junk' m' (Z.of_nat (length (bytes_of m'))) = Ok (0, false).
Proof.
  intros Hm Hev Hb Hmax Hck Hm'.
  rewrite in_cksum_c_eq, Nat2Z.id, firstn_all in Hck by (done || lia). injection Hck as Hck _.
  rewrite Hm in Hb. apply Forall_app in Hb as [Hpre Hb]. apply Forall_app in Hb as [_ Hpost].
  unfold cksum_spec in Hck. rewrite Hm, words_app in Hck by done.
  cbn [app words] in Hck. change (s_util 0 0) with 0 in Hck. rewrite Z.add_0_l in Hck.
  pose proof (words_nonneg _ Hpre). pose proof (words_nonneg _ Hpost).
  pose proof (fold16_bounds (words pre + words post)).
  assert (length (bytes_of m') = length (bytes_of m)) as Hlen
    by (rewrite Hm, Hm', !length_app; done).
  rewrite in_cksum_c_eq, Nat2Z.id, firstn_all, Z.ltb_irrefl; [|rewrite Hm'|lia|lia].
  - unfold cksum_spec. rewrite Hm', words_app by done. cbn [app words].
    replace (words pre + (s_util (ck mod 256) (ck / 256) + words post))
      with (words pre + words post + (65535 - fold16 (words pre + words post))).
    + rewrite cksum_spec_stored by lia. done.
    + unfold s_util. pose proof (Z.div_mod ck 256). lia.
  - apply Forall_app_2; [done|]. apply Forall_app_2; [|done].
    constructor; [|constructor; [|constructor]]; unfold is_byte.
    + apply Z.mod_pos_bound; lia.
    + split; [apply Z.div_pos; lia|apply Z.div_lt_upper_bound; lia].
Qed.

(** *** Witnesses: an odd cut at odd addresses *)

Definition ms0 : list mbuf := [mkMbuf 1001 [69; 0; 0]; mkMbuf 2000 []; mkMbuf 3002 [28; 0; 0; 7]].

Lemma ms0_bytes : Forall is_byte (bytes_of ms0).
Proof. repeat constructor; unfold is_byte; lia. Qed.

Lemma in_cksum_c_correct_witness :
  in_cksum_c 99 ms0 9 = Ok (cksum_spec [69; 0; 0; 28; 0; 0; 7], true)
  /\ in_cksum_c 99 ms0 9 = Ok (58291, true).
Proof.
  split.
  - apply (in_cksum_c_correct 99 ms0 9 ms0_bytes); [lia|]. vm_compute. discriminate.
  - vm_compute. reflexivity.
Defined.

Lemma in_cksum_c_verifies_witness :
  in_cksum_c 5 [mkMbuf 8 [69]; mkMbuf 13 [0; 0; 28; 179]; mkMbuf 1 [227; 7]] 7 = Ok (0, false).
Proof.
  apply (in_cksum_c_verifies 99 5 ms0
    [mkMbuf 8 [69]; mkMbuf 13 [0; 0; 28; 179]; mkMbuf 1 [227; 7]] [69; 0; 0; 28] [7] 58291 false);
    [reflexivity| |exact ms0_bytes|vm_compute; discriminate|vm_compute; reflexivity|].
  - exists 2%nat. reflexivity.
  - vm_compute. reflexivity.
Defined.
