(* ===== verification/Mbuf.v ===== *)
(** * Mbufs (sys/kern/uipc_mbuf.c, sys/sys/mbuf.h)

    The network's memory: mbufs, small buffers of which chains are made, and
    clusters, pages that mbufs share with a reference count.  This file has the
    structures, the allocation macros, the routines on chains, and the ledger:
    the invariant that the reference count of every cluster is the number of
    mbufs that refer to it, and that the statistics count what there is. *)

From S2P Require Import Prelude.

(** ** The structures

    An mbuf belongs to one chain, so a chain, linked by [m_next], is the list of
    its mbufs and a null pointer the empty chain.  The data pointer [m_data] is
    kept as its offset [m_off] in the area the mbuf's data is in: [m_dat], or
    the cluster of number [ext_buf] ([mtocl]) when [M_EXT] is set.  The packet
    header and the description of the cluster, which C lays over the first bytes
    of [m_dat], are fields of their own; what [m_dat] has at their place is never
    used. *)

Definition MSIZE : Z := 128.
(** [MSIZE - sizeof(struct m_hdr)]. *)
Definition MLEN : Z := 108.
(** [MLEN - sizeof(struct pkthdr)]. *)
Definition MHLEN : Z := 100.
Definition MCLBYTES : Z := 2048.
Definition CLBYTES : Z := 4096.
Definition M_EXT : Z := 0x1.
Definition M_PKTHDR : Z := 0x2.
Definition M_EOR : Z := 0x4.
Definition M_BCAST : Z := 0x100.
Definition M_MCAST : Z := 0x200.
Definition M_COPYFLAGS : Z := Z.lor (Z.lor (Z.lor M_PKTHDR M_EOR) M_BCAST) M_MCAST.
Definition M_COPYALL : Z := 1000000000.
Definition MT_DATA : Z := 1.
Definition MT_SONAME : Z := 8.
Definition MT_CONTROL : Z := 14.
Definition MT_OOBDATA : Z := 15.

Record mbuf := mkMbuf {
  m_type : Z;
  m_flags : Z;
  m_len : Z;
  m_off : Z;
  m_dat : list Z;
  pkt_len : Z;
  pkt_rcvif : Z;
  ext_buf : Z;
  ext_size : Z }.

Definition set_m_type (v : Z) (m : mbuf) : mbuf := mkMbuf v (m_flags m) (m_len m) (m_off m)
  (m_dat m) (pkt_len m) (pkt_rcvif m) (ext_buf m) (ext_size m).
Definition set_m_flags (v : Z) (m : mbuf) : mbuf := mkMbuf (m_type m) v (m_len m) (m_off m)
  (m_dat m) (pkt_len m) (pkt_rcvif m) (ext_buf m) (ext_size m).
Definition set_m_len (v : Z) (m : mbuf) : mbuf := mkMbuf (m_type m) (m_flags m) v (m_off m)
  (m_dat m) (pkt_len m) (pkt_rcvif m) (ext_buf m) (ext_size m).
Definition set_m_off (v : Z) (m : mbuf) : mbuf := mkMbuf (m_type m) (m_flags m) (m_len m) v
  (m_dat m) (pkt_len m) (pkt_rcvif m) (ext_buf m) (ext_size m).
Definition set_m_dat (v : list Z) (m : mbuf) : mbuf := mkMbuf (m_type m) (m_flags m) (m_len m)
  (m_off m) v (pkt_len m) (pkt_rcvif m) (ext_buf m) (ext_size m).
Definition set_pkt_len (v : Z) (m : mbuf) : mbuf := mkMbuf (m_type m) (m_flags m) (m_len m)
  (m_off m) (m_dat m) v (pkt_rcvif m) (ext_buf m) (ext_size m).
Definition set_pkt_rcvif (v : Z) (m : mbuf) : mbuf := mkMbuf (m_type m) (m_flags m) (m_len m)
  (m_off m) (m_dat m) (pkt_len m) v (ext_buf m) (ext_size m).
Definition set_ext_buf (v : Z) (m : mbuf) : mbuf := mkMbuf (m_type m) (m_flags m) (m_len m)
  (m_off m) (m_dat m) (pkt_len m) (pkt_rcvif m) v (ext_size m).
Definition set_ext_size (v : Z) (m : mbuf) : mbuf := mkMbuf (m_type m) (m_flags m) (m_len m)
  (m_off m) (m_dat m) (pkt_len m) (pkt_rcvif m) (ext_buf m) v.

(** [m_pktdat - m_dat]. *)
Definition PKTDAT : Z := 8.

(** The world of the mbufs.  What malloc and kmem_malloc answer is given: an
    mbuf with its old contents, pages with their number among the clusters, or
    nothing.  A free cluster is on [mclfree] with its contents, one in use in
    [mclbuf].  [ipq] is the reassembly queue of ip_input.c: a datagram is the
    mbuf of its header and the chains of its fragments. *)
Record mworld := mkMworld {
  grants : list (option mbuf);
  kmem_pages : list (option (Z * list Z));
  mbutl : Z;
  mclfree : list (Z * list Z);
  mclrefcnt : gmap Z Z;
  mclbuf : gmap Z (list Z);
  m_mtypes : gmap Z Z;
  m_clusters : Z;
  m_clfree : Z;
  m_drain : Z;
  ipq : list (mbuf * list (list mbuf));
  ips_fragdropped : Z;
  max_protohdr : Z;
  MCFail : Z;
  MPFail : Z;
  msgs : list string }.

Definition set_grants (v : list (option mbuf)) (w : mworld) : mworld := mkMworld v (kmem_pages
  w) (mbutl w) (mclfree w) (mclrefcnt w) (mclbuf w) (m_mtypes w) (m_clusters w) (m_clfree w)
  (m_drain w) (ipq w) (ips_fragdropped w) (max_protohdr w) (MCFail w) (MPFail w) (msgs w).
Definition set_kmem_pages (v : list (option (Z * list Z))) (w : mworld) : mworld := mkMworld
  (grants w) v (mbutl w) (mclfree w) (mclrefcnt w) (mclbuf w) (m_mtypes w) (m_clusters w)
  (m_clfree w) (m_drain w) (ipq w) (ips_fragdropped w) (max_protohdr w) (MCFail w) (MPFail w)
  (msgs w).
Definition set_mbutl (v : Z) (w : mworld) : mworld := mkMworld (grants w) (kmem_pages w) v
  (mclfree w) (mclrefcnt w) (mclbuf w) (m_mtypes w) (m_clusters w) (m_clfree w) (m_drain w) (ipq
  w) (ips_fragdropped w) (max_protohdr w) (MCFail w) (MPFail w) (msgs w).
Definition set_mclfree (v : list (Z * list Z)) (w : mworld) : mworld := mkMworld (grants w)
  (kmem_pages w) (mbutl w) v (mclrefcnt w) (mclbuf w) (m_mtypes w) (m_clusters w) (m_clfree w)
  (m_drain w) (ipq w) (ips_fragdropped w) (max_protohdr w) (MCFail w) (MPFail w) (msgs w).
Definition set_mclrefcnt (v : gmap Z Z) (w : mworld) : mworld := mkMworld (grants w) (kmem_pages
  w) (mbutl w) (mclfree w) v (mclbuf w) (m_mtypes w) (m_clusters w) (m_clfree w) (m_drain w)
  (ipq w) (ips_fragdropped w) (max_protohdr w) (MCFail w) (MPFail w) (msgs w).
Definition set_mclbuf (v : gmap Z (list Z)) (w : mworld) : mworld := mkMworld (grants w)
  (kmem_pages w) (mbutl w) (mclfree w) (mclrefcnt w) v (m_mtypes w) (m_clusters w) (m_clfree w)
  (m_drain w) (ipq w) (ips_fragdropped w) (max_protohdr w) (MCFail w) (MPFail w) (msgs w).
Definition set_m_mtypes (v : gmap Z Z) (w : mworld) : mworld := mkMworld (grants w) (kmem_pages
  w) (mbutl w) (mclfree w) (mclrefcnt w) (mclbuf w) v (m_clusters w) (m_clfree w) (m_drain w)
  (ipq w) (ips_fragdropped w) (max_protohdr w) (MCFail w) (MPFail w) (msgs w).
Definition set_m_clusters (v : Z) (w : mworld) : mworld := mkMworld (grants w) (kmem_pages w)
  (mbutl w) (mclfree w) (mclrefcnt w) (mclbuf w) (m_mtypes w) v (m_clfree w) (m_drain w) (ipq w)
  (ips_fragdropped w) (max_protohdr w) (MCFail w) (MPFail w) (msgs w).
Definition set_m_clfree (v : Z) (w : mworld) : mworld := mkMworld (grants w) (kmem_pages w)
  (mbutl w) (mclfree w) (mclrefcnt w) (mclbuf w) (m_mtypes w) (m_clusters w) v (m_drain w) (ipq
  w) (ips_fragdropped w) (max_protohdr w) (MCFail w) (MPFail w) (msgs w).
Definition set_m_drain (v : Z) (w : mworld) : mworld := mkMworld (grants w) (kmem_pages w)
  (mbutl w) (mclfree w) (mclrefcnt w) (mclbuf w) (m_mtypes w) (m_clusters w) (m_clfree w) v (ipq
  w) (ips_fragdropped w) (max_protohdr w) (MCFail w) (MPFail w) (msgs w).
Definition set_ipq (v : list (mbuf * list (list mbuf))) (w : mworld) : mworld := mkMworld
  (grants w) (kmem_pages w) (mbutl w) (mclfree w) (mclrefcnt w) (mclbuf w) (m_mtypes w)
  (m_clusters w) (m_clfree w) (m_drain w) v (ips_fragdropped w) (max_protohdr w) (MCFail w)
  (MPFail w) (msgs w).
Definition set_ips_fragdropped (v : Z) (w : mworld) : mworld := mkMworld (grants w) (kmem_pages
  w) (mbutl w) (mclfree w) (mclrefcnt w) (mclbuf w) (m_mtypes w) (m_clusters w) (m_clfree w)
  (m_drain w) (ipq w) v (max_protohdr w) (MCFail w) (MPFail w) (msgs w).
Definition set_max_protohdr (v : Z) (w : mworld) : mworld := mkMworld (grants w) (kmem_pages w)
  (mbutl w) (mclfree w) (mclrefcnt w) (mclbuf w) (m_mtypes w) (m_clusters w) (m_clfree w)
  (m_drain w) (ipq w) (ips_fragdropped w) v (MCFail w) (MPFail w) (msgs w).
Definition set_MCFail (v : Z) (w : mworld) : mworld := mkMworld (grants w) (kmem_pages w) (mbutl
  w) (mclfree w) (mclrefcnt w) (mclbuf w) (m_mtypes w) (m_clusters w) (m_clfree w) (m_drain w)
  (ipq w) (ips_fragdropped w) (max_protohdr w) v (MPFail w) (msgs w).
Definition set_MPFail (v : Z) (w : mworld) : mworld := mkMworld (grants w) (kmem_pages w) (mbutl
  w) (mclfree w) (mclrefcnt w) (mclbuf w) (m_mtypes w) (m_clusters w) (m_clfree w) (m_drain w)
  (ipq w) (ips_fragdropped w) (max_protohdr w) (MCFail w) v (msgs w).
Definition set_msgs (v : list string) (w : mworld) : mworld := mkMworld (grants w) (kmem_pages
  w) (mbutl w) (mclfree w) (mclrefcnt w) (mclbuf w) (m_mtypes w) (m_clusters w) (m_clfree w)
  (m_drain w) (ipq w) (ips_fragdropped w) (max_protohdr w) (MCFail w) (MPFail w) v.

(** ** The data of an mbuf *)

Definition is_ext (m : mbuf) : bool := has (m_flags m) M_EXT.
Definition is_pkt (m : mbuf) : bool := has (m_flags m) M_PKTHDR.

(** Where the data area starts in [m_dat]. *)
Definition m_base (m : mbuf) : Z := if is_pkt m then PKTDAT else 0.

(** The area the data of an mbuf is in, and where it may start there; a cluster
    that is not in use is not an area. *)
Definition m_area (w : mworld) (m : mbuf) : outcome (Z * list Z) :=
  if is_ext m then match mclbuf w !! ext_buf m with Some a => Ok (0, a) | None => Fault end
  else Ok (m_base m, m_dat m).

(** [bcopy(mtod(m) + off, .., len)]: [len] chars from [off] behind the data
    pointer. *)
Definition peek (w : mworld) (m : mbuf) (off len : Z) : outcome (list Z) :=
  if len =? 0 then mret []
  else
    '(lo, a) ← m_area w m;
    let o := m_off m + off in
    if (lo <=? o) && (0 <=? len) && (o + len <=? Z.of_nat (length a))
    then mret (take (Z.to_nat len) (drop (Z.to_nat o) a)) else Fault.

Definition splice (a : list Z) (o : Z) (bs : list Z) : list Z :=
  take (Z.to_nat o) a ++ bs ++ drop (Z.to_nat o + length bs) a.

(** [bcopy(.., mtod(m) + off, length bs)]. *)
Definition poke (m : mbuf) (off : Z) (bs : list Z) (w : mworld) : outcome (mbuf * mworld) :=
  if decide (bs = []) then mret (m, w)
  else
    '(lo, a) ← m_area w m;
    let o := m_off m + off in
    if (lo <=? o) && (o + Z.of_nat (length bs) <=? Z.of_nat (length a)) then
      let a := splice a o bs in
      if is_ext m then mret (m, set_mclbuf (<[ext_buf m := a]> (mclbuf w)) w) else mret (set_m_dat a m, w)
    else Fault.

(** ** Clusters *)

Definition refcnt (w : mworld) (c : Z) : Z := default 0 (mclrefcnt w !! c).
Definition set_refcnt (c n : Z) (w : mworld) : mworld := set_mclrefcnt (<[c := s8 n]> (mclrefcnt w)) w.

(** The four chars of a pointer. *)
Definition le4 (p : Z) : list Z :=
  [u8 p; u8 (Z.shiftr p 8); u8 (Z.shiftr p 16); u8 (Z.shiftr p 24)].

(** [((union mcluster * )p)->mcl_next = mclfree; mclfree = p; m_clfree++]: the
    first word of a free cluster is the link to the next. *)
Definition mcl_put (c : Z) (b : list Z) (w : mworld) : mworld :=
  let next := match mclfree w with [] => 0 | (c', _) :: _ => u32 (mbutl w + c' * MCLBYTES) end in
  set_m_clfree (u32 (m_clfree w + 1)) (set_mclfree ((c, splice b 0 (le4 next)) :: mclfree w) w).

Fixpoint cl_push (ncl : nat) (c : Z) (p : list Z) (w : mworld) : mworld :=
  match ncl with
  | O => w
  | S ncl => cl_push ncl (c + 1) (drop (Z.to_nat MCLBYTES) p) (mcl_put c (take (Z.to_nat MCLBYTES) p) w)
  end.

Definition mb_map_full : string := "mb_map full".

Definition m_clalloc (ncl : Z) (w : mworld) : bool * mworld :=
  let w' := set_kmem_pages (tail (kmem_pages w)) w in
  match head (kmem_pages w) with
  | Some (Some (c, p)) =>
      let ncl := ncl * CLBYTES / MCLBYTES in
      let w := cl_push (Z.to_nat ncl) c p w' in
      (true, set_m_clusters (u32 (m_clusters w + ncl)) w)
  | _ => (false, if decide (mb_map_full ∈ msgs w) then w' else set_msgs (mb_map_full :: msgs w') w')
  end.

Definition mbinit (w : mworld) : outcome mworld :=
  match m_clalloc 1 w with
  | (true, w) => mret w
  | (false, _) => Panic "mbinit"
  end.

Definition MCLALLOC (w : mworld) : option Z * mworld :=
  let w := match mclfree w with [] => (m_clalloc 1 w).2 | _ => w end in
  match mclfree w with
  | [] => (None, w)
  | (c, b) :: l =>
      let w := set_refcnt c (refcnt w c + 1) w in
      (Some c, set_mclbuf (<[c := b]> (mclbuf w)) (set_mclfree l (set_m_clfree (u32 (m_clfree w - 1)) w)))
  end.

(** A null [ext_buf] is stored over the data that is there. *)
Definition MCLGET (m : mbuf) (w : mworld) : mbuf * mworld :=
  match MCLALLOC w with
  | (Some c, w) => (set_ext_size MCLBYTES (set_m_flags (Z.lor (m_flags m) M_EXT) (set_m_off 0 (set_ext_buf c m))), w)
  | (None, w) => (set_m_dat (splice (m_dat m) PKTDAT (le4 0)) m, w)
  end.

Definition MCLFREE (c : Z) (w : mworld) : outcome mworld :=
  let w := set_refcnt c (refcnt w c - 1) w in
  if refcnt w c =? 0 then
    b ← deref (mclbuf w !! c);
    mret (mcl_put c b (set_mclbuf (delete c (mclbuf w)) w))
  else mret w.

(** ** Mbufs *)

Definition mtypes (w : mworld) (t : Z) : Z := default 0 (m_mtypes w !! t).
Definition count_type (t d : Z) (w : mworld) : mworld :=
  set_m_mtypes (<[t := u16 (mtypes w t + d)]> (m_mtypes w)) w.

Definition MFREE (m : mbuf) (w : mworld) : outcome mworld :=
  let w := count_type (m_type m) (-1) w in
  if is_ext m then MCLFREE (ext_buf m) w else mret w.

(** [m_free] returns the successor, which the caller has: the rest of its
    list. *)
Definition m_free := MFREE.

Fixpoint m_freem (ch : list mbuf) (w : mworld) : outcome mworld :=
  match ch with
  | [] => mret w
  | m :: n => w ← MFREE m w; m_freem n w
  end.

(** ip_input.c: giving back the fragments that wait for the rest of their
    datagrams. *)
Fixpoint free_frags (qs : list (list mbuf)) (w : mworld) : outcome mworld :=
  match qs with
  | [] => mret w
  | q :: qs => w ← m_freem q w; free_frags qs w
  end.
Definition ip_freef (fp : mbuf * list (list mbuf)) (w : mworld) : outcome mworld :=
  w ← free_frags fp.2 w; m_free fp.1 (set_ipq (tail (ipq w)) w).

Fixpoint ip_drain (fps : list (mbuf * list (list mbuf))) (w : mworld) : outcome mworld :=
  match fps with
  | [] => mret w
  | fp :: fps =>
      w ← ip_freef fp (set_ips_fragdropped (u32 (ips_fragdropped w + 1)) w);
      ip_drain fps w
  end.

Definition tcp_drain (w : mworld) : outcome mworld := mret w.

Definition m_reclaim (w : mworld) : outcome mworld :=
  w ← ip_drain (ipq w) w;
  w ← tcp_drain w;
  mret (set_m_drain (u32 (m_drain w + 1)) w).

(** The body of [MGET] and [MGETHDR]. *)
Definition mget_once (hdr : bool) (type : Z) (w : mworld) : option mbuf * mworld :=
  let w' := set_grants (tail (grants w)) w in
  match head (grants w) with
  | Some (Some m) =>
      (Some (set_m_flags (if hdr then M_PKTHDR else 0) (set_m_off (if hdr then PKTDAT else 0) (set_m_type type m))),
       count_type type 1 w')
  | _ => (None, w')
  end.

Definition m_retry (type : Z) (w : mworld) : outcome (option mbuf * mworld) :=
  w ← m_reclaim w; mret (mget_once false type w).
Definition m_retryhdr (type : Z) (w : mworld) : outcome (option mbuf * mworld) :=
  w ← m_reclaim w; mret (mget_once true type w).

Definition MGET (type : Z) (w : mworld) : outcome (option mbuf * mworld) :=
  match mget_once false type w with
  | (Some m, w) => mret (Some m, w)
  | (None, w) => m_retry type w
  end.
Definition MGETHDR (type : Z) (w : mworld) : outcome (option mbuf * mworld) :=
  match mget_once true type w with
  | (Some m, w) => mret (Some m, w)
  | (None, w) => m_retryhdr type w
  end.

Definition m_get := MGET.
Definition m_gethdr := MGETHDR.
Definition m_getclr (type : Z) (w : mworld) : outcome (option mbuf * mworld) :=
  '(o, w) ← MGET type w;
  match o with
  | None => mret (None, w)
  | Some m => '(m, w) ← poke m 0 (replicate (Z.to_nat MLEN) 0) w; mret (Some m, w)
  end.

(** [M_COPY_PKTHDR(to, from)], and [MH_ALIGN(m, len)]. *)
Definition M_COPY_PKTHDR (to from : mbuf) : mbuf :=
  set_m_off PKTDAT (set_m_flags (Z.land (m_flags from) M_COPYFLAGS)
    (set_pkt_rcvif (pkt_rcvif from) (set_pkt_len (pkt_len from) to))).
Definition MH_ALIGN (m : mbuf) (len : Z) : mbuf :=
  set_m_off (m_off m + andnot (MHLEN - len) 3) m.
Definition M_LEADINGSPACE (m : mbuf) : Z :=
  if is_ext m then 0 else m_off m - m_base m.

(** ** The routines on chains *)

Definition is_nil {A} (l : list A) : bool := match l with [] => true | _ => false end.

Definition m_prepend (ch : list mbuf) (len : Z) (w : mworld) : outcome (list mbuf * mworld) :=
  match ch with
  | [] => Fault
  | m :: rest =>
      '(o, w) ← MGET (m_type m) w;
      match o with
      | None => w ← m_freem ch w; mret ([], w)
      | Some mn =>
          let '(mn, m) :=
            if is_pkt m then (M_COPY_PKTHDR mn m, set_m_flags (andnot (m_flags m) M_PKTHDR) m) else (mn, m) in
          let mn := if len <? MHLEN then MH_ALIGN mn len else mn in
          mret (set_m_len len mn :: m :: rest, w)
      end
  end.

Definition M_PREPEND (ch : list mbuf) (plen : Z) (w : mworld) : outcome (list mbuf * mworld) :=
  match ch with
  | [] => Fault
  | m :: rest =>
      '(ch, w) ← (if plen <=? M_LEADINGSPACE m
                  then mret (set_m_len (m_len m + plen) (set_m_off (m_off m - plen) m) :: rest, w)
                  else m_prepend ch plen w);
      match ch with
      | m :: rest => mret ((if is_pkt m then set_pkt_len (s32 (pkt_len m + plen)) m else m) :: rest, w)
      | [] => mret ([], w)
      end
  end.

(** The loops of m_copym and m_copydata that find the mbuf with offset [off]. *)
Fixpoint m_seek (who : string) (ch : list mbuf) (off : Z) : outcome (list mbuf * Z) :=
  match ch with
  | [] => if 0 <? off then Panic who else mret ([], off)
  | m :: rest =>
      if 0 <? off then if off <? m_len m then mret (ch, off) else m_seek who rest (off - m_len m)
      else mret (ch, off)
  end.

(** The copy of the [n_len] chars of [m] from [off], in the new mbuf [n]. *)
Definition m_copy1 (m n : mbuf) (off n_len : Z) (w : mworld) : outcome (mbuf * mworld) :=
  let n := set_m_len n_len n in
  if is_ext m then
    let w := set_refcnt (ext_buf m) (refcnt w (ext_buf m) + 1) w in
    mret (set_m_flags (Z.lor (m_flags n) M_EXT)
           (set_ext_size (ext_size m) (set_ext_buf (ext_buf m) (set_m_off (m_off m + off) n))), w)
  else bs ← peek w m off n_len; poke n 0 bs w.

(** The loop that copies; [top] is what has been copied. *)
Fixpoint m_copy_loop (ch : list mbuf) (copyhdr : bool) (off0 off len : Z) (top : list mbuf) (w : mworld)
    : outcome (list mbuf * mworld) :=
  let done (w : mworld) := mret (top, if is_nil top then set_MCFail (MCFail w + 1) w else w) in
  match ch with
  | [] => if 0 <? len then if len =? M_COPYALL then done w else Panic "m_copym" else done w
  | m :: rest =>
      if 0 <? len then
        '(o, w) ← MGET (m_type m) w;
        match o with
        | None => w ← m_freem top w; mret ([], set_MCFail (MCFail w + 1) w)
        | Some n =>
            let n :=
              if copyhdr then
                let n := M_COPY_PKTHDR n m in
                set_pkt_len (if len =? M_COPYALL then pkt_len n - off0 else len) n
              else n in
            let n_len := Z.min len (m_len m - off) in
            '(n, w) ← m_copy1 m n off n_len w;
            m_copy_loop rest false off0 0 (if len =? M_COPYALL then len else len - n_len) (top ++ [n]) w
        end
      else done w
  end.

Definition m_copym (ch : list mbuf) (off0 len : Z) (w : mworld) : outcome (list mbuf * mworld) :=
  if (off0 <? 0) || (len <? 0) then Panic "m_copym"
  else
    copyhdr ← (if off0 =? 0 then match ch with [] => Fault | m :: _ => mret (is_pkt m) end else mret false);
    '(ch, off) ← m_seek "m_copym" ch off0;
    m_copy_loop ch copyhdr off0 off len [] w.

Fixpoint m_copydata_loop (ch : list mbuf) (off len : Z) (w : mworld) : outcome (list Z) :=
  match ch with
  | [] => if 0 <? len then Panic "m_copydata" else mret []
  | m :: rest =>
      if 0 <? len then
        let count := Z.min (m_len m - off) len in
        bs ← peek w m off count;
        cp ← m_copydata_loop rest 0 (len - count) w;
        mret (bs ++ cp)
      else mret []
  end.
Definition m_copydata (ch : list mbuf) (off len : Z) (w : mworld) : outcome (list Z) :=
  if (off <? 0) || (len <? 0) then Panic "m_copydata"
  else '(ch, off) ← m_seek "m_copydata" ch off; m_copydata_loop ch off len w.

(** The second loop of m_cat: [m] is the last mbuf of the first chain. *)
Fixpoint m_cat_loop (m : mbuf) (n : list mbuf) (w : mworld) : outcome (list mbuf * mworld) :=
  match n with
  | [] => mret ([m], w)
  | x :: rest =>
      if is_ext m || (MLEN <=? m_off m + m_len m + m_len x) then mret (m :: n, w)
      else
        bs ← peek w x 0 (m_len x);
        '(m, w) ← poke m (m_len m) bs w;
        w ← m_free x w;
        m_cat_loop (set_m_len (m_len m + m_len x) m) rest w
  end.

Fixpoint m_cat (ch n : list mbuf) (w : mworld) : outcome (list mbuf * mworld) :=
  match ch with
  | [] => Fault
  | [m] => m_cat_loop m n w
  | m :: rest => '(rest, w) ← m_cat rest n w; mret (m :: rest, w)
  end.

(** m_adj, trimming the head: the chain and what is left of [len]. *)
Fixpoint m_adj_head (ch : list mbuf) (len : Z) : list mbuf * Z :=
  match ch with
  | [] => ([], len)
  | m :: rest =>
      if 0 <? len then
        if m_len m <=? len then
          let '(rest, l) := m_adj_head rest (len - m_len m) in (set_m_len 0 m :: rest, l)
        else (set_m_off (m_off m + len) (set_m_len (m_len m - len) m) :: rest, 0)
      else (ch, len)
  end.

(** The length of a chain and its last mbuf. *)
Fixpoint m_count (m : mbuf) (rest : list mbuf) : Z * mbuf :=
  match rest with
  | [] => (m_len m, m)
  | n :: rest => let '(count, last) := m_count n rest in (m_len m + count, last)
  end.

(** Cutting a chain after [count] chars. *)
Fixpoint m_adj_cut (ch : list mbuf) (count : Z) : outcome (list mbuf) :=
  match ch with
  | [] => Fault
  | m :: rest =>
      if count <=? m_len m then mret (set_m_len count m :: map (set_m_len 0) rest)
      else rest ← m_adj_cut rest (count - m_len m); mret (m :: rest)
  end.

(** The last mbuf loses [len] chars; [mp] is set to it before its header is
    tested. *)
Fixpoint m_adj_last (m : mbuf) (rest : list mbuf) (len : Z) : list mbuf :=
  match rest with
  | [] =>
      let m := set_m_len (m_len m - len) m in
      [if is_pkt m then set_pkt_len (s32 (pkt_len m - len)) m else m]
  | n :: rest => m :: m_adj_last n rest len
  end.

Definition m_adj (mp : list mbuf) (req_len : Z) : outcome (list mbuf) :=
  match mp with
  | [] => mret []
  | m :: rest =>
      if 0 <=? req_len then
        let '(ch, len) := m_adj_head mp req_len in
        match ch with
        | m :: rest => mret ((if is_pkt m then set_pkt_len (s32 (pkt_len m - (req_len - len))) m else m) :: rest)
        | [] => mret []
        end
      else
        let len := s32 (- req_len) in
        let '(count, last) := m_count m rest in
        if len <=? m_len last then mret (m_adj_last m rest len)
        else
          let count := if count - len <? 0 then 0 else count - len in
          m_adj_cut ((if is_pkt m then set_pkt_len count m else m) :: rest) count
  end.

(** The unsigned min and max of the kernel's library. *)
Definition umin (a b : Z) : Z := Z.min (u32 a) (u32 b).
Definition umax (a b : Z) : Z := Z.max (u32 a) (u32 b).

(** The loop of m_pullup: [m] takes chars from the chain [n].  It comes back for
    the same mbuf only after taking all [len] chars, so a round for each mbuf is
    enough. *)
Fixpoint m_pull_loop (fuel : nat) (m : mbuf) (n : list mbuf) (len space : Z) (w : mworld)
    : outcome (mbuf * list mbuf * Z * mworld) :=
  match fuel, n with
  | S fuel, x :: rest =>
      let count := umin (umin (umax len (max_protohdr w)) space) (m_len x) in
      bs ← peek w x 0 count;
      '(m, w) ← poke m (m_len m) bs w;
      let len := len - count in
      let m := set_m_len (m_len m + count) m in
      let x := set_m_len (m_len x - count) x in
      let space := space - count in
      '(n, w) ← (if m_len x =? 0 then w ← m_free x w; mret (rest, w)
                 else mret (set_m_off (m_off x + count) x :: rest, w));
      if (0 <? len) && negb (is_nil n) then m_pull_loop fuel m n len space w else mret (m, n, len, w)
  | _, _ => Fault
  end.

Definition m_pullup (n : list mbuf) (len : Z) (w : mworld) : outcome (list mbuf * mworld) :=
  let bad (n : list mbuf) (w : mworld) := w ← m_freem n w; mret ([], set_MPFail (MPFail w + 1) w) in
  let pull (m : mbuf) (n : list mbuf) (len : Z) (w : mworld) :=
    '(m, n, len, w) ← m_pull_loop (length n) m n len (MLEN - (m_off m + m_len m)) w;
    if 0 <? len then w ← m_free m w; bad n w else mret (m :: n, w) in
  match n with
  | [] => Fault
  | n0 :: rest =>
      if negb (is_ext n0) && (m_off n0 + len <? MLEN) && negb (is_nil rest) then
        if len <=? m_len n0 then mret (n, w) else pull n0 rest (len - m_len n0) w
      else if MHLEN <? len then bad n w
      else
        '(o, w) ← MGET (m_type n0) w;
        match o with
        | None => bad n w
        | Some m =>
            let m := set_m_len 0 m in
            if is_pkt n0 then
              pull (M_COPY_PKTHDR m n0) (set_m_flags (andnot (m_flags n0) M_PKTHDR) n0 :: rest) len w
            else pull m n len w
        end
  end.
