(* ===== verification/MbufBook.v ===== *)
(** * The books of the mbufs

    The ledger of a world of mbufs: the invariant that the reference count of
    every cluster is the number of mbufs that refer to it, that a cluster is
    either in use or on the free list, that the statistics count what there is,
    and that the data of every mbuf lies in its area.  Then what the allocation
    macros do to it, and how the data of an mbuf is read and written. *)

From S2P Require Import Prelude Mbuf.

(** ** Sums over chains *)

Fixpoint total (f : mbuf -> Z) (l : list mbuf) : Z :=
  match l with [] => 0 | m :: l => f m + total f l end.

Lemma total_cons f m l : total f (m :: l) = f m + total f l.
Proof. done. Qed.
Lemma total_app f l k : total f (l ++ k) = total f l + total f k.
Proof. induction l as [|m l IH]; cbn; [done|]. rewrite IH. lia. Qed.

#[export] Instance total_perm f : Proper (Permutation ==> eq) (total f).
Proof. intros l k E. induction E; cbn; lia. Qed.

Lemma total_nonneg f l : (forall m, 0 <= f m) -> 0 <= total f l.
Proof. intros Hf. induction l as [|m l IH]; cbn; [done|]. specialize (Hf m). lia. Qed.

Lemma total_le f g l : (forall m, f m <= g m) -> total f l <= total g l.
Proof. intros Hf. induction l as [|m l IH]; cbn; [done|]. specialize (Hf m). lia. Qed.

(** References to cluster [c]; mbufs of type [t]; the length of a chain. *)
Definition ref1 (c : Z) (m : mbuf) : Z := if is_ext m && (ext_buf m =? c) then 1 else 0.
Definition typ1 (t : Z) (m : mbuf) : Z := if m_type m =? t then 1 else 0.
Definition refs (c : Z) (l : list mbuf) : Z := total (ref1 c) l.
Definition clen (l : list mbuf) : Z := total m_len l.

Lemma ref1_range c m : 0 <= ref1 c m <= 1.
Proof. unfold ref1. case_match; lia. Qed.
Lemma refs_nonneg c l : 0 <= refs c l.
Proof. apply total_nonneg. intros m. apply ref1_range. Qed.
#[export] Hint Resolve ref1_range refs_nonneg : kernel.

Lemma refs_elem c m l : m ∈ l -> ref1 c m <= refs c l.
Proof.
  intros [k E]%elem_of_Permutation. unfold refs. rewrite E. cbn.
  pose proof (refs_nonneg c k). unfold refs in *. lia.
Qed.

(** ** The ledger *)

(** The data of an mbuf lies in its area. *)
Record mbuf_ok (m : mbuf) : Prop := {
  ok_dat : Z.of_nat (length (m_dat m)) = MLEN;
  ok_len : 0 <= m_len m;
  ok_ext : is_ext m = true -> ext_size m = MCLBYTES /\ 0 <= m_off m /\ m_off m + m_len m <= MCLBYTES;
  ok_int : is_ext m = false -> m_base m <= m_off m /\ m_off m + m_len m <= MLEN }.

Definition page_cls (pages : list (option (Z * list Z))) : list Z :=
  flat_map (fun o => match o with Some (c, _) => [c; c + 1] | None => [] end) pages.

(** The books agree with the mbufs [l] that exist. *)
Record Book (w : mworld) (l : list mbuf) : Prop := {
  bk_ok : Forall mbuf_ok l;
  bk_ref : forall c, refcnt w c = s8 (refs c l);
  bk_few : forall c, refs c l <= 256;
  bk_live : forall c, is_Some (mclbuf w !! c) <-> 0 < refs c l;
  bk_size : forall c b, mclbuf w !! c = Some b -> Z.of_nat (length b) = MCLBYTES;
  bk_fsize : forall c b, (c, b) ∈ mclfree w -> Z.of_nat (length b) = MCLBYTES;
  bk_nodup : NoDup ((mclfree w).*1 ++ page_cls (kmem_pages w));
  bk_apart : forall c, c ∈ (mclfree w).*1 ++ page_cls (kmem_pages w) -> mclbuf w !! c = None;
  bk_clfree : m_clfree w = u32 (Z.of_nat (length (mclfree w)));
  bk_clusters : m_clusters w = u32 (Z.of_nat (length (mclfree w) + size (mclbuf w)));
  bk_types : forall t, mtypes w t = u16 (total (typ1 t) l);
  bk_pages : forall c p, Some (c, p) ∈ kmem_pages w -> Z.of_nat (length p) = CLBYTES;
  bk_grants : forall m, Some m ∈ grants w -> Z.of_nat (length (m_dat m)) = MLEN;
  bk_proto : 0 <= max_protohdr w < 2 ^ 31 }.

#[export] Instance Book_perm w : Proper (Permutation ==> iff) (Book w).
Proof.
  assert (forall l k, Permutation l k -> Book w l -> Book w k) as H.
  { intros l k E [H1 H2 H3 H4 H5 H6 H7 H8 H9 H10 H11 H12 H13 H14].
    split; unfold refs in *; try (setoid_rewrite <- E); done. }
  intros l k E. split; apply H; [done|by symmetry].
Qed.

(** The mbufs of the reassembly queue. *)
Definition frags (q : list (mbuf * list (list mbuf))) : list mbuf :=
  flat_map (fun fp => concat fp.2 ++ [fp.1]) q.

(** The books of a kernel in which the chains [l] are held elsewhere. *)
Definition Ledger (w : mworld) (l : list mbuf) : Prop := Book w (l ++ frags (ipq w)).

#[export] Instance Ledger_perm w : Proper (Permutation ==> iff) (Ledger w).
Proof. intros l k E. unfold Ledger. by rewrite E. Qed.

(** What no routine on chains does: clusters are given back, but the data of
    those in use stays. *)
Record narrows (w w' : mworld) : Prop := {
  nr_buf : mclbuf w' ⊆ mclbuf w;
  nr_proto : max_protohdr w' = max_protohdr w }.
#[export] Instance narrows_po : PreOrder narrows.
Proof.
  split; [by split|]. intros w1 w2 w3 [A1 A2] [B1 B2]. split; [by etrans|congruence].
Qed.

(** *** The data of a chain *)

Definition area (w : mworld) (m : mbuf) : list Z :=
  if is_ext m then default [] (mclbuf w !! ext_buf m) else m_dat m.
Definition mdata (w : mworld) (m : mbuf) : list Z :=
  take (Z.to_nat (m_len m)) (drop (Z.to_nat (m_off m)) (area w m)).
Definition cdata (w : mworld) (ch : list mbuf) : list Z := flat_map (mdata w) ch.

Lemma cdata_cons w m ch : cdata w (m :: ch) = mdata w m ++ cdata w ch.
Proof. done. Qed.
Lemma cdata_app w ch k : cdata w (ch ++ k) = cdata w ch ++ cdata w k.
Proof. apply flat_map_app. Qed.

Lemma Book_in w l m : Book w l -> m ∈ l ->
  mbuf_ok m /\ (is_ext m = true -> exists b, mclbuf w !! ext_buf m = Some b /\ Z.of_nat (length b) = MCLBYTES).
Proof.
  intros HB Hm. split; [apply (proj1 (list.Forall_forall _ _) (bk_ok _ _ HB) m Hm)|]. intros Hx.
  pose proof (refs_elem (ext_buf m) m l Hm) as Hr. unfold ref1 in Hr. rewrite Hx, Z.eqb_refl in Hr.
  destruct (proj2 (bk_live _ _ HB (ext_buf m))) as [b Hb]; [cbn in Hr; lia|].
  exists b. split; [done|]. apply (bk_size _ _ HB _ _ Hb).
Qed.

Lemma area_ok w l m : Book w l -> m ∈ l -> exists n, Z.of_nat (length (area w m)) = n /\
  m_area w m = Ok (if is_ext m then 0 else m_base m, area w m) /\
  (if is_ext m then 0 else m_base m) <= m_off m /\ 0 <= m_off m /\ 0 <= m_len m /\ m_off m + m_len m <= n.
Proof.
  intros HB Hm. destruct (Book_in w l m HB Hm) as ([Hd Hl He Hi]&Hc). unfold area, m_area.
  destruct (is_ext m).
  - destruct (Hc eq_refl) as (b&Hb&Hn). destruct (He eq_refl) as (?&?&?). rewrite Hb. cbn. eauto 10.
  - destruct (Hi eq_refl) as (?&?). assert (0 <= m_base m) by (unfold m_base, PKTDAT; case_match; lia).
    exists MLEN. repeat split; lia || done.
Qed.

Lemma mdata_len w l m : Book w l -> m ∈ l -> Z.of_nat (length (mdata w m)) = m_len m.
Proof.
  intros HB Hm. destruct (area_ok w l m HB Hm) as (n&Hn&_&_&?&?&?). unfold mdata.
  rewrite length_take, length_drop. lia.
Qed.

Lemma cdata_len w l ch : Book w (ch ++ l) -> Z.of_nat (length (cdata w ch)) = clen ch.
Proof.
  revert l. induction ch as [|m ch IH]; intros l HB; [done|]. cbn [cdata flat_map clen total].
  rewrite length_app, Nat2Z.inj_add, (mdata_len w _ m HB) by (by left). fold (cdata w ch). f_equal.
  apply (IH (m :: l)). rewrite <- Permutation_middle. apply HB.
Qed.

Lemma mdata_narrow w w' l m : Book w' l -> m ∈ l -> narrows w w' -> mdata w' m = mdata w m.
Proof.
  intros HB Hm [Hs _]. destruct (Book_in w' l m HB Hm) as (_&Hc). unfold mdata, area.
  destruct (is_ext m); [|done]. destruct (Hc eq_refl) as (b&Hb&_).
  by rewrite Hb, (lookup_weaken _ _ _ _ Hb Hs).
Qed.

Lemma cdata_narrow w w' l ch : Book w' (ch ++ l) -> narrows w w' -> cdata w' ch = cdata w ch.
Proof.
  intros HB Hn. revert l HB. induction ch as [|m ch IH]; intros l HB; [done|].
  cbn [cdata flat_map]. fold (cdata w ch) (cdata w' ch).
  rewrite (mdata_narrow w w' _ m HB) by (done || by left). f_equal.
  apply (IH (m :: l)). rewrite <- Permutation_middle. apply HB.
Qed.

(** ** Giving back *)

Lemma s8_small z : 0 <= z <= 255 -> s8 z = 0 <-> z = 0.
Proof.
  intros Hz. unfold s8, wraps. destruct (decide (z < 128)).
  - rewrite Z.mod_small by lia. lia.
  - replace (z + 2 ^ (8 - 1)) with (z - 128 + 1 * 2 ^ 8) by lia. rewrite Z.mod_add, Z.mod_small; lia.
Qed.

Lemma s8_add a b : s8 (s8 a + b) = s8 (a + b).
Proof.
  unfold s8, wraps. f_equal.
  replace ((a + 2 ^ (8 - 1)) mod 2 ^ 8 - 2 ^ (8 - 1) + b + 2 ^ (8 - 1))
    with ((a + 2 ^ (8 - 1)) mod 2 ^ 8 + b) by lia.
  rewrite Z.add_mod_idemp_l by lia. f_equal. lia.
Qed.

Lemma u16_add a b : u16 (u16 a + b) = u16 (a + b).
Proof. unfold u16, wrapu. by rewrite Z.add_mod_idemp_l. Qed.
Lemma u32_add a b : u32 (u32 a + b) = u32 (a + b).
Proof. unfold u32, wrapu. by rewrite Z.add_mod_idemp_l. Qed.

Lemma refcnt_set c n w c' : refcnt (set_refcnt c n w) c' = if c =? c' then s8 n else refcnt w c'.
Proof.
  unfold refcnt, set_refcnt. cbn. destruct (Z.eqb_spec c c') as [->|Hc].
  - by rewrite lookup_insert_eq.
  - by rewrite lookup_insert_ne.
Qed.

Lemma mtypes_count t d w t' :
  mtypes (count_type t d w) t' = if t =? t' then u16 (mtypes w t + d) else mtypes w t'.
Proof.
  unfold mtypes, count_type. cbn. destruct (Z.eqb_spec t t') as [->|Hc].
  - by rewrite lookup_insert_eq.
  - by rewrite lookup_insert_ne.
Qed.

Lemma splice_len a o bs : 0 <= o -> o + Z.of_nat (length bs) <= Z.of_nat (length a) ->
  length (splice a o bs) = length a.
Proof. intros. unfold splice. rewrite !length_app, length_take, length_drop. lia. Qed.

Lemma NoDup_rot {A} (a : A) l k : NoDup (a :: l ++ k) -> NoDup (l ++ a :: k).
Proof. by rewrite Permutation_middle. Qed.

(** The rest of the world stays. *)
Record same_rest (w w' : mworld) : Prop := {
  sr_grants : grants w' = grants w;
  sr_pages : kmem_pages w' = kmem_pages w;
  sr_ipq : ipq w' = ipq w;
  sr_proto : max_protohdr w' = max_protohdr w;
  sr_mc : MCFail w' = MCFail w;
  sr_mp : MPFail w' = MPFail w;
  sr_msgs : msgs w' = msgs w }.
#[export] Instance same_rest_po : PreOrder same_rest.
Proof. split; [by split|]. intros w1 w2 w3 [] []. split; congruence. Qed.

Lemma MFREE_book w m l : Book w (m :: l) ->
  exists w', MFREE m w = Ok w' /\ Book w' l /\ narrows w w' /\ same_rest w w'.
Proof.
  intros HB. destruct (Book_in w (m :: l) m HB) as (Hm&Hc); [by left|].
  unfold MFREE. destruct (is_ext m) eqn:Hx.
  2:{ eexists. split; [done|]. split; [|split; by split]. destruct HB.
      assert (forall c, refs c (m :: l) = refs c l) as Er
        by (intros c; cbn; unfold ref1; by rewrite Hx).
      split; cbn; try setoid_rewrite <- Er; try done; [by inversion bk_ok0|].
      intros t. rewrite mtypes_count. destruct (Z.eqb_spec (m_type m) t) as [<-|Ht].
      - rewrite bk_types0, u16_add. cbn. unfold typ1 at 1. rewrite Z.eqb_refl. f_equal. lia.
      - rewrite bk_types0. cbn. unfold typ1 at 1. by rewrite (proj2 (Z.eqb_neq _ _) Ht). }
  destruct (Hc eq_refl) as (b&Hb&Hlen). clear Hc. set (c := ext_buf m) in *.
  assert (forall c', refs c' (m :: l) = (if c =? c' then 1 else 0) + refs c' l) as Er.
  { intros c'. cbn. unfold ref1. by rewrite Hx. }
  assert (forall t, mtypes (count_type (m_type m) (-1) w) t = u16 (total (typ1 t) l)) as Et.
  { intros t. rewrite mtypes_count, !(bk_types _ _ HB). cbn. unfold typ1 at 1 3.
    destruct (Z.eqb_spec (m_type m) t) as [<-|Ht]; [|f_equal; lia].
    rewrite Z.eqb_refl, u16_add. f_equal. lia. }
  pose proof (bk_few _ _ HB c) as Hf. rewrite Er, Z.eqb_refl in Hf. pose proof (refs_nonneg c l) as Hp.
  assert (forall c', refcnt (set_refcnt c (refcnt (count_type (m_type m) (-1) w) c - 1)
            (count_type (m_type m) (-1) w)) c' = s8 (refs c' l)) as Ec.
  { intros c'. rewrite refcnt_set. change (refcnt (count_type _ _ w)) with (refcnt w).
    destruct (Z.eqb_spec c c') as [<-|Hc].
    - rewrite (bk_ref _ _ HB), Er, Z.eqb_refl. replace (_ - 1) with (s8 (1 + refs c l) + -1) by lia.
      rewrite s8_add. f_equal. lia.
    - rewrite (bk_ref _ _ HB), Er, (proj2 (Z.eqb_neq _ _) Hc). f_equal. }
  unfold MCLFREE. rewrite Ec. destruct (s8 (refs c l) =? 0) eqn:Ez; bool_prop.
  - apply (proj1 (s8_small (refs c l) ltac:(lia))) in Ez. cbn [mclbuf set_refcnt set_mclrefcnt count_type set_m_mtypes]. rewrite Hb.
    eexists. split; [done|]. split; [|split; [split; cbn; [apply delete_subseteq|done]|by split]].
    destruct HB. split; cbn; try done.
    + by inversion bk_ok0.
    + intros c'. specialize (bk_few0 c'). rewrite Er in bk_few0. case_if; lia.
    + intros c'. destruct (Z.eqb_spec c c') as [<-|Hc].
      * rewrite lookup_delete_eq, Ez. split; [by intros []|lia].
      * rewrite lookup_delete_ne, bk_live0, Er, (proj2 (Z.eqb_neq _ _) Hc) by done. split; lia.
    + intros c' b' [_ ?]%lookup_delete_Some. by apply (bk_size0 c').
    + intros c' b' [[= -> ->]|?]%elem_of_cons; [|by apply (bk_fsize0 c')].
      rewrite splice_len; cbn; unfold MCLBYTES in *; lia.
    + apply NoDup_cons_2; [|done]. intros Hin. rewrite bk_apart0 in Hb; done.
    + intros c' [->|Hin]%elem_of_cons; [apply lookup_delete_eq|].
      apply lookup_delete_None. right. by apply bk_apart0.
    + rewrite bk_clfree0, u32_add. f_equal. lia.
    + rewrite bk_clusters0, map_size_delete, Hb. cbn. f_equal.
      pose proof (map_size_ne_0_lookup_2 (mclbuf w) c (mk_is_Some _ _ Hb)). lia.
  - assert (refs c l <> 0) by (intros E0; by rewrite E0 in Ez).
    eexists. split; [done|]. split; [|split; [by split|by split]].
    destruct HB. split; cbn; try done.
    + by inversion bk_ok0.
    + intros c'. specialize (bk_few0 c'). rewrite Er in bk_few0. case_if; lia.
    + intros c'. rewrite bk_live0, Er. destruct (Z.eqb_spec c c') as [<-|Hc]; lia.
Qed.

Lemma m_freem_book ch l w : Book w (ch ++ l) ->
  exists w', m_freem ch w = Ok w' /\ Book w' l /\ narrows w w' /\ same_rest w w'.
Proof.
  revert w. induction ch as [|m ch IH]; intros w HB; cbn.
  - exists w. split; [done|]. split; [done|]. split; reflexivity.
  - destruct (MFREE_book w m (ch ++ l) HB) as (w1&->&H1&N1&S1). cbn.
    destruct (IH w1 H1) as (w2&->&H2&N2&S2). exists w2. split; [done|]. split; [done|].
    split; [by rewrite N1|by rewrite S1].
Qed.

Lemma MFREE_ok w m l : Ledger w (m :: l) ->
  exists w', MFREE m w = Ok w' /\ Ledger w' l /\ narrows w w' /\ same_rest w w'.
Proof.
  intros (w'&E&HB&HN&HS)%MFREE_book. exists w'. unfold Ledger. by rewrite (sr_ipq _ _ HS).
Qed.

Lemma m_freem_ok ch l w : Ledger w (ch ++ l) ->
  exists w', m_freem ch w = Ok w' /\ Ledger w' l /\ narrows w w' /\ same_rest w w'.
Proof.
  unfold Ledger at 1. rewrite <- app_assoc. intros (w'&E&HB&HN&HS)%m_freem_book. exists w'.
  unfold Ledger. by rewrite (sr_ipq _ _ HS).
Qed.

Lemma free_frags_book qs l w : Book w (concat qs ++ l) ->
  exists w', free_frags qs w = Ok w' /\ Book w' l /\ narrows w w' /\ same_rest w w'.
Proof.
  revert w. induction qs as [|q qs IH]; intros w HB; cbn in *.
  - exists w. split; [done|]. split; [done|]. split; reflexivity.
  - rewrite <- app_assoc in HB. destruct (m_freem_book q (concat qs ++ l) w HB) as (w1&->&H1&N1&S1). cbn.
    destruct (IH w1 H1) as (w2&->&H2&N2&S2). exists w2. split; [done|]. split; [done|].
    split; [by rewrite N1|by rewrite S1].
Qed.

(** m_reclaim: the reassembly queue is empty afterwards. *)
Record reclaimed (w w' : mworld) : Prop := {
  rc_grants : grants w' = grants w;
  rc_mc : MCFail w' = MCFail w;
  rc_mp : MPFail w' = MPFail w }.

Lemma Book_env w l w' : mclfree w' = mclfree w -> mclrefcnt w' = mclrefcnt w -> mclbuf w' = mclbuf w ->
  m_mtypes w' = m_mtypes w -> m_clusters w' = m_clusters w -> m_clfree w' = m_clfree w ->
  kmem_pages w' = kmem_pages w -> grants w' = grants w -> max_protohdr w' = max_protohdr w ->
  Book w l -> Book w' l.
Proof.
  intros E1 E2 E3 E4 E5 E6 E7 E8 E9 HB. destruct HB. split; unfold refcnt, mtypes; congruence || idtac.
  all: try rewrite E1; try rewrite E2; try rewrite E3; try rewrite E4; try rewrite E5; try rewrite E6;
    try rewrite E7; try rewrite E8; try rewrite E9; done.
Qed.

Lemma ip_drain_ok fps l w : ipq w = fps -> Ledger w l ->
  exists w', ip_drain fps w = Ok w' /\ Ledger w' l /\ narrows w w' /\ reclaimed w w' /\ ipq w' = [].
Proof.
  revert w. induction fps as [|[h qs] fps IH]; intros w Eq HB; cbn [ip_drain].
  - exists w. split; [done|]. split; [done|]. split; [reflexivity|]. by split.
  - set (wf := set_ips_fragdropped _ w).
    assert (Book wf (concat qs ++ h :: l ++ frags fps)) as HB'.
    { apply (Book_env w); try done. revert HB. unfold Ledger. rewrite Eq. cbn. fold (frags fps).
      apply Book_perm. rewrite <- !app_assoc. cbn.
      rewrite (Permutation_app_comm l (_ ++ _)), <- app_assoc. f_equiv. cbn. f_equiv. apply Permutation_app_comm. }
    unfold ip_freef. cbn [fst snd].
    destruct (free_frags_book qs _ wf HB') as (w1&->&H1&N1&S1). cbn [mbind outcome_bind].
    assert (Book (set_ipq (tail (ipq w1)) w1) (h :: l ++ frags fps)) as H1' by (by apply (Book_env w1)).
    destruct (MFREE_book _ h _ H1') as (w2&E2&H2&N2&S2). unfold m_free. rewrite E2. cbn [mbind outcome_bind].
    assert (ipq w2 = fps) as E3 by (rewrite (sr_ipq _ _ S2); cbn; rewrite (sr_ipq _ _ S1); cbn; by rewrite Eq).
    destruct (IH w2 E3) as (w3&->&H3&N3&R3&Q3); [unfold Ledger; by rewrite E3|].
    exists w3. split; [done|]. split; [done|]. split.
    + rewrite <- N3. destruct N1 as [A1 A2], N2 as [B1 B2]. cbn in *. split; [by etrans|congruence].
    + split; [|done]. destruct R3, S1, S2. cbn in *. split; congruence.
Qed.

Lemma m_reclaim_ok l w : Ledger w l ->
  exists w', m_reclaim w = Ok w' /\ Ledger w' l /\ narrows w w' /\ reclaimed w w' /\ ipq w' = [].
Proof.
  intros HB. unfold m_reclaim. destruct (ip_drain_ok (ipq w) l w eq_refl HB) as (w1&->&H1&N1&R1&Q1).
  cbn. eexists. split; [done|]. split; [by apply (Book_env w1)|]. destruct N1, R1. by repeat split.
Qed.

(** ** Getting mbufs *)

(** malloc has an answer for the next [n] requests. *)
Definition enough (n : nat) (w : mworld) : Prop :=
  (n <= length (grants w))%nat /\ Forall is_Some (take n (grants w)).

Record fresh (hdr : bool) (t : Z) (m : mbuf) : Prop := {
  fs_type : m_type m = t;
  fs_flags : m_flags m = if hdr then M_PKTHDR else 0;
  fs_off : m_off m = if hdr then PKTDAT else 0;
  fs_dat : Z.of_nat (length (m_dat m)) = MLEN }.

(** What an allocation gives: the new mbuf may be put on the books once its
    length is set. *)
Record gotten (hdr : bool) (t : Z) (l : list mbuf) (w : mworld) (o : option mbuf) (w' : mworld) : Prop := {
  gt_mbuf : match o with
    | Some m => fresh hdr t m /\
        (forall m', m_type m' = t -> is_ext m' = false -> mbuf_ok m' -> Ledger w' (m' :: l))
    | None => Ledger w' l
    end;
  gt_narrows : narrows w w';
  gt_ipq : ipq w' = ipq w \/ ipq w' = [];
  gt_mc : MCFail w' = MCFail w;
  gt_mp : MPFail w' = MPFail w;
  gt_enough : forall n, enough (S n) w -> is_Some o /\ enough n w' }.

Lemma mget_once_ok hdr t l w : Ledger w l ->
  gotten hdr t l w (mget_once hdr t w).1 (mget_once hdr t w).2.
Proof.
  intros HB. unfold mget_once. destruct (grants w) as [|o g] eqn:Eg.
  { cbn. split; try done. - by apply (Book_env w). - by left. - intros n [Hn _]. rewrite Eg in Hn. cbn in Hn. lia. }
  assert (forall n, enough (S n) w -> is_Some o /\ enough n (set_grants g w)) as He.
  { intros n [Hn Hf]. rewrite Eg in Hn, Hf. cbn in Hn, Hf. inversion Hf; subst. repeat split; cbn; auto; lia. }
  destruct o as [m|]; cbn.
  2:{ split; try done; [|by left]. unfold Ledger in *. destruct HB. split; try done. cbn. intros m Hm. apply bk_grants0.
      rewrite Eg. by right. }
  split; try done; [|by left|].
  2:{ intros n [_ Hn]%He. split; [by eexists|done]. }
  split.
  - split; cbn; try done. apply (bk_grants _ _ HB). rewrite Eg. by left.
  - intros m' Ht Hx Hm'. unfold Ledger in *. destruct HB. cbn [ipq count_type set_m_mtypes set_grants].
    assert (forall c, refs c ((m' :: l) ++ frags (ipq w)) = refs c (l ++ frags (ipq w))) as Er.
    { intros c. cbn. unfold ref1. by rewrite Hx. }
    split; try setoid_rewrite Er; try done.
    + by constructor.
    + intros t'. rewrite mtypes_count. change (mtypes (set_grants g w)) with (mtypes w). rewrite !bk_types0.
      cbn [app]. rewrite total_cons. unfold typ1 at 3. rewrite Ht. destruct (Z.eqb_spec t t') as [<-|]; [|done].
      rewrite u16_add. f_equal. lia.
    + cbn. intros m'' Hm. apply bk_grants0. rewrite Eg. by right.
Qed.

Lemma enough_env n w w' : grants w' = grants w -> enough n w -> enough n w'.
Proof. unfold enough. by intros ->. Qed.

Lemma mget_ok hdr t l w (retry : mworld -> outcome (option mbuf * mworld)) :
  (forall w, retry w = (w ← m_reclaim w; mret (mget_once hdr t w))) -> Ledger w l ->
  exists o w', match mget_once hdr t w with
    | (Some m, w) => mret (Some m, w)
    | (None, w) => retry w
    end = Ok (o, w') /\ gotten hdr t l w o w'.
Proof.
  intros Er HB. pose proof (mget_once_ok hdr t l w HB) as HG.
  destruct (mget_once hdr t w) as [[m|] w1]; cbn in HG; [by eauto|]. rewrite Er. cbn.
  destruct HG as [G1 G2 _ G3 G4 G5].
  destruct (m_reclaim_ok l w1 G1) as (w2&->&H2&N2&[R1 R2 R3]&Q2). cbn.
  pose proof (mget_once_ok hdr t l w2 H2) as [K1 K2 Q3 K3 K4 K5].
  destruct (mget_once hdr t w2) as [o w3]. cbn in *. exists o, w3. split; [done|].
  split; try done; try congruence.
  - by rewrite G2, N2.
  - right. destruct Q3; congruence.
  - intros n Hn. destruct (G5 n Hn) as [[? [=]] _].
Qed.

Lemma MGET_ok t l w : Ledger w l -> exists o w', MGET t w = Ok (o, w') /\ gotten false t l w o w'.
Proof. by apply mget_ok. Qed.
Lemma MGETHDR_ok t l w : Ledger w l -> exists o w', MGETHDR t w = Ok (o, w') /\ gotten true t l w o w'.
Proof. by apply mget_ok. Qed.

Lemma fresh_ok hdr t m len : fresh hdr t m -> 0 <= len <= (if hdr then MHLEN else MLEN) ->
  is_ext (set_m_len len m) = false /\ is_pkt m = hdr /\ mbuf_ok (set_m_len len m).
Proof.
  intros [F1 F2 F3 F4] Hl. unfold is_ext, is_pkt. cbn. rewrite F2.
  split; [by destruct hdr|]. split; [by destruct hdr|]. split; cbn; try done; [lia| |].
  - unfold is_ext. cbn. rewrite F2. by destruct hdr.
  - intros _. unfold m_base, is_pkt. cbn. rewrite F2, F3. unfold MLEN, MHLEN, PKTDAT in *.
    destruct hdr; [change (has M_PKTHDR M_PKTHDR) with true|change (has 0 M_PKTHDR) with false]; lia.
Qed.

Lemma gotten_ledger hdr t l w m w' : gotten hdr t l w (Some m) w' -> Ledger w' (set_m_len 0 m :: l).
Proof.
  intros [[HF Hg] _ _ _ _ _]. destruct (fresh_ok hdr t m 0 HF) as (?&_&?); [unfold MHLEN, MLEN; destruct hdr; lia|].
  apply Hg; [apply HF|done|done].
Qed.

(** ** Changing an mbuf in place *)

(** The same cluster, if any, and the same type. *)
Record same_res (m m' : mbuf) : Prop := {
  rs_type : m_type m' = m_type m;
  rs_ext : is_ext m' = is_ext m;
  rs_buf : is_ext m = true -> ext_buf m' = ext_buf m }.

Lemma Book_swap w m m' l : same_res m m' -> mbuf_ok m' -> Book w (m :: l) -> Book w (m' :: l).
Proof.
  intros [Et Ex Eb] Hm HB.
  assert (forall c, refs c (m' :: l) = refs c (m :: l)) as Er.
  { intros c. cbn. f_equal. unfold ref1. rewrite Ex. destruct (is_ext m); [|done]. by rewrite Eb. }
  destruct HB. split; try setoid_rewrite Er; try done.
  - inversion bk_ok0; subst. by constructor.
  - intros t. rewrite bk_types0, !total_cons. unfold typ1 at 1 3. by rewrite Et.
Qed.

Lemma Ledger_swap w m m' l : same_res m m' -> mbuf_ok m' -> Ledger w (m :: l) -> Ledger w (m' :: l).
Proof. apply Book_swap. Qed.

Lemma Ledger_ok w m l : Ledger w (m :: l) -> mbuf_ok m.
Proof. intros HB. apply (Book_in w _ m HB). by left. Qed.

(** A second mbuf that refers to a cluster in use. *)
Lemma Book_share w m n n' l : Book w (n :: l) -> is_ext n = false -> m ∈ l -> is_ext m = true ->
  is_ext n' = true -> ext_buf n' = ext_buf m -> m_type n' = m_type n -> mbuf_ok n' -> refs (ext_buf m) l < 256 ->
  Book (set_refcnt (ext_buf m) (refcnt w (ext_buf m) + 1) w) (n' :: l).
Proof.
  intros HB Hx Hm Hxm Hx' Eb Et Hok Hr.
  assert (forall c, refs c (n' :: l) = (if ext_buf m =? c then 1 else 0) + refs c (n :: l)) as Er.
  { intros c. cbn. unfold ref1. by rewrite Hx, Hx', Eb. }
  assert (forall c, refs c (n :: l) = refs c l) as En by (intros c; cbn; unfold ref1; by rewrite Hx).
  assert (0 < refs (ext_buf m) l) as Hp.
  { pose proof (refs_elem (ext_buf m) m l Hm) as H. unfold ref1 in H. rewrite Hxm, Z.eqb_refl in H. cbn in H. lia. }
  assert (forall t, total (typ1 t) (n' :: l) = total (typ1 t) (n :: l)) as Ety.
  { intros t. rewrite !total_cons. unfold typ1 at 1 3. by rewrite Et. }
  destruct HB. split; try setoid_rewrite Er; try setoid_rewrite Ety; try done.
  - inversion bk_ok0; subst. by constructor.
  - intros c. rewrite refcnt_set, !bk_ref0. destruct (Z.eqb_spec (ext_buf m) c) as [<-|]; [|done].
    rewrite s8_add. f_equal. apply Z.add_comm.
  - intros c. destruct (Z.eqb_spec (ext_buf m) c) as [<-|]; [rewrite En; lia|apply bk_few0].
  - intros c. change (mclbuf _) with (mclbuf w). rewrite bk_live0, En. destruct (Z.eqb_spec (ext_buf m) c) as [<-|]; lia.
Qed.

Lemma has_flag_pow f k : 0 <= k -> has f (2 ^ k) = Z.testbit f k.
Proof.
  intros Hk. unfold has. destruct (Z.land f (2 ^ k) =? 0) eqn:E; cbn; bool_prop.
  - symmetry. assert (Z.testbit (Z.land f (2 ^ k)) k = false) as Hb by (by rewrite E, Z.bits_0).
    rewrite Z.land_spec, Z.pow2_bits_true in Hb by done. by rewrite andb_true_r in Hb.
  - destruct (Z.testbit f k) eqn:Eb; [done|]. exfalso. apply E. apply Z.bits_inj'. intros i Hi.
    rewrite Z.land_spec, Z.bits_0, Z.pow2_bits_eqb by done. destruct (Z.eqb_spec k i) as [<-|]; [by rewrite Eb|].
    apply andb_false_r.
Qed.

Lemma is_ext_bit m : is_ext m = Z.testbit (m_flags m) 0.
Proof. apply (has_flag_pow _ 0). lia. Qed.
Lemma is_pkt_bit m : is_pkt m = Z.testbit (m_flags m) 1.
Proof. apply (has_flag_pow _ 1). lia. Qed.

(** *** Reading and writing the data *)

Lemma peek_ok w l m off len : Book w l -> m ∈ l -> 0 <= off -> 0 <= len -> off + len <= m_len m ->
  peek w m off len = Ok (take (Z.to_nat len) (drop (Z.to_nat off) (mdata w m))).
Proof.
  intros HB Hm Ho Hl Hle. destruct (area_ok w l m HB Hm) as (n&Hn&EA&Hb&Hoff&_&Hfit).
  unfold peek. destruct (len =? 0) eqn:E0; bool_prop; [by subst|]. rewrite EA. cbn.
  rewrite !(proj2 (Z.leb_le _ _)) by lia. cbn. f_equal. unfold mdata.
  rewrite skipn_firstn_comm, take_take, drop_drop. f_equal; [lia|]. f_equal. lia.
Qed.

(** All of an mbuf. *)
Lemma peek_all w l m : Book w l -> m ∈ l -> peek w m 0 (m_len m) = Ok (mdata w m).
Proof.
  intros HB Hm. destruct (Book_in w l m HB Hm) as ([_ Hl _ _]&_).
  rewrite (peek_ok w l) by (done || lia). cbn. f_equal. apply take_ge.
  pose proof (mdata_len w l m HB Hm). lia.
Qed.

Lemma poke_ok w m off bs : is_ext m = false -> Z.of_nat (length (m_dat m)) = MLEN ->
  m_base m <= m_off m + off -> m_off m + off + Z.of_nat (length bs) <= MLEN ->
  poke m off bs w = Ok (set_m_dat (splice (m_dat m) (m_off m + off) bs) m, w).
Proof.
  intros Hx Hd Hb Hle. unfold poke, m_area. rewrite Hx. destruct (decide (bs = [])) as [->|Hn].
  - unfold splice. cbn [length app]. rewrite Nat.add_0_r, take_drop. by destruct m.
  - cbn [mbind outcome_bind]. by rewrite !(proj2 (Z.leb_le _ _)) by lia.
Qed.

Lemma splice_app a o bs : 0 <= o -> o <= Z.of_nat (length a) ->
  take (Z.to_nat o + length bs) (splice a o bs) = take (Z.to_nat o) a ++ bs.
Proof.
  intros. unfold splice. rewrite app_assoc. apply take_app_length'.
  rewrite length_app, length_take. lia.
Qed.

(** Writing behind the data. *)
Definition m_put (m : mbuf) (bs : list Z) : mbuf :=
  set_m_len (m_len m + Z.of_nat (length bs)) (set_m_dat (splice (m_dat m) (m_off m + m_len m) bs) m).

Lemma m_put_ok m bs : mbuf_ok m -> is_ext m = false ->
  m_off m + m_len m + Z.of_nat (length bs) <= MLEN -> mbuf_ok (m_put m bs) /\ same_res m (m_put m bs).
Proof.
  intros [Hd Hl He Hi] Hx Hle. destruct (Hi Hx) as (Hb&_).
  assert (0 <= m_base m) by (unfold m_base, PKTDAT; case_match; lia).
  split; [|by split]. split; cbn.
  - rewrite splice_len; lia.
  - lia.
  - unfold is_ext in *. cbn. by rewrite Hx.
  - intros _. unfold m_base, is_pkt in *. cbn. lia.
Qed.

Lemma take_drop_take {A} (n k : nat) (l : list A) : take n (drop k l) = drop k (take (k + n) l).
Proof. rewrite skipn_firstn_comm. f_equal. lia. Qed.

Lemma mdata_put w m bs : mbuf_ok m -> is_ext m = false ->
  m_off m + m_len m + Z.of_nat (length bs) <= MLEN -> mdata w (m_put m bs) = mdata w m ++ bs.
Proof.
  intros [Hd Hl He Hi] Hx Hle. destruct (Hi Hx) as (Hb&_).
  assert (0 <= m_base m) by (unfold m_base, PKTDAT; case_match; lia).
  unfold mdata, area. unfold is_ext in *. cbn. rewrite Hx. rewrite !take_drop_take.
  replace (Z.to_nat (m_off m) + Z.to_nat (m_len m + Z.of_nat (length bs)))%nat
    with (Z.to_nat (m_off m + m_len m) + length bs)%nat by lia.
  rewrite splice_app by lia. rewrite <- Z2Nat.inj_add by lia.
  rewrite drop_app_le; [done|]. rewrite length_take. lia.
Qed.

Lemma poke_put w m bs : mbuf_ok m -> is_ext m = false ->
  m_off m + m_len m + Z.of_nat (length bs) <= MLEN ->
  exists m', poke m (m_len m) bs w = Ok (m', w) /\ set_m_len (m_len m' + Z.of_nat (length bs)) m' = m_put m bs /\
    m_len m' = m_len m.
Proof.
  intros [Hd Hl He Hi] Hx Hle. destruct (Hi Hx) as (Hb&_).
  rewrite (poke_ok w m) by (done || lia). eexists. split; [done|]. by split.
Qed.

(** Taking chars off the ends. *)
Definition m_trim (off len : Z) (m : mbuf) : mbuf := set_m_off (m_off m + off) (set_m_len len m).

Lemma m_trim_ok off len m : mbuf_ok m -> 0 <= off -> 0 <= len -> off + len <= m_len m ->
  mbuf_ok (m_trim off len m) /\ same_res m (m_trim off len m).
Proof.
  intros [Hd Hl He Hi] Ho Hn Hle. split; [|by split]. split; cbn; try done.
  - intros Hx. destruct (He Hx) as (?&?&?). split; [done|]. lia.
  - intros Hx. destruct (Hi Hx) as (?&?). unfold m_base, is_pkt in *. cbn. lia.
Qed.

Lemma mdata_trim w off len m : mbuf_ok m -> 0 <= off -> 0 <= len -> off + len <= m_len m ->
  mdata w (m_trim off len m) = take (Z.to_nat len) (drop (Z.to_nat off) (mdata w m)).
Proof.
  intros [Hd Hl He Hi] Ho Hn Hle. unfold mdata, m_trim, area, is_ext in *. cbn.
  assert (0 <= m_off m).
  { destruct (has (m_flags m) M_EXT) eqn:Hx; [by apply He|]. destruct (Hi eq_refl) as (Hb&_).
    revert Hb. unfold m_base, PKTDAT. case_match; lia. }
  rewrite skipn_firstn_comm, take_take, drop_drop. f_equal; [lia|]. f_equal. lia.
Qed.

(** Writing into a cluster that is in use. *)
Lemma Book_write w l c b b' : Book w l -> mclbuf w !! c = Some b -> length b' = length b ->
  Book (set_mclbuf (<[c := b']> (mclbuf w)) w) l.
Proof.
  intros HB Hc Hl.
  assert (forall k, is_Some (<[c := b']> (mclbuf w) !! k) <-> is_Some (mclbuf w !! k)) as Hd.
  { intros k. destruct (decide (k = c)) as [->|]; [rewrite lookup_insert_eq, Hc; by split; eauto|by rewrite lookup_insert_ne]. }
  destruct HB. split; cbn [mclbuf set_mclbuf]; try done.
  - intros k. rewrite Hd. apply bk_live0.
  - intros k d. destruct (decide (k = c)) as [->|]; [rewrite lookup_insert_eq; intros [= <-]; rewrite Hl; by apply (bk_size0 c)|].
    rewrite lookup_insert_ne by done. apply bk_size0.
  - intros k Hk. apply bk_apart0 in Hk. destruct (<[c := b']> (mclbuf w) !! k) eqn:E; [|done].
    assert (is_Some (mclbuf w !! k)) as [? E2] by (apply Hd; by eexists). congruence.
  - cbn [m_clusters mclfree set_mclbuf]. rewrite bk_clusters0, map_size_insert_Some by (by eexists). done.
Qed.

(** ** Getting clusters *)

Lemma m_clalloc_ok w l : Ledger w l ->
  Ledger (m_clalloc 1 w).2 l /\ mclbuf (m_clalloc 1 w).2 = mclbuf w /\ max_protohdr (m_clalloc 1 w).2 = max_protohdr w.
Proof.
  intros HB. unfold m_clalloc. destruct (kmem_pages w) as [|o pages] eqn:Ep.
  { cbn. split; [|by case_decide]. case_decide; by apply (Book_env w). }
  destruct o as [[c p]|]; cbn [head tail].
  2:{ cbn. split; [|by case_decide].
      assert (Ledger (set_kmem_pages pages w) l) as HL.
      { unfold Ledger in *. destruct HB. rewrite Ep in *. split; try done. intros c p Hc. apply (bk_pages0 c). by right. }
      case_decide; [done|]. by apply (Book_env (set_kmem_pages pages w)). }
  change (Z.to_nat (1 * CLBYTES / MCLBYTES)) with 2%nat. cbn [cl_push snd]. split; [|done]. unfold Ledger in *. cbn [ipq mcl_put set_mclfree set_m_clfree set_m_clusters set_kmem_pages].
  destruct HB. rewrite Ep in *. cbn in bk_nodup0, bk_apart0.
  assert (Z.of_nat (length p) = CLBYTES) as Hp by (apply (bk_pages0 c); by left).
  split; try done; cbn.
  - intros c' b [[= -> ->]|[[= -> ->]|Hb]%elem_of_cons]%elem_of_cons; [| |by apply (bk_fsize0 c')].
    + rewrite splice_len; unfold CLBYTES, MCLBYTES in *; cbn; rewrite ?length_take, ?length_drop; lia.
    + rewrite splice_len; unfold CLBYTES, MCLBYTES in *; cbn; rewrite ?length_take; lia.
  - revert bk_nodup0. rewrite <- !Permutation_middle. by rewrite Permutation_swap.
  - intros c' Hc. apply bk_apart0. revert Hc. rewrite !elem_of_app, !elem_of_cons, elem_of_app. tauto.
  - rewrite bk_clfree0, u32_add, <- Z.add_assoc, u32_add. f_equal. lia.
  - rewrite bk_clusters0, u32_add. change (1 * CLBYTES / MCLBYTES) with 2. f_equal. lia.
  - intros c' p' Hc. apply (bk_pages0 c'). by right.
Qed.

(** A cluster for an mbuf that has none.  What is in use stays as it is. *)
Lemma MCLGET_ok m l w : Ledger w (m :: l) -> is_ext m = false ->
  exists m' w', MCLGET m w = (m', w') /\ Ledger w' (m' :: l) /\ mclbuf w ⊆ mclbuf w' /\
    m_len m' = m_len m /\ is_pkt m' = is_pkt m /\ pkt_len m' = pkt_len m /\ max_protohdr w' = max_protohdr w /\
    (is_ext m' = true -> m_off m' = 0).
Proof.
  intros HB Hx. unfold MCLGET, MCLALLOC.
  set (w1 := match mclfree w with [] => _ | _ => w end).
  assert (Ledger w1 (m :: l) /\ mclbuf w1 = mclbuf w /\ max_protohdr w1 = max_protohdr w) as (HL&Em&Epr).
  { subst w1. destruct (mclfree w); [by apply m_clalloc_ok|done]. }
  clearbody w1. destruct (mclfree w1) as [|[c b] fl] eqn:Ef; cbn.
  - eexists _, _. split; [done|]. split; [|rewrite Em; split_and!; try done; intros E; change (is_ext m = true) in E; congruence].
    eapply Ledger_swap; [| |exact HL]; [by split|].
    destruct (Ledger_ok _ _ _ HL). split; try done. cbn. rewrite splice_len; unfold PKTDAT, MLEN in *; cbn; lia.
  - eexists _, _. split; [done|]. split; [|split; [|rewrite <- Epr; split; [done|]]].
    2:{ cbn. rewrite <- Em. apply insert_subseteq. destruct HL. apply bk_apart0. rewrite Ef. by left. }
    2:{ split; [|done]. rewrite !is_pkt_bit. cbn [m_flags set_ext_size set_m_flags set_m_off set_ext_buf]. rewrite Z.lor_spec. change (Z.testbit M_EXT 1) with false. by rewrite orb_false_r. }
    pose proof (Ledger_ok _ _ _ HL) as Hm. unfold Ledger in *. cbn [ipq set_mclbuf set_mclfree set_m_clfree set_refcnt set_mclrefcnt].
    destruct HL. set (m' := set_ext_size _ _).
    assert (is_ext m' = true) as Hx' by (rewrite is_ext_bit; unfold m'; cbn [m_flags set_ext_size set_m_flags set_m_off set_ext_buf]; rewrite Z.lor_spec; apply orb_true_r).
    assert (mclbuf w1 !! c = None) as Hc by (apply bk_apart0; rewrite Ef; by left).
    assert (refs c ((m :: l) ++ frags (ipq w1)) = 0) as Hz.
    { pose proof (refs_nonneg c ((m :: l) ++ frags (ipq w1))). destruct (decide (0 < refs c ((m :: l) ++ frags (ipq w1)))) as [Hp|]; [|lia].
      apply bk_live0 in Hp. rewrite Hc in Hp. by destruct Hp. }
    assert (forall c', refs c' ((m' :: l) ++ frags (ipq w1)) = (if c =? c' then 1 else 0) + refs c' ((m :: l) ++ frags (ipq w1))) as Er.
    { intros c'. cbn. unfold ref1. rewrite Hx, Hx'. done. }
    rewrite Ef in *. cbn in bk_nodup0. apply list.NoDup_cons in bk_nodup0 as (Hni&Hnd).
    assert (Z.of_nat (length b) = MCLBYTES) as Hb by (apply (bk_fsize0 c); by left).
    assert (Forall mbuf_ok (l ++ frags (ipq w1))) as Hrest by (by inversion bk_ok0).
    set (L := (m :: l) ++ frags (ipq w1)) in *.
    assert (forall t, total (typ1 t) ((m' :: l) ++ frags (ipq w1)) = total (typ1 t) L) as Et by done.
    clearbody L.
    split; try setoid_rewrite Er; try setoid_rewrite Et; try done; cbn [mclfree mclbuf m_clfree m_clusters set_mclbuf set_mclfree set_m_clfree set_refcnt set_mclrefcnt].
    + constructor; [|done]. destruct Hm as [M1 M2 M3 M4]. destruct (M4 Hx).
      split; cbn; try done. 2:{ intros E. unfold is_ext in Hx'. cbn in Hx'. unfold is_ext in E. cbn in E. congruence. }
      intros _. unfold MLEN, MCLBYTES in *. assert (0 <= m_base m) by (unfold m_base, PKTDAT; case_match; lia). lia.
    + intros c'. etrans; [apply (refcnt_set c (refcnt w1 c + 1) w1 c')|]. rewrite !bk_ref0.
      destruct (Z.eqb_spec c c') as [<-|]; [|done]. rewrite s8_add. f_equal. apply Z.add_comm.
    + intros c'. destruct (Z.eqb_spec c c') as [<-|]; [rewrite Hz; lia|]. apply bk_few0.
    + intros c'. destruct (Z.eqb_spec c c') as [<-|].
      * rewrite lookup_insert_eq, Hz. split; [lia|by eauto].
      * rewrite lookup_insert_ne, bk_live0 by done. done.
    + intros c' b'. destruct (decide (c = c')) as [<-|].
      * rewrite lookup_insert_eq. by intros [= <-].
      * rewrite lookup_insert_ne by done. apply bk_size0.
    + intros c' b' Hin. apply (bk_fsize0 c'). by right.
    + intros c' Hin. rewrite lookup_insert_ne; [apply bk_apart0; by right|]. by intros <-.
    + rewrite bk_clfree0, <- (Z.add_opp_r (u32 _)), u32_add. f_equal. cbn. lia.
    + rewrite bk_clusters0, map_size_insert_None by done. cbn. f_equal. lia.
Qed.
