(* ===== verification/MbufOps.v ===== *)
(** * The routines on chains of mbufs

    m_prepend, m_copym, m_copydata, m_cat, m_adj and m_pullup: each keeps the
    ledger, and does to the data of the chain what its comment says. *)

From S2P Require Import Prelude Mbuf MbufBook.

(** The same mbufs in another order. *)
Ltac by_ledger H := refine (proj1 (Ledger_perm _ _ _ _) H); cbn [app]; rewrite ?app_assoc; solve_Permutation.

Lemma Ledger_chain w w' m ch l : Ledger w' (m :: ch ++ l) -> narrows w w' ->
  mdata w' m = mdata w m /\ cdata w' ch = cdata w ch.
Proof.
  unfold Ledger. intros HB HN. split; [apply (mdata_narrow _ _ _ _ HB); [by left|done]|].
  apply (cdata_narrow _ _ (m :: l ++ frags (ipq w'))); [|done]. revert HB. apply Book_perm.
  cbn [app]. rewrite ?app_assoc. solve_Permutation.
Qed.

Lemma Ledger_data w w' ch l : Ledger w' (ch ++ l) -> narrows w w' -> cdata w' ch = cdata w ch.
Proof. unfold Ledger. rewrite <- app_assoc. apply cdata_narrow. Qed.

Lemma Ledger_mdata w m l : Ledger w (m :: l) -> Z.of_nat (length (mdata w m)) = m_len m.
Proof. intros HB. apply (mdata_len _ _ _ HB). by left. Qed.

Lemma Ledger_cdata w ch l : Ledger w (ch ++ l) -> Z.of_nat (length (cdata w ch)) = clen ch.
Proof. unfold Ledger. rewrite <- app_assoc. apply cdata_len. Qed.

Lemma Ledger_peek w m l : Ledger w (m :: l) -> peek w m 0 (m_len m) = Ok (mdata w m).
Proof. intros HB. apply (peek_all _ _ _ HB). by left. Qed.

Lemma m_base_range m : 0 <= m_base m <= 8.
Proof. unfold m_base, PKTDAT. destruct (is_pkt m); lia. Qed.

(** ** m_cat *)

Lemma m_cat_loop_ok n m l w : Ledger w (m :: n ++ l) ->
  exists ch w', m_cat_loop m n w = Ok (ch, w') /\ Ledger w' (ch ++ l) /\ narrows w w' /\
    cdata w' ch = mdata w m ++ cdata w n /\ exists m' r, ch = m' :: r /\ m_flags m' = m_flags m /\ pkt_len m' = pkt_len m.
Proof.
  revert m w. induction n as [|x n IH]; intros m w HB; cbn [m_cat_loop].
  - eexists _, _. split; [done|]. split; [done|]. split; [reflexivity|]. split; [done|]. by exists m, [].
  - destruct (is_ext m || (MLEN <=? m_off m + m_len m + m_len x)) eqn:Ej.
    { eexists _, _. split; [done|]. split; [by_ledger HB|]. split; [reflexivity|]. split; [done|]. by exists m, (x :: n). }
    bool_prop. assert (Ledger w (x :: m :: n ++ l)) as Hx by by_ledger HB.
    rewrite (Ledger_peek _ _ _ Hx). cbn [mbind outcome_bind].
    pose proof (Ledger_ok _ _ _ HB) as Hm. pose proof (Ledger_mdata _ _ _ Hx) as Hlx.
    destruct (poke_put w m (mdata w x) Hm) as (m1&->&Em1&El1); [done|lia|]. cbn [mbind outcome_bind].
    rewrite <- Hlx, Em1. set (m' := m_put m (mdata w x)).
    destruct (m_put_ok m (mdata w x) Hm) as (Hok&Hres); [done|lia|].
    assert (Ledger w (x :: m' :: n ++ l)) as Hx'.
    { pose proof (Ledger_swap _ _ _ _ Hres Hok HB) as H2. by_ledger H2. }
    destruct (MFREE_ok _ _ _ Hx') as (w1&E1&H1&N1&S1). unfold m_free. rewrite E1. cbn [mbind outcome_bind].
    destruct (IH m' w1 H1) as (ch&w2&->&H2&N2&D2&(m2&r&Ech&F2&P2)).
    eexists _, _. split; [done|]. split; [done|]. split; [by rewrite N1|]. split; [|by exists m2, r].
    destruct (Ledger_chain _ _ _ _ _ H1 N1) as (Dm&Dn). rewrite D2, Dm, Dn. unfold m'.
    rewrite (mdata_put w m) by (done || lia). by rewrite <- app_assoc.
Qed.

Lemma m_cat_ok m ch n l w : Ledger w (m :: ch ++ n ++ l) ->
  exists ch' w', m_cat (m :: ch) n w = Ok (ch', w') /\ Ledger w' (ch' ++ l) /\ narrows w w' /\
    cdata w' ch' = cdata w (m :: ch ++ n) /\
    exists m' r, ch' = m' :: r /\ m_flags m' = m_flags m /\ pkt_len m' = pkt_len m.
Proof.
  revert m l w. induction ch as [|m2 ch IH]; intros m l w HB; [by apply m_cat_loop_ok|].
  assert (Ledger w (m2 :: ch ++ n ++ m :: l)) as H2 by by_ledger HB.
  destruct (IH m2 (m :: l) w H2) as (ch'&w'&E&H'&N&D&_).
  change (m_cat (m :: m2 :: ch) n w) with ('(rest, w) ← m_cat (m2 :: ch) n w; mret (m :: rest, w)).
  rewrite E. cbn [mbind outcome_bind]. assert (Ledger w' (m :: ch' ++ l)) as H'' by by_ledger H'.
  eexists _, _. split; [done|]. split; [done|]. split; [done|]. split; [|by exists m, ch'].
  rewrite cdata_cons, D. by destruct (Ledger_chain _ _ _ _ _ H'' N) as (->&_).
Qed.

(** ** m_copydata *)

Lemma clen_nonneg ch : Forall mbuf_ok ch -> 0 <= clen ch.
Proof. induction 1 as [|m ch Hm _ IH]; cbn; [done|]. pose proof (ok_len _ Hm). unfold clen in *. lia. Qed.

Lemma m_seek_ok who ch off : 0 <= off -> Forall mbuf_ok ch ->
  (off <= clen ch /\ exists k r o, m_seek who ch off = Ok (r, o) /\ ch = k ++ r /\ clen k + o = off /\ 0 <= o /\
     match r with [] => o = 0 | m :: _ => o = 0 \/ o < m_len m end) \/
  (clen ch < off /\ m_seek who ch off = Panic who).
Proof.
  intros Ho Hf. revert off Ho. induction Hf as [|m ch Hm Hf IH]; intros off Ho; cbn [m_seek clen total].
  - destruct (0 <? off) eqn:E; bool_prop; [right; by split|]. assert (off = 0) as -> by lia.
    left. split; [lia|]. by exists [], [], 0.
  - destruct (0 <? off) eqn:E; bool_prop.
    2:{ assert (off = 0) as -> by lia. pose proof (ok_len _ Hm).
        pose proof (clen_nonneg ch Hf).
        left. split; [unfold clen in *; lia|]. exists [], (m :: ch), 0. repeat split; [lia|by left]. }
    destruct (off <? m_len m) eqn:E2; bool_prop.
    + pose proof (clen_nonneg ch Hf).
      left. split; [unfold clen in *; lia|]. exists [], (m :: ch), off. split_and!; [done|done|done|lia|by right].
    + destruct (IH (off - m_len m)) as [(Hle&k&r&o&Er&->&Ek&Ho'&Hm')|(Hlt&Er)]; [lia| |].
      * left. split; [unfold clen in *; lia|]. exists (m :: k), r, o. rewrite Er. repeat split; try done.
        cbn. unfold clen in *. lia.
      * right. split; [unfold clen in *; lia|done].
Qed.

Lemma Ledger_Forall w ch l : Ledger w (ch ++ l) -> Forall mbuf_ok ch.
Proof. intros HB. pose proof (bk_ok _ _ HB) as H. rewrite <- app_assoc in H. by apply list.Forall_app in H as [? _]. Qed.

(** Reading [len] chars from [o] in a chain is reading them in its first mbuf
    and then in the rest. *)
Lemma slice_app {A} (o len : nat) (x y : list A) : (o <= length x)%nat ->
  take len (drop o (x ++ y)) = take (Nat.min (length x - o) len) (drop o x) ++ take (len - Nat.min (length x - o) len) y.
Proof.
  intros Ho. rewrite drop_app_le, take_app, length_drop by done. f_equal.
  - destruct (decide (len <= length x - o)%nat); [f_equal; lia|].
    rewrite !take_ge; rewrite ?length_drop; [done|lia..].
  - f_equal. lia.
Qed.

Lemma m_copydata_loop_ok ch l w o len : Ledger w (ch ++ l) -> 0 <= o -> 0 <= len ->
  match ch with [] => o = 0 | m :: _ => o = 0 \/ o < m_len m end ->
  m_copydata_loop ch o len w =
    if o + len <=? clen ch then Ok (take (Z.to_nat len) (drop (Z.to_nat o) (cdata w ch))) else Panic "m_copydata".
Proof.
  revert o len l. induction ch as [|m ch IH]; intros o len l HB Ho Hl Hm; cbn [m_copydata_loop].
  - subst. cbn [clen total]. destruct (0 <? len) eqn:E, (0 + len <=? 0) eqn:E2; bool_prop; try lia; [done|].
    assert (len = 0) as -> by lia. done.
  - pose proof (Ledger_ok _ _ _ HB) as [_ Hlm _ _]. pose proof (clen_nonneg ch) as Hc.
    assert (Ledger w (ch ++ m :: l)) as HB' by by_ledger HB.
    specialize (Hc (Ledger_Forall _ _ _ HB')). change (clen (m :: ch)) with (m_len m + clen ch).
    destruct (0 <? len) eqn:E; bool_prop.
    2:{ assert (len = 0) as -> by lia. rewrite (proj2 (Z.leb_le _ _)) by lia. done. }
    pose proof (Ledger_mdata _ _ _ HB) as Hd.
    rewrite (peek_ok w ((m :: ch ++ l) ++ frags (ipq w))) by (try exact HB; try (by left); lia). cbn [mbind outcome_bind].
    rewrite (IH 0 _ (m :: l)) by (done || lia || by destruct ch; [|left]).
    replace (o + len <=? m_len m + clen ch) with (0 + (len - Z.min (m_len m - o) len) <=? clen ch) by lia.
    case_if; cbn [mbind outcome_bind]; [|done]. unfold mret, outcome_ret. f_equal.
    rewrite cdata_cons, slice_app by lia. rewrite drop_0. f_equal; f_equal; lia.
Qed.

Lemma m_copydata_ok ch l w off len : Ledger w (ch ++ l) -> 
  m_copydata ch off len w =
    if (0 <=? off) && (0 <=? len) && (off + len <=? clen ch)
    then Ok (take (Z.to_nat len) (drop (Z.to_nat off) (cdata w ch))) else Panic "m_copydata".
Proof.
  intros HB. unfold m_copydata.
  destruct (off <? 0) eqn:E1; bool_prop; [by rewrite (proj2 (Z.leb_gt 0 off))|].
  destruct (len <? 0) eqn:E2; bool_prop; [by rewrite (proj2 (Z.leb_gt 0 len)), andb_false_r|].
  rewrite !(proj2 (Z.leb_le 0 _)) by done. cbn [orb andb].
  destruct (m_seek_ok "m_copydata" ch off E1 (Ledger_Forall _ _ _ HB)) as [(Hle&k&r&o&->&->&Ek&Ho&Hm)|(Hlt&->)].
  2:{ rewrite (proj2 (Z.leb_gt _ _)) by lia. done. }
  cbn [mbind outcome_bind]. assert (Ledger w (r ++ k ++ l)) as HB' by by_ledger HB.
  rewrite (m_copydata_loop_ok r _ w o len HB' Ho E2 Hm).
  assert (Ledger w (k ++ r ++ l)) as HBk by by_ledger HB. pose proof (Ledger_cdata _ _ _ HBk) as Hk.
  unfold clen in *. rewrite total_app. replace (o + len <=? total m_len r) with (off + len <=? total m_len k + total m_len r) by lia.
  case_if; [|done]. do 2 f_equal. rewrite cdata_app, drop_app_ge by lia. f_equal. lia.
Qed.

(** ** m_copym *)

(** Every cluster can take the references of another copy of [k]. *)
Definition room (w : mworld) (l k : list mbuf) : Prop :=
  forall c, refs c l + refs c (frags (ipq w)) + refs c k <= 256.

Lemma refs_cons c m l : refs c (m :: l) = ref1 c m + refs c l.
Proof. done. Qed.
Lemma refs_app c l k : refs c (l ++ k) = refs c l + refs c k.
Proof. apply total_app. Qed.

Lemma room_ipq w w' l k : ipq w' = ipq w \/ ipq w' = [] -> room w l k -> room w' l k.
Proof.
  intros [E|E] H c; rewrite E; [apply H|]. cbn. specialize (H c). pose proof (refs_nonneg c (frags (ipq w))). lia.
Qed.

(** The copy of one mbuf. *)
Lemma m_copy1_ok w m l z n off n_len : Ledger w (z :: m :: l) ->
  (forall m', m_type m' = m_type m -> is_ext m' = false -> mbuf_ok m' -> Ledger w (m' :: m :: l)) ->
  m_type n = m_type m -> is_ext n = false -> Z.of_nat (length (m_dat n)) = MLEN ->
  m_off n = m_base n -> m_base n <= m_base m ->
  0 <= off -> 0 <= n_len -> off + n_len <= m_len m -> (is_ext m = true -> refs (ext_buf m) (m :: l) + refs (ext_buf m) (frags (ipq w)) < 256) ->
  exists n' w', m_copy1 m n off n_len w = Ok (n', w') /\ Ledger w' (n' :: m :: l) /\ narrows w w' /\ ipq w' = ipq w /\
    MCFail w' = MCFail w /\ (forall k, enough k w -> enough k w') /\
    mdata w' n' = take (Z.to_nat n_len) (drop (Z.to_nat off) (mdata w m)) /\
    m_len n' = n_len /\ is_pkt n' = is_pkt n /\ pkt_len n' = pkt_len n /\ pkt_rcvif n' = pkt_rcvif n /\
    (forall c, ref1 c n' = ref1 c m).
Proof.
  intros HB Hg Et Hx Hd Eo Hbase Ho Hn Hle Hroom. unfold m_copy1.
  assert (Ledger w (m :: z :: l)) as HB' by by_ledger HB.
  pose proof (Ledger_ok _ _ _ HB') as [Md Ml Me Mi]. pose proof (Ledger_mdata _ _ _ HB') as Lm.
  assert (0 <= m_base n <= 8) as Hb by (unfold m_base, PKTDAT; case_match; lia).
  destruct (is_ext m) eqn:Hm.
  - destruct (Me eq_refl) as (Es&M1&M2). eexists _, _. split; [done|].
    set (n' := set_m_flags _ _). set (w' := set_refcnt _ _ _).
    assert (is_ext n' = true) as Hx' by (rewrite is_ext_bit; cbn [n' m_flags set_m_flags]; rewrite Z.lor_spec; apply orb_true_r).
    assert (is_pkt n' = is_pkt n) as Hp.
    { rewrite !is_pkt_bit. cbn [n' m_flags set_m_flags set_m_len]. rewrite Z.lor_spec.
      change (Z.testbit M_EXT 1) with false. apply orb_false_r. }
    split; [|split; [by split|]].
    + apply (Book_share w m (set_m_len 0 n) n' ((m :: l) ++ frags (ipq w))); try done; [|by left| |].
      * apply Hg; try done. split; cbn; try done; [|].
        -- unfold is_ext in *. cbn. congruence.
        -- intros _. change (m_base (set_m_len 0 n)) with (m_base n). unfold MLEN. lia.
      * split; cbn; try done; [intros _; lia|]. intros E. unfold is_ext in Hx'. cbn in Hx'. unfold is_ext in E. cbn in E. congruence.
      * rewrite refs_app. by apply Hroom.
    + split_and!; try done.
      * unfold mdata, area. rewrite Hx', Hm. cbn [n' w' set_m_flags set_ext_size set_ext_buf set_m_off m_len m_off ext_buf mclbuf set_refcnt set_mclrefcnt set_m_len].
        rewrite skipn_firstn_comm, take_take, drop_drop. f_equal; [lia|]. f_equal. lia.
      * intros c. unfold ref1. by rewrite Hx', Hm.
  - destruct (Mi eq_refl) as (M1&M2). rewrite (peek_ok w ((m :: z :: l) ++ frags (ipq w))) by (try exact HB'; try (by left); lia).
    cbn [mbind outcome_bind]. set (bs := take _ _).
    assert (Z.of_nat (length bs) = n_len) as Hbs by (unfold bs; rewrite length_take, length_drop; lia).
    assert (mbuf_ok (set_m_len 0 n)) as Hok.
    { split; cbn; try done; [unfold is_ext in *; cbn; congruence|].
      intros _. change (m_base (set_m_len 0 n)) with (m_base n). unfold MLEN. lia. }
    assert (m_off n + Z.of_nat (length bs) <= MLEN) as Hfit by lia.
    rewrite (poke_ok w (set_m_len n_len n) 0 bs) by (try done; cbn; rewrite ?Z.add_0_r, ?Hbs; change (m_base (set_m_len n_len n)) with (m_base n); lia).
    eexists _, _. split; [done|].
    assert (set_m_dat (splice (m_dat (set_m_len n_len n)) (m_off (set_m_len n_len n) + 0) bs) (set_m_len n_len n) = m_put (set_m_len 0 n) bs) as ->.
    { unfold m_put. cbn. by rewrite Hbs. }
    destruct (m_put_ok (set_m_len 0 n) bs Hok) as (Hok'&[R1 R2 R3]); [done|cbn; lia|].
    split; [apply Hg; try done; by rewrite R2|]. split; [reflexivity|]. split_and!; try done.
    + rewrite mdata_put; [done|done|done|cbn; lia].
    + intros c. unfold ref1. rewrite R2, Hm. unfold is_ext in *. cbn. by rewrite Hx.
Qed.

(** The chars a copy has; [M_COPYALL] is all of them. *)
Definition slice (off len : Z) (d : list Z) : list Z :=
  if len =? M_COPYALL then drop (Z.to_nat off) d else take (Z.to_nat len) (drop (Z.to_nat off) d).

(** What a copy of [ch] from [off] has in its first header. *)
Definition copied_hdr (copyhdr : bool) (off0 len : Z) (ch new : list mbuf) : Prop :=
  match new with
  | n :: _ =>
      is_pkt n = copyhdr /\
      (copyhdr = true -> exists m, head ch = Some m /\
        pkt_len n = (if len =? M_COPYALL then pkt_len m - off0 else len) /\ pkt_rcvif n = pkt_rcvif m)
  | [] => True
  end.

(** The ways a copy can end: the copy [top ++ new], no memory, or the panic for
    data that is not there. *)
Inductive copied (copyhdr : bool) (off0 off len : Z) (top ch l : list mbuf) (w : mworld)
    : outcome (list mbuf * mworld) -> Prop :=
  | copied_ok new w' :
      len = M_COPYALL \/ off + len <= clen ch ->
      Ledger w' (top ++ new ++ ch ++ l) -> narrows w w' ->
      cdata w' new = slice off len (cdata w ch) ->
      copied_hdr copyhdr off0 len ch new ->
      (forall c, refs c new <= refs c ch) ->
      MCFail w' = MCFail w + (if is_nil (top ++ new) then 1 else 0) ->
      copied copyhdr off0 off len top ch l w (Ok (top ++ new, w'))
  | copied_nospace w' :
      ~ enough (length ch) w -> Ledger w' (ch ++ l) -> narrows w w' -> MCFail w' = MCFail w + 1 ->
      copied copyhdr off0 off len top ch l w (Ok ([], w'))
  | copied_panic :
      len <> M_COPYALL -> clen ch < off + len ->
      copied copyhdr off0 off len top ch l w (Panic "m_copym").

(** Nothing left to copy. *)
Lemma copied_done copyhdr off0 off len top ch l w : Ledger w (top ++ ch ++ l) ->
  slice off len (cdata w ch) = [] ->
  len = M_COPYALL \/ off + len <= clen ch ->
  copied copyhdr off0 off len top ch l w
    (mret (top, if is_nil top then set_MCFail (MCFail w + 1) w else w)).
Proof.
  intros HB Ed Hc. set (w' := if is_nil top then _ else _).
  assert (copied copyhdr off0 off len top ch l w (Ok (top ++ [], w'))) as H; [|by rewrite app_nil_r in H].
  apply copied_ok; rewrite ?app_nil_r.
  - done.
  - unfold w'. destruct (is_nil top); [by apply (Book_env w)|done].
  - unfold w'. by destruct (is_nil top).
  - by rewrite Ed.
  - done.
  - intros c. apply refs_nonneg.
  - unfold w'. destruct (is_nil top); cbn; lia.
Qed.

Lemma cdata_nil_len w ch l : Ledger w (ch ++ l) -> cdata w ch = [] \/ 0 < clen ch.
Proof.
  intros HB. pose proof (Ledger_cdata _ _ _ HB). destruct (cdata w ch); [by left|right]. cbn in *. lia.
Qed.

Lemma is_pkt_copy n m : is_pkt (M_COPY_PKTHDR n m) = is_pkt m.
Proof.
  rewrite !is_pkt_bit. cbn [m_flags M_COPY_PKTHDR set_m_off set_m_flags]. rewrite Z.land_spec.
  change (Z.testbit M_COPYFLAGS 1) with true. apply andb_true_r.
Qed.
Lemma is_ext_copy n m : is_ext (M_COPY_PKTHDR n m) = false.
Proof.
  rewrite is_ext_bit. cbn [m_flags M_COPY_PKTHDR set_m_off set_m_flags]. rewrite Z.land_spec.
  change (Z.testbit M_COPYFLAGS 0) with false. apply andb_false_r.
Qed.

Lemma slice_nil off len : slice off len [] = [].
Proof. unfold slice. rewrite drop_nil, take_nil. by case_match. Qed.

Lemma slice_step off len x y : 0 <= off -> 0 < len -> len <= M_COPYALL -> off <= Z.of_nat (length x) <= MCLBYTES ->
  let n_len := Z.min len (Z.of_nat (length x) - off) in
  slice off len (x ++ y) = take (Z.to_nat n_len) (drop (Z.to_nat off) x) ++
    slice 0 (if len =? M_COPYALL then len else len - n_len) y.
Proof.
  intros Ho Hl HC Hx n_len. unfold slice, MCLBYTES, M_COPYALL in *. destruct (len =? 1000000000) eqn:E; bool_prop.
  - rewrite E. cbn [Z.eqb Pos.eqb]. rewrite drop_app_le by lia. rewrite drop_0. f_equal.
    rewrite take_ge; [done|]. rewrite length_drop. lia.
  - rewrite (proj2 (Z.eqb_neq (len - n_len) _)) by lia. rewrite slice_app by lia. rewrite drop_0.
    f_equal; f_equal; lia.
Qed.

Lemma m_copy_loop_ok copyhdr off0 ch l : forall off len top w, Ledger w (top ++ ch ++ l) ->
  room w (top ++ ch ++ l) ch -> 0 <= off -> 0 <= len <= M_COPYALL ->
  match ch with [] => off = 0 | m :: _ => (off = 0 \/ off < m_len m) /\ (copyhdr = true -> is_pkt m = true /\ off = 0) end ->
  copied copyhdr off0 off len top ch l w (m_copy_loop ch copyhdr off0 off len top w).
Proof.
  revert copyhdr l. induction ch as [|m ch IH]; intros copyhdr l off len top w HB Hr Ho Hl Hm; cbn [m_copy_loop].
  - destruct (0 <? len) eqn:E; bool_prop.
    2:{ apply copied_done; try done; [apply slice_nil|]. right. cbn. lia. }
    destruct (len =? M_COPYALL) eqn:E2; bool_prop.
    + apply copied_done; try done; [apply slice_nil|]. by left.
    + apply copied_panic; [done|]. cbn. lia.
  - destruct Hm as (Hm&Hh).
    assert (Ledger w (m :: ch ++ top ++ l)) as HBm by by_ledger HB.
    pose proof (Ledger_ok _ _ _ HBm) as [Md Ml Me Mi]. pose proof (Ledger_mdata _ _ _ HBm) as Lm.
    assert (Ledger w (ch ++ m :: top ++ l)) as HBc by by_ledger HB.
    pose proof (clen_nonneg ch (Ledger_Forall _ _ _ HBc)) as Hcl.
    assert (clen (m :: ch) = m_len m + clen ch) as Ecl by done.
    destruct (0 <? len) eqn:E; bool_prop.
    2:{ assert (len = 0) as -> by lia. apply copied_done; try done. right. lia. }
    destruct (MGET_ok (m_type m) _ w HBm) as (o&w1&->&G). cbn [mbind outcome_bind]. destruct o as [n|].
    2:{ destruct G as [G1 G2 _ G4 _ G5]. assert (Ledger w1 (top ++ (m :: ch) ++ l)) as HB1 by by_ledger G1.
        destruct (m_freem_ok _ _ _ HB1) as (w2&->&H2&N2&S2). cbn [mbind outcome_bind]. apply copied_nospace.
        - intros He. by destruct (G5 (length ch) He) as [[? [=]] _].
        - by apply (Book_env w2).
        - rewrite G2, N2. by split.
        - cbn. by rewrite (sr_mc _ _ S2), G4. }
    pose proof (gotten_ledger _ _ _ _ _ _ G) as HL. destruct G as [[HF Hg] G2 G3 G4 _ G5].
    pose proof (fresh_ok _ _ _ 0 HF) as (Fx&Fp&_); [unfold MLEN; lia|]. destruct HF as [F1 F2 F3 F4].
    set (n0 := if copyhdr then _ else n). set (n_len := Z.min len (m_len m - off)).
    assert (m_type n0 = m_type m /\ is_ext n0 = false /\ Z.of_nat (length (m_dat n0)) = MLEN /\ is_pkt n0 = copyhdr /\
      m_off n0 = m_base n0 /\ m_base n0 <= m_base m) as (E1&E2&E3&E4&E5&E6).
    { unfold n0. destruct copyhdr.
      - destruct (Hh eq_refl) as (Hp&_). unfold m_base. change (is_pkt (set_pkt_len _ ?x)) with (is_pkt x).
        change (is_ext (set_pkt_len _ ?x)) with (is_ext x). by rewrite is_ext_copy, is_pkt_copy, Hp.
      - unfold m_base. rewrite Fp. split_and!; try done. unfold PKTDAT. destruct (is_pkt m); lia. }
    assert (Ledger w1 (m :: ch ++ set_m_len 0 n :: top ++ l)) as HL' by by_ledger HL.
    destruct (Ledger_chain _ _ _ _ _ HL' G2) as (Dm&Dc).
    pose proof (room_ipq w w1 _ _ G3 Hr) as Hr1.
    destruct (m_copy1_ok w1 m _ _ n0 off n_len HL) as (n'&w2&E7&H2&N2&I2&C2&K2&D2&L2&P2&Q2&R2&T2); try (done || lia).
    { intros Hx. specialize (Hr1 (ext_buf m)). revert Hr1. rewrite !refs_app, !refs_cons, !refs_app.
      pose proof (refs_nonneg (ext_buf m) ch). assert (ref1 (ext_buf m) m = 1) as -> by (unfold ref1; by rewrite Hx, Z.eqb_refl). lia. }
    rewrite E7. cbn [mbind outcome_bind].
    set (len' := if len =? M_COPYALL then len else len - n_len).
    assert (0 <= n_len <= len /\ (n_len = len \/ n_len = m_len m - off)) as (Hnl&Hnl') by (unfold n_len; lia).
    assert (0 <= len' <= M_COPYALL) as Hl' by (unfold len'; destruct (len =? M_COPYALL); lia).
    assert (Ledger w2 ((top ++ [n']) ++ ch ++ m :: l)) as HB2 by by_ledger H2.
    assert (room w2 ((top ++ [n']) ++ ch ++ m :: l) ch) as Hr2.
    { intros c. specialize (Hr1 c). revert Hr1. rewrite I2, !refs_app, !refs_cons, T2. cbn. lia. }
    pose proof (IH false (m :: l) 0 len' (top ++ [n']) w2 HB2 Hr2 (Z.le_refl 0) Hl') as HC.
    assert (narrows w w2) as N02 by (by rewrite G2).
    assert (cdata w2 ch = cdata w ch) as Dc2.
    { rewrite <- Dc. apply (Ledger_data _ _ _ ((top ++ [n']) ++ m :: l)); [by_ledger HB2|done]. }
    pose proof (slice_step off len (mdata w m) (cdata w ch)) as HS. rewrite Lm in HS. fold n_len len' in HS.
    assert (off <= m_len m <= MCLBYTES) as Hbig.
    { split; [lia|]. destruct (is_ext m); [destruct (Me eq_refl)|destruct (Mi eq_refl); pose proof (m_base_range m)];
        unfold MLEN, MCLBYTES in *; lia. }
    specialize (HS Ho E (proj2 Hl) Hbig).
    assert (len' = M_COPYALL -> len = M_COPYALL) as HCA by (unfold len'; destruct (len =? M_COPYALL) eqn:?; bool_prop; lia).
    destruct HC as [new w' Hc H3 N3 D3 _ R3 C3|w' He H3 N3 C3|Hc1 Hc2].
    + by destruct ch; [|split; [left|]].
    + rewrite <- app_assoc. cbn [app]. rewrite <- app_assoc in C3. cbn [app] in C3. apply copied_ok.
      * destruct Hc as [?|?]; [left; auto|right; rewrite Ecl; unfold len' in *; destruct (len =? M_COPYALL) eqn:?; bool_prop; lia].
      * by_ledger H3.
      * by rewrite N02.
      * assert (Ledger w' (n' :: new ++ top ++ ch ++ m :: l)) as H3' by by_ledger H3.
        destruct (Ledger_chain _ _ _ _ _ H3' N3) as (Dn&_). rewrite cdata_cons, Dn, D2, D3, Dm, Dc2.
        by rewrite cdata_cons, HS.
      * split; [by rewrite P2|]. intros Ec. exists m. split; [done|]. rewrite Q2, R2. unfold n0. rewrite Ec. cbn [pkt_len pkt_rcvif set_pkt_len set_m_off set_m_flags set_pkt_rcvif M_COPY_PKTHDR]. by destruct (len =? M_COPYALL).
      * intros c. rewrite !refs_cons, T2. specialize (R3 c). lia.
      * rewrite C3, C2, G4. by destruct top.
    + apply copied_nospace.
      * intros [He1 He2]%G5. apply He. by apply K2.
      * by_ledger H3.
      * by rewrite N02.
      * by rewrite C3, C2, G4.
    + apply copied_panic; [intros ->; unfold len' in Hc1; by rewrite Z.eqb_refl in Hc1|].
      unfold len' in *. destruct (len =? M_COPYALL) eqn:?; bool_prop; lia.
Qed.

Lemma enough_le n k w : (n <= k)%nat -> enough k w -> enough n w.
Proof.
  intros Hle [H1 H2]. split; [lia|]. replace n with (Nat.min n k) by lia. rewrite <- take_take.
  by apply Forall_take.
Qed.

(** The copy of a chain: what [m_copym] does on every argument. *)
Lemma m_copym_ok m ch l w off len : Ledger w ((m :: ch) ++ l) -> room w ((m :: ch) ++ l) (m :: ch) ->
  len <= M_COPYALL ->
  (0 <= off <= clen (m :: ch) /\ 0 <= len /\
     copied ((off =? 0) && is_pkt m) off off len [] (m :: ch) l w (m_copym (m :: ch) off len w)) \/
  ((off < 0 \/ len < 0 \/ clen (m :: ch) < off) /\ m_copym (m :: ch) off len w = Panic "m_copym").
Proof.
  intros HB Hr HC. unfold m_copym. destruct (off <? 0) eqn:E1; bool_prop; [right; split; [by left|done]|].
  destruct (len <? 0) eqn:E2; bool_prop; [right; split; [by right; left|done]|]. cbn [orb].
  pose proof (clen_nonneg _ (Ledger_Forall _ _ _ HB)) as Hcl.
  destruct (off =? 0) eqn:E0; bool_prop.
  { subst. left. split; [lia|]. split; [done|]. cbn [mbind outcome_bind m_seek]. cbn [Z.ltb Z.compare mbind outcome_bind andb].
    apply m_copy_loop_ok; try done. split; [by left|done]. }
  cbn [mbind outcome_bind mret outcome_ret andb].
  destruct (m_seek_ok "m_copym" (m :: ch) off E1 (Ledger_Forall _ _ _ HB)) as [(Hle&k&r&o&->&Ech&Ek&Ho&Hm)|(Hlt&->)].
  2:{ right. split; [by right; right|done]. }
  left. split; [done|]. split; [done|]. cbn [mbind outcome_bind]. rewrite Ech in *.
  assert (Ledger w ([] ++ r ++ k ++ l)) as HB' by by_ledger HB.
  assert (room w ([] ++ r ++ k ++ l) r) as Hr'.
  { intros c. specialize (Hr c). rewrite !refs_app in Hr. cbn [app]. rewrite !refs_app. pose proof (refs_nonneg c k). lia. }
  assert (Ledger w (k ++ r ++ l)) as HBk by by_ledger HB. pose proof (Ledger_cdata _ _ _ HBk) as Hk.
  assert (clen (k ++ r) = clen k + clen r) as Ecl by (apply total_app).
  destruct (m_copy_loop_ok false off r (k ++ l) o len [] w) as [new w' Hc H3 N3 D3 P3 R3 C3|w' He H3 N3 C3|Hc1 Hc2]; try done.
  { destruct r; [done|]. split; [|done]. done. }
  - cbn [app] in *. apply (copied_ok false off off len [] (k ++ r) l w new w'); try done.
    + destruct Hc; [by left|right; lia].
    + by_ledger H3.
    + rewrite D3, cdata_app. unfold slice. rewrite !(drop_app_ge (cdata w k)) by lia.
      replace (Z.to_nat off - length (cdata w k))%nat with (Z.to_nat o) by lia. done.
    + destruct new; [done|]. by destruct P3.
    + intros c. rewrite refs_app. specialize (R3 c). pose proof (refs_nonneg c k). lia.
  - apply copied_nospace; try done.
    + intros He'. apply He. eapply enough_le; [|exact He']. rewrite length_app. lia.
    + by_ledger H3.
  - apply copied_panic; [done|lia].
Qed.

(** ** m_adj *)

(** A shorter window on the same data. *)
Definition adj1 (m m' : mbuf) : Prop :=
  exists off len p, 0 <= off /\ 0 <= len /\ off + len <= m_len m /\ m' = set_pkt_len p (m_trim off len m).

Lemma set_len_trim len m : set_m_len len m = set_pkt_len (pkt_len m) (m_trim 0 len m).
Proof. unfold m_trim. destruct m. cbn. by rewrite Z.add_0_r. Qed.

Lemma adj1_len len m : 0 <= len <= m_len m -> adj1 m (set_m_len len m).
Proof. intros Hl. exists 0, len, (pkt_len m). rewrite set_len_trim. split_and!; [lia..|done]. Qed.

Lemma adj1_refl m : mbuf_ok m -> adj1 m m.
Proof. intros Hm. pose proof (ok_len _ Hm). replace m with (set_m_len (m_len m) m) at 2 by (by destruct m). by apply adj1_len. Qed.

Lemma adj1_ok m m' : mbuf_ok m -> adj1 m m' -> mbuf_ok m' /\ same_res m m'.
Proof.
  intros Hm (off&len&p&H1&H2&H3&->). destruct (m_trim_ok off len m Hm H1 H2 H3) as ([A B C D]&[E F G]).
  by split; split.
Qed.

Lemma Ledger_adj w ch ch' l : Ledger w (ch ++ l) -> Forall2 adj1 ch ch' -> Ledger w (ch' ++ l).
Proof.
  intros HB HF. revert l HB. induction HF as [|m m' ch ch' Hm HF IH]; intros l HB; [done|].
  destruct (adj1_ok m m' (Ledger_ok _ _ _ HB) Hm) as (Hok&Hres).
  pose proof (Ledger_swap _ _ _ _ Hres Hok HB) as H1. assert (Ledger w (ch ++ m' :: l)) as H2 by by_ledger H1.
  specialize (IH _ H2). by_ledger IH.
Qed.

Lemma Forall2_adj_refl ch : Forall mbuf_ok ch -> Forall2 adj1 ch ch.
Proof. induction 1; constructor; [by apply adj1_refl|done]. Qed.

Lemma mdata_set_len w m len : mbuf_ok m -> 0 <= len <= m_len m -> mdata w (set_m_len len m) = take (Z.to_nat len) (mdata w m).
Proof.
  intros Hm Hl. rewrite set_len_trim. change (mdata w (set_pkt_len _ ?x)) with (mdata w x).
  rewrite mdata_trim by (done || lia). done.
Qed.

Lemma m_adj_head_ok w ch l len : Ledger w (ch ++ l) -> 0 <= len ->
  exists ch', m_adj_head ch len = (ch', Z.max 0 (len - clen ch)) /\ Forall2 adj1 ch ch' /\
    cdata w ch' = drop (Z.to_nat len) (cdata w ch) /\ (forall m m' r r', ch = m :: r -> ch' = m' :: r' ->
      m_flags m' = m_flags m /\ pkt_len m' = pkt_len m).
Proof.
  revert len l. induction ch as [|m ch IH]; intros len l HB Hl; cbn [m_adj_head].
  - exists []. split; [f_equal; cbn; lia|]. split; [apply Forall2_nil|]. split; [cbn; by rewrite drop_nil|done].
  - pose proof (Ledger_ok _ _ _ HB) as Hm. pose proof (Ledger_mdata _ _ _ HB) as Lm. pose proof (ok_len _ Hm) as Hlm.
    assert (Ledger w (ch ++ m :: l)) as HB' by by_ledger HB. pose proof (Ledger_Forall _ _ _ HB') as Hok.
    pose proof (clen_nonneg ch Hok) as Hcl. change (clen (m :: ch)) with (m_len m + clen ch).
    destruct (0 <? len) eqn:E; bool_prop.
    2:{ assert (len = 0) as -> by lia. exists (m :: ch). split_and!; [f_equal; lia| |done|].
        - apply Forall2_adj_refl. by constructor.
        - by intros ? ? ? ? [= -> ->] [= -> ->]. }
    destruct (m_len m <=? len) eqn:E2; bool_prop.
    + destruct (IH (len - m_len m) _ HB') as (ch'&->&HF&D&_); [lia|].
      eexists. split; [f_equal; lia|]. split; [constructor; [apply adj1_len; lia|done]|]. split.
      * rewrite !cdata_cons, D, mdata_set_len by (done || lia). change (take (Z.to_nat 0) (mdata w m)) with (@nil Z).
        rewrite drop_app_ge by lia. cbn [app]. f_equal. lia.
      * by intros ? ? ? ? [= -> ->] [= <- <-].
    + eexists. split; [f_equal; lia|]. split; [constructor; [|by apply Forall2_adj_refl]|]. 
      * exists len, (m_len m - len), (pkt_len m). split_and!; [lia..|]. by destruct m.
      * split; [|by intros ? ? ? ? [= -> ->] [= <- <-]]. rewrite !cdata_cons.
        change (set_m_off (m_off m + len) (set_m_len (m_len m - len) m)) with (m_trim len (m_len m - len) m).
        rewrite mdata_trim by (done || lia). rewrite drop_app_le by lia. f_equal.
        rewrite take_ge; [done|]. rewrite length_drop. lia.
Qed.

(** The last mbuf of a chain. *)
Definition m_last (m : mbuf) (rest : list mbuf) : mbuf := List.last rest m.

Lemma m_last_cons m n rest : m_last m (n :: rest) = m_last n rest.
Proof. revert n m. induction rest as [|x r IH]; intros n m; [done|]. etrans; [apply (IH x m)|symmetry; apply (IH x n)]. Qed.

Lemma m_last_len m rest : Forall mbuf_ok (m :: rest) -> 0 <= m_len (m_last m rest) <= clen (m :: rest).
Proof.
  revert m. induction rest as [|n rest IH]; intros m HF; inversion HF as [|? ? Hm Hr]; subst.
  - pose proof (ok_len _ Hm). cbn. lia.
  - rewrite m_last_cons. specialize (IH n Hr). pose proof (ok_len _ Hm).
    change (clen (m :: n :: rest)) with (m_len m + clen (n :: rest)). lia.
Qed.

Lemma m_count_eq m rest : m_count m rest = (clen (m :: rest), m_last m rest).
Proof.
  revert m. induction rest as [|n rest IH]; intros m; cbn [m_count].
  - cbn. f_equal. lia.
  - rewrite IH. f_equal. by rewrite m_last_cons.
Qed.

Lemma cdata_zero w ch : Forall mbuf_ok ch -> cdata w (map (set_m_len 0) ch) = [].
Proof.
  induction 1 as [|m ch Hm _ IH]; [done|]. cbn [map]. pose proof (ok_len _ Hm).
  by rewrite cdata_cons, IH, mdata_set_len by (done || lia).
Qed.

Lemma m_adj_cut_ok w ch l count : Ledger w (ch ++ l) -> ch <> [] -> 0 <= count <= clen ch ->
  exists ch', m_adj_cut ch count = Ok ch' /\ Forall2 adj1 ch ch' /\ cdata w ch' = take (Z.to_nat count) (cdata w ch) /\
    (forall m m' r r', ch = m :: r -> ch' = m' :: r' -> m_flags m' = m_flags m /\ pkt_len m' = pkt_len m).
Proof.
  revert count l. induction ch as [|m ch IH]; intros count l HB Hne Hc; [done|]. cbn [m_adj_cut].
  pose proof (Ledger_ok _ _ _ HB) as Hm. pose proof (Ledger_mdata _ _ _ HB) as Lm. pose proof (ok_len _ Hm) as Hlm.
  assert (Ledger w (ch ++ m :: l)) as HB' by by_ledger HB. pose proof (Ledger_Forall _ _ _ HB') as Hok.
  change (clen (m :: ch)) with (m_len m + clen ch) in Hc.
  destruct (count <=? m_len m) eqn:E; bool_prop.
  - eexists. split; [done|]. split; [constructor; [apply adj1_len; lia|]|].
    + clear -Hok. induction Hok as [|x ch Hx _ IH]; cbn; constructor; [|done]. apply adj1_len. pose proof (ok_len _ Hx). lia.
    + split; [|by intros ? ? ? ? [= -> ->] [= <- <-]].
      rewrite !cdata_cons, cdata_zero, app_nil_r, mdata_set_len by (done || lia). by rewrite take_app_le by lia.
  - destruct (IH (count - m_len m) _ HB') as (ch'&->&HF&D&_); [intros ->; cbn in Hc; lia|lia|]. cbn [mbind outcome_bind].
    eexists. split; [done|]. split; [constructor; [by apply adj1_refl|done]|].
    split; [|by intros ? ? ? ? [= -> ->] [= <- <-]]. rewrite !cdata_cons, D, take_app_ge by lia. do 2 f_equal. lia.
Qed.

Lemma m_adj_last_ok w m rest l len : Ledger w ((m :: rest) ++ l) ->
  0 <= len <= m_len (m_last m rest) ->
  Forall2 adj1 (m :: rest) (m_adj_last m rest len) /\
  cdata w (m_adj_last m rest len) = take (Z.to_nat (clen (m :: rest) - len)) (cdata w (m :: rest)) /\
  exists m' r', m_adj_last m rest len = m' :: r' /\ m_flags m' = m_flags m /\
    pkt_len m' = if is_nil rest && is_pkt m then s32 (pkt_len m - len) else pkt_len m.
Proof.
  revert m l. induction rest as [|n rest IH]; intros m l HB Hl; cbn [m_adj_last].
  - pose proof (Ledger_ok _ _ _ HB) as Hm. pose proof (Ledger_mdata _ _ _ HB) as Lm. cbn in Hl.
    set (m1 := set_m_len (m_len m - len) m).
    assert (adj1 m m1) as H1 by (apply adj1_len; lia).
    assert (mdata w m1 = take (Z.to_nat (m_len m - len)) (mdata w m)) as D1 by (apply mdata_set_len; [done|lia]).
    change (is_pkt m1) with (is_pkt m). cbn [is_nil andb clen total]. rewrite Z.add_0_r, !cdata_cons, !app_nil_r.
    destruct (is_pkt m).
    + split_and!; [|done|by eexists _, []]. constructor; [|done].
      destruct H1 as (o&k&p&A&B&C&->). exists o, k. eexists. by split_and!.
    + split_and!; [by constructor|done|by exists m1, []].
  - pose proof (Ledger_ok _ _ _ HB) as Hm. pose proof (Ledger_mdata _ _ _ HB) as Lm.
    assert (Ledger w ((n :: rest) ++ m :: l)) as HB' by by_ledger HB.
    rewrite m_last_cons in Hl. destruct (IH n _ HB' Hl) as (HF&D&_).
    split; [constructor; [by apply adj1_refl|done]|]. split; [|by exists m, (m_adj_last n rest len)].
    change (clen (m :: n :: rest)) with (m_len m + clen (n :: rest)). rewrite cdata_cons, D, (cdata_cons _ m).
    pose proof (m_last_len n rest (Ledger_Forall _ _ _ HB')) as Hle.
    rewrite take_app_ge by lia. do 2 f_equal. lia.
Qed.

(** What m_adj makes of the length in the packet header.  Trimming the tail when
    the last mbuf has enough, and is not the first, leaves it as it was. *)
Definition adj_hdr (m : mbuf) (rest : list mbuf) (req : Z) : Z :=
  if negb (is_pkt m) then pkt_len m
  else if 0 <=? req then s32 (pkt_len m - Z.min req (clen (m :: rest)))
  else if - req <=? m_len (m_last m rest) then
    if is_nil rest then s32 (pkt_len m + req) else pkt_len m
  else Z.max 0 (clen (m :: rest) + req).

Lemma adj1_pkt m m' p : adj1 m m' -> adj1 m (set_pkt_len p m').
Proof. intros (o&k&q&A&B&C&->). by exists o, k, p. Qed.

Lemma m_adj_ok w m rest l req : Ledger w ((m :: rest) ++ l) -> - 2 ^ 31 < req ->
  exists m' rest', m_adj (m :: rest) req = Ok (m' :: rest') /\ Forall2 adj1 (m :: rest) (m' :: rest') /\
    cdata w (m' :: rest') =
      (if 0 <=? req then drop (Z.to_nat req) (cdata w (m :: rest))
       else take (Z.to_nat (clen (m :: rest) + req)) (cdata w (m :: rest))) /\
    m_flags m' = m_flags m /\ pkt_len m' = adj_hdr m rest req.
Proof.
  intros HB Hreq. pose proof (clen_nonneg _ (Ledger_Forall _ _ _ HB)) as Hcl.
  unfold m_adj. destruct (0 <=? req) eqn:E0; bool_prop.
  - destruct (m_adj_head_ok w (m :: rest) l req HB E0) as (ch'&->&HF&D&Hh).
    inversion HF as [|? m' ? rest' H1 HR]; subst. destruct (Hh _ _ _ _ eq_refl eq_refl) as (Ef&Ep).
    assert (is_pkt m' = is_pkt m) as Ek by (unfold is_pkt; by rewrite Ef).
    unfold adj_hdr. rewrite (proj2 (Z.leb_le _ _) E0), Ek. destruct (is_pkt m); cbn [negb].
    + eexists _, _. split; [done|]. split; [constructor; [by apply adj1_pkt|done]|]. split; [done|].
      split; [done|]. cbn. rewrite Ep. do 2 f_equal. unfold clen in *. cbn [total] in *. lia.
    + by eexists _, _.
  - rewrite s32_id by lia. rewrite m_count_eq. pose proof (m_last_len m rest (Ledger_Forall _ _ _ HB)) as Hll.
    destruct (- req <=? m_len (m_last m rest)) eqn:E2; bool_prop.
    + destruct (m_adj_last_ok w m rest l (- req) HB) as (HF&D&m'&r'&E&Ef&Ep); [lia|]. rewrite E in *.
      exists m', r'. split; [done|]. split; [done|]. split; [rewrite D; do 2 f_equal; lia|]. split; [done|].
      rewrite Ep. unfold adj_hdr. rewrite (proj2 (Z.leb_gt 0 req) E0), (proj2 (Z.leb_le _ _) E2).
      destruct (is_pkt m), (is_nil rest); cbn [andb negb]; try done. f_equal. lia.
    + set (count := if clen (m :: rest) - - req <? 0 then 0 else clen (m :: rest) - - req).
      assert (0 <= count <= clen (m :: rest) /\ count = Z.max 0 (clen (m :: rest) + req)) as (Hc&Ec).
      { unfold count. destruct (clen (m :: rest) - - req <? 0) eqn:E3; bool_prop; lia. }
      set (m0 := if is_pkt m then set_pkt_len count m else m).
      pose proof (Ledger_ok _ _ _ HB) as Hm.
      assert (m_len m0 = m_len m /\ mbuf_ok m0 /\ same_res m m0 /\ mdata w m0 = mdata w m /\ m_flags m0 = m_flags m /\
        (is_pkt m = true -> pkt_len m0 = count) /\ (is_pkt m = false -> m0 = m) /\ (forall x, adj1 m0 x -> adj1 m x))
        as (El&Hok&Hres&Dm&Ef&Ep&En&Ha).
      { unfold m0. destruct (is_pkt m); [|by split_and!]. destruct Hm. split_and!; try done. }
      assert (Ledger w ((m0 :: rest) ++ l)) as HB0 by (by apply (Ledger_swap w m)).
      assert (clen (m0 :: rest) = clen (m :: rest)) as Ecl by (unfold clen; cbn; by rewrite El).
      destruct (m_adj_cut_ok w (m0 :: rest) l count HB0) as (ch'&->&HF&D&Hh); [done|by rewrite Ecl|].
      inversion HF as [|? m' ? rest' H1 HR]; subst. destruct (Hh _ _ _ _ eq_refl eq_refl) as (Ef'&Ep').
      exists m', rest'. split; [done|]. split; [constructor; auto|]. split.
      * rewrite D, !cdata_cons, Dm. f_equal. lia.
      * split; [by rewrite Ef'|]. rewrite Ep'. unfold adj_hdr. rewrite (proj2 (Z.leb_gt 0 req) E0), (proj2 (Z.leb_gt _ _) E2).
        destruct (is_pkt m) eqn:Ek; cbn [negb]; [by rewrite Ep, Ec|by rewrite En].
Qed.

(** ** m_prepend *)

Lemma land_3 z : 0 <= z -> 0 <= andnot z 3 <= z.
Proof.
  intros Hz. unfold andnot. rewrite <- Z.ldiff_land. change 3 with (Z.ones 2).
  rewrite Z.ldiff_ones_r, Z.shiftl_mul_pow2, Z.shiftr_div_pow2 by lia. change (2 ^ 2) with 4.
  pose proof (Z.div_mod z 4). pose proof (Z.mod_pos_bound z 4). pose proof (Z.div_pos z 4). lia.
Qed.

Lemma is_ext_clear m : is_ext (set_m_flags (andnot (m_flags m) M_PKTHDR) m) = is_ext m.
Proof. apply has_clear. done. Qed.
Lemma is_pkt_clear m : is_pkt (set_m_flags (andnot (m_flags m) M_PKTHDR) m) = false.
Proof.
  rewrite is_pkt_bit. cbn [m_flags set_m_flags]. unfold andnot. rewrite Z.land_spec, Z.lnot_spec by lia.
  change (Z.testbit M_PKTHDR 1) with true. apply andb_false_r.
Qed.

(** Taking the header off an mbuf. *)
Lemma unhdr_ok w m l : Ledger w (m :: l) ->
  let m' := set_m_flags (andnot (m_flags m) M_PKTHDR) m in
  Ledger w (m' :: l) /\ mdata w m' = mdata w m.
Proof.
  intros HB m'. assert (is_ext m' = is_ext m) as Ex by apply is_ext_clear. split.
  - apply (Ledger_swap w m); [by split| |done]. destruct (Ledger_ok _ _ _ HB) as [A B C D]. split; try done.
    + intros E. apply C. by rewrite <- Ex.
    + intros E. rewrite Ex in E. destruct (D E). unfold m_base. unfold m' at 1. rewrite is_pkt_clear.
      pose proof (m_base_range m). cbn. lia.
  - unfold mdata, area. by rewrite Ex.
Qed.

Lemma m_prepend_ok m rest l len w : Ledger w (m :: rest ++ l) -> 0 <= len <= MHLEN ->
  exists ch w', m_prepend (m :: rest) len w = Ok (ch, w') /\ narrows w w' /\ (enough 1 w -> ch <> []) /\
    match ch with
    | [] => Ledger w' l
    | n :: r => Ledger w' (ch ++ l) /\ m_len n = len /\ is_ext n = false /\ is_pkt n = is_pkt m /\
        (is_pkt m = true -> pkt_len n = pkt_len m /\ pkt_rcvif n = pkt_rcvif m) /\
        m_type n = m_type m /\ cdata w' r = cdata w (m :: rest)
    end.
Proof.
  intros HB Hlen. unfold m_prepend.
  destruct (MGET_ok (m_type m) _ w HB) as (o&w1&->&G). cbn [mbind outcome_bind]. destruct o as [n|].
  2:{ destruct G as [G1 G2 _ _ _ G5]. destruct (m_freem_ok (m :: rest) l w1 G1) as (w2&->&H2&N2&_).
      eexists _, _. split; [done|]. split; [by rewrite G2|]. split; [|done].
      intros He. by destruct (G5 0%nat He) as [[? [=]] _]. }
  destruct G as [[HF Hg] G2 _ _ _ _]. pose proof (fresh_ok _ _ _ 0 HF) as (Fx&Fp&_); [unfold MLEN; lia|].
  destruct HF as [F1 F2 F3 F4].
  set (pr := if is_pkt m then _ else _).
  assert (exists n1 m1, pr = (n1, m1) /\ m_type n1 = m_type m /\ is_ext n1 = false /\ is_pkt n1 = is_pkt m /\
    m_off n1 = m_base n1 /\ Z.of_nat (length (m_dat n1)) = MLEN /\
    (is_pkt m = true -> pkt_len n1 = pkt_len m /\ pkt_rcvif n1 = pkt_rcvif m) /\
    (forall w l, Ledger w (m :: l) -> Ledger w (m1 :: l) /\ mdata w m1 = mdata w m))
    as (n1&m1&->&E1&E2&E3&E4&E5&E6&E7).
  { unfold pr. destruct (is_pkt m) eqn:Ep.
    - eexists _, _. split; [done|]. rewrite is_ext_copy, is_pkt_copy. unfold m_base. rewrite is_pkt_copy, Ep.
      split_and!; try done. intros w2 l2. apply unhdr_ok.
    - exists n, m. unfold m_base. rewrite Fp. by split_and!. }
  set (n2 := set_m_len len (if len <? MHLEN then MH_ALIGN n1 len else n1)).
  assert (m_type n2 = m_type m /\ is_ext n2 = false /\ is_pkt n2 = is_pkt m /\ mbuf_ok n2 /\ pkt_len n2 = pkt_len n1 /\
    pkt_rcvif n2 = pkt_rcvif n1) as (K1&K2&K3&K4&K5&K6).
  { pose proof (m_base_range n1) as Hb. unfold n2, MHLEN, MLEN in *. destruct (len <? 100) eqn:El; bool_prop; split_and!; try done.
    - pose proof (land_3 (100 - len) ltac:(lia)). split; cbn; try done; [lia| |].
      + intros E. change (is_ext n1 = true) in E. congruence.
      + intros _. change (m_base (set_m_len _ _)) with (m_base n1). cbn. unfold MHLEN, MLEN. lia.
    - split; cbn; try done; [lia| |].
      + intros E. change (is_ext n1 = true) in E. congruence.
      + intros _. change (m_base (set_m_len _ _)) with (m_base n1). cbn. unfold MLEN. lia. }
  pose proof (Hg n2 K1 K2 K4) as H2. assert (Ledger w1 (m :: rest ++ n2 :: l)) as H3 by by_ledger H2.
  destruct (Ledger_chain _ _ _ _ _ H3 G2) as (Dm&Dr). destruct (E7 _ _ H3) as (H4&D4).
  eexists _, _. split; [done|]. split; [done|]. split; [done|]. split; [by_ledger H4|].
  split_and!; try done; [by rewrite K5, K6|]. by rewrite !cdata_cons, D4, Dm, Dr.
Qed.

Lemma M_PREPEND_ok m rest l plen w : Ledger w (m :: rest ++ l) -> 0 <= plen <= MHLEN ->
  exists ch w', M_PREPEND (m :: rest) plen w = Ok (ch, w') /\ narrows w w' /\ (enough 1 w -> ch <> []) /\
    match ch with
    | [] => Ledger w' l
    | n :: r => Ledger w' (ch ++ l) /\ plen <= m_len n /\ is_pkt n = is_pkt m /\
        (is_pkt m = true -> pkt_len n = s32 (pkt_len m + plen)) /\
        exists hdr, Z.of_nat (length hdr) = plen /\ cdata w' ch = hdr ++ cdata w (m :: rest)
    end.
Proof.
  intros HB Hp. unfold M_PREPEND. pose proof (Ledger_ok _ _ _ HB) as Hm. pose proof (ok_len _ Hm) as Hl.
  destruct (plen <=? M_LEADINGSPACE m) eqn:E; bool_prop.
  - cbn [mbind outcome_bind mret outcome_ret]. set (m1 := set_m_len _ _).
    assert (0 <= m_off m - plen /\ mbuf_ok m1 /\ same_res m m1) as (Hoff&Hok&Hres).
    { unfold M_LEADINGSPACE in E. destruct Hm as [A B C D]. pose proof (m_base_range m).
      destruct (is_ext m) eqn:Hx; [destruct (C eq_refl) as (?&?&?)|destruct (D eq_refl)]; (split; [lia|split; [|by split]]).
      - split; cbn; [done|lia| |]; intros E1; [split_and!; [done|lia..]|]. change (is_ext m = false) in E1. congruence.
      - split; cbn; [done|lia| |]; intros E1; [change (is_ext m = true) in E1; congruence|].
        change (m_base m1) with (m_base m). lia. }
    pose proof (Ledger_swap _ _ _ _ Hres Hok HB) as H1.
    set (m2 := if is_pkt m1 then _ else _).
    assert (same_res m1 m2 /\ mbuf_ok m2 /\ mdata w m2 = mdata w m1 /\ m_len m2 = plen + m_len m /\ is_pkt m2 = is_pkt m /\
      (is_pkt m = true -> pkt_len m2 = s32 (pkt_len m + plen))) as (R2&K2&D2&L2&P2&Q2).
    { assert (m_len m1 = plen + m_len m) as El by (cbn; lia). unfold m2.
      change (is_pkt m1) with (is_pkt m). destruct Hok. destruct (is_pkt m) eqn:Em; split_and!; done. }
    eexists _, _. split; [done|]. split; [reflexivity|]. split; [done|].
    pose proof (Ledger_swap _ _ _ _ R2 K2 H1) as H2. split; [exact H2|]. split; [lia|]. split; [done|]. split; [done|].
    pose proof (Ledger_mdata _ _ _ H1) as L1. exists (take (Z.to_nat plen) (mdata w m1)). split.
    + rewrite length_take. cbn in L1. lia.
    + rewrite !cdata_cons, D2, app_assoc. f_equal. symmetry. etrans; [|apply (take_drop (Z.to_nat plen))]. f_equal.
      unfold mdata. change (area w m1) with (area w m). cbn. rewrite skipn_firstn_comm, drop_drop. f_equal; [lia|]. f_equal. lia.
  - destruct (m_prepend_ok m rest l plen w HB Hp) as (ch&w'&->&N&He&HC). cbn [mbind outcome_bind].
    destruct ch as [|n r]; [by eexists _, _|]. destruct HC as (H1&L1&X1&P1&Q1&_&D1).
    set (n1 := if is_pkt n then _ else _).
    assert (Ledger w' (n1 :: r ++ l) /\ m_len n1 = plen /\ is_pkt n1 = is_pkt m /\ mdata w' n1 = mdata w' n /\
      (is_pkt m = true -> pkt_len n1 = s32 (pkt_len m + plen))) as (H2&L2&P2&D2&Q2).
    { pose proof (Ledger_ok _ _ _ H1) as [A B C D]. unfold n1. destruct (is_pkt n) eqn:En.
      - split; [apply (Ledger_swap w' n); [by split|by split|exact H1]|]. split; [done|]. split; [by rewrite <- P1|]. split; [done|].
        intros Em. cbn. by rewrite (proj1 (Q1 Em)).
      - split; [done|]. split; [done|]. split; [by rewrite En|]. split; [done|]. congruence. }
    eexists _, _. split; [done|]. split; [done|]. split; [done|]. split; [done|]. split; [lia|]. split; [done|]. split; [done|].
    exists (mdata w' n). split; [|by rewrite cdata_cons, D2, D1]. by rewrite (Ledger_mdata _ _ _ H1).
Qed.

(** ** m_pullup *)

Lemma umin_eq a b : 0 <= a < 2 ^ 32 -> 0 <= b < 2 ^ 32 -> umin a b = Z.min a b.
Proof. intros. unfold umin. by rewrite !u32_id. Qed.
Lemma umax_eq a b : 0 <= a < 2 ^ 32 -> 0 <= b < 2 ^ 32 -> umax a b = Z.max a b.
Proof. intros. unfold umax. by rewrite !u32_id. Qed.

Lemma mbuf_len_max m : mbuf_ok m -> m_len m <= MCLBYTES.
Proof.
  intros [A B C D]. pose proof (m_base_range m). unfold MLEN, MCLBYTES in *.
  destruct (is_ext m); [destruct (C eq_refl)|destruct (D eq_refl)]; lia.
Qed.

(** The mbuf [m] with chars put behind its data. *)
Record pulled (m m' : mbuf) : Prop := {
  pd_flags : m_flags m' = m_flags m;
  pd_type : m_type m' = m_type m;
  pd_pkt : pkt_len m' = pkt_len m /\ pkt_rcvif m' = pkt_rcvif m }.

Lemma m_pull_loop_ok fuel m n l len space w : Ledger w (m :: n ++ l) -> is_ext m = false ->
  (length n <= fuel)%nat -> n <> [] -> 0 <= len <= space -> space = MLEN - (m_off m + m_len m) ->
  exists m' n' len' w', m_pull_loop fuel m n len space w = Ok (m', n', len', w') /\ Ledger w' (m' :: n' ++ l) /\
    narrows w w' /\ MPFail w' = MPFail w /\ cdata w' (m' :: n') = mdata w m ++ cdata w n /\ pulled m m' /\ m_len m' = m_len m + (len - len') /\
    (0 < len' -> n' = [] /\ clen n < len).
Proof.
  revert m n len space w. induction fuel as [|fuel IH]; intros m n len space w HB Hx Hf Hne Hlen Hsp.
  { destruct n; [done|]. cbn in Hf. lia. }
  destruct n as [|x rest]; [done|]. clear Hne. cbn [m_pull_loop length] in *.
  assert (Ledger w (x :: m :: rest ++ l)) as HBx by by_ledger HB.
  pose proof (Ledger_ok _ _ _ HB) as Hm. pose proof (Ledger_ok _ _ _ HBx) as Hxx. pose proof (mbuf_len_max x Hxx) as Hxm.
  pose proof (ok_len _ Hxx) as Hx0. pose proof (ok_len _ Hm) as Hm0. pose proof (bk_proto _ _ HB) as Hpr.
  assert (0 <= m_off m) as Hoff by (pose proof (ok_int _ Hm Hx); pose proof (m_base_range m); lia).
  unfold MCLBYTES, MLEN in *.
  set (count := umin _ _).
  assert (count = Z.min (Z.min (Z.max len (max_protohdr w)) space) (m_len x)) as Ec.
  { unfold count. rewrite umax_eq by lia. rewrite (umin_eq (Z.max _ _)) by lia. apply umin_eq; lia. }
  clearbody count.
  rewrite (peek_ok w ((x :: m :: rest ++ l) ++ frags (ipq w))) by (try exact HBx; try (by left); lia).
  cbn [mbind outcome_bind]. set (bs := take _ _).
  assert (bs = take (Z.to_nat count) (mdata w x)) as Ebs by done. pose proof (Ledger_mdata _ _ _ HBx) as Lx.
  assert (Z.of_nat (length bs) = count) as Lbs by (rewrite Ebs, length_take; lia). clearbody bs.
  destruct (poke_put w m bs Hm Hx) as (m1&->&Em1&Lm1); [unfold MLEN; lia|]. cbn [mbind outcome_bind].
  rewrite Lbs in Em1. rewrite Em1. destruct (m_put_ok m bs Hm Hx) as (Kp&Rp); [unfold MLEN; lia|].
  pose proof (mdata_put w m bs Hm Hx) as Dp. specialize (Dp ltac:(unfold MLEN; lia)).
  set (m' := m_put m bs) in *. assert (Ledger w (x :: m' :: rest ++ l)) as HB1.
  { pose proof (Ledger_swap _ _ _ _ Rp Kp HB) as H. by_ledger H. }
  assert (is_ext m' = false) as Hx' by (rewrite (rs_ext _ _ Rp); done).
  assert (m_len m' = m_len m + count /\ m_off m' = m_off m /\ pulled m m') as (Lm'&Om'&Pm') by (unfold m'; cbn; rewrite Lbs; by repeat split).
  cbn [m_len set_m_len]. destruct (m_len x - count =? 0) eqn:E0; bool_prop.
  - assert (count = m_len x) as Ecx by lia.
    destruct (adj1_ok x (set_m_len (m_len x - count) x) Hxx (adj1_len (m_len x - count) x ltac:(lia))) as (Kx&Rx).
    destruct (MFREE_ok _ _ _ (Ledger_swap _ _ _ _ Rx Kx HB1)) as (w1&E1&H1&N1&S1). unfold m_free. rewrite E1. cbn [mbind outcome_bind mret outcome_ret].
    destruct (Ledger_chain _ _ _ _ _ H1 N1) as (Dm1&Dr1).
    assert (mdata w1 m' ++ cdata w1 rest = mdata w m ++ cdata w (x :: rest)) as DD.
    { rewrite Dm1, Dp, Dr1, cdata_cons, Ebs, take_ge by lia. by rewrite <- app_assoc. }
    destruct ((0 <? len - count) && negb (is_nil rest)) eqn:E2; bool_prop.
    + destruct (IH m' rest (len - count) (space - count) w1 H1 Hx') as (m2&n2&len2&w2&->&H2&N2&F2&D2&P2&L2&C2); [lia|by destruct rest|lia|unfold MLEN; lia|].
      exists m2, n2, len2, w2. split; [done|]. split; [done|]. split; [by rewrite N1|]. split; [by rewrite F2, (sr_mp _ _ S1)|].
      split; [by rewrite D2, DD|]. split; [destruct P2 as [? ? []], Pm' as [? ? []]; split; try congruence; split; congruence|].
      split; [lia|]. intros Hp. destruct (C2 Hp). split; [done|]. change (clen (x :: rest)) with (m_len x + clen rest). lia.
    + exists m', rest, (len - count), w1. split; [done|]. split; [done|]. split; [done|]. split; [apply S1|].
      split; [done|]. split; [done|]. split; [lia|]. intros Hp. destruct E2 as [E2|E2]; bool_prop; [lia|].
      destruct rest; [|done]. split; [done|]. cbn. lia.
  - cbn [mbind outcome_bind mret outcome_ret].
    assert (len - count <= 0) as Hdone by lia. rewrite (proj2 (Z.ltb_ge 0 _)) by done. cbn [andb].
    set (x' := set_m_off _ _). change x' with (m_trim count (m_len x - count) x). clear x'.
    destruct (m_trim_ok count (m_len x - count) x Hxx) as (Kx&Rx); [lia..|].
    eexists _, _, _, _. split; [done|]. split; [pose proof (Ledger_swap _ _ _ _ Rx Kx HB1) as H; by_ledger H|].
    split; [reflexivity|]. split; [done|]. split.
    + rewrite !cdata_cons, Dp, mdata_trim by (done || lia). rewrite Ebs, <- app_assoc. f_equal. rewrite app_assoc. f_equal.
      rewrite (take_ge (drop _ _)) by (rewrite length_drop; lia). apply take_drop.
    + split; [done|]. split; lia.
Qed.

Lemma pulled_refl m : pulled m m.
Proof. by split. Qed.

(** What m_pullup returns: the chain with its first [len] chars in one mbuf, or
    nothing. *)
Definition pulled_up (m : mbuf) (rest l : list mbuf) (len : Z) (w : mworld) (ch : list mbuf) (w' : mworld) : Prop :=
  narrows w w' /\
  match ch with
  | [] => Ledger w' l /\ MPFail w' = MPFail w + 1 /\ (len <= clen (m :: rest) -> len <= MHLEN -> ~ enough 1 w)
  | n :: r => Ledger w' (ch ++ l) /\ MPFail w' = MPFail w /\ cdata w' ch = cdata w (m :: rest) /\ len <= m_len n /\
      is_ext n = false /\ m_type n = m_type m /\ is_pkt n = is_pkt m /\
      (is_pkt m = true -> pkt_len n = pkt_len m /\ pkt_rcvif n = pkt_rcvif m)
  end.

(** The end of m_pullup, after the loop. *)
Lemma m_pull_ok m n l len w : Ledger w (m :: n ++ l) -> is_ext m = false -> n <> [] ->
  0 <= len <= MLEN - (m_off m + m_len m) ->
  exists ch w', ('(m, n, len, w) ← m_pull_loop (length n) m n len (MLEN - (m_off m + m_len m)) w;
      if 0 <? len then w ← m_free m w; w ← m_freem n w; mret ([], set_MPFail (MPFail w + 1) w)
      else mret (m :: n, w)) = Ok (ch, w') /\ narrows w w' /\
    match ch with
    | [] => Ledger w' l /\ MPFail w' = MPFail w + 1 /\ clen n < len
    | m' :: r => Ledger w' (ch ++ l) /\ MPFail w' = MPFail w /\ cdata w' ch = mdata w m ++ cdata w n /\
        pulled m m' /\ m_len m + len <= m_len m'
    end.
Proof.
  intros HB Hx Hne Hl.
  destruct (m_pull_loop_ok (length n) m n l len _ w HB Hx (le_n _) Hne Hl eq_refl) as (m'&n'&len'&w1&->&H1&N1&F1&D1&P1&L1&C1).
  cbn [mbind outcome_bind]. destruct (0 <? len') eqn:E; bool_prop.
  - destruct (C1 E) as (->&Hc). destruct (MFREE_ok _ _ _ H1) as (w2&E2&H2&N2&S2). unfold m_free. rewrite E2.
    cbn [mbind outcome_bind m_freem mret outcome_ret]. eexists _, _. split; [done|]. split; [|split; [|split; [|done]]].
    + rewrite N1, N2. by split.
    + by apply (Book_env w2).
    + cbn. by rewrite (sr_mp _ _ S2), F1.
  - exists (m' :: n'), w1. split; [done|]. split_and!; try done. lia.
Qed.

Lemma m_pullup_ok m rest l len w : Ledger w (m :: rest ++ l) -> 0 <= len ->
  exists ch w', m_pullup (m :: rest) len w = Ok (ch, w') /\ pulled_up m rest l len w ch w'.
Proof.
  intros HB Hl. pose proof (Ledger_ok _ _ _ HB) as Hm. unfold m_pullup.
  assert (forall w1, Ledger w1 (m :: rest ++ l) -> narrows w w1 -> MPFail w1 = MPFail w ->
    (len <= clen (m :: rest) -> len <= MHLEN -> ~ enough 1 w) ->
    exists ch w', (w ← m_freem (m :: rest) w1; mret ([], set_MPFail (MPFail w + 1) w)) = Ok (ch, w') /\
      pulled_up m rest l len w ch w') as Hbad.
  { intros w1 H1 N1 F1 He. destruct (m_freem_ok (m :: rest) l w1 H1) as (w2&->&H2&N2&S2). cbn.
    eexists _, _. split; [done|]. split; [rewrite N1, N2; by split|]. split; [by apply (Book_env w2)|]. split; [|done].
    cbn. by rewrite (sr_mp _ _ S2), F1. }
  destruct (negb (is_ext m) && (m_off m + len <? MLEN) && negb (is_nil rest)) eqn:E; bool_prop.
  - destruct (len <=? m_len m) eqn:E2; bool_prop.
    { eexists _, _. split; [done|]. split; [reflexivity|]. by split_and!. }
    destruct (m_pull_ok m rest l (len - m_len m) w HB) as (ch&w'&->&N&HC); [done|by destruct rest|lia|].
    exists ch, w'. split; [done|]. split; [done|]. destruct ch as [|n r].
    + destruct HC as (?&?&?). split_and!; try done. change (clen (m :: rest)) with (m_len m + clen rest). lia.
    + destruct HC as (?&?&?&[Pf Pt [Pl Pr]]&?). unfold is_ext, is_pkt in *. rewrite Pf. split_and!; try done. lia.
  - clear E. destruct (MHLEN <? len) eqn:E2; bool_prop.
    { apply Hbad; [done|reflexivity|done|]. lia. }
    destruct (MGET_ok (m_type m) _ w HB) as (o&w1&->&G). cbn [mbind outcome_bind]. destruct o as [n|].
    2:{ destruct G as [G1 G2 _ _ G4 G5]. apply Hbad; try done. intros _ _ He. by destruct (G5 0%nat He) as [[? [=]] _]. }
    pose proof (gotten_ledger _ _ _ _ _ _ G) as HL. destruct G as [[HF Hg] G2 _ _ G4 _].
    pose proof (fresh_ok _ _ _ 0 HF) as (Fx&Fp&Fok); [unfold MLEN; lia|]. destruct HF as [F1 F2 F3 F4].
    set (n0 := set_m_len 0 n).
    assert (Ledger w1 (m :: rest ++ n0 :: l)) as HB1 by by_ledger HL.
    destruct (Ledger_chain _ _ _ _ _ HB1 G2) as (Dm&Dr).
    assert (forall n1 m1, Ledger w1 (n1 :: (m1 :: rest) ++ l) -> is_ext n1 = false -> m_len n1 = 0 -> m_off n1 <= 8 ->
      mdata w1 m1 = mdata w m -> m_type n1 = m_type m -> is_pkt n1 = is_pkt m -> m_len m1 = m_len m ->
      (is_pkt m = true -> pkt_len n1 = pkt_len m /\ pkt_rcvif n1 = pkt_rcvif m) ->
      exists ch w', ('(m, n, len, w) ← m_pull_loop (length (m1 :: rest)) n1 (m1 :: rest) len (MLEN - (m_off n1 + m_len n1)) w1;
        if 0 <? len then w ← m_free m w; w ← m_freem n w; mret ([], set_MPFail (MPFail w + 1) w)
        else mret (m :: n, w)) = Ok (ch, w') /\ pulled_up m rest l len w ch w') as Hgo.
    { intros n1 m1 H1 X1 L1 O1 D1 T1 P1 Lm1 Q1.
      destruct (m_pull_ok n1 (m1 :: rest) l len w1 H1 X1) as (ch&w'&->&N&HC); [done|rewrite L1; unfold MHLEN, MLEN in *; lia|].
      exists ch, w'. split; [done|]. split; [by rewrite G2|]. destruct ch as [|n2 r].
      - destruct HC as (H2&F&Hc). split; [done|]. split; [by rewrite F, G4|]. intros Hle. exfalso.
        change (clen (m1 :: rest)) with (m_len m1 + clen rest) in Hc. change (clen (m :: rest)) with (m_len m + clen rest) in Hle. lia.
      - destruct HC as (H2&F&D2&[Pf Pt [Pl Pr]]&Hle). pose proof (Ledger_mdata _ _ _ H1) as Ln. rewrite L1 in Ln, Hle.
        split; [done|]. split; [by rewrite F, G4|]. split.
        + rewrite D2, !cdata_cons, D1, Dr. destruct (mdata w1 n1); [done|]. cbn in Ln. lia.
        + unfold is_ext, is_pkt in *. rewrite Pf, Pt, Pl, Pr. split_and!; try done; lia. }
    destruct (is_pkt m) eqn:Ep.
    + destruct (unhdr_ok w1 m _ HB1) as (H1&D1). set (m1 := set_m_flags _ m) in *.
      apply Hgo; try done; [|by rewrite is_ext_copy|by rewrite D1|by rewrite is_pkt_copy].
      assert (Ledger w1 (n0 :: (m1 :: rest) ++ l)) as H2 by by_ledger H1.
      eapply Ledger_swap; [| |exact H2]; [split; cbn; [done| |]|].
      * by rewrite is_ext_copy.
      * intros E. change (is_ext n = false) in Fx. change (is_ext n = true) in E. congruence.
      * destruct Fok as [A B C D]. split; [done|cbn; lia|by rewrite is_ext_copy|]. intros _.
        unfold m_base. rewrite is_pkt_copy, Ep. done.
    + apply Hgo; try done. cbn. rewrite F3. lia.
Qed.
