(* ===== verification/Sockbuf.v ===== *)
(** * Socket buffers (sys/kern/uipc_socket2.c, sys/sys/socketvar.h)

    A socket buffer is a queue of records, each a chain of mbufs, with the number
    of its chars and of the bytes of mbufs it holds.  This file has the routines
    that append to it and drop from it, and the queue of records they are meant to
    be: a record is a list of chars, each with the type of the mbuf it came in, and
    of marks for the end of a record. *)

From S2P Require Import Prelude Mbuf MbufBook MbufOps.

(** ** The structure

    The chain of records linked by [m_nextpkt] is the list of the records, the
    first mbuf of each being its head. *)

Definition SB_MAX : Z := 65536.
Definition SB_LOCK : Z := 0x01.

Record sockbuf := mkSockbuf {
  sb_cc : Z;
  sb_hiwat : Z;
  sb_mbcnt : Z;
  sb_mbmax : Z;
  sb_lowat : Z;
  sb_mb : list (list mbuf);
  sb_flags : Z }.

Definition set_sb_cc (v : Z) (sb : sockbuf) : sockbuf := mkSockbuf v (sb_hiwat sb) (sb_mbcnt sb)
  (sb_mbmax sb) (sb_lowat sb) (sb_mb sb) (sb_flags sb).
Definition set_sb_hiwat (v : Z) (sb : sockbuf) : sockbuf := mkSockbuf (sb_cc sb) v (sb_mbcnt sb)
  (sb_mbmax sb) (sb_lowat sb) (sb_mb sb) (sb_flags sb).
Definition set_sb_mbcnt (v : Z) (sb : sockbuf) : sockbuf := mkSockbuf (sb_cc sb) (sb_hiwat sb) v
  (sb_mbmax sb) (sb_lowat sb) (sb_mb sb) (sb_flags sb).
Definition set_sb_mbmax (v : Z) (sb : sockbuf) : sockbuf := mkSockbuf (sb_cc sb) (sb_hiwat sb)
  (sb_mbcnt sb) v (sb_lowat sb) (sb_mb sb) (sb_flags sb).
Definition set_sb_lowat (v : Z) (sb : sockbuf) : sockbuf := mkSockbuf (sb_cc sb) (sb_hiwat sb)
  (sb_mbcnt sb) (sb_mbmax sb) v (sb_mb sb) (sb_flags sb).
Definition set_sb_mb (v : list (list mbuf)) (sb : sockbuf) : sockbuf := mkSockbuf (sb_cc sb)
  (sb_hiwat sb) (sb_mbcnt sb) (sb_mbmax sb) (sb_lowat sb) v (sb_flags sb).
Definition set_sb_flags (v : Z) (sb : sockbuf) : sockbuf := mkSockbuf (sb_cc sb) (sb_hiwat sb)
  (sb_mbcnt sb) (sb_mbmax sb) (sb_lowat sb) (sb_mb sb) v.

(** [sballoc(sb, m)] and [sbfree(sb, m)]. *)
Definition sb_size (m : mbuf) : Z := MSIZE + (if is_ext m then ext_size m else 0).
Definition sballoc (m : mbuf) (sb : sockbuf) : sockbuf :=
  set_sb_mbcnt (u32 (sb_mbcnt sb + sb_size m)) (set_sb_cc (u32 (sb_cc sb + m_len m)) sb).
Definition sbfree (m : mbuf) (sb : sockbuf) : sockbuf :=
  set_sb_mbcnt (u32 (sb_mbcnt sb - sb_size m)) (set_sb_cc (u32 (sb_cc sb - m_len m)) sb).

(** The smaller of two differences, as ints. *)
Definition sbspace (sb : sockbuf) : Z :=
  Z.min (s32 (sb_hiwat sb - sb_cc sb)) (s32 (sb_mbmax sb - sb_mbcnt sb)).

(** ** Appending *)

Definition is_eor (m : mbuf) : bool := has (m_flags m) M_EOR.
Definition clear_eor (m : mbuf) : mbuf := set_m_flags (andnot (m_flags m) M_EOR) m.
Definition add_flags (f : Z) (m : mbuf) : mbuf := set_m_flags (Z.lor (m_flags m) f) m.

Definition semi_panic : string := "semi-panic: sbcompress".

(** [((o = m->m_next) || (o = n)) && o->m_type == m->m_type]. *)
Definition same_type (m : mbuf) (next : list mbuf) (n : option mbuf) : bool :=
  match next with
  | o :: _ => m_type o =? m_type m
  | [] => match n with Some o => m_type o =? m_type m | None => false end
  end.

(** [(n->m_flags & (M_EXT | M_EOR)) == 0 && .. < &n->m_dat[MLEN] && ..]. *)
Definition fits (n m : mbuf) : bool :=
  negb (has (m_flags n) (Z.lor M_EXT M_EOR)) && (m_off n + m_len n + m_len m <? MLEN) && (m_type n =? m_type m).

(** The loop of sbcompress.  The result is what stands at the place of [n] and
    behind it. *)
Fixpoint sbcompress (sb : sockbuf) (m : list mbuf) (n : option mbuf) (eor : Z) (w : mworld)
    : outcome (list mbuf * sockbuf * mworld) :=
  match m with
  | [] =>
      match n with
      | Some n => mret ([if eor =? 0 then n else add_flags eor n], sb, w)
      | None => mret ([], sb, if eor =? 0 then w else set_msgs (semi_panic :: msgs w) w)
      end
  | x :: rest =>
      let eor := Z.lor eor (Z.land (m_flags x) M_EOR) in
      if (m_len x =? 0) && ((eor =? 0) || same_type x rest n) then
        w ← m_free x w; sbcompress sb rest n eor w
      else
        let link :=
          '(t, sb, w) ← sbcompress (sballoc x sb) rest (Some (clear_eor x)) eor w;
          mret (match n with Some n => n :: t | None => t end, sb, w) in
        match n with
        | Some n =>
            if fits n x then
              bs ← peek w x 0 (m_len x);
              '(n, w) ← poke n (m_len n) bs w;
              let n := set_m_len (m_len n + m_len x) n in
              let sb := set_sb_cc (u32 (sb_cc sb + m_len x)) sb in
              w ← m_free x w;
              sbcompress sb rest (Some n) eor w
            else link
        | None => link
        end
  end.

(** A list without its last element, and that. *)
Fixpoint split_last {A} (l : list A) : option (list A * A) :=
  match l with
  | [] => None
  | x :: l => match split_last l with None => Some ([], x) | Some (k, y) => Some (x :: k, y) end
  end.

(** The end of record moves from the first mbuf of a chain to the second. *)
Definition eor_to_next (m0 : mbuf) (m : list mbuf) : mbuf * list mbuf :=
  match m with
  | x :: rest => if is_eor m0 then (clear_eor m0, add_flags M_EOR x :: rest) else (m0, m)
  | [] => (m0, m)
  end.

(** A chain as a record between the records [pre] and [post]. *)
Definition sbnewrecord (sb : sockbuf) (pre post : list (list mbuf)) (m0 : mbuf) (m : list mbuf) (w : mworld)
    : outcome (sockbuf * mworld) :=
  let sb := sballoc m0 sb in
  let '(m0, m) := eor_to_next m0 m in
  '(t, sb, w) ← sbcompress sb m (Some m0) 0 w;
  mret (set_sb_mb (pre ++ t :: post) sb, w).

Definition sbappendrecord (sb : sockbuf) (m0 : list mbuf) (w : mworld) : outcome (sockbuf * mworld) :=
  match m0 with
  | [] => mret (sb, w)
  | m0 :: m => sbnewrecord sb (sb_mb sb) [] m0 m w
  end.

Definition sbappend (sb : sockbuf) (m : list mbuf) (w : mworld) : outcome (sockbuf * mworld) :=
  match m with
  | [] => mret (sb, w)
  | _ =>
      match split_last (sb_mb sb) with
      | None =>
          '(t, sb, w) ← sbcompress sb m None 0 w;
          mret (set_sb_mb (if is_nil t then [] else [t]) sb, w)
      | Some (pre, record) =>
          if existsb is_eor record then sbappendrecord sb m w
          else
            match split_last record with
            | None => Fault
            | Some (ms, n) =>
                '(t, sb, w) ← sbcompress sb m (Some n) 0 w;
                mret (set_sb_mb (pre ++ [ms ++ t]) sb, w)
            end
      end
  end.

(** Is a record passed over by sbinsertoob?  Its first mbuf that is not control
    data is out of band. *)
Fixpoint oob_train (record : list mbuf) : bool :=
  match record with
  | [] => false
  | m :: rest =>
      if m_type m =? MT_OOBDATA then true
      else if m_type m =? MT_CONTROL then oob_train rest else false
  end.

Fixpoint oob_split (records : list (list mbuf)) : list (list mbuf) * list (list mbuf) :=
  match records with
  | [] => ([], [])
  | r :: rs => if oob_train r then let '(pre, post) := oob_split rs in (r :: pre, post) else ([], records)
  end.

Definition sbinsertoob (sb : sockbuf) (m0 : list mbuf) (w : mworld) : outcome (sockbuf * mworld) :=
  match m0 with
  | [] => mret (sb, w)
  | m0 :: m => let '(pre, post) := oob_split (sb_mb sb) in sbnewrecord sb pre post m0 m w
  end.

(** Appending an address, control data and data.  [asa] is the address, of
    [sa_len] chars.  On failure the chains stay with the caller. *)
Definition sbappendaddr (sb : sockbuf) (asa : list Z) (m0 control : list mbuf) (w : mworld)
    : outcome (bool * sockbuf * mworld) :=
  let sa_len := Z.of_nat (length asa) in
  pkt ← match m0 with
        | [] => mret 0
        | m :: _ => if is_pkt m then mret (pkt_len m) else Panic "sbappendaddr"
        end;
  let space := fold_left (fun space n => s32 (space + m_len n)) control (s32 (sa_len + pkt)) in
  if sbspace sb <? space then mret (false, sb, w)
  else if MLEN <? sa_len then mret (false, sb, w)
  else
    '(o, w) ← MGET MT_SONAME w;
    match o with
    | None => mret (false, sb, w)
    | Some m =>
        let m := set_m_len sa_len m in
        '(m, w) ← poke m 0 asa w;
        let record := m :: control ++ m0 in
        let sb := fold_left (fun sb n => sballoc n sb) record sb in
        mret (true, set_sb_mb (sb_mb sb ++ [record]) sb, w)
    end.

Definition sbappendcontrol (sb : sockbuf) (m0 control : list mbuf) : outcome (bool * sockbuf) :=
  match control with
  | [] => Panic "sbappendcontrol"
  | _ =>
      let space := fold_left (fun space n => s32 (space + m_len n)) (control ++ m0) 0 in
      if sbspace sb <? space then mret (false, sb)
      else
        let record := control ++ m0 in
        let sb := fold_left (fun sb n => sballoc n sb) record sb in
        mret (true, set_sb_mb (sb_mb sb ++ [record]) sb)
  end.

(** ** Dropping *)

(** The first loop of sbdrop within a record: what is left of [len] and of the
    record. *)
Fixpoint sbdrop_rec (len : Z) (m : list mbuf) (sb : sockbuf) (w : mworld)
    : outcome (Z * list mbuf * sockbuf * mworld) :=
  match m with
  | [] => mret (len, [], sb, w)
  | x :: rest =>
      if 0 <? len then
        if len <? m_len x then
          mret (0, set_m_off (m_off x + len) (set_m_len (m_len x - len) x) :: rest,
                set_sb_cc (u32 (sb_cc sb - len)) sb, w)
        else
          w ← MFREE x w; sbdrop_rec (len - m_len x) rest (sbfree x sb) w
      else mret (len, m, sb, w)
  end.

(** Going on with the next record. *)
Fixpoint sbdrop_loop (len : Z) (m : list mbuf) (next : list (list mbuf)) (sb : sockbuf) (w : mworld)
    : outcome (list mbuf * list (list mbuf) * sockbuf * mworld) :=
  '(len, m, sb, w) ← sbdrop_rec len m sb w;
  if (0 <? len) && is_nil m then
    match next with
    | [] => Panic "sbdrop"
    | m :: next => sbdrop_loop len m next sb w
    end
  else mret (m, next, sb, w).

(** The mbufs without data that are first now. *)
Fixpoint sbdrop_empty (m : list mbuf) (sb : sockbuf) (w : mworld) : outcome (list mbuf * sockbuf * mworld) :=
  match m with
  | [] => mret ([], sb, w)
  | x :: rest =>
      if m_len x =? 0 then w ← MFREE x w; sbdrop_empty rest (sbfree x sb) w
      else mret (m, sb, w)
  end.

Definition sbdrop (sb : sockbuf) (len : Z) (w : mworld) : outcome (sockbuf * mworld) :=
  let '(m, next) := match sb_mb sb with [] => ([], []) | m :: next => (m, next) end in
  '(m, next, sb, w) ← sbdrop_loop len m next sb w;
  '(m, sb, w) ← sbdrop_empty m sb w;
  mret (set_sb_mb (if is_nil m then next else m :: next) sb, w).

Fixpoint sbdrop_all (m : list mbuf) (sb : sockbuf) (w : mworld) : outcome (sockbuf * mworld) :=
  match m with
  | [] => mret (sb, w)
  | x :: rest => w ← MFREE x w; sbdrop_all rest (sbfree x sb) w
  end.
Definition sbdroprecord (sb : sockbuf) (w : mworld) : outcome (sockbuf * mworld) :=
  match sb_mb sb with
  | [] => mret (sb, w)
  | m :: next => sbdrop_all m (set_sb_mb next sb) w
  end.

(** The loop of sbflush drops at least one record or all chars at each turn. *)
Fixpoint sbflush_loop (fuel : nat) (sb : sockbuf) (w : mworld) : outcome (sockbuf * mworld) :=
  if sb_mbcnt sb =? 0 then mret (sb, w)
  else
    match fuel with
    | O => Fault
    | S fuel => '(sb, w) ← sbdrop sb (s32 (sb_cc sb)) w; sbflush_loop fuel sb w
    end.
Definition sbflush (sb : sockbuf) (w : mworld) : outcome (sockbuf * mworld) :=
  if has (sb_flags sb) SB_LOCK then Panic "sbflush"
  else
    '(sb, w) ← sbflush_loop (S (length (sb_mb sb))) sb w;
    if negb (sb_cc sb =? 0) || negb (is_nil (sb_mb sb)) then Panic "sbflush 2" else mret (sb, w).

(** ** Reserving

    The low water mark is signed; compared with the high water mark it is
    unsigned. *)

Definition sbreserve (sb : sockbuf) (cc : Z) : bool * sockbuf :=
  if SB_MAX * MCLBYTES / (MSIZE + MCLBYTES) <? cc then (false, sb)
  else
    let sb := set_sb_mbmax (umin (cc * 2) SB_MAX) (set_sb_hiwat cc sb) in
    (true, if sb_hiwat sb <? u32 (sb_lowat sb) then set_sb_lowat (s32 (sb_hiwat sb)) sb else sb).

Definition sbrelease (sb : sockbuf) (w : mworld) : outcome (sockbuf * mworld) :=
  '(sb, w) ← sbflush sb w; mret (set_sb_hiwat 0 (set_sb_mbmax 0 sb), w).

Definition ENOBUFS : Z := 55.

Definition soreserve (so_snd so_rcv : sockbuf) (sndcc rcvcc : Z) (w : mworld)
    : outcome (Z * sockbuf * sockbuf * mworld) :=
  match sbreserve so_snd sndcc with
  | (false, _) => mret (ENOBUFS, so_snd, so_rcv, w)
  | (true, snd) =>
      match sbreserve so_rcv rcvcc with
      | (false, _) => '(snd, w) ← sbrelease snd w; mret (ENOBUFS, snd, so_rcv, w)
      | (true, rcv) =>
          let rcv := if sb_lowat rcv =? 0 then set_sb_lowat 1 rcv else rcv in
          let snd := if sb_lowat snd =? 0 then set_sb_lowat MCLBYTES snd else snd in
          let snd := if sb_hiwat snd <? u32 (sb_lowat snd) then set_sb_lowat (s32 (sb_hiwat snd)) snd else snd in
          mret (0, snd, rcv, w)
      end
  end.

(** ** The queue of records *)

Inductive item : Type :=
  | Ch (type c : Z)
  | Eor.

Definition is_ch (i : item) : bool := match i with Ch _ _ => true | Eor => false end.
Definition chars (l : list item) : list item := List.filter is_ch l.
Definition has_eor (l : list item) : bool := existsb (fun i => negb (is_ch i)) l.
Definition nchars (l : list item) : Z := Z.of_nat (length (chars l)).

(** What the code keeps of appended data: the chars, and one mark at the end. *)
Definition acompress (l : list item) : list item := chars l ++ (if has_eor l then [Eor] else []).

Definition aappendrecord (q : list (list item)) (l : list item) : list (list item) := q ++ [l].

(** Data goes to the last record unless that has ended; nothing is no record. *)
Definition aappend (q : list (list item)) (l : list item) : list (list item) :=
  match split_last q with
  | None => if is_nil l then [] else [l]
  | Some (pre, r) => if has_eor r then aappendrecord q l else pre ++ [r ++ l]
  end.

(** Dropping [n] chars of a record, and the marks that are first then. *)
Fixpoint items_drop (n : Z) (l : list item) : Z * list item :=
  match l with
  | [] => (n, [])
  | Eor :: l => items_drop n l
  | Ch _ _ :: k => if 0 <? n then items_drop (n - 1) k else (n, l)
  end.

Fixpoint adrop (n : Z) (q : list (list item)) : option (list (list item)) :=
  match q with
  | [] => if 0 <? n then None else Some []
  | r :: rs =>
      let '(n, r) := items_drop n r in
      if is_nil r then if 0 <? n then adrop n rs else Some rs else Some (r :: rs)
  end.

Definition mitems (w : mworld) (m : mbuf) : list item :=
  map (Ch (m_type m)) (mdata w m) ++ (if is_eor m then [Eor] else []).
Definition ritems (w : mworld) (r : list mbuf) : list item := flat_map (mitems w) r.
Definition sbitems (w : mworld) (sb : sockbuf) : list (list item) := map (ritems w) (sb_mb sb).
