(* ===== verification/SockbufInv.v ===== *)
(** * Socket buffers refine queues of records

    The invariant of a socket buffer, that its counts are those of the mbufs it
    holds, and for each routine that it keeps the invariant and the ledger of the
    mbufs, and does to the queue of records what its comment says. *)

From S2P Require Import Prelude Mbuf MbufBook MbufOps Sockbuf.

(** ** Items *)

Lemma chars_app l k : chars (l ++ k) = chars l ++ chars k.
Proof. apply List.filter_app. Qed.
Lemma has_eor_app l k : has_eor (l ++ k) = has_eor l || has_eor k.
Proof. apply existsb_app. Qed.
Lemma nchars_app l k : nchars (l ++ k) = nchars l + nchars k.
Proof. unfold nchars. rewrite chars_app, length_app. lia. Qed.

Lemma chars_map t l : chars (map (Ch t) l) = map (Ch t) l.
Proof. unfold chars. induction l as [|c l IH]; cbn; [done|]. by rewrite IH. Qed.
Lemma has_eor_map t l : has_eor (map (Ch t) l) = false.
Proof. unfold has_eor. induction l as [|c l IH]; cbn; done. Qed.

Lemma chars_mitems w m : chars (mitems w m) = map (Ch (m_type m)) (mdata w m).
Proof. unfold mitems. rewrite chars_app, chars_map. destruct (is_eor m); cbn; by rewrite app_nil_r. Qed.
Lemma has_eor_mitems w m : has_eor (mitems w m) = is_eor m.
Proof. unfold mitems. rewrite has_eor_app, has_eor_map. by destruct (is_eor m). Qed.

Lemma ritems_cons w m r : ritems w (m :: r) = mitems w m ++ ritems w r.
Proof. done. Qed.
Lemma ritems_app w r k : ritems w (r ++ k) = ritems w r ++ ritems w k.
Proof. apply flat_map_app. Qed.

Lemma has_eor_ritems w r : has_eor (ritems w r) = existsb is_eor r.
Proof. induction r as [|m r IH]; [done|]. by rewrite ritems_cons, has_eor_app, has_eor_mitems, IH. Qed.

(** *** The items do not change while the clusters are in use *)

Lemma mitems_narrow w w' m l : Ledger w' (m :: l) -> narrows w w' -> mitems w' m = mitems w m.
Proof. intros HB HN. unfold mitems. by rewrite (mdata_narrow w w' _ m HB) by (by left || done). Qed.

Lemma ritems_narrow w w' r l : Ledger w' (r ++ l) -> narrows w w' -> ritems w' r = ritems w r.
Proof.
  intros HB HN. revert l HB. induction r as [|m r IH]; intros l HB; [done|]. rewrite !ritems_cons.
  rewrite (mitems_narrow w w' m (r ++ l)) by done. f_equal. apply (IH (m :: l)). by_ledger HB.
Qed.

Lemma records_narrow w w' rs l : Ledger w' (concat rs ++ l) -> narrows w w' -> map (ritems w') rs = map (ritems w) rs.
Proof.
  intros HB HN. revert l HB. induction rs as [|r rs IH]; intros l HB; [done|]. cbn in *. rewrite <- app_assoc in HB.
  rewrite (ritems_narrow w w' r (concat rs ++ l)) by done. f_equal. apply (IH (r ++ l)). by_ledger HB.
Qed.

Lemma nchars_mitems w m l : Ledger w (m :: l) -> nchars (mitems w m) = m_len m.
Proof. intros HB. unfold nchars. rewrite chars_mitems, length_map. apply (Ledger_mdata _ _ _ HB). Qed.

Lemma nchars_ritems w r l : Ledger w (r ++ l) -> nchars (ritems w r) = clen r.
Proof.
  revert l. induction r as [|m r IH]; intros l HB; [done|]. rewrite ritems_cons, nchars_app, (nchars_mitems w m (r ++ l)) by done.
  change (clen (m :: r)) with (m_len m + clen r). f_equal. apply (IH (m :: l)). by_ledger HB.
Qed.

(** ** Other flags *)

Lemma is_eor_bit m : is_eor m = Z.testbit (m_flags m) 2.
Proof. apply (has_flag_pow _ 2). lia. Qed.

(** Flags that are neither [M_EXT] nor [M_PKTHDR]. *)
Definition flags_like (m m' : mbuf) : Prop :=
  is_ext m' = is_ext m /\ is_pkt m' = is_pkt m /\ exists f, m' = set_m_flags f m.

Lemma clear_eor_like m : flags_like m (clear_eor m) /\ is_eor (clear_eor m) = false.
Proof.
  split; [split; [by apply has_clear|split; [by apply has_clear|by eexists]]|].
  rewrite is_eor_bit. cbn [m_flags clear_eor set_m_flags]. unfold andnot. rewrite Z.land_spec, Z.lnot_spec by lia.
  change (Z.testbit M_EOR 2) with true. apply andb_false_r.
Qed.

Lemma add_eor_like m : flags_like m (add_flags M_EOR m) /\ is_eor (add_flags M_EOR m) = true.
Proof.
  split; [split; [by apply has_lor|split; [by apply has_lor|by eexists]]|].
  rewrite is_eor_bit. cbn [m_flags add_flags set_m_flags]. rewrite Z.lor_spec. apply orb_true_r.
Qed.

Lemma flags_like_ok w m m' l : Ledger w (m :: l) -> flags_like m m' ->
  Ledger w (m' :: l) /\ mdata w m' = mdata w m /\ m_len m' = m_len m /\ m_type m' = m_type m /\ sb_size m' = sb_size m.
Proof.
  intros HB (Ex&Ep&(f&->)). split.
  - apply (Ledger_swap w m); [by split| |done]. destruct (Ledger_ok _ _ _ HB) as [A B C D]. split; try done.
    + intros E. apply C. congruence.
    + intros E. rewrite Ex in E. unfold m_base in *. rewrite Ep. by apply D.
  - unfold mdata, area, sb_size. rewrite Ex. done.
Qed.

(** ** The counts *)

(** [dcc] chars and [dmb] bytes of mbufs more; nothing else. *)
Record moved (sb sb' : sockbuf) (dcc dmb : Z) : Prop := {
  mv_cc : u32 (sb_cc sb') = u32 (sb_cc sb + dcc);
  mv_mbcnt : u32 (sb_mbcnt sb') = u32 (sb_mbcnt sb + dmb);
  mv_range : 0 <= sb_cc sb < 2 ^ 32 -> 0 <= sb_mbcnt sb < 2 ^ 32 -> 0 <= sb_cc sb' < 2 ^ 32 /\ 0 <= sb_mbcnt sb' < 2 ^ 32;
  mv_hiwat : sb_hiwat sb' = sb_hiwat sb;
  mv_mbmax : sb_mbmax sb' = sb_mbmax sb;
  mv_lowat : sb_lowat sb' = sb_lowat sb;
  mv_mb : sb_mb sb' = sb_mb sb;
  mv_flags : sb_flags sb' = sb_flags sb }.

Lemma moved_refl sb : moved sb sb 0 0.
Proof. split; rewrite ?Z.add_0_r; auto. Qed.

Lemma moved_trans sb1 sb2 sb3 a b a' b' : moved sb1 sb2 a b -> moved sb2 sb3 a' b' -> moved sb1 sb3 (a + a') (b + b').
Proof.
  intros [A1 A2 A3 A4 A5 A6 A7 A8] [B1 B2 B3 B4 B5 B6 B7 B8]. split; [| | |by etrans..].
  - by rewrite B1, <- u32_add, A1, u32_add, Z.add_assoc.
  - by rewrite B2, <- u32_add, A2, u32_add, Z.add_assoc.
  - intros R1 R2. destruct (A3 R1 R2). by apply B3.
Qed.

Lemma u32_idem z : u32 (u32 z) = u32 z.
Proof. apply u32_id, u32_range. Qed.

Lemma sballoc_moved m sb : moved sb (sballoc m sb) (m_len m) (sb_size m).
Proof. split; cbn; rewrite ?u32_idem; auto using u32_range. Qed.
Lemma sbfree_moved m sb : moved sb (sbfree m sb) (- m_len m) (- sb_size m).
Proof. split; cbn; rewrite ?u32_idem; auto using u32_range. Qed.
Lemma cc_moved d sb : moved sb (set_sb_cc (u32 (sb_cc sb + d)) sb) d 0.
Proof. split; cbn; rewrite ?u32_idem, ?Z.add_0_r; auto using u32_range. Qed.

(** The buffer counts what it holds. *)
Record sb_ok (sb : sockbuf) : Prop := {
  sk_cc : sb_cc sb = u32 (clen (concat (sb_mb sb)));
  sk_mbcnt : sb_mbcnt sb = u32 (total sb_size (concat (sb_mb sb)));
  sk_records : Forall (fun r => r <> []) (sb_mb sb) }.

Lemma moved_ok sb sb' rs dcc dmb : sb_ok sb -> moved sb sb' dcc dmb ->
  clen (concat rs) = clen (concat (sb_mb sb)) + dcc ->
  total sb_size (concat rs) = total sb_size (concat (sb_mb sb)) + dmb ->
  Forall (fun r => r <> []) rs -> sb_ok (set_sb_mb rs sb').
Proof.
  intros [K1 K2 K3] [A1 A2 A3 _ _ _ _ _] E1 E2 Hr.
  destruct A3 as (R1&R2); [rewrite K1; apply u32_range|rewrite K2; apply u32_range|].
  split; cbn [sb_cc sb_mbcnt sb_mb set_sb_mb]; [| |done].
  - by rewrite E1, <- (u32_id (sb_cc sb')), A1, K1, u32_add by done.
  - by rewrite E2, <- (u32_id (sb_mbcnt sb')), A2, K2, u32_add by done.
Qed.

(** ** sbcompress *)

Definition osize (f : mbuf -> Z) (n : option mbuf) : Z := match n with Some n => f n | None => 0 end.
Definition olist (n : option mbuf) : list mbuf := match n with Some n => [n] | None => [] end.

Lemma has_lor_r f a b : has f (Z.lor a b) = has f a || has f b.
Proof.
  unfold has. rewrite Z.land_lor_distr_r. destruct (Z.land f a =? 0) eqn:E1, (Z.land f b =? 0) eqn:E2; bool_prop; cbn.
  - by rewrite E1, E2.
  - apply negb_true_iff, Z.eqb_neq. rewrite E1. by rewrite Z.lor_0_l.
  - apply negb_true_iff, Z.eqb_neq. rewrite E2. by rewrite Z.lor_0_r.
  - apply negb_true_iff, Z.eqb_neq. intros [? ?]%Z.lor_eq_0_iff. done.
Qed.

Lemma fits_ext n m : fits n m = true -> is_ext n = false /\ is_eor n = false /\
  m_off n + m_len n + m_len m < MLEN /\ m_type n = m_type m.
Proof. unfold fits. rewrite has_lor_r, negb_orb. intros H. bool_prop. by split_and!. Qed.

(** [eor |= m->m_flags & M_EOR]. *)
Lemma eor_next eor x : eor = 0 \/ eor = M_EOR ->
  let e := Z.lor eor (Z.land (m_flags x) M_EOR) in
  (e = 0 \/ e = M_EOR) /\ negb (e =? 0) = negb (eor =? 0) || is_eor x.
Proof.
  intros He. assert (Z.land (m_flags x) M_EOR = if is_eor x then M_EOR else 0) as ->.
  { rewrite is_eor_bit. apply Z.bits_inj'. intros i Hi. rewrite Z.land_spec.
    change M_EOR with (2 ^ 2). rewrite Z.pow2_bits_eqb by lia. destruct (Z.eqb_spec 2 i) as [<-|Hn].
    - destruct (Z.testbit (m_flags x) 2); done.
    - rewrite andb_false_r. destruct (Z.testbit (m_flags x) 2); [|by rewrite Z.bits_0].
      rewrite Z.pow2_bits_eqb by lia. symmetry. by apply Z.eqb_neq. }
  destruct He as [-> | ->], (is_eor x); cbn; auto.
Qed.

(** What sbcompress makes of a chain behind [n]. *)
Lemma sbcompress_ok m n eor l : forall sb w, Ledger w (olist n ++ m ++ l) ->
  (eor = 0 \/ eor = M_EOR) -> (eor <> 0 -> n = None -> m <> []) ->
  (forall n0, n = Some n0 -> is_eor n0 = false \/ (m = [] /\ eor = 0)) ->
  exists t sb' w', sbcompress sb m n eor w = Ok (t, sb', w') /\ Ledger w' (t ++ l) /\ narrows w w' /\ msgs w' = msgs w /\
    moved sb sb' (clen t - osize m_len n) (total sb_size t - osize sb_size n) /\
    (n <> None -> t <> []) /\
    (n = None -> chars (ritems w m) ++ (if negb (eor =? 0) || has_eor (ritems w m) then [Eor] else []) = [] -> t = []) /\
    ritems w' t = flat_map (mitems w) (olist n) ++ chars (ritems w m) ++
      (if negb (eor =? 0) || has_eor (ritems w m) then [Eor] else []).
Proof.
  revert n eor l. induction m as [|x rest IH]; intros n eor l sb w HB He Hn Hm.
  - destruct n as [n|]; cbn [sbcompress].
    2:{ destruct (eor =? 0) eqn:E0; bool_prop; [|by destruct (Hn E0 eq_refl)].
        exists [], sb, w. cbn [negb orb]. split_and!; try done. apply moved_refl. }
    destruct (eor =? 0) eqn:E0; bool_prop.
    + exists [n], sb, w. split_and!; try done; [|cbn; by rewrite !app_nil_r].
      unfold clen. cbn [total osize]. rewrite !Z.add_0_r, !Z.sub_diag. apply moved_refl.
    + assert (eor = M_EOR) as -> by (by destruct He). destruct (Hm n eq_refl) as [Hne|(_&?)]; [|done].
      destruct (add_eor_like n) as (HL&Hon). destruct (flags_like_ok w n _ _ HB HL) as (H1&D1&L1&T1&S1).
      exists [add_flags M_EOR n], sb, w. split_and!; try done.
      * unfold clen. cbn [total osize]. rewrite L1, S1, !Z.add_0_r, !Z.sub_diag. apply moved_refl.
      * cbn [ritems flat_map olist]. rewrite !app_nil_r. unfold mitems. by rewrite D1, T1, Hne, Hon, app_nil_r.
  - assert (forall n0, n = Some n0 -> is_eor n0 = false) as Hm' by (intros n0 E; by destruct (Hm n0 E) as [|[]]).
    destruct (eor_next eor x He) as (He'&Ee). cbn [sbcompress]. set (e := Z.lor eor _) in *.
    assert (Ledger w (x :: rest ++ olist n ++ l)) as HBx by by_ledger HB.
    pose proof (Ledger_mdata _ _ _ HBx) as Lx.
    assert (chars (ritems w (x :: rest)) = map (Ch (m_type x)) (mdata w x) ++ chars (ritems w rest)) as Ech
      by (by rewrite ritems_cons, chars_app, chars_mitems).
    assert (negb (eor =? 0) || has_eor (ritems w (x :: rest)) = negb (e =? 0) || has_eor (ritems w rest)) as Emk
      by (by rewrite ritems_cons, has_eor_app, has_eor_mitems, Ee, orb_assoc).
    rewrite Ech, Emk. clear Ech Emk.
    destruct ((m_len x =? 0) && ((e =? 0) || same_type x rest n)) eqn:Ef.
    { (* [x] is freed *)
      bool_prop. destruct (MFREE_ok _ _ _ HBx) as (w1&E1&H1&N1&S1). unfold m_free. rewrite E1. cbn [mbind outcome_bind].
      assert (Ledger w1 (olist n ++ rest ++ l)) as HB1 by by_ledger H1.
      destruct (IH n e l sb w1 HB1 He') as (t&sb'&w'&->&H2&N2&M2&V2&T2&Z2&D2).
      - intros Hne ->. destruct H0 as [?|Hs]; bool_prop; [done|]. by destruct rest.
      - intros n0 E. left. auto.
      - exists t, sb', w'. split; [done|]. split; [done|]. split; [by rewrite N1|]. split; [by rewrite M2, (sr_msgs _ _ S1)|].
        split; [done|]. split; [done|].
        rewrite (ritems_narrow w w1 rest (olist n ++ l)) in Z2 by done. assert (mdata w x = []) as -> by (apply length_zero_iff_nil; lia).
        split; [done|]. rewrite D2, (ritems_narrow w w1 rest (olist n ++ l)) by done. cbn [map app]. f_equal.
        change (flat_map (mitems w1) (olist n)) with (ritems w1 (olist n)). by apply (ritems_narrow w w1 _ (rest ++ l)). }
    assert (map (Ch (m_type x)) (mdata w x) ++ chars (ritems w rest) ++
      (if negb (e =? 0) || has_eor (ritems w rest) then [Eor] else []) <> []) as Hsome.
    { intros E. apply app_eq_nil in E as (Ex&[_ Em]%app_eq_nil). destruct (mdata w x) eqn:Edx; [|done]. cbn in Lx. revert Ef Em.
      rewrite <- Lx. cbn. by destruct (e =? 0). }
    rewrite <- app_assoc. clear Ef.
    assert (exists t sb' w', ('(t, sb, w) ← sbcompress (sballoc x sb) rest (Some (clear_eor x)) e w;
        mret (match n with Some n => n :: t | None => t end, sb, w)) = Ok (t, sb', w') /\
      Ledger w' (t ++ l) /\ narrows w w' /\ msgs w' = msgs w /\
      moved sb sb' (clen t - osize m_len n) (total sb_size t - osize sb_size n) /\ (n <> None -> t <> []) /\
      (n = None -> map (Ch (m_type x)) (mdata w x) ++ chars (ritems w rest) ++
        (if negb (e =? 0) || has_eor (ritems w rest) then [Eor] else []) = [] -> t = []) /\
      ritems w' t = flat_map (mitems w) (olist n) ++ map (Ch (m_type x)) (mdata w x) ++ chars (ritems w rest) ++
        (if negb (e =? 0) || has_eor (ritems w rest) then [Eor] else [])) as Hlink.
    { destruct (clear_eor_like x) as (HL&Hoff). destruct (flags_like_ok w x _ _ HBx HL) as (H1&D1&L1&T1&S1).
      assert (Ledger w (olist (Some (clear_eor x)) ++ rest ++ olist n ++ l)) as H1' by by_ledger H1.
      destruct (IH (Some (clear_eor x)) e (olist n ++ l) (sballoc x sb) w H1' He') as (t&sb'&w'&->&H2&N2&M2&V2&T2&Z2&D2);
        [done|intros n0 [= <-]; by left|]. cbn [mbind outcome_bind].
      eexists _, _, _. split; [done|]. split; [destruct n; cbn [olist app] in H2; by_ledger H2|]. split; [done|]. split; [done|].
      pose proof (moved_trans _ _ _ _ _ _ _ (sballoc_moved x sb) V2) as V. cbn [osize] in V. rewrite L1, S1 in V.
      replace (m_len x + (clen t - m_len x)) with (clen t) in V by lia.
      replace (sb_size x + (total sb_size t - sb_size x)) with (total sb_size t) in V by lia.
      split; [|split; [by destruct n; [|intros []]|split; [done|]]].
      - destruct n as [n|]; cbn [osize]; [|by rewrite !Z.sub_0_r].
        change (clen (n :: t)) with (m_len n + clen t). cbn [total].
        replace (m_len n + clen t - m_len n) with (clen t) by lia.
        by replace (sb_size n + total sb_size t - sb_size n) with (total sb_size t) by lia.
      - cbn [flat_map olist] in D2. rewrite app_nil_r in D2. unfold mitems at 1 in D2. rewrite T1, D1, Hoff, app_nil_r in D2.
        rewrite <- D2. destruct n as [n|]; [|done]. cbn [flat_map olist]. rewrite app_nil_r, ritems_cons. f_equal.
        apply (mitems_narrow w w' n (t ++ l)); [cbn [olist app] in H2; by_ledger H2|done]. }
    destruct n as [n|]; [|exact Hlink]. destruct (fits n x) eqn:Ef; [|exact Hlink]. clear Hlink.
    (* its chars are put behind [n] *)
    destruct (fits_ext n x Ef) as (Hnx&Hne&Hfit&Hty).
    assert (Ledger w (n :: x :: rest ++ l)) as HBn by by_ledger HB. pose proof (Ledger_ok _ _ _ HBn) as Kn.
    rewrite (Ledger_peek _ _ _ HBx). cbn [mbind outcome_bind].
    destruct (poke_put w n (mdata w x) Kn Hnx) as (n1&->&En1&Ln1); [lia|]. cbn [mbind outcome_bind].
    rewrite Lx in En1. rewrite En1. destruct (m_put_ok n (mdata w x) Kn Hnx) as (Kp&Rp); [lia|].
    pose proof (mdata_put w n (mdata w x) Kn Hnx ltac:(lia)) as Dp.
    assert (is_eor (m_put n (mdata w x)) = false /\ m_type (m_put n (mdata w x)) = m_type n /\
      m_len (m_put n (mdata w x)) = m_len n + m_len x /\ sb_size (m_put n (mdata w x)) = sb_size n) as (Oe&Ot&Ol&Os).
    { split_and!; [done|done|cbn; by rewrite Lx|]. unfold sb_size. by rewrite (rs_ext _ _ Rp), Hnx. }
    set (n' := m_put n (mdata w x)) in *.
    assert (Ledger w (x :: n' :: rest ++ l)) as HB1.
    { pose proof (Ledger_swap _ _ _ _ Rp Kp HBn) as H. by_ledger H. }
    destruct (MFREE_ok _ _ _ HB1) as (w1&E1&H1&N1&S1). unfold m_free. rewrite E1. cbn [mbind outcome_bind].
    destruct (IH (Some n') e l (set_sb_cc (u32 (sb_cc sb + m_len x)) sb) w1 H1 He') as (t&sb'&w'&->&H2&N2&M2&V2&T2&Z2&D2);
      [done|intros n0 [= <-]; by left|].
    exists t, sb', w'. split; [done|]. split; [done|]. split; [by rewrite N1|]. split; [by rewrite M2, (sr_msgs _ _ S1)|].
    split; [|split; [by intros _; apply T2|split; [done|]]].
    + pose proof (moved_trans _ _ _ _ _ _ _ (cc_moved (m_len x) sb) V2) as V. cbn [osize] in *. rewrite Ol, Os in V.
      replace (m_len x + (clen t - (m_len n + m_len x))) with (clen t - m_len n) in V by lia. by rewrite Z.add_0_l in V.
    + rewrite D2. cbn [flat_map olist]. rewrite !app_nil_r. unfold mitems. rewrite Oe, Ot, Hne, !app_nil_r.
      destruct (Ledger_chain _ _ _ _ _ H1 N1) as (Dn&Dr). rewrite Dn, Dp, map_app, Hty, <- !app_assoc.
      assert (Ledger w1 (rest ++ n' :: l)) as H1' by by_ledger H1. by rewrite (ritems_narrow w w1 rest (n' :: l)).
Qed.

(** ** Appending *)

(** A buffer that keeps its books, among the mbufs [l] held elsewhere. *)
Definition holds (w : mworld) (sb : sockbuf) (l : list mbuf) : Prop :=
  sb_ok sb /\ Ledger w (concat (sb_mb sb) ++ l).

(** The marks and the lock of the buffer stay. *)
Record same_limits (sb sb' : sockbuf) : Prop := {
  sl_hiwat : sb_hiwat sb' = sb_hiwat sb;
  sl_mbmax : sb_mbmax sb' = sb_mbmax sb;
  sl_lowat : sb_lowat sb' = sb_lowat sb;
  sl_flags : sb_flags sb' = sb_flags sb }.
#[export] Instance same_limits_po : PreOrder same_limits.
Proof. split; [by split|]. intros x y z [] []. split; congruence. Qed.

Lemma moved_limits sb sb' a b rs : moved sb sb' a b -> same_limits sb (set_sb_mb rs sb').
Proof. intros []. by split. Qed.

Lemma clen_app l k : clen (l ++ k) = clen l + clen k.
Proof. apply total_app. Qed.
Lemma clen_concat_app l k : clen (concat (l ++ k)) = clen (concat l) + clen (concat k).
Proof. rewrite concat_app. apply clen_app. Qed.
Lemma size_concat_app l k : total sb_size (concat (l ++ k)) = total sb_size (concat l) + total sb_size (concat k).
Proof. rewrite concat_app. apply total_app. Qed.

Lemma acompress_mitems w m : acompress (mitems w m) = mitems w m.
Proof. unfold acompress. rewrite chars_mitems, has_eor_mitems. done. Qed.

Lemma eor_to_next_ok w m0 m l : Ledger w (m0 :: m ++ l) ->
  exists m0' m', eor_to_next m0 m = (m0', m') /\ Ledger w (m0' :: m' ++ l) /\ m_len m0' = m_len m0 /\
    sb_size m0' = sb_size m0 /\
    mitems w m0' ++ chars (ritems w m') ++ (if has_eor (ritems w m') then [Eor] else []) =
      acompress (ritems w (m0 :: m)) /\ (is_eor m0' = false \/ m' = []).
Proof.
  intros HB. unfold acompress. rewrite ritems_cons, chars_app, has_eor_app, has_eor_mitems, chars_mitems.
  destruct m as [|x rest]; cbn [eor_to_next].
  - exists m0, []. cbn [ritems flat_map chars has_eor List.filter existsb app]. rewrite orb_false_r, !app_nil_r.
    split_and!; try done. by right.
  - destruct (is_eor m0) eqn:E0.
    + destruct (clear_eor_like m0) as (HL0&Hoff). destruct (flags_like_ok w m0 _ _ HB HL0) as (H1&D1&L1&T1&S1).
      destruct (add_eor_like x) as (HLx&Hon).
      assert (Ledger w (x :: clear_eor m0 :: rest ++ l)) as H1' by by_ledger H1.
      destruct (flags_like_ok w x _ _ H1' HLx) as (H2&D2&L2&T2&S2).
      exists (clear_eor m0), (add_flags M_EOR x :: rest). split; [done|]. split; [by_ledger H2|]. split; [done|]. split; [done|].
      split; [|by left]. rewrite !ritems_cons, !chars_app, !has_eor_app, !has_eor_mitems, !chars_mitems, Hon, D2, T2. cbn [orb].
      unfold mitems. by rewrite D1, T1, Hoff, app_nil_r, <- !app_assoc.
    + exists m0, (x :: rest). split; [done|]. split; [done|]. split; [done|]. split; [done|]. split; [|by left].
      cbn [orb]. unfold mitems. by rewrite E0, app_nil_r, <- !app_assoc.
Qed.

Lemma sbnewrecord_ok sb pre post m0 m l w : sb_ok sb -> sb_mb sb = pre ++ post ->
  Ledger w ((m0 :: m) ++ concat (sb_mb sb) ++ l) ->
  exists sb' w', sbnewrecord sb pre post m0 m w = Ok (sb', w') /\ holds w' sb' l /\ narrows w w' /\ msgs w' = msgs w /\
    same_limits sb sb' /\
    sbitems w' sb' = map (ritems w) pre ++ acompress (ritems w (m0 :: m)) :: map (ritems w) post.
Proof.
  intros Hsb Emb HB. unfold sbnewrecord.
  destruct (eor_to_next_ok w m0 m _ HB) as (m0'&m'&->&H1&L1&S1&A1&O1).
  destruct (sbcompress_ok m' (Some m0') 0 (concat (sb_mb sb) ++ l) (sballoc m0 sb) w) as (t&sb'&w'&->&H2&N2&M2&V2&T2&Z2&D2);
    [done|by left|done| |].
  { intros n0 [= <-]. destruct O1; [by left|by right]. }
  cbn [mbind outcome_bind]. eexists _, _. split; [done|].
  pose proof (moved_trans _ _ _ _ _ _ _ (sballoc_moved m0 sb) V2) as V. cbn [osize] in V. rewrite L1, S1 in V.
  rewrite !Z.add_sub_assoc, !(Z.add_comm (m_len m0)), !(Z.add_comm (sb_size m0)), !Z.add_simpl_r in V.
  rewrite Emb in H2. rewrite concat_app in H2.
  split; [split|split; [done|split; [done|split; [by eapply moved_limits|]]]].
  - eapply moved_ok; [done|done| | |].
    + rewrite Emb, !clen_concat_app. cbn [concat]. rewrite clen_app. lia.
    + rewrite Emb, !size_concat_app. cbn [concat]. rewrite total_app. lia.
    + pose proof (sk_records _ Hsb) as Hr. rewrite Emb in Hr. apply list.Forall_app in Hr as [Hr1 Hr2].
      apply list.Forall_app. split; [done|]. constructor; [by apply T2|done].
  - cbn [sb_mb set_sb_mb]. rewrite concat_app. cbn [concat]. by_ledger H2.
  - unfold sbitems. cbn [sb_mb set_sb_mb]. rewrite map_app. cbn [map].
    rewrite (records_narrow w w' pre (t ++ concat post ++ l)) by (done || by_ledger H2).
    rewrite (records_narrow w w' post (t ++ concat pre ++ l)) by (done || by_ledger H2).
    f_equal. f_equal. rewrite D2, <- A1. cbn [flat_map olist]. by rewrite app_nil_r.
Qed.

Lemma sbappendrecord_ok sb m0 m l w : sb_ok sb -> Ledger w ((m0 :: m) ++ concat (sb_mb sb) ++ l) ->
  exists sb' w', sbappendrecord sb (m0 :: m) w = Ok (sb', w') /\ holds w' sb' l /\ narrows w w' /\ msgs w' = msgs w /\
    same_limits sb sb' /\ sbitems w' sb' = aappendrecord (sbitems w sb) (acompress (ritems w (m0 :: m))).
Proof. intros Hsb HB. apply sbnewrecord_ok; [done|by rewrite app_nil_r|done]. Qed.

Lemma oob_split_eq rs : let '(pre, post) := oob_split rs in rs = pre ++ post.
Proof. induction rs as [|r rs IH]; cbn; [done|]. destruct (oob_train r); [|done]. destruct (oob_split rs). by rewrite IH. Qed.

Lemma sbinsertoob_ok sb m0 m l w : sb_ok sb -> Ledger w ((m0 :: m) ++ concat (sb_mb sb) ++ l) ->
  exists sb' w', sbinsertoob sb (m0 :: m) w = Ok (sb', w') /\ holds w' sb' l /\ narrows w w' /\ msgs w' = msgs w /\
    same_limits sb sb' /\
    sbitems w' sb' = map (ritems w) (oob_split (sb_mb sb)).1 ++ acompress (ritems w (m0 :: m)) ::
      map (ritems w) (oob_split (sb_mb sb)).2.
Proof.
  intros Hsb HB. cbn [sbinsertoob]. pose proof (oob_split_eq (sb_mb sb)) as E. destruct (oob_split (sb_mb sb)) as [pre post].
  by apply sbnewrecord_ok.
Qed.

Lemma split_last_eq {A} (l : list A) :
  match split_last l with None => l = [] | Some (k, x) => l = k ++ [x] end.
Proof.
  induction l as [|y l IH]; cbn; [done|]. destruct (split_last l) as [[k x]|]; [by rewrite IH|by rewrite IH].
Qed.

Lemma split_last_map {A B} (f : A -> B) l :
  split_last (map f l) = match split_last l with None => None | Some (k, x) => Some (map f k, f x) end.
Proof. induction l as [|y l IH]; cbn; [done|]. rewrite IH. by destruct (split_last l) as [[k x]|]. Qed.

Lemma sbappend_ok sb m l w : sb_ok sb -> m <> [] -> Ledger w (m ++ concat (sb_mb sb) ++ l) ->
  exists sb' w', sbappend sb m w = Ok (sb', w') /\ holds w' sb' l /\ narrows w w' /\ msgs w' = msgs w /\
    same_limits sb sb' /\ sbitems w' sb' = aappend (sbitems w sb) (acompress (ritems w m)).
Proof.
  intros Hsb Hm HB. destruct m as [|m0 m]; [done|]. unfold sbappend, aappend, sbitems at 2. rewrite split_last_map.
  pose proof (split_last_eq (sb_mb sb)) as Emb. destruct (split_last (sb_mb sb)) as [[pre r]|].
  2:{ rewrite Emb in HB. destruct (sbcompress_ok (m0 :: m) None 0 l sb w HB) as (t&sb'&w'&->&H2&N2&M2&V2&_&Z2&D2);
        [by left|done|done|]. cbn [mbind outcome_bind]. cbn [osize] in V2. rewrite !Z.sub_0_r in V2.
      eexists _, _. split; [done|]. destruct t as [|t0 t].
        assert (acompress (ritems w (m0 :: m)) = []) as -> by (symmetry; exact D2). cbn [is_nil].
        split; [split|split; [done|split; [done|split; [by eapply moved_limits|done]]]]; [|done].
        eapply moved_ok; [done|done| | |by constructor]; rewrite Emb; done.
      - assert (acompress (ritems w (m0 :: m)) = ritems w' (t0 :: t)) as -> by (symmetry; exact D2).
        assert (is_nil (ritems w' (t0 :: t)) = false) as Hz.
        { rewrite D2. destruct (flat_map _ _ ++ _) eqn:E; [|done]. by specialize (Z2 eq_refl E). }
        rewrite Hz. cbn [is_nil].
        split; [split|split; [done|split; [done|split; [by eapply moved_limits|done]]]].
        + eapply moved_ok; [done|done| | |by repeat constructor]; rewrite Emb; cbn [concat]; by rewrite ?app_nil_r.
        + cbn [sb_mb set_sb_mb concat]. by rewrite app_nil_r. }
  rewrite has_eor_ritems. destruct (existsb is_eor r) eqn:Er; [by apply sbappendrecord_ok|].
  pose proof (sk_records _ Hsb) as Hr. rewrite Emb in Hr. apply list.Forall_app in Hr as [Hr1 Hr2].
  apply (proj1 (Forall_singleton _ _)) in Hr2. pose proof (split_last_eq r) as Ers. destruct (split_last r) as [[ms n]|]; [|done].
  rewrite Emb, Ers, concat_app in HB. cbn [concat] in HB. rewrite app_nil_r in HB.
  assert (Ledger w (olist (Some n) ++ (m0 :: m) ++ concat pre ++ ms ++ l)) as HB1 by (cbn [olist]; by_ledger HB).
  assert (is_eor n = false) as Hne.
  { rewrite Ers, existsb_app in Er. cbn in Er. by bool_prop. }
  destruct (sbcompress_ok (m0 :: m) (Some n) 0 _ sb w HB1) as (t&sb'&w'&->&H2&N2&M2&V2&T2&_&D2);
    [by left|done|intros n0 [= <-]; by left|]. cbn [mbind outcome_bind]. cbn [osize] in V2.
  eexists _, _. split; [done|].
  split; [split|split; [done|split; [done|split; [by eapply moved_limits|]]]].
  - eapply moved_ok; [done|done| | |].
    + rewrite Emb, Ers, !clen_concat_app. cbn [concat]. rewrite !app_nil_r, !clen_app. cbn. lia.
    + rewrite Emb, Ers, !size_concat_app. cbn [concat]. rewrite !app_nil_r, !total_app. cbn. lia.
    + apply list.Forall_app. split; [done|]. apply Forall_singleton. intros E. apply app_eq_nil in E as [_ E]. by apply T2.
  - cbn [sb_mb set_sb_mb]. rewrite concat_app. cbn [concat]. rewrite app_nil_r. by_ledger H2.
  - unfold sbitems. cbn [sb_mb set_sb_mb]. rewrite map_app. cbn [map]. f_equal.
    + apply (records_narrow w w' pre (t ++ ms ++ l)); [by_ledger H2|done].
    + f_equal. rewrite ritems_app, D2. rewrite (ritems_narrow w w' ms (t ++ concat pre ++ l)) by (done || by_ledger H2).
      rewrite Ers, ritems_app, <- app_assoc. done.
Qed.

(** *** Addresses and control data *)

Lemma sballoc_all_moved r sb : moved sb (fold_left (fun sb n => sballoc n sb) r sb) (clen r) (total sb_size r).
Proof.
  revert sb. induction r as [|m r IH]; intros sb; [apply moved_refl|]. cbn [fold_left].
  apply (moved_trans _ _ _ _ _ _ _ (sballoc_moved m sb) (IH _)).
Qed.

(** A record put behind the others as it is. *)
Lemma sbput_ok sb r l w : sb_ok sb -> r <> [] -> Ledger w (r ++ concat (sb_mb sb) ++ l) ->
  let sb1 := fold_left (fun sb n => sballoc n sb) r sb in
  let sb' := set_sb_mb (sb_mb sb1 ++ [r]) sb1 in
  holds w sb' l /\ same_limits sb sb' /\ sbitems w sb' = aappendrecord (sbitems w sb) (ritems w r).
Proof.
  intros Hsb Hr HB sb1 sb'. pose proof (sballoc_all_moved r sb) as V. fold sb1 in V. unfold sb'.
  rewrite (mv_mb _ _ _ _ V). split; [split|split; [by eapply moved_limits|]].
  - eapply moved_ok; [done|done| | |].
    + rewrite clen_concat_app. cbn [concat]. by rewrite app_nil_r.
    + rewrite size_concat_app. cbn [concat]. by rewrite app_nil_r.
    + apply list.Forall_app. split; [apply sk_records, Hsb|by apply Forall_singleton].
  - cbn [sb_mb set_sb_mb]. rewrite concat_app. cbn [concat]. rewrite app_nil_r. by_ledger HB.
  - unfold sbitems. cbn [sb_mb set_sb_mb]. by rewrite map_app.
Qed.

Lemma space_fold ch a : fold_left (fun space n => s32 (space + m_len n)) ch (s32 a) = s32 (a + clen ch).
Proof.
  revert a. induction ch as [|m ch IH]; intros a; cbn [fold_left]; [by rewrite Z.add_0_r|].
  rewrite s32_add_l, IH. f_equal. change (clen (m :: ch)) with (m_len m + clen ch). lia.
Qed.

(** What sbappendaddr asks for: the header's word for the data. *)
Definition addr_space (asa : list Z) (m0 control : list mbuf) : Z :=
  s32 (Z.of_nat (length asa) + (match m0 with [] => 0 | m :: _ => pkt_len m end) + clen control).

Definition addr_items (asa : list Z) : list item := map (Ch MT_SONAME) asa.

Lemma sbappendaddr_ok sb asa m0 control l w : sb_ok sb ->
  Ledger w (m0 ++ control ++ concat (sb_mb sb) ++ l) -> (forall m r, m0 = m :: r -> is_pkt m = true) ->
  exists ok sb' w', sbappendaddr sb asa m0 control w = Ok (ok, sb', w') /\ narrows w w' /\
    if ok : bool then
      addr_space asa m0 control <= sbspace sb /\ Z.of_nat (length asa) <= MLEN /\ holds w' sb' l /\ same_limits sb sb' /\
      sbitems w' sb' = aappendrecord (sbitems w sb) (addr_items asa ++ ritems w control ++ ritems w m0)
    else
      (sbspace sb < addr_space asa m0 control \/ MLEN < Z.of_nat (length asa) \/ ~ enough 1 w) /\
      sb' = sb /\ Ledger w' (m0 ++ control ++ concat (sb_mb sb) ++ l).
Proof.
  intros Hsb HB Hp. unfold sbappendaddr.
  assert (match m0 with [] => mret 0 | m :: _ => if is_pkt m then mret (pkt_len m) else Panic "sbappendaddr" end =
    Ok (match m0 with [] => 0 | m :: _ => pkt_len m end)) as ->.
  { destruct m0 as [|m r]; [done|]. by rewrite (Hp m r). }
  cbn [mbind outcome_bind]. rewrite space_fold. fold (addr_space asa m0 control).
  destruct (sbspace sb <? addr_space asa m0 control) eqn:E1; bool_prop.
  { exists false, sb, w. split; [done|]. split; [reflexivity|]. split; [by left|done]. }
  destruct (MLEN <? Z.of_nat (length asa)) eqn:E2; bool_prop.
  { exists false, sb, w. split; [done|]. split; [reflexivity|]. split; [by right; left|done]. }
  destruct (MGET_ok MT_SONAME _ w HB) as (o&w1&->&G). cbn [mbind outcome_bind]. destruct o as [m|].
  2:{ destruct G as [G1 G2 _ _ _ G5]. exists false, sb, w1. split; [done|]. split; [done|]. split; [|done].
      right; right. intros He. by destruct (G5 0%nat He) as [[? [=]] _]. }
  pose proof (gotten_ledger _ _ _ _ _ _ G) as HL. destruct G as [[HF Hg] G2 _ _ _ _].
  destruct (fresh_ok _ _ _ 0 HF) as (Fx&Fp&Fok); [unfold MLEN; lia|]. destruct HF as [F1 F2 F3 F4].
  assert (m_off m + Z.of_nat (length asa) <= MLEN) as Hfit by (rewrite F3; lia).
  rewrite (poke_ok w1 (set_m_len (Z.of_nat (length asa)) m) 0 asa); [|done|done| |].
  2:{ change (m_base (set_m_len _ m)) with (m_base m). unfold m_base. rewrite Fp. cbn. rewrite F3. done. }
  2:{ cbn. lia. }
  cbn [mbind outcome_bind].
  assert (set_m_dat (splice (m_dat (set_m_len (Z.of_nat (length asa)) m)) (m_off (set_m_len (Z.of_nat (length asa)) m) + 0) asa)
    (set_m_len (Z.of_nat (length asa)) m) = m_put (set_m_len 0 m) asa) as -> by (by unfold m_put).
  destruct (m_put_ok (set_m_len 0 m) asa Fok Fx) as (Kp&Rp); [cbn; lia|].
  pose proof (mdata_put w1 (set_m_len 0 m) asa Fok Fx ltac:(cbn; lia)) as Dp.
  set (m' := m_put (set_m_len 0 m) asa) in *.
  assert (Ledger w1 ((m' :: control ++ m0) ++ concat (sb_mb sb) ++ l)) as HB1.
  { pose proof (Ledger_swap _ _ _ _ Rp Kp HL) as H. by_ledger H. }
  destruct (sbput_ok sb (m' :: control ++ m0) l w1 Hsb) as (H2&SL&D2); [done|exact HB1|].
  eexists true, _, _. split; [done|]. split; [done|]. split; [done|]. split; [done|]. split; [exact H2|]. split; [exact SL|].
  rewrite D2. unfold aappendrecord. f_equal.
  - apply (records_narrow w w1 (sb_mb sb) ((m' :: control ++ m0) ++ l)); [by_ledger HB1|done].
  - f_equal. rewrite ritems_cons, ritems_app. f_equal.
    + unfold mitems. change (m_type m') with (m_type m). change (is_eor m') with (is_eor m). rewrite F1, Dp.
      unfold is_eor. rewrite F2. cbn. rewrite app_nil_r. done.
    + rewrite (ritems_narrow w w1 control (m' :: m0 ++ concat (sb_mb sb) ++ l)) by (done || by_ledger HB1).
      by rewrite (ritems_narrow w w1 m0 (m' :: control ++ concat (sb_mb sb) ++ l)) by (done || by_ledger HB1).
Qed.

Lemma sbappendcontrol_ok sb m0 c control l w : sb_ok sb ->
  Ledger w (m0 ++ (c :: control) ++ concat (sb_mb sb) ++ l) ->
  exists ok sb', sbappendcontrol sb m0 (c :: control) = Ok (ok, sb') /\
    if ok : bool then
      s32 (clen ((c :: control) ++ m0)) <= sbspace sb /\ holds w sb' l /\ same_limits sb sb' /\
      sbitems w sb' = aappendrecord (sbitems w sb) (ritems w (c :: control) ++ ritems w m0)
    else sbspace sb < s32 (clen ((c :: control) ++ m0)) /\ sb' = sb.
Proof.
  intros Hsb HB. unfold sbappendcontrol. change (fold_left ?f ?l 0) with (fold_left f l (s32 0)). rewrite space_fold, Z.add_0_l.
  destruct (sbspace sb <? s32 (clen ((c :: control) ++ m0))) eqn:E; bool_prop; [exists false, sb; split_and!; done|].
  destruct (sbput_ok sb ((c :: control) ++ m0) l w Hsb) as (H2&SL&D2); [done|by_ledger HB|].
  eexists true, _. split; [done|]. split; [done|]. split; [exact H2|]. split; [exact SL|]. by rewrite D2, ritems_app.
Qed.

(** ** Dropping *)

Lemma items_drop_map t d k n : 0 <= n ->
  items_drop n (map (Ch t) d ++ k) =
    if n <? Z.of_nat (length d) then (0, map (Ch t) (drop (Z.to_nat n) d) ++ k) else items_drop (n - Z.of_nat (length d)) k.
Proof.
  revert n. induction d as [|c d IH]; intros n Hn; cbn [map app items_drop length].
  - rewrite (proj2 (Z.ltb_ge _ _)) by lia. by rewrite Z.sub_0_r.
  - destruct (0 <? n) eqn:E; bool_prop.
    + rewrite IH by lia.
      destruct (n - 1 <? Z.of_nat (length d)) eqn:E1, (n <? Z.of_nat (S (length d))) eqn:E2; bool_prop; try lia.
      * replace (Z.to_nat n) with (S (Z.to_nat (n - 1))) by lia. done.
      * f_equal. lia.
    + assert (n = 0) as -> by lia. done.
Qed.

Lemma items_drop_mitems w m l k n : Ledger w (m :: l) -> m_len m <= n -> items_drop n (mitems w m ++ k) = items_drop (n - m_len m) k.
Proof.
  intros HB Hn. pose proof (Ledger_mdata _ _ _ HB) as Lm. unfold mitems. rewrite <- app_assoc, items_drop_map by lia.
  rewrite (proj2 (Z.ltb_ge _ _)) by lia. rewrite Lm. by destruct (is_eor m).
Qed.

Lemma sb_size_pos m : mbuf_ok m -> 128 <= sb_size m <= 2176.
Proof.
  intros Hm. unfold sb_size, MSIZE. destruct (is_ext m) eqn:E; [|lia].
  destruct (ok_ext _ Hm E) as (->&_). unfold MCLBYTES. lia.
Qed.

Lemma size_nonneg r : Forall mbuf_ok r -> 0 <= total sb_size r /\ (r <> [] -> 0 < total sb_size r).
Proof.
  induction 1 as [|m r Hm _ (IH&_)]; cbn [total]; [done|]. pose proof (sb_size_pos m Hm). split; lia.
Qed.

(** Part of what was there: the ledger goes on, the counts follow. *)
Record dropped (w : mworld) (sb : sockbuf) (r l : list mbuf) (w' : mworld) (sb' : sockbuf) (r' : list mbuf) : Prop := {
  dr_ledger : Ledger w' (r' ++ l);
  dr_narrows : narrows w w';
  dr_moved : moved sb sb' (clen r' - clen r) (total sb_size r' - total sb_size r);
  dr_clen : clen r' <= clen r;
  dr_size : total sb_size r' <= total sb_size r }.

Lemma dropped_refl w sb r l : Ledger w (r ++ l) -> dropped w sb r l w sb r.
Proof. intros HB. split; [done|done| |lia|lia]. rewrite !Z.sub_diag. apply moved_refl. Qed.

Lemma dropped_trans w1 sb1 r1 w2 sb2 r2 w3 sb3 r3 l :
  dropped w1 sb1 r1 l w2 sb2 r2 -> dropped w2 sb2 r2 l w3 sb3 r3 -> dropped w1 sb1 r1 l w3 sb3 r3.
Proof.
  intros [A1 A2 A3 A4 A5] [B1 B2 B3 B4 B5]. split; [done|by etrans| |lia|lia].
  pose proof (moved_trans _ _ _ _ _ _ _ A3 B3) as V.
  replace (clen r2 - clen r1 + (clen r3 - clen r2)) with (clen r3 - clen r1) in V by lia.
  by replace (total sb_size r2 - total sb_size r1 + (total sb_size r3 - total sb_size r2)) with (total sb_size r3 - total sb_size r1) in V by lia.
Qed.

(** More at the end that is not looked at. *)
Lemma dropped_app w sb r k l w' sb' r' : dropped w sb r (k ++ l) w' sb' r' -> dropped w sb (r ++ k) l w' sb' (r' ++ k).
Proof.
  intros [A1 A2 A3 A4 A5]. split; [by rewrite <- app_assoc|done| |rewrite !clen_app; lia|rewrite !total_app; lia].
  rewrite !clen_app, !total_app.
  replace (clen r' + clen k - (clen r + clen k)) with (clen r' - clen r) by lia.
  by replace (total sb_size r' + total sb_size k - (total sb_size r + total sb_size k)) with (total sb_size r' - total sb_size r) by lia.
Qed.

(** The first mbuf is given back. *)
Lemma sbfree_dropped w sb x r l : Ledger w (x :: r ++ l) ->
  exists w', MFREE x w = Ok w' /\ dropped w sb (x :: r) l w' (sbfree x sb) r /\ ritems w' r = ritems w r.
Proof.
  intros HB. destruct (MFREE_ok _ _ _ HB) as (w'&E&H&N&S). exists w'. split; [done|].
  split; [|by apply (ritems_narrow w w' r l)]. pose proof (Ledger_ok _ _ _ HB) as Hx. pose proof (ok_len _ Hx) as Hl.
  pose proof (sb_size_pos x Hx) as Hs.
  split; [done|done| |change (clen (x :: r)) with (m_len x + clen r); lia|cbn [total]; lia].
  change (clen (x :: r)) with (m_len x + clen r). cbn [total].
  replace (clen r - (m_len x + clen r)) with (- m_len x) by lia.
  replace (total sb_size r - (sb_size x + total sb_size r)) with (- sb_size x) by lia. apply sbfree_moved.
Qed.

Lemma sbdrop_rec_ok m l : forall len sb w, Ledger w (m ++ l) -> 0 <= len ->
  exists len' m' sb' w', sbdrop_rec len m sb w = Ok (len', m', sb', w') /\ dropped w sb m l w' sb' m' /\
    0 <= len' /\ (m' <> [] -> len' = 0) /\ items_drop len (ritems w m) = items_drop len' (ritems w' m').
Proof.
  induction m as [|x rest IH]; intros len sb w HB Hl; cbn [sbdrop_rec].
  - exists len, [], sb, w. split; [done|]. split; [by apply dropped_refl|]. by split_and!.
  - destruct (0 <? len) eqn:E; bool_prop.
    2:{ exists len, (x :: rest), sb, w. split; [done|]. split; [by apply dropped_refl|]. split_and!; [done| |done]. lia. }
    pose proof (Ledger_ok _ _ _ HB) as Hx. pose proof (Ledger_mdata _ _ _ HB) as Lx.
    destruct (len <? m_len x) eqn:E2; bool_prop.
    + change (set_m_off (m_off x + len) (set_m_len (m_len x - len) x)) with (m_trim len (m_len x - len) x).
      destruct (m_trim_ok len (m_len x - len) x Hx) as (Kx&Rx); [lia..|].
      set (x' := m_trim len (m_len x - len) x) in *.
      assert (sb_size x' = sb_size x) as Es by (unfold sb_size; by rewrite (rs_ext _ _ Rx)).
      eexists _, _, _, _. split; [done|]. split.
      * pose proof (Ledger_swap _ _ _ _ Rx Kx HB) as H1. split; [exact H1|reflexivity| | |].
        -- change (clen (x' :: rest)) with (m_len x - len + clen rest). change (clen (x :: rest)) with (m_len x + clen rest).
           cbn [total]. rewrite Es. rewrite Z.sub_diag.
           replace (m_len x - len + clen rest - (m_len x + clen rest)) with (- len) by lia. apply (cc_moved (- len) sb).
        -- change (clen (x' :: rest)) with (m_len x - len + clen rest). change (clen (x :: rest)) with (m_len x + clen rest). lia.
        -- cbn [total]. lia.
      * split; [done|]. split; [done|]. rewrite !ritems_cons. unfold mitems at 1 2. change (m_type x') with (m_type x).
        change (is_eor x') with (is_eor x). unfold x' at 1. rewrite mdata_trim by (done || lia).
        rewrite <- !app_assoc, !items_drop_map by lia. rewrite (proj2 (Z.ltb_lt _ _)) by lia.
        rewrite (take_ge (drop _ _)) by (rewrite length_drop; lia). rewrite length_drop.
        rewrite (proj2 (Z.ltb_lt 0 _)) by lia. done.
    + destruct (sbfree_dropped w sb x rest l HB) as (w1&->&D1&I1). cbn [mbind outcome_bind].
      destruct (IH (len - m_len x) (sbfree x sb) w1 (dr_ledger _ _ _ _ _ _ _ D1)) as (len'&m'&sb'&w'&->&D2&H0&H1&H2); [lia|].
      exists len', m', sb', w'. split; [done|]. split; [by eapply dropped_trans|]. split; [done|]. split; [done|].
      rewrite ritems_cons, (items_drop_mitems w x (rest ++ l)) by (done || lia). by rewrite <- I1.
Qed.

Lemma sbdrop_empty_ok m l : forall sb w, Ledger w (m ++ l) ->
  exists m' sb' w', sbdrop_empty m sb w = Ok (m', sb', w') /\ dropped w sb m l w' sb' m' /\
    items_drop 0 (ritems w m) = (0, ritems w' m') /\ (m' <> [] -> ritems w' m' <> []).
Proof.
  induction m as [|x rest IH]; intros sb w HB; cbn [sbdrop_empty].
  - exists [], sb, w. split; [done|]. split; [by apply dropped_refl|]. by split.
  - pose proof (Ledger_mdata _ _ _ HB) as Lx. destruct (m_len x =? 0) eqn:E; bool_prop.
    + destruct (sbfree_dropped w sb x rest l HB) as (w1&->&D1&I1). cbn [mbind outcome_bind].
      destruct (IH (sbfree x sb) w1 (dr_ledger _ _ _ _ _ _ _ D1)) as (m'&sb'&w'&->&D2&H1&H2).
      exists m', sb', w'. split; [done|]. split; [by eapply dropped_trans|]. split; [|done].
      rewrite ritems_cons, (items_drop_mitems w x (rest ++ l)), E by (done || lia). by rewrite <- I1.
    + exists (x :: rest), sb, w. split; [done|]. split; [by apply dropped_refl|].
      rewrite ritems_cons. unfold mitems. destruct (mdata w x) as [|c d]; [cbn in Lx; lia|]. by split.
Qed.

Lemma is_nil_eq {A} (l : list A) : is_nil l = true <-> l = [].
Proof. by destruct l. Qed.

(** The records after the mbufs [m] of the current one and the records [next]. *)
Definition front (w : mworld) (m : list mbuf) (next : list (list mbuf)) : list (list item) :=
  let r := (items_drop 0 (ritems w m)).2 in if is_nil r then map (ritems w) next else r :: map (ritems w) next.

Lemma items_drop_zero k : (items_drop 0 k).1 = 0.
Proof. by induction k as [|[] k IH]. Qed.

Lemma dropped_Ledger w sb r l w' sb' r' k : dropped w sb r l w' sb' r' -> r' ++ l = k -> Ledger w' k.
Proof. intros [A _ _ _ _] <-. done. Qed.

(** The loop ends in the record it is in. *)
Lemma front_stop w m next len : 0 <= len -> (m <> [] -> len = 0) ->
  (0 <? len) && is_nil m = false ->
  front w m next = (let '(n, r) := items_drop len (ritems w m) in if is_nil r then map (ritems w) next else r :: map (ritems w) next) /\
  (items_drop len (ritems w m)).1 = 0.
Proof.
  intros Hl Hm E. assert (len = 0) as -> by (destruct m; [rewrite andb_true_r in E; bool_prop; lia|by apply Hm]).
  unfold front. split; [|apply items_drop_zero]. by destruct (items_drop 0 (ritems w m)).
Qed.

Lemma sbdrop_loop_ok next l : forall m len sb w, Ledger w (m ++ concat next ++ l) -> 0 <= len ->
  match adrop len (ritems w m :: map (ritems w) next) with
  | None => sbdrop_loop len m next sb w = Panic "sbdrop"
  | Some q => exists m' next' sb' w', sbdrop_loop len m next sb w = Ok (m', next', sb', w') /\
      dropped w sb (m ++ concat next) l w' sb' (m' ++ concat next') /\ next' `suffix_of` next /\ front w' m' next' = q
  end.
Proof.
  induction next as [|r next IH]; intros m len sb w HB Hl.
  all: cbn [sbdrop_loop map]; destruct (sbdrop_rec_ok m _ len sb w HB Hl) as (len1&m1&sb1&w1&->&D1&H0&H1&H2);
    cbn [mbind outcome_bind adrop]; rewrite H2; destruct ((0 <? len1) && is_nil m1) eqn:E.
  1,3: apply andb_true_iff in E as (E1&E2); apply Z.ltb_lt in E1; apply is_nil_eq in E2; subst m1; cbn [ritems flat_map items_drop is_nil]; rewrite (proj2 (Z.ltb_lt _ _)) by done.
  - done.
  - pose proof (dr_ledger _ _ _ _ _ _ _ D1) as HB1. cbn [app concat] in HB1. rewrite <- app_assoc in HB1.
    specialize (IH r len1 sb1 w1 HB1 H0).
    assert (map (ritems w1) (r :: next) = map (ritems w) (r :: next)) as En.
    { apply (records_narrow w w1 (r :: next) l); [cbn [concat]; by rewrite <- app_assoc|apply D1]. }
    cbn [map] in En. rewrite En in IH. cbn [adrop] in IH. destruct (items_drop len1 (ritems w r)) as [n r'].
    match type of IH with match ?x with _ => _ end => destruct x as [q|] end; [|done].
    destruct IH as (m'&next'&sb'&w'&E3&D2&Hs&Hq). exists m', next', sb', w'. split; [done|]. split; [|split; [by apply suffix_cons_r|done]].
    apply dropped_app in D1. by eapply dropped_trans.
  - destruct (front_stop w1 m1 [] len1 H0 H1 E) as (Ef&Ez). destruct (items_drop len1 (ritems w1 m1)) as [n r'].
    cbn in Ez. subst n. assert ((if is_nil r' then if 0 <? 0 then if 0 <? 0 then None else Some [] else Some [] else Some [r']) = Some (front w1 m1 [])) as ->.
    { rewrite Ef. by destruct (is_nil r'). }
    exists m1, [], sb1, w1. split; [done|]. split; [by apply dropped_app|]. done.
  - destruct (front_stop w1 m1 (r :: next) len1 H0 H1 E) as (Ef&Ez). destruct (items_drop len1 (ritems w1 m1)) as [n r'].
    cbn in Ez. subst n. 
    assert (map (ritems w1) (r :: next) = map (ritems w) (r :: next)) as En.
    { apply (records_narrow w w1 (r :: next) (m1 ++ l)); [|apply D1]. pose proof (dr_ledger _ _ _ _ _ _ _ D1) as HB1. by_ledger HB1. }
    rewrite En in Ef. cbn [map] in Ef.
    assert ((if is_nil r' then if 0 <? 0 then adrop 0 (ritems w r :: map (ritems w) next) else Some (ritems w r :: map (ritems w) next)
      else Some (r' :: ritems w r :: map (ritems w) next)) = Some (front w1 m1 (r :: next))) as E2.
    { rewrite Ef. by destruct (is_nil r'). }
    cbn [adrop] in E2. rewrite E2. exists m1, (r :: next), sb1, w1. split; [done|]. split; [by apply dropped_app|]. done.
Qed.

Lemma adrop_nil_cons n : adrop n [[]] = adrop n [].
Proof. cbn. by destruct (0 <? n). Qed.

Lemma sbdrop_ok sb l len w : holds w sb l -> 0 <= len ->
  match adrop len (sbitems w sb) with
  | None => sbdrop sb len w = Panic "sbdrop"
  | Some q => exists sb' w', sbdrop sb len w = Ok (sb', w') /\ holds w' sb' l /\ narrows w w' /\ same_limits sb sb' /\
      sbitems w' sb' = q /\ total sb_size (concat (sb_mb sb')) <= total sb_size (concat (sb_mb sb)) /\
      clen (concat (sb_mb sb')) <= clen (concat (sb_mb sb))
  end.
Proof.
  intros (Hsb&HB) Hl. unfold sbdrop.
  set (mn := match sb_mb sb with [] => ([], []) | m :: next => (m, next) end).
  assert (Ledger w (mn.1 ++ concat mn.2 ++ l) /\ concat (sb_mb sb) = mn.1 ++ concat mn.2 /\
    adrop len (ritems w mn.1 :: map (ritems w) mn.2) = adrop len (sbitems w sb) /\ Forall (fun r => r <> []) mn.2) as (HB1&Ec&Ed&Hr).
  { pose proof (sk_records _ Hsb) as Hr. unfold mn, sbitems. destruct (sb_mb sb) as [|m next]; cbn [fst snd].
    - split_and!; try done. apply adrop_nil_cons.
    - inversion Hr; subst. split_and!; try done. by_ledger HB. }
  destruct mn as [m next]. cbn [fst snd] in *.
  pose proof (sbdrop_loop_ok next l m len sb w HB1 Hl) as HD. rewrite Ed in HD.
  destruct (adrop len (sbitems w sb)) as [q|]; [|by rewrite HD].
  destruct HD as (m1&next1&sb1&w1&->&D1&Hsuf&Hq). cbn [mbind outcome_bind].
  pose proof (dr_ledger _ _ _ _ _ _ _ D1) as HB2. rewrite <- app_assoc in HB2.
  destruct (sbdrop_empty_ok m1 (concat next1 ++ l) sb1 w1 HB2) as (m2&sb2&w2&->&D2&I2&Z2). cbn [mbind outcome_bind].
  apply dropped_app in D2. pose proof (dropped_trans _ _ _ _ _ _ _ _ _ _ D1 D2) as [A1 A2 A3 A4 A5].
  set (rs := if is_nil m2 then next1 else m2 :: next1).
  assert (concat rs = m2 ++ concat next1) as Ers by (unfold rs; by destruct m2).
  eexists _, _. split; [done|]. split; [split|split; [done|split; [by eapply moved_limits|]]].
  - eapply moved_ok; [done|done|rewrite Ec, Ers; lia|rewrite Ec, Ers; lia|].
    assert (Forall (fun r => r <> []) next1) as Hn by (destruct Hsuf as [k ->]; by apply list.Forall_app in Hr as [_ Hr]).
    unfold rs. destruct m2; cbn; [done|by constructor].
  - cbn [sb_mb set_sb_mb]. rewrite Ers. exact A1.
  - cbn [sb_mb set_sb_mb]. rewrite Ers, Ec. split; [|split; [done|done]].
    rewrite <- Hq. unfold sbitems, front. cbn [sb_mb set_sb_mb]. rewrite I2. cbn [snd].
    assert (map (ritems w2) next1 = map (ritems w1) next1) as En.
    { apply (records_narrow w1 w2 next1 (m2 ++ l)); [by_ledger A1|apply D2]. }
    unfold rs. destruct m2 as [|x m2]; cbn [is_nil]; [done|]. destruct (ritems w2 (x :: m2)) eqn:Ex; [by destruct Z2|].
    cbn [is_nil map]. by rewrite En, Ex.
Qed.

(** [adrop] fails exactly when there is not so much. *)
Definition qchars (q : list (list item)) : Z := nchars (concat q).

Lemma nchars_ch t c l : nchars (Ch t c :: l) = 1 + nchars l.
Proof. unfold nchars, chars. cbn [List.filter is_ch length]. lia. Qed.

Lemma items_drop_chars n l : 0 <= n ->
  let '(n', l') := items_drop n l in 0 <= n' /\ n' + nchars l = n + nchars l' /\ (n' = 0 \/ l' = []).
Proof.
  revert n. induction l as [|[t c|] l IH]; intros n Hn; cbn [items_drop].
  - split; [done|]. split; [lia|by right].
  - pose proof (nchars_ch t c l) as E. destruct (0 <? n) eqn:E0; bool_prop; [|split; [done|split; [lia|left; lia]]].
    specialize (IH (n - 1)). destruct (items_drop (n - 1) l). destruct IH as (?&?&?); [lia|]. split; [done|]. split; [lia|done].
  - apply IH. done.
Qed.

Lemma qchars_cons r q : qchars (r :: q) = nchars r + qchars q.
Proof. apply nchars_app. Qed.
Lemma nchars_nonneg l : 0 <= nchars l.
Proof. unfold nchars. lia. Qed.

Lemma adrop_None q n : 0 <= n -> adrop n q = None <-> qchars q < n.
Proof.
  revert n. induction q as [|r q IH]; intros n Hn; cbn [adrop].
  - change (qchars []) with 0. destruct (0 <? n) eqn:E; bool_prop; (split; [done || lia|lia || done]).
  - pose proof (items_drop_chars n r Hn) as Hd. rewrite qchars_cons. pose proof (nchars_nonneg (concat q)) as Hq. fold (qchars q) in Hq.
    destruct (items_drop n r) as [n' r']. destruct Hd as (H1&H2&H3). destruct (is_nil r') eqn:E.
    + apply is_nil_eq in E. subst r'. change (nchars []) with 0 in H2. destruct (0 <? n') eqn:E0; bool_prop.
      * rewrite IH by done. lia.
      * split; [done|lia].
    + assert (n' = 0) as -> by (destruct H3 as [?| ->]; done). pose proof (nchars_nonneg r'). split; [done|lia].
Qed.

(** Dropping all chars drops at least the first record. *)
Lemma adrop_all q : q <> [] -> exists q', adrop (qchars q) q = Some q' /\ (length q' < length q)%nat.
Proof.
  induction q as [|r q IH]; [done|]. intros _. cbn [adrop]. rewrite qchars_cons.
  pose proof (nchars_nonneg (concat q)) as Hq. fold (qchars q) in Hq. pose proof (nchars_nonneg r) as Hr.
  pose proof (items_drop_chars (nchars r + qchars q) r ltac:(lia)) as Hd.
  destruct (items_drop (nchars r + qchars q) r) as [n' r'] eqn:Ed. destruct Hd as (H1&H2&H3).
  assert (r' = []) as ->.
  { destruct H3 as [->| ->]; [|done]. destruct r' as [|i r']; [done|]. exfalso.
    assert (forall l n, match (items_drop n l).2 with Eor :: _ => False | _ => True end) as Hf.
    { induction l as [|[] l IHl]; intros n; cbn [items_drop]; [done| |apply IHl]. destruct (0 <? n); [apply IHl|done]. }
    specialize (Hf r (nchars r + qchars q)). rewrite Ed in Hf. cbn in Hf. destruct i; [|done].
    pose proof (nchars_ch type c r'). pose proof (nchars_nonneg r'). lia. }
  change (nchars []) with 0 in H2. assert (n' = qchars q) as -> by lia. cbn [is_nil].
  destruct (0 <? qchars q) eqn:E; bool_prop; [|exists q; split; [done|cbn; lia]].
  destruct IH as (q'&->&Hl); [intros ->; by cbn in E|]. exists q'. split; [done|cbn; lia].
Qed.

Lemma sbdrop_all_ok m l : forall sb w, Ledger w (m ++ l) ->
  exists sb' w', sbdrop_all m sb w = Ok (sb', w') /\ dropped w sb m l w' sb' [].
Proof.
  induction m as [|x rest IH]; intros sb w HB; cbn [sbdrop_all].
  - exists sb, w. split; [done|]. by apply dropped_refl.
  - destruct (sbfree_dropped w sb x rest l HB) as (w1&->&D1&_). cbn [mbind outcome_bind].
    destruct (IH (sbfree x sb) w1 (dr_ledger _ _ _ _ _ _ _ D1)) as (sb'&w'&->&D2).
    exists sb', w'. split; [done|]. by eapply dropped_trans.
Qed.

Lemma sbdroprecord_ok sb l w : holds w sb l ->
  exists sb' w', sbdroprecord sb w = Ok (sb', w') /\ holds w' sb' l /\ narrows w w' /\ same_limits sb sb' /\
    sbitems w' sb' = tail (sbitems w sb).
Proof.
  intros (Hsb&HB). unfold sbdroprecord. pose proof (sk_records _ Hsb) as Hr.
  destruct (sb_mb sb) as [|m next] eqn:Em.
  { exists sb, w. split; [done|]. split; [split; [done|by rewrite Em]|]. split; [reflexivity|]. split; [reflexivity|].
    unfold sbitems. by rewrite Em. }
  cbn [concat] in HB. rewrite <- app_assoc in HB.
  destruct (sbdrop_all_ok m (concat next ++ l) (set_sb_mb next sb) w HB) as (sb'&w'&->&[A1 A2 A3 A4 A5]).
  exists sb', w'. split; [done|]. cbn [app] in A1. pose proof (mv_mb _ _ _ _ A3) as E. cbn [sb_mb set_sb_mb] in E.
  assert (sb' = set_sb_mb next sb') as Es by (destruct sb'; cbn in E; by subst).
  split; [split|split; [done|split]].
  - rewrite Es. destruct Hsb as [K1 K2 K3]. rewrite Em in *. cbn [concat] in K1, K2. rewrite clen_app in K1. rewrite total_app in K2.
    destruct A3 as [B1 B2 B3 _ _ _ _ _]. cbn [sb_cc sb_mbcnt set_sb_mb] in *.
    destruct B3 as (R1&R2); [rewrite K1; apply u32_range|rewrite K2; apply u32_range|].
    split; cbn [sb_cc sb_mbcnt sb_mb set_sb_mb]; [| |by inversion Hr].
    + rewrite <- (u32_id (sb_cc sb')), B1, K1, u32_add by done. f_equal. cbn. lia.
    + rewrite <- (u32_id (sb_mbcnt sb')), B2, K2, u32_add by done. f_equal. cbn. lia.
  - rewrite E. exact A1.
  - destruct A3. by split.
  - unfold sbitems. rewrite E, Em. cbn [map tail]. apply (records_narrow w w' next l); done.
Qed.

Lemma qchars_clen w sb l : holds w sb l -> qchars (sbitems w sb) = clen (concat (sb_mb sb)).
Proof.
  intros (Hsb&HB). unfold qchars, sbitems. rewrite <- flat_map_concat_map.
  assert (flat_map (ritems w) (sb_mb sb) = ritems w (concat (sb_mb sb))) as ->.
  { generalize (sb_mb sb). induction l0 as [|r rs IH]; [done|]. cbn [flat_map concat]. by rewrite IH, ritems_app. }
  by apply (nchars_ritems w _ l).
Qed.

(** *** sbflush *)

(** What the counts of a buffer can hold. *)
Definition sb_small (sb : sockbuf) : Prop :=
  clen (concat (sb_mb sb)) < 2 ^ 31 /\ total sb_size (concat (sb_mb sb)) < 2 ^ 32.

Lemma holds_counts w sb l : holds w sb l -> sb_small sb ->
  sb_cc sb = clen (concat (sb_mb sb)) /\ s32 (sb_cc sb) = qchars (sbitems w sb) /\ 0 <= qchars (sbitems w sb) /\
  sb_mbcnt sb = total sb_size (concat (sb_mb sb)) /\ (sb_mbcnt sb = 0 -> sb_mb sb = []).
Proof.
  intros HH (Hs1&Hs2). pose proof (qchars_clen _ _ _ HH) as Eq. destruct HH as (Hsb&HB). pose proof (Ledger_Forall _ _ _ HB) as Hok. pose proof (clen_nonneg _ Hok) as Hc.
  destruct (size_nonneg _ Hok) as (Hz&Hz'). destruct Hsb as [K1 K2 K3].
  rewrite u32_id in K1 by lia. rewrite u32_id in K2 by lia. split; [done|]. split; [rewrite K1, s32_id; lia|].
  split; [lia|]. split; [done|]. rewrite K2. intros E0.
  assert (concat (sb_mb sb) = []) as E by (destruct (concat (sb_mb sb)); [done|]; exfalso; specialize (Hz' ltac:(done)); lia).
  destruct (sb_mb sb) as [|r rs]; [done|]. inversion K3; subst. by destruct r.
Qed.

Lemma sbflush_loop_ok fuel : forall sb l w, holds w sb l -> sb_small sb -> (length (sb_mb sb) <= fuel)%nat ->
  exists sb' w', sbflush_loop fuel sb w = Ok (sb', w') /\ holds w' sb' l /\ narrows w w' /\ same_limits sb sb' /\
    sb_mb sb' = [] /\ sb_cc sb' = 0 /\ sb_mbcnt sb' = 0.
Proof.
  induction fuel as [|fuel IH]; intros sb l w HH Hs Hf.
  all: destruct (holds_counts w sb l HH Hs) as (Ec&Eq&Hq&Em&Ez); cbn [sbflush_loop]; destruct (sb_mbcnt sb =? 0) eqn:E; bool_prop.
  1,3: exists sb, w; split_and!; try done; [by apply Ez|]; rewrite Ec, (Ez E); done.
  - exfalso. apply E. rewrite Em. destruct (sb_mb sb); [done|cbn in Hf; lia].
  - rewrite Eq. pose proof (sbdrop_ok sb l (qchars (sbitems w sb)) w HH Hq) as HD.
    assert (sb_mb sb <> []) as Hne by (intros E0; apply E; rewrite Em, E0; done).
    destruct (adrop_all (sbitems w sb)) as (q'&E1&Hl); [unfold sbitems; by destruct (sb_mb sb)|]. rewrite E1 in HD.
    destruct HD as (sb1&w1&->&H1&N1&L1&D1&Z1&C1). cbn [mbind outcome_bind].
    destruct (IH sb1 l w1 H1) as (sb'&w'&->&H2&N2&L2&R2).
    + destruct Hs. split; lia.
    + rewrite <- D1 in Hl. unfold sbitems in Hl. rewrite !length_map in Hl. lia.
    + exists sb', w'. split; [done|]. split; [done|]. split; [by rewrite N1|]. split; [by rewrite L1|done].
Qed.

Lemma sbflush_ok sb l w : holds w sb l -> sb_small sb ->
  if has (sb_flags sb) SB_LOCK then sbflush sb w = Panic "sbflush"
  else exists sb' w', sbflush sb w = Ok (sb', w') /\ holds w' sb' l /\ narrows w w' /\ same_limits sb sb' /\
    sb_mb sb' = [] /\ sb_cc sb' = 0 /\ sb_mbcnt sb' = 0.
Proof.
  intros HH Hs. unfold sbflush. destruct (has (sb_flags sb) SB_LOCK); [done|].
  destruct (sbflush_loop_ok (S (length (sb_mb sb))) sb l w HH Hs) as (sb'&w'&->&H1&N1&L1&E1&E2&E3); [lia|].
  cbn [mbind outcome_bind]. rewrite E1, E2. exists sb', w'. by split_and!.
Qed.
