(* ===== verification/NetRun.v ===== *)
(** * The network's memory as one system

    The protocols hold chains of mbufs, and a socket has a buffer.  The events are
    what protocols and drivers do with chains, their own and those they take from
    and give to the buffer, in any order, with whatever memory malloc and
    kmem_malloc have at that time.  Along every run of proper events ([proper]) the
    ledger holds: nothing is freed that is in use, nothing in use is lost. *)

From S2P Require Import Prelude Mbuf MbufBook MbufOps Sockbuf SockbufInv.

(** ** The events *)

Record net := mkNet { nw : mworld; hands : list (list mbuf); nsb : sockbuf }.

Inductive event : Type :=
  | Get (hdr : bool) (type : Z) (bs : list Z)
  | Clget (hdr : bool) (type : Z) (bs : list Z)
  | Copy (i : nat) (off len : Z)
  | Adj (i : nat) (req : Z)
  | Cat (i j : nat)
  | Pullup (i : nat) (len : Z)
  | Prepend (i : nat) (plen : Z)
  | Free (i : nat)
  | Arrive (i j : nat)
  | Reclaim
  | Append (i : nat)
  | AppendRecord (i : nat)
  | InsertOob (i : nat)
  | AppendAddr (asa : list Z) (i : nat) (oj : option nat)
  | AppendControl (i j : nat)
  | Drop (n : Z)
  | DropRecord
  | Flush.

Definition push (ch : list mbuf) (h : list (list mbuf)) : list (list mbuf) := if is_nil ch then h else ch :: h.

(** An event about a chain that is not there does nothing. *)
Definition with_hand (i : nat) (h : list (list mbuf)) (n : net)
    (f : list mbuf -> list (list mbuf) -> outcome net) : outcome net :=
  match h !! i with Some ch => f ch (delete i h) | None => mret n end.

(** Every cluster of [ch] can take one more reference for each it has there. *)
Definition room_b (w : mworld) (all ch : list mbuf) : bool :=
  forallb (fun m => negb (is_ext m) || (refs (ext_buf m) all + refs (ext_buf m) (frags (ipq w)) + refs (ext_buf m) ch <=? 256)) ch.

(** The chars [bs] in a new mbuf. *)
Definition fill (hdr : bool) (m : mbuf) (bs : list Z) (w : mworld) : outcome (mbuf * mworld) :=
  '(m, w) ← poke m 0 bs w;
  let m := set_m_len (Z.of_nat (length bs)) m in
  mret (if hdr then set_pkt_len (Z.of_nat (length bs)) m else m, w).

Definition get (hdr : bool) (type : Z) (w : mworld) : outcome (option mbuf * mworld) :=
  if hdr then m_gethdr type w else m_get type w.

Definition event_get (hdr : bool) (type : Z) (bs : list Z) (n : net) : outcome net :=
  '(o, w) ← get hdr type (nw n);
  match o with
  | None => mret (mkNet w (hands n) (nsb n))
  | Some m => '(m, w) ← fill hdr (set_m_len 0 m) bs w; mret (mkNet w ([m] :: hands n) (nsb n))
  end.

(** A cluster, or nothing at all. *)
Definition event_clget (hdr : bool) (type : Z) (bs : list Z) (n : net) : outcome net :=
  '(o, w) ← get hdr type (nw n);
  match o with
  | None => mret (mkNet w (hands n) (nsb n))
  | Some m =>
      let '(m, w) := MCLGET (set_m_len 0 m) w in
      if is_ext m then '(m, w) ← fill hdr m bs w; mret (mkNet w ([m] :: hands n) (nsb n))
      else w ← m_freem [m] w; mret (mkNet w (hands n) (nsb n))
  end.

Definition all_held (n : net) : list mbuf := concat (sb_mb (nsb n)) ++ concat (hands n).

Definition event_copy (i : nat) (off len : Z) (n : net) : outcome net :=
  with_hand i (hands n) n (fun ch _ =>
    '(top, w) ← m_copym ch off len (nw n); mret (mkNet w (push top (hands n)) (nsb n))).

Definition event_arrive (i j : nat) (n : net) : outcome net :=
  with_hand i (hands n) n (fun h rest =>
    match h with
    | [m] => with_hand j rest n (fun q rest => mret (mkNet (set_ipq ((m, [q]) :: ipq (nw n)) (nw n)) rest (nsb n)))
    | _ => mret n
    end).

(** The data in chain [i], the control data, if any, in another. *)
Definition event_addr (asa : list Z) (i : nat) (oj : option nat) (n : net) : outcome net :=
  with_hand i (hands n) n (fun m0 rest =>
    let call (control : list mbuf) (rest : list (list mbuf)) :=
      '(ok, sb, w) ← sbappendaddr (nsb n) asa m0 control (nw n);
      mret (if ok : bool then mkNet w rest sb else mkNet w (hands n) sb) in
    match oj with None => call [] rest | Some j => with_hand j rest n call end).

Definition sb_small_b (sb : sockbuf) : bool :=
  (clen (concat (sb_mb sb)) <? 2 ^ 31) && (total sb_size (concat (sb_mb sb)) <? 2 ^ 32).

Definition to_sb (f : outcome (sockbuf * mworld)) (rest : list (list mbuf)) : outcome net :=
  '(sb, w) ← f; mret (mkNet w rest sb).

Definition step (e : event) (n : net) : outcome net :=
  let w := nw n in let sb := nsb n in
  match e with
  | Get hdr type bs => event_get hdr type bs n
  | Clget hdr type bs => event_clget hdr type bs n
  | Copy i off len => event_copy i off len n
  | Adj i req =>
      with_hand i (hands n) n (fun ch rest => ch ← m_adj ch req; mret (mkNet w (push ch rest) sb))
  | Cat i j =>
      with_hand i (hands n) n (fun ch rest => with_hand j rest n (fun k rest =>
        '(ch, w) ← m_cat ch k w; mret (mkNet w (push ch rest) sb)))
  | Pullup i len =>
      with_hand i (hands n) n (fun ch rest => '(ch, w) ← m_pullup ch len w; mret (mkNet w (push ch rest) sb))
  | Prepend i plen =>
      with_hand i (hands n) n (fun ch rest => '(ch, w) ← M_PREPEND ch plen w; mret (mkNet w (push ch rest) sb))
  | Free i => with_hand i (hands n) n (fun ch rest => w ← m_freem ch w; mret (mkNet w rest sb))
  | Arrive i j => event_arrive i j n
  | Reclaim => w ← m_reclaim w; mret (mkNet w (hands n) sb)
  | Append i => with_hand i (hands n) n (fun ch rest => to_sb (sbappend sb ch w) rest)
  | AppendRecord i => with_hand i (hands n) n (fun ch rest => to_sb (sbappendrecord sb ch w) rest)
  | InsertOob i => with_hand i (hands n) n (fun ch rest => to_sb (sbinsertoob sb ch w) rest)
  | AppendAddr asa i oj => event_addr asa i oj n
  | AppendControl i j =>
      with_hand i (hands n) n (fun m0 rest => with_hand j rest n (fun control rest =>
        '(ok, sb) ← sbappendcontrol sb m0 control;
        mret (if ok : bool then mkNet w rest sb else n)))
  | Drop k => to_sb (sbdrop sb k w) (hands n)
  | DropRecord => to_sb (sbdroprecord sb w) (hands n)
  | Flush => to_sb (sbflush sb w) (hands n)
  end.

Fixpoint run (evs : list event) (n : net) : outcome net :=
  match evs with
  | [] => mret n
  | e :: evs => n ← step e n; run evs n
  end.

(** What the callers see to: that the chars they put into a new mbuf fit; that they
    copy what is there, and no cluster gets more than 256 references; the ranges of
    the lengths; a header on a packet with an address; that they drop from a buffer
    what is there, and flush it unlocked. *)
Definition proper (e : event) (n : net) : bool :=
  match e with
  | Get hdr _ bs => Z.of_nat (length bs) <=? (if hdr then MHLEN else MLEN)
  | Clget _ _ bs => Z.of_nat (length bs) <=? MCLBYTES
  | Copy i off len =>
      match hands n !! i with
      | Some ch => (0 <=? off) && (0 <=? len) && (off <=? clen ch) && (len <=? M_COPYALL) &&
          ((len =? M_COPYALL) || (off + len <=? clen ch)) && room_b (nw n) (all_held n) ch
      | None => true
      end
  | Adj _ req => - 2 ^ 31 <? req
  | Pullup _ len => 0 <=? len
  | Prepend _ plen => (0 <=? plen) && (plen <=? MHLEN)
  | AppendAddr _ i _ => match hands n !! i with Some (m :: _) => is_pkt m | _ => true end
  | Drop k => (0 <=? k) && (k <=? clen (concat (sb_mb (nsb n))))
  | Flush => negb (has (sb_flags (nsb n)) SB_LOCK) && sb_small_b (nsb n)
  | _ => true
  end.

(** A run whose callers do. *)
Fixpoint proper_run (evs : list event) (n : net) : bool :=
  match evs with
  | [] => true
  | e :: evs => proper e n && match step e n with Ok n => proper_run evs n | _ => true end
  end.

(** The network at boot: no mbufs, and the first page of clusters. *)
Definition boot_world (gr : list (option mbuf)) (pages : list (option (Z * list Z))) (base : Z) : mworld :=
  mkMworld gr pages base [] ∅ ∅ ∅ 0 0 0 [] 0 40 0 0 [].
Definition boot (gr : list (option mbuf)) (pages : list (option (Z * list Z))) (base hiwat mbmax lowat : Z) : outcome net :=
  w ← mbinit (boot_world gr pages base);
  mret (mkNet w [] (mkSockbuf 0 hiwat 0 mbmax lowat [] 0)).

(** ** The invariant *)

Record net_ok (n : net) : Prop := {
  nk_sb : holds (nw n) (nsb n) (concat (hands n));
  nk_hands : Forall (fun ch => ch <> []) (hands n) }.

(** What malloc and kmem_malloc may hand out: mbufs of the size of an mbuf, and
    pages that are not in use and do not overlap. *)
Record supply_ok (gr : list (option mbuf)) (pages : list (option (Z * list Z))) : Prop := {
  su_grants : forall m, Some m ∈ gr -> Z.of_nat (length (m_dat m)) = MLEN;
  su_pages : forall c p, Some (c, p) ∈ pages -> Z.of_nat (length p) = CLBYTES;
  su_apart : NoDup (page_cls pages) }.

Lemma boot_ok gr pages base hiwat mbmax lowat c p : supply_ok gr pages -> head pages = Some (Some (c, p)) ->
  exists n, boot gr pages base hiwat mbmax lowat = Ok n /\ net_ok n.
Proof.
  intros [S1 S2 S3] Hp. unfold boot, mbinit.
  assert (Ledger (boot_world gr pages base) []) as HL.
  { split; cbn; try done; try (by constructor); try lia.
    - intros c'. rewrite lookup_empty. split; [by intros []|lia].
    - by intros c' b ?%elem_of_nil. }
  destruct (m_clalloc_ok _ _ HL) as (H1&_&_). unfold m_clalloc in *. cbn [kmem_pages boot_world] in *. rewrite Hp in *.
  cbn [mbind outcome_bind snd] in *. eexists. split; [done|]. split; [|by constructor]. split; [|done].
  split; cbn; [done|done|by constructor].
Qed.

(** *** Chains taken and given *)

Lemma concat_perm {A} (h k : list (list A)) : h ≡ₚ k -> concat h ≡ₚ concat k.
Proof. intros E. induction E; cbn; [done|by f_equiv|by rewrite !app_assoc, (Permutation_app_comm y)|by etrans]. Qed.

Lemma hand_out (h : list (list mbuf)) i ch : h !! i = Some ch -> concat h ≡ₚ ch ++ concat (delete i h).
Proof. intros E%delete_Permutation%concat_perm. exact E. Qed.

Lemma push_concat ch h : concat (push ch h) = ch ++ concat h.
Proof. by destruct ch. Qed.
Lemma push_ok ch h : Forall (fun ch : list mbuf => ch <> []) h -> Forall (fun ch => ch <> []) (push ch h).
Proof. intros H. destruct ch; [done|]. by constructor. Qed.

(** The event returns, to a world that is in order. *)
Definition fine (f : outcome net) : Prop := exists n, f = Ok n /\ net_ok n.

Lemma fine_ret n : net_ok n -> fine (mret n).
Proof. intros H. by exists n. Qed.

(** One chain in hand: the ledger is that of the buffer, the chain and the
    rest. *)
Lemma fine_hand i n h f : net_ok n ->
  (forall ch, h !! i = Some ch -> fine (f ch (delete i h))) -> fine (with_hand i h n f).
Proof. intros H Hf. unfold with_hand. destruct (h !! i) eqn:E; [by apply Hf|by apply fine_ret]. Qed.

Lemma hand_ledger n i ch : net_ok n -> hands n !! i = Some ch ->
  ch <> [] /\ Forall (fun ch => ch <> []) (delete i (hands n)) /\
  Ledger (nw n) (ch ++ concat (sb_mb (nsb n)) ++ concat (delete i (hands n))).
Proof.
  intros [[Hsb HB] Hh] E. split; [by eapply Forall_lookup_1 in Hh|]. split; [by apply Forall_delete|].
  refine (proj1 (Ledger_perm _ _ _ _) HB). rewrite (hand_out _ _ _ E). solve_Permutation.
Qed.

(** The chain is changed: a ledger with the new one makes the world fine. *)
Lemma fine_push n ch rest w : net_ok n -> Forall (fun ch => ch <> []) rest ->
  Ledger w (ch ++ concat (sb_mb (nsb n)) ++ concat rest) -> fine (mret (mkNet w (push ch rest) (nsb n))).
Proof.
  intros [[Hsb _] _] Hr HB. apply fine_ret. split; cbn; [|by apply push_ok]. split; [done|]. rewrite push_concat. by_ledger HB.
Qed.

Lemma fine_same n w rest : net_ok n -> Forall (fun ch => ch <> []) rest ->
  Ledger w (concat (sb_mb (nsb n)) ++ concat rest) -> fine (mret (mkNet w rest (nsb n))).
Proof. intros. by apply (fine_push n []). Qed.

Lemma fine_sb w sb rest : holds w sb (concat rest) -> Forall (fun ch => ch <> []) rest -> fine (mret (mkNet w rest sb)).
Proof. intros. by apply fine_ret. Qed.

(** ** The events keep the invariant *)

Lemma ext_len_ok m n : mbuf_ok m -> is_ext m = true -> 0 <= n -> m_off m + n <= MCLBYTES ->
  mbuf_ok (set_m_len n m) /\ same_res m (set_m_len n m).
Proof.
  intros [A B C D] Hx Hn Hf. destruct (C Hx) as (E1&E2&_). split; [|by split]. split; cbn; [done|done|by intros _|].
  intros E. change (is_ext m = false) in E. congruence.
Qed.

(** A new mbuf, still empty, takes [bs]. *)
Lemma fill_ok hdr m bs l w : Ledger w (m :: l) -> m_len m = 0 -> m_off m + Z.of_nat (length bs) <= (if is_ext m then MCLBYTES else MLEN) ->
  exists m' w', fill hdr m bs w = Ok (m', w') /\ Ledger w' (m' :: l) /\ mdata w' m' = bs /\ is_pkt m' = is_pkt m /\
    m_type m' = m_type m /\ m_flags m' = m_flags m.
Proof.
  intros HB Hl0 Hfit. pose proof (Ledger_ok _ _ _ HB) as [Md Ml Me Mi]. unfold fill.
  assert (forall w m1, Ledger w (m1 :: l) -> mdata w m1 = bs -> is_pkt m1 = is_pkt m -> m_type m1 = m_type m -> m_flags m1 = m_flags m ->
    exists m' w', mret (if hdr then set_pkt_len (Z.of_nat (length bs)) m1 else m1, w) = Ok (m', w') /\ Ledger w' (m' :: l) /\
      mdata w' m' = bs /\ is_pkt m' = is_pkt m /\ m_type m' = m_type m /\ m_flags m' = m_flags m) as Hhdr.
  { intros w1 m1 H1 D1 P1 T1 F1. destruct hdr; [|by eexists _, _]. eexists _, _. split; [done|]. split; [|done].
    pose proof (Ledger_ok _ _ _ H1) as []. eapply Ledger_swap; [| |exact H1]; by split. }
  destruct (is_ext m) eqn:Hx.
  - destruct (Me eq_refl) as (Es&E1&E2).
    destruct (Book_in _ _ m HB) as (_&Hc); [by left|]. destruct (Hc Hx) as (b&Hb&Lb). clear Hc.
    unfold poke, m_area. rewrite Hx, Hb. destruct (decide (bs = [])) as [->|Hne]; cbn [mbind outcome_bind mret outcome_ret].
    { apply Hhdr; try done.
      destruct (ext_len_ok m 0 (Ledger_ok _ _ _ HB) Hx) as (K&R); [done|lia|]. by eapply Ledger_swap. }
    rewrite !Z.add_0_r, !(proj2 (Z.leb_le _ _)) by lia. cbn [andb].
    set (b' := splice b (m_off m) bs). assert (length b' = length b) as Lb' by (apply splice_len; lia).
    apply Hhdr; try done.
    + destruct (ext_len_ok m (Z.of_nat (length bs)) (Ledger_ok _ _ _ HB) Hx) as (K&R); [lia|done|].
      eapply Ledger_swap; [exact R|exact K|]. apply (Book_write w _ (ext_buf m) b b' HB Hb Lb').
    + unfold mdata, area. change (is_ext (set_m_len _ m)) with (is_ext m). rewrite Hx.
      cbn [mclbuf set_mclbuf ext_buf m_len m_off set_m_len]. rewrite lookup_insert_eq. unfold b', default, from_option, id.
      rewrite take_drop_take, Nat2Z.id, splice_app by lia. rewrite drop_app_ge by (rewrite length_take; lia).
      rewrite length_take. replace (Z.to_nat (m_off m) - _)%nat with 0%nat by lia. done.
  - destruct (Mi eq_refl) as (E1&E2). pose proof (m_base_range m).
    destruct (poke_put w m bs (Ledger_ok _ _ _ HB) Hx) as (m1&Ep&Em&Lm); [lia|]. rewrite Hl0 in Ep. rewrite Ep. cbn [mbind outcome_bind].
    rewrite Lm, Hl0 in Em. rewrite Z.add_0_l in Em. rewrite Em.
    destruct (m_put_ok m bs (Ledger_ok _ _ _ HB) Hx) as (Kp&Rp); [lia|]. apply Hhdr; try done.
    + by eapply Ledger_swap.
    + rewrite mdata_put by (try done; try apply (Ledger_ok _ _ _ HB); lia). unfold mdata at 1. by rewrite Hl0.
Qed.

Lemma get_ok hdr t l w : Ledger w l -> exists o w', get hdr t w = Ok (o, w') /\ gotten hdr t l w o w'.
Proof. destruct hdr; [apply MGETHDR_ok|apply MGET_ok]. Qed.

Lemma event_get_ok (hdr : bool) type bs n : net_ok n -> Z.of_nat (length bs) <= (if hdr then MHLEN else MLEN) -> fine (event_get hdr type bs n).
Proof.
  intros HN Hb. unfold event_get. destruct HN as [[Hsb HB] Hh].
  destruct (get_ok hdr type _ _ HB) as (o&w&->&G). cbn [mbind outcome_bind]. destruct o as [m|].
  - pose proof (gotten_ledger _ _ _ _ _ _ G) as HL. destruct G as [[HF _] _ _ _ _ _].
    destruct (fresh_ok hdr type m 0 HF) as (Fx&Fp&_); [unfold MHLEN, MLEN; destruct hdr; lia|].
    destruct (fill_ok hdr (set_m_len 0 m) bs _ w HL eq_refl) as (m'&w'&->&H'&_).
    { rewrite Fx. cbn. rewrite (fs_off _ _ _ HF). unfold PKTDAT, MHLEN, MLEN in *. destruct hdr; lia. }
    cbn [mbind outcome_bind]. apply fine_ret. split; cbn; [|by constructor]. split; [done|]. cbn. by_ledger H'.
  - destruct G as [G1 _ _ _ _ _]. apply fine_ret. split; [by split|done].
Qed.

Lemma event_clget_ok hdr type bs n : net_ok n -> Z.of_nat (length bs) <= MCLBYTES -> fine (event_clget hdr type bs n).
Proof.
  intros HN Hb. unfold event_clget. destruct HN as [[Hsb HB] Hh].
  destruct (get_ok hdr type _ _ HB) as (o&w&->&G). cbn [mbind outcome_bind]. destruct o as [m|].
  - pose proof (gotten_ledger _ _ _ _ _ _ G) as HL. destruct G as [[HF _] _ _ _ _ _].
    destruct (fresh_ok hdr type m 0 HF) as (Fx&_&_); [unfold MHLEN, MLEN; destruct hdr; lia|].
    destruct (MCLGET_ok _ _ _ HL Fx) as (m'&w'&->&H'&_&L'&_&_&_&Ho). cbn in L'. destruct (is_ext m') eqn:Hx.
    + specialize (Ho eq_refl).
      destruct (fill_ok hdr m' bs _ w' H' L') as (m2&w2&->&H2&_); [rewrite Hx; lia|].
      cbn [mbind outcome_bind]. apply fine_ret. split; cbn; [|by constructor]. split; [done|]. cbn. by_ledger H2.
    + destruct (m_freem_ok [m'] _ _ H') as (w2&->&H2&_). cbn [mbind outcome_bind]. apply fine_ret. split; [by split|done].
  - destruct G as [G1 _ _ _ _ _]. apply fine_ret. split; [by split|done].
Qed.

Lemma room_b_ok w all ch : room_b w all ch = true -> (forall c, refs c all + refs c (frags (ipq w)) <= 256) -> room w all ch.
Proof.
  intros Hr Hf c. destruct (decide (refs c ch = 0)) as [E|E]; [rewrite E, Z.add_0_r; apply Hf|].
  assert (exists m, m ∈ ch /\ is_ext m = true /\ ext_buf m = c) as (m&Hm&Hx&<-).
  { clear Hr. induction ch as [|m ch IH]; [done|]. rewrite refs_cons in E. destruct (decide (ref1 c m = 0)) as [E0|E0].
    - destruct IH as (x&?&?); [lia|]. exists x. split; [by right|done].
    - exists m. split; [by left|]. unfold ref1 in E0. destruct (is_ext m) eqn:Hx; [|done]. cbn in E0.
      destruct (Z.eqb_spec (ext_buf m) c); done. }
  unfold room_b in Hr. rewrite forallb_forall in Hr. specialize (Hr m (proj1 (list_elem_of_In _ _) Hm)).
  rewrite Hx in Hr. cbn in Hr. lia.
Qed.

Lemma event_copy_ok i off len n : net_ok n -> proper (Copy i off len) n = true -> fine (event_copy i off len n).
Proof.
  intros HN Hg. apply fine_hand; [done|]. intros ch E. destruct (hand_ledger n i ch HN E) as (Hne&Hr&HB).
  unfold proper in Hg. rewrite E in Hg. repeat (apply andb_true_iff in Hg as (Hg&?)). bool_prop.
  destruct ch as [|m ch]; [done|]. set (rest := delete i (hands n)) in *.
  destruct HN as [[Hsb HB0] Hh].
  assert (room (nw n) ((m :: ch) ++ concat (sb_mb (nsb n)) ++ concat rest) (m :: ch)) as Hroom.
  { apply room_b_ok in H; [|intros c; rewrite <- refs_app; apply (bk_few _ _ HB0)].
    intros c. specialize (H c). unfold all_held in H. rewrite refs_app in H.
    assert (refs c (concat (hands n)) = refs c ((m :: ch) ++ concat rest)) as Er by (unfold refs; by rewrite (hand_out _ _ _ E)).
    rewrite Er in H. rewrite !refs_app in *. lia. }
  destruct (m_copym_ok m ch _ (nw n) off len HB Hroom) as [(_&_&HC)|(Hbad&_)]; [lia| |].
  2:{ destruct Hbad as [?|[?|?]]; lia. }
  destruct HC as [new w' _ G2 _ _ _ _ _|w' _ G2 _ _|Hc1 Hc2]; cbn [mbind outcome_bind app] in *.
  - apply (fine_push n new (hands n)); [by split|done|]. refine (proj1 (Ledger_perm _ _ _ _) G2).
    rewrite (hand_out _ _ _ E). fold rest. cbn [app]. rewrite ?app_assoc. solve_Permutation.
  - apply (fine_push n [] (hands n)); [by split|done|]. refine (proj1 (Ledger_perm _ _ _ _) G2).
    rewrite (hand_out _ _ _ E). fold rest. cbn [app]. rewrite ?app_assoc. solve_Permutation.
  - exfalso. destruct H0 as [H0|H0]; bool_prop; [done|cbn in *; lia].
Qed.

Lemma event_arrive_ok i j n : net_ok n -> fine (event_arrive i j n).
Proof.
  intros HN. apply fine_hand; [done|]. intros h E. destruct (hand_ledger n i h HN E) as (_&Hr&HB).
  destruct h as [|m [|]]; [by apply fine_ret| |by apply fine_ret].
  apply fine_hand; [done|]. intros q E2. apply fine_ret. destruct HN as [[Hsb _] _].
  split; cbn [nw nsb hands]; [|by apply Forall_delete]. split; [done|].
  assert (Book (nw n) ((concat (sb_mb (nsb n)) ++ concat (delete j (delete i (hands n)))) ++ (q ++ [m]) ++ frags (ipq (nw n)))) as HB2.
  { refine (proj1 (Book_perm _ _ _ _) HB). rewrite (hand_out _ _ _ E2). cbn [app]. rewrite ?app_assoc. solve_Permutation. }
  unfold Ledger. cbn [ipq set_ipq frags flat_map fst snd concat]. rewrite app_nil_r. by apply (Book_env (nw n)).
Qed.

Lemma event_addr_ok asa i oj n : net_ok n -> proper (AppendAddr asa i oj) n = true -> fine (event_addr asa i oj n).
Proof.
  intros HN Hg. apply fine_hand; [done|]. intros m0 E. destruct (hand_ledger n i m0 HN E) as (_&Hr&HB).
  unfold proper in Hg. rewrite E in Hg. destruct HN as [[Hsb HB0] Hh].
  assert (forall control rest, concat (delete i (hands n)) ≡ₚ control ++ concat rest -> Forall (fun ch => ch <> []) rest ->
    fine ('(ok, sb, w) ← sbappendaddr (nsb n) asa m0 control (nw n);
          mret (if ok : bool then mkNet w rest sb else mkNet w (hands n) sb))) as Hcall.
  { intros control rest Ep Hrest.
    destruct (sbappendaddr_ok (nsb n) asa m0 control (concat rest) (nw n) Hsb) as (ok&sb&w&->&N&HC).
    - refine (proj1 (Ledger_perm _ _ _ _) HB). rewrite Ep. rewrite ?app_assoc. solve_Permutation.
    - intros m r ->. done.
    - cbn [mbind outcome_bind]. apply fine_ret. destruct ok.
      + destruct HC as (_&_&H2&_). by split.
      + destruct HC as (_&->&H2). split; [|done]. split; [done|]. refine (proj1 (Ledger_perm _ _ _ _) H2).
        cbn [hands]. rewrite (hand_out _ _ _ E), Ep. rewrite ?app_assoc. solve_Permutation. }
  destruct oj as [j|]; [|by apply Hcall].
  apply fine_hand; [by split|]. intros control E2. apply Hcall; [by apply hand_out|by apply Forall_delete].
Qed.

(** A chain given to the buffer. *)
Lemma fine_append i n f : net_ok n ->
  (forall m0 m l, sb_ok (nsb n) -> Ledger (nw n) ((m0 :: m) ++ concat (sb_mb (nsb n)) ++ l) ->
    exists sb' w', f (m0 :: m) = Ok (sb', w') /\ holds w' sb' l) ->
  fine (with_hand i (hands n) n (fun ch rest => to_sb (f ch) rest)).
Proof.
  intros HN Hf. apply fine_hand; [done|]. intros ch E. destruct (hand_ledger n i ch HN E) as (Hne&Hr&HB).
  destruct ch as [|m0 m]; [done|]. destruct HN as [[Hsb _] _]. destruct (Hf m0 m _ Hsb HB) as (sb'&w'&->&H). cbn. by apply fine_sb.
Qed.

Lemma net_step_ok e n : net_ok n -> proper e n = true -> fine (step e n).
Proof.
  intros HN Hg. assert (holds (nw n) (nsb n) (concat (hands n))) as HH by apply HN. pose proof (nk_hands _ HN) as Hh.
  destruct e; cbn [step].
  - apply event_get_ok; [done|by apply Z.leb_le].
  - apply event_clget_ok; [done|by apply Z.leb_le].
  - by apply event_copy_ok.
  - cbn [proper] in Hg. bool_prop. apply fine_hand; [done|]. intros ch E.
    destruct (hand_ledger n i ch HN E) as (Hne&Hr&HB). destruct ch as [|m rest]; [done|].
    destruct (m_adj_ok _ m rest _ req HB Hg) as (m'&r'&->&HF&_). cbn [mbind outcome_bind].
    apply fine_push; [done|done|]. by apply (Ledger_adj _ (m :: rest)).
  - apply fine_hand; [done|]. intros ch E. destruct (hand_ledger n i ch HN E) as (Hne&Hr&HB).
    apply fine_hand; [done|]. intros k E2. destruct ch as [|m ch]; [done|].
    destruct (m_cat_ok m ch k (concat (sb_mb (nsb n)) ++ concat (delete j (delete i (hands n)))) (nw n)) as (ch'&w'&->&H2&_).
    { refine (proj1 (Ledger_perm _ _ _ _) HB). rewrite (hand_out _ _ _ E2). cbn [app]. rewrite ?app_assoc. solve_Permutation. }
    cbn [mbind outcome_bind]. apply fine_push; [done|by apply Forall_delete|done].
  - cbn [proper] in Hg. bool_prop. apply fine_hand; [done|]. intros ch E.
    destruct (hand_ledger n i ch HN E) as (Hne&Hr&HB). destruct ch as [|m rest]; [done|].
    destruct (m_pullup_ok m rest _ len _ HB Hg) as (ch'&w'&->&(_&HP)). cbn [mbind outcome_bind].
    apply fine_push; [done|done|]. destruct ch'; [apply HP|apply HP].
  - cbn [proper] in Hg. bool_prop. apply fine_hand; [done|]. intros ch E.
    destruct (hand_ledger n i ch HN E) as (Hne&Hr&HB). destruct ch as [|m rest]; [done|].
    destruct (M_PREPEND_ok m rest _ plen _ HB) as (ch'&w'&->&_&_&HP); [done|]. cbn [mbind outcome_bind].
    apply fine_push; [done|done|]. destruct ch'; [apply HP|apply HP].
  - apply fine_hand; [done|]. intros ch E. destruct (hand_ledger n i ch HN E) as (_&Hr&HB).
    destruct (m_freem_ok _ _ _ HB) as (w'&->&H2&_). cbn [mbind outcome_bind]. by apply fine_same.
  - by apply event_arrive_ok.
  - destruct HH as (Hsb&HB). destruct (m_reclaim_ok _ _ HB) as (w'&->&H2&_). cbn [mbind outcome_bind]. by apply fine_same.
  - apply (fine_append i n (fun ch => sbappend (nsb n) ch (nw n))); [done|]. intros m0 m l Hsb HB.
    destruct (sbappend_ok (nsb n) (m0 :: m) l (nw n)) as (sb'&w'&?&?&_); try done. by eexists _, _.
  - apply (fine_append i n (fun ch => sbappendrecord (nsb n) ch (nw n))); [done|]. intros m0 m l Hsb HB.
    destruct (sbappendrecord_ok (nsb n) m0 m l (nw n)) as (sb'&w'&?&?&_); try done. by eexists _, _.
  - apply (fine_append i n (fun ch => sbinsertoob (nsb n) ch (nw n))); [done|]. intros m0 m l Hsb HB.
    destruct (sbinsertoob_ok (nsb n) m0 m l (nw n)) as (sb'&w'&?&?&_); try done. by eexists _, _.
  - by apply event_addr_ok.
  - apply fine_hand; [done|]. intros m0 E. destruct (hand_ledger n i m0 HN E) as (_&Hr&HB).
    apply fine_hand; [done|]. intros control E2. destruct control as [|c control].
    { exfalso. by eapply Forall_lookup_1 in Hr. }
    destruct (sbappendcontrol_ok (nsb n) m0 c control (concat (delete j (delete i (hands n)))) (nw n)) as (ok&sb'&->&HC).
    { apply HH. }
    { refine (proj1 (Ledger_perm _ _ _ _) HB). rewrite (hand_out _ _ _ E2). rewrite ?app_assoc. solve_Permutation. }
    cbn [mbind outcome_bind]. apply fine_ret. destruct ok; [|done]. split; [apply HC|by apply Forall_delete].
  - cbn [proper] in Hg. bool_prop.
    pose proof (sbdrop_ok (nsb n) _ n0 (nw n) HH ltac:(done)) as HD.
    destruct (adrop n0 (sbitems (nw n) (nsb n))) eqn:Ed.
    + destruct HD as (sb'&w'&->&H2&_). cbn. by apply fine_sb.
    + apply adrop_None in Ed; [|done]. rewrite (qchars_clen _ _ _ HH) in Ed. lia.
  - destruct (sbdroprecord_ok _ _ _ HH) as (sb'&w'&->&H2&_). cbn. by apply fine_sb.
  - cbn [proper] in Hg. apply andb_true_iff in Hg as (Hg1&Hg2). apply andb_true_iff in Hg2 as (Hg2&Hg3).
    apply negb_true_iff in Hg1. apply Z.ltb_lt in Hg2, Hg3.
    pose proof (sbflush_ok (nsb n) _ (nw n) HH (conj Hg2 Hg3)) as HD. rewrite Hg1 in HD.
    destruct HD as (sb'&w'&->&H2&_). cbn. by apply fine_sb.
Qed.

Lemma run_fine evs : forall n, net_ok n -> proper_run evs n = true -> fine (run evs n).
Proof.
  induction evs as [|e evs IH]; intros n HN Hp; cbn [run]; [by apply fine_ret|]. cbn [proper_run] in Hp. apply andb_true_iff in Hp as (He&Hp).
  destruct (net_step_ok e n HN He) as (n1&E&H1). rewrite E in *. cbn [mbind outcome_bind]. by apply IH.
Qed.
