(* ===== verification/NetSpec.v ===== *)
(** * Mbufs and socket buffers: the properties

    What the routines on chains do to the data, that a socket buffer is a queue of
    records, and that the memory of the network is neither lost nor used after it
    is freed.  Each property with a hypothesis has an instance, most of them in a
    world that a run of events has made. *)

From S2P Require Import Prelude Mbuf MbufBook MbufOps Sockbuf SockbufInv NetRun.

(** ** The operations of a socket buffer as transitions of its queue *)

Inductive sbop : Type :=
  | SbAppend (m : list mbuf)
  | SbAppendRecord (m : list mbuf)
  | SbInsertOob (m : list mbuf)
  | SbAppendAddr (asa : list Z) (m0 control : list mbuf)
  | SbAppendControl (m0 control : list mbuf)
  | SbDrop (len : Z)
  | SbDropRecord.

Definition op_parts (op : sbop) : list (list mbuf) :=
  match op with
  | SbAppend m | SbAppendRecord m | SbInsertOob m => [m]
  | SbAppendAddr _ m0 control | SbAppendControl m0 control => [m0; control]
  | SbDrop _ | SbDropRecord => []
  end.
Definition op_chains (op : sbop) : list mbuf := concat (op_parts op).

(** A chain the buffer refuses is freed by the caller. *)
Definition refused (m0 control : list mbuf) (sb : sockbuf) (w : mworld) : outcome (sockbuf * mworld) :=
  w ← m_freem m0 w; w ← m_freem control w; mret (sb, w).

Definition sbdo (op : sbop) (sb : sockbuf) (w : mworld) : outcome (sockbuf * mworld) :=
  match op with
  | SbAppend m => sbappend sb m w
  | SbAppendRecord m => sbappendrecord sb m w
  | SbInsertOob m => sbinsertoob sb m w
  | SbAppendAddr asa m0 control =>
      '(ok, sb, w) ← sbappendaddr sb asa m0 control w;
      if ok : bool then mret (sb, w) else refused m0 control sb w
  | SbAppendControl m0 control =>
      '(ok, sb) ← sbappendcontrol sb m0 control;
      if ok : bool then mret (sb, w) else refused m0 control sb w
  | SbDrop len => sbdrop sb len w
  | SbDropRecord => sbdroprecord sb w
  end.

Fixpoint sbdos (ops : list sbop) (sb : sockbuf) (w : mworld) : outcome (sockbuf * mworld) :=
  match ops with
  | [] => mret (sb, w)
  | op :: ops => '(sb, w) ← sbdo op sb w; sbdos ops sb w
  end.

(** What the callers see to. *)
Definition op_ok (op : sbop) : Prop :=
  match op with
  | SbAppendAddr _ (m :: _) _ => is_pkt m = true
  | SbAppendControl _ control => control <> []
  | SbDrop len => 0 <= len
  | _ => True
  end.

(** The queue of records: [None] is the panic for more than there is. *)
Inductive astep (items : list mbuf -> list item) : sbop -> list (list item) -> option (list (list item)) -> Prop :=
  | as_nothing op q : op_chains op = [] -> (forall n, op <> SbDrop n) -> op <> SbDropRecord -> astep items op q (Some q)
  | as_append m q : m <> [] -> astep items (SbAppend m) q (Some (aappend q (acompress (items m))))
  | as_record m q : m <> [] -> astep items (SbAppendRecord m) q (Some (aappendrecord q (acompress (items m))))
  | as_oob m pre post : m <> [] -> astep items (SbInsertOob m) (pre ++ post) (Some (pre ++ acompress (items m) :: post))
  | as_addr asa m0 control q :
      astep items (SbAppendAddr asa m0 control) q (Some (aappendrecord q (addr_items asa ++ items control ++ items m0)))
  | as_addr_no asa m0 control q : astep items (SbAppendAddr asa m0 control) q (Some q)
  | as_control m0 control q :
      astep items (SbAppendControl m0 control) q (Some (aappendrecord q (items control ++ items m0)))
  | as_control_no m0 control q : astep items (SbAppendControl m0 control) q (Some q)
  | as_drop n q : astep items (SbDrop n) q (adrop n q)
  | as_droprecord q : astep items SbDropRecord q (Some (tail q)).

Inductive asteps (items : list mbuf -> list item) : list sbop -> list (list item) -> option (list (list item)) -> Prop :=
  | as_nil q : asteps items [] q (Some q)
  | as_cons op ops q q' r : astep items op q (Some q') -> asteps items ops q' r -> asteps items (op :: ops) q r
  | as_panic op ops q : astep items op q None -> asteps items (op :: ops) q None.

Lemma refused_ok m0 control sb l w : Ledger w (m0 ++ control ++ l) ->
  exists w', refused m0 control sb w = Ok (sb, w') /\ Ledger w' l /\ narrows w w'.
Proof.
  intros HB. unfold refused. destruct (m_freem_ok m0 _ w HB) as (w1&->&H1&N1&_). cbn [mbind outcome_bind].
  destruct (m_freem_ok control _ w1 H1) as (w2&->&H2&N2&_). cbn [mbind outcome_bind].
  exists w2. split; [done|]. split; [done|]. by rewrite N1.
Qed.

Lemma sbdo_ok op sb l w : op_ok op -> holds w sb (op_chains op ++ l) ->
  match sbdo op sb w with
  | Ok (sb', w') => holds w' sb' l /\ narrows w w' /\ same_limits sb sb' /\
      astep (ritems w) op (sbitems w sb) (Some (sbitems w' sb'))
  | Panic s => s = "sbdrop" /\ astep (ritems w) op (sbitems w sb) None
  | Fault => False
  end.
Proof.
  intros Hop (Hsb&HB). assert (Ledger w (op_chains op ++ concat (sb_mb sb) ++ l)) as HB' by by_ledger HB.
  destruct op as [m|m|m|asa m0 control|m0 control|n|]; cbn [sbdo op_chains op_parts concat op_ok] in *; rewrite ?app_nil_r in *.
  - destruct m as [|m0 m]; [split; [by split|split; [reflexivity|split; [reflexivity|by apply as_nothing]]]|].
    destruct (sbappend_ok sb (m0 :: m) l w Hsb) as (sb'&w'&->&H&N&_&L&->); [done|done|]. split_and!; try done. by constructor.
  - destruct m as [|m0 m]; [split; [by split|split; [reflexivity|split; [reflexivity|by apply as_nothing]]]|].
    destruct (sbappendrecord_ok sb m0 m l w Hsb HB') as (sb'&w'&->&H&N&_&L&->). split_and!; try done. by constructor.
  - destruct m as [|m0 m]; [split; [by split|split; [reflexivity|split; [reflexivity|by apply as_nothing]]]|].
    destruct (sbinsertoob_ok sb m0 m l w Hsb HB') as (sb'&w'&->&H&N&_&L&->). split_and!; try done.
    pose proof (oob_split_eq (sb_mb sb)) as E. destruct (oob_split (sb_mb sb)) as [pre post]. cbn [fst snd].
    unfold sbitems. rewrite E, map_app. by constructor.
  - rewrite <- app_assoc in HB'.
    destruct (sbappendaddr_ok sb asa m0 control l w Hsb HB') as (ok&sb'&w'&->&N&HC); [by intros m r ->|].
    cbn [mbind outcome_bind]. destruct ok.
    + destruct HC as (_&_&H&L&E). cbn [mret outcome_ret]. split; [done|]. split; [done|]. split; [done|]. rewrite E. constructor.
    + destruct HC as (_&->&H). destruct (refused_ok m0 control sb _ w' H) as (w2&->&H2&N2).
      assert (narrows w w2) as N' by (by rewrite N). split; [by split|]. split; [done|]. split; [reflexivity|].
      assert (sbitems w2 sb = sbitems w sb) as -> by (by apply (records_narrow w w2 _ l)). apply as_addr_no.
  - destruct control as [|c control]; [done|]. rewrite <- app_assoc in HB'.
    destruct (sbappendcontrol_ok sb m0 c control l w Hsb HB') as (ok&sb'&->&HC). cbn [mbind outcome_bind]. destruct ok.
    + destruct HC as (_&H&L&E). cbn [mret outcome_ret]. split; [done|]. split; [reflexivity|]. split; [done|]. rewrite E. constructor.
    + destruct HC as (_&->). destruct (refused_ok m0 (c :: control) sb _ w HB') as (w2&->&H2&N2).
      split; [by split|]. split; [done|]. split; [reflexivity|].
      assert (sbitems w2 sb = sbitems w sb) as -> by (by apply (records_narrow w w2 _ l)). apply as_control_no.
  - pose proof (sbdrop_ok sb l n w (conj Hsb HB') Hop) as HD. pose proof (as_drop (ritems w) n (sbitems w sb)) as HA.
    destruct (adrop n (sbitems w sb)) as [q|].
    + destruct HD as (sb'&w'&->&H&N&L&->&_). by split_and!.
    + rewrite HD. by split.
  - destruct (sbdroprecord_ok sb l w (conj Hsb HB')) as (sb'&w'&->&H&N&L&->). split_and!; try done. constructor.
Qed.

(** The steps of the queue depend on what the chains given hold, and on nothing
    else of them. *)
Lemma astep_items f g op q r : Forall (fun m => f m = g m) (op_parts op) -> astep f op q r -> astep g op q r.
Proof.
  intros HF H. destruct H; [by apply as_nothing|..]; cbn [op_parts] in HF; decompose_Forall_hyps;
    repeat match goal with E : f _ = g _ |- _ => rewrite E; clear E end; by econstructor.
Qed.

Lemma asteps_items f g ops q r : Forall (fun m => f m = g m) (concat (map op_parts ops)) -> asteps f ops q r -> asteps g ops q r.
Proof.
  intros HF H. induction H as [q|op ops q q' r H1 H2 IH|op ops q H1]; cbn [map concat] in HF; rewrite ?list.Forall_app in HF.
  - constructor.
  - econstructor; [eapply astep_items, H1; apply HF|apply IH, HF].
  - apply as_panic. eapply astep_items, H1. apply HF.
Qed.

Lemma parts_narrow w w' rs l : Ledger w' (concat rs ++ l) -> narrows w w' -> Forall (fun m => ritems w' m = ritems w m) rs.
Proof.
  intros HB HN. revert l HB. induction rs as [|r rs IH]; intros l HB; [constructor|]. cbn [concat] in HB. constructor.
  - apply (ritems_narrow w w' r (concat rs ++ l)); [by_ledger HB|done].
  - apply (IH (r ++ l)). by_ledger HB.
Qed.

Definition ops_chains (ops : list sbop) : list mbuf := concat (concat (map op_parts ops)).

Lemma sbdos_ok ops : forall sb l w, Forall op_ok ops -> holds w sb (ops_chains ops ++ l) ->
  match sbdos ops sb w with
  | Ok (sb', w') => holds w' sb' l /\ narrows w w' /\ same_limits sb sb' /\
      asteps (ritems w) ops (sbitems w sb) (Some (sbitems w' sb'))
  | Panic s => s = "sbdrop" /\ asteps (ritems w) ops (sbitems w sb) None
  | Fault => False
  end.
Proof.
  induction ops as [|op ops IH]; intros sb l w Hops HH; cbn [sbdos].
  { split; [done|]. split; [reflexivity|]. split; [reflexivity|]. constructor. }
  inversion Hops as [|? ? H1 H2]; subst.
  assert (ops_chains (op :: ops) ++ l = op_chains op ++ ops_chains ops ++ l) as E.
  { unfold ops_chains, op_chains. cbn [map concat]. by rewrite concat_app, app_assoc. }
  rewrite E in HH. pose proof (sbdo_ok op sb _ w H1 HH) as HS.
  destruct (sbdo op sb w) as [[sb1 w1]|s|]; cbn [mbind outcome_bind]; [|destruct HS; split; [done|by apply as_panic]|done].
  destruct HS as (HH1&N1&L1&A1). pose proof (IH sb1 l w1 H2 HH1) as HI.
  assert (Forall (fun m => ritems w1 m = ritems w m) (concat (map op_parts ops))) as Hp.
  { destruct HH1 as (_&HB). apply (parts_narrow w w1 _ (concat (sb_mb sb1) ++ l)); [|done]. unfold ops_chains in HB. by_ledger HB. }
  destruct (sbdos ops sb1 w1) as [[sb2 w2]|s|]; [|destruct HI; split; [done|]; econstructor; [done|by eapply asteps_items]|done].
  destruct HI as (HH2&N2&L2&A2). split; [done|]. split; [by rewrite N1|]. split; [by rewrite L1|].
  econstructor; [done|by eapply asteps_items].
Qed.

(** ** Worlds that runs have made *)

Definition blank : mbuf := mkMbuf 0 0 0 0 (repeat 0 108) 0 0 0 0.
Definition page : list Z := repeat 0 4096.
(** A run whose callers see to what they must. *)
Definition demo (k : nat) (evs : list event) : outcome net :=
  n ← boot (repeat (Some blank) k) [Some (0, page)] 4096 16384 32768 1; if proper_run evs n then run evs n else mret n.
Definition world_of (o : outcome net) : mworld :=
  match o with Ok n => nw n | _ => boot_world [] [] 0 end.
Definition buf_of (o : outcome net) : sockbuf :=
  match o with Ok n => nsb n | _ => mkSockbuf 0 0 0 0 0 [] 0 end.
Definition hands_of (o : outcome net) : list (list mbuf) := match o with Ok n => hands n | _ => [] end.
Definition hand_of (i : nat) (o : outcome net) : list mbuf := default [] (hands_of o !! i).

Lemma supply_demo k : supply_ok (repeat (Some blank) k) [Some (0, page)].
Proof.
  split.
  - intros m H. apply list_elem_of_In, repeat_spec in H. by injection H as ->.
  - intros c p [[= -> ->]|H%elem_of_nil]%elem_of_cons; [|done]. apply (f_equal Z.of_nat (repeat_length 0 4096)).
  - cbn. repeat constructor; rewrite ?elem_of_cons, ?elem_of_nil; lia.
Qed.

Lemma demo_ok k evs : fine (demo k evs).
Proof.
  destruct (boot_ok _ _ 4096 16384 32768 1 _ _ (supply_demo k) eq_refl) as (n&E&H).
  unfold demo. rewrite E. cbn [mbind outcome_bind]. destruct (proper_run evs n) eqn:Hp; [by apply run_fine|by apply fine_ret].
Qed.

Lemma demo_holds k evs : holds (world_of (demo k evs)) (buf_of (demo k evs)) (concat (hands_of (demo k evs))).
Proof. destruct (demo_ok k evs) as (n&->&[H _]). exact H. Qed.

Lemma demo_ledger k evs : Ledger (world_of (demo k evs)) (concat (sb_mb (buf_of (demo k evs))) ++ concat (hands_of (demo k evs))).
Proof. apply demo_holds. Qed.

Lemma made_holds o k evs : o = demo k evs -> holds (world_of o) (buf_of o) (concat (hands_of o)).
Proof. intros ->. apply demo_holds. Qed.

Lemma made_ledger o k evs : o = demo k evs -> is_nil (sb_mb (buf_of o)) = true -> Ledger (world_of o) (concat (hands_of o)).
Proof. intros E Hs. destruct (made_holds o k evs E) as (_&HB). by destruct (sb_mb (buf_of o)). Qed.

(** The chain in hand [i] of a run that leaves nothing in the buffer. *)
Lemma demo_hand o k evs i rest : o = demo k evs -> is_nil (sb_mb (buf_of o)) = true ->
  hands_of o = hand_of i o :: rest -> Ledger (world_of o) (hand_of i o ++ concat rest).
Proof.
  intros -> Hs Hh. pose proof (demo_ledger k evs) as HB. rewrite Hh in HB. cbn [concat] in HB.
  by destruct (sb_mb (buf_of (demo k evs))).
Qed.

Lemma refs_length c l : refs c l <= Z.of_nat (length l).
Proof. induction l as [|m l IH]; [done|]. rewrite refs_cons. pose proof (ref1_range c m). cbn [length]. lia. Qed.

Lemma room_length w l k : (length l + length (frags (ipq w)) + length k <= 256)%nat -> room w l k.
Proof.
  intros Hl c. pose proof (refs_length c l). pose proof (refs_length c (frags (ipq w))). pose proof (refs_length c k). lia.
Qed.

Definition enough_b (n : nat) (w : mworld) : bool :=
  (n <=? length (grants w))%nat && forallb (fun o : option mbuf => match o with Some _ => true | None => false end) (take n (grants w)).
Lemma enough_check n w : enough_b n w = true -> enough n w.
Proof.
  intros (H1&H2)%andb_true_iff. split; [by apply Nat.leb_le|]. apply list.Forall_forall. intros o Ho%list_elem_of_In.
  rewrite forallb_forall in H2. specialize (H2 o Ho). by destruct o.
Qed.

Definition copy_demo : outcome net := demo 6 [Clget true MT_DATA [1; 2; 3]; Get false MT_DATA [4; 5]; Cat 1 0].
Definition copy_m : mbuf := hd blank (hand_of 0 copy_demo).
Definition copy_rest : list mbuf := tl (hand_of 0 copy_demo).

Lemma copy_ledger : Ledger (world_of copy_demo) ((copy_m :: copy_rest) ++ []).
Proof.
  assert (copy_m :: copy_rest = hand_of 0 copy_demo) as -> by (by vm_compute).
  by apply (demo_hand _ _ _ 0 [] eq_refl); vm_compute.
Qed.

(** ** Properties *)

(** C4. Along every run of events from boot, whatever the allocators hand
    out and in whatever order the protocols copy, trim, join, pull up, prepend, free
    and drain chains and move them in and out of a socket buffer, no event panics or
    touches a free cluster; provided that ([proper]) what they put into a new mbuf
    fits; they copy what is there, and no copy takes a cluster past 256 references
    (see mclrefcnt_wraps); the lengths for m_pullup and M_PREPEND
    are not negative, at most MHLEN for the latter; an address comes with a packet; no
    more is dropped from a buffer than is there, and a buffer is flushed unlocked and
    below 2^31 chars.  Then every mbuf is well formed, a cluster is live exactly when
    an mbuf refers to it, with the number of these in its count; no cluster is on the
    free list twice or on it and live, and live and free ones are together those that
    mbstat counts (modulo 2^32); the counts of the types are those of the mbufs, and
    the buffer counts the chars and mbufs it holds. *)
Theorem net_safe gr pages base hiwat mbmax lowat c p evs :
  supply_ok gr pages -> head pages = Some (Some (c, p)) ->
  exists n0, boot gr pages base hiwat mbmax lowat = Ok n0 /\ (proper_run evs n0 = true ->
  exists n, run evs n0 = Ok n /\
    let all := concat (sb_mb (nsb n)) ++ concat (hands n) ++ frags (ipq (nw n)) in
    Forall mbuf_ok all /\
    (forall c, refs c all <= 256 /\ refcnt (nw n) c = s8 (refs c all) /\ (is_Some (mclbuf (nw n) !! c) <-> 0 < refs c all)) /\
    NoDup ((mclfree (nw n)).*1) /\ (forall c, c ∈ (mclfree (nw n)).*1 -> mclbuf (nw n) !! c = None) /\
    m_clusters (nw n) = u32 (Z.of_nat (length (mclfree (nw n)) + size (mclbuf (nw n)))) /\
    (forall t, mtypes (nw n) t = u16 (total (typ1 t) all)) /\
    sb_cc (nsb n) = u32 (clen (concat (sb_mb (nsb n)))) /\ sb_mbcnt (nsb n) = u32 (total sb_size (concat (sb_mb (nsb n))))).
Proof.
  intros HS Hp. destruct (boot_ok gr pages base hiwat mbmax lowat c p HS Hp) as (n0&E0&H0). exists n0. split; [done|]. intros Hr.
  destruct (run_fine evs n0 H0 Hr) as (n&E&[[[K1 K2 _] HB] _]). exists n. split; [done|].
  unfold Ledger in HB. rewrite <- app_assoc in HB. destruct HB as [? ? ? ? ? ? Hn Ha]. apply list.NoDup_app in Hn as (?&_&_).
  split_and!; try done. intros c' Hc. apply Ha, elem_of_app. by left.
Qed.

(** A cluster that is shared, and whose two mbufs go different ways. *)
Definition net_run : list event := [Clget true MT_DATA [1; 2; 3]; Copy 0 1 M_COPYALL; Append 0; Free 0; Adj 0 1].

Lemma net_safe_witness : exists n0 n, boot (repeat (Some blank) 6) [Some (0, page)] 4096 16384 32768 1 = Ok n0 /\
  proper_run net_run n0 = true /\ run net_run n0 = Ok n /\ sb_cc (nsb n) = u32 (clen (concat (sb_mb (nsb n)))).
Proof.
  destruct (net_safe (repeat (Some blank) 6) [Some (0, page)] 4096 16384 32768 1 0 page net_run (supply_demo 6) eq_refl) as (n0&E0&H).
  exists n0. assert (proper_run net_run n0 = true) as Hp.
  { assert (match boot (repeat (Some blank) 6) [Some (0, page)] 4096 16384 32768 1 with Ok n => proper_run net_run n | _ => false end = true) as Hb by (by vm_compute).
    by rewrite E0 in Hb. }
  destruct (H Hp) as (n&E&HN). exists n. do 3 (split; [done|]). apply HN.
Defined.

(** C15. m_copym of [len] chars from [off] panics exactly when these are
    not in the chain (all of them for M_COPYALL), and never reads outside an area.
    Otherwise the original is as it was, and the copy has those chars, with a header
    when the copy starts with a packet's first char: the length is what was copied,
    or the old one for M_COPYALL.  With too little memory the copy is freed again
    and null is returned; MCFail counts every null. *)
Theorem m_copym_spec m ch l w off len :
  Ledger w ((m :: ch) ++ l) -> room w ((m :: ch) ++ l) (m :: ch) -> len <= M_COPYALL ->
  match m_copym (m :: ch) off len w with
  | Ok (new, w') =>
      0 <= off <= clen (m :: ch) /\ 0 <= len /\
      Ledger w' (new ++ (m :: ch) ++ l) /\ cdata w' (m :: ch) = cdata w (m :: ch) /\
      MCFail w' = MCFail w + (if is_nil new then 1 else 0) /\
      ((len = M_COPYALL \/ off + len <= clen (m :: ch)) /\ cdata w' new = slice off len (cdata w (m :: ch)) /\
         copied_hdr ((off =? 0) && is_pkt m) off len (m :: ch) new \/
       new = [] /\ ~ enough (length (m :: ch)) w)
  | Panic s =>
      s = "m_copym" /\
      (off < 0 \/ len < 0 \/ clen (m :: ch) < off \/ len <> M_COPYALL /\ clen (m :: ch) < off + len)
  | Fault => False
  end.
Proof.
  intros HB Hr Hl. destruct (m_copym_ok m ch l w off len HB Hr Hl) as [(Ho&H0&HC)|(Hbad&->)]; [|by intuition].
  destruct HC as [new w' Hc H1 N D Hh _ C|w' He H1 N C|Hc1 Hc2]; cbn [app] in *.
  - split; [done|]. split; [done|]. split; [done|]. split; [|by split; [|left]].
    apply (Ledger_data _ _ _ (new ++ l)); [by_ledger H1|done].
  - split; [done|]. split; [done|]. split; [done|]. split; [by apply (Ledger_data _ _ _ l)|]. split; [done|by right].
  - split; [done|]. right; right; right. done.
Qed.

Lemma m_copym_spec_witness :
  exists new w', m_copym (copy_m :: copy_rest) 2 3 (world_of copy_demo) = Ok (new, w') /\
    cdata w' new = slice 2 3 (cdata (world_of copy_demo) (copy_m :: copy_rest)) /\ cdata w' new = [3; 4; 5].
Proof.
  pose proof (m_copym_spec _ _ _ _ 2 3 copy_ledger) as HS.
  specialize (HS ltac:(apply room_length; vm_compute; lia) ltac:(done)).
  destruct (m_copym _ _ _ _) as [[new w']|s|] eqn:E; [|by vm_compute in E..].
  exists new, w'. split; [done|]. destruct HS as (_&_&_&_&_&[(_&D&_)|(_&He)]); [by split; [|rewrite D; vm_compute]|].
  exfalso. apply He, enough_check. by vm_compute.
Defined.

(** C27. m_pullup gives the same chars in a chain whose first mbuf has
    at least [len] of them in its own area, with the type and the header of the
    first mbuf before; or it frees the whole chain, counts the failure and returns
    null, which it does only when the chain is shorter than [len], when [len] is
    more than MHLEN, or when there is no mbuf. *)
Theorem m_pullup_spec m rest l len w : Ledger w (m :: rest ++ l) -> 0 <= len ->
  exists ch w', m_pullup (m :: rest) len w = Ok (ch, w') /\
    match ch with
    | [] => Ledger w' l /\ MPFail w' = MPFail w + 1 /\ (clen (m :: rest) < len \/ MHLEN < len \/ ~ enough 1 w)
    | n :: r => Ledger w' (n :: r ++ l) /\ MPFail w' = MPFail w /\ cdata w' (n :: r) = cdata w (m :: rest) /\
        len <= m_len n /\ len <= clen (m :: rest) /\ is_ext n = false /\ m_type n = m_type m /\ is_pkt n = is_pkt m /\
        (is_pkt m = true -> pkt_len n = pkt_len m /\ pkt_rcvif n = pkt_rcvif m)
    end.
Proof.
  intros HB Hl. destruct (m_pullup_ok m rest l len w HB Hl) as (ch&w'&->&(_&HP)). exists ch, w'. split; [done|].
  destruct ch as [|n r].
  - destruct HP as (H1&F&He). split; [done|]. split; [done|].
    destruct (Z.le_gt_cases len (clen (m :: rest))); [|by left]. right. destruct (Z.le_gt_cases len MHLEN); [|by left].
    right. by apply He.
  - destruct HP as (H1&F&D&Hle&HR). split; [done|]. split; [done|]. split; [done|]. split; [done|]. split; [|done].
    assert (clen (n :: r) = clen (m :: rest)) as <-.
    { rewrite <- (Ledger_cdata w' (n :: r) l H1), D. apply (Ledger_cdata w (m :: rest) l HB). }
    pose proof (Ledger_Forall _ (n :: r) l H1) as HF. inversion HF as [|? ? _ HF']; subst.
    pose proof (clen_nonneg _ HF'). change (clen (n :: r)) with (m_len n + clen r). lia.
Qed.

Lemma m_pullup_spec_witness :
  exists n r w', m_pullup (copy_m :: copy_rest) 4 (world_of copy_demo) = Ok (n :: r, w') /\
    cdata w' (n :: r) = [1; 2; 3; 4; 5] /\ 4 <= m_len n.
Proof.
  destruct (m_pullup_spec copy_m copy_rest [] 4 _ copy_ledger) as (ch&w'&E&HP); [done|].
  destruct ch as [|n r].
  - exfalso. destruct HP as (_&_&[H|[H|He]]); [by vm_compute in H..|]. apply He, enough_check. by vm_compute.
  - exists n, r, w'. split; [done|]. destruct HP as (_&_&D&Hle&_). split; [rewrite D; by vm_compute|done].
Defined.

(** C28. m_adj cuts [req] chars off the front of a chain, or [- req] off
    its end, and keeps all mbufs.  A header that had the length of the chain has it
    again, except when the cut lies in the last mbuf of several: the code then looks
    for the header in that last mbuf, and the header still counts what was cut. *)
Theorem m_adj_spec w m rest l req : Ledger w ((m :: rest) ++ l) -> - 2 ^ 31 < req ->
  exists m' rest', m_adj (m :: rest) req = Ok (m' :: rest') /\ Ledger w ((m' :: rest') ++ l) /\
    length rest' = length rest /\
    cdata w (m' :: rest') =
      (if 0 <=? req then drop (Z.to_nat req) (cdata w (m :: rest))
       else take (Z.to_nat (clen (m :: rest) + req)) (cdata w (m :: rest))) /\
    (is_pkt m = true -> pkt_len m = clen (m :: rest) -> clen (m :: rest) < 2 ^ 31 ->
      pkt_len m' = clen (m' :: rest') +
        if (req <? 0) && (- req <=? m_len (m_last m rest)) && negb (is_nil rest) then - req else 0).
Proof.
  intros HB Hreq. destruct (m_adj_ok w m rest l req HB Hreq) as (m'&r'&->&HF&D&Ef&Ep).
  exists m', r'. split; [done|]. pose proof (Ledger_adj w _ _ l HB HF) as HB'. split; [done|].
  split; [apply Forall2_length in HF; cbn in HF; lia|]. split; [done|]. intros Hp Hl Hs.
  pose proof (Ledger_cdata w _ _ HB) as L1. pose proof (Ledger_cdata w _ _ HB') as L2. rewrite D in L2.
  pose proof (clen_nonneg _ (Ledger_Forall _ _ _ HB)). pose proof (m_last_len m rest (Ledger_Forall _ _ _ HB)).
  rewrite Ep. unfold adj_hdr. rewrite Hp. cbn [negb].
  destruct (0 <=? req) eqn:E0; bool_prop.
  - rewrite length_drop in L2. rewrite (proj2 (Z.ltb_ge req 0)) by lia. cbn [andb]. rewrite s32_id; lia.
  - rewrite length_take in L2. rewrite (proj2 (Z.ltb_lt req 0)) by lia. cbn [andb].
    destruct (- req <=? m_len (m_last m rest)) eqn:E1; bool_prop; cbn [andb]; [|lia].
    destruct (is_nil rest); cbn [negb]; [rewrite s32_id; lia|lia].
Qed.

Definition adj_demo : outcome net := demo 6 [Get true MT_DATA [1; 2; 3]; Prepend 0 4].
Definition adj_m : mbuf := hd blank (hand_of 0 adj_demo).
Definition adj_rest : list mbuf := tl (hand_of 0 adj_demo).

Lemma adj_ledger : Ledger (world_of adj_demo) ((adj_m :: adj_rest) ++ []).
Proof.
  assert (adj_m :: adj_rest = hand_of 0 adj_demo) as -> by (by vm_compute).
  by apply (demo_hand _ _ _ 0 [] eq_refl); vm_compute.
Qed.

(** A char cut off the last of two mbufs: the header still counts it. *)
Lemma m_adj_spec_witness : exists m' rest', m_adj (adj_m :: adj_rest) (-1) = Ok (m' :: rest') /\
  clen (adj_m :: adj_rest) = 7 /\ pkt_len adj_m = 7 /\ pkt_len m' = clen (m' :: rest') + 1.
Proof.
  destruct (m_adj_spec _ adj_m adj_rest [] (-1) adj_ledger) as (m'&r'&E&_&_&_&Hp); [done|].
  exists m', r'. split; [done|]. split; [by vm_compute|]. split; [by vm_compute|].
  by rewrite Hp by (by vm_compute).
Defined.

(** C35. What M_PREPEND puts in front of a packet m_adj takes off
    again: the chars and the length in the header are those before; and M_PREPEND of
    at most MHLEN chars fails only when there is no mbuf, the chain then being
    freed. *)
Theorem prepend_adj_roundtrip m rest l plen w : Ledger w (m :: rest ++ l) -> 0 <= plen <= MHLEN ->
  is_pkt m = true -> pkt_len m = clen (m :: rest) -> clen (m :: rest) + plen < 2 ^ 31 ->
  exists ch w', M_PREPEND (m :: rest) plen w = Ok (ch, w') /\ (ch = [] -> Ledger w' l /\ ~ enough 1 w) /\
    (ch <> [] -> exists n r, m_adj ch plen = Ok (n :: r) /\ Ledger w' (n :: r ++ l) /\
      cdata w' (n :: r) = cdata w (m :: rest) /\ is_pkt n = true /\ pkt_len n = pkt_len m).
Proof.
  intros HB Hp Hk Hl Hs. destruct (M_PREPEND_ok m rest l plen w HB Hp) as (ch&w'&->&N&He&HC).
  exists ch, w'. split; [done|]. destruct ch as [|n r].
  { split; [|done]. intros _. split; [done|]. intros H. by apply He. }
  split; [done|]. intros _. destruct HC as (H1&Hle&Hkn&Hln&hdr&Lh&D).
  destruct (m_adj_ok w' n r l plen H1) as (n'&r'&->&HF&D'&Ef&Ep); [lia|].
  exists n', r'. split; [done|]. split; [apply (Ledger_adj w' _ (n' :: r') l H1 HF)|].
  rewrite (proj2 (Z.leb_le 0 plen)) in D' by lia. split; [|split].
  - rewrite D', D. rewrite drop_app_ge by lia. replace (Z.to_nat plen - length hdr)%nat with 0%nat by lia. done.
  - unfold is_pkt in *. by rewrite Ef, Hkn.
  - pose proof (Ledger_cdata w' _ _ H1) as L1. rewrite D, length_app in L1.
    pose proof (Ledger_cdata w (m :: rest) l HB) as L0. pose proof (clen_nonneg _ (Ledger_Forall _ (m :: rest) l HB)) as Hc.
    rewrite Ep. unfold adj_hdr. rewrite Hkn, Hk, (Hln Hk), (proj2 (Z.leb_le 0 plen)) by lia. cbn [negb].
    rewrite (s32_id (pkt_len m + plen)) by lia. rewrite s32_id; lia.
Qed.

Lemma prepend_adj_roundtrip_witness : exists ch w' n r, M_PREPEND (adj_m :: adj_rest) 90 (world_of adj_demo) = Ok (ch, w') /\
  m_adj ch 90 = Ok (n :: r) /\ cdata w' (n :: r) = cdata (world_of adj_demo) (adj_m :: adj_rest) /\ pkt_len n = 7.
Proof.
  destruct (prepend_adj_roundtrip adj_m adj_rest [] 90 (world_of adj_demo)) as (ch&w'&E&He&H); [apply adj_ledger|done|by vm_compute..|].
  destruct (decide (ch = [])) as [->|Hne].
  { exfalso. destruct He as (_&He); [done|]. apply He, enough_check. by vm_compute. }
  destruct (H Hne) as (n&r&E2&_&D&_&Ep). exists ch, w', n, r. by split_and!.
Defined.

(** C14. A socket buffer is a queue of records of typed chars and ends of
    records.  Every sequence of appends (to the last record, as a new record,
    out of band, with an address, with control data) and drops is a sequence of
    transitions of that queue on the chars the chains given held: compression,
    clusters and the borders of mbufs do not show.  sbdrop panics exactly when there
    are fewer chars than it is to drop, and what is dropped or refused is freed. *)
Theorem sockbuf_refines ops sb l w : Forall op_ok ops -> holds w sb (ops_chains ops ++ l) ->
  match sbdos ops sb w with
  | Ok (sb', w') => holds w' sb' l /\ same_limits sb sb' /\
      asteps (ritems w) ops (sbitems w sb) (Some (sbitems w' sb'))
  | Panic s => s = "sbdrop" /\ asteps (ritems w) ops (sbitems w sb) None
  | Fault => False
  end.
Proof. intros Ho HH. pose proof (sbdos_ok ops sb l w Ho HH) as H. destruct (sbdos ops sb w) as [[sb' w']|s|]; naive_solver. Qed.

Definition queue_demo : outcome net :=
  demo 6 [Get false MT_DATA [1; 2]; Get false MT_DATA [3; 4; 5]; Append 0; Get true MT_DATA [6]; Get false MT_OOBDATA [7]].
Definition queue_ops : list sbop :=
  [SbAppend (hand_of 2 queue_demo); SbInsertOob (hand_of 0 queue_demo); SbAppendAddr [9; 9] (hand_of 1 queue_demo) []; SbDrop 3].

Lemma queue_holds w sb h0 h1 h2 : holds w sb (concat [h0; h1; h2]) ->
  holds w sb (ops_chains [SbAppend h2; SbInsertOob h0; SbAppendAddr [9; 9] h1 []; SbDrop 3] ++ []).
Proof.
  intros (Hsb&HB). split; [done|]. unfold ops_chains. cbn [map concat op_parts app] in *. rewrite ?app_nil_r in *. by_ledger HB.
Qed.

Lemma sockbuf_refines_witness : exists sb' w',
  sbdos queue_ops (buf_of queue_demo) (world_of queue_demo) = Ok (sb', w') /\
  asteps (ritems (world_of queue_demo)) queue_ops (sbitems (world_of queue_demo) (buf_of queue_demo)) (Some (sbitems w' sb')) /\
  sbitems w' sb' = [map (Ch MT_DATA) [5; 1; 2]; map (Ch MT_SONAME) [9; 9] ++ [Ch MT_DATA 6]].
Proof.
  assert (holds (world_of queue_demo) (buf_of queue_demo) (ops_chains queue_ops ++ [])) as HH.
  { apply queue_holds. assert (hands_of queue_demo = [hand_of 0 queue_demo; hand_of 1 queue_demo; hand_of 2 queue_demo]) as <-
      by (by vm_compute). by eapply made_holds. }
  pose proof (sockbuf_refines queue_ops _ [] _ ltac:(by repeat constructor) HH) as HS.
  assert (match sbdos queue_ops (buf_of queue_demo) (world_of queue_demo) with Ok (sb', w') => sbitems w' sb' | _ => [] end =
    [map (Ch MT_DATA) [5; 1; 2]; map (Ch MT_SONAME) [9; 9] ++ [Ch MT_DATA 6]]) as Hq by (by vm_compute).
  destruct (sbdos _ _ _) as [[sb' w']|s|] eqn:E; [|done..]. exists sb', w'. split; [done|]. split; [apply HS|done].
Defined.

(** The chars a call appends. *)
Definition appended (asa : list Z) (m0 control : list mbuf) : Z := Z.of_nat (length asa) + clen m0 + clen control.

(** sbappendaddr accepts a datagram only if the address, the data and the
    control data fit under the high water mark with what is there, so that sb_cc
    does not pass it; a refusal changes nothing and has one of four reasons: the
    chars, the mbufs, an address longer than an mbuf, or no mbuf.  The mbufs added
    are not held against sb_mbmax, only those already there and the chars. *)
Theorem sb_space sb asa m0 control l w : sb_ok sb -> Ledger w (m0 ++ control ++ concat (sb_mb sb) ++ l) ->
  match m0 with m :: _ => is_pkt m = true /\ pkt_len m = clen m0 | [] => True end ->
  clen (concat (sb_mb sb)) < 2 ^ 31 -> 0 <= sb_hiwat sb < 2 ^ 31 -> 0 <= sb_mbmax sb < 2 ^ 31 ->
  total sb_size (concat (sb_mb sb)) < 2 ^ 31 -> appended asa m0 control < 2 ^ 31 ->
  exists ok sb' w', sbappendaddr sb asa m0 control w = Ok (ok, sb', w') /\
    if ok : bool then sb_cc sb' = sb_cc sb + appended asa m0 control /\ sb_cc sb' <= sb_hiwat sb /\ sb_mbcnt sb <= sb_mbmax sb
    else sb' = sb /\ (sb_hiwat sb < sb_cc sb + appended asa m0 control \/ sb_mbmax sb < sb_mbcnt sb + appended asa m0 control \/
      MLEN < Z.of_nat (length asa) \/ ~ enough 1 w).
Proof.
  intros Hsb HB Hm Hc Hh Hx Ht Ha.
  assert (0 <= clen m0 /\ 0 <= clen control) as (H0&H1).
  { split; apply clen_nonneg; eapply Ledger_Forall; [exact HB|]. instantiate (1 := m0 ++ concat (sb_mb sb) ++ l). by_ledger HB. }
  assert (Ledger w (concat (sb_mb sb) ++ m0 ++ control ++ l)) as HB1 by by_ledger HB.
  destruct (holds_counts w sb _ (conj Hsb HB1)) as (Ec&Eq&Hq&Em&_); [split; lia|].
  destruct (size_nonneg _ (Ledger_Forall _ _ _ HB1)) as (Hz&_). pose proof (clen_nonneg _ (Ledger_Forall _ _ _ HB1)) as Hcn.
  assert (addr_space asa m0 control = appended asa m0 control) as Es.
  { unfold addr_space, appended in *. destruct m0 as [|m r]; [|destruct Hm as (_&->)]; rewrite s32_id; cbn in *; lia. }
  destruct (sbappendaddr_ok sb asa m0 control l w Hsb HB) as (ok&sb'&w'&->&N&HC).
  { intros m r ->. apply Hm. }
  exists ok, sb', w'. split; [done|]. rewrite Es in HC.
  assert (sbspace sb = Z.min (sb_hiwat sb - sb_cc sb) (sb_mbmax sb - sb_mbcnt sb)) as Esp.
  { unfold sbspace. rewrite !s32_id by lia. done. }
  destruct ok.
  - destruct HC as (Hle&_&HH&_&D). pose proof (qchars_clen _ _ _ HH) as Eq'. destruct HH as (Hsb'&HB').
    assert (clen (concat (sb_mb sb')) = sb_cc sb + appended asa m0 control) as El.
    { rewrite <- Eq', D. unfold aappendrecord, qchars. rewrite concat_app. cbn [concat]. rewrite app_nil_r, !nchars_app.
      fold (qchars (sbitems w sb)). rewrite (qchars_clen w sb _ (conj Hsb HB1)), <- Ec.
      rewrite (nchars_ritems w m0 (control ++ concat (sb_mb sb) ++ l)) by done.
      rewrite (nchars_ritems w control (m0 ++ concat (sb_mb sb) ++ l)) by by_ledger HB.
      unfold appended, addr_items. assert (nchars (map (Ch MT_SONAME) asa) = Z.of_nat (length asa)) as ->; [|lia].
      unfold nchars. by rewrite chars_map, length_map. }
    assert (0 <= appended asa m0 control) by (unfold appended; lia). rewrite (sk_cc _ Hsb'), El. rewrite u32_id by lia. split_and!; lia.
  - destruct HC as (Hno&->&_). split; [done|]. rewrite Esp in Hno. destruct Hno as [H|H]; [lia|by right; right].
Qed.

Lemma middle_holds w sb h0 h1 h2 : holds w sb (concat [h0; h1; h2]) ->
  sb_ok sb /\ Ledger w (h1 ++ [] ++ concat (sb_mb sb) ++ h0 ++ h2).
Proof. intros (Hsb&HB). split; [done|]. cbn [concat] in HB. rewrite app_nil_r in HB. by_ledger HB. Qed.

Lemma sb_space_witness : exists sb' w',
  sbappendaddr (buf_of queue_demo) [9; 9] (hand_of 1 queue_demo) [] (world_of queue_demo) = Ok (true, sb', w') /\
  sb_cc sb' = sb_cc (buf_of queue_demo) + appended [9; 9] (hand_of 1 queue_demo) [] /\ sb_cc sb' <= sb_hiwat (buf_of queue_demo).
Proof.
  assert (holds (world_of queue_demo) (buf_of queue_demo) (concat [hand_of 0 queue_demo; hand_of 1 queue_demo; hand_of 2 queue_demo])) as HH.
  { assert (hands_of queue_demo = [hand_of 0 queue_demo; hand_of 1 queue_demo; hand_of 2 queue_demo]) as <- by (by vm_compute).
    by eapply made_holds. }
  destruct (middle_holds _ _ _ _ _ HH) as (Hsb&HB1).
  destruct (sb_space (buf_of queue_demo) [9; 9] (hand_of 1 queue_demo) [] _ _ Hsb HB1) as (ok&sb'&w'&E&HC);
    [by vm_compute..|].
  assert (match sbappendaddr (buf_of queue_demo) [9; 9] (hand_of 1 queue_demo) [] (world_of queue_demo) with
    Ok (ok, _, _) => ok | _ => false end = true) as Hq by (by vm_compute).
  rewrite E in Hq. destruct ok; [|done]. exists sb', w'. split; [done|]. split; apply HC.
Defined.

(** C39. The count of references to a cluster is a char that nothing
    checks: when 256 mbufs refer to one, one more copy is made without complaint,
    and its being freed puts the cluster on the free list under all the others, whose
    data was there until then. *)
Theorem mclrefcnt_wraps m l w : Ledger w (m :: l) -> ipq w = [] -> enough 1 w -> is_ext m = true -> 0 < m_len m ->
  refs (ext_buf m) (m :: l) = 256 ->
  exists n w1 w2, m_copym [m] 0 M_COPYALL w = Ok ([n], w1) /\ m_freem [n] w1 = Ok w2 /\
    peek w m 0 (m_len m) = Ok (mdata w m) /\ peek w1 m 0 (m_len m) = Ok (mdata w m) /\
    peek w2 m 0 (m_len m) = Fault.
Proof.
  intros HB Hq He Hx Hl Hr.
  assert (forall w1 k, Ledger w1 (m :: k) -> peek w1 m 0 (m_len m) = Ok (mdata w1 m)) as Hpeek.
  { intros w1 k H1. rewrite (peek_ok w1 ((m :: k) ++ frags (ipq w1))) by (try exact H1; try (by left); lia).
    unfold mdata. rewrite Z2Nat.inj_0, drop_0, firstn_firstn, Nat.min_id. done. }
  destruct (MGET_ok (m_type m) _ w HB) as (o&w1&E1&G). destruct (gt_enough _ _ _ _ _ _ G 0%nat He) as ([n ->]&_).
  destruct G as [[HF Hg] G2 Gi _ _ _].
  destruct (fresh_ok _ _ _ 0 HF) as (Fx&Fp&Fok); [unfold MLEN; lia|].
  assert (Ledger w1 (m :: set_m_len 0 n :: l)) as H1.
  { assert (Ledger w1 (set_m_len 0 n :: m :: l)) as H; [|by_ledger H]. apply Hg; [apply HF|done|done]. }
  assert (ipq w1 = []) as Hq1 by (destruct Gi; congruence).
  assert (refcnt w1 (ext_buf m) = 0) as Hc.
  { rewrite (bk_ref _ _ H1), Hq1. cbn [frags flat_map]. rewrite app_nil_r.
    assert (refs (ext_buf m) (m :: set_m_len 0 n :: l) = 256) as ->; [|done].
    rewrite !refs_cons in *. unfold ref1 at 2. rewrite Fx. cbn [andb]. lia. }
  destruct (Book_in _ _ m H1) as (_&Hlive); [by left|]. destruct (Hlive Hx) as (b&Hb&_).
  assert (forall k w0, is_ext k = true -> ext_buf k = ext_buf m -> refcnt w0 (ext_buf m) = 1 -> mclbuf w0 = mclbuf w1 ->
    exists w2, m_freem [k] w0 = Ok w2 /\ mclbuf w2 = delete (ext_buf m) (mclbuf w1)) as Hfree.
  { intros k w0 Kx Kb Kr Kc. cbn [m_freem]. unfold MFREE, MCLFREE. rewrite Kx, Kb.
    assert (forall v, refcnt (set_refcnt (ext_buf m) v (count_type (m_type k) (-1) w0)) (ext_buf m) = s8 v) as Hget.
    { intros v. unfold refcnt, set_refcnt. cbn [mclrefcnt set_mclrefcnt]. by rewrite lookup_insert_eq. }
    rewrite Hget. change (refcnt (count_type (m_type k) (-1) w0) (ext_buf m)) with (refcnt w0 (ext_buf m)). rewrite Kr.
    change (s8 (1 - 1) =? 0) with true. cbn iota.
    change (mclbuf (set_refcnt (ext_buf m) (1 - 1) (count_type (m_type k) (-1) w0))) with (mclbuf w0). rewrite Kc, Hb.
    cbn [mbind outcome_bind deref mret outcome_ret]. eexists. by split. }
  set (nh := if is_pkt m then set_pkt_len (pkt_len (M_COPY_PKTHDR n m) - 0) (M_COPY_PKTHDR n m) else n).
  destruct (m_copy1 m nh 0 (Z.min M_COPYALL (m_len m - 0)) w1) as [[k w2]|s|] eqn:Ek; [|exfalso; revert Ek; unfold m_copy1; by rewrite Hx..].
  assert (is_ext k = true /\ ext_buf k = ext_buf m /\ refcnt w2 (ext_buf m) = 1 /\ mclbuf w2 = mclbuf w1) as (Kx&Kb&Kr&Kc).
  { unfold m_copy1 in Ek. rewrite Hx in Ek. cbn [mret outcome_ret] in Ek. injection Ek as <- <-. split_and!; try done.
    - rewrite is_ext_bit. cbn [m_flags set_m_flags]. rewrite Z.lor_spec. apply orb_true_r.
    - unfold refcnt, set_refcnt. cbn [mclrefcnt set_mclrefcnt]. rewrite lookup_insert_eq. cbn [default from_option id].
      fold (refcnt w1 (ext_buf m)). by rewrite Hc. }
  destruct (Hfree k w2 Kx Kb Kr Kc) as (w3&E3&D3).
  exists k, w2, w3. split; [|split; [exact E3|split; [by eapply Hpeek|split]]].
  - unfold m_copym. cbn [Z.ltb Z.compare orb Z.eqb m_seek mbind outcome_bind mret outcome_ret m_copy_loop].
    change (0 <? M_COPYALL) with true. change (M_COPYALL =? M_COPYALL) with true. cbn iota.
    rewrite E1. cbn [mbind outcome_bind]. fold nh. by rewrite Ek.
  - assert (peek w2 m 0 (m_len m) = peek w1 m 0 (m_len m)) as -> by (unfold peek, m_area; by rewrite Kc).
    rewrite (Hpeek w1 _ H1). f_equal. apply (mdata_narrow w w1 _ m H1); [by left|done].
  - unfold peek, m_area. rewrite (proj2 (Z.eqb_neq _ _)) by lia. by rewrite Hx, D3, lookup_delete_eq.
Qed.

Definition wrap_demo : outcome net := demo 260 (Clget false MT_DATA [1; 2; 3] :: repeat (Copy 0 0 M_COPYALL) 255).
Definition wrap_m : mbuf := hd blank (concat (hands_of wrap_demo)).

Lemma wrap_made : wrap_demo = demo 260 (Clget false MT_DATA [1; 2; 3] :: repeat (Copy 0 0 M_COPYALL) 255).
Proof. reflexivity. Qed.
Lemma wrap_empty : is_nil (sb_mb (buf_of wrap_demo)) = true.
Proof. by vm_compute. Qed.

Lemma wrap_ledger : Ledger (world_of wrap_demo) (concat (hands_of wrap_demo)).
Proof. exact (made_ledger _ _ _ wrap_made wrap_empty). Qed.

Lemma wrap_head : (concat (hands_of wrap_demo)) = wrap_m :: tl (concat (hands_of wrap_demo)).
Proof. by vm_compute. Qed.

Lemma wrap_facts : ipq (world_of wrap_demo) = [] /\ is_ext wrap_m = true /\ m_len wrap_m = 3 /\
  refs (ext_buf wrap_m) (wrap_m :: tl (concat (hands_of wrap_demo))) = 256 /\ mdata (world_of wrap_demo) wrap_m = [1; 2; 3].
Proof. by vm_compute. Qed.

Lemma wrap_enough : enough 1 (world_of wrap_demo).
Proof. apply enough_check. by vm_compute. Qed.

Lemma mclrefcnt_wraps_witness : exists n w1 w2, m_copym [wrap_m] 0 M_COPYALL (world_of wrap_demo) = Ok ([n], w1) /\
  m_freem [n] w1 = Ok w2 /\ peek w1 wrap_m 0 3 = Ok [1; 2; 3] /\ peek w2 wrap_m 0 3 = Fault.
Proof.
  pose proof wrap_ledger as HB. rewrite wrap_head in HB. destruct wrap_facts as (F1&F2&F3&F4&F5).
  destruct (mclrefcnt_wraps _ _ _ HB F1 wrap_enough F2 ltac:(rewrite F3; lia) F4) as (n&w1&w2&E1&E2&_&P1&P2).
  rewrite F3 in P1, P2. rewrite F5 in P1. exists n, w1, w2. exact (conj E1 (conj E2 (conj P1 P2))).
Defined.
