(* ===== verification/Kmalloc.v ===== *)
(** * The kernel memory allocator

    kern_malloc.c: free blocks of the powers of two from 16 to 2048 are kept on
    the lists of the buckets, linked through their first words; a request for more
    takes whole pages and gives them back.  The memory of kmem_map is a store of
    32-bit words at byte addresses; a page that kmem_malloc has not handed out
    cannot be touched.  kmem_malloc itself is not modelled: what it returns, the
    pages and what is in them, is an argument of the step that goes on with it.  A
    call that sleeps ends its step there. *)

From S2P Require Import Prelude.

(** ** Constants *)

Definition PGSHIFT : Z := 12.
Definition NBPG : Z := 4096.
Definition CLBYTES : Z := 4096.
Definition MINBUCKET : Z := 4.
Definition MINALLOCSIZE : Z := Z.shiftl 1 MINBUCKET.
Definition MAXALLOCSAVE : Z := CLBYTES - 1.
Definition VM_KMEM_SIZE : Z := 16 * 1024 * 1024.
Definition M_LAST : Z := 52.
Definition M_NOWAIT : Z := 0x0001.

(** The pages of kmem_map. *)
Definition npages : Z := VM_KMEM_SIZE / NBPG.

Definition BUCKETINDX (size : Z) : Z :=
  if size <=? MINALLOCSIZE * 128 then
    if size <=? MINALLOCSIZE * 8 then
      if size <=? MINALLOCSIZE * 2 then
        if size <=? MINALLOCSIZE * 1 then MINBUCKET + 0 else MINBUCKET + 1
      else if size <=? MINALLOCSIZE * 4 then MINBUCKET + 2 else MINBUCKET + 3
    else if size <=? MINALLOCSIZE * 32 then
      if size <=? MINALLOCSIZE * 16 then MINBUCKET + 4 else MINBUCKET + 5
    else if size <=? MINALLOCSIZE * 64 then MINBUCKET + 6 else MINBUCKET + 7
  else if size <=? MINALLOCSIZE * 2048 then
    if size <=? MINALLOCSIZE * 512 then
      if size <=? MINALLOCSIZE * 256 then MINBUCKET + 8 else MINBUCKET + 9
    else if size <=? MINALLOCSIZE * 1024 then MINBUCKET + 10 else MINBUCKET + 11
  else if size <=? MINALLOCSIZE * 8192 then
    if size <=? MINALLOCSIZE * 4096 then MINBUCKET + 12 else MINBUCKET + 13
  else if size <=? MINALLOCSIZE * 16384 then MINBUCKET + 14 else MINBUCKET + 15.

(** [roundup(x, y)] of unsigned longs. *)
Definition roundup (x y : Z) : Z := u32 (u32 (x + (y - 1)) / y * y).
Definition btoc (x : Z) : Z := Z.shiftr (u32 (u32 x + (NBPG - 1))) PGSHIFT.
Definition ctob (x : Z) : Z := Z.shiftl x PGSHIFT.

(** ** The data *)

Record kmembuckets := mkKb {
  kb_next : Z;
  kb_calls : Z;
  kb_total : Z;
  kb_totalfree : Z;
  kb_elmpercl : Z;
  kb_highwat : Z;
  kb_couldfree : Z }.

Definition set_kb_next (v : Z) (b : kmembuckets) : kmembuckets :=
  mkKb v (kb_calls b) (kb_total b) (kb_totalfree b) (kb_elmpercl b) (kb_highwat b) (kb_couldfree b).
Definition set_kb_calls (v : Z) (b : kmembuckets) : kmembuckets :=
  mkKb (kb_next b) v (kb_total b) (kb_totalfree b) (kb_elmpercl b) (kb_highwat b) (kb_couldfree b).
Definition set_kb_total (v : Z) (b : kmembuckets) : kmembuckets :=
  mkKb (kb_next b) (kb_calls b) v (kb_totalfree b) (kb_elmpercl b) (kb_highwat b) (kb_couldfree b).
Definition set_kb_totalfree (v : Z) (b : kmembuckets) : kmembuckets :=
  mkKb (kb_next b) (kb_calls b) (kb_total b) v (kb_elmpercl b) (kb_highwat b) (kb_couldfree b).
Definition set_kb_couldfree (v : Z) (b : kmembuckets) : kmembuckets :=
  mkKb (kb_next b) (kb_calls b) (kb_total b) (kb_totalfree b) (kb_elmpercl b) (kb_highwat b) v.

Record kmemstats := mkKs {
  ks_inuse : Z;
  ks_calls : Z;
  ks_memuse : Z;
  ks_limblocks : Z;
  ks_maxused : Z;
  ks_limit : Z }.

Definition set_ks_inuse (v : Z) (k : kmemstats) : kmemstats :=
  mkKs v (ks_calls k) (ks_memuse k) (ks_limblocks k) (ks_maxused k) (ks_limit k).
Definition set_ks_calls (v : Z) (k : kmemstats) : kmemstats :=
  mkKs (ks_inuse k) v (ks_memuse k) (ks_limblocks k) (ks_maxused k) (ks_limit k).
Definition set_ks_memuse (v : Z) (k : kmemstats) : kmemstats :=
  mkKs (ks_inuse k) (ks_calls k) v (ks_limblocks k) (ks_maxused k) (ks_limit k).
Definition set_ks_limblocks (v : Z) (k : kmemstats) : kmemstats :=
  mkKs (ks_inuse k) (ks_calls k) (ks_memuse k) v (ks_maxused k) (ks_limit k).
Definition set_ks_maxused (v : Z) (k : kmemstats) : kmemstats :=
  mkKs (ks_inuse k) (ks_calls k) (ks_memuse k) (ks_limblocks k) v (ks_limit k).

(** [ku_cnt] is the union of freecnt and pagecnt. *)
Record kmemusage := mkKu { ku_indx : Z; ku_cnt : Z }.

(** The arguments of a call of malloc. *)
Record mcall := mkCall { mc_size : Z; mc_type : Z; mc_flags : Z }.

(** [asleep]: the calls in tsleep at the limit of their type; [woken]: those
    that wakeup has woken since. *)
Record kmworld := mkKm {
  kmembase : Z;
  mapped : gset Z;
  words : gmap Z Z;
  bucket : list kmembuckets;
  kmemstat : list kmemstats;
  kmemuse : gmap Z kmemusage;
  asleep : list mcall;
  woken : list mcall }.

Definition set_mapped (v : gset Z) (w : kmworld) : kmworld :=
  mkKm (kmembase w) v (words w) (bucket w) (kmemstat w) (kmemuse w) (asleep w) (woken w).
Definition set_words (v : gmap Z Z) (w : kmworld) : kmworld :=
  mkKm (kmembase w) (mapped w) v (bucket w) (kmemstat w) (kmemuse w) (asleep w) (woken w).
Definition set_bucket (v : list kmembuckets) (w : kmworld) : kmworld :=
  mkKm (kmembase w) (mapped w) (words w) v (kmemstat w) (kmemuse w) (asleep w) (woken w).
Definition set_kmemstat (v : list kmemstats) (w : kmworld) : kmworld :=
  mkKm (kmembase w) (mapped w) (words w) (bucket w) v (kmemuse w) (asleep w) (woken w).
Definition set_kmemuse (v : gmap Z kmemusage) (w : kmworld) : kmworld :=
  mkKm (kmembase w) (mapped w) (words w) (bucket w) (kmemstat w) v (asleep w) (woken w).
Definition set_asleep (v : list mcall) (w : kmworld) : kmworld :=
  mkKm (kmembase w) (mapped w) (words w) (bucket w) (kmemstat w) (kmemuse w) v (woken w).
Definition set_woken (v : list mcall) (w : kmworld) : kmworld :=
  mkKm (kmembase w) (mapped w) (words w) (bucket w) (kmemstat w) (kmemuse w) (asleep w) v.

(** *** Memory *)

(** [((caddr_t)(addr) - kmembase) >> CLSHIFT]. *)
Definition page_of (w : kmworld) (a : Z) : Z := Z.shiftr (a - kmembase w) PGSHIFT.

Definition word (m : gmap Z Z) (a : Z) : Z := default 0 (m !! a).

Definition load (a : Z) (w : kmworld) : outcome Z :=
  if decide (page_of w a ∈ mapped w) then mret (word (words w) a) else Fault.
Definition store (a v : Z) (w : kmworld) : outcome kmworld :=
  if decide (page_of w a ∈ mapped w) then mret (set_words (<[a := v]> (words w)) w) else Fault.

(** *** The arrays *)

Definition get_kb (i : Z) (w : kmworld) : outcome kmembuckets :=
  if i <? 0 then Fault else deref (bucket w !! Z.to_nat i).
Definition upd_kb (i : Z) (f : kmembuckets -> kmembuckets) (w : kmworld) : kmworld :=
  set_bucket (alter f (Z.to_nat i) (bucket w)) w.

Definition get_ks (t : Z) (w : kmworld) : outcome kmemstats :=
  if t <? 0 then Fault else deref (kmemstat w !! Z.to_nat t).
Definition upd_ks (t : Z) (f : kmemstats -> kmemstats) (w : kmworld) : kmworld :=
  set_kmemstat (alter f (Z.to_nat t) (kmemstat w)) w.

(** [kmemusage] starts out cleared. *)
Definition ku_at (w : kmworld) (pg : Z) : kmemusage := default (mkKu 0 0) (kmemuse w !! pg).
Definition btokup (a : Z) (w : kmworld) : outcome Z :=
  let pg := page_of w a in if (0 <=? pg) && (pg <? npages) then mret pg else Fault.
Definition set_ku (pg : Z) (u : kmemusage) (w : kmworld) : kmworld :=
  set_kmemuse (<[pg := u]> (kmemuse w)) w.

(** ** malloc *)

(** Null, a block, asleep at the limit of the type, or in kmem_malloc for so many
    bytes. *)
Inductive mres : Type :=
  | MNull
  | MGot (va : Z)
  | MAsleep
  | MMap (npg : Z).

Definition allocsize (size : Z) : Z :=
  if MAXALLOCSAVE <? size then s32 (roundup size CLBYTES) else Z.shiftl 1 (BUCKETINDX size).

(** The label [out]. *)
Definition malloc_out (c : mcall) (va : Z) (w : kmworld) : outcome (mres * kmworld) :=
  let w := upd_kb (BUCKETINDX (mc_size c)) (fun b => set_kb_calls (s32 (kb_calls b + 1)) b) w in
  let w := upd_ks (mc_type c) (fun k =>
    let k := set_ks_calls (s32 (ks_calls k + 1)) (set_ks_inuse (s32 (ks_inuse k + 1)) k) in
    if ks_maxused k <? ks_memuse k then set_ks_maxused (ks_memuse k) k else k) w in
  mret (MGot va, w).

(** The first block of a list that is not empty. *)
Definition malloc_take (c : mcall) (w : kmworld) : outcome (mres * kmworld) :=
  let indx := BUCKETINDX (mc_size c) in
  kb ← get_kb indx w;
  let va := kb_next kb in
  next ← load va w;
  let w := upd_kb indx (set_kb_next next) w in
  pg ← btokup va w;
  let kup := ku_at w pg in
  if negb (ku_indx kup =? indx) then Panic "malloc: wrong bucket"
  else if ku_cnt kup =? 0 then Panic "malloc: lost data"
  else
    let w := set_ku pg (mkKu (ku_indx kup) (u16 (ku_cnt kup - 1))) w in
    let w := upd_kb indx (fun b => set_kb_totalfree (s32 (kb_totalfree b - 1)) b) w in
    let w := upd_ks (mc_type c) (fun k => set_ks_memuse (s32 (ks_memuse k + Z.shiftl 1 indx)) k) w in
    malloc_out c va w.

(** From the start, or from the tsleep of the limit, to kmem_malloc. *)
Definition malloc_loop (c : mcall) (w : kmworld) : outcome (mres * kmworld) :=
  ks ← get_ks (mc_type c) w;
  if ks_limit ks <=? ks_memuse ks then
    if has (mc_flags c) M_NOWAIT then mret (MNull, w)
    else
      let w := upd_ks (mc_type c) (fun k =>
        if ks_limblocks k <? 65535 then set_ks_limblocks (u16 (ks_limblocks k + 1)) k else k) w in
      mret (MAsleep, set_asleep (asleep w ++ [c]) w)
  else
    kb ← get_kb (BUCKETINDX (mc_size c)) w;
    if kb_next kb =? 0 then mret (MMap (btoc (allocsize (mc_size c))), w) else malloc_take c w.

Definition malloc (c : mcall) (w : kmworld) : outcome (mres * kmworld) :=
  if M_LAST <? u32 (mc_type c) then Panic "malloc - bogus type" else malloc_loop c w.

(** The loop that links the blocks of a new page, from the last to the first. *)
Fixpoint carve (fuel : nat) (cp va size saved : Z) (w : kmworld) : outcome kmworld :=
  match fuel with
  | O => Fault
  | S fuel => if va <? cp then w ← store cp (cp - size) w; carve fuel (cp - size) va size saved w else store cp saved w
  end.

(** From the return of kmem_malloc to the end. *)
Definition malloc_mapped (c : mcall) (o : option Z) (w : kmworld) : outcome (mres * kmworld) :=
  match o with
  | None => mret (MNull, w)
  | Some va =>
      let indx := BUCKETINDX (mc_size c) in
      let size := allocsize (mc_size c) in
      let npg := btoc size in
      let w := upd_kb indx (fun b => set_kb_total (s32 (kb_total b + kb_elmpercl b)) b) w in
      pg ← btokup va w;
      let w := set_ku pg (mkKu (s16 indx) (ku_cnt (ku_at w pg))) w in
      if MAXALLOCSAVE <? size then
        if 65535 <? npg then Panic "malloc: allocation too large"
        else
          let w := set_ku pg (mkKu (s16 indx) (u16 npg)) w in
          let w := upd_ks (mc_type c) (fun k => set_ks_memuse (s32 (ks_memuse k + size)) k) w in
          malloc_out c va w
      else
        kb ← get_kb indx w;
        let w := set_ku pg (mkKu (s16 indx) (u16 (kb_elmpercl kb))) w in
        let w := upd_kb indx (fun b => set_kb_totalfree (s32 (kb_totalfree b + kb_elmpercl b)) b) w in
        let saved := kb_next kb in
        let first := va + npg * NBPG - size in
        let w := upd_kb indx (set_kb_next first) w in
        w ← carve (Z.to_nat NBPG) first va size saved w;
        malloc_take c w
  end.

(** What kmem_malloc does when it finds [n] pages at [pg]: they can be used, and
    there is anything in them. *)
Definition pages (pg n : Z) : list Z := seqZ pg n.
Definition kmap (pg n : Z) (junk : gmap Z Z) (w : kmworld) : kmworld :=
  set_words (filter (fun kv => page_of w kv.1 ∈ pages pg n) junk ∪ words w) (set_mapped (mapped w ∪ list_to_set (pages pg n)) w).

(** ** free *)

(** [wakeup((caddr_t)ksp)]. *)
Definition ks_wakeup (t : Z) (w : kmworld) : kmworld :=
  set_woken (woken w ++ filter (fun c => mc_type c = t) (asleep w))
    (set_asleep (filter (fun c => mc_type c <> t) (asleep w)) w).

(** The memory a type uses goes down by [size]. *)
Definition ks_less (t size : Z) (w : kmworld) : outcome kmworld :=
  let w := upd_ks t (fun k => set_ks_memuse (s32 (ks_memuse k - size)) k) w in
  ks ← get_ks t w;
  let w := if (ks_limit ks <=? s32 (ks_memuse ks + size)) && (ks_memuse ks <? ks_limit ks) then ks_wakeup t w else w in
  mret (upd_ks t (fun k => set_ks_inuse (s32 (ks_inuse k - 1)) k) w).

(** kmem_free, as far as malloc can tell. *)
Definition unmap (pg n : Z) (w : kmworld) : kmworld :=
  set_mapped (mapped w ∖ list_to_set (pages pg n)) w.

Definition free (addr type : Z) (w : kmworld) : outcome kmworld :=
  pg ← btokup addr w;
  let kup := ku_at w pg in
  let indx := ku_indx kup in
  let size := s32 (Z.shiftl 1 indx) in
  kb ← get_kb indx w;
  if MAXALLOCSAVE <? size then
    let n := ku_cnt kup in
    let w := unmap (page_of w addr) n w in
    let size := s32 (Z.shiftl n PGSHIFT) in
    (* [ku_indx] and [ku_pagecnt] are cleared between the two lines of ks_less *)
    let w := set_ku pg (mkKu 0 0) w in
    w ← ks_less type size w;
    mret (upd_kb indx (fun b => set_kb_total (s32 (kb_total b - 1)) b) w)
  else
    let freecnt := u16 (ku_cnt kup + 1) in
    let w := set_ku pg (mkKu indx freecnt) w in
    w ← (if kb_elmpercl kb <=? freecnt then
           if kb_elmpercl kb <? freecnt then Panic "free: multiple frees"
           else mret (if kb_highwat kb <? kb_totalfree kb
                      then upd_kb indx (fun b => set_kb_couldfree (s32 (kb_couldfree b + 1)) b) w else w)
         else mret w);
    let w := upd_kb indx (fun b => set_kb_totalfree (s32 (kb_totalfree b + 1)) b) w in
    w ← ks_less type size w;
    kb ← get_kb indx w;
    w ← store addr (kb_next kb) w;
    mret (upd_kb indx (set_kb_next addr) w).

(** ** Initialization *)

Definition init_kb (indx : Z) : kmembuckets :=
  let n := if CLBYTES <=? Z.shiftl 1 indx then 1 else CLBYTES / Z.shiftl 1 indx in
  mkKb 0 0 0 0 n (5 * n) 0.
Definition init_ks : kmemstats := mkKs 0 0 0 0 0 (s32 (npages * NBPG * 6) / 10).

(** kmem_map is empty, at [base]; its memory has anything in it. *)
Definition kmeminit (base : Z) (junk : gmap Z Z) : kmworld :=
  mkKm base ∅ junk (map init_kb (seqZ 0 (MINBUCKET + 16))) (replicate (Z.to_nat M_LAST) init_ks) ∅ [] [].
