(* ===== verification/KmallocInv.v ===== *)
(** * The kernel memory allocator: the invariant

    Every page that kmem_malloc has handed out is either cut into blocks of one
    size, each of them on the list of its bucket or held by someone, or it belongs
    to one block of whole pages.  The lists are in the memory they manage. *)

From S2P Require Import Prelude Kmalloc.

(** ** Sizes *)

(** What a caller may ask for: more wraps around when it is rounded up. *)
Definition size_ok (size : Z) : Prop := 0 <= size <= 2 ^ 32 - NBPG.
Definition is_small (size : Z) : bool := size <=? 2048.
Definition npg (size : Z) : Z := btoc (allocsize size).
Definition per_page (i : Z) : Z := NBPG / 2 ^ i.

Lemma small_range i : 4 <= i <= 11 -> i = 4 \/ i = 5 \/ i = 6 \/ i = 7 \/ i = 8 \/ i = 9 \/ i = 10 \/ i = 11.
Proof. lia. Qed.

Lemma small_facts i : 4 <= i <= 11 ->
  16 <= 2 ^ i <= 2048 /\ per_page i * 2 ^ i = NBPG /\ 2 <= per_page i <= 256 /\ Z.shiftl 1 i = 2 ^ i /\ kb_elmpercl (init_kb i) = per_page i.
Proof. intros H%small_range. by decompose [or] H; subst; vm_compute. Qed.

(** The bucket of a size is the least power of two that holds it, from 16 to
    2 ^ 19. *)
Lemma bucketindx_least size : 4 <= BUCKETINDX size <= 19 /\ (size <= 2 ^ 19 -> size <= 2 ^ BUCKETINDX size) /\
  (BUCKETINDX size = 4 \/ 2 ^ (BUCKETINDX size - 1) < size).
Proof.
  unfold BUCKETINDX. change MINALLOCSIZE with 16. change MINBUCKET with 4.
  repeat case_if; (split; [lia|]); cbn; lia.
Qed.

Lemma bucketindx_small size : is_small size = true <-> BUCKETINDX size <= 11.
Proof.
  unfold is_small, BUCKETINDX. change MINALLOCSIZE with 16. change MINBUCKET with 4.
  rewrite Z.leb_le. repeat case_if; lia.
Qed.

Lemma small_size size : 0 <= size -> is_small size = true ->
  4 <= BUCKETINDX size <= 11 /\ allocsize size = 2 ^ BUCKETINDX size /\ size <= allocsize size.
Proof.
  intros H0 Hs. destruct (bucketindx_least size) as ((H1&_)&H2&_). pose proof (proj1 (bucketindx_small size) Hs) as H3.
  unfold is_small in Hs. bool_prop.
  assert (allocsize size = 2 ^ BUCKETINDX size) as E.
  { unfold allocsize. rewrite (proj2 (Z.ltb_ge MAXALLOCSAVE size)) by (unfold MAXALLOCSAVE, CLBYTES; lia).
    apply small_facts. lia. }
  split; [lia|]. split; [done|]. rewrite E. apply H2. lia.
Qed.

Lemma btoc_pages n : 0 <= n < 2 ^ 20 -> btoc (n * NBPG) = n.
Proof.
  intros H. unfold btoc. change (NBPG - 1) with 4095. unfold NBPG. rewrite (u32_id (n * 4096)) by lia.
  destruct (decide (n * 4096 + 4095 < 2 ^ 32)) as [Hl|Hl]; [|lia].
  rewrite u32_id by lia. rewrite Z.shiftr_div_pow2 by done. change (2 ^ PGSHIFT) with 4096.
  symmetry. apply (Z.div_unique _ _ _ 4095); lia.
Qed.

(** A large request that kmem_malloc can grant. *)
Lemma large_size size : size_ok size -> is_small size = false -> npg size <= npages ->
  12 <= BUCKETINDX size <= 19 /\ allocsize size = npg size * NBPG /\ size <= allocsize size /\ 1 <= npg size /\ MAXALLOCSAVE < allocsize size.
Proof.
  intros [H0 H1] Hs Hn. change npages with 4096 in Hn. unfold NBPG, is_small in *. bool_prop.
  destruct (bucketindx_least size) as ((_&Hu)&_). assert (~ BUCKETINDX size <= 11) as Hl.
  { rewrite <- bucketindx_small. unfold is_small. rewrite Z.leb_le. lia. }
  split; [lia|]. unfold npg in *.
  assert (exists n, 1 <= n < 2 ^ 20 /\ size <= n * 4096 /\
    ((allocsize size = n * 4096 /\ n < 2 ^ 19) \/ (allocsize size = s32 (n * 4096)))) as (n&Hn1&Hn2&Hn3).
  { unfold allocsize. change MAXALLOCSAVE with 4095. change CLBYTES with 4096. destruct (4095 <? size) eqn:E; bool_prop.
    - unfold roundup. change (4096 - 1) with 4095. rewrite (u32_id (size + 4095)) by lia.
      set (n := (size + 4095) / 4096). pose proof (Z.div_mod (size + 4095) 4096 ltac:(lia)) as Hd. fold n in Hd.
      pose proof (Z.mod_pos_bound (size + 4095) 4096 ltac:(lia)). exists n. split; [lia|]. split; [lia|].
      right. by rewrite u32_id by lia.
    - exists 1. split; [lia|]. split; [lia|]. left. split; [|lia].
      assert (BUCKETINDX size = 12) as ->; [|done].
      unfold BUCKETINDX in *. change MINALLOCSIZE with 16 in *. change MINBUCKET with 4 in *. revert Hl. repeat case_if; lia. }
  assert (u32 (allocsize size) = n * 4096) as Eu.
  { destruct Hn3 as [(->&?)| ->]; [by rewrite u32_id by lia|].
    unfold u32, wrapu, s32, wraps. rewrite Zminus_mod_idemp_l. 
    replace (n * 4096 + 2 ^ (32 - 1) - 2 ^ (32 - 1)) with (n * 4096) by lia. apply Z.mod_small. lia. }
  assert (btoc (allocsize size) = n) as Eb.
  { rewrite <- (btoc_pages n) by lia. unfold btoc, NBPG. by rewrite Eu, (u32_id (n * 4096)) by lia. }
  rewrite Eb in *. assert (allocsize size = n * 4096) as -> by (destruct Hn3 as [(->&_)| ->]; [done|apply s32_id; lia]).
  unfold MAXALLOCSAVE, CLBYTES. lia.
Qed.

(** ** Pages and slots *)

Definition addr_of (w : kmworld) (pg : Z) : Z := kmembase w + pg * NBPG.

Inductive pgkind : Type :=
  | Small (i : Z)
  | Large (p0 : Z).

Lemma page_of_addr w pg k : 0 <= k < NBPG -> page_of w (addr_of w pg + k) = pg.
Proof.
  intros Hk. unfold page_of, addr_of, NBPG in *. rewrite Z.shiftr_div_pow2 by done. change (2 ^ PGSHIFT) with 4096.
  symmetry. apply (Z.div_unique _ _ _ k); lia.
Qed.

Lemma page_of_addr0 w pg : page_of w (addr_of w pg) = pg.
Proof. rewrite <- (Z.add_0_r (addr_of w pg)). by apply page_of_addr. Qed.

(** The block [k] of page [pg], cut into blocks of [2 ^ i]. *)
Definition slot_at (w : kmworld) (i pg k : Z) : Z := addr_of w pg + k * 2 ^ i.

Definition slot (w : kmworld) (own : gmap Z pgkind) (i a : Z) : Prop :=
  exists pg k, own !! pg = Some (Small i) /\ 0 <= k < per_page i /\ a = slot_at w i pg k.

Lemma slot_in_page i k x : 4 <= i <= 11 -> 0 <= k < per_page i -> 0 <= x < 2 ^ i -> 0 <= k * 2 ^ i + x < NBPG.
Proof. intros Hi Hk Hx. destruct (small_facts i Hi) as (_&E&_). unfold NBPG in *. nia. Qed.

Lemma slot_page w i pg k : 4 <= i <= 11 -> 0 <= k < per_page i -> page_of w (slot_at w i pg k) = pg.
Proof.
  intros Hi Hk. destruct (small_facts i Hi) as (?&_). apply page_of_addr.
  pose proof (slot_in_page i k 0 Hi Hk ltac:(lia)). lia.
Qed.

Lemma slot_unique w i pg k k' x : 4 <= i <= 11 ->
  slot_at w i pg k <= x < slot_at w i pg k + 2 ^ i -> slot_at w i pg k' <= x < slot_at w i pg k' + 2 ^ i -> k = k'.
Proof. intros Hi. destruct (small_facts i Hi) as (?&_). unfold slot_at. nia. Qed.

(** ** Free lists in memory *)

(** The blocks [l] are linked through their first words, from [p] to null. *)
Fixpoint linked (m : gmap Z Z) (p : Z) (l : list Z) : Prop :=
  match l with
  | [] => p = 0
  | a :: l => p = a /\ a <> 0 /\ linked m (word m a) l
  end.

Lemma linked_ext m m' p l : (forall a, a ∈ l -> word m' a = word m a) -> linked m p l -> linked m' p l.
Proof.
  revert p. induction l as [|a l IH]; intros p Hw; [done|]. cbn. intros (->&?&H). split; [done|]. split; [done|].
  rewrite Hw by left. apply IH; [|done]. intros b Hb. apply Hw. by right.
Qed.

Lemma word_insert m a v b : word (<[a := v]> m) b = if decide (b = a) then v else word m b.
Proof. unfold word. destruct (decide (b = a)) as [->|]; [by rewrite lookup_insert_eq|by rewrite lookup_insert_ne]. Qed.

(** The addresses [va + n * size] down to [va]. *)
Fixpoint downs (n : nat) (va size : Z) : list Z :=
  match n with O => [va] | S k => (va + Z.of_nat n * size) :: downs k va size end.

Lemma elem_of_downs n va size a : a ∈ downs n va size <-> exists k, 0 <= k <= Z.of_nat n /\ a = va + k * size.
Proof.
  induction n as [|n IH]; cbn [downs].
  - rewrite elem_of_cons, elem_of_nil. split; [intros [->|[]]; exists 0; lia|intros (k&?&->); left; assert (k = 0) as -> by lia; lia].
  - rewrite elem_of_cons, IH. split.
    + intros [->|(k&?&->)]; [by exists (Z.of_nat (S n)); lia|exists k; lia].
    + intros (k&Hk&->). destruct (decide (k = Z.of_nat (S n))) as [->|]; [by left|right; exists k; lia].
Qed.

Lemma NoDup_downs n va size : 0 < size -> NoDup (downs n va size).
Proof.
  intros Hs. induction n as [|n IH]; cbn [downs]; [apply NoDup_singleton|].
  apply list.NoDup_cons. split; [|done]. rewrite elem_of_downs. intros (k&Hk&E). nia.
Qed.

Lemma length_downs n va size : length (downs n va size) = S n.
Proof. induction n as [|n IH]; [done|]. cbn [downs length]. by rewrite IH. Qed.

(** The loop of malloc links the blocks of a new page, in front of what is on the
    list already. *)
Lemma carve_ok n : forall fuel va size saved l w, (n < fuel)%nat -> 0 < size -> 0 < va ->
  (forall k, 0 <= k <= Z.of_nat n -> page_of w (va + k * size) ∈ mapped w) ->
  linked (words w) saved l -> (forall a, a ∈ l -> a ∉ downs n va size) ->
  exists m, carve fuel (va + Z.of_nat n * size) va size saved w = Ok (set_words m w) /\
    linked m (va + Z.of_nat n * size) (downs n va size ++ l) /\
    (forall a, a ∉ downs n va size -> word m a = word (words w) a).
Proof.
  induction n as [|n IH]; intros fuel va size saved l w Hf Hs Hv Hp Hl Hd; (destruct fuel as [|fuel]; [lia|]); cbn [carve].
  - rewrite (proj2 (Z.ltb_ge va _)) by lia. unfold store. rewrite decide_True by (apply Hp; lia).
    eexists. split; [done|]. cbn [downs app linked]. replace (va + Z.of_nat 0 * size) with va by lia. split.
    + split; [done|]. split; [lia|]. rewrite word_insert, decide_True by done. eapply linked_ext; [|exact Hl].
      intros a Ha. rewrite word_insert, decide_False; [done|]. intros ->. apply (Hd va Ha). cbn. by left.
    + intros a Ha. rewrite word_insert, decide_False; [done|]. intros ->. apply Ha. cbn. by left.
  - rewrite (proj2 (Z.ltb_lt va _)) by nia. unfold store. rewrite decide_True by (apply Hp; lia). cbn [mret outcome_ret mbind outcome_bind].
    set (w1 := set_words _ w). replace (va + Z.of_nat (S n) * size - size) with (va + Z.of_nat n * size) by lia.
    assert (va + Z.of_nat (S n) * size ∉ downs n va size) as Hnew by (rewrite elem_of_downs; intros (k&?&E); nia).
    destruct (IH fuel va size saved l w1) as (m&->&H1&H2); [lia|done|done| | | |].
    + intros k Hk. apply (Hp k). lia.
    + eapply linked_ext; [|exact Hl]. intros a Ha. cbn [w1 words set_words]. rewrite word_insert, decide_False; [done|].
      intros ->. apply (Hd _ Ha). cbn [downs]. by left.
    + intros a Ha Hb. apply (Hd a Ha). cbn [downs]. by right.
    + exists m. split; [done|]. cbn [downs app linked]. split.
      * split; [done|]. split; [nia|]. rewrite H2 by done. cbn [w1 words set_words]. rewrite word_insert, decide_True by done.
        replace (va + Z.of_nat (S n) * size - size) with (va + Z.of_nat n * size) by lia. done.
      * intros a Ha. rewrite elem_of_cons in Ha. rewrite H2 by tauto. cbn [w1 words set_words]. rewrite word_insert, decide_False; [done|tauto].
Qed.

(** ** The layout of the pages *)

Definition nfree (w : kmworld) (l : list Z) (pg : Z) : Z :=
  Z.of_nat (length (filter (fun a => page_of w a = pg) l)).

(** A block that someone holds: of its bucket, in a page cut into such blocks; or
    whole pages. *)
Definition block (w : kmworld) (own : gmap Z pgkind) (fl : Z -> list Z) (a size : Z) : Prop :=
  if is_small size then slot w own (BUCKETINDX size) a /\ a ∉ fl (BUCKETINDX size)
  else exists p0, a = addr_of w p0 /\ npg size <= npages /\ ku_at w p0 = mkKu (BUCKETINDX size) (npg size) /\
    forall pg, p0 <= pg < p0 + npg size -> own !! pg = Some (Large p0).

(** [lv]: the size and the type of every block that is held; [own]: what each page
    is for; [fl]: the free blocks of each bucket. *)
Record layout (w : kmworld) (lv : gmap Z (Z * Z)) (own : gmap Z pgkind) (fl : Z -> list Z) : Prop := {
  ly_base : 0 < kmembase w /\ kmembase w mod NBPG = 0;
  ly_map : forall pg, pg ∈ mapped w <-> is_Some (own !! pg);
  ly_range : forall pg k, own !! pg = Some k -> 0 <= pg < npages;
  ly_small : forall pg i, own !! pg = Some (Small i) -> 4 <= i <= 11 /\ ku_at w pg = mkKu i (nfree w (fl i) pg);
  ly_cover : forall pg i k, own !! pg = Some (Small i) -> 0 <= k < per_page i ->
    slot_at w i pg k ∈ fl i \/ is_Some (lv !! slot_at w i pg k);
  ly_large : forall pg p0, own !! pg = Some (Large p0) ->
    exists size t, lv !! addr_of w p0 = Some (size, t) /\ is_small size = false /\ p0 <= pg < p0 + npg size;
  ly_live : forall a size t, lv !! a = Some (size, t) -> size_ok size /\ 0 <= t < M_LAST /\ block w own fl a size;
  ly_free : forall i a, a ∈ fl i -> slot w own i a;
  ly_nodup : forall i, NoDup (fl i) }.

Definition fset (i : Z) (l : list Z) (fl : Z -> list Z) : Z -> list Z := fun j => if decide (j = i) then l else fl j.

Lemma fset_eq i l fl : fset i l fl i = l.
Proof. unfold fset. by rewrite decide_True. Qed.
Lemma fset_ne i l fl j : j <> i -> fset i l fl j = fl j.
Proof. intros. unfold fset. by rewrite decide_False. Qed.

Lemma ku_at_set pg u w p : ku_at (set_ku pg u w) p = if decide (p = pg) then u else ku_at w p.
Proof.
  unfold ku_at, set_ku. cbn [kmemuse set_kmemuse]. destruct (decide (p = pg)) as [->|]; [by rewrite lookup_insert_eq|by rewrite lookup_insert_ne].
Qed.

(** The functions that depend on the base only. *)
Lemma base_page w w' : kmembase w' = kmembase w -> page_of w' = page_of w.
Proof. intros E. unfold page_of. by rewrite E. Qed.
Lemma base_addr w w' : kmembase w' = kmembase w -> addr_of w' = addr_of w.
Proof. intros E. unfold addr_of. by rewrite E. Qed.
Lemma base_slot_at w w' : kmembase w' = kmembase w -> slot_at w' = slot_at w.
Proof. intros E. unfold slot_at. by rewrite (base_addr w w' E). Qed.
Lemma base_slot w w' : kmembase w' = kmembase w -> slot w' = slot w.
Proof. intros E. unfold slot. by rewrite (base_slot_at w w' E). Qed.
Lemma base_nfree w w' : kmembase w' = kmembase w -> nfree w' = nfree w.
Proof. intros E. unfold nfree. by rewrite (base_page w w' E). Qed.

Ltac to_base E := rewrite ?(base_addr _ _ E), ?(base_slot_at _ _ E), ?(base_slot _ _ E), ?(base_nfree _ _ E), ?(base_page _ _ E).

Section Layout.
Context (w : kmworld) (lv : gmap Z (Z * Z)) (own : gmap Z pgkind) (fl : Z -> list Z) (HL : layout w lv own fl).

Lemma slot_bucket i a : slot w own i a -> 4 <= i <= 11.
Proof. intros (pg&k&Ho&_). apply (ly_small _ _ _ _ HL _ _ Ho). Qed.

Lemma slot_own i a : slot w own i a -> own !! page_of w a = Some (Small i).
Proof. intros H. pose proof (slot_bucket _ _ H) as Hi. destruct H as (pg&k&Ho&Hk&->). by rewrite slot_page. Qed.

(** The bytes of a block are in pages of its own kind. *)
Lemma block_bytes a size t x : lv !! a = Some (size, t) -> a <= x < a + allocsize size ->
  own !! page_of w x = Some (if is_small size then Small (BUCKETINDX size) else Large (page_of w a)) /\
  (is_small size = true -> page_of w x = page_of w a).
Proof.
  intros Ha Hx. destruct (ly_live _ _ _ _ HL _ _ _ Ha) as (Hok&_&Hb). unfold block in Hb.
  destruct (is_small size) eqn:Es.
  - destruct Hb as ((pg&k&Ho&Hk&->)&_). destruct (small_size size (proj1 Hok) Es) as (Hi&Ea&_). rewrite Ea in Hx.
    pose proof (slot_in_page _ k (x - slot_at w (BUCKETINDX size) pg k) Hi Hk ltac:(lia)) as Hr.
    rewrite (slot_page w _ pg k Hi Hk).
    assert (page_of w x = pg) as ->; [|done].
    rewrite <- (page_of_addr w pg (k * 2 ^ BUCKETINDX size + (x - slot_at w (BUCKETINDX size) pg k)) Hr). f_equal. unfold slot_at. lia.
  - destruct Hb as (p0&->&Hn&_&Ho). destruct (large_size size Hok Es Hn) as (_&Ea&_). rewrite page_of_addr0. split; [|done].
    rewrite Ea in Hx. apply Ho. unfold page_of. rewrite Z.shiftr_div_pow2 by done. change (2 ^ PGSHIFT) with NBPG.
    unfold addr_of, NBPG in *. split; [apply Z.div_le_lower_bound; lia|apply Z.div_lt_upper_bound; lia].
Qed.

(** Blocks that are held do not overlap. *)
Lemma blocks_apart a b sa ta sb tb x : lv !! a = Some (sa, ta) -> lv !! b = Some (sb, tb) ->
  a <= x < a + allocsize sa -> b <= x < b + allocsize sb -> a = b.
Proof.
  intros Ha Hb Hxa Hxb. destruct (block_bytes a sa ta x Ha Hxa) as (O1&P1). destruct (block_bytes b sb tb x Hb Hxb) as (O2&P2).
  destruct (ly_live _ _ _ _ HL _ _ _ Ha) as (Ka&_&Ba). destruct (ly_live _ _ _ _ HL _ _ _ Hb) as (Kb&_&Bb).
  unfold block in Ba, Bb. rewrite O1 in O2.
  destruct (is_small sa) eqn:Ea, (is_small sb) eqn:Eb; [|congruence..|].
  - injection O2 as Ei. destruct (small_size sa (proj1 Ka) Ea) as (Hi&Aa&_). destruct (small_size sb (proj1 Kb) Eb) as (_&Ab&_).
    rewrite Aa in Hxa. rewrite Ab, <- Ei in Hxb. rewrite <- Ei in Bb.
    destruct Ba as ((pg&k&Ho&Hk&->)&_). destruct Bb as ((pg'&k'&Ho'&Hk'&->)&_).
    rewrite (slot_page w _ pg k) in P1 by done. rewrite (slot_page w _ pg' k') in P2 by done.
    assert (pg' = pg) as -> by (rewrite <- P1, <- P2; done). f_equal. by apply (slot_unique w (BUCKETINDX sa) pg k k' x).
  - injection O2 as Ep. destruct Ba as (p&->&_). destruct Bb as (q&->&_). rewrite !page_of_addr0 in Ep. by rewrite Ep.
Qed.

(** A free block is not part of one that is held. *)
Lemma free_apart i f a size t x : f ∈ fl i -> lv !! a = Some (size, t) ->
  f <= x < f + 2 ^ i -> a <= x < a + allocsize size -> False.
Proof.
  intros Hf Ha Hx Hxa. pose proof (ly_free _ _ _ _ HL _ _ Hf) as Hs. pose proof (slot_bucket _ _ Hs) as Hi.
  destruct Hs as (pg&k&Ho&Hk&->). destruct (block_bytes a size t x Ha Hxa) as (O1&P1).
  pose proof (slot_in_page i k (x - slot_at w i pg k) Hi Hk ltac:(lia)) as Hr.
  assert (page_of w x = pg) as Epg.
  { rewrite <- (page_of_addr w pg (k * 2 ^ i + (x - slot_at w i pg k)) Hr). f_equal. unfold slot_at. lia. }
  rewrite Epg, Ho in O1. destruct (ly_live _ _ _ _ HL _ _ _ Ha) as (Hok&_&Hb). unfold block in Hb.
  destruct (is_small size) eqn:Es; [|done]. injection O1 as Ei. destruct (small_size size (proj1 Hok) Es) as (_&Ea&_).
  rewrite Ea, <- Ei in Hxa. rewrite <- Ei in Hb. destruct Hb as ((pg'&k'&Ho'&Hk'&->)&Hn).
  rewrite (slot_page w _ pg' k') in P1 by done. assert (pg' = pg) as -> by (rewrite <- P1; done).
  apply Hn. by rewrite (slot_unique w i pg k' k x).
Qed.

(** A free block is not held. *)
Lemma free_not_live i f : f ∈ fl i -> lv !! f = None.
Proof.
  intros Hf. destruct (lv !! f) as [[size t]|] eqn:E; [|done]. exfalso.
  pose proof (slot_bucket _ _ (ly_free _ _ _ _ HL _ _ Hf)) as Hi. destruct (small_facts i Hi) as (?&_).
  apply (free_apart i f f size t f Hf E); [lia|].
  destruct (ly_live _ _ _ _ HL _ _ _ E) as (Hok&_&Hb). unfold block in Hb. destruct (is_small size) eqn:Es.
  - destruct (small_size size (proj1 Hok) Es) as (Hj&->&_). destruct (small_facts _ Hj) as (?&_). lia.
  - destruct Hb as (p&_&Hn&_). destruct (large_size size Hok Es Hn) as (_&->&_&?&_). unfold NBPG. lia.
Qed.

(** A page has no more free blocks than blocks. *)
Lemma nfree_le i pg : own !! pg = Some (Small i) -> 0 <= nfree w (fl i) pg <= per_page i.
Proof.
  intros Ho. destruct (ly_small _ _ _ _ HL _ _ Ho) as (Hi&_). destruct (small_facts i Hi) as (_&_&Hp&_).
  assert (filter (fun x => page_of w x = pg) (fl i) ⊆+ map (fun k => slot_at w i pg k) (seqZ 0 (per_page i))) as Hsub.
  { apply NoDup_submseteq; [apply list.NoDup_filter, (ly_nodup _ _ _ _ HL)|]. intros x (E&Hx)%list_elem_of_filter. apply list_elem_of_fmap.
    destruct (ly_free _ _ _ _ HL _ _ Hx) as (p&k&_&Hk&->). rewrite (slot_page w i p k Hi Hk) in E. subst p.
    exists k. split; [done|]. apply elem_of_seqZ. lia. }
  apply submseteq_length in Hsub. rewrite length_map, length_seqZ in Hsub. unfold nfree. lia.
Qed.

(** Fewer blocks of a page are free than there are as long as one is held. *)
Lemma nfree_lt a size t : lv !! a = Some (size, t) -> is_small size = true ->
  nfree w (fl (BUCKETINDX size)) (page_of w a) < per_page (BUCKETINDX size).
Proof.
  intros Ha Es. destruct (ly_live _ _ _ _ HL _ _ _ Ha) as (Hok&_&Hb). unfold block in Hb. rewrite Es in Hb.
  destruct Hb as (Hs&Hn). set (i := BUCKETINDX size) in *. pose proof (slot_bucket _ _ Hs) as Hi.
  destruct (small_facts i Hi) as (_&_&Hp&_).
  set (l := filter (fun x => page_of w x = page_of w a) (fl i)).
  assert (a :: l ⊆+ map (fun k => slot_at w i (page_of w a) k) (seqZ 0 (per_page i))) as Hsub.
  { apply NoDup_submseteq.
    - apply list.NoDup_cons. split; [|apply list.NoDup_filter, (ly_nodup _ _ _ _ HL)].
      unfold l. rewrite list_elem_of_filter. by intros (_&?).
    - intros x Hx. apply list_elem_of_fmap. assert (slot w own i x /\ page_of w x = page_of w a) as ((pg&k&Ho&Hk&->)&Epg).
      { apply elem_of_cons in Hx as [->|Hx]; [done|]. unfold l in Hx. apply list_elem_of_filter in Hx as (E&Hx).
        split; [by apply (ly_free _ _ _ _ HL)|done]. }
      rewrite (slot_page w i pg k Hi Hk) in Epg. exists k. rewrite <- Epg. split; [done|]. apply elem_of_seqZ. lia. }
  apply submseteq_length in Hsub. rewrite length_map, length_seqZ in Hsub. cbn [length] in Hsub.
  unfold nfree. fold l. lia.
Qed.
End Layout.

(** ** Changes of the layout *)

Lemma filter_none {A} (P : A -> Prop) `{forall x, Decision (P x)} (l : list A) : (forall a, a ∈ l -> ~ P a) -> filter P l = [].
Proof.
  induction l as [|a l IH]; intros H0; [done|]. rewrite filter_cons_False by (apply H0; left). apply IH. intros b Hb. apply H0. by right.
Qed.
Lemma filter_all {A} (P : A -> Prop) `{forall x, Decision (P x)} (l : list A) : (forall a, a ∈ l -> P a) -> filter P l = l.
Proof.
  induction l as [|a l IH]; intros H0; [done|]. rewrite filter_cons_True by (apply H0; left). f_equal. apply IH. intros b Hb. apply H0. by right.
Qed.

(** The first block of a list is handed out. *)
Lemma lay_take w w' lv own fl i va l size t : layout w lv own fl -> fl i = va :: l ->
  size_ok size -> is_small size = true -> BUCKETINDX size = i -> 0 <= t < M_LAST ->
  kmembase w' = kmembase w -> mapped w' = mapped w ->
  (forall pg, ku_at w' pg = if decide (pg = page_of w va) then mkKu i (nfree w (fl i) (page_of w va) - 1) else ku_at w pg) ->
  layout w' (<[va := (size, t)]> lv) own (fset i l fl).
Proof.
  intros HL Hfl Hok Hs Hi Ht Eb Em Eku. assert (va ∈ fl i) as Hva by (rewrite Hfl; left).
  pose proof (free_not_live _ _ _ _ HL _ _ Hva) as Hno. pose proof (ly_free _ _ _ _ HL _ _ Hva) as Hslot.
  pose proof (slot_own _ _ _ _ HL _ _ Hslot) as Hown. pose proof (ly_nodup _ _ _ _ HL i) as Hnd. rewrite Hfl in Hnd.
  apply list.NoDup_cons in Hnd as (Hn1&Hn2). destruct HL as [L1 L2 L3 L4 L5 L6 L7 L8 L9].
  split; to_base Eb.
  - by rewrite Eb.
  - by rewrite Em.
  - done.
  - intros pg j Ho. destruct (L4 pg j Ho) as (Hj&Hku). split; [done|]. rewrite Eku. destruct (decide (pg = page_of w va)) as [->|Hne].
    + rewrite Hown in Ho. injection Ho as <-. f_equal. rewrite fset_eq, Hfl. unfold nfree.
      rewrite filter_cons_True by done. cbn [length]. lia.
    + rewrite Hku. f_equal. destruct (decide (j = i)) as [->|]; [|by rewrite fset_ne]. rewrite fset_eq, Hfl. unfold nfree.
      by rewrite filter_cons_False by congruence.
  - intros pg j k Ho Hk. destruct (decide (slot_at w j pg k = va)) as [->|Hne]; [right; by rewrite lookup_insert_eq|].
    rewrite lookup_insert_ne by done. destruct (L5 pg j k Ho Hk) as [H|H]; [|by right]. left.
    destruct (decide (j = i)) as [->|]; [|by rewrite fset_ne]. rewrite fset_eq. rewrite Hfl in H. by apply elem_of_cons in H as [?|?].
  - intros pg p0 Ho. destruct (L6 pg p0 Ho) as (sz&t'&H&R). exists sz, t'. rewrite lookup_insert_ne; [done|]. congruence.
  - intros a sz t' Ha. destruct (decide (a = va)) as [->|Hne].
    + rewrite lookup_insert_eq in Ha. injection Ha as <- <-. split; [done|]. split; [done|]. unfold block. rewrite Hs, Hi, fset_eq.
      by rewrite (base_slot w w' Eb).
    + rewrite lookup_insert_ne in Ha by done. destruct (L7 a sz t' Ha) as (H1&H2&H3). split; [done|]. split; [done|].
      unfold block in *. to_base Eb. destruct (is_small sz) eqn:Esz.
      * destruct H3 as (H3&H4). split; [done|]. destruct (decide (BUCKETINDX sz = i)) as [Ei|]; [|by rewrite fset_ne].
        rewrite Ei in *. rewrite fset_eq. rewrite Hfl, elem_of_cons in H4. tauto.
      * destruct H3 as (p0&->&Hn&Hku&Ho). exists p0. split; [done|]. split; [done|]. split; [|done]. rewrite Eku.
        destruct (decide (p0 = page_of w va)) as [->|]; [|done]. exfalso. rewrite Ho in Hown; [congruence|].
        destruct (large_size sz H1 Esz Hn) as (_&_&_&?&_). lia.
  - intros j a Ha. destruct (decide (j = i)) as [->|Hne]; [|rewrite fset_ne in Ha by done; by apply L8].
    rewrite fset_eq in Ha. apply L8. rewrite Hfl. by right.
  - intros j. destruct (decide (j = i)) as [->|]; [by rewrite fset_eq|by rewrite fset_ne].
Qed.

(** A block goes back to the list of its bucket. *)
Lemma lay_give w w' lv own fl i a size t : layout w lv own fl -> lv !! a = Some (size, t) ->
  is_small size = true -> BUCKETINDX size = i ->
  kmembase w' = kmembase w -> mapped w' = mapped w ->
  (forall pg, ku_at w' pg = if decide (pg = page_of w a) then mkKu i (nfree w (fl i) (page_of w a) + 1) else ku_at w pg) ->
  layout w' (delete a lv) own (fset i (a :: fl i) fl).
Proof.
  intros HL Ha Hs Hi Eb Em Eku. destruct (ly_live _ _ _ _ HL _ _ _ Ha) as (Hok&_&Hb). unfold block in Hb. rewrite Hs, Hi in Hb.
  destruct Hb as (Hslot&Hnf). pose proof (slot_own _ _ _ _ HL _ _ Hslot) as Hown. destruct HL as [L1 L2 L3 L4 L5 L6 L7 L8 L9].
  split; to_base Eb.
  - by rewrite Eb.
  - by rewrite Em.
  - done.
  - intros pg j Ho. destruct (L4 pg j Ho) as (Hj&Hku). split; [done|]. rewrite Eku. destruct (decide (pg = page_of w a)) as [->|Hne].
    + rewrite Hown in Ho. injection Ho as <-. f_equal. rewrite fset_eq. unfold nfree.
      rewrite filter_cons_True by done. cbn [length]. lia.
    + rewrite Hku. f_equal. destruct (decide (j = i)) as [->|]; [|by rewrite fset_ne]. rewrite fset_eq. unfold nfree.
      by rewrite filter_cons_False by congruence.
  - intros pg j k Ho Hk. destruct (decide (slot_at w j pg k = a)) as [Ea|Hne].
    + left. assert (j = i) as ->; [|rewrite fset_eq, Ea; left]. rewrite <- Ea in Hown.
      rewrite slot_page in Hown by (try done; apply (L4 pg j Ho)). congruence.
    + rewrite lookup_delete_ne by done. destruct (L5 pg j k Ho Hk) as [H|H]; [|by right]. left.
      destruct (decide (j = i)) as [->|]; [|by rewrite fset_ne]. rewrite fset_eq. by right.
  - intros pg p0 Ho. destruct (L6 pg p0 Ho) as (sz&t'&H&R&R2). exists sz, t'. rewrite lookup_delete_ne; [done|]. congruence.
  - intros b sz t' Hb. destruct (decide (b = a)) as [->|Hne]; [by rewrite lookup_delete_eq in Hb|].
    rewrite lookup_delete_ne in Hb by done. destruct (L7 b sz t' Hb) as (H1&H2&H3). split; [done|]. split; [done|].
    unfold block in *. to_base Eb. destruct (is_small sz) eqn:Esz.
    + destruct H3 as (H3&H4). split; [done|]. destruct (decide (BUCKETINDX sz = i)) as [Ei|]; [|by rewrite fset_ne].
      rewrite Ei in *. rewrite fset_eq, elem_of_cons. tauto.
    + destruct H3 as (p0&->&Hn&Hku&Ho). exists p0. split; [done|]. split; [done|]. split; [|done]. rewrite Eku.
      destruct (decide (p0 = page_of w a)) as [->|]; [|done]. exfalso. rewrite Ho in Hown; [congruence|].
      destruct (large_size sz H1 Esz Hn) as (_&_&_&?&_). lia.
  - intros j b Hb. destruct (decide (j = i)) as [->|Hne]; [|rewrite fset_ne in Hb by done; by apply L8].
    rewrite fset_eq in Hb. apply elem_of_cons in Hb as [->|Hb]; [done|by apply L8].
  - intros j. destruct (decide (j = i)) as [->|]; [rewrite fset_eq; by apply list.NoDup_cons|by rewrite fset_ne].
Qed.

(** The blocks of a page that is cut up. *)
Definition fresh_blocks (w : kmworld) (i pg : Z) : list Z :=
  downs (Z.to_nat (per_page i - 1)) (addr_of w pg) (2 ^ i).

Lemma elem_of_fresh w i pg a : 4 <= i <= 11 -> a ∈ fresh_blocks w i pg <-> exists k, 0 <= k < per_page i /\ a = slot_at w i pg k.
Proof.
  intros Hi. destruct (small_facts i Hi) as (_&_&Hp&_). unfold fresh_blocks. rewrite elem_of_downs. rewrite Z2Nat.id by lia.
  split; intros (k&Hk&->); exists k; (split; [lia|done]).
Qed.

Lemma lay_cut w w' lv own fl i pg : layout w lv own fl -> 4 <= i <= 11 -> 0 <= pg < npages -> pg ∉ mapped w ->
  kmembase w' = kmembase w -> (forall p, p ∈ mapped w' <-> p = pg \/ p ∈ mapped w) ->
  (forall p, ku_at w' p = if decide (p = pg) then mkKu i (per_page i) else ku_at w p) ->
  layout w' lv (<[pg := Small i]> own) (fset i (fresh_blocks w i pg ++ fl i) fl).
Proof.
  intros HL Hi Hpg Hnew Eb Em Eku. destruct (small_facts i Hi) as (Hi1&Hi2&Hi3&_).
  assert (own !! pg = None) as Hnone.
  { destruct (own !! pg) eqn:E; [|done]. exfalso. apply Hnew, (ly_map _ _ _ _ HL). by eexists. }
  assert (forall j a, slot w own j a -> page_of w a <> pg) as Hold.
  { intros j a Hj E. pose proof (slot_own _ _ _ _ HL _ _ Hj). congruence. }
  assert (forall j a, slot w own j a -> slot w (<[pg := Small i]> own) j a) as Hslot.
  { intros j a (p&k&Ho&R). exists p, k. rewrite lookup_insert_ne; [done|]. congruence. }
  assert (forall j, filter (fun a => page_of w a = pg) (fl j) = []) as Hf0.
  { intros j. apply filter_none. intros a Ha. by apply (Hold j), (ly_free _ _ _ _ HL). }
  assert (forall a, a ∈ fresh_blocks w i pg -> page_of w a = pg) as Hpf.
  { intros a (k&Hk&->)%elem_of_fresh; [by apply slot_page|done]. }
  destruct HL as [L1 L2 L3 L4 L5 L6 L7 L8 L9]. split; to_base Eb.
  - by rewrite Eb.
  - intros p. rewrite Em, L2. destruct (decide (p = pg)) as [->|]; [rewrite lookup_insert_eq; split; [by eexists|by left]|].
    rewrite lookup_insert_ne by done. tauto.
  - intros p k Hk. destruct (decide (p = pg)) as [->|]; [done|]. rewrite lookup_insert_ne in Hk by done. by eapply L3.
  - intros p j Ho. rewrite Eku. destruct (decide (p = pg)) as [->|Hne].
    + rewrite lookup_insert_eq in Ho. injection Ho as <-. split; [done|]. f_equal. rewrite fset_eq. unfold nfree.
      rewrite list.filter_app, Hf0, app_nil_r, filter_all by done. unfold fresh_blocks. rewrite length_downs. lia.
    + rewrite lookup_insert_ne in Ho by done. destruct (L4 p j Ho) as (Hj&->). split; [done|]. f_equal.
      destruct (decide (j = i)) as [->|]; [|by rewrite fset_ne]. rewrite fset_eq. unfold nfree. rewrite list.filter_app, length_app.
      rewrite (filter_none _ (fresh_blocks w i pg)); [done|]. intros a Ha. rewrite (Hpf a Ha). congruence.
  - intros p j k Ho Hk. destruct (decide (p = pg)) as [->|Hne].
    + rewrite lookup_insert_eq in Ho. injection Ho as <-. left. rewrite fset_eq. apply elem_of_app. left. apply elem_of_fresh; [done|by exists k].
    + rewrite lookup_insert_ne in Ho by done. destruct (L5 p j k Ho Hk) as [H|H]; [|by right]. left.
      destruct (decide (j = i)) as [->|]; [|by rewrite fset_ne]. rewrite fset_eq. apply elem_of_app. by right.
  - intros p p0 Ho. destruct (decide (p = pg)) as [->|Hne]; [by rewrite lookup_insert_eq in Ho|].
    rewrite lookup_insert_ne in Ho by done. by apply L6.
  - intros a sz t Ha. destruct (L7 a sz t Ha) as (H1&H2&H3). split; [done|]. split; [done|].
    unfold block in *. to_base Eb. destruct (is_small sz) eqn:Es.
    + destruct H3 as (H3&H4). split; [by apply Hslot|]. destruct (decide (BUCKETINDX sz = i)) as [Ei|]; [|by rewrite fset_ne].
      rewrite Ei in *. rewrite fset_eq, elem_of_app. intros [H|H]; [|done]. by apply (Hold i a H3), Hpf.
    + destruct H3 as (p0&->&Hn&Hku&Ho). exists p0. split; [done|]. split; [done|].
      destruct (large_size sz H1 Es Hn) as (_&_&_&?&_). split.
      * rewrite Eku, decide_False; [done|]. intros ->. rewrite Ho in Hnone; [done|lia].
      * intros p Hp. rewrite lookup_insert_ne; [by apply Ho|]. intros <-. by rewrite Ho in Hnone.
  - intros j a Ha. destruct (decide (j = i)) as [->|Hne]; [|rewrite fset_ne in Ha by done; by apply Hslot, L8].
    rewrite fset_eq in Ha. apply elem_of_app in Ha as [Ha|Ha]; [|by apply Hslot, L8].
    apply elem_of_fresh in Ha as (k&Hk&->); [|done]. exists pg, k. by rewrite lookup_insert_eq.
  - intros j. destruct (decide (j = i)) as [->|]; [|by rewrite fset_ne]. rewrite fset_eq. apply list.NoDup_app. split_and!.
    + apply NoDup_downs. lia.
    + intros a Ha Hb. by apply (Hold i a (L8 _ _ Hb)), Hpf.
    + apply L9.
Qed.

(** [n] pages from [pg] become one block. *)
Definition own_pages (pg n : Z) (own : gmap Z pgkind) : gmap Z pgkind :=
  foldr (fun p m => <[p := Large pg]> m) own (pages pg n).

Lemma lookup_own_pages pg n own p :
  own_pages pg n own !! p = if decide (pg <= p < pg + n) then Some (Large pg) else own !! p.
Proof.
  assert (forall l, foldr (fun p m => <[p := Large pg]> m) own l !! p = if decide (p ∈ l) then Some (Large pg) else own !! p) as H.
  { induction l as [|x l IH]; cbn [foldr].
    - rewrite decide_False; [done|apply not_elem_of_nil].
    - destruct (decide (p = x)) as [->|Hne]; [by rewrite lookup_insert_eq, decide_True by left|].
      rewrite lookup_insert_ne, IH by done. apply decide_ext. rewrite elem_of_cons. tauto. }
  unfold own_pages. rewrite H. apply decide_ext. unfold pages. apply elem_of_seqZ.
Qed.

Definition disown_pages (pg n : Z) (own : gmap Z pgkind) : gmap Z pgkind :=
  foldr delete own (pages pg n).

Lemma lookup_disown_pages pg n own p :
  disown_pages pg n own !! p = if decide (pg <= p < pg + n) then None else own !! p.
Proof.
  assert (forall l, foldr delete own l !! p = if decide (p ∈ l) then None else own !! p) as H.
  { induction l as [|x l IH]; cbn [foldr].
    - rewrite decide_False; [done|apply not_elem_of_nil].
    - destruct (decide (p = x)) as [->|Hne]; [by rewrite lookup_delete_eq, decide_True by left|].
      rewrite lookup_delete_ne, IH by done. apply decide_ext. rewrite elem_of_cons. tauto. }
  unfold disown_pages. rewrite H. apply decide_ext. unfold pages. apply elem_of_seqZ.
Qed.

Lemma lay_large w w' lv own fl pg size t : layout w lv own fl ->
  size_ok size -> is_small size = false -> npg size <= npages -> 0 <= t < M_LAST ->
  0 <= pg -> pg + npg size <= npages -> (forall p, pg <= p < pg + npg size -> p ∉ mapped w) ->
  kmembase w' = kmembase w -> (forall p, p ∈ mapped w' <-> pg <= p < pg + npg size \/ p ∈ mapped w) ->
  (forall p, ku_at w' p = if decide (p = pg) then mkKu (BUCKETINDX size) (npg size) else ku_at w p) ->
  layout w' (<[addr_of w pg := (size, t)]> lv) (own_pages pg (npg size) own) fl.
Proof.
  intros HL Hok Hs Hn Ht Hp0 Hp1 Hnew Eb Em Eku. destruct (large_size size Hok Hs Hn) as (_&_&_&Hn1&_).
  assert (forall p, pg <= p < pg + npg size -> own !! p = None) as Hnone.
  { intros p Hp. destruct (own !! p) eqn:E; [|done]. exfalso. apply (Hnew p Hp), (ly_map _ _ _ _ HL). by eexists. }
  assert (forall p k, own !! p = Some k -> own_pages pg (npg size) own !! p = Some k /\ ~ (pg <= p < pg + npg size)) as Hkeep.
  { intros p k Hk. rewrite lookup_own_pages. destruct (decide (pg <= p < pg + npg size)) as [Hp|]; [by rewrite (Hnone p Hp) in Hk|done]. }
  assert (forall j a, slot w own j a -> slot w (own_pages pg (npg size) own) j a) as Hslot.
  { intros j a (p&k&Ho&R). exists p, k. by rewrite (proj1 (Hkeep p _ Ho)). }
  assert (forall p k, own_pages pg (npg size) own !! p = Some k -> own !! p = Some k \/ pg <= p < pg + npg size /\ k = Large pg) as Hinv.
  { intros p k. rewrite lookup_own_pages. destruct (decide _); [intros [= <-]; by right|by left]. }
  assert (lv !! addr_of w pg = None) as Hlv.
  { destruct (lv !! addr_of w pg) as [[sz t']|] eqn:E; [|done]. exfalso. destruct (ly_live _ _ _ _ HL _ _ _ E) as (Kok&_&_).
    destruct (block_bytes _ _ _ _ HL _ _ _ (addr_of w pg) E) as (Ho&_).
    - destruct (ly_live _ _ _ _ HL _ _ _ E) as (_&_&Hb). unfold block in Hb. destruct (is_small sz) eqn:Es.
      + destruct (small_size sz (proj1 Kok) Es) as (Hi&->&_). destruct (small_facts _ Hi). lia.
      + destruct Hb as (q&_&Hq&_). destruct (large_size sz Kok Es Hq) as (_&->&_&?&_). unfold NBPG. lia.
    - rewrite page_of_addr0, (Hnone pg) in Ho; [done|lia]. }
  destruct HL as [L1 L2 L3 L4 L5 L6 L7 L8 L9]. split; to_base Eb.
  - by rewrite Eb.
  - intros p. rewrite Em, L2, lookup_own_pages. destruct (decide (pg <= p < pg + npg size)); [split; [by eexists|by left]|].
    split; [by intros [?|?]|by right].
  - intros p k [Hk|(Hp&_)]%Hinv; [by eapply L3|lia].
  - intros p j [Ho|(_&?)]%Hinv; [|done]. destruct (L4 p j Ho) as (Hj&Hku). split; [done|]. rewrite Eku, decide_False; [done|].
    intros ->. destruct (Hkeep pg _ Ho). lia.
  - intros p j k [Ho|(_&?)]%Hinv Hk; [|done]. destruct (L5 p j k Ho Hk) as [H|H]; [by left|]. right. rewrite lookup_insert_ne; [done|].
    intros E. rewrite <- E, Hlv in H. by destruct H.
  - intros p p0 [Ho|(Hp&[= ->])]%Hinv.
    + destruct (L6 p p0 Ho) as (sz&t'&H&R). exists sz, t'. rewrite lookup_insert_ne; [done|]. congruence.
    + exists size, t. by rewrite lookup_insert_eq.
  - intros a sz t' Ha. destruct (decide (a = addr_of w pg)) as [->|Hne].
    + rewrite lookup_insert_eq in Ha. injection Ha as <- <-. split; [done|]. split; [done|]. unfold block. rewrite Hs. exists pg.
      to_base Eb. split; [done|]. split; [done|]. split; [by rewrite Eku, decide_True|]. intros p Hp. rewrite lookup_own_pages. by rewrite decide_True.
    + rewrite lookup_insert_ne in Ha by done. destruct (L7 a sz t' Ha) as (H1&H2&H3). split; [done|]. split; [done|].
      unfold block in *. to_base Eb. destruct (is_small sz) eqn:Es; [split; [apply Hslot, H3|apply H3]|].
      destruct H3 as (p0&->&Hm&Hku&Ho). destruct (large_size sz H1 Es Hm) as (_&_&_&?&_). exists p0. split; [done|]. split; [done|]. split.
      * rewrite Eku, decide_False; [done|]. intros ->. congruence.
      * intros p Hp. by apply Hkeep, Ho.
  - intros j a Ha. by apply Hslot, L8.
  - done.
Qed.

Lemma lay_unmap w w' lv own fl pg size t : layout w lv own fl ->
  lv !! addr_of w pg = Some (size, t) -> is_small size = false ->
  kmembase w' = kmembase w -> (forall p, p ∈ mapped w' <-> p ∈ mapped w /\ ~ (pg <= p < pg + npg size)) ->
  (forall p, ku_at w' p = if decide (p = pg) then mkKu 0 0 else ku_at w p) ->
  layout w' (delete (addr_of w pg) lv) (disown_pages pg (npg size) own) fl.
Proof.
  intros HL Ha Hs Eb Em Eku. destruct (ly_live _ _ _ _ HL _ _ _ Ha) as (Hok&_&Hb). unfold block in Hb. rewrite Hs in Hb.
  destruct Hb as (q&Eq&Hn&_&Hown). assert (q = pg) as -> by (rewrite <- (page_of_addr0 w q), <- Eq; apply page_of_addr0).
  destruct (large_size size Hok Hs Hn) as (_&_&_&Hn1&_).
  assert (forall p k, disown_pages pg (npg size) own !! p = Some k -> own !! p = Some k /\ ~ (pg <= p < pg + npg size)) as Hinv.
  { intros p k. rewrite lookup_disown_pages. by destruct (decide _). }
  assert (forall p k, own !! p = Some k -> k <> Large pg -> disown_pages pg (npg size) own !! p = Some k) as Hkeep.
  { intros p k Hk Hne. rewrite lookup_disown_pages, decide_False; [done|]. intros Hp. rewrite (Hown p Hp) in Hk. congruence. }
  assert (forall j a, slot w own j a -> slot w (disown_pages pg (npg size) own) j a) as Hslot.
  { intros j a (p&k&Ho&R). exists p, k. by rewrite (Hkeep p _ Ho). }
  destruct HL as [L1 L2 L3 L4 L5 L6 L7 L8 L9]. split; to_base Eb.
  - by rewrite Eb.
  - intros p. rewrite Em, L2, lookup_disown_pages. destruct (decide (pg <= p < pg + npg size)); [split; [by intros (_&?)|by intros []]|tauto].
  - intros p k (Hk&_)%Hinv. by eapply L3.
  - intros p j (Ho&Hp)%Hinv. destruct (L4 p j Ho) as (Hj&Hku). split; [done|]. rewrite Eku, decide_False; [done|]. lia.
  - intros p j k (Ho&Hp)%Hinv Hk. destruct (L5 p j k Ho Hk) as [H|H]; [by left|]. right. rewrite lookup_delete_ne; [done|].
    intros E. pose proof (L4 p j Ho) as (Hj&_). assert (page_of w (addr_of w pg) = p) as Epg by (rewrite E; by apply slot_page).
    rewrite page_of_addr0 in Epg. lia.
  - intros p p0 (Ho&Hp)%Hinv. destruct (L6 p p0 Ho) as (sz&t'&H&R1&R2). exists sz, t'. rewrite lookup_delete_ne; [done|].
    intros E. apply (f_equal (page_of w)) in E. rewrite !page_of_addr0 in E. subst p0. rewrite Ha in H. injection H as <- <-. lia.
  - intros a sz t' Hb. destruct (decide (a = addr_of w pg)) as [->|Hne]; [by rewrite lookup_delete_eq in Hb|].
    rewrite lookup_delete_ne in Hb by done. destruct (L7 a sz t' Hb) as (H1&H2&H3). split; [done|]. split; [done|].
    unfold block in *. to_base Eb. destruct (is_small sz) eqn:Es; [split; [apply Hslot, H3|apply H3]|].
    destruct H3 as (p0&->&Hm&Hku&Ho). assert (p0 <> pg) by congruence. exists p0. split; [done|]. split; [done|]. split.
    + by rewrite Eku, decide_False.
    + intros p Hp. apply Hkeep; [by apply Ho|congruence].
  - intros j a Hf. by apply Hslot, L8.
  - done.
Qed.
