(* ===== verification/KmallocOps.v ===== *)
(** * The kernel memory allocator: malloc and free

    What each step of malloc and free does to the blocks that are held and to the
    free lists: the invariant is kept on every branch, and what is in the blocks
    of others stays. *)

From S2P Require Import Prelude Kmalloc KmallocInv.

(** ** The lists and the counts *)

Record lists (w : kmworld) (fl : Z -> list Z) : Prop := {
  ls_len : length (bucket w) = 20%nat;
  ls_kb : forall i b, bucket w !! i = Some b -> linked (words w) (kb_next b) (fl (Z.of_nat i)) /\
    kb_totalfree b = s32 (Z.of_nat (length (fl (Z.of_nat i)))) /\ kb_elmpercl b = kb_elmpercl (init_kb (Z.of_nat i)) }.

(** The blocks of a type, and the memory they take. *)
Definition held (t : Z) (lv : gmap Z (Z * Z)) : Z := Z.of_nat (count_map (fun st => st.2 = t) lv).
Definition weight (t : Z) (st : Z * Z) : nat := if decide (st.2 = t) then Z.to_nat (allocsize st.1) else 0%nat.
Definition used (t : Z) (lv : gmap Z (Z * Z)) : Z := Z.of_nat (sum_map (weight t) lv).

Definition call_ok (c : mcall) : Prop := size_ok (mc_size c) /\ 0 <= mc_type c < M_LAST.

(** [st_asleep]: who sleeps at a limit has not missed its wakeup. *)
Record stats (w : kmworld) (lv : gmap Z (Z * Z)) : Prop := {
  st_len : length (kmemstat w) = 52%nat;
  st_ks : forall t k, kmemstat w !! t = Some k ->
    ks_inuse k = s32 (held (Z.of_nat t) lv) /\ ks_memuse k = s32 (used (Z.of_nat t) lv) /\ ks_limit k = ks_limit init_ks;
  st_asleep : forall c, c ∈ asleep w -> call_ok c /\
    exists k, kmemstat w !! Z.to_nat (mc_type c) = Some k /\ ks_limit k <= ks_memuse k;
  st_woken : Forall call_ok (woken w) }.

Definition kinv (w : kmworld) (lv : gmap Z (Z * Z)) (own : gmap Z pgkind) (fl : Z -> list Z) : Prop :=
  layout w lv own fl /\ lists w fl /\ stats w lv.
Definition kmem (w : kmworld) (lv : gmap Z (Z * Z)) : Prop := exists own fl, kinv w lv own fl.

Lemma lookup_alter_if {A} (f : A -> A) (i j : nat) (l : list A) : alter f i l !! j = if decide (j = i) then f <$> l !! j else l !! j.
Proof.
  destruct (decide (j = i)) as [->|]; [apply list_lookup_alter_eq|by apply list_lookup_alter_ne].
Qed.

(** *** Counting *)

Lemma type_held_insert t lv a st : lv !! a = None -> held t (<[a := st]> lv) = held t lv + if decide (st.2 = t) then 1 else 0.
Proof. intros Ha. unfold held. rewrite count_map_fresh by done. unfold one. destruct (decide (st.2 = t)); lia. Qed.
Lemma type_held_delete t lv a st : lv !! a = Some st -> held t (delete a lv) = held t lv - if decide (st.2 = t) then 1 else 0.
Proof. intros Ha. unfold held. rewrite (count_map_delete _ lv a st) by done. unfold one. destruct (decide (st.2 = t)); lia. Qed.
Lemma used_insert t lv a size t' : lv !! a = None -> 0 <= allocsize size ->
  used t (<[a := (size, t')]> lv) = used t lv + if decide (t' = t) then allocsize size else 0.
Proof. intros Ha Hs. unfold used. rewrite sum_map_fresh by done. unfold weight at 1. cbn [fst snd]. destruct (decide (t' = t)); lia. Qed.
Lemma used_delete t lv a size t' : lv !! a = Some (size, t') -> 0 <= allocsize size ->
  used t (delete a lv) = used t lv - if decide (t' = t) then allocsize size else 0.
Proof. intros Ha Hs. unfold used. rewrite (sum_map_delete _ lv a _ Ha). unfold weight at 2. cbn [fst snd]. destruct (decide (t' = t)); lia. Qed.

(** *** The arrays *)

Lemma kb_index size : exists i, BUCKETINDX size = Z.of_nat i /\ (i < 20)%nat.
Proof. destruct (bucketindx_least size) as ((H1&H2)&_). exists (Z.to_nat (BUCKETINDX size)). lia. Qed.

Lemma get_kb_ok w fl i : lists w fl -> 0 <= i < 20 -> exists b, get_kb i w = Ok b /\ bucket w !! Z.to_nat i = Some b.
Proof.
  intros [L _] Hi. unfold get_kb. rewrite (proj2 (Z.ltb_ge i 0)) by lia.
  destruct (lookup_lt_is_Some_2 (bucket w) (Z.to_nat i)) as (b&E); [lia|]. exists b. by rewrite E.
Qed.

Lemma get_ks_ok w lv t : stats w lv -> 0 <= t < M_LAST -> exists k, get_ks t w = Ok k /\ kmemstat w !! Z.to_nat t = Some k.
Proof.
  intros [L _ _ _] Ht. unfold M_LAST in Ht. unfold get_ks. rewrite (proj2 (Z.ltb_ge t 0)) by lia.
  destruct (lookup_lt_is_Some_2 (kmemstat w) (Z.to_nat t)) as (k&E); [lia|]. exists k. by rewrite E.
Qed.

Lemma btokup_ok w lv own fl a k : layout w lv own fl -> own !! page_of w a = Some k -> btokup a w = Ok (page_of w a).
Proof.
  intros HL Ho. pose proof (ly_range _ _ _ _ HL _ _ Ho) as Hr. unfold btokup.
  by rewrite (proj2 (Z.leb_le _ _)), (proj2 (Z.ltb_lt _ _)) by lia.
Qed.

Lemma load_ok w lv own fl a k : layout w lv own fl -> own !! page_of w a = Some k -> load a w = Ok (word (words w) a).
Proof.
  intros HL Ho. unfold load. rewrite decide_True; [done|]. apply (ly_map _ _ _ _ HL). by eexists.
Qed.

(** What the parts of the invariant are about. *)
Lemma layout_frame w w' lv own fl : kmembase w' = kmembase w -> mapped w' = mapped w -> kmemuse w' = kmemuse w ->
  layout w lv own fl -> layout w' lv own fl.
Proof. destruct w, w'. cbn. intros -> -> -> []. by split. Qed.
Lemma lists_frame w w' fl : bucket w' = bucket w -> words w' = words w -> lists w fl -> lists w' fl.
Proof. destruct w, w'. cbn. intros -> -> []. by split. Qed.
Lemma stats_frame w w' lv : kmemstat w' = kmemstat w -> asleep w' = asleep w -> woken w' = woken w -> stats w lv -> stats w' lv.
Proof. destruct w, w'. cbn. intros -> -> -> []. by split. Qed.

(** The bucket [i] has [f] done to it and now has the list [l]; the words of the
    free blocks of the others are as they were. *)
Lemma lists_alter w w' fl i f l : lists w fl -> 0 <= i ->
  (forall j, bucket w' !! j = if decide (j = Z.to_nat i) then f <$> bucket w !! j else bucket w !! j) ->
  (forall b, bucket w !! Z.to_nat i = Some b -> linked (words w') (kb_next (f b)) l /\
    kb_totalfree (f b) = s32 (Z.of_nat (length l)) /\ kb_elmpercl (f b) = kb_elmpercl b) ->
  (forall j a, j <> i -> a ∈ fl j -> word (words w') a = word (words w) a) ->
  lists w' (fset i l fl).
Proof.
  intros [L1 L2] Hi Hb Hf Hw. split.
  - destruct (Nat.lt_trichotomy (length (bucket w')) (length (bucket w))) as [H|[H|H]]; [exfalso|congruence|exfalso].
    + destruct (lookup_lt_is_Some_2 (bucket w) (length (bucket w')) H) as (b&E). specialize (Hb (length (bucket w'))).
      rewrite lookup_ge_None_2, E in Hb by done. by case_decide.
    + destruct (lookup_lt_is_Some_2 (bucket w') (length (bucket w)) H) as (b&E). specialize (Hb (length (bucket w))).
      rewrite E, lookup_ge_None_2 in Hb by done. by case_decide.
  - intros j b Hj. rewrite Hb in Hj. destruct (decide (j = Z.to_nat i)) as [->|Hne].
    + apply fmap_Some in Hj as (b0&E0&->). rewrite Z2Nat.id by done. rewrite fset_eq.
      destruct (Hf b0 E0) as (H1&H2&H3). split; [done|]. split; [done|]. rewrite H3.
      destruct (L2 _ _ E0) as (_&_&->). by rewrite Z2Nat.id.
    + rewrite fset_ne by lia. destruct (L2 _ _ Hj) as (H1&H2&H3). split; [|done]. eapply linked_ext; [|exact H1].
      intros a Ha. apply (Hw (Z.of_nat j)); [lia|done].
Qed.

(** The counts of a type change with the blocks that are held; no one falls
    asleep or wakes. *)
Lemma stats_alter w w' lv lv' t f : stats w lv -> 0 <= t ->
  (forall j, kmemstat w' !! j = if decide (j = Z.to_nat t) then f <$> kmemstat w !! j else kmemstat w !! j) ->
  asleep w' = asleep w -> woken w' = woken w ->
  (forall k, kmemstat w !! Z.to_nat t = Some k -> ks_inuse (f k) = s32 (held t lv') /\ ks_memuse (f k) = s32 (used t lv') /\ ks_limit (f k) = ks_limit k /\
    ((exists c, c ∈ asleep w /\ mc_type c = t) -> ks_limit k <= ks_memuse k -> ks_limit (f k) <= ks_memuse (f k))) ->
  (forall j, j <> t -> held j lv' = held j lv /\ used j lv' = used j lv) ->
  stats w' lv'.
Proof.
  intros [L1 L2 L3 L4] Ht Hk Ea Ew Hf Ho. split.
  - destruct (Nat.lt_trichotomy (length (kmemstat w')) (length (kmemstat w))) as [H|[H|H]]; [exfalso|congruence|exfalso].
    + destruct (lookup_lt_is_Some_2 (kmemstat w) (length (kmemstat w')) H) as (b&E). specialize (Hk (length (kmemstat w'))).
      rewrite lookup_ge_None_2, E in Hk by done. by case_decide.
    + destruct (lookup_lt_is_Some_2 (kmemstat w') (length (kmemstat w)) H) as (b&E). specialize (Hk (length (kmemstat w))).
      rewrite E, lookup_ge_None_2 in Hk by done. by case_decide.
  - intros j k Hj. rewrite Hk in Hj. destruct (decide (j = Z.to_nat t)) as [->|Hne].
    + apply fmap_Some in Hj as (k0&E0&->). rewrite Z2Nat.id by done. destruct (Hf k0 E0) as (?&?&->&_). split; [done|]. split; [done|]. by apply (L2 _ _ E0).
    + destruct (Ho (Z.of_nat j)) as (->&->); [lia|]. by apply L2.
  - rewrite Ea. intros c Hc. destruct (L3 c Hc) as (Hok&k&Ek&Hle). split; [done|]. rewrite Hk.
    destruct (decide (Z.to_nat (mc_type c) = Z.to_nat t)) as [E|]; [|by exists k].
    rewrite Ek. exists (f k). split; [done|]. rewrite E in Ek. apply (Hf k Ek); [|done]. exists c. split; [done|]. destruct Hok as (_&?). lia.
  - by rewrite Ew.
Qed.

(** *** The memory in use is bounded *)

Lemma page_range w x : 0 <= page_of w x < npages -> kmembase w <= x < kmembase w + npages * NBPG.
Proof.
  unfold page_of. rewrite Z.shiftr_div_pow2 by done. change (2 ^ PGSHIFT) with 4096. change NBPG with 4096.
  pose proof (Z.div_mod (x - kmembase w) 4096 ltac:(lia)). pose proof (Z.mod_pos_bound (x - kmembase w) 4096 ltac:(lia)). lia.
Qed.

(** The bytes of the blocks of a type, without repetition. *)
Lemma block_list w lv own fl t : layout w lv own fl -> forall m, m ⊆ lv ->
  exists l, NoDup l /\ length l = sum_map (weight t) m /\
    forall x, x ∈ l -> exists a s t', m !! a = Some (s, t') /\ a <= x < a + allocsize s.
Proof.
  intros HL. induction m as [|a [s t'] m Ha IH] using map_ind; intros Hm.
  - exists []. split; [apply list.NoDup_nil; done|]. split; [done|]. intros x H. by apply elem_of_nil in H.
  - assert (m ⊆ lv) as Hm' by (etrans; [by apply insert_subseteq|done]). destruct (IH Hm') as (l&N&L&B).
    rewrite sum_map_fresh by done. unfold weight at 1. cbn [fst snd]. destruct (decide (t' = t)) as [->|].
    2:{ exists l. split; [done|]. split; [done|]. intros x Hx. destruct (B x Hx) as (b&s'&t2&Hb&Hx'). exists b, s', t2.
        rewrite lookup_insert_ne; [done|]. congruence. }
    exists (seqZ a (allocsize s) ++ l). split; [|split].
    + apply list.NoDup_app. split; [apply NoDup_seqZ|]. split; [|done]. intros x Hx%elem_of_seqZ Hl.
      destruct (B x Hl) as (b&s'&t2&Hb&Hx'). assert (a = b) as ->; [|congruence].
      eapply (blocks_apart _ _ _ _ HL a b s t s' t2 x); [..|done|done].
      * eapply lookup_weaken; [|exact Hm]. by rewrite lookup_insert_eq.
      * eapply lookup_weaken; [exact Hb|done].
    + by rewrite length_app, length_seqZ, L.
    + intros x [Hx|Hx]%elem_of_app.
      * exists a, s, t. rewrite lookup_insert_eq. split; [done|]. by apply elem_of_seqZ in Hx.
      * destruct (B x Hx) as (b&s'&t2&Hb&Hx'). exists b, s', t2. rewrite lookup_insert_ne; [done|]. congruence.
Qed.

Lemma used_bound w lv own fl t : layout w lv own fl -> 0 <= used t lv <= npages * NBPG.
Proof.
  intros HL. unfold used. split; [lia|]. destruct (block_list w lv own fl t HL lv) as (l&N&<-&B); [done|].
  assert (l ⊆+ seqZ (kmembase w) (npages * NBPG)) as H.
  { apply NoDup_submseteq; [done|]. intros x Hx. destruct (B x Hx) as (a&s&t'&Ha&Hx').
    destruct (block_bytes _ _ _ _ HL _ _ _ _ Ha Hx') as (Ho&_). apply elem_of_seqZ, page_range. by eapply ly_range. }
  apply submseteq_length in H. rewrite length_seqZ in H. change (npages * NBPG) with 16777216 in *. lia.
Qed.

(** The bytes a block takes, in bounds. *)
Lemma live_alloc w lv own fl a size t : layout w lv own fl -> lv !! a = Some (size, t) ->
  0 < allocsize size <= npages * NBPG /\ size <= allocsize size.
Proof.
  intros HL Ha. destruct (ly_live _ _ _ _ HL _ _ _ Ha) as (Hok&_&Hb). unfold block in Hb. change (npages * NBPG) with 16777216.
  destruct (is_small size) eqn:Es.
  - destruct (small_size size (proj1 Hok) Es) as (Hi&E&Hle). destruct (small_facts _ Hi) as (?&_). lia.
  - destruct Hb as (p&_&Hn&_). destruct (large_size size Hok Es Hn) as (_&E&Hle&?&_). unfold NBPG in E. change npages with 4096 in Hn. lia.
Qed.

(** A type takes at least a byte for every block. *)
Lemma held_used t (lv : gmap Z (Z * Z)) : (forall a size t', lv !! a = Some (size, t') -> 0 < allocsize size) -> 0 <= held t lv <= used t lv.
Proof.
  induction lv as [|a [size t'] lv Ha IH] using map_ind; intros H; [done|].
  rewrite type_held_insert by done. pose proof (H a size t' ltac:(apply lookup_insert_eq)) as Hs. rewrite used_insert by (done || lia). cbn [snd].
  assert (0 <= held t lv <= used t lv); [|case_decide; lia]. apply IH. intros b sb tb Hb. apply (H b sb tb). rewrite lookup_insert_ne; [done|]. congruence.
Qed.

Lemma used_zero t (lv : gmap Z (Z * Z)) : (forall a size t', lv !! a = Some (size, t') -> t' <> t) -> used t lv = 0.
Proof.
  intros H. unfold used. rewrite sum_map_zero; [done|]. intros a [size t'] Ha. unfold weight. by rewrite decide_False by (by eapply H).
Qed.

(** Where a block is. *)
Lemma live_place w lv own fl a size t : layout w lv own fl -> lv !! a = Some (size, t) ->
  kmembase w <= a /\ a + allocsize size <= kmembase w + VM_KMEM_SIZE /\ a mod Z.min (allocsize size) NBPG = 0.
Proof.
  intros HL Ha. destruct (live_alloc _ _ _ _ _ _ _ HL Ha) as (Hs&_). change VM_KMEM_SIZE with (npages * NBPG).
  assert (forall x, a <= x < a + allocsize size -> kmembase w <= x < kmembase w + npages * NBPG) as Hb.
  { intros x Hx. apply page_range. destruct (block_bytes _ _ _ _ HL _ _ _ _ Ha Hx) as (Ho&_). by eapply ly_range. }
  pose proof (Hb a ltac:(lia)). pose proof (Hb (a + allocsize size - 1) ltac:(lia)). split; [lia|]. split; [lia|].
  destruct (ly_base _ _ _ _ HL) as (_&Hm). apply Z.mod_divide in Hm as (q&Hq); [|done].
  destruct (ly_live _ _ _ _ HL _ _ _ Ha) as (Hok&_&Hbl). unfold block in Hbl. destruct (is_small size) eqn:Es.
  - destruct Hbl as ((pg&k&_&Hk&->)&_). destruct (small_size size (proj1 Hok) Es) as (Hi&->&_). destruct (small_facts _ Hi) as (Hr&Hpp&_).
    rewrite Z.min_l by (unfold NBPG; lia). unfold slot_at, addr_of. rewrite Hq, <- Hpp.
    replace (_ + _) with ((q * per_page (BUCKETINDX size) + pg * per_page (BUCKETINDX size) + k) * 2 ^ BUCKETINDX size) by lia.
    apply Z.mod_mul. lia.
  - destruct Hbl as (p0&->&Hn&_). destruct (large_size size Hok Es Hn) as (_&->&_&Hn1&_). rewrite Z.min_r by (unfold NBPG; lia).
    unfold addr_of. rewrite Hq. replace (_ + _) with ((q + p0) * NBPG) by lia. by apply Z.mod_mul.
Qed.

(** ** malloc *)

(** What an allocation does to the counts of its type. *)
Definition ks_up (size : Z) (k : kmemstats) : kmemstats :=
  let k := set_ks_memuse (s32 (ks_memuse k + size)) k in
  let k := set_ks_calls (s32 (ks_calls k + 1)) (set_ks_inuse (s32 (ks_inuse k + 1)) k) in
  if ks_maxused k <? ks_memuse k then set_ks_maxused (ks_memuse k) k else k.

Lemma ks_up_fields size k : ks_inuse (ks_up size k) = s32 (ks_inuse k + 1) /\
  ks_memuse (ks_up size k) = s32 (ks_memuse k + size) /\ ks_limit (ks_up size k) = ks_limit k.
Proof. unfold ks_up. by case_match. Qed.

Lemma stats_malloc w w' lv a size t : stats w lv -> lv !! a = None -> 0 <= t < M_LAST -> 0 <= allocsize size ->
  used t (<[a := (size, t)]> lv) <= npages * NBPG ->
  (forall j, kmemstat w' !! j = if decide (j = Z.to_nat t) then ks_up (allocsize size) <$> kmemstat w !! j else kmemstat w !! j) ->
  asleep w' = asleep w -> woken w' = woken w -> stats w' (<[a := (size, t)]> lv).
Proof.
  intros HS Ha Ht Hs Hu Hk Ea Ew. apply (stats_alter w w' lv _ t _ HS (proj1 Ht) Hk Ea Ew).
  - intros k Ek. destruct (ks_up_fields (allocsize size) k) as (->&->&->). destruct (st_ks _ _ HS _ _ Ek) as (Ei&Em&Elim).
    rewrite Z2Nat.id in Ei, Em by lia. rewrite used_insert, decide_True in Hu by done.
    rewrite type_held_insert, used_insert, !decide_True by done. rewrite Ei, Em, !s32_add_l. split; [done|]. split; [done|]. split; [done|]. intros _ Hle.
    change (npages * NBPG) with 16777216 in Hu. assert (0 <= used t lv) by (unfold used; lia). rewrite s32_id in Hle |- * by lia. lia.
  - intros j Hj. rewrite type_held_insert, used_insert by done. cbn [snd]. rewrite !decide_False by done. lia.
Qed.


Lemma malloc_take_ok w lv own fl c va l : kinv w lv own fl -> call_ok c -> is_small (mc_size c) = true ->
  fl (BUCKETINDX (mc_size c)) = va :: l ->
  exists w', malloc_take c w = Ok (MGot va, w') /\
    kinv w' (<[va := (mc_size c, mc_type c)]> lv) own (fset (BUCKETINDX (mc_size c)) l fl) /\ lv !! va = None /\
    words w' = words w /\ kmembase w' = kmembase w /\ asleep w' = asleep w /\ woken w' = woken w.
Proof.
  intros (HL&HB&HS) (Hok&Ht) Hs Hfl. unfold malloc_take. set (i := BUCKETINDX (mc_size c)) in *.
  assert (va ∈ fl i) as Hva by (rewrite Hfl; left). pose proof (ly_free _ _ _ _ HL _ _ Hva) as Hslot.
  pose proof (slot_own _ _ _ _ HL _ _ Hslot) as Hown. pose proof (slot_bucket _ _ _ _ HL _ _ Hslot) as Hi.
  pose proof (free_not_live _ _ _ _ HL _ _ Hva) as Hno. destruct (small_size _ (proj1 Hok) Hs) as (_&Ea&_). fold i in Ea.
  destruct (small_facts i Hi) as (Hi1&_&Hi3&Hsh&_).
  destruct (get_kb_ok w fl i HB) as (b&->&Eb); [lia|]. cbn [mbind outcome_bind].
  destruct (ls_kb _ _ HB _ _ Eb) as (Hl&Htf&Hel). rewrite Z2Nat.id in Hl, Htf, Hel by lia. rewrite Hfl in Hl, Htf. cbn [linked] in Hl.
  destruct Hl as (->&Hnz&Hl). rewrite (load_ok w lv own fl va _ HL Hown). cbn [mbind outcome_bind].
  change (btokup va (upd_kb i (set_kb_next (word (words w) va)) w)) with (btokup va w).
  rewrite (btokup_ok w lv own fl va _ HL Hown). cbn [mbind outcome_bind].
  change (ku_at (upd_kb i (set_kb_next (word (words w) va)) w)) with (ku_at w).
  destruct (ly_small _ _ _ _ HL _ _ Hown) as (_&Eku). pose proof (nfree_le _ _ _ _ HL _ _ Hown) as Hnf.
  assert (0 < nfree w (fl i) (page_of w va)) as Hpos.
  { unfold nfree. rewrite Hfl, filter_cons_True by done. cbn [length]. lia. }
  rewrite Eku. cbn [ku_indx ku_cnt]. rewrite Z.eqb_refl. cbn [negb]. rewrite (proj2 (Z.eqb_neq _ 0)) by lia.
  rewrite u16_id by lia. eexists. split; [reflexivity|].
  match goal with |- kinv ?w' ?lv' ?own' ?fl' /\ _ => assert (layout w' lv' own' fl') as HL' end.
  { eapply lay_take; try done. intros pg. etrans; [apply (ku_at_set (page_of w va))|]. done. }
  split; [split; [exact HL'|split]|split_and!; done].
  - eapply (lists_alter w _ fl i (fun b => set_kb_calls (s32 (kb_calls b + 1)) (set_kb_totalfree (s32 (kb_totalfree b - 1))
      (set_kb_next (word (words w) va) b)))); [done|lia| | |done].
    + intros j. cbn [upd_kb upd_ks set_bucket bucket set_kmemstat set_ku set_kmemuse]. fold i. rewrite !lookup_alter_if.
      destruct (decide _); [|done]. by destruct (bucket w !! j).
    + intros b0 E0. rewrite Eb in E0. injection E0 as <-. cbn. split; [done|]. split; [|done]. rewrite Htf. cbn [length].
      rewrite <- Z.add_opp_r, s32_add_l. f_equal. lia.
  - apply (stats_malloc w _ lv va _ _ HS Hno Ht); [lia| | |done|done].
    + apply (used_bound _ _ _ _ _ HL').
    + intros j. cbn [upd_kb upd_ks set_bucket kmemstat set_kmemstat set_ku set_kmemuse]. rewrite !lookup_alter_if.
      destruct (decide _); [|done]. destruct (kmemstat w !! j); [|done]. cbn [fmap option_fmap option_map]. by rewrite Ea, Hsh.
Qed.

Definition at_limit (w : kmworld) (t : Z) : Prop :=
  exists k, kmemstat w !! Z.to_nat t = Some k /\ ks_limit k <= ks_memuse k.

(** Only the buckets of small blocks have lists. *)
Lemma large_nil w lv own fl i : layout w lv own fl -> 11 < i -> fl i = [].
Proof.
  intros HL Hi. destruct (fl i) as [|a l] eqn:E; [done|]. exfalso.
  assert (4 <= i <= 11); [|lia]. apply (slot_bucket _ _ _ _ HL i a), (ly_free _ _ _ _ HL). rewrite E. left.
Qed.

Lemma malloc_sleep w lv c : stats w lv -> call_ok c -> at_limit w (mc_type c) ->
  let w1 := upd_ks (mc_type c) (fun k => if ks_limblocks k <? 65535 then set_ks_limblocks (u16 (ks_limblocks k + 1)) k else k) w in
  stats (set_asleep (asleep w ++ [c]) w1) lv.
Proof.
  intros HS (Hok&Ht) (k&Ek&Hle) w1.
  assert (stats w1 lv) as H1.
  { apply (stats_alter w w1 lv lv (mc_type c) (fun k => if ks_limblocks k <? 65535 then set_ks_limblocks (u16 (ks_limblocks k + 1)) k else k));
      [done|lia| |done|done| |done].
    - intros j. cbn [w1 upd_ks kmemstat set_kmemstat]. apply lookup_alter_if.
    - intros k0 E0. rewrite Ek in E0. injection E0 as <-. destruct (st_ks _ _ HS _ _ Ek) as (Ei&Em&Elim). rewrite Z2Nat.id in Ei, Em by lia.
      by case_match. }
  destruct H1 as [L1 L2 L3 L4]. split; [done|done| |done]. cbn [asleep set_asleep kmemstat]. intros c' [Hc|Hc%list_elem_of_singleton]%elem_of_app.
  - by apply L3.
  - subst c'. split; [done|]. cbn [w1 upd_ks kmemstat set_kmemstat]. rewrite lookup_alter_if, decide_True, Ek by done.
    eexists. split; [reflexivity|]. by case_match.
Qed.

(** malloc up to kmem_malloc. *)
Lemma malloc_loop_ok w lv own fl c : kinv w lv own fl -> call_ok c ->
  exists r w', malloc_loop c w = Ok (r, w') /\ words w' = words w /\ kmembase w' = kmembase w /\ woken w' = woken w /\
    match r with
    | MNull => w' = w /\ has (mc_flags c) M_NOWAIT = true /\ at_limit w (mc_type c)
    | MAsleep => kinv w' lv own fl /\ asleep w' = asleep w ++ [c] /\ has (mc_flags c) M_NOWAIT = false /\ at_limit w (mc_type c)
    | MMap n => w' = w /\ n = npg (mc_size c) /\ ~ at_limit w (mc_type c) /\ fl (BUCKETINDX (mc_size c)) = []
    | MGot va => asleep w' = asleep w /\ ~ at_limit w (mc_type c) /\ is_small (mc_size c) = true /\ lv !! va = None /\
        exists l, fl (BUCKETINDX (mc_size c)) = va :: l /\
        kinv w' (<[va := (mc_size c, mc_type c)]> lv) own (fset (BUCKETINDX (mc_size c)) l fl)
    end.
Proof.
  intros HK Hc. pose proof HK as (HL&HB&HS). pose proof Hc as (Hok&Ht). unfold malloc_loop.
  destruct (get_ks_ok w lv _ HS Ht) as (k&->&Ek). cbn [mbind outcome_bind].
  destruct (ks_limit k <=? ks_memuse k) eqn:El; bool_prop.
  - assert (at_limit w (mc_type c)) as Hat by (by exists k). destruct (has (mc_flags c) M_NOWAIT) eqn:Ef.
    + exists MNull, w. by split_and!.
    + eexists MAsleep, _. split; [reflexivity|]. split_and!; try done.
      split; [|split]; [by apply (layout_frame w)|by apply (lists_frame w)|exact (malloc_sleep w lv c HS Hc Hat)].
  - assert (~ at_limit w (mc_type c)) as Hat by (intros (k'&E'&?); rewrite Ek in E'; injection E' as <-; lia).
    destruct (kb_index (mc_size c)) as (n&En&Hn).
    destruct (get_kb_ok w fl (BUCKETINDX (mc_size c)) HB) as (b&->&Eb); [lia|]. cbn [mbind outcome_bind].
    destruct (ls_kb _ _ HB _ _ Eb) as (Hl&_). rewrite Z2Nat.id in Hl by lia.
    destruct (fl (BUCKETINDX (mc_size c))) as [|va l] eqn:Efl; cbn [linked] in Hl.
    + rewrite Hl. cbn [Z.eqb]. exists (MMap (npg (mc_size c))), w. by split_and!.
    + destruct Hl as (->&Hnz&_). rewrite (proj2 (Z.eqb_neq va 0) Hnz).
      assert (is_small (mc_size c) = true) as Hs.
      { apply bucketindx_small. destruct (Z.le_gt_cases (BUCKETINDX (mc_size c)) 11) as [|Hgt]; [done|].
        rewrite (large_nil w lv own fl _ HL) in Efl by lia. done. }
      destruct (malloc_take_ok w lv own fl c va l HK Hc Hs Efl) as (w'&->&H1&H2&H3&H4&H5&H6).
      exists (MGot va), w'. split_and!; try done. by exists l.
Qed.

(** *** A new page *)

Lemma word_kmap pg n junk w x : ~ (pg <= page_of w x < pg + n) -> word (words (kmap pg n junk w)) x = word (words w) x.
Proof.
  intros Hx. unfold kmap, word. cbn [words set_words]. rewrite lookup_union_r; [done|]. apply map_lookup_filter_None. right.
  intros v Hv Hp. apply Hx. cbn in Hp. unfold pages in Hp. by apply elem_of_seqZ in Hp.
Qed.

Lemma mapped_kmap pg n junk w p : p ∈ mapped (kmap pg n junk w) <-> pg <= p < pg + n \/ p ∈ mapped w.
Proof.
  unfold kmap. cbn [mapped set_words set_mapped]. rewrite elem_of_union, elem_of_list_to_set. unfold pages. rewrite elem_of_seqZ. tauto.
Qed.

Lemma npg_small size : 0 <= size -> is_small size = true -> npg size = 1.
Proof.
  intros H0 Hs. destruct (small_size size H0 Hs) as (Hi&E&_). destruct (small_facts _ Hi) as (Hr&_). unfold npg. rewrite E.
  unfold btoc, NBPG. rewrite (u32_id (2 ^ _)) by lia. rewrite u32_id by lia. rewrite Z.shiftr_div_pow2 by done. change (2 ^ PGSHIFT) with 4096.
  symmetry. apply (Z.div_unique _ _ _ (2 ^ BUCKETINDX size - 1)); lia.
Qed.

(** The loop has as many rounds as it needs. *)
Lemma carve_fuel : (256 <= Z.to_nat NBPG)%nat.
Proof. unfold NBPG. lia. Qed.

(** The page is cut up; what malloc is at before it takes the first block. *)
Lemma cut_ok w lv own fl c pg junk : kinv w lv own fl -> is_small (mc_size c) = true -> 0 <= mc_size c ->
  0 <= pg < npages -> pg ∉ mapped w ->
  exists w1, malloc_mapped c (Some (addr_of w pg)) (kmap pg 1 junk w) = malloc_take c w1 /\
    kinv w1 lv (<[pg := Small (BUCKETINDX (mc_size c))]> own)
      (fset (BUCKETINDX (mc_size c)) (fresh_blocks w (BUCKETINDX (mc_size c)) pg ++ fl (BUCKETINDX (mc_size c))) fl) /\
    (forall x, page_of w x <> pg -> word (words w1) x = word (words w) x) /\
    kmembase w1 = kmembase w /\ asleep w1 = asleep w /\ woken w1 = woken w.
Proof.
  intros (HL&HB&HS) Hs H0 Hpg Hnew. unfold malloc_mapped.
  pose proof carve_fuel as HF. revert HF. generalize (Z.to_nat NBPG) as F. intros F HF. set (i := BUCKETINDX (mc_size c)) in *.
  destruct (small_size _ H0 Hs) as (Hi&Ea&_). fold i in Hi, Ea. destruct (small_facts i Hi) as (Hi1&Hi2&Hi3&Hsh&Hel).
  fold (npg (mc_size c)). rewrite (npg_small _ H0 Hs), Ea, Z.mul_1_l.
  set (w0 := kmap pg 1 junk w). set (f0 := fun b => set_kb_total (s32 (kb_total b + kb_elmpercl b)) b).
  change (btokup (addr_of w pg) (upd_kb i f0 w0)) with (btokup (addr_of w pg) w).
  unfold btokup. rewrite page_of_addr0, (proj2 (Z.leb_le 0 pg)), (proj2 (Z.ltb_lt pg npages)) by lia. cbn [andb mret outcome_ret mbind outcome_bind].
  rewrite (proj2 (Z.ltb_ge MAXALLOCSAVE (2 ^ i))) by (change MAXALLOCSAVE with 4095; lia).
  destruct (get_kb_ok w fl i HB) as (b&_&Eb); [lia|]. destruct (ls_kb _ _ HB _ _ Eb) as (Hl&Htf&Hbel). rewrite Z2Nat.id in Hl, Htf, Hbel by lia.
  set (w2 := set_ku pg _ (upd_kb i f0 w0)).
  assert (get_kb i w2 = Ok (f0 b)) as ->.
  { unfold get_kb. rewrite (proj2 (Z.ltb_ge i 0)) by lia. unfold w2, w0. cbn [bucket upd_kb set_bucket set_ku set_kmemuse kmap set_words set_mapped].
    by rewrite list_lookup_alter_eq, Eb. }
  cbn [mbind outcome_bind]. rewrite s16_id by lia.
  change (kb_elmpercl (f0 b)) with (kb_elmpercl b). change (kb_next (f0 b)) with (kb_next b). rewrite Hbel, Hel, u16_id by lia.
  set (w3 := upd_kb i _ (upd_kb i _ (set_ku pg _ w2))). set (n := Z.to_nat (per_page i - 1)).
  assert (addr_of w pg + NBPG - 2 ^ i = addr_of w pg + Z.of_nat n * 2 ^ i) as Efirst by (unfold n; rewrite Z2Nat.id by lia; lia).
  rewrite Efirst.
  assert (forall j a, a ∈ fl j -> page_of w a <> pg) as Hold.
  { intros j a Ha E. pose proof (slot_own _ _ _ _ HL _ _ (ly_free _ _ _ _ HL _ _ Ha)) as Ho. apply Hnew, (ly_map _ _ _ _ HL).
    rewrite <- E, Ho. by eexists. }
  destruct (carve_ok n F (addr_of w pg) (2 ^ i) (kb_next b) (fl i) w3) as (m&->&Hlink&Hrest).
  - unfold n. lia.
  - lia.
  - destruct (ly_base _ _ _ _ HL). unfold addr_of, NBPG. lia.
  - intros k Hk. change (page_of w3) with (page_of w). change (mapped w3) with (mapped w0).
    unfold n in Hk. rewrite Z2Nat.id in Hk by lia. apply mapped_kmap. left. fold (slot_at w i pg k). rewrite slot_page by lia. lia.
  - change (words w3) with (words w0). eapply linked_ext; [|exact Hl]. intros a Ha. apply word_kmap. pose proof (Hold i a Ha). lia.
  - intros a Ha Hb. change (a ∈ fresh_blocks w i pg) in Hb. apply elem_of_fresh in Hb as (k&Hk&->); [|done].
    apply (Hold i _ Ha). by apply slot_page.
  - cbn [mbind outcome_bind]. exists (set_words m w3). split; [done|].
    assert (forall x, page_of w x <> pg -> word m x = word (words w) x) as Hw.
    { intros x Hx. rewrite Hrest; [|intros Hd; change (x ∈ fresh_blocks w i pg) in Hd; apply elem_of_fresh in Hd as (k&Hk&->); [|done]; by apply Hx, slot_page].
      apply word_kmap. lia. }
    split; [|by split_and!]. split; [|split].
    + apply (lay_cut w); [done|done|done|done|done| |].
      * intros p. change (mapped (set_words m w3)) with (mapped w0). unfold w0. rewrite mapped_kmap. assert (pg <= p < pg + 1 <-> p = pg) as -> by lia. done.
      * intros p. etrans; [apply (ku_at_set pg)|]. case_decide; [done|]. etrans; [apply (ku_at_set pg)|]. by rewrite decide_False.
    + eapply (lists_alter w _ fl i (fun b => set_kb_next (addr_of w pg + NBPG - 2 ^ i)
        (set_kb_totalfree (s32 (kb_totalfree b + kb_elmpercl b)) (f0 b)))); [done|lia| | |].
      * intros j. unfold w3, w2, w0. cbn [bucket upd_kb set_bucket set_ku set_kmemuse kmap set_words set_mapped]. rewrite !lookup_alter_if.
        destruct (decide _); [|done]. by destruct (bucket w !! j).
      * intros b0 E0. rewrite Eb in E0. injection E0 as <-. cbn. split; [by rewrite Efirst|]. split; [|done]. rewrite Htf, s32_add_l, Hbel, Hel. f_equal.
        rewrite length_app. unfold fresh_blocks. rewrite length_downs. fold n. unfold n. lia.
      * intros j a Hj Ha. apply Hw. by apply (Hold j).
    + by apply (stats_frame w).
Qed.

(** *** Whole pages *)

Lemma lists_ext w fl fl' : (forall i, fl' i = fl i) -> lists w fl -> lists w fl'.
Proof. intros E [L1 L2]. split; [done|]. intros i b Hb. rewrite !E. by apply L2. Qed.

Lemma fset_same i fl j : fset i (fl i) fl j = fl j.
Proof. unfold fset. by destruct (decide (j = i)) as [->|]. Qed.

(** What kmem_malloc may return: pages of the map that are not in use. *)
Definition grantable (w : kmworld) (pg n : Z) : Prop :=
  0 <= pg /\ pg + n <= npages /\ forall p, pg <= p < pg + n -> p ∉ mapped w.

Lemma large_ok w lv own fl c pg junk : kinv w lv own fl -> call_ok c -> is_small (mc_size c) = false ->
  grantable w pg (npg (mc_size c)) ->
  exists w', malloc_mapped c (Some (addr_of w pg)) (kmap pg (npg (mc_size c)) junk w) = Ok (MGot (addr_of w pg), w') /\
    kinv w' (<[addr_of w pg := (mc_size c, mc_type c)]> lv) (own_pages pg (npg (mc_size c)) own) fl /\
    lv !! addr_of w pg = None /\
    (forall x, ~ (pg <= page_of w x < pg + npg (mc_size c)) -> word (words w') x = word (words w) x) /\
    kmembase w' = kmembase w /\ asleep w' = asleep w /\ woken w' = woken w.
Proof.
  intros (HL&HB&HS) (Hok&Ht) Hs (Hp0&Hp1&Hnew). unfold malloc_mapped. set (i := BUCKETINDX (mc_size c)) in *.
  destruct (large_size _ Hok Hs) as (Hi&Ea&_&Hn1&Hbig); [lia|]. fold i in Hi. fold (npg (mc_size c)).
  change npages with 4096 in Hp1. set (n := npg (mc_size c)) in *.
  set (w0 := kmap pg n junk w). set (f0 := fun b => set_kb_total (s32 (kb_total b + kb_elmpercl b)) b).
  change (btokup (addr_of w pg) (upd_kb i f0 w0)) with (btokup (addr_of w pg) w).
  unfold btokup. rewrite page_of_addr0, (proj2 (Z.leb_le 0 pg)), (proj2 (Z.ltb_lt pg npages)) by (change npages with 4096; lia).
  cbn [andb mret outcome_ret mbind outcome_bind].
  rewrite (proj2 (Z.ltb_lt MAXALLOCSAVE _) Hbig), (proj2 (Z.ltb_ge 65535 n)) by lia. rewrite s16_id, u16_id by lia.
  assert (lv !! addr_of w pg = None) as Hno.
  { destruct (lv !! addr_of w pg) as [[sz t']|] eqn:E; [|done]. exfalso. destruct (live_alloc _ _ _ _ _ _ _ HL E) as (?&_).
    destruct (block_bytes _ _ _ _ HL _ _ _ (addr_of w pg) E) as (Ho&_); [lia|]. rewrite page_of_addr0 in Ho.
    apply (Hnew pg); [lia|]. apply (ly_map _ _ _ _ HL). rewrite Ho. by eexists. }
  eexists. split; [reflexivity|].
  match goal with |- kinv ?w' ?lv' ?own' ?fl' /\ _ => assert (layout w' lv' own' fl') as HL' end.
  { apply (lay_large w); try done; [fold n; change npages with 4096; lia| |].
    - intros p. apply mapped_kmap.
    - intros p. etrans; [apply (ku_at_set pg)|]. case_decide; [done|]. etrans; [apply (ku_at_set pg)|]. by rewrite decide_False. }
  split; [split; [exact HL'|split]|split_and!; [done| |done..]].
  - apply (lists_ext _ (fset i (fl i) fl)); [intros j; symmetry; apply fset_same|].
    eapply (lists_alter w _ fl i (fun b => set_kb_calls (s32 (kb_calls b + 1)) (f0 b))); [done|lia| | |].
    + intros j. cbn [upd_kb upd_ks set_bucket bucket set_kmemstat set_ku set_kmemuse w0 kmap set_words set_mapped]. fold i. rewrite !lookup_alter_if.
      destruct (decide _); [|done]. by destruct (bucket w !! j).
    + intros b0 E0. destruct (ls_kb _ _ HB _ _ E0) as (Hl&Htf&Hbel). rewrite Z2Nat.id in Hl, Htf, Hbel by lia.
      cbn. rewrite (large_nil w lv own fl i HL) in * by lia. done.
    + intros j a Hj Ha. apply word_kmap. intros Hp. apply (Hnew _ Hp), (ly_map _ _ _ _ HL).
      rewrite (slot_own _ _ _ _ HL j a (ly_free _ _ _ _ HL _ _ Ha)). by eexists.
  - apply (stats_malloc w _ lv _ _ _ HS Hno Ht); [unfold MAXALLOCSAVE, CLBYTES in Hbig; lia| | |done|done].
    + apply (used_bound _ _ _ _ _ HL').
    + intros j. cbn [upd_kb upd_ks set_bucket kmemstat set_kmemstat set_ku set_kmemuse w0 kmap set_words set_mapped]. rewrite !lookup_alter_if.
      destruct (decide _); [|done]. by destruct (kmemstat w !! j).
  - intros x Hx. by apply word_kmap.
Qed.

(** The pages of the blocks that are held are in use. *)
Lemma live_mapped w lv own fl a size t x : layout w lv own fl -> lv !! a = Some (size, t) ->
  a <= x < a + allocsize size -> page_of w x ∈ mapped w.
Proof.
  intros HL Ha Hx. destruct (block_bytes _ _ _ _ HL _ _ _ _ Ha Hx) as (Ho&_). apply (ly_map _ _ _ _ HL). rewrite Ho. by eexists.
Qed.

(** The blocks that are held keep what is in them. *)
Definition keeps (w w' : kmworld) (lv : gmap Z (Z * Z)) : Prop :=
  forall a size t x, lv !! a = Some (size, t) -> a <= x < a + allocsize size -> word (words w') x = word (words w) x.

Lemma keeps_refl w w' lv : words w' = words w -> keeps w w' lv.
Proof. intros E a size t x _ _. by rewrite E. Qed.

(** malloc after kmem_malloc. *)
Lemma malloc_mapped_ok w lv c pg junk : kmem w lv -> call_ok c -> grantable w pg (npg (mc_size c)) ->
  exists va w', malloc_mapped c (Some (addr_of w pg)) (kmap pg (npg (mc_size c)) junk w) = Ok (MGot va, w') /\
    lv !! va = None /\ kmem w' (<[va := (mc_size c, mc_type c)]> lv) /\ keeps w w' lv /\
    kmembase w' = kmembase w /\ asleep w' = asleep w /\ woken w' = woken w.
Proof.
  intros (own&fl&HK) Hc Hg. pose proof HK as (HL&_). pose proof Hc as (Hok&_). destruct (is_small (mc_size c)) eqn:Es.
  - rewrite (npg_small _ (proj1 Hok) Es) in *. destruct Hg as (Hp0&Hp1&Hnew).
    destruct (cut_ok w lv own fl c pg junk HK Es (proj1 Hok)) as (w1&->&HK1&Hw1&Eb1&Ea1&Eo1); [lia|apply Hnew; lia|].
    destruct (small_size _ (proj1 Hok) Es) as (Hi&_). destruct (small_facts _ Hi) as (_&_&Hp&_).
    assert (exists va l, fresh_blocks w (BUCKETINDX (mc_size c)) pg = va :: l) as (va&l&El).
    { unfold fresh_blocks. destruct (Z.to_nat (per_page (BUCKETINDX (mc_size c)) - 1)); cbn [downs]; by eexists _, _. }
    destruct (malloc_take_ok w1 _ _ _ c va (l ++ fl (BUCKETINDX (mc_size c))) HK1 Hc Es) as (w'&->&HK'&Hno&Ew&Eb&Ea&Eo).
    { by rewrite fset_eq, El. }
    exists va, w'. split; [done|]. split; [done|]. split; [by eexists _, _|]. split; [|by split_and!; congruence].
    intros a size t x Ha Hx. rewrite Ew. apply Hw1. intros E. apply (Hnew pg); [lia|]. rewrite <- E. by eapply live_mapped.
  - destruct (large_ok w lv own fl c pg junk HK Hc Es Hg) as (w'&->&HK'&Hno&Hw&Eb&Ea&Eo).
    exists (addr_of w pg), w'. split; [done|]. split; [done|]. split; [by eexists _, _|]. split; [|done].
    intros a size t x Ha Hx. apply Hw. intros Hp. destruct Hg as (_&_&Hnew). apply (Hnew _ Hp). by eapply live_mapped.
Qed.

(** ** free *)

Lemma filter_split {A} (P : A -> Prop) `{forall x, Decision (P x)} (l : list A) :
  l ≡ₚ filter P l ++ filter (fun x => ~ P x) l.
Proof.
  induction l as [|x l IH]; [done|]. destruct (decide (P x)) as [Hx|Hx].
  - rewrite (filter_cons_True P) by done. rewrite (filter_cons_False (fun x => ~ P x)) by tauto. cbn. by f_equiv.
  - rewrite (filter_cons_False P) by done. rewrite (filter_cons_True (fun x => ~ P x)) by done. rewrite <- Permutation_middle. by f_equiv.
Qed.

(** The counts of a type go down; at the limit, its sleepers are woken. *)
Lemma ks_less_ok w lv own fl a size t : layout w lv own fl -> stats w lv -> lv !! a = Some (size, t) ->
  forall w0, kmemstat w0 = kmemstat w -> asleep w0 = asleep w -> woken w0 = woken w ->
  exists w', ks_less t (allocsize size) w0 = Ok w' /\ stats w' (delete a lv) /\
    kmembase w' = kmembase w0 /\ mapped w' = mapped w0 /\ words w' = words w0 /\ bucket w' = bucket w0 /\ kmemuse w' = kmemuse w0 /\
    asleep w' ++ woken w' ≡ₚ asleep w ++ woken w.
Proof.
  intros HL HS Ha w0 Es Eas Ewo. destruct (ly_live _ _ _ _ HL _ _ _ Ha) as (_&Ht&_).
  destruct (live_alloc _ _ _ _ _ _ _ HL Ha) as (Hsz&_). pose proof (used_bound _ _ _ _ t HL) as Hu.
  destruct (get_ks_ok w lv t HS Ht) as (k&_&Ek). destruct (st_ks _ _ HS _ _ Ek) as (Ei&Em&Elim). rewrite Z2Nat.id in Ei, Em by lia.
  pose proof (used_delete t lv a size t Ha) as Hd. rewrite decide_True in Hd by done. specialize (Hd ltac:(lia)).
  assert (0 <= used t (delete a lv)) as Hd0 by (unfold used; lia). change (npages * NBPG) with 16777216 in *.
  rewrite s32_id in Em by lia.
  unfold ks_less. set (f1 := fun k => set_ks_memuse (s32 (ks_memuse k - allocsize size)) k). set (w1 := upd_ks t f1 w0).
  assert (get_ks t w1 = Ok (f1 k)) as ->.
  { unfold get_ks. rewrite (proj2 (Z.ltb_ge t 0)) by lia. unfold w1. cbn [upd_ks kmemstat set_kmemstat].
    by rewrite list_lookup_alter_eq, Es, Ek. }
  cbn [mbind outcome_bind]. set (f2 := fun k => set_ks_inuse (s32 (ks_inuse k - 1)) k).
  assert (ks_memuse (f1 k) = used t (delete a lv)) as Em1 by (cbn; rewrite Em, s32_id by lia; lia).
  rewrite Em1. change (ks_limit (f1 k)) with (ks_limit k). rewrite s32_id by lia. replace (used t (delete a lv) + allocsize size) with (ks_memuse k) by lia.
  assert (forall j k', f2 <$> (f1 <$> kmemstat w !! j) = Some k' -> j = Z.to_nat t ->
    ks_inuse k' = s32 (held t (delete a lv)) /\ ks_memuse k' = s32 (used t (delete a lv)) /\ ks_limit k' = ks_limit k) as Hk.
  { intros j k' Hj ->. rewrite Ek in Hj. cbn in Hj. injection Hj as <-. rewrite (type_held_delete t lv a _ Ha), decide_True by done.
    change (ks_memuse (f2 (f1 k))) with (ks_memuse (f1 k)). rewrite Em1, (s32_id (used _ _)) by lia. split; [|done]. cbn.
    rewrite Ei, <- Z.add_opp_r, s32_add_l. f_equal. }
  assert (forall w2, kmemstat w2 = kmemstat w1 -> Forall call_ok (woken w2) ->
    (forall c, c ∈ asleep w2 -> c ∈ asleep w /\ (mc_type c = t -> ks_limit k <= used t (delete a lv))) ->
    stats (upd_ks t f2 w2) (delete a lv)) as Hst.
  { intros w2 E2 Hwo Hsl. assert (forall j, kmemstat (upd_ks t f2 w2) !! j =
      if decide (j = Z.to_nat t) then f2 <$> (f1 <$> kmemstat w !! j) else kmemstat w !! j) as Hj.
    { intros j. cbn [upd_ks kmemstat set_kmemstat]. rewrite E2. unfold w1. cbn [upd_ks kmemstat set_kmemstat]. rewrite Es, !lookup_alter_if. by destruct (decide _). }
    split.
    - cbn [upd_ks kmemstat set_kmemstat]. rewrite length_alter, E2. unfold w1. cbn [upd_ks kmemstat set_kmemstat]. rewrite length_alter, Es. apply HS.
    - intros j k' Hk'. rewrite Hj in Hk'. destruct (decide (j = Z.to_nat t)) as [->|Hne].
      + rewrite Z2Nat.id by lia. destruct (Hk _ _ Hk' eq_refl) as (?&?&->). by split_and!.
      + rewrite (type_held_delete _ lv a _ Ha), (used_delete _ lv a _ _ Ha) by lia. cbn [snd]. rewrite !decide_False, !Z.sub_0_r by lia. by apply (st_ks _ _ HS).
    - intros c Hc. change (asleep (upd_ks t f2 w2)) with (asleep w2) in Hc. destruct (Hsl c Hc) as (Hc'&Hl).
      destruct (st_asleep _ _ HS c Hc') as (Hok&k0&E0&Hle). split; [done|]. rewrite Hj. destruct (decide _) as [E|]; [|by exists k0].
      assert (mc_type c = t) as Et by (destruct Hok as (_&?); lia). rewrite E0. rewrite Et, Ek in E0. injection E0 as <-.
      exists (f2 (f1 k)). split; [done|]. change (ks_memuse (f2 (f1 k))) with (ks_memuse (f1 k)). rewrite Em1. by apply Hl.
    - done. }
  destruct ((ks_limit k <=? ks_memuse k) && (used t (delete a lv) <? ks_limit k)) eqn:Ew.
  - eexists. split; [reflexivity|]. split; [|split_and!; try done].
    + apply Hst; [done| |].
      * cbn [ks_wakeup woken set_woken]. apply list.Forall_app. split; [cbn; rewrite Ewo; apply (st_woken _ _ HS)|].
        apply list.Forall_forall. intros c (_&Hc)%list_elem_of_filter. apply (st_asleep _ _ HS). by rewrite <- Eas.
      * intros c Hc. cbn [ks_wakeup asleep set_woken set_asleep] in Hc. apply list_elem_of_filter in Hc as (Hne&Hc). rewrite <- Eas. by split.
    + cbn [upd_ks asleep woken set_kmemstat ks_wakeup set_woken set_asleep]. change (asleep w1) with (asleep w0). change (woken w1) with (woken w0).
      rewrite Eas, Ewo. rewrite (Permutation_app_comm (woken w)), app_assoc. f_equiv.
      rewrite Permutation_app_comm. symmetry. apply filter_split.
  - eexists. split; [reflexivity|]. split; [|split_and!; try done].
    + apply Hst; [done|change (woken w1) with (woken w0); rewrite Ewo; apply HS|]. intros c Hc. change (asleep w1) with (asleep w0) in Hc. rewrite Eas in Hc.
      split; [done|]. intros Et. destruct (st_asleep _ _ HS c Hc) as (_&k0&E0&Hle). rewrite Et, Ek in E0. injection E0 as <-.
      apply andb_false_iff in Ew as [Ew|Ew]; bool_prop; lia.
    + change (asleep w0 ++ woken w0 ≡ₚ asleep w ++ woken w). by rewrite Eas, Ewo.
Qed.

(** The count of a page that has become free changes no more than
    [kb_couldfree]. *)
Lemma couldfree_ok (cnt : Z) (b : kmembuckets) (i : Z) (w : kmworld) : cnt <= kb_elmpercl b ->
  exists g, (if kb_elmpercl b <=? cnt then if kb_elmpercl b <? cnt then Panic "free: multiple frees"
      else mret (if kb_highwat b <? kb_totalfree b then upd_kb i (fun b => set_kb_couldfree (s32 (kb_couldfree b + 1)) b) w else w)
      else mret w) = Ok (upd_kb i (fun b => set_kb_couldfree (g b) b) w).
Proof.
  intros Hle. assert (upd_kb i (fun b => set_kb_couldfree (kb_couldfree b) b) w = w) as Eid.
  { unfold upd_kb. rewrite list_alter_id by (by intros []). by destruct w. }
  rewrite (proj2 (Z.ltb_ge (kb_elmpercl b) cnt)) by lia. destruct (kb_elmpercl b <=? cnt); [destruct (kb_highwat b <? kb_totalfree b)|].
  - by exists (fun b => s32 (kb_couldfree b + 1)).
  - exists kb_couldfree. by rewrite Eid.
  - exists kb_couldfree. by rewrite Eid.
Qed.

(** A small block goes to the front of the list of its bucket. *)
Lemma free_small w lv own fl a size t : kinv w lv own fl -> lv !! a = Some (size, t) -> is_small size = true ->
  exists w', free a t w = Ok w' /\ kinv w' (delete a lv) own (fset (BUCKETINDX size) (a :: fl (BUCKETINDX size)) fl) /\
    keeps w w' (delete a lv) /\ kmembase w' = kmembase w /\ asleep w' ++ woken w' ≡ₚ asleep w ++ woken w.
Proof.
  intros (HL&HB&HS) Ha Es. destruct (ly_live _ _ _ _ HL _ _ _ Ha) as (Hok&Ht&Hb). destruct (live_alloc _ _ _ _ _ _ _ HL Ha) as (Hsz&_).
  destruct (block_bytes _ _ _ _ HL _ _ _ a Ha) as (Hown&_); [lia|]. unfold block in Hb. rewrite Es in Hown, Hb.
  unfold free. rewrite (btokup_ok w lv own fl a _ HL Hown). cbn [mbind outcome_bind]. set (i := BUCKETINDX size) in *.
  destruct Hb as (Hslot&Hnf). destruct (small_size size (proj1 Hok) Es) as (Hi&Ea&_). fold i in Hi, Ea.
  destruct (small_facts i Hi) as (Hi1&_&Hi3&Hsh&Hel). destruct (ly_small _ _ _ _ HL _ _ Hown) as (_&Eku). rewrite Eku. cbn [ku_indx ku_cnt].
  destruct (get_kb_ok w fl i HB) as (b&->&Eb); [lia|]. cbn [mbind outcome_bind].
  destruct (ls_kb _ _ HB _ _ Eb) as (Hl&Htf&Hbel). rewrite Z2Nat.id in Hl, Htf, Hbel by lia. rewrite Hel in Hbel.
  rewrite Hsh, s32_id by lia. rewrite (proj2 (Z.ltb_ge MAXALLOCSAVE _)) by (change MAXALLOCSAVE with 4095; lia).
  pose proof (nfree_lt _ _ _ _ HL _ _ _ Ha Es) as Hlt. fold i in Hlt. pose proof (nfree_le _ _ _ _ HL _ _ Hown) as Hge. fold i in Hge.
  rewrite u16_id by lia. set (w1 := set_ku _ _ w). set (cnt := nfree w (fl i) (page_of w a) + 1) in *.
  destruct (couldfree_ok cnt b i w1) as (g&->); [lia|].
  cbn [mbind outcome_bind]. rewrite <- Ea.
  set (w2 := upd_kb i _ (upd_kb i _ w1)).
  destruct (ks_less_ok w lv own fl a size t HL HS Ha w2) as (w3&->&HS3&Eb3&Em3&Ew3&Ek3&Eu3&Ep3); [done..|]. cbn [mbind outcome_bind].
  set (f := fun b => set_kb_totalfree (s32 (kb_totalfree b + 1)) (set_kb_couldfree (g b) b)).
  assert (get_kb i w3 = Ok (f b)) as ->.
  { unfold get_kb. rewrite (proj2 (Z.ltb_ge i 0)) by lia. rewrite Ek3. unfold w2, w1. cbn [bucket upd_kb set_bucket set_ku set_kmemuse].
    by rewrite !list_lookup_alter_eq, Eb. }
  cbn [mbind outcome_bind]. change (kb_next (f b)) with (kb_next b). unfold store.
  assert (page_of w3 = page_of w) as -> by (by apply base_page). rewrite decide_True.
  2:{ rewrite Em3. change (mapped w2) with (mapped w). apply (ly_map _ _ _ _ HL). rewrite Hown. by eexists. }
  cbn [mbind outcome_bind mret outcome_ret]. eexists. split; [reflexivity|].
  assert (forall x, x <> a -> word (<[a := kb_next b]> (words w3)) x = word (words w) x) as Hw.
  { intros x Hx. rewrite word_insert, decide_False by done. by rewrite Ew3. }
  split; [|split; [|by split]].
  + split; [|split].
    * apply (lay_give w _ lv own fl i a size t); try done. intros pg. change (ku_at w1 pg = if decide (pg = page_of w a) then mkKu i cnt else ku_at w pg) || idtac.
      unfold ku_at. cbn [kmemuse upd_kb set_bucket set_words]. rewrite Eu3. etrans; [apply (ku_at_set (page_of w a))|]. done.
    * eapply (lists_alter w _ fl i (fun b => set_kb_next a (f b))); [done|lia| | |].
      -- intros j. cbn [bucket upd_kb set_bucket set_words]. rewrite Ek3. unfold w2, w1. cbn [bucket upd_kb set_bucket set_ku set_kmemuse].
         rewrite !lookup_alter_if. destruct (decide _); [|done]. by destruct (bucket w !! j).
      -- intros b0 E0. rewrite Eb in E0. injection E0 as <-. cbn [words upd_kb set_bucket set_words linked]. split; [|split; [|done]].
         ++ split; [done|]. split; [|rewrite word_insert, decide_True by done; eapply linked_ext; [|exact Hl]; intros x Hx; apply Hw; by intros ->].
            destruct (ly_base _ _ _ _ HL) as (?&_). destruct (page_range w a) as (?&_); [by eapply ly_range|]. lia.
         ++ cbn. rewrite Htf, s32_add_l. f_equal. lia.
      -- intros j x Hj Hx. apply Hw. intros ->. by rewrite (free_not_live _ _ _ _ HL _ _ Hx) in Ha.
    * by apply (stats_frame w3).
  + intros c sz t' x Hc Hx. apply Hw. intros ->. destruct (decide (c = a)) as [->|Hne]; [by rewrite lookup_delete_eq in Hc|].
    rewrite lookup_delete_ne in Hc by done. apply Hne. apply (blocks_apart _ _ _ _ HL c a sz t' size t a Hc Ha Hx). lia.
Qed.

(** The pages of a large block go back to kmem_map. *)
Lemma free_large w lv own fl a size t : kinv w lv own fl -> lv !! a = Some (size, t) -> is_small size = false ->
  exists w', free a t w = Ok w' /\
    (exists p0, a = addr_of w p0 /\ ku_at w' p0 = mkKu 0 0 /\ kinv w' (delete a lv) (disown_pages p0 (npg size) own) fl) /\
    keeps w w' (delete a lv) /\ kmembase w' = kmembase w /\ asleep w' ++ woken w' ≡ₚ asleep w ++ woken w.
Proof.
  intros (HL&HB&HS) Ha Es. destruct (ly_live _ _ _ _ HL _ _ _ Ha) as (Hok&Ht&Hb). destruct (live_alloc _ _ _ _ _ _ _ HL Ha) as (Hsz&_).
  destruct (block_bytes _ _ _ _ HL _ _ _ a Ha) as (Hown&_); [lia|]. unfold block in Hb. rewrite Es in Hown, Hb.
  unfold free. rewrite (btokup_ok w lv own fl a _ HL Hown). cbn [mbind outcome_bind]. set (i := BUCKETINDX size) in *.
  destruct Hb as (p0&->&Hn&Eku&_). destruct (large_size size Hok Es Hn) as (Hi&Ea&_&Hn1&Hbig). fold i in Hi.
  rewrite page_of_addr0, Eku. cbn [ku_indx ku_cnt]. destruct (get_kb_ok w fl i HB) as (b&->&Eb); [lia|]. cbn [mbind outcome_bind].
  assert (4095 < 2 ^ i < 2 ^ 31) as Hpow by (split; [apply (Z.lt_le_trans _ (2 ^ 12)); [done|apply Z.pow_le_mono_r; lia]|apply Z.pow_lt_mono_r; lia]).
  rewrite Z.shiftl_1_l, s32_id, (proj2 (Z.ltb_lt MAXALLOCSAVE _)) by (change MAXALLOCSAVE with 4095; lia).
  change npages with 4096 in Hn. assert (s32 (Z.shiftl (npg size) PGSHIFT) = allocsize size) as ->.
  { rewrite Z.shiftl_mul_pow2 by done. change (2 ^ PGSHIFT) with NBPG. rewrite <- Ea. apply s32_id. change (npages * NBPG) with 16777216 in Hsz. lia. }
  set (w1 := set_ku p0 _ (unmap p0 _ w)).
  destruct (ks_less_ok w lv own fl _ size t HL HS Ha w1) as (w3&->&HS3&Eb3&Em3&Ew3&Ek3&Eu3&Ep3); [done..|]. cbn [mbind outcome_bind mret outcome_ret].
  eexists. split; [reflexivity|]. split; [|split; [|by split]].
  + exists p0. split; [done|]. split; [|split; [|split]].
    * unfold ku_at. cbn [kmemuse upd_kb set_bucket]. rewrite Eu3. etrans; [apply (ku_at_set p0)|]. by rewrite decide_True.
    * apply (lay_unmap w _ lv own fl p0 size t); try done.
      -- intros p. cbn [mapped upd_kb set_bucket]. rewrite Em3. unfold w1. cbn [mapped set_ku set_kmemuse unmap set_mapped].
         rewrite elem_of_difference, elem_of_list_to_set. unfold pages. rewrite elem_of_seqZ. tauto.
      -- intros p. unfold ku_at. cbn [kmemuse upd_kb set_bucket]. rewrite Eu3. etrans; [apply (ku_at_set p0)|]. done.
    * apply (lists_ext _ (fset i (fl i) fl)); [intros j; symmetry; apply fset_same|].
      eapply (lists_alter w _ fl i (fun b => set_kb_total (s32 (kb_total b - 1)) b)); [done|lia| | |].
      -- intros j. cbn [bucket upd_kb set_bucket]. rewrite Ek3. unfold w1. cbn [bucket set_ku set_kmemuse unmap set_mapped]. apply lookup_alter_if.
      -- intros b0 E0. destruct (ls_kb _ _ HB _ _ E0) as (Hl&Htf&Hbel). rewrite Z2Nat.id in Hl, Htf, Hbel by lia.
         cbn. rewrite (large_nil w lv own fl i HL) in * by lia. done.
      -- intros j x _ _. cbn [words upd_kb set_bucket]. by rewrite Ew3.
    * by apply (stats_frame w3).
  + apply keeps_refl. cbn [words upd_kb set_bucket]. by rewrite Ew3.
Qed.

Lemma free_ok w lv a size t : kmem w lv -> lv !! a = Some (size, t) ->
  exists w', free a t w = Ok w' /\ kmem w' (delete a lv) /\ keeps w w' (delete a lv) /\
    kmembase w' = kmembase w /\ asleep w' ++ woken w' ≡ₚ asleep w ++ woken w.
Proof.
  intros (own&fl&HK) Ha. destruct (is_small size) eqn:Es.
  - destruct (free_small w lv own fl a size t HK Ha Es) as (w'&->&HK'&R). exists w'. split; [done|]. split; [by eexists _, _|done].
  - destruct (free_large w lv own fl a size t HK Ha Es) as (w'&->&(p0&_&_&HK')&R). exists w'. split; [done|]. split; [by eexists _, _|done].
Qed.

(** ** kmeminit *)

Lemma kmeminit_ok base junk : 0 < base -> base mod NBPG = 0 -> kmem (kmeminit base junk) ∅.
Proof.
  intros H0 H1. exists ∅, (fun _ => []). split; [|split].
  - split; cbn [kmeminit kmembase mapped kmemuse]; try done.
    + intros pg. rewrite lookup_empty. split; [by intros ?%not_elem_of_empty|by intros []].
    + intros i a Ha. by apply elem_of_nil in Ha.
    + intros i. by apply list.NoDup_nil.
  - split; [done|]. cbn [kmeminit bucket words]. intros i b Hb.
    apply list_lookup_fmap_Some in Hb as (j&->&Hj). apply lookup_seqZ in Hj as (->&_). by rewrite Z.add_0_l.
  - split; [done| | |done].
    + cbn [kmeminit kmemstat]. intros t k Hk. apply lookup_replicate in Hk as (->&_). done.
    + intros c Hc. by apply elem_of_nil in Hc.
Qed.
