(* ===== verification/KmallocRun.v ===== *)
(** * The kernel memory allocator and its callers as one system

    Calls of malloc that sleep and go on in any order, blocks that are written and
    freed by who holds them, whatever kmem_malloc returns; the invariant of every
    run of proper events ([kproper]), and what it gives. *)

From S2P Require Import Prelude Kmalloc KmallocInv KmallocOps.

(** ** The allocator and its callers as one system *)

(** [pend]: the calls in kmem_malloc; [vals]: the words that the holders of blocks
    have written into them. *)
Record ksys := mkKsys {
  kw : kmworld;
  live : gmap Z (Z * Z);
  pend : list mcall;
  vals : gmap Z Z }.

(** [KFree a]: its holder frees the block with its own type.  [KFreeAs a t]: anyone
    frees anything as type [t]. *)
Inductive kevent : Type :=
  | KMalloc (c : mcall)
  | KWoken (n : nat)
  | KMapped (n : nat) (ans : option (Z * gmap Z Z))
  | KFree (a : Z)
  | KFreeAs (a t : Z)
  | KWrite (a off v : Z).

(** A step of malloc has ended. *)
Definition after_malloc (c : mcall) (s : ksys) (r : mres * kmworld) : ksys :=
  let '(r, w) := r in
  match r with
  | MGot va => mkKsys w (<[va := (mc_size c, mc_type c)]> (live s)) (pend s) (vals s)
  | MMap _ => mkKsys w (live s) (pend s ++ [c]) (vals s)
  | MNull | MAsleep => mkKsys w (live s) (pend s) (vals s)
  end.

Definition size_at (a : Z) (s : ksys) : Z := match live s !! a with Some (size, _) => size | None => 0 end.
Definition type_at (a : Z) (s : ksys) : Z := match live s !! a with Some (_, t) => t | None => 0 end.

Definition call_free (a t : Z) (s : ksys) : outcome ksys :=
  w ← free a t (kw s);
  mret (mkKsys w (delete a (live s)) (pend s) (filter (fun kv => ~ (a <= kv.1 < a + allocsize (size_at a s))) (vals s))).

(** What an event does: the code runs, whatever its caller asks of it. *)
Definition kdo (e : kevent) (s : ksys) : outcome ksys :=
  match e with
  | KMalloc c => r ← malloc c (kw s); mret (after_malloc c s r)
  | KWoken n =>
      match woken (kw s) !! n with
      | Some c => r ← malloc_loop c (set_woken (delete n (woken (kw s))) (kw s)); mret (after_malloc c s r)
      | None => mret s
      end
  | KMapped n ans =>
      match pend s !! n with
      | Some c =>
          let s := mkKsys (kw s) (live s) (delete n (pend s)) (vals s) in
          match ans with
          | None => r ← malloc_mapped c None (kw s); mret (after_malloc c s r)
          | Some (pg, junk) =>
              r ← malloc_mapped c (Some (addr_of (kw s) pg)) (kmap pg (npg (mc_size c)) junk (kw s));
              mret (after_malloc c s r)
          end
      | None => mret s
      end
  | KFree a => call_free a (type_at a s) s
  | KFreeAs a t => call_free a t s
  | KWrite a off v => w ← store (a + off) v (kw s); mret (mkKsys w (live s) (pend s) (<[a + off := v]> (vals s)))
  end.

Fixpoint kdo_run (evs : list kevent) (s : ksys) : outcome ksys :=
  match evs with
  | [] => mret s
  | e :: evs => s ← kdo e s; kdo_run evs s
  end.

(** What its callers, and kmem_malloc, see to: a size of at most 2^32 - NBPG and a
    type of the table; pages of the map that are not in use; a block that is freed is
    held, with the type it was asked for; a write is to a word of a block that is held. *)
Definition call_okb (c : mcall) : bool :=
  (0 <=? mc_size c) && (mc_size c <=? 2 ^ 32 - NBPG) && (0 <=? mc_type c) && (mc_type c <? M_LAST).
Definition grantableb (w : kmworld) (pg n : Z) : bool :=
  (0 <=? pg) && (pg + n <=? npages) && forallb (fun p => negb (bool_decide (p ∈ mapped w))) (pages pg n).
Definition heldb (a : Z) (s : ksys) : bool := bool_decide (is_Some (live s !! a)).

Definition kproper (e : kevent) (s : ksys) : bool :=
  match e with
  | KMalloc c => call_okb c
  | KWoken _ | KMapped _ None => true
  | KMapped n (Some (pg, _)) => match pend s !! n with Some c => grantableb (kw s) pg (npg (mc_size c)) | None => true end
  | KFree a => heldb a s
  | KFreeAs a t => heldb a s && (t =? type_at a s)
  | KWrite a off _ => heldb a s && ((0 <=? off) && (off + 4 <=? size_at a s) && (off mod 4 =? 0))
  end.

(** Every event of a run is what its caller may do. *)
Fixpoint kproper_run (evs : list kevent) (s : ksys) : bool :=
  match evs with
  | [] => true
  | e :: evs => kproper e s && match kdo e s with Ok s' => kproper_run evs s' | _ => true end
  end.

(** The kernel whose callers do nothing else. *)
Definition kstep (e : kevent) (s : ksys) : outcome ksys := if kproper e s then kdo e s else mret s.

Fixpoint krun (evs : list kevent) (s : ksys) : outcome ksys :=
  match evs with
  | [] => mret s
  | e :: evs => s ← kstep e s; krun evs s
  end.

Definition kboot (base : Z) (junk : gmap Z Z) : ksys := mkKsys (kmeminit base junk) ∅ [] ∅.

(** What a run gives. *)
Definition from_run {A} (d : A) (f : ksys -> A) (o : outcome ksys) : A := match o with Ok s => f s | _ => d end.

(** ** The invariant of the system *)

Record ksys_ok (s : ksys) : Prop := {
  kk_mem : kmem (kw s) (live s);
  kk_pend : Forall call_ok (pend s);
  kk_vals : forall x v, vals s !! x = Some v -> word (words (kw s)) x = v /\
    exists a size t, live s !! a = Some (size, t) /\ a <= x < a + allocsize size }.

Definition kfine (o : outcome ksys) : Prop := exists s, o = Ok s /\ ksys_ok s.

Lemma kfine_ret s : ksys_ok s -> kfine (mret s).
Proof. intros H. by exists s. Qed.

Lemma call_okb_ok c : call_okb c = true -> call_ok c.
Proof. unfold call_okb, call_ok, size_ok. intros. bool_prop. lia. Qed.

Lemma grantableb_ok w pg n : grantableb w pg n = true -> grantable w pg n.
Proof.
  unfold grantableb. intros. bool_prop. split; [done|]. split; [done|]. intros p Hp Hm.
  assert (p ∈ pages pg n) as Hin by (unfold pages; by apply elem_of_seqZ).
  rewrite forallb_forall in H0. apply list_elem_of_In in Hin. specialize (H0 p Hin). apply negb_true_iff in H0.
  by rewrite bool_decide_eq_false in H0.
Qed.

(** The values survive what leaves the blocks alone. *)
Lemma vals_keep s w (lv : gmap Z (Z * Z)) : ksys_ok s -> keeps (kw s) w (live s) -> (forall a x, live s !! a = Some x -> lv !! a = Some x) ->
  forall x v, vals s !! x = Some v -> word (words w) x = v /\ exists a size t, lv !! a = Some (size, t) /\ a <= x < a + allocsize size.
Proof.
  intros HK Hw Hl x v Hv. destruct (kk_vals _ HK x v Hv) as (<-&a&size&t&Ha&Hx). split; [by eapply Hw|]. exists a, size, t. split; [by apply Hl|done].
Qed.

Lemma live_insert (lv : gmap Z (Z * Z)) va st : lv !! va = None -> forall a x, lv !! a = Some x -> <[va := st]> lv !! a = Some x.
Proof. intros Hn a x Ha. rewrite lookup_insert_ne; [done|]. congruence. Qed.

Lemma loop_fine c s w : ksys_ok s -> kmem w (live s) -> words w = words (kw s) -> call_ok c ->
  kfine (r ← malloc_loop c w; mret (after_malloc c s r)).
Proof.
  intros HK (own&fl&HI) Ew Hc. destruct (malloc_loop_ok w (live s) own fl c HI Hc) as (r&w'&->&Ew'&_&_&HR). cbn [mbind outcome_bind].
  apply kfine_ret. pose proof (kk_pend _ HK) as Hp.
  assert (forall lv : gmap Z (Z * Z), (forall a x, live s !! a = Some x -> lv !! a = Some x) -> forall x v, vals s !! x = Some v ->
    word (words w') x = v /\ exists a size t, lv !! a = Some (size, t) /\ a <= x < a + allocsize size) as Hv.
  { intros lv Hl. apply (vals_keep s w' lv HK); [|done]. apply keeps_refl. congruence. }
  destruct r as [|va| |n]; cbn [after_malloc].
  - destruct HR as (->&_). split; [by eexists _, _|done|by apply Hv].
  - destruct HR as (_&_&_&Hno&l&_&HI'). split; [by eexists _, _|done|]. apply Hv. by apply live_insert.
  - destruct HR as (HI'&_). split; [by eexists _, _|done|by apply Hv].
  - destruct HR as (->&_). split; [by eexists _, _| |by apply Hv]. apply list.Forall_app. split; [done|by constructor].
Qed.

(** A block that is freed is free, and no sleeper is lost. *)
Lemma call_free_ok a size t s : ksys_ok s -> live s !! a = Some (size, t) -> exists s', call_free a t s = Ok s' /\ ksys_ok s' /\
  live s' = delete a (live s) /\ asleep (kw s') ++ woken (kw s') ≡ₚ asleep (kw s) ++ woken (kw s).
Proof.
  intros HK E. unfold call_free, size_at. rewrite E.
  destruct (free_ok (kw s) (live s) a size t (kk_mem _ HK) E) as (w'&->&HI&Hw&_&Hp). cbn [mbind outcome_bind mret outcome_ret].
  eexists. split; [reflexivity|]. split; [|done].
  split; [done|apply HK|]. cbn [vals kw live]. intros x v (Hv&Hx)%map_lookup_filter_Some. cbn in Hx.
  destruct (kk_vals _ HK x v Hv) as (<-&b&sb&tb&Hb&Hxb).
  assert (b <> a) as Hne by (intros ->; rewrite E in Hb; injection Hb as <- <-; done).
  assert (delete a (live s) !! b = Some (sb, tb)) as Hb' by (by rewrite lookup_delete_ne). split; [by eapply Hw|]. by exists b, sb, tb.
Qed.

Lemma heldb_true a s : heldb a s = true -> live s !! a = Some (size_at a s, type_at a s).
Proof. unfold heldb, size_at, type_at. intros [[size t] ->]%bool_decide_eq_true. done. Qed.

Lemma heldb_false a s : heldb a s = false -> live s !! a = None.
Proof. unfold heldb. intros Hn%bool_decide_eq_false. by apply eq_None_not_Some. Qed.

Lemma kfree_step a s : ksys_ok s -> exists s', kstep (KFree a) s = Ok s' /\ ksys_ok s' /\ live s' = delete a (live s) /\
  asleep (kw s') ++ woken (kw s') ≡ₚ asleep (kw s) ++ woken (kw s).
Proof.
  intros HK. unfold kstep. cbn [kproper kdo]. destruct (heldb a s) eqn:E.
  - by apply (call_free_ok a (size_at a s)), heldb_true.
  - exists s. by rewrite delete_id by (by apply heldb_false).
Qed.

(** What the callers may do keeps the invariant. *)
Lemma kwrite_ok a size t off v s : ksys_ok s -> live s !! a = Some (size, t) -> 0 <= off -> off + 4 <= size -> off mod 4 = 0 ->
  kfine (kdo (KWrite a off v) s).
Proof.
  intros HK E H0 H1 H2. destruct (kk_mem _ HK) as (own&fl&HL&HB&HS). destruct (live_alloc _ _ _ _ _ _ _ HL E) as (_&Hle). cbn [kdo].
  unfold store. rewrite decide_True by (eapply live_mapped; [exact HL|exact E|lia]). cbn [mbind outcome_bind mret outcome_ret]. apply kfine_ret.
  split; cbn [kw live pend vals]; [|apply HK|].
  - exists own, fl. split; [by apply (layout_frame (kw s))|]. split; [|by apply (stats_frame (kw s))].
    destruct HB as [B1 B2]. split; [done|]. intros i b Hb. destruct (B2 i b Hb) as (Hl&R). split; [|done].
    eapply linked_ext; [|exact Hl]. intros x Hx. cbn [words set_words]. rewrite word_insert, decide_False; [done|]. intros ->.
    pose proof (slot_bucket _ _ _ _ HL _ _ (ly_free _ _ _ _ HL _ _ Hx)) as Hi. destruct (small_facts _ Hi) as (?&_).
    apply (free_apart _ _ _ _ HL _ _ a size t (a + off) Hx E); lia.
  - intros x u Hx. cbn [words set_words]. rewrite word_insert. destruct (decide (x = a + off)) as [->|Hne].
    + rewrite lookup_insert_eq in Hx. injection Hx as <-. split; [done|]. exists a, size, t. split; [done|lia].
    + rewrite lookup_insert_ne in Hx by done. by apply HK.
Qed.

Lemma kdo_fine e s : ksys_ok s -> kproper e s = true -> kfine (kdo e s).
Proof.
  intros HK. destruct e as [c|n|n ans|a|a t|a off v]; cbn [kproper].
  - intros Hc%call_okb_ok. cbn [kdo]. unfold malloc.
    rewrite (proj2 (Z.ltb_ge M_LAST _)) by (destruct Hc as (_&?); unfold M_LAST in *; rewrite u32_id; lia).
    apply loop_fine; [done|apply HK|done|done].
  - intros _. cbn [kdo]. destruct (woken (kw s) !! n) as [c|] eqn:E; [|by apply kfine_ret]. destruct (kk_mem _ HK) as (own&fl&HL&HB&HS).
    apply loop_fine; [done| |done|].
    + exists own, fl. split; [by apply (layout_frame (kw s))|]. split; [by apply (lists_frame (kw s))|].
      destruct HS as [S1 S2 S3 S4]. split; [done|done|done|]. cbn [woken set_woken]. by apply Forall_delete.
    + eapply Forall_lookup_1; [apply (st_woken _ _ HS)|done].
  - intros Hg. cbn [kdo]. destruct (pend s !! n) as [c|] eqn:E; [|by apply kfine_ret]. assert (call_ok c) as Hc by (eapply Forall_lookup_1; [apply HK|done]).
    assert (ksys_ok (mkKsys (kw s) (live s) (delete n (pend s)) (vals s))) as HK'.
    { destruct HK as [K1 K2 K3]. split; [done|by apply Forall_delete|done]. }
    destruct ans as [[pg junk]|]; [|by apply kfine_ret]. cbn [kw].
    apply grantableb_ok in Hg. destruct (malloc_mapped_ok (kw s) (live s) c pg junk (kk_mem _ HK) Hc Hg) as (va&w'&->&Hno&HI&Hw&_).
    cbn [mbind outcome_bind after_malloc]. apply kfine_ret. split; [done|apply HK'|].
    apply (vals_keep s w' _ HK Hw). by apply live_insert.
  - intros Hh%heldb_true. destruct (call_free_ok _ _ _ s HK Hh) as (s'&E&HK'&_). by exists s'.
  - intros (Hh%heldb_true&->%Z.eqb_eq)%andb_true_iff. destruct (call_free_ok _ _ _ s HK Hh) as (s'&E&HK'&_). by exists s'.
  - intros (Hh%heldb_true&Hb)%andb_true_iff. bool_prop. by apply (kwrite_ok a _ _ _ _ _ HK Hh).
Qed.

Lemma kstep_fine e s : ksys_ok s -> kfine (kstep e s).
Proof. intros HK. unfold kstep. destruct (kproper e s) eqn:E; [by apply kdo_fine|by apply kfine_ret]. Qed.

Lemma krun_fine evs : forall s, ksys_ok s -> kfine (krun evs s).
Proof.
  induction evs as [|e evs IH]; intros s HK; cbn [krun]; [by apply kfine_ret|].
  destruct (kstep_fine e s HK) as (s'&->&HK'). cbn [mbind outcome_bind]. by apply IH.
Qed.

Lemma kdo_run_fine evs : forall s, ksys_ok s -> kproper_run evs s = true -> kfine (kdo_run evs s).
Proof.
  induction evs as [|e evs IH]; intros s HK; cbn [kdo_run kproper_run]; [by intros _; apply kfine_ret|].
  intros (Hp&HR)%andb_true_iff. destruct (kdo_fine e s HK Hp) as (s'&Es&HK'). rewrite Es in *. cbn [mbind outcome_bind]. by apply IH.
Qed.

Lemma kboot_ok base junk : 0 < base -> base mod NBPG = 0 -> ksys_ok (kboot base junk).
Proof. intros H0 H1. split; [by apply kmeminit_ok|done|]. intros x v Hx. cbn [vals kboot] in Hx. by rewrite lookup_empty in Hx. Qed.

Lemma kdo_run_boot evs base junk : 0 < base -> base mod NBPG = 0 -> kproper_run evs (kboot base junk) = true ->
  kfine (kdo_run evs (kboot base junk)).
Proof. intros H0 H1. by apply kdo_run_fine, kboot_ok. Qed.

Lemma krun_boot evs base junk : 0 < base -> base mod NBPG = 0 -> kfine (krun evs (kboot base junk)).
Proof. intros H0 H1. by apply krun_fine, kboot_ok. Qed.

(** Blocks that are freed one after the other. *)
Lemma kfree_all l : forall s, ksys_ok s -> exists s', krun (map KFree l) s = Ok s' /\ ksys_ok s' /\
  (forall b x, live s' !! b = Some x -> live s !! b = Some x /\ b ∉ l) /\
  asleep (kw s') ++ woken (kw s') ≡ₚ asleep (kw s) ++ woken (kw s).
Proof.
  induction l as [|a l IH]; intros s HK; cbn [map krun].
  - exists s. split; [done|]. split; [done|]. split; [|done]. intros b x Hb. split; [done|apply not_elem_of_nil].
  - destruct (kfree_step a s HK) as (s1&->&HK1&El&Hp1). cbn [mbind outcome_bind]. destruct (IH s1 HK1) as (s2&->&HK2&Hl2&Hp2).
    exists s2. split; [done|]. split; [done|]. split; [|by rewrite Hp2].
    intros b x (Hb&Hn)%Hl2. rewrite El in Hb. apply lookup_delete_Some in Hb as (Hne&Hb). split; [done|].
    rewrite not_elem_of_cons. split; [congruence|done].
Qed.

(** ** Who sleeps *)

(** The blocks of a type. *)
Definition blocks_of (t : Z) (lv : gmap Z (Z * Z)) : list Z :=
  map fst (filter (fun kv => kv.2.2 = t) (map_to_list lv)).

Lemma elem_of_blocks_of t (lv : gmap Z (Z * Z)) a size : lv !! a = Some (size, t) -> a ∈ blocks_of t lv.
Proof.
  intros Ha. unfold blocks_of. apply list_elem_of_fmap. exists (a, (size, t)). split; [done|].
  apply list_elem_of_filter. split; [done|]. by apply elem_of_map_to_list.
Qed.

(** A type at its limit has blocks that are held. *)
Lemma asleep_held s c : ksys_ok s -> c ∈ asleep (kw s) ->
  at_limit (kw s) (mc_type c) /\ exists a size, live s !! a = Some (size, mc_type c).
Proof.
  intros HK Hc. destruct (kk_mem _ HK) as (own&fl&HL&HB&HS). destruct (st_asleep _ _ HS c Hc) as ((_&Ht)&k&Ek&Hle).
  split; [by exists k|]. destruct (decide (blocks_of (mc_type c) (live s) = [])) as [En|En].
  - exfalso. destruct (st_ks _ _ HS _ _ Ek) as (_&Em&El). rewrite Z2Nat.id, used_zero in Em; [|  |lia].
    + rewrite El, Em in Hle. by vm_compute in Hle.
    + intros a size t' Ha ->. apply elem_of_blocks_of in Ha. rewrite En in Ha. by apply elem_of_nil in Ha.
  - destruct (blocks_of (mc_type c) (live s)) as [|a l] eqn:E; [done|].
    assert (a ∈ blocks_of (mc_type c) (live s)) as Ha by (rewrite E; left). unfold blocks_of in Ha.
    apply list_elem_of_fmap in Ha as ([b [size t]]&->&(Et&Hb)%list_elem_of_filter). cbn in Et. subst t. apply elem_of_map_to_list in Hb. by exists b, size.
Qed.
