(* ===== verification/KmallocSpec.v ===== *)
(** * The kernel memory allocator: the properties

    No block overlaps another and nothing is lost from a block; no one sleeps who
    could go on; what becomes of a block that is freed twice; the sizes that malloc
    asks for. *)

From S2P Require Import Prelude Kmalloc KmallocInv KmallocOps KmallocRun.

(** ** Blocks that are freed twice *)

(** All blocks of a page are free just when none is held. *)
Lemma nfree_all w lv own fl i pg : layout w lv own fl -> own !! pg = Some (Small i) ->
  nfree w (fl i) pg = per_page i <-> forall b x, lv !! b = Some x -> page_of w b <> pg.
Proof.
  intros HL Ho. destruct (ly_small _ _ _ _ HL _ _ Ho) as (Hi&_). destruct (small_facts i Hi) as (_&_&Hp&_). split.
  - intros Hn b [sz t] Hb E. destruct (live_alloc _ _ _ _ _ _ _ HL Hb) as (Hsz&_).
    destruct (block_bytes _ _ _ _ HL b sz t b Hb) as (Ho'&_); [lia|]. rewrite E, Ho in Ho'.
    destruct (is_small sz) eqn:Es; [|done]. injection Ho' as ->.
    pose proof (nfree_lt _ _ _ _ HL b sz t Hb Es) as Hlt. rewrite E in Hlt. lia.
  - intros Hno. apply Z.le_antisymm; [by apply (nfree_le _ _ _ _ HL)|].
    assert (fresh_blocks w i pg ⊆+ filter (fun a => page_of w a = pg) (fl i)) as Hsub.
    { apply NoDup_submseteq; [apply NoDup_downs; lia|]. intros a (k&Hk&->)%elem_of_fresh; [|done].
      apply list_elem_of_filter. rewrite slot_page by done. split; [done|].
      destruct (ly_cover _ _ _ _ HL pg i k Ho Hk) as [|(x&Hx)]; [done|]. destruct (Hno _ _ Hx). by apply slot_page. }
    apply submseteq_length in Hsub. unfold fresh_blocks in Hsub. rewrite length_downs in Hsub. unfold nfree. lia.
Qed.

(** The counts go down whoever frees. *)
Lemma ks_less_runs t size w : length (kmemstat w) = 52%nat -> 0 <= t < M_LAST ->
  exists w', ks_less t size w = Ok w' /\ kmembase w' = kmembase w /\ mapped w' = mapped w /\ words w' = words w /\
    bucket w' = bucket w /\ kmemuse w' = kmemuse w.
Proof.
  intros Hl Ht. unfold ks_less, get_ks. rewrite (proj2 (Z.ltb_ge t 0)) by lia. cbn [upd_ks kmemstat set_kmemstat].
  destruct (kmemstat w !! Z.to_nat t) as [k|] eqn:E; [|apply lookup_ge_None in E; unfold M_LAST in Ht; lia].
  rewrite list_lookup_alter_eq, E. cbn [fmap option_fmap option_map deref mbind outcome_bind mret outcome_ret].
  eexists. split; [reflexivity|]. by case_match.
Qed.

(** A block that is linked to itself, at the front of its list. *)
Record looped (w : kmworld) (i a cnt : Z) : Prop := {
  lp_kb : exists b, bucket w !! Z.to_nat i = Some b /\ kb_next b = a;
  lp_word : word (words w) a = a;
  lp_page : page_of w a ∈ mapped w /\ 0 <= page_of w a < npages;
  lp_ku : ku_at w (page_of w a) = mkKu i cnt }.

Lemma take_looped w c a cnt : looped w (BUCKETINDX (mc_size c)) a cnt -> 1 <= cnt < 2 ^ 16 ->
  exists w', malloc_take c w = Ok (MGot a, w') /\ looped w' (BUCKETINDX (mc_size c)) a (cnt - 1).
Proof.
  intros [(b&Eb&En) Ew (Hm&Hp) Eku] Hc. set (i := BUCKETINDX (mc_size c)) in *.
  destruct (bucketindx_least (mc_size c)) as (Hi&_). fold i in Hi.
  unfold malloc_take. fold i. unfold get_kb. rewrite (proj2 (Z.ltb_ge i 0)), Eb by lia. cbn [deref mbind outcome_bind]. rewrite En.
  unfold load. rewrite decide_True, Ew by done. cbn [mbind outcome_bind mret outcome_ret].
  change (btokup a (upd_kb i (set_kb_next a) w)) with (btokup a w). unfold btokup.
  rewrite (proj2 (Z.leb_le 0 _)), (proj2 (Z.ltb_lt _ npages)) by lia. cbn [andb mbind outcome_bind mret outcome_ret].
  change (ku_at (upd_kb i (set_kb_next a) w)) with (ku_at w). rewrite Eku. cbn [ku_indx ku_cnt]. rewrite Z.eqb_refl. cbn [negb].
  rewrite (proj2 (Z.eqb_neq cnt 0)), u16_id by lia. eexists. split; [reflexivity|]. split; [|done|done|].
  - cbn [upd_kb upd_ks set_bucket bucket set_kmemstat set_ku set_kmemuse]. fold i. rewrite !list_lookup_alter_eq, Eb. by eexists.
  - etrans; [apply (ku_at_set (page_of w a))|]. by rewrite decide_True.
Qed.

(** free of a block that is at the front of its list. *)
Lemma free_twice w lv own fl i a l t : kinv w lv own fl -> fl i = a :: l -> 0 <= t < M_LAST ->
  if decide (nfree w (fl i) (page_of w a) = per_page i) then free a t w = Panic "free: multiple frees"
  else exists w', free a t w = Ok w' /\ looped w' i a (nfree w (fl i) (page_of w a) + 1).
Proof.
  intros (HL&HB&HS) Efl Ht. assert (slot w own i a) as Hs by (apply (ly_free _ _ _ _ HL); rewrite Efl; left).
  pose proof (slot_bucket _ _ _ _ HL _ _ Hs) as Hi. pose proof (slot_own _ _ _ _ HL _ _ Hs) as Ho.
  destruct (small_facts i Hi) as (Hi1&_&Hi3&Hsh&Hel). destruct (ly_small _ _ _ _ HL _ _ Ho) as (_&Eku).
  pose proof (nfree_le _ _ _ _ HL _ _ Ho) as Hn. destruct (get_kb_ok w fl i HB) as (b&Eg&Eb); [lia|].
  destruct (ls_kb _ _ HB _ _ Eb) as (Hl&Htf&Hbel). rewrite Z2Nat.id in Hl, Htf, Hbel by lia. rewrite Hel in Hbel.
  rewrite Efl in Hl. cbn [linked] in Hl. destruct Hl as (Enext&_).
  unfold free. rewrite (btokup_ok w lv own fl a _ HL Ho). cbn [mbind outcome_bind]. rewrite Eku. cbn [ku_indx ku_cnt]. rewrite Eg. cbn [mbind outcome_bind].
  rewrite Hsh, s32_id by lia. rewrite (proj2 (Z.ltb_ge MAXALLOCSAVE _)) by (change MAXALLOCSAVE with 4095; lia).
  set (n := nfree w (fl i) (page_of w a)) in *. rewrite u16_id by lia. case_decide as Hall.
  - by rewrite (proj2 (Z.leb_le _ (n + 1))), (proj2 (Z.ltb_lt _ (n + 1))) by lia.
  - set (w1 := set_ku _ _ w).
    destruct (couldfree_ok (n + 1) b i w1) as (g&->); [lia|].
    cbn [mbind outcome_bind]. set (w2 := upd_kb i _ (upd_kb i _ w1)).
    destruct (ks_less_runs t (2 ^ i) w2) as (w3&->&Eb3&Em3&Ew3&Ek3&Eu3); [apply (st_len _ _ HS)|done|]. cbn [mbind outcome_bind].
    set (f := fun b => set_kb_totalfree (s32 (kb_totalfree b + 1)) (set_kb_couldfree (g b) b)).
    assert (bucket w3 !! Z.to_nat i = Some (f b)) as Eb'.
    { rewrite Ek3. unfold w2, w1. cbn [bucket upd_kb set_bucket set_ku set_kmemuse]. by rewrite !list_lookup_alter_eq, Eb. }
    unfold get_kb. rewrite (proj2 (Z.ltb_ge i 0)), Eb' by lia. cbn [deref mbind outcome_bind]. change (kb_next (f b)) with (kb_next b). rewrite Enext.
    assert (page_of w a ∈ mapped w) as Hm by (apply (ly_map _ _ _ _ HL); rewrite Ho; by eexists).
    assert (page_of w3 = page_of w) as Epg by (by apply base_page). unfold store.
    rewrite decide_True by (rewrite Epg, Em3; done). cbn [mbind outcome_bind mret outcome_ret].
    eexists. split; [reflexivity|].
    match goal with |- looped ?w4 _ _ _ => assert (page_of w4 = page_of w) as Epg4 by (by apply base_page) end.
    split; rewrite ?Epg4.
    + cbn [upd_kb set_bucket bucket set_words]. rewrite list_lookup_alter_eq, Eb'. by eexists.
    + cbn [upd_kb set_bucket words set_words]. by rewrite word_insert, decide_True.
    + cbn [upd_kb set_bucket mapped set_words]. rewrite Em3. split; [exact Hm|by eapply ly_range].
    + unfold ku_at. cbn [kmemuse upd_kb set_bucket set_words]. rewrite Eu3. etrans; [apply (ku_at_set (page_of w a))|]. by rewrite decide_True.
Qed.

(** A large block that is free: its page looks like one of the first bucket. *)
Lemma free_unmapped w lv own fl p0 t : kinv w lv own fl -> 0 <= p0 < npages -> ku_at w p0 = mkKu 0 0 -> own !! p0 = None ->
  0 <= t < M_LAST -> free (addr_of w p0) t w = Fault.
Proof.
  intros (HL&HB&HS) Hp Eku Ho Ht. destruct (get_kb_ok w fl 0 HB) as (b&Eg&Eb); [lia|].
  destruct (ls_kb _ _ HB _ _ Eb) as (_&_&Hel). change (kb_elmpercl (init_kb (Z.of_nat (Z.to_nat 0)))) with 4096 in Hel.
  unfold free, btokup. rewrite page_of_addr0, (proj2 (Z.leb_le 0 p0)), (proj2 (Z.ltb_lt p0 npages)) by lia.
  cbn [andb mbind outcome_bind mret outcome_ret]. rewrite Eku. cbn [ku_indx ku_cnt]. rewrite Eg. cbn [mbind outcome_bind].
  change (MAXALLOCSAVE <? s32 (Z.shiftl 1 0)) with false. rewrite Hel. change (4096 <=? u16 (0 + 1)) with false. cbn [mbind outcome_bind mret outcome_ret].
  set (w1 := upd_kb 0 _ _). destruct (ks_less_runs t (s32 (Z.shiftl 1 0)) w1) as (w3&->&Eb3&Em3&_&Ek3&_); [apply (st_len _ _ HS)|done|].
  cbn [mbind outcome_bind]. unfold get_kb. cbn [Z.ltb Z.compare]. rewrite Ek3. unfold w1. cbn [bucket upd_kb set_bucket set_ku set_kmemuse].
  rewrite list_lookup_alter_eq, Eb. cbn [fmap option_fmap option_map deref mbind outcome_bind]. unfold store.
  rewrite (base_page w w3), page_of_addr0 by done. rewrite decide_False; [done|]. rewrite Em3. change (mapped w1) with (mapped w).
  rewrite (ly_map _ _ _ _ HL), Ho. by intros [].
Qed.

(** ** Sizes *)

(** A size that is rounded up to pages. *)
Lemma allocsize_pages size n : MAXALLOCSAVE < size -> (n - 1) * NBPG < size <= n * NBPG -> n < 2 ^ 20 ->
  allocsize size = s32 (n * NBPG) /\ npg size = n.
Proof.
  intros Hs Hn Hb. unfold npg. change MAXALLOCSAVE with 4095 in Hs.
  assert (allocsize size = s32 (n * NBPG)) as Ea.
  { unfold allocsize. change MAXALLOCSAVE with 4095. rewrite (proj2 (Z.ltb_lt 4095 size)) by done. change CLBYTES with NBPG. unfold roundup. f_equal.
    change (NBPG - 1) with 4095. unfold NBPG in *. rewrite (u32_id (size + 4095)) by lia.
    assert ((size + 4095) / 4096 = n) as ->; [symmetry; apply (Z.div_unique _ _ n (size + 4095 - 4096 * n)); lia|]. apply u32_id. lia. }
  split; [done|]. rewrite Ea. rewrite <- (btoc_pages n) at 2; [|unfold NBPG in *; lia].
  unfold btoc. f_equal. f_equal. f_equal. unfold u32, wrapu, s32, wraps. rewrite Zminus_mod_idemp_l. f_equal. lia.
Qed.

Lemma allocsize_wraps size : 2 ^ 32 - NBPG < size < 2 ^ 32 -> allocsize size = 0 /\ npg size = 0.
Proof.
  intros Hs. assert (allocsize size = 0) as Ea; [|unfold npg; by rewrite Ea].
  unfold allocsize. change MAXALLOCSAVE with 4095. unfold NBPG in Hs. rewrite (proj2 (Z.ltb_lt 4095 size)) by lia.
  change CLBYTES with 4096. unfold roundup. change (4096 - 1) with 4095.
  assert (u32 (size + 4095) = size + 4095 - 2 ^ 32) as ->.
  { unfold u32, wrapu. symmetry. apply (Z.mod_unique _ _ 1); lia. }
  rewrite (Z.div_small _ 4096) by lia. done.
Qed.

(** Nothing is free and no type is at its limit when the kernel starts. *)
Lemma boot_map c base junk : 0 <= mc_size c -> 0 <= mc_type c < M_LAST ->
  malloc c (kmeminit base junk) = Ok (MMap (npg (mc_size c)), kmeminit base junk).
Proof.
  intros H0 Ht. unfold malloc, M_LAST in *. rewrite (proj2 (Z.ltb_ge 52 _)) by (rewrite u32_id; lia).
  unfold malloc_loop, get_ks. rewrite (proj2 (Z.ltb_ge (mc_type c) 0)) by lia. cbn [kmeminit kmemstat].
  rewrite lookup_replicate_2 by (change (Z.to_nat M_LAST) with 52%nat; lia). cbn [deref mbind outcome_bind].
  change (ks_limit init_ks <=? ks_memuse init_ks) with false. cbv iota.
  destruct (bucketindx_least (mc_size c)) as (Hi&_). unfold get_kb. rewrite (proj2 (Z.ltb_ge (BUCKETINDX _) 0)) by lia. cbn [kmeminit bucket].
  rewrite list_lookup_fmap, (lookup_seqZ_lt _ _ (Z.to_nat (BUCKETINDX (mc_size c)))) by (change (MINBUCKET + 16) with 20; lia). done.
Qed.

Lemma pages_up size : 0 <= size -> exists n, (n - 1) * NBPG < size <= n * NBPG.
Proof.
  intros H. unfold NBPG. exists ((size + 4095) / 4096). pose proof (Z.div_mod (size + 4095) 4096 ltac:(lia)).
  pose proof (Z.mod_pos_bound (size + 4095) 4096 ltac:(lia)). lia.
Qed.

Lemma allocsize_holds size : 0 <= size <= 2 ^ 31 - NBPG -> size <= allocsize size <= npg size * NBPG.
Proof.
  intros Hs. destruct (Z.le_gt_cases size 4095) as [Hle|Hgt].
  - destruct (bucketindx_least size) as (Hi&Hu&Hl).
    assert (allocsize size = 2 ^ BUCKETINDX size) as Ea.
    { unfold allocsize. change MAXALLOCSAVE with 4095. rewrite (proj2 (Z.ltb_ge 4095 size)) by lia. apply Z.shiftl_1_l. }
    assert (BUCKETINDX size <= 12) as Hi2.
    { destruct Hl as [->|Hl]; [lia|]. destruct (Z.le_gt_cases (BUCKETINDX size) 12) as [|Hgt]; [done|].
      pose proof (Z.pow_le_mono_r 2 12 (BUCKETINDX size - 1) ltac:(lia) ltac:(lia)). lia. }
    assert (16 <= 2 ^ BUCKETINDX size <= 4096) as Hr.
    { split; [apply (Z.pow_le_mono_r 2 4); lia|apply (Z.pow_le_mono_r 2 _ 12); lia]. }
    split; [rewrite Ea; apply Hu; lia|]. unfold npg, btoc. rewrite Ea, (u32_id (2 ^ _)) by lia. unfold NBPG. rewrite u32_id by lia.
    rewrite Z.shiftr_div_pow2 by done. change (2 ^ PGSHIFT) with 4096.
    assert ((2 ^ BUCKETINDX size + (4096 - 1)) / 4096 = 1) as ->; [|lia].
    symmetry. apply (Z.div_unique _ _ _ (2 ^ BUCKETINDX size - 1)); lia.
  - destruct (pages_up size) as (n&Hn); [lia|]. unfold NBPG in Hs, Hn.
    destruct (allocsize_pages size n) as (->&->); [done|done|lia|]. unfold NBPG. rewrite s32_id by lia. lia.
Qed.

(** ** The properties *)

(** C5. However calls of malloc and free mix, in whatever order the calls that sleep
    go on and whatever kmem_malloc leaves in its pages: if each size asked for is at
    most 2^32 - 4096 and each type below M_LAST, if what is freed is held and freed
    with its type, if holders write whole words inside their blocks, and if kmem_malloc
    answers 0 or pages of kmem_map that are not handed out (kproper_run), then nothing
    panics and nothing outside those pages is touched.  A block has at least the bytes
    asked for, lies in the map at a multiple of its size (of a page, when it is
    larger), and overlaps no other; every word that its holder has written is there
    until it is freed; and ks_inuse and ks_memuse of a type are the number of its
    blocks and the bytes they take.  (What larger sizes and bad frees do is
    kmem_request's and double_free's to say.) *)
Theorem kmem_safe evs base junk : 0 < base -> base mod NBPG = 0 -> kproper_run evs (kboot base junk) = true ->
  exists s, kdo_run evs (kboot base junk) = Ok s /\
    (forall a size t, live s !! a = Some (size, t) -> size <= allocsize size /\ kmembase (kw s) <= a /\
      a + allocsize size <= kmembase (kw s) + VM_KMEM_SIZE /\ a mod Z.min (allocsize size) NBPG = 0) /\
    (forall a b sa ta sb tb x, live s !! a = Some (sa, ta) -> live s !! b = Some (sb, tb) ->
      a <= x < a + allocsize sa -> b <= x < b + allocsize sb -> a = b) /\
    (forall x v, vals s !! x = Some v -> word (words (kw s)) x = v) /\
    (forall t k, kmemstat (kw s) !! t = Some k ->
      ks_inuse k = held (Z.of_nat t) (live s) /\ ks_memuse k = used (Z.of_nat t) (live s)).
Proof.
  intros H0 H1 H2. destruct (kdo_run_boot evs base junk H0 H1 H2) as (s&->&HK). exists s. split; [done|].
  destruct (kk_mem _ HK) as (own&fl&HL&HB&HS). split; [|split; [|split]].
  - intros a size t Ha. split; [by eapply live_alloc|by eapply live_place].
  - intros a b sa ta sb tb x. by apply (blocks_apart _ _ _ _ HL).
  - intros x v Hx. by apply (kk_vals _ HK).
  - intros t k Hk. destruct (st_ks _ _ HS t k Hk) as (->&->&_).
    assert (0 <= held (Z.of_nat t) (live s) <= used (Z.of_nat t) (live s)).
    { apply held_used. intros a size t' Ha. by eapply live_alloc. }
    pose proof (used_bound _ _ _ _ (Z.of_nat t) HL) as Hu. change (npages * NBPG) with 16777216 in Hu. rewrite !s32_id by lia. done.
Qed.

Definition safe_run : list kevent :=
  [KMalloc (mkCall 100 1 0); KMapped 0 (Some (3, ∅)); KWrite 20352 4 7; KMalloc (mkCall 5000 2 0); KMapped 0 (Some (5, ∅));
   KMalloc (mkCall 120 1 0); KFreeAs 24576 2].

Lemma kmem_safe_witness : exists s, kdo_run safe_run (kboot NBPG ∅) = Ok s /\
  live s !! 20352 = Some (100, 1) /\ live s !! 20224 = Some (120, 1) /\ live s !! 24576 = None /\ word (words (kw s)) 20356 = 7.
Proof.
  destruct (kmem_safe safe_run NBPG ∅ ltac:(done) ltac:(done) ltac:(by vm_compute)) as (s&E&_&_&Hv&_). exists s. split; [exact E|].
  assert (from_run (None, None, Some (0, 0), None) (fun s => (live s !! 20352, live s !! 20224, live s !! 24576, vals s !! 20356)) (kdo_run safe_run (kboot NBPG ∅)) = (Some (100, 1), Some (120, 1), None, Some 7)) as HE by (by vm_compute).
  rewrite E in HE. cbn [from_run] in HE. injection HE as H1 H2 H3 H4. do 3 (split; [done|]). by apply Hv.
Defined.

(** C33. A call that sleeps in malloc has not missed its wakeup: its type is at its
    limit and has blocks that are held, and when these are freed, in any state a run
    of the kernel gets to, the call is woken. *)
Theorem kmem_wakeup evs base junk s c : 0 < base -> base mod NBPG = 0 -> krun evs (kboot base junk) = Ok s -> c ∈ asleep (kw s) ->
  at_limit (kw s) (mc_type c) /\ (exists a size, live s !! a = Some (size, mc_type c)) /\
  exists s', krun (map KFree (blocks_of (mc_type c) (live s))) s = Ok s' /\ c ∈ woken (kw s').
Proof.
  intros H0 H1 E Hc. destruct (krun_boot evs base junk H0 H1) as (s0&E0&HK). rewrite E in E0. injection E0 as <-.
  split; [|split].
  - by apply (asleep_held s c HK).
  - by apply (asleep_held s c HK).
  - destruct (kfree_all (blocks_of (mc_type c) (live s)) s HK) as (s'&->&HK'&Hl&Hp). exists s'. split; [done|].
    assert (c ∈ asleep (kw s') ++ woken (kw s')) as [Ha|]%elem_of_app by (rewrite Hp; apply elem_of_app; by left); [|done].
    exfalso. destruct (asleep_held s' c HK' Ha) as (_&a&size&Hb). apply Hl in Hb as (Hb&Hn). by apply Hn, elem_of_blocks_of with size.
Qed.

Definition full_run : list kevent := [KMalloc (mkCall 10070000 1 0); KMapped 0 (Some (3, ∅)); KMalloc (mkCall 100 1 0)].

Lemma kmem_wakeup_witness : exists s s', krun full_run (kboot NBPG ∅) = Ok s /\ asleep (kw s) = [mkCall 100 1 0] /\
  krun (map KFree (blocks_of 1 (live s))) s = Ok s' /\ mkCall 100 1 0 ∈ woken (kw s').
Proof.
  destruct (krun_boot full_run NBPG ∅ ltac:(done) ltac:(done)) as (s&E&_).
  assert (from_run [] (fun s => asleep (kw s)) (krun full_run (kboot NBPG ∅)) = [mkCall 100 1 0]) as HE by (by vm_compute).
  rewrite E in HE. cbn [from_run] in HE.
  destruct (kmem_wakeup full_run NBPG ∅ s (mkCall 100 1 0) ltac:(done) ltac:(done) E) as (_&_&s'&E'&Hw); [rewrite HE; left|].
  exists s, s'. split_and!; assumption.
Defined.

(** C26. A block that is freed twice.  A large one: the second free takes
    its page for one of the first bucket and writes to memory that is gone.  A small
    one: free panics when no other block of the page is held; otherwise it returns,
    the block is linked to itself, and malloc gives it out at least twice. *)
Theorem double_free w lv a size t : kmem w lv -> lv !! a = Some (size, t) ->
  exists w1, free a t w = Ok w1 /\
    if is_small size then
      ((forall b x, delete a lv !! b = Some x -> page_of w b <> page_of w a) -> free a t w1 = Panic "free: multiple frees") /\
      (forall b x, delete a lv !! b = Some x -> page_of w b = page_of w a ->
        exists w2, free a t w1 = Ok w2 /\ word (words w2) a = a /\
          forall c, BUCKETINDX (mc_size c) = BUCKETINDX size ->
            exists w3 w4, malloc_take c w2 = Ok (MGot a, w3) /\ malloc_take c w3 = Ok (MGot a, w4))
    else free a t w1 = Fault.
Proof.
  intros (own&fl&HK) Ha. pose proof HK as (HL&_). destruct (ly_live _ _ _ _ HL _ _ _ Ha) as (Hok&Ht&Hb). unfold block in Hb. destruct (is_small size) eqn:Es.
  - destruct (free_small w lv own fl a size t HK Ha Es) as (w1&->&HK1&_&Eb&_). exists w1. split; [done|].
    pose proof HK1 as (HL1&_). set (i := BUCKETINDX size) in *. set (fl1 := fset i (a :: fl i) fl) in *.
    assert (fl1 i = a :: fl i) as Ef by apply fset_eq. pose proof (free_twice w1 _ own fl1 i a (fl i) t HK1 Ef Ht) as HT.
    assert (own !! page_of w1 a = Some (Small i)) as Ho by (apply (slot_own _ _ _ _ HL1), (ly_free _ _ _ _ HL1); rewrite Ef; left).
    pose proof (nfree_all _ _ _ _ i _ HL1 Ho) as Hall. rewrite (base_page w w1 Eb) in *. split.
    + intros Hno. rewrite decide_True in HT by (by apply Hall). done.
    + intros b x Hb' Epg. rewrite decide_False in HT by (intros Hn; apply (proj1 Hall Hn b x Hb' Epg)). destruct HT as (w2&->&HP).
      exists w2. split; [done|]. split; [apply HP|]. intros c Ec.
      pose proof (nfree_le _ _ _ _ HL1 _ _ Ho) as Hn. destruct (ly_small _ _ _ _ HL1 _ _ Ho) as (Hi&_). destruct (small_facts i Hi) as (_&_&Hpp&_).
      assert (1 <= nfree w1 (fl1 i) (page_of w a)).
      { rewrite Ef. unfold nfree. rewrite filter_cons_True by (by rewrite (base_page w w1 Eb)). cbn [length]. lia. }
      set (n := nfree w1 (fl1 i) (page_of w a)) in *. rewrite <- Ec in HP.
      destruct (take_looped w2 c a _ HP) as (w3&E3&HP3); [lia|]. destruct (take_looped w3 c a _ HP3) as (w4&E4&_); [lia|]. by exists w3, w4.
  - destruct (free_large w lv own fl a size t HK Ha Es) as (w1&->&(p0&Ep&Eku&HK1)&_&Eb&_). exists w1. split; [done|].
    destruct Hb as (q&Eq&Hn&_&Hown). assert (q = p0) as -> by (rewrite Ep in Eq; unfold addr_of, NBPG in Eq; lia).
    destruct (large_size size Hok Es Hn) as (_&_&_&Hn1&_).
    rewrite Ep, <- (base_addr w w1 Eb). eapply free_unmapped; [exact HK1| |done| |done].
    + eapply (ly_range _ _ _ _ HL), Hown. lia.
    + rewrite lookup_disown_pages. by rewrite decide_True by lia.
Qed.

Definition twice_run : list kevent := [KMalloc (mkCall 2048 1 0); KMapped 0 (Some (3, ∅)); KMalloc (mkCall 2048 1 0)].

(** Two blocks share a page; the second one is freed twice. *)
Lemma double_free_witness : exists s w1 w2 w3 w4, krun twice_run (kboot NBPG ∅) = Ok s /\ free 18432 1 (kw s) = Ok w1 /\
  free 18432 1 w1 = Ok w2 /\ malloc_take (mkCall 1500 3 0) w2 = Ok (MGot 18432, w3) /\ malloc_take (mkCall 1500 3 0) w3 = Ok (MGot 18432, w4).
Proof.
  destruct (krun_boot twice_run NBPG ∅ ltac:(done) ltac:(done)) as (s&E&HK).
  assert (from_run (None, None, 0, 0) (fun s => (live s !! 18432, live s !! 16384, page_of (kw s) 18432, page_of (kw s) 16384)) (krun twice_run (kboot NBPG ∅)) = (Some (2048, 1), Some (2048, 1), 3, 3)) as HE by (by vm_compute).
  rewrite E in HE. cbn [from_run] in HE. injection HE as H1 H2 H3 H4.
  destruct (double_free (kw s) (live s) 18432 2048 1 (kk_mem _ HK) H1) as (w1&E1&_&HD).
  destruct (HD 16384 (2048, 1)) as (w2&E2&_&HT); [by rewrite lookup_delete_ne|congruence|].
  destruct (HT (mkCall 1500 3 0) eq_refl) as (w3&w4&E3&E4). exists s, w1, w2, w3, w4. split_and!; assumption.
Defined.

(** C36. The bucket of a size is the least power of two from 16 to 2^19 that
    holds it.  The first call of malloc asks kmem_malloc for pages that hold the size
    whenever its rounding up does not pass 2^32; but from 2^31 the size it goes on
    with is negative, and a size in the last page below 2^32 wraps around to 0: malloc
    asks for no pages at all. *)
Theorem kmem_request c base junk : 0 <= mc_size c < 2 ^ 32 -> 0 <= mc_type c < M_LAST ->
  malloc c (kmeminit base junk) = Ok (MMap (npg (mc_size c)), kmeminit base junk) /\
  4 <= BUCKETINDX (mc_size c) <= 19 /\
  (mc_size c <= 2 ^ 19 -> mc_size c <= 2 ^ BUCKETINDX (mc_size c)) /\
  (BUCKETINDX (mc_size c) = 4 \/ 2 ^ (BUCKETINDX (mc_size c) - 1) < mc_size c) /\
  (mc_size c <= 2 ^ 31 - NBPG -> mc_size c <= allocsize (mc_size c) <= npg (mc_size c) * NBPG) /\
  (2 ^ 31 - NBPG < mc_size c <= 2 ^ 32 - NBPG -> allocsize (mc_size c) < 0 /\ mc_size c <= npg (mc_size c) * NBPG) /\
  (2 ^ 32 - NBPG < mc_size c -> allocsize (mc_size c) = 0 /\ npg (mc_size c) = 0).
Proof.
  intros Hs Ht. split; [apply boot_map; [lia|done]|]. destruct (bucketindx_least (mc_size c)) as (?&?&?). do 3 (split; [done|]). set (size := mc_size c) in *.
  split; [|split].
  - intros Hle. apply allocsize_holds. lia.
  - intros Hr. destruct (pages_up size) as (n&Hn); [lia|]. unfold NBPG in *.
    destruct (allocsize_pages size n) as (->&->); [change MAXALLOCSAVE with 4095; lia|done|unfold NBPG; lia|]. split; [|lia].
    unfold NBPG. assert (s32 (n * 4096) = n * 4096 - 2 ^ 32) as ->; [|lia]. unfold s32, wraps.
    assert ((n * 4096 + 2 ^ (32 - 1)) mod 2 ^ 32 = n * 4096 - 2 ^ 31) as ->; [|lia]. symmetry. apply (Z.mod_unique _ _ 1); lia.
  - intros Hr. apply allocsize_wraps. lia.
Qed.

Lemma kmem_request_witness : malloc (mkCall (2 ^ 32 - 1) 1 0) (kmeminit NBPG ∅) = Ok (MMap 0, kmeminit NBPG ∅).
Proof.
  destruct (kmem_request (mkCall (2 ^ 32 - 1) 1 0) NBPG ∅ ltac:(done) ltac:(done)) as (E&_&_&_&_&_&H0).
  rewrite E. by destruct (H0 ltac:(done)) as (_&->).
Defined.
