(* ===== verification/NameCache.v ===== *)
(** * The name cache

    vfs_cache.c: names found in directories, on hash chains and on one list in the
    order of their last use.  A vnode has an id, an entry the ids that its directory
    and its vnode had; to forget all that is known of a vnode it gets a new id.
    Vnodes are never freed.  An entry that is on no chain is linked to itself. *)

From S2P Require Import Prelude Kmalloc.

Definition ENOENT : Z := 2.
Definition NCHNAMLEN : Z := 31.

Definition LOOKUP : Z := 0.
Definition CREATE : Z := 1.
Definition DELETE : Z := 2.
Definition OPMASK : Z := 3.

(** ** The data *)

Record vnode := mkVnode { v_id : Z; v_mount : loc }.

(** [nc_name] is the name with its length. *)
Record namecache := mkNc {
  nc_dvp : option loc;
  nc_dvpid : Z;
  nc_vp : option loc;
  nc_vpid : Z;
  nc_name : list Z }.

Record nchstats := mkStats {
  ncs_goodhits : Z;
  ncs_neghits : Z;
  ncs_badhits : Z;
  ncs_falsehits : Z;
  ncs_miss : Z;
  ncs_long : Z }.

(** What namei and the file systems pass: [ni_ptr] is the name with its length. *)
Record nameidata := mkNd {
  ni_nameiop : Z;
  ni_dvp : loc;
  ni_ptr : list Z;
  ni_hash : Z;
  ni_makeentry : bool;
  ni_vp : option loc }.

Definition set_ni_makeentry (v : bool) (n : nameidata) : nameidata :=
  mkNd (ni_nameiop n) (ni_dvp n) (ni_ptr n) (ni_hash n) v (ni_vp n).
Definition set_ni_vp (v : option loc) (n : nameidata) : nameidata :=
  mkNd (ni_nameiop n) (ni_dvp n) (ni_ptr n) (ni_hash n) (ni_makeentry n) v.

(** [nchashtbl]: the chains; [lru]: the list from [nchhead] to [nchtail]. *)
Record ncworld := mkNcw {
  vnodes : gmap loc vnode;
  ents : gmap loc namecache;
  nchashtbl : list (list loc);
  nchash : Z;
  numcache : Z;
  lru : list loc;
  nchstat : nchstats;
  doingcache : bool;
  desiredvnodes : Z;
  nextvnodeid : Z }.

Definition set_vnodes (v : gmap loc vnode) (w : ncworld) : ncworld :=
  mkNcw v (ents w) (nchashtbl w) (nchash w) (numcache w) (lru w) (nchstat w) (doingcache w) (desiredvnodes w) (nextvnodeid w).
Definition set_ents (v : gmap loc namecache) (w : ncworld) : ncworld :=
  mkNcw (vnodes w) v (nchashtbl w) (nchash w) (numcache w) (lru w) (nchstat w) (doingcache w) (desiredvnodes w) (nextvnodeid w).
Definition set_tbl (v : list (list loc)) (w : ncworld) : ncworld :=
  mkNcw (vnodes w) (ents w) v (nchash w) (numcache w) (lru w) (nchstat w) (doingcache w) (desiredvnodes w) (nextvnodeid w).
Definition set_numcache (v : Z) (w : ncworld) : ncworld :=
  mkNcw (vnodes w) (ents w) (nchashtbl w) (nchash w) v (lru w) (nchstat w) (doingcache w) (desiredvnodes w) (nextvnodeid w).
Definition set_lru (v : list loc) (w : ncworld) : ncworld :=
  mkNcw (vnodes w) (ents w) (nchashtbl w) (nchash w) (numcache w) v (nchstat w) (doingcache w) (desiredvnodes w) (nextvnodeid w).
Definition set_nextvnodeid (v : Z) (w : ncworld) : ncworld :=
  mkNcw (vnodes w) (ents w) (nchashtbl w) (nchash w) (numcache w) (lru w) (nchstat w) (doingcache w) (desiredvnodes w) v.
Definition upd_stat (f : nchstats -> nchstats) (w : ncworld) : ncworld :=
  mkNcw (vnodes w) (ents w) (nchashtbl w) (nchash w) (numcache w) (lru w) (f (nchstat w)) (doingcache w) (desiredvnodes w) (nextvnodeid w).

Definition goodhit (s : nchstats) : nchstats :=
  mkStats (s32 (ncs_goodhits s + 1)) (ncs_neghits s) (ncs_badhits s) (ncs_falsehits s) (ncs_miss s) (ncs_long s).
Definition neghit (s : nchstats) : nchstats :=
  mkStats (ncs_goodhits s) (s32 (ncs_neghits s + 1)) (ncs_badhits s) (ncs_falsehits s) (ncs_miss s) (ncs_long s).
Definition badhit (s : nchstats) : nchstats :=
  mkStats (ncs_goodhits s) (ncs_neghits s) (s32 (ncs_badhits s + 1)) (ncs_falsehits s) (ncs_miss s) (ncs_long s).
Definition falsehit (s : nchstats) : nchstats :=
  mkStats (ncs_goodhits s) (ncs_neghits s) (ncs_badhits s) (s32 (ncs_falsehits s + 1)) (ncs_miss s) (ncs_long s).
Definition miss (s : nchstats) : nchstats :=
  mkStats (ncs_goodhits s) (ncs_neghits s) (ncs_badhits s) (ncs_falsehits s) (s32 (ncs_miss s + 1)) (ncs_long s).
Definition longname (s : nchstats) : nchstats :=
  mkStats (ncs_goodhits s) (ncs_neghits s) (ncs_badhits s) (ncs_falsehits s) (ncs_miss s) (s32 (ncs_long s + 1)).

(** ** The lists *)

Definition without (x : loc) (l : list loc) : list loc := filter (fun y => y <> x) l.

(** [remque]: an entry that is linked to itself stays so. *)
Definition unchain (x : loc) (w : ncworld) : ncworld := set_tbl (map (without x) (nchashtbl w)) w.
Definition chain_of (h : Z) (w : ncworld) : nat := Z.to_nat (Z.land h (nchash w)).
Definition get_chain (h : Z) (w : ncworld) : outcome (list loc) := deref (nchashtbl w !! chain_of h w).

(** To the end of the list of last use, if not already there. *)
Definition lru_touch (x : loc) (w : ncworld) : ncworld :=
  if decide (list.last (lru w) = Some x) then w else set_lru (without x (lru w) ++ [x]) w.

(** Off the list, and in again at its head: the code writes through [nchhead],
    which is null when the list has no other entry. *)
Definition lru_front (x : loc) (w : ncworld) : outcome ncworld :=
  match without x (lru w) with
  | [] => Fault
  | l => mret (set_lru (x :: l) w)
  end.

(** ** Operations *)

(** The hash that lookup computes of a name. *)
Definition name_hash (name : list Z) : Z := fold_left (fun h c => u32 (h + u8 c)) name 0.

(** The test of the loop of cache_lookup. *)
Definition nc_match (e : namecache) (n : nameidata) (w : ncworld) : outcome bool :=
  if decide (nc_dvp e = Some (ni_dvp n)) then
    d ← deref (vnodes w !! ni_dvp n);
    mret ((nc_dvpid e =? v_id d) && bool_decide (nc_name e = ni_ptr n))
  else mret false.

Fixpoint nc_scan (l : list loc) (n : nameidata) (w : ncworld) : outcome (option (loc * namecache)) :=
  match l with
  | [] => mret None
  | x :: l => e ← deref (ents w !! x); m ← nc_match e n w; if (m : bool) then mret (Some (x, e)) else nc_scan l n w
  end.

(** The end of cache_lookup: the entry goes. *)
Definition nc_drop (x : loc) (n : nameidata) (w : ncworld) : outcome (Z * nameidata * ncworld) :=
  w ← lru_front x (unchain x w); mret (0, n, w).

Definition cache_lookup (n : nameidata) (w : ncworld) : outcome (Z * nameidata * ncworld) :=
  if negb (doingcache w) then mret (0, n, w)
  else if NCHNAMLEN <? Z.of_nat (length (ni_ptr n)) then mret (0, set_ni_makeentry false n, upd_stat longname w)
  else
    l ← get_chain (ni_hash n) w;
    r ← nc_scan l n w;
    match r with
    | None => mret (0, n, upd_stat miss w)
    | Some (x, e) =>
        if negb (ni_makeentry n) then nc_drop x n (upd_stat badhit w)
        else
          match nc_vp e with
          | None =>
              if negb (Z.land (ni_nameiop n) OPMASK =? CREATE) then mret (ENOENT, n, lru_touch x (upd_stat neghit w))
              else nc_drop x n w
          | Some vp =>
              v ← deref (vnodes w !! vp);
              if negb (nc_vpid e =? v_id v) then nc_drop x n (upd_stat falsehit w)
              else mret (- 1, set_ni_vp (Some vp) n, lru_touch x (upd_stat goodhit w))
          end
    end.

(** A slot for a new entry: one more, or the one unused for longest, or none. *)
Definition nc_slot (w : ncworld) : option (loc * ncworld) :=
  if numcache w <? desiredvnodes w then
    let x := new_loc (ents w) in
    Some (x, set_numcache (s32 (numcache w + 1)) w)
  else
    match lru w with
    | x :: l => Some (x, unchain x (set_lru l w))
    | [] => None
    end.

Definition cache_enter (n : nameidata) (w : ncworld) : outcome ncworld :=
  if negb (doingcache w) then mret w
  else
    match nc_slot w with
    | None => mret w
    | Some (x, w) =>
        vpid ← match ni_vp n with Some vp => v ← deref (vnodes w !! vp); mret (v_id v) | None => mret 0 end;
        d ← deref (vnodes w !! ni_dvp n);
        if NCHNAMLEN <? Z.of_nat (length (ni_ptr n)) then Fault
        else
          let w := set_ents (<[x := mkNc (Some (ni_dvp n)) (v_id d) (ni_vp n) vpid (ni_ptr n)]> (ents w)) w in
          let w := set_lru (lru w ++ [x]) w in
          l ← get_chain (ni_hash n) w;
          mret (set_tbl (<[chain_of (ni_hash n) w := x :: l]> (nchashtbl w)) w)
    end.

(** *** nchinit *)

(** The loop of nchinit, for [n] heads. *)
Fixpoint nchash_loop (fuel : nat) (h n : Z) : option Z :=
  match fuel with
  | O => None
  | S fuel => if h <=? n then nchash_loop fuel (u32 (Z.shiftl h 1)) n else Some h
  end.

(** The size in bytes of the table. *)
Definition nchashsize (desired : Z) : Z := s32 (roundup (u32 (u32 (desired + 1) * 8) / 2) CLBYTES).

(** There is no vnode yet. *)
Definition nchinit (desired : Z) : outcome ncworld :=
  h ← deref (nchash_loop 32 1 (u32 (nchashsize desired) / 8));
  let mask := u32 (Z.shiftr h 1 - 1) in
  mret (mkNcw ∅ ∅ (replicate (Z.to_nat (mask + 1)) []) mask 0 [] (mkStats 0 0 0 0 0 0) true desired 0).

(** *** Purging *)

Definition set_v_id (v : loc) (id : Z) (w : ncworld) : ncworld :=
  set_vnodes (alter (fun x => mkVnode id (v_mount x)) v (vnodes w)) w.

(** All entries on a chain forget their ids. *)
Definition forget_ids (e : namecache) : namecache := mkNc (nc_dvp e) 0 (nc_vp e) 0 (nc_name e).
Definition forget_all (w : ncworld) : ncworld :=
  set_ents (foldr (alter forget_ids) (ents w) (concat (nchashtbl w))) w.

Definition cache_purge (vp : loc) (w : ncworld) : outcome ncworld :=
  _ ← deref (vnodes w !! vp);
  let w := set_nextvnodeid (u32 (nextvnodeid w + 1)) w in
  let w := set_v_id vp (nextvnodeid w) w in
  if negb (nextvnodeid w =? 0) then mret w
  else
    let w := forget_all w in
    let w := set_nextvnodeid (u32 (nextvnodeid w + 1)) w in
    mret (set_v_id vp (nextvnodeid w) w).

(** What getnewvnode does to the cache: [v] is a vnode it has just allocated and
    cleared, or takes from the free list; insmntque gives it to [mp]. *)
Definition renew_vnode (v mp : loc) (w : ncworld) : outcome ncworld :=
  let w := match vnodes w !! v with None => set_vnodes (<[v := mkVnode 0 mp]> (vnodes w)) w | Some _ => w end in
  w ← cache_purge v w;
  mret (set_vnodes (alter (fun x => mkVnode (v_id x) mp) v (vnodes w)) w).

(** The loop of cache_purgevfs: [cur] is the list from [ncp] on; after an entry
    that goes, it starts again at what is then the head. *)
Fixpoint purgevfs_loop (fuel : nat) (mp : loc) (cur : list loc) (w : ncworld) : outcome ncworld :=
  match fuel with
  | O => Fault
  | S fuel =>
      match cur with
      | [] => mret w
      | x :: cur =>
          e ← deref (ents w !! x);
          keep ← match nc_dvp e with
                 | None => mret true
                 | Some d => v ← deref (vnodes w !! d); mret (bool_decide (v_mount v <> mp))
                 end;
          if (keep : bool) then purgevfs_loop fuel mp cur w
          else
            let w := set_ents (<[x := mkNc None (nc_dvpid e) None (nc_vpid e) (nc_name e)]> (ents w)) w in
            let w := unchain x w in
            let nxt := without x (lru w) in
            w ← lru_front x w;
            purgevfs_loop fuel mp nxt w
      end
  end.

Definition cache_purgevfs (mp : loc) (w : ncworld) : outcome ncworld :=
  purgevfs_loop (S (length (lru w)) * S (length (lru w))) mp (lru w) w.
