(* ===== verification/NcInv.v ===== *)
(** * The name cache: the invariant

    An entry is valid when its ids are those its vnodes have now.  cache_enter does
    not look for an entry of the name that is there already: a chain can have several
    with the same directory, id and name.  Of two such the one nearer to the head of
    the chain, which the scan of cache_lookup finds, is the one used later. *)

From S2P Require Import Prelude Kmalloc NameCache.

(** ** Valid entries *)

Definition id_of (w : ncworld) (o : option loc) : option Z := o ≫= fun v => v_id <$> vnodes w !! v.

Definition valid (w : ncworld) (e : namecache) : Prop :=
  id_of w (nc_dvp e) = Some (nc_dvpid e) /\ (nc_vp e = None \/ id_of w (nc_vp e) = Some (nc_vpid e)).
#[export] Instance valid_dec w e : Decision (valid w e).
Proof. unfold valid. apply _. Defined.

(** Entries that one scan looks for. *)
Definition akin (w : ncworld) (x y : loc) : Prop :=
  exists e e', ents w !! x = Some e /\ ents w !! y = Some e' /\ nc_dvp e = nc_dvp e' /\ nc_dvpid e = nc_dvpid e' /\ nc_name e = nc_name e'.

(** [x] is before [y] on the list. *)
Definition before (l : list loc) (x y : loc) : Prop := [x; y] `sublist_of` l.

(** What is found first was used last. *)
Definition aged (w : ncworld) (l : list loc) : Prop := forall x y, before l x y -> akin w x y -> before (lru w) y x.

Lemma elem_of_without (x y : loc) l : y ∈ without x l <-> y <> x /\ y ∈ l.
Proof. unfold without. by rewrite list_elem_of_filter. Qed.
Lemma without_nodup x l : NoDup l -> NoDup (without x l).
Proof. apply list.NoDup_filter. Qed.
Lemma without_id x l : x ∉ l -> without x l = l.
Proof.
  unfold without. induction l as [|y l IH]; [done|]. intros (Hy&Hl)%not_elem_of_cons. rewrite filter_cons_True by done. by rewrite IH.
Qed.
Lemma without_perm x l : NoDup l -> x ∈ l -> x :: without x l ≡ₚ l.
Proof.
  intros Hn Hx. apply list_elem_of_split in Hx as (l1&l2&->). apply list.NoDup_app in Hn as (_&H1&(H2&_)%list.NoDup_cons).
  unfold without. rewrite list.filter_app, filter_cons_False by (intros H; by apply H). fold (without x l1). fold (without x l2).
  rewrite (without_id x l1), (without_id x l2); [by apply Permutation_middle|done|]. intros Hi. apply (H1 _ Hi). left.
Qed.

Lemma before_in l x y : before l x y -> x ∈ l /\ y ∈ l.
Proof.
  intros H. split; (eapply elem_of_sublist; [|exact H]); [left|right; left].
Qed.
Lemma before_cons z l x y : before (z :: l) x y <-> (x = z /\ y ∈ l) \/ before l x y.
Proof.
  unfold before. split.
  - intros H. inversion H; subst; [left; split; [done|by apply singleton_sublist_l]|by right].
  - intros [(->&Hy)|H]; [apply sublist_skip; by apply singleton_sublist_l|by apply sublist_cons].
Qed.
Lemma without_sublist z l k : l `sublist_of` k -> without z l `sublist_of` without z k.
Proof.
  unfold without. induction 1 as [|y l k _ IH|y l k _ IH]; [done|..]; rewrite !filter_cons; case_decide; [by apply sublist_skip|done|by apply sublist_cons|done].
Qed.
Lemma before_without z l x y : x <> z -> y <> z -> before (without z l) x y <-> before l x y.
Proof.
  intros Hx Hy. unfold before, without. split; intros H; [etrans; [exact H|apply sublist_filter]|].
  apply (without_sublist z) in H. unfold without in H. by rewrite !filter_cons_True in H.
Qed.
Lemma before_without_sub z l x y : before (without z l) x y -> before l x y.
Proof. intros H. destruct (before_in _ _ _ H) as ((?&_)%elem_of_without&(?&_)%elem_of_without). by apply (before_without z). Qed.
Lemma before_app_l l k x y : before l x y -> before (l ++ k) x y.
Proof. intros H. unfold before. by apply sublist_inserts_r. Qed.
Lemma before_last l x y : x ∈ l -> before (l ++ [y]) x y.
Proof. intros H. unfold before. change [x; y] with ([x] ++ [y]). by apply sublist_app; [apply singleton_sublist_l|]. Qed.
Lemma before_ne l x y : NoDup l -> before l x y -> x <> y.
Proof.
  induction l as [|z l IH]; [intros _ (H&_)%before_in; by apply elem_of_nil in H|]. intros (Hz&HN)%list.NoDup_cons [(->&Hy)|H]%before_cons; [by intros ->|by apply IH].
Qed.

Lemma aged_without w x l : aged w l -> aged w (without x l).
Proof. intros H y z Hb%before_without_sub Ha. by apply H. Qed.
Lemma aged_mono w w' l : (forall x y, x ∈ l -> y ∈ l -> akin w' x y -> akin w x y) ->
  (forall x y, x ∈ l -> y ∈ l -> before (lru w) y x -> before (lru w') y x) -> aged w l -> aged w' l.
Proof. intros H1 H2 H x y Hb Ha. destruct (before_in _ _ _ Hb). apply H2; [done..|]. apply H; [done|]. by apply H1. Qed.
Lemma akin_ents w w' x y : ents w' !! x = ents w !! x -> ents w' !! y = ents w !! y -> akin w' x y -> akin w x y.
Proof. intros E1 E2. unfold akin. by rewrite E1, E2. Qed.

(** ** The invariant *)

Record nc_ok (w : ncworld) : Prop := {
  no_hash : exists k, 0 <= k /\ nchash w = 2 ^ k - 1 /\ length (nchashtbl w) = Z.to_nat (2 ^ k);
  no_lru : NoDup (lru w);
  no_ents : forall x, x ∈ lru w <-> is_Some (ents w !! x);
  no_num : numcache w = Z.of_nat (length (lru w)) /\ numcache w <= Z.max 0 (desiredvnodes w) /\ desiredvnodes w < 2 ^ 31;
  no_ids : forall v x, vnodes w !! v = Some x -> 0 < v_id x <= nextvnodeid w;
  no_refs : forall x e d, ents w !! x = Some e -> nc_dvp e = Some d \/ nc_vp e = Some d -> is_Some (vnodes w !! d);
  no_old : forall x e, ents w !! x = Some e -> nc_dvpid e <= nextvnodeid w /\ nc_vpid e <= nextvnodeid w;
  no_chain : forall i l x, nchashtbl w !! i = Some l -> x ∈ l ->
    exists e, ents w !! x = Some e /\ is_Some (nc_dvp e) /\ i = chain_of (name_hash (nc_name e)) w;
  no_chains : forall i l, nchashtbl w !! i = Some l -> NoDup l /\ aged w l }.

Definition chained (w : ncworld) (x : loc) : Prop := exists i l, nchashtbl w !! i = Some l /\ x ∈ l.

(** Every hash has its chain. *)
Lemma chain_ok w h : nc_ok w -> exists l, nchashtbl w !! chain_of h w = Some l.
Proof.
  intros HW. destruct (no_hash _ HW) as (k&Hk&En&El). apply lookup_lt_is_Some. rewrite El. unfold chain_of. rewrite En.
  replace (2 ^ k - 1) with (Z.ones k) by (rewrite Z.ones_equiv; lia). rewrite Z.land_ones by done. pose proof (Z.mod_pos_bound h (2 ^ k) ltac:(lia)). lia.
Qed.

(** What does not touch entries, chains and vnodes. *)
Lemma frame_ok w w' : nc_ok w -> vnodes w' = vnodes w -> ents w' = ents w -> nchashtbl w' = nchashtbl w -> nchash w' = nchash w ->
  numcache w' = numcache w -> desiredvnodes w' = desiredvnodes w -> nextvnodeid w' = nextvnodeid w -> lru w' ≡ₚ lru w ->
  (forall i l x y, nchashtbl w !! i = Some l -> x ∈ l -> y ∈ l -> before l x y -> akin w x y -> before (lru w) y x -> before (lru w') y x) -> nc_ok w'.
Proof.
  intros [H1 H2 H3 H4 H5 H6 H7 H8 H9] Ev Ee Et Eh En Ed Ex Hp Hb. split; unfold chain_of in *; rewrite ?Ev, ?Ee, ?Et, ?Eh, ?En, ?Ed, ?Ex, ?Hp; try done.
  - intros x. rewrite Hp. apply H3.
  - intros i l Hl. destruct (H9 i l Hl) as (?&HA). split; [done|]. intros x y Hxy Ha. destruct (before_in _ _ _ Hxy).
    assert (akin w x y) as Ha' by (by apply (akin_ents w w'); rewrite ?Ee). by apply (Hb i l x y); [..|apply HA].
Qed.

Lemma upd_stat_ok f w : nc_ok w -> nc_ok (upd_stat f w).
Proof. intros HW. by apply (frame_ok w). Qed.

(** *** Changes of the lists *)

(** No entry would be found in place of [x]. *)
Definition newest (w : ncworld) (x : loc) : Prop := forall i l y, nchashtbl w !! i = Some l -> before l y x -> ~ akin w y x.

Lemma touch_ok w x : nc_ok w -> x ∈ lru w -> newest w x -> nc_ok (lru_touch x w).
Proof.
  intros HW Hx Ht. unfold lru_touch. case_decide; [done|]. apply (frame_ok w); try done; cbn [set_lru lru].
  - rewrite <- Permutation_cons_append. apply without_perm; [apply (no_lru _ HW)|done].
  - intros i l y z Hl Hy Hz Hyz Ha Hb. assert (z <> x) as Hzx by (intros ->; by apply (Ht i l y)).
    assert (z ∈ without x (lru w)) as Hzl by (apply elem_of_without; split; [done|by apply before_in in Hb as (?&_)]).
    destruct (decide (y = x)) as [->|Hyx]; [by apply before_last|]. apply before_app_l. by apply before_without.
Qed.

Lemma chained_unchain w x y : chained (unchain x w) y <-> y <> x /\ chained w y.
Proof.
  unfold chained, unchain. cbn [nchashtbl set_tbl]. split.
  - intros (i&l&Hi&Hy). apply list_lookup_fmap_Some in Hi as (l0&->&Hi). apply elem_of_without in Hy as (Hne&Hy). split; [done|]. by exists i, l0.
  - intros (Hne&i&l&Hi&Hy). exists i, (without x l). rewrite list_lookup_fmap, Hi. split; [done|]. by apply elem_of_without.
Qed.

Lemma unchain_ok w x : nc_ok w -> nc_ok (unchain x w).
Proof.
  intros [H1 H2 H3 H4 H5 H6 H7 H8 H9]. split; try done; cbn [unchain set_tbl nchashtbl nchash ents].
  - by rewrite length_map.
  - intros i l y Hi Hy. apply list_lookup_fmap_Some in Hi as (l0&->&Hi). apply elem_of_without in Hy as (_&Hy). by apply (H8 i l0).
  - intros i l Hi. apply list_lookup_fmap_Some in Hi as (l0&->&Hi). destruct (H9 i l0 Hi) as (Hn&Hu). split; [by apply without_nodup|].
    by apply (aged_without w).
Qed.

(** An entry that is on no chain goes to the front of the list; the code fails when
    it is the only one. *)
Lemma front_ok w x : nc_ok w -> x ∈ lru w -> ~ chained w x ->
  (lru w = [x] /\ lru_front x w = Fault) \/ (exists l, lru_front x w = Ok (set_lru l w) /\ l = x :: without x (lru w) /\ nc_ok (set_lru l w)).
Proof.
  intros HW Hx Hc. unfold lru_front. pose proof (without_perm x (lru w) (no_lru _ HW) Hx) as Hp. destruct (without x (lru w)) as [|y l] eqn:E.
  - left. split; [|done]. symmetry in Hp. by apply Permutation_singleton_r in Hp.
  - right. exists (x :: y :: l). split; [done|]. split; [done|]. apply (frame_ok w); try done. cbn [lru set_lru].
    intros i k a b Hi Ha Hb _ _ H. apply before_cons. right. rewrite <- E.
    apply before_without; [intros ->; apply Hc; by exists i, k..|done].
Qed.
