(* ===== verification/NcOps.v ===== *)
(** * The name cache: the operations

    What a lookup, a new entry and a purge do to the answers that the cache has for
    each name: the entries of the name on its chain, in the order in which lookups
    find them. *)

From S2P Require Import Prelude Kmalloc NameCache NcInv.

(** ** cache_lookup *)

(** The test of the scan. *)
Definition key (w : ncworld) (d : loc) (name : list Z) (e : namecache) : Prop :=
  nc_dvp e = Some d /\ id_of w (Some d) = Some (nc_dvpid e) /\ nc_name e = name.
#[export] Instance key_dec w d name e : Decision (key w d name e).
Proof. unfold key. apply _. Defined.

(** Entries of a name that a lookup can return. *)
Definition known (w : ncworld) (d : loc) (name : list Z) (vp : option loc) : Prop :=
  exists x e, chained w x /\ ents w !! x = Some e /\ valid w e /\ nc_dvp e = Some d /\ nc_name e = name /\ nc_vp e = vp.

(** What the cache has of a name, in the order in which lookups find it: the vnodes
    (or none), each with whether its id is still the one that was entered. *)
Definition alive (w : ncworld) (e : namecache) : bool := bool_decide (nc_vp e = None \/ id_of w (nc_vp e) = Some (nc_vpid e)).
Definition hit (w : ncworld) (d : loc) (name : list Z) (x : loc) : option (option loc * bool) :=
  e ← ents w !! x; if decide (key w d name e) then Some (nc_vp e, alive w e) else None.
Definition answers (w : ncworld) (d : loc) (name : list Z) : list (option loc * bool) :=
  omap (hit w d name) (default [] (nchashtbl w !! chain_of (name_hash name) w)).

Lemma hit_same w w' d name x : vnodes w' = vnodes w -> ents w' !! x = ents w !! x -> hit w' d name x = hit w d name x.
Proof.
  intros Ev Ee. unfold hit. rewrite Ee. destruct (ents w !! x) as [e|]; [|done]. cbn [mbind option_bind].
  assert (forall o, id_of w' o = id_of w o) as Hid by (intros o; unfold id_of; by rewrite Ev).
  assert (alive w' e = alive w e) as -> by (apply bool_decide_ext; by rewrite Hid).
  assert (key w' d name e <-> key w d name e) as Hk by (unfold key; by rewrite Hid). repeat case_decide; tauto.
Qed.
Lemma hit_key w d name x e : ents w !! x = Some e -> key w d name e -> hit w d name x = Some (nc_vp e, alive w e).
Proof. intros E Hk. unfold hit. rewrite E. cbn [mbind option_bind]. by rewrite decide_True. Qed.
Lemma hit_none w d name x e : ents w !! x = Some e -> ~ key w d name e -> hit w d name x = None.
Proof. intros E Hk. unfold hit. rewrite E. cbn [mbind option_bind]. by rewrite decide_False. Qed.
Lemma hit_some w d name x a : hit w d name x = Some a -> exists e, ents w !! x = Some e /\ key w d name e /\ a = (nc_vp e, alive w e).
Proof. unfold hit. destruct (ents w !! x) as [e|]; [|done]. cbn [mbind option_bind]. case_decide; [|done]. intros [= <-]. by exists e. Qed.

Lemma hits_cons {A B} (f : A -> option B) (x : A) (l : list A) : omap f (x :: l) = (if f x is Some a then [a] else []) ++ omap f l.
Proof. cbn [omap list_omap]. by destruct (f x). Qed.
Lemma hits_none {A B} (f : A -> option B) (l : list A) : (forall x, x ∈ l -> f x = None) -> omap f l = [].
Proof. induction l as [|x l IH]; [done|]. intros H. cbn [omap list_omap]. rewrite (H x) by left. apply IH. intros y Hy. apply H. by right. Qed.
Lemma hits_ext {A B} (f g : A -> option B) (l : list A) : (forall x, x ∈ l -> f x = g x) -> omap f l = omap g l.
Proof.
  induction l as [|x l IH]; [done|]. intros H. cbn [omap list_omap]. rewrite (H x) by left. fold (omap f l). fold (omap g l).
  by rewrite IH by (intros y Hy; apply H; by right).
Qed.
Lemma hits_filter {A B} (P : A -> Prop) `{!forall x, Decision (P x)} (f : A -> option B) (l : list A) :
  (forall x, x ∈ l -> ~ P x -> f x = None) -> omap f (filter P l) = omap f l.
Proof.
  induction l as [|x l IH]; [done|]. intros Hn. assert (omap f (filter P l) = omap f l) as E by (apply IH; intros y Hy; apply Hn; by right).
  rewrite filter_cons. cbn [omap list_omap]. fold (omap f l). case_decide as Hp.
  - cbn [omap list_omap]. fold (omap f (filter P l)). by rewrite E.
  - by rewrite (Hn x ltac:(left) Hp).
Qed.

Lemma nc_match_ok w n e : is_Some (vnodes w !! ni_dvp n) -> nc_match e n w = Ok (bool_decide (key w (ni_dvp n) (ni_ptr n) e)).
Proof.
  intros (d&Ed). unfold nc_match. rewrite Ed. cbn [deref mbind outcome_bind mret outcome_ret].
  assert (id_of w (Some (ni_dvp n)) = Some (v_id d)) as Ei by (unfold id_of; cbn; by rewrite Ed).
  case_decide as Hd; [|by rewrite bool_decide_eq_false_2 by (by intros (?&_))].
  f_equal. destruct (nc_dvpid e =? v_id d) eqn:E; bool_prop; cbn [andb].
  - apply bool_decide_ext. unfold key. rewrite Ei, E. by split; [|intros (_&_&?)].
  - rewrite bool_decide_eq_false_2; [done|]. unfold key. rewrite Ei. intros (_&[= Hi]&_). by destruct E.
Qed.

Lemma nc_scan_ok w n l : is_Some (vnodes w !! ni_dvp n) -> (forall x, x ∈ l -> is_Some (ents w !! x)) ->
  exists r, nc_scan l n w = Ok r /\
    match r with
    | None => forall x, x ∈ l -> hit w (ni_dvp n) (ni_ptr n) x = None
    | Some (x, e) => ents w !! x = Some e /\ key w (ni_dvp n) (ni_ptr n) e /\
        exists l1 l2, l = l1 ++ x :: l2 /\ forall y, y ∈ l1 -> hit w (ni_dvp n) (ni_ptr n) y = None
    end.
Proof.
  intros Hd. induction l as [|x l IH]; intros Hl; cbn [nc_scan].
  - exists None. split; [done|]. intros x Hx. by apply elem_of_nil in Hx.
  - destruct (Hl x ltac:(left)) as (e&Ee). rewrite Ee. cbn [deref mbind outcome_bind]. rewrite (nc_match_ok w n e Hd). cbn [mbind outcome_bind].
    case_bool_decide as Hk.
    + exists (Some (x, e)). split; [done|]. split; [done|]. split; [done|]. exists [], l. split; [done|]. intros y Hy. by apply elem_of_nil in Hy.
    + pose proof (hit_none _ _ _ _ _ Ee Hk) as Hx. destruct (IH ltac:(intros y Hy; apply Hl; by right)) as (r&->&Hr). exists r. split; [done|]. destruct r as [[y e']|].
      * destruct Hr as (Ey&Hky&l1&l2&->&H1). split; [done|]. split; [done|]. exists (x :: l1), l2. split; [done|].
        by intros z [->|Hz]%elem_of_cons; [|apply H1].
      * by intros z [->|Hz]%elem_of_cons; [|apply Hr].
Qed.

Lemma chained_lru w x : nc_ok w -> chained w x -> x ∈ lru w.
Proof. intros HW (i&l&Hi&Hx). destruct (no_chain _ HW i l x Hi Hx) as (e&Ee&_). apply (no_ents _ HW). by eexists. Qed.

(** A known name is on the chain of its hash. *)
Lemma chained_at w x e : nc_ok w -> chained w x -> ents w !! x = Some e ->
  exists l, nchashtbl w !! chain_of (name_hash (nc_name e)) w = Some l /\ x ∈ l.
Proof. intros HW (i&l&Hi&Hx) Ee. destruct (no_chain _ HW i l x Hi Hx) as (e'&Ee'&_&->). assert (e' = e) as -> by congruence. by exists l. Qed.

(** Entries with one key are akin. *)
Lemma key_akin w d name x y e e' : ents w !! x = Some e -> ents w !! y = Some e' -> key w d name e -> key w d name e' -> akin w x y.
Proof. intros E E' (D&I&N) (D'&I'&N'). exists e, e'. split; [done|]. split; [done|]. rewrite I in I'. injection I' as ?. split_and!; congruence. Qed.

(** *** Changes of the chains *)

Definition chain (w : ncworld) (name : list Z) : list loc := default [] (nchashtbl w !! chain_of (name_hash name) w).

Lemma chain_chained w name x : x ∈ chain w name -> chained w x.
Proof. unfold chain. destruct (nchashtbl w !! _) as [l|] eqn:E; [|by intros ?%elem_of_nil]. intros Hx. by exists (chain_of (name_hash name) w), l. Qed.
Lemma chain_nodup w name : nc_ok w -> NoDup (chain w name).
Proof. intros HW. unfold chain. destruct (nchashtbl w !! _) as [l|] eqn:E; [apply (no_chains _ HW _ _ E)|by apply list.NoDup_nil]. Qed.
Lemma chain_aged w name : nc_ok w -> aged w (chain w name).
Proof.
  intros HW. unfold chain. destruct (nchashtbl w !! _) as [l|] eqn:E; [apply (no_chains _ HW _ _ E)|]. intros x y (Hx&_)%before_in. by apply elem_of_nil in Hx.
Qed.
Lemma chain_unchain w x name : chain (unchain x w) name = without x (chain w name).
Proof. unfold chain, unchain, chain_of. cbn [set_tbl nchashtbl nchash]. rewrite list_lookup_fmap. by destruct (nchashtbl w !! _). Qed.
Lemma answers_chain w d name : answers w d name = omap (hit w d name) (chain w name).
Proof. done. Qed.

(** What only moves entries: names other than [n]'s keep their answers. *)
Record moved (w w' : ncworld) : Prop := {
  mv_ok : nc_ok w';
  mv_vnodes : vnodes w' = vnodes w;
  mv_ents : ents w' = ents w;
  mv_next : nextvnodeid w' = nextvnodeid w;
  mv_doing : doingcache w' = doingcache w;
  mv_des : desiredvnodes w' = desiredvnodes w /\ numcache w' = numcache w }.

Lemma valid_frame w w' e : vnodes w' = vnodes w -> valid w' e <-> valid w e.
Proof. intros E. unfold valid, id_of. by rewrite E. Qed.

Lemma moved_answers w w' d name : moved w w' -> answers w' d name = omap (hit w d name) (chain w' name).
Proof. intros [_ Ev Ee _ _ _]. apply hits_ext. intros x _. apply hit_same; [done|]. by rewrite Ee. Qed.

(** An entry that is found goes: its name loses its first answer. *)
Lemma drop_ok w x e n l1 l2 : nc_ok w -> chain w (ni_ptr n) = l1 ++ x :: l2 -> ents w !! x = Some e -> key w (ni_dvp n) (ni_ptr n) e ->
  (forall y, y ∈ l1 -> hit w (ni_dvp n) (ni_ptr n) y = None) ->
  (nc_drop x n w = Fault /\ numcache w = 1) \/
  exists w', nc_drop x n w = Ok (0, n, w') /\ moved w w' /\ answers w' (ni_dvp n) (ni_ptr n) = tail (answers w (ni_dvp n) (ni_ptr n)) /\
    forall d name, (d, name) <> (ni_dvp n, ni_ptr n) -> answers w' d name = answers w d name.
Proof.
  intros HW Hc Ee Hk H1. assert (chained w x) as Hx by (apply (chain_chained w (ni_ptr n)); rewrite Hc; apply elem_of_app; right; left).
  pose proof (chained_lru w x HW Hx) as Hl. unfold nc_drop.
  destruct (front_ok (unchain x w) x (unchain_ok w x HW) Hl) as [(El&->)|(l&->&_&HW')]; [by intros (?&_)%chained_unchain|..].
  - left. split; [done|]. rewrite (proj1 (no_num _ HW)). change (lru w = [x]) in El. by rewrite El.
  - right. eexists. split; [reflexivity|]. assert (moved w (set_lru l (unchain x w))) as HM by (by split). split; [done|]. split.
    + rewrite (moved_answers w _ _ _ HM). change (chain (set_lru l (unchain x w))) with (chain (unchain x w)). rewrite chain_unchain, answers_chain, Hc.
      unfold without. rewrite list.filter_app, filter_cons_False by tauto. fold (without x l1). fold (without x l2).
      pose proof (chain_nodup w (ni_ptr n) HW) as HN. rewrite Hc in HN. apply list.NoDup_app in HN as (_&Hd&(Hx2&_)%list.NoDup_cons).
      rewrite (without_id x l1), (without_id x l2) by (done || (intros Hi; apply (Hd x Hi); left)). rewrite !omap_app, !(hits_none _ l1 H1).
      cbn [app omap list_omap]. by rewrite (hit_key _ _ _ _ _ Ee Hk).
    + intros d name Hne. rewrite (moved_answers w _ _ _ HM). change (chain (set_lru l (unchain x w))) with (chain (unchain x w)). rewrite chain_unchain, answers_chain.
      apply hits_filter. intros y _ Hy. apply (hit_none _ _ _ _ e); [by rewrite (dec_stable Hy)|]. intros (Kd&_&Kn). apply Hne. destruct Hk as (Kd'&_&Kn'). congruence.
Qed.

Lemma touch_moved w x : nc_ok w -> chained w x -> newest w x -> moved w (lru_touch x w) /\ forall d name, answers (lru_touch x w) d name = answers w d name.
Proof.
  intros HW Hx Ht. pose proof (touch_ok w x HW (chained_lru w x HW Hx) Ht) as H. unfold lru_touch in *. case_decide; by split.
Qed.

(** Nothing that is before it has its key. *)
Lemma found_newest w x e d name l1 l2 : nc_ok w -> chain w name = l1 ++ x :: l2 -> ents w !! x = Some e -> key w d name e ->
  (forall y, y ∈ l1 -> hit w d name y = None) -> newest w x.
Proof.
  intros HW Hc Ee Hk H1 i l y Hl Hb (e'&e0&Ey&E0&Ad&Ai&An). assert (e0 = e) as -> by congruence. destruct (before_in _ _ _ Hb) as (Hy&Hx).
  destruct (no_chain _ HW i l x Hl Hx) as (e0&E1&_&->). assert (e0 = e) as -> by congruence. rewrite (proj2 (proj2 Hk)) in Hl.
  unfold chain in Hc. rewrite Hl in Hc. cbn in Hc. subst l. destruct (no_chains _ HW _ _ Hl) as (HN&_). clear Hl Hy Hx.
  assert (y ∈ l1) as Hy.
  { clear H1. induction l1 as [|z l1 IH]; cbn [app] in *; [apply list.NoDup_cons in HN as (HN&_); apply before_cons in Hb as [(->&?)|(_&?)%before_in]; done|].
    apply list.NoDup_cons in HN as (_&HN). apply before_cons in Hb as [(->&_)|Hb]; [left|right; by apply IH]. }
  specialize (H1 y Hy). rewrite (hit_key w d name y e' Ey) in H1; [done|]. destruct Hk as (Kd&Ki&Kn). split; [congruence|]. split; congruence.
Qed.

(** The first answer that the cache has is not wanted. *)
Definition unwanted (w : ncworld) (n : nameidata) : Prop := forall vp, head (answers w (ni_dvp n) (ni_ptr n)) = Some (vp, true) ->
  ni_makeentry n = false \/ (vp = None /\ Z.land (ni_nameiop n) OPMASK = CREATE).

(** A lookup gives the first answer, or returns 0 and takes it off: it had none, or
    one that was not wanted.  What is known of other names stays. *)
Definition lookup_result (w w' : ncworld) (n n' : nameidata) (r : Z) : Prop :=
  let d := ni_dvp n in let name := ni_ptr n in
  (r = - 1 /\ ni_makeentry n = true /\ (exists vp, ni_vp n' = Some vp /\ head (answers w d name) = Some (Some vp, true)) /\ answers w' d name = answers w d name) \/
  (r = ENOENT /\ n' = n /\ ni_makeentry n = true /\ Z.land (ni_nameiop n) OPMASK <> CREATE /\ head (answers w d name) = Some (None, true) /\
    answers w' d name = answers w d name) \/
  (r = 0 /\ if doingcache w && (Z.of_nat (length name) <=? NCHNAMLEN) then unwanted w n /\ answers w' d name = tail (answers w d name)
            else answers w' d name = answers w d name).

Lemma lookup_ok w n : nc_ok w -> is_Some (vnodes w !! ni_dvp n) -> ni_hash n = name_hash (ni_ptr n) ->
  (cache_lookup n w = Fault /\ numcache w = 1 /\ unwanted w n) \/
  exists r n' w', cache_lookup n w = Ok (r, n', w') /\ moved w w' /\ lookup_result w w' n n' r /\
    forall d name, (d, name) <> (ni_dvp n, ni_ptr n) -> answers w' d name = answers w d name.
Proof.
  intros HW Hd Eh. unfold lookup_result, cache_lookup. destruct (doingcache w) eqn:Ec; cbn [negb andb].
  2:{ right. exists 0, n, w. split; [done|]. split; [by split|]. split; [by right; right|done]. }
  rewrite Z.ltb_antisym. destruct (_ <=? NCHNAMLEN) eqn:El; bool_prop; cbn [negb].
  2:{ right. eexists _, _, _. split; [reflexivity|]. split; [by split; [by apply upd_stat_ok|..]|]. split; [by right; right|done]. }
  unfold get_chain. rewrite Eh. destruct (chain_ok w (name_hash (ni_ptr n)) HW) as (l&Hl). rewrite Hl. cbn [deref mbind outcome_bind].
  assert (chain w (ni_ptr n) = l) as Hc by (unfold chain; by rewrite Hl).
  destruct (nc_scan_ok w n l Hd) as (r&->&Hr).
  { intros x Hx. destruct (no_chain _ HW _ _ x Hl Hx) as (e&->&_). by eexists. }
  cbn [mbind outcome_bind]. destruct r as [[x e]|].
  2:{ right. eexists _, _, _. split; [reflexivity|]. split; [by split; [by apply upd_stat_ok|..]|]. split; [|done]. right. right. split; [done|].
      assert (answers w (ni_dvp n) (ni_ptr n) = []) as E0 by (rewrite answers_chain, Hc; by apply hits_none).
      split; [intros vp; by rewrite E0|]. change (answers (upd_stat miss w)) with (answers w). by rewrite E0. }
  destruct Hr as (Ee&Hk&l1&l2&Es&H1). rewrite Es in Hc. pose proof (found_newest w x e _ _ l1 l2 HW Hc Ee Hk H1) as Hnew.
  assert (chained w x) as Hx by (apply (chain_chained w (ni_ptr n)); rewrite Hc; apply elem_of_app; right; left).
  assert (head (answers w (ni_dvp n) (ni_ptr n)) = Some (nc_vp e, alive w e)) as Hhead.
  { rewrite answers_chain, Hc, omap_app, (hits_none _ l1 H1). cbn [app omap list_omap]. by rewrite (hit_key _ _ _ _ _ Ee Hk). }
  assert (forall f, (alive w e = true -> ni_makeentry n = false \/ (nc_vp e = None /\ Z.land (ni_nameiop n) OPMASK = CREATE)) ->
    (nc_drop x n (upd_stat f w) = Fault /\ numcache w = 1 /\ unwanted w n) \/
    exists r n' w', nc_drop x n (upd_stat f w) = Ok (r, n', w') /\ moved w w' /\
      (r = 0 /\ unwanted w n /\ answers w' (ni_dvp n) (ni_ptr n) = tail (answers w (ni_dvp n) (ni_ptr n))) /\
      forall d name, (d, name) <> (ni_dvp n, ni_ptr n) -> answers w' d name = answers w d name) as Hdrop.
  { intros f Hw. assert (unwanted w n) as Hun by (intros vp; rewrite Hhead; intros [= <- Ha]; by apply Hw).
    destruct (drop_ok (upd_stat f w) x e n l1 l2 (upd_stat_ok f w HW) Hc Ee Hk H1) as [(?&?)|(w'&->&[M1 M2 M3 M4 M5 M6]&HA)]; [by left|right].
    exists 0, n, w'. split; [done|]. split; [by split|]. destruct HA as (HA1&HA2). split; [|exact HA2]. split; [done|]. split; [done|exact HA1]. }
  assert (forall f, let w' := lru_touch x (upd_stat f w) in moved w w' /\ forall d name, answers w' d name = answers w d name) as Htouch.
  { intros f. destruct (touch_moved (upd_stat f w) x (upd_stat_ok f w HW) Hx Hnew) as ([M1 M2 M3 M4 M5 M6]&HA). by split. }
  assert (forall f o, (nc_drop x n (upd_stat f w) = o) -> (alive w e = true -> ni_makeentry n = false \/ (nc_vp e = None /\ Z.land (ni_nameiop n) OPMASK = CREATE)) ->
    (o = Fault /\ numcache w = 1 /\ unwanted w n) \/ exists r n' w', o = Ok (r, n', w') /\ moved w w' /\ lookup_result w w' n n' r /\
      forall d name, (d, name) <> (ni_dvp n, ni_ptr n) -> answers w' d name = answers w d name) as Hend.
  { intros f o <- Hw. destruct (Hdrop f Hw) as [|(r&n'&w'&->&HM&(->&HA)&HO)]; [by left|right]. exists 0, n', w'. split; [done|]. split; [done|]. split; [|done].
    right. right. split; [done|]. rewrite Ec. by rewrite (proj2 (Z.leb_le _ _)). }
  unfold lookup_result in Hend. rewrite Ec in Hend. rewrite (proj2 (Z.leb_le _ _) El) in Hend. cbn [andb] in Hend.
  destruct (ni_makeentry n) eqn:Em; cbn [negb]; [|eapply Hend; [done|by left]].
  destruct (nc_vp e) as [vp|] eqn:Evp.
  - destruct (no_refs _ HW x e vp Ee ltac:(by right)) as (v&Ev). rewrite Ev. cbn [deref mbind outcome_bind].
    assert (alive w e = bool_decide (nc_vpid e = v_id v)) as Ha.
    { unfold alive. rewrite Evp. cbn. rewrite Ev. cbn. apply bool_decide_ext. split; [intros [?|[= ?]]; done|intros ->; by right]. }
    destruct (nc_vpid e =? v_id v) eqn:Eid; bool_prop; cbn [negb].
    2:{ eapply Hend; [done|]. rewrite Ha, bool_decide_eq_false_2 by done. done. }
    right. eexists _, _, _. split; [reflexivity|]. destruct (Htouch goodhit) as (HM&HA). split; [done|]. split; [|by intros; apply HA].
    left. split; [done|]. split; [done|]. split; [|by apply HA]. exists vp. split; [done|]. by rewrite Hhead, Ha, bool_decide_eq_true_2.
  - destruct (Z.land (ni_nameiop n) OPMASK =? CREATE) eqn:Eop; bool_prop; cbn [negb].
    + eapply (Hend id); [|by right]. by destruct w.
    + right. eexists _, _, _. split; [reflexivity|]. destruct (Htouch neghit) as (HM&HA). split; [done|]. split; [|by intros; apply HA].
      right. left. split_and!; try done. rewrite Hhead. unfold alive. rewrite Evp. by rewrite bool_decide_eq_true_2 by (by left).
Qed.

(** ** cache_enter *)

(** The slot [x], between the lists it was on and those it comes to. *)
Record slotted (w : ncworld) (x : loc) (w1 : ncworld) : Prop := {
  sl_same : vnodes w1 = vnodes w /\ ents w1 = ents w /\ nchash w1 = nchash w /\ desiredvnodes w1 = desiredvnodes w /\
    nextvnodeid w1 = nextvnodeid w /\ length (nchashtbl w1) = length (nchashtbl w) /\ doingcache w1 = doingcache w;
  sl_lru : NoDup (lru w1) /\ x ∉ lru w1 /\ forall y, y <> x -> y ∈ lru w1 <-> is_Some (ents w !! y);
  sl_num : numcache w1 = Z.of_nat (S (length (lru w1))) /\ numcache w1 <= Z.max 0 (desiredvnodes w);
  sl_chain : forall i l, nchashtbl w1 !! i = Some l -> x ∉ l /\ NoDup l /\ aged w1 l /\
    exists l0, nchashtbl w !! i = Some l0 /\ forall y, y ∈ l -> y ∈ l0;
  sl_answers : forall d name, answers w1 d name `prefix_of` answers w d name }.

(** The entry unused for longest is the last of its name's. *)
Lemma evict_answers w x l0 d name : nc_ok w -> lru w = x :: l0 -> answers (unchain x (set_lru l0 w)) d name `prefix_of` answers w d name.
Proof.
  intros HW El. set (w1 := set_lru l0 w). assert (answers (unchain x w1) d name = omap (hit w d name) (without x (chain w name))) as ->.
  { rewrite answers_chain, chain_unchain. apply hits_ext. intros y _. by apply hit_same. }
  rewrite answers_chain. unfold without. destruct (hit w d name x) as [a|] eqn:Ea.
  2:{ rewrite hits_filter; [done|]. intros y _ Hy. by rewrite (dec_stable Hy). }
  destruct (hit_some _ _ _ _ _ Ea) as (e&Ee&Hk&_). destruct (decide (x ∈ chain w name)) as [Hx|Hx].
  2:{ fold (without x (chain w name)). by rewrite without_id. }
  pose proof (chain_nodup w name HW) as HN. pose proof (chain_aged w name HW) as HA. apply list_elem_of_split in Hx as (l1&l2&Hc). rewrite Hc in *.
  apply list.NoDup_app in HN as (_&Hd&(Hx2&_)%list.NoDup_cons). rewrite list.filter_app, filter_cons_False by tauto. fold (without x l1). fold (without x l2).
  rewrite (without_id x l1), (without_id x l2) by (done || (intros Hi; apply (Hd x Hi); left)). rewrite !omap_app.
  rewrite (hits_none _ l2), app_nil_r; [by apply prefix_app_r|]. intros y Hy. destruct (hit w d name y) as [a'|] eqn:Ey; [|done]. exfalso.
  destruct (hit_some _ _ _ _ _ Ey) as (e'&Ee'&Hk'&_). assert (before (lru w) y x) as Hb.
  { apply HA; [|by apply (key_akin w d name x y e e')]. unfold before. apply sublist_inserts_l, sublist_skip. by apply singleton_sublist_l. }
  pose proof (no_lru _ HW) as HL. rewrite El in Hb, HL. apply list.NoDup_cons in HL as (HL&_). apply before_cons in Hb as [(->&?)|(_&?)%before_in]; done.
Qed.

Lemma slot_ok w : nc_ok w -> 0 < numcache w \/ 0 < desiredvnodes w -> exists x w1, nc_slot w = Some (x, w1) /\ slotted w x w1.
Proof.
  intros HW Hpos. destruct (no_num _ HW) as (En&Hle&Hd). unfold nc_slot. destruct (numcache w <? desiredvnodes w) eqn:E; bool_prop.
  - pose proof (new_loc_fresh (ents w)) as Hf. assert (new_loc (ents w) ∉ lru w) as Hn by (rewrite (no_ents _ HW), Hf; by intros []).
    eexists _, _. split; [reflexivity|]. split; cbn [set_numcache vnodes ents nchash desiredvnodes nextvnodeid nchashtbl lru numcache]; [by split_and!| | | |done].
    + split; [apply (no_lru _ HW)|]. split; [done|]. intros y _. apply (no_ents _ HW).
    + rewrite s32_id by lia. lia.
    + intros i l Hl. destruct (no_chains _ HW i l Hl) as (H1&H2). split; [|split; [done|split; [done|by exists l]]].
      intros Hx. apply Hn, (chained_lru w _ HW). by exists i, l.
  - destruct (lru w) as [|x l0] eqn:El; [cbn in En; lia|]. pose proof (no_lru _ HW) as HN. rewrite El in HN. apply list.NoDup_cons in HN as (Hx&HN).
    exists x, (unchain x (set_lru l0 w)). split; [done|].
    split; cbn [unchain set_tbl set_lru vnodes ents nchash desiredvnodes nextvnodeid nchashtbl lru numcache]; [by split_and!; [..|rewrite length_map|]| | | |].
    + split; [done|]. split; [done|]. intros y Hy. rewrite <- (no_ents _ HW), El, elem_of_cons. split; [by right|by intros [->|]].
    + by split.
    + intros i l Hl. apply list_lookup_fmap_Some in Hl as (l1&->&Hl). destruct (no_chains _ HW i l1 Hl) as (H1&H2).
      split; [by intros (?&_)%elem_of_without|]. split; [by apply without_nodup|]. split; [|by exists l1; split; [|intros y (_&Hy)%elem_of_without]].
      eapply (aged_mono w); [done| |by apply aged_without]. intros y z _ (Hz&_)%elem_of_without Hb. rewrite El in Hb. cbn [lru set_lru unchain set_tbl].
      apply before_cons in Hb as [(->&_)|Hb]; [done|exact Hb].
    + intros d name. by apply evict_answers.
Qed.

Lemma chain_of_same h w w' : nchash w' = nchash w -> chain_of h w' = chain_of h w.
Proof. intros E. unfold chain_of. by rewrite E. Qed.

(** The entry that is filled in comes to the front of its chain. *)
Lemma nc_fill_ok w x w1 e d l : nc_ok w -> slotted w x w1 -> nc_dvp e = Some d -> is_Some (vnodes w !! d) ->
  (forall v, nc_vp e = Some v -> is_Some (vnodes w !! v)) -> nc_dvpid e <= nextvnodeid w -> nc_vpid e <= nextvnodeid w ->
  id_of w (Some d) = Some (nc_dvpid e) -> nchashtbl w1 !! chain_of (name_hash (nc_name e)) w1 = Some l ->
  let w2 := set_tbl (<[chain_of (name_hash (nc_name e)) w1 := x :: l]> (nchashtbl w1)) (set_lru (lru w1 ++ [x]) (set_ents (<[x := e]> (ents w1)) w1)) in
  nc_ok w2 /\ forall d' name, answers w2 d' name = (if decide ((d', name) = (d, nc_name e)) then [(nc_vp e, alive w e)] else []) ++ answers w1 d' name.
Proof.
  intros HW [(Ev&Ee&Eh&Ed&Ex&El&_) (HN&Hx&HL) (Hn1&Hn2) HC _] Edv Hd Hv Hi1 Hi2 Hid Hl w2. set (c := chain_of (name_hash (nc_name e)) w1) in *.
  assert (c < length (nchashtbl w1))%nat as Hlt by (by eapply lookup_lt_Some).
  assert (forall i l', nchashtbl w2 !! i = Some l' -> (i = c /\ l' = x :: l) \/ (i <> c /\ nchashtbl w1 !! i = Some l')) as Htbl.
  { intros i l' Hi. cbn [w2 set_tbl nchashtbl] in Hi. destruct (decide (i = c)) as [->|Hne].
    - rewrite list_lookup_insert_eq in Hi by done. injection Hi as <-. by left.
    - rewrite list_lookup_insert_ne in Hi by done. by right. }
  assert (forall i l' y, nchashtbl w2 !! i = Some l' -> y ∈ l' -> (i = c /\ y = x) \/ (y <> x /\ exists l0, nchashtbl w !! i = Some l0 /\ y ∈ l0)) as Hin.
  { intros i l' y Hi Hy. assert (forall l1, nchashtbl w1 !! i = Some l1 -> y ∈ l1 -> y <> x /\ exists l0, nchashtbl w !! i = Some l0 /\ y ∈ l0) as H1.
    { intros l1 Hi1' Hy1. destruct (HC i l1 Hi1') as (Hx1&_&_&l0&Hl0&Hs). split; [by intros ->|]. exists l0. split; [done|by apply Hs]. }
    destruct (Htbl i l' Hi) as [(->&->)|(Hne&Hi')]; [|right; by apply (H1 l')].
    apply elem_of_cons in Hy as [->|Hy]; [by left|right; by apply (H1 l)]. }
  assert (forall y, y <> x -> ents w2 !! y = ents w !! y) as Hents.
  { intros y Hy. cbn [w2 set_tbl set_lru set_ents ents]. by rewrite lookup_insert_ne, Ee. }
  assert (ents w2 !! x = Some e) as Hex by (cbn [w2 set_tbl set_lru set_ents ents]; by rewrite lookup_insert_eq).
  assert (forall e', valid w2 e' <-> valid w e') as Hval by (intros e'; by apply valid_frame).
  split.
  - split; cbn [w2 set_tbl set_lru set_ents vnodes nchash desiredvnodes nextvnodeid lru numcache]; fold w2.
    + destruct (no_hash _ HW) as (k&?&?&?). exists k. rewrite Eh. cbn [nchashtbl set_tbl w2]. rewrite length_insert, El. done.
    + apply list.NoDup_app. split; [done|]. split; [|apply NoDup_singleton]. intros y Hy ->%list_elem_of_singleton. done.
    + intros y. rewrite elem_of_app, list_elem_of_singleton. destruct (decide (y = x)) as [->|Hne].
      * rewrite Hex. split; [by eexists|by right].
      * rewrite (Hents y Hne), <- (HL y Hne). tauto.
    + rewrite length_app. cbn [length]. rewrite Ed. split; [lia|]. split; [lia|apply (no_num _ HW)].
    + rewrite Ev, Ex. apply (no_ids _ HW).
    + intros y e' d' He'. rewrite Ev. destruct (decide (y = x)) as [->|Hne].
      * rewrite Hex in He'. injection He' as <-. intros [H|H]; [congruence|by apply Hv].
      * rewrite Hents in He' by done. by apply (no_refs _ HW y).
    + intros y e' He'. rewrite Ex. destruct (decide (y = x)) as [->|Hne]; [rewrite Hex in He'; by injection He' as <-|].
      rewrite Hents in He' by done. by apply (no_old _ HW y).
    + intros i l' y Hi Hy. destruct (Hin i l' y Hi Hy) as [(->&->)|(Hne&l0&Hl0&Hy0)].
      * exists e. split; [done|]. split; [by rewrite Edv|done].
      * rewrite Hents by done. destruct (no_chain _ HW i l0 y Hl0 Hy0) as (e'&?&?&->). exists e'. split; [done|]. split; [done|].
        symmetry. by apply chain_of_same.
    + assert (forall i l', nchashtbl w1 !! i = Some l' -> aged w2 l') as Hag.
      { intros i l' Hi'. destruct (HC i l' Hi') as (Hxl&_&Hul&_). eapply (aged_mono w1); [|intros y z _ _; by apply before_app_l|exact Hul].
        intros y z Hy Hz. apply akin_ents; cbn [w2 set_tbl set_lru set_ents ents]; rewrite lookup_insert_ne; [done|by intros ->|done|by intros ->]. }
      intros i l' Hi. destruct (Htbl i l' Hi) as [(->&->)|(Hne&Hi')]; [|by split; [apply (HC i l' Hi')|apply (Hag i)]].
      destruct (HC c l Hl) as (Hxl&Hnl&_&l0&Hl0&Hs). split; [by apply list.NoDup_cons|].
      intros y z [(->&Hz)|Hb]%before_cons Ha; [|by apply (Hag c l Hl)]. cbn [w2 set_tbl set_lru lru]. apply before_last.
      apply HL; [by intros ->|]. destruct (no_chain _ HW c l0 z Hl0 (Hs z Hz)) as (e'&->&_). by eexists.
  - intros d' name. assert (forall l' i, nchashtbl w1 !! i = Some l' -> omap (hit w2 d' name) l' = omap (hit w1 d' name) l') as Hold.
    { intros l' i Hi'. apply hits_ext. intros y Hy. apply hit_same; [done|]. cbn [w2 set_tbl set_lru set_ents ents]. rewrite lookup_insert_ne; [done|]. intros ->. by apply (HC i l'). }
    unfold answers. change (chain_of (name_hash name) w2) with (chain_of (name_hash name) w1). change (nchashtbl w2) with (<[c := x :: l]> (nchashtbl w1)).
    assert (hit w2 d' name x = if decide ((d', name) = (d, nc_name e)) then Some (nc_vp e, alive w e) else None) as Hhit.
    { assert (key w2 d' name e <-> (d', name) = (d, nc_name e)) as Hkey.
      { unfold key. change (id_of w2) with (id_of w1). unfold id_of in *. rewrite Ev. split; [intros (?&_&?); congruence|]. intros [= -> ->]. by split_and!. }
      unfold hit. rewrite Hex. cbn [mbind option_bind]. assert (alive w2 e = alive w e) as ->.
      { apply bool_decide_ext. change (id_of w2) with (id_of w1). unfold id_of. by rewrite Ev. }
      repeat case_decide; tauto. }
    destruct (decide (chain_of (name_hash name) w1 = c)) as [Ec|Ec].
    + rewrite Ec, list_lookup_insert_eq, Hl by done. unfold default, id. rewrite hits_cons, Hhit, (Hold l c Hl). by case_decide.
    + rewrite list_lookup_insert_ne by done. rewrite decide_False by (intros [= -> ->]; done). cbn [app].
      destruct (nchashtbl w1 !! chain_of (name_hash name) w1) as [l'|] eqn:El'; [|done]. by apply (Hold l' _ El').
Qed.

(** A name gets one more answer, which is found first; the entry that goes for it is
    the last of its name. *)
Lemma enter_ok w n : nc_ok w -> is_Some (vnodes w !! ni_dvp n) -> (forall v, ni_vp n = Some v -> is_Some (vnodes w !! v)) ->
  ni_hash n = name_hash (ni_ptr n) -> Z.of_nat (length (ni_ptr n)) <= NCHNAMLEN -> doingcache w = true ->
  exists w', cache_enter n w = Ok w' /\ nc_ok w' /\ vnodes w' = vnodes w /\ nextvnodeid w' = nextvnodeid w /\ doingcache w' = doingcache w /\
    (forall d name, answers w' d name `prefix_of`
      (if decide ((d, name) = (ni_dvp n, ni_ptr n)) then [(ni_vp n, true)] else []) ++ answers w d name) /\
    (0 < numcache w \/ 0 < desiredvnodes w -> head (answers w' (ni_dvp n) (ni_ptr n)) = Some (ni_vp n, true)).
Proof.
  intros HW (d&Ed) Hv Eh Hlen Edo. unfold cache_enter. rewrite Edo. cbn [negb].
  destruct (decide (0 < numcache w \/ 0 < desiredvnodes w)) as [Hpos|Hpos].
  2:{ exists w. destruct (no_num _ HW) as (En&_). unfold nc_slot. rewrite (proj2 (Z.ltb_ge (numcache w) (desiredvnodes w))) by lia.
      destruct (lru w) eqn:El; [|cbn in En; lia]. split_and!; try done. intros d' name. rewrite answers_chain, hits_none; [by apply prefix_nil|].
      intros x Hx%chain_chained. apply (chained_lru w x HW) in Hx. rewrite El in Hx. by apply elem_of_nil in Hx. }
  destruct (slot_ok w HW Hpos) as (x&w1&->&HS). destruct (sl_same _ _ _ HS) as (Ev&Ee&Ehs&Edes&Ex&El&Edc).
  assert (exists vpid, match ni_vp n with Some vp => v ← deref (vnodes w1 !! vp); mret (v_id v) | None => mret 0 end = Ok vpid /\
    vpid <= nextvnodeid w /\ (ni_vp n = None \/ id_of w (ni_vp n) = Some vpid)) as (vpid&->&Hvpid&Hval).
  { destruct (ni_vp n) as [vp|] eqn:Evp.
    - destruct (Hv vp eq_refl) as (v&Evv). exists (v_id v). rewrite Ev, Evv. split; [done|]. split; [by apply (no_ids _ HW vp)|]. right. cbn. by rewrite Evv.
    - exists 0. split; [done|]. split; [|by left]. apply (no_ids _ HW) in Ed. lia. }
  cbn [mbind outcome_bind]. rewrite Ev, Ed. cbn [deref mbind outcome_bind]. rewrite (proj2 (Z.ltb_ge NCHNAMLEN _)) by done.
  set (e := mkNc (Some (ni_dvp n)) (v_id d) (ni_vp n) vpid (ni_ptr n)). unfold get_chain. rewrite Eh.
  assert (exists l, nchashtbl w1 !! chain_of (name_hash (ni_ptr n)) w1 = Some l) as (l&Hl).
  { destruct (chain_ok w (name_hash (ni_ptr n)) HW) as (l0&Hl0). apply lookup_lt_is_Some. rewrite El, (chain_of_same _ w w1) by done. by eapply lookup_lt_Some. }
  cbn [nchashtbl set_lru set_ents]. change (chain_of (name_hash (ni_ptr n)) (set_lru _ _)) with (chain_of (name_hash (ni_ptr n)) w1).
  rewrite Hl. cbn [deref mbind outcome_bind mret outcome_ret].
  assert (id_of w (Some (ni_dvp n)) = Some (v_id d)) as Hid by (cbn; by rewrite Ed).
  destruct (nc_fill_ok w x w1 e (ni_dvp n) l HW HS) as (HW'&HA); [done|by rewrite Ed|exact Hv|by apply (no_ids _ HW (ni_dvp n))|done|done|done|].
  assert (alive w e = true) as Hal by (by apply bool_decide_eq_true_2). rewrite Hal in HA. cbn [e nc_name nc_vp] in HA. fold e in HA.
  eexists. split; [reflexivity|]. split; [exact HW'|]. split; [exact Ev|]. split; [exact Ex|]. split; [etrans; [exact Edc|done]|]. split.
  - intros d' name. refine (eq_ind_r (fun l => l `prefix_of` _) _ (HA d' name)). apply prefix_app, (sl_answers _ _ _ HS).
  - intros _. etrans; [by apply (f_equal head), HA|]. by rewrite decide_True.
Qed.

(** ** cache_purge *)

(** A vnode gets a new id, that no one has had. *)
Definition renew (v mp : loc) (w : ncworld) : ncworld :=
  set_vnodes (<[v := mkVnode (nextvnodeid w + 1) mp]> (vnodes w)) (set_nextvnodeid (nextvnodeid w + 1) w).

Lemma renew_ids w v mp x e : nc_ok w -> ents w !! x = Some e ->
  (id_of (renew v mp w) (nc_dvp e) = Some (nc_dvpid e) <-> id_of w (nc_dvp e) = Some (nc_dvpid e) /\ nc_dvp e <> Some v) /\
  (id_of (renew v mp w) (nc_vp e) = Some (nc_vpid e) <-> id_of w (nc_vp e) = Some (nc_vpid e) /\ nc_vp e <> Some v).
Proof.
  intros HW Ee. destruct (no_old _ HW x e Ee) as (Ho1&Ho2).
  assert (forall o i, i <= nextvnodeid w -> id_of (renew v mp w) o = Some i <-> id_of w o = Some i /\ o <> Some v) as Hid; [|by split; apply Hid].
  intros [u|] i Hi; [|by split; [|intros (?&_)]]. cbn [renew set_vnodes set_nextvnodeid vnodes id_of mbind option_bind]. destruct (decide (u = v)) as [->|Hne].
  - rewrite lookup_insert_eq. cbn. split; [intros [=]; lia|by intros (_&?)].
  - rewrite lookup_insert_ne by done. split; [intros ->; split; [done|congruence]|by intros (?&_)].
Qed.

Lemma renew_ok w v mp : nc_ok w -> 0 <= nextvnodeid w -> nc_ok (renew v mp w).
Proof.
  intros HW H0. pose proof HW as [H1 H2 H3 H4 H5 H6 H7 H8 H9]. split; try done; cbn [renew set_vnodes set_nextvnodeid vnodes ents nextvnodeid nchashtbl].
  - intros u x. destruct (decide (u = v)) as [->|Hne]; [rewrite lookup_insert_eq; intros [= <-]; cbn; lia|].
    rewrite lookup_insert_ne by done. intros Hu%H5. lia.
  - intros x e d He Hd. destruct (H6 x e d He Hd) as (u&Hu). destruct (decide (d = v)) as [->|Hne]; [rewrite lookup_insert_eq; by eexists|].
    rewrite lookup_insert_ne, Hu by done. by eexists.
  - intros x e He. destruct (H7 x e He). lia.
Qed.

(** What is known of names in it is gone, and answers that give it are stale. *)
Definition stale (v : loc) (a : option loc * bool) : option loc * bool := (a.1, a.2 && bool_decide (a.1 <> Some v)).

Lemma renew_answers w v mp d name : nc_ok w -> answers (renew v mp w) d name = if decide (d = v) then [] else map (stale v) (answers w d name).
Proof.
  intros HW. rewrite answers_chain. change (chain (renew v mp w)) with (chain w).
  assert (forall x, hit (renew v mp w) d name x = if decide (d = v) then None else stale v <$> hit w d name x) as Hhit.
  { intros x. unfold hit. cbn [ents renew set_vnodes set_nextvnodeid]. destruct (ents w !! x) as [e|] eqn:Ee; [|by case_decide]. cbn [mbind option_bind].
    fold (renew v mp w). destruct (renew_ids w v mp x e HW Ee) as (H1&H2). destruct (decide (d = v)) as [->|Hne].
    - rewrite decide_False; [done|]. intros (Kd&Ki&_). rewrite <- Kd in Ki. by apply H1 in Ki as (_&?).
    - assert (key (renew v mp w) d name e <-> key w d name e) as Hk.
      { unfold key. split; intros (Kd&Ki&Kn); rewrite <- Kd in *; (split; [done|]; split; [|done]); [by apply H1|]. apply H1. split; [done|congruence]. }
      repeat case_decide; [|tauto..|done]. cbn. unfold stale. cbn. do 2 f_equal. unfold alive.
      rewrite <- bool_decide_and. apply bool_decide_ext. specialize (H2). destruct (nc_vp e) as [u|]; [|split; [by split; [left|]|by left]].
      split; [intros [?|Hi]; [done|]; apply H2 in Hi as (?&?); split; [by right|done]|]. intros ([?|Hi]&?); [done|]. right. by apply H2. }
  rewrite (hits_ext _ _ _ (fun x _ => Hhit x)). rewrite answers_chain. clear Hhit. case_decide as Hd; [by apply hits_none|].
  induction (chain w name) as [|x l IH]; [done|]. rewrite !hits_cons, map_app, IH. f_equal. by destruct (hit w d name x).
Qed.

Lemma purge_ok v w x : vnodes w !! v = Some x -> 0 <= nextvnodeid w -> nextvnodeid w + 1 < 2 ^ 32 ->
  cache_purge v w = Ok (renew v (v_mount x) w).
Proof.
  intros Ex H0 H1. unfold cache_purge. rewrite Ex. cbn [deref mbind outcome_bind set_v_id set_vnodes nextvnodeid set_nextvnodeid].
  rewrite u32_id by lia. rewrite (proj2 (Z.eqb_neq _ 0)) by lia. cbn [negb mret outcome_ret]. f_equal. unfold renew, set_v_id. f_equal.
  cbn [vnodes set_nextvnodeid]. apply map_eq. intros u. destruct (decide (u = v)) as [->|Hne].
  - by rewrite lookup_alter_eq, Ex, lookup_insert_eq.
  - by rewrite lookup_alter_ne, lookup_insert_ne.
Qed.

Lemma renew_vnode_ok v mp w : 0 <= nextvnodeid w -> nextvnodeid w + 1 < 2 ^ 32 -> renew_vnode v mp w = Ok (renew v mp w).
Proof.
  intros H0 H1. unfold renew_vnode. destruct (vnodes w !! v) as [x|] eqn:Ex.
  - rewrite (purge_ok v w x Ex H0 H1). cbn [mbind outcome_bind mret outcome_ret]. f_equal. unfold renew. cbn [set_vnodes vnodes set_nextvnodeid nextvnodeid].
    unfold set_vnodes. cbn. f_equal. apply map_eq. intros u. destruct (decide (u = v)) as [->|Hne]; [by rewrite lookup_alter_eq, !lookup_insert_eq|].
    by rewrite lookup_alter_ne, !lookup_insert_ne.
  - rewrite (purge_ok v _ (mkVnode 0 mp)); [|cbn [set_vnodes vnodes]; by rewrite lookup_insert_eq|done|done]. cbn [mbind outcome_bind mret outcome_ret]. f_equal.
    unfold renew, set_vnodes. cbn. f_equal. apply map_eq. intros u. destruct (decide (u = v)) as [->|Hne]; [by rewrite lookup_alter_eq, !lookup_insert_eq|].
    by rewrite lookup_alter_ne, !lookup_insert_ne.
Qed.

(** The ids wrap around: all entries on the chains forget theirs. *)
Lemma lookup_forget l (m : gmap loc namecache) x :
  foldr (alter forget_ids) m l !! x = (if decide (x ∈ l) then forget_ids <$> m !! x else m !! x).
Proof.
  induction l as [|y l IH]; [by rewrite decide_False by apply not_elem_of_nil|]. cbn [foldr].
  destruct (decide (y = x)) as [->|Hne].
  - rewrite lookup_alter_eq, IH, (decide_True (P := x ∈ x :: l)) by left. case_decide; by destruct (m !! x).
  - rewrite lookup_alter_ne, IH by done. repeat case_decide; set_solver.
Qed.

Lemma purge_wrap_ok v w x : nc_ok w -> vnodes w !! v = Some x -> nextvnodeid w = 2 ^ 32 - 1 ->
  exists w', cache_purge v w = Ok w' /\ nextvnodeid w' = 1 /\ v_id <$> vnodes w' !! v = Some 1 /\ forall d name vp, ~ known w' d name vp.
Proof.
  intros HW Ex En. unfold cache_purge. rewrite Ex. cbn [deref mbind outcome_bind set_v_id set_vnodes nextvnodeid set_nextvnodeid forget_all set_ents].
  rewrite En. change (u32 (2 ^ 32 - 1 + 1)) with 0. cbn [Z.eqb negb]. change (u32 (0 + 1)) with 1. eexists. split; [reflexivity|]. split; [done|]. split.
  - cbn. by rewrite !lookup_alter_eq, Ex.
  - intros d name vp (y&e&(i&l&Hi&Hy)&Ee&(Hv&_)&Ed&_). cbn in Hi, Ee.
    rewrite lookup_forget, decide_True in Ee.
    2:{ cbn. apply list_elem_of_In, in_concat. exists l. split; apply list_elem_of_In; [|done]. by eapply list_elem_of_lookup_2. }
    destruct (no_chain _ HW i l y Hi Hy) as (e0&Ee0&_). rewrite Ee0 in Ee. injection Ee as <-.
    cbn in Hv, Ed. rewrite Ed in Hv. cbn in Hv. destruct (decide (d = v)) as [->|Hne].
    + rewrite !lookup_alter_eq, Ex in Hv. done.
    + rewrite !lookup_alter_ne in Hv by done. destruct (vnodes w !! d) as [u|] eqn:Eu; [|done]. cbn in Hv. injection Hv as Hv. apply (no_ids _ HW) in Eu. lia.
Qed.

(** ** cache_purgevfs *)

(** The file system of the directory of an entry. *)
Definition mount_of (w : ncworld) (x : loc) : option loc :=
  match ents w !! x with
  | Some e => match nc_dvp e with Some d => v_mount <$> vnodes w !! d | None => None end
  | None => None
  end.

Definition unmark (x : loc) (e : namecache) (w : ncworld) : ncworld :=
  set_ents (<[x := mkNc None (nc_dvpid e) None (nc_vpid e) (nc_name e)]> (ents w)) w.

(** The entries of other directories stay. *)
Lemma unmark_ok w x e : nc_ok w -> ents w !! x = Some e -> nc_ok (unchain x (unmark x e w)).
Proof.
  intros HW Ee. pose proof (unchain_ok w x HW) as [H1 H2 H3 H4 H5 H6 H7 H8 H9]. pose proof HW as [_ _ _ _ _ I6 I7 _ _].
  assert (forall i l y, nchashtbl (unchain x w) !! i = Some l -> y ∈ l -> y <> x) as Hne.
  { intros i l y Hi Hy. apply (chained_unchain w x y). by exists i, l. }
  split; try done; cbn [unchain unmark set_tbl set_ents ents vnodes nextvnodeid nchashtbl lru].
  - intros y. destruct (decide (y = x)) as [->|Hy]; [rewrite lookup_insert_eq|by rewrite lookup_insert_ne]. rewrite (no_ents _ HW), Ee. split; by eexists.
  - intros y e' d He'. destruct (decide (y = x)) as [->|Hy]; [rewrite lookup_insert_eq in He'; injection He' as <-; by intros []|].
    rewrite lookup_insert_ne in He' by done. by apply (I6 y).
  - intros y e' He'. destruct (decide (y = x)) as [->|Hy]; [rewrite lookup_insert_eq in He'; injection He' as <-; by apply (I7 x e)|].
    rewrite lookup_insert_ne in He' by done. by apply (I7 y).
  - intros i l y Hi Hy. rewrite lookup_insert_ne by (apply not_eq_sym; by apply (Hne i l)). by apply (H8 i l).
  - intros i l Hi. destruct (H9 i l Hi) as (Hn&Hu). split; [done|]. eapply (aged_mono (unchain x w)); [|done|exact Hu].
    intros y z Hy Hz. apply akin_ents; cbn [unchain unmark set_tbl set_ents ents]; rewrite lookup_insert_ne; [done| |done|]; apply not_eq_sym; by apply (Hne i l).
Qed.

Lemma mount_unmark x e w y : mount_of (unmark x e w) y = if decide (y = x) then None else mount_of w y.
Proof.
  unfold mount_of, unmark. cbn [ents set_ents vnodes]. destruct (decide (y = x)) as [->|Hne]; [by rewrite lookup_insert_eq|by rewrite lookup_insert_ne].
Qed.

(** One round: an entry stays, or goes. *)
Lemma purgevfs_step fuel mp x cur w : nc_ok w -> x ∈ lru w ->
  (mount_of w x <> Some mp /\ purgevfs_loop (S fuel) mp (x :: cur) w = purgevfs_loop fuel mp cur w) \/
  (mount_of w x = Some mp /\ lru w = [x] /\ purgevfs_loop (S fuel) mp (x :: cur) w = Fault) \/
  (mount_of w x = Some mp /\ exists e, ents w !! x = Some e /\
    let w' := set_lru (x :: without x (lru w)) (unchain x (unmark x e w)) in
    nc_ok w' /\ purgevfs_loop (S fuel) mp (x :: cur) w = purgevfs_loop fuel mp (without x (lru w)) w').
Proof.
  intros HW Hx. apply (no_ents _ HW) in Hx as (e&Ee). cbn [purgevfs_loop]. rewrite Ee. cbn [deref mbind outcome_bind].
  unfold mount_of. rewrite Ee. destruct (nc_dvp e) as [d|] eqn:Ed; cbn [mbind outcome_bind mret outcome_ret]; [|by left].
  destruct (no_refs _ HW x e d Ee ltac:(by left)) as (v&Ev). rewrite Ev. cbn [deref mbind outcome_bind mret outcome_ret fmap option_fmap option_map].
  destruct (decide (v_mount v = mp)) as [<-|Hne].
  2:{ left. split; [congruence|]. by rewrite bool_decide_eq_true_2 by done. }
  right. rewrite bool_decide_eq_false_2 by tauto. fold (unmark x e w). pose proof (unmark_ok w x e HW Ee) as HW1.
  destruct (front_ok (unchain x (unmark x e w)) x HW1) as [(El&->)|(l&->&->&HW2)].
  - apply (no_ents _ HW). by eexists.
  - by intros (?&_)%chained_unchain.
  - by left.
  - right. split; [done|]. exists e. split; [done|]. by split.
Qed.

(** The loop ends: each round goes on along the list, or takes one entry of the
    file system off.  What it has taken off is at the head of the list, and the rest
    is in the order it was in. *)
Record purged (mp : loc) (w0 : ncworld) (p : list loc) (w : ncworld) : Prop := {
  pg_ok : nc_ok w;
  pg_same : vnodes w = vnodes w0 /\ nextvnodeid w = nextvnodeid w0 /\ doingcache w = doingcache w0 /\ desiredvnodes w = desiredvnodes w0 /\ numcache w = numcache w0;
  pg_tbl : nchashtbl w = map (filter (fun x => x ∉ p)) (nchashtbl w0);
  pg_hash : nchash w = nchash w0;
  pg_lru : lru w = p ++ filter (fun x => x ∉ p) (lru w0);
  pg_mount : forall x, mount_of w x = if decide (x ∈ p) then None else mount_of w0 x;
  pg_gone : forall x, x ∈ p -> mount_of w0 x = Some mp;
  pg_kept : forall x e, x ∉ p -> chained w0 x -> ents w0 !! x = Some e -> chained w x /\ ents w !! x = Some e;
  pg_chained : forall x e, chained w x -> ents w !! x = Some e -> x ∉ p /\ chained w0 x /\ ents w0 !! x = Some e }.

Lemma purged_cons mp w0 p w x e : nc_ok w0 -> purged mp w0 p w -> mount_of w x = Some mp -> ents w !! x = Some e ->
  nc_ok (set_lru (x :: without x (lru w)) (unchain x (unmark x e w))) ->
  purged mp w0 (x :: p) (set_lru (x :: without x (lru w)) (unchain x (unmark x e w))).
Proof.
  intros HW0 HP Hm Ee HW'. destruct HP as [_ HS HT HH HL HM HG HK HC].
  assert (x ∉ p) as Hp by (rewrite HM in Hm; by case_decide).
  split; [done|done| |done| | | | |].
  - cbn [nchashtbl set_lru unchain set_tbl unmark set_ents]. rewrite HT, map_map. apply map_ext. intros l. unfold without. rewrite list_filter_filter.
    apply list_filter_iff. intros y. rewrite not_elem_of_cons. tauto.
  - cbn [lru set_lru app]. f_equal. rewrite HL. unfold without. rewrite list.filter_app. f_equal.
    + fold (without x p). by apply without_id.
    + rewrite list_filter_filter. apply list_filter_iff. intros y. rewrite not_elem_of_cons. tauto.
  - intros y. change (mount_of (set_lru _ _) y) with (mount_of (unmark x e w) y). rewrite mount_unmark, HM.
    destruct (decide (y = x)) as [->|Hne]; [by rewrite decide_True by left|]. destruct (decide (y ∈ p)) as [Hy|Hy]; [by rewrite decide_True by by right|].
    rewrite decide_False; [done|]. by rewrite not_elem_of_cons.
  - intros y [->|Hy]%elem_of_cons; [|by apply HG]. rewrite HM in Hm. by rewrite decide_False in Hm.
  - intros y e' (Hne&Hn)%not_elem_of_cons Hy Ey. destruct (HK y e' Hn Hy Ey) as (Hc&Ec). split.
    + change (chained (unchain x w) y). by apply chained_unchain.
    + cbn [ents set_lru unchain set_tbl unmark set_ents]. by rewrite lookup_insert_ne.
  - intros y e' Hy Ey. change (chained (unchain x w) y) in Hy. apply chained_unchain in Hy as (Hne&Hy). cbn [ents set_lru unchain set_tbl unmark set_ents] in Ey.
    rewrite lookup_insert_ne in Ey by done. destruct (HC y e' Hy Ey) as (?&?&?). by rewrite not_elem_of_cons.
Qed.

Lemma purgevfs_runs mp w0 : nc_ok w0 -> let N := length (lru w0) in
  forall fuel p cur w, purged mp w0 p w -> (forall x, x ∈ cur -> x ∈ lru w) -> (forall x, mount_of w x = Some mp -> x ∈ cur) ->
  ((N - length p) * S N + length cur < fuel)%nat ->
  (numcache w0 = 1 /\ purgevfs_loop fuel mp cur w = Fault) \/
  exists p' w', purgevfs_loop fuel mp cur w = Ok w' /\ purged mp w0 p' w' /\ forall x, mount_of w' x <> Some mp.
Proof.
  intros HW0 N. induction fuel as [|fuel IH]; intros p cur w HP Hsub Hall Hf; [lia|]. destruct cur as [|x cur].
  { right. exists p, w. split; [done|]. split; [done|]. intros x Hx%Hall. by apply elem_of_nil in Hx. }
  assert (length (lru w) = N) as HN.
  { pose proof (proj1 (no_num _ (pg_ok _ _ _ _ HP))) as E1. pose proof (proj1 (no_num _ HW0)) as E0.
    rewrite (proj2 (proj2 (proj2 (proj2 (pg_same _ _ _ _ HP))))) in E1. unfold N. lia. }
  assert (x ∈ lru w) as Hx by (apply Hsub; left). cbn [length] in Hf.
  destruct (purgevfs_step fuel mp x cur w (pg_ok _ _ _ _ HP) Hx) as [(Hm&->)|[(_&El&->)|(Hm&e&Ee&HW'&->)]].
  - apply IH with p; [done| | |lia]. { intros y Hy. apply Hsub. by right. }
    intros y Hy. destruct (proj1 (elem_of_cons _ _ _) (Hall y Hy)) as [->|]; [done|done].
  - left. split; [|done]. rewrite El in HN. rewrite (proj1 (no_num _ HW0)). fold N. by rewrite <- HN.
  - pose proof (purged_cons mp w0 p w x e HW0 HP Hm Ee HW') as HP'.
    assert (S (length (without x (lru w))) = N) as HL.
    { rewrite <- HN. apply (Permutation_length (l := x :: without x (lru w))), without_perm; [apply (no_lru _ (pg_ok _ _ _ _ HP))|done]. }
    apply IH with (x :: p); [done| | |].
    + intros y Hy. cbn [lru set_lru]. by right.
    + intros y Hy. change (mount_of (set_lru _ _) y) with (mount_of (unmark x e w) y) in Hy. rewrite mount_unmark in Hy. case_decide as Hne; [done|].
      apply elem_of_without. split; [done|]. by apply Hsub, Hall.
    + assert (length (x :: p) <= N)%nat as Hp.
      { pose proof (f_equal length (pg_lru _ _ _ _ HP')) as E. rewrite length_app in E. cbn [lru set_lru length] in *. lia. }
      cbn [length] in *. replace (N - length p)%nat with (S (N - S (length p)))%nat in Hf by lia. cbn [Nat.mul] in Hf. lia.
Qed.

Lemma purgevfs_ok mp w : nc_ok w ->
  (numcache w = 1 /\ cache_purgevfs mp w = Fault) \/
  exists p w', cache_purgevfs mp w = Ok w' /\ purged mp w p w' /\ forall x, mount_of w' x <> Some mp.
Proof.
  intros HW. unfold cache_purgevfs. apply (purgevfs_runs mp w HW) with []; [|done| |cbn [length]; lia].
  - split; try done.
    + rewrite <- (map_id (nchashtbl w)) at 1. apply map_ext. intros l. clear. induction l as [|x l IH]; [done|].
      rewrite filter_cons_True by apply not_elem_of_nil. by rewrite <- IH.
    + cbn [app]. clear. induction (lru w) as [|x l IH]; [done|]. rewrite filter_cons_True by apply not_elem_of_nil. by rewrite <- IH.
    + intros x Hx. by apply elem_of_nil in Hx.
    + intros x e Hx Ee. split; [apply not_elem_of_nil|done].
  - intros x Hx. apply (no_ents _ HW). unfold mount_of in Hx. destruct (ents w !! x); [by eexists|done].
Qed.

(** Names in the directories of the file system are gone; the others keep their
    answers. *)
Lemma purged_answers mp w p w' d name : nc_ok w -> purged mp w p w' -> (forall x, mount_of w' x <> Some mp) ->
  answers w' d name = if decide (v_mount <$> vnodes w !! d = Some mp) then [] else answers w d name.
Proof.
  intros HW [HW' (Ev&_) HT HH _ HM HG HK HC] Hno. rewrite !answers_chain.
  assert (chain w' name = filter (fun x => x ∉ p) (chain w name)) as Hc.
  { unfold chain, chain_of. rewrite HT, HH, list_lookup_fmap. by destruct (nchashtbl w !! _). }
  assert (forall x, x ∈ chain w' name -> hit w' d name x = hit w d name x) as Hhit.
  { intros x Hx. rewrite Hc in Hx. apply list_elem_of_filter in Hx as (Hp&Hx%chain_chained). pose proof (chained_lru w x HW Hx) as (e&Ee)%(no_ents _ HW).
    destruct (HK x e Hp Hx Ee) as (_&Ee'). apply hit_same; [done|congruence]. }
  rewrite (hits_ext _ _ _ Hhit). case_decide as Hm.
  - apply hits_none. intros x Hx. destruct (hit w d name x) as [a|] eqn:Ea; [|done]. exfalso. rewrite <- (Hhit x Hx) in Ea.
    destruct (hit_some _ _ _ _ _ Ea) as (e&Ee&(Kd&_)&_). apply (Hno x). unfold mount_of. by rewrite Ee, Kd, Ev.
  - rewrite Hc. apply hits_filter. intros x _ Hp%dec_stable. destruct (hit w d name x) as [a|] eqn:Ea; [|done]. exfalso.
    destruct (hit_some _ _ _ _ _ Ea) as (e&Ee&(Kd&_)&_). apply Hm. apply HG in Hp. unfold mount_of in Hp. by rewrite Ee, Kd in Hp.
Qed.
