(* ===== verification/NcRun.v ===== *)
(** * The name cache and its callers as one system

    Beside the cache, [names] is what its callers have told it: for each name of a
    directory the vnodes entered for it (or none, for a name that does not exist),
    the last one first, each with whether it has been purged since.  cache_enter
    does not replace what is there.  A lookup that returns 0 takes the last entry
    off: cache_lookup has dropped it, if the cache still had it.  The events of a
    [nproper_run] are those that callers cause: they name vnodes that there are, and
    enter no name longer than NCHNAMLEN, since cache_lookup clears ni_makeentry for
    those. *)

From S2P Require Import Prelude Kmalloc NameCache NcInv NcOps.

(** ** Booting *)

Lemma nchash_loop_ok fuel : forall k n, 0 <= k -> 31 < k + Z.of_nat fuel -> 0 <= n < 2 ^ 31 -> 2 ^ k <= 2 ^ 31 ->
  exists k', k <= k' <= Z.max k 31 /\ nchash_loop fuel (2 ^ k) n = Some (2 ^ k') /\ n < 2 ^ k' /\ (k' = k \/ 2 ^ (k' - 1) <= n).
Proof.
  induction fuel as [|fuel IH]; intros k n Hk Hf Hn Hp.
  - pose proof (Z.pow_lt_mono_r 2 31 k ltac:(lia) ltac:(lia) ltac:(lia)). lia.
  - cbn [nchash_loop]. destruct (2 ^ k <=? n) eqn:E; bool_prop; [|exists k; split; [lia|]; by auto].
    assert (k < 31) as Hk31 by (apply (Z.pow_lt_mono_r_iff 2); lia).
    assert (u32 (Z.shiftl (2 ^ k) 1) = 2 ^ (k + 1)) as ->.
    { rewrite Z.shiftl_mul_pow2, <- Z.pow_add_r by lia. apply u32_id. split; [apply Z.pow_nonneg; lia|apply Z.pow_lt_mono_r; lia]. }
    destruct (IH (k + 1) n) as (k'&Hk'&->&Hn'&Hr); [lia|lia|done|apply Z.pow_le_mono_r; lia|]. exists k'. split; [lia|]. split; [done|]. split; [done|].
    right. destruct Hr as [->|Hr]; [by rewrite Z.add_simpl_r|done].
Qed.

(** The table has whole pages, and the heads that the mask can reach are in it. *)
Lemma nchashsize_ok desired : 0 <= desired < 2 ^ 28 -> exists c, 1 <= c <= 2 ^ 18 /\ nchashsize desired = c * 4096.
Proof.
  intros Hd. unfold nchashsize, roundup. change CLBYTES with 4096. change (4096 - 1) with 4095.
  rewrite (u32_id (desired + 1)), (u32_id ((desired + 1) * 8)) by lia.
  replace ((desired + 1) * 8 / 2) with ((desired + 1) * 4) by (apply Z.div_unique_exact; lia).
  rewrite (u32_id (_ + 4095)) by lia. pose proof (Z.div_mod ((desired + 1) * 4 + 4095) 4096 ltac:(lia)) as Hq.
  pose proof (Z.mod_pos_bound ((desired + 1) * 4 + 4095) 4096 ltac:(lia)). set (c := _ / 4096) in *. exists c. split; [lia|].
  rewrite u32_id by lia. apply s32_id. lia.
Qed.

Lemma nchinit_ok desired : 0 <= desired < 2 ^ 28 -> exists w, nchinit desired = Ok w /\ nc_ok w /\
  vnodes w = ∅ /\ nextvnodeid w = 0 /\ doingcache w = true /\ desiredvnodes w = desired /\ numcache w = 0 /\ (forall x, ~ chained w x) /\
  Z.of_nat (length (nchashtbl w)) * 8 <= nchashsize desired.
Proof.
  intros Hd. destruct (nchashsize_ok desired Hd) as (c&Hc&Es). unfold nchinit. rewrite Es, u32_id by lia.
  replace (c * 4096 / 8) with (c * 512) by (apply Z.div_unique_exact; lia).
  destruct (nchash_loop_ok 32 0 (c * 512)) as (k&Hk&E&Hn&Hr); [lia..|]. change (2 ^ 0) with 1 in E. rewrite E. cbn [deref mbind outcome_bind mret outcome_ret].
  assert (0 < k) as Hk0 by (destruct (decide (k = 0)) as [->|]; [change (2 ^ 0) with 1 in Hn; lia|lia]).
  assert (u32 (Z.shiftr (2 ^ k) 1 - 1) = 2 ^ (k - 1) - 1) as ->.
  { rewrite Z.shiftr_div_pow2, <- Z.pow_sub_r by lia. pose proof (Z.pow_pos_nonneg 2 (k - 1) ltac:(lia) ltac:(lia)).
    pose proof (Z.pow_le_mono_r 2 (k - 1) 31 ltac:(lia) ltac:(lia)). apply u32_id. lia. }
  rewrite Z.sub_add. eexists. split; [reflexivity|]. split; [|split_and!; try done].
  - split; cbn; try done.
    + exists (k - 1). rewrite length_replicate. split_and!; [lia|done|done].
    + apply list.NoDup_nil. done.
    + intros x. rewrite lookup_empty. split; [by intros ?%elem_of_nil|by intros []].
    + split; [done|]. lia.
    + intros i l x Hi Hx. apply lookup_replicate in Hi as (->&_). by apply elem_of_nil in Hx.
    + intros i l Hi. apply lookup_replicate in Hi as (->&_). split; [by apply list.NoDup_nil|intros x y (Hx&_)%before_in; by apply elem_of_nil in Hx].
  - intros x (i&l&Hi&Hx). apply lookup_replicate in Hi as (->&_). by apply elem_of_nil in Hx.
  - cbn [nchashtbl]. rewrite length_replicate. pose proof (Z.pow_pos_nonneg 2 (k - 1) ltac:(lia) ltac:(lia)). rewrite Z2Nat.id by lia.
    destruct Hr as [->|Hr]; lia.
Qed.

(** ** The system *)

Record nsys := mkNsys { nw : ncworld; names : gmap (loc * list Z) (list (option loc * bool)) }.

Definition told (s : nsys) (d : loc) (name : list Z) : list (option loc * bool) := default [] (names s !! (d, name)).

Inductive nevent : Type :=
  | NLookup (d : loc) (name : list Z) (make : bool) (op : Z)
  | NEnter (d : loc) (name : list Z) (v : option loc)
  | NPurge (v : loc)
  | NRenew (v mp : loc)
  | NPurgeVfs (mp : loc).

Definition name_of (op : Z) (d : loc) (name : list Z) (make : bool) (v : option loc) : nameidata := mkNd op d name (name_hash name) make v.

Definition is_vnode (w : ncworld) (v : loc) : bool := bool_decide (is_Some (vnodes w !! v)).

(** A vnode is purged: the names in it go, and where it was entered it is stale.  A
    file system goes: the names in its directories go. *)
Definition names_purge (v : loc) (m : gmap (loc * list Z) (list (option loc * bool))) : gmap (loc * list Z) (list (option loc * bool)) :=
  map (stale v) <$> filter (fun kv => kv.1.1 <> v) m.
Definition names_purgevfs (w : ncworld) (mp : loc) (m : gmap (loc * list Z) (list (option loc * bool))) : gmap (loc * list Z) (list (option loc * bool)) :=
  filter (fun kv => v_mount <$> vnodes w !! kv.1.1 <> Some mp) m.

Definition nstep (e : nevent) (s : nsys) : outcome nsys :=
  let w := nw s in
  match e with
  | NLookup d name make op =>
      r ← cache_lookup (name_of op d name make None) w;
      let '(r, _, w) := r in
      mret (mkNsys w (if r =? 0 then alter tail (d, name) (names s) else names s))
  | NEnter d name v => w ← cache_enter (name_of LOOKUP d name true v) w; mret (mkNsys w (<[(d, name) := (v, true) :: told s d name]> (names s)))
  | NPurge v => w ← cache_purge v w; mret (mkNsys w (names_purge v (names s)))
  | NRenew v mp => w ← renew_vnode v mp w; mret (mkNsys w (names_purge v (names s)))
  | NPurgeVfs mp => w' ← cache_purgevfs mp w; mret (mkNsys w' (names_purgevfs w mp (names s)))
  end.

Fixpoint nrun (evs : list nevent) (s : nsys) : outcome nsys :=
  match evs with
  | [] => mret s
  | e :: evs => s ← nstep e s; nrun evs s
  end.

(** What callers may do. *)
Definition nproper (e : nevent) (s : nsys) : bool :=
  match e with
  | NLookup d _ _ _ => is_vnode (nw s) d
  | NEnter d name v => is_vnode (nw s) d && (if v is Some v then is_vnode (nw s) v else true) && (Z.of_nat (length name) <=? NCHNAMLEN)
  | NPurge v => is_vnode (nw s) v
  | NRenew _ _ | NPurgeVfs _ => true
  end.

Fixpoint nproper_run (evs : list nevent) (s : nsys) : bool :=
  match evs with
  | [] => true
  | e :: evs => nproper e s && match nstep e s with Ok s => nproper_run evs s | _ => true end
  end.

Definition nboot (desired : Z) : outcome nsys := w ← nchinit desired; mret (mkNsys w ∅).

(** ** The invariant of the system *)

Record nsys_ok (n : Z) (s : nsys) : Prop := {
  ns_ok : nc_ok (nw s);
  ns_doing : doingcache (nw s) = true;
  ns_next : 0 <= nextvnodeid (nw s) <= n;
  ns_names : forall d name, answers (nw s) d name `prefix_of` told s d name /\ (answers (nw s) d name <> [] -> Z.of_nat (length name) <= NCHNAMLEN) }.

(** The events that move entries to the head of the list of last use. *)
Definition drops (e : nevent) : bool := match e with NLookup _ _ _ _ | NPurgeVfs _ => true | _ => false end.

Definition nfine (n : Z) (e : nevent) (s : nsys) (o : outcome nsys) : Prop :=
  (o = Fault /\ numcache (nw s) = 1 /\ drops e = true) \/ exists s', o = Ok s' /\ nsys_ok n s'.

Lemma nsys_weaken n m s : n <= m -> nsys_ok n s -> nsys_ok m s.
Proof. intros Hle [H1 H2 H3 H4]. split; try done. lia. Qed.

(** *** Prefixes *)

Lemma prefix_head {A} (l k : list A) a : l `prefix_of` k -> head l = Some a -> head k = Some a.
Proof. intros (r&->). by destruct l. Qed.
Lemma prefix_tail {A} (l k : list A) : l `prefix_of` k -> tail l `prefix_of` tail k.
Proof. intros (r&->). destruct l; [apply prefix_nil|by exists r]. Qed.
Lemma prefix_map {A B} (f : A -> B) (l k : list A) : l `prefix_of` k -> map f l `prefix_of` map f k.
Proof. intros (r&->). exists (map f r). apply map_app. Qed.

(** *** Events *)

(** A lookup answers what its callers have told the cache. *)
Lemma lookup_names n s op d name make v : nsys_ok n s -> is_Some (vnodes (nw s) !! d) ->
  (cache_lookup (name_of op d name make v) (nw s) = Fault /\ numcache (nw s) = 1) \/
  exists r n' w', cache_lookup (name_of op d name make v) (nw s) = Ok (r, n', w') /\
    nsys_ok n (mkNsys w' (if r =? 0 then alter tail (d, name) (names s) else names s)) /\
    ((r = - 1 /\ make = true /\ exists vp, ni_vp n' = Some vp /\ head (told s d name) = Some (Some vp, true)) \/
     (r = ENOENT /\ make = true /\ Z.land op OPMASK <> CREATE /\ head (told s d name) = Some (None, true)) \/ r = 0).
Proof.
  intros [HW Hdo Hnx HN] Hd.
  destruct (lookup_ok (nw s) (name_of op d name make v) HW Hd eq_refl) as [(?&?&_)|(r&n'&w'&->&[HW' _ _ Ex Edo _]&HR&HO)]; [by left|right].
  exists r, n', w'. split; [done|]. unfold lookup_result in HR. cbn [name_of ni_dvp ni_ptr ni_makeentry ni_nameiop] in HR, HO. rewrite Hdo in HR. cbn [andb] in HR. split.
  - split; cbn [nw names]; [done|congruence|by rewrite Ex|]. intros d' name'. destruct (HN d' name') as (Hp&Hl).
    destruct (decide ((d', name') = (d, name))) as [[= -> ->]|Hne].
    2:{ rewrite (HO d' name' Hne). split; [|done]. destruct (r =? 0); [|done]. unfold told. cbn [names]. by rewrite lookup_alter_ne. }
    destruct HR as [(->&_&_&->)|[(->&_&_&_&_&->)|(->&HR)]]; [done..|]. cbn [Z.eqb]. unfold told at 1. cbn [names].
    rewrite lookup_alter_eq. replace (default [] (tail <$> names s !! (d, name))) with (tail (told s d name)) by (unfold told; by destruct (names s !! _)).
    destruct (_ <=? NCHNAMLEN) eqn:El; bool_prop.
    + destruct HR as (_&->). split; [by apply prefix_tail|done].
    + rewrite HR. assert (answers (nw s) d name = []) as ->; [|split; [apply prefix_nil|done]].
      destruct (answers (nw s) d name); [done|]. by specialize (Hl ltac:(done)); lia.
  - destruct (HN d name) as (Hp&_). destruct HR as [(->&->&(vp&Ev&Hk)&_)|[(->&_&->&Hop&Hk&_)|(->&_)]].
    + left. split; [done|]. split; [done|]. exists vp. split; [done|]. by eapply prefix_head.
    + right. left. split_and!; try done. by eapply prefix_head.
    + by right; right.
Qed.

Lemma enter_names n s d name v : nsys_ok n s -> is_Some (vnodes (nw s) !! d) -> (forall u, v = Some u -> is_Some (vnodes (nw s) !! u)) ->
  Z.of_nat (length name) <= NCHNAMLEN ->
  exists w', cache_enter (name_of LOOKUP d name true v) (nw s) = Ok w' /\ nsys_ok n (mkNsys w' (<[(d, name) := (v, true) :: told s d name]> (names s))).
Proof.
  intros [HW Hdo Hnx HN] Hd Hv Hl.
  destruct (enter_ok (nw s) (name_of LOOKUP d name true v) HW Hd Hv eq_refl Hl Hdo) as (w'&->&HW'&_&Ex&Edo&HA&_).
  exists w'. split; [done|]. cbn [name_of ni_dvp ni_ptr ni_vp] in HA. split; cbn [nw names]; [done|congruence|by rewrite Ex|].
  intros d' name'. destruct (HN d' name') as (Hp&Hl'). specialize (HA d' name'). unfold told at 1. cbn [names]. case_decide as He.
  - injection He as -> ->. rewrite lookup_insert_eq. split; [|done]. etrans; [exact HA|]. by apply (prefix_app [(v, true)]).
  - rewrite lookup_insert_ne by congruence. split; [by etrans|]. intros Hne. apply Hl'. intros E. rewrite E in HA. by apply prefix_nil_inv in HA.
Qed.

Lemma told_fmap (f : list (option loc * bool) -> list (option loc * bool)) o : f [] = [] -> default [] (f <$> o) = f (default [] o).
Proof. by destruct o. Qed.

Lemma renew_names n s v mp : nsys_ok n s -> nsys_ok (n + 1) (mkNsys (renew v mp (nw s)) (names_purge v (names s))).
Proof.
  intros [HW Hdo Hnx HN]. split; cbn [nw names]; [apply renew_ok; [done|lia]|done|cbn [renew set_vnodes set_nextvnodeid nextvnodeid]; lia|].
  intros d name. destruct (HN d name) as (Hp&Hl). rewrite renew_answers by done. case_decide as Hd; [split; [apply prefix_nil|done]|].
  unfold told, names_purge. cbn [names]. rewrite lookup_fmap, told_fmap by done. rewrite map_lookup_filter.
  destruct (names s !! (d, name)) as [k|] eqn:E; unfold told in Hp; rewrite E in Hp; cbn [mbind option_bind].
  - rewrite option_guard_True by done. split; [by apply prefix_map|]. intros Hne. apply Hl. intros E'. by rewrite E' in Hne.
  - apply prefix_nil_inv in Hp. rewrite Hp. split; [apply prefix_nil|done].
Qed.

Lemma purgevfs_names n s mp : nsys_ok n s ->
  (numcache (nw s) = 1 /\ cache_purgevfs mp (nw s) = Fault) \/
  exists w', cache_purgevfs mp (nw s) = Ok w' /\ nsys_ok n (mkNsys w' (names_purgevfs (nw s) mp (names s))).
Proof.
  intros [HW Hdo Hnx HN]. destruct (purgevfs_ok mp (nw s) HW) as [|(p&w'&->&HP&Hno)]; [by left|right].
  exists w'. split; [done|]. pose proof HP as [HW' (Ev&Ex&Edo&_) _ _ _ _ _ _ _]. split; cbn [nw names]; [done|congruence|by rewrite Ex|].
  intros d name. destruct (HN d name) as (Hp&Hl). rewrite (purged_answers mp (nw s) p) by done. case_decide as Hm; [split; [apply prefix_nil|done]|].
  split; [|done]. unfold told, names_purgevfs in *. cbn [names]. rewrite map_lookup_filter. destruct (names s !! (d, name)); [|done]. cbn [mbind option_bind].
  by rewrite option_guard_True.
Qed.

Lemma nstep_ok n e s : nsys_ok n s -> nproper e s = true -> n + 1 < 2 ^ 32 -> nfine (n + 1) e s (nstep e s).
Proof.
  intros HS HP Hn. pose proof (ns_next _ _ HS) as Hnx. unfold nfine. destruct e as [d name make op|d name v|v|v mp|mp]; cbn [nstep drops nproper] in *; unfold is_vnode in *.
  - apply bool_decide_eq_true in HP. destruct (lookup_names n s op d name make None HS HP) as [(->&?)|(r&n'&w'&->&HS'&_)]; [by left|right].
    eexists. split; [reflexivity|]. by apply (nsys_weaken n); [lia|].
  - apply andb_true_iff in HP as ((Hd%bool_decide_eq_true&Hv)%andb_true_iff&Hl). bool_prop.
    destruct (enter_names n s d name v HS Hd) as (w'&->&HS'); [|done|].
    { intros u ->. by apply bool_decide_eq_true in Hv. }
    right. eexists. split; [reflexivity|]. by apply (nsys_weaken n); [lia|].
  - apply bool_decide_eq_true in HP as (x&Ex). rewrite (purge_ok v (nw s) x Ex) by lia. cbn [mbind outcome_bind].
    right. eexists. split; [reflexivity|]. by apply renew_names.
  - rewrite renew_vnode_ok by lia. cbn [mbind outcome_bind]. right. eexists. split; [reflexivity|]. by apply renew_names.
  - destruct (purgevfs_names n s mp HS) as [(?&->)|(w'&->&HS')]; [by left|right]. eexists. split; [reflexivity|]. by apply (nsys_weaken n); [lia|].
Qed.

Lemma nboot_ok desired : 0 <= desired < 2 ^ 28 -> exists s, nboot desired = Ok s /\ nsys_ok 0 s.
Proof.
  intros Hd. destruct (nchinit_ok desired Hd) as (w&E&HW&_&Ex&Edo&_&_&Hc&_). unfold nboot. rewrite E. cbn [mbind outcome_bind].
  eexists. split; [reflexivity|]. split; cbn [nw names]; [done|done|lia|]. intros d name.
  assert (answers w d name = []) as ->; [|split; [apply prefix_nil|done]]. rewrite answers_chain. apply hits_none. intros x Hx%chain_chained. by destruct (Hc x).
Qed.

(** A run goes to its end, or stops at an event that leaves no other entry. *)
Lemma nrun_ok evs : forall n s, nsys_ok n s -> nproper_run evs s = true -> n + Z.of_nat (length evs) < 2 ^ 32 ->
  (exists s', nrun evs s = Ok s' /\ nsys_ok (n + Z.of_nat (length evs)) s') \/
  (nrun evs s = Fault /\ exists evs1 e evs2 s1, evs = evs1 ++ e :: evs2 /\ nrun evs1 s = Ok s1 /\ numcache (nw s1) = 1 /\ drops e = true).
Proof.
  induction evs as [|e evs IH]; intros n s HS HP Hn; cbn [nrun].
  - left. exists s. split; [done|]. by apply (nsys_weaken n); [cbn; lia|].
  - cbn [length] in Hn. cbn [nproper_run] in HP. apply andb_true_iff in HP as (He&HP). destruct (nstep_ok n e s HS He ltac:(lia)) as [(E&H1&Hd)|(s1&E&HS1)].
    + right. rewrite E. split; [done|]. by exists [], e, evs, s.
    + rewrite E in HP |- *. cbn [mbind outcome_bind]. destruct (IH (n + 1) s1 HS1 HP ltac:(lia)) as [(s'&->&HS')|(->&evs1&e1&evs2&s2&->&E2&H2)].
      * left. exists s'. split; [done|]. eapply nsys_weaken; [|exact HS']. cbn [length]. lia.
      * right. split; [done|]. exists (e :: evs1), e1, evs2, s2. split; [done|]. split; [|done]. cbn [nrun]. rewrite E. exact E2.
Qed.
