(* ===== verification/NcSpec.v ===== *)
(** * The name cache: the properties

    Lookups answer the last entry that is not withdrawn; what is entered is found;
    cache_purgevfs ends; what happens when the ids wrap around. *)

From S2P Require Import Prelude Kmalloc NameCache NcInv NcOps NcRun.

(** The first answer is found. *)
Lemma lookup_hit w op d name v : nc_ok w -> doingcache w = true -> is_Some (vnodes w !! d) -> Z.of_nat (length name) <= NCHNAMLEN ->
  head (answers w d name) = Some (v, true) -> v <> None \/ Z.land op OPMASK <> CREATE ->
  exists n' w', cache_lookup (name_of op d name true None) w = Ok (match v with Some _ => - 1 | None => ENOENT end, n', w') /\ ni_vp n' = v.
Proof.
  intros HW Hdo Hd Hl Hk Hop. set (n := name_of op d name true None).
  assert (unwanted w n -> False) as Hun by (intros H; destruct (H v Hk) as [|(->&?)]; [done|]; by destruct Hop).
  destruct (lookup_ok w n HW Hd eq_refl) as [(_&_&H)|(r&n'&w'&E&_&HR&_)]; [by destruct Hun|]. unfold lookup_result in HR.
  cbn [n name_of ni_dvp ni_ptr ni_makeentry ni_nameiop] in HR. fold n in HR. rewrite Hk, Hdo, (proj2 (Z.leb_le _ _) Hl) in HR. cbn [andb] in HR.
  destruct HR as [(->&_&(vp&Hvp&[= ->])&_)|[(->&->&_&_&[= ->]&_)|(_&H&_)]]; [by exists n', w'|by exists n, w'|by destruct Hun].
Qed.

(** *** Instances *)

(** A run from a cache for a hundred vnodes, and what it gives. *)
Definition nc_after {A} (d : A) (f : ncworld -> A) (evs : list nevent) : A :=
  match nboot 100 with
  | Ok s0 => if nproper_run evs s0 then match nrun evs s0 with Ok s => f (nw s) | _ => d end else d
  | _ => d
  end.

Lemma nc_reached {A} (d : A) f evs x : Z.of_nat (length evs) < 2 ^ 32 -> nc_after d f evs = x -> x <> d -> exists w, f w = x /\ nc_ok w.
Proof.
  intros Hn. unfold nc_after. destruct (nboot_ok 100 ltac:(lia)) as (s0&->&HS0).
  destruct (nproper_run evs s0) eqn:HP; [|by intros ->]. destruct (nrun_ok evs 0 s0 HS0 HP ltac:(lia)) as [(s&->&HS)|(->&_)]; [|by intros ->].
  intros E _. exists (nw s). split; [done|apply HS].
Qed.

Lemma later_ok w n : nc_ok w -> nextvnodeid w <= n -> nc_ok (set_nextvnodeid n w).
Proof.
  intros [H1 H2 H3 H4 H5 H6 H7 H8 H9] Hn. split; try done; cbn [set_nextvnodeid vnodes ents nextvnodeid nchashtbl].
  - intros v x Hx%H5. lia.
  - intros x e He. destruct (H7 x e He). lia.
Qed.

(** ** The properties *)

(** C21. Lookups, entries, purges, new vnodes and unmounts in any order, fewer than
    2^32 of them, from nchinit, as long as they name vnodes there are and enter no
    name longer than NCHNAMLEN: the number of entries stays the length of the list of
    last use and within desiredvnodes.  At every moment a lookup of any name answers
    only with the last entry made for it that no lookup returning 0 has taken off
    since (one lookup takes off one: a name that is entered again has two entries,
    and the earlier can answer again), only if no purge of the directory or the vnode
    and no unmount has withdrawn it, and never when the name is not to be cached: the
    vnode, or ENOENT for a name entered as not existing.  The one failure:
    cache_lookup or cache_purgevfs, when it moves the only entry there is to the head
    of the list, writes through null. *)
Theorem nc_safe evs desired : 0 <= desired < 2 ^ 28 -> Z.of_nat (length evs) < 2 ^ 32 ->
  exists s0, nboot desired = Ok s0 /\ (nproper_run evs s0 = true ->
  (exists s, nrun evs s0 = Ok s /\ numcache (nw s) = Z.of_nat (length (lru (nw s))) /\ numcache (nw s) <= Z.max 0 (desiredvnodes (nw s)) /\
      forall d name make op, is_Some (vnodes (nw s) !! d) ->
        (cache_lookup (name_of op d name make None) (nw s) = Fault /\ numcache (nw s) = 1) \/
        exists r n' w', cache_lookup (name_of op d name make None) (nw s) = Ok (r, n', w') /\
          ((r = - 1 /\ make = true /\ exists vp, ni_vp n' = Some vp /\ head (told s d name) = Some (Some vp, true)) \/
           (r = ENOENT /\ make = true /\ Z.land op OPMASK <> CREATE /\ head (told s d name) = Some (None, true)) \/ r = 0)) \/
   (nrun evs s0 = Fault /\ exists evs1 e evs2 s1, evs = evs1 ++ e :: evs2 /\ nrun evs1 s0 = Ok s1 /\ numcache (nw s1) = 1 /\ drops e = true)).
Proof.
  intros Hd Hn. destruct (nboot_ok desired Hd) as (s0&E0&HS0). exists s0. split; [done|]. intros HP.
  destruct (nrun_ok evs 0 s0 HS0 HP ltac:(lia)) as [(s&E&HS)|]; [left|by right]. exists s. split; [done|].
  destruct (no_num _ (ns_ok _ _ HS)) as (?&?&_). split; [done|]. split; [done|]. intros d name make op Hv.
  destruct (lookup_names _ s op d name make None HS Hv) as [|(r&n'&w'&E'&_&HR)]; [by left|right]. by exists r, n', w'.
Qed.

(** A file is looked up, entered, purged and entered again; a file system goes.  The
    name is entered once more, and a lookup that is to delete it takes that off: the
    vnode entered before answers again. *)
Definition nc_run : list nevent :=
  [NRenew 10 1; NRenew 11 1; NRenew 12 2; NLookup 10 [97] true LOOKUP; NEnter 10 [97] (Some 11%positive); NEnter 12 [97] None;
   NLookup 10 [97] true LOOKUP; NPurge 11; NLookup 10 [97] true LOOKUP; NEnter 10 [97] (Some 12%positive); NPurgeVfs 2;
   NEnter 10 [97] (Some 11%positive); NLookup 10 [97] false DELETE].

Definition nc_hit (s : nsys) : option (Z * option loc) :=
  match cache_lookup (name_of LOOKUP 10 [97] true None) (nw s) with Ok (r, n, _) => Some (r, ni_vp n) | _ => None end.

Lemma nc_safe_witness : exists s0 s n' w', nboot 100 = Ok s0 /\ nproper_run nc_run s0 = true /\ nrun nc_run s0 = Ok s /\ numcache (nw s) = 4 /\
  cache_lookup (name_of LOOKUP 10 [97] true None) (nw s) = Ok (- 1, n', w') /\ ni_vp n' = Some 12%positive /\
  head (told s 10 [97]) = Some (Some 12%positive, true).
Proof.
  destruct (nc_safe nc_run 100 ltac:(lia) ltac:(cbn; lia)) as (s0&E0&H). exists s0.
  assert (match nboot 100 with Ok s0 => match nrun nc_run s0 with Ok s =>
      (nproper_run nc_run s0, numcache (nw s), nc_hit s, is_vnode (nw s) 10) | _ => (false, 0, None, false) end | _ => (false, 0, None, false) end =
      (true, 4, Some (- 1, Some 12%positive), true)) as HE by (by vm_compute).
  rewrite E0 in HE. destruct (nrun nc_run s0) as [s| |] eqn:E; [|done..]. injection HE as HP Hn Hh Hv. unfold nc_hit in Hh.
  unfold is_vnode in Hv. apply bool_decide_eq_true in Hv. destruct (H HP) as [(s'&[= <-]&_&_&HL)|(?&_)]; [|done].
  destruct (HL 10%positive [97] true LOOKUP Hv) as [(EF&_)|(r&n'&w'&EL&HR)]; [by rewrite EF in Hh|]. rewrite EL in Hh. injection Hh as -> Hp.
  exists s, n', w'. do 6 (split; [done|]).
  destruct HR as [(_&_&vp&Hvp&Hnames)|[(?&_)|?]]; [|done..]. by rewrite Hp in Hvp; injection Hvp as <-.
Defined.

(** The only entry there is goes when its name is to be deleted. *)
Example nc_only_faults : (s ← nboot 100; nrun [NRenew 10 1; NRenew 11 1; NEnter 10 [97] (Some 11%positive); NLookup 10 [97] false DELETE] s) = Fault.
Proof. by vm_compute. Qed.

(** C37. What cache_enter has entered cache_lookup finds: the vnode, or ENOENT for a
    name that is entered as not existing (when it is not to be created), whatever the
    cache had of the name before.  The precondition is that the cache has room for an
    entry. *)
Theorem enter_lookup w op d name v : nc_ok w -> doingcache w = true -> 0 < numcache w \/ 0 < desiredvnodes w ->
  is_Some (vnodes w !! d) -> (forall u, v = Some u -> is_Some (vnodes w !! u)) -> Z.of_nat (length name) <= NCHNAMLEN ->
  v <> None \/ Z.land op OPMASK <> CREATE ->
  exists w1 n' w2, cache_enter (name_of LOOKUP d name true v) w = Ok w1 /\
    cache_lookup (name_of op d name true None) w1 = Ok (match v with Some _ => - 1 | None => ENOENT end, n', w2) /\ ni_vp n' = v.
Proof.
  intros HW Hdo Hroom Hd Hv Hl Hop.
  destruct (enter_ok w (name_of LOOKUP d name true v) HW Hd Hv eq_refl Hl Hdo) as (w1&->&HW1&Ev&_&Edo&_&Hk). specialize (Hk Hroom).
  cbn [name_of ni_dvp ni_ptr ni_vp] in Hk. exists w1.
  destruct (lookup_hit w1 op d name v HW1 ltac:(congruence) ltac:(by rewrite Ev) Hl Hk Hop) as (n'&w2&E&Hn). by exists n', w2.
Qed.

(** The name was entered before, for another vnode. *)
Lemma enter_lookup_witness : exists w w1 n' w2, answers w 10 [97] = [(Some 12%positive, true)] /\
  cache_enter (name_of LOOKUP 10 [97] true (Some 11%positive)) w = Ok w1 /\
  cache_lookup (name_of LOOKUP 10 [97] true None) w1 = Ok (- 1, n', w2) /\ ni_vp n' = Some 11%positive.
Proof.
  destruct (nc_reached (None, None, false, 0, []) (fun w => (vnodes w !! 10%positive, vnodes w !! 11%positive, doingcache w, desiredvnodes w, answers w 10 [97]))
    [NRenew 10 1; NRenew 11 1; NRenew 12 1; NEnter 10 [97] (Some 12%positive)] (Some (mkVnode 1 1), Some (mkVnode 2 1), true, 100, [(Some 12%positive, true)])) as (w&E&HW);
    [cbn; lia|by vm_compute|done|].
  injection E as H1 H2 H3 H4 H5. exists w.
  destruct (enter_lookup w LOOKUP 10 [97] (Some 11%positive) HW H3) as (w1&n'&w2&E1&E2&E3).
  - right. by rewrite H4.
  - rewrite H1. by eexists.
  - intros u [= <-]. rewrite H2. by eexists.
  - cbn. unfold NCHNAMLEN. lia.
  - by left.
  - by exists w1, n', w2.
Defined.

(** C38. cache_purgevfs ends, though it starts at the head of the list again after
    each entry it takes off (with at least two entries; see above for one).
    Afterwards no entry has a directory of the file system.  The entries taken off
    are at the head of the list of last use, to be used first; the others are in the
    order they were in, and lookups can return just what they could of the
    directories of other file systems. *)
Theorem cache_purgevfs_spec mp w : nc_ok w -> numcache w <> 1 ->
  exists p w', cache_purgevfs mp w = Ok w' /\ lru w' = p ++ filter (fun x => mount_of w x <> Some mp) (lru w) /\
    (forall x, x ∈ p -> mount_of w x = Some mp) /\ (forall x, mount_of w' x <> Some mp) /\
    forall d name vp, known w' d name vp <-> known w d name vp /\ v_mount <$> vnodes w !! d <> Some mp.
Proof.
  intros HW Hn. destruct (purgevfs_ok mp w HW) as [(?&_)|(p&w'&->&[HW' (Ev&_) _ _ HL HM HG HK HC]&Hno)]; [done|]. exists p, w'. split; [done|].
  assert (forall x, x ∉ p <-> mount_of w x <> Some mp) as Hp.
  { intros x. split; [intros Hx E|intros E Hx; by apply E, HG]. apply (Hno x). by rewrite HM, decide_False. }
  split; [|split; [done|split; [done|]]].
  - rewrite HL. f_equal. by apply list_filter_iff.
  - intros d name vp. split.
    + intros (x&e&Hx&Ee&Hval&Ed&En&Ep). destruct (HC x e Hx Ee) as (Hxp&Hx'&Ee').
      split; [exists x, e; split_and!; try done; by apply (valid_frame w w')|].
      apply Hp in Hxp. unfold mount_of in Hxp. by rewrite Ee', Ed in Hxp.
    + intros ((x&e&Hx&Ee&Hval&Ed&En&Ep)&Hm). assert (x ∉ p) as Hxp by (apply Hp; unfold mount_of; by rewrite Ee, Ed).
      destruct (HK x e Hxp Hx Ee) as (Hx'&Ee'). exists x, e. split_and!; try done. by apply (valid_frame w w').
Qed.

Lemma cache_purgevfs_spec_witness : exists w p w', lru w = [2; 3; 4]%positive /\ mount_of w 3 = Some 2%positive /\
  cache_purgevfs 2 w = Ok w' /\ lru w' = p ++ [2; 4]%positive /\ mount_of w' 3 <> Some 2%positive.
Proof.
  destruct (nc_reached ([], 0, None, None, None) (fun w => (lru w, numcache w, mount_of w 2, mount_of w 3, mount_of w 4))
    [NRenew 10 1; NRenew 11 1; NRenew 12 2; NEnter 10 [97] (Some 11%positive); NEnter 12 [98] None; NEnter 10 [98] None]
    ([2; 3; 4]%positive, 3, Some 1%positive, Some 2%positive, Some 1%positive)) as (w&E&HW); [cbn; lia|by vm_compute|done|].
  injection E as H1 H2 H3 H4 H5. exists w.
  destruct (cache_purgevfs_spec 2 w HW) as (p&w'&E&HL&Hp&Hno&_); [by rewrite H2|]. exists p, w'. do 3 (split; [done|]). split; [|apply Hno].
  rewrite HL, H1. rewrite filter_cons_True by (by rewrite H3). rewrite filter_cons_False by (rewrite H4; tauto). by rewrite filter_cons_True by (by rewrite H5).
Defined.

(** When the counter of the ids wraps around, cache_purge takes the ids off all
    entries on the chains: no lookup finds anything that was entered before, and the
    vnode purged gets the id 1. *)
Theorem cache_purge_wraps v w x : nc_ok w -> vnodes w !! v = Some x -> nextvnodeid w = 2 ^ 32 - 1 ->
  exists w', cache_purge v w = Ok w' /\ nextvnodeid w' = 1 /\ v_id <$> vnodes w' !! v = Some 1 /\ forall d name vp, ~ known w' d name vp.
Proof. apply purge_wrap_ok. Qed.

Lemma cache_purge_wraps_witness : exists w w', known w 10 [97] (Some 11%positive) /\ cache_purge 12 w = Ok w' /\ ~ known w' 10 [97] (Some 11%positive).
Proof.
  destruct (nc_reached (false, None, 0, None, []) (fun w => (bool_decide (valid w (mkNc (Some 10%positive) 1 (Some 11%positive) 2 [97])), vnodes w !! 12%positive, nextvnodeid w, ents w !! 2%positive, concat (nchashtbl w)))
    [NRenew 10 1; NRenew 11 1; NRenew 12 2; NEnter 10 [97] (Some 11%positive)]
    (true, Some (mkVnode 3 2), 3, Some (mkNc (Some 10%positive) 1 (Some 11%positive) 2 [97]), [2%positive])) as (w&E&HW); [cbn; lia|by vm_compute|done|].
  injection E as H1%bool_decide_eq_true H2 H3 H4 H5. set (w0 := set_nextvnodeid (2 ^ 32 - 1) w). exists w0.
  destruct (cache_purge_wraps 12 w0 (mkVnode 3 2)) as (w'&E&_&_&Hno); [apply later_ok; [done|lia]|done|done|]. exists w'. split; [|by split; [|apply Hno]].
  exists 2%positive, (mkNc (Some 10%positive) 1 (Some 11%positive) 2 [97]). split; [|split_and!; done].
  assert (2%positive ∈ concat (nchashtbl w)) as Hc by (rewrite H5; left). apply list_elem_of_In, in_concat in Hc as (l&Hl%list_elem_of_In&Hx%list_elem_of_In).
  apply list_elem_of_lookup in Hl as (i&Hi). by exists i, l.
Defined.

(** Then an id comes back: a vnode that was given the id 2 before the wrap and is
    entered after it is purged, and gets the id 2 again. *)
Example purge_wrap_stale :
  nc_after None (fun w =>
    match (w ← cache_purge 12 (set_nextvnodeid (2 ^ 32 - 1) w);
           w ← cache_enter (name_of LOOKUP 10 [97] true (Some 11%positive)) w;
           w ← cache_purge 11 w;
           cache_lookup (name_of LOOKUP 10 [97] true None) w) with
    | Ok (r, n, w) => Some (r, ni_vp n)
    | _ => None
    end) [NRenew 10 1; NRenew 11 1; NRenew 12 2] = Some (- 1, Some 11%positive).
Proof. by vm_compute. Qed.
