(* ===== verification/Callout.v ===== *)
(** * The timeout queue (sys/kern/kern_clock.c: timeout, untimeout, and the
    queue parts of hardclock and softclock)

    [calltodo] keeps each entry's time as a delta from the entry before it; at
    the front are the entries already due, whose times are zero or negative.
    The specification is a queue of absolute remaining times, kept sorted.  The
    interface [TimeoutQueue] is what the clients of [timeout] rely on. *)

From Stdlib Require Import Sorting.Sorted.
From S2P Require Import Prelude.

(** Functions and their arguments are told apart by their addresses. *)
Record callout := mkCallout { c_loc : loc; c_time : Z; c_func : Z; c_arg : Z }.

(** The lists hanging off [calltodo.c_next] and [callfree]. *)
Record ctab := mkCtab { calltodo : list callout; callfree : list callout }.

Definition set_time (p : callout) (t : Z) : callout :=
  mkCallout (c_loc p) t (c_func p) (c_arg p).

(** ** Operations *)

(** The search and insertion of [timeout] (lines 408-415). *)
Fixpoint timeout_ins (pnew : callout) (t : Z) (l : list callout) : list callout :=
  match l with
  | [] => [set_time pnew t]
  | p2 :: l' =>
      if c_time p2 <? t then
        p2 :: timeout_ins pnew (if 0 <? c_time p2 then s32 (t - c_time p2) else t) l'
      else set_time pnew t :: set_time p2 (s32 (c_time p2 - t)) :: l'
  end.

Definition timeout (func arg t : Z) (s : ctab) : outcome ctab :=
  let t := if t <=? 0 then 1 else t in
  match callfree s with
  | [] => Panic "timeout table overflow"
  | pnew :: free =>
      let pnew := mkCallout (c_loc pnew) (c_time pnew) func arg in
      mret (mkCtab (timeout_ins pnew t (calltodo s)) free)
  end.

(** The entry unlinked, if one matches, and the list left. *)
Fixpoint untimeout_del (func arg : Z) (l : list callout) : option (callout * list callout) :=
  match l with
  | [] => None
  | p2 :: l' =>
      if (c_func p2 =? func) && (c_arg p2 =? arg) then
        Some (p2,
          match l' with
          | p3 :: l'' =>
              if 0 <? c_time p2 then set_time p3 (s32 (c_time p3 + c_time p2)) :: l'' else l'
          | [] => l'
          end)
      else
        match untimeout_del func arg l' with
        | Some (p, l') => Some (p, p2 :: l')
        | None => None
        end
  end.

Definition untimeout (func arg : Z) (s : ctab) : ctab :=
  match untimeout_del func arg (calltodo s) with
  | Some (p2, l) => mkCtab l (p2 :: callfree s)
  | None => s
  end.

(** The queue update of [hardclock] (lines 117-125), and [needsoft]. *)
Fixpoint hardclock_callout (l : list callout) : list callout * bool :=
  match l with
  | [] => ([], false)
  | p1 :: l' =>
      let t := s32 (c_time p1 - 1) in
      if 0 <? t then (set_time p1 t :: l', false)
      else if t =? 0 then (set_time p1 t :: l', true)
      else (set_time p1 t :: (hardclock_callout l').1, true)
  end.

(** One turn of [softclock]'s loop (lines 348-357): the entry to run. *)
Definition softclock_pop (s : ctab) : option (callout * ctab) :=
  match calltodo s with
  | [] => None
  | p1 :: l => if 0 <? c_time p1 then None else Some (p1, mkCtab l (p1 :: callfree s))
  end.

(** What a called function does to the queue. *)
Inductive callop :=
  | OpTimeout (func arg t : Z)
  | OpUntimeout (func arg : Z).

Fixpoint run_ops (ops : list callop) (s : ctab) : outcome ctab :=
  match ops with
  | [] => mret s
  | OpTimeout f a t :: ops => s ← timeout f a t s; run_ops ops s
  | OpUntimeout f a :: ops => run_ops ops (untimeout f a s)
  end.

(** The loop of [softclock] over the due entries; [handler f a late] is what
    [( *f)(a, late)] does to the queue.  The calls made are returned in order. *)
Fixpoint softclock_loop (handler : Z -> Z -> Z -> list callop) (fuel : nat) (s : ctab)
  : outcome (list (Z * (Z * Z)) * ctab) :=
  match fuel with
  | O => Fault
  | S fuel =>
      match softclock_pop s with
      | None => mret ([], s)
      | Some (p1, s) =>
          s ← run_ops (handler (c_func p1) (c_arg p1) (c_time p1)) s;
          '(evs, s) ← softclock_loop handler fuel s;
          mret ((c_time p1, (c_func p1, c_arg p1)) :: evs, s)
      end
  end.

(** ** Specification: absolute remaining times *)

Fixpoint rem_from (acc : Z) (l : list callout) : list (Z * (Z * Z)) :=
  match l with
  | [] => []
  | p :: l =>
      (acc + c_time p, (c_func p, c_arg p)) :: rem_from (Z.max acc (acc + c_time p)) l
  end.

Definition pending (s : ctab) : list (Z * (Z * Z)) := rem_from 0 (calltodo s).

(** Deltas are not negative once a positive one was met, and all sums fit. *)
Fixpoint wf_from (acc : Z) (l : list callout) : Prop :=
  match l with
  | [] => True
  | p :: l =>
      (acc = 0 \/ 0 <= c_time p) /\ - 2 ^ 31 <= c_time p /\ acc + c_time p < 2 ^ 31
      /\ wf_from (Z.max acc (acc + c_time p)) l
  end.

Definition wf (s : ctab) : Prop :=
  wf_from 0 (calltodo s) /\ Sorted Z.le (pending s).*1.

Definition locs (s : ctab) : list loc := c_loc <$> (calltodo s ++ callfree s).

(** Sorted insertion before the first entry that is not earlier. *)
Fixpoint ins (e : Z * (Z * Z)) (l : list (Z * (Z * Z))) : list (Z * (Z * Z)) :=
  match l with
  | [] => [e]
  | q :: l' => if q.1 <? e.1 then q :: ins e l' else e :: q :: l'
  end.

(** Removal of the first entry for a function and argument. *)
Fixpoint del (fa : Z * Z) (l : list (Z * (Z * Z))) : list (Z * (Z * Z)) :=
  match l with
  | [] => []
  | q :: l' => if decide (q.2 = fa) then l' else q :: del fa l'
  end.

Definition age (e : Z * (Z * Z)) : Z * (Z * Z) := (e.1 - 1, e.2).
Definition due (s : ctab) : list (Z * (Z * Z)) := filter (fun e => e.1 <= 0) (pending s).

(** *** The interface *)

Class TimeoutQueue (Q : Type) := {
  tq_ok : Q -> Prop;
  tq_pending : Q -> list (Z * (Z * Z));
  tq_timeout : Z -> Z -> Z -> Q -> outcome Q;
  tq_untimeout : Z -> Z -> Q -> Q;
  tq_timeout_spec q f a t q' : tq_ok q -> t < 2 ^ 31 -> tq_timeout f a t q = Ok q' ->
    tq_ok q' /\ tq_pending q' = ins (Z.max 1 t, (f, a)) (tq_pending q);
  tq_timeout_fails q f a t : match tq_timeout f a t q with Fault => False | _ => True end;
  tq_untimeout_spec q f a : tq_ok q ->
    tq_ok (tq_untimeout f a q) /\ tq_pending (tq_untimeout f a q) = del (f, a) (tq_pending q);
}.

(** ** Lemmas on the specification *)

Lemma ins_perm e l : ins e l ≡ₚ e :: l.
Proof.
  induction l as [|q l IH]; cbn; [done|]. case_if; [|done]. rewrite IH. apply Permutation_swap.
Qed.

Lemma HdRel_ins lo e l : HdRel Z.le lo l.*1 -> lo <= e.1 -> HdRel Z.le lo (ins e l).*1.
Proof.
  intros H Hlo. destruct l as [|q l]; cbn; [by constructor|].
  case_if; cbn; constructor; [|done]. cbn in H. by inversion H.
Qed.

Lemma ins_sorted e l : Sorted Z.le l.*1 -> Sorted Z.le (ins e l).*1.
Proof.
  induction l as [|q l IH]; cbn; intros H; [by repeat constructor|].
  apply Sorted_inv in H as [H Hhd]. case_if; cbn.
  - constructor; [by apply IH|]. apply HdRel_ins; [done|lia].
  - repeat (constructor; try done).
Qed.

Lemma HdRel_del lo fa l : Sorted Z.le l.*1 -> HdRel Z.le lo l.*1 -> HdRel Z.le lo (del fa l).*1.
Proof.
  intros Hs H. destruct l as [|q l]; [done|]. cbn in *. inversion H; subst.
  apply Sorted_inv in Hs as [_ Hs]. case_decide; [|by constructor].
  destruct l as [|r l]; cbn in *; [constructor|]. inversion Hs; subst. constructor. lia.
Qed.

Lemma del_sorted fa l : Sorted Z.le l.*1 -> Sorted Z.le (del fa l).*1.
Proof.
  induction l as [|q l IH]; cbn; intros H; [done|].
  apply Sorted_inv in H as [H Hhd]. case_decide; [done|]. cbn. constructor; [by apply IH|].
  by apply HdRel_del.
Qed.

Lemma age_sorted l : Sorted Z.le l.*1 -> Sorted Z.le (age <$> l).*1.
Proof.
  induction l as [|q l IH]; cbn; intros H; [done|].
  apply Sorted_inv in H as [H Hhd]. constructor; [by apply IH|].
  destruct l as [|r l]; cbn in *; [constructor|]. inversion Hhd; subst. constructor. lia.
Qed.

(** ** The operations on remaining times *)

Lemma rem_from_shift acc l : rem_from (acc - 1) l = age <$> rem_from acc l.
Proof.
  revert acc. induction l as [|p l IH]; intros acc; cbn; [done|]. f_equal.
  - unfold age. cbn. f_equal. lia.
  - rewrite <- IH. f_equal. lia.
Qed.

Lemma wf_from_shift acc l : 0 < acc -> wf_from acc l -> wf_from (acc - 1) l.
Proof.
  revert acc. induction l as [|p l IH]; intros acc Ha; cbn; [done|].
  intros ([?|?]&?&?&Hwl); [lia|]. split_and!; [by right|lia|lia|].
  replace (Z.max (acc - 1) (acc - 1 + c_time p)) with (Z.max acc (acc + c_time p) - 1) by lia.
  apply IH; [lia|done].
Qed.

Lemma timeout_ins_spec pnew t acc l :
  0 <= acc -> 0 < t -> acc + t < 2 ^ 31 -> wf_from acc l ->
  wf_from acc (timeout_ins pnew t l)
  /\ rem_from acc (timeout_ins pnew t l) = ins (acc + t, (c_func pnew, c_arg pnew)) (rem_from acc l).
Proof.
  revert t acc. induction l as [|p l IH]; intros t acc Ha Ht Hb Hw; cbn.
  { split; [|done]. split_and!; [right; lia|lia|lia|done]. }
  destruct Hw as (Hc&Hlo&Hhi&Hw).
  replace (acc + c_time p <? acc + t) with (c_time p <? t)
    by (destruct (Z.ltb_spec (c_time p) t), (Z.ltb_spec (acc + c_time p) (acc + t)); lia).
  case_if; cbn.
  - set (t' := if 0 <? c_time p then _ else t).
    assert (Z.max acc (acc + c_time p) + t' = acc + t /\ 0 < t') as [E Ht'].
    { subst t'. case_if; [rewrite s32_id|]; lia. }
    destruct (IH t' (Z.max acc (acc + c_time p))) as [Hw' Hr]; [lia|done|lia|done|].
    rewrite Hr, E. by split_and!.
  - rewrite s32_id by lia.
    replace (Z.max acc (acc + t)) with (acc + t) by lia.
    replace (Z.max (acc + t) (acc + t + (c_time p - t))) with (Z.max acc (acc + c_time p)) by lia.
    split; [split_and!; try done; try lia|].
    by replace (acc + t + (c_time p - t)) with (acc + c_time p) by lia.
Qed.

Lemma untimeout_del_spec f a acc l :
  0 <= acc -> wf_from acc l ->
  match untimeout_del f a l with
  | Some (p, l') => wf_from acc l' /\ rem_from acc l' = del (f, a) (rem_from acc l)
      /\ c_loc <$> l ≡ₚ c_loc p :: (c_loc <$> l')
  | None => del (f, a) (rem_from acc l) = rem_from acc l
  end.
Proof.
  revert acc. induction l as [|p l IH]; intros acc Ha Hw; cbn -[decide]; [done|].
  destruct Hw as (Hc&Hlo&Hhi&Hw). destruct ((c_func p =? f) && (c_arg p =? a)) eqn:E; bool_prop.
  - rewrite decide_True by congruence. destruct l as [|q l]; [done|]. cbn in Hw.
    destruct Hw as (Hqc&Hqlo&Hqhi&Hw). case_if; cbn.
    + rewrite s32_id by lia.
      replace (acc + (c_time q + c_time p)) with (Z.max acc (acc + c_time p) + c_time q) by lia.
      replace (Z.max acc (Z.max acc (acc + c_time p) + c_time q))
        with (Z.max (Z.max acc (acc + c_time p)) (Z.max acc (acc + c_time p) + c_time q)) by lia.
      split_and!; try done; lia.
    + assert (Z.max acc (acc + c_time p) = acc) as Ea by lia. rewrite Ea in *. by split_and!.
  - rewrite decide_False by (intros [=]; destruct E; bool_prop; done).
    specialize (IH (Z.max acc (acc + c_time p)) ltac:(lia) Hw).
    destruct (untimeout_del f a l) as [[p' l']|]; cbn -[decide].
    + destruct IH as (Hw'&->&HP). split_and!; try done. rewrite HP. apply Permutation_swap.
    + by rewrite IH.
Qed.

Lemma hardclock_callout_spec l :
  wf_from 0 l -> Forall (fun e => - 2 ^ 31 < e.1) (rem_from 0 l) ->
  wf_from 0 (hardclock_callout l).1 /\ rem_from 0 (hardclock_callout l).1 = age <$> rem_from 0 l.
Proof.
  induction l as [|p l IH]; cbn; [done|]. intros (_&Hlo&Hhi&Hw) H.
  apply Forall_cons_iff in H as [Hp H]. cbn in Hp. rewrite s32_id by lia.
  rewrite !Z.add_0_l in *.
  destruct (0 <? c_time p - 1) eqn:E1; [|destruct (c_time p - 1 =? 0) eqn:E2]; bool_prop; cbn; rewrite ?Z.add_0_l.
  - replace (Z.max 0 (c_time p - 1)) with (Z.max 0 (c_time p) - 1) by lia.
    rewrite rem_from_shift. split; [split_and!; try lia; apply wf_from_shift; [lia|done]|].
    done.
  - replace (Z.max 0 (c_time p - 1)) with (Z.max 0 (c_time p) - 1) by lia.
    rewrite rem_from_shift. split; [split_and!; try lia; apply wf_from_shift; [lia|done]|].
    done.
  - replace (Z.max 0 (c_time p)) with 0 in * by lia. replace (Z.max 0 (c_time p - 1)) with 0 by lia.
    destruct (IH Hw H) as [Hw' ->]. split; [split_and!; try done; lia|done].
Qed.

(** The operations keep [wf], act on the remaining times as the specification
    says, and lose no entry. *)
Lemma timeout_spec f a t s s' :
  wf s -> t < 2 ^ 31 -> timeout f a t s = Ok s' ->
  wf s' /\ pending s' = ins (Z.max 1 t, (f, a)) (pending s) /\ locs s' ≡ₚ locs s.
Proof.
  intros [Hw Hs] Ht. unfold timeout. destruct (callfree s) as [|pnew free] eqn:Hf; [done|].
  intros [= <-]. set (p := mkCallout _ _ _ _). set (t' := if t <=? 0 then 1 else t).
  assert (t' = Z.max 1 t) as Et by (subst t'; case_if; lia).
  destruct (timeout_ins_spec p t' 0 (calltodo s)) as [Hw' Hr]; [lia..|done|].
  unfold wf, pending in *. cbn [calltodo]. clearbody t'. subst t'.
  rewrite Hr, Z.add_0_l. split_and!; [done| |done|].
  - by apply ins_sorted.
  - unfold locs. cbn. rewrite Hf, !fmap_app. cbn.
    assert (forall t l, c_loc <$> timeout_ins p t l ≡ₚ c_loc pnew :: (c_loc <$> l)) as HP.
    { clear. intros t l. revert t. induction l as [|q l IH]; intros t; cbn; [done|].
      case_if; cbn; [rewrite IH; apply Permutation_swap|done]. }
    rewrite HP. cbn. apply Permutation_middle.
Qed.

Lemma untimeout_spec f a s :
  wf s -> wf (untimeout f a s) /\ pending (untimeout f a s) = del (f, a) (pending s)
          /\ locs (untimeout f a s) ≡ₚ locs s.
Proof.
  intros [Hw Hs]. unfold untimeout, wf, pending in *.
  pose proof (untimeout_del_spec f a 0 (calltodo s) ltac:(lia) Hw) as H.
  destruct (untimeout_del f a (calltodo s)) as [[p l]|]; cbn [calltodo].
  - destruct H as (Hw'&->&HP). split_and!; [done|by apply del_sorted|done|].
    unfold locs. cbn. rewrite !fmap_app, HP. cbn. symmetry. apply Permutation_middle.
  - by rewrite H.
Qed.

#[export] Instance ctab_queue : TimeoutQueue ctab.
Proof.
  refine {| tq_ok := wf; tq_pending := pending; tq_timeout := timeout; tq_untimeout := untimeout |}.
  - intros. by edestruct timeout_spec as (?&?&_).
  - intros. unfold timeout. by destruct (callfree q).
  - intros. by edestruct untimeout_spec as (?&?&_).
Defined.

(** What [needsoft] means: some entry is due after the tick. *)
Lemma hardclock_needsoft l :
  (hardclock_callout l).2 = match l with [] => false | p :: _ => s32 (c_time p - 1) <=? 0 end.
Proof.
  destruct l as [|p l]; cbn; [done|]. repeat case_if; cbn; symmetry;
    [apply Z.leb_gt|apply Z.leb_le|apply Z.leb_le]; lia.
Qed.

(** *** The due entries *)

Lemma rem_from_pos acc l : 0 < acc -> wf_from acc l -> filter (fun e => e.1 <= 0) (rem_from acc l) = [].
Proof.
  revert acc. induction l as [|p l IH]; intros acc Ha Hw; cbn; [done|].
  destruct Hw as ([?|?]&?&?&Hw); [lia|]. rewrite decide_False by lia.
  apply IH; [lia|done].
Qed.

Lemma softclock_pop_spec s :
  wf s ->
  match softclock_pop s with
  | None => due s = []
  | Some (p, s') => wf s' /\ pending s = (c_time p, (c_func p, c_arg p)) :: pending s'
      /\ due s = (c_time p, (c_func p, c_arg p)) :: due s' /\ locs s' ≡ₚ locs s
  end.
Proof.
  intros [Hw Hs]. unfold softclock_pop, due, pending, wf, locs in *.
  destruct (calltodo s) as [|p l] eqn:El; [done|]. cbn in Hw, Hs. destruct Hw as (_&?&?&Hw).
  case_if; cbn.
  - rewrite decide_False by lia. apply rem_from_pos; [lia|done].
  - rewrite Z.add_0_l in *. replace (Z.max 0 (c_time p)) with 0 in * by lia. rewrite decide_True by lia.
    unfold pending. cbn. apply Sorted_inv in Hs as [Hs _].
    split_and!; try done. rewrite !fmap_app. cbn. symmetry. apply Permutation_middle.
Qed.

Lemma due_ins e l : 0 < e.1 ->
  filter (fun e => e.1 <= 0) (ins e l) = filter (fun e : Z * (Z * Z) => e.1 <= 0) l.
Proof.
  intros He. induction l as [|q l IH]; cbn [ins].
  - by rewrite filter_cons_False by lia.
  - case_if; [rewrite !filter_cons, IH; done|]. by rewrite filter_cons_False by lia.
Qed.

Lemma due_del fa l :
  sublist (filter (fun e => e.1 <= 0) (del fa l)) (filter (fun e : Z * (Z * Z) => e.1 <= 0) l).
Proof.
  induction l as [|q l IH]; cbn [del]; [done|]. destruct (decide (q.2 = fa)).
  - rewrite filter_cons. destruct (decide (q.1 <= 0)); [by apply sublist_cons|done].
  - rewrite !filter_cons. destruct (decide (q.1 <= 0)); [by apply sublist_skip|done].
Qed.

Definition ops_fit (ops : list callop) : Prop :=
  Forall (fun o => match o with OpTimeout _ _ t => t < 2 ^ 31 | _ => True end) ops.

Definition no_cancel (ops : list callop) : Prop :=
  Forall (fun o => match o with OpTimeout _ _ _ => True | _ => False end) ops.

Lemma run_ops_spec ops s : wf s -> ops_fit ops ->
  match run_ops ops s with
  | Ok s' => wf s' /\ sublist (due s') (due s) /\ locs s' ≡ₚ locs s
      /\ (no_cancel ops -> due s' = due s)
  | Panic m => m = "timeout table overflow"%string
  | Fault => False
  end.
Proof.
  revert s. induction ops as [|o ops IH]; intros s Hw Hf; cbn [run_ops]; [done|].
  apply Forall_cons_iff in Hf as [Ho Hf]. destruct o as [f a t|f a].
  - destruct (timeout f a t s) as [s1|m|] eqn:E; cbn [mbind outcome_bind].
    + destruct (timeout_spec f a t s s1 Hw Ho E) as (Hw1&Hp&HP).
      assert (due s1 = due s) as Hd by (unfold due; rewrite Hp; apply due_ins; cbn; lia).
      specialize (IH s1 Hw1 Hf). destruct (run_ops ops s1); [|done..].
      rewrite <- Hd, <- HP. destruct IH as (?&?&?&Hnc). split_and!; try done.
      intros Hall. apply Hnc. by apply Forall_cons_iff in Hall as [_ ?].
    + unfold timeout in E. by destruct (callfree s); inversion E.
    + unfold timeout in E. by destruct (callfree s).
  - destruct (untimeout_spec f a s Hw) as (Hw1&Hp&HP). specialize (IH (untimeout f a s) Hw1 Hf).
    destruct (run_ops ops (untimeout f a s)); [|done..]. destruct IH as (?&Hsub&?&Hnc).
    rewrite <- HP. split_and!; try done.
    + etrans; [exact Hsub|]. unfold due. rewrite Hp. apply due_del.
    + intros Hall. by apply Forall_cons_iff in Hall as [? _].
Qed.

(** ** Properties *)

(** C29. the delta queue refines a sorted queue of absolute remaining times:
    [timeout] inserts the entry at [max 1 t] ticks, before the entries that are
    not earlier, and panics exactly when the table is full; [untimeout] removes
    the first entry of that function and argument and leaves every other due
    time as it was; a tick of [hardclock] brings every entry one tick nearer;
    and no operation loses a table slot. *)
Theorem callout_refines s f a t :
  wf s -> t < 2 ^ 31 ->
  (match timeout f a t s with
   | Ok s' => callfree s <> [] /\ wf s' /\ pending s' = ins (Z.max 1 t, (f, a)) (pending s)
       /\ locs s' ≡ₚ locs s
   | Panic m => callfree s = [] /\ m = "timeout table overflow"%string
   | Fault => False
   end)
  /\ (wf (untimeout f a s) /\ pending (untimeout f a s) = del (f, a) (pending s)
      /\ locs (untimeout f a s) ≡ₚ locs s)
  /\ (Forall (fun e => - 2 ^ 31 < e.1) (pending s) ->
      let s' := mkCtab (hardclock_callout (calltodo s)).1 (callfree s) in
      wf s' /\ pending s' = age <$> pending s).
Proof.
  intros Hw Ht. split; [|split; [by apply untimeout_spec|]].
  - destruct (timeout f a t s) as [s'|m|] eqn:E.
    + split; [|by apply (timeout_spec f a t)]. unfold timeout in E. by destruct (callfree s).
    + unfold timeout in E. by destruct (callfree s); inversion E.
    + unfold timeout in E. by destruct (callfree s).
  - intros Hb. destruct Hw as [Hw Hs].
    destruct (hardclock_callout_spec (calltodo s) Hw Hb) as [Hw' Hp].
    unfold wf, pending in *. cbn. rewrite Hp. split_and!; [done|by apply age_sorted|done].
Qed.

(** [softclock]'s loop ends after at most one turn for each due entry,
    whatever the called functions put into the queue or cancel (unless they
    overflow the table): no due entry is left, the calls made are due entries
    in due order, each with its lateness, all of them when nothing is
    cancelled, and no table slot is lost. *)
Theorem softclock_runs_due handler fuel s :
  wf s -> (forall f a late, ops_fit (handler f a late)) ->
  (length (due s) < fuel)%nat ->
  match softclock_loop handler fuel s with
  | Ok (evs, s') => wf s' /\ due s' = [] /\ sublist evs (due s) /\ locs s' ≡ₚ locs s
      /\ ((forall f a late, no_cancel (handler f a late)) -> evs = due s)
  | Panic m => m = "timeout table overflow"%string
  | Fault => False
  end.
Proof.
  intros Hw Hh. revert s Hw. induction fuel as [|fuel IH]; intros s Hw Hf; [lia|].
  cbn [softclock_loop]. pose proof (softclock_pop_spec s Hw) as Hpop.
  destruct (softclock_pop s) as [[p s1]|]; [|rewrite Hpop; done].
  destruct Hpop as (Hw1&_&Hd&HP). rewrite Hd in *. cbn [length] in Hf.
  pose proof (run_ops_spec (handler (c_func p) (c_arg p) (c_time p)) s1 Hw1 (Hh _ _ _)) as Hr.
  destruct (run_ops _ s1) as [s2|m|]; cbn [mbind outcome_bind]; [|done..].
  destruct Hr as (Hw2&Hsub&HP2&Hnc). pose proof (sublist_length _ _ Hsub).
  specialize (IH s2 Hw2 ltac:(lia)).
  destruct (softclock_loop handler fuel s2) as [[evs s3]|m|]; cbn; [|done..].
  destruct IH as (?&?&Hev&HP3&Hall). split_and!; try done.
  - apply sublist_skip. by etrans.
  - by rewrite HP3, HP2.
  - intros H'. rewrite (Hall H'), (Hnc (H' _ _ _)). done.
Qed.

(** *** Witnesses *)

Definition ctab0 : ctab :=
  mkCtab [mkCallout 1 (-1) 10 0; mkCallout 2 0 11 5; mkCallout 3 4 12 0; mkCallout 4 0 10 7]
    [mkCallout 5 0 0 0].

Lemma ctab0_wf : wf ctab0.
Proof.
  split; cbn; [lia|].
  repeat constructor; cbn; lia.
Qed.

Lemma callout_refines_witness :
  match timeout 13 1 3 ctab0 with
  | Ok s' => pending s' = [(-1, (10, 0)); (0, (11, 5)); (3, (13, 1)); (4, (12, 0)); (4, (10, 7))]
  | _ => False
  end.
Proof.
  destruct (callout_refines ctab0 13 1 3 ctab0_wf) as [H _]; [lia|].
  destruct (timeout 13 1 3 ctab0); [|destruct H; discriminate|done].
  destruct H as (_&_&->&_). reflexivity.
Defined.

Lemma softclock_runs_due_witness :
  match softclock_loop (fun f a _ => if f =? 10 then [OpTimeout f a 2] else []) 3 ctab0 with
  | Ok (evs, s') => evs = [(-1, (10, 0)); (0, (11, 5))] /\ due s' = []
  | _ => False
  end.
Proof.
  pose proof (softclock_runs_due (fun f a _ => if f =? 10 then [OpTimeout f a 2] else []) 3 ctab0
    ctab0_wf) as H.
  destruct (softclock_loop _ 3 ctab0) as [[evs s']|m|] eqn:E.
  - destruct H as (_&Hd&_&_&Hall).
    + intros f a late. destruct (f =? 10); repeat constructor.
    + vm_compute. lia.
    + split; [|done]. rewrite Hall; [vm_compute; reflexivity|]. intros f a late.
      destruct (f =? 10); repeat constructor.
  - discriminate E.
  - discriminate E.
Defined.
