(* ===== verification/TimeVal.v ===== *)
(** * Time of day and interval timers (sys/kern/kern_time.c, hzto of
    sys/kern/kern_clock.c, macros of sys/sys/time.h)

    [long] is 32 bits.  The real-time timers use the timeout queue through the
    interface [TimeoutQueue]; the clock rate is that of sys/conf/param.c. *)

From S2P Require Import Prelude Callout Cred.

(** ** Configuration (sys/conf/param.c) *)

Definition hz : Z := 100.
Definition tick : Z := 1000000 / hz.
Definition tickadj : Z := 240000 / (60 * hz).

Record timeval := mkTv { tv_sec : Z; tv_usec : Z }.
Record itimerval := mkItv { it_interval : timeval; it_value : timeval }.

(** ** Macros of time.h *)

Definition timerisset (t : timeval) : bool := negb (tv_sec t =? 0) || negb (tv_usec t =? 0).
Definition timercmp_lt (t u : timeval) : bool :=
  (tv_sec t <? tv_sec u) || (tv_sec t =? tv_sec u) && (tv_usec t <? tv_usec u).
Definition timercmp_gt (t u : timeval) : bool :=
  (tv_sec u <? tv_sec t) || (tv_sec t =? tv_sec u) && (tv_usec u <? tv_usec t).
Definition timerclear : timeval := mkTv 0 0.

(** ** Arithmetic *)

Definition timevalfix (t : timeval) : timeval :=
  let t := if tv_usec t <? 0 then mkTv (s32 (tv_sec t - 1)) (s32 (tv_usec t + 1000000)) else t in
  if 1000000 <=? tv_usec t then mkTv (s32 (tv_sec t + 1)) (s32 (tv_usec t - 1000000)) else t.

Definition timevaladd (t1 t2 : timeval) : timeval :=
  timevalfix (mkTv (s32 (tv_sec t1 + tv_sec t2)) (s32 (tv_usec t1 + tv_usec t2))).

Definition timevalsub (t1 t2 : timeval) : timeval :=
  timevalfix (mkTv (s32 (tv_sec t1 - tv_sec t2)) (s32 (tv_usec t1 - tv_usec t2))).

(** The error, and the value as fixed. *)
Definition itimerfix (tv : timeval) : Z * timeval :=
  if (tv_sec tv <? 0) || (100000000 <? tv_sec tv) || (tv_usec tv <? 0) || (1000000 <=? tv_usec tv)
  then (EINVAL, tv)
  else if (tv_sec tv =? 0) && negb (tv_usec tv =? 0) && (tv_usec tv <? tick)
  then (0, mkTv (tv_sec tv) tick)
  else (0, tv).

(** From the label [expire] of itimerdecr. *)
Definition itimer_expire (itp : itimerval) (usec : Z) : Z * itimerval :=
  if timerisset (it_interval itp) then
    let v := it_interval itp in
    let v := mkTv (tv_sec v) (s32 (tv_usec v - usec)) in
    let v := if tv_usec v <? 0 then mkTv (s32 (tv_sec v - 1)) (s32 (tv_usec v + 1000000)) else v in
    (0, mkItv (it_interval itp) v)
  else (0, mkItv (it_interval itp) (mkTv (tv_sec (it_value itp)) 0)).

Definition itimerdecr (itp : itimerval) (usec : Z) : Z * itimerval :=
  let v := it_value itp in
  if (tv_usec v <? usec) && (tv_sec v =? 0) then
    itimer_expire itp (s32 (usec - tv_usec v))
  else
    let v := if tv_usec v <? usec then mkTv (s32 (tv_sec v - 1)) (s32 (tv_usec v + 1000000)) else v in
    let itp := mkItv (it_interval itp) (mkTv (tv_sec v) (s32 (tv_usec v - usec))) in
    if timerisset (it_value itp) then (1, itp)
    else itimer_expire itp 0.

(** Ticks until the absolute time [tv]. *)
Definition hzto (time tv : timeval) : Z :=
  let sec := s32 (tv_sec tv - tv_sec time) in
  if sec <=? Z.quot 2147483647 1000 - 1000 then
    Z.quot (s32 (s32 (s32 (tv_sec tv - tv_sec time) * 1000)
                 + Z.quot (s32 (tv_usec tv - tv_usec time)) 1000))
           (Z.quot tick 1000)
  else if sec <=? Z.quot 2147483647 hz then s32 (sec * hz)
  else 2147483647.

(** ** The clock's state and its system calls *)

Record ktime := mkKtime {
  time : timeval;
  boottime : timeval;
  tz : Z * Z;
  timedelta : Z;
  tickdelta : Z;
}.

Definition bigadj : Z := 1000000.

(** Pointers to user memory: [None] is the null pointer.  For [copyout] the
    argument is the error it returns, for [copyin] the error or the value. *)

(** [now] is what [microtime] yields.  The error, and what is copied out. *)
Definition gettimeofday (now : timeval) (tp tzp : option Z) (k : ktime)
  : Z * option timeval * option (Z * Z) :=
  let '(error, otv) :=
    match tp with
    | Some error => (error, if error =? 0 then Some now else None)
    | None => (0, None)
    end in
  if negb (error =? 0) then (error, None, None)
  else match tzp with
    | Some error => (error, otv, if error =? 0 then Some (tz k) else None)
    | None => (0, otv, None)
    end.

Definition settimeofday (cred : ucred) (acflag : Z) (tv : option (Z + timeval)) (tzp : option (Z + Z * Z))
    (k : ktime) : Z * ktime * Z :=
  let '(error, fl) := suser cred (Some acflag) in
  let acflag := default acflag fl in
  if negb (error =? 0) then (error, k, acflag)
  else
    match tv with
    | Some (inl error) => (error, k, acflag)
    | _ =>
        let k := match tv with
          | Some (inr atv) =>
              mkKtime atv
                (mkTv (s32 (tv_sec (boottime k) + s32 (tv_sec atv - tv_sec (time k)))) (tv_usec (boottime k)))
                (tz k) (timedelta k) (tickdelta k)
          | _ => k
          end in
        match tzp with
        | Some (inl error) => (error, k, acflag)
        | Some (inr atz) => (0, mkKtime (time k) (boottime k) atz (timedelta k) (tickdelta k), acflag)
        | None => (0, k, acflag)
        end
    end.

(** The error, [*olddelta] when it is asked for, and the state; a division by
    a zero [tickdelta] faults. *)
Definition adjtime (cred : ucred) (acflag : Z) (delta : Z + timeval) (olddelta : bool) (k : ktime)
  : outcome (Z * option timeval * ktime * Z) :=
  let '(error, fl) := suser cred (Some acflag) in
  let acflag := default acflag fl in
  if negb (error =? 0) then mret (error, None, k, acflag)
  else match delta with
    | inl error => mret (error, None, k, acflag)
    | inr atv =>
        let ndelta := s32 (s32 (tv_sec atv * 1000000) + tv_usec atv) in
        let tickdelta :=
          if timedelta k =? 0 then if bigadj <? ndelta then 10 * tickadj else tickadj
          else tickdelta k in
        if tickdelta =? 0 then Fault
        else
          let ndelta := if negb (Z.rem ndelta tickdelta =? 0)
                        then Z.quot ndelta tickadj * tickadj else ndelta in
          let oatv := if olddelta then Some (mkTv (Z.quot (timedelta k) 1000000) (Z.rem (timedelta k) 1000000))
                      else None in
          mret (0, oatv, mkKtime (time k) (boottime k) (tz k) ndelta tickdelta, acflag)
    end.

(** ** Interval timers, on any timeout queue *)

Definition ITIMER_REAL : Z := 0.
Definition ITIMER_PROF : Z := 2.
Definition SIGALRM : Z := 14.

Section Itimer.
Context {Q : Type} `{TimeoutQueue Q}.

(** The address of [realitexpire], and the process: the argument of its
    timeouts. *)
Variables (realitexpire_fn : Z) (p : Z).

(** The timers of the process ([p_realtimer] and [p_stats->p_timer]), the
    time of day and the queue. *)
Record tstate := mkTs {
  ts_time : timeval;
  ts_real : itimerval;
  ts_timer : list itimerval;
  ts_q : Q;
}.

Definition getitimer (which cout : Z) (s : tstate) : outcome (Z * option itimerval) :=
  let which := u32 which in
  if ITIMER_PROF <? which then mret (EINVAL, None)
  else
    aitv ← (if which =? ITIMER_REAL then
              let aitv := ts_real s in
              if timerisset (it_value aitv) then
                if timercmp_lt (it_value aitv) (ts_time s)
                then mret (mkItv (it_interval aitv) timerclear)
                else mret (mkItv (it_interval aitv) (timevalsub (it_value aitv) (ts_time s)))
              else mret aitv
            else deref (ts_timer s !! Z.to_nat which));
    mret (cout, if cout =? 0 then Some aitv else None).

(** [itv] is the new setting as [copyin] yields it, [oitv] the error of the
    [copyout] of the old one; [None] is the null pointer. *)
Definition setitimer (which : Z) (itv : option (Z + itimerval)) (oitv : option Z) (s : tstate)
  : outcome (Z * option itimerval * tstate) :=
  if ITIMER_PROF <? u32 which then mret (EINVAL, None, s)
  else match itv with
  | Some (inl error) => mret (error, None, s)
  | _ =>
      '(error, old) ← match oitv with
        | Some cout => getitimer which cout s
        | None => mret (0, None)
        end;
      if negb (error =? 0) then mret (error, old, s)
      else match itv with
      | Some (inr aitv) =>
          let '(error, value) := itimerfix (it_value aitv) in
          if negb (error =? 0) then mret (EINVAL, old, s)
          else
            let '(error, interval) := itimerfix (it_interval aitv) in
            if negb (error =? 0) then mret (EINVAL, old, s)
            else if u32 which =? ITIMER_REAL then
              let q := tq_untimeout realitexpire_fn p (ts_q s) in
              if timerisset value then
                let value := timevaladd value (ts_time s) in
                q ← tq_timeout realitexpire_fn p (hzto (ts_time s) value) q;
                mret (0, old, mkTs (ts_time s) (mkItv interval value) (ts_timer s) q)
              else mret (0, old, mkTs (ts_time s) (mkItv interval value) (ts_timer s) q)
            else mret (0, old, mkTs (ts_time s) (ts_real s)
                                 (<[Z.to_nat (u32 which) := mkItv interval value]> (ts_timer s)) (ts_q s))
      | _ => mret (0, old, s)
      end
  end.

(** The loop of [realitexpire]; [fuel] bounds the intervals that have passed. *)
Fixpoint realit_loop (fuel : nat) (s : tstate) : outcome tstate :=
  match fuel with
  | O => Fault
  | S fuel =>
      let v := timevaladd (it_value (ts_real s)) (it_interval (ts_real s)) in
      let s := mkTs (ts_time s) (mkItv (it_interval (ts_real s)) v) (ts_timer s) (ts_q s) in
      if timercmp_gt v (ts_time s) then
        q ← tq_timeout realitexpire_fn p (hzto (ts_time s) v) (ts_q s);
        mret (mkTs (ts_time s) (ts_real s) (ts_timer s) q)
      else realit_loop fuel s
  end.

(** The signals sent to [p], and the state. *)
Definition realitexpire (fuel : nat) (s : tstate) : outcome (list Z * tstate) :=
  let sig := [SIGALRM] in
  if negb (timerisset (it_interval (ts_real s))) then
    mret (sig, mkTs (ts_time s) (mkItv (it_interval (ts_real s)) timerclear) (ts_timer s) (ts_q s))
  else
    s ← realit_loop fuel s;
    mret (sig, s).
End Itimer.
Arguments tstate Q : clear implicits.

(** ** Specification: microseconds *)

Definition usec_of (t : timeval) : Z := tv_sec t * 1000000 + tv_usec t.
Definition norm (t : timeval) : Prop := 0 <= tv_usec t < 1000000 /\ 0 <= tv_sec t.
(** The largest second count the sums below are proved for (year 2004 and
    intervals of years still fit). *)
Definition sec_ok (t : timeval) : Prop := norm t /\ tv_sec t < 2 ^ 30.

(** Discharge the conversions that change nothing. *)
Ltac s32_simp :=
  cbn [tv_sec tv_usec it_value it_interval fst snd] in *;
  repeat (match goal with |- context [s32 ?z] => rewrite (s32_id z) by lia end;
          cbn [tv_sec tv_usec it_value it_interval fst snd] in *).

Lemma timevalfix_spec s u : - 2 ^ 31 < s -> s + 1 < 2 ^ 31 -> -1000000 <= u < 2000000 ->
  0 <= tv_usec (timevalfix (mkTv s u)) < 1000000
  /\ usec_of (timevalfix (mkTv s u)) = s * 1000000 + u.
Proof.
  intros. unfold usec_of, timevalfix. cbn [tv_sec tv_usec]. destruct (u <? 0) eqn:E1; bool_prop; s32_simp.
  - case_if; s32_simp; lia.
  - case_if; s32_simp; lia.
Qed.

Lemma timevaladd_spec a b : sec_ok a -> sec_ok b ->
  norm (timevaladd a b) /\ usec_of (timevaladd a b) = usec_of a + usec_of b.
Proof.
  unfold sec_ok, norm, usec_of, timevaladd. intros. s32_simp.
  destruct (timevalfix_spec (tv_sec a + tv_sec b) (tv_usec a + tv_usec b)) as [? E]; [lia..|].
  unfold usec_of in E. lia.
Qed.

Lemma timevalsub_spec a b : sec_ok a -> sec_ok b -> usec_of b <= usec_of a ->
  norm (timevalsub a b) /\ usec_of (timevalsub a b) = usec_of a - usec_of b.
Proof.
  unfold sec_ok, norm, usec_of, timevalsub. intros. s32_simp.
  destruct (timevalfix_spec (tv_sec a - tv_sec b) (tv_usec a - tv_usec b)) as [? E]; [lia..|].
  unfold usec_of in E. lia.
Qed.

Lemma timercmp_lt_spec a b : norm a -> norm b -> timercmp_lt a b = (usec_of a <? usec_of b).
Proof.
  unfold norm, usec_of, timercmp_lt. intros.
  destruct (Z.ltb_spec (tv_sec a) (tv_sec b)), (Z.eqb_spec (tv_sec a) (tv_sec b)),
    (Z.ltb_spec (tv_usec a) (tv_usec b)), (Z.ltb_spec (tv_sec a * 1000000 + tv_usec a)
      (tv_sec b * 1000000 + tv_usec b)); cbn; lia.
Qed.

Lemma timercmp_gt_spec a b : norm a -> norm b -> timercmp_gt a b = (usec_of b <? usec_of a).
Proof.
  intros Ha Hb. rewrite <- timercmp_lt_spec by done. unfold timercmp_gt, timercmp_lt.
  by rewrite (Z.eqb_sym (tv_sec b)).
Qed.

Lemma timerisset_spec t : norm t -> timerisset t = (0 <? usec_of t).
Proof.
  unfold norm, usec_of, timerisset. intros.
  destruct (Z.eqb_spec (tv_sec t) 0), (Z.eqb_spec (tv_usec t) 0),
    (Z.ltb_spec 0 (tv_sec t * 1000000 + tv_usec t)); cbn; lia.
Qed.

Lemma norm_inj a b : norm a -> norm b -> usec_of a = usec_of b -> a = b.
Proof.
  destruct a, b. unfold norm, usec_of. cbn. intros. f_equal; lia.
Qed.

Lemma itimerfix_spec tv v : itimerfix tv = (0, v) ->
  sec_ok v /\ tv_sec v <= 100000000 /\ (timerisset v = true -> tick <= usec_of v)
  /\ (usec_of v = usec_of tv \/ 0 < usec_of tv < tick /\ usec_of v = tick).
Proof.
  unfold itimerfix, sec_ok, norm, usec_of, timerisset. change tick with 10000.
  destruct (_ || _) eqn:E1; [discriminate|]. bool_prop.
  destruct (_ && _) eqn:E2; intros [= <-]; bool_prop; cbn [tv_sec tv_usec].
  - split; [lia|]. split; [lia|]. split; [lia|]. right. lia.
  - split; [lia|]. split; [lia|]. split; [|by left]. intros Hs.
    apply orb_true_iff in Hs.
    destruct E2 as [E2|E2]; [apply andb_false_iff in E2 as [E2|E2]|]; destruct Hs; bool_prop; lia.
Qed.

(** The ticks are the time, rounded down to a millisecond or so, over the
    tick. *)
Lemma hzto_spec now tv : sec_ok now -> sec_ok tv -> usec_of now <= usec_of tv ->
  0 <= hzto now tv < 2 ^ 31
  /\ (tv_sec tv - tv_sec now <= 2146483 ->
      -1000 < usec_of tv - usec_of now - tick * hzto now tv < tick).
Proof.
  unfold sec_ok, norm, usec_of, hzto, tick, hz. intros.
  change (Z.quot 2147483647 1000 - 1000) with 2146483.
  change (Z.quot (1000000 / 100) 1000) with 10. change (Z.quot 2147483647 100) with 21474836.
  change (1000000 / 100) with 10000.
  rewrite (s32_id (tv_sec tv - tv_sec now)) by lia.
  rewrite (s32_id (tv_usec tv - tv_usec now)) by lia.
  case_if.
  - rewrite (s32_id (_ * 1000)) by lia.
    rewrite s32_id by (Z.to_euclidean_division_equations; lia).
    Z.to_euclidean_division_equations; lia.
  - case_if; [rewrite s32_id by lia|]; lia.
Qed.

(** ** Entries of one process in the queue *)

Lemma filter_ins_other fa t fa' l : fa <> fa' ->
  filter (fun e => e.2 = fa) (ins (t, fa') l) = filter (fun e : Z * (Z * Z) => e.2 = fa) l.
Proof.
  intros Hne. induction l as [|q l IH]; cbn [ins].
  - by rewrite filter_cons_False by (cbn; congruence).
  - case_if; [by rewrite !filter_cons, IH|]. by rewrite filter_cons_False by (cbn; congruence).
Qed.

Lemma filter_ins_eq fa t l : filter (fun e : Z * (Z * Z) => e.2 = fa) l = [] ->
  filter (fun e => e.2 = fa) (ins (t, fa) l) = [(t, fa)].
Proof.
  intros Hl. apply Permutation_singleton_r.
  rewrite (filter_Permutation _ _ _ (ins_perm (t, fa) l)).
  rewrite filter_cons_True by done. by rewrite Hl.
Qed.

Lemma filter_del_other fa fa' l : fa <> fa' ->
  filter (fun e => e.2 = fa) (del fa' l) = filter (fun e : Z * (Z * Z) => e.2 = fa) l.
Proof.
  intros Hne. induction l as [|q l IH]; cbn [del]; [done|]. case_decide.
  - by rewrite filter_cons_False by congruence.
  - by rewrite !filter_cons, IH.
Qed.

Lemma filter_del_eq fa l :
  filter (fun e => e.2 = fa) (del fa l) = tail (filter (fun e : Z * (Z * Z) => e.2 = fa) l).
Proof.
  induction l as [|q l IH]; cbn [del]; [done|]. case_decide as Hd.
  - by rewrite filter_cons_True.
  - by rewrite !filter_cons_False.
Qed.

(** ** Properties *)

(** on normalised times whose seconds are below 2^30, timevaladd and
    timevalsub add and subtract microsecond counts and give a normalised time,
    and the comparison macros compare them. *)
Theorem timeval_ops_spec a b :
  sec_ok a -> sec_ok b ->
  (norm (timevaladd a b) /\ usec_of (timevaladd a b) = usec_of a + usec_of b)
  /\ (usec_of b <= usec_of a ->
      norm (timevalsub a b) /\ usec_of (timevalsub a b) = usec_of a - usec_of b)
  /\ timercmp_lt a b = (usec_of a <? usec_of b)
  /\ timercmp_gt a b = (usec_of b <? usec_of a)
  /\ timerisset a = (0 <? usec_of a).
Proof.
  intros Ha Hb. split; [by apply timevaladd_spec|]. split; [by apply timevalsub_spec|].
  destruct Ha, Hb. split; [by apply timercmp_lt_spec|]. split; [by apply timercmp_gt_spec|].
  by apply timerisset_spec.
Qed.

Lemma itimer_expire_spec itp u : sec_ok (it_interval itp) -> tv_sec (it_value itp) = 0 ->
  0 <= u < 1000000 -> (timerisset (it_interval itp) = true -> u <= usec_of (it_interval itp)) ->
  let '(r, itp') := itimer_expire itp u in
  r = 0 /\ it_interval itp' = it_interval itp /\ norm (it_value itp')
  /\ usec_of (it_value itp') = if timerisset (it_interval itp) then usec_of (it_interval itp) - u else 0.
Proof.
  intros Hi Hv Hu Hle. unfold itimer_expire. destruct (timerisset _) eqn:E.
  - specialize (Hle eq_refl). unfold sec_ok, norm, usec_of in *. s32_simp.
    case_if; s32_simp; repeat split; lia.
  - unfold norm, usec_of. cbn [tv_sec tv_usec it_value it_interval]. rewrite Hv. repeat split; lia.
Qed.

(** itimerdecr takes [usec] (under a second) off a running timer: it
    returns 1 while time is left, and otherwise returns 0 with the timer
    reloaded from the interval less the overshoot, so that it does not drift,
    or stopped when there is no interval. *)
Theorem itimerdecr_spec itp usec :
  sec_ok (it_value itp) -> sec_ok (it_interval itp) -> timerisset (it_value itp) = true ->
  0 < usec < 1000000 -> (timerisset (it_interval itp) = true -> usec <= usec_of (it_interval itp)) ->
  let '(r, itp') := itimerdecr itp usec in
  it_interval itp' = it_interval itp /\ norm (it_value itp')
  /\ if usec <? usec_of (it_value itp) then
       r = 1 /\ usec_of (it_value itp') = usec_of (it_value itp) - usec
     else
       r = 0 /\ usec_of (it_value itp')
         = if timerisset (it_interval itp)
           then usec_of (it_interval itp) - (usec - usec_of (it_value itp)) else 0.
Proof.
  intros Hv Hi Hset Hu Hle. rewrite timerisset_spec in Hset by apply Hv. unfold itimerdecr.
  destruct itp as [i v]. cbn [it_value it_interval] in *. pose proof Hv as [[Hvu Hvs] Hvb].
  unfold usec_of in Hset. destruct (_ && _) eqn:E1.
  - bool_prop. rewrite s32_id by lia.
    pose proof (itimer_expire_spec (mkItv i v) (usec - tv_usec v) Hi) as Hexp. cbn [it_value it_interval] in Hexp.
    specialize (Hexp ltac:(done) ltac:(lia)). destruct (itimer_expire _ _) as [r itp'].
    destruct Hexp as (->&->&?&Hval); [intros Hs; specialize (Hle Hs); lia|].
    split; [done|]. split; [done|]. unfold usec_of at 1. replace (_ <? _) with false by lia.
    split; [done|]. rewrite Hval. unfold usec_of. case_if; lia.
  - set (v1 := if tv_usec v <? usec then _ else v).
    assert (usec_of v1 = usec_of v /\ 0 <= tv_sec v1 /\ usec <= tv_usec v1 < 1000000 + usec
      /\ tv_sec v1 < 2 ^ 30) as (H1&H2&H3&H4).
    { subst v1. unfold usec_of. case_if; s32_simp; [|lia]. bool_prop. destruct E1; lia. }
    s32_simp. set (v2 := mkTv (tv_sec v1) (tv_usec v1 - usec)).
    assert (norm v2 /\ usec_of v2 = usec_of v - usec) as [Hn2 Hu2]
      by (unfold norm, v2, usec_of in *; cbn [tv_sec tv_usec]; lia).
    rewrite timerisset_spec by done. case_if.
    + cbn [it_value it_interval]. replace (usec <? usec_of v) with true by lia. done.
    + pose proof (itimer_expire_spec (mkItv i v2) 0 Hi) as Hexp. cbn [it_value it_interval] in Hexp.
      assert (usec_of v2 = 0) as Hz by (unfold norm, usec_of in *; lia).
      assert (tv_sec v2 = 0) as Hz' by (unfold norm, usec_of in *; lia).
      specialize (Hexp Hz' ltac:(lia)). destruct (itimer_expire _ _) as [r itp'].
      destruct Hexp as (->&->&?&Hval); [intros Hs; specialize (Hle Hs); lia|].
      replace (usec <? usec_of v) with false by lia. split_and!; [done..|].
      rewrite Hval. case_if; lia.
Qed.

Section Real.
Context {Q : Type} `{TQ : TimeoutQueue Q}.
Variables (fn p : Z).

(** The pending expirations of this process, and everything else pending. *)
Definition mine (q : Q) : list (Z * (Z * Z)) := filter (fun e => e.2 = (fn, p)) (tq_pending q).

Lemma timeout_mine t q q' : tq_ok q -> t < 2 ^ 31 -> mine q = [] -> tq_timeout fn p t q = Ok q' ->
  tq_ok q' /\ mine q' = [(Z.max 1 t, (fn, p))]
  /\ forall fa, fa <> (fn, p) ->
     filter (fun e => e.2 = fa) (tq_pending q') = filter (fun e => e.2 = fa) (tq_pending q).
Proof.
  intros Hq Ht Hm Hto. destruct (tq_timeout_spec q fn p t q' Hq Ht Hto) as [Hq' Hp].
  split; [done|]. unfold mine in *. rewrite Hp. split; [by apply filter_ins_eq|].
  intros fa Hfa. by apply filter_ins_other.
Qed.

Lemma untimeout_mine q : tq_ok q -> (length (mine q) <= 1)%nat ->
  tq_ok (tq_untimeout fn p q) /\ mine (tq_untimeout fn p q) = []
  /\ forall fa, fa <> (fn, p) ->
     filter (fun e => e.2 = fa) (tq_pending (tq_untimeout fn p q)) = filter (fun e => e.2 = fa) (tq_pending q).
Proof.
  intros Hq Hm. destruct (tq_untimeout_spec q fn p Hq) as [Hq' Hp]. split; [done|].
  unfold mine in *. rewrite Hp. split.
  - rewrite filter_del_eq. destruct (filter _ _) as [|? [|]]; cbn in *; [done..|lia].
  - intros fa Hfa. by apply filter_del_other.
Qed.

(** setitimer of the real-time timer with an acceptable setting replaces
    the process's pending expiration, never leaving two, by one at the ticks
    to the new time (none when the timer is stopped), touches no other
    timeout, and getitimer then reports the setting; it panics only when the
    callout table is full.  The ticks are within a tick of the time asked
    for, at most a millisecond more, so the alarm can come up to a tick
    early. *)
Theorem setitimer_real_spec s itv v i :
  tq_ok (ts_q s) -> (length (mine (ts_q s)) <= 1)%nat -> sec_ok (ts_time s) ->
  tv_sec (ts_time s) < 900000000 ->
  itimerfix (it_value itv) = (0, v) -> itimerfix (it_interval itv) = (0, i) ->
  match setitimer fn p ITIMER_REAL (Some (inr itv)) None s with
  | Ok (error, old, s') =>
      error = 0 /\ old = None /\ tq_ok (ts_q s')
      /\ (forall fa, fa <> (fn, p) -> filter (fun e => e.2 = fa) (tq_pending (ts_q s'))
            = filter (fun e => e.2 = fa) (tq_pending (ts_q s)))
      /\ (if timerisset v then
            exists t, mine (ts_q s') = [(Z.max 1 t, (fn, p))] /\ 0 <= t < 2 ^ 31
              /\ (tv_sec v < 2146483 -> -1000 < usec_of v - tick * t < tick)
          else mine (ts_q s') = [])
      /\ getitimer ITIMER_REAL 0 s' = Ok (0, Some (mkItv i v))
  | Panic _ => timerisset v = true
  | Fault => False
  end.
Proof.
  intros Hq Hm Ht Htb Hv Hi.
  destruct (itimerfix_spec _ _ Hv) as (Hvok&Hvb&_&_). destruct (itimerfix_spec _ _ Hi) as (Hiok&Hib&_&_).
  unfold setitimer. change (u32 ITIMER_REAL) with 0. cbn [Z.ltb Z.compare ITIMER_PROF].
  cbn [mbind outcome_bind mret outcome_ret Z.eqb negb]. rewrite Hv, Hi. cbn [Z.eqb negb ITIMER_REAL].
  destruct (untimeout_mine (ts_q s) Hq Hm) as (Hq1&Hm1&Ho1).
  set (q1 := tq_untimeout fn p (ts_q s)) in *.
  unfold getitimer. change (u32 ITIMER_REAL) with 0. cbn [Z.ltb Z.compare ITIMER_PROF Z.eqb ITIMER_REAL].
  destruct (timerisset v) eqn:Es.
  - destruct (timevaladd_spec v (ts_time s) Hvok Ht) as [Hn Hsum].
    set (v2 := timevaladd v (ts_time s)) in *.
    assert (sec_ok v2) as Hok2.
    { split; [done|]. unfold sec_ok, norm, usec_of in *. lia. }
    assert (0 < usec_of v) as Hpos by (rewrite timerisset_spec in Es by apply Hvok; lia).
    destruct (hzto_spec (ts_time s) v2 Ht Hok2) as [Hh Hhb]; [lia|].
    destruct (tq_timeout fn p (hzto (ts_time s) v2) q1) as [q2| |] eqn:Eq; [|done|].
    + destruct (timeout_mine _ q1 q2 Hq1 (proj2 Hh) Hm1 Eq) as (Hq2&Hm2&Ho2).
      cbn [mbind outcome_bind mret outcome_ret ts_q ts_real ts_time it_value it_interval].
      split_and!; [done|done|done| | |].
      * intros fa Hfa. by rewrite Ho2, Ho1.
      * exists (hzto (ts_time s) v2). split_and!; [done|lia|lia|intros Hvs..].
        all: unfold sec_ok, norm, usec_of in *; lia.
      * assert (timerisset v2 = true) as -> by (rewrite timerisset_spec by done; unfold sec_ok, norm, usec_of in *; lia).
        rewrite timercmp_lt_spec by (done || apply Ht).
        replace (usec_of v2 <? usec_of (ts_time s)) with false by lia.
        cbn [mbind outcome_bind mret outcome_ret]. do 4 f_equal.
        destruct (timevalsub_spec v2 (ts_time s)) as [? ?]; [done..|lia|].
        apply norm_inj; [done|apply Hvok|lia].
    + pose proof (tq_timeout_fails q1 fn p (hzto (ts_time s) v2)) as F. by rewrite Eq in F.
  - cbn [mbind outcome_bind mret outcome_ret ts_q ts_real ts_time it_value it_interval]. rewrite Es. done.
Qed.

Lemma realit_loop_spec fuel s :
  tq_ok (ts_q s) -> mine (ts_q s) = [] -> sec_ok (ts_time s) -> tv_sec (ts_time s) < 900000000 ->
  sec_ok (it_value (ts_real s)) -> tv_sec (it_value (ts_real s)) < 900000000 ->
  sec_ok (it_interval (ts_real s)) -> tv_sec (it_interval (ts_real s)) <= 100000000 ->
  0 < usec_of (it_interval (ts_real s)) ->
  (Z.to_nat ((usec_of (ts_time s) - usec_of (it_value (ts_real s)))
             / usec_of (it_interval (ts_real s))) + 1 < fuel)%nat ->
  match realit_loop fn p fuel s with
  | Ok s' =>
      exists k, 1 <= k
        /\ usec_of (it_value (ts_real s'))
           = usec_of (it_value (ts_real s)) + k * usec_of (it_interval (ts_real s))
        /\ usec_of (ts_time s) < usec_of (it_value (ts_real s'))
        /\ (k = 1 \/ usec_of (it_value (ts_real s')) - usec_of (it_interval (ts_real s))
                     <= usec_of (ts_time s))
        /\ mine (ts_q s') = [(Z.max 1 (hzto (ts_time s) (it_value (ts_real s'))), (fn, p))]
  | Panic _ => True
  | Fault => False
  end.
Proof.
  revert s. induction fuel as [|fuel IH]; intros s Hq Hm Ht Htb Hv Hvb Hi Hib Hpos Hf; [lia|].
  cbn [realit_loop]. set (I := it_interval (ts_real s)) in *. set (v := it_value (ts_real s)) in *.
  destruct (timevaladd_spec v I Hv Hi) as [Hn Hsum]. set (v1 := timevaladd v I) in *.
  assert (sec_ok v1) as Hok1 by (split; [done|unfold sec_ok, norm, usec_of in *; lia]).
  cbn [ts_time ts_q ts_real ts_timer].
  rewrite timercmp_gt_spec by (done || apply Ht). case_if.
  - destruct (hzto_spec (ts_time s) v1 Ht Hok1) as [Hh _]; [lia|]. cbn [ts_q].
    destruct (tq_timeout fn p (hzto (ts_time s) v1) (ts_q s)) as [q2| |] eqn:Eq; [|done|].
    + destruct (timeout_mine _ _ q2 Hq (proj2 Hh) Hm Eq) as (_&Hm2&_). cbn.
      exists 1. split_and!; [lia|lia|lia|by left|exact Hm2].
    + pose proof (tq_timeout_fails (ts_q s) fn p (hzto (ts_time s) v1)) as F. by rewrite Eq in F.
  - set (s1 := mkTs (ts_time s) (mkItv I v1) (ts_timer s) (ts_q s)).
    specialize (IH s1). cbn [ts_q ts_time ts_real it_value it_interval s1] in IH.
    assert ((usec_of (ts_time s) - usec_of v1) / usec_of I
            = (usec_of (ts_time s) - usec_of v) / usec_of I - 1) as Hdiv.
    { rewrite Hsum. replace (usec_of (ts_time s) - (usec_of v + usec_of I))
        with (usec_of (ts_time s) - usec_of v + (-1) * usec_of I) by lia.
      rewrite Z.div_add by lia. lia. }
    assert (1 <= (usec_of (ts_time s) - usec_of v) / usec_of I) by (apply Z.div_le_lower_bound; lia).
    specialize (IH Hq Hm Ht Htb Hok1).
    destruct (realit_loop fn p fuel s1) as [s2| |]; [|done|].
    + destruct IH as (k&Hk&He&Hlt&Hor&Hmine);
        [unfold sec_ok, norm, usec_of in *; lia|done|done|done|rewrite Hdiv; lia|].
      exists (k + 1). split_and!; [lia|lia|done| |done].
      right. destruct Hor as [->|?]; lia.
    + apply IH; [unfold sec_ok, norm, usec_of in *; lia|done|done|done|rewrite Hdiv; lia].
Qed.

(** an expired real-time timer signals once and, when it has an
    interval, is set to the first multiple of the interval after its old
    value that is in the future: no drift, and the expirations missed are
    compressed into one.  The loop ends within the intervals that have
    passed, and one expiration is pending again. *)
Theorem realitexpire_spec fuel s :
  tq_ok (ts_q s) -> mine (ts_q s) = [] -> sec_ok (ts_time s) ->
  tv_sec (ts_time s) < 900000000 ->
  sec_ok (it_value (ts_real s)) -> tv_sec (it_value (ts_real s)) < 900000000 ->
  norm (it_interval (ts_real s)) -> tv_sec (it_interval (ts_real s)) <= 100000000 ->
  (Z.to_nat ((usec_of (ts_time s) - usec_of (it_value (ts_real s)))
             / usec_of (it_interval (ts_real s))) + 1 < fuel)%nat ->
  match realitexpire fn p fuel s with
  | Ok (sigs, s') =>
      sigs = [SIGALRM]
      /\ if timerisset (it_interval (ts_real s)) then
           exists k, 1 <= k
           /\ usec_of (it_value (ts_real s'))
              = usec_of (it_value (ts_real s)) + k * usec_of (it_interval (ts_real s))
           /\ usec_of (ts_time s) < usec_of (it_value (ts_real s'))
           /\ (k = 1 \/ usec_of (it_value (ts_real s')) - usec_of (it_interval (ts_real s))
                        <= usec_of (ts_time s))
           /\ mine (ts_q s') = [(Z.max 1 (hzto (ts_time s) (it_value (ts_real s'))), (fn, p))]
         else s' = mkTs (ts_time s) (mkItv (it_interval (ts_real s)) timerclear) (ts_timer s) (ts_q s)
  | Panic _ => timerisset (it_interval (ts_real s)) = true
  | Fault => False
  end.
Proof.
  intros Hq Hm Ht Htb Hv Hvb Hi Hib Hf. unfold realitexpire.
  destruct (timerisset (it_interval (ts_real s))) eqn:Es; cbn [negb]; [|done].
  rewrite timerisset_spec in Es by done. bool_prop.
  pose proof (realit_loop_spec fuel s Hq Hm Ht Htb Hv Hvb) as L.
  assert (sec_ok (it_interval (ts_real s))) as HI by (split; [done|unfold norm in *; lia]).
  specialize (L HI Hib ltac:(done) Hf).
  by destruct (realit_loop fn p fuel s) as [s'| |].
Qed.
End Real.

(** *** Witnesses, on the callout table *)

Lemma timeval_ops_spec_witness :
  usec_of (timevaladd (mkTv 3 999999) (mkTv 2 1)) = 6000000
  /\ timevalsub (mkTv 3 1) (mkTv 2 999999) = mkTv 0 2.
Proof.
  split.
  - destruct (timeval_ops_spec (mkTv 3 999999) (mkTv 2 1)) as ((_&->)&_);
      [unfold sec_ok, norm; cbn; lia..|]. reflexivity.
  - vm_compute. reflexivity.
Defined.

Lemma itimerdecr_spec_witness :
  let '(r, itp) := itimerdecr (mkItv (mkTv 1 0) (mkTv 0 4000)) 10000 in
  r = 0 /\ usec_of (it_value itp) = 994000.
Proof.
  pose proof (itimerdecr_spec (mkItv (mkTv 1 0) (mkTv 0 4000)) 10000) as H.
  destruct (itimerdecr _ _) as [r itp]. cbn in H.
  apply H; unfold sec_ok, norm, usec_of; cbn; try lia; reflexivity.
Defined.

Definition ts0 : tstate ctab :=
  mkTs (mkTv 700000000 250000) (mkItv (mkTv 0 0) (mkTv 0 0)) [] ctab0.

Lemma setitimer_real_spec_witness :
  match setitimer 20 5 ITIMER_REAL (Some (inr (mkItv (mkTv 1 0) (mkTv 2 500000)))) None ts0 with
  | Ok (error, _, s') => error = 0 /\ getitimer ITIMER_REAL 0 s' = Ok (0, Some (mkItv (mkTv 1 0) (mkTv 2 500000)))
      /\ pending (ts_q s') = [(-1, (10, 0)); (0, (11, 5)); (4, (12, 0)); (4, (10, 7)); (250, (20, 5))]
  | _ => False
  end.
Proof.
  pose proof (setitimer_real_spec 20 5 ts0 (mkItv (mkTv 1 0) (mkTv 2 500000)) (mkTv 2 500000) (mkTv 1 0)) as H.
  destruct (setitimer 20 5 _ _ _ ts0) as [[[error old] s']| |] eqn:E; [|vm_compute in E; discriminate..].
  destruct H as (->&_&_&_&_&->).
  - exact ctab0_wf.
  - vm_compute. lia.
  - unfold sec_ok, norm, ts0. cbn. lia.
  - reflexivity.
  - reflexivity.
  - reflexivity.
  - split; [done|]. split; [done|]. vm_compute in E. injection E as <- <-. vm_compute. reflexivity.
Defined.

(** Three and a half intervals late: one signal, and the fourth multiple. *)
Lemma realitexpire_spec_witness :
  match realitexpire 20 5 6 (mkTs (mkTv 700000000 250000) (mkItv (mkTv 0 500000) (mkTv 699999998 500000)) [] ctab0) with
  | Ok (sigs, s') => sigs = [SIGALRM] /\ it_value (ts_real s') = mkTv 700000000 500000
  | _ => False
  end.
Proof.
  pose proof (realitexpire_spec 20 5 6
    (mkTs (mkTv 700000000 250000) (mkItv (mkTv 0 500000) (mkTv 699999998 500000)) [] ctab0)) as H.
  destruct (realitexpire 20 5 6 _) as [[sigs s']| |] eqn:E; [|vm_compute in E; discriminate..].
  destruct H as (->&_).
  - exact ctab0_wf.
  - reflexivity.
  - unfold sec_ok, norm. cbn. lia.
  - reflexivity.
  - unfold sec_ok, norm. cbn. lia.
  - reflexivity.
  - unfold norm. cbn. lia.
  - cbn. lia.
  - vm_compute. lia.
  - split; [done|]. vm_compute in E. injection E as <-. reflexivity.
Defined.
