(* ===== verification/Resource.v ===== *)
(** * Priorities, limits and usage (sys/kern/kern_resource.c, setpri of
    sys/kern/kern_synch.c)

    The process table gives each process's scheduling fields, ids and limits;
    the limit structures are shared copy-on-write between processes. *)

From S2P Require Import Prelude Cred TimeVal.

Definition PRIO_MIN : Z := -20.
Definition PRIO_MAX : Z := 20.
Definition PRIO_PROCESS : Z := 0.
Definition PRIO_PGRP : Z := 1.
Definition PRIO_USER : Z := 2.
Definition PUSER : Z := 50.
Definition MAXPRI : Z := 127.
Definition RLIM_NLIMITS : Z := 9.
Definition RLIMIT_DATA : Z := 2.
Definition RLIMIT_STACK : Z := 3.
Definition RLIMIT_OFILE : Z := 8.
Definition MAXDSIZ : Z := 32 * 1024 * 1024.
Definition MAXSSIZ : Z := 8 * 1024 * 1024.
Definition PL_SHAREMOD : Z := 1.
Definition NBPG : Z := 4096.

Record rlimit := mkRlimit { rlim_cur : Z; rlim_max : Z }.
Record plimit := mkPlimit { pl_rlimit : list rlimit; p_lflags : Z; pl_refcnt : Z }.

(** The fields of a [struct proc] used here. *)
Record rproc := mkRproc {
  r_pid : Z;
  r_ucred : ucred;          (* *p_ucred *)
  r_ruid : Z;               (* p_cred->p_ruid *)
  r_acflag : Z;
  r_nice : Z;               (* p_nice, a char *)
  r_cpu : Z;                (* p_cpu, unsigned *)
  r_pri : Z;
  r_usrpri : Z;
  r_limit : loc;            (* p_limit *)
}.

(** The lists the lookups walk: [allproc], the pid hash chains, and the
    process groups with their members. *)
Record ptable := mkPtable {
  procs : gmap loc rproc;
  allproc : list loc;
  pidhash : list loc;
  pgrps : list (Z * list loc);
  limits : gmap loc plimit;
}.

Definition set_rproc (p : loc) (pr : rproc) (t : ptable) : ptable :=
  mkPtable (<[p := pr]> (procs t)) (allproc t) (pidhash t) (pgrps t) (limits t).

(** ** Scheduling priority *)

(** [curpri] is the priority of the running process; the flag tells whether
    [need_resched] is called. *)
Definition setpri (curpri : Z) (pr : rproc) : rproc * bool :=
  let newpri := u32 (PUSER + r_cpu pr / 4 + 2 * r_nice pr) in
  let newpri := Z.min newpri MAXPRI in
  (mkRproc (r_pid pr) (r_ucred pr) (r_ruid pr) (r_acflag pr) (r_nice pr) (r_cpu pr) (r_pri pr)
     (u8 newpri) (r_limit pr), newpri <? curpri).

Definition set_nice (n : Z) (pr : rproc) : rproc :=
  mkRproc (r_pid pr) (r_ucred pr) (r_ruid pr) (r_acflag pr) (s8 n) (r_cpu pr) (r_pri pr) (r_usrpri pr) (r_limit pr).
Definition set_acflag (f : Z) (pr : rproc) : rproc :=
  mkRproc (r_pid pr) (r_ucred pr) (r_ruid pr) f (r_nice pr) (r_cpu pr) (r_pri pr) (r_usrpri pr) (r_limit pr).

Section Priority.
Variable curpri : Z.

Definition donice (curp chgp : loc) (n : Z) (t : ptable) : outcome (Z * ptable) :=
  cp ← deref (procs t !! curp);
  gp ← deref (procs t !! chgp);
  if negb (cr_uid (r_ucred cp) =? 0) && negb (r_ruid cp =? 0)
     && negb (cr_uid (r_ucred cp) =? cr_uid (r_ucred gp))
     && negb (r_ruid cp =? cr_uid (r_ucred gp))
  then mret (EPERM, t)
  else
    let n := if PRIO_MAX <? n then PRIO_MAX else n in
    let n := if n <? PRIO_MIN then PRIO_MIN else n in
    let '(error, t) :=
      if n <? r_nice gp then
        let '(error, fl) := suser (r_ucred cp) (Some (r_acflag cp)) in
        (error, set_rproc curp (set_acflag (default 0 fl) cp) t)
      else (0, t) in
    if negb (error =? 0) then mret (EACCES, t)
    else
      gp ← deref (procs t !! chgp);
      mret (0, set_rproc chgp (setpri curpri (set_nice n gp)).1 t).

(** [found] and the table, after donice on each process of a list. *)
Fixpoint donice_all (curp : loc) (l : list loc) (n : Z) (found : Z) (t : ptable) : outcome (Z * ptable) :=
  match l with
  | [] => mret (found, t)
  | p :: l =>
      '(_, t) ← donice curp p n t;
      donice_all curp l n (found + 1) t
  end.

Definition pfind (t : ptable) (pid : Z) : option loc :=
  head (filter (fun p => (r_pid <$> procs t !! p) = Some pid) (pidhash t)).

(** [pg_mem] of the group, if there is one. *)
Definition pgfind (t : ptable) (pgid : Z) : option (list loc) :=
  snd <$> head (filter (fun g => g.1 = pgid) (pgrps t)).

(** The group a process is in. *)
Definition mypgrp (t : ptable) (p : loc) : option (list loc) :=
  snd <$> head (filter (fun g => p ∈ g.2) (pgrps t)).

(** The processes a [which]/[who] pair names; [None] for a bad [which]. *)
Definition targets (curp : loc) (which who : Z) (t : ptable) : outcome (option (list loc)) :=
  cp ← deref (procs t !! curp);
  if which =? PRIO_PROCESS then
    mret (Some (if who =? 0 then [curp] else option_list (pfind t who)))
  else if which =? PRIO_PGRP then
    if who =? 0 then l ← deref (mypgrp t curp); mret (Some l)
    else mret (Some (default [] (pgfind t who)))
  else if which =? PRIO_USER then
    let who := if who =? 0 then cr_uid (r_ucred cp) else who in
    mret (Some (filter (fun p => (fun pr => cr_uid (r_ucred pr)) <$> procs t !! p = Some who) (allproc t)))
  else mret None.

Definition setpriority (curp : loc) (which who prio : Z) (t : ptable) : outcome (Z * ptable) :=
  o ← targets curp which who t;
  match o with
  | None => mret (EINVAL, t)
  | Some l =>
      '(found, t) ← donice_all curp l prio 0 t;
      if found =? 0 then mret (ESRCH, t) else mret (0, t)
  end.

(** The lowest nice value of a list, from [low]. *)
Fixpoint lowest (l : list loc) (low : Z) (t : ptable) : outcome Z :=
  match l with
  | [] => mret low
  | p :: l =>
      pr ← deref (procs t !! p);
      lowest l (if r_nice pr <? low then r_nice pr else low) t
  end.

Definition getpriority (curp : loc) (which who : Z) (t : ptable) : outcome (Z * option Z) :=
  o ← targets curp which who t;
  match o with
  | None => mret (EINVAL, None)
  | Some l =>
      low ← lowest l (PRIO_MAX + 1) t;
      if low =? PRIO_MAX + 1 then mret (ESRCH, None) else mret (0, Some low)
  end.
End Priority.

(** ** Limits *)

Definition set_limits (m : gmap loc plimit) (t : ptable) : ptable :=
  mkPtable (procs t) (allproc t) (pidhash t) (pgrps t) m.
Definition set_limit (l : loc) (pr : rproc) : rproc :=
  mkRproc (r_pid pr) (r_ucred pr) (r_ruid pr) (r_acflag pr) (r_nice pr) (r_cpu pr) (r_pri pr) (r_usrpri pr) l.

Definition limcopy (lim : loc) (t : ptable) : outcome (loc * ptable) :=
  l ← deref (limits t !! lim);
  let copy := new_loc (limits t) in
  mret (copy, set_limits (<[copy := mkPlimit (pl_rlimit l) 0 1]> (limits t)) t).

(** The limit structure is changed by nobody else: [p] may write to it. *)
Definition unshare (p : loc) (t : ptable) : outcome ptable :=
  pr ← deref (procs t !! p);
  l ← deref (limits t !! r_limit pr);
  if (1 <? pl_refcnt l) && (Z.land (p_lflags l) PL_SHAREMOD =? 0) then
    let t := set_limits (<[r_limit pr := mkPlimit (pl_rlimit l) (p_lflags l) (pl_refcnt l - 1)]> (limits t)) t in
    '(copy, t) ← limcopy (r_limit pr) t;
    mret (set_rproc p (set_limit copy pr) t)
  else mret t.

Definition trunc_page (x : Z) : Z := Z.land (u32 x) (Z.lnot (NBPG - 1)).
Definition round_page (x : Z) : Z := trunc_page (u32 (u32 x + (NBPG - 1))).

(** The range and protection given to [vm_map_protect]: true is VM_PROT_ALL. *)
Definition stack_protect (vm_maxsaddr cur old : Z) : option (Z * Z * bool) :=
  if cur =? old then None
  else
    let addr := u32 (u32 vm_maxsaddr + MAXSSIZ) in
    let '(prot, size, addr) :=
      if old <? cur then (true, u32 (cur - old), u32 (addr - cur))
      else (false, u32 (old - cur), u32 (addr - old)) in
    let addr := trunc_page addr in
    let size := round_page size in
    Some (addr, u32 (addr + size), prot).

Definition cap (m x : Z) : Z := if m <? x then m else x.

(** [lim] is what [copyin] yields.  The error, the protection change asked
    for, and the table. *)
Definition setrlimit (maxfdescs vm_maxsaddr : Z) (p : loc) (which : Z) (lim : Z + rlimit) (t : ptable)
  : outcome (Z * option (Z * Z * bool) * ptable) :=
  let which := u32 which in
  if RLIM_NLIMITS <=? which then mret (EINVAL, None, t)
  else
    pr ← deref (procs t !! p);
    l ← deref (limits t !! r_limit pr);
    alimp ← deref (pl_rlimit l !! Z.to_nat which);
    match lim with
    | inl error => mret (error, None, t)
    | inr alim =>
        let '(error, t) :=
          if (rlim_max alimp <? rlim_cur alim) || (rlim_max alimp <? rlim_max alim) then
            let '(error, fl) := suser (r_ucred pr) (Some (r_acflag pr)) in
            (error, set_rproc p (set_acflag (default 0 fl) pr) t)
          else (0, t) in
        if negb (error =? 0) then mret (error, None, t)
        else
          t ← unshare p t;
          let '(alim, prot) :=
            if which =? RLIMIT_DATA then
              (mkRlimit (cap MAXDSIZ (rlim_cur alim)) (cap MAXDSIZ (rlim_max alim)), None)
            else if which =? RLIMIT_OFILE then
              (mkRlimit (cap maxfdescs (rlim_cur alim)) (cap maxfdescs (rlim_max alim)), None)
            else if which =? RLIMIT_STACK then
              let alim := mkRlimit (cap MAXSSIZ (rlim_cur alim)) (cap MAXSSIZ (rlim_max alim)) in
              (alim, stack_protect vm_maxsaddr (rlim_cur alim) (rlim_cur alimp))
            else (alim, None) in
          pr ← deref (procs t !! p);
          l ← deref (limits t !! r_limit pr);
          mret (0, prot, set_limits (<[r_limit pr :=
            mkPlimit (<[Z.to_nat which := alim]> (pl_rlimit l)) (p_lflags l) (pl_refcnt l)]> (limits t)) t)
    end.

(** [cout] is what [copyout] returns. *)
Definition getrlimit (p : loc) (which cout : Z) (t : ptable) : outcome (Z * option rlimit) :=
  let which := u32 which in
  if RLIM_NLIMITS <=? which then mret (EINVAL, None)
  else
    pr ← deref (procs t !! p);
    l ← deref (limits t !! r_limit pr);
    r ← deref (pl_rlimit l !! Z.to_nat which);
    mret (cout, if cout =? 0 then Some r else None).

(** fork1: share the limits, or copy them when their changes are shared. *)
Definition lim_fork (p1 p2 : loc) (t : ptable) : outcome ptable :=
  pr ← deref (procs t !! p1);
  l ← deref (limits t !! r_limit pr);
  if negb (Z.land (p_lflags l) PL_SHAREMOD =? 0) then
    '(copy, t) ← limcopy (r_limit pr) t;
    mret (set_rproc p2 (set_limit copy pr) t)
  else
    mret (set_rproc p2 pr
      (set_limits (<[r_limit pr := mkPlimit (pl_rlimit l) (p_lflags l) (pl_refcnt l + 1)]> (limits t)) t)).

(** ** Usage *)

(** [ru_longs] are the fields from [ru_first] to [ru_last]. *)
Record rusage := mkRusage { ru_utime : timeval; ru_stime : timeval; ru_maxrss : Z; ru_longs : list Z }.

Definition ruadd (ru ru2 : rusage) : rusage :=
  mkRusage (timevaladd (ru_utime ru) (ru_utime ru2)) (timevaladd (ru_stime ru) (ru_stime ru2))
    (if ru_maxrss ru <? ru_maxrss ru2 then ru_maxrss ru2 else ru_maxrss ru)
    (zip_with (fun a b => s32 (a + b)) (ru_longs ru) (ru_longs ru2)).

(** The statistics of a process, its own and its children's; [p_ru] comes back
    with the times stored into it. *)
Definition getrusage (who cout : Z) (utime stime : timeval) (p_ru p_cru : rusage)
  : Z * option rusage * rusage :=
  if who =? 0 then
    let ru := mkRusage utime stime (ru_maxrss p_ru) (ru_longs p_ru) in
    (cout, if cout =? 0 then Some ru else None, ru)
  else if who =? -1 then (cout, if cout =? 0 then Some p_cru else None, p_ru)
  else (EINVAL, None, p_ru).

(** ** Who may renice whom *)

Definition clamp (n : Z) : Z := Z.max PRIO_MIN (Z.min PRIO_MAX n).

Definition may_renice (cp gp : rproc) : Prop :=
  cr_uid (r_ucred cp) = 0 \/ r_ruid cp = 0
  \/ cr_uid (r_ucred cp) = cr_uid (r_ucred gp) \/ r_ruid cp = cr_uid (r_ucred gp).

(** What a caller with the ids of [cp] may do to a process: [a] before, [b]
    after, asking for nice [n]. *)
Record reniced (cp : rproc) (n : Z) (a b : rproc) : Prop := mkReniced {
  rn_ids : r_ucred b = r_ucred a /\ r_ruid b = r_ruid a /\ r_pid b = r_pid a /\ r_limit b = r_limit a;
  rn_nice : r_nice b = r_nice a \/ r_nice b = clamp n;
  rn_perm : r_nice b <> r_nice a ->
    may_renice cp a /\ (cr_uid (r_ucred cp) <> 0 -> r_nice a < r_nice b);
}.

Definition renice_step (cp : rproc) (n : Z) (t t' : ptable) : Prop :=
  allproc t' = allproc t /\ pidhash t' = pidhash t /\ pgrps t' = pgrps t /\ limits t' = limits t
  /\ forall q, option_Forall2 (reniced cp n) (procs t !! q) (procs t' !! q).

Lemma reniced_refl cp n a : reniced cp n a a.
Proof. split; [done|by left|done]. Qed.

Lemma reniced_trans cp n a b c : reniced cp n a b -> reniced cp n b c -> reniced cp n a c.
Proof.
  intros [(I1&I2&I3&I4) N1 P1] [(J1&J2&J3&J4) N2 P2]. split.
  - split_and!; congruence.
  - destruct N1, N2; [left|right|right|right]; congruence.
  - intros Hne. destruct (decide (r_nice c = r_nice b)) as [E|E].
    + rewrite E in *. by apply P1.
    + destruct (P2 E) as [M Hlt]. unfold may_renice in *. rewrite I1 in M. split; [done|].
      intros Hu. specialize (Hlt Hu). destruct (decide (r_nice b = r_nice a)) as [E'|E']; [lia|].
      destruct (P1 E') as [_ Hlt']. specialize (Hlt' Hu). lia.
Qed.

Lemma renice_step_refl cp n t : renice_step cp n t t.
Proof.
  split_and!; try done. intros q. destruct (procs t !! q); constructor. apply reniced_refl.
Qed.

Lemma renice_step_trans cp n t1 t2 t3 :
  renice_step cp n t1 t2 -> renice_step cp n t2 t3 -> renice_step cp n t1 t3.
Proof.
  intros (?&?&?&?&Hq1) (?&?&?&?&Hq2). split_and!; try congruence.
  intros q. specialize (Hq1 q). specialize (Hq2 q).
  inversion Hq1 as [a b Hab Ea Eb|Ea Eb]; rewrite <- Eb in Hq2; inversion Hq2; subst; constructor. by eapply reniced_trans.
Qed.

Lemma renice_step_set cp n t p a b : procs t !! p = Some a -> reniced cp n a b ->
  renice_step cp n t (set_rproc p b t).
Proof.
  intros Hp Hr. split_and!; try done. intros q. cbn. destruct (decide (q = p)) as [->|Hne].
  - rewrite lookup_insert_eq, Hp. by constructor.
  - rewrite lookup_insert_ne by done. destruct (procs t !! q); constructor. apply reniced_refl.
Qed.

Lemma renice_step_lookup cp n t t' p a : renice_step cp n t t' -> procs t !! p = Some a ->
  exists b, procs t' !! p = Some b /\ reniced cp n a b.
Proof.
  intros (_&_&_&_&Hq) Hp. specialize (Hq p). rewrite Hp in Hq. inversion Hq; subst. eauto.
Qed.

Lemma clamp_range n : PRIO_MIN <= clamp n <= PRIO_MAX.
Proof. unfold clamp, PRIO_MIN, PRIO_MAX. lia. Qed.

Lemma clamp_s8 n : s8 (clamp n) = clamp n.
Proof. pose proof (clamp_range n). unfold s8, PRIO_MIN, PRIO_MAX in *. apply wraps_id; lia. Qed.

(** donice: refused to strangers, refused below the present value to users
    other than the super-user, and otherwise the clamped value is set and the
    priority recomputed. *)
Lemma donice_spec curpri curp chgp n t cp gp :
  procs t !! curp = Some cp -> procs t !! chgp = Some gp ->
  exists e t', donice curpri curp chgp n t = Ok (e, t') /\ renice_step cp n t t'
    /\ (~ may_renice cp gp -> e = EPERM /\ t' = t)
    /\ (may_renice cp gp -> cr_uid (r_ucred cp) <> 0 -> clamp n < r_nice gp -> e = EACCES)
    /\ (may_renice cp gp -> cr_uid (r_ucred cp) = 0 \/ r_nice gp <= clamp n ->
        e = 0 /\ exists gp', procs t' !! chgp = Some gp' /\ r_nice gp' = clamp n
          /\ r_usrpri gp' = u8 (Z.min (u32 (PUSER + r_cpu gp / 4 + 2 * clamp n)) MAXPRI)).
Proof.
  intros Hc Hg. unfold donice. rewrite Hc, Hg. cbn [deref mbind outcome_bind].
  set (stranger := _ && _ && _ && _).
  assert (stranger = true <-> ~ may_renice cp gp) as Hst.
  { subst stranger. unfold may_renice. rewrite !andb_true_iff, !negb_true_iff, !Z.eqb_neq. tauto. }
  set (n1 := if PRIO_MAX <? n then PRIO_MAX else n).
  replace (if n1 <? PRIO_MIN then PRIO_MIN else n1) with (clamp n)
    by (subst n1; unfold clamp, PRIO_MIN, PRIO_MAX; repeat case_if; lia).
  destruct stranger.
  { exists EPERM, t. split; [done|]. split; [apply renice_step_refl|].
    assert (~ may_renice cp gp) by (by apply Hst). tauto. }
  assert (~ ~ may_renice cp gp) as Hnn by (intros Hn; apply Hst in Hn; done).
  assert (may_renice cp gp) as Hmay.
  { unfold may_renice in *. destruct (decide (cr_uid (r_ucred cp) = 0)), (decide (r_ruid cp = 0)),
      (decide (cr_uid (r_ucred cp) = cr_uid (r_ucred gp))), (decide (r_ruid cp = cr_uid (r_ucred gp))); tauto. }
  unfold suser. assert (forall f, reniced cp n cp (set_acflag f cp)) as Hfl by (intros; split; [done|by left|done]).
  assert (forall a, procs t !! chgp = Some a \/ (exists f, a = set_acflag f cp /\ curp = chgp) ->
    r_nice a = r_nice gp /\ r_ucred a = r_ucred gp /\ r_cpu a = r_cpu gp) as Hsame.
  { intros a [Ha|(f&->&<-)]; [rewrite Hg in Ha; by injection Ha as <-|].
    rewrite Hc in Hg. by injection Hg as <-. }
  assert (forall t1 gp1, renice_step cp n t t1 -> procs t1 !! chgp = Some gp1 ->
    r_nice gp1 = r_nice gp -> r_ucred gp1 = r_ucred gp -> r_cpu gp1 = r_cpu gp ->
    cr_uid (r_ucred cp) = 0 \/ r_nice gp <= clamp n ->
    let t' := set_rproc chgp (setpri curpri (set_nice (clamp n) gp1)).1 t1 in
    renice_step cp n t t' /\ exists gp', procs t' !! chgp = Some gp' /\ r_nice gp' = clamp n
      /\ r_usrpri gp' = u8 (Z.min (u32 (PUSER + r_cpu gp / 4 + 2 * clamp n)) MAXPRI)) as Hset.
  { intros t1 gp1 Hs Hg1 Hn1 Hu1 Hc1 Hok t'. split.
    - eapply renice_step_trans; [exact Hs|]. eapply renice_step_set; [exact Hg1|].
      split; cbn; rewrite ?clamp_s8; [done|by right|].
      intros Hne. split; [unfold may_renice in *; by rewrite Hu1|]. intros. lia.
    - eexists. cbn. rewrite lookup_insert_eq. split; [done|]. cbn. rewrite clamp_s8, Hc1. done. }
  destruct (clamp n <? r_nice gp) eqn:Elt; bool_prop.
  - destruct (Z.eqb_spec (cr_uid (r_ucred cp)) 0) as [E0|E0]; cbn [Z.eqb negb fmap option_fmap option_map default].
    + set (t1 := set_rproc curp _ t).
      assert (exists gp1, procs t1 !! chgp = Some gp1 /\ (procs t !! chgp = Some gp1
        \/ (exists f, gp1 = set_acflag f cp /\ curp = chgp))) as (gp1&Hg1&Hor).
      { subst t1. cbn. destruct (decide (chgp = curp)) as [->|Hne].
        - rewrite lookup_insert_eq. eexists. split; [done|]. right. eauto.
        - rewrite lookup_insert_ne by done. eauto. }
      rewrite Hg1. cbn [deref mbind outcome_bind]. destruct (Hsame gp1 Hor) as (?&?&?).
      destruct (Hset t1 gp1) as [Hs Hex]; [by eapply renice_step_set|done..|by left|].
      eexists 0, _. split; [reflexivity|]. split; [exact Hs|]. split; [done|]. split; [done|]. by intros.
    + exists EACCES. eexists. split; [reflexivity|]. split; [by eapply renice_step_set|].
      split; [done|]. split; [done|]. intros _ [?|?]; [done|lia].
  - cbn [Z.eqb negb]. rewrite Hg. cbn [deref mbind outcome_bind].
    destruct (Hset t gp) as [Hs Hex]; [apply renice_step_refl|done..|by right|].
    eexists 0, _. split; [reflexivity|]. split; [exact Hs|]. split; [done|]. split; [lia|]. by intros.
Qed.

(** Every process a list can name exists. *)
Definition live (t : ptable) : Prop :=
  forall p, p ∈ allproc t ++ pidhash t ++ (pgrps t ≫= snd) -> is_Some (procs t !! p).

Lemma donice_all_spec curpri curp cp n l found t :
  procs t !! curp = Some cp -> (forall p, p ∈ l -> is_Some (procs t !! p)) -> 0 <= found ->
  exists t', donice_all curpri curp l n found t = Ok (found + Z.of_nat (length l), t')
    /\ renice_step cp n t t'
    /\ (cr_uid (r_ucred cp) = 0 -> forall p, p ∈ l -> r_nice <$> procs t' !! p = Some (clamp n))
    /\ (forall p a, p ∈ l -> procs t !! p = Some a -> may_renice cp a -> r_nice a <= clamp n ->
         r_nice <$> procs t' !! p = Some (clamp n)).
Proof.
  revert found t cp. induction l as [|p l IH]; intros found t cp Hc Hl Hf; cbn [donice_all].
  { exists t. cbn. rewrite Z.add_0_r. split; [done|]. split; [apply renice_step_refl|].
    split; intros; by apply not_elem_of_nil in H || apply not_elem_of_nil in H0. }
  destruct (Hl p) as [gp Hg]; [left|].
  destruct (donice_spec curpri curp p n t cp gp Hc Hg) as (e&t1&->&Hs1&_&_&Hset). cbn [mbind outcome_bind].
  destruct (renice_step_lookup _ _ _ _ _ _ Hs1 Hc) as (cp1&Hc1&Hr1).
  assert (forall a b, reniced cp1 n a b <-> reniced cp n a b) as Hcp.
  { destruct Hr1 as [(I1&I2&I3&I4) _ _].
    intros a b. split; intros [? ? P]; split; try done; unfold may_renice in *; rewrite ?I1, ?I2 in *; done. }
  assert (forall ta tb, renice_step cp1 n ta tb -> renice_step cp n ta tb) as Hcps.
  { intros ta tb (?&?&?&?&Hq). split_and!; try done. intros q. specialize (Hq q).
    inversion Hq; constructor. by apply Hcp. }
  destruct (IH (found + 1) t1 cp1 Hc1) as (t2&->&Hs2&Hroot&Hown); [|lia|].
  { intros q Hq. destruct (Hl q) as [a Ha]; [by right|].
    destruct (renice_step_lookup _ _ _ _ _ _ Hs1 Ha) as (b&?&_). eauto. }
  apply Hcps in Hs2. destruct Hr1 as [(I1&I2&I3&I4) _ _]. rewrite I1 in Hroot.
  assert (forall q a, procs t1 !! q = Some a -> r_nice a = clamp n -> r_nice <$> procs t2 !! q = Some (clamp n)) as Hkeep.
  { intros q a Hq Ha. destruct (renice_step_lookup _ _ _ _ _ _ Hs2 Hq) as (b&->&[_ [E|E] _]); cbn; congruence. }
  exists t2. split; [do 2 f_equal; cbn [length]; lia|].
  split; [by eapply renice_step_trans|]. split.
  - intros H0 q Hq. apply elem_of_cons in Hq as [->|Hq]; [|by apply Hroot].
    destruct Hset as (_&gp'&Hg'&Hn'&_); [by left|by left|]. by apply (Hkeep p gp').
  - intros q a Hq Ha Hm Hn. destruct (renice_step_lookup _ _ _ _ _ _ Hs1 Ha) as (b&Hb&[(J1&J2&J3&J4) Nb _]).
    apply elem_of_cons in Hq as [->|Hq].
    + rewrite Hg in Ha. injection Ha as <-. destruct Hset as (_&gp'&Hg'&Hn'&_); [done|by right|].
      by apply (Hkeep p gp').
    + apply (Hown q b Hq Hb).
      * unfold may_renice in *. by rewrite I1, I2, J1.
      * destruct Nb; lia.
Qed.

Lemma targets_live curp which who t cp : live t -> procs t !! curp = Some cp ->
  (which = PRIO_PGRP -> who = 0 -> is_Some (mypgrp t curp)) ->
  exists o, targets curp which who t = Ok o
    /\ forall l, o = Some l -> forall p, p ∈ l -> is_Some (procs t !! p).
Proof.
  intros Hl Hc Hg. unfold targets. rewrite Hc. cbn [deref mbind outcome_bind].
  assert (forall (g : Z * list loc) p, head (filter (fun g => g.1 = who) (pgrps t)) = Some g \/
    head (filter (fun g => curp ∈ g.2) (pgrps t)) = Some g -> p ∈ g.2 -> is_Some (procs t !! p)) as Hgrp.
  { intros g p Hh Hp. apply Hl. rewrite !elem_of_app, list_elem_of_bind. right. right. exists g. split; [done|].
    destruct Hh as [Hh|Hh]; apply head_Some_elem_of in Hh; by apply list_elem_of_filter in Hh as [_ ?]. }
  repeat case_if.
  - eexists. split; [done|]. intros l [= <-] p Hp. apply list_elem_of_singleton in Hp as ->. by eexists.
  - eexists. split; [done|]. intros l [= <-] p Hp.
    destruct (pfind t who) as [q|] eqn:Eh; cbn in Hp; [|by apply not_elem_of_nil in Hp].
    apply list_elem_of_singleton in Hp as ->. unfold pfind in Eh. apply head_Some_elem_of, list_elem_of_filter in Eh as [_ Hq].
    apply Hl. rewrite !elem_of_app. tauto.
  - destruct (Hg Heqb0 Heqb1) as [l El]. rewrite El. eexists. split; [done|]. intros l' [= <-] p Hp.
    unfold mypgrp in El. apply fmap_Some in El as (g&Eh&->).
    apply (Hgrp g p); [by right|done].
  - eexists. split; [done|]. intros l [= <-] p Hp. destruct (pgfind t who) as [l|] eqn:El; cbn in Hp; [|by apply not_elem_of_nil in Hp].
    unfold pgfind in El. apply fmap_Some in El as (g&Eh&->).
    apply (Hgrp g p); [by left|done].
  - eexists. split; [done|]. intros l [= <-] p Hp. apply list_elem_of_filter in Hp as [_ Hp].
    apply Hl. rewrite elem_of_app. tauto.
  - eexists. split; [done|]. intros l [= <-] p Hp. apply list_elem_of_filter in Hp as [_ Hp].
    apply Hl. rewrite elem_of_app. tauto.
  - eexists. split; [done|]. done.
Qed.

(** ** Properties: priorities *)

(** setpriority is safe.  It never faults on a live table; it changes
    nice values only, and only to the clamped request (between -20 and 20); a
    caller that is not the super-user changes only processes it may change, and
    only upwards; the super-user's request takes effect on every process
    named.  It fails only for a bad [which] or when nobody is named. *)
Theorem setpriority_safe curpri curp cp which who prio t :
  live t -> procs t !! curp = Some cp ->
  (which = PRIO_PGRP -> who = 0 -> is_Some (mypgrp t curp)) ->
  exists o e t', targets curp which who t = Ok o
    /\ setpriority curpri curp which who prio t = Ok (e, t')
    /\ renice_step cp prio t t'
    /\ (cr_uid (r_ucred cp) = 0 -> forall l p, o = Some l -> p ∈ l ->
          r_nice <$> procs t' !! p = Some (clamp prio))
    /\ e = match o with None => EINVAL | Some [] => ESRCH | Some _ => 0 end.
Proof.
  intros Hl Hc Hg. destruct (targets_live curp which who t cp Hl Hc Hg) as (o&Ho&Hlive).
  unfold setpriority. rewrite Ho. cbn [mbind outcome_bind]. destruct o as [l|].
  - destruct (donice_all_spec curpri curp cp prio l 0 t Hc (Hlive l eq_refl)) as (t'&Hd&Hs&Hroot&_); [lia|].
    rewrite Hd. cbn [mbind outcome_bind]. exists (Some l).
    assert (forall H0 : cr_uid (r_ucred cp) = 0, forall l' p, Some l = Some l' -> p ∈ l' ->
      r_nice <$> procs t' !! p = Some (clamp prio)) as Hroot' by (intros H0 l' p [= <-]; by apply Hroot).
    destruct l as [|p l]; cbn [length].
    + exists ESRCH, t'. split; [done|]. split; [done|]. split; [done|]. by split.
    + exists 0, t'. rewrite (proj2 (Z.eqb_neq (0 + Z.of_nat (S (length l))) 0)) by lia.
      split; [done|]. split; [done|]. split; [done|]. by split.
  - exists None, EINVAL, t. split; [done|]. split; [done|]. split; [apply renice_step_refl|]. by split.
Qed.

(** setpriority hides refusals.  Asked by an ordinary user to change
    somebody else's process, it changes nothing and still returns 0: the error
    donice returns is kept in a variable that is not used. *)
Theorem setpriority_hides_errors curpri curp cp who prio g gp t :
  procs t !! curp = Some cp -> who <> 0 -> pfind t who = Some g -> procs t !! g = Some gp ->
  ~ may_renice cp gp ->
  donice curpri curp g prio t = Ok (EPERM, t)
  /\ setpriority curpri curp PRIO_PROCESS who prio t = Ok (0, t).
Proof.
  intros Hc Hw Hp Hg Hm. destruct (donice_spec curpri curp g prio t cp gp Hc Hg) as (e&t'&Hd&_&Hno&_).
  destruct (Hno Hm) as [-> ->]. split; [done|].
  unfold setpriority, targets. rewrite Hc. cbn [deref mbind outcome_bind Z.eqb PRIO_PROCESS].
  rewrite (proj2 (Z.eqb_neq who 0)) by done. rewrite Hp. cbn [mbind outcome_bind mret outcome_ret].
  change (option_list (Some g)) with [g]. cbn [donice_all]. by rewrite Hd.
Qed.

(** ** Limits are shared copy-on-write *)

Definition limited (l : loc) (pr : rproc) : Prop := r_limit pr = l.
#[export] Instance limited_dec l pr : Decision (limited l pr).
Proof. unfold limited. apply _. Defined.

Definition lrefs (t : ptable) (l : loc) : nat := count_map (limited l) (procs t).

(** Every [p_refcnt] is the number of processes with that structure. *)
Definition inv_lim (t : ptable) : Prop := forall l,
  match limits t !! l with
  | Some L => pl_refcnt L = Z.of_nat (lrefs t l) /\ (0 < lrefs t l)%nat
      /\ length (pl_rlimit L) = Z.to_nat RLIM_NLIMITS
  | None => lrefs t l = 0%nat
  end.

(** The limits a process has. *)
Definition lim_view (t : ptable) (p : loc) : option (list rlimit) :=
  pr ← procs t !! p; pl_rlimit <$> limits t !! r_limit pr.

Definition shared_mod (L : plimit) : bool := negb (Z.land (p_lflags L) PL_SHAREMOD =? 0).

Lemma inv_lim_lookup t p pr : inv_lim t -> procs t !! p = Some pr ->
  exists L, limits t !! r_limit pr = Some L /\ pl_refcnt L = Z.of_nat (lrefs t (r_limit pr))
    /\ length (pl_rlimit L) = Z.to_nat RLIM_NLIMITS.
Proof.
  intros Hi Hp. specialize (Hi (r_limit pr)).
  pose proof (count_map_pos (limited (r_limit pr)) _ p pr Hp eq_refl) as Hpos.
  unfold lrefs in *. destruct (limits t !! r_limit pr); [naive_solver|lia].
Qed.

(** A sole owner shares with nobody. *)
Lemma sole_owner t p pr q prq : procs t !! p = Some pr -> (lrefs t (r_limit pr) <= 1)%nat ->
  procs t !! q = Some prq -> q <> p -> r_limit prq <> r_limit pr.
Proof.
  intros Hp Hone Hq Hne He. apply Hne. symmetry.
  eapply (count_map_one (limited (r_limit pr)) _ p pr q prq); eauto; done.
Qed.

Lemma acflag_step t p pr f : inv_lim t -> procs t !! p = Some pr ->
  let t' := set_rproc p (set_acflag f pr) t in
  inv_lim t' /\ (forall q, lim_view t' q = lim_view t q) /\ limits t' = limits t
  /\ procs t' !! p = Some (set_acflag f pr).
Proof.
  intros Hi Hp t'. split; [|split; [|split; [done|by cbn; rewrite lookup_insert_eq]]].
  - intros l. specialize (Hi l). cbn. replace (lrefs t' l) with (lrefs t l); [done|].
    unfold lrefs. cbn. pose proof (count_map_insert (limited l) (procs t) p pr (set_acflag f pr) Hp) as H.
    unfold one, limited in *. cbn in *. repeat case_decide; lia.
  - intros q. unfold lim_view. cbn. destruct (decide (q = p)) as [->|Hne].
    + by rewrite lookup_insert_eq, Hp.
    + by rewrite lookup_insert_ne.
Qed.

Lemma unshare_spec t p pr L : inv_lim t -> procs t !! p = Some pr -> limits t !! r_limit pr = Some L ->
  exists t' l L', unshare p t = Ok t' /\ inv_lim t' /\ procs t' = <[p := set_limit l pr]> (procs t)
    /\ limits t' !! l = Some L' /\ pl_rlimit L' = pl_rlimit L
    /\ (forall q, lim_view t' q = lim_view t q)
    /\ (shared_mod L = false -> forall q prq, procs t !! q = Some prq -> q <> p -> r_limit prq <> l).
Proof.
  intros Hi Hp HL. unfold unshare. rewrite Hp. cbn [deref mbind outcome_bind]. rewrite HL.
  cbn [deref mbind outcome_bind]. set (l := r_limit pr) in *.
  destruct (inv_lim_lookup t p pr Hi Hp) as (L'&HL'&Href&Hlen). fold l in HL', Href.
  rewrite HL in HL'. injection HL' as <-.
  assert (set_limit l pr = pr) as Hsl by (by destruct pr).
  destruct (_ && _) eqn:E.
  - bool_prop. unfold limcopy. cbn [limits set_limits].
    rewrite lookup_insert_eq. cbn [deref mbind outcome_bind mret outcome_ret].
    set (m1 := <[l := _]> (limits t)). set (copy := new_loc m1).
    assert (m1 !! copy = None) as Hfresh by apply new_loc_fresh.
    assert (limits t !! copy = None /\ copy <> l) as [Hf Hcl].
    { apply lookup_insert_None in Hfresh as [? ?]. by split. }
    eexists _, copy, _. split; [reflexivity|]. cbn [limits set_limits set_rproc procs pl_rlimit].
    split; [|split; [done|split; [by rewrite lookup_insert_eq|split; [done|split]]]].
    + intros k. cbn [limits set_limits set_rproc procs].
      pose proof (count_map_insert (limited k) (procs t) p pr (set_limit copy pr) Hp) as Hk.
      pose proof (Hi copy) as Hic. rewrite Hf in Hic. pose proof (Hi k) as Hik.
      unfold lrefs in *. cbn [procs set_rproc set_limits]. unfold one, limited in *. cbn [r_limit set_limit] in Hk.
      fold l in Hk. destruct (decide (k = copy)) as [->|Hkc].
      * rewrite lookup_insert_eq. cbn. rewrite decide_False in Hk by done. rewrite decide_True in Hk by done.
        split_and!; [lia|lia|done].
      * rewrite lookup_insert_ne by done. rewrite (decide_False (P := copy = k)) in Hk by done.
        subst m1. destruct (decide (k = l)) as [->|Hkl].
        -- rewrite lookup_insert_eq. cbn. rewrite decide_True in Hk by done. split_and!; [lia|lia|done].
        -- rewrite lookup_insert_ne by done. rewrite decide_False in Hk by done.
           rewrite !Nat.add_0_r in Hk. rewrite Hk. exact Hik.
    + intros q. unfold lim_view. cbn. destruct (decide (q = p)) as [->|Hne].
      * rewrite lookup_insert_eq, Hp. cbn. rewrite lookup_insert_eq. cbn. fold l. by rewrite HL.
      * rewrite lookup_insert_ne by done. destruct (procs t !! q) as [prq|] eqn:Eq; [|done]. cbn.
        assert (r_limit prq <> copy) as Hnc.
        { intros Heq. destruct (inv_lim_lookup t q prq Hi Eq) as (?&Hx&_). congruence. }
        rewrite lookup_insert_ne by done. subst m1. destruct (decide (r_limit prq = l)) as [->|Hnl].
        -- by rewrite lookup_insert_eq, HL.
        -- by rewrite lookup_insert_ne.
    + intros _ q prq Hq Hne Heq. destruct (inv_lim_lookup t q prq Hi Hq) as (?&Hx&_). congruence.
  - exists t, l, L. rewrite Hsl, insert_id by done. split_and!; try done.
    intros Hsm q prq Hq Hne. unfold shared_mod in Hsm. apply negb_false_iff in Hsm. rewrite Hsm in E.
    rewrite andb_true_r in E. bool_prop. apply (sole_owner t p pr q prq Hp); [|done..]. fold l. lia.
Qed.

(** The value stored for a request. *)
Definition capped (maxfdescs which : Z) (r : rlimit) : rlimit :=
  let by_max m := mkRlimit (cap m (rlim_cur r)) (cap m (rlim_max r)) in
  if which =? RLIMIT_DATA then by_max MAXDSIZ
  else if which =? RLIMIT_OFILE then by_max maxfdescs
  else if which =? RLIMIT_STACK then by_max MAXSSIZ
  else r.

(** A request within the hard limit [old], or the super-user's. *)
Definition may_set (pr : rproc) (old alim : rlimit) : Prop :=
  (rlim_cur alim <= rlim_max old /\ rlim_max alim <= rlim_max old) \/ cr_uid (r_ucred pr) = 0.

(** ** Properties: limits *)

(** setrlimit refuses a bad index, passes on a [copyin] error, and refuses
    an unprivileged request whose soft or hard value is above the hard limit;
    otherwise the caller gets the request capped to the system's maximum for
    that limit, the reference counts stay right, and nobody who merely shares
    the structure copy-on-write sees a change. *)
Theorem setrlimit_spec maxfdescs sp p which lim t pr L :
  inv_lim t -> procs t !! p = Some pr -> limits t !! r_limit pr = Some L ->
  (RLIM_NLIMITS <= u32 which -> setrlimit maxfdescs sp p which lim t = Ok (EINVAL, None, t))
  /\ (u32 which < RLIM_NLIMITS -> exists old, pl_rlimit L !! Z.to_nat (u32 which) = Some old
    /\ match lim with
       | inl error => setrlimit maxfdescs sp p which lim t = Ok (error, None, t)
       | inr alim =>
           (~ may_set pr old alim -> exists t', setrlimit maxfdescs sp p which lim t = Ok (EPERM, None, t')
             /\ forall q, lim_view t' q = lim_view t q)
           /\ (may_set pr old alim -> exists prot t', setrlimit maxfdescs sp p which lim t = Ok (0, prot, t')
             /\ inv_lim t'
             /\ lim_view t' p = Some (<[Z.to_nat (u32 which) := capped maxfdescs (u32 which) alim]> (pl_rlimit L))
             /\ (shared_mod L = false -> forall q, q <> p -> lim_view t' q = lim_view t q))
       end).
Proof.
  intros Hi Hp HL. unfold setrlimit. split; intros Hw.
  { replace (RLIM_NLIMITS <=? u32 which) with true by lia. done. }
  replace (RLIM_NLIMITS <=? u32 which) with false by lia. rewrite Hp. cbn [deref mbind outcome_bind].
  rewrite HL. cbn [deref mbind outcome_bind].
  destruct (inv_lim_lookup t p pr Hi Hp) as (L0&HL0&_&Hlen). rewrite HL in HL0. injection HL0 as <-.
  assert (0 <= u32 which) by apply u32_range.
  destruct (lookup_lt_is_Some_2 (pl_rlimit L) (Z.to_nat (u32 which))) as [old Hold]; [unfold RLIM_NLIMITS in *; lia|].
  exists old. split; [done|]. rewrite Hold. cbn [deref mbind outcome_bind].
  destruct lim as [error|alim]; [done|].
  set (over := _ || _).
  assert (over = false <-> rlim_cur alim <= rlim_max old /\ rlim_max alim <= rlim_max old) as Hover.
  { subst over. rewrite orb_false_iff, !Z.ltb_ge. done. }
  (* the table after the test: the accounting flag at most *)
  set (chk := if over then _ else _).
  assert (exists t1 pr1, chk = (if over && negb (cr_uid (r_ucred pr) =? 0) then EPERM else 0, t1)
    /\ inv_lim t1 /\ (forall q, lim_view t1 q = lim_view t q) /\ limits t1 = limits t
    /\ procs t1 !! p = Some pr1 /\ r_limit pr1 = r_limit pr /\ shared_mod L = shared_mod L
    /\ (forall q, q <> p -> procs t1 !! q = procs t !! q)) as (t1&pr1&Hchk&Hi1&Hv1&Hlim1&Hp1&Hr1&_&Hq1).
  { subst chk. destruct over; cbn [andb].
    - unfold suser. destruct (acflag_step t p pr) with (f := default 0 (Some (r_acflag pr))) as (A1&A2&A3&A4); [done..|].
      destruct (acflag_step t p pr) with (f := default 0 ((fun f => Z.lor f ASU) <$> Some (r_acflag pr)))
        as (B1&B2&B3&B4); [done..|].
      case_if; cbn [negb]; eexists _, _; (split; [reflexivity|]); split_and!; try done;
        intros q Hq; cbn; by rewrite lookup_insert_ne.
    - exists t, pr. split_and!; done. }
  rewrite Hchk. clear Hchk chk. split; intros Hal.
  - assert (over = true /\ cr_uid (r_ucred pr) <> 0) as [-> Hu].
    { unfold may_set in Hal. destruct over; [split; [done|]|]; tauto. }
    rewrite (proj2 (Z.eqb_neq _ _) Hu). cbn [andb negb Z.eqb EPERM]. by exists t1.
  - assert (over && negb (cr_uid (r_ucred pr) =? 0) = false) as ->.
    { unfold may_set in Hal. destruct over; [|done]. cbn. apply negb_false_iff, Z.eqb_eq. destruct Hal; [|done].
      assert (true = false) by tauto. done. }
    cbn [negb Z.eqb]. destruct (unshare_spec t1 p pr1 L Hi1 Hp1) as (t2&l&L2&->&Hi2&Hpr2&HL2&Hrl&Hv2&Hiso);
      [by rewrite Hlim1, Hr1|]. cbn [mbind outcome_bind].
    set (st := if u32 which =? RLIMIT_DATA then _ else _).
    assert (exists prot, st = (capped maxfdescs (u32 which) alim, prot)) as [prot ->].
    { subst st. unfold capped. repeat case_if; eauto. }
    assert (procs t2 !! p = Some (set_limit l pr1)) as Hp2 by (by rewrite Hpr2, lookup_insert_eq).
    rewrite Hp2. cbn [deref mbind outcome_bind r_limit set_limit]. rewrite HL2.
    cbn [deref mbind outcome_bind mret outcome_ret]. eexists _, _. split; [reflexivity|].
    split; [|split].
    + intros k. specialize (Hi2 k). unfold lrefs in *. cbn [procs limits set_limits].
      destruct (decide (k = l)) as [->|Hkl].
      * rewrite lookup_insert_eq. rewrite HL2 in Hi2. cbn. by rewrite length_insert.
      * by rewrite lookup_insert_ne.
    + unfold lim_view. cbn. rewrite Hp2. cbn. rewrite lookup_insert_eq. cbn. by rewrite Hrl.
    + intros Hsm q Hq. rewrite <- Hv1, <- Hv2. unfold lim_view. cbn. rewrite Hpr2, lookup_insert_ne by done.
      destruct (procs t1 !! q) as [prq|] eqn:Eq; [|done]. cbn.
      rewrite lookup_insert_ne; [done|]. intros Heq. by apply (Hiso Hsm q prq Eq Hq).
Qed.

(** *** Witnesses: two users, limits shared after a fork *)

Definition user (uid pid nice : Z) : rproc :=
  mkRproc pid (mkUcred 1 uid 0 []) uid 0 nice 8 0 0 1.
Definition lims0 : plimit := mkPlimit (replicate 9 (mkRlimit 100 200)) 0 2.
Definition t0 : ptable :=
  mkPtable {[10%positive := user 7 40 0; 11%positive := user 8 41 4]} [10; 11]%positive [10; 11]%positive
    [(40, [10; 11]%positive)] {[1%positive := lims0]}.

Lemma t0_live : live t0.
Proof.
  intros p Hp. cbn in Hp. rewrite !elem_of_cons in Hp.
  assert (p = 10%positive \/ p = 11%positive) as [->| ->]; [|by eexists..].
  repeat destruct Hp as [->|Hp]; auto. by apply not_elem_of_nil in Hp.
Qed.

Lemma t0_inv : inv_lim t0.
Proof.
  intros l. destruct (decide (l = 1%positive)) as [->|Hne].
  - cbn [limits t0]. rewrite lookup_singleton_eq. split; [reflexivity|]. split; [|reflexivity].
    apply Nat.ltb_lt. vm_compute. reflexivity.
  - cbn [limits t0]. rewrite lookup_singleton_ne by done. apply count_map_zero.
    intros i x Hx. unfold limited. intros <-. apply Hne. cbn [procs t0] in Hx.
    apply lookup_insert_Some in Hx as [[_ <-]|[_ Hx]]; [done|].
    by apply lookup_singleton_Some in Hx as [_ <-].
Qed.

(** The whole group is named; the user's own process is reniced to the most,
    the other is not. *)
Lemma setpriority_safe_witness :
  exists t', setpriority 50 10 PRIO_PGRP 40 99 t0 = Ok (0, t')
    /\ r_nice <$> procs t' !! 10%positive = Some 20 /\ r_nice <$> procs t' !! 11%positive = Some 4.
Proof.
  destruct (setpriority_safe 50 10 (user 7 40 0) PRIO_PGRP 40 99 t0 t0_live eq_refl)
    as (o&e&t'&Ho&Hs&_&_&He); [discriminate|].
  vm_compute in Ho. injection Ho as <-. rewrite He in Hs. exists t'. split; [exact Hs|].
  vm_compute in Hs. injection Hs as <-. split; vm_compute; reflexivity.
Defined.

Lemma setpriority_hides_errors_witness :
  setpriority 50 10 PRIO_PROCESS 41 10 t0 = Ok (0, t0).
Proof.
  apply (setpriority_hides_errors 50 10 (user 7 40 0) 41 10 11 (user 8 41 4) t0); try reflexivity.
  - discriminate.
  - unfold may_renice. cbn. lia.
Defined.

Lemma setrlimit_spec_witness :
  exists prot t', setrlimit 64 0 10 RLIMIT_OFILE (inr (mkRlimit 150 150)) t0 = Ok (0, prot, t')
    /\ lim_view t' 11 = lim_view t0 11.
Proof.
  destruct (setrlimit_spec 64 0 10 RLIMIT_OFILE (inr (mkRlimit 150 150)) t0 (user 7 40 0) lims0 t0_inv)
    as [_ H]; [reflexivity..|].
  destruct H as (old&Hold&_&H); [reflexivity|]. vm_compute in Hold. injection Hold as <-.
  destruct H as (prot&t'&E&_&_&Hiso).
  - left. cbn. lia.
  - exists prot, t'. split; [exact E|]. apply Hiso; [reflexivity|discriminate].
Defined.
