(* ===== verification/Clock.v ===== *)
(** * The clock interrupts (sys/kern/kern_clock.c)

    [hardclock] runs at every tick: it ages the timeout queue, charges the
    running process, and advances the time of day, by a little more or less
    than a tick while an [adjtime] correction is being applied. *)

From S2P Require Import Prelude Callout Cred TimeVal Resource.

Definition RLIMIT_CPU : nat := 0.
Definition SIGXCPU : Z := 24.
Definition SIGVTALRM : Z := 26.
Definition SIGPROF : Z := 27.
Definition CP_USER : nat := 0.
Definition CP_NICE : nat := 1.
Definition CP_SYS : nat := 2.
Definition CP_IDLE : nat := 3.
Definition NZERO : Z := 0.

(** [CLKF_USERMODE] and [CLKF_BASEPRI] of the interrupted frame. *)
Record clockframe := mkFrame { usermode : bool; basepri : bool }.

Record vmspace := mkVm { vm_tsize : Z; vm_dsize : Z; vm_ssize : Z; resident_count : Z }.

(** The running process, with its [p_stats]. *)
Record hproc := mkHproc {
  h_proc : rproc;
  h_cpticks : Z;
  h_utime : timeval;
  h_stime : timeval;
  h_virt : itimerval;         (* p_timer[ITIMER_VIRTUAL] *)
  h_prof : itimerval;         (* p_timer[ITIMER_PROF] *)
  h_pr_scale : Z;
  h_ru : rusage;
  h_vm : option vmspace;
}.

Record hstate := mkHstate {
  h_k : ktime;
  h_calls : ctab;
  h_cur : option hproc;
  h_limits : gmap loc plimit;
  h_cp_time : list Z;
  h_dk_busy : Z;
  h_dk_time : list Z;
  h_phz : Z;
}.

(** ** The pieces of hardclock *)

(** [BUMPTIME]. *)
Definition BUMPTIME (t : timeval) (usec : Z) : timeval :=
  let u := s32 (tv_usec t + usec) in
  if 1000000 <=? u then mkTv (s32 (tv_sec t + 1)) (s32 (u - 1000000)) else mkTv (tv_sec t) u.

(** [timerisset(...) && itimerdecr(...) == 0]: the timer, and the signal when
    it expires. *)
Definition run_timer (sig : Z) (itp : itimerval) : itimerval * list Z :=
  if timerisset (it_value itp) then
    let '(r, itp) := itimerdecr itp tick in
    (itp, if r =? 0 then [sig] else [])
  else (itp, []).

(** Lines 139-157: the process, [needsoft] for profiling, the signals. *)
Definition hc_mode (frame : clockframe) (op : option hproc) : outcome (option hproc * bool * list Z) :=
  if usermode frame then
    p ← deref op;
    let '(virt, sigs) := run_timer SIGVTALRM (h_virt p) in
    mret (Some (mkHproc (h_proc p) (h_cpticks p) (BUMPTIME (h_utime p) tick) (h_stime p) virt (h_prof p)
                  (h_pr_scale p) (h_ru p) (h_vm p)),
          negb (h_pr_scale p =? 0), sigs)
  else
    mret ((fun p => mkHproc (h_proc p) (h_cpticks p) (h_utime p) (BUMPTIME (h_stime p) tick) (h_virt p)
                  (h_prof p) (h_pr_scale p) (h_ru p) (h_vm p)) <$> op, false, []).

(** Kilobytes of a number of pages. *)
Definition kb (pages : Z) : Z := Z.quot (s32 (pages * NBPG)) 1024.

(** Lines 160-169: integral space use. *)
Definition hc_ru (p : hproc) : hproc :=
  match h_vm p with
  | None => p
  | Some vm =>
      let ru := h_ru p in
      let add n x := s32 (default 0 (ru_longs ru !! n) + kb x) in
      let longs := <[0%nat := add 0%nat (vm_tsize vm)]> (<[1%nat := add 1%nat (vm_dsize vm)]>
                   (<[2%nat := add 2%nat (vm_ssize vm)]> (ru_longs ru))) in
      let maxrss := if ru_maxrss ru <? kb (resident_count vm) then kb (resident_count vm) else ru_maxrss ru in
      mkHproc (h_proc p) (h_cpticks p) (h_utime p) (h_stime p) (h_virt p) (h_prof p) (h_pr_scale p)
        (mkRusage (ru_utime ru) (ru_stime ru) maxrss longs) (h_vm p)
  end.

(** Lines 180-186: the CPU time limit. *)
Definition hc_limit (p : hproc) (lims : gmap loc plimit) : outcome (gmap loc plimit * list Z) :=
  L ← deref (lims !! r_limit (h_proc p));
  r ← deref (pl_rlimit L !! RLIMIT_CPU);
  if rlim_cur r <? s32 (s32 (tv_sec (h_utime p) + tv_sec (h_stime p)) + 1) then
    let r' := if rlim_cur r <? rlim_max r then mkRlimit (s32 (rlim_cur r + 5)) (rlim_max r) else r in
    mret (<[r_limit (h_proc p) := mkPlimit (<[RLIMIT_CPU := r']> (pl_rlimit L)) (p_lflags L) (pl_refcnt L)]> lims,
          [SIGXCPU])
  else mret (lims, []).

(** Lines 206-213: the CPU usage estimate and the priority. *)
Definition hc_cpu (curpri : Z) (p : hproc) : hproc :=
  let pr := h_proc p in
  let cpu := u32 (r_cpu pr + 1) in
  let cpu := if cpu =? 0 then u32 (cpu - 1) else cpu in
  let pr := mkRproc (r_pid pr) (r_ucred pr) (r_ruid pr) (r_acflag pr) (r_nice pr) cpu (r_pri pr) (r_usrpri pr) (r_limit pr) in
  let pr :=
    if Z.land cpu 3 =? 0 then
      let pr := (setpri curpri pr).1 in
      if PUSER <=? r_pri pr then
        mkRproc (r_pid pr) (r_ucred pr) (r_ruid pr) (r_acflag pr) (r_nice pr) (r_cpu pr) (r_usrpri pr) (r_usrpri pr) (r_limit pr)
      else pr
    else pr in
  mkHproc pr (s32 (h_cpticks p + 1)) (h_utime p) (h_stime p) (h_virt p) (h_prof p) (h_pr_scale p) (h_ru p) (h_vm p).

(** Lines 179-214: charge the running process. *)
Definition hc_charge (curpri : Z) (p : hproc) (lims : gmap loc plimit) : outcome (hproc * gmap loc plimit * list Z) :=
  '(lims, sigs) ← hc_limit p lims;
  let '(prof, sigs') := run_timer SIGPROF (h_prof p) in
  let p := mkHproc (h_proc p) (h_cpticks p) (h_utime p) (h_stime p) (h_virt p) prof (h_pr_scale p) (h_ru p) (h_vm p) in
  mret (hc_cpu curpri p, lims, sigs ++ sigs').

(** gatherstats: the CPU state charged. *)
Definition cpstate (frame : clockframe) (cur : option hproc) : outcome nat :=
  if usermode frame then
    p ← deref cur;
    mret (if NZERO <? r_nice (h_proc p) then CP_NICE else CP_USER)
  else
    mret (match cur with None => if basepri frame then CP_IDLE else CP_SYS | Some _ => CP_SYS end).

Definition gatherstats (frame : clockframe) (s : hstate) : outcome hstate :=
  st ← cpstate frame (h_cur s);
  n ← deref (h_cp_time s !! st);
  mret (mkHstate (h_k s) (h_calls s) (h_cur s) (h_limits s) (<[st := s32 (n + 1)]> (h_cp_time s)) (h_dk_busy s)
    (imap (fun i t => if Z.testbit (h_dk_busy s) (Z.of_nat i) then s32 (t + 1) else t) (h_dk_time s)) (h_phz s)).

(** Lines 229-242: the time of day. *)
Definition hc_time (k : ktime) : ktime :=
  if timedelta k =? 0 then mkKtime (BUMPTIME (time k) tick) (boottime k) (tz k) (timedelta k) (tickdelta k)
  else if timedelta k <? 0 then
    mkKtime (BUMPTIME (time k) (s32 (tick - tickdelta k))) (boottime k) (tz k)
      (s32 (timedelta k + tickdelta k)) (tickdelta k)
  else
    mkKtime (BUMPTIME (time k) (s32 (tick + tickdelta k))) (boottime k) (tz k)
      (s32 (timedelta k - tickdelta k)) (tickdelta k).

(** The whole interrupt: the signals posted to the running process, whether
    the software clock is asked for, and the state. *)
Definition hardclock (curpri : Z) (frame : clockframe) (s : hstate) : outcome (list Z * bool * hstate) :=
  let '(todo, needsoft) := hardclock_callout (calltodo (h_calls s)) in
  let calls := mkCtab todo (callfree (h_calls s)) in
  '(cur, prof, sigs) ← hc_mode frame (h_cur s);
  let cur := hc_ru <$> cur in
  '(cur, lims, sigs) ←
    match cur with
    | None => mret (None, h_limits s, sigs)
    | Some p => '(p, lims, sigs') ← hc_charge curpri p (h_limits s); mret (Some p, lims, sigs ++ sigs')
    end;
  let s := mkHstate (h_k s) calls cur lims (h_cp_time s) (h_dk_busy s) (h_dk_time s) (h_phz s) in
  s ← (if h_phz s =? 0 then gatherstats frame s else mret s);
  mret (sigs, needsoft || prof,
    mkHstate (hc_time (h_k s)) (h_calls s) (h_cur s) (h_limits s) (h_cp_time s) (h_dk_busy s) (h_dk_time s) (h_phz s)).

(** ** The software clock *)

(** Lines 361-386: the process when it was trapped in user mode, and whether
    it gets a profiling tick. *)
Definition soft_tail (curpri : Z) (frame : clockframe) (cur : option hproc) : option hproc * bool :=
  match cur with
  | None => (None, false)
  | Some p =>
      if usermode frame then
        let pr := h_proc p in
        let pr :=
          if negb (cr_uid (r_ucred pr) =? 0) && (r_nice pr =? NZERO) && (10 * 60 <? tv_sec (h_utime p)) then
            let pr := (setpri curpri (set_nice (NZERO + 4) pr)).1 in
            mkRproc (r_pid pr) (r_ucred pr) (r_ruid pr) (r_acflag pr) (r_nice pr) (r_cpu pr) (r_usrpri pr) (r_usrpri pr) (r_limit pr)
          else pr in
        (Some (mkHproc pr (h_cpticks p) (h_utime p) (h_stime p) (h_virt p) (h_prof p) (h_pr_scale p) (h_ru p) (h_vm p)),
         negb (h_pr_scale p =? 0))
      else (Some p, false)
  end.

(** The calls made, whether [profile_tick] is called, and the state. *)
Definition softclock (curpri : Z) (handler : Z -> Z -> Z -> list callop) (fuel : nat) (frame : clockframe) (s : hstate)
  : outcome (list (Z * (Z * Z)) * bool * hstate) :=
  '(evs, calls) ← softclock_loop handler fuel (h_calls s);
  let '(cur, prof) := soft_tail curpri frame (h_cur s) in
  mret (evs, prof, mkHstate (h_k s) calls cur (h_limits s) (h_cp_time s) (h_dk_busy s) (h_dk_time s) (h_phz s)).

(** ** The time of day *)

(** A clock whose sums fit, with a correction no larger than the tick. *)
Definition clock_ok (k : ktime) : Prop :=
  norm (time k) /\ tv_sec (time k) < 2 ^ 31 - 1 /\ - 2 ^ 30 < timedelta k < 2 ^ 30
  /\ 0 <= tickdelta k <= tick.

(** The part of the correction that goes into the next tick. *)
Definition adj (k : ktime) : Z := Z.sgn (timedelta k) * tickdelta k.

Lemma BUMPTIME_spec t u : norm t -> tv_sec t < 2 ^ 31 - 1 -> 0 <= u <= 1000000 ->
  norm (BUMPTIME t u) /\ usec_of (BUMPTIME t u) = usec_of t + u.
Proof.
  unfold norm, usec_of, BUMPTIME. intros. rewrite s32_id by lia. case_if; s32_simp; lia.
Qed.

Lemma hc_time_spec k : clock_ok k ->
  norm (time (hc_time k)) /\ usec_of (time (hc_time k)) = usec_of (time k) + tick + adj k
  /\ timedelta (hc_time k) = timedelta k - adj k /\ tickdelta (hc_time k) = tickdelta k.
Proof.
  intros (Hn&Hs&Hd&Ht). change tick with 10000 in *. unfold hc_time, adj. change tick with 10000.
  case_if; [|case_if]; cbn [time timedelta tickdelta].
  - rewrite Heqb. destruct (BUMPTIME_spec (time k) 10000) as [? ?]; [done|lia..|]. cbn. split_and!; try done; lia.
  - rewrite Z.sgn_neg by lia. rewrite !s32_id by lia.
    destruct (BUMPTIME_spec (time k) (10000 - tickdelta k)) as [? ?]; [done|lia..|]. split_and!; try done; lia.
  - rewrite Z.sgn_pos by lia. rewrite !s32_id by lia.
    destruct (BUMPTIME_spec (time k) (10000 + tickdelta k)) as [? ?]; [done|lia..|]. split_and!; try done; lia.
Qed.

(** ** The charge to the running process *)

Lemma hc_ru_keeps p : h_proc (hc_ru p) = h_proc p /\ h_utime (hc_ru p) = h_utime p
  /\ h_stime (hc_ru p) = h_stime p /\ h_prof (hc_ru p) = h_prof p.
Proof. unfold hc_ru. by destruct (h_vm p). Qed.

Lemma run_timer_sig sig itp x : x ∈ (run_timer sig itp).2 -> x = sig.
Proof.
  unfold run_timer. destruct (timerisset _); [|by intros ?%not_elem_of_nil].
  destruct (itimerdecr itp tick) as [r i]. case_if; cbn; [apply list_elem_of_singleton|by intros ?%not_elem_of_nil].
Qed.

(** The seconds of processor time the limit is compared with. *)
Definition over_limit (utime stime : timeval) (L : plimit) : Prop :=
  exists r, pl_rlimit L !! RLIMIT_CPU = Some r /\ rlim_cur r < tv_sec utime + tv_sec stime + 1.

Lemma hc_charge_spec curpri p lims L : lims !! r_limit (h_proc p) = Some L ->
  length (pl_rlimit L) = Z.to_nat RLIM_NLIMITS ->
  0 <= tv_sec (h_utime p) < 2 ^ 29 -> 0 <= tv_sec (h_stime p) < 2 ^ 29 ->
  exists p' lims' sigs, hc_charge curpri p lims = Ok (p', lims', sigs)
    /\ h_utime p' = h_utime p /\ h_stime p' = h_stime p
    /\ (SIGXCPU ∈ sigs <-> over_limit (h_utime p) (h_stime p) L)
    /\ (over_limit (h_utime p) (h_stime p) L -> forall r, pl_rlimit L !! RLIMIT_CPU = Some r ->
        rlim_cur r < rlim_max r -> exists L', lims' !! r_limit (h_proc p) = Some L'
          /\ pl_rlimit L' !! RLIMIT_CPU = Some (mkRlimit (s32 (rlim_cur r + 5)) (rlim_max r))).
Proof.
  intros HL Hlen Hu Hs. unfold hc_charge, hc_limit. rewrite HL. cbn [deref mbind outcome_bind].
  destruct (lookup_lt_is_Some_2 (pl_rlimit L) RLIMIT_CPU) as [r Hr]; [rewrite Hlen; vm_compute; lia|].
  rewrite Hr. cbn [deref mbind outcome_bind]. rewrite !s32_id by (rewrite ?s32_id; lia).
  destruct (run_timer SIGPROF (h_prof p)) as [prof sigs'] eqn:Et.
  assert (forall x, x ∈ sigs' -> x = SIGPROF) as Hprof.
  { intros x Hx. apply (run_timer_sig SIGPROF (h_prof p)). by rewrite Et. }
  assert (SIGXCPU ∉ sigs') as Hnp by (intros Hx; by apply Hprof in Hx).
  case_if; cbn [mbind outcome_bind mret outcome_ret]; eexists _, _, _; (split; [reflexivity|]); cbn [h_utime h_stime hc_cpu].
  - split_and!; [done|done| |].
    + rewrite elem_of_app, list_elem_of_singleton. split; [intros _; by exists r|by left].
    + intros _ r' Hr' Hlt. simplify_eq. rewrite lookup_insert_eq. eexists. split; [done|].
      cbn. replace (rlim_cur r' <? rlim_max r') with true by lia.
      rewrite list_lookup_insert_eq; [done|]. rewrite Hlen. vm_compute. lia.
  - split_and!; [done|done| |].
    + cbn. split; [done|]. intros (r'&Hr'&?). simplify_eq. lia.
    + intros (r'&Hr'&?). simplify_eq. lia.
Qed.

Lemma hc_mode_spec frame p : norm (h_utime p) -> norm (h_stime p) ->
  tv_sec (h_utime p) < 2 ^ 29 -> tv_sec (h_stime p) < 2 ^ 29 ->
  exists p' prof sigs, hc_mode frame (Some p) = Ok (Some p', prof, sigs)
    /\ h_proc p' = h_proc p /\ norm (h_utime p') /\ norm (h_stime p')
    /\ usec_of (h_utime p') = usec_of (h_utime p) + (if usermode frame then tick else 0)
    /\ usec_of (h_stime p') = usec_of (h_stime p) + (if usermode frame then 0 else tick)
    /\ SIGXCPU ∉ sigs.
Proof.
  intros Hu Hs Hub Hsb. unfold hc_mode. assert (0 <= tick <= 1000000) as Ht by (vm_compute; split; discriminate).
  destruct (BUMPTIME_spec (h_utime p) tick) as [Hu' Hue]; [done|lia|done|].
  destruct (BUMPTIME_spec (h_stime p) tick) as [Hs' Hse]; [done|lia|done|].
  destruct (usermode frame); cbn [deref mbind outcome_bind].
  - destruct (run_timer SIGVTALRM (h_virt p)) as [virt sigs] eqn:Et. cbn. eexists _, _, _. split; [reflexivity|].
    cbn. split_and!; try done; [lia|]. intros Hx.
    assert (SIGXCPU = SIGVTALRM); [|done]. apply (run_timer_sig SIGVTALRM (h_virt p)). by rewrite Et.
  - cbn. eexists _, _, _. split; [reflexivity|]. cbn. split_and!; try done; [lia|]. apply not_elem_of_nil.
Qed.

Lemma hardclock_due l : wf_from 0 l -> Forall (fun e => - 2 ^ 31 < e.1) (rem_from 0 l) ->
  filter (fun e => e.1 <= 0) (rem_from 0 (hardclock_callout l).1) <> [] -> (hardclock_callout l).2 = true.
Proof.
  intros Hw Hb. rewrite hardclock_needsoft. destruct l as [|p l]; [done|]. intros Hd.
  cbn in Hw. destruct Hw as (_&Hlo&Hhi&Hw). apply Forall_cons_iff in Hb as [Hp _]. cbn in Hp.
  rewrite s32_id by lia. destruct (c_time p - 1 <=? 0) eqn:E; [done|]. exfalso. bool_prop. apply Hd.
  cbn [hardclock_callout]. rewrite s32_id by lia. replace (0 <? c_time p - 1) with true by lia.
  cbn [fst rem_from]. rewrite filter_cons_False by (cbn; lia). cbn [set_time c_time].
  replace (Z.max 0 (0 + (c_time p - 1))) with (Z.max 0 (0 + c_time p) - 1) by lia.
  apply rem_from_pos; [lia|]. apply wf_from_shift; [lia|done].
Qed.

(** ** Properties *)

(** one clock interrupt with a process running: every pending timeout
    comes one tick nearer, and the software clock is asked for whenever one is
    due; the time of day advances by a tick plus exactly the part of the
    correction taken off [timedelta]; the tick is charged to the process's user
    or system time, according to the mode interrupted, and to exactly one
    processor state; and SIGXCPU is posted just when the time limit is
    exceeded. *)
Theorem hardclock_spec curpri frame s p L :
  h_cur s = Some p -> wf (h_calls s) -> Forall (fun e => - 2 ^ 31 < e.1) (pending (h_calls s)) ->
  clock_ok (h_k s) -> norm (h_utime p) -> norm (h_stime p) ->
  tv_sec (h_utime p) < 2 ^ 28 -> tv_sec (h_stime p) < 2 ^ 28 ->
  h_limits s !! r_limit (h_proc p) = Some L -> length (pl_rlimit L) = Z.to_nat RLIM_NLIMITS ->
  length (h_cp_time s) = 4%nat -> h_phz s = 0 ->
  exists sigs soft s' p' st n, hardclock curpri frame s = Ok (sigs, soft, s') /\ h_cur s' = Some p'
    /\ wf (h_calls s') /\ pending (h_calls s') = age <$> pending (h_calls s)
    /\ (due (h_calls s') <> [] -> soft = true)
    /\ norm (time (h_k s'))
    /\ usec_of (time (h_k s')) = usec_of (time (h_k s)) + tick + (timedelta (h_k s) - timedelta (h_k s'))
    /\ usec_of (h_utime p') = usec_of (h_utime p) + (if usermode frame then tick else 0)
    /\ usec_of (h_stime p') = usec_of (h_stime p) + (if usermode frame then 0 else tick)
    /\ h_cp_time s !! st = Some n /\ h_cp_time s' = <[st := s32 (n + 1)]> (h_cp_time s)
    /\ (SIGXCPU ∈ sigs <-> over_limit (h_utime p') (h_stime p') L).
Proof.
  intros Hcur Hw Hb Hk Hu Hs Hub Hsb HL Hlen Hcp Hphz. unfold hardclock.
  destruct Hw as [Hw Hsort].
  destruct (hardclock_callout_spec (calltodo (h_calls s)) Hw Hb) as [Hw' Hp].
  pose proof (hardclock_due (calltodo (h_calls s)) Hw Hb) as Hdue.
  destruct (hardclock_callout (calltodo (h_calls s))) as [todo needsoft]. cbn [fst snd] in *.
  rewrite Hcur. destruct (hc_mode_spec frame p Hu Hs) as (p1&prof&sigs1&->&Hpr1&Hu1&Hs1&Hue&Hse&Hx1); [lia..|].
  cbn [mbind outcome_bind fmap option_fmap option_map].
  destruct (hc_ru_keeps p1) as (R1&R2&R3&R4).
  assert (tick = 10000) as Htick by done.
  destruct (hc_charge_spec curpri (hc_ru p1) (h_limits s) L) as (p2&lims&sigs2&->&Hu2&Hs2&Hx2&_).
  { by rewrite R1, Hpr1. } { done. }
  { rewrite R2. unfold norm, usec_of in *. destruct (usermode frame); lia. }
  { rewrite R3. unfold norm, usec_of in *. destruct (usermode frame); lia. }
  cbn [mbind outcome_bind mret outcome_ret h_phz]. rewrite Hphz. cbn [Z.eqb].
  assert (exists st, cpstate frame (Some p2) = Ok st /\ (st < 4)%nat) as (st&Hst&Hst4).
  { unfold cpstate. destruct (usermode frame); cbn; [case_if|]; eexists; (split; [reflexivity|]); vm_compute; lia. }
  destruct (lookup_lt_is_Some_2 (h_cp_time s) st) as [n Hn]; [lia|].
  unfold gatherstats. cbn [h_cur h_cp_time]. rewrite Hst. cbn [mbind outcome_bind]. rewrite Hn.
  cbn [deref mbind outcome_bind mret outcome_ret h_k h_calls h_cur h_limits h_cp_time h_dk_busy h_dk_time].
  destruct (hc_time_spec (h_k s) Hk) as (Hn'&He&Htd&_).
  eexists _, _, _, p2, st, n. split; [reflexivity|]. cbn [h_k h_calls h_cur h_cp_time].
  rewrite Hu2, Hs2, R2, R3 in *. unfold wf, pending, due in *. cbn [calltodo] in *. unfold pending. cbn [calltodo].
  split_and!; try done.
  - rewrite Hp. by apply age_sorted.
  - intros Hd. by rewrite (Hdue Hd).
  - lia.
  - rewrite elem_of_app, Hx2. tauto.
Qed.

(** *** Corrections of the time of day *)

Definition ticks (n : nat) (k : ktime) : ktime := Nat.iter n hc_time k.

Lemma ticks_S n k : ticks (S n) k = ticks n (hc_time k).
Proof. unfold ticks. by rewrite Nat.iter_succ_r. Qed.

(** A correction of [m] tick deltas is used up by [m] ticks. *)
Lemma ticks_converge m k : norm (time k) -> 0 < tickdelta k <= tick ->
  Z.abs (timedelta k) = Z.of_nat m * tickdelta k -> Z.abs (timedelta k) < 2 ^ 30 ->
  usec_of (time k) + Z.of_nat m * (2 * tick) < (2 ^ 31 - 2) * 1000000 ->
  timedelta (ticks m k) = 0 /\ norm (time (ticks m k))
  /\ usec_of (time (ticks m k)) = usec_of (time k) + Z.of_nat m * tick + timedelta k.
Proof.
  revert k. induction m as [|m IH]; intros k Hn Ht Hd Hb Hu.
  - cbn -[tick]. split_and!; [lia|done|lia].
  - rewrite ticks_S. change tick with 10000 in *.
    assert (clock_ok k) as Hk by (unfold clock_ok; change tick with 10000; unfold norm, usec_of in *; lia).
    destruct (hc_time_spec k Hk) as (Hn'&He&Htd&Htk). change tick with 10000 in *. unfold adj in *.
    destruct (IH (hc_time k)) as (?&?&IHe); rewrite ?Htk, ?Htd; try done.
    + nia.
    + nia.
    + rewrite He. nia.
    + split_and!; [done|done|]. rewrite IHe, He, Htd. nia.
Qed.

Definition root : ucred := mkUcred 1 0 0 [].

(** a correction of at most a second forward, or any backward, is applied
    in full, to within less than [tickadj] microseconds of what was asked for:
    after |d'| / tickadj ticks nothing is pending and the clock is ahead of
    its normal course by d'. *)
Theorem adjtime_applies cred acflag delta old k :
  cr_uid cred = 0 -> timedelta k = 0 -> norm (time k) -> tv_sec (time k) < 2 ^ 30 ->
  - 2 ^ 30 < usec_of delta <= bigadj -> - 2 ^ 11 < tv_sec delta < 2 ^ 11 ->
  exists o fl k' d', adjtime cred acflag (inr delta) old k = Ok (0, o, k', fl)
    /\ timedelta k' = d' /\ Z.abs (usec_of delta - d') < tickadj /\ Z.abs d' <= Z.abs (usec_of delta)
    /\ forall n, Z.of_nat n = Z.abs d' / tickadj ->
         timedelta (ticks n k') = 0
         /\ usec_of (time (ticks n k')) = usec_of (time k) + Z.of_nat n * tick + d'.
Proof.
  intros Hc Htd Hn Hs Hd Hds. change tickadj with 40. change bigadj with 1000000 in *.
  unfold adjtime, suser. rewrite Hc. cbn [Z.eqb negb fmap option_fmap option_map default].
  rewrite Htd. cbn [Z.eqb]. rewrite (s32_id (tv_sec delta * 1000000)) by lia. fold (usec_of delta).
  rewrite s32_id by lia. change bigadj with 1000000. change tickadj with 40.
  replace (1000000 <? usec_of delta) with false by lia. cbn [Z.eqb].
  set (d' := if negb _ then _ else _).
  assert (Z.abs (usec_of delta - d') < 40 /\ Z.abs d' <= Z.abs (usec_of delta) /\ Z.abs d' mod 40 = 0) as (H1&H2&H3).
  { subst d'. case_if; Z.to_euclidean_division_equations; lia. }
  eexists _, _, _, d'. split; [reflexivity|]. cbn [timedelta]. split; [done|]. split; [done|]. split; [done|].
  intros n Hnn. assert (Z.abs d' = Z.of_nat n * 40) as Habs by (Z.to_euclidean_division_equations; lia).
  set (k' := mkKtime _ _ _ d' 40).
  destruct (ticks_converge n k') as (?&_&He); cbn [time timedelta tickdelta k']; try done.
  all: change tick with 10000; unfold norm, usec_of in *; try lia.
Qed.

(** While the delta is ten times the standard one, the remainder of the
    correction modulo that delta never changes. *)
Lemma ticks_remainder n k c : tickdelta k = 400 -> - 2 ^ 30 < timedelta k < 2 ^ 30 ->
  timedelta k mod 400 = c -> 0 < c ->
  tickdelta (ticks n k) = 400 /\ - 2 ^ 30 < timedelta (ticks n k) < 2 ^ 30 /\ timedelta (ticks n k) mod 400 = c.
Proof.
  revert k. induction n as [|n IH]; intros k Ht Hb Hm Hc; [done|].
  rewrite ticks_S. apply IH; [| | |done].
  - unfold hc_time. rewrite Ht. by repeat case_if.
  - unfold hc_time. rewrite Ht. repeat case_if; cbn [timedelta]; rewrite ?s32_id by lia; lia.
  - unfold hc_time. rewrite Ht. repeat case_if; cbn [timedelta]; rewrite ?s32_id by lia; [lia|..];
      Z.to_euclidean_division_equations; lia.
Qed.

(** a correction of more than [bigadj] is never finished when it is not
    nearly a multiple of the tenfold delta (40 microseconds or more above one):
    adjtime rounds it to a multiple of [tickadj] instead, and hardclock then
    overshoots zero in both directions for ever. *)
Theorem adjtime_never_finishes cred acflag delta old k :
  cr_uid cred = 0 -> timedelta k = 0 -> bigadj < usec_of delta < 2 ^ 30 ->
  0 <= tv_sec delta < 2 ^ 11 -> 40 <= usec_of delta mod 400 ->
  exists o fl k', adjtime cred acflag (inr delta) old k = Ok (0, o, k', fl)
    /\ forall n, timedelta (ticks n k') <> 0.
Proof.
  intros Hc Htd Hd Hds Hm. unfold adjtime, suser. rewrite Hc. cbn [Z.eqb negb fmap option_fmap option_map default].
  rewrite Htd. cbn [Z.eqb]. change bigadj with 1000000 in *. change tickadj with 40.
  rewrite (s32_id (tv_sec delta * 1000000)) by lia. fold (usec_of delta). rewrite s32_id by lia.
  replace (1000000 <? usec_of delta) with true by lia. change (10 * 40) with 400. cbn [Z.eqb].
  eexists _, _, _. split; [reflexivity|]. intros n. set (k' := mkKtime _ _ _ _ 400).
  assert (0 < timedelta k' < 2 ^ 30 /\ 0 < timedelta k' mod 400) as [Hr Hp].
  { cbn [timedelta k']. case_if; Z.to_euclidean_division_equations; lia. }
  destruct (ticks_remainder n k' (timedelta k' mod 400)) as (_&_&He); [done|lia|done|done|].
  intros Hz. rewrite Hz in He. change (0 mod 400) with 0 in He. lia.
Qed.

(** the tick that finds a process over its processor time limit raises the
    soft limit in the limit structure without making a copy of it: every other
    process that shares the structure, copy-on-write, gets the higher limit
    too. *)
Theorem hardclock_shared_limit curpri frame s p L r others q prq :
  h_cur s = Some p -> norm (h_utime p) -> norm (h_stime p) ->
  tv_sec (h_utime p) < 2 ^ 28 -> tv_sec (h_stime p) < 2 ^ 28 ->
  h_limits s !! r_limit (h_proc p) = Some L -> length (pl_rlimit L) = Z.to_nat RLIM_NLIMITS ->
  pl_rlimit L !! RLIMIT_CPU = Some r -> 0 <= rlim_cur r < rlim_max r -> rlim_max r < 2 ^ 31 - 5 ->
  rlim_cur r < tv_sec (h_utime p) + tv_sec (h_stime p) + 1 ->
  length (h_cp_time s) = 4%nat -> h_phz s = 0 ->
  procs others !! q = Some prq -> r_limit prq = r_limit (h_proc p) ->
  exists sigs soft s' ls, hardclock curpri frame s = Ok (sigs, soft, s')
    /\ lim_view (set_limits (h_limits s) others) q = Some (pl_rlimit L)
    /\ lim_view (set_limits (h_limits s') others) q = Some ls
    /\ ls !! RLIMIT_CPU = Some (mkRlimit (rlim_cur r + 5) (rlim_max r)).
Proof.
  intros Hcur Hu Hs Hub Hsb HL Hlen Hr Hrc Hrm Hover Hcp Hphz Hq Hql. unfold hardclock.
  destruct (hardclock_callout (calltodo (h_calls s))) as [todo needsoft].
  rewrite Hcur. destruct (hc_mode_spec frame p Hu Hs) as (p1&prof&sigs1&->&Hpr1&Hu1&Hs1&Hue&Hse&Hx1); [lia..|].
  cbn [mbind outcome_bind fmap option_fmap option_map].
  destruct (hc_ru_keeps p1) as (R1&R2&R3&R4). assert (tick = 10000) as Htick by done.
  destruct (hc_charge_spec curpri (hc_ru p1) (h_limits s) L) as (p2&lims&sigs2&->&_&_&_&Hlim).
  { by rewrite R1, Hpr1. } { done. }
  { rewrite R2. unfold norm, usec_of in *. destruct (usermode frame); lia. }
  { rewrite R3. unfold norm, usec_of in *. destruct (usermode frame); lia. }
  destruct Hlim with (r := r) as (L'&HL'&Hr'); [|done|lia|].
  { exists r. split; [done|]. rewrite R2, R3. unfold norm, usec_of in *. destruct (usermode frame); lia. }
  rewrite R1, Hpr1 in HL'. rewrite s32_id in Hr' by lia.
  cbn [mbind outcome_bind mret outcome_ret h_phz]. rewrite Hphz. cbn [Z.eqb].
  assert (exists st, cpstate frame (Some p2) = Ok st /\ (st < 4)%nat) as (st&Hst&Hst4).
  { unfold cpstate. destruct (usermode frame); cbn; [case_if|]; eexists; (split; [reflexivity|]); vm_compute; lia. }
  destruct (lookup_lt_is_Some_2 (h_cp_time s) st) as [n Hn]; [lia|].
  unfold gatherstats. cbn [h_cur h_cp_time]. rewrite Hst. cbn [mbind outcome_bind]. rewrite Hn.
  cbn [deref mbind outcome_bind mret outcome_ret h_k h_calls h_cur h_limits h_cp_time h_dk_busy h_dk_time].
  eexists _, _, _, (pl_rlimit L'). split; [reflexivity|]. cbn [h_limits]. unfold lim_view. cbn. rewrite Hq. cbn.
  by rewrite Hql, HL, HL'.
Qed.

(** *** Witnesses *)

Definition hp0 : hproc :=
  mkHproc (user 7 40 0) 0 (mkTv 90 995000) (mkTv 10 0) (mkItv (mkTv 0 0) (mkTv 0 0)) (mkItv (mkTv 0 0) (mkTv 0 0))
    0 (mkRusage (mkTv 0 0) (mkTv 0 0) 0 (replicate 13 0)) (Some (mkVm 4 8 1 16)).
Definition k0 : ktime := mkKtime (mkTv 700000000 995000) (mkTv 1 0) (0, 0) 0 0.
Definition hs0 : hstate :=
  mkHstate k0 ctab0 (Some hp0) {[1%positive := lims0]} [0; 0; 0; 0] 0 (replicate 8 0) 0.

Ltac small :=
  unfold clock_ok, norm; change tick with 10000;
  cbn [h_k h_utime h_stime time timedelta tickdelta tv_sec tv_usec hs0 k0 hp0]; lia.

Lemma hardclock_spec_witness :
  exists sigs soft s', hardclock 50 (mkFrame true true) hs0 = Ok (sigs, soft, s')
    /\ time (h_k s') = mkTv 700000001 5000 /\ SIGXCPU ∈ sigs.
Proof.
  destruct (hardclock_spec 50 (mkFrame true true) hs0 hp0 lims0) as (sigs&soft&s'&p'&st&n&E&_);
    [reflexivity|exact ctab0_wf| |small|small|small|reflexivity|reflexivity|reflexivity|reflexivity|reflexivity|reflexivity|].
  - repeat constructor.
  - exists sigs, soft, s'. split; [exact E|]. vm_compute in E. injection E as <- <- <-.
    split; [reflexivity|left].
Defined.

Lemma adjtime_applies_witness :
  exists o fl k' d', adjtime root 0 (inr (mkTv 0 100)) false k0 = Ok (0, o, k', fl)
    /\ timedelta k' = d' /\ d' = 80 /\ timedelta (ticks 2 k') = 0
    /\ usec_of (time (ticks 2 k')) = usec_of (time k0) + 2 * tick + 80.
Proof.
  destruct (adjtime_applies root 0 (mkTv 0 100) false k0) as (o&fl&k'&d'&E&Ed&_&_&H);
    [reflexivity|reflexivity|small|reflexivity|vm_compute; split; congruence|cbn; lia|].
  assert (d' = 80) as E80 by (vm_compute in E; injection E as <- <- <-; rewrite <- Ed; reflexivity).
  exists o, fl, k', d'. rewrite E80 in *. split; [exact E|]. split; [exact Ed|]. split; [reflexivity|].
  exact (H 2%nat eq_refl).
Defined.

Lemma adjtime_never_finishes_witness :
  exists o fl k', adjtime root 0 (inr (mkTv 1 80)) false k0 = Ok (0, o, k', fl)
    /\ forall n, timedelta (ticks n k') <> 0.
Proof.
  apply (adjtime_never_finishes root 0 (mkTv 1 80) false k0);
    [reflexivity|reflexivity|vm_compute; split; congruence|cbn; lia|vm_compute; congruence].
Defined.

Lemma hardclock_shared_limit_witness :
  exists sigs soft s' ls, hardclock 50 (mkFrame false true) hs0 = Ok (sigs, soft, s')
    /\ lim_view (set_limits (h_limits s') t0) 11 = Some ls /\ ls !! RLIMIT_CPU = Some (mkRlimit 105 200).
Proof.
  destruct (hardclock_shared_limit 50 (mkFrame false true) hs0 hp0 lims0 (mkRlimit 100 200) t0 11 (user 8 41 4))
    as (sigs&soft&s'&ls&E&_&Hv&Hls);
    [reflexivity|small|small|reflexivity|reflexivity|reflexivity|reflexivity|reflexivity|cbn; lia
    |reflexivity|reflexivity|reflexivity|reflexivity|reflexivity|reflexivity|].
  exists sigs, soft, s', ls. split; [exact E|]. split; [exact Hv|exact Hls].
Defined.
