(* ===== verification/Fork.v ===== *)
(** * Process identifiers (sys/kern/kern_fork.c, first part of fork1)

    The limits on the number of processes, and the search for an unused
    process id.  [nextpid] and [pidchecked] bound a range of ids known to be
    unused, so that most forks need no scan. *)

From S2P Require Import Prelude.

Definition PID_MAX : Z := 30000.

(** What fork1 looks at in a process: its id, its group's, its user's. *)
Record fproc := mkFproc { f_pid : Z; f_pgid : Z; f_uid : Z }.

Record ftable := mkFtable {
  allproc : list fproc;
  zombproc : list fproc;
  nprocs : Z;
  nextpid : Z;
  pidchecked : Z;
}.

(** ** The search *)

(** The scan of the process lists (lines 132-144).  [inl]: [goto retry]. *)
Fixpoint pid_scan (l : list fproc) (nextpid pidchecked : Z) : (Z * Z) + (Z * Z) :=
  match l with
  | [] => inr (nextpid, pidchecked)
  | p2 :: l =>
      let hit := (f_pid p2 =? nextpid) || (f_pgid p2 =? nextpid) in
      let nextpid := if hit then nextpid + 1 else nextpid in
      if hit && (pidchecked <=? nextpid) then inl (nextpid, pidchecked)
      else
        let pidchecked :=
          if (nextpid <? f_pid p2) && (f_pid p2 <? pidchecked) then f_pid p2 else pidchecked in
        let pidchecked :=
          if (nextpid <? f_pgid p2) && (f_pgid p2 <? pidchecked) then f_pgid p2 else pidchecked in
        pid_scan l nextpid pidchecked
  end.

(** From the label [retry]; [fuel] bounds the retries. *)
Fixpoint pid_find (fuel : nat) (l : list fproc) (nextpid pidchecked : Z) : outcome (Z * Z) :=
  match fuel with
  | O => Fault
  | S fuel =>
      let '(nextpid, pidchecked) :=
        if PID_MAX <=? nextpid then (100, 0) else (nextpid, pidchecked) in
      if pidchecked <=? nextpid then
        match pid_scan l nextpid PID_MAX with
        | inl (nextpid, pidchecked) => pid_find fuel l nextpid pidchecked
        | inr (nextpid, pidchecked) => mret (nextpid, pidchecked)
        end
      else mret (nextpid, pidchecked)
  end.

(** The processes of a user, which only users other than the super-user have
    counted. *)
Definition user_count (uid : Z) (t : ftable) : Z :=
  if uid =? 0 then 0
  else Z.of_nat (length (filter (fun p => f_uid p = uid) (allproc t ++ zombproc t))).

(** fork1 up to the new process's place in the table: the error, or 0 with the
    child's id.  [p1] is the parent, [uid] its effective user. *)
Definition fork1 (fuel : nat) (maxproc nproc_cur : Z) (p1 : fproc) (t : ftable) : outcome (Z * Z * ftable) :=
  let uid := f_uid p1 in
  if (maxproc <=? nprocs t) || (uid =? 0) && (maxproc + 1 <=? nprocs t) then mret (EAGAIN, 0, t)
  else if nproc_cur <? user_count uid t then mret (EAGAIN, 0, t)
  else
    '(pid, checked) ← pid_find fuel (allproc t ++ zombproc t) (nextpid t + 1) (pidchecked t);
    mret (0, pid, mkFtable (mkFproc pid (f_pgid p1) uid :: allproc t) (zombproc t) (nprocs t + 1) pid checked).

(** ** Specification *)

(** An id names a process or a process group. *)
Definition used (l : list fproc) (n : Z) : Prop := exists p, p ∈ l /\ (f_pid p = n \/ f_pgid p = n).

(** No process has a group id next to its own id. *)
Definition no_neighbours (l : list fproc) : Prop :=
  forall p, p ∈ l -> Z.abs (f_pid p - f_pgid p) <> 1.

(** The ids between [nextpid] and [pidchecked] are unused. *)
Definition cache_ok (l : list fproc) (nextpid pidchecked : Z) : Prop :=
  forall n, nextpid < n < pidchecked -> ~ used l n.

Lemma used_cons p l n : used (p :: l) n <-> (f_pid p = n \/ f_pgid p = n) \/ used l n.
Proof.
  split.
  - intros (q&[->|Hq]%elem_of_cons&H); [by left|right; by exists q].
  - intros [H|(q&Hq&H)]; [exists p; split; [left|done]|exists q; split; [by right|done]].
Qed.

(** The scan steps over used ids only. *)
Lemma pid_scan_skips l n c : n < c -> c <= PID_MAX ->
  match pid_scan l n c with
  | inl (n', c') => n < n' <= PID_MAX /\ c' <= n' /\ forall i, n <= i < n' -> used l i
  | inr (n', c') => n <= n' < c' /\ c' <= PID_MAX /\ forall i, n <= i < n' -> used l i
  end.
Proof.
  revert n c. induction l as [|p l IH]; intros n c Hn Hc; cbn [pid_scan].
  { split; [lia|]. split; [done|]. lia. }
  set (hit := _ || _). set (n1 := if hit then n + 1 else n).
  assert (forall i, n <= i < n1 -> used (p :: l) i) as Hn1.
  { intros i Hi. apply used_cons. left. subst n1. destruct hit eqn:E; [|lia].
    apply orb_true_iff in E. destruct E; bool_prop; lia. }
  destruct (hit && (c <=? n1)) eqn:Er.
  - apply andb_true_iff in Er as [-> Er]. bool_prop. subst n1. split; [lia|]. split; [done|exact Hn1].
  - assert (n1 < c) as Hlt by (subst n1; destruct hit; cbn in Er; bool_prop; lia).
    assert (n <= n1) by (subst n1; destruct hit; lia).
    set (c1 := if (n1 <? f_pid p) && _ then _ else c). set (c2 := if _ && (f_pgid p <? c1) then _ else c1).
    assert (n1 < c2 <= c) as Hc2.
    { assert (n1 < c1 <= c) by (subst c1; case_if; lia). subst c2. case_if; lia. }
    specialize (IH n1 c2 ltac:(lia) ltac:(lia)). destruct (pid_scan l n1 c2) as [[n' c']|[n' c']].
    + destruct IH as (?&?&Hu). split; [lia|]. split; [done|]. intros i Hi.
      destruct (decide (i < n1)); [apply Hn1; lia|]. apply used_cons. right. apply Hu. lia.
    + destruct IH as (?&?&Hu). split; [lia|]. split; [done|]. intros i Hi.
      destruct (decide (i < n1)); [apply Hn1; lia|]. apply used_cons. right. apply Hu. lia.
Qed.

(** A finished scan has seen no id in the range it leaves, but for the ids
    that are neighbours of their own group's. *)
Lemma pid_scan_unused l n c n' c' : no_neighbours l -> n < c -> pid_scan l n c = inr (n', c') ->
  n <= n' /\ c' <= c /\ forall i, n' <= i < c' -> ~ used l i.
Proof.
  revert n c. induction l as [|p l IH]; intros n c Hnn Hn; cbn [pid_scan].
  { intros [= <- <-]. split; [lia|]. split; [lia|]. intros i _ (q&Hq&_). by apply not_elem_of_nil in Hq. }
  set (hit := _ || _). set (n1 := if hit then n + 1 else n).
  destruct (hit && (c <=? n1)) eqn:Er; [done|].
  assert (n1 < c) as Hlt by (subst n1; destruct hit; cbn in Er; bool_prop; lia).
  set (c1 := if (n1 <? f_pid p) && _ then _ else c). set (c2 := if _ && (f_pgid p <? c1) then _ else c1).
  assert (n1 < c1 <= c /\ (f_pid p <= n1 \/ c1 <= f_pid p)) as [? Hp1]
    by (subst c1; case_if; [lia|]; destruct Heqb; bool_prop; lia).
  assert (n1 < c2 <= c1 /\ (f_pgid p <= n1 \/ c2 <= f_pgid p)) as [? Hp2]
    by (subst c2; case_if; [lia|]; destruct Heqb; bool_prop; lia).
  intros Hs. destruct (IH n1 c2) as (?&?&Hu); [|lia|done|].
  { intros q Hq. apply Hnn. by right. }
  assert (n <= n1) by (subst n1; destruct hit; lia).
  split; [lia|]. split; [lia|]. intros i Hi Hused. apply used_cons in Hused as [Hpi|Hli]; [|by apply (Hu i)].
  assert (f_pid p <> n1 /\ f_pgid p <> n1) as [? ?].
  { specialize (Hnn p ltac:(left)). subst n1. destruct hit eqn:E; unfold hit in E.
    - apply orb_true_iff in E. destruct E; bool_prop; lia.
    - bool_prop. lia. }
  lia.
Qed.

(** The retries end at the next unused id. *)
Lemma pid_find_ends fuel l n c m : 0 <= n -> n <= m < PID_MAX -> ~ used l m ->
  (Z.to_nat (m - n) < fuel)%nat ->
  exists n' c', pid_find fuel l n c = Ok (n', c').
Proof.
  revert n c. induction fuel as [|fuel IH]; intros n c Hn Hm Hu Hf; [lia|]. cbn [pid_find].
  replace (PID_MAX <=? n) with false by lia. case_if; [|eauto].
  pose proof (pid_scan_skips l n PID_MAX ltac:(lia) ltac:(lia)) as Hs.
  destruct (pid_scan l n PID_MAX) as [[n' c']|[n' c']]; [|eauto].
  destruct Hs as (?&?&Hsk). assert (n' <= m).
  { destruct (decide (n' <= m)); [done|]. destruct Hu. apply Hsk. lia. }
  apply IH; [lia..|done|lia].
Qed.

Lemma pid_find_step fuel l n c : pid_find (S fuel) l n c
  = (let '(n, c) := if PID_MAX <=? n then (100, 0) else (n, c) in
     if c <=? n then
       match pid_scan l n PID_MAX with inl (n, c) => pid_find fuel l n c | inr (n, c) => Ok (n, c) end
     else Ok (n, c)).
Proof. reflexivity. Qed.

(** When some id from 100 on is unused, at most two passes over the ids. *)
Lemma pid_find_total l n c m : 0 < n <= PID_MAX -> 100 <= m < PID_MAX -> ~ used l m ->
  exists n' c', pid_find (Z.to_nat (2 * PID_MAX)) l n c = Ok (n', c').
Proof.
  intros Hn Hm Hu.
  assert (forall k fuel n c, 0 <= n -> Z.of_nat k = PID_MAX - n -> (k + Z.to_nat PID_MAX < fuel)%nat ->
    exists n' c', pid_find fuel l n c = Ok (n', c')) as Hgen.
  { induction k as [k IH] using (well_founded_induction lt_wf). intros fuel n1 c1 Hn1 Hk Hf.
    destruct fuel as [|fuel]; [lia|]. destruct (decide (n1 = PID_MAX)) as [->|Hne].
    - change (exists n' c', pid_find (S fuel) l 100 0 = Ok (n', c')).
      apply (pid_find_ends (S fuel) l 100 0 m); [lia|lia|done|unfold PID_MAX in *; lia].
    - rewrite pid_find_step. replace (PID_MAX <=? n1) with false by lia. case_if; [|eauto].
      pose proof (pid_scan_skips l n1 PID_MAX ltac:(lia) ltac:(lia)) as Hs.
      destruct (pid_scan l n1 PID_MAX) as [[n' c']|[n' c']]; [|eauto]. destruct Hs as (?&?&_).
      apply (IH (Z.to_nat (PID_MAX - n'))); lia. }
  apply (Hgen (Z.to_nat (PID_MAX - n))); unfold PID_MAX in *; lia.
Qed.

Lemma pid_find_unused fuel l n c n' c' : no_neighbours l -> 0 < n <= PID_MAX -> c <= PID_MAX ->
  (forall i, n <= i < c -> ~ used l i) -> pid_find fuel l n c = Ok (n', c') ->
  0 < n' < PID_MAX /\ c' <= PID_MAX /\ (forall i, n' <= i < c' -> ~ used l i) /\ n' < c'.
Proof.
  intros Hnn. revert n c. induction fuel as [|fuel IH]; intros n c Hn Hc Hcache; [done|].
  rewrite pid_find_step.
  set (nc := if PID_MAX <=? n then (100, 0) else (n, c)).
  assert (0 < nc.1 < PID_MAX /\ nc.2 <= PID_MAX /\ forall i, nc.1 <= i < nc.2 -> ~ used l i) as (H1&H2&H3).
  { subst nc. case_if; cbn; [split; [unfold PID_MAX; lia|]; split; [unfold PID_MAX; lia|]; lia|].
    split; [lia|]. by split. }
  destruct nc as [n1 c1]. cbn [fst snd] in *. case_if.
  - pose proof (pid_scan_skips l n1 PID_MAX ltac:(lia) ltac:(lia)) as Hs.
    destruct (pid_scan l n1 PID_MAX) as [[n2 c2]|[n2 c2]] eqn:E.
    + destruct Hs as (?&?&_). apply IH; [lia|lia|lia].
    + intros [= <- <-]. destruct Hs as (?&?&_). destruct (pid_scan_unused l n1 PID_MAX n2 c2) as (?&?&?); [done|lia|done|].
      split; [lia|]. split; [lia|]. split; [done|lia].
  - intros [= <- <-]. split; [lia|]. split; [lia|]. split; [done|lia].
Qed.

(** ** Properties *)

(** The table's cached range. *)
Definition table_ok (t : ftable) : Prop :=
  0 <= nextpid t < PID_MAX /\ pidchecked t <= PID_MAX
  /\ cache_ok (allproc t ++ zombproc t) (nextpid t) (pidchecked t).

Lemma fork1_total maxproc cur p1 t m :
  table_ok t -> p1 ∈ allproc t -> 100 <= m < PID_MAX -> ~ used (allproc t ++ zombproc t) m ->
  exists error pid t', fork1 (Z.to_nat (2 * PID_MAX)) maxproc cur p1 t = Ok (error, pid, t')
    /\ (error = EAGAIN <-> maxproc <= nprocs t \/ cur < user_count (f_uid p1) t)
    /\ (error = EAGAIN -> t' = t)
    /\ (error <> EAGAIN -> error = 0 /\ nprocs t' = nprocs t + 1
        /\ allproc t' = mkFproc pid (f_pgid p1) (f_uid p1) :: allproc t
        /\ zombproc t' = zombproc t
        /\ (no_neighbours (allproc t ++ zombproc t) ->
            0 < pid < PID_MAX /\ ~ used (allproc t ++ zombproc t) pid /\ table_ok t')).
Proof.
  intros (Hn&Hc&Hcache) Hp1 Hm Hu. unfold fork1.
  replace ((maxproc <=? nprocs t) || (f_uid p1 =? 0) && (maxproc + 1 <=? nprocs t)) with (maxproc <=? nprocs t).
  2:{ destruct (Z.leb_spec maxproc (nprocs t)), (f_uid p1 =? 0), (Z.leb_spec (maxproc + 1) (nprocs t)); cbn; try done; lia. }
  case_if.
  { exists EAGAIN, 0, t. split; [done|]. split; [split; [by left|done]|]. split; [done|]. by intros []. }
  case_if.
  { exists EAGAIN, 0, t. split; [done|]. split; [split; [by right|done]|]. split; [done|]. by intros []. }
  destruct (pid_find_total (allproc t ++ zombproc t) (nextpid t + 1) (pidchecked t) m) as (n'&c'&E); [lia|done|done|].
  rewrite E. cbn [mbind outcome_bind mret outcome_ret]. exists 0, n'. eexists. split; [reflexivity|].
  split; [split; [done|intros [?|?]; lia]|]. split; [done|]. intros _. cbn [nprocs allproc].
  split; [done|]. split; [done|]. split; [done|]. split; [done|]. intros Hnn.
  destruct (fun H1 H2 H3 => pid_find_unused _ _ _ _ _ _ Hnn H1 H2 H3 E) as (Hr&Hc'&Hun&Hlt); [lia|done| |].
  { intros i Hi. apply Hcache. lia. }
  split; [done|]. split; [apply Hun; lia|]. split; [cbn; lia|]. split; [done|]. cbn.
  intros i Hi. rewrite used_cons. cbn. intros [[?|Hg]|Hui]; [lia| |by apply (Hun i); [lia|]].
  apply (Hun i); [lia|]. exists p1. split; [|by right]. apply elem_of_app. by left.
Qed.

(** fork1's search ends whenever an id from 100 on is free, within two
    passes over the ids; and when no process has a group id next to its own,
    the child's id is that of no process and of no group, and the cached range
    stays right for the table with the child in it.  The refusals are those of
    the code: a full table, or a user with more processes than the limit. *)
Theorem fork1_pid_fresh maxproc cur p1 t m :
  table_ok t -> p1 ∈ allproc t -> 100 <= m < PID_MAX -> ~ used (allproc t ++ zombproc t) m ->
  exists error pid t', fork1 (Z.to_nat (2 * PID_MAX)) maxproc cur p1 t = Ok (error, pid, t')
    /\ (error = EAGAIN <-> maxproc <= nprocs t \/ cur < user_count (f_uid p1) t)
    /\ (error = EAGAIN -> t' = t)
    /\ (error <> EAGAIN -> error = 0 /\ nprocs t' = nprocs t + 1
        /\ allproc t' = mkFproc pid (f_pgid p1) (f_uid p1) :: allproc t
        /\ (no_neighbours (allproc t ++ zombproc t) ->
            0 < pid < PID_MAX /\ ~ used (allproc t ++ zombproc t) pid /\ table_ok t')).
Proof.
  intros Ht Hp Hm Hu. destruct (fork1_total maxproc cur p1 t m Ht Hp Hm Hu) as (error&pid&t'&E&H1&H2&H3).
  exists error, pid, t'. split; [done|]. split; [done|]. split; [done|]. intros Hne.
  destruct (H3 Hne) as (?&?&?&_&?). done.
Qed.

(** two processes with one id.  A process whose group leader has exited
    and whose own id is the leader's plus one (the second process of a
    pipeline) defeats the scan: it matches by its group, the search moves on to
    the next id, which is the process's own, and that is not compared again. *)
Theorem fork1_pid_collision n uid cur maxproc t :
  0 < n < PID_MAX - 1 -> allproc t = [mkFproc (n + 1) n uid] -> zombproc t = [] ->
  nextpid t = n - 1 -> pidchecked t <= n -> nprocs t < maxproc -> 1 <= cur ->
  exists t', fork1 1 maxproc cur (mkFproc (n + 1) n uid) t = Ok (0, n + 1, t')
    /\ allproc t' = [mkFproc (n + 1) n uid; mkFproc (n + 1) n uid].
Proof.
  intros Hn Ha Hz Hnp Hc Hm Hcur. unfold fork1. cbn [f_uid f_pgid].
  replace (maxproc <=? nprocs t) with false by lia. replace (maxproc + 1 <=? nprocs t) with false by lia.
  rewrite andb_false_r. cbn [orb].
  assert (user_count uid t <= 1) as Hu.
  { unfold user_count. rewrite Ha, Hz. cbn [app]. case_if; [lia|].
    pose proof (length_filter (fun p => f_uid p = uid) [mkFproc (n + 1) n uid]) as Hl. cbn [length] in Hl. lia. }
  replace (cur <? user_count uid t) with false by lia. rewrite Ha, Hz, Hnp. cbn [app pid_find].
  replace (n - 1 + 1) with n by lia. replace (PID_MAX <=? n) with false by lia.
  replace (pidchecked t <=? n) with true by lia. cbn [pid_scan f_pid f_pgid].
  rewrite Z.eqb_refl, orb_true_r. cbn [andb]. replace (PID_MAX <=? n + 1) with false by lia.
  rewrite Z.ltb_irrefl. cbn [andb]. replace (n + 1 <? n) with false by lia. cbn [andb mbind outcome_bind].
  eexists. split; reflexivity.
Qed.

(** *** Witnesses *)

Definition ft0 : ftable :=
  mkFtable [mkFproc 120 120 7; mkFproc 118 118 0; mkFproc 1 1 0] [mkFproc 119 118 0] 4 117 0.

Lemma fork1_pid_fresh_witness :
  exists t', fork1 (Z.to_nat (2 * PID_MAX)) 40 10 (mkFproc 1 1 0) ft0 = Ok (0, 121, t').
Proof.
  destruct (fork1_pid_fresh 40 10 (mkFproc 1 1 0) ft0 200) as (error&pid&t'&E&_).
  - split; [cbn; unfold PID_MAX; lia|]. split; [cbn; unfold PID_MAX; lia|]. intros n Hn. cbn in Hn. lia.
  - cbn. rewrite !elem_of_cons. tauto.
  - unfold PID_MAX. lia.
  - intros (p&Hp&H). cbn in Hp. rewrite !elem_of_cons in Hp.
    destruct Hp as [->|[->|[->|[->|Hp]]]]; [cbn in H; lia..|by apply not_elem_of_nil in Hp].
  - exists t'. rewrite E. vm_compute in E. injection E as <- <- _. reflexivity.
Defined.

Lemma fork1_pid_collision_witness :
  exists t', fork1 1 40 10 (mkFproc 6 5 7) (mkFtable [mkFproc 6 5 7] [] 1 4 0) = Ok (0, 6, t').
Proof.
  destruct (fork1_pid_collision 5 7 10 40 (mkFtable [mkFproc 6 5 7] [] 1 4 0)) as (t'&E&_);
    [unfold PID_MAX; lia|reflexivity|reflexivity|reflexivity|cbn; lia|cbn; lia|lia|].
  exists t'. exact E.
Defined.
