(* ===== verification/Lockf.v ===== *)
(** * Advisory byte-range locks (sys/ufs/ufs_lockf.c, sys/ufs/lockf.h)

    The locks of a file are a list, in which the locks of one owner are sorted
    and do not overlap; requests that must wait sleep on the block list of the
    lock in their way.  A pointer into the list ([prev] of the code) is the
    split of the list at that point; a lock has an address because sleepers
    remember the lock they wait for ([lf_next]). *)

From S2P Require Import Prelude.

Record lockf := mkLockf {
  lf_addr : loc;
  lf_flags : Z;
  lf_type : Z;
  lf_start : Z;
  lf_end : Z;          (* -1: to the end of the file *)
  lf_id : Z;           (* the owner: a process, or an open file *)
  lf_block : list loc; (* the requests that wait for it *)
}.

Definition set_start (s : Z) (l : lockf) : lockf :=
  mkLockf (lf_addr l) (lf_flags l) (lf_type l) (s32 s) (lf_end l) (lf_id l) (lf_block l).
Definition set_end (e : Z) (l : lockf) : lockf :=
  mkLockf (lf_addr l) (lf_flags l) (lf_type l) (lf_start l) (s32 e) (lf_id l) (lf_block l).
Definition set_type (t : Z) (l : lockf) : lockf :=
  mkLockf (lf_addr l) (lf_flags l) t (lf_start l) (lf_end l) (lf_id l) (lf_block l).
Definition set_block (b : list loc) (l : lockf) : lockf :=
  mkLockf (lf_addr l) (lf_flags l) (lf_type l) (lf_start l) (lf_end l) (lf_id l) b.
Definition set_addr (a : loc) (l : lockf) : lockf :=
  mkLockf a (lf_flags l) (lf_type l) (lf_start l) (lf_end l) (lf_id l) (lf_block l).

Definition flag (l : lockf) (f : Z) : bool := negb (Z.land (lf_flags l) f =? 0).

(** ** Looking for an overlap *)

(** How [lf] overlaps [lock]: the code of the code's comment, or no overlap. *)
Definition overlap_case (lf lock : lockf) : outcome Z :=
  let start := lf_start lock in
  let en := lf_end lock in
  if (negb (lf_end lf =? -1) && (lf_end lf <? start)) || (negb (en =? -1) && (en <? lf_start lf)) then mret 0
  else if (lf_start lf =? start) && (lf_end lf =? en) then mret 1
  else if (lf_start lf <=? start) && negb (en =? -1) && ((en <=? lf_end lf) || (lf_end lf =? -1)) then mret 2
  else if (start <=? lf_start lf) && ((en =? -1) || (negb (lf_end lf =? -1) && (lf_end lf <=? en))) then mret 3
  else if (lf_start lf <? start) && ((start <=? lf_end lf) || (lf_end lf =? -1)) then mret 4
  else if (start <? lf_start lf) && negb (en =? -1) && ((en <? lf_end lf) || (lf_end lf =? -1)) then mret 5
  else Panic "lf_findoverlap: default".

(** The case, the locks passed over, and the list from the overlap on; [self]
    is the SELF of the code and its negation OTHERS. *)
Fixpoint lf_findoverlap (self : bool) (lock : lockf) (lf : list lockf) : outcome (Z * list lockf * list lockf) :=
  match lf with
  | [] => mret (0, [], [])
  | x :: r =>
      let skip := '(c, s, r') ← lf_findoverlap self lock r; mret (c, x :: s, r') in
      if xorb self (lf_id x =? lf_id lock) then skip
      else
        c ← overlap_case x lock;
        if c =? 0 then
          if self && negb (lf_end lock =? -1) && (lf_end lock <? lf_start x) then mret (0, [], x :: r)
          else skip
        else mret (c, [], x :: r)
  end.

(** The first lock of another owner that conflicts. *)
Fixpoint lf_getblock_loop (fuel : nat) (lock : lockf) (lf : list lockf) : outcome (option lockf) :=
  match fuel with
  | O => Fault
  | S fuel =>
      '(ovcase, _, rest) ← lf_findoverlap false lock lf;
      match rest with
      | overlap :: r =>
          if ovcase =? 0 then mret None
          else if (lf_type lock =? F_WRLCK) || (lf_type overlap =? F_WRLCK) then mret (Some overlap)
          else lf_getblock_loop fuel lock r
      | [] => mret None
      end
  end.
Definition lf_getblock (lock : lockf) (head : list lockf) : outcome (option lockf) :=
  lf_getblock_loop (S (length head)) lock head.

(** ** Splitting and clearing *)

(** The locks in place of [lock1] once [lock2] is cut out of it: what precedes
    [lock2] and what follows it; a third lock gets the address [a]. *)
Definition lf_split (a : loc) (lock1 lock2 : lockf) : list lockf * list lockf :=
  if lf_start lock1 =? lf_start lock2 then ([], [set_start (lf_end lock2 + 1) lock1])
  else if lf_end lock1 =? lf_end lock2 then ([set_end (lf_start lock2 - 1) lock1], [])
  else ([set_end (lf_start lock2 - 1) lock1],
        [set_addr a (set_block [] (set_start (lf_end lock2 + 1) lock1))]).

(** The list and the requests woken up; [acc] is what precedes [*prev]. *)
Fixpoint lf_clear (fuel : nat) (a : loc) (unlock : lockf) (acc lf : list lockf) (woken : list loc)
  : outcome (list lockf * list loc) :=
  match fuel with
  | O => Fault
  | S fuel =>
      '(ovcase, skipped, rest) ← lf_findoverlap true unlock lf;
      let acc := acc ++ skipped in
      match rest with
      | [] => mret (acc, woken)
      | overlap :: r =>
          if ovcase =? 0 then mret (acc ++ overlap :: r, woken)
          else
            let woken := woken ++ lf_block overlap in
            let overlap := set_block [] overlap in
            if ovcase =? 1 then mret (acc ++ r, woken)
            else if ovcase =? 2 then
              if lf_start overlap =? lf_start unlock then
                mret (acc ++ set_start (lf_end unlock + 1) overlap :: r, woken)
              else let '(before, after) := lf_split a overlap unlock in
                   mret (acc ++ before ++ after ++ r, woken)
            else if ovcase =? 3 then lf_clear fuel a unlock acc r woken
            else if ovcase =? 4 then
              lf_clear fuel a unlock (acc ++ [set_end (lf_start unlock - 1) overlap]) r woken
            else mret (acc ++ set_start (lf_end unlock + 1) overlap :: r, woken)
      end
  end.
Definition lf_clearlock (a : loc) (unlock : lockf) (head : list lockf) : outcome (list lockf * list loc) :=
  lf_clear (S (length head)) a unlock [] head [].

(** ** Setting *)

(** A downgrade wakes the requests that wait. *)
Definition downgrade (lock overlap : lockf) : bool :=
  (lf_type lock =? F_RDLCK) && (lf_type overlap =? F_WRLCK).

(** The loop of lf_setlock once nothing blocks the request.  While [needtolink],
    [acc] precedes [*prev]; then the lock is in the list, after [acc], and
    [mid] is between it and [*prev].  Linking it a second time, or freeing it
    while it is in the list, would be an error of the code. *)
Fixpoint lf_link (fuel : nat) (a : loc) (needtolink : bool) (acc : list lockf) (lock : lockf)
    (mid block : list lockf) (woken : list loc) : outcome (list lockf * list loc) :=
  match fuel with
  | O => Fault
  | S fuel =>
      '(ovcase, skipped, rest) ← lf_findoverlap true lock block;
      let acc := if needtolink then acc ++ skipped else acc in
      let mid := if needtolink then mid else mid ++ skipped in
      match rest with
      | [] => mret (acc ++ lock :: mid, woken)
      | overlap :: r =>
          if ovcase =? 0 then mret (acc ++ lock :: mid ++ overlap :: r, woken)
          else if ovcase =? 1 then
            if needtolink then
              if downgrade lock overlap then
                mret (acc ++ set_type (lf_type lock) (set_block [] overlap) :: r, woken ++ lf_block overlap)
              else mret (acc ++ set_type (lf_type lock) overlap :: r, woken)
            else Fault
          else if ovcase =? 2 then
            if needtolink then
              if lf_type overlap =? lf_type lock then mret (acc ++ overlap :: r, woken)
              else
                let woken := woken ++ lf_block overlap in
                let overlap := set_block [] overlap in
                if lf_start overlap =? lf_start lock then
                  mret (acc ++ lock :: set_start (lf_end lock + 1) overlap :: r, woken)
                else let '(before, after) := lf_split a overlap lock in
                     mret (acc ++ before ++ lock :: after ++ r, woken)
            else Fault
          else if ovcase =? 3 then
            let '(lock, woken) :=
              if downgrade lock overlap then (lock, woken ++ lf_block overlap)
              else (set_block (lf_block overlap ++ lf_block lock) lock, woken) in
            lf_link fuel a false acc lock mid r woken
          else if ovcase =? 4 then
            if needtolink then
              lf_link fuel a false (acc ++ [set_block [] (set_end (lf_start lock - 1) overlap)]) lock [] r
                (woken ++ lf_block overlap)
            else Fault
          else
            mret (acc ++ lock :: mid ++ set_block [] (set_start (lf_end lock + 1) overlap) :: r,
                  woken ++ lf_block overlap)
      end
  end.
Definition lf_addlock (a : loc) (lock : lockf) (head : list lockf) : outcome (list lockf * list loc) :=
  lf_link (S (length head)) a true [] lock [] head [].

(** ** The world: the locks of every file, and the requests asleep *)

Record sleeper := mkSleeper { sl_lock : lockf; sl_file : Z; sl_next : option loc }.

Record lworld := mkLworld {
  heads : gmap Z (list lockf);      (* of each file *)
  sleepers : gmap loc sleeper;      (* the requests, by address *)
  wchan : gmap Z loc;               (* what a process in "lockf" sleeps on *)
  fresh : loc;                      (* where MALLOC finds memory *)
}.
Definition head_of (w : lworld) (v : Z) : list lockf := default [] (heads w !! v).
Definition set_head (v : Z) (l : list lockf) (w : lworld) : lworld :=
  mkLworld (<[v := l]> (heads w)) (sleepers w) (wchan w) (fresh w).

(** lf_wakelock: the requests forget whom they waited for, their processes run. *)
Definition unlink (s : sleeper) : sleeper := mkSleeper (sl_lock s) (sl_file s) None.
Definition wake1 (w : lworld) (a : loc) : lworld :=
  mkLworld (heads w) (alter unlink a (sleepers w))
    (filter (fun pa => pa.2 <> a) (wchan w)) (fresh w).
Definition lf_wakelock (woken : list loc) (w : lworld) : lworld := foldl wake1 w woken.

(** The lock at an address, among those held. *)
Definition find_lock (w : lworld) (a : loc) : option lockf :=
  snd <$> list_find (fun l => lf_addr l = a) (concat (snd <$> map_to_list (heads w))).

Definition MAXDEPTH : nat := 50.

(** Whether following the wait channels from [wproc] leads back to [me]. *)
Fixpoint lf_deadlock (n : nat) (w : lworld) (me wproc : Z) : outcome bool :=
  match n with
  | O => mret false
  | S n =>
      match wchan w !! wproc with
      | None => mret false
      | Some a =>
          s ← deref (sleepers w !! a);
          next ← deref (sl_next s);
          waitblock ← deref (find_lock w next);
          if negb (flag waitblock F_POSIX) then mret false
          else if lf_id waitblock =? me then mret true
          else lf_deadlock n w me (lf_id waitblock)
      end
  end.

Inductive lfres := LReturn (error : Z) | LSleep.

(** lf_addblock on the lock at address [b]. *)
Definition lf_addblock (b : loc) (a : loc) (l : list lockf) : list lockf :=
  (fun x => if decide (lf_addr x = b) then set_block (lf_block x ++ [a]) x else x) <$> l.

(** A flock request for an exclusive lock gives up the shared one; then the
    request sleeps on the block list of the lock at [b] in its way. *)
Definition lf_sleep (p v : Z) (lock : lockf) (b : loc) (w : lworld) : outcome (lfres * lworld) :=
  '(l, woken) ← (if flag lock F_FLOCK && (lf_type lock =? F_WRLCK)
                 then lf_clearlock (fresh w) (set_type F_UNLCK lock) (head_of w v) else mret (head_of w v, []));
  let w := lf_wakelock woken (set_head v (lf_addblock b (lf_addr lock) l) w) in
  mret (LSleep,
        mkLworld (heads w) (<[lf_addr lock := mkSleeper lock v (Some b)]> (sleepers w))
          (<[p := lf_addr lock]> (wchan w)) (fresh w)).

(** One turn of lf_setlock's outer loop: the process [p] gets the lock, an error,
    or goes to sleep. *)
Definition lf_setlock (p v : Z) (lock : lockf) (w : lworld) : outcome (lfres * lworld) :=
  let w := mkLworld (heads w) (delete (lf_addr lock) (sleepers w)) (wchan w) (fresh w + 1)%positive in
  let a := fresh w in
  let head := head_of w v in
  block ← lf_getblock lock head;
  match block with
  | None =>
      '(l, woken) ← lf_addlock a lock head;
      mret (LReturn 0, lf_wakelock woken (set_head v l w))
  | Some block =>
      if negb (flag lock F_WAIT) then mret (LReturn EAGAIN, w)
      else
        dead ← (if flag lock F_POSIX && flag block F_POSIX
                then lf_deadlock MAXDEPTH w (lf_id lock) (lf_id block) else mret false);
        if (dead : bool) then mret (LReturn EDEADLK, w) else lf_sleep p v lock (lf_addr block) w
  end.

(** The sleep is interrupted by a signal: lf_clearlock of the request itself,
    which stays where it is. *)
Definition lf_interrupt (p : Z) (a : loc) (w : lworld) : outcome lworld :=
  s ← deref (sleepers w !! a);
  '(l, woken) ← lf_clearlock (fresh w) (sl_lock s) (head_of w (sl_file s));
  let w := lf_wakelock woken (set_head (sl_file s) l w) in
  mret (mkLworld (heads w) (sleepers w) (delete p (wchan w)) (fresh w + 1)%positive).

(** The sleep ends because the request was woken. *)
Definition lf_resume (p : Z) (a : loc) (w : lworld) : outcome (lfres * lworld) :=
  s ← deref (sleepers w !! a);
  lf_setlock p (sl_file s) (sl_lock s) w.

Section Advlock.
(** The process id of a lock's owner. *)
Variable pid_of : Z -> Z.

Definition lf_getlock (lock : lockf) (fl : flock) (head : list lockf) : outcome flock :=
  block ← lf_getblock lock head;
  match block with
  | Some block =>
      mret (mkFlock (lf_type block) SEEK_SET (lf_start block)
        (if lf_end block =? -1 then 0 else s32 (lf_end block - lf_start block + 1))
        (if flag block F_POSIX then pid_of (lf_id block) else -1))
  | None => mret (mkFlock F_UNLCK (l_whence fl) (l_start fl) (l_len fl) (l_pid fl))
  end.

(** The range a request asks for. *)
Definition range (size : Z) (fl : flock) : option (Z * Z) :=
  if (l_whence fl =? SEEK_SET) || (l_whence fl =? SEEK_CUR) then
    Some (l_start fl, if l_len fl =? 0 then -1 else s32 (l_start fl + l_len fl - 1))
  else if l_whence fl =? SEEK_END then
    let start := s32 (size + l_start fl) in
    Some (start, if l_len fl =? 0 then -1 else s32 (start + l_len fl - 1))
  else None.

(** The process [p] asks for the file [v]; [id] is the owner. *)
Definition lf_advlock (p v size id op : Z) (fl : flock) (flags : Z) (w : lworld)
  : outcome (lfres * flock * lworld) :=
  let head := head_of w v in
  if bool_decide (head = []) && negb (op =? F_SETLK) then
    mret (LReturn 0, mkFlock F_UNLCK (l_whence fl) (l_start fl) (l_len fl) (l_pid fl), w)
  else match range size fl with
  | None => mret (LReturn EINVAL, fl, w)
  | Some (start, en) =>
      if start <? 0 then mret (LReturn EINVAL, fl, w)
      else
        let a := fresh w in
        let w := mkLworld (heads w) (sleepers w) (wchan w) (a + 1)%positive in
        let lock := mkLockf a flags (l_type fl) start en id [] in
        if op =? F_SETLK then
          '(r, w) ← lf_setlock p v lock w;
          mret (r, fl, w)
        else if op =? F_UNLCK then
          '(l, woken) ← lf_clearlock (fresh w) lock head;
          mret (LReturn 0, fl, lf_wakelock woken (set_head v l
            (mkLworld (heads w) (sleepers w) (wchan w) (fresh w + 1)%positive)))
        else if op =? F_GETLK then
          fl ← lf_getlock lock fl head;
          mret (LReturn 0, fl, w)
        else mret (LReturn EINVAL, fl, w)
  end.

(** What happens to locks: a call, and the two ways a sleep ends. *)
Inductive levent :=
  | LAsk (p v size id op : Z) (fl : flock) (flags : Z)
  | LResume (p : Z) (a : loc)
  | LInterrupt (p : Z) (a : loc).

Definition run_lock (ev : levent) (w : lworld) : outcome lworld :=
  match ev with
  | LAsk p v size id op fl flags => '(_, _, w) ← lf_advlock p v size id op fl flags w; mret w
  | LResume p a => '(_, w) ← lf_resume p a w; mret w
  | LInterrupt p a => lf_interrupt p a w
  end.

Definition run_locks (evs : list levent) (w : lworld) : outcome lworld :=
  foldl (fun m ev => m ≫= run_lock ev) (mret w) evs.
End Advlock.

(** ** Ranges and well-formed lists *)

(** The last byte a lock can cover. *)
Definition INF : Z := 2 ^ 31 - 1.
Definition hi (l : lockf) : Z := if lf_end l =? -1 then INF else lf_end l.
Definition covers (l : lockf) (b : Z) : Prop := lf_start l <= b <= hi l.
Definition ok (l : lockf) : Prop := 0 <= lf_start l <= INF /\ (lf_end l = -1 \/ lf_start l <= lf_end l < INF).

Definition before (x y : lockf) : Prop := lf_id x = lf_id y -> hi x < lf_start y.

Fixpoint sorted (l : list lockf) : Prop :=
  match l with
  | [] => True
  | x :: r => Forall (before x) r /\ sorted r
  end.
Definition wf (l : list lockf) : Prop := Forall ok l /\ sorted l.

(** Owner [o] has byte [b] locked, with type [t]. *)
Definition holds (o : Z) (l : list lockf) (b t : Z) : Prop :=
  exists x, x ∈ l /\ lf_id x = o /\ lf_type x = t /\ covers x b.
Definition others (o : Z) (l : list lockf) : list lockf := filter (fun x => lf_id x <> o) l.

Lemma ok_hi l : ok l -> 0 <= lf_start l <= hi l /\ hi l <= INF /\ (lf_end l = -1 <-> hi l = INF) /\
  (lf_end l <> -1 -> lf_end l = hi l).
Proof. unfold ok, hi. intros [? ?]. case_if; lia. Qed.

Lemma sorted_app a b : sorted (a ++ b) <-> sorted a /\ sorted b /\ forall x y, x ∈ a -> y ∈ b -> before x y.
Proof.
  induction a as [|x a IH]; cbn; [split; [intros ?; split_and!; [done|done|by intros ? ? ?%elem_of_nil]|tauto]|].
  rewrite Forall_app, IH. split.
  - intros [[H1 H2] (H3 & H4 & H5)]. split_and!; try done. intros z y [->|Hz]%elem_of_cons Hy; [|auto].
    rewrite Forall_forall in H2. apply H2. by apply list_elem_of_In.
  - intros [[H1 H2] [H3 H4]]. split_and!; try done.
    + apply Forall_forall. intros y Hy%list_elem_of_In. apply H4; [left|done].
    + intros z y Hz. apply H4. by right.
Qed.

Lemma holds_app o a b x t : holds o (a ++ b) x t <-> holds o a x t \/ holds o b x t.
Proof.
  unfold holds. setoid_rewrite elem_of_app. split.
  - intros (y & [?|?] & ?); [left|right]; by exists y.
  - intros [(y & ? & ?)|(y & ? & ?)]; exists y; auto.
Qed.

Lemma holds_one o l x t : holds o [l] x t <-> lf_id l = o /\ lf_type l = t /\ covers l x.
Proof.
  unfold holds. setoid_rewrite list_elem_of_singleton. split; [by intros (? & -> & ?)|by exists l].
Qed.

Lemma holds_nil o x t : ~ holds o [] x t.
Proof. by intros (? & ?%elem_of_nil & _). Qed.

Lemma others_app o a b : others o (a ++ b) = others o a ++ others o b.
Proof.
  induction a as [|x a IH]; [done|]. unfold others in *. cbn [app]. rewrite !filter_cons, IH. by case_decide.
Qed.

Lemma others_own o m : Forall (fun x => lf_id x = o) m -> others o m = [].
Proof.
  induction 1 as [|x m Hx _ IH]; [done|]. unfold others in *. rewrite filter_cons, decide_False; [done|]. by intros ?.
Qed.

(** Replacing some locks of [o] between [a] and [r] by others. *)
Lemma splice o a m m' r : wf (a ++ m ++ r) -> Forall (fun x => lf_id x = o) m ->
  Forall (fun x => lf_id x = o /\ ok x) m' -> sorted m' ->
  (forall x y, x ∈ a -> lf_id x = o -> y ∈ m' -> hi x < lf_start y) ->
  (forall y z, y ∈ m' -> z ∈ r -> lf_id z = o -> hi y < lf_start z) ->
  wf (a ++ m' ++ r) /\ others o (a ++ m' ++ r) = others o (a ++ m ++ r).
Proof.
  intros [Ho Hs] Hm Hm' Hsm Ha Hr. rewrite !Forall_app in Ho. rewrite !sorted_app in Hs.
  destruct Ho as (Ho1 & _ & Ho3), Hs as (Hs1 & (_ & Hs3 & _) & Hs5).
  assert (Hid : forall y, y ∈ m' -> lf_id y = o).
  { intros y Hy%list_elem_of_In. rewrite Forall_forall in Hm'. by apply Hm'. }
  split; [split|].
  - rewrite !Forall_app. split_and!; try done. eapply Forall_impl; [|exact Hm']. by intros ? [_ ?].
  - rewrite !sorted_app. split_and!; try done.
    + intros y z Hy Hz He. apply Hr; [done|done|]. by rewrite <- He, Hid.
    + intros x y Hx [Hy|Hy]%elem_of_app.
      * intros He. apply Ha; [done| |done]. by rewrite He, Hid.
      * apply Hs5; [done|]. apply elem_of_app. by right.
  - rewrite !others_app. rewrite (others_own o m) by done. rewrite (others_own o m'); [done|].
    eapply Forall_impl; [|exact Hm']. by intros ? [? _].
Qed.

(** *** Overlaps *)

(** The six cases as arithmetic. *)
Definition geometry (c : Z) (lf lock : lockf) : Prop :=
  let s := lf_start lock in let e := hi lock in
  (c = 0 /\ (hi lf < s \/ e < lf_start lf)) \/
  (c = 1 /\ lf_start lf = s /\ hi lf = e) \/
  (c = 2 /\ lf_start lf <= s /\ e <= hi lf /\ e < INF /\ (lf_start lf < s \/ e < hi lf)) \/
  (c = 3 /\ s <= lf_start lf <= e /\ hi lf <= e) \/
  (c = 4 /\ lf_start lf < s <= hi lf /\ hi lf <= e) \/
  (c = 5 /\ s < lf_start lf <= e /\ e < hi lf).

(** Decide the comparisons of the goal, one at a time, dropping impossible cases. *)
Ltac compare_step :=
  match goal with
  | |- context [?a <? ?b] => destruct (Z.ltb_spec a b)
  | |- context [?a <=? ?b] => destruct (Z.leb_spec a b)
  | |- context [?a =? ?b] => destruct (Z.eqb_spec a b)
  end; cbn [negb andb orb]; try lia.

Lemma overlap_case_ok lf lock : ok lf -> ok lock ->
  exists c, overlap_case lf lock = Ok c /\ geometry c lf lock.
Proof.
  intros Hl Hk.
  unfold overlap_case, geometry, hi, ok, INF in *.
  destruct (Z.eqb_spec (lf_end lf) (-1)) as [El|El], (Z.eqb_spec (lf_end lock) (-1)) as [Ek|Ek];
    rewrite ?El, ?Ek in *; cbn [negb andb orb].
  all: repeat (compare_step; try (eexists; split; [done|]; lia)).
Qed.

(** What [lf_findoverlap] passes over, and what it stops at. *)
Definition passed (self : bool) (lock x : lockf) : Prop :=
  if self then lf_id x = lf_id lock -> hi x < lf_start lock
  else lf_id x <> lf_id lock -> hi x < lf_start lock \/ hi lock < lf_start x.

Definition mine (self : bool) (lock x : lockf) : Prop :=
  if self then lf_id x = lf_id lock else lf_id x <> lf_id lock.

Definition stops (self : bool) (lock : lockf) (c : Z) (rest : list lockf) : Prop :=
  match rest with
  | [] => c = 0
  | x :: _ => mine self lock x /\
      ((c = 0 /\ self = true /\ hi lock < lf_start x) \/ (c <> 0 /\ geometry c x lock))
  end.

Lemma findoverlap_ok self lock l : ok lock -> Forall ok l ->
  exists c sk rest, lf_findoverlap self lock l = Ok (c, sk, rest) /\ l = sk ++ rest /\
    Forall (passed self lock) sk /\ stops self lock c rest.
Proof.
  intros Hk. induction 1 as [|x r Hx Hr IH]; cbn [lf_findoverlap]; [by exists 0, [], []|].
  destruct IH as (c & s & r' & E & -> & Hp & Hst). rewrite E. cbn [mbind outcome_bind mret outcome_ret].
  assert (Hskip : passed self lock x -> exists c0 sk rest, Ok (c, x :: s, r') = Ok (c0, sk, rest) /\
    x :: s ++ r' = sk ++ rest /\ Forall (passed self lock) sk /\ stops self lock c0 rest).
  { intros Hpx. exists c, (x :: s), r'. split; [done|]. split; [done|]. split; [by constructor|done]. }
  destruct (xorb self (lf_id x =? lf_id lock)) eqn:Ex.
  { apply Hskip. unfold passed. by destruct self, (Z.eqb_spec (lf_id x) (lf_id lock)). }
  assert (Hm : mine self lock x).
  { unfold mine. by destruct self, (Z.eqb_spec (lf_id x) (lf_id lock)). }
  destruct (overlap_case_ok x lock Hx Hk) as (k & -> & Hg). cbn [mbind outcome_bind].
  destruct (Z.eqb_spec k 0) as [->|Hne].
  - assert (Hz : hi x < lf_start lock \/ hi lock < lf_start x) by (unfold geometry in Hg; lia).
    destruct (self && negb (lf_end lock =? -1) && (lf_end lock <? lf_start x)) eqn:Ec.
    + exists 0, [], (x :: s ++ r'). split; [done|]. split; [done|]. split; [done|]. split; [done|]. left. bool_prop.
      split; [done|]. split; [done|]. pose proof (ok_hi _ Hk). lia.
    + apply Hskip. unfold passed. destruct self; [|done]. intros _. destruct Hz as [?|Hz]; [done|]. exfalso.
      pose proof (ok_hi _ Hk). pose proof (ok_hi _ Hx). cbn in Ec. bool_prop. destruct Ec; bool_prop; lia.
  - exists k, [], (x :: s ++ r'). split; [done|]. split; [done|]. split; [done|]. split; [done|]. by right.
Qed.

(** *** lf_getblock *)

(** [x] stands in the way of the request. *)
Definition conflicts (lock x : lockf) : Prop :=
  lf_id x <> lf_id lock /\ (exists b, covers lock b /\ covers x b) /\ (lf_type lock = F_WRLCK \/ lf_type x = F_WRLCK).

Lemma geometry_meets c x lock : ok x -> ok lock -> c <> 0 -> geometry c x lock -> exists b, covers lock b /\ covers x b.
Proof.
  intros Hx Hk Hc Hg. exists (Z.max (lf_start x) (lf_start lock)). unfold covers.
  pose proof (ok_hi _ Hx). pose proof (ok_hi _ Hk). unfold geometry in Hg. lia.
Qed.

Lemma passed_no_conflict lock x : passed false lock x -> ~ conflicts lock x.
Proof. intros Hp (Hid & (b & Hb & Hb') & _). specialize (Hp Hid). unfold covers in *. lia. Qed.

Lemma getblock_loop fuel lock l : (length l < fuel)%nat -> ok lock -> Forall ok l ->
  exists o, lf_getblock_loop fuel lock l = Ok o /\
    match o with
    | None => forall x, x ∈ l -> ~ conflicts lock x
    | Some x => conflicts lock x /\ exists p r, l = p ++ x :: r /\ forall y, y ∈ p -> ~ conflicts lock y
    end.
Proof.
  revert l. induction fuel as [|fuel IH]; intros l Hf Hk Hl; [lia|]. cbn [lf_getblock_loop].
  destruct (findoverlap_ok false lock l Hk Hl) as (c & sk & rest & -> & -> & Hp & Hst). cbn [mbind outcome_bind].
  assert (Hsk : forall x, x ∈ sk -> ~ conflicts lock x).
  { intros x Hx%list_elem_of_In. rewrite Forall_forall in Hp. apply passed_no_conflict. by apply Hp. }
  apply Forall_app in Hl as [_ Hr]. destruct rest as [|x r].
  { exists None. split; [done|]. intros x. rewrite app_nil_r. apply Hsk. }
  destruct Hst as [Hm [(_ & ? & _)|[Hc Hg]]]; [done|]. rewrite (proj2 (Z.eqb_neq _ _)) by done.
  apply Forall_cons_iff in Hr as [Hx Hr]. pose proof (geometry_meets _ _ _ Hx Hk Hc Hg) as Hov.
  case_if.
  - exists (Some x). split; [done|]. split.
    + split; [done|]. split; [done|]. destruct Heqb; bool_prop; auto.
    + by exists sk, r.
  - assert (Hx' : ~ conflicts lock x) by (intros (_ & _ & [?|?]); done).
    destruct (IH r) as (o & -> & Ho); [rewrite length_app in Hf; cbn in Hf; lia|done|done|].
    exists o. split; [done|]. destruct o as [y|].
    + destruct Ho as [Hy (p & r' & -> & Hp')]. split; [done|]. exists (sk ++ x :: p), r'.
      split; [by rewrite <- app_assoc|]. intros z [?|[->|?]%elem_of_cons]%elem_of_app; auto.
    + intros z [?|[->|?]%elem_of_cons]%elem_of_app; auto.
Qed.

Lemma getblock_ok lock l : ok lock -> Forall ok l ->
  exists o, lf_getblock lock l = Ok o /\
    match o with
    | None => forall x, x ∈ l -> ~ conflicts lock x
    | Some x => conflicts lock x /\ exists p r, l = p ++ x :: r /\ forall y, y ∈ p -> ~ conflicts lock y
    end.
Proof. apply getblock_loop. lia. Qed.

(** *** lf_clearlock *)

(** Owner [o]'s bytes are those of [l] without those of [lock]. *)
Definition minus (o : Z) (lock : lockf) (l l' : list lockf) : Prop :=
  forall b t, holds o l' b t <-> holds o l b t /\ ~ covers lock b.

Lemma holds_before o lock l b t : (forall x, x ∈ l -> lf_id x = o -> hi x < lf_start lock) -> holds o l b t -> ~ covers lock b.
Proof. intros Hl (x & Hx & Hid & _ & Hc). specialize (Hl x Hx Hid). unfold covers in *. lia. Qed.

Lemma holds_after o lock l b t : (forall x, x ∈ l -> lf_id x = o -> hi lock < lf_start x) -> holds o l b t -> ~ covers lock b.
Proof. intros Hl (x & Hx & Hid & _ & Hc). specialize (Hl x Hx Hid). unfold covers in *. lia. Qed.

(** In a well-formed list the locks of the owner of [x] behind it start after it. *)
Lemma wf_behind a x r z : wf (a ++ x :: r) -> z ∈ r -> lf_id z = lf_id x -> hi x < lf_start z.
Proof.
  intros [_ Hs] Hz Hid. apply sorted_app in Hs as (_ & [Hs _] & _). rewrite Forall_forall in Hs.
  apply (Hs z); [by apply list_elem_of_In|done].
Qed.

Lemma wf_ok l x : wf l -> x ∈ l -> ok x.
Proof. intros [Ho _] Hx%list_elem_of_In. rewrite Forall_forall in Ho. by apply Ho. Qed.

(** Parts of a lock. *)
Record part (x y : lockf) (s e : Z) : Prop := {
  part_ok : ok y;
  part_id : lf_id y = lf_id x;
  part_type : lf_type y = lf_type x;
  part_start : lf_start y = s;
  part_hi : hi y = e;
}.

Lemma part_end x e : ok x -> lf_start x <= e < INF -> part x (set_end e x) (lf_start x) e.
Proof.
  intros Hx He. pose proof (ok_hi _ Hx). unfold INF in *.
  assert (s32 e = e) as Ee by (apply s32_id; lia).
  split; unfold ok, hi, INF; cbn; rewrite ?Ee; try done; [lia|]. case_if; lia.
Qed.

Lemma part_start_of x s : ok x -> lf_start x <= s <= hi x -> part x (set_start s x) s (hi x).
Proof.
  intros Hx He. pose proof (ok_hi _ Hx). unfold INF in *.
  assert (s32 s = s) as Es by (apply s32_id; lia).
  split; try done. unfold ok in *; cbn. rewrite Es. unfold INF in *. lia.
Qed.

Lemma part_block x y s e b : part x y s e -> part x (set_block b y) s e.
Proof. by intros [? ? ? ? ?]. Qed.
Lemma part_addr x y s e a : part x y s e -> part x (set_addr a y) s e.
Proof. by intros [? ? ? ? ?]. Qed.
Lemma part_of_block x y s e b : part (set_block b x) y s e -> part x y s e.
Proof. by intros [? ? ? ? ?]. Qed.

Lemma part_covers x y s e b : part x y s e -> (covers y b <-> s <= b <= e).
Proof. intros [_ _ _ <- <-]. done. Qed.

(** Lock [x] of [o] replaced by parts of itself. *)
Lemma replace_one a x r m : wf (a ++ x :: r) -> sorted m ->
  Forall (fun y => exists s e, part x y s e /\ lf_start x <= s /\ e <= hi x) m ->
  wf (a ++ m ++ r) /\ others (lf_id x) (a ++ m ++ r) = others (lf_id x) (a ++ x :: r).
Proof.
  intros Hw Hs Hm. rewrite Forall_forall in Hm.
  assert (Hm' : forall y, y ∈ m -> exists s e, part x y s e /\ lf_start x <= s /\ e <= hi x)
    by (intros y Hy%list_elem_of_In; by apply Hm).
  apply (splice (lf_id x) a [x] m r); [done| | |done| |].
  - by constructor.
  - apply Forall_forall. intros y Hy. destruct (Hm y Hy) as (s & e & [? ? ? ? ?] & _). done.
  - intros z y Hz Hid Hy. destruct (Hm' y Hy) as (s & e & [? ? ? <- <-] & Hlt & _).
    destruct Hw as [_ Hw]. apply sorted_app in Hw as (_ & _ & Hb).
    specialize (Hb z x Hz ltac:(by left) Hid). lia.
  - intros y z Hy Hz Hid. destruct (Hm' y Hy) as (s & e & [? ? ? <- <-] & _ & Hle).
    pose proof (wf_behind _ _ _ _ Hw Hz Hid). lia.
Qed.

(** The bytes of [x] that [m] covers are those outside [lock]. *)
Definition leaves (x lock : lockf) (m : list lockf) : Prop :=
  forall b t, holds (lf_id x) m b t <-> lf_type x = t /\ covers x b /\ ~ covers lock b.

Lemma minus_replace lock a x r m : leaves x lock m ->
  (forall y, y ∈ a -> lf_id y = lf_id x -> hi y < lf_start lock) ->
  (forall z, z ∈ r -> lf_id z = lf_id x -> hi lock < lf_start z) ->
  minus (lf_id x) lock (a ++ x :: r) (a ++ m ++ r).
Proof.
  intros Hl Ha Hr b t. change (x :: r) with ([x] ++ r). rewrite !holds_app, holds_one, (Hl b t).
  pose proof (holds_before _ _ _ b t Ha). pose proof (holds_after _ _ _ b t Hr). tauto.
Qed.

Lemma leaves_nil x lock : lf_start lock <= lf_start x -> hi x <= hi lock -> leaves x lock [].
Proof.
  intros H1 H2 b t. split; [by intros ?%holds_nil|]. intros (_ & Hc & Hn). exfalso. apply Hn. unfold covers in *. lia.
Qed.

Lemma leaves_start x lock y : part x y (hi lock + 1) (hi x) -> lf_start lock <= lf_start x <= hi lock ->
  leaves x lock [y].
Proof.
  intros Hp Hlt b t. rewrite holds_one, (part_covers _ _ _ _ _ Hp), (part_type _ _ _ _ Hp), (part_id _ _ _ _ Hp).
  unfold covers. split; [intros (_ & ? & ?); lia|]. intros (? & ? & ?). split; [done|]. split; [done|]. lia.
Qed.

Lemma leaves_end x lock y : part x y (lf_start x) (lf_start lock - 1) -> lf_start lock <= hi x <= hi lock ->
  leaves x lock [y].
Proof.
  intros Hp Hlt b t. rewrite holds_one, (part_covers _ _ _ _ _ Hp), (part_type _ _ _ _ Hp), (part_id _ _ _ _ Hp).
  unfold covers. split; [intros (_ & ? & ?); lia|]. intros (? & ? & ?). split; [done|]. split; [done|]. lia.
Qed.

Lemma leaves_both x lock y z : part x y (lf_start x) (lf_start lock - 1) -> part x z (hi lock + 1) (hi x) ->
  lf_start x <= lf_start lock -> hi lock <= hi x -> lf_start lock <= hi lock -> leaves x lock ([y] ++ [z]).
Proof.
  intros Hp Hq Ha Hb Hc b t.
  rewrite holds_app, !holds_one, (part_covers _ _ _ _ _ Hp), (part_type _ _ _ _ Hp), (part_id _ _ _ _ Hp).
  rewrite (part_covers _ _ _ _ _ Hq), (part_type _ _ _ _ Hq), (part_id _ _ _ _ Hq).
  unfold covers. split; [intros [(_ & ? & ?)|(_ & ? & ?)]; lia|]. intros (? & ? & ?).
  destruct (decide (b < lf_start lock)); [left|right]; (split; [done|]; split; [done|]; lia).
Qed.

(** What an unlock (or the part of a lock request on [o]'s own locks) leaves. *)
Definition cleared (lock : lockf) (l l' : list lockf) : Prop :=
  wf l' /\ others (lf_id lock) l' = others (lf_id lock) l /\ minus (lf_id lock) lock l l'.

(** Removing or trimming a lock, when later ones may still overlap. *)
Lemma cleared_step lock a x r m : wf (a ++ x :: r) -> lf_id x = lf_id lock -> sorted m ->
  Forall (fun y => exists s e, part x y s e /\ lf_start x <= s /\ e <= hi x) m -> leaves x lock m ->
  forall l', cleared lock (a ++ m ++ r) l' -> cleared lock (a ++ x :: r) l'.
Proof.
  intros Hw Hid Hs Hm Hl l' (Hw' & Ho & Hmi). destruct (replace_one a x r m Hw Hs Hm) as [_ E]. rewrite Hid in E.
  split; [done|]. split; [by rewrite Ho|]. intros b t. rewrite (Hmi b t). change (x :: r) with ([x] ++ r).
  rewrite !holds_app, holds_one, <- Hid, (Hl b t). tauto.
Qed.

(** The last overlap. *)
Lemma cleared_last lock a x r m : wf (a ++ x :: r) -> lf_id x = lf_id lock -> sorted m ->
  Forall (fun y => exists s e, part x y s e /\ lf_start x <= s /\ e <= hi x) m -> leaves x lock m ->
  (forall y, y ∈ a -> lf_id y = lf_id lock -> hi y < lf_start lock) -> hi lock <= hi x ->
  cleared lock (a ++ x :: r) (a ++ m ++ r).
Proof.
  intros Hw Hid Hs Hm Hl Ha Hhi. destruct (replace_one a x r m Hw Hs Hm) as [Hw' E].
  rewrite <- Hid in *. split; [done|]. split; [by rewrite <- Hid|]. rewrite <- Hid. apply minus_replace; [done|done|].
  intros z Hz Hzid. pose proof (wf_behind _ _ _ _ Hw Hz Hzid). lia.
Qed.

(** All of the owner's locks from a stop without overlap on are behind. *)
Lemma stop_behind lock a x r : wf (a ++ x :: r) -> lf_id x = lf_id lock -> hi lock < lf_start x ->
  forall y, y ∈ x :: r -> lf_id y = lf_id lock -> hi lock < lf_start y.
Proof.
  intros Hw Hid Hlt y [->|Hy]%elem_of_cons He; [done|].
  pose proof (wf_behind _ _ _ _ Hw Hy ltac:(congruence)).
  pose proof (ok_hi _ (wf_ok _ x Hw ltac:(apply elem_of_app; right; by left))). lia.
Qed.

Lemma forall_part1 x y s e : part x y s e -> lf_start x <= s -> e <= hi x ->
  Forall (fun y => exists s e, part x y s e /\ lf_start x <= s /\ e <= hi x) [y].
Proof. intros. constructor; [by exists s, e|constructor]. Qed.

(** The pieces [lf_split] leaves of a lock that contains another. *)
Lemma split_ok a x lock : ok x -> ok lock -> lf_start x < lf_start lock -> hi lock <= hi x -> hi lock < INF ->
  exists m1 m2, lf_split a x lock = (m1, m2) /\ sorted (m1 ++ m2) /\ leaves x lock (m1 ++ m2) /\
    Forall (fun y => exists s e, part x y s e /\ lf_start x <= s /\ e <= hi x) (m1 ++ m2) /\
    (forall y, y ∈ m1 -> hi y < lf_start lock) /\ (forall y, y ∈ m2 -> hi lock < lf_start y).
Proof.
  intros Hx Hk Hs He Hi. pose proof (ok_hi _ Hx). pose proof (ok_hi _ Hk).
  assert (El : lf_end lock = hi lock) by lia.
  pose proof (part_end x (lf_start lock - 1) Hx ltac:(lia)) as P1.
  unfold lf_split. rewrite (proj2 (Z.eqb_neq _ _)) by lia. case_if.
  - exists [set_end (lf_start lock - 1) x], []. split; [done|]. split; [done|].
    split; [by apply leaves_end; [|lia]|]. split; [apply (forall_part1 _ _ _ _ P1); lia|].
    split; [|by intros ? ?%elem_of_nil]. intros y ->%list_elem_of_singleton. rewrite (part_hi _ _ _ _ P1). lia.
  - assert (Hlt : hi lock < hi x) by (destruct (decide (lf_end x = -1)); lia).
    pose proof (part_addr _ _ _ _ a (part_block _ _ _ _ [] (part_start_of x (hi lock + 1) Hx ltac:(lia)))) as P2.
    rewrite El. exists [set_end (lf_start lock - 1) x], [set_addr a (set_block [] (set_start (hi lock + 1) x))].
    split; [done|]. split.
    { cbn [app sorted]. split; [|done]. constructor; [|constructor]. intros _.
      rewrite (part_hi _ _ _ _ P1), (part_start _ _ _ _ P2). lia. }
    split; [apply (leaves_both _ _ _ _ P1 P2); lia|].
    split; [constructor; [eexists _, _; split; [exact P1|lia]|apply (forall_part1 _ _ _ _ P2); lia]|].
    split; intros y ->%list_elem_of_singleton; [rewrite (part_hi _ _ _ _ P1)|rewrite (part_start _ _ _ _ P2)]; lia.
Qed.

Lemma parts_of_block x b m :
  Forall (fun y => exists s e, part (set_block b x) y s e /\ lf_start x <= s /\ e <= hi x) m ->
  Forall (fun y => exists s e, part x y s e /\ lf_start x <= s /\ e <= hi x) m.
Proof.
  apply Forall_impl. intros y (s & e & Hp & H1 & H2). exists s, e. split; [by eapply part_of_block|done].
Qed.

(** The owner's locks before the overlap found. *)
Lemma acc_before lock acc sk : Forall (passed true lock) sk ->
  (forall y, y ∈ acc -> lf_id y = lf_id lock -> hi y < lf_start lock) ->
  forall y, y ∈ acc ++ sk -> lf_id y = lf_id lock -> hi y < lf_start lock.
Proof.
  intros Hp Ha y [Hy|Hy]%elem_of_app; [by apply Ha|]. rewrite Forall_forall in Hp. apply Hp. by apply list_elem_of_In.
Qed.

Lemma geometry_low c x lock : c <> 0 -> geometry c x lock -> ok x -> ok lock -> lf_start x <= hi lock.
Proof. intros Hc Hg Hx Hk. pose proof (ok_hi _ Hx). pose proof (ok_hi _ Hk). unfold geometry in Hg. lia. Qed.

(** No overlap is left. *)
Lemma clear_nothing lock a r : wf (a ++ r) ->
  (forall y, y ∈ a -> lf_id y = lf_id lock -> hi y < lf_start lock) ->
  (forall y, y ∈ r -> lf_id y = lf_id lock -> hi lock < lf_start y) -> cleared lock (a ++ r) (a ++ r).
Proof.
  intros Hw Ha Hr. split; [done|]. split; [done|]. intros b t. rewrite holds_app.
  pose proof (holds_before _ _ _ b t Ha). pose proof (holds_after _ _ _ b t Hr). tauto.
Qed.

Lemma clear_end lock a : wf a -> (forall y, y ∈ a -> lf_id y = lf_id lock -> hi y < lf_start lock) -> cleared lock a a.
Proof.
  intros Hw Ha. rewrite <- (app_nil_r a). apply clear_nothing; [by rewrite app_nil_r|done|]. by intros y ?%elem_of_nil.
Qed.

Lemma lf_clear_ok fuel a lock acc lf woken : (length lf < fuel)%nat -> ok lock -> wf (acc ++ lf) ->
  (forall y, y ∈ acc -> lf_id y = lf_id lock -> hi y < lf_start lock) ->
  exists R woken', lf_clear fuel a lock acc lf woken = Ok (R, woken') /\ cleared lock (acc ++ lf) R.
Proof.
  revert acc lf woken. induction fuel as [|fuel IH]; intros acc lf woken Hf Hk Hw Ha; [lia|]. cbn [lf_clear].
  destruct (findoverlap_ok true lock lf Hk) as (c & sk & rest & -> & -> & Hp & Hst).
  { destruct Hw as [Ho _]. by apply Forall_app in Ho as [_ Ho]. }
  pose proof (acc_before lock acc sk Hp Ha) as Hb.
  cbn [mbind outcome_bind]. rewrite app_assoc in *. destruct rest as [|x r].
  { rewrite app_nil_r in *. eexists _, _. split; [done|]. by apply clear_end. }
  assert (Hx : ok x) by (apply (wf_ok _ x Hw); apply elem_of_app; right; by left).
  destruct Hst as [Hid [(-> & _ & Hlt)|[Hc Hg]]].
  { cbn [Z.eqb]. eexists _, _. split; [done|]. apply clear_nothing; try done. by apply (stop_behind lock (acc ++ sk)). }
  rewrite (proj2 (Z.eqb_neq c 0)) by done. cbn zeta. cbn [mine] in Hid.
  pose proof (geometry_low _ _ _ Hc Hg Hx Hk) as Hlow.
  pose proof (ok_hi _ Hx) as Ox. pose proof (ok_hi _ Hk) as Ok'.
  assert (Hlen : (length r < fuel)%nat) by (rewrite length_app in Hf; cbn in Hf; lia).
  assert (Hxb : ok (set_block [] x)) by done. change (lf_start (set_block [] x)) with (lf_start x).
  destruct Hg as [(-> & ?)|[(-> & Hs & He)|[(-> & Hs & He & Hi & Hne)|[(-> & Hs & He)|[(-> & Hs & He)|(-> & Hs & He)]]]]];
    cbn [Z.eqb Pos.eqb].
  - done.
  - eexists _, _. split; [done|]. apply (cleared_last lock _ x r []); try done; [apply leaves_nil; lia|lia].
  - case_if.
    + assert (El : lf_end lock = hi lock) by lia. rewrite El.
      pose proof (part_start_of (set_block [] x) (hi lock + 1) Hxb ltac:(change (hi (set_block [] x)) with (hi x); cbn; lia)) as P%part_of_block.
      eexists _, _. split; [done|]. apply (cleared_last lock _ x r [_]); try done.
      * apply (forall_part1 _ _ _ _ P); [lia|done].
      * apply leaves_start; [done|lia].
    + destruct (split_ok a (set_block [] x) lock Hxb Hk) as (m1 & m2 & -> & Hsm & Hlv & Hpt & _ & _);
        [cbn; lia|done|done|].
      eexists _, _. split; [done|]. rewrite (app_assoc m1). apply (cleared_last lock _ x r (m1 ++ m2)); try done.
      exact (parts_of_block _ _ _ Hpt).
  - destruct (IH (acc ++ sk) r (woken ++ lf_block x) Hlen Hk) as (R & w' & -> & Hcl); [|done|].
    { apply (replace_one _ x r []); done. }
    eexists _, _. split; [done|]. apply (cleared_step lock _ x r []); try done. apply leaves_nil; lia.
  - pose proof (part_end (set_block [] x) (lf_start lock - 1) Hxb ltac:(cbn; lia)) as P%part_of_block.
    assert (Hpt := forall_part1 _ _ _ _ P ltac:(done) ltac:(lia)).
    assert (Hsm : sorted [set_end (lf_start lock - 1) (set_block [] x)]) by done.
    destruct (IH ((acc ++ sk) ++ [set_end (lf_start lock - 1) (set_block [] x)]) r (woken ++ lf_block x) Hlen Hk) as (R & w' & -> & Hcl).
    { rewrite <- app_assoc. by apply (replace_one _ x r [_]). }
    { intros y [Hy| ->%list_elem_of_singleton]%elem_of_app; [by apply Hb|]. intros _. rewrite (part_hi _ _ _ _ P). lia. }
    eexists _, _. split; [done|]. eapply (cleared_step lock _ x r [_]); [done|done|exact Hsm|done| |].
    + apply leaves_end; [done|lia].
    + by rewrite <- app_assoc in Hcl.
  - assert (El : lf_end lock = hi lock) by lia. rewrite El.
    pose proof (part_start_of (set_block [] x) (hi lock + 1) Hxb ltac:(change (hi (set_block [] x)) with (hi x); cbn; lia)) as P%part_of_block.
    eexists _, _. split; [done|]. apply (cleared_last lock _ x r [_]); try done.
    + apply (forall_part1 _ _ _ _ P); [lia|done].
    + apply leaves_start; [done|lia].
    + lia.
Qed.

Lemma clearlock_ok a lock l : ok lock -> wf l ->
  exists R woken, lf_clearlock a lock l = Ok (R, woken) /\ cleared lock l R.
Proof.
  intros Hk Hw. apply (lf_clear_ok (S (length l)) a lock [] l []); [lia|done|done|]. by intros y ?%elem_of_nil.
Qed.

(** *** lf_setlock: linking the lock *)

(** Owner's bytes afterwards: those of [lock], with its type, and the others as
    they were. *)
Definition plus (o : Z) (lock : lockf) (l l' : list lockf) : Prop :=
  forall b t, holds o l' b t <-> (covers lock b /\ t = lf_type lock) \/ (~ covers lock b /\ holds o l b t).

Definition added (lock : lockf) (l l' : list lockf) : Prop :=
  wf l' /\ others (lf_id lock) l' = others (lf_id lock) l /\ plus (lf_id lock) lock l l'.

Lemma insert_ok lock l p q lock' : cleared lock l (p ++ q) -> part lock lock' (lf_start lock) (hi lock) ->
  (forall y, y ∈ p -> lf_id y = lf_id lock -> hi y < lf_start lock) ->
  (forall y, y ∈ q -> lf_id y = lf_id lock -> hi lock < lf_start y) -> added lock l (p ++ lock' :: q).
Proof.
  intros (Hw & Ho & Hm) [P1 P2 P3 P4 P5] Hp Hq.
  destruct (splice (lf_id lock) p [] [lock'] q) as [Hw' Ho']; [done|done|by constructor|by cbn; split; [constructor|]| | |].
  - intros x y Hx Hid ->%list_elem_of_singleton. rewrite P4. by apply Hp.
  - intros y z ->%list_elem_of_singleton Hz Hid. rewrite P5. by apply Hq.
  - split; [done|]. split; [by etrans|]. intros b t. change (lock' :: q) with ([lock'] ++ q).
    specialize (Hm b t). rewrite holds_app in Hm. rewrite !holds_app, holds_one.
    assert (Hc : covers lock' b <-> covers lock b) by (unfold covers; by rewrite P4, P5).
    assert (Hty : lf_type lock' = t <-> t = lf_type lock) by (rewrite P3; split; done).
    assert (Hdec : covers lock b \/ ~ covers lock b) by (unfold covers; lia). tauto.
Qed.

Lemma part_refl x : ok x -> part x x (lf_start x) (hi x).
Proof. by split. Qed.

(** Locks of others only. *)
Definition foreign (lock : lockf) (l : list lockf) : Prop := forall y, y ∈ l -> lf_id y <> lf_id lock.

(** Once the lock is in the list: what is still to be cleared behind it. *)
Lemma lf_link_rest fuel a acc lock mid block woken : (length block < fuel)%nat -> ok lock ->
  wf (acc ++ mid ++ block) -> (forall y, y ∈ acc -> lf_id y = lf_id lock -> hi y < lf_start lock) ->
  foreign lock mid -> (forall y, y ∈ block -> lf_id y = lf_id lock -> lf_start lock < lf_start y) ->
  exists lock' q woken', lf_link fuel a false acc lock mid block woken = Ok (acc ++ lock' :: q, woken') /\
    part lock lock' (lf_start lock) (hi lock) /\ cleared lock (acc ++ mid ++ block) (acc ++ q) /\
    forall y, y ∈ q -> lf_id y = lf_id lock -> hi lock < lf_start y.
Proof.
  revert lock mid block woken. induction fuel as [|fuel IH]; intros lock mid block woken Hf Hk Hw Ha Hmid Hst0; [lia|].
  cbn [lf_link]. pose proof (ok_hi _ Hk) as Ok'.
  destruct (findoverlap_ok true lock block Hk) as (c & sk & rest & -> & -> & Hp & Hst).
  { destruct Hw as [Ho _]. apply Forall_app in Ho as [_ Ho]. by apply Forall_app in Ho as [_ Ho]. }
  cbn [mbind outcome_bind].
  assert (Hsk : foreign lock (mid ++ sk)).
  { intros y [Hy|Hy]%elem_of_app He; [by apply (Hmid y)|].
    assert (Hlt : lf_start lock < lf_start y) by (apply Hst0; [apply elem_of_app; by left|done]).
    rewrite Forall_forall in Hp. pose proof (Hp y ltac:(by apply list_elem_of_In) He).
    assert (Hoy : ok y) by (apply (wf_ok _ _ Hw); rewrite !elem_of_app; auto). pose proof (ok_hi _ Hoy). lia. }
  assert (Hnone : forall y, y ∈ mid ++ sk -> lf_id y = lf_id lock -> hi lock < lf_start y)
    by (intros y Hy He; by apply Hsk in Hy).
  rewrite (app_assoc mid) in *. destruct rest as [|x r].
  { rewrite app_nil_r in *. exists lock, (mid ++ sk), woken. split; [done|]. split; [by apply part_refl|].
    split; [by apply clear_nothing|done]. }
  assert (Hx : ok x) by (apply (wf_ok _ x Hw); rewrite !elem_of_app; right; right; by left).
  rewrite (app_assoc acc) in Hw. pose proof (ok_hi _ Hx) as Ox. destruct Hst as [Hid [(-> & _ & Hlt)|[Hc Hg]]].
  { assert (Hq : forall y, y ∈ (mid ++ sk) ++ x :: r -> lf_id y = lf_id lock -> hi lock < lf_start y).
    { intros y [Hy|Hy]%elem_of_app; [by apply Hnone|]. by apply (stop_behind lock (acc ++ mid ++ sk) x r). }
    cbn [Z.eqb]. exists lock, ((mid ++ sk) ++ x :: r), woken. split; [by rewrite <- app_assoc|]. split; [by apply part_refl|].
    split; [|done]. rewrite <- app_assoc in Hw. by apply clear_nothing. }
  cbn [mine] in Hid. assert (Hsx : lf_start lock < lf_start x)
    by (apply Hst0; [rewrite !elem_of_app; right; by left|done]).
  assert (Hlen : (length r < fuel)%nat) by (rewrite length_app in Hf; cbn in Hf; lia).
  assert (Hbe : forall y, y ∈ acc ++ mid ++ sk -> lf_id y = lf_id lock -> hi y < lf_start lock).
  { intros y [Hy|Hy]%elem_of_app; [by apply Ha|]. intros He. by apply Hsk in Hy. }
  rewrite (proj2 (Z.eqb_neq c 0)) by done.
  destruct Hg as [(-> & ?)|[(-> & Hs & He)|[(-> & Hs & He & Hi & Hne)|[(-> & Hs & He)|[(-> & Hs & He)|(-> & Hs & He)]]]]];
    cbn [Z.eqb Pos.eqb]; try lia.
  - assert (Hnext : forall b wk, exists lock' q woken',
      lf_link fuel a false acc (set_block b lock) (mid ++ sk) r wk = Ok (acc ++ lock' :: q, woken') /\
      part lock lock' (lf_start lock) (hi lock) /\ cleared lock (acc ++ (mid ++ sk) ++ x :: r) (acc ++ q) /\
      forall y, y ∈ q -> lf_id y = lf_id lock -> hi lock < lf_start y).
    { intros b wk. destruct (IH (set_block b lock) (mid ++ sk) r wk Hlen Hk) as (lock' & q & w' & E & P & Hcl & Hq); try done.
      - rewrite (app_assoc acc). by apply (replace_one _ x r []).
      - intros y Hy Hy'. cbn in Hy' |- *. pose proof (wf_behind _ _ _ y Hw Hy ltac:(congruence)). lia.
      - exists lock', q, w'. split; [done|]. split; [by eapply part_of_block|]. split; [|done].
        rewrite (app_assoc acc) in Hcl |- *. apply (cleared_step lock _ x r []); try done. apply leaves_nil; lia. }
    case_if; [destruct lock; apply Hnext|apply Hnext].
  - assert (El : lf_end lock = hi lock) by lia. rewrite El.
    pose proof (part_block _ _ _ _ [] (part_start_of x (hi lock + 1) Hx ltac:(lia))) as P.
    set (x' := set_block [] (set_start (hi lock + 1) x)) in *.
    exists lock, ((mid ++ sk) ++ x' :: r), (woken ++ lf_block x). split; [by rewrite <- app_assoc|].
    split; [by apply part_refl|]. rewrite (app_assoc acc (mid ++ sk) (x :: r)), (app_assoc acc (mid ++ sk) (x' :: r)). split.
    + apply (cleared_last lock _ x r [x']); try done; [|by apply leaves_start; [|lia]|lia].
      apply (forall_part1 _ _ _ _ P); lia.
    + intros y [Hy|[->|Hy]%elem_of_cons]%elem_of_app; [by apply Hnone| |].
      * intros _. rewrite (part_start _ _ _ _ P). lia.
      * intros Hy'. pose proof (wf_behind _ _ _ y Hw Hy ltac:(congruence)). lia.
Qed.

(** A lock inside one of the same type adds nothing. *)
Lemma added_same lock a x r : wf (a ++ x :: r) -> lf_id x = lf_id lock -> lf_type x = lf_type lock ->
  lf_start x <= lf_start lock -> hi lock <= hi x ->
  (forall y, y ∈ a -> lf_id y = lf_id lock -> hi y < lf_start lock) -> added lock (a ++ x :: r) (a ++ x :: r).
Proof.
  intros Hw Hid Hty Hs He Ha. split; [done|]. split; [done|]. intros b t.
  change (x :: r) with ([x] ++ r). rewrite !holds_app, holds_one.
  assert (Hr : forall z, z ∈ r -> lf_id z = lf_id lock -> hi lock < lf_start z).
  { intros z Hz Hzid. pose proof (wf_behind _ _ _ z Hw Hz ltac:(congruence)). lia. }
  pose proof (holds_before _ _ _ b t Ha). pose proof (holds_after _ _ _ b t Hr).
  assert (Hc : covers lock b -> covers x b) by (unfold covers; lia).
  assert (Hdec : covers lock b \/ ~ covers lock b) by (unfold covers; lia).
  assert (Ht : lf_type x = t <-> t = lf_type lock) by (rewrite Hty; split; done). tauto.
Qed.

(** An overlap that contains the lock: what is left of it on both sides. *)
Lemma added_inside lock a x r m1 m2 : wf (a ++ x :: r) -> ok lock -> lf_id x = lf_id lock -> hi lock <= hi x ->
  sorted (m1 ++ m2) -> leaves x lock (m1 ++ m2) ->
  Forall (fun y => exists s e, part x y s e /\ lf_start x <= s /\ e <= hi x) (m1 ++ m2) ->
  (forall y, y ∈ m1 -> hi y < lf_start lock) -> (forall y, y ∈ m2 -> hi lock < lf_start y) ->
  (forall y, y ∈ a -> lf_id y = lf_id lock -> hi y < lf_start lock) ->
  added lock (a ++ x :: r) (a ++ m1 ++ lock :: m2 ++ r).
Proof.
  intros Hw Hk Hid Hhi Hs Hl Hm H1 H2 Ha. rewrite (app_assoc a). apply insert_ok.
  - rewrite <- app_assoc, (app_assoc m1). by apply cleared_last.
  - by apply part_refl.
  - intros y [Hy|Hy]%elem_of_app He; [by apply Ha|by apply H1].
  - intros y [Hy|Hy]%elem_of_app He; [by apply H2|]. pose proof (wf_behind _ _ _ y Hw Hy ltac:(congruence)). lia.
Qed.

(** The rest of the loop, after the first overlap [x] is dropped or trimmed to [m]. *)
Lemma added_rest fuel a lock p x r m woken : (length r < fuel)%nat -> ok lock -> wf (p ++ x :: r) ->
  lf_id x = lf_id lock -> sorted m ->
  Forall (fun y => exists s e, part x y s e /\ lf_start x <= s /\ e <= hi x) m -> leaves x lock m ->
  (forall y, y ∈ p ++ m -> lf_id y = lf_id lock -> hi y < lf_start lock) -> lf_start lock <= hi x ->
  exists R w, lf_link fuel a false (p ++ m) lock [] r woken = Ok (R, w) /\ added lock (p ++ x :: r) R.
Proof.
  intros Hf Hk Hw Hid Hs Hm Hl Hp Hx. destruct (lf_link_rest fuel a (p ++ m) lock [] r woken) as (lock' & q & w' & E & P & Hcl & Hq).
  - done.
  - done.
  - rewrite <- app_assoc. by apply (replace_one p x r m).
  - done.
  - by intros y ?%elem_of_nil.
  - intros y Hy He. pose proof (wf_behind _ _ _ y Hw Hy ltac:(congruence)). lia.
  - eexists _, _. split; [done|]. apply insert_ok; [|done|done|done].
    rewrite <- app_assoc in Hcl. by apply (cleared_step lock p x r m).
Qed.

Lemma addlock_ok a lock l : ok lock -> wf l ->
  exists R woken, lf_addlock a lock l = Ok (R, woken) /\ added lock l R.
Proof.
  intros Hk Hw. unfold lf_addlock. cbn [lf_link]. pose proof (ok_hi _ Hk) as Ok'.
  destruct (findoverlap_ok true lock l Hk) as (c & sk & rest & -> & -> & Hp & Hst); [by destruct Hw|].
  cbn [mbind outcome_bind app].
  assert (Ha : forall y, y ∈ sk -> lf_id y = lf_id lock -> hi y < lf_start lock).
  { intros y Hy%list_elem_of_In. rewrite Forall_forall in Hp. by apply Hp. }
  destruct rest as [|x r].
  { rewrite app_nil_r in *. eexists _, _. split; [done|]. apply insert_ok; [|by apply part_refl|done|by intros y ?%elem_of_nil].
    rewrite app_nil_r. by apply clear_end. }
  assert (Hx : ok x) by (apply (wf_ok _ x Hw); rewrite elem_of_app; right; by left).
  pose proof (ok_hi _ Hx) as Ox. destruct Hst as [Hid [(-> & _ & Hlt)|[Hc Hg]]].
  { pose proof (stop_behind lock sk x r Hw Hid Hlt) as Hr. eexists _, _. split; [done|].
    apply insert_ok; [by apply clear_nothing|by apply part_refl|done|done]. }
  cbn [mine] in Hid. rewrite (proj2 (Z.eqb_neq c 0)) by done. rewrite length_app. cbn [length].
  destruct Hg as [(-> & ?)|[(-> & Hs & He)|[(-> & Hs & He & Hi & Hne)|[(-> & Hs & He)|[(-> & Hs & He)|(-> & Hs & He)]]]]];
    cbn [Z.eqb Pos.eqb].
  - done.
  - assert (Hadd : forall b, added lock (sk ++ x :: r) (sk ++ set_type (lf_type lock) (set_block b x) :: r)).
    { intros b. apply insert_ok; [| |done|].
      - apply (cleared_last lock sk x r []); try done; [apply leaves_nil; lia|lia].
      - by split.
      - intros y Hy Hy'. pose proof (wf_behind _ _ _ y Hw Hy ltac:(congruence)). lia. }
    case_if; (eexists _, _; split; [done|]); [apply Hadd|]. destruct x; apply Hadd.
  - case_if; [eexists _, _; split; [done|]; by apply added_same|].
    assert (Hxb : ok (set_block [] x)) by done. change (lf_start (set_block [] x)) with (lf_start x). case_if.
    + assert (El : lf_end lock = hi lock) by lia. rewrite El.
      pose proof (part_start_of (set_block [] x) (hi lock + 1) Hxb ltac:(change (hi (set_block [] x)) with (hi x); cbn; lia)) as P%part_of_block.
      eexists _, _. split; [done|]. apply (added_inside lock sk x r [] [_]); try done.
      * apply leaves_start; [done|lia].
      * apply (forall_part1 _ _ _ _ P); [lia|done].
      * by intros y ?%elem_of_nil.
      * intros y ->%list_elem_of_singleton. rewrite (part_start _ _ _ _ P). lia.
    + destruct (split_ok a (set_block [] x) lock Hxb Hk) as (m1 & m2 & -> & Hsm & Hlv & Hpt & H1 & H2); [cbn; lia|done|done|].
      eexists _, _. split; [done|]. apply added_inside; try done. exact (parts_of_block _ _ _ Hpt).
  - assert (Hrest : forall b wk, exists R w, lf_link (length sk + S (length r)) a false sk (set_block b lock) [] r wk = Ok (R, w) /\
      added lock (sk ++ x :: r) R).
    { intros b wk. pose proof (added_rest (length sk + S (length r)) a (set_block b lock) sk x r [] wk) as Hr.
      rewrite app_nil_r in Hr. apply Hr; try done; [lia|apply leaves_nil; [cbn; lia|done]|cbn; lia]. }
    case_if; [destruct lock; apply Hrest|apply Hrest].
  - pose proof (part_block _ _ _ _ [] (part_end x (lf_start lock - 1) Hx ltac:(lia))) as P.
    apply (added_rest _ a lock sk x r [_]); try done; [lia|apply (forall_part1 _ _ _ _ P); lia|apply leaves_end; [done|lia]| |lia].
    intros y [Hy| ->%list_elem_of_singleton]%elem_of_app; [by apply Ha|]. intros _. rewrite (part_hi _ _ _ _ P). lia.
  - assert (El : lf_end lock = hi lock) by lia. rewrite El.
    pose proof (part_block _ _ _ _ [] (part_start_of x (hi lock + 1) Hx ltac:(lia))) as P.
    eexists _, _. split; [done|]. apply (added_inside lock sk x r [] [_]); try done.
    + lia.
    + apply leaves_start; [done|lia].
    + apply (forall_part1 _ _ _ _ P); lia.
    + by intros y ?%elem_of_nil.
    + intros y ->%list_elem_of_singleton. rewrite (part_start _ _ _ _ P). lia.
Qed.

(** ** The locks of a file at any time *)

(** Two owners share a byte only to read. *)
Definition compat (l : list lockf) : Prop :=
  forall o1 o2 b t1 t2, o1 <> o2 -> holds o1 l b t1 -> holds o2 l b t2 -> t1 <> F_WRLCK /\ t2 <> F_WRLCK.
Definition good (l : list lockf) : Prop := wf l /\ compat l.

Record linv (w : lworld) : Prop := {
  linv_heads : forall v l, heads w !! v = Some l -> good l;
  linv_sleepers : forall a s, sleepers w !! a = Some s -> ok (sl_lock s);
}.

Lemma holds_others o o' l b t : o <> o' -> holds o (others o' l) b t <-> holds o l b t.
Proof.
  intros Hne. unfold holds, others. setoid_rewrite list_elem_of_filter. split.
  - intros (x & [_ Hx] & ?). by exists x.
  - intros (x & Hx & Hid & ?). exists x. split; [split; [by rewrite Hid|done]|done].
Qed.

Lemma holds_same_others o o' l l' b t : o <> o' -> others o' l' = others o' l -> holds o l' b t <-> holds o l b t.
Proof. intros Hne E. by rewrite <- (holds_others o o' l'), E, holds_others. Qed.

Lemma compat_cleared lock l l' : compat l -> cleared lock l l' -> compat l'.
Proof.
  intros Hc (_ & Ho & Hm). assert (Hsub : forall o b t, holds o l' b t -> holds o l b t).
  { intros o b t. destruct (decide (o = lf_id lock)) as [->|Hne]; [by rewrite (Hm b t); intros [? _]|].
    by rewrite (holds_same_others o (lf_id lock) l l'). }
  intros o1 o2 b t1 t2 Hne H1 H2. eapply Hc; [exact Hne|by apply Hsub|by apply Hsub].
Qed.

(** With nothing in the way, the new lock is compatible with the others. *)
Lemma compat_added lock l l' : compat l -> (forall x, x ∈ l -> ~ conflicts lock x) -> added lock l l' -> compat l'.
Proof.
  intros Hc Hn (_ & Ho & Hp).
  assert (Hnew : forall o b t, o <> lf_id lock -> holds o l b t -> covers lock b -> t <> F_WRLCK /\ lf_type lock <> F_WRLCK).
  { intros o b t Hne (x & Hx & Hid & Hty & Hb) Hk.
    assert (Hnc : ~ (lf_type lock = F_WRLCK \/ lf_type x = F_WRLCK)).
    { intros Ht. apply (Hn x Hx). split; [by rewrite Hid|]. split; [by exists b|done]. }
    split; intros E; apply Hnc; [right; congruence|by left]. }
  assert (Hold : forall o b t, o <> lf_id lock -> holds o l' b t <-> holds o l b t)
    by (intros; by apply holds_same_others with (lf_id lock)).
  intros o1 o2 b t1 t2 Hne H1 H2.
  destruct (decide (o1 = lf_id lock)) as [->|N1].
  - rewrite Hold in H2 by done. rewrite (Hp b t1) in H1. destruct H1 as [[Hb ->]|[Hb H1]].
    + destruct (Hnew _ _ _ (not_eq_sym Hne) H2 Hb). done.
    + by apply (Hc (lf_id lock) o2 b).
  - rewrite Hold in H1 by done. destruct (decide (o2 = lf_id lock)) as [->|N2].
    + rewrite (Hp b t2) in H2. destruct H2 as [[Hb ->]|[Hb H2]]; [by apply (Hnew o1 b)|].
      by apply (Hc o1 (lf_id lock) b).
    + rewrite Hold in H2 by done. by apply (Hc o1 o2 b).
Qed.

Lemma addblock_lookup b a l x : x ∈ lf_addblock b a l -> exists y blk, y ∈ l /\ x = set_block blk y.
Proof.
  unfold lf_addblock. intros (y & -> & Hy)%list_elem_of_fmap. exists y.
  case_decide; [by eexists|]. exists (lf_block y). by destruct y.
Qed.

Lemma addblock_wf b a l : wf l -> wf (lf_addblock b a l).
Proof.
  intros [Ho Hs]. split.
  - apply Forall_forall. intros x Hx%list_elem_of_In. apply addblock_lookup in Hx as (y & blk & Hy & ->).
    rewrite Forall_forall in Ho. apply (Ho y). by apply list_elem_of_In.
  - induction l as [|x l IH]; [done|]. destruct Hs as [Hx Hs]. cbn. apply Forall_cons_iff in Ho as [_ Ho].
    split; [|by apply IH]. rewrite Forall_forall in Hx. apply Forall_forall. intros z Hz%list_elem_of_In.
    apply addblock_lookup in Hz as (y & blk & Hy & ->). specialize (Hx y ltac:(by apply list_elem_of_In)).
    by case_decide.
Qed.

Lemma addblock_holds o b a l x t : holds o (lf_addblock b a l) x t -> holds o l x t.
Proof.
  intros (y & Hy & Hid & Ht & Hc). apply addblock_lookup in Hy as (z & blk & Hz & ->). by exists z.
Qed.

Lemma addblock_good b a l : good l -> good (lf_addblock b a l).
Proof.
  intros [Hw Hc]. split; [by apply addblock_wf|]. intros o1 o2 x t1 t2 Hne H1 H2.
  eapply Hc; [done|by eapply addblock_holds|by eapply addblock_holds].
Qed.

Lemma head_good w v : linv w -> good (head_of w v).
Proof.
  intros HI. unfold head_of. destruct (heads w !! v) eqn:E; [by apply (linv_heads _ HI v)|].
  split; [by split|]. intros ? ? ? ? ? ? H. by apply holds_nil in H.
Qed.

Lemma wakelock_world woken w : heads (lf_wakelock woken w) = heads w /\
  (forall a s, sleepers (lf_wakelock woken w) !! a = Some s -> exists s', sleepers w !! a = Some s' /\ sl_lock s = sl_lock s').
Proof.
  revert w. induction woken as [|c woken IH]; intros w; [split; [done|]; intros a s E; by exists s|].
  destruct (IH (wake1 w c)) as [E H]. split; [exact E|]. intros a s Hs.
  destruct (H a s Hs) as (s1 & H1 & ->). cbn in H1. apply lookup_alter_Some in H1 as [(-> & s2 & H2 & ->)|[_ H1]];
    [exists s2|exists s1]; done.
Qed.

Lemma linv_wake woken w : linv w -> linv (lf_wakelock woken w).
Proof.
  intros [Hh Hs]. destruct (wakelock_world woken w) as [E H]. split; [by rewrite E|].
  intros a s (s' & H' & ->)%H. by eapply Hs.
Qed.

Lemma linv_set_head v l w : good l -> linv w -> linv (set_head v l w).
Proof.
  intros Hl [Hh Hs]. split; [|done]. intros v' l'. cbn. rewrite lookup_insert_Some.
  intros [[_ <-]|[_ E]]; [done|by eapply Hh].
Qed.

Lemma linv_same w w' : heads w' = heads w -> (forall a s, sleepers w' !! a = Some s -> sleepers w !! a = Some s) ->
  linv w -> linv w'.
Proof. intros E H [Hh Hs]. split; [by rewrite E|]. intros a s ?%H. by eapply Hs. Qed.

Lemma sleep_ok p v lock b w : linv w -> ok lock ->
  exists w', lf_sleep p v lock b w = Ok (LSleep, w') /\ linv w'.
Proof.
  intros HI Hk. unfold lf_sleep. destruct (head_good w v HI) as [Hw Hc].
  assert (Hcl : exists l woken, (if flag lock F_FLOCK && (lf_type lock =? F_WRLCK)
      then lf_clearlock (fresh w) (set_type F_UNLCK lock) (head_of w v) else mret (head_of w v, [])) = Ok (l, woken) /\ good l).
  { case_if; [|by eexists _, _]. destruct (clearlock_ok (fresh w) (set_type F_UNLCK lock) (head_of w v)) as (l & wk & -> & Hl); [done|done|].
    exists l, wk. split; [done|]. split; [apply Hl|by eapply compat_cleared]. }
  destruct Hcl as (l & woken & -> & Hl). cbn [mbind outcome_bind]. eexists _. split; [done|].
  assert (HI2 : linv (lf_wakelock woken (set_head v (lf_addblock b (lf_addr lock) l) w)))
    by (by apply linv_wake, linv_set_head; [apply addblock_good|]).
  destruct HI2 as [Hh Hs]. split; [done|]. intros a s. cbn. rewrite lookup_insert_Some. intros [[_ <-]|[_ E]]; [done|by eapply Hs].
Qed.

Lemma deadlock_no_panic n w me q msg : lf_deadlock n w me q <> Panic msg.
Proof.
  revert q. induction n as [|n IH]; intros q; cbn; [done|].
  destruct (wchan w !! q) as [a|]; [|done]. destruct (sleepers w !! a) as [s|]; [|done]. cbn. destruct (sl_next s) as [b|]; [|done]. cbn.
  destruct (find_lock w b) as [x|]; [|done]. cbn. repeat case_if; done || apply IH.
Qed.

(** The deadlock check of a request blocked by [x] follows a pointer to a lock
    that is gone. *)
Definition check_faults (lock : lockf) (l : list lockf) : Prop :=
  flag lock F_WAIT = true /\ flag lock F_POSIX = true /\ exists x w0, x ∈ l /\ conflicts lock x /\
    lf_deadlock MAXDEPTH w0 (lf_id lock) (lf_id x) = Fault.

(** What one turn of lf_setlock does. *)
Lemma setlock_ok p v lock w : linv w -> ok lock ->
  (exists r w', lf_setlock p v lock w = Ok (r, w') /\ linv w' /\
     ((r = LReturn 0 /\ (forall x, x ∈ head_of w v -> ~ conflicts lock x) /\ added lock (head_of w v) (head_of w' v)) \/
      (r <> LReturn 0 /\ exists x, x ∈ head_of w v /\ conflicts lock x))) \/
  (lf_setlock p v lock w = Fault /\ check_faults lock (head_of w v)).
Proof.
  intros HI Hk. unfold lf_setlock. cbn zeta. set (w1 := mkLworld _ _ _ _).
  assert (HI1 : linv w1) by (eapply (linv_same w); [done| |done]; intros a s E; cbn in E; by apply lookup_delete_Some in E as [_ ?]).
  change (head_of w1 v) with (head_of w v). destruct (head_good w v HI) as [Hw Hc].
  destruct (getblock_ok lock (head_of w v) Hk) as (o & -> & Ho); [by destruct Hw|]. cbn [mbind outcome_bind].
  destruct o as [x|].
  2: { destruct (addlock_ok (fresh w1) lock (head_of w v) Hk Hw) as (R & woken & -> & Ha). cbn [mbind outcome_bind].
       left. eexists _, _. split; [done|]. split.
       - apply linv_wake, linv_set_head; [|done]. split; [apply Ha|by eapply compat_added].
       - left. split; [done|]. split; [done|].
         destruct (wakelock_world woken (set_head v R w1)) as [E _]. unfold head_of at 2. rewrite E. cbn.
         by rewrite lookup_insert_eq. }
  destruct Ho as [Hcx (pre & post & El & _)].
  assert (Hx : x ∈ head_of w v) by (rewrite El; apply elem_of_app; right; by left).
  destruct (sleep_ok p v lock (lf_addr x) w1 HI1 Hk) as (w2 & Es & HI2).
  assert (Hblk : forall r w', r <> LReturn 0 -> linv w' -> exists r0 w'0, Ok (r, w') = Ok (r0, w'0) /\ linv w'0 /\
     ((r0 = LReturn 0 /\ (forall x, x ∈ head_of w v -> ~ conflicts lock x) /\ added lock (head_of w v) (head_of w'0 v)) \/
      (r0 <> LReturn 0 /\ exists x, x ∈ head_of w v /\ conflicts lock x))).
  { intros r w' Hr HI'. exists r, w'. split; [done|]. split; [done|]. right. split; [done|]. by exists x. }
  destruct (negb (flag lock F_WAIT)) eqn:Ew; [left; by apply Hblk|]. apply negb_false_iff in Ew.
  destruct (flag lock F_POSIX && flag x F_POSIX) eqn:Ep.
  - apply andb_true_iff in Ep as [Ep _].
    destruct (lf_deadlock MAXDEPTH w1 (lf_id lock) (lf_id x)) as [dead|msg|] eqn:Ed.
    + left. cbn [mbind outcome_bind]. destruct dead; [by apply Hblk|]. rewrite Es. by apply Hblk.
    + by apply deadlock_no_panic in Ed.
    + right. split; [done|]. split; [done|]. split; [done|]. by exists x, w1.
  - left. cbn [mbind outcome_bind mret outcome_ret]. rewrite Es. by apply Hblk.
Qed.

(** A request for a range of bytes that exist (or one lf_advlock refuses). *)
Definition req_ok (size : Z) (fl : flock) : Prop :=
  match range size fl with
  | Some (s, e) => 0 <= s -> s <= INF /\ (e = -1 \/ s <= e < INF)
  | None => True
  end.

Lemma req_ok_set size fl : l_whence fl = SEEK_SET -> 0 <= l_start fl -> 0 <= l_len fl ->
  l_start fl + l_len fl <= INF -> req_ok size fl.
Proof.
  intros Ew Hs Hl Hm. unfold req_ok, range. rewrite Ew. cbn [Z.eqb orb]. intros _. unfold INF in *.
  destruct (Z.eqb_spec (l_len fl) 0); [lia|]. rewrite s32_id by lia. lia.
Qed.

Section Events.
Context (pid_of : Z -> Z).

(** [lf_findoverlap] never reaches its panic, its callers' loops end, and
    on the locks of a file (those of an owner sorted and disjoint), for every
    request: unlocking leaves the owner exactly the bytes it had outside the
    range; setting gives it exactly the range, with the type asked for, besides
    the bytes it had outside; the locks of other owners are the same list, and
    the new list is well-formed.  F_GETLK describes the first lock of another
    owner that shares a byte with the request and is or asks to be exclusive,
    and F_UNLCK if there is none. *)
Theorem lf_lists_spec a lock fl l : ok lock -> wf l ->
  (exists l' woken, lf_clearlock a lock l = Ok (l', woken) /\ wf l' /\
     others (lf_id lock) l' = others (lf_id lock) l /\
     forall b t, holds (lf_id lock) l' b t <-> holds (lf_id lock) l b t /\ ~ covers lock b) /\
  (exists l' woken, lf_addlock a lock l = Ok (l', woken) /\ wf l' /\
     others (lf_id lock) l' = others (lf_id lock) l /\
     forall b t, holds (lf_id lock) l' b t <->
       (covers lock b /\ t = lf_type lock) \/ (~ covers lock b /\ holds (lf_id lock) l b t)) /\
  (exists fl', lf_getlock pid_of lock fl l = Ok fl' /\
     (((forall x, x ∈ l -> ~ conflicts lock x) /\ l_type fl' = F_UNLCK) \/
      exists x pre post, l = pre ++ x :: post /\ conflicts lock x /\ (forall y, y ∈ pre -> ~ conflicts lock y) /\
        l_type fl' = lf_type x /\ l_whence fl' = SEEK_SET /\ l_start fl' = lf_start x /\
        l_len fl' = (if lf_end x =? -1 then 0 else hi x - lf_start x + 1))).
Proof.
  intros Hk Hw. split; [|split].
  - destruct (clearlock_ok a lock l Hk Hw) as (R & wk & E & H1 & H2 & H3). by exists R, wk.
  - destruct (addlock_ok a lock l Hk Hw) as (R & wk & E & H1 & H2 & H3). by exists R, wk.
  - unfold lf_getlock. destruct (getblock_ok lock l Hk) as (o & -> & Ho); [by destruct Hw|]. cbn [mbind outcome_bind].
    destruct o as [x|]; eexists; (split; [done|]); [right|by left].
    destruct Ho as [Hc (p & r & El & Hp)]. exists x, p, r. split; [done|]. split; [done|]. split; [done|].
    split; [done|]. split; [done|]. split; [done|]. cbn.
    assert (Hx : ok x) by (apply (wf_ok l); [done|]; rewrite El; apply elem_of_app; right; by left).
    unfold hi. unfold ok, INF in Hx. destruct (Z.eqb_spec (lf_end x) (-1)); [done|]. apply s32_id. lia.
Qed.

Lemma clear_good v a lock w : linv w -> ok lock -> exists l woken, lf_clearlock a lock (head_of w v) = Ok (l, woken) /\
  cleared lock (head_of w v) l /\ good l.
Proof.
  intros HI Hk. destruct (head_good w v HI) as [Hw Hc].
  destruct (clearlock_ok a lock (head_of w v) Hk Hw) as (l & wk & E & Hl). exists l, wk. split; [done|]. split; [done|].
  split; [apply Hl|by eapply compat_cleared].
Qed.

(** The events under which the invariant is kept: requests for ranges that
    exist, or that lf_advlock refuses, and sleepers that do. *)
Definition event_ok (ev : levent) (w : lworld) : Prop :=
  match ev with
  | LAsk p v size id op fl flags => req_ok size fl
  | LResume p a | LInterrupt p a => is_Some (sleepers w !! a)
  end.

Lemma lf_event_inv ev w : linv w -> event_ok ev w ->
  (exists w', run_lock pid_of ev w = Ok w' /\ linv w') \/
  (run_lock pid_of ev w = Fault /\ exists lock v, check_faults lock (head_of w v)).
Proof.
  intros HI Hev. destruct ev as [p v size id op fl flags|p a|p a]; cbn [run_lock].
  - unfold lf_advlock. cbn zeta. case_if; [left; by eexists|]. cbn in Hev. unfold req_ok in Hev.
    destruct (range size fl) as [[s e]|]; [|left; by eexists].
    destruct (Z.ltb_spec s 0); [left; by eexists|]. specialize (Hev H).
    set (w1 := mkLworld _ _ _ _). set (lock := mkLockf _ _ _ _ _ _ _).
    assert (HI1 : linv w1) by (by eapply (linv_same w)). assert (Hk : ok lock) by (split; cbn; lia).
    change (head_of w v) with (head_of w1 v).
    destruct (op =? F_SETLK).
    { destruct (setlock_ok p v lock w1 HI1 Hk) as [(r & w' & -> & HI' & _)|[-> Hf]]; [left; by eexists|].
      right. split; [done|]. by exists lock, v. }
    destruct (op =? F_UNLCK).
    { destruct (clear_good v (fresh w1) lock w1 HI1 Hk) as (l & wk & -> & _ & Hl). left. eexists. split; [done|].
      apply linv_wake, linv_set_head; [done|]. by apply (linv_same w). }
    destruct (op =? F_GETLK); [|left; by eexists].
    unfold lf_getlock. destruct (head_good w1 v HI1) as [[Ho _] _].
    destruct (getblock_ok lock (head_of w1 v) Hk Ho) as (o & -> & _). left. destruct o; by eexists.
  - destruct Hev as [s Hs]. unfold lf_resume. rewrite Hs. cbn [deref mbind outcome_bind].
    destruct (setlock_ok p (sl_file s) (sl_lock s) w HI) as [(r & w' & -> & HI' & _)|[-> Hf]];
      [by eapply (linv_sleepers _ HI)|left; by eexists|right; split; [done|by eexists _, _]].
  - destruct Hev as [s Hs]. unfold lf_interrupt. rewrite Hs. cbn [deref mbind outcome_bind].
    destruct (clear_good (sl_file s) (fresh w) (sl_lock s) w HI) as (l & wk & -> & _ & Hl); [by eapply (linv_sleepers _ HI)|].
    left. eexists. split; [done|].
    by apply (linv_same (lf_wakelock wk (set_head (sl_file s) l w))), linv_wake, linv_set_head.
Qed.

(** The worlds that calls and wakeups lead to. *)
Inductive lreach : lworld -> Prop :=
  | reach_empty : lreach (mkLworld ∅ ∅ ∅ 1)
  | reach_step w ev w' : lreach w -> event_ok ev w -> run_lock pid_of ev w = Ok w' -> lreach w'.

Lemma lreach_inv w : lreach w -> linv w.
Proof.
  induction 1 as [|w ev w' _ IH Hev E]; [split; intros ? ? ?; done|].
  destruct (lf_event_inv ev w IH Hev) as [(w1 & E1 & HI)|[E1 _]]; rewrite E in E1; [by injection E1 as <-|done].
Qed.


(** a process that waits for a lock on bytes it already has locked (to
    upgrade them, say) and is interrupted by a signal loses all its locks in
    the range: [lf_clearlock] of the request that was never granted removes
    them. *)
Theorem lf_interrupt_drops p a s w : lreach w -> sleepers w !! a = Some s ->
  exists w', lf_interrupt p a w = Ok w' /\
    forall b t, covers (sl_lock s) b -> ~ holds (lf_id (sl_lock s)) (head_of w' (sl_file s)) b t.
Proof.
  intros HI%lreach_inv Hs. unfold lf_interrupt. rewrite Hs. cbn [deref mbind outcome_bind].
  destruct (clear_good (sl_file s) (fresh w) (sl_lock s) w HI) as (l & wk & -> & (_ & _ & Hm) & _); [by eapply (linv_sleepers _ HI)|].
  cbn [mbind outcome_bind]. eexists. split; [done|]. intros b t Hc. unfold head_of; cbn.
  destruct (wakelock_world wk (set_head (sl_file s) l w)) as [-> _]. cbn. rewrite lookup_insert_eq. cbn.
  rewrite (Hm b t). tauto.
Qed.
End Events.

(** ** Scenarios *)

Definition empty_world : lworld := mkLworld ∅ ∅ ∅ 1.

(** Process [p] asks for [n] bytes from [s] of file 1, to wait if it must. *)
Definition ask (p type s n : Z) : levent := LAsk p 1 1000 p F_SETLK (mkFlock type SEEK_SET s n 0) (Z.lor F_POSIX F_WAIT).

(** Process 2 waits for a lock of process 1, who then replaces the lock by a
    larger one: the old one is freed, but process 2 still points to it. *)
Definition dangling_run : list levent :=
  [ask 2 F_WRLCK 100 10; ask 1 F_RDLCK 0 10; ask 2 F_WRLCK 0 10; ask 1 F_WRLCK 0 20; ask 1 F_WRLCK 100 10].

(** when a lock is replaced by one that contains it, the sleepers on its
    block list move to the new lock, but their [lf_next] keeps the address of
    the old one, which is freed: process 1 is about to wait for process 2,
    which waits for it, and the deadlock check follows the dangling pointer. *)
Theorem deadlock_check_dangling : run_locks id dangling_run empty_world = Fault.
Proof. by vm_compute. Qed.

(** Processes 1 and 2 read bytes 0 to 9; process 1 wants to write them. *)
Definition upgrade_run : list levent := [ask 1 F_RDLCK 0 10; ask 2 F_RDLCK 0 10; ask 1 F_WRLCK 0 10].
Definition upgrade_world : lworld := match run_locks id upgrade_run empty_world with Ok w => w | _ => empty_world end.

Lemma ask_ok p type s n w : 0 <= s -> 0 <= n -> s + n <= INF -> event_ok (ask p type s n) w.
Proof. intros. by apply req_ok_set. Qed.

Lemma run_reach evs w w' : lreach id w -> run_locks id evs w = Ok w' ->
  Forall (fun ev => forall w, event_ok ev w) evs -> lreach id w'.
Proof.
  unfold run_locks. intros Hw E Hev. revert w Hw E.
  induction Hev as [|ev evs Hok _ IH]; cbn [foldl]; intros w Hw E; [by injection E as <-|].
  cbn [mret outcome_ret mbind outcome_bind] in E. destruct (run_lock id ev w) as [w1|msg|] eqn:E1.
  - by apply (IH w1); [apply (reach_step id w ev)|].
  - exfalso. clear -E. by induction evs.
  - exfalso. clear -E. by induction evs.
Qed.

Lemma upgrade_reach : lreach id upgrade_world.
Proof.
  apply (run_reach upgrade_run empty_world); [apply reach_empty|by vm_compute|].
  unfold upgrade_run. do 3 (apply Forall_cons; [intros w; apply ask_ok; unfold INF; lia|]). constructor.
Qed.

Definition ex_lock : lockf := mkLockf 9 0 F_WRLCK 5 9 1 [].
Definition ex_list : list lockf := [mkLockf 1 0 F_RDLCK 0 (-1) 1 []; mkLockf 2 0 F_RDLCK 20 30 2 []].

Lemma lf_lists_spec_witness : ok ex_lock /\ wf ex_list /\
  exists l' woken, lf_addlock 7 ex_lock ex_list = Ok (l', woken) /\ holds 1 l' 6 F_WRLCK /\ holds 1 l' 3 F_RDLCK.
Proof.
  assert (Hk : ok ex_lock) by (unfold ok, INF; cbn; lia).
  assert (Hw : wf ex_list).
  { split; [do 2 (apply Forall_cons; [unfold ok, INF; cbn; lia|]); constructor|].
    split; [apply Forall_cons; [by intros ?|constructor]|]. split; constructor. }
  split; [done|]. split; [done|].
  destruct (lf_lists_spec id 7 ex_lock (mkFlock 0 0 0 0 0) ex_list Hk Hw) as (_ & (l' & wk & E & _ & _ & Hh) & _).
  exists l', wk. split; [done|]. split; apply (Hh _ _).
  - left. by split.
  - right. split; [by vm_compute; intros [? _]|]. exists (mkLockf 1 0 F_RDLCK 0 (-1) 1 []). split; [by left|]. by split.
Defined.


(** Before, process 1 can read byte 3; afterwards it has no lock on it. *)
Lemma lf_interrupt_drops_witness : holds 1 (head_of upgrade_world 1) 3 F_RDLCK /\
  exists w', lf_interrupt 1 5 upgrade_world = Ok w' /\ ~ holds 1 (head_of w' 1) 3 F_RDLCK.
Proof.
  split.
  - exists (mkLockf 1 80 F_RDLCK 0 9 1 []). split; [vm_compute; by repeat constructor|]. by split.
  - destruct (lf_interrupt_drops id 1 5 (mkSleeper (mkLockf 5 80 F_WRLCK 0 9 1 []) 1 (Some 3%positive)) upgrade_world upgrade_reach)
      as (w' & E & H); [by vm_compute|].
    exists w'. split; [done|]. apply (H 3 F_RDLCK). by split.
Defined.
