(* ===== verification/Fdesc.v ===== *)
(** * File descriptors (sys/kern/kern_descrip.c, sys/sys/filedesc.h, file.h)

    Descriptor tables map small integers to open files, which are shared and
    reference counted.  What the calls ask of the file's own operations (close,
    ioctl, advisory locks) is recorded in a log, their results are parameters. *)

From S2P Require Import Prelude.

Definition NDFILE : Z := 20.
Definition NDEXTENT : Z := 50.
Definition UF_EXCLOSE : Z := 1.
Definition UF_MAPPED : Z := 2.
Definition DTYPE_VNODE : Z := 1.
Definition FREAD : Z := 1.
Definition FWRITE : Z := 2.
Definition FNONBLOCK : Z := 4.
Definition FASYNC : Z := 64.
Definition FCNTLFLAGS : Z := 8 + 64 + 128 + 4.   (* FAPPEND|FASYNC|FFSYNC|FNONBLOCK *)
Definition FHASLOCK : Z := 16384.
Definition DTYPE_SOCKET : Z := 2.
Definition FIONBIO : Z := 0x8004667e.
Definition FIOASYNC : Z := 0x8004667d.
Definition TIOCGPGRP : Z := 0x40047477.
Definition TIOCSPGRP : Z := 0x80047476.
Definition FMASK : Z := 207.   (* FREAD|FWRITE|FAPPEND|FASYNC|FFSYNC|FNONBLOCK *)
Definition ENODEV : Z := 19.
Definition ERESTART : Z := -1.
Definition EOPNOTSUPP : Z := 45.

(** A descriptor table; [fd_nfiles] is the length of the arrays. *)
Record filedesc := mkFiledesc {
  fd_ofiles : list (option loc);
  fd_ofileflags : list Z;
  fd_lastfile : Z;
  fd_freefile : Z;
  fd_refcnt : Z;
}.
Definition fd_nfiles (fdp : filedesc) : Z := Z.of_nat (length (fd_ofiles fdp)).

Record file := mkFile { f_count : Z; f_type : Z; f_flag : Z; f_data : Z; f_offset : Z }.

(** What is asked of a file's vnode or operations; a lock is asked for the
    process ([None]) or for an open file. *)
Inductive fevent :=
  | EvAdvlock (vp : Z) (id : option loc) (op : Z) (fl : flock) (flags : Z)
  | EvClose (fp : loc)
  | EvVnclose (vp flags : Z)
  | EvIoctl (fp : loc) (cmd data : Z).

Record fworld := mkFworld {
  tables : gmap loc filedesc;
  files : gmap loc file;
  nfiles : Z;
  so_pgid : Z -> Z;                     (* of the socket at an address *)
  flog : list fevent;
}.

(** The process: its table, its descriptor limit, and SADVLCK in p_flag. *)
Record fdproc := mkFdproc { p_fd : loc; p_nofile : Z; p_advlck : bool }.

Definition set_table (t : loc) (fdp : filedesc) (w : fworld) : fworld :=
  mkFworld (<[t := fdp]> (tables w)) (files w) (nfiles w) (so_pgid w) (flog w).
Definition set_file (f : loc) (fp : file) (w : fworld) : fworld :=
  mkFworld (tables w) (<[f := fp]> (files w)) (nfiles w) (so_pgid w) (flog w).
Definition add_log (e : fevent) (w : fworld) : fworld :=
  mkFworld (tables w) (files w) (nfiles w) (so_pgid w) (flog w ++ [e]).
Definition set_nfiles (n : Z) (w : fworld) : fworld :=
  mkFworld (tables w) (files w) n (so_pgid w) (flog w).

(** [fdp->fd_ofiles[i]] for a descriptor that may be out of range. *)
Definition slot (fdp : filedesc) (i : Z) : option loc :=
  if 0 <=? i then mjoin (fd_ofiles fdp !! Z.to_nat i) else None.

(** The test every call begins with: [(unsigned)fd >= fd_nfiles || ... == NULL]. *)
Definition getfile (fdp : filedesc) (fd : Z) : option loc :=
  if fd_nfiles fdp <=? u32 fd then None else slot fdp (u32 fd).

Definition set_slot (i : Z) (o : option loc) (fl : Z) (fdp : filedesc) : filedesc :=
  mkFiledesc (<[Z.to_nat i := o]> (fd_ofiles fdp)) (<[Z.to_nat i := fl]> (fd_ofileflags fdp))
    (fd_lastfile fdp) (fd_freefile fdp) (fd_refcnt fdp).
Definition set_ofile (i : Z) (o : option loc) (fdp : filedesc) : filedesc :=
  mkFiledesc (<[Z.to_nat i := o]> (fd_ofiles fdp)) (fd_ofileflags fdp)
    (fd_lastfile fdp) (fd_freefile fdp) (fd_refcnt fdp).
(** [fd_lastfile] and [fd_freefile] are [u_short]. *)
Definition set_last (i : Z) (fdp : filedesc) : filedesc :=
  mkFiledesc (fd_ofiles fdp) (fd_ofileflags fdp) (u16 i) (fd_freefile fdp) (fd_refcnt fdp).
Definition set_free (i : Z) (fdp : filedesc) : filedesc :=
  mkFiledesc (fd_ofiles fdp) (fd_ofileflags fdp) (fd_lastfile fdp) (u16 i) (fd_refcnt fdp).
Definition set_flags (i fl : Z) (fdp : filedesc) : filedesc :=
  mkFiledesc (fd_ofiles fdp) (<[Z.to_nat i := fl]> (fd_ofileflags fdp))
    (fd_lastfile fdp) (fd_freefile fdp) (fd_refcnt fdp).

Definition bump_last (i : Z) (fdp : filedesc) : filedesc :=
  if fd_lastfile fdp <? i then set_last i fdp else fdp.

(** ** Allocation *)

(** Lines 413-423: the first free slot among the [n] from [i]. *)
Fixpoint fd_search (n : nat) (ofiles : list (option loc)) (i : Z) : outcome (option Z) :=
  match n with
  | O => mret None
  | S n =>
      o ← deref (ofiles !! Z.to_nat i);
      match o with
      | None => mret (Some i)
      | Some _ => fd_search n ofiles (i + 1)
      end
  end.

(** Lines 430-452: a larger table, zero in the new part. *)
Definition fd_expand (fdp : filedesc) : filedesc :=
  let n := if fd_nfiles fdp <? NDEXTENT then NDEXTENT else 2 * fd_nfiles fdp in
  let pad {A} (x : A) (l : list A) := l ++ replicate (Z.to_nat n - length l) x in
  mkFiledesc (pad None (fd_ofiles fdp)) (pad 0 (fd_ofileflags fdp))
    (fd_lastfile fdp) (fd_freefile fdp) (fd_refcnt fdp).

(** The error, the descriptor, the table, and whether it has new arrays. *)
Fixpoint fdalloc (fuel : nat) (lim want : Z) (fdp : filedesc) (moved : bool)
  : outcome (Z * Z * filedesc * bool) :=
  match fuel with
  | O => Fault
  | S fuel =>
      let last := s32 (Z.min (u32 (fd_nfiles fdp)) (u32 lim)) in
      let i := if want <? fd_freefile fdp then fd_freefile fdp else want in
      r ← fd_search (Z.to_nat (last - i)) (fd_ofiles fdp) i;
      match r with
      | Some i =>
          let fdp := bump_last i (set_flags i 0 fdp) in
          let fdp := if want <=? fd_freefile fdp then set_free i fdp else fdp in
          mret (0, i, fdp, moved)
      | None =>
          if lim <=? fd_nfiles fdp then mret (EMFILE, 0, fdp, moved)
          else fdalloc fuel lim want (fd_expand fdp) true
      end
  end.

(** Enough turns for every limit that fits an [int]: the table doubles. *)
Definition fd_fuel : nat := 32.

Definition fdavail (lim n : Z) (fdp : filedesc) : bool :=
  let i := lim - fd_nfiles fdp in
  if (0 <? i) && (n - i <=? 0) then true
  else
    let n := if 0 <? i then n - i else n in
    let free := Z.of_nat (length (filter (fun o => o = None) (drop (Z.to_nat (fd_freefile fdp)) (fd_ofiles fdp)))) in
    (0 <? free) && (n <=? free).

(** ** Closing *)

Section Calls.
(** The file's own operations: what close returns, and the error and value an
    ioctl returns; the vnode's advisory lock operation. *)
Variables (fo_close : loc -> Z) (fo_ioctl : loc -> Z -> Z -> Z * Z).
Variable vop_advlock : Z -> option loc -> Z -> flock -> Z -> Z * flock.
(** User memory, and the group of the process with a given id. *)
Variables (copyin_flock : Z -> option flock) (copyout_flock : Z -> flock -> Z).
Variable pgid_of : Z -> option Z.
Variables (maxfdescs maxfiles : Z).

(** VOP_ADVLOCK of a vnode. *)
Definition advlock (vp : Z) (id : option loc) (op : Z) (fl : flock) (flags : Z) (w : fworld) : Z * flock * fworld :=
  let '(error, fl') := vop_advlock vp id op fl flags in
  (error, fl', add_log (EvAdvlock vp id op fl flags) w).

(** The whole file (SEEK_SET, 0, 0). *)
Definition whole (type : Z) : flock := mkFlock type 0 0 0 0.

Definition set_count (n : Z) (fp : file) : file :=
  mkFile n (f_type fp) (f_flag fp) (f_data fp) (f_offset fp).

(** [fp->f_count++], a [short]. *)
Definition fhold (f : loc) (w : fworld) : outcome fworld :=
  fp ← deref (files w !! f);
  mret (set_file f (set_count (s16 (f_count fp + 1)) fp) w).

(** FREE of the file, which leaves the list of open files. *)
Definition ffree (f : loc) (w : fworld) : fworld :=
  set_nfiles (nfiles w - 1) (mkFworld (tables w) (delete f (files w)) (nfiles w) (so_pgid w) (flog w)).

Definition closef (p : fdproc) (o : option loc) (w : fworld) : outcome (Z * fworld) :=
  match o with
  | None => mret (0, w)
  | Some f =>
      fp ← deref (files w !! f);
      let w := if p_advlck p && (f_type fp =? DTYPE_VNODE)
               then (advlock (f_data fp) None F_UNLCK (whole F_UNLCK) F_POSIX w).2 else w in
      let n := s16 (f_count fp - 1) in
      let w := set_file f (set_count n fp) w in
      if 0 <? n then mret (0, w)
      else if n <? 0 then Panic "closef: count < 0"
      else
        let w := if negb (Z.land (f_flag fp) FHASLOCK =? 0) && (f_type fp =? DTYPE_VNODE)
                 then (advlock (f_data fp) (Some f) F_UNLCK (whole F_UNLCK) F_FLOCK w).2 else w in
        let w := add_log (EvClose f) w in
        mret (fo_close f, ffree f w)
  end.

(** The table of the process. *)
Definition table (p : fdproc) (w : fworld) : outcome filedesc := deref (tables w !! p_fd p).

(** Install [f] in slot [i] with flags [fl] (the tail of dup, dup2, F_DUPFD). *)
Definition install (p : fdproc) (i : Z) (f : loc) (fl : Z) (fdp : filedesc) (w : fworld) : outcome fworld :=
  fhold f (set_table (p_fd p) (bump_last i (set_slot i (Some f) fl fdp)) w).

Definition clear_excl (fl : Z) : Z := Z.land fl (Z.lnot UF_EXCLOSE).

(** munmapfd clears the flag. *)
Definition munmapfd (i : Z) (fdp : filedesc) : filedesc :=
  mkFiledesc (fd_ofiles fdp) (alter (fun fl => Z.land fl (Z.lnot UF_MAPPED)) (Z.to_nat i) (fd_ofileflags fdp))
    (fd_lastfile fdp) (fd_freefile fdp) (fd_refcnt fdp).

Definition unmap (i fl : Z) (fdp : filedesc) : filedesc :=
  if Z.land fl UF_MAPPED =? 0 then fdp else munmapfd i fdp.

(** dup2 makes room for [new]: a larger table, or what was there closed. *)
Definition dup2_clear (p : fdproc) (new : Z) (fdp : filedesc) (w : fworld) : outcome (Z * filedesc * fworld) :=
  if fd_nfiles fdp <=? new then
    '(error, i, fdp, _) ← fdalloc fd_fuel (p_nofile p) new fdp false;
    if negb (error =? 0) then mret (error, fdp, w)
    else if negb (new =? i) then Panic "dup2: fdalloc"
    else mret (0, fdp, w)
  else match slot fdp new with
    | Some f' =>
        fl ← deref (fd_ofileflags fdp !! Z.to_nat new);
        let fdp := unmap new fl fdp in
        '(_, w) ← closef p (Some f') w;
        mret (0, fdp, w)
    | None => mret (0, fdp, w)
    end.

Definition dup2 (p : fdproc) (uap_from uap_to : Z) (w : fworld) : outcome (Z * Z * fworld) :=
  fdp ← table p w;
  let old := u32 uap_from in
  let new := u32 uap_to in
  match getfile fdp old with
  | None => mret (EBADF, 0, w)
  | Some f =>
      if (u32 (p_nofile p) <=? new) || (u32 maxfdescs <=? new) then mret (EBADF, 0, w)
      else if old =? new then mret (0, new, w)
      else
        '(error, fdp, w) ← dup2_clear p new fdp w;
        let w := set_table (p_fd p) fdp w in
        if negb (error =? 0) then mret (error, new, w)
        else
          fl ← deref (fd_ofileflags fdp !! Z.to_nat old);
          w ← install p new f (clear_excl fl) fdp w;
          mret (0, new, w)
  end.

Definition dup (p : fdproc) (uap_i uap_to : Z) (w : fworld) : outcome (Z * Z * fworld) :=
  if negb (Z.land (u32 uap_i) (Z.lnot 63) =? 0) then dup2 p (Z.land (u32 uap_i) 63) uap_to w
  else
    fdp ← table p w;
    match getfile fdp uap_i with
    | None => mret (EBADF, 0, w)
    | Some f =>
        '(error, fd, fdp, _) ← fdalloc fd_fuel (p_nofile p) 0 fdp false;
        if negb (error =? 0) then mret (error, 0, set_table (p_fd p) fdp w)
        else
          fl ← deref (fd_ofileflags fdp !! Z.to_nat (u32 uap_i));
          w ← install p fd f (clear_excl fl) fdp w;
          mret (0, fd, w)
    end.

(** *** fcntl

    The error, the value returned, the process (whose SADVLCK flag may be
    set) and the world. *)

Definition result : Type := Z * Z * fdproc * fworld.
Definition fails (error : Z) (p : fdproc) (w : fworld) : outcome result := mret (error, 0, p, w).
Definition set_flag (fl : Z) (fp : file) : file :=
  mkFile (f_count fp) (f_type fp) fl (f_data fp) (f_offset fp).
Definition set_advlck (p : fdproc) : fdproc := mkFdproc (p_fd p) (p_nofile p) true.

(** F_DUPFD.  [pop] was computed before the allocation, which frees the arrays
    it replaces unless they are the ones inside the structure: then the flags
    are read from freed memory. *)
Definition fcntl_dupfd (p : fdproc) (fd : Z) (f : loc) (fdp : filedesc) (arg : Z) (w : fworld)
  : outcome result :=
  if (u32 (p_nofile p) <=? u32 arg) || (u32 maxfdescs <=? u32 arg) then fails EINVAL p w
  else
    '(error, i, fdp', moved) ← fdalloc fd_fuel (p_nofile p) (s32 arg) fdp false;
    if negb (error =? 0) then fails error p (set_table (p_fd p) fdp' w)
    else if (moved : bool) && (NDFILE <? fd_nfiles fdp) then Fault
    else
      fl ← deref (fd_ofileflags fdp !! Z.to_nat fd);
      w ← install p i f (clear_excl fl) fdp' w;
      mret (0, i, p, w).

Definition ioctl (f : loc) (cmd data : Z) (w : fworld) : Z * Z * fworld :=
  let '(error, v) := fo_ioctl f cmd data in (error, v, add_log (EvIoctl f cmd data) w).

(** F_SETFL. *)
Definition fcntl_setfl (p : fdproc) (f : loc) (fp : file) (arg : Z) (w : fworld) : result :=
  let fl := Z.lor (Z.land (f_flag fp) (Z.lnot FCNTLFLAGS)) (Z.land (s32 (arg + 1)) FCNTLFLAGS) in
  let w := set_file f (set_flag (s16 fl) fp) w in
  let '(error, _, w) := ioctl f FIONBIO (Z.land fl FNONBLOCK) w in
  if negb (error =? 0) then (error, 0, p, w)
  else
    let '(error, _, w) := ioctl f FIOASYNC (Z.land fl FASYNC) w in
    if error =? 0 then (0, 0, p, w)
    else
      let w := set_file f (set_flag (s16 (Z.land fl (Z.lnot FNONBLOCK))) fp) w in
      let '(_, _, w) := ioctl f FIONBIO 0 w in
      (error, 0, p, w).

(** F_GETOWN and F_SETOWN. *)
Definition fcntl_getown (p : fdproc) (f : loc) (fp : file) (w : fworld) : result :=
  if f_type fp =? DTYPE_SOCKET then
    (0, so_pgid w (f_data fp), p, w)
  else
    let '(error, v, w) := ioctl f TIOCGPGRP 0 w in
    (error, s32 (- v), p, w).

Definition fcntl_setown (p : fdproc) (f : loc) (fp : file) (arg : Z) (w : fworld) : result :=
  if f_type fp =? DTYPE_SOCKET then
    (0, 0, p, mkFworld (tables w) (files w) (nfiles w)
                     (fun so => if so =? f_data fp then arg else so_pgid w so) (flog w))
  else
    match (if arg <=? 0 then Some (s32 (- arg)) else pgid_of arg) with
    | None => (ESRCH, 0, p, w)
    | Some pg =>
        let '(error, _, w) := ioctl f TIOCSPGRP pg w in
        (error, 0, p, w)
    end.

(** The lock structure of the user, relative to the offset of the file. *)
Definition user_flock (fp : file) (arg : Z) : option flock :=
  fl ← copyin_flock arg;
  mret (if l_whence fl =? SEEK_CUR then mkFlock (l_type fl) SEEK_CUR (l_start fl + f_offset fp) (l_len fl) (l_pid fl) else fl).

(** F_SETLK and F_SETLKW. *)
Definition fcntl_setlk (p : fdproc) (fp : file) (arg flg : Z) (w : fworld) : result :=
  if negb (f_type fp =? DTYPE_VNODE) then (EBADF, 0, p, w)
  else match user_flock fp arg with
  | None => (EFAULT, 0, p, w)
  | Some fl =>
      let set mode :=
        if Z.land (f_flag fp) mode =? 0 then (EBADF, 0, p, w)
        else let '(error, _, w) := advlock (f_data fp) None F_SETLK fl flg w in
             (error, 0, set_advlck p, w) in
      if l_type fl =? F_RDLCK then set FREAD
      else if l_type fl =? F_WRLCK then set FWRITE
      else if l_type fl =? F_UNLCK then
        let '(error, _, w) := advlock (f_data fp) None F_UNLCK fl F_POSIX w in
        (error, 0, p, w)
      else (EINVAL, 0, p, w)
  end.

(** F_GETLK. *)
Definition fcntl_getlk (p : fdproc) (fp : file) (arg : Z) (w : fworld) : result :=
  if negb (f_type fp =? DTYPE_VNODE) then (EBADF, 0, p, w)
  else match user_flock fp arg with
  | None => (EFAULT, 0, p, w)
  | Some fl =>
      let '(error, fl', w) := advlock (f_data fp) None F_GETLK fl F_POSIX w in
      if negb (error =? 0) then (error, 0, p, w)
      else (copyout_flock arg fl', 0, p, w)
  end.

Definition fcntl (p : fdproc) (fd cmd arg : Z) (w : fworld) : outcome result :=
  fdp ← table p w;
  match getfile fdp fd with
  | None => fails EBADF p w
  | Some f =>
      pop ← deref (fd_ofileflags fdp !! Z.to_nat (u32 fd));
      fp ← deref (files w !! f);
      if cmd =? 0 then fcntl_dupfd p (u32 fd) f fdp arg w
      else if cmd =? 1 then mret (0, Z.land pop 1, p, w)
      else if cmd =? 2 then
        mret (0, 0, p, set_table (p_fd p)
          (set_flags (u32 fd) (Z.lor (Z.land pop (Z.lnot 1)) (Z.land arg 1)) fdp) w)
      else if cmd =? 3 then mret (0, f_flag fp - 1, p, w)
      else if cmd =? 4 then mret (fcntl_setfl p f fp arg w)
      else if cmd =? 5 then mret (fcntl_getown p f fp w)
      else if cmd =? 6 then mret (fcntl_setown p f fp arg w)
      else if cmd =? 9 then mret (fcntl_setlk p fp arg (Z.lor F_POSIX F_WAIT) w)
      else if cmd =? 8 then mret (fcntl_setlk p fp arg F_POSIX w)
      else if cmd =? 7 then mret (fcntl_getlk p fp arg w)
      else fails EINVAL p w
  end.

(** *** close, fstat, flock *)

(** [while (fd_lastfile > 0 && fd_ofiles[fd_lastfile] == NULL) fd_lastfile--] *)
Fixpoint trim_last (n : nat) (fdp : filedesc) : outcome filedesc :=
  match n with
  | O => mret fdp
  | S n =>
      if 0 <? fd_lastfile fdp then
        o ← deref (fd_ofiles fdp !! Z.to_nat (fd_lastfile fdp));
        match o with
        | None => trim_last n (set_last (fd_lastfile fdp - 1) fdp)
        | Some _ => mret fdp
        end
      else mret fdp
  end.
Definition trim (fdp : filedesc) : outcome filedesc := trim_last (Z.to_nat (fd_lastfile fdp)) fdp.

Definition lower_free (i : Z) (fdp : filedesc) : filedesc :=
  if i <? fd_freefile fdp then set_free i fdp else fdp.

Definition close (p : fdproc) (uap_fd : Z) (w : fworld) : outcome (Z * fworld) :=
  fdp ← table p w;
  match getfile fdp uap_fd with
  | None => mret (EBADF, w)
  | Some f =>
      let fd := u32 uap_fd in
      pf ← deref (fd_ofileflags fdp !! Z.to_nat fd);
      let fdp := unmap fd pf fdp in
      fdp ← trim (set_ofile fd None fdp);
      let fdp := set_flags fd 0 (lower_free fd fdp) in
      closef p (Some f) (set_table (p_fd p) fdp w)
  end.

Definition fstat (vn_stat soo_stat : Z -> Z) (copyout_stat : Z) (p : fdproc) (fd : Z) (w : fworld) : outcome Z :=
  fdp ← table p w;
  match getfile fdp fd with
  | None => mret EBADF
  | Some f =>
      fp ← deref (files w !! f);
      error ← (if f_type fp =? DTYPE_VNODE then mret (vn_stat (f_data fp))
               else if f_type fp =? DTYPE_SOCKET then mret (soo_stat (f_data fp))
               else Panic "fstat");
      mret (if error =? 0 then copyout_stat else error)
  end.

Definition flock_call (p : fdproc) (fd how : Z) (w : fworld) : outcome (Z * fworld) :=
  fdp ← table p w;
  match getfile fdp fd with
  | None => mret (EBADF, w)
  | Some f =>
      fp ← deref (files w !! f);
      if negb (f_type fp =? DTYPE_VNODE) then mret (EOPNOTSUPP, w)
      else
        let ask fl op type flags :=
          let w := set_file f (set_flag fl fp) w in
          let '(error, _, w) := advlock (f_data fp) (Some f) op (whole type) flags w in
          mret (error, w) in
        if negb (Z.land how 8 =? 0) then
          ask (Z.land (f_flag fp) (Z.lnot FHASLOCK)) F_UNLCK F_UNLCK F_FLOCK
        else
          let set type :=
            ask (Z.lor (f_flag fp) FHASLOCK) F_SETLK type
              (if negb (Z.land how 4 =? 0) then F_FLOCK else Z.lor F_FLOCK F_WAIT) in
          if negb (Z.land how 2 =? 0) then set F_WRLCK
          else if negb (Z.land how 1 =? 0) then set F_RDLCK
          else mret (EBADF, w)
  end.

(** *** New files, and /dev/fd *)

(** A file for the descriptor found; its type, flags and data are what MALLOC
    left there ([junk]): the caller sets them. *)
Definition falloc (junk : file) (p : fdproc) (w : fworld) : outcome (Z * loc * Z * fworld) :=
  fdp ← table p w;
  '(error, i, fdp, _) ← fdalloc fd_fuel (p_nofile p) 0 fdp false;
  let w := set_table (p_fd p) fdp w in
  if negb (error =? 0) then mret (error, 1%positive, 0, w)
  else if maxfiles <=? nfiles w then mret (ENFILE, 1%positive, 0, w)
  else
    let f := new_loc (files w) in
    mret (0, f, i, set_nfiles (nfiles w + 1)
                     (set_table (p_fd p) (set_ofile i (Some f) fdp) (set_file f (mkFile 1 (f_type junk) (f_flag junk) (f_data junk) 0) w))).

(** Opening minor device N: the descriptor sought, and an error. *)
Definition fdopen (minor : Z) : Z * Z := (minor, ENODEV).

Definition dupfdopen (t : loc) (indx dfd mode : Z) (w : fworld) : outcome (Z * fworld) :=
  fdp ← deref (tables w !! t);
  fp ← deref (fd_ofiles fdp !! Z.to_nat indx);
  match getfile fdp dfd with
  | None => mret (EBADF, w)
  | Some wfp =>
      if decide (fp = Some wfp) then mret (EBADF, w)
      else
        wf ← deref (files w !! wfp);
        if negb (Z.lor (Z.land mode (Z.lor FREAD FWRITE)) (f_flag wf) =? f_flag wf) then mret (EACCES, w)
        else
          fl ← deref (fd_ofileflags fdp !! Z.to_nat (u32 dfd));
          w ← fhold wfp (set_table t (bump_last indx (set_slot indx (Some wfp) fl fdp)) w);
          mret (0, w)
  end.

(** The open call (vfs_syscalls.c): its last resort, what it does when vn_open
    fails (a device of /dev/fd is a duplicate) and when it does not. *)
Definition open_forget (p : fdproc) (indx error : Z) (w : fworld) : outcome (Z * Z * fworld) :=
  fdp ← table p w;
  mret (error, 0, set_table (p_fd p) (set_ofile indx None fdp) w).

Definition open_failed (p : fdproc) (f : loc) (indx error p_dupfd fmode : Z) (w : fworld) : outcome (Z * Z * fworld) :=
  let w := ffree f w in
  '(error, w) ← (if (error =? ENODEV) && (0 <=? s16 p_dupfd)
                 then dupfdopen (p_fd p) indx p_dupfd fmode w else mret (error, w));
  if error =? 0 then mret (0, indx, w)
  else open_forget p indx (if error =? ERESTART then EINTR else error) w.

Definition open_opened (p : fdproc) (f : loc) (indx fmode vp : Z) (w : fworld) : outcome (Z * Z * fworld) :=
  fp ← deref (files w !! f);
  let flag := Z.land fmode FMASK in
  let w := set_file f (set_flag flag fp) w in
  let opened fl w :=
    mret (0, indx, set_file f (mkFile (f_count fp) DTYPE_VNODE (s16 fl) vp (f_offset fp)) w) in
  if Z.land fmode 0x30 =? 0 then opened flag w
  else
    let type := if Z.land fmode 0x20 =? 0 then F_RDLCK else F_WRLCK in
    let flags := if Z.land fmode FNONBLOCK =? 0 then Z.lor F_FLOCK F_WAIT else F_FLOCK in
    let '(error, _, w) := advlock vp (Some f) F_SETLK (whole type) flags w in
    if negb (error =? 0) then open_forget p indx error (ffree f (add_log (EvVnclose vp flag) w))
    else opened (Z.lor flag FHASLOCK) w.

(** [vn_open] is given the value p_dupfd has before and the mode, and returns
    the error, p_dupfd and the vnode. *)
Definition open (vn_open : Z -> Z -> Z * Z * Z) (junk : file) (p : fdproc) (mode : Z) (w : fworld)
  : outcome (Z * Z * fworld) :=
  '(error, f, indx, w) ← falloc junk p w;
  if negb (error =? 0) then mret (error, 0, w)
  else
    let fmode := s32 (mode + 1) in
    let '(error, p_dupfd, vp) := vn_open (u16 (- indx - 1)) fmode in
    if negb (error =? 0) then open_failed p f indx error p_dupfd fmode w
    else open_opened p f indx fmode vp w.

(** *** fork, exit and exec *)

(** Line 584: the size of the copy. *)
Fixpoint shrink (fuel : nat) (lastfile i : Z) : Z :=
  match fuel with
  | O => i
  | S fuel => if (2 * NDEXTENT <? i) && (lastfile * 2 <=? i) then shrink fuel lastfile (i / 2) else i
  end.

Definition copy_size (fdp : filedesc) : Z :=
  if fd_lastfile fdp <? NDFILE then NDFILE
  else shrink (Z.to_nat (fd_nfiles fdp)) (fd_lastfile fdp) (fd_nfiles fdp).

(** Lines 593-596: one more reference for each open file among [n] slots. *)
Fixpoint hold_all (n : nat) (ofiles : list (option loc)) (i : nat) (w : fworld) : outcome fworld :=
  match n with
  | O => mret w
  | S n =>
      o ← deref (ofiles !! i);
      w ← match o with Some f => fhold f w | None => mret w end;
      hold_all n ofiles (S i) w
  end.

(** The copy of the table of the process, at a new address. *)
Definition fdcopy (p : fdproc) (w : fworld) : outcome (loc * fworld) :=
  fdp ← table p w;
  let i := Z.to_nat (copy_size fdp) in
  let newfdp := mkFiledesc (take i (fd_ofiles fdp)) (take i (fd_ofileflags fdp))
                  (fd_lastfile fdp) (fd_freefile fdp) 1 in
  let t := new_loc (tables w) in
  w ← hold_all (Z.to_nat (fd_lastfile fdp + 1)) (fd_ofiles newfdp) 0 (set_table t newfdp w);
  mret (t, w).

(** The loop of fdfree over the slots from [i]. *)
Fixpoint close_all (n : nat) (p : fdproc) (i : nat) (w : fworld) : outcome fworld :=
  match n with
  | O => mret w
  | S n =>
      fdp ← table p w;
      o ← deref (fd_ofiles fdp !! i);
      w ← match o with
          | None => mret w
          | Some f =>
              fl ← deref (fd_ofileflags fdp !! i);
              '(_, w) ← closef p (Some f) (set_table (p_fd p) (unmap (Z.of_nat i) fl fdp) w);
              mret w
          end;
      close_all n p (S i) w
  end.

Definition fdfree (p : fdproc) (w : fworld) : outcome fworld :=
  fdp ← table p w;
  let n := u16 (fd_refcnt fdp - 1) in
  let w := set_table (p_fd p) (mkFiledesc (fd_ofiles fdp) (fd_ofileflags fdp)
             (fd_lastfile fdp) (fd_freefile fdp) n) w in
  if 0 <? n then mret w
  else
    w ← close_all (Z.to_nat (fd_lastfile fdp + 1)) p 0 w;
    mret (mkFworld (delete (p_fd p) (tables w)) (files w) (nfiles w) (so_pgid w) (flog w)).

(** The loop of fdcloseexec. *)
Fixpoint close_exec (n : nat) (p : fdproc) (i : nat) (w : fworld) : outcome fworld :=
  match n with
  | O => mret w
  | S n =>
      fdp ← table p w;
      o ← deref (fd_ofiles fdp !! i);
      w ← match o with
          | Some f =>
              fl ← deref (fd_ofileflags fdp !! i);
              if Z.land fl UF_EXCLOSE =? 0 then mret w
              else
                '(_, w) ← closef p (Some f) (set_table (p_fd p) (unmap (Z.of_nat i) fl fdp) w);
                fdp ← table p w;
                mret (set_table (p_fd p) (lower_free (Z.of_nat i) (set_slot (Z.of_nat i) None 0 fdp)) w)
          | None => mret w
          end;
      close_exec n p (S i) w
  end.

Definition fdcloseexec (p : fdproc) (w : fworld) : outcome fworld :=
  fdp ← table p w;
  w ← close_exec (Z.to_nat (fd_lastfile fdp + 1)) p 0 w;
  fdp ← table p w;
  fdp ← trim fdp;
  mret (set_table (p_fd p) fdp w).
End Calls.

Definition getdtablesize (p : fdproc) : Z := s32 (p_nofile p).

(** ** What processes do with descriptors *)

Inductive fdevent :=
  | EDup (i to : Z)
  | EDup2 (from to : Z)
  | EFcntl (fd cmd arg : Z)
  | EClose (fd : Z)
  | EFlock (fd how : Z)
  | EOpen (mode : Z)
  | EFork
  | EExit
  | EExec.

Section Events.
Variables (fo_close : loc -> Z) (fo_ioctl : loc -> Z -> Z -> Z * Z).
Variable vop_advlock : Z -> option loc -> Z -> flock -> Z -> Z * flock.
Variables (copyin_flock : Z -> option flock) (copyout_flock : Z -> flock -> Z).
Variable pgid_of : Z -> option Z.
Variable vn_open : Z -> Z -> Z * Z * Z.
Variable junk : file.
Variables (maxfdescs maxfiles : Z).

(** An event of the process [p]. *)
Definition run_fd (p : fdproc) (ev : fdevent) (w : fworld) : outcome fworld :=
  match ev with
  | EDup i to => '(_, _, w) ← dup fo_close vop_advlock maxfdescs p i to w; mret w
  | EDup2 from to => '(_, _, w) ← dup2 fo_close vop_advlock maxfdescs p from to w; mret w
  | EFcntl fd cmd arg =>
      '(_, _, _, w) ← fcntl fo_ioctl vop_advlock copyin_flock copyout_flock pgid_of maxfdescs p fd cmd arg w; mret w
  | EClose fd => '(_, w) ← close fo_close vop_advlock p fd w; mret w
  | EFlock fd how => '(_, w) ← flock_call vop_advlock p fd how w; mret w
  | EOpen mode => '(_, _, w) ← open vop_advlock maxfiles vn_open junk p mode w; mret w
  | EFork => '(_, w) ← fdcopy p w; mret w
  | EExit => fdfree fo_close vop_advlock p w
  | EExec => fdcloseexec fo_close vop_advlock p w
  end.
End Events.

(** ** Well-formed tables *)

Record wf (fdp : filedesc) : Prop := mkWf {
  wf_flags : length (fd_ofileflags fdp) = length (fd_ofiles fdp);
  wf_size : NDFILE <= fd_nfiles fdp <= 131072;
  wf_last : 0 <= fd_lastfile fdp < fd_nfiles fdp;
  wf_last16 : fd_lastfile fdp < 65536;
  wf_free : 0 <= fd_freefile fdp < 65536;
  wf_below : forall i, 0 <= i < fd_freefile fdp -> slot fdp i <> None;
  wf_above : forall i f, slot fdp i = Some f -> i <= fd_lastfile fdp;
}.

Lemma slot_range fdp i f : slot fdp i = Some f -> 0 <= i < fd_nfiles fdp.
Proof.
  unfold slot, fd_nfiles. case_if; [|done].
  destruct (fd_ofiles fdp !! Z.to_nat i) as [o|] eqn:E; [|done].
  intros _. apply lookup_lt_Some in E. lia.
Qed.

Lemma slot_lookup fdp i : 0 <= i < fd_nfiles fdp -> fd_ofiles fdp !! Z.to_nat i = Some (slot fdp i).
Proof.
  intros Hi. unfold slot. rewrite (proj2 (Z.leb_le _ _)) by lia.
  destruct (lookup_lt_is_Some_2 (fd_ofiles fdp) (Z.to_nat i)) as [o Ho]; [unfold fd_nfiles in Hi; lia|].
  by rewrite Ho.
Qed.

Lemma slot_out fdp i : fd_nfiles fdp <= i -> slot fdp i = None.
Proof. intros Hi. destruct (slot fdp i) eqn:E; [|done]. apply slot_range in E. lia. Qed.

Lemma slot_ext fdp fdp' i : fd_ofiles fdp' = fd_ofiles fdp -> slot fdp' i = slot fdp i.
Proof. unfold slot. by intros ->. Qed.

Lemma flag_lookup fdp i : wf fdp -> 0 <= i < fd_nfiles fdp ->
  exists fl, fd_ofileflags fdp !! Z.to_nat i = Some fl.
Proof.
  intros Hw Hi. apply lookup_lt_is_Some_2. rewrite (wf_flags _ Hw). unfold fd_nfiles in Hi. lia.
Qed.

Lemma freefile_le fdp : wf fdp -> fd_freefile fdp <= fd_lastfile fdp + 1.
Proof.
  intros Hw. pose proof (wf_last _ Hw). destruct (decide (fd_freefile fdp = 0)); [lia|].
  destruct (slot fdp (fd_freefile fdp - 1)) eqn:E.
  - apply (wf_above _ Hw) in E. lia.
  - exfalso. apply (wf_below _ Hw (fd_freefile fdp - 1)); [pose proof (wf_free _ Hw); lia|done].
Qed.

Lemma getfile_spec fdp fd f : getfile fdp fd = Some f ->
  0 <= u32 fd < fd_nfiles fdp /\ slot fdp (u32 fd) = Some f.
Proof.
  unfold getfile. case_if; [done|]. intros E. split; [|done]. by apply slot_range in E.
Qed.

(** The set of slots after an update. *)
Lemma slot_insert fdp i o l : 0 <= i < fd_nfiles fdp -> fd_ofiles l = <[Z.to_nat i := o]> (fd_ofiles fdp) ->
  forall j, slot l j = if decide (j = i) then o else slot fdp j.
Proof.
  intros Hi Hl j. unfold slot. rewrite Hl. case_decide as Hj.
  - subst j. rewrite (proj2 (Z.leb_le _ _)) by lia. rewrite list_lookup_insert_eq; [done|].
    unfold fd_nfiles in Hi. lia.
  - case_if; [|done]. by rewrite list_lookup_insert_ne by lia.
Qed.

Lemma nfiles_insert fdp i o l : fd_ofiles l = <[Z.to_nat i := o]> (fd_ofiles fdp) ->
  fd_nfiles l = fd_nfiles fdp.
Proof. intros Hl. unfold fd_nfiles. by rewrite Hl, length_insert. Qed.

(** *** Growing *)

Lemma expand_slot fdp i : slot (fd_expand fdp) i = slot fdp i.
Proof.
  unfold slot. cbn. case_if; [|done].
  destruct (decide (Z.to_nat i < length (fd_ofiles fdp))%nat).
  - by rewrite lookup_app_l by lia.
  - rewrite lookup_app_r by lia. rewrite (lookup_ge_None_2 (fd_ofiles fdp)) by lia.
    destruct (replicate _ _ !! _) eqn:E; [|done]. apply lookup_replicate in E as [-> _]. done.
Qed.

Lemma expand_flags fdp i : default 0 (fd_ofileflags (fd_expand fdp) !! i) = default 0 (fd_ofileflags fdp !! i).
Proof.
  unfold fd_expand. cbn [fd_ofileflags]. destruct (decide (i < length (fd_ofileflags fdp))%nat).
  - by rewrite lookup_app_l by lia.
  - rewrite lookup_app_r by lia. rewrite (lookup_ge_None_2 (fd_ofileflags fdp)) by lia.
    destruct (replicate _ _ !! _) eqn:E; [|done]. apply lookup_replicate in E as [-> _]. done.
Qed.

Lemma expand_nfiles fdp : 0 <= fd_nfiles fdp ->
  fd_nfiles (fd_expand fdp) = if fd_nfiles fdp <? NDEXTENT then NDEXTENT else 2 * fd_nfiles fdp.
Proof.
  intros Hn. unfold fd_nfiles at 1. cbn. rewrite length_app, length_replicate.
  unfold fd_nfiles, NDEXTENT in *. case_if; lia.
Qed.

Lemma expand_wf fdp : wf fdp -> fd_nfiles fdp < 65536 -> wf (fd_expand fdp).
Proof.
  intros Hw Hn. pose proof (wf_size _ Hw). pose proof (expand_nfiles fdp). destruct Hw.
  assert (fd_nfiles fdp < fd_nfiles (fd_expand fdp) <= 131072).
  { unfold NDFILE, NDEXTENT in *. case_if; lia. }
  split; cbn [fd_lastfile fd_freefile fd_expand] in *; try lia.
  - cbn. rewrite !length_app, !length_replicate. congruence || (rewrite wf_flags0; lia).
  - intros i Hi. rewrite expand_slot. auto.
  - intros i f. rewrite expand_slot. apply wf_above0.
Qed.

(** *** Searching *)

Lemma fd_search_spec n fdp i : 0 <= i -> i + Z.of_nat n <= fd_nfiles fdp \/ n = O ->
  (exists j, fd_search n (fd_ofiles fdp) i = Ok (Some j) /\ i <= j < i + Z.of_nat n /\ slot fdp j = None /\
     forall k, i <= k < j -> slot fdp k <> None) \/
  (fd_search n (fd_ofiles fdp) i = Ok None /\ forall k, i <= k < i + Z.of_nat n -> slot fdp k <> None).
Proof.
  revert i; induction n as [|n IH]; intros i Hi Hn; cbn [fd_search].
  { right. split; [done|]. intros. lia. }
  rewrite slot_lookup by lia. cbn. destruct (slot fdp i) as [f|] eqn:E.
  - destruct (IH (i + 1)) as [(j & -> & Hj & Hs & Hk)|[-> Hk]]; [lia|lia|left|right].
    + exists j. split; [done|]. split; [lia|]. split; [done|]. intros k Hk'.
      destruct (decide (k = i)) as [->|]; [congruence|]. apply Hk. lia.
    + split; [done|]. intros k Hk'. destruct (decide (k = i)) as [->|]; [congruence|]. apply Hk. lia.
  - left. exists i. split; [done|]. split; [lia|]. split; [done|]. intros. lia.
Qed.

(** *** References in a table *)

Definition occ (f : loc) (l : list (option loc)) : nat := length (filter (fun o => o = Some f) l).
Definition ind (f : loc) (o : option loc) : nat := if decide (o = Some f) then 1 else 0.

Lemma occ_cons f o l : occ f (o :: l) = (ind f o + occ f l)%nat.
Proof. unfold occ, ind. rewrite filter_cons. case_decide; cbn; lia. Qed.
Lemma occ_app f l k : occ f (l ++ k) = (occ f l + occ f k)%nat.
Proof. induction l as [|o l IH]; cbn [app]; rewrite ?occ_cons; [done|lia]. Qed.
Lemma occ_none f l : (forall o, o ∈ l -> o <> Some f) -> occ f l = 0%nat.
Proof.
  induction l as [|o l IH]; intros Hl; [done|]. rewrite occ_cons, IH by (intros; apply Hl; by right).
  unfold ind. rewrite decide_False; [done|]. apply Hl. by left.
Qed.
Lemma occ_replicate f n : occ f (replicate n None) = 0%nat.
Proof. apply occ_none. intros o Ho. by apply elem_of_replicate in Ho as [-> _]. Qed.
Lemma occ_insert f l i o o' : l !! i = Some o -> (occ f (<[i := o']> l) + ind f o = occ f l + ind f o')%nat.
Proof.
  revert i. induction l as [|x l IH]; intros [|i] Hi; try done; cbn in Hi.
  - injection Hi as ->. change (<[0%nat := o']> (o :: l)) with (o' :: l). rewrite !occ_cons. lia.
  - change (<[S i := o']> (x :: l)) with (x :: <[i := o']> l). rewrite !occ_cons. specialize (IH i Hi). lia.
Qed.
Lemma occ_lookup f l i : l !! i = Some (Some f) -> (1 <= occ f l)%nat.
Proof.
  intros Hi. pose proof (occ_insert f l i _ None Hi) as E. unfold ind in E.
  rewrite decide_True, decide_False in E by done. lia.
Qed.

(** A table with the same descriptors, perhaps larger. *)
Record grown (fdp fdp' : filedesc) : Prop := {
  grown_slot : forall j, slot fdp' j = slot fdp j;
  grown_size : fd_nfiles fdp <= fd_nfiles fdp';
  grown_occ : forall f, occ f (fd_ofiles fdp') = occ f (fd_ofiles fdp);
}.

Lemma expand_grown fdp : 0 <= fd_nfiles fdp -> grown fdp (fd_expand fdp).
Proof.
  intros Hn. split; [apply expand_slot| |].
  - rewrite expand_nfiles by done. unfold NDEXTENT. case_if; lia.
  - intros f. unfold fd_expand. cbn [fd_ofiles]. rewrite occ_app, occ_replicate. lia.
Qed.

Lemma grown_trans a b c : grown a b -> grown b c -> grown a c.
Proof.
  intros [? ? ?] [? ? ?]. split; intros; try (etrans; eauto; done); lia || congruence.
Qed.

(** ** fdalloc *)

(** The descriptor found at [i]: its flags are cleared, the hints updated. *)
Definition found (want i : Z) (fdp : filedesc) : filedesc :=
  let fdp := bump_last i (set_flags i 0 fdp) in
  if want <=? fd_freefile fdp then set_free i fdp else fdp.

Lemma found_ofiles want i fdp : fd_ofiles (found want i fdp) = fd_ofiles fdp.
Proof. unfold found, bump_last. cbn. repeat case_if; done. Qed.

Lemma found_flags want i fdp : fd_ofileflags (found want i fdp) = <[Z.to_nat i := 0]> (fd_ofileflags fdp).
Proof. unfold found, bump_last. cbn. repeat case_if; done. Qed.

Lemma found_last want i fdp : 0 <= i < 65536 -> fd_lastfile (found want i fdp) = Z.max i (fd_lastfile fdp).
Proof. intros Hi. unfold found, bump_last. cbn. repeat case_if; cbn; rewrite ?u16_id by lia; lia. Qed.

Lemma found_free want i fdp : 0 <= i < 65536 ->
  fd_freefile (found want i fdp) = if want <=? fd_freefile fdp then i else fd_freefile fdp.
Proof. intros Hi. unfold found, bump_last. cbn. repeat case_if; cbn in *; rewrite ?u16_id by lia; bool_prop; lia. Qed.

Lemma found_grown want i fdp : grown fdp (found want i fdp).
Proof.
  split; intros; unfold slot, fd_nfiles; by rewrite ?found_ofiles.
Qed.

Lemma found_wf want i fdp : wf fdp -> 0 <= i < 65536 -> i < fd_nfiles fdp -> 
  (forall j, Z.max want (fd_freefile fdp) <= j < i -> slot fdp j <> None) -> wf (found want i fdp).
Proof.
  intros Hw Hi Hn Hs. pose proof (found_grown want i fdp) as [Hg _ _]. destruct Hw.
  assert (En : fd_nfiles (found want i fdp) = fd_nfiles fdp) by (unfold fd_nfiles; by rewrite found_ofiles).
  split; rewrite ?En, ?found_last, ?found_free by done; try lia.
  - rewrite found_flags, found_ofiles, length_insert. done.
  - case_if; lia.
  - intros j Hj. rewrite Hg. case_if; [|auto].
    destruct (decide (j < fd_freefile fdp)); [apply wf_below0|apply Hs]; lia.
  - intros j f. rewrite Hg. intros E. apply wf_above0 in E. lia.
Qed.

(** What an allocation promises. *)
Record alloc_ok (lim want : Z) (fdp : filedesc) (e i : Z) (fdp' : filedesc) (moved : bool) : Prop := {
  alloc_wf : wf fdp';
  alloc_grown : grown fdp fdp';
  alloc_flags : forall j, (j < length (fd_ofileflags fdp'))%nat ->
    fd_ofileflags fdp' !! j = Some (if decide (e = 0 /\ j = Z.to_nat i) then 0 else default 0 (fd_ofileflags fdp !! j));
  alloc_res :
    (e = 0 /\ want <= i < lim /\ slot fdp i = None /\ i < fd_nfiles fdp' /\ i <= fd_lastfile fdp' /\
       forall j, want <= j < i -> slot fdp j <> None) \/
    (e = EMFILE /\ forall j, want <= j < lim -> slot fdp j <> None);
  alloc_moved : moved = true <-> fd_nfiles fdp < lim /\ forall j, want <= j < fd_nfiles fdp -> slot fdp j <> None;
}.

Definition floor (n : Z) : Z := if n <? NDEXTENT then 10 else n.

Lemma floor_le n : 20 <= n -> floor n <= n.
Proof. intros Hn. unfold floor, NDEXTENT. case_if; lia. Qed.

Lemma floor_expand fdp : 20 <= fd_nfiles fdp -> 2 * floor (fd_nfiles fdp) <= floor (fd_nfiles (fd_expand fdp)).
Proof.
  intros Hn. rewrite expand_nfiles by lia. unfold floor, NDEXTENT. destruct (_ <? 50) eqn:E; bool_prop.
  - cbn. lia.
  - rewrite (proj2 (Z.ltb_ge _ _)); lia.
Qed.

Lemma alloc_expand lim want fdp e i fdp' mv : wf fdp -> fd_nfiles fdp < lim <= 65536 ->
  (forall j, want <= j < fd_nfiles fdp -> slot fdp j <> None) ->
  alloc_ok lim want (fd_expand fdp) e i fdp' mv -> alloc_ok lim want fdp e i fdp' true.
Proof.
  intros Hw Hn Hu [H1 H2 H3 H4 H5]. pose proof (wf_size _ Hw).
  split; [done| | | |].
  - eapply grown_trans; [|done]. apply expand_grown. unfold NDFILE in *. lia.
  - intros j Hj. by rewrite <- expand_flags, H3.
  - destruct H4 as [(? & ? & E & ? & ? & Hs)|[? Hs]]; [left|right].
    + rewrite expand_slot in E. split_and!; try done; [lia|lia|]. intros j Hj. rewrite <- expand_slot. by apply Hs.
    + split; [done|]. intros j Hj. rewrite <- expand_slot. by apply Hs.
  - split; [|done]. intros _. split; [lia|done].
Qed.

Lemma search_range lim want fdp : wf fdp -> 0 <= want -> 0 <= lim <= 65536 ->
  s32 (Z.min (u32 (fd_nfiles fdp)) (u32 lim)) = Z.min (fd_nfiles fdp) lim /\
  (if want <? fd_freefile fdp then fd_freefile fdp else want) = Z.max want (fd_freefile fdp).
Proof.
  intros Hw Hwant Hlim. pose proof (wf_size _ Hw) as Hs. unfold NDFILE in Hs.
  rewrite !u32_id by lia. rewrite s32_id by lia. split; [done|]. case_if; lia.
Qed.

(** The slots the search passed over are all in use. *)
Lemma passed want hi fdp : wf fdp ->
  (forall k, Z.max want (fd_freefile fdp) <= k < hi -> slot fdp k <> None) ->
  forall k, 0 <= want <= k /\ k < hi -> slot fdp k <> None.
Proof.
  intros Hw Hk k Hk'. destruct (decide (k < fd_freefile fdp)); [apply (wf_below _ Hw)|apply Hk]; lia.
Qed.

Lemma found_ok lim want fdp i : wf fdp -> 0 <= want -> want <= i -> i < lim <= 65536 ->
  i < fd_nfiles fdp -> slot fdp i = None -> (forall k, 0 <= want <= k /\ k < i -> slot fdp k <> None) ->
  alloc_ok lim want fdp 0 i (found want i fdp) false.
Proof.
  intros Hw Hwant Hi Hlim Hn Hs Hk. pose proof (wf_free _ Hw). split.
  - apply found_wf; [done|lia|lia|]. intros j Hj. apply Hk. lia.
  - apply found_grown.
  - intros j. rewrite found_flags, length_insert. intros Hj. case_decide as Hd.
    + destruct Hd as [_ ->]. by apply list_lookup_insert_eq.
    + rewrite list_lookup_insert_ne; [|intros <-; by apply Hd].
      by destruct (lookup_lt_is_Some_2 _ _ Hj) as [fl ->].
  - left. rewrite found_last by lia. unfold fd_nfiles at 1. rewrite found_ofiles. fold (fd_nfiles fdp).
    split; [done|]. split; [lia|]. split; [done|]. split; [done|]. split; [lia|]. intros j Hj. apply Hk. lia.
  - split; [done|]. intros [_ Hu]. exfalso. by apply (Hu i).
Qed.

Lemma full_ok lim want fdp : wf fdp -> 0 <= want -> lim <= fd_nfiles fdp ->
  (forall k, 0 <= want <= k /\ k < lim -> slot fdp k <> None) ->
  alloc_ok lim want fdp EMFILE 0 fdp false.
Proof.
  intros Hw Hwant Hlim Hk. split; [done|by split| | |].
  - intros j Hj. rewrite decide_False by (by intros [? _]).
    by destruct (lookup_lt_is_Some_2 _ _ Hj) as [fl ->].
  - right. split; [done|]. intros. apply Hk. lia.
  - split; [done|]. intros [? _]. lia.
Qed.

Lemma fdalloc_ok fuel lim want fdp moved : wf fdp -> 0 <= want -> 0 <= lim <= 65536 ->
  lim <= floor (fd_nfiles fdp) * 2 ^ Z.of_nat fuel ->
  exists e i fdp' mv, fdalloc (S fuel) lim want fdp moved = Ok (e, i, fdp', moved || mv) /\
    alloc_ok lim want fdp e i fdp' mv.
Proof.
  remember (S fuel) as k eqn:Ek. revert fuel Ek fdp moved.
  induction k as [|k IH]; intros fuel Ek fdp moved Hw Hwant Hlim Hfuel; [done|].
  injection Ek as ->. destruct (search_range lim want fdp Hw Hwant Hlim) as [El Ei].
  pose proof (wf_size _ Hw) as Hsz. pose proof (wf_free _ Hw). unfold NDFILE in Hsz.
  pose proof (freefile_le _ Hw). pose proof (wf_last _ Hw).
  cbn [fdalloc]. rewrite El, Ei.
  edestruct (fd_search_spec (Z.to_nat (Z.min (fd_nfiles fdp) lim - Z.max want (fd_freefile fdp))) fdp
    (Z.max want (fd_freefile fdp))) as [(i & -> & Hi & Hs & Hk)|[-> Hk]]; [lia|lia| |]; cbn [mbind outcome_bind].
  - exists 0, i, (found want i fdp), false. rewrite orb_false_r. split; [done|].
    apply found_ok; try done; try lia. apply passed; [done|]. intros; apply Hk; lia.
  - assert (Hp : forall k, 0 <= want <= k /\ k < Z.min (fd_nfiles fdp) lim -> slot fdp k <> None)
      by (apply passed; [done|]; intros; apply Hk; lia).
    destruct (Z.leb_spec lim (fd_nfiles fdp)) as [Hle|Hlt].
    + exists EMFILE, 0, fdp, false. rewrite orb_false_r. split; [done|]. apply full_ok; try done.
      intros; apply Hp; lia.
    + destruct fuel as [|fuel]; [pose proof (floor_le (fd_nfiles fdp)); lia|].
      destruct (IH fuel eq_refl (fd_expand fdp) true) as (e & i & fdp' & mv & E & Ha); try done.
      * apply expand_wf; [done|lia].
      * rewrite Nat2Z.inj_succ, Z.pow_succ_r in Hfuel by lia.
        pose proof (floor_expand fdp). nia.
      * exists e, i, fdp', true. rewrite orb_true_r. split; [exact E|].
        eapply alloc_expand; [done|lia| |done]. intros; apply Hp; lia.
Qed.

Lemma fdalloc_enough lim want fdp : wf fdp -> 0 <= want -> 0 <= lim <= 65536 ->
  exists e i fdp' mv, fdalloc fd_fuel lim want fdp false = Ok (e, i, fdp', mv) /\ alloc_ok lim want fdp e i fdp' mv.
Proof.
  intros Hw Hwant Hlim.
  destruct (fdalloc_ok 31 lim want fdp false) as (e & i & fdp' & mv & E & Ha); [done..| |].
  - assert (10 <= floor (fd_nfiles fdp)) by (unfold floor, NDEXTENT; case_if; lia).
    change (2 ^ Z.of_nat 31) with 2147483648. lia.
  - exists e, i, fdp', mv. done.
Qed.

Lemma alloc_flag lim want fdp e i fdp' mv j : wf fdp -> alloc_ok lim want fdp e i fdp' mv ->
  0 <= j < fd_nfiles fdp -> (e = 0 -> Z.to_nat j <> Z.to_nat i) ->
  fd_ofileflags fdp' !! Z.to_nat j = fd_ofileflags fdp !! Z.to_nat j.
Proof.
  intros Hw [Hw' Hg Hf _ _] Hj Hne. destruct (flag_lookup fdp j Hw Hj) as [fl Hfl].
  rewrite Hf, Hfl, decide_False; [done| |].
  - intros [He Hi]. by apply Hne.
  - rewrite (wf_flags _ Hw'). pose proof (grown_size _ _ Hg). unfold fd_nfiles in *. lia.
Qed.

(** [fdalloc] never runs off the table and never loops: it finds the least
    descriptor at or above [want] and below the limit that is not open, growing
    the table when it is beyond its end, clears its flags and leaves every
    other descriptor alone; it fails with EMFILE exactly when all of them are
    open. *)
Theorem fdalloc_spec lim want fdp : wf fdp -> 0 <= want -> 0 <= lim <= 65536 ->
  exists e i fdp' mv, fdalloc fd_fuel lim want fdp false = Ok (e, i, fdp', mv) /\ wf fdp' /\
    (forall j, slot fdp' j = slot fdp j) /\
    ((e = 0 /\ want <= i < lim /\ slot fdp i = None /\ i < fd_nfiles fdp' /\
       fd_ofileflags fdp' !! Z.to_nat i = Some 0 /\ forall j, want <= j < i -> slot fdp j <> None) \/
     (e = EMFILE /\ forall j, want <= j < lim -> slot fdp j <> None)).
Proof.
  intros Hw Hwant Hlim. destruct (fdalloc_enough lim want fdp) as (e & i & fdp' & mv & E & Ha); [done..|].
  exists e, i, fdp', mv. split; [done|]. destruct Ha as [Hw' Hg Hf Hr _]. split; [done|].
  split; [apply (grown_slot _ _ Hg)|]. destruct Hr as [(-> & Hi & Hs & Hn & Hl & Hk)|?]; [left|by right].
  split_and!; try done; try lia. rewrite Hf, decide_True; [done|done|].
  rewrite (wf_flags _ Hw'). unfold fd_nfiles in Hn. lia.
Qed.

(** ** Reference counts *)

(** References to a file from all descriptor tables, and its count. *)
Definition refs (f : loc) (w : fworld) : nat := sum_map (fun fdp => occ f (fd_ofiles fdp)) (tables w).
Definition cnt (f : loc) (w : fworld) : Z :=
  match files w !! f with Some fp => f_count fp | None => 0 end.
Definition at_file (f g : loc) : Z := if decide (f = g) then 1 else 0.

(** The counts are the references and [ex] more (or less), in the middle of a
    call; a file that exists has a positive count. *)
Record bal (ex : loc -> Z) (w : fworld) : Prop := mkBal {
  bal_cnt : forall f, cnt f w = Z.of_nat (refs f w) + ex f;
  bal_live : forall f fp, files w !! f = Some fp -> 0 < f_count fp < 2 ^ 15;
}.

Lemma bal_ext ex ex' w : (forall g, ex' g = ex g) -> bal ex w -> bal ex' w.
Proof. intros E [H1 H2]. split; [|done]. intros f. by rewrite E. Qed.

Lemma bal_log ex w w' : tables w' = tables w -> files w' = files w -> bal ex w -> bal ex w'.
Proof.
  intros Et Ef [H1 H2]. split; unfold cnt, refs; rewrite ?Et, ?Ef; [apply H1|apply H2].
Qed.

Lemma bal_set_table ex w t fdp fdp' : tables w !! t = Some fdp -> bal ex w ->
  bal (fun g => ex g + Z.of_nat (occ g (fd_ofiles fdp)) - Z.of_nat (occ g (fd_ofiles fdp'))) (set_table t fdp' w).
Proof.
  intros Ht [H1 H2]. split; [|done]. intros f. change (cnt f (set_table t fdp' w)) with (cnt f w).
  rewrite H1. unfold refs, set_table; cbn [tables].
  pose proof (sum_map_insert (fun fdp => occ f (fd_ofiles fdp)) _ _ _ fdp' Ht). cbn in *. lia.
Qed.

Lemma cnt_some f w : 1 <= cnt f w -> exists fp, files w !! f = Some fp /\ f_count fp = cnt f w.
Proof. unfold cnt. destruct (files w !! f); [eauto|lia]. Qed.

(** A reference from a table keeps the file alive. *)
Lemma slot_refs w t fdp i f : tables w !! t = Some fdp -> slot fdp i = Some f ->
  (1 <= occ f (fd_ofiles fdp) <= refs f w)%nat.
Proof.
  intros Ht Hs. split.
  - pose proof (slot_range _ _ _ Hs) as Hr. apply slot_lookup in Hr. rewrite Hs in Hr. by eapply occ_lookup.
  - apply (sum_map_ge (fun fdp => occ f (fd_ofiles fdp)) _ _ _ Ht).
Qed.

Lemma bal_set_file ex w f fp fp' : files w !! f = Some fp -> 0 < f_count fp' < 2 ^ 15 -> bal ex w ->
  bal (fun g => ex g + (f_count fp' - f_count fp) * at_file f g) (set_file f fp' w).
Proof.
  intros Hf Hc [H1 H2]. split.
  - intros g. change (refs g (set_file f fp' w)) with (refs g w). specialize (H1 g).
    unfold cnt, at_file in *. cbn. case_decide as Hd.
    + subst g. rewrite lookup_insert_eq. rewrite Hf in H1. lia.
    + rewrite lookup_insert_ne by done. lia.
  - intros g gp. cbn. destruct (decide (f = g)) as [<-|]; [rewrite lookup_insert_eq; by intros [= <-]|].
    rewrite lookup_insert_ne by done. apply H2.
Qed.

Lemma fhold_ok ex f w : bal ex w -> 1 <= cnt f w < 2 ^ 15 - 1 ->
  exists w', fhold f w = Ok w' /\ tables w' = tables w /\ bal (fun g => ex g + at_file f g) w'.
Proof.
  intros Hb Hc. destruct (cnt_some f w) as (fp & Hf & Ec); [lia|]. unfold fhold. rewrite Hf.
  cbn [mbind outcome_bind deref mret outcome_ret]. rewrite s16_id by lia. eexists. split; [done|]. split; [done|].
  eapply bal_ext; [|eapply bal_set_file; [done| |done]].
  - intros g. cbn. unfold at_file. case_decide; lia.
  - cbn. lia.
Qed.

Lemma bal_ffree ex w f fp : files w !! f = Some fp -> f_count fp = 1 -> bal ex w ->
  bal (fun g => ex g - at_file f g) (ffree f w).
Proof.
  intros Hf Hc [H1 H2]. split.
  - intros g. change (refs g (ffree f w)) with (refs g w). specialize (H1 g).
    unfold cnt, at_file in *. cbn. case_decide as Hd.
    + subst g. rewrite lookup_delete_eq. rewrite Hf in H1. lia.
    + rewrite lookup_delete_ne by done. lia.
  - intros g gp. cbn. rewrite lookup_delete_Some. intros [_ Hg]. by eapply H2.
Qed.

(** *** Tables with a slot filled *)

Definition put (i : Z) (f : loc) (fl : Z) (fdp : filedesc) : filedesc := bump_last i (set_slot i (Some f) fl fdp).

Lemma put_ofiles i f fl fdp : fd_ofiles (put i f fl fdp) = <[Z.to_nat i := Some f]> (fd_ofiles fdp).
Proof. unfold put, bump_last. case_if; done. Qed.

Lemma put_flags i f fl fdp : fd_ofileflags (put i f fl fdp) = <[Z.to_nat i := fl]> (fd_ofileflags fdp).
Proof. unfold put, bump_last. case_if; done. Qed.

Lemma put_slot i f fl fdp j : 0 <= i < fd_nfiles fdp ->
  slot (put i f fl fdp) j = if decide (j = i) then Some f else slot fdp j.
Proof. intros Hi. by apply slot_insert; [|apply put_ofiles]. Qed.

Lemma put_wf i f fl fdp : wf fdp -> 0 <= i < fd_nfiles fdp -> i < 65536 -> wf (put i f fl fdp).
Proof.
  intros Hw Hi H16. assert (En := nfiles_insert fdp i _ _ (put_ofiles i f fl fdp)).
  assert (El : fd_lastfile (put i f fl fdp) = Z.max i (fd_lastfile fdp)).
  { unfold put, bump_last. cbn. case_if; cbn; rewrite ?u16_id by lia; lia. }
  assert (Ef : fd_freefile (put i f fl fdp) = fd_freefile fdp) by (unfold put, bump_last; case_if; done).
  destruct Hw. split; rewrite ?En, ?El, ?Ef; try lia.
  - by rewrite put_flags, put_ofiles, !length_insert.
  - intros j Hj. rewrite put_slot by done. case_decide; [done|auto].
  - intros j g. rewrite put_slot by done. case_decide; [lia|]. intros E. apply wf_above0 in E. lia.
Qed.

(** Two slots with the same file. *)
Lemma occ_two fdp i j f : slot fdp j = Some f -> i <> j -> 0 <= i < fd_nfiles fdp ->
  (1 + ind f (slot fdp i) <= occ f (fd_ofiles fdp))%nat.
Proof.
  intros Hj Hij Hi. pose proof (slot_range _ _ _ Hj) as Hlt. pose proof (slot_lookup _ _ Hlt) as Hr. rewrite Hj in Hr.
  pose proof (occ_insert f _ _ _ None (slot_lookup fdp i Hi)) as E.
  assert (1 <= occ f (<[Z.to_nat i := None]> (fd_ofiles fdp)))%nat.
  { apply (occ_lookup _ _ (Z.to_nat j)). rewrite list_lookup_insert_ne; [done|lia]. }
  unfold ind at 2 in E. rewrite decide_False in E by done. lia.
Qed.

(** ** The invariant *)

Record Inv (w : fworld) : Prop := mkInv {
  inv_bal : bal (fun _ => 0) w;
  inv_wf : forall t fdp, tables w !! t = Some fdp -> wf fdp;
}.

(** A process whose table is among them, with a limit the code can count to. *)
Record proc_ok (p : fdproc) (w : fworld) : Prop := {
  proc_table : is_Some (tables w !! p_fd p);
  proc_lim : 0 <= p_nofile p <= 65536;
}.

(** No count is about to overflow its [short]. *)
Definition room (w : fworld) : Prop := forall f, cnt f w < 2 ^ 15 - 1.

Lemma wf_insert w t fdp : (forall t fdp, tables w !! t = Some fdp -> wf fdp) -> wf fdp ->
  forall t' fdp', <[t := fdp]> (tables w) !! t' = Some fdp' -> wf fdp'.
Proof. intros Hw Hf t' fdp'. rewrite lookup_insert_Some. intros [[_ <-]|[_ E]]; [done|by eapply Hw]. Qed.

(** A table replaced by a larger one. *)
Lemma inv_grown w t fdp fdp' : Inv w -> tables w !! t = Some fdp -> grown fdp fdp' -> wf fdp' ->
  Inv (set_table t fdp' w).
Proof.
  intros [Hb Hw] Ht Hg Hw'. split.
  - eapply bal_ext; [|by eapply bal_set_table]. intros g. cbn. rewrite (grown_occ _ _ Hg). lia.
  - by apply wf_insert.
Qed.

(** Filling a slot: with the count of the file that was there already dropped. *)
Lemma install_ok p i f fl fdp0 fdp w : tables w !! p_fd p = Some fdp0 -> grown fdp0 fdp -> wf fdp ->
  0 <= i < fd_nfiles fdp -> i < 65536 -> bal (fun g => - Z.of_nat (ind g (slot fdp i))) w ->
  (forall t fdp, tables w !! t = Some fdp -> wf fdp) -> 1 <= cnt f w < 2 ^ 15 - 1 ->
  exists w', install p i f fl fdp w = Ok w' /\ Inv w' /\ tables w' = <[p_fd p := put i f fl fdp]> (tables w).
Proof.
  intros Ht Hg Hw Hi H16 Hb Hws Hc. unfold install. fold (put i f fl fdp).
  pose proof (bal_set_table _ w _ _ (put i f fl fdp) Ht Hb) as Hb1.
  destruct (fhold_ok _ f _ Hb1) as (w' & E & Et & Hb').
  - done.
  - exists w'. split; [done|]. split; [|done]. split.
    + eapply bal_ext; [|done]. intros g. cbn. rewrite put_ofiles, <- (grown_occ _ _ Hg).
      pose proof (occ_insert g _ _ _ (Some f) (slot_lookup fdp i Hi)) as E'.
      unfold at_file. unfold ind at 2 in E'. repeat case_decide; simplify_eq; lia.
    + rewrite Et. apply wf_insert; [done|]. by apply put_wf.
Qed.

Section Safety.
#[local] Set Default Proof Using "Type".
Context (fo_close : loc -> Z) (fo_ioctl : loc -> Z -> Z -> Z * Z).
Context (vop_advlock : Z -> option loc -> Z -> flock -> Z -> Z * flock).
Context (copyin_flock : Z -> option flock) (copyout_flock : Z -> flock -> Z).
Context (pgid_of : Z -> option Z) (maxfdescs maxfiles : Z).

#[local] Abbreviation do_closef := (closef fo_close vop_advlock).

Lemma advlock_log vp id op fl flags w :
  tables (advlock vop_advlock vp id op fl flags w).2 = tables w /\
  files (advlock vop_advlock vp id op fl flags w).2 = files w.
Proof. unfold advlock. destruct (vop_advlock _ _ _ _ _). done. Qed.

(** What a close leaves: one reference less, the tables as they were, and the
    file's own close called when that was the last. *)
Lemma closef_ok ex p f w : bal ex w -> 1 <= cnt f w ->
  exists e w', do_closef p (Some f) w = Ok (e, w') /\ tables w' = tables w /\ 
    bal (fun g => ex g - at_file f g) w'.
Proof.
  intros Hb Hc. destruct (cnt_some f w) as (fp & Hf & Ec); [done|].
  pose proof (bal_live _ _ Hb _ _ Hf) as Hl. cbn [closef]. rewrite Hf.
  cbn [mbind outcome_bind deref mret outcome_ret].
  set (w1 := if p_advlck p && _ then _ else w).
  assert (E1 : tables w1 = tables w /\ files w1 = files w).
  { unfold w1. case_if; [apply advlock_log|done]. }
  destruct E1 as [Et Ef]. assert (Hb1 : bal ex w1) by (by eapply bal_log).
  rewrite s16_id by lia. destruct (Z.ltb_spec 0 (f_count fp - 1)).
  - eexists _, _. split; [done|]. split; [by cbn|].
    eapply bal_ext; [|eapply (bal_set_file ex w1 f fp); [by rewrite Ef| |done]].
    + intros g. cbn. unfold at_file. case_decide; lia.
    + cbn. lia.
  - rewrite (proj2 (Z.ltb_ge _ _)) by lia.
    set (w2 := if negb _ && _ then _ else _).
    assert (E2 : tables w2 = tables w /\ files w2 = <[f := set_count (f_count fp - 1) fp]> (files w)).
    { unfold w2. case_if; [|by rewrite <- Et, <- Ef]. split; [etrans; [apply advlock_log|by cbn]|].
      etrans; [apply advlock_log|]. cbn. by rewrite Ef. }
    destruct E2 as [Et2 Ef2]. eexists _, _. split; [done|]. split; [by cbn|].
    eapply (bal_log _ (ffree f w)); [by cbn|cbn; by rewrite Ef2, delete_insert_eq|].
    eapply bal_ffree; [done|lia|done].
Qed.

#[local] Abbreviation do_dup2 := (dup2 fo_close vop_advlock maxfdescs).
#[local] Abbreviation do_dup := (dup fo_close vop_advlock maxfdescs).

(** The table of [p] afterwards: [f] in slot [i], the others as before. *)
Definition installed (p : fdproc) (i : Z) (f : loc) (fdp : filedesc) (fl : Z) (w' : fworld) : Prop :=
  exists fdp', tables w' !! p_fd p = Some fdp' /\
    (forall j, slot fdp' j = if decide (j = i) then Some f else slot fdp j) /\
    fd_ofileflags fdp' !! Z.to_nat i = Some fl.

Lemma put_installed p i f fl fdp0 fdp w w' : grown fdp0 fdp -> wf fdp -> 0 <= i < fd_nfiles fdp ->
  tables w' = <[p_fd p := put i f fl fdp]> (tables w) -> installed p i f fdp0 fl w'.
Proof.
  intros Hg Hw Hi Et. exists (put i f fl fdp). rewrite Et, lookup_insert_eq. split; [done|]. split.
  - intros j. rewrite put_slot by done. by rewrite (grown_slot _ _ Hg).
  - rewrite put_flags. apply list_lookup_insert_eq. rewrite (wf_flags _ Hw). unfold fd_nfiles in Hi. lia.
Qed.

(** The second half of dup2: the slot [new] is free, or its file closed. *)
Lemma dup2_fill p old new f fl0 fdp0 fdp w : tables w !! p_fd p = Some fdp0 -> grown fdp0 fdp -> wf fdp ->
  slot fdp0 old = Some f -> old <> new -> 0 <= new < fd_nfiles fdp -> new < 65536 ->
  bal (fun g => - Z.of_nat (ind g (slot fdp new))) w ->
  (forall t fdp, tables w !! t = Some fdp -> wf fdp) -> cnt f w < 2 ^ 15 - 1 ->
  exists w', install p new f fl0 fdp (set_table (p_fd p) fdp w) = Ok w' /\ Inv w' /\ installed p new f fdp0 fl0 w'.
Proof.
  intros Ht Hg Hw Hold Hne Hn H16 Hb Hws Hc.
  assert (Hc1 : 1 <= cnt f w).
  { rewrite (bal_cnt _ _ Hb). pose proof (slot_refs _ _ _ _ _ Ht Hold).
    assert (Ho : slot fdp old = Some f) by (by rewrite (grown_slot _ _ Hg)).
    pose proof (occ_two _ _ _ _ Ho (not_eq_sym Hne) Hn). rewrite (grown_occ _ _ Hg) in *. lia. }
  assert (Hb' := bal_set_table _ w _ _ fdp Ht Hb).
  destruct (install_ok p new f fl0 fdp fdp (set_table (p_fd p) fdp w)) as (w' & E & HI & Et).
  - apply lookup_insert_eq.
  - by split.
  - done.
  - done.
  - done.
  - eapply bal_ext; [|done]. intros g. cbn. rewrite (grown_occ _ _ Hg). lia.
  - by apply wf_insert.
  - done.
  - exists w'. split; [done|]. split; [done|]. eapply put_installed; [done|done|done|]. done.
Qed.

Lemma unmap_same i fl fdp : fd_ofiles (unmap i fl fdp) = fd_ofiles fdp /\
  (wf fdp -> wf (unmap i fl fdp)) /\
  (forall j, j <> Z.to_nat i -> fd_ofileflags (unmap i fl fdp) !! j = fd_ofileflags fdp !! j).
Proof.
  unfold unmap. case_if; [done|]. split; [done|]. split.
  - intros [? ? ? ? ? ? ?]. split; try done. cbn. by rewrite length_alter.
  - intros j Hj. cbn. by rewrite list_lookup_alter_ne.
Qed.

Lemma unmap_grown i fl fdp : grown fdp (unmap i fl fdp).
Proof.
  destruct (unmap_same i fl fdp) as (E & _ & _). split; intros; unfold slot, fd_nfiles; by rewrite ?E.
Qed.

(** What dup2 does, whatever its arguments. *)
Definition dup2_result (p : fdproc) (from to : Z) (w : fworld) (e v : Z) (w' : fworld) : Prop :=
  forall fdp, tables w !! p_fd p = Some fdp ->
  match slot fdp (u32 from) with
  | Some f =>
      if decide (u32 to < Z.min (p_nofile p) maxfdescs) then
        e = 0 /\ v = u32 to /\
        (if decide (u32 from = u32 to) then w' = w
         else exists fl, fd_ofileflags fdp !! Z.to_nat (u32 from) = Some fl /\
              installed p (u32 to) f fdp (clear_excl fl) w')
      else e = EBADF /\ w' = w
  | None => e = EBADF /\ w' = w
  end.

Lemma getfile_slot fdp fd : getfile fdp fd = slot fdp (u32 fd).
Proof. unfold getfile. case_if; [|done]. by rewrite slot_out. Qed.

Lemma dup2_clear_ok p old new fdp w : Inv w -> tables w !! p_fd p = Some fdp ->
  0 <= p_nofile p <= 65536 -> 0 <= new < p_nofile p -> old <> new -> is_Some (slot fdp old) ->
  exists fdp1 w1, dup2_clear fo_close vop_advlock p new fdp w = Ok (0, fdp1, w1) /\ tables w1 = tables w /\
    grown fdp fdp1 /\ wf fdp1 /\
    fd_ofileflags fdp1 !! Z.to_nat old = fd_ofileflags fdp !! Z.to_nat old /\ new < fd_nfiles fdp1 /\
    bal (fun g => - Z.of_nat (ind g (slot fdp1 new))) w1 /\ forall f, cnt f w1 <= cnt f w.
Proof.
  intros HI Ht Hlim Hn Hne [f Hold]. pose proof (inv_wf _ HI _ _ Ht) as Hw. pose proof (inv_bal _ HI) as Hb.
  pose proof (slot_range _ _ _ Hold) as Hr. assert (Hne' : Z.to_nat old <> Z.to_nat new) by lia.
  assert (Hsame : slot fdp new = None -> bal (fun g => - Z.of_nat (ind g (slot fdp new))) w).
  { intros ->. eapply bal_ext; [|done]. intros g. cbn. unfold ind. by rewrite decide_False. }
  unfold dup2_clear. destruct (Z.leb_spec (fd_nfiles fdp) new) as [Hge|Hlt].
  - pose proof (slot_out fdp new Hge) as Hs. destruct (fdalloc_enough (p_nofile p) new fdp) as (e & i & fdp' & mv & E & Ha); [done|lia|lia|].
    rewrite E. cbn [mbind outcome_bind]. pose proof Ha as [Hw' Hg _ Hres _].
    destruct Hres as [(-> & Hi & Hs' & Hn' & _ & Hk)|[-> Hk]]; [|exfalso; apply (Hk new); [lia|done]].
    assert (i = new) as ->.
    { destruct (decide (new < i)); [|lia]. exfalso. apply (Hk new); [lia|done]. }
    rewrite !Z.eqb_refl. exists fdp', w. split; [done|]. split; [done|]. split; [done|]. split; [done|].
    split; [by apply (alloc_flag _ _ _ _ _ _ _ _ Hw Ha)|]. split; [done|]. rewrite (grown_slot _ _ Hg). split; [by apply Hsame|done].
  - destruct (slot fdp new) as [f'|] eqn:Es.
    + destruct (flag_lookup fdp new) as [fl Hfl]; [done|lia|]. rewrite Hfl. cbn [mbind outcome_bind deref].
      destruct (closef_ok _ p f' w Hb) as (e & w1 & E & Et & Hb1).
      { rewrite (bal_cnt _ _ Hb). pose proof (slot_refs _ _ _ _ _ Ht Es). lia. }
      rewrite E. cbn [mbind outcome_bind]. destruct (unmap_same new fl fdp) as (Ho & Hwf & Hfl').
      pose proof (unmap_grown new fl fdp) as Hg.
      exists (unmap new fl fdp), w1. split; [done|]. split; [done|]. split; [done|]. split; [by apply Hwf|].
      split; [by apply Hfl'|]. split; [pose proof (grown_size _ _ Hg); lia|].
      rewrite (grown_slot _ _ Hg), Es. split.
      * eapply bal_ext; [|done]. intros g. cbn. unfold ind, at_file. repeat case_decide; simplify_eq; lia.
      * intros g. rewrite (bal_cnt _ _ Hb1), (bal_cnt _ _ Hb). unfold refs. rewrite Et. unfold at_file. case_decide; lia.
    + exists fdp, w. split; [done|]. split; [done|]. split; [by split|]. split; [done|]. split; [done|]. split; [done|].
      rewrite Es in *. split; [by apply Hsame|done].
Qed.

Lemma dup2_ok p from to w : 0 <= maxfdescs <= 65536 -> Inv w -> proc_ok p w -> room w ->
  exists e v w', do_dup2 p from to w = Ok (e, v, w') /\ Inv w' /\ dup2_result p from to w e v w'.
Proof.
  intros Hmax HI [[fdp Ht] Hlim] Hr. unfold dup2_result. setoid_rewrite Ht.
  pose proof (u32_range from). pose proof (u32_range to). pose proof (inv_wf _ HI _ _ Ht) as Hw.
  unfold dup2, table. rewrite Ht. cbn [mbind outcome_bind deref].
  rewrite getfile_slot, !(u32_id (u32 _)), (u32_id (p_nofile p)), (u32_id maxfdescs) by lia.
  destruct (slot fdp (u32 from)) as [f|] eqn:Ef.
  2: { eexists _, _, w. split; [done|]. split; [done|]. intros ? [= <-]. by rewrite Ef. }
  destruct ((p_nofile p <=? u32 to) || (maxfdescs <=? u32 to)) eqn:Eb; bool_prop.
  { eexists _, _, w. split; [done|]. split; [done|]. intros ? [= <-]. rewrite Ef, decide_False; [done|].
    destruct Eb; bool_prop; lia. }
  case_if.
  { eexists _, _, w. split; [done|]. split; [done|]. intros ? [= <-]. rewrite Ef, !decide_True; [done|done|lia]. }
  destruct (flag_lookup fdp (u32 from)) as [fl Hfl]; [done|by eapply slot_range|].
  destruct (dup2_clear_ok p (u32 from) (u32 to) fdp w) as (fdp1 & w1 & E1 & Et1 & Hg & Hw1 & Hfl1 & Hn & Hb1 & Hc1);
    [done|done|done|lia|done|by eexists|].
  rewrite E1. cbn [mbind outcome_bind]. cbn [negb Z.eqb]. rewrite Hfl1, Hfl. cbn [deref].
  destruct (dup2_fill p (u32 from) (u32 to) f (clear_excl fl) fdp fdp1 w1) as (w' & E & HI' & Hin); try done; try lia.
  - by rewrite Et1.
  - rewrite Et1. apply (inv_wf _ HI).
  - specialize (Hr f). specialize (Hc1 f). lia.
  - cbn [mbind outcome_bind]. rewrite E. eexists _, _, w'. split; [done|]. split; [done|].
    intros ? [= <-]. rewrite Ef, decide_True by lia.
    split; [done|]. split; [done|]. rewrite decide_False by done. by exists fl.
Qed.

(** *** dup and F_DUPFD *)

Lemma alloc_install p old f fl lim want fdp i fdp' mv w : tables w !! p_fd p = Some fdp -> Inv w -> room w ->
  slot fdp old = Some f -> 0 <= want -> lim <= 65536 -> alloc_ok lim want fdp 0 i fdp' mv ->
  exists w', install p i f fl fdp' w = Ok w' /\ Inv w' /\ installed p i f fdp fl w'.
Proof.
  intros Ht HI Hr Hs Hwant Hlim [Hw' Hg _ Hres _]. pose proof (inv_wf _ HI _ _ Ht) as Hw.
  destruct Hres as [(_ & Hi & Hs' & Hn & _ & _)|[? _]]; [|done].
  destruct (install_ok p i f fl fdp fdp' w) as (w' & E & HI' & Et); try done; try lia.
  - rewrite (grown_slot _ _ Hg), Hs'. eapply bal_ext; [|apply (inv_bal _ HI)].
    intros g. cbn. unfold ind. by rewrite decide_False.
  - apply (inv_wf _ HI).
  - split; [|apply Hr]. rewrite (bal_cnt _ _ (inv_bal _ HI)). pose proof (slot_refs _ _ _ _ _ Ht Hs). lia.
  - exists w'. split; [done|]. split; [done|]. eapply put_installed; [done|done| |done]. lia.
Qed.

(** What a duplicate of descriptor [old] at or above [want] is. *)
Definition dup_result (p : fdproc) (old want : Z) (w : fworld) (e v : Z) (w' : fworld) : Prop :=
  forall fdp, tables w !! p_fd p = Some fdp ->
  match slot fdp old with
  | None => e = EBADF /\ w' = w
  | Some f =>
      (e = 0 /\ want <= v < p_nofile p /\ slot fdp v = None /\
         (forall j, want <= j < v -> slot fdp j <> None) /\
         exists fl, fd_ofileflags fdp !! Z.to_nat old = Some fl /\ installed p v f fdp (clear_excl fl) w') \/
      (e = EMFILE /\ forall j, want <= j < p_nofile p -> slot fdp j <> None)
  end.

Lemma dup_ok p i to w : 0 <= maxfdescs <= 65536 -> Inv w -> proc_ok p w -> room w ->
  exists e v w', do_dup p i to w = Ok (e, v, w') /\ Inv w' /\
    (if decide (0 <= u32 i < 64) then dup_result p (u32 i) 0 w e v w'
     else dup2_result p (Z.land (u32 i) 63) to w e v w').
Proof. clear pgid_of copyout_flock copyin_flock.
  intros Hmax HI Hp Hr. unfold dup. pose proof (u32_range i) as Hi.
  assert (Ediv : Z.land (u32 i) (Z.lnot 63) = 0 <-> u32 i < 64).
  { change 63 with (Z.ones 6). rewrite <- Z.ldiff_land, Z.ldiff_ones_r, Z.shiftl_mul_pow2, Z.shiftr_div_pow2 by lia.
    change (2 ^ 6) with 64. pose proof (Z.div_mod (u32 i) 64). pose proof (Z.mod_pos_bound (u32 i) 64). lia. }
  case_if.
  { destruct (dup2_ok p (Z.land (u32 i) 63) to w) as (e & v & w' & E & HI' & Hres); [done..|].
    exists e, v, w'. rewrite decide_False by tauto. done. }
  destruct (decide (0 <= u32 i < 64)); [|lia]. destruct Hp as [[fdp Ht] Hlim]. unfold table, dup_result.
  rewrite Ht. cbn [mbind outcome_bind deref]. pose proof (inv_wf _ HI _ _ Ht) as Hw. rewrite getfile_slot.
  destruct (slot fdp (u32 i)) as [f|] eqn:Ef.
  2: { eexists _, _, w. split; [done|]. split; [done|]. intros ? [= <-]. by rewrite Ef. }
  destruct (fdalloc_enough (p_nofile p) 0 fdp) as (e & j & fdp' & mv & E & Ha); [done..|].
  rewrite E. cbn [mbind outcome_bind]. pose proof Ha as [Hw' Hg _ [(-> & Hj & Hs & Hn & _ & Hk)|[-> Hk]] _].
  - cbn [negb Z.eqb]. pose proof (slot_range _ _ _ Ef) as Hrg.
    destruct (flag_lookup fdp (u32 i)) as [fl Hfl]; [done..|].
    rewrite (alloc_flag _ _ _ _ _ _ _ (u32 i) Hw Ha), Hfl by (lia || (intros _ E2; assert (u32 i = j) by lia; congruence)).
    cbn [deref].
    destruct (alloc_install p (u32 i) f (clear_excl fl) _ _ fdp j fdp' mv w Ht HI Hr Ef (Z.le_refl 0) (proj2 Hlim) Ha)
      as (w' & E' & HI' & Hin).
    cbn [mbind outcome_bind]. rewrite E'. eexists _, _, w'. split; [done|]. split; [done|].
    intros ? [= <-]. rewrite Ef. left. split; [done|]. split; [lia|]. split; [done|]. split; [done|]. by exists fl.
  - eexists _, _, _. split; [done|]. split; [by eapply inv_grown|].
    intros ? [= <-]. rewrite Ef. by right.
Qed.

(** The table is replaced while F_DUPFD holds a pointer into it. *)
Definition stale (lim want : Z) (fdp : filedesc) : Prop :=
  NDFILE < fd_nfiles fdp < lim /\ forall j, want <= j < fd_nfiles fdp -> slot fdp j <> None.

Lemma s32_u32 z : u32 z < 2 ^ 31 -> s32 z = u32 z.
Proof.
  unfold s32, u32, wraps, wrapu. intros Hz. pose proof (Z.mod_pos_bound z (2 ^ 32)).
  rewrite <- (Zplus_mod_idemp_l z). rewrite (Z.mod_small (_ + _)); [|lia].
  change (2 ^ (32 - 1)) with (2 ^ 31). lia.
Qed.

Lemma dupfd_ok p fd f fdp arg w : 0 <= maxfdescs <= 65536 -> Inv w -> tables w !! p_fd p = Some fdp ->
  0 <= p_nofile p <= 65536 -> room w -> slot fdp fd = Some f ->
  if decide (u32 arg < Z.min (p_nofile p) maxfdescs) then
    (stale (p_nofile p) (u32 arg) fdp -> fcntl_dupfd maxfdescs p fd f fdp arg w = Fault) /\
    (~ stale (p_nofile p) (u32 arg) fdp -> exists e v w',
       fcntl_dupfd maxfdescs p fd f fdp arg w = Ok (e, v, p, w') /\ Inv w' /\ dup_result p fd (u32 arg) w e v w')
  else fcntl_dupfd maxfdescs p fd f fdp arg w = Ok (EINVAL, 0, p, w).
Proof.
  intros Hmax HI Ht Hlim Hr Hf. pose proof (u32_range arg). pose proof (inv_wf _ HI _ _ Ht) as Hw.
  unfold fcntl_dupfd, dup_result. rewrite (u32_id (p_nofile p)), (u32_id maxfdescs) by lia.
  case_decide as Hd; destruct (_ || _) eqn:Eb; bool_prop; try (destruct Eb; bool_prop; lia); [|done|lia].
  rewrite s32_u32 by lia.
  destruct (fdalloc_enough (p_nofile p) (u32 arg) fdp) as (e & j & fdp' & mv & E & Ha); [done|lia..|].
  rewrite E. cbn [mbind outcome_bind]. pose proof Ha as [Hw' Hg _ Hres Hmv].
  pose proof (wf_size _ Hw) as Hsz. split.
  - intros [Hn Hu]. assert (mv = true) as -> by (apply Hmv; split; [lia|done]).
    destruct Hres as [(-> & Hj & Hs & Hn' & _ & Hk)|[-> Hk]].
    + cbn [negb Z.eqb andb]. by rewrite (proj2 (Z.ltb_lt _ _)) by lia.
    + exfalso. apply (Hk (Z.max (u32 arg) (fd_nfiles fdp))); [lia|]. apply slot_out. lia.
  - intros Hst. destruct Hres as [(-> & Hj & Hs & Hn' & _ & Hk)|[-> Hk]].
    + cbn [negb Z.eqb]. assert (Eand : mv && (NDFILE <? fd_nfiles fdp) = false).
      { destruct mv; [|done]. cbn. apply Z.ltb_ge. destruct (Z.le_gt_cases (fd_nfiles fdp) NDFILE); [done|].
        exfalso. apply Hst. destruct Hmv as [Hmv _]. destruct (Hmv eq_refl). split; [lia|done]. }
      rewrite Eand. destruct (flag_lookup fdp fd) as [fl Hfl]; [done|by eapply slot_range|].
      rewrite Hfl. cbn [deref mbind outcome_bind].
      destruct (alloc_install p fd f (clear_excl fl) _ _ fdp j fdp' mv w Ht HI Hr Hf (proj1 (u32_range arg)) (proj2 Hlim) Ha)
        as (w' & E' & HI' & Hin).
      rewrite E'. eexists _, _, w'. split; [done|]. split; [done|].
      intros ? Ht'. rewrite Ht in Ht'. injection Ht' as <-. rewrite Hf. left.
      split; [done|]. split; [lia|]. split; [done|]. split; [done|]. by exists fl.
    + eexists _, _, _. split; [done|]. split; [by eapply inv_grown|].
      intros ? Ht'. rewrite Ht in Ht'. injection Ht' as <-. rewrite Hf. by right.
Qed.

(** *** The rest of fcntl, and flock: counts and tables are not touched *)

Lemma inv_log w w' : tables w' = tables w -> files w' = files w -> Inv w -> Inv w'.
Proof. intros Et Ef [Hb Hw]. split; [by eapply bal_log|by rewrite Et]. Qed.

Lemma inv_set_file w f fp fp' : files w !! f = Some fp -> f_count fp' = f_count fp -> Inv w -> Inv (set_file f fp' w).
Proof.
  intros Hf Hc [Hb Hw]. split; [|done]. eapply bal_ext; [|eapply bal_set_file; [done| |done]].
  - intros g. cbn. rewrite Hc. lia.
  - rewrite Hc. by eapply (bal_live _ _ Hb).
Qed.

Lemma inv_set_flags w t fdp i fl : tables w !! t = Some fdp -> Inv w -> Inv (set_table t (set_flags i fl fdp) w).
Proof.
  intros Ht HI. pose proof (inv_wf _ HI _ _ Ht) as Hw. apply (inv_grown _ _ fdp); [done|done|by split|].
  destruct Hw. split; try done. cbn. by rewrite length_insert.
Qed.

Lemma ioctl_log f cmd data w : tables (ioctl fo_ioctl f cmd data w).2 = tables w /\
  files (ioctl fo_ioctl f cmd data w).2 = files w.
Proof. unfold ioctl. destruct (fo_ioctl f cmd data). done. Qed.

Lemma inv_ioctl f cmd data w : Inv w -> Inv (ioctl fo_ioctl f cmd data w).2.
Proof. destruct (ioctl_log f cmd data w). by apply inv_log. Qed.

Lemma inv_advlock vp id op fl flags w : Inv w -> Inv (advlock vop_advlock vp id op fl flags w).2.
Proof. destruct (advlock_log vp id op fl flags w). by apply inv_log. Qed.

Lemma setfl_inv p f fp arg w : files w !! f = Some fp -> Inv w -> Inv (fcntl_setfl fo_ioctl p f fp arg w).2.
Proof.
  intros Hf HI. unfold fcntl_setfl. set (fl := Z.lor _ _).
  set (w1 := set_file f (set_flag (s16 fl) fp) w).
  assert (HI1 : Inv w1) by (by eapply inv_set_file).
  pose proof (inv_ioctl f FIONBIO (Z.land fl FNONBLOCK) w1 HI1) as HI2.
  pose proof (ioctl_log f FIONBIO (Z.land fl FNONBLOCK) w1) as [_ Ef2].
  destruct (ioctl fo_ioctl f FIONBIO (Z.land fl FNONBLOCK) w1) as [[e2 v2] w2]. cbn in HI2, Ef2.
  case_if; [done|].
  pose proof (inv_ioctl f FIOASYNC (Z.land fl FASYNC) w2 HI2) as HI3.
  pose proof (ioctl_log f FIOASYNC (Z.land fl FASYNC) w2) as [_ Ef3].
  destruct (ioctl fo_ioctl f FIOASYNC (Z.land fl FASYNC) w2) as [[e3 v3] w3]. cbn in HI3, Ef3.
  case_if; [done|].
  match goal with |- context [set_file f ?fp' w3] => set (w4 := set_file f fp' w3) end.
  assert (HI4 : Inv w4).
  { eapply (inv_set_file _ _ (set_flag (s16 fl) fp)); [|done|done]. rewrite Ef3, Ef2. cbn. apply lookup_insert_eq. }
  pose proof (inv_ioctl f FIONBIO 0 w4 HI4) as HI5.
  by destruct (ioctl fo_ioctl f FIONBIO 0 w4) as [[e5 v5] w5].
Qed.

Lemma own_inv p f fp arg w : Inv w -> Inv (fcntl_getown fo_ioctl p f fp w).2 /\
  Inv (fcntl_setown fo_ioctl pgid_of p f fp arg w).2.
Proof.
  intros HI. unfold fcntl_getown, fcntl_setown. case_if; [split; [done|]; by apply (inv_log w)|]. split.
  - pose proof (inv_ioctl f TIOCGPGRP 0 w HI). by destruct (ioctl fo_ioctl f TIOCGPGRP 0 w) as [[? ?] ?].
  - destruct (if arg <=? 0 then _ else _) as [pg|]; [|done].
    pose proof (inv_ioctl f TIOCSPGRP pg w HI). by destruct (ioctl fo_ioctl f TIOCSPGRP pg w) as [[? ?] ?].
Qed.

Lemma lk_inv p fp arg flg w : Inv w -> Inv (fcntl_setlk vop_advlock copyin_flock p fp arg flg w).2 /\
  Inv (fcntl_getlk vop_advlock copyin_flock copyout_flock p fp arg w).2.
Proof.
  intros HI. unfold fcntl_setlk, fcntl_getlk. case_if; [done|].
  destruct (user_flock copyin_flock fp arg) as [fl|]; [|done].
  pose proof (inv_advlock (f_data fp) None F_SETLK fl flg w HI).
  pose proof (inv_advlock (f_data fp) None F_UNLCK fl F_POSIX w HI).
  pose proof (inv_advlock (f_data fp) None F_GETLK fl F_POSIX w HI).
  destruct (advlock vop_advlock (f_data fp) None F_SETLK fl flg w) as [[? ?] ?].
  destruct (advlock vop_advlock (f_data fp) None F_UNLCK fl F_POSIX w) as [[? ?] ?].
  destruct (advlock vop_advlock (f_data fp) None F_GETLK fl F_POSIX w) as [[? ?] ?].
  split; repeat case_if; done.
Qed.

Lemma fcntl_ok p fd cmd arg w : 0 <= maxfdescs <= 65536 -> Inv w -> proc_ok p w -> room w ->
  (cmd = 0 -> forall fdp, tables w !! p_fd p = Some fdp -> slot fdp (u32 fd) <> None ->
    u32 arg < Z.min (p_nofile p) maxfdescs -> ~ stale (p_nofile p) (u32 arg) fdp) ->
  exists e v p' w', fcntl fo_ioctl vop_advlock copyin_flock copyout_flock pgid_of maxfdescs p fd cmd arg w
    = Ok (e, v, p', w') /\ Inv w'.
Proof.
  intros Hmax HI [[fdp Ht] Hlim] Hr Hst. unfold fcntl, table. rewrite Ht. cbn [mbind outcome_bind deref].
  rewrite getfile_slot. pose proof (inv_wf _ HI _ _ Ht) as Hw.
  destruct (slot fdp (u32 fd)) as [f|] eqn:Ef; [|by eexists _, _, _, _].
  destruct (flag_lookup fdp (u32 fd)) as [fl Hfl]; [done|by eapply slot_range|]. rewrite Hfl. cbn [deref mbind outcome_bind].
  destruct (cnt_some f w) as (fp & Hf & _).
  { rewrite (bal_cnt _ _ (inv_bal _ HI)). pose proof (slot_refs _ _ _ _ _ Ht Ef). lia. }
  rewrite Hf. cbn [deref mbind outcome_bind mret outcome_ret].
  assert (Hok : forall r : result, Inv r.2 -> exists e v p' w', Ok r = Ok (e, v, p', w') /\ Inv w').
  { intros [[[e v] p'] w'] ?. by eexists _, _, _, _. }
  destruct (own_inv p f fp arg w HI), (lk_inv p fp arg F_POSIX w HI), (lk_inv p fp arg (Z.lor F_POSIX F_WAIT) w HI).
  destruct (Z.eqb_spec cmd 0) as [->|].
  - pose proof (dupfd_ok p (u32 fd) f fdp arg w Hmax HI Ht Hlim Hr Ef) as Hd. case_decide.
    + destruct Hd as [_ Hd]. destruct Hd as (e & v & w' & E & HI' & _); [apply Hst; by rewrite ?Ef|]. by eexists _, _, _, _.
    + by eexists _, _, _, _.
  - repeat match goal with |- context [if ?b then _ else _] => destruct b end; apply Hok; try done.
    + by apply inv_set_flags.
    + by apply setfl_inv.
Qed.

Lemma flock_ok p fd how w : Inv w -> proc_ok p w ->
  exists e w', flock_call vop_advlock p fd how w = Ok (e, w') /\ Inv w'.
Proof.
  intros HI [[fdp Ht] Hlim]. unfold flock_call, table. rewrite Ht. cbn [mbind outcome_bind deref].
  rewrite getfile_slot. destruct (slot fdp (u32 fd)) as [f|] eqn:Ef; [|by eexists _, _].
  destruct (cnt_some f w) as (fp & Hf & _).
  { rewrite (bal_cnt _ _ (inv_bal _ HI)). pose proof (slot_refs _ _ _ _ _ Ht Ef). lia. }
  rewrite Hf. cbn [deref mbind outcome_bind]. case_if; [by eexists _, _|].
  assert (Hask : forall fl op type flags, exists e w',
    (let w := set_file f (set_flag fl fp) w in
     let '(error, _, w) := advlock vop_advlock (f_data fp) (Some f) op (whole type) flags w in
     (mret (error, w) : outcome (Z * fworld))) = Ok (e, w') /\ Inv w').
  { intros fl op type flags. assert (HI1 : Inv (set_file f (set_flag fl fp) w)) by (by eapply inv_set_file).
    pose proof (inv_advlock (f_data fp) (Some f) op (whole type) flags _ HI1). cbn zeta.
    destruct (advlock _ _ _ _ _ _ _) as [[? ?] ?]. by eexists _, _. }
  repeat case_if; apply Hask || by eexists _, _.
Qed.

(** *** close *)

(** The table with slot [i] emptied. *)
Definition cleared (i fl : Z) (fdp : filedesc) : filedesc := lower_free i (set_slot i None fl fdp).

Lemma cleared_ofiles i fl fdp : fd_ofiles (cleared i fl fdp) = <[Z.to_nat i := None]> (fd_ofiles fdp).
Proof. unfold cleared, lower_free. by case_if. Qed.

Lemma cleared_wf i fl fdp : wf fdp -> 0 <= i < fd_nfiles fdp -> wf (cleared i fl fdp).
Proof.
  intros Hw Hi. assert (En := nfiles_insert fdp i _ _ (cleared_ofiles i fl fdp)).
  assert (Hs : forall j, slot (cleared i fl fdp) j = if decide (j = i) then None else slot fdp j)
    by (by apply slot_insert; [|apply cleared_ofiles]).
  destruct Hw. assert (Ef : fd_freefile (cleared i fl fdp) = Z.min i (fd_freefile fdp)).
  { unfold cleared, lower_free. cbn. case_if; cbn; rewrite ?u16_id by lia; lia. }
  assert (El : fd_lastfile (cleared i fl fdp) = fd_lastfile fdp) by (unfold cleared, lower_free; by case_if).
  split; rewrite ?En, ?Ef, ?El; try lia.
  - rewrite cleared_ofiles, length_insert. unfold cleared, lower_free. case_if; cbn; by rewrite length_insert.
  - intros j Hj. rewrite Hs. case_decide; [lia|]. apply wf_below0. lia.
  - intros j f. rewrite Hs. case_decide; [done|]. apply wf_above0.
Qed.

Lemma trim_ok fdp : 0 <= fd_lastfile fdp < fd_nfiles fdp -> fd_lastfile fdp < 65536 ->
  (forall i f, slot fdp i = Some f -> i <= fd_lastfile fdp) ->
  exists l, trim fdp = Ok (mkFiledesc (fd_ofiles fdp) (fd_ofileflags fdp) l (fd_freefile fdp) (fd_refcnt fdp)) /\
    0 <= l <= fd_lastfile fdp /\ forall i f, slot fdp i = Some f -> i <= l.
Proof.
  unfold trim. remember (Z.to_nat (fd_lastfile fdp)) as n eqn:En. revert fdp En.
  induction n as [|n IH]; intros fdp En Hl H16 Hs; cbn [trim_last].
  - exists (fd_lastfile fdp). split; [by destruct fdp|]. split; [lia|done].
  - rewrite (proj2 (Z.ltb_lt _ _)) by lia. rewrite slot_lookup by lia. cbn [deref mbind outcome_bind].
    destruct (slot fdp (fd_lastfile fdp)) eqn:E.
    + exists (fd_lastfile fdp). split; [by destruct fdp|]. split; [lia|done].
    + assert (Eu : u16 (fd_lastfile fdp - 1) = fd_lastfile fdp - 1) by (apply u16_id; lia).
      destruct (IH (set_last (fd_lastfile fdp - 1) fdp)) as (l & -> & Hl' & Hs').
      * cbn. rewrite Eu. lia.
      * cbn. rewrite Eu. unfold fd_nfiles in *. cbn. lia.
      * cbn. rewrite Eu. lia.
      * cbn. rewrite Eu. intros i f Hi. change (slot fdp i = Some f) in Hi. pose proof (Hs i f Hi).
        destruct (decide (i = fd_lastfile fdp)); [congruence|lia].
      * exists l. cbn in Hl'. rewrite Eu in Hl'. split; [done|]. split; [lia|]. done.
Qed.

Lemma wf_trim fdp l : wf fdp -> 0 <= l <= fd_lastfile fdp -> (forall i f, slot fdp i = Some f -> i <= l) ->
  wf (mkFiledesc (fd_ofiles fdp) (fd_ofileflags fdp) l (fd_freefile fdp) (fd_refcnt fdp)).
Proof. intros [? ? ? ? ? ? ?] Hl Hs. split; try done; cbn in *; unfold fd_nfiles in *; cbn in *; lia. Qed.

(** The table close leaves. *)
Lemma close_table fd fdp : wf fdp -> 0 <= fd < fd_nfiles fdp ->
  exists fdp1 fdp', trim (set_ofile fd None fdp) = Ok fdp1 /\
    set_flags fd 0 (lower_free fd fdp1) = fdp' /\ wf fdp' /\
    fd_ofiles fdp' = <[Z.to_nat fd := None]> (fd_ofiles fdp).
Proof.
  intros Hw Hi. set (fdp0 := set_ofile fd None fdp).
  assert (Hs : forall j, slot fdp0 j = if decide (j = fd) then None else slot fdp j) by (by apply slot_insert).
  pose proof (cleared_wf fd 0 fdp Hw Hi) as Hc.
  destruct (trim_ok fdp0) as (l & -> & Hl & Hl').
  - pose proof (wf_last _ Hw). unfold fd_nfiles in *. cbn. rewrite length_insert. lia.
  - apply (wf_last16 _ Hw).
  - intros i f. rewrite Hs. case_decide; [done|]. apply (wf_above _ Hw).
  - eexists _, _. split; [done|]. split; [done|]. cbn.
    assert (El : fd_lastfile (cleared fd 0 fdp) = fd_lastfile fdp) by (unfold cleared, lower_free; by case_if).
    pose proof (wf_trim (cleared fd 0 fdp) l Hc) as Hwt. rewrite El in Hwt.
    assert (Eo : forall j, slot (cleared fd 0 fdp) j = slot fdp0 j)
      by (intros j; apply slot_ext; by rewrite cleared_ofiles).
    setoid_rewrite Eo in Hwt. specialize (Hwt Hl Hl').
    unfold cleared, lower_free in *. cbn in *. case_if; split; done.
Qed.

(** What close does. *)
Lemma close_ok p fd w : Inv w -> proc_ok p w ->
  exists e w', close fo_close vop_advlock p fd w = Ok (e, w') /\ Inv w' /\
    forall fdp, tables w !! p_fd p = Some fdp ->
    match slot fdp (u32 fd) with
    | None => e = EBADF /\ w' = w
    | Some f => exists fdp', tables w' !! p_fd p = Some fdp' /\
        forall j, slot fdp' j = if decide (j = u32 fd) then None else slot fdp j
    end.
Proof.
  intros HI [[fdp Ht] Hlim]. unfold close, table. rewrite Ht. cbn [mbind outcome_bind deref].
  rewrite getfile_slot. pose proof (inv_wf _ HI _ _ Ht) as Hw.
  destruct (slot fdp (u32 fd)) as [f|] eqn:Ef.
  2: { eexists _, w. split; [done|]. split; [done|]. intros ? [= <-]. by rewrite Ef. }
  pose proof (slot_range _ _ _ Ef) as Hrg.
  destruct (flag_lookup fdp (u32 fd)) as [fl Hfl]; [done..|]. rewrite Hfl. cbn [deref mbind outcome_bind].
  pose proof (unmap_grown (u32 fd) fl fdp) as Hg. destruct (unmap_same (u32 fd) fl fdp) as (Eo & Hwu & _).
  destruct (close_table (u32 fd) (unmap (u32 fd) fl fdp)) as (fdp1 & fdp' & -> & Ec & Hw' & Eo'); [by apply Hwu| |].
  { unfold fd_nfiles. by rewrite Eo. }
  cbn [mbind outcome_bind]. rewrite Ec. rewrite Eo in Eo'.
  pose proof (bal_set_table _ w _ _ fdp' Ht (inv_bal _ HI)) as Hb.
  assert (Hb' : bal (fun g => at_file f g) (set_table (p_fd p) fdp' w)).
  { eapply bal_ext; [|exact Hb]. intros g. cbn. rewrite Eo'.
    pose proof (occ_insert g _ _ _ None (slot_lookup fdp (u32 fd) Hrg)) as E. rewrite Ef in E.
    unfold ind, at_file in *. repeat case_decide; simplify_eq; lia. }
  destruct (closef_ok _ p f _ Hb') as (e & w' & E & Et & Hb'').
  { rewrite (bal_cnt _ _ Hb'). unfold at_file. rewrite decide_True by done. lia. }
  exists e, w'. split; [done|]. split.
  - split; [eapply bal_ext; [|done]; intros g; cbn; lia|]. rewrite Et. by apply wf_insert; [apply (inv_wf _ HI)|].
  - intros ? [= <-]. rewrite Ef. exists fdp'. rewrite Et. cbn. rewrite lookup_insert_eq. split; [done|].
    by apply slot_insert.
Qed.

(** *** falloc and dupfdopen *)

Lemma bal_new_file ex w f fp : files w !! f = None -> f_count fp = 1 -> bal ex w ->
  bal (fun g => ex g + at_file f g) (set_file f fp w).
Proof.
  intros Hf Hc [H1 H2]. split.
  - intros g. change (refs g (set_file f fp w)) with (refs g w). specialize (H1 g).
    unfold cnt, at_file in *. cbn. case_decide as Hd.
    + subst g. rewrite lookup_insert_eq, Hc. rewrite Hf in H1. lia.
    + rewrite lookup_insert_ne by done. lia.
  - intros g gp. cbn. destruct (decide (f = g)) as [<-|]; [rewrite lookup_insert_eq; intros [= <-]; lia|].
    rewrite lookup_insert_ne by done. apply H2.
Qed.

Lemma fill_wf i f fdp : wf fdp -> 0 <= i <= fd_lastfile fdp -> wf (set_ofile i (Some f) fdp).
Proof.
  intros Hw Hi. pose proof (wf_last _ Hw).
  assert (En : fd_nfiles (set_ofile i (Some f) fdp) = fd_nfiles fdp) by (by eapply nfiles_insert).
  assert (Hs : forall j, slot (set_ofile i (Some f) fdp) j = if decide (j = i) then Some f else slot fdp j)
    by (intros; apply slot_insert; [lia|done]).
  destruct Hw. split; rewrite ?En; cbn; try done.
  - by rewrite length_insert.
  - intros j Hj. rewrite Hs. case_decide; [done|auto].
  - intros j g. rewrite Hs. case_decide; [lia|apply wf_above0].
Qed.

Lemma falloc_ok junk p w : Inv w -> proc_ok p w ->
  exists e f i w', falloc maxfiles junk p w = Ok (e, f, i, w') /\ Inv w' /\
    forall fdp, tables w !! p_fd p = Some fdp ->
    (e = 0 /\ nfiles w < maxfiles /\ (forall g, g <> f -> cnt g w' = cnt g w) /\ cnt f w' = 1 /\
       0 <= i < p_nofile p /\ (forall j, 0 <= j < i -> slot fdp j <> None) /\
       exists fdp1, wf fdp1 /\ grown fdp fdp1 /\ slot fdp1 i = None /\ i <= fd_lastfile fdp1 /\
         tables w' !! p_fd p = Some (set_ofile i (Some f) fdp1)) \/
    ((e = ENFILE /\ maxfiles <= nfiles w \/ e = EMFILE /\ forall j, 0 <= j < p_nofile p -> slot fdp j <> None) /\
       exists fdp', tables w' !! p_fd p = Some fdp' /\ forall j, slot fdp' j = slot fdp j).
Proof.
  intros HI [[fdp Ht] Hlim]. unfold falloc, table. rewrite Ht. cbn [mbind outcome_bind deref].
  pose proof (inv_wf _ HI _ _ Ht) as Hw.
  destruct (fdalloc_enough (p_nofile p) 0 fdp) as (e & i & fdp' & mv & E & Ha); [done..|].
  rewrite E. cbn [mbind outcome_bind]. destruct Ha as [Hw' Hg Hfl Hres _].
  assert (HI1 : Inv (set_table (p_fd p) fdp' w)) by (by eapply inv_grown).
  destruct Hres as [(-> & Hi & Hs & Hn & Hl & Hk)|[-> Hk]].
  all: assert (Hsame : exists fdp2, tables (set_table (p_fd p) fdp' w) !! p_fd p = Some fdp2 /\
    forall j, slot fdp2 j = slot fdp j) by (exists fdp'; split; [apply lookup_insert_eq|apply (grown_slot _ _ Hg)]).
  2: { eexists _, _, _, _. split; [done|]. split; [done|]. intros ? [= <-]. right. split; [by right|done]. }
  cbn [negb Z.eqb]. case_if.
  { eexists _, _, _, _. split; [done|]. split; [done|]. intros ? [= <-]. right. split; [by left|done]. }
  cbn [files set_table]. set (f := new_loc (files w)). pose proof (new_loc_fresh (files w)) as Hf. fold f in Hf.
  set (fdp1 := set_ofile i (Some f) fdp'). assert (Hw1 : wf fdp1) by (apply fill_wf; [done|lia]).
  set (w1 := set_file f _ _).
  assert (Hb1 : bal (fun g => 0 + at_file f g) w1)
    by (eapply bal_new_file; [done|done|apply (inv_bal _ HI1)]).
  assert (Ht1 : tables w1 !! p_fd p = Some fdp') by apply lookup_insert_eq.
  pose proof (bal_set_table _ w1 _ _ fdp1 Ht1 Hb1) as Hb2.
  assert (Hocc : forall g, Z.of_nat (occ g (fd_ofiles fdp1)) = Z.of_nat (occ g (fd_ofiles fdp')) + at_file f g).
  { intros g. change (fd_ofiles fdp1) with (<[Z.to_nat i := Some f]> (fd_ofiles fdp')). assert (Hi' : 0 <= i < fd_nfiles fdp') by lia.
    pose proof (occ_insert g _ _ _ (Some f) (slot_lookup fdp' i Hi')) as E'.
    rewrite (grown_slot _ _ Hg), Hs in E'. unfold ind, at_file in *. repeat case_decide; simplify_eq; lia. }
  eexists _, f, i, _. split; [done|]. split.
  - split; [|apply (wf_insert w1); [apply (inv_wf _ HI1)|done]].
    eapply (bal_log _ (set_table (p_fd p) fdp1 w1)); [done|done|].
    eapply bal_ext; [|exact Hb2]. intros g. cbv beta. rewrite Hocc. lia.
  - intros ? [= <-]. left. split; [done|]. split; [exact Heqb|]. split.
    { intros g Hg'. unfold cnt. cbn. by rewrite lookup_insert_ne. }
    split.
    { unfold cnt. cbn. by rewrite lookup_insert_eq. }
    split; [lia|]. split; [done|]. exists fdp'. split; [done|]. split; [done|].
    rewrite (grown_slot _ _ Hg). split; [done|]. split; [done|]. apply lookup_insert_eq.
Qed.

(** Opening /dev/fd/[dfd]: slot [indx] still holds the pointer falloc put there,
    whose file is gone. *)
Lemma dupfdopen_ok t indx dfd mode fdp w : tables w !! t = Some fdp ->
  (forall t fdp, tables w !! t = Some fdp -> wf fdp) -> 0 <= indx < fd_nfiles fdp -> indx < 65536 ->
  bal (fun g => - Z.of_nat (ind g (slot fdp indx))) w -> room w ->
  exists e w', dupfdopen t indx dfd mode w = Ok (e, w') /\
    ((e = 0 /\ Inv w' /\ exists f fdp', slot fdp (u32 dfd) = Some f /\
        tables w' !! t = Some fdp' /\ forall j, slot fdp' j = if decide (j = indx) then Some f else slot fdp j) \/
     ((e = EBADF \/ e = EACCES) /\ w' = w)).
Proof.
  intros Ht Hws Hi H16 Hb Hr. unfold dupfdopen. rewrite Ht. cbn [mbind outcome_bind deref].
  rewrite slot_lookup by done. cbn [mbind outcome_bind deref]. rewrite getfile_slot.
  pose proof (Hws _ _ Ht) as Hw.
  destruct (slot fdp (u32 dfd)) as [f|] eqn:Ef; [|eexists _, w; split; [done|]; right; auto].
  case_decide as Hd; [eexists _, w; split; [done|]; right; auto|].
  assert (Hne : indx <> u32 dfd) by congruence.
  assert (Hc : 1 <= cnt f w).
  { rewrite (bal_cnt _ _ Hb). pose proof (occ_two _ _ _ _ Ef Hne Hi). pose proof (slot_refs _ _ _ _ _ Ht Ef). lia. }
  destruct (cnt_some _ _ Hc) as (fp & Hf & _). rewrite Hf. cbn [mbind outcome_bind deref].
  case_if; [eexists _, w; split; [done|]; right; auto|].
  destruct (flag_lookup fdp (u32 dfd)) as [fl Hfl]; [done|by eapply slot_range|]. rewrite Hfl. cbn [deref mbind outcome_bind].
  destruct (install_ok (mkFdproc t 0 false) indx f fl fdp fdp w) as (w' & E & HI' & Et); try done.
  unfold install in E. cbn [p_fd] in E. rewrite E. cbn [mbind outcome_bind].
  eexists _, w'. split; [done|]. left. split; [done|]. split; [done|].
  exists f, (put indx f fl fdp). split; [done|]. rewrite Et. cbn. rewrite lookup_insert_eq. split; [done|].
  intros j. by apply put_slot.
Qed.

(** *** open *)

Lemma empty_fill i f fdp : 0 <= i < fd_nfiles fdp -> slot fdp i = None ->
  set_ofile i None (set_ofile i (Some f) fdp) = fdp.
Proof.
  intros Hi Hs. unfold set_ofile. cbn. rewrite list_insert_insert_eq, list_insert_id; [by destruct fdp|].
  by rewrite slot_lookup, Hs.
Qed.

(** Slot [i] was filled with a file that is now gone: emptying it is enough. *)
Lemma forget_ok p i f fdp w : tables w !! p_fd p = Some (set_ofile i (Some f) fdp) -> wf fdp ->
  0 <= i < fd_nfiles fdp -> slot fdp i = None -> bal (fun g => 0 - at_file f g) w ->
  (forall t fdp, tables w !! t = Some fdp -> wf fdp) -> Inv (set_table (p_fd p) fdp w).
Proof.
  intros Ht Hw Hi Hs Hb Hws. split; [|by apply wf_insert].
  eapply bal_ext; [|apply (bal_set_table _ _ _ _ fdp Ht Hb)]. intros g. cbn [set_ofile fd_ofiles].
  pose proof (occ_insert g _ _ _ (Some f) (slot_lookup fdp i Hi)) as E. rewrite Hs in E.
  unfold ind, at_file in *. repeat case_decide; simplify_eq; lia.
Qed.

(** What open leaves: a new descriptor, the least one free, or none. *)
Definition open_result (p : fdproc) (fdp : filedesc) (e v : Z) (w' : fworld) : Prop :=
  exists fdp', tables w' !! p_fd p = Some fdp' /\
  ((e = 0 /\ 0 <= v < p_nofile p /\ slot fdp v = None /\ (forall j, 0 <= j < v -> slot fdp j <> None) /\
     exists f, forall j, slot fdp' j = if decide (j = v) then Some f else slot fdp j) \/
   (e <> 0 /\ forall j, slot fdp' j = slot fdp j)).

(** After falloc: the new file [f] is in slot [i] of the table [fdp1]. *)
Record opening (p : fdproc) (f : loc) (i : Z) (fdp fdp1 : filedesc) (w : fworld) : Prop := {
  opening_inv : Inv w;
  opening_table : tables w !! p_fd p = Some (set_ofile i (Some f) fdp1);
  opening_wf : wf fdp1;
  opening_grown : grown fdp fdp1;
  opening_slot : slot fdp i = None;
  opening_range : 0 <= i < p_nofile p /\ i <= fd_lastfile fdp1;
  opening_least : forall j, 0 <= j < i -> slot fdp j <> None;
  opening_lim : p_nofile p <= 65536;
  opening_cnt : cnt f w = 1;
}.

Section Opening.
Context (p : fdproc) (f : loc) (i : Z) (fdp fdp1 : filedesc) (w : fworld).
Context (Ho : opening p f i fdp fdp1 w).

Lemma opening_fill fdp' : (forall j, slot fdp' j = if decide (j = i) then Some f else slot fdp1 j) \/
  (exists g, forall j, slot fdp' j = if decide (j = i) then Some g else slot fdp1 j) ->
  forall w', tables w' !! p_fd p = Some fdp' -> open_result p fdp 0 i w'.
Proof using Type Ho.
  intros Hs w' Et. destruct Ho as [_ _ _ Hg Hi [Hr _] Hl _ _].
  assert (Hs' : exists g, forall j, slot fdp' j = if decide (j = i) then Some g else slot fdp1 j)
    by (destruct Hs as [Hs|Hs]; [by exists f|done]).
  destruct Hs' as [g Hs']. exists fdp'. split; [done|]. left. split; [done|]. split; [done|]. split; [done|].
  split; [done|]. exists g. intros j. rewrite Hs'. by rewrite (grown_slot _ _ Hg).
Qed.

Lemma opening_forget er w' : er <> 0 -> tables w' = tables w -> bal (fun g => 0 - at_file f g) w' ->
  exists e v w'', open_forget p i er w' = Ok (e, v, w'') /\ Inv w'' /\ open_result p fdp e v w''.
Proof using Type Ho.
  intros He Et Hb. destruct Ho as [HI Ht Hw Hg Hi [Hr Hl] _ _ _]. pose proof (wf_last _ Hw).
  unfold open_forget, table. rewrite Et, Ht. cbn [deref mbind outcome_bind].
  rewrite empty_fill by (lia || by rewrite (grown_slot _ _ Hg)).
  exists er, 0, (set_table (p_fd p) fdp1 w'). split; [done|]. split.
  - eapply forget_ok; [by rewrite Et|done|lia|by rewrite (grown_slot _ _ Hg)|done|rewrite Et; apply (inv_wf _ HI)].
  - exists fdp1. split; [apply lookup_insert_eq|]. right. split; [done|]. apply (grown_slot _ _ Hg).
Qed.

Lemma opening_fails error dupfd fmode : error <> 0 -> (forall g, g <> f -> cnt g w < 2 ^ 15 - 1) ->
  exists e v w', open_failed p f i error dupfd fmode w = Ok (e, v, w') /\ Inv w' /\ open_result p fdp e v w'.
Proof using Type Ho.
  intros He Hr. pose proof Ho as [HI Ht Hw Hg Hi [Hri Hl] Hk Hlim Hc]. pose proof (wf_last _ Hw).
  destruct (cnt_some f w) as (fp & Hfp & Hfc); [lia|]. rewrite Hc in Hfc.
  pose proof (bal_ffree _ w f fp Hfp Hfc (inv_bal _ HI)) as Hb.
  assert (Hintr : forall e, e <> 0 -> (if e =? ERESTART then EINTR else e) <> 0) by (intros e ?; by case_if).
  unfold open_failed. cbn zeta. case_if.
  2: { cbn [mbind outcome_bind mret outcome_ret]. rewrite (proj2 (Z.eqb_neq error 0)) by done.
       apply opening_forget; [by apply Hintr|done|done]. }
  set (tf := set_ofile i (Some f) fdp1) in *. assert (Hwf : wf tf) by (apply fill_wf; [done|lia]).
  assert (Hn : fd_nfiles tf = fd_nfiles fdp1) by (by eapply nfiles_insert).
  assert (Efill : forall j, slot tf j = if decide (j = i) then Some f else slot fdp1 j)
    by (intros; apply slot_insert; [lia|done]).
  destruct (dupfdopen_ok (p_fd p) i dupfd fmode tf (ffree f w)) as (e & w' & E & Hres).
  - done.
  - apply (inv_wf _ HI).
  - lia.
  - lia.
  - rewrite Efill, decide_True by done. eapply bal_ext; [|exact Hb]. intros g. unfold ind, at_file.
    repeat case_decide; simplify_eq; lia.
  - intros g. destruct (decide (g = f)) as [->|Hne].
    + unfold cnt. cbn. rewrite lookup_delete_eq. lia.
    + specialize (Hr g Hne). unfold cnt in *. cbn. by rewrite lookup_delete_ne.
  - rewrite E. cbn [mbind outcome_bind].
    destruct Hres as [(-> & HI' & g & fdp' & Hg' & Et & Hs')|[He' ->]].
    + eexists 0, i, w'. split; [done|]. split; [done|]. eapply opening_fill; [|done]. right. exists g.
      intros j. rewrite Hs'. case_decide; [done|]. by rewrite Efill, decide_False.
    + assert (e <> 0) by (by destruct He' as [->| ->]). rewrite (proj2 (Z.eqb_neq e 0)) by done.
      apply opening_forget; [by apply Hintr|done|done].
Qed.

Lemma opening_opened fmode vp : exists e v w', open_opened vop_advlock p f i fmode vp w = Ok (e, v, w') /\
  Inv w' /\ open_result p fdp e v w'.
Proof using Type Ho.
  pose proof Ho as [HI Ht Hw Hg Hi [Hri Hl] Hk Hlim Hc]. pose proof (wf_last _ Hw).
  destruct (cnt_some f w) as (fp & Hfp & Hfc); [lia|]. rewrite Hc in Hfc.
  unfold open_opened. rewrite Hfp. cbn [deref mbind outcome_bind]. cbn zeta.
  set (w2 := set_file f (set_flag _ fp) w). assert (HI2 : Inv w2) by (by eapply inv_set_file).
  assert (Hf2 : forall fp', files (set_file f fp' w) !! f = Some fp') by (intros; apply lookup_insert_eq).
  assert (Hopened : forall fp' w3, tables w3 = tables w -> files w3 = files w2 -> Inv w3 -> f_count fp' = f_count fp ->
    exists e v w', mret (0, i, set_file f fp' w3) = Ok (e, v, w') /\ Inv w' /\ open_result p fdp e v w').
  { intros fp' w3 Et Ef HI3 Hc'. eexists _, _, _. split; [done|]. split.
    - eapply (inv_set_file _ _ (set_flag (Z.land fmode FMASK) fp)); [|done|done]. rewrite Ef. apply Hf2.
    - eapply (opening_fill (set_ofile i (Some f) fdp1)); [left; intros; apply slot_insert; [lia|done]|].
      cbn. by rewrite Et. }
  case_if; [by apply Hopened|].
  match goal with |- context [advlock vop_advlock ?a ?b ?c ?d ?e w2] =>
    pose proof (inv_advlock a b c d e w2 HI2) as HI3; pose proof (advlock_log a b c d e w2) as [Et3 Ef3];
    destruct (advlock vop_advlock a b c d e w2) as [[error fl'] w3] end.
  cbn in HI3, Et3, Ef3. destruct (Z.eqb_spec error 0) as [->|He]; cbn [negb]; [by apply Hopened|].
  apply opening_forget; [done|by cbn|].
  eapply (bal_ffree _ _ _ (set_flag (Z.land fmode FMASK) fp)); [cbn; rewrite Ef3; apply Hf2|done|].
  by eapply bal_log; [..|apply (inv_bal _ HI3)].
Qed.
End Opening.

Lemma open_ok vn_open junk p mode w : Inv w -> proc_ok p w -> room w ->
  exists e v w', open vop_advlock maxfiles vn_open junk p mode w = Ok (e, v, w') /\ Inv w' /\
    forall fdp, tables w !! p_fd p = Some fdp -> open_result p fdp e v w'.
Proof.
  intros HI Hp Hr. destruct (falloc_ok junk p w HI Hp) as (e & f & i & w1 & E & HI1 & Hres).
  destruct Hp as [[fdp Ht] Hlim]. rewrite Ht. unfold open. rewrite E. cbn [mbind outcome_bind].
  destruct (Hres fdp Ht) as [(-> & _ & Hf & Hc & Hi & Hk & fdp1 & Hw1 & Hg & Hs & Hl & Ht1)|(He & fdp' & Ht' & Hs')].
  - cbn [negb Z.eqb]. cbn zeta. destruct (vn_open _ _) as [[error dupfd] vp].
    assert (Ho : opening p f i fdp fdp1 w1).
    { split; try done; [|lia]. by rewrite <- (grown_slot _ _ Hg). }
    assert (Hend : forall r, (exists e v w', r = Ok (e, v, w') /\ Inv w' /\ open_result p fdp e v w') ->
      exists e v w', r = Ok (e, v, w') /\ Inv w' /\ forall fdp0, Some fdp = Some fdp0 -> open_result p fdp0 e v w').
    { intros r (e & v & w' & Er & HI' & Hres'). exists e, v, w'. split; [done|]. split; [done|]. by intros ? [= <-]. }
    apply Hend. destruct (Z.eqb_spec error 0) as [->|Hne]; cbn [negb].
    + by eapply opening_opened.
    + eapply opening_fails; [done|done|]. intros g Hg'. rewrite Hf by done. apply Hr.
  - assert (e <> 0) by (destruct He as [[-> _]|[-> _]]; done). rewrite (proj2 (Z.eqb_neq e 0)) by done.
    eexists _, _, _. split; [done|]. split; [done|]. intros ? [= <-]. exists fdp'. split; [done|]. by right.
Qed.

(** *** fork *)

Lemma take_drop_cons {A} (l : list A) i n o : l !! i = Some o ->
  take (S n) (drop i l) = o :: take n (drop (S i) l).
Proof. intros E. by rewrite (drop_S _ _ _ E). Qed.

Lemma hold_all_ok n l i ex w : (i + n <= length l)%nat -> bal ex w ->
  (forall g, (1 <= occ g (take n (drop i l)))%nat -> 1 <= cnt g w) ->
  (forall g, cnt g w + Z.of_nat (occ g (take n (drop i l))) < 2 ^ 15) ->
  exists w', hold_all n l i w = Ok w' /\ tables w' = tables w /\
    bal (fun g => ex g + Z.of_nat (occ g (take n (drop i l)))) w'.
Proof.
  revert i ex w. induction n as [|n IH]; intros i ex w Hn Hb Hlive Hroom; cbn [hold_all].
  { exists w. split; [done|]. split; [done|]. eapply bal_ext; [|done]. intros g. rewrite take_0. unfold occ. cbn. lia. }
  destruct (lookup_lt_is_Some_2 l i) as [o Ho]; [lia|]. rewrite Ho. cbn [deref mbind outcome_bind].
  rewrite (take_drop_cons _ _ _ _ Ho) in *. setoid_rewrite occ_cons in Hlive. setoid_rewrite occ_cons in Hroom.
  assert (Hstep : exists w1, (match o with Some f => fhold f w | None => mret w end) = Ok w1 /\
    tables w1 = tables w /\ bal (fun g => ex g + Z.of_nat (ind g o)) w1).
  { destruct o as [f|].
    - destruct (fhold_ok _ f w Hb) as (w1 & E & Et & Hb1).
      + specialize (Hlive f). specialize (Hroom f). unfold ind in *. rewrite decide_True in * by done. lia.
      + exists w1. split; [done|]. split; [done|]. eapply bal_ext; [|done].
        intros g. cbn. unfold ind, at_file. repeat case_decide; simplify_eq; lia.
    - exists w. split; [done|]. split; [done|]. eapply bal_ext; [|done]. intros g. cbn. unfold ind.
      rewrite decide_False by done. lia. }
  destruct Hstep as (w1 & -> & Et & Hb1). cbn [mbind outcome_bind].
  assert (Hc : forall g, cnt g w1 = cnt g w + Z.of_nat (ind g o)).
  { intros g. rewrite (bal_cnt _ _ Hb1), (bal_cnt _ _ Hb). unfold refs. rewrite Et. lia. }
  destruct (IH (S i) _ w1 ltac:(lia) Hb1) as (w' & E & Et' & Hb').
  - intros g Hg. rewrite Hc. specialize (Hlive g). lia.
  - intros g. rewrite Hc. specialize (Hroom g). lia.
  - exists w'. split; [done|]. split; [by rewrite Et'|]. eapply bal_ext; [|done].
    intros g. cbv beta. rewrite occ_cons. lia.
Qed.

Lemma hold_all_overrun n l i w : (length l < i + n)%nat -> (i <= length l)%nat -> hold_all n l i w = Fault.
Proof.
  revert i w. induction n as [|n IH]; intros i w Hn Hi; [lia|]. cbn [hold_all].
  destruct (l !! i) as [o|] eqn:Ho; [|done]. cbn [deref mbind outcome_bind]. apply lookup_lt_Some in Ho.
  destruct o as [f|]; [|apply IH; lia]. unfold fhold.
  destruct (files w !! f); [|done]. apply IH; lia.
Qed.

Lemma bal_new_table ex w t fdp : tables w !! t = None -> bal ex w ->
  bal (fun g => ex g - Z.of_nat (occ g (fd_ofiles fdp))) (set_table t fdp w).
Proof.
  intros Ht [H1 H2]. split; [|done]. intros f. change (cnt f (set_table t fdp w)) with (cnt f w).
  rewrite H1. unfold refs, set_table; cbn [tables]. rewrite sum_map_fresh by done. lia.
Qed.

(** All references of a table are among its first slots. *)
Lemma occ_prefix fdp n g : (forall j f, slot fdp j = Some f -> j < Z.of_nat n) ->
  occ g (take n (fd_ofiles fdp)) = occ g (fd_ofiles fdp).
Proof.
  intros Hs. rewrite <- (take_drop n (fd_ofiles fdp)) at 2. rewrite occ_app.
  rewrite (occ_none g (drop n _)); [lia|]. intros o Ho ->.
  apply list_elem_of_lookup in Ho as [j Hj]. rewrite lookup_drop in Hj.
  assert (slot fdp (Z.of_nat (n + j)) = Some g) as E.
  { unfold slot. rewrite (proj2 (Z.leb_le _ _)) by lia. by rewrite Nat2Z.id, Hj. }
  apply Hs in E. lia.
Qed.

Lemma shrink_bounds fuel last i : shrink fuel last i <= i /\ (20 <= i -> 20 <= shrink fuel last i) \/ i < 0.
Proof.
  destruct (Z.lt_ge_cases i 0) as [|Hi]; [by right|left]. revert i Hi. induction fuel as [|fuel IH]; intros i Hi; cbn; [lia|].
  case_if; [|lia]. unfold NDEXTENT in *. destruct (IH (i / 2)) as [H1 H2]; [apply Z.div_pos; lia|].
  assert (50 <= i / 2) by (apply Z.div_le_lower_bound; lia).
  assert (i / 2 <= i) by (apply Z.div_le_upper_bound; lia). lia.
Qed.

Lemma copy_size_bounds fdp : wf fdp -> NDFILE <= copy_size fdp <= fd_nfiles fdp.
Proof.
  intros Hw. pose proof (wf_size _ Hw). unfold copy_size, NDFILE in *. case_if; [lia|].
  destruct (shrink_bounds (Z.to_nat (fd_nfiles fdp)) (fd_lastfile fdp) (fd_nfiles fdp)); lia.
Qed.

(** The copy, when it is long enough. *)
Definition copied (fdp : filedesc) : filedesc :=
  let i := Z.to_nat (copy_size fdp) in
  mkFiledesc (take i (fd_ofiles fdp)) (take i (fd_ofileflags fdp)) (fd_lastfile fdp) (fd_freefile fdp) 1.

Lemma copied_ok fdp : wf fdp -> fd_lastfile fdp < copy_size fdp ->
  wf (copied fdp) /\ fd_nfiles (copied fdp) = copy_size fdp /\
  (forall j, slot (copied fdp) j = slot fdp j) /\
  (forall g, occ g (fd_ofiles (copied fdp)) = occ g (fd_ofiles fdp)).
Proof.
  intros Hw Hl. pose proof (copy_size_bounds _ Hw) as Hc. pose proof (wf_last _ Hw).
  assert (En : fd_nfiles (copied fdp) = copy_size fdp).
  { unfold fd_nfiles in *. cbn [copied fd_ofiles]. rewrite length_take. unfold NDFILE in Hc. lia. }
  assert (Hs : forall j, slot (copied fdp) j = slot fdp j).
  { intros j. destruct (decide (j < copy_size fdp)) as [Hj|Hj].
    - unfold slot. case_if; [|done]. cbn [copied fd_ofiles]. by rewrite lookup_take_lt by lia.
    - rewrite slot_out by (rewrite En; lia). destruct (slot fdp j) eqn:E; [|done].
      apply (wf_above _ Hw) in E. lia. }
  split; [|split; [done|split; [done|]]].
  - pose proof (freefile_le _ Hw). destruct Hw. split; rewrite ?En; try done.
    + cbn. rewrite !length_take. lia.
    + lia.
    + cbn [copied fd_lastfile]. lia.
    + intros j Hj. rewrite Hs. auto.
    + intros j f. rewrite Hs. apply wf_above0.
  - intros g. apply occ_prefix. intros j f E. apply (wf_above _ Hw) in E. unfold NDFILE in Hc. lia.
Qed.

Lemma fdcopy_ok p fdp w : Inv w -> tables w !! p_fd p = Some fdp -> fd_lastfile fdp < copy_size fdp ->
  (forall f, 2 * cnt f w < 2 ^ 15) ->
  exists t w', fdcopy p w = Ok (t, w') /\ Inv w' /\ tables w !! t = None /\
    tables w' = <[t := copied fdp]> (tables w).
Proof.
  intros HI Ht Hl Hroom. unfold fdcopy, table. rewrite Ht. cbn [mbind outcome_bind deref].
  pose proof (inv_wf _ HI _ _ Ht) as Hw. destruct (copied_ok fdp Hw Hl) as (Hwc & Enc & Hsc & Hoc).
  pose proof (wf_last _ Hw). fold (copied fdp). set (t := new_loc (tables w)).
  assert (Hnew : tables w !! t = None) by apply new_loc_fresh.
  pose proof (bal_new_table _ w t (copied fdp) Hnew (inv_bal _ HI)) as Hb.
  set (n := Z.to_nat (fd_lastfile fdp + 1)).
  assert (Ho : forall g, occ g (take n (drop 0 (fd_ofiles (copied fdp)))) = occ g (fd_ofiles fdp)).
  { intros g. rewrite <- (Hoc g). apply occ_prefix. intros j f. rewrite Hsc. intros E. apply (wf_above _ Hw) in E. lia. }
  assert (Hcnt : forall g, Z.of_nat (occ g (fd_ofiles fdp)) <= cnt g w).
  { intros g. rewrite (bal_cnt _ _ (inv_bal _ HI)).
    pose proof (sum_map_ge (fun fdp => occ g (fd_ofiles fdp)) _ _ _ Ht) as E. unfold refs. cbn in *. lia. }
  destruct (hold_all_ok n (fd_ofiles (copied fdp)) 0 _ _ ltac:(unfold fd_nfiles in Enc; lia) Hb) as (w' & E & Et & Hb').
  - intros g. rewrite Ho. specialize (Hcnt g). change (cnt g (set_table t (copied fdp) w)) with (cnt g w). lia.
  - intros g. rewrite Ho. specialize (Hcnt g). specialize (Hroom g). change (cnt g (set_table t (copied fdp) w)) with (cnt g w). lia.
  - rewrite E. exists t, w'. split; [done|]. split; [|done]. split.
    + eapply bal_ext; [|exact Hb']. intros g. cbv beta. rewrite Ho, Hoc. lia.
    + rewrite Et. by apply wf_insert; [apply (inv_wf _ HI)|].
Qed.

(** *** exit *)

Lemma take_snoc {A} (l : list A) i o : l !! i = Some o -> take (S i) l = take i l ++ [o].
Proof. intros E. by rewrite (take_S_r _ _ _ E). Qed.

Lemma close_all_ok n p i w fdp : tables w !! p_fd p = Some fdp -> wf fdp -> (i + n <= length (fd_ofiles fdp))%nat ->
  bal (fun g => - Z.of_nat (occ g (take i (fd_ofiles fdp)))) w ->
  exists w' fdp', close_all fo_close vop_advlock n p i w = Ok w' /\ tables w' = <[p_fd p := fdp']> (tables w) /\
    fd_ofiles fdp' = fd_ofiles fdp /\ bal (fun g => - Z.of_nat (occ g (take (i + n) (fd_ofiles fdp)))) w'.
Proof.
  revert i w fdp. induction n as [|n IH]; intros i w fdp Ht Hw Hn Hb; cbn [close_all].
  { exists w, fdp. rewrite Nat.add_0_r, insert_id by done. done. }
  unfold table. rewrite Ht. cbn [deref mbind outcome_bind].
  destruct (lookup_lt_is_Some_2 (fd_ofiles fdp) i) as [o Ho]; [lia|]. rewrite Ho. cbn [deref mbind outcome_bind].
  assert (Eo : forall g, (occ g (take (S i) (fd_ofiles fdp)) = occ g (take i (fd_ofiles fdp)) + ind g o)%nat).
  { intros g. rewrite (take_snoc _ _ _ Ho), occ_app, occ_cons. change (occ g []) with 0%nat. lia. }
  assert (Hstep : exists w1 fdp1, (match o with
      | Some f => fl ← deref (fd_ofileflags fdp !! i);
          '(_, w) ← do_closef p (Some f) (set_table (p_fd p) (unmap (Z.of_nat i) fl fdp) w); mret w
      | None => mret w end) = Ok w1 /\ tables w1 = <[p_fd p := fdp1]> (tables w) /\ wf fdp1 /\
      fd_ofiles fdp1 = fd_ofiles fdp /\ bal (fun g => - Z.of_nat (occ g (take (S i) (fd_ofiles fdp)))) w1).
  { destruct o as [f|].
    - destruct (flag_lookup fdp (Z.of_nat i)) as [fl Hfl]; [done|unfold fd_nfiles; lia|].
      rewrite Nat2Z.id in Hfl. rewrite Hfl. cbn [deref mbind outcome_bind].
      destruct (unmap_same (Z.of_nat i) fl fdp) as (Eu & Hwu & _).
      pose proof (bal_set_table _ w _ _ (unmap (Z.of_nat i) fl fdp) Ht Hb) as Hb1. rewrite Eu in Hb1.
      destruct (closef_ok _ p f _ Hb1) as (e & w1 & E & Et & Hb2).
      { rewrite (bal_cnt _ _ Hb1). unfold refs at 1. cbn [tables set_table].
        pose proof (sum_map_ge (fun fdp => occ f (fd_ofiles fdp)) (<[p_fd p := unmap (Z.of_nat i) fl fdp]> (tables w))
          (p_fd p) _ (lookup_insert_eq _ _ _)) as Hge. cbn beta in Hge. rewrite Eu in Hge.
        pose proof (take_drop (S i) (fd_ofiles fdp)) as Etd. rewrite <- Etd, occ_app in Hge at 1.
        specialize (Eo f). unfold ind in Eo. rewrite decide_True in Eo by done. lia. }
      rewrite E. cbn [mbind outcome_bind]. exists w1, (unmap (Z.of_nat i) fl fdp). split; [done|]. split; [done|].
      split; [by apply Hwu|]. split; [done|]. eapply bal_ext; [|exact Hb2]. intros g. cbv beta. rewrite Eo.
      unfold ind, at_file. repeat case_decide; simplify_eq; lia.
    - exists w, fdp. rewrite insert_id by done. split; [done|]. split; [done|]. split; [done|]. split; [done|].
      eapply bal_ext; [|exact Hb]. intros g. cbv beta. rewrite Eo. unfold ind. rewrite decide_False by done. lia. }
  destruct Hstep as (w1 & fdp1 & -> & Et1 & Hw1 & Eo1 & Hb1). cbn [mbind outcome_bind].
  rewrite <- Eo1 in Hb1. destruct (IH (S i) w1 fdp1) as (w' & fdp' & E & Et & Eof & Hb'); [|done|rewrite Eo1; lia|done|].
  - by rewrite Et1, lookup_insert_eq.
  - exists w', fdp'. split; [done|]. split; [by rewrite Et, Et1, insert_insert_eq|]. split; [congruence|].
    rewrite Nat.add_succ_r. by rewrite <- Eo1.
Qed.

Lemma fdfree_ok p w : Inv w -> is_Some (tables w !! p_fd p) ->
  exists w', fdfree fo_close vop_advlock p w = Ok w' /\ Inv w' /\
    (forall fdp, tables w !! p_fd p = Some fdp -> fd_refcnt fdp = 1 -> tables w' = delete (p_fd p) (tables w)).
Proof.
  intros HI [fdp Ht]. unfold fdfree, table. rewrite Ht. cbn [mbind outcome_bind deref].
  set (fdp1 := mkFiledesc _ _ _ _ _). pose proof (inv_wf _ HI _ _ Ht) as Hw.
  assert (Hw1 : wf fdp1) by (by destruct Hw).
  assert (HI1 : Inv (set_table (p_fd p) fdp1 w)) by (eapply inv_grown; [done|done|by split|done]).
  case_if.
  { eexists _. split; [done|]. split; [done|]. intros ? [= <-] Hc. rewrite Hc in *. done. }
  pose proof (wf_last _ Hw). unfold fd_nfiles in *.
  destruct (close_all_ok (Z.to_nat (fd_lastfile fdp + 1)) p 0 (set_table (p_fd p) fdp1 w) fdp1)
    as (w' & fdp' & E & Et & Eo & Hb).
  - apply lookup_insert_eq.
  - done.
  - cbn. lia.
  - eapply bal_ext; [|apply (inv_bal _ HI1)]. intros g. rewrite take_0. done.
  - rewrite E. cbn [mbind outcome_bind]. eexists. split; [done|].
    assert (Ed : delete (p_fd p) (tables w') = delete (p_fd p) (tables w)).
    { rewrite Et. cbn. by rewrite !delete_insert_eq. }
    split; [|intros; by cbn].
    split.
    + split; [|apply (bal_live _ _ Hb)]. intros g. pose proof (bal_cnt _ _ Hb g) as Hc. cbv beta in Hc.
      rewrite occ_prefix in Hc by (intros j f Es; apply (wf_above _ Hw1) in Es; cbn in Es; lia).
      unfold cnt, refs in *. cbn [tables files].
      rewrite (sum_map_delete (fun fdp => occ g (fd_ofiles fdp)) (tables w') (p_fd p) fdp') in Hc
        by (by rewrite Et, lookup_insert_eq).
      rewrite Eo in Hc. lia.
    + cbn. rewrite Ed. intros t fdp2. rewrite lookup_delete_Some. intros [_ E2]. by eapply (inv_wf _ HI).
Qed.

(** *** exec *)

(** Descriptor [j] is marked to be closed on exec. *)
Definition excloses (fdp : filedesc) (j : Z) : Prop :=
  Z.land (default 0 (fd_ofileflags fdp !! Z.to_nat j)) UF_EXCLOSE <> 0.

#[export] Instance excloses_dec fdp j : Decision (excloses fdp j).
Proof. unfold excloses. apply _. Defined.

(** After [i] slots: those marked are closed, the rest is as it was. *)
Record exec_at (i : nat) (fdp0 fdp : filedesc) : Prop := {
  exec_size : fd_nfiles fdp = fd_nfiles fdp0;
  exec_last : fd_lastfile fdp = fd_lastfile fdp0;
  exec_slot : forall j, slot fdp j = if decide (j < Z.of_nat i /\ excloses fdp0 j) then None else slot fdp0 j;
  exec_flags : forall j : nat, (i <= j)%nat -> fd_ofileflags fdp !! j = fd_ofileflags fdp0 !! j;
}.

Lemma before_succ (j : Z) (i : nat) (P : Prop) : j <> Z.of_nat i ->
  j < Z.of_nat i /\ P <-> j < Z.of_nat (S i) /\ P.
Proof. intros Hne. split; intros [? ?]; (split; [lia|done]). Qed.

Lemma close_exec_step fdp0 i f fl fdp : wf fdp -> exec_at i fdp0 fdp -> fd_ofiles fdp !! i = Some (Some f) ->
  fd_ofileflags fdp !! i = Some fl -> Z.land fl UF_EXCLOSE <> 0 ->
  exec_at (S i) fdp0 (cleared (Z.of_nat i) 0 (unmap (Z.of_nat i) fl fdp)).
Proof.
  intros Hw [H1 H2 H3 H4] Ho Hfl He. destruct (unmap_same (Z.of_nat i) fl fdp) as (Eu & _ & Ef).
  assert (Hi : 0 <= Z.of_nat i < fd_nfiles fdp) by (apply lookup_lt_Some in Ho; unfold fd_nfiles; lia).
  assert (Hex : excloses fdp0 (Z.of_nat i)).
  { unfold excloses. rewrite <- H4 by lia. by rewrite Nat2Z.id, Hfl. }
  split.
  - rewrite <- H1. unfold fd_nfiles. by rewrite cleared_ofiles, length_insert, Eu.
  - rewrite <- H2. unfold cleared, lower_free, unmap. repeat case_if; done.
  - intros j. rewrite (slot_insert fdp (Z.of_nat i) None) by (done || by rewrite cleared_ofiles, Eu).
    rewrite H3. destruct (decide (j = Z.of_nat i)) as [->|Hne]; [rewrite decide_True by (split; [lia|done]); done|].
    by apply decide_ext, before_succ.
  - intros j Hj. rewrite <- H4 by lia. unfold cleared, lower_free.
    assert (Hne : j <> Z.to_nat (Z.of_nat i)) by lia.
    by case_if; cbn; rewrite list_lookup_insert_ne, Ef by lia.
Qed.

Lemma exec_at_skip i o fl fdp0 fdp : exec_at i fdp0 fdp -> fd_ofiles fdp !! i = Some o ->
  (o <> None -> fd_ofileflags fdp !! i = Some fl /\ Z.land fl UF_EXCLOSE = 0) -> exec_at (S i) fdp0 fdp.
Proof.
  intros [H1 H2 H3 H4] Ho Hs. split; [done|done| |intros; apply H4; lia].
  intros j. destruct (decide (j = Z.of_nat i)) as [->|Hne].
  - case_decide as Hd; [|rewrite H3, decide_False; [done|lia]]. destruct Hd as [_ He].
    assert (E : slot fdp (Z.of_nat i) = o) by (unfold slot; rewrite (proj2 (Z.leb_le _ _)), Nat2Z.id, Ho by lia; done).
    rewrite E. destruct o as [f|]; [|done]. destruct (Hs ltac:(done)) as [Hfl Hz]. exfalso. apply He.
    rewrite <- H4, Nat2Z.id, Hfl by lia. done.
  - rewrite H3. by apply decide_ext, before_succ.
Qed.

Lemma close_exec_ok n p i w fdp0 fdp : Inv w -> tables w !! p_fd p = Some fdp -> exec_at i fdp0 fdp ->
  (i + n <= length (fd_ofiles fdp))%nat ->
  exists w' fdp', close_exec fo_close vop_advlock n p i w = Ok w' /\ Inv w' /\ tables w' !! p_fd p = Some fdp' /\
    exec_at (i + n) fdp0 fdp'.
Proof.
  revert i w fdp. induction n as [|n IH]; intros i w fdp HI Ht Hex Hn; cbn [close_exec].
  { exists w, fdp. by rewrite Nat.add_0_r. }
  rewrite Nat.add_succ_r. unfold table. rewrite Ht. cbn [deref mbind outcome_bind].
  destruct (lookup_lt_is_Some_2 (fd_ofiles fdp) i) as [o Ho]; [lia|]. rewrite Ho. cbn [deref mbind outcome_bind].
  pose proof (inv_wf _ HI _ _ Ht) as Hw.
  destruct o as [f|].
  2: { apply (IH (S i) w fdp); [done|done| |lia]. by apply (exec_at_skip i None 0). }
  destruct (flag_lookup fdp (Z.of_nat i)) as [fl Hfl]; [done|unfold fd_nfiles; lia|].
  rewrite Nat2Z.id in Hfl. rewrite Hfl. cbn [deref mbind outcome_bind]. case_if.
  { apply (IH (S i) w fdp); [done|done| |lia]. by apply (exec_at_skip i (Some f) fl). }
  destruct (unmap_same (Z.of_nat i) fl fdp) as (Eu & Hwu & _). set (fdp1 := unmap _ _ _) in *.
  assert (HI1 : Inv (set_table (p_fd p) fdp1 w))
    by (eapply inv_grown; [done|done|apply unmap_grown|by apply Hwu]).
  assert (Hi : 0 <= Z.of_nat i < fd_nfiles fdp1) by (unfold fd_nfiles; rewrite Eu; lia).
  assert (Es : slot fdp1 (Z.of_nat i) = Some f).
  { unfold slot. rewrite (proj2 (Z.leb_le _ _)), Nat2Z.id, Eu, Ho by lia. done. }
  destruct (closef_ok _ p f _ (inv_bal _ HI1)) as (e & w1 & E & Et & Hb1).
  { rewrite (bal_cnt _ _ (inv_bal _ HI1)).
    pose proof (slot_refs (set_table (p_fd p) fdp1 w) _ _ _ _ (lookup_insert_eq _ _ _) Es). lia. }
  rewrite E. cbn [mbind outcome_bind]. assert (Ht1 : tables w1 !! p_fd p = Some fdp1) by (rewrite Et; apply lookup_insert_eq).
  rewrite Ht1. cbn [deref mbind outcome_bind]. fold (cleared (Z.of_nat i) 0 fdp1).
  assert (Hwc : wf (cleared (Z.of_nat i) 0 fdp1)) by (apply cleared_wf; [by apply Hwu|done]).
  apply (IH (S i) _ (cleared (Z.of_nat i) 0 fdp1)).
  - split; [|apply wf_insert; [rewrite Et; apply (inv_wf _ HI1)|done]].
    eapply bal_ext; [|apply (bal_set_table _ w1 _ fdp1 _ Ht1 Hb1)]. intros g. cbv beta. rewrite cleared_ofiles.
    pose proof (occ_insert g _ _ _ None (slot_lookup fdp1 _ Hi)) as E'. rewrite Es in E'.
    unfold ind, at_file in *. repeat case_decide; simplify_eq; lia.
  - apply lookup_insert_eq.
  - by eapply close_exec_step.
  - rewrite cleared_ofiles, length_insert, Eu. lia.
Qed.

Lemma fdcloseexec_ok p fdp w : Inv w -> tables w !! p_fd p = Some fdp ->
  exists w' fdp', fdcloseexec fo_close vop_advlock p w = Ok w' /\ Inv w' /\ tables w' !! p_fd p = Some fdp' /\
    forall j, slot fdp' j = if decide (excloses fdp j) then None else slot fdp j.
Proof. clear pgid_of maxfdescs copyout_flock copyin_flock.
  intros HI Ht. unfold fdcloseexec, table. rewrite Ht. cbn [mbind outcome_bind deref].
  pose proof (inv_wf _ HI _ _ Ht) as Hw. pose proof (wf_last _ Hw) as Hl. set (n := Z.to_nat (fd_lastfile fdp + 1)).
  assert (Hex : exec_at 0 fdp fdp).
  { split; [done|done| |done]. intros j. case_decide; [|done]. destruct (slot fdp j) eqn:E; [|done].
    apply slot_range in E. lia. }
  destruct (close_exec_ok n p 0 w fdp fdp HI Ht Hex) as (w1 & fdp1 & E & HI1 & Ht1 & [E1 E2 E3 _]); [unfold fd_nfiles in Hl; lia|].
  rewrite E. cbn [mbind outcome_bind]. rewrite Ht1. cbn [mbind outcome_bind deref].
  pose proof (inv_wf _ HI1 _ _ Ht1) as Hw1.
  destruct (trim_ok fdp1) as (l & -> & Hl1 & Hs1); [apply (wf_last _ Hw1)|apply (wf_last16 _ Hw1)|apply (wf_above _ Hw1)|].
  cbn [mbind outcome_bind]. eexists _, _. split; [done|]. split.
  - eapply inv_grown; [done|done|by split|by apply wf_trim].
  - split; [apply lookup_insert_eq|]. intros j. etrans; [by apply (slot_ext fdp1)|]. rewrite E3.
    repeat case_decide; try tauto. destruct (slot fdp j) eqn:Es; [|done]. apply (wf_above _ Hw) in Es. exfalso. apply H. split; [lia|done].
Qed.

(** *** Events *)

Context (vn_open : Z -> Z -> Z * Z * Z) (junk : file).
#[local] Abbreviation do_event :=
  (run_fd fo_close fo_ioctl vop_advlock copyin_flock copyout_flock pgid_of vn_open junk maxfdescs maxfiles).

(** when the highest descriptor in use is exactly half the size of a table
    of more than 100 slots, [fdcopy] allocates a copy one slot too short: that
    descriptor is not in the child's table, and the loop that counts the
    references reads past the end of the array (into the flags behind it). *)
Theorem fdcopy_overrun p fdp w : tables w !! p_fd p = Some fdp -> 50 < fd_lastfile fdp ->
  fd_nfiles fdp = 2 * fd_lastfile fdp -> fdcopy p w = Fault.
Proof.
  intros Ht Hl Hn. unfold fdcopy, table. rewrite Ht. cbn [deref mbind outcome_bind].
  assert (Es : copy_size fdp = fd_lastfile fdp).
  { unfold copy_size. rewrite (proj2 (Z.ltb_ge _ _)) by (unfold NDFILE; lia). rewrite Hn.
    destruct (Z.to_nat (2 * fd_lastfile fdp)) as [|[|n]] eqn:E; [lia|lia|].
    cbn [shrink]. unfold NDEXTENT. rewrite (proj2 (Z.ltb_lt (2 * 50) (2 * fd_lastfile fdp))) by lia.
    rewrite (proj2 (Z.leb_le (fd_lastfile fdp * 2) _)) by lia. cbn [andb].
    replace (2 * fd_lastfile fdp / 2) with (fd_lastfile fdp) by (rewrite Z.mul_comm, Z.div_mul; lia).
    rewrite (proj2 (Z.leb_gt (fd_lastfile fdp * 2) _)) by lia. by rewrite andb_false_r. }
  rewrite hold_all_overrun; [done| |lia]. cbn [fd_ofiles]. rewrite Es, length_take. unfold fd_nfiles in Hn. lia.
Qed.

(** F_DUPFD reads the flags of the descriptor from the old arrays after
    [fdalloc] has replaced and freed them: with a table of more than 20 slots
    whose descriptors from the argument on are all in use, and room below
    the limit. *)
Theorem dupfd_use_after_free p fd arg fdp w : 0 <= maxfdescs <= 65536 -> Inv w -> proc_ok p w -> room w ->
  tables w !! p_fd p = Some fdp -> slot fdp (u32 fd) <> None -> u32 arg < Z.min (p_nofile p) maxfdescs ->
  stale (p_nofile p) (u32 arg) fdp ->
  fcntl fo_ioctl vop_advlock copyin_flock copyout_flock pgid_of maxfdescs p fd 0 arg w = Fault.
Proof.
  intros Hmax HI [_ Hlim] Hr Ht Hf Ha Hst. destruct (slot fdp (u32 fd)) as [f|] eqn:Ef; [|done].
  pose proof (dupfd_ok p (u32 fd) f fdp arg w Hmax HI Ht Hlim Hr Ef) as Hd. rewrite decide_True in Hd by done.
  unfold fcntl, table. rewrite Ht. cbn [deref mbind outcome_bind]. rewrite getfile_slot, Ef.
  destruct (fd_ofileflags fdp !! Z.to_nat (u32 fd)); [|done]. cbn [deref mbind outcome_bind].
  destruct (files w !! f); [|done]. cbn [deref mbind outcome_bind Z.eqb]. by apply Hd.
Qed.

(** A copy of a table that has no slot for the highest descriptor in use. *)
Lemma fdcopy_short p fdp w : wf fdp -> tables w !! p_fd p = Some fdp -> copy_size fdp <= fd_lastfile fdp -> fdcopy p w = Fault.
Proof.
  intros Hw Ht Hs. pose proof (wf_last _ Hw). unfold fdcopy, table. rewrite Ht. cbn [deref mbind outcome_bind].
  rewrite hold_all_overrun; [done| |lia]. cbn [fd_ofiles]. rewrite length_take. lia.
Qed.

(** The two calls with a flaw, and when it shows: fcntl(F_DUPFD) of an open
    descriptor, whose argument is below the limits, when [fdalloc] gets new arrays for
    the table (see [dupfd_use_after_free]); and fork, when the copy of the table has
    no slot for the highest descriptor in use (see [fdcopy_overrun]). *)
Definition flawed (p : fdproc) (ev : fdevent) (w : fworld) : Prop :=
  exists fdp, tables w !! p_fd p = Some fdp /\
  match ev with
  | EFcntl fd cmd arg => cmd = 0 /\ slot fdp (u32 fd) <> None /\ u32 arg < Z.min (p_nofile p) maxfdescs /\
      stale (p_nofile p) (u32 arg) fdp
  | EFork => copy_size fdp <= fd_lastfile fdp
  | _ => False
  end.

#[local] Instance stale_dec lim want fdp : Decision (stale lim want fdp).
Proof.
  destruct (decide (NDFILE < fd_nfiles fdp < lim)) as [H1|H1]; [|right; intros [? _]; done].
  destruct (decide (Forall (fun j => slot fdp j <> None) (seqZ want (fd_nfiles fdp - want)))) as [H2|H2].
  - left. split; [done|]. intros j Hj. rewrite list.Forall_forall in H2. apply H2, elem_of_seqZ. lia.
  - right. intros [_ HS]. apply H2, list.Forall_forall. intros j Hj%elem_of_seqZ. apply HS. lia.
Qed.

#[local] Instance flawed_dec p ev w : Decision (flawed p ev w).
Proof using maxfdescs.
  unfold flawed. destruct (tables w !! p_fd p) as [fdp|]; [|right; by intros (?&?&_)].
  destruct ev; try (right; by intros (?&_&?)).
  - destruct (decide (cmd = 0 /\ slot fdp (u32 fd) <> None /\ u32 arg < Z.min (p_nofile p) maxfdescs /\ stale (p_nofile p) (u32 arg) fdp)) as [H|H];
      [left; by exists fdp|right]. intros (?&[= <-]&?). by apply H.
  - destruct (decide (copy_size fdp <= fd_lastfile fdp)) as [H|H]; [left; by exists fdp|right]. intros (?&[= <-]&?). by apply H.
Qed.

(** C9. From any state where the tables are well-formed and the counts right, below
    16384 at a fork and below 32767 else, a system call on descriptors ends in one
    of two ways.  In two cases the kernel uses memory it does not own: fcntl(F_DUPFD)
    of an open descriptor that has to enlarge a table of more than 20 slots, and a
    fork whose copy of the table has no slot for the highest descriptor in use.  In
    every other case it neither panics nor touches such memory, and afterwards the
    count of every open file is again exactly the number of descriptors that refer to
    it in all tables, so that a file lives as long as some descriptor refers to it and
    not longer; the tables stay well-formed. *)
Theorem fd_event_safe p ev w : 0 <= maxfdescs <= 65536 -> Inv w -> proc_ok p w -> room w ->
  (ev = EFork -> forall f, 2 * cnt f w < 2 ^ 15) ->
  (flawed p ev w /\ do_event p ev w = Fault) \/
  (~ flawed p ev w /\ exists w', do_event p ev w = Ok w' /\ Inv w').
Proof.
  intros Hmax HI Hp Hr Hroom. pose proof Hp as [[fdp Ht] Hlim]. destruct (decide (flawed p ev w)) as [Hf|Hf]; [left|right]; (split; [done|]).
  - destruct Hf as (fdp'&Ht'&Hf). rewrite Ht in Ht'. injection Ht' as <-. destruct ev; try done; cbn [run_fd].
    + destruct Hf as (->&Ho&Ha&Hst). by rewrite (dupfd_use_after_free p fd arg fdp w Hmax HI Hp Hr Ht Ho Ha Hst).
    + by rewrite (fdcopy_short p fdp w (inv_wf _ HI _ _ Ht) Ht Hf).
  - destruct ev; cbn [run_fd].
    + destruct (dup_ok p i to w Hmax HI Hp Hr) as (? & ? & w' & -> & ? & _). by exists w'.
    + destruct (dup2_ok p from to w Hmax HI Hp Hr) as (? & ? & w' & -> & ? & _). by exists w'.
    + destruct (fcntl_ok p fd cmd arg w Hmax HI Hp Hr) as (? & ? & ? & w' & -> & ?); [|by exists w'].
      intros Hcmd fdp' Ht' Ho Ha Hst. apply Hf. by exists fdp'.
    + destruct (close_ok p fd w HI Hp) as (? & w' & -> & ? & _). by exists w'.
    + destruct (flock_ok p fd how w HI Hp) as (? & w' & -> & ?). by exists w'.
    + destruct (open_ok vn_open junk p mode w HI Hp Hr) as (? & ? & w' & -> & ? & _). by exists w'.
    + destruct (fdcopy_ok p fdp w HI Ht) as (? & w' & -> & ? & _); [|by apply Hroom|by exists w'].
      apply Z.nle_gt. intros Hle. apply Hf. by exists fdp.
    + destruct (fdfree_ok p w HI) as (w' & -> & ? & _); [by eexists|]. by exists w'.
    + destruct (fdcloseexec_ok p fdp w HI Ht) as (w' & ? & -> & ? & _). by exists w'.
Qed.

(** what [dup2] and [dup] return.  dup2 fails with EBADF, and changes
    nothing, if the first descriptor is not open or the second out of
    bounds; otherwise it succeeds: afterwards the second refers to the file
    of the first, without the close-on-exec flag, and every other descriptor
    is as before (its panic cannot happen).  dup of a descriptor below 64 takes the least free
    one, or fails with EMFILE when none is free below the limit; dup of a
    larger number is a dup2 of its low six bits. *)
Theorem dup_dup2_spec p a b w : 0 <= maxfdescs <= 65536 -> Inv w -> proc_ok p w -> room w ->
  (exists e v w', do_dup2 p a b w = Ok (e, v, w') /\ dup2_result p a b w e v w') /\
  (exists e v w', do_dup p a b w = Ok (e, v, w') /\
    if decide (0 <= u32 a < 64) then dup_result p (u32 a) 0 w e v w'
    else dup2_result p (Z.land (u32 a) 63) b w e v w').
Proof.
  intros Hmax HI Hp Hr. split.
  - destruct (dup2_ok p a b w Hmax HI Hp Hr) as (e & v & w' & ? & _ & ?). by exists e, v, w'.
  - destruct (dup_ok p a b w Hmax HI Hp Hr) as (e & v & w' & ? & _ & ?). by exists e, v, w'.
Qed.

(** [open] returns the least free descriptor, which then refers to an open
    file (a new one, or for /dev/fd one that was open), or an error; in
    either case no other descriptor changes, and the slot it had taken is
    free again when it fails. *)
Theorem open_spec p mode w : Inv w -> proc_ok p w -> room w ->
  exists e v w', open vop_advlock maxfiles vn_open junk p mode w = Ok (e, v, w') /\
    forall fdp, tables w !! p_fd p = Some fdp -> open_result p fdp e v w'.
Proof.
  intros HI Hp Hr. destruct (open_ok vn_open junk p mode w HI Hp Hr) as (e & v & w' & ? & _ & ?). by exists e, v, w'.
Qed.

(** fork, exec, exit and close on descriptor tables.  fork gives the child
    a table of its own with the same descriptors (when the copy is long
    enough), exec closes exactly the descriptors with the close-on-exec flag,
    exit releases the table, and close empties its one slot. *)
Theorem fork_exec_exit_close_spec p fdp w : Inv w -> proc_ok p w -> tables w !! p_fd p = Some fdp ->
  (fd_lastfile fdp < copy_size fdp -> (forall f, 2 * cnt f w < 2 ^ 15) ->
     exists t w' fdp', fdcopy p w = Ok (t, w') /\ tables w !! t = None /\ tables w' = <[t := fdp']> (tables w) /\
       fd_refcnt fdp' = 1 /\ forall j, slot fdp' j = slot fdp j) /\
  (exists w' fdp', fdcloseexec fo_close vop_advlock p w = Ok w' /\ tables w' !! p_fd p = Some fdp' /\
     forall j, slot fdp' j = if decide (excloses fdp j) then None else slot fdp j) /\
  (fd_refcnt fdp = 1 -> exists w', fdfree fo_close vop_advlock p w = Ok w' /\ tables w' = delete (p_fd p) (tables w)) /\
  (forall fd, exists e w', close fo_close vop_advlock p fd w = Ok (e, w') /\
     match slot fdp (u32 fd) with
     | None => e = EBADF /\ w' = w
     | Some f => exists fdp', tables w' !! p_fd p = Some fdp' /\
         forall j, slot fdp' j = if decide (j = u32 fd) then None else slot fdp j
     end).
Proof.
  intros HI Hp Ht. split; [|split; [|split]].
  - intros Hl Hr. destruct (fdcopy_ok p fdp w HI Ht Hl Hr) as (t & w' & E & _ & Hn & Et).
    destruct (copied_ok fdp (inv_wf _ HI _ _ Ht) Hl) as (_ & _ & Hs & _). by exists t, w', (copied fdp).
  - destruct (fdcloseexec_ok p fdp w HI Ht) as (w' & fdp' & E & _ & Et & Hs). by exists w', fdp'.
  - intros Hc. destruct (fdfree_ok p w HI) as (w' & E & _ & Hd); [by eexists|]. exists w'. split; [done|]. by eapply Hd.
  - intros fd. destruct (close_ok p fd w HI Hp) as (e & w' & E & _ & Hs). exists e, w'. split; [done|]. by apply Hs.
Qed.

End Safety.

(** ** Concrete worlds *)

Definition wfb (fdp : filedesc) : bool :=
  bool_decide (length (fd_ofileflags fdp) = length (fd_ofiles fdp)) &&
  bool_decide (NDFILE <= fd_nfiles fdp <= 131072) &&
  bool_decide (0 <= fd_lastfile fdp < fd_nfiles fdp) && bool_decide (fd_lastfile fdp < 65536) &&
  bool_decide (0 <= fd_freefile fdp < 65536) &&
  forallb (fun i => negb (bool_decide (slot fdp (Z.of_nat i) = None))) (seq 0 (Z.to_nat (fd_freefile fdp))) &&
  forallb (fun i => bool_decide (slot fdp (Z.of_nat i) = None) || (Z.of_nat i <=? fd_lastfile fdp))
    (seq 0 (length (fd_ofiles fdp))).

Lemma wfb_ok fdp : wfb fdp = true -> wf fdp.
Proof.
  unfold wfb. rewrite !andb_true_iff, !bool_decide_eq_true, !forallb_forall.
  intros ((((((H1 & H2) & H3) & H4) & H5) & H6) & H7). split; try done.
  - intros i Hi. specialize (H6 (Z.to_nat i)). rewrite in_seq, Z2Nat.id in H6 by lia.
    by apply negb_true_iff, bool_decide_eq_false in H6; [|lia].
  - intros i f E. pose proof (slot_range _ _ _ E) as Hr. specialize (H7 (Z.to_nat i)).
    rewrite in_seq, Z2Nat.id, E in H7 by lia. unfold fd_nfiles in Hr.
    rewrite bool_decide_eq_false_2 in H7 by done. apply Z.leb_le, H7. lia.
Qed.

Definition live_slot (w : fworld) (o : option loc) : bool :=
  match o with Some f => bool_decide (is_Some (files w !! f)) | None => true end.

Definition checked (w : fworld) : bool :=
  bool_decide (map_Forall (fun _ fdp => wfb fdp = true /\ forallb (live_slot w) (fd_ofiles fdp) = true) (tables w)) &&
  bool_decide (map_Forall (fun f fp => f_count fp = Z.of_nat (refs f w) /\ 0 < f_count fp < 2 ^ 14) (files w)).

Lemma checked_ok w : checked w = true -> Inv w /\ room w /\ forall f, 2 * cnt f w < 2 ^ 15.
Proof.
  unfold checked. rewrite andb_true_iff, !bool_decide_eq_true. intros [Ht Hf].
  assert (Hc : forall f, cnt f w = Z.of_nat (refs f w) /\ cnt f w < 2 ^ 14).
  { intros f. unfold cnt. destruct (files w !! f) as [fp|] eqn:E.
    - destruct (Hf f fp E). split; [done|lia].
    - split; [|lia]. unfold refs. rewrite sum_map_zero; [done|]. intros t fdp Et. apply occ_none. intros o Ho ->.
      destruct (Ht t fdp Et) as [_ Hs]. rewrite forallb_forall in Hs. apply list_elem_of_In in Ho.
      specialize (Hs _ Ho). cbn in Hs. rewrite E in Hs. done. }
  split; [|split; intros f; destruct (Hc f); lia]. split.
  - split; [intros f; destruct (Hc f); lia|]. intros f fp E. destruct (Hf f fp E). lia.
  - intros t fdp E. apply wfb_ok, (Ht t fdp E).
Qed.

(** A table of [n] slots with file 1 in the first [used], one close-on-exec. *)
Definition table1 (n used last free : nat) : filedesc :=
  mkFiledesc (replicate used (Some 1%positive) ++ replicate (n - used) None) (replicate 1 0 ++ replicate 1 1 ++ replicate (n - 2) 0)
    (Z.of_nat last) (Z.of_nat free) 1.
Definition world1 (n used last free : nat) (count : Z) : fworld :=
  mkFworld {[1%positive := table1 n used last free]} {[1%positive := mkFile count DTYPE_VNODE FREAD 7 0]} 1 (fun _ => 0) [].
Definition proc1 : fdproc := mkFdproc 1 64 true.

Definition w_small : fworld := world1 20 3 2 3 3.
Definition w_full : fworld := world1 50 50 49 50 50.

(** Descriptor 100 is the highest in use of 200. *)
Definition w_half : fworld :=
  mkFworld {[1%positive := set_ofile 100 (Some 1%positive) (table1 200 3 100 3)]}
    {[1%positive := mkFile 4 DTYPE_VNODE FREAD 7 0]} 1 (fun _ => 0) [].

Lemma small_ok : Inv w_small /\ room w_small /\ forall f, 2 * cnt f w_small < 2 ^ 15.
Proof. apply checked_ok. by vm_compute. Defined.
Lemma full_table_ok : Inv w_full /\ room w_full /\ forall f, 2 * cnt f w_full < 2 ^ 15.
Proof. apply checked_ok. by vm_compute. Defined.
Lemma half_ok : Inv w_half /\ room w_half /\ forall f, 2 * cnt f w_half < 2 ^ 15.
Proof. apply checked_ok. by vm_compute. Defined.
Lemma proc1_ok w : is_Some (tables w !! 1%positive) -> proc_ok proc1 w.
Proof. intros Ht. split; [done|cbn; lia]. Defined.

Definition close0 (f : loc) : Z := 0.
Definition ioctl0 (f : loc) (cmd data : Z) : Z * Z := (0, 0).
Definition advlock0 (vp : Z) (id : option loc) (op : Z) (fl : flock) (flags : Z) : Z * flock := (0, fl).
Definition copyin0 (a : Z) : option flock := Some (mkFlock F_WRLCK 0 0 0 0).
Definition vn_open0 (d m : Z) : Z * Z * Z := (0, d, 9).

Lemma fdalloc_spec_witness : wf (table1 20 20 19 20) /\
  exists e i fdp' mv, fdalloc fd_fuel 64 0 (table1 20 20 19 20) false = Ok (e, i, fdp', mv) /\ i = 20 /\ wf fdp'.
Proof.
  assert (Hw : wf (table1 20 20 19 20)) by (apply wfb_ok; by vm_compute).
  split; [done|]. destruct (fdalloc_spec 64 0 _ Hw ltac:(lia) ltac:(lia)) as (e & i & fdp' & mv & E & Hw' & _).
  exists e, i, fdp', mv. split; [done|]. split; [|done]. by vm_compute in E; injection E as <- <- <- <-.
Defined.

Lemma fd_event_safe_witness : exists w', run_fd close0 ioctl0 advlock0 copyin0 (fun _ _ => 0) Some vn_open0
    (mkFile 0 0 0 0 0) 64 100 proc1 EFork w_small = Ok w' /\ Inv w'.
Proof.
  destruct small_ok as (HI & Hr & Hc).
  destruct (fd_event_safe close0 ioctl0 advlock0 copyin0 (fun _ _ => 0) Some 64 100 vn_open0 (mkFile 0 0 0 0 0)
    proc1 EFork w_small) as [(_ & E)|(_ & H)]; [lia|done|by apply proc1_ok|done| | |exact H].
  - intros _. exact Hc.
  - exfalso. by vm_compute in E.
Defined.

Lemma dup_dup2_spec_witness : exists e v w', dup2 close0 advlock0 64 proc1 0 30 w_small = Ok (e, v, w') /\ v = 30.
Proof.
  destruct small_ok as (HI & Hr & _).
  destruct (dup_dup2_spec close0 advlock0 64 proc1 0 30 w_small) as [(e & v & w' & E & _) _];
    [lia|done|by apply proc1_ok|done|].
  exists e, v, w'. split; [done|]. vm_compute in E. by injection E as <- <- <-.
Defined.

Lemma open_spec_witness : exists e v w', open advlock0 100 vn_open0 (mkFile 0 0 0 0 0) proc1 0 w_small = Ok (e, v, w') /\ v = 3.
Proof.
  destruct small_ok as (HI & Hr & _).
  destruct (open_spec advlock0 100 vn_open0 (mkFile 0 0 0 0 0) proc1 0 w_small) as (e & v & w' & E & _);
    [done|by apply proc1_ok|done|].
  exists e, v, w'. split; [done|]. vm_compute in E. by injection E as <- <- <-.
Defined.

Lemma fork_exec_exit_close_spec_witness : exists w' fdp', fdcloseexec close0 advlock0 proc1 w_small = Ok w' /\
  tables w' !! 1%positive = Some fdp' /\ slot fdp' 0 = Some 1%positive /\ slot fdp' 1 = None.
Proof.
  destruct small_ok as (HI & _).
  destruct (fork_exec_exit_close_spec close0 advlock0 proc1 (table1 20 3 2 3) w_small) as (_ & (w' & fdp' & E & Et & Hs) & _);
    [done|by apply proc1_ok|done|].
  exists w', fdp'. rewrite !Hs. by vm_compute in E |- *.
Defined.

Lemma fdcopy_overrun_witness : Inv w_half /\ fdcopy proc1 w_half = Fault.
Proof.
  split; [apply half_ok|].
  apply (fdcopy_overrun proc1 (set_ofile 100 (Some 1%positive) (table1 200 3 100 3))); [done|cbn; lia|by vm_compute].
Defined.

Lemma dupfd_use_after_free_witness : Inv w_full /\
  fcntl ioctl0 advlock0 copyin0 (fun _ _ => 0) Some 64 proc1 0 0 0 w_full = Fault.
Proof.
  destruct full_table_ok as (HI & Hr & _). split; [done|].
  apply (dupfd_use_after_free ioctl0 advlock0 copyin0 (fun _ _ => 0) Some 64 proc1 0 0 (table1 50 50 49 50) w_full);
    [lia|done|by apply proc1_ok|done|done|by vm_compute|by vm_compute|].
  split; [by vm_compute|]. intros j Hj. assert (Hw : wf (table1 50 50 49 50)) by (apply (inv_wf _ HI 1%positive); done).
  apply (wf_below _ Hw). by vm_compute in Hj |- *.
Defined.
