(* ===== verification/Pgrp.v ===== *)
(** * Process groups and sessions (sys/kern/kern_proc.c; setsid, setpgid and the
      login name of sys/kern/kern_prot.c; the controlling terminal of
      sys/kern/tty.c and sys/kern/vfs_vnops.c)

    Processes, process groups, sessions and terminals are records in stores, and
    refer to one another by address.  A list threaded through the records (the
    members of a group, a hash chain, the children of a process) is the list of
    its elements, in order.  Calls into other parts of the kernel, signals
    among them, are logged in the order they are made. *)

From S2P Require Import Prelude Cred.
From S2P Require Resource TimeVal.

Definition ECHILD : Z := 10.
Definition ENOTTY : Z := 25.
Definition SIGHUP : Z := 1.
Definition SIGKILL : Z := 9.
Definition SIGCONT : Z := 19.
Definition SIGCHLD : Z := 20.
Definition SZOMB : Z := 5.
Definition SSTOP : Z := 6.
Definition SCTTY : Z := 0x8.
Definition SEXEC : Z := 0x20.
Definition NO_PID : Z := 30001.
Definition MAXLOGNAME : nat := 12.

(** The hash table has 64 chains or more, a power of two. *)
Definition PIDHSZ : Z := 64.
Definition PIDHASH (pid : Z) : Z := Z.land pid (PIDHSZ - 1).

Record proc := mkProc {
  p_pid : Z;
  p_pgrp : option loc;
  p_pptr : option loc;     (* the parent *)
  p_cptr : list loc;       (* the children, youngest first (p_osptr, p_ysptr) *)
  p_stat : Z;
  p_flag : Z;
  p_xstat : Z;
  p_utime : TimeVal.timeval;
  p_stime : TimeVal.timeval;
  p_sru : Resource.rusage;           (* p_stats->p_ru *)
  p_cru : Resource.rusage;           (* p_stats->p_cru *)
  p_ru : option Resource.rusage;     (* exit information *)
}.

Record pgrp := mkPgrp { pg_id : Z; pg_mem : list loc; pg_session : loc; pg_jobc : Z }.

Record session := mkSession {
  s_count : Z;
  s_leader : option loc;
  s_ttyvp : option Z;
  s_ttyp : option loc;
  s_login : list Z;
}.

Record tty := mkTty { t_session : option loc; t_pgrp : option loc }.

(** The calls of other components. *)
Inductive pevent :=
  | Psignal (p : loc) (sig : Z)
  | Wakeup (p : loc)
  | Ttywait (t : loc)
  | Vgoneall (vp : Z)
  | Vref (vp : Z)
  | Vrele (vp : Z)
  | Acct (p : loc)
  | Untimeout (p : loc)
  | Fdfree (p : loc)
  | Limfree (p : loc)
  | Crfree (p : loc)
  | CpuExit (p : loc)
  | CpuWait (p : loc).

Record pworld := mkPworld {
  procs : gmap loc proc;
  pgrps : gmap loc pgrp;
  sessions : gmap loc session;
  ttys : gmap loc tty;
  pidhash : gmap Z (list loc);
  pgrphash : gmap Z (list loc);
  allproc : list loc;
  zombproc : list loc;
  nprocs : Z;
  proc0 : loc;
  initproc : loc;
  plog : list pevent;
}.

Definition set_procs (m : gmap loc proc) (w : pworld) : pworld :=
  mkPworld m (pgrps w) (sessions w) (ttys w) (pidhash w) (pgrphash w) (allproc w) (zombproc w)
    (nprocs w) (proc0 w) (initproc w) (plog w).
Definition set_pgrps (m : gmap loc pgrp) (w : pworld) : pworld :=
  mkPworld (procs w) m (sessions w) (ttys w) (pidhash w) (pgrphash w) (allproc w) (zombproc w)
    (nprocs w) (proc0 w) (initproc w) (plog w).
Definition set_sessions (m : gmap loc session) (w : pworld) : pworld :=
  mkPworld (procs w) (pgrps w) m (ttys w) (pidhash w) (pgrphash w) (allproc w) (zombproc w)
    (nprocs w) (proc0 w) (initproc w) (plog w).
Definition set_ttys (m : gmap loc tty) (w : pworld) : pworld :=
  mkPworld (procs w) (pgrps w) (sessions w) m (pidhash w) (pgrphash w) (allproc w) (zombproc w)
    (nprocs w) (proc0 w) (initproc w) (plog w).
Definition set_pidhash (m : gmap Z (list loc)) (w : pworld) : pworld :=
  mkPworld (procs w) (pgrps w) (sessions w) (ttys w) m (pgrphash w) (allproc w) (zombproc w)
    (nprocs w) (proc0 w) (initproc w) (plog w).
Definition set_pgrphash (m : gmap Z (list loc)) (w : pworld) : pworld :=
  mkPworld (procs w) (pgrps w) (sessions w) (ttys w) (pidhash w) m (allproc w) (zombproc w)
    (nprocs w) (proc0 w) (initproc w) (plog w).
Definition set_lists (all zomb : list loc) (n : Z) (w : pworld) : pworld :=
  mkPworld (procs w) (pgrps w) (sessions w) (ttys w) (pidhash w) (pgrphash w) all zomb
    n (proc0 w) (initproc w) (plog w).
Definition add_plog (es : list pevent) (w : pworld) : pworld :=
  mkPworld (procs w) (pgrps w) (sessions w) (ttys w) (pidhash w) (pgrphash w) (allproc w) (zombproc w)
    (nprocs w) (proc0 w) (initproc w) (plog w ++ es).

Definition set_p_pgrp (g : option loc) (P : proc) : proc :=
  mkProc (p_pid P) g (p_pptr P) (p_cptr P) (p_stat P) (p_flag P) (p_xstat P) (p_utime P) (p_stime P)
    (p_sru P) (p_cru P) (p_ru P).
Definition set_p_pptr (q : option loc) (P : proc) : proc :=
  mkProc (p_pid P) (p_pgrp P) q (p_cptr P) (p_stat P) (p_flag P) (p_xstat P) (p_utime P) (p_stime P)
    (p_sru P) (p_cru P) (p_ru P).
Definition set_p_cptr (l : list loc) (P : proc) : proc :=
  mkProc (p_pid P) (p_pgrp P) (p_pptr P) l (p_stat P) (p_flag P) (p_xstat P) (p_utime P) (p_stime P)
    (p_sru P) (p_cru P) (p_ru P).
Definition set_p_stat (s : Z) (P : proc) : proc :=
  mkProc (p_pid P) (p_pgrp P) (p_pptr P) (p_cptr P) s (p_flag P) (p_xstat P) (p_utime P) (p_stime P)
    (p_sru P) (p_cru P) (p_ru P).
Definition set_p_flag (f : Z) (P : proc) : proc :=
  mkProc (p_pid P) (p_pgrp P) (p_pptr P) (p_cptr P) (p_stat P) f (p_xstat P) (p_utime P) (p_stime P)
    (p_sru P) (p_cru P) (p_ru P).
Definition set_mem (l : list loc) (G : pgrp) : pgrp := mkPgrp (pg_id G) l (pg_session G) (pg_jobc G).
Definition set_jobc (n : Z) (G : pgrp) : pgrp := mkPgrp (pg_id G) (pg_mem G) (pg_session G) n.
Definition set_count (n : Z) (S : session) : session :=
  mkSession n (s_leader S) (s_ttyvp S) (s_ttyp S) (s_login S).

(** ** Lookup *)

Definition chain (h : gmap Z (list loc)) (n : Z) : list loc := default [] (h !! n).

(** The element of a chain with a given key. *)
Fixpoint chain_find {A} (m : gmap loc A) (key : A -> Z) (id : Z) (l : list loc) : outcome (option loc) :=
  match l with
  | [] => mret None
  | p :: l =>
      P ← deref (m !! p);
      if key P =? id then mret (Some p) else chain_find m key id l
  end.

(** A list without the first occurrence of an element, if it is there. *)
Fixpoint unlink (p : loc) (l : list loc) : option (list loc) :=
  match l with
  | [] => None
  | q :: l => if decide (q = p) then Some l else (q ::.) <$> unlink p l
  end.

Definition pfind (pid : Z) (w : pworld) : outcome (option loc) :=
  chain_find (procs w) p_pid pid (chain (pidhash w) (PIDHASH pid)).

Definition pgfind (pgid : Z) (w : pworld) : outcome (option loc) :=
  let pgid := s16 pgid in
  chain_find (pgrps w) pg_id pgid (chain (pgrphash w) (PIDHASH pgid)).

(** [p->p_pgrp] and [p->p_session]. *)
Definition group_of (p : loc) (w : pworld) : outcome loc :=
  P ← deref (procs w !! p); deref (p_pgrp P).
Definition session_of (p : loc) (w : pworld) : outcome loc :=
  g ← group_of p w; G ← deref (pgrps w !! g); mret (pg_session G).

Definition SESS_LEADER (p : loc) (w : pworld) : outcome bool :=
  s ← session_of p w;
  S ← deref (sessions w !! s);
  mret (bool_decide (s_leader S = Some p)).

(** The walk of [inferior] towards the root, of at most [n] steps. *)
Fixpoint inferior_loop (n : nat) (curproc p : loc) (w : pworld) : outcome bool :=
  if decide (p = curproc) then mret true
  else
    match n with
    | O => Fault
    | S n =>
        P ← deref (procs w !! p);
        if p_pid P =? 0 then mret false
        else q ← deref (p_pptr P); inferior_loop n curproc q w
    end.
Definition inferior (curproc p : loc) (w : pworld) : outcome bool :=
  inferior_loop (size (procs w)) curproc p w.

(** ** Job control counts *)

Fixpoint some_stopped (l : list loc) (w : pworld) : outcome bool :=
  match l with
  | [] => mret false
  | p :: l => P ← deref (procs w !! p); if p_stat P =? SSTOP then mret true else some_stopped l w
  end.

Definition hup_cont (l : list loc) : list pevent := l ≫= (fun p => [Psignal p SIGHUP; Psignal p SIGCONT]).

Definition orphanpg (g : loc) (w : pworld) : outcome pworld :=
  G ← deref (pgrps w !! g);
  b ← some_stopped (pg_mem G) w;
  mret (if (b : bool) then add_plog (hup_cont (pg_mem G)) w else w).

(** [pg->pg_jobc++], or [if (--pg->pg_jobc == 0) orphanpg(pg)]. *)
Definition adjust (g : loc) (entering : bool) (w : pworld) : outcome pworld :=
  G ← deref (pgrps w !! g);
  if entering then mret (set_pgrps (<[g := set_jobc (pg_jobc G + 1) G]> (pgrps w)) w)
  else
    let n := pg_jobc G - 1 in
    let w := set_pgrps (<[g := set_jobc n G]> (pgrps w)) w in
    if n =? 0 then orphanpg g w else mret w.

(** Whether another group, [h], is of the session [s] of the group [g]. *)
Definition counts_for (g s h : loc) (w : pworld) : outcome bool :=
  if decide (h = g) then mret false
  else H ← deref (pgrps w !! h); mret (bool_decide (pg_session H = s)).

Fixpoint fixjobc_children (g s : loc) (entering : bool) (l : list loc) (w : pworld) : outcome pworld :=
  match l with
  | [] => mret w
  | p :: l =>
      P ← deref (procs w !! p);
      hispgrp ← deref (p_pgrp P);
      b ← counts_for g s hispgrp w;
      w ← (if (b : bool) && negb (p_stat P =? SZOMB) then adjust hispgrp entering w else mret w);
      fixjobc_children g s entering l w
  end.

Definition fixjobc (p g : loc) (entering : bool) (w : pworld) : outcome pworld :=
  G ← deref (pgrps w !! g);
  let mysession := pg_session G in
  P ← deref (procs w !! p);
  q ← deref (p_pptr P);
  hispgrp ← group_of q w;
  b ← counts_for g mysession hispgrp w;
  w ← (if (b : bool) then adjust g entering w else mret w);
  fixjobc_children g mysession entering (p_cptr P) w.

(** ** Entering and leaving groups *)

(** The last use of a session. *)
Definition sess_release (s : loc) (w : pworld) : outcome pworld :=
  S ← deref (sessions w !! s);
  let n := s_count S - 1 in
  mret (set_sessions (if n =? 0 then delete s (sessions w) else <[s := set_count n S]> (sessions w)) w).

Definition pgdelete (g : loc) (w : pworld) : outcome pworld :=
  G ← deref (pgrps w !! g);
  S ← deref (sessions w !! pg_session G);
  w ← match s_ttyp S with
      | Some t =>
          T ← deref (ttys w !! t);
          mret (if decide (t_pgrp T = Some g) then set_ttys (<[t := mkTty (t_session T) None]> (ttys w)) w else w)
      | None => mret w
      end;
  let n := PIDHASH (pg_id G) in
  match unlink g (chain (pgrphash w) n) with
  | None => Panic "pgdelete: can't find pgrp on hash chain"
  | Some l =>
      w ← sess_release (pg_session G) (set_pgrphash (<[n := l]> (pgrphash w)) w);
      mret (set_pgrps (delete g (pgrps w)) w)
  end.

(** Lines 121-151 of enterpgrp: an empty group with the id [pgid], and for
    [mksess] a session that the process leads. *)
Definition newpgrp (p old : loc) (pgid : Z) (mksess : bool) (w : pworld) : outcome (loc * pworld) :=
  let g := new_loc (pgrps w) in
  O ← deref (pgrps w !! old);
  S ← deref (sessions w !! pg_session O);
  '(s, w) ←
    (if mksess then
       P ← deref (procs w !! p);
       let s := new_loc (sessions w) in
       let w := set_sessions (<[s := mkSession 1 (Some p) None None (s_login S)]> (sessions w)) w in
       mret (s, set_procs (<[p := set_p_flag (Z.land (p_flag P) (Z.lnot SCTTY)) P]> (procs w)) w)
     else
       mret (pg_session O, set_sessions (<[pg_session O := set_count (s_count S + 1) S]> (sessions w)) w));
  let n := PIDHASH pgid in
  let w := set_pgrphash (<[n := g :: chain (pgrphash w) n]> (pgrphash w)) w in
  mret (g, set_pgrps (<[g := mkPgrp pgid [] s 0]> (pgrps w)) w).

(** The process off the list of its group, which goes with its last member. *)
Definition pg_unlink (msg : string) (p g : loc) (w : pworld) : outcome pworld :=
  G ← deref (pgrps w !! g);
  match unlink p (pg_mem G) with
  | None => Panic msg
  | Some l =>
      let w := set_pgrps (<[g := set_mem l G]> (pgrps w)) w in
      match l with [] => pgdelete g w | _ :: _ => mret w end
  end.

(** Lines 155-183: from the group [old] to the group [g]. *)
Definition regroup (p old g : loc) (w : pworld) : outcome pworld :=
  w ← fixjobc p g true w;
  w ← fixjobc p old false w;
  w ← pg_unlink "enterpgrp: can't find p on old pgrp" p old w;
  P ← deref (procs w !! p);
  G ← deref (pgrps w !! g);
  let w := set_procs (<[p := set_p_pgrp (Some g) P]> (procs w)) w in
  mret (set_pgrps (<[g := set_mem (p :: pg_mem G) G]> (pgrps w)) w).

Definition enterpgrp (p : loc) (pgid : Z) (mksess : bool) (w : pworld) : outcome pworld :=
  let pgid := s16 pgid in
  pg ← pgfind pgid w;
  old ← group_of p w;
  if decide (pg = Some old) then mret w
  else
    '(g, w) ← match pg with Some g => mret (g, w) | None => newpgrp p old pgid mksess w end;
    regroup p old g w.

Definition leavepgrp (p : loc) (w : pworld) : outcome pworld :=
  g ← group_of p w;
  w ← pg_unlink "leavepgrp: can't find p in pgrp" p g w;
  P ← deref (procs w !! p);
  mret (set_procs (<[p := set_p_pgrp None P]> (procs w)) w).

(** ** System calls *)

Definition getpid (p : loc) (w : pworld) : outcome (Z * Z) :=
  P ← deref (procs w !! p);
  q ← deref (p_pptr P);
  Q ← deref (procs w !! q);
  mret (p_pid P, p_pid Q).
Definition getppid (p : loc) (w : pworld) : outcome Z := r ← getpid p w; mret r.2.
Definition getpgrp (p : loc) (w : pworld) : outcome Z :=
  g ← group_of p w; G ← deref (pgrps w !! g); mret (pg_id G).

Definition setsid (p : loc) (w : pworld) : outcome (Z * Z * pworld) :=
  P ← deref (procs w !! p);
  pgid ← getpgrp p w;
  pg ← pgfind (p_pid P) w;
  if (pgid =? p_pid P) || bool_decide (is_Some pg) then mret (EPERM, 0, w)
  else w ← enterpgrp p (p_pid P) true w; mret (0, p_pid P, w).

(** The process that setpgid is about (lines 218-226). *)
Definition setpgid_target (curp : loc) (pid : Z) (w : pworld) : outcome (Z + loc) :=
  C ← deref (procs w !! curp);
  if (pid =? 0) || (pid =? p_pid C) then mret (inr curp)
  else
    t ← pfind pid w;
    match t with
    | None => mret (inl ESRCH)
    | Some targp =>
        b ← inferior curp targp w;
        if negb b then mret (inl ESRCH)
        else
          s1 ← session_of targp w;
          s2 ← session_of curp w;
          if decide (s1 <> s2) then mret (inl EPERM)
          else
            T ← deref (procs w !! targp);
            if negb (Z.land (p_flag T) SEXEC =? 0) then mret (inl EACCES) else mret (inr targp)
    end.

Definition setpgid (curp : loc) (pid pgid : Z) (w : pworld) : outcome (Z * pworld) :=
  t ← setpgid_target curp pid w;
  match t with
  | inl error => mret (error, w)
  | inr targp =>
      lead ← SESS_LEADER targp w;
      if (lead : bool) then mret (EPERM, w)
      else
        T ← deref (procs w !! targp);
        let pgid := if pgid =? 0 then p_pid T else pgid in
        ok ← (if pgid =? p_pid T then mret true
              else
                pg ← pgfind pgid w;
                match pg with
                | None => mret false
                | Some g =>
                    G ← deref (pgrps w !! g);
                    s ← session_of curp w;
                    mret (bool_decide (pg_session G = s))
                end);
        if negb (ok : bool) then mret (EPERM, w)
        else w ← enterpgrp targp pgid false w; mret (0, w)
  end.

(** [copyout] of the login name takes a number of bytes and returns the error;
    [copyinstr] returns it with the bytes it has stored. *)
Definition getlogin (copyout : list Z -> Z) (p : loc) (namelen : Z) (w : pworld) : outcome Z :=
  s ← session_of p w;
  S ← deref (sessions w !! s);
  let namelen := if Z.of_nat MAXLOGNAME <? u32 namelen then Z.of_nat MAXLOGNAME else u32 namelen in
  mret (copyout (take (Z.to_nat namelen) (s_login S))).

Definition setlogin (copyinstr : nat -> Z * list Z) (cred : ucred) (acflag : option Z) (p : loc) (w : pworld)
  : outcome (Z * option Z * pworld) :=
  let '(error, acflag) := suser cred acflag in
  if negb (error =? 0) then mret (error, acflag, w)
  else
    s ← session_of p w;
    S ← deref (sessions w !! s);
    let '(error, name) := copyinstr (MAXLOGNAME - 1)%nat in
    let login := take (MAXLOGNAME - 1) name ++ drop (length (take (MAXLOGNAME - 1) name)) (s_login S) in
    let w := set_sessions (<[s := mkSession (s_count S) (s_leader S) (s_ttyvp S) (s_ttyp S) login]> (sessions w)) w in
    mret (if error =? ENAMETOOLONG then EINVAL else error, acflag, w).

(** ** The controlling terminal *)

Definition isctty (p : loc) (T : tty) (w : pworld) : outcome bool :=
  s ← session_of p w;
  P ← deref (procs w !! p);
  mret (bool_decide (t_session T = Some s) && negb (Z.land (p_flag P) SCTTY =? 0)).

(** TIOCSCTTY on the vnode [vp] of the terminal [t]: the ttioctl part, then
    vn_ioctl's. *)
Definition tiocsctty (p t : loc) (w : pworld) : outcome (Z * pworld) :=
  lead ← SESS_LEADER p w;
  s ← session_of p w;
  S ← deref (sessions w !! s);
  T ← deref (ttys w !! t);
  if negb lead || ((bool_decide (is_Some (s_ttyvp S)) || bool_decide (is_Some (t_session T)))
                   && negb (bool_decide (t_session T = Some s)))
  then mret (EPERM, w)
  else
    g ← group_of p w;
    P ← deref (procs w !! p);
    let w := set_ttys (<[t := mkTty (Some s) (Some g)]> (ttys w)) w in
    let w := set_sessions (<[s := mkSession (s_count S) (s_leader S) (s_ttyvp S) (Some t) (s_login S)]> (sessions w)) w in
    mret (0, set_procs (<[p := set_p_flag (Z.lor (p_flag P) SCTTY) P]> (procs w)) w).

Definition vn_ioctl_sctty (p t : loc) (vp : Z) (w : pworld) : outcome (Z * pworld) :=
  '(error, w) ← tiocsctty p t w;
  if negb (error =? 0) then mret (error, w)
  else
    s ← session_of p w;
    S ← deref (sessions w !! s);
    let w := set_sessions (<[s := mkSession (s_count S) (s_leader S) (Some vp) (s_ttyp S) (s_login S)]> (sessions w)) w in
    mret (0, add_plog [Vref vp] w).

Definition tiocspgrp (p t : loc) (pgid : Z) (w : pworld) : outcome (Z * pworld) :=
  pg ← pgfind pgid w;
  T ← deref (ttys w !! t);
  c ← isctty p T w;
  if negb (c : bool) then mret (ENOTTY, w)
  else
    match pg with
    | None => mret (EPERM, w)
    | Some g =>
        G ← deref (pgrps w !! g);
        s ← session_of p w;
        if decide (pg_session G = s) then mret (0, set_ttys (<[t := mkTty (t_session T) (Some g)]> (ttys w)) w)
        else mret (EPERM, w)
    end.

Definition tiocgpgrp (p t : loc) (w : pworld) : outcome (Z * Z) :=
  T ← deref (ttys w !! t);
  c ← isctty p T w;
  if negb (c : bool) then mret (ENOTTY, 0)
  else
    match t_pgrp T with
    | Some g => G ← deref (pgrps w !! g); mret (0, pg_id G)
    | None => mret (0, NO_PID)
    end.

Definition ttyclose (t : loc) (w : pworld) : outcome pworld :=
  _ ← deref (ttys w !! t);
  mret (set_ttys (<[t := mkTty None None]> (ttys w)) w).

(** Every member of a group, or those with a controlling terminal. *)
Fixpoint sig_members (sig : Z) (checkctty : bool) (l : list loc) (w : pworld) : outcome (list pevent) :=
  match l with
  | [] => mret []
  | p :: l =>
      P ← deref (procs w !! p);
      es ← sig_members sig checkctty l w;
      mret (if negb checkctty || negb (Z.land (p_flag P) SCTTY =? 0) then Psignal p sig :: es else es)
  end.
Definition pgsignal (pg : option loc) (sig : Z) (checkctty : bool) (w : pworld) : outcome pworld :=
  match pg with
  | None => mret w
  | Some g => G ← deref (pgrps w !! g); es ← sig_members sig checkctty (pg_mem G) w; mret (add_plog es w)
  end.
