(* ===== verification/PgrpInv.v ===== *)
(** * Process groups and sessions: invariant and correctness of the operations
      of [Pgrp] *)

From S2P Require Import Prelude Pgrp.

(** ** Lists and chains *)

Lemma unlink_spec p l : NoDup l -> p ∈ l ->
  exists l', unlink p l = Some l' /\ l ≡ₚ p :: l' /\ (forall q, q ∈ l' <-> q ∈ l /\ q <> p) /\ NoDup l'.
Proof.
  induction l as [|x l IH]; intros Hnd Hin; [by apply not_elem_of_nil in Hin|].
  apply list.NoDup_cons in Hnd as (Hx&Hnd). cbn. destruct (decide (x = p)) as [->|Hne].
  - exists l. split_and!; [done..| |done]. intros q. rewrite elem_of_cons.
    split; [intros Hq; split; [by right|by intros ->]|]. intros [[->|Hq] Hn]; done.
  - apply elem_of_cons in Hin as [->|Hin]; [done|].
    destruct (IH Hnd Hin) as (l'&E&Hp&Hm&Hn). exists (x :: l'). rewrite E. split_and!; [done| | |].
    + rewrite Hp. apply Permutation_swap.
    + intros q. rewrite !elem_of_cons, Hm. split; [|naive_solver].
      intros [->|[? ?]]; [by split; [left|]|by split; [right|]].
    + apply list.NoDup_cons. split; [|done]. rewrite Hm. tauto.
Qed.

Lemma unlink_perm p l l' : unlink p l = Some l' -> l ≡ₚ p :: l'.
Proof.
  revert l'. induction l as [|x l IH]; cbn; [done|]. intros l'.
  destruct (decide (x = p)) as [->|]; [by intros [= <-]|].
  destruct (unlink p l) as [k|]; cbn; [|done]. intros [= <-].
  rewrite (IH k) by done. apply Permutation_swap.
Qed.

Lemma chain_insert h n m l : chain (<[n := l]> h) m = if decide (m = n) then l else chain h m.
Proof.
  unfold chain. destruct (decide (m = n)) as [->|].
  - by rewrite lookup_insert_eq.
  - by rewrite lookup_insert_ne by done.
Qed.

(** A hash table holds exactly the addresses of the elements that are [in_] it,
    each in the chain of its key. *)
Definition hashes {A} (h : gmap Z (list loc)) (m : gmap loc A) (key : A -> Z) (in_ : loc -> A -> Prop) : Prop :=
  forall n, NoDup (chain h n) /\
    forall p, p ∈ chain h n <-> exists P, m !! p = Some P /\ in_ p P /\ PIDHASH (key P) = n.

Lemma chain_find_spec {A} (m : gmap loc A) key id l :
  (forall p, p ∈ l -> is_Some (m !! p)) ->
  exists r, chain_find m key id l = Ok r /\
    match r with
    | Some p => exists P, p ∈ l /\ m !! p = Some P /\ key P = id
    | None => forall p P, p ∈ l -> m !! p = Some P -> key P <> id
    end.
Proof.
  induction l as [|p l IH]; intros Hl; cbn [chain_find].
  - exists None. split; [done|]. intros p P Hp. by apply not_elem_of_nil in Hp.
  - destruct (Hl p) as (P&EP); [by left|]. rewrite EP. cbn.
    destruct (Z.eqb_spec (key P) id) as [E|E].
    + exists (Some p). split; [done|]. exists P. split_and!; [by left|done..].
    + destruct IH as (r&->&Hr); [intros q Hq; apply Hl; by right|]. exists r. split; [done|].
      destruct r as [q|].
      * destruct Hr as (Q&?&?&?). exists Q. split_and!; [by right|done..].
      * intros q Q [->|Hq]%elem_of_cons EQ; [by simplify_eq|eauto].
Qed.

(** The lookup of a key among elements whose keys differ. *)
Lemma hash_find {A} h (m : gmap loc A) key in_ id : hashes h m key in_ ->
  exists r, chain_find m key id (chain h (PIDHASH id)) = Ok r /\
    match r with
    | Some p => exists P, m !! p = Some P /\ in_ p P /\ key P = id
    | None => forall p P, m !! p = Some P -> in_ p P -> key P <> id
    end.
Proof.
  intros Hh. destruct (Hh (PIDHASH id)) as (_&Hm).
  destruct (chain_find_spec m key id (chain h (PIDHASH id))) as (r&E&Hr).
  { intros p Hp. apply Hm in Hp as (P&->&_). by eexists. }
  exists r. split; [done|]. destruct r as [p|].
  - destruct Hr as (P&Hp&EP&Ek). exists P. apply Hm in Hp as (P'&EP'&?&?). by simplify_eq.
  - intros p P EP Hi Ek. eapply (Hr p P); [|done..]. apply Hm. exists P. by rewrite Ek.
Qed.

Lemma hashes_insert {A} h (m : gmap loc A) key in_ p P (in' : loc -> A -> Prop) : hashes h m key in_ ->
  m !! p = None -> in' p P -> (forall q Q, m !! q = Some Q -> in' q Q <-> in_ q Q) ->
  hashes (<[PIDHASH (key P) := p :: chain h (PIDHASH (key P))]> h) (<[p := P]> m) key in'.
Proof.
  intros Hh Hp Hi Hin n. rewrite chain_insert. destruct (Hh n) as (Hnd&Hm).
  assert (p ∉ chain h n) as Hnot. { intros Hq. apply Hm in Hq as (?&?&_). congruence. }
  assert (forall q, (exists Q, <[p := P]> m !! q = Some Q /\ in' q Q /\ PIDHASH (key Q) = n)
    <-> (q = p /\ PIDHASH (key P) = n) \/ q ∈ chain h n) as Hx.
  { intros q. destruct (decide (q = p)) as [->|Hne].
    - rewrite lookup_insert_eq. naive_solver.
    - rewrite lookup_insert_ne, Hm by done. naive_solver. }
  destruct (decide (n = _)) as [->|Hne].
  - split; [apply list.NoDup_cons; by split|]. intros q. rewrite elem_of_cons, Hx. naive_solver.
  - split; [done|]. intros q. rewrite Hx. naive_solver.
Qed.

(** An element is taken out of a table; it may stay in the store. *)
Lemma hashes_delete {A} h (m m' : gmap loc A) key in_ (in' : loc -> A -> Prop) p P : hashes h m key in_ ->
  m !! p = Some P -> in_ p P ->
  (forall q n, (exists Q, m' !! q = Some Q /\ in' q Q /\ PIDHASH (key Q) = n)
    <-> q <> p /\ exists Q, m !! q = Some Q /\ in_ q Q /\ PIDHASH (key Q) = n) ->
  exists l, unlink p (chain h (PIDHASH (key P))) = Some l /\ hashes (<[PIDHASH (key P) := l]> h) m' key in'.
Proof.
  intros Hh Hp Hi Hin. destruct (Hh (PIDHASH (key P))) as (Hnd&Hm).
  destruct (unlink_spec p (chain h (PIDHASH (key P)))) as (l&El&_&Hl&Hnl).
  { done. } { apply Hm. by exists P. }
  exists l. split; [done|]. intros n. rewrite chain_insert. destruct (decide (n = _)) as [->|Hne].
  - split; [done|]. intros q. rewrite Hl, Hm, Hin. naive_solver.
  - split; [apply Hh|]. intros q. destruct (Hh n) as (_&Hmn). rewrite Hin, Hmn.
    split; [|naive_solver]. intros (Q&?&?&<-). split; [|eauto]. intros ->. simplify_eq.
Qed.

(** Elements change, but neither their keys nor whether they are in the table. *)
Lemma hashes_ext {A} h (m m' : gmap loc A) key in_ (in' : loc -> A -> Prop) : hashes h m key in_ ->
  (forall q n, (exists Q, m' !! q = Some Q /\ in' q Q /\ PIDHASH (key Q) = n)
    <-> exists Q, m !! q = Some Q /\ in_ q Q /\ PIDHASH (key Q) = n) ->
  hashes h m' key in'.
Proof. intros Hh Hin n. split; [apply Hh|]. intros q. rewrite Hin. apply Hh. Qed.

(** ** Views of a world *)

Definition pgof (w : pworld) (p : loc) : option loc := procs w !! p ≫= p_pgrp.
Definition ppof (w : pworld) (p : loc) : option loc := procs w !! p ≫= p_pptr.
Definition sesof (w : pworld) (g : loc) : option loc := pg_session <$> pgrps w !! g.
Definition mem (w : pworld) (g : loc) : list loc := default [] (pg_mem <$> pgrps w !! g).
Definition jobc (w : pworld) (g : loc) : Z := default 0 (pg_jobc <$> pgrps w !! g).
Definition alive (w : pworld) (p : loc) : bool :=
  match procs w !! p with Some P => negb (p_stat P =? SZOMB) | None => false end.
Definition stopped (w : pworld) (p : loc) : bool :=
  match procs w !! p with Some P => p_stat P =? SSTOP | None => false end.
Definition known (w : pworld) : list loc := allproc w ++ zombproc w.

Lemma pgof_Some w p g : pgof w p = Some g <-> exists P, procs w !! p = Some P /\ p_pgrp P = Some g.
Proof. apply bind_Some. Qed.
Lemma ppof_Some w p g : ppof w p = Some g <-> exists P, procs w !! p = Some P /\ p_pptr P = Some g.
Proof. apply bind_Some. Qed.
Lemma sesof_Some w g s : sesof w g = Some s <-> exists G, pgrps w !! g = Some G /\ pg_session G = s.
Proof. unfold sesof. rewrite fmap_Some. naive_solver. Qed.

Lemma sesof_live w g G : pgrps w !! g = Some G -> is_Some (sesof w g).
Proof. intros EG. unfold sesof. rewrite EG. by eexists. Qed.

Lemma group_of_eq p w g : pgof w p = Some g -> group_of p w = Ok g.
Proof. unfold group_of. intros (P&->&E)%pgof_Some. cbn. by rewrite E. Qed.
Lemma session_of_eq p w g s : pgof w p = Some g -> sesof w g = Some s -> session_of p w = Ok s.
Proof.
  unfold session_of. intros Hp (G&EG&<-)%sesof_Some. rewrite (group_of_eq p w g) by done.
  cbn. by rewrite EG.
Qed.

(** ** The invariant *)

(** The process table: the two lists, the ids and their hash table. *)
Record procs_ok (w : pworld) : Prop := {
  po_nodup : NoDup (known w);
  po_dom : forall p, p ∈ known w <-> is_Some (procs w !! p);
  po_zomb : forall p P, procs w !! p = Some P -> (p ∈ zombproc w <-> p_stat P = SZOMB);
  po_n : nprocs w = Z.of_nat (length (known w));
  po_pid : forall p q P Q, procs w !! p = Some P -> procs w !! q = Some Q -> p_pid P = p_pid Q -> p = q;
  po_range : forall p P, procs w !! p = Some P -> 0 <= p_pid P < 2 ^ 15 /\ (p_pid P = 0 <-> p = proc0 w);
  po_hash : hashes (pidhash w) (procs w) p_pid (fun p P => p_stat P <> SZOMB /\ p <> proc0 w);
}.

(** A zombie holds its exit information. *)
Definition ru_ok (w : pworld) : Prop :=
  forall p P, procs w !! p = Some P -> p_stat P = SZOMB -> is_Some (p_ru P).

(** The process tree: the links up and down agree, and lead to process 0. *)
Record tree_ok (w : pworld) : Prop := {
  to_parent : forall p P, procs w !! p = Some P -> p <> proc0 w ->
    exists q Q, p_pptr P = Some q /\ procs w !! q = Some Q /\ p_stat Q <> SZOMB /\ p ∈ p_cptr Q;
  to_root : exists P, procs w !! proc0 w = Some P /\ p_pptr P = None /\ p_stat P <> SZOMB;
  to_child : forall q Q, procs w !! q = Some Q -> NoDup (p_cptr Q) /\ forall c, c ∈ p_cptr Q -> ppof w c = Some q;
  to_reach : forall p P, procs w !! p = Some P -> rtc (fun a b => ppof w a = Some b) p (proc0 w);
  to_init : ppof w (initproc w) = Some (proc0 w);
}.

(** Groups and sessions, but for the process [L], which is in no group, and the
    groups [E], which may have no member. *)
Record groups_ok (L : option loc) (E : list loc) (w : pworld) : Prop := {
  go_group : forall p P, procs w !! p = Some P -> Some p <> L ->
    exists g G, p_pgrp P = Some g /\ pgrps w !! g = Some G /\ p ∈ pg_mem G;
  go_mem : forall g G, pgrps w !! g = Some G ->
    (pg_mem G <> [] \/ g ∈ E) /\ NoDup (pg_mem G) /\ forall p, p ∈ pg_mem G -> Some p <> L /\ pgof w p = Some g;
  go_id : forall g h G H, pgrps w !! g = Some G -> pgrps w !! h = Some H -> pg_id G = pg_id H -> g = h;
  go_hash : hashes (pgrphash w) (pgrps w) pg_id (fun _ _ => True);
  go_ses : forall g G, pgrps w !! g = Some G -> is_Some (sessions w !! pg_session G);
  go_count : forall s S, sessions w !! s = Some S ->
    s_count S = Z.of_nat (count_map (fun G => pg_session G = s) (pgrps w)) /\ 0 < s_count S;
}.

(** Session leaders lead a group of their own; the group with a process's id is
    of its session; init is a session leader.  The process [L] is excepted. *)
Record lead_ok (L : option loc) (w : pworld) : Prop := {
  lo_leader : forall s S p, sessions w !! s = Some S -> s_leader S = Some p -> Some p <> L ->
    exists P g G, procs w !! p = Some P /\ p_stat P <> SZOMB /\ p_pgrp P = Some g
      /\ pgrps w !! g = Some G /\ pg_id G = p_pid P /\ pg_session G = s;
  lo_own : forall p P g G, procs w !! p = Some P -> pgrps w !! g = Some G -> pg_id G = p_pid P -> Some p <> L ->
    exists h, p_pgrp P = Some h /\ sesof w h = Some (pg_session G);
  lo_init : exists P g s S, procs w !! initproc w = Some P /\ p_pid P = 1 /\ p_pgrp P = Some g
      /\ sesof w g = Some s /\ sessions w !! s = Some S /\ s_leader S = Some (initproc w) /\ Some (initproc w) <> L;
}.

(** A terminal's group is of its session, whose leader lives and whose terminal
    it is. *)
Record tty_ok (w : pworld) : Prop := {
  tt_pgrp : forall t T g, ttys w !! t = Some T -> t_pgrp T = Some g ->
    exists s, t_session T = Some s /\ sesof w g = Some s;
  tt_ses : forall t T s, ttys w !! t = Some T -> t_session T = Some s ->
    exists S, sessions w !! s = Some S /\ is_Some (s_leader S) /\ is_Some (s_ttyvp S) /\ s_ttyp S = Some t;
  tt_vp : forall s S, sessions w !! s = Some S -> is_Some (s_ttyvp S) -> is_Some (s_ttyp S);
  tt_live : forall s S t, sessions w !! s = Some S -> s_ttyp S = Some t -> is_Some (ttys w !! t);
}.

(** A process qualifies its group [g] for job control: its parent is in another
    group of the same session. *)
Definition qual (w : pworld) (g p : loc) : bool :=
  bool_decide (pgof w p = Some g) && alive w p &&
  match ppof w p ≫= pgof w with
  | Some h => negb (bool_decide (h = g)) && bool_decide (sesof w h = sesof w g)
  | None => false
  end.

Definition sumZ (f : loc -> Z) (l : list loc) : Z := foldr (fun x n => f x + n) 0 l.

Definition jobs (w : pworld) (g : loc) : Z := sumZ (fun p => Z.b2z (qual w g p)) (known w).

(** The session of init, whose groups take part in no job control. *)
Definition init_session (w : pworld) : option loc := pgof w (initproc w) ≫= sesof w.

Definition jobs_ok (w : pworld) : Prop := forall g G, pgrps w !! g = Some G ->
  sesof w g <> init_session w -> pg_jobc G = jobs w g.

Record Inv (w : pworld) : Prop := {
  inv_procs : procs_ok w;
  inv_tree : tree_ok w;
  inv_groups : groups_ok None [] w;
  inv_lead : lead_ok None w;
  inv_tty : tty_ok w;
  inv_jobs : jobs_ok w;
  inv_ru : ru_ok w;
}.

#[export] Hint Resolve inv_procs inv_tree inv_groups inv_lead inv_tty inv_jobs inv_ru : kernel.

(** ** Finding processes and groups *)

Lemma pfind_spec pid w : procs_ok w -> exists r, pfind pid w = Ok r /\
  match r with
  | Some p => exists P, procs w !! p = Some P /\ p_stat P <> SZOMB /\ p <> proc0 w /\ p_pid P = pid
  | None => forall p P, procs w !! p = Some P -> p_stat P <> SZOMB -> p <> proc0 w -> p_pid P <> pid
  end.
Proof.
  intros H. destruct (hash_find _ _ _ _ pid (po_hash w H)) as (r&E&Hr). exists r. split; [done|].
  destruct r as [p|]; [naive_solver|]. intros p P EP H1 H2. by apply (Hr p P).
Qed.

Lemma pgfind_spec pgid w L E : groups_ok L E w -> exists r, pgfind pgid w = Ok r /\
  match r with
  | Some g => exists G, pgrps w !! g = Some G /\ pg_id G = s16 pgid
  | None => forall g G, pgrps w !! g = Some G -> pg_id G <> s16 pgid
  end.
Proof.
  intros H. destruct (hash_find _ _ _ _ (s16 pgid) (go_hash _ _ w H)) as (r&Er&Hr). exists r. split; [done|].
  destruct r as [g|]; [naive_solver|]. intros g G EG. by apply (Hr g G).
Qed.

Lemma go_pgof L E w p P : groups_ok L E w -> procs w !! p = Some P -> Some p <> L ->
  exists g G, pgof w p = Some g /\ p_pgrp P = Some g /\ pgrps w !! g = Some G /\ p ∈ pg_mem G.
Proof.
  intros H EP Hp. destruct (go_group _ _ w H p P EP Hp) as (g&G&Eg&EG&Hm). exists g, G.
  split_and!; [|done..]. apply pgof_Some. eauto.
Qed.

(** The walk of [inferior] ends: it meets no process twice. *)
Fixpoint walk (n : nat) (w : pworld) (p : loc) : option loc :=
  match n with O => Some p | S n => ppof w p ≫= walk n w end.

Lemma walk_add n m w p : walk (n + m) w p = walk n w p ≫= walk m w.
Proof.
  revert p. induction n as [|n IH]; intros p; cbn; [done|]. destruct (ppof w p) as [q|]; cbn; [apply IH|done].
Qed.

Lemma rtc_walk w p q : rtc (fun a b => ppof w a = Some b) p q <-> exists n, walk n w p = Some q.
Proof.
  split.
  - induction 1 as [x|x y z Hxy _ (n&IH)]; [by exists O|]. exists (S n). cbn. by rewrite Hxy.
  - intros (n&Hn). revert p Hn. induction n as [|n IH]; intros p; cbn; [by intros [= ->]|].
    destruct (ppof w p) as [x|] eqn:Ex; cbn; [|done]. intros Hn. eapply rtc_l; [exact Ex|by apply IH].
Qed.

Lemma walk_bound w p n : tree_ok w -> is_Some (procs w !! p) -> walk n w p = Some (proc0 w) ->
  (n < size (procs w))%nat.
Proof.
  intros T Hp Hn.
  assert (ppof w (proc0 w) = None) as Hr.
  { destruct (to_root w T) as (P0&E0&Er&_). unfold ppof. by rewrite E0. }
  assert (forall i j x, (i < j)%nat -> (j <= n)%nat -> walk i w p = Some x -> walk j w p = Some x -> False) as Hdist.
  { intros i j x Hij Hjn Hi Hj.
    replace n with (j + (n - j))%nat in Hn by lia. rewrite walk_add, Hj in Hn. cbn in Hn.
    assert (walk (i + (n - j)) w p = Some (proc0 w)) as Hk by (rewrite walk_add, Hi; done).
    replace (S n) with (S (i + (n - j)) + (j - i))%nat in * by lia.
    assert (walk n w p = Some (proc0 w)) as Hn'.
    { replace n with (j + (n - j))%nat by lia. by rewrite walk_add, Hj. }
    replace n with (i + (n - j) + (j - i))%nat in Hn' by lia. rewrite walk_add, Hk in Hn'. cbn in Hn'.
    destruct (j - i)%nat as [|d] eqn:Ed; [lia|]. cbn in Hn'. by rewrite Hr in Hn'. }
  assert (forall i, (i <= n)%nat -> exists x, walk i w p = Some x /\ is_Some (procs w !! x)) as Hdef.
  { intros i Hi. pose proof Hn as Hni. replace n with (i + (n - i))%nat in Hni by lia. rewrite walk_add in Hni.
    destruct (walk i w p) as [x|] eqn:Ex; [|done]. exists x. split; [done|]. clear Hni.
    destruct i as [|i]; [by injection Ex as <-|].
    replace (S i) with (i + 1)%nat in Ex by lia. rewrite walk_add in Ex.
    destruct (walk i w p) as [y|]; [|done]. cbn in Ex.
    destruct (ppof w y) as [z|] eqn:Ey; [|done]. cbn in Ex. injection Ex as ->.
    apply ppof_Some in Ey as (Y&EY&Epp).
    destruct (decide (y = proc0 w)) as [->|Hne].
    - rewrite (proj2 (ppof_Some w (proc0 w) x)) in Hr by eauto. done.
    - destruct (to_parent w T y Y EY Hne) as (q&Q&Eq&EQ&_). rewrite Epp in Eq. injection Eq as ->. by eexists. }
  set (l := (fun i => default p (walk i w p)) <$> seq 0 (S n)).
  assert (forall i x, l !! i = Some x -> (i <= n)%nat /\ walk i w p = Some x) as Hl.
  { intros i x Hx. unfold l in Hx. rewrite list_lookup_fmap in Hx.
    apply fmap_Some in Hx as (j&Hj&->). apply lookup_seq in Hj as (->&Hj). cbn [Nat.add] in *.
    destruct (Hdef i) as (x&Ex&_); [lia|]. split; [lia|]. by rewrite Ex. }
  assert (NoDup l) as Hnd.
  { apply NoDup_alt. intros i j x Hi Hj. apply Hl in Hi as (Hi&Ei), Hj as (Hj&Ej).
    destruct (Nat.lt_trichotomy i j) as [?|[?|?]]; [exfalso; by eapply (Hdist i j)|done|exfalso; by eapply (Hdist j i)]. }
  assert (length l = S n) as Hlen by (unfold l; by rewrite length_fmap, length_seq).
  assert (list_to_set (C := gset loc) l ⊆ dom (procs w)) as Hsub.
  { intros x Hx%elem_of_list_to_set. apply list_elem_of_lookup in Hx as (i&Hi). apply Hl in Hi as (Hi&Ei).
    apply elem_of_dom. destruct (Hdef i Hi) as (y&Ey&Hy). congruence. }
  apply subseteq_size in Hsub. rewrite size_list_to_set in Hsub by done. rewrite size_dom in Hsub. lia.
Qed.

Lemma ppof_root w : tree_ok w -> ppof w (proc0 w) = None.
Proof. intros T. destruct (to_root w T) as (P&E&Er&_). unfold ppof. by rewrite E. Qed.

Lemma inferior_loop_spec w cur n p k : procs_ok w -> tree_ok w -> walk k w p = Some (proc0 w) -> (k < n)%nat ->
  exists b, inferior_loop n cur p w = Ok b /\ (b = true <-> exists i, (i <= k)%nat /\ walk i w p = Some cur).
Proof.
  intros Hp T. destruct (to_root w T) as (P0&E0&Er&_).
  assert (p_pid P0 = 0) as Hz by (by apply (po_range w Hp _ _ E0)).
  revert p n. induction k as [|k IH]; intros p n Hk Hn; (destruct n as [|n]; [lia|]); cbn [inferior_loop];
    (destruct (decide (p = cur)) as [->|Hne]; [exists true; split; [done|]; split; [intros _; exists O; split; [lia|done]|done]|]).
  - cbn in Hk. injection Hk as ->. rewrite E0. cbn. rewrite Hz. exists false. split; [done|].
    split; [done|]. intros (i&Hi&E). assert (i = O) as -> by lia. by injection E.
  - cbn in Hk. destruct (ppof w p) as [q|] eqn:Eq; [|done]. cbn in Hk.
    pose proof Eq as (P&EP&Epp)%ppof_Some. rewrite EP. cbn. destruct (Z.eqb_spec (p_pid P) 0) as [E|E].
    { apply (po_range w Hp _ _ EP) in E as ->. by rewrite (ppof_root w T) in Eq. }
    rewrite Epp. cbn. destruct (IH q n Hk ltac:(lia)) as (b&->&Hb). exists b. split; [done|].
    rewrite Hb. split.
    + intros (i&Hi&Ei). exists (S i). split; [lia|]. cbn. by rewrite Eq.
    + intros ([|i]&Hi&Ei); [by injection Ei|]. exists i. split; [lia|]. cbn in Ei. by rewrite Eq in Ei.
Qed.

(** [inferior] ends, and tells whether the caller is an ancestor of the process
    (or the process itself). *)
Lemma inferior_spec w cur p : procs_ok w -> tree_ok w -> is_Some (procs w !! p) ->
  exists b, inferior cur p w = Ok b /\ (b = true <-> rtc (fun a b => ppof w a = Some b) p cur).
Proof.
  intros Hp T (P&EP). pose proof (to_reach w T p P EP) as (k&Hk)%rtc_walk.
  pose proof (walk_bound w p k T (mk_is_Some _ _ EP) Hk) as Hlt.
  destruct (inferior_loop_spec w cur (size (procs w)) p k) as (b&E&Hb); [done..|].
  exists b. split; [done|]. rewrite Hb, rtc_walk. split; [naive_solver|].
  intros (i&Hi). exists i. split; [|done]. destruct (decide (i <= k)%nat) as [|Hgt]; [done|exfalso].
  replace i with (k + S (i - k - 1))%nat in Hi by lia. rewrite walk_add, Hk in Hi. cbn in Hi.
  by rewrite (ppof_root w T) in Hi.
Qed.

(** ** Job control counts *)

(** The world with the counts changed by [d] and calls added to the log. *)
Definition bump (d : loc -> Z) (m : gmap loc pgrp) : gmap loc pgrp :=
  map_imap (fun g G => Some (set_jobc (pg_jobc G + d g) G)) m.
Definition mk (w : pworld) (d : loc -> Z) (es : list pevent) : pworld := add_plog es (set_pgrps (bump d (pgrps w)) w).
Definition dadd (g : loc) (k : Z) (d : loc -> Z) (x : loc) : Z := if decide (x = g) then d x + k else d x.
Definition sg (entering : bool) : Z := if entering then 1 else -1.

(** What orphanpg logs. *)
Definition hup (w : pworld) (g : loc) : list pevent :=
  if existsb (stopped w) (mem w g) then hup_cont (mem w g) else [].

Lemma lookup_bump d m g : bump d m !! g = (fun G => set_jobc (pg_jobc G + d g) G) <$> m !! g.
Proof. unfold bump. rewrite map_lookup_imap. by destruct (m !! g). Qed.

Lemma bump_ext d d' m : (forall g, is_Some (m !! g) -> d g = d' g) -> bump d m = bump d' m.
Proof.
  intros Hd. apply map_eq. intros g. rewrite !lookup_bump. destruct (m !! g) eqn:E; cbn; [|done].
  by rewrite Hd by (by eexists).
Qed.

Lemma bump_0 m : bump (fun _ => 0) m = m.
Proof.
  apply map_eq. intros g. rewrite lookup_bump. destruct (m !! g) as [[]|]; cbn; [|done].
  unfold set_jobc. cbn. do 2 f_equal. lia.
Qed.

Lemma mk_0 w : mk w (fun _ => 0) [] = w.
Proof. unfold mk. rewrite bump_0. destruct w. unfold add_plog, set_pgrps. cbn. by rewrite app_nil_r. Qed.

Lemma some_stopped_spec l w : (forall p, p ∈ l -> is_Some (procs w !! p)) ->
  some_stopped l w = Ok (existsb (stopped w) l).
Proof.
  induction l as [|p l IH]; intros Hl; cbn [some_stopped existsb]; [done|].
  unfold stopped at 1. destruct (Hl p) as (P&->); [by left|]. cbn.
  destruct (p_stat P =? SSTOP); [done|]. apply IH. intros q Hq. apply Hl. by right.
Qed.

(** Every member of a group is a process. *)
Definition members_live (w : pworld) : Prop :=
  forall g G p, pgrps w !! g = Some G -> p ∈ pg_mem G -> is_Some (procs w !! p).

Lemma adjust_mk w d es g G e : members_live w -> pgrps w !! g = Some G ->
  adjust g e (mk w d es)
  = Ok (mk w (dadd g (sg e) d) (es ++ if e then [] else if pg_jobc G + d g - 1 =? 0 then hup w g else [])).
Proof.
  intros Hm EG.
  assert (forall n, <[g := set_jobc n G]> (bump d (pgrps w)) = bump (dadd g (n - pg_jobc G - d g) d) (pgrps w)) as Hins.
  { intros n. apply map_eq. intros x. rewrite lookup_bump. destruct (decide (x = g)) as [->|Hne].
    - rewrite lookup_insert_eq, EG. cbn. unfold dadd. rewrite decide_True by done. do 2 f_equal. lia.
    - rewrite lookup_insert_ne, lookup_bump by done. unfold dadd. by rewrite decide_False by done. }
  unfold adjust. cbn [pgrps mk add_plog set_pgrps]. rewrite lookup_bump, EG. cbn [fmap option_fmap option_map deref mbind outcome_bind].
  change (set_jobc ?a (set_jobc ?b G)) with (set_jobc a G). cbn [pg_jobc set_jobc].
  destruct e; cbn [sg].
  - rewrite app_nil_r. f_equal. unfold mk, add_plog, set_pgrps. cbn. f_equal.
    change (mkPgrp (pg_id G) (pg_mem G) (pg_session G) (pg_jobc G + d g + 1)) with (set_jobc (pg_jobc G + d g + 1) G).
    rewrite Hins. apply bump_ext. intros x _. unfold dadd. destruct (decide (x = g)); lia.
  - assert (set_pgrps (<[g := set_jobc (pg_jobc G + d g - 1) G]> (bump d (pgrps w)))
        (mk w d es) = mk w (dadd g (-1) d) es) as Ew.
    { unfold mk, add_plog, set_pgrps. cbn. f_equal. rewrite Hins.
      apply bump_ext. intros x _. unfold dadd. destruct (decide (x = g)); lia. }
    change (set_jobc (pg_jobc G + d g - 1) (mkPgrp (pg_id G) (pg_mem G) (pg_session G) (pg_jobc G + d g)))
      with (set_jobc (pg_jobc G + d g - 1) G).
    rewrite Ew. destruct (pg_jobc G + d g - 1 =? 0); [|by rewrite app_nil_r].
    unfold orphanpg. cbn [pgrps mk add_plog set_pgrps]. rewrite lookup_bump, EG. cbn [fmap option_fmap option_map deref mbind outcome_bind set_jobc pg_mem].
    rewrite some_stopped_spec by (intros p Hp; by apply (Hm g G)). cbn [mbind outcome_bind].
    unfold hup, mem. rewrite EG. cbn [fmap option_fmap option_map default].
    change (stopped (mk w (dadd g (-1) d) es)) with (stopped w).
    unfold id.
    destruct (existsb (stopped w) (pg_mem G)); cbn; [|by rewrite app_nil_r].
    unfold mk, add_plog, set_pgrps. cbn. by rewrite app_assoc.
Qed.

(** The groups whose counts [fixjobc] changes, once for each entry. *)
Definition counted (w : pworld) (g h : loc) : bool := negb (bool_decide (h = g)) && bool_decide (sesof w h = sesof w g).
Definition child_target (w : pworld) (g c : loc) : option loc :=
  h ← pgof w c; if counted w g h && alive w c then Some h else None.
Definition targets (w : pworld) (p g : loc) : list loc :=
  (match ppof w p ≫= pgof w with Some h => if counted w g h then [g] else [] | None => [] end)
  ++ omap (child_target w g) (default [] (p_cptr <$> procs w !! p)).

(** The counts and the log after changing the counts of the groups [gs]. *)
Fixpoint adjusts (w : pworld) (e : bool) (gs : list loc) (d : loc -> Z) : (loc -> Z) * list pevent :=
  match gs with
  | [] => (d, [])
  | g :: gs =>
      let '(d', es) := adjusts w e gs (dadd g (sg e) d) in
      (d', (if e then [] else if jobc w g + d g - 1 =? 0 then hup w g else []) ++ es)
  end.

Lemma counts_for_mk w d es g s h : sesof w g = Some s -> is_Some (sesof w h) ->
  counts_for g s h (mk w d es) = Ok (counted w g h).
Proof.
  intros Hg (s'&Hh). unfold counts_for, counted. rewrite Hg, Hh.
  destruct (decide (h = g)) as [->|Hne]; [by rewrite bool_decide_true by done|].
  rewrite bool_decide_false by done. cbn [negb andb].
  apply sesof_Some in Hh as (H&EH&<-). cbn [pgrps mk add_plog set_pgrps]. rewrite lookup_bump, EH. cbn.
  f_equal. apply bool_decide_ext. naive_solver.
Qed.

Lemma adjust_list w d es g e : members_live w -> is_Some (sesof w g) ->
  exists d' es', adjusts w e [g] d = (d', es') /\ adjust g e (mk w d es) = Ok (mk w d' (es ++ es')).
Proof.
  intros Hm (s&(G&EG&_)%sesof_Some). cbn. do 2 eexists. split; [done|].
  rewrite (adjust_mk w d es g G e Hm EG). unfold jobc. rewrite EG. cbn. by rewrite app_nil_r.
Qed.

Lemma adjusts_app w e gs gs' d : adjusts w e (gs ++ gs') d =
  let '(d1, es1) := adjusts w e gs d in let '(d2, es2) := adjusts w e gs' d1 in (d2, es1 ++ es2).
Proof.
  revert d. induction gs as [|g gs IH]; intros d; cbn [adjusts app].
  - by destruct (adjusts w e gs' d).
  - rewrite IH. destruct (adjusts w e gs _) as [d1 es1]. destruct (adjusts w e gs' d1). by rewrite app_assoc.
Qed.

Lemma fixjobc_children_mk w g s e l d es : members_live w -> sesof w g = Some s ->
  (forall c, c ∈ l -> exists h, pgof w c = Some h /\ is_Some (sesof w h)) ->
  fixjobc_children g s e l (mk w d es)
  = let '(d', es') := adjusts w e (omap (child_target w g) l) d in Ok (mk w d' (es ++ es')).
Proof.
  intros Hm Hg. revert d es. induction l as [|c l IH]; intros d es Hl; cbn [fixjobc_children].
  - cbn. by rewrite app_nil_r.
  - destruct (Hl c) as (h&Ec&Hh); [by left|]. pose proof Ec as (C&EC&Ep)%pgof_Some.
    change (procs (mk w d es)) with (procs w). rewrite EC. cbn [deref mbind outcome_bind]. rewrite Ep.
    cbn [deref mbind outcome_bind]. rewrite (counts_for_mk w d es g s h) by done. cbn [mbind outcome_bind].
    change (omap (child_target w g) (c :: l)) with
      (match child_target w g c with Some y => y :: omap (child_target w g) l | None => omap (child_target w g) l end).
    assert (child_target w g c = if counted w g h && negb (p_stat C =? SZOMB) then Some h else None) as ->.
    { unfold child_target, alive. by rewrite Ec, EC. }
    assert (forall c, c ∈ l -> exists h, pgof w c = Some h /\ is_Some (sesof w h)) as Hl'.
    { intros x Hx. apply Hl. by right. }
    destruct (counted w g h && negb (p_stat C =? SZOMB)); cbn [mbind outcome_bind]; [|by apply IH].
    destruct (adjust_list w d es h e Hm Hh) as (d1&es1&E1&->). cbn [mbind outcome_bind].
    rewrite IH by done. change (h :: ?x) with ([h] ++ x). rewrite adjusts_app, E1.
    destruct (adjusts w e _ d1) as [d2 es2]. by rewrite app_assoc.
Qed.

Lemma fixjobc_mk w p g e d es : members_live w -> is_Some (sesof w g) ->
  (exists q h, ppof w p = Some q /\ pgof w q = Some h /\ is_Some (sesof w h)) ->
  (forall P c, procs w !! p = Some P -> c ∈ p_cptr P -> exists h, pgof w c = Some h /\ is_Some (sesof w h)) ->
  fixjobc p g e (mk w d es) = let '(d', es') := adjusts w e (targets w p g) d in Ok (mk w d' (es ++ es')).
Proof.
  intros Hm (s&Hg) (q&h&Hq&Hh&Hs) Hc. unfold fixjobc.
  pose proof Hg as (G&EG&Es)%sesof_Some. cbn [pgrps mk add_plog set_pgrps].
  rewrite lookup_bump, EG. cbn [fmap option_fmap option_map deref mbind outcome_bind set_jobc pg_session].
  rewrite Es. pose proof Hq as (P&EP&Ep)%ppof_Some.
  change (procs (mk w d es)) with (procs w). rewrite EP. cbn [deref mbind outcome_bind]. rewrite Ep. cbn [deref mbind outcome_bind].
  rewrite (group_of_eq q _ h) by done. cbn [mbind outcome_bind].
  change (add_plog es (set_pgrps (bump d (pgrps w)) w)) with (mk w d es).
  rewrite (counts_for_mk w d es g s h) by done. cbn [mbind outcome_bind].
  unfold targets. rewrite Hq. cbn [mbind option_bind]. rewrite Hh, EP. cbn [fmap option_fmap option_map default].
  unfold id.
  rewrite adjusts_app. destruct (counted w g h).
  - destruct (adjust_list w d es g e Hm (mk_is_Some _ _ Hg)) as (d1&es1&E1&->). cbn [mbind outcome_bind].
    rewrite (fixjobc_children_mk w g s) by eauto. rewrite E1.
    destruct (adjusts w e _ d1) as [d2 es2]. by rewrite app_assoc.
  - cbn [mret outcome_ret mbind outcome_bind adjusts]. rewrite (fixjobc_children_mk w g s) by eauto.
    destruct (adjusts w e _ d) as [d2 es2]. done.
Qed.

(** *** Sums *)

Lemma sumZ_app f l k : sumZ f (l ++ k) = sumZ f l + sumZ f k.
Proof. induction l as [|x l IH]; cbn; [done|]. fold (sumZ f l). fold (sumZ f (l ++ k)). lia. Qed.

Lemma sumZ_cons f x l : sumZ f (x :: l) = f x + sumZ f l.
Proof. done. Qed.

Lemma sumZ_perm f l k : l ≡ₚ k -> sumZ f l = sumZ f k.
Proof. induction 1; rewrite ?sumZ_cons in *; lia. Qed.

Lemma sumZ_ext f h l : (forall x, x ∈ l -> f x = h x) -> sumZ f l = sumZ h l.
Proof.
  induction l as [|x l IH]; intros E; [done|]. rewrite !sumZ_cons, IH, E; [done|by left|].
  intros y Hy. apply E. by right.
Qed.

Lemma sumZ_0 f l : (forall x, x ∈ l -> f x = 0) -> sumZ f l = 0.
Proof. intros E. rewrite (sumZ_ext f (fun _ => 0)) by done. induction l; [done|]. rewrite sumZ_cons. apply IHl. intros. apply E. by right. Qed.

Lemma sumZ_nonneg f l : (forall x, 0 <= f x) -> 0 <= sumZ f l.
Proof. intros Hf. induction l as [|x l IH]; [done|]. rewrite sumZ_cons. specialize (Hf x). lia. Qed.

Definition occZ (x : loc) (l : list loc) : Z := sumZ (fun y => if decide (y = x) then 1 else 0) l.

Lemma occZ_nonneg x l : 0 <= occZ x l.
Proof. apply sumZ_nonneg. intros y. destruct (decide _); lia. Qed.

Lemma occZ_pos x l : x ∈ l -> 0 < occZ x l.
Proof.
  intros (l1&l2&->)%list_elem_of_split. unfold occZ. rewrite sumZ_app, sumZ_cons.
  fold (occZ x l1). fold (occZ x l2). rewrite decide_True by done.
  pose proof (occZ_nonneg x l1). pose proof (occZ_nonneg x l2). lia.
Qed.

Lemma occZ_zero x l : x ∉ l -> occZ x l = 0.
Proof. intros Hx. apply sumZ_0. intros y Hy. rewrite decide_False; [done|by intros ->]. Qed.

Lemma adjusts_delta w e gs d x : (adjusts w e gs d).1 x = d x + sg e * occZ x gs.
Proof.
  revert d. induction gs as [|g gs IH]; intros d; cbn [adjusts]; [unfold occZ; cbn; lia|].
  specialize (IH (dadd g (sg e) d)). destruct (adjusts w e gs _) as [d' es']. cbn [fst] in *. rewrite IH.
  unfold occZ. rewrite sumZ_cons. fold (occZ x gs). unfold dadd.
  destruct (decide (x = g)), (decide (g = x)); subst; try done; lia.
Qed.

Lemma adjusts_log_enter w gs d : (adjusts w true gs d).2 = [].
Proof.
  revert d. induction gs as [|g gs IH]; intros d; cbn [adjusts]; [done|].
  specialize (IH (dadd g (sg true) d)). destruct (adjusts w true gs _). done.
Qed.

(** The groups orphaned by decrements, in order. *)
Fixpoint orphans (w : pworld) (gs : list loc) (d : loc -> Z) : list loc :=
  match gs with
  | [] => []
  | g :: gs =>
      let os := orphans w gs (dadd g (-1) d) in
      if jobc w g + d g - 1 =? 0 then g :: os else os
  end.

Lemma adjusts_log_leave w gs d : (adjusts w false gs d).2 = orphans w gs d ≫= hup w.
Proof.
  revert d. induction gs as [|g gs IH]; intros d; cbn [adjusts orphans]; [done|].
  specialize (IH (dadd g (sg false) d)). destruct (adjusts w false gs _) as [d' es']. cbn [snd sg] in *. rewrite IH.
  destruct (jobc w g + d g - 1 =? 0); done.
Qed.

(** When no count goes below 0, the groups orphaned are those whose counts reach 0,
    each once. *)
Lemma orphans_spec w gs d : (forall x, x ∈ gs -> occZ x gs <= jobc w x + d x) ->
  NoDup (orphans w gs d) /\ forall x, x ∈ orphans w gs d <-> x ∈ gs /\ jobc w x + d x = occZ x gs.
Proof.
  revert d. induction gs as [|g gs IH]; intros d Hd; cbn [orphans].
  { split; [apply NoDup_nil_2|]. intros x. split; [by intros ?%not_elem_of_nil|by intros [?%not_elem_of_nil _]]. }
  assert (forall x, occZ x (g :: gs) = (if decide (g = x) then 1 else 0) + occZ x gs) as Ho by done.
  destruct (IH (dadd g (-1) d)) as (Hnd&Hm).
  { intros x Hx. specialize (Hd x ltac:(by right)). rewrite Ho in Hd. unfold dadd.
    destruct (decide (x = g)), (decide (g = x)); subst; try done; lia. }
  assert (forall x, x ∈ orphans w gs (dadd g (-1) d) -> jobc w x + d x = occZ x (g :: gs)) as Hin.
  { intros x (Hx&Hj)%Hm. rewrite Ho. unfold dadd in Hj.
    destruct (decide (x = g)), (decide (g = x)); subst; try done; lia. }
  pose proof (Hd g ltac:(by left)) as Hg. rewrite Ho, decide_True in Hg by done. pose proof (occZ_nonneg g gs).
  destruct (Z.eqb_spec (jobc w g + d g - 1) 0) as [Ez|Ez].
  - assert (g ∉ gs) as Hng. { intros Hg'%occZ_pos. lia. }
    split.
    + apply list.NoDup_cons. split; [|done]. intros (Hx&_)%Hm. done.
    + intros x. rewrite !elem_of_cons, Hm, Ho. unfold dadd.
      destruct (decide (g = x)) as [<-|Hne].
      * rewrite decide_True by done. rewrite (occZ_zero g gs) by done. split; [|by left].
        intros _. split; [by left|lia].
      * rewrite (decide_False (P := x = g)) by done. rewrite Z.add_0_l. naive_solver.
  - split; [done|]. intros x. rewrite Hm, elem_of_cons, Ho. unfold dadd.
    destruct (decide (g = x)) as [<-|Hne].
    + rewrite decide_True by done. split; [intros (?&?); split; [by right|lia]|].
      intros (_&Hj). split; [|lia]. destruct (decide (g ∈ gs)) as [|Hn]; [done|].
      rewrite (occZ_zero g gs) in Hj by done. lia.
    + rewrite (decide_False (P := x = g)) by done. rewrite Z.add_0_l. naive_solver.
Qed.

(** *** The counts of a process and its children *)

(** The processes other than [p] and its children. *)
Definition rest (w : pworld) (p : loc) : list loc :=
  filter (fun q => q <> p /\ ppof w q <> Some p) (known w).

Lemma not_own_parent w p : tree_ok w -> ppof w p <> Some p.
Proof.
  intros T Hp. pose proof Hp as (P&EP&Epp)%ppof_Some.
  assert (forall n, walk n w p = Some p) as Hloop.
  { induction n as [|n IH]; [done|]. cbn. by rewrite Hp. }
  pose proof (to_reach w T p P EP) as (n&Hn)%rtc_walk. rewrite Hloop in Hn. injection Hn as Hn.
  pose proof (ppof_root w T) as Hr. congruence.
Qed.

Lemma known_split w p P : procs_ok w -> tree_ok w -> procs w !! p = Some P ->
  known w ≡ₚ p :: p_cptr P ++ rest w p.
Proof.
  intros HP T EP. destruct (to_child w T p P EP) as (Hnd&Hch).
  pose proof (not_own_parent w p T) as Hself.
  assert (forall c, c ∈ p_cptr P -> c ∈ known w) as Hk.
  { intros c (C&EC&_)%Hch%ppof_Some. apply (po_dom w HP). by eexists. }
  apply NoDup_Permutation.
  - apply HP.
  - apply list.NoDup_cons. split.
    + rewrite elem_of_app. intros [Hp|Hp]; [by apply Hself, Hch|].
      unfold rest in Hp. apply list_elem_of_filter in Hp as ((Hne&_)&_). done.
    + apply list.NoDup_app. split_and!; [done| |apply list.NoDup_filter, HP].
      intros c Hc Hr. unfold rest in Hr. apply list_elem_of_filter in Hr as ((_&Hr)&_). by apply Hr, Hch.
  - intros q. rewrite elem_of_cons, elem_of_app. unfold rest. rewrite list_elem_of_filter. split.
    + intros Hq. destruct (decide (q = p)) as [->|Hne]; [by left|right].
      destruct (decide (ppof w q = Some p)) as [Hpp|Hpp]; [left|by right].
      pose proof Hpp as (Q&EQ&Epp)%ppof_Some.
      destruct (decide (q = proc0 w)) as [->|Hn0]; [by rewrite (ppof_root w T) in Hpp|].
      destruct (to_parent w T q Q EQ Hn0) as (r&R&Er&ER&_&Hin). rewrite Epp in Er. by simplify_eq.
    + intros [->|[Hc|[_ Hq]]]; [apply (po_dom w HP); by eexists|by apply Hk|done].
Qed.

Lemma jobs_split w p P x : procs_ok w -> tree_ok w -> procs w !! p = Some P ->
  jobs w x = Z.b2z (qual w x p) + sumZ (fun c => Z.b2z (qual w x c)) (p_cptr P)
             + sumZ (fun q => Z.b2z (qual w x q)) (rest w p).
Proof.
  intros HP T EP. unfold jobs. rewrite (sumZ_perm _ _ _ (known_split w p P HP T EP)), sumZ_cons, sumZ_app. lia.
Qed.

Lemma occ_targets w p P g x : procs w !! p = Some P -> p_stat P <> SZOMB -> pgof w p = Some g ->
  (forall c, c ∈ p_cptr P -> ppof w c = Some p) ->
  occZ x (targets w p g) = Z.b2z (qual w x p) + sumZ (fun c => Z.b2z (qual w x c)) (p_cptr P).
Proof.
  intros EP Hs Hg Hch. unfold targets, occZ. rewrite sumZ_app, EP. cbn [fmap option_fmap option_map default]. unfold id. f_equal.
  - unfold qual, alive. rewrite EP, Hg. destruct (Z.eqb_spec (p_stat P) SZOMB) as [|_]; [done|].
    cbn [negb andb]. rewrite andb_true_r. destruct (ppof w p ≫= pgof w) as [h|]; [|by rewrite andb_false_r].
    unfold counted. destruct (decide (g = x)) as [->|Hne].
    + rewrite (bool_decide_true (Some x = Some x)) by done. rewrite andb_true_l.
      generalize (negb (bool_decide (h = x)) && bool_decide (sesof w h = sesof w x)). intros []; [|done].
      cbn. by rewrite decide_True by done.
    + rewrite (bool_decide_false (Some g = Some x)) by congruence. cbn [andb]. case_match; [|done].
      cbn. by rewrite decide_False by done.
  - induction (p_cptr P) as [|c l IH]; [done|]. rewrite sumZ_cons.
    assert (Z.b2z (qual w x c) = sumZ (fun y => if decide (y = x) then 1 else 0) (match child_target w g c with Some y => [y] | None => [] end)) as ->.
    { unfold child_target, qual. rewrite (Hch c) by by left. cbn [mbind option_bind]. rewrite Hg.
      destruct (pgof w c) as [k|]; cbn [mbind option_bind]; [|by rewrite bool_decide_false by done].
      unfold counted. destruct (decide (k = x)) as [->|Hne].
      - rewrite bool_decide_true by done. cbn [andb].
        rewrite (bool_decide_ext (x = g) (g = x)) by (split; done).
        rewrite (bool_decide_ext (sesof w x = sesof w g) (sesof w g = sesof w x)) by (split; done).
        rewrite (andb_comm _ (alive w c)). destruct (alive w c && _); [|done]. cbn. by rewrite decide_True by done.
      - rewrite (bool_decide_false (Some k = Some x)) by congruence. cbn [andb].
        destruct (_ && alive w c); [|done]. cbn. by rewrite decide_False by done. }
    change (omap (child_target w g) (c :: l)) with
      (match child_target w g c with Some y => y :: omap (child_target w g) l | None => omap (child_target w g) l end).
    rewrite <- IH by (intros y Hy; apply Hch; by right).
    destruct (child_target w g c); [|done]. rewrite !sumZ_cons. change (sumZ _ []) with 0. lia.
Qed.

(** The groups whose counts change are all of one session. *)
Lemma targets_session w p h x : x ∈ targets w p h -> sesof w x = sesof w h.
Proof.
  assert (forall k, counted w h k = true -> sesof w k = sesof w h) as Hc.
  { intros k (_&?%bool_decide_eq_true)%andb_true_iff. done. }
  unfold targets. rewrite elem_of_app. intros [Hx|Hx].
  - destruct (ppof w p ≫= pgof w) as [k|]; [|by apply not_elem_of_nil in Hx].
    destruct (counted w h k); [|by apply not_elem_of_nil in Hx]. by apply list_elem_of_singleton in Hx as ->.
  - apply list_elem_of_omap in Hx as (c&_&Hx). unfold child_target in Hx.
    apply bind_Some in Hx as (k&_&Hx). destruct (counted w h k && alive w c) eqn:E; [|done].
    apply andb_true_iff in E as (E&_). injection Hx as ->. by apply Hc.
Qed.

Lemma occ_le_jobs w p P g x : procs_ok w -> tree_ok w -> procs w !! p = Some P -> p_stat P <> SZOMB -> pgof w p = Some g ->
  occZ x (targets w p g) <= jobs w x.
Proof.
  intros HP T EP Hs Eg. rewrite (jobs_split w p P x HP T EP), (occ_targets w p P g x EP Hs Eg) by apply (to_child w T p P EP).
  pose proof (sumZ_nonneg (fun q => Z.b2z (qual w x q)) (rest w p)) as H.
  assert (forall q, 0 <= Z.b2z (qual w x q)) as Hb by (intros q; by destruct (qual w x q)). specialize (H Hb). lia.
Qed.

Lemma jobc_targets w p g G x : jobs_ok w -> pgrps w !! g = Some G -> sesof w g <> init_session w -> x ∈ targets w p g ->
  jobc w x = jobs w x.
Proof.
  intros HJ EG Hses Hx. pose proof (targets_session w p g x Hx) as Es. destruct (sesof_live w g G EG) as (s&Eo). rewrite Eo in *.
  pose proof Es as (X&EX&_)%sesof_Some. unfold jobc. rewrite EX. cbn. apply HJ; [done|]. by rewrite Es.
Qed.

(** How the counts change when a process goes from the group [g] to the group
    [h], all else being the same. *)
Record moved (w w' : pworld) (p : loc) : Prop := {
  mv_known : known w' = known w;
  mv_tree : forall q, ppof w' q = ppof w q;
  mv_alive : forall q, alive w' q = alive w q;
  mv_groups : forall q, q <> p -> pgof w' q = pgof w q;
}.

Lemma qual_ext w w' p x q : moved w w' p -> q <> p -> ppof w q <> Some p ->
  (forall r h, r <> p -> pgof w r = Some h -> h = x \/ (sesof w' h = sesof w' x <-> sesof w h = sesof w x)) ->
  qual w' x q = qual w x q.
Proof.
  intros M Hq Hpq Hs. unfold qual. rewrite (mv_tree _ _ _ M), (mv_alive _ _ _ M), (mv_groups _ _ _ M) by done.
  destruct (ppof w q) as [r|] eqn:Er; cbn [mbind option_bind]; [|done].
  rewrite (mv_groups _ _ _ M) by congruence. destruct (pgof w r) as [h|] eqn:Eh; [|done].
  f_equal. destruct (Hs r h ltac:(congruence) Eh) as [->|Hss]; [by rewrite bool_decide_true by done|].
  f_equal. by apply bool_decide_ext.
Qed.

Lemma jobs_rest w w' p x : moved w w' p ->
  (forall r h, r <> p -> pgof w r = Some h -> h = x \/ (sesof w' h = sesof w' x <-> sesof w h = sesof w x)) ->
  sumZ (fun q => Z.b2z (qual w' x q)) (rest w p) = sumZ (fun q => Z.b2z (qual w x q)) (rest w p).
Proof.
  intros M Hs. apply sumZ_ext. intros q Hq. unfold rest in Hq.
  apply list_elem_of_filter in Hq as ((Hne&Hpp)&_). by rewrite (qual_ext w w' p x q).
Qed.

(** ** Updates that keep parts of the invariant *)

(** The fields of a process that the tables of [procs_ok] and [tree_ok] are
    about. *)
Definition same_id (P Q : proc) : Prop :=
  p_pid P = p_pid Q /\ p_stat P = p_stat Q /\ p_pptr P = p_pptr Q /\ p_cptr P = p_cptr Q /\ p_ru P = p_ru Q.

Lemma same_id_refl P : same_id P P.
Proof. by unfold same_id. Qed.
#[local] Hint Resolve same_id_refl : core.

Definition upd (p : loc) (P : proc) (w : pworld) : pworld := set_procs (<[p := P]> (procs w)) w.

Lemma procs_upd_lookup p P w q : procs (upd p P w) !! q = if decide (q = p) then Some P else procs w !! q.
Proof.
  unfold upd. cbn. destruct (decide (q = p)) as [->|]; [by rewrite lookup_insert_eq|by rewrite lookup_insert_ne by done].
Qed.

(** A process of the new world is one of the old with the same identity. *)
Lemma upd_back p P P0 w q Q : procs w !! p = Some P0 -> same_id P P0 -> procs (upd p P w) !! q = Some Q ->
  exists Q0, procs w !! q = Some Q0 /\ same_id Q Q0.
Proof.
  intros E0 Hs. rewrite procs_upd_lookup. destruct (decide (q = p)) as [->|]; [|by eauto].
  intros [= <-]. eauto.
Qed.
Lemma upd_fwd p P P0 w q Q0 : procs w !! p = Some P0 -> same_id P P0 -> procs w !! q = Some Q0 ->
  exists Q, procs (upd p P w) !! q = Some Q /\ same_id Q Q0.
Proof.
  intros E0 Hs EQ. rewrite procs_upd_lookup. destruct (decide (q = p)) as [->|]; simplify_eq; [eauto|].
  exists Q0. by unfold same_id.
Qed.

Lemma procs_ok_upd p P P0 w : procs_ok w -> procs w !! p = Some P0 -> same_id P P0 -> procs_ok (upd p P w).
Proof.
  intros H E0 Hs. constructor.
  - apply H.
  - intros q. change (known (upd p P w)) with (known w). rewrite (po_dom w H).
    rewrite procs_upd_lookup. destruct (decide (q = p)) as [->|]; [|done]. rewrite E0. split; by eexists.
  - intros q Q (Q0&EQ&_&->&_)%(upd_back p P P0 w q Q E0 Hs). by apply (po_zomb w H).
  - apply H.
  - intros a b A B (A0&EA&->&_)%(upd_back p P P0 w a A E0 Hs) (B0&EB&->&_)%(upd_back p P P0 w b B E0 Hs).
    by apply (po_pid w H).
  - intros q Q (Q0&EQ&->&_)%(upd_back p P P0 w q Q E0 Hs). by apply (po_range w H).
  - refine (hashes_ext _ _ _ _ _ _ (po_hash w H) _). intros q n. change (proc0 (upd p P w)) with (proc0 w). split.
    + intros (Q&EQ&(?&?)&?). destruct (upd_back p P P0 w q Q E0 Hs EQ) as (Q0&EQ0&E1&E2&_).
      exists Q0. rewrite <- E1, <- E2. done.
    + intros (Q0&EQ0&(?&?)&?). destruct (upd_fwd p P P0 w q Q0 E0 Hs EQ0) as (Q&EQ&E1&E2&_).
      exists Q. rewrite E1, E2. done.
Qed.

Lemma ru_ok_upd p P P0 w : ru_ok w -> procs w !! p = Some P0 -> same_id P P0 -> ru_ok (upd p P w).
Proof.
  intros H E0 Hs q Q EQ Hz. destruct (upd_back p P P0 w q Q E0 Hs EQ) as (Q0&EQ0&E1&E2&_&_&->).
  apply (H q Q0); [done|]. by rewrite <- E2.
Qed.

Lemma ppof_upd p P P0 w q : procs w !! p = Some P0 -> p_pptr P = p_pptr P0 -> ppof (upd p P w) q = ppof w q.
Proof.
  intros E0 Hs. unfold ppof. rewrite procs_upd_lookup. destruct (decide (q = p)) as [->|]; [|done].
  by rewrite E0.
Qed.

Lemma tree_ok_upd p P P0 w : tree_ok w -> procs w !! p = Some P0 -> same_id P P0 -> tree_ok (upd p P w).
Proof.
  intros T E0 Hs. pose proof Hs as (_&_&Hpp&_). constructor.
  - intros q Q EQ Hn. destruct (upd_back p P P0 w q Q E0 Hs EQ) as (Q0&EQ0&_&_&->&_).
    destruct (to_parent w T q Q0 EQ0 Hn) as (r&R0&Er&ER0&Hst&Hin).
    destruct (upd_fwd p P P0 w r R0 E0 Hs ER0) as (R&ER&_&E2&_&E4&_).
    exists r, R. by rewrite E2, E4.
  - destruct (to_root w T) as (R0&ER0&Hr&Hst). destruct (upd_fwd p P P0 w _ R0 E0 Hs ER0) as (R&ER&_&E2&E3&_).
    exists R. by rewrite E2, E3.
  - intros q Q EQ. destruct (upd_back p P P0 w q Q E0 Hs EQ) as (Q0&EQ0&_&_&_&->&_).
    destruct (to_child w T q Q0 EQ0) as (Hnd&Hc). split; [done|]. intros c Hin. rewrite (ppof_upd p P P0) by done. by apply Hc.
  - intros q Q EQ. destruct (upd_back p P P0 w q Q E0 Hs EQ) as (Q0&EQ0&_).
    eapply rtc_subrel; [|by apply (to_reach w T q Q0)]. intros a b Hab. by rewrite (ppof_upd p P P0).
  - rewrite (ppof_upd p P P0) by done. apply (to_init w T).
Qed.

Lemma pgof_upd p P w q : pgof (upd p P w) q = if decide (q = p) then p_pgrp P else pgof w q.
Proof. unfold pgof. rewrite procs_upd_lookup. by destruct (decide (q = p)). Qed.

Lemma alive_upd p P P0 w q : procs w !! p = Some P0 -> p_stat P = p_stat P0 -> alive (upd p P w) q = alive w q.
Proof.
  intros E0 Hs. unfold alive. rewrite procs_upd_lookup. destruct (decide (q = p)) as [->|]; [|done].
  by rewrite E0, Hs.
Qed.

(** ** The steps of entering and leaving a group *)

Lemma groups_live L E w : groups_ok L E w -> members_live w.
Proof.
  intros H g G p EG Hp. destruct (go_mem _ _ w H g G EG) as (_&_&Hm).
  destruct (Hm p Hp) as (_&(P&EP&_)%pgof_Some). by eexists.
Qed.

Lemma sesof_mk w d es g : sesof (mk w d es) g = sesof w g.
Proof. unfold sesof. cbn. rewrite lookup_bump. by destruct (pgrps w !! g). Qed.

Lemma groups_ok_mk L E w d es : groups_ok L E w -> groups_ok L E (mk w d es).
Proof.
  intros H. constructor.
  - intros p P EP Hp. destruct (go_group _ _ w H p P EP Hp) as (g&G&?&EG&?).
    exists g, (set_jobc (pg_jobc G + d g) G). cbn. rewrite lookup_bump, EG. done.
  - intros g G' EG'. cbn in EG'. rewrite lookup_bump in EG'. apply fmap_Some in EG' as (G&EG&->). exact (go_mem _ _ w H g G EG).
  - intros g h G' H' EG' EH'. cbn in EG', EH'. rewrite lookup_bump in EG', EH'.
    apply fmap_Some in EG' as (G&EG&->), EH' as (K&EK&->). exact (go_id _ _ w H g h G K EG EK).
  - refine (hashes_ext _ _ _ _ _ _ (go_hash _ _ w H) _). intros g n. cbn. rewrite lookup_bump.
    destruct (pgrps w !! g) as [G|]; cbn; naive_solver.
  - intros g G' EG'. cbn in EG'. rewrite lookup_bump in EG'. apply fmap_Some in EG' as (G&EG&->). exact (go_ses _ _ w H g G EG).
  - intros s S ES. destruct (go_count _ _ w H s S ES) as (->&?). split; [|done]. f_equal.
    apply count_map_ext. intros g. cbn. rewrite lookup_bump. destruct (pgrps w !! g) as [G|]; cbn; naive_solver.
Qed.

Lemma lead_ok_pgrps L w w' : lead_ok L w -> procs w' = procs w -> initproc w' = initproc w ->
  (forall g G, pgrps w' !! g = Some G -> exists G0, pgrps w !! g = Some G0 /\ pg_id G0 = pg_id G /\ pg_session G0 = pg_session G) ->
  (forall q Q g G0, procs w !! q = Some Q -> p_pgrp Q = Some g -> Some q <> L -> pgrps w !! g = Some G0 ->
     exists G, pgrps w' !! g = Some G /\ pg_id G = pg_id G0 /\ pg_session G = pg_session G0) ->
  (forall s S, sessions w' !! s = Some S -> exists S0, sessions w !! s = Some S0 /\ s_leader S0 = s_leader S) ->
  (forall g G, pgrps w' !! g = Some G -> is_Some (sessions w' !! pg_session G)) -> lead_ok L w'.
Proof.
  intros H Ep Ei Hb Hf Hs Hlive.
  assert (forall q Q g s, procs w !! q = Some Q -> p_pgrp Q = Some g -> Some q <> L -> sesof w g = Some s -> sesof w' g = Some s) as Hses.
  { intros q Q g s EQ Eg Hq (G&EG&<-)%sesof_Some. apply sesof_Some. destruct (Hf q Q g G EQ Eg Hq EG) as (G'&?&?&?). eauto. }
  constructor.
  - intros s S p ES El HL. destruct (Hs s S ES) as (S0&ES0&E0). rewrite <- E0 in El.
    destruct (lo_leader L w H s S0 p ES0 El HL) as (P&g&G&EP&?&Eg&EG&Eid&Ese).
    destruct (Hf p P g G EP Eg HL EG) as (G'&?&?&?). exists P, g, G'. rewrite Ep. split_and!; congruence || done.
  - intros p P g G EP EG Eid HL. rewrite Ep in EP. destruct (Hb g G EG) as (G0&EG0&E1&E2).
    destruct (lo_own L w H p P g G0 EP EG0) as (h&?&?); [congruence|done|]. exists h. split; [done|]. rewrite <- E2.
    by apply (Hses p P).
  - destruct (lo_init L w H) as (P&g&s&S&EP&?&Eg&Eses&ES&El&HL). rewrite Ep, Ei.
    pose proof (Hses _ P g s EP Eg HL Eses) as Eses'. pose proof Eses' as (G&EG&E)%sesof_Some.
    destruct (Hlive g G EG) as (S'&ES'). rewrite E in ES'.
    exists P, g, s, S'. split_and!; [done..| |done].
    destruct (Hs s S' ES') as (S0&?&<-). by simplify_eq.
Qed.

Lemma lead_ok_mk L w d es : (forall g G, pgrps w !! g = Some G -> is_Some (sessions w !! pg_session G)) ->
  lead_ok L w -> lead_ok L (mk w d es).
Proof.
  intros Hl H. apply (lead_ok_pgrps L w); [done..| | |by eauto|].
  - intros g G EG. cbn in EG. rewrite lookup_bump in EG. apply fmap_Some in EG as (G0&EG&->). by exists G0.
  - intros q Q g G _ _ _ EG. cbn. rewrite lookup_bump, EG. by exists (set_jobc (pg_jobc G + d g) G).
  - intros g G EG. cbn in EG. rewrite lookup_bump in EG. apply fmap_Some in EG as (G0&EG&->). exact (Hl g G0 EG).
Qed.

Lemma tty_ok_mk w d es : tty_ok w -> tty_ok (mk w d es).
Proof.
  intros H. constructor; [|apply H..]. intros t T g ET Eg.
  destruct (tt_pgrp w H t T g ET Eg) as (s&?&?). exists s. by rewrite sesof_mk.
Qed.

(** *** A new group *)

(** The world with a new empty group. *)
Definition newgrp (g : loc) (pgid : Z) (s : loc) (ss : gmap loc session) (w : pworld) : pworld :=
  set_pgrps (<[g := mkPgrp pgid [] s 0]> (pgrps w))
    (set_pgrphash (<[PIDHASH pgid := g :: chain (pgrphash w) (PIDHASH pgid)]> (pgrphash w)) (set_sessions ss w)).

Lemma groups_ok_newgrp L E w g pgid s ss : groups_ok L E w -> pgrps w !! g = None ->
  (forall h G, pgrps w !! h = Some G -> pg_id G <> pgid) -> is_Some (ss !! s) ->
  (forall x, is_Some (sessions w !! x) -> is_Some (ss !! x)) ->
  (forall x S, ss !! x = Some S -> s_count S = Z.of_nat (count_map (fun G => pg_session G = x) (pgrps w))
     + (if decide (s = x) then 1 else 0) /\ 0 < s_count S) ->
  groups_ok L (g :: E) (newgrp g pgid s ss w).
Proof.
  intros H Eg Hid Hs Hss Hc. constructor.
  - intros p P EP Hp. destruct (go_group _ _ w H p P EP Hp) as (h&G&?&EG&?). exists h, G.
    cbn. rewrite lookup_insert_ne; [done|]. intros ->. congruence.
  - intros h G. cbn. rewrite lookup_insert_Some. intros [(<-&<-)|(_&EG)].
    + cbn. split_and!; [right; by left|apply NoDup_nil_2|]. intros p Hp. by apply not_elem_of_nil in Hp.
    + destruct (go_mem _ _ w H h G EG) as (Hm&?&?). split_and!; [|done..].
      destruct Hm as [?|?]; [by left|right; by right].
  - intros h k G K. cbn. rewrite !lookup_insert_Some. intros [(<-&<-)|(?&EG)] [(<-&<-)|(?&EK)]; cbn; [done| | |].
    + intros Ei. by destruct (Hid k K EK).
    + intros Ei. by destruct (Hid h G EG).
    + exact (go_id _ _ w H h k G K EG EK).
  - cbn. exact (hashes_insert (pgrphash w) (pgrps w) pg_id (fun _ _ => True) g (mkPgrp pgid [] s 0) (fun _ _ => True)
      (go_hash _ _ w H) Eg I (fun _ _ _ => conj (fun x => x) (fun x => x))).
  - intros h G. cbn. rewrite lookup_insert_Some. intros [(<-&<-)|(_&EG)]; [done|].
    apply Hss. exact (go_ses _ _ w H h G EG).
  - intros x S ES. destruct (Hc x S ES) as (Ec&Hpos). split; [|done]. rewrite Ec. cbn.
    rewrite count_map_fresh by done. unfold one. cbn. destruct (decide (s = x)); lia.
Qed.

Lemma groups_ok_upd L E p P P0 w : groups_ok L E w -> procs w !! p = Some P0 -> p_pgrp P = p_pgrp P0 ->
  groups_ok L E (upd p P w).
Proof.
  intros H E0 Hg. constructor; [|intros g G EG; destruct (go_mem _ _ w H g G EG) as (?&?&Hm); split_and!; [done..|]|apply H..].
  - intros q Q. rewrite procs_upd_lookup. destruct (decide (q = p)) as [->|].
    + intros [= <-] Hq. rewrite Hg. exact (go_group _ _ w H p P0 E0 Hq).
    + intros EQ Hq. exact (go_group _ _ w H q Q EQ Hq).
  - intros q Hq. destruct (Hm q Hq) as (?&Hqg). split; [done|]. rewrite pgof_upd.
    destruct (decide (q = p)) as [->|]; [|done]. apply pgof_Some in Hqg as (P1&EP1&?). by simplify_eq; congruence.
Qed.

(** *** The end of a group *)

(** The world without the group [g]: its chain [l], the sessions and terminals
    left. *)
Definition pgdel (g : loc) (n : Z) (l : list loc) (ss : gmap loc session) (tt : gmap loc tty) (w : pworld) : pworld :=
  set_pgrps (delete g (pgrps w)) (set_sessions ss (set_pgrphash (<[n := l]> (pgrphash w)) (set_ttys tt w))).

(** The sessions once the one at [s] has lost a group. *)
Definition released (s : loc) (S : session) (m : gmap loc session) : gmap loc session :=
  if s_count S - 1 =? 0 then delete s m else <[s := set_count (s_count S - 1) S]> m.

Definition cleared_ttys (g : loc) (o : option loc) (m : gmap loc tty) : gmap loc tty :=
  match o with
  | Some t => alter (fun T => if decide (t_pgrp T = Some g) then mkTty (t_session T) None else T) t m
  | None => m
  end.

Lemma set_ttys_id w : set_ttys (ttys w) w = w.
Proof. by destruct w. Qed.

Lemma pgdelete_eq L E w g G S : groups_ok L E w -> tty_ok w -> pgrps w !! g = Some G ->
  sessions w !! pg_session G = Some S ->
  exists l, unlink g (chain (pgrphash w) (PIDHASH (pg_id G))) = Some l /\
    hashes (<[PIDHASH (pg_id G) := l]> (pgrphash w)) (delete g (pgrps w)) pg_id (fun _ _ => True) /\
    pgdelete g w = Ok (pgdel g (PIDHASH (pg_id G)) l (released (pg_session G) S (sessions w))
                         (cleared_ttys g (s_ttyp S) (ttys w)) w).
Proof.
  intros H HT EG ES.
  destruct (hashes_delete (pgrphash w) (pgrps w) (delete g (pgrps w)) pg_id (fun _ _ => True) (fun _ _ => True) g G)
    as (l&El&Hl); [apply H|done|done| |].
  { intros q n. rewrite lookup_delete. destruct (decide (g = q)) as [->|]; naive_solver. }
  exists l. split; [done|]. split; [done|].
  unfold pgdelete. rewrite EG. cbn [deref mbind outcome_bind]. rewrite ES. cbn [deref mbind outcome_bind].
  assert (forall w', sessions w' = sessions w -> pgrps w' = pgrps w ->
    (sess_release (pg_session G) w' ≫= fun w => mret (set_pgrps (delete g (pgrps w)) w))
    = Ok (set_pgrps (delete g (pgrps w)) (set_sessions (released (pg_session G) S (sessions w)) w'))) as Hrel.
  { intros w' Es Ep. unfold sess_release. rewrite Es, ES. cbn. by rewrite Ep. }
  unfold cleared_ttys. destruct (s_ttyp S) as [t|] eqn:Et.
  - destruct (tt_live w HT (pg_session G) S t ES Et) as (T&ET). rewrite ET. cbn [deref mbind outcome_bind].
    assert (alter (fun T => if decide (t_pgrp T = Some g) then mkTty (t_session T) None else T) t (ttys w)
      = if decide (t_pgrp T = Some g) then <[t := mkTty (t_session T) None]> (ttys w) else ttys w) as ->.
    { apply map_eq. intros i. rewrite lookup_alter. destruct (decide (t = i)) as [<-|].
      - rewrite ET. cbn. case_decide; [by rewrite lookup_insert_eq|done].
      - case_decide; [by rewrite lookup_insert_ne|done]. }
    destruct (decide (t_pgrp T = Some g)); cbn [mret outcome_ret mbind outcome_bind].
    + cbn [pgrphash set_ttys]. rewrite El. by rewrite Hrel.
    + rewrite El, Hrel by done. unfold pgdel. by rewrite set_ttys_id.
  - cbn [mret outcome_ret mbind outcome_bind]. rewrite El, Hrel by done. unfold pgdel. by rewrite set_ttys_id.
Qed.

Lemma released_lookup s S m x X : m !! s = Some S -> released s S m !! x = Some X ->
  exists X0, m !! x = Some X0 /\ s_leader X = s_leader X0 /\ s_login X = s_login X0 /\ s_ttyvp X = s_ttyvp X0
    /\ s_ttyp X = s_ttyp X0 /\ s_count X = s_count X0 - (if decide (x = s) then 1 else 0) /\ (x = s -> s_count X <> 0).
Proof.
  intros ES. unfold released. destruct (Z.eqb_spec (s_count S - 1) 0) as [Ez|Ez].
  - rewrite lookup_delete_Some. intros (?&EX). exists X. rewrite decide_False by done. split_and!; [done..|lia|done].
  - destruct (decide (x = s)) as [->|].
    + rewrite lookup_insert_eq. intros [= <-]. exists S. done.
    + rewrite lookup_insert_ne by done. intros EX. exists X. split_and!; [done..|lia|done].
Qed.

Lemma released_live s S m x : m !! s = Some S -> is_Some (m !! x) -> (x = s -> s_count S <> 1) ->
  is_Some (released s S m !! x).
Proof.
  intros ES Hx Hs. unfold released. destruct (Z.eqb_spec (s_count S - 1) 0) as [Ez|Ez].
  - rewrite lookup_delete_ne; [done|]. intros <-. apply Hs; [done|lia].
  - destruct (decide (x = s)) as [->|]; [rewrite lookup_insert_eq; by eexists|by rewrite lookup_insert_ne].
Qed.

(** A session with two groups counts more than one. *)
Lemma count_two L E w g h G K : groups_ok L E w -> pgrps w !! g = Some G -> pgrps w !! h = Some K -> g <> h ->
  pg_session G = pg_session K -> forall S, sessions w !! pg_session G = Some S -> s_count S <> 1.
Proof.
  intros H EG EK Hne Es S ES. destruct (go_count _ _ w H _ S ES) as (-> & _).
  intros Hc. apply Hne. eapply (count_map_one (fun G' => pg_session G' = pg_session G)); [exact EG|done| |exact EK|done]. lia.
Qed.

Lemma groups_ok_pgdel L E w g G S l : groups_ok L (g :: E) w -> pgrps w !! g = Some G -> pg_mem G = [] ->
  sessions w !! pg_session G = Some S -> forall tt,
  hashes (<[PIDHASH (pg_id G) := l]> (pgrphash w)) (delete g (pgrps w)) pg_id (fun _ _ => True) ->
  groups_ok L E (pgdel g (PIDHASH (pg_id G)) l (released (pg_session G) S (sessions w)) tt w).
Proof.
  intros H EG Em ES tt Hh. constructor; cbn.
  - intros p P EP Hp. destruct (go_group _ _ w H p P EP Hp) as (h&K&?&EK&Hm). exists h, K.
    rewrite lookup_delete_ne; [done|]. intros <-. simplify_eq. rewrite Em in Hm. by apply not_elem_of_nil in Hm.
  - intros h K. rewrite lookup_delete_Some. intros (Hne&EK). destruct (go_mem _ _ w H h K EK) as (Hm&?&?). split_and!; [|done..].
    destruct Hm as [?|[->|?]%elem_of_cons]; [by left|done|by right].
  - intros h k K K'. rewrite !lookup_delete_Some. intros (_&EK) (_&EK'). exact (go_id _ _ w H h k K K' EK EK').
  - done.
  - intros h K. rewrite lookup_delete_Some. intros (Hne&EK). apply (released_live _ S); [done|exact (go_ses _ _ w H h K EK)|].
    intros E2. eapply (count_two L (g :: E) w g h); eauto.
  - intros x X EX. destruct (released_lookup _ S _ x X ES EX) as (X0&EX0&_&_&_&_&Ec&Hn).
    destruct (go_count _ _ w H x X0 EX0) as (Ec0&Hpos). rewrite Ec, Ec0.
    rewrite (count_map_delete _ _ g G) by done. unfold one. split.
    + destruct (decide (pg_session G = x)), (decide (x = pg_session G)); try congruence; lia.
    + rewrite Ec, Ec0, (count_map_delete _ _ g G) in Hn by done. rewrite Ec0, (count_map_delete _ _ g G) in Hpos by done.
      unfold one in *. destruct (decide (pg_session G = x)), (decide (x = pg_session G)); try congruence; try lia.
Qed.

Lemma cleared_lookup g o m t T : cleared_ttys g o m !! t = Some T ->
  exists T0, m !! t = Some T0 /\ t_session T = t_session T0 /\
    (T = T0 /\ (o = Some t -> t_pgrp T0 <> Some g) \/ t_pgrp T = None).
Proof.
  unfold cleared_ttys. destruct o as [u|]; [|naive_solver].
  rewrite lookup_alter_Some. intros [(<-&T0&E0&->)|(Hne&E0)].
  - exists T0. split; [done|]. case_decide; naive_solver.
  - exists T. split_and!; [done..|]. left. naive_solver.
Qed.

Lemma no_members L E w g G : groups_ok L E w -> pgrps w !! g = Some G -> pg_mem G = [] ->
  forall p P h, procs w !! p = Some P -> Some p <> L -> p_pgrp P = Some h -> h <> g.
Proof.
  intros H EG Em p P h EP Hp Eh ->. destruct (go_group _ _ w H p P EP Hp) as (k&K&Ek&EK&Hm).
  simplify_eq. rewrite Em in Hm. by apply not_elem_of_nil in Hm.
Qed.

Section Deleted.
Context (L : option loc) (E : list loc) (w : pworld) (g : loc) (G : pgrp) (S : session) (l : list loc).
Hypothesis Hg : groups_ok L (g :: E) w.
Hypothesis Hlead : lead_ok L w.
Hypothesis Htty : tty_ok w.
Hypothesis HG : pgrps w !! g = Some G.
Hypothesis Hempty : pg_mem G = [].
Hypothesis HS : sessions w !! pg_session G = Some S.
Hypothesis HL : forall p, s_leader S = Some p -> Some p <> L.

Let w' := pgdel g (PIDHASH (pg_id G)) l (released (pg_session G) S (sessions w)) (cleared_ttys g (s_ttyp S) (ttys w)) w.

Lemma sesof_pgdel h : h <> g -> sesof w' h = sesof w h.
Proof. intros Hne. unfold sesof, w'. cbn. by rewrite lookup_delete_ne. Qed.

Lemma lead_ok_pgdel : groups_ok L E w' -> lead_ok L w'.
Proof.
  intros Hg'. apply (lead_ok_pgrps L w); [done..| | | |].
  - intros h K. cbn. rewrite lookup_delete_Some. naive_solver.
  - intros q Q h K EQ Eh Hq EK. exists K. cbn. rewrite lookup_delete_ne; [done|].
    intros <-. by eapply (no_members L (g :: E) w g G).
  - intros s X EX. destruct (released_lookup _ _ _ _ _ HS EX) as (X0&?&?&_). by exists X0.
  - exact (go_ses _ _ w' Hg').
Qed.

Lemma leader_elsewhere p : s_leader S = Some p -> s_count S <> 1.
Proof.
  intros El. destruct (lo_leader L w Hlead _ S p HS El (HL p El)) as (P&k&K&EP&_&Ek&EK&_&Es).
  assert (k <> g) as Hne by exact (no_members L (g :: E) w g G Hg HG Hempty p P k EP (HL p El) Ek).
  rewrite <- Es in HS. eapply (count_two L (g :: E) w k g K G); eauto.
Qed.

Lemma tty_ok_pgdel : tty_ok w'.
Proof.
  constructor.
  - intros t T h ET Eh. destruct (cleared_lookup _ _ _ _ _ ET) as (T0&ET0&Es&[(->&Hc)|Hn]); [|congruence].
    destruct (tt_pgrp w Htty t T0 h ET0 Eh) as (s&Et&Eses). exists s. split; [done|].
    rewrite sesof_pgdel; [done|]. intros ->.
    pose proof Eses as (G'&EG'&<-)%sesof_Some. simplify_eq.
    destruct (tt_ses w Htty t T0 _ ET0 Et) as (S'&ES'&_&_&Etp). simplify_eq. by apply Hc.
  - intros t T s ET Ets. destruct (cleared_lookup _ _ _ _ _ ET) as (T0&ET0&Es&_). rewrite Es in Ets.
    destruct (tt_ses w Htty t T0 s ET0 Ets) as (X&EX&(p&El)&Hvp&Etp).
    assert (is_Some (sessions w' !! s)) as (X'&EX').
    { apply (released_live _ S); [done|by eexists|]. intros ->. simplify_eq. by eapply leader_elsewhere. }
    destruct (released_lookup _ _ _ _ _ HS EX') as (X0&?&E1&_&E2&E3&_). simplify_eq.
    exists X'. rewrite E1, E2, E3. split_and!; [done|by eexists|done..].
  - intros s X EX. destruct (released_lookup _ _ _ _ _ HS EX) as (X0&EX0&_&_&->&->&_). exact (tt_vp w Htty s X0 EX0).
  - intros s X t EX. destruct (released_lookup _ _ _ _ _ HS EX) as (X0&EX0&_&_&_&->&_). intros Et.
    destruct (tt_live w Htty s X0 t EX0 Et) as (T&ET). unfold w', cleared_ttys. cbn.
    destruct (s_ttyp S) as [u|]; [|by eexists]. rewrite lookup_alter. destruct (decide (u = t)) as [->|]; rewrite ET; by eexists.
Qed.
End Deleted.

(** *** A process out of its group *)

(** What [pg_unlink] changes: the group [g] has lost [p], or is gone. *)
Record unlinked (p g : loc) (w w' : pworld) : Prop := {
  ul_procs : procs w' = procs w;
  ul_others : forall h, h <> g -> pgrps w' !! h = pgrps w !! h;
  ul_group : (mem w g = [p] /\ pgrps w' !! g = None) \/
    (exists G l, pgrps w !! g = Some G /\ pgrps w' !! g = Some (set_mem l G) /\ mem w g ≡ₚ p :: l /\ l <> []);
  ul_sessions : forall s S, sessions w' !! s = Some S ->
    exists S0, sessions w !! s = Some S0 /\ s_leader S0 = s_leader S /\ s_login S0 = s_login S
      /\ s_ttyvp S0 = s_ttyvp S /\ s_ttyp S0 = s_ttyp S;
  ul_tables : pidhash w' = pidhash w /\ allproc w' = allproc w /\ zombproc w' = zombproc w /\ nprocs w' = nprocs w
    /\ proc0 w' = proc0 w /\ initproc w' = initproc w /\ plog w' = plog w;
}.

Lemma pg_unlink_ok msg E w p P g G : groups_ok None E w -> lead_ok (Some p) w -> tty_ok w ->
  procs w !! p = Some P -> p_pgrp P = Some g -> pgrps w !! g = Some G ->
  (forall S, sessions w !! pg_session G = Some S -> s_leader S <> Some p) ->
  exists w', pg_unlink msg p g w = Ok w' /\ unlinked p g w w'
    /\ groups_ok (Some p) E w' /\ lead_ok (Some p) w' /\ tty_ok w'.
Proof.
  intros H Hlead Htty EP Eg EG HL.
  destruct (go_group _ _ w H p P EP ltac:(done)) as (g'&G'&Eg'&EG'&Hp). simplify_eq.
  destruct (go_mem _ _ w H g G EG) as (_&Hnd&Hmem).
  destruct (unlink_spec p (pg_mem G) Hnd Hp) as (l&El&Hperm&Hl&Hndl).
  unfold pg_unlink. rewrite EG. cbn [deref mbind outcome_bind]. rewrite El.
  set (w1 := set_pgrps (<[g := set_mem l G]> (pgrps w)) w).
  assert (forall h, sesof w1 h = sesof w h) as Hses.
  { intros h. unfold sesof, w1. cbn. destruct (decide (h = g)) as [->|]; [by rewrite lookup_insert_eq, EG|by rewrite lookup_insert_ne]. }
  assert (groups_ok (Some p) (g :: E) w1) as H1.
  { constructor; cbn.
    - intros q Q EQ Hq. destruct (go_group _ _ w H q Q EQ ltac:(done)) as (h&K&Eh&EK&Hm). exists h.
      destruct (decide (h = g)) as [->|]; [|exists K; by rewrite lookup_insert_ne].
      simplify_eq. eexists. rewrite lookup_insert_eq. split_and!; [done..|]. cbn. apply Hl. split; [done|congruence].
    - intros h K. rewrite lookup_insert_Some. intros [(<-&<-)|(?&EK)]; cbn.
      + split_and!; [right; by left|done|]. intros q (Hq&Hne)%Hl. split; [congruence|]. by apply Hmem.
      + destruct (go_mem _ _ w H h K EK) as (Hm&?&Hq). split_and!; [naive_solver set_solver|done|].
        intros q Hin. split; [|by apply Hq]. intros [= ->]. destruct (Hq p Hin) as (_&(P'&?&?)%pgof_Some). simplify_eq.
    - intros h k K K'. rewrite !lookup_insert_Some. intros [(<-&<-)|(?&EK)] [(<-&<-)|(?&EK')]; cbn; [done|..].
      + exact (go_id _ _ w H g k G K' EG EK'). + exact (go_id _ _ w H h g K G EK EG). + exact (go_id _ _ w H h k K K' EK EK').
    - refine (hashes_ext _ _ _ _ _ _ (go_hash _ _ w H) _). intros h n.
      destruct (decide (h = g)) as [->|]; [rewrite lookup_insert_eq, EG; naive_solver|by rewrite lookup_insert_ne].
    - intros h K. rewrite lookup_insert_Some. intros [(<-&<-)|(?&EK)]; [exact (go_ses _ _ w H g G EG)|exact (go_ses _ _ w H h K EK)].
    - intros s S ES. destruct (go_count _ _ w H s S ES) as (->&?). split; [|done]. f_equal. apply count_map_ext. intros h.
      destruct (decide (h = g)) as [->|]; [rewrite lookup_insert_eq, EG; naive_solver|by rewrite lookup_insert_ne]. }
  assert (lead_ok (Some p) w1) as H2.
  { apply (lead_ok_pgrps (Some p) w); [done..| | |by eauto|exact (go_ses _ _ w1 H1)].
    - intros h K. cbn. rewrite lookup_insert_Some. intros [(<-&<-)|(?&EK)]; [by exists G|by exists K].
    - intros q Q h K _ _ _ EK. cbn. destruct (decide (h = g)) as [->|]; [|exists K; by rewrite lookup_insert_ne].
      rewrite lookup_insert_eq. simplify_eq. by eexists. }
  assert (tty_ok w1) as H3.
  { constructor; [|apply Htty..]. intros t T h ET Eh. destruct (tt_pgrp w Htty t T h ET Eh) as (s&?&?). exists s. by rewrite Hses. }
  assert (pgrps w1 !! g = Some (set_mem l G)) as EG1 by (unfold w1; cbn; by rewrite lookup_insert_eq).
  destruct l as [|x l].
  - destruct (go_ses _ _ w1 H1 g _ EG1) as (S&ES).
    destruct (pgdelete_eq _ _ w1 g _ S H1 H3 EG1 ES) as (k&_&Hh&->).
    eexists. split; [done|].
    assert (forall q, s_leader S = Some q -> Some q <> Some p) as HL'.
    { intros q Eq [= ->]. by apply (HL S). }
    pose proof (groups_ok_pgdel _ _ w1 g _ S k H1 EG1 eq_refl ES (cleared_ttys g (s_ttyp S) (ttys w1)) Hh) as H4.
    split; [|split_and!; [done|by apply (lead_ok_pgdel (Some p) E)|by apply (tty_ok_pgdel (Some p) E)]].
    constructor; [done| | | |done].
    + intros h Hne. cbn. rewrite lookup_delete_ne, lookup_insert_ne by done. done.
    + left. split; [|cbn; by rewrite lookup_delete_eq]. unfold mem. rewrite EG. cbn. by apply Permutation_singleton_r in Hperm.
    + intros s X EX. destruct (released_lookup _ _ _ _ _ ES EX) as (X0&?&?&?&?&?&_). by exists X0.
  - exists w1. split; [done|]. split_and!; [|by (destruct H1 as [A B C D F K]; constructor; [exact A| |exact C|exact D|exact F|exact K];
      intros h K' EK'; destruct (B h K' EK') as ([?|Hin]&?&?); [split_and!; [by left|done..]|];
      apply elem_of_cons in Hin as [->|?]; [simplify_eq; split_and!; [by left|done..]|split_and!; [by right|done..]])|done|done].
    constructor; [done| | | |done].
    + intros h Hne. cbn. by rewrite lookup_insert_ne.
    + right. exists G, (x :: l). unfold mem. rewrite EG. by split_and!.
    + intros s X EX. by exists X.
Qed.

(** *** Into the new group *)

Definition linked (p g : loc) (P : proc) (G : pgrp) (w : pworld) : pworld :=
  set_pgrps (<[g := set_mem (p :: pg_mem G) G]> (pgrps w)) (upd p (set_p_pgrp (Some g) P) w).

Section Linked.
Context (E : list loc) (w : pworld) (p : loc) (P : proc) (g : loc) (G : pgrp).
Hypothesis Hg : groups_ok (Some p) (g :: E) w.
Hypothesis Hlead : lead_ok (Some p) w.
Hypothesis Htty : tty_ok w.
Hypothesis HP : procs w !! p = Some P.
Hypothesis HG : pgrps w !! g = Some G.

Lemma pgof_linked q : pgof (linked p g P G w) q = if decide (q = p) then Some g else pgof w q.
Proof. change (pgof (linked p g P G w) q) with (pgof (upd p (set_p_pgrp (Some g) P) w) q). apply pgof_upd. Qed.

Lemma sesof_linked h : sesof (linked p g P G w) h = sesof w h.
Proof.
  unfold sesof, linked. cbn. destruct (decide (h = g)) as [->|]; [by rewrite lookup_insert_eq, HG|by rewrite lookup_insert_ne].
Qed.

Lemma groups_ok_linked : groups_ok None E (linked p g P G w).
Proof.
  assert (p ∉ pg_mem G) as Hp.
  { intros Hin. destruct (go_mem _ _ w Hg g G HG) as (_&_&Hm). by destruct (Hm p Hin). }
  constructor.
  - intros q Q EQ _. change (procs (upd p (set_p_pgrp (Some g) P) w) !! q = Some Q) in EQ.
    rewrite procs_upd_lookup in EQ. destruct (decide (q = p)) as [->|Hne].
    + injection EQ as <-. exists g, (set_mem (p :: pg_mem G) G). cbn. rewrite lookup_insert_eq. split_and!; [done..|by left].
    + destruct (go_group _ _ w Hg q Q EQ ltac:(congruence)) as (h&K&Eh&EK&Hm). exists h. cbn.
      destruct (decide (h = g)) as [->|]; [|exists K; by rewrite lookup_insert_ne].
      simplify_eq. eexists. rewrite lookup_insert_eq. split_and!; [done..|]. cbn. by right.
  - intros h K EK. cbn in EK. apply lookup_insert_Some in EK as [(<-&<-)|(Hne&EK)].
    + destruct (go_mem _ _ w Hg g G HG) as (_&Hnd&Hm). cbn. split_and!; [by left|by apply list.NoDup_cons|].
      intros q. rewrite elem_of_cons. intros Hq. split; [done|]. rewrite pgof_linked.
      case_decide; [done|]. destruct Hq as [->|Hq]; [done|]. by apply Hm.
    + destruct (go_mem _ _ w Hg h K EK) as (Hm&Hnd&Hq). split_and!; [|done|].
      * destruct Hm as [?|[->|?]%elem_of_cons]; [by left|done|by right].
      * intros q Hin. destruct (Hq q Hin) as (?&?). split; [done|]. rewrite pgof_linked. case_decide; [congruence|done].
  - intros h k K K' EK EK'. cbn in EK, EK'. rewrite lookup_insert_Some in EK, EK'.
    destruct EK as [(<-&<-)|(?&EK)], EK' as [(<-&<-)|(?&EK')]; cbn; [done|..].
    + exact (go_id _ _ w Hg g k G K' HG EK'). + exact (go_id _ _ w Hg h g K G EK HG). + exact (go_id _ _ w Hg h k K K' EK EK').
  - refine (hashes_ext _ _ _ _ _ _ (go_hash _ _ w Hg) _). intros h n. cbn.
    destruct (decide (h = g)) as [->|]; [rewrite lookup_insert_eq, HG; naive_solver|by rewrite lookup_insert_ne].
  - intros h K EK. cbn in EK. rewrite lookup_insert_Some in EK.
    destruct EK as [(<-&<-)|(?&EK)]; [exact (go_ses _ _ w Hg g G HG)|exact (go_ses _ _ w Hg h K EK)].
  - intros s S ES. destruct (go_count _ _ w Hg s S ES) as (->&?). split; [|done]. f_equal. apply count_map_ext. intros h. cbn.
    destruct (decide (h = g)) as [->|]; [rewrite lookup_insert_eq, HG; naive_solver|by rewrite lookup_insert_ne].
Qed.

Lemma lead_ok_linked :
  (forall s S, sessions w !! s = Some S -> s_leader S = Some p ->
     pg_session G = s /\ pg_id G = p_pid P /\ p_stat P <> SZOMB) ->
  (forall h K, pgrps w !! h = Some K -> pg_id K = p_pid P -> pg_session K = pg_session G) ->
  lead_ok None (linked p g P G w).
Proof.
  intros Hl Ho.
  assert (forall h K, pgrps (linked p g P G w) !! h = Some K ->
    exists K0, pgrps w !! h = Some K0 /\ pg_id K = pg_id K0 /\ pg_session K = pg_session K0) as Hback.
  { intros h K EK. cbn in EK. apply lookup_insert_Some in EK as [(<-&<-)|(?&EK)]; [by exists G|by exists K]. }
  assert (forall h K0, pgrps w !! h = Some K0 ->
    exists K, pgrps (linked p g P G w) !! h = Some K /\ pg_id K = pg_id K0 /\ pg_session K = pg_session K0) as Hfwd.
  { intros h K EK. cbn. destruct (decide (h = g)) as [->|]; [|exists K; by rewrite lookup_insert_ne].
    rewrite lookup_insert_eq. simplify_eq. by eexists. }
  assert (forall q, procs (linked p g P G w) !! q = if decide (q = p) then Some (set_p_pgrp (Some g) P) else procs w !! q) as Hq.
  { intros q. apply procs_upd_lookup. }
  constructor.
  - intros s S q ES El _. rewrite Hq. case_decide; subst.
    + destruct (Hl s S ES El) as (?&?&?). exists (set_p_pgrp (Some g) P), g, (set_mem (p :: pg_mem G) G). cbn.
      rewrite lookup_insert_eq. done.
    + destruct (lo_leader _ w Hlead s S q ES El ltac:(congruence)) as (Q&h&K&?&?&?&EK&?&?).
      destruct (Hfwd h K EK) as (K'&?&?&?). exists Q, h, K'. split_and!; congruence || done.
  - intros q Q h K EQ EK Eid _. destruct (Hback h K EK) as (K0&EK0&E1&E2). rewrite Hq in EQ. case_decide; subst.
    + injection EQ as <-. exists g. split; [done|]. rewrite sesof_linked, E2. apply sesof_Some. exists G. split; [done|].
      cbn in Eid. symmetry. apply (Ho h); congruence.
    + destruct (lo_own _ w Hlead q Q h K0 EQ EK0) as (k&?&?); [congruence..|]. exists k. by rewrite sesof_linked, E2.
  - destruct (lo_init _ w Hlead) as (I&k&s&S&EI&?&?&?&?&?&Hne). exists I, k, s, S. rewrite Hq, sesof_linked.
    change (initproc (linked p g P G w)) with (initproc w). rewrite decide_False by congruence. done.
Qed.

Lemma tty_ok_linked : tty_ok (linked p g P G w).
Proof.
  constructor; [|apply Htty..]. intros t T h ET Eh. destruct (tt_pgrp w Htty t T h ET Eh) as (s&?&?).
  exists s. by rewrite sesof_linked.
Qed.
End Linked.

(** ** Regrouping *)

Lemma procs_ok_same w w' : procs_ok w -> procs w' = procs w -> allproc w' = allproc w -> zombproc w' = zombproc w ->
  nprocs w' = nprocs w -> proc0 w' = proc0 w -> pidhash w' = pidhash w -> procs_ok w'.
Proof.
  intros H E1 E2 E3 E4 E5 E6. destruct w, w'; cbn in *; subst. destruct H. by constructor.
Qed.

Lemma tree_ok_same w w' : tree_ok w -> procs w' = procs w -> proc0 w' = proc0 w -> initproc w' = initproc w -> tree_ok w'.
Proof. intros H E1 E2 E3. destruct w, w'; cbn in *; subst. destruct H. by constructor. Qed.

Lemma qual_false w x q : pgof w q <> Some x -> qual w x q = false.
Proof. intros Hq. unfold qual. by rewrite bool_decide_false by done. Qed.

(** The change of the counts when [p] goes from [old] to [g]. *)
Lemma jobs_moved w w' p P P' old g : procs_ok w -> tree_ok w -> tree_ok w' -> moved w w' p ->
  procs w !! p = Some P -> procs w' !! p = Some P' -> p_stat P <> SZOMB -> p_stat P' <> SZOMB -> p_cptr P' = p_cptr P ->
  pgof w p = Some old -> pgof w' p = Some g -> sesof w' g = sesof w g ->
  (forall h, is_Some (sesof w' h) -> sesof w' h = sesof w h) ->
  (forall q h, q <> p -> pgof w q = Some h -> is_Some (sesof w' h)) ->
  targets w' p g = targets w p g /\ forall x, jobs w' x = jobs w x + occZ x (targets w p g) - occZ x (targets w p old).
Proof.
  intros HP T T' M EP EP' Hz Hz' Ec Hold Hg Hsg Hs Hl.
  assert (forall h q, q <> p -> pgof w q = Some h -> counted w' g h = counted w g h) as Hcnt.
  { intros h q Hq Eh. unfold counted. by rewrite Hsg, (Hs h) by eauto. }
  assert (forall q, ppof w q = Some p -> q <> p) as Hne by (intros q Hq ->; by apply (not_own_parent w p T)).
  assert (forall q, ppof w p = Some q -> q <> p) as Hne' by (intros q Hq ->; by apply (not_own_parent w p T)).
  assert (targets w' p g = targets w p g) as Ht.
  { unfold targets. rewrite (mv_tree _ _ _ M), EP, EP'. cbn [fmap option_fmap option_map default]. unfold id. rewrite Ec. f_equal.
    - destruct (ppof w p) as [q|] eqn:Eq; cbn [mbind option_bind]; [|done]. rewrite (mv_groups _ _ _ M) by by apply Hne'.
      destruct (pgof w q) as [h|] eqn:Eh; [|done]. by rewrite (Hcnt h q) by (try apply Hne'; done).
    - destruct (to_child w T p P EP) as (_&Hc). revert Hc. generalize (p_cptr P). intros l Hc.
      induction l as [|c l IH]; [done|].
      assert (child_target w' g c = child_target w g c) as Ect.
      { assert (c <> p) as Hcp by (apply Hne, Hc; by left).
        unfold child_target. rewrite (mv_groups _ _ _ M), (mv_alive _ _ _ M) by done.
        destruct (pgof w c) as [h|] eqn:Eh; cbn [mbind option_bind]; [|done]. by rewrite (Hcnt h c). }
      cbn [omap list_omap]. rewrite Ect, IH; [done|]. intros y Hy. apply Hc. by right. }
  split; [done|]. intros x.
  destruct (to_child w T p P EP) as (_&Hc).
  rewrite (jobs_split w p P x HP T EP).
  rewrite (occ_targets w p P old x) by done.
  rewrite <- Ht, (occ_targets w' p P' g x); [|done..|intros c Hin; rewrite (mv_tree _ _ _ M); apply Hc; by rewrite <- Ec].
  assert (jobs w' x = Z.b2z (qual w' x p) + sumZ (fun c => Z.b2z (qual w' x c)) (p_cptr P')
    + sumZ (fun q => Z.b2z (qual w' x q)) (rest w p)) as ->.
  { unfold jobs. rewrite (mv_known _ _ _ M), (sumZ_perm _ _ _ (known_split w p P HP T EP)), sumZ_cons, sumZ_app, Ec. lia. }
  destruct (sesof w' x) as [s|] eqn:Ex.
  - rewrite (jobs_rest w w' p x M); [lia|]. intros r h Hr Eh. right.
    assert (sesof w' h = sesof w h) as -> by eauto. assert (sesof w' x = sesof w x) as -> by eauto. done.
  - rewrite !(sumZ_0 _ (rest w p)); [lia| |]; intros q Hq; unfold rest in Hq; apply list_elem_of_filter in Hq as ((Hqp&_)&_).
    + rewrite qual_false; [done|]. intros Eq. destruct (Hl q x Hqp Eq). congruence.
    + rewrite qual_false; [done|]. rewrite (mv_groups _ _ _ M) by done. intros Eq. destruct (Hl q x Hqp Eq). congruence.
Qed.

(** What regrouping does: the process is in the group [g], every other process
    in the same group as before, and the groups orphaned are told. *)
Record regrouped (p old g : loc) (w w' : pworld) : Prop := {
  rg_procs : exists P, procs w !! p = Some P /\ procs w' = <[p := set_p_pgrp (Some g) P]> (procs w);
  rg_pgof : forall q, pgof w' q = if decide (q = p) then Some g else pgof w q;
  rg_id : forall h G, pgrps w' !! h = Some G -> exists G0, pgrps w !! h = Some G0 /\ pg_id G = pg_id G0 /\ pg_session G = pg_session G0;
  rg_live : forall q h, pgof w' q = Some h -> is_Some (pgrps w' !! h);
  rg_sessions : forall s S, sessions w' !! s = Some S ->
    exists S0, sessions w !! s = Some S0 /\ s_leader S0 = s_leader S /\ s_login S0 = s_login S
      /\ s_ttyvp S0 = s_ttyvp S /\ s_ttyp S0 = s_ttyp S;
  rg_tables : pidhash w' = pidhash w /\ allproc w' = allproc w /\ zombproc w' = zombproc w /\ nprocs w' = nprocs w
    /\ proc0 w' = proc0 w /\ initproc w' = initproc w;
  rg_orphans : exists os, plog w' = plog w ++ (os ≫= hup w) /\
    (sesof w old <> init_session w -> NoDup os /\ forall x, x ∈ os <-> 0 < jobs w x /\ jobs w' x = 0);
}.

Section Regroup.
Context (w : pworld) (p : loc) (P : proc) (old g : loc) (O G : pgrp).
Hypothesis HP : procs_ok w.
Hypothesis HT : tree_ok w.
Hypothesis HG : groups_ok None [g] w.
Hypothesis HL : lead_ok (Some p) w.
Hypothesis Htty : tty_ok w.
Hypothesis HJ : jobs_ok w.
Hypothesis HR : ru_ok w.
Hypothesis EP : procs w !! p = Some P.
Hypothesis Hstat : p_stat P <> SZOMB.
Hypothesis Hp0 : p <> proc0 w.
Hypothesis Eold : p_pgrp P = Some old.
Hypothesis EO : pgrps w !! old = Some O.
Hypothesis EG : pgrps w !! g = Some G.
Hypothesis Hne : g <> old.
Hypothesis Hnolead : forall S, sessions w !! pg_session O = Some S -> s_leader S <> Some p.
Hypothesis Hlead : forall s S, sessions w !! s = Some S -> s_leader S = Some p ->
     pg_session G = s /\ pg_id G = p_pid P /\ p_stat P <> SZOMB.
Hypothesis Hown : forall h K, pgrps w !! h = Some K -> pg_id K = p_pid P -> pg_session K = pg_session G.

Let T1 := targets w p g.
Let T2 := targets w p old.
Let d1 := (adjusts w true T1 (fun _ => 0)).1.
Let w2 := mk w (adjusts w false T2 d1).1 (orphans w T2 d1 ≫= hup w).

Lemma group_live q h : pgof w q = Some h -> is_Some (sesof w h).
Proof.
  intros (Q&EQ&Eh)%pgof_Some. destruct (go_group _ _ w HG q Q EQ ltac:(done)) as (h'&H&Eh'&EH&_). simplify_eq.
  unfold sesof. rewrite EH. by eexists.
Qed.

Lemma parent_group : exists q h, ppof w p = Some q /\ pgof w q = Some h /\ is_Some (sesof w h).
Proof.
  destruct (to_parent w HT p P EP Hp0) as (q&Q&Epp&EQ&_).
  destruct (go_group _ _ w HG q Q EQ ltac:(done)) as (h&H&Eh&EH&_).
  assert (pgof w q = Some h) as Hq by (apply pgof_Some; eauto).
  exists q, h. split_and!; [apply ppof_Some; eauto|done|by eapply group_live].
Qed.

Lemma children_groups Q c : procs w !! p = Some Q -> c ∈ p_cptr Q -> exists h, pgof w c = Some h /\ is_Some (sesof w h).
Proof.
  intros EQ Hc. destruct (to_child w HT p Q EQ) as (_&Hch). apply Hch, ppof_Some in Hc as (C&EC&_).
  destruct (go_group _ _ w HG c C EC ltac:(done)) as (h&H&Eh&EH&_).
  assert (pgof w c = Some h) as Hcg by (apply pgof_Some; eauto). exists h. split; [done|by eapply group_live].
Qed.

Lemma regroup_counts : (w1 ← fixjobc p g true w; fixjobc p old false w1) = Ok w2.
Proof.
  rewrite <- (mk_0 w) at 1.
  rewrite fixjobc_mk; [|by eapply groups_live|by apply (sesof_live w g G)|exact parent_group|exact children_groups].
  unfold w2, d1. fold T1. pose proof (adjusts_log_enter w T1 (fun _ => 0)) as Hlog.
  destruct (adjusts w true T1 (fun _ => 0)) as [d es] eqn:E1. cbn [fst snd] in *. subst es.
  cbn [mbind outcome_bind app].
  rewrite fixjobc_mk; [|by eapply groups_live|by apply (sesof_live w old O)|exact parent_group|exact children_groups].
  fold T2. rewrite <- adjusts_log_leave. by destruct (adjusts w false T2 d).
Qed.

Lemma d2_eq x : (adjusts w false T2 d1).1 x = occZ x T1 - occZ x T2.
Proof. unfold d1. rewrite !adjusts_delta. cbn [sg]. lia. Qed.
Section Final.
Context (w3 : pworld) (G3 : pgrp).
Hypothesis Hul : unlinked p old w2 w3.
Hypothesis Hg3 : groups_ok (Some p) [g] w3.
Hypothesis EG3 : pgrps w3 !! g = Some G3.
Hypothesis HGs : pg_id G3 = pg_id G /\ pg_session G3 = pg_session G.

Let w' := linked p g P G3 w3.

Lemma final_back h K : pgrps w' !! h = Some K ->
  exists K0, pgrps w !! h = Some K0 /\ pg_id K = pg_id K0 /\ pg_session K = pg_session K0
    /\ pg_jobc K = pg_jobc K0 + (occZ h T1 - occZ h T2).
Proof.
  assert (forall h K, pgrps w2 !! h = Some K -> exists K0, pgrps w !! h = Some K0 /\ pg_id K = pg_id K0
      /\ pg_session K = pg_session K0 /\ pg_jobc K = pg_jobc K0 + (occZ h T1 - occZ h T2)) as H2.
  { intros k K'. unfold w2. cbn. rewrite lookup_bump. intros (K0&EK0&->)%fmap_Some. exists K0. cbn. by rewrite d2_eq. }
  assert (forall h K, pgrps w3 !! h = Some K -> exists K0, pgrps w !! h = Some K0 /\ pg_id K = pg_id K0
      /\ pg_session K = pg_session K0 /\ pg_jobc K = pg_jobc K0 + (occZ h T1 - occZ h T2)) as H3.
  { intros k K' EK. destruct (decide (k = old)) as [->|Hk]; [|rewrite (ul_others _ _ _ _ Hul) in EK by done; by apply H2].
    destruct (ul_group _ _ _ _ Hul) as [(_&?)|(K1&l&EK1&EK2&_)]; [congruence|]. simplify_eq. exact (H2 old K1 EK1). }
  unfold w'. cbn. rewrite lookup_insert_Some. intros [(<-&<-)|(?&EK)]; [|by apply H3]. exact (H3 g G3 EG3).
Qed.

Lemma final_pgof q : pgof w' q = if decide (q = p) then Some g else pgof w q.
Proof.
  unfold w'. rewrite pgof_linked. case_decide; [done|]. unfold pgof. by rewrite (ul_procs _ _ _ _ Hul).
Qed.

Lemma final_sesof h : is_Some (sesof w' h) -> sesof w' h = sesof w h.
Proof.
  intros (s&(K&EK&<-)%sesof_Some). destruct (final_back h K EK) as (K0&EK0&_&Es&_).
  rewrite (proj2 (sesof_Some w h (pg_session K))) by eauto. apply sesof_Some. eauto.
Qed.

Lemma final_live q h : pgof w' q = Some h -> is_Some (pgrps w' !! h).
Proof.
  intros (Q&EQ&Eh)%pgof_Some. destruct (go_group _ _ w' (groups_ok_linked [] w3 p P g G3 Hg3 EG3) q Q EQ ltac:(done)) as (k&K&Ek&EK&_).
  simplify_eq. by eexists.
Qed.

Lemma final_procs : procs w' = <[p := set_p_pgrp (Some g) P]> (procs w).
Proof. unfold w', linked, upd. cbn. by rewrite (ul_procs _ _ _ _ Hul). Qed.

Lemma final_ids : procs_ok w' /\ tree_ok w'.
Proof.
  assert (same_id (set_p_pgrp (Some g) P) P) as Hs by done.
  destruct (ul_tables _ _ _ _ Hul) as (E1&E2&E3&E4&E5&E6&_). split.
  - apply (procs_ok_same (upd p (set_p_pgrp (Some g) P) w)); [by apply (procs_ok_upd p _ P)|exact final_procs|done..].
  - apply (tree_ok_same (upd p (set_p_pgrp (Some g) P) w)); [by apply (tree_ok_upd p _ P)|exact final_procs|done..].
Qed.

Lemma final_moved : moved w w' p.
Proof.
  destruct (ul_tables _ _ _ _ Hul) as (E1&E2&E3&E4&E5&E6&_).
  constructor.
  - unfold known, w'. cbn. by rewrite E2, E3.
  - intros q. unfold ppof. rewrite final_procs. exact (ppof_upd p (set_p_pgrp (Some g) P) P w q EP eq_refl).
  - intros q. unfold alive. rewrite final_procs. exact (alive_upd p (set_p_pgrp (Some g) P) P w q EP eq_refl).
  - intros q Hq. rewrite final_pgof. by rewrite decide_False.
Qed.

Lemma final_jobs x : jobs w' x = jobs w x + occZ x T1 - occZ x T2.
Proof.
  assert (is_Some (sesof w' g)) as Hgl.
  { destruct (final_live p g) as (K&EK); [rewrite final_pgof; by rewrite decide_True|by eapply sesof_live]. }
  refine (proj2 (jobs_moved w w' p P (set_p_pgrp (Some g) P) old g HP HT (proj2 final_ids) final_moved EP _ Hstat Hstat eq_refl _ _ _ final_sesof _) x).
  - rewrite final_procs. by rewrite lookup_insert_eq.
  - apply pgof_Some. eauto.
  - rewrite final_pgof. by rewrite decide_True.
  - by apply final_sesof.
  - intros q h Hq Eh. destruct (final_live q h) as (K&EK); [rewrite final_pgof; by rewrite decide_False|by eapply sesof_live].
Qed.

Lemma final_init : p <> initproc w -> init_session w' = init_session w.
Proof.
  intros Hi. destruct (ul_tables _ _ _ _ Hul) as (_&_&_&_&_&E6&_). unfold init_session.
  assert (initproc w' = initproc w) as -> by done. rewrite final_pgof, decide_False by done.
  destruct (pgof w (initproc w)) as [h|] eqn:Eh; cbn [mbind option_bind]; [|done].
  apply final_sesof. destruct (final_live (initproc w) h) as (K&EK); [rewrite final_pgof; by rewrite decide_False|by eapply sesof_live].
Qed.

Lemma final_jobs_ok : p <> initproc w -> jobs_ok w'.
Proof.
  intros Hi x X EX Hses. rewrite final_init in Hses by done. rewrite final_sesof in Hses by by eapply sesof_live.
  destruct (final_back x X EX) as (X0&EX0&_&_&->). rewrite final_jobs, (HJ x X0 EX0 Hses). lia.
Qed.

Lemma final_orphans : sesof w old <> init_session w ->
  NoDup (orphans w T2 d1) /\ forall x, x ∈ orphans w T2 d1 <-> 0 < jobs w x /\ jobs w' x = 0.
Proof.
  intros Hses.
  assert (forall x, occZ x T2 <= jobs w x) as Hle.
  { intros x. apply (occ_le_jobs w p P old x HP HT EP Hstat). apply pgof_Some. eauto. }
  assert (forall x, x ∈ T2 -> jobc w x = jobs w x) as Hex by (intros x; by apply (jobc_targets w p old O)).
  assert (forall x, d1 x = occZ x T1) as Hd1 by (intros x; unfold d1; rewrite adjusts_delta; cbn [sg]; lia).
  destruct (orphans_spec w T2 d1) as (Hnd&Hm).
  { intros x Hx. rewrite Hd1, Hex by done. pose proof (Hle x). pose proof (occZ_nonneg x T1). lia. }
  split; [done|]. intros x. rewrite Hm, final_jobs, Hd1. pose proof (Hle x). pose proof (occZ_nonneg x T1).
  split.
  - intros (Hx&E). rewrite Hex in E by done. pose proof (occZ_pos x T2 Hx). lia.
  - intros (H1&H2). assert (x ∈ T2) as Hx.
    { destruct (decide (x ∈ T2)) as [|Hn]; [done|]. rewrite (occZ_zero x T2 Hn) in H2. lia. }
    split; [done|]. rewrite Hex by done. lia.
Qed.
End Final.

Lemma regroup_ok : p <> initproc w -> exists w', regroup p old g w = Ok w' /\ Inv w' /\ regrouped p old g w w'.
Proof.
  intros Hi. pose proof regroup_counts as Hc. unfold regroup.
  destruct (fixjobc p g true w) as [w1| |]; cbn [mbind outcome_bind] in *; [|done..]. rewrite Hc. cbn [mbind outcome_bind].
  destruct (pg_unlink_ok "enterpgrp: can't find p on old pgrp" [g] w2 p P old (set_jobc (pg_jobc O + (adjusts w false T2 d1).1 old) O))
    as (w3&->&Hul&Hg3&Hl3&Ht3).
  { by apply groups_ok_mk. } { apply lead_ok_mk; [exact (go_ses _ _ w HG)|done]. } { by apply tty_ok_mk. }
  { done. } { done. } { unfold w2. cbn. by rewrite lookup_bump, EO. } { exact Hnolead. }
  cbn [mbind outcome_bind]. rewrite (ul_procs _ _ _ _ Hul). change (procs w2) with (procs w). rewrite EP. cbn [deref mbind outcome_bind].
  rewrite (ul_others _ _ _ _ Hul) by done. unfold w2 at 1. cbn [pgrps mk add_plog set_pgrps]. rewrite lookup_bump, EG.
  cbn [fmap option_fmap option_map deref mbind outcome_bind].
  set (G3 := set_jobc (pg_jobc G + (adjusts w false T2 d1).1 g) G).
  assert (pgrps w3 !! g = Some G3) as EG3.
  { rewrite (ul_others _ _ _ _ Hul) by done. unfold w2. cbn. by rewrite lookup_bump, EG. }
  assert (set_procs (<[p:=set_p_pgrp (Some g) P]> (procs w)) w3 = upd p (set_p_pgrp (Some g) P) w3) as Eu.
  { unfold upd. by rewrite (ul_procs _ _ _ _ Hul). }
  exists (linked p g P G3 w3). split; [by rewrite Eu|].
  assert (pg_id G3 = pg_id G /\ pg_session G3 = pg_session G) as HGs by done.
  assert (procs w3 !! p = Some P) as EP3 by (by rewrite (ul_procs _ _ _ _ Hul)).
  destruct (final_ids w3 G3 Hul) as (Hpo&Hto). split; [constructor|constructor].
  - done.
  - done.
  - by apply groups_ok_linked.
  - apply lead_ok_linked; [done..| |].
    + intros s S ES El. destruct (ul_sessions _ _ _ _ Hul s S ES) as (S0&ES0&E0&_). rewrite <- E0 in El. exact (Hlead s S0 ES0 El).
    + intros h K EK Eid. destruct (decide (h = g)) as [->|Hh]; [by simplify_eq|].
      destruct (final_back w3 G3 Hul EG3 h K) as (K0&EK0&E1&E2&_); [cbn; by rewrite lookup_insert_ne|].
      rewrite E2. apply (Hown h K0 EK0). congruence.
  - by apply tty_ok_linked.
  - by apply final_jobs_ok.
  - intros q Q. rewrite (final_procs w3 G3 Hul). exact (ru_ok_upd p (set_p_pgrp (Some g) P) P w HR EP (same_id_refl P) q Q).
  - exists P. split; [done|]. by apply final_procs.
  - by apply final_pgof.
  - intros h K EK. destruct (final_back w3 G3 Hul EG3 h K EK) as (K0&?&?&?&_). by exists K0.
  - exact (final_live w3 G3 Hg3 EG3).
  - intros s S ES. exact (ul_sessions _ _ _ _ Hul s S ES).
  - destruct (ul_tables _ _ _ _ Hul) as (?&?&?&?&?&?&_). done.
  - exists (orphans w T2 d1). split; [|by apply final_orphans].
    destruct (ul_tables _ _ _ _ Hul) as (_&_&_&_&_&_&E). exact E.
Qed.
End Regroup.

(** ** A process enters a group *)

Lemma groups_ok_weaken L E E' w : groups_ok L E w -> E ⊆ E' -> groups_ok L E' w.
Proof.
  intros H Hs. constructor; [apply H| |apply H..]. intros g G EG.
  destruct (go_mem _ _ w H g G EG) as (Hm&?&?). split_and!; [|done..].
  destruct Hm as [?|?]; [by left|right; by apply Hs].
Qed.

Lemma lead_ok_weaken w p : lead_ok None w -> p <> initproc w -> lead_ok (Some p) w.
Proof.
  intros H Hp. constructor.
  - intros s S q ES El _. by apply (lo_leader _ w H s S q).
  - intros q Q g G EQ EG Eid _. by apply (lo_own _ w H q Q g G).
  - destruct (lo_init _ w H) as (I&g&s&S&?&?&?&?&?&?&_). exists I, g, s, S. split_and!; [done..|congruence].
Qed.

Lemma lead_ok_upd L p P P0 w : lead_ok L w -> procs w !! p = Some P0 -> p_pid P = p_pid P0 -> p_stat P = p_stat P0 ->
  p_pgrp P = p_pgrp P0 -> lead_ok L (upd p P w).
Proof.
  intros H E0 E1 E2 E3.
  assert (forall q Q, procs (upd p P w) !! q = Some Q -> exists Q0, procs w !! q = Some Q0 /\ p_pid Q = p_pid Q0
    /\ p_stat Q = p_stat Q0 /\ p_pgrp Q = p_pgrp Q0) as Hb.
  { intros q Q. rewrite procs_upd_lookup. case_decide; subst; [intros [= <-]|]; eauto. }
  assert (forall q Q0, procs w !! q = Some Q0 -> exists Q, procs (upd p P w) !! q = Some Q /\ p_pid Q = p_pid Q0
    /\ p_stat Q = p_stat Q0 /\ p_pgrp Q = p_pgrp Q0) as Hf.
  { intros q Q0 EQ. rewrite procs_upd_lookup. case_decide; subst; simplify_eq; eauto. }
  constructor.
  - intros s S q ES El HL. destruct (lo_leader _ w H s S q ES El HL) as (Q&g&G&EQ&?&?&?&?&?).
    destruct (Hf q Q EQ) as (Q'&?&?&?&?). exists Q', g, G. split_and!; congruence || done.
  - intros q Q g G EQ EG Eid HL. destruct (Hb q Q EQ) as (Q0&EQ0&?&?&?).
    destruct (lo_own _ w H q Q0 g G EQ0 EG) as (h&?&?); [congruence|done|]. exists h. split; [congruence|done].
  - destruct (lo_init _ w H) as (I&g&s&S&EI&?&?&?&?&?&?). destruct (Hf _ I EI) as (I'&?&?&?&?).
    exists I', g, s, S. split_and!; congruence || done.
Qed.

(** Two worlds with the same processes in the same groups have the same counts. *)
Record same_members (w w' : pworld) : Prop := {
  sm_known : known w' = known w;
  sm_tree : forall q, ppof w' q = ppof w q;
  sm_alive : forall q, alive w' q = alive w q;
  sm_groups : forall q, pgof w' q = pgof w q;
  sm_sessions : forall q h, pgof w q = Some h -> sesof w' h = sesof w h;
  sm_init : initproc w' = initproc w;
}.

Lemma jobs_same w w' x : same_members w w' -> jobs w' x = jobs w x.
Proof.
  intros M. unfold jobs. rewrite (sm_known _ _ M). apply sumZ_ext. intros q _. f_equal. unfold qual.
  rewrite (sm_tree _ _ M), (sm_alive _ _ M), (sm_groups _ _ M).
  destruct (decide (pgof w q = Some x)) as [Ex|Ex]; [|by rewrite bool_decide_false by done].
  destruct (ppof w q) as [r|]; cbn [mbind option_bind]; [|done]. rewrite (sm_groups _ _ M).
  destruct (pgof w r) as [h|] eqn:Eh; [|done].
  by rewrite (sm_sessions _ _ M r h Eh), (sm_sessions _ _ M q x Ex).
Qed.

Lemma init_session_same w w' : same_members w w' -> init_session w' = init_session w.
Proof.
  intros M. unfold init_session. rewrite (sm_init _ _ M), (sm_groups _ _ M).
  destruct (pgof w (initproc w)) as [h|] eqn:Eh; cbn [mbind option_bind]; [|done]. exact (sm_sessions _ _ M _ _ Eh).
Qed.

(** No process qualifies a group it is not in. *)
Lemma jobs_0 w x : (forall q, pgof w q <> Some x) -> jobs w x = 0.
Proof. intros Hq. apply sumZ_0. intros q _. by rewrite qual_false. Qed.

Section NewGroup.
Context (w : pworld) (p : loc) (P : proc) (old : loc) (O : pgrp) (S : session) (pgid : Z) (mksess : bool).
Hypothesis HI : Inv w.
Hypothesis EP : procs w !! p = Some P.
Hypothesis Hstat : p_stat P <> SZOMB.
Hypothesis Hinit : p <> initproc w.
Hypothesis Eold : p_pgrp P = Some old.
Hypothesis EO : pgrps w !! old = Some O.
Hypothesis ES : sessions w !! pg_session O = Some S.
Hypothesis Hnolead : s_leader S <> Some p.
Hypothesis Hid : pgid = p_pid P.
Hypothesis Hnew : forall g G, pgrps w !! g = Some G -> pg_id G <> pgid.

Definition ng_s : loc := if mksess then new_loc (sessions w) else pg_session O.
Definition ng_ss : gmap loc session :=
  if mksess then <[new_loc (sessions w) := mkSession 1 (Some p) None None (s_login S)]> (sessions w)
  else <[pg_session O := set_count (s_count S + 1) S]> (sessions w).
Definition ng_P : proc := if mksess then set_p_flag (Z.land (p_flag P) (Z.lnot SCTTY)) P else P.
Definition ng_g : loc := new_loc (pgrps w).
Definition ng_w : pworld := newgrp ng_g pgid ng_s ng_ss (upd p ng_P w).

Lemma newpgrp_eq : newpgrp p old pgid mksess w = Ok (ng_g, ng_w).
Proof.
  unfold newpgrp. rewrite EO. cbn [deref mbind outcome_bind]. rewrite ES. cbn [deref mbind outcome_bind]. rewrite EP.
  unfold ng_w, ng_s, ng_ss, ng_P. destruct mksess; [done|]. cbn [mret outcome_ret mbind outcome_bind].
  do 2 f_equal. unfold upd. rewrite (insert_id (procs w) p P EP). done.
Qed.

Lemma ng_g_fresh : pgrps w !! ng_g = None.
Proof. apply new_loc_fresh. Qed.

Lemma ng_same : same_id ng_P P /\ p_pgrp ng_P = p_pgrp P.
Proof. unfold ng_P. by destruct mksess. Qed.

Lemma ng_sesof h : h <> ng_g -> sesof ng_w h = sesof w h.
Proof. intros Hh. unfold sesof, ng_w. cbn. by rewrite lookup_insert_ne. Qed.

Lemma ng_pgof q : pgof ng_w q = pgof w q.
Proof.
  change (pgof (upd p ng_P w) q = pgof w q). rewrite pgof_upd. case_decide; [|done]. subst.
  rewrite (proj2 ng_same), Eold. symmetry. apply pgof_Some. eauto.
Qed.

Lemma ng_pgof_live q h : pgof w q = Some h -> h <> ng_g.
Proof.
  intros (Q&EQ&Eh)%pgof_Some ->. destruct (go_group _ _ w (inv_groups w HI) q Q EQ ltac:(done)) as (k&K&Ek&EK&_).
  pose proof ng_g_fresh. congruence.
Qed.

Lemma ng_members : same_members w ng_w.
Proof.
  destruct ng_same as ((_&?&?&_)&_). constructor; [done|intros q..|done].
  - by apply (ppof_upd p ng_P P). - by apply (alive_upd p ng_P P). - apply ng_pgof.
  - intros h Eh. by apply ng_sesof, (ng_pgof_live q).
Qed.

Lemma ng_sessions x X : ng_ss !! x = Some X ->
  (mksess = true /\ x = ng_s /\ X = mkSession 1 (Some p) None None (s_login S) /\ sessions w !! x = None) \/
  exists X0, sessions w !! x = Some X0 /\ s_leader X = s_leader X0 /\ s_login X = s_login X0 /\ s_ttyvp X = s_ttyvp X0
    /\ s_ttyp X = s_ttyp X0 /\ s_count X = s_count X0 + (if decide (ng_s = x) then 1 else 0).
Proof.
  unfold ng_ss, ng_s. pose proof (new_loc_fresh (sessions w)) as Hf. destruct mksess; rewrite lookup_insert_Some; intros [(<-&<-)|(Hne&EX)].
  - by left.
  - right. exists X. rewrite decide_False by done. split_and!; done || lia.
  - right. exists S. by rewrite decide_True by done.
  - right. exists X. rewrite decide_False by done. split_and!; done || lia.
Qed.

Lemma ng_sessions_fwd x X : sessions w !! x = Some X ->
  exists X', ng_ss !! x = Some X' /\ s_leader X' = s_leader X /\ s_ttyvp X' = s_ttyvp X /\ s_ttyp X' = s_ttyp X.
Proof.
  intros EX. unfold ng_ss. pose proof (new_loc_fresh (sessions w)) as Hf.
  destruct mksess; [exists X; rewrite lookup_insert_ne; [done|congruence]|].
  destruct (decide (x = pg_session O)); subst; [rewrite lookup_insert_eq; simplify_eq; by eexists|exists X; by rewrite lookup_insert_ne].
Qed.

Lemma ng_groups : groups_ok None [ng_g] ng_w.
Proof.
  destruct ng_same as (_&?).
  apply (groups_ok_newgrp None [] (upd p ng_P w)).
  - apply (groups_ok_upd None [] p ng_P P); [apply HI|done..].
  - exact ng_g_fresh.
  - exact Hnew.
  - unfold ng_s, ng_ss. destruct mksess; rewrite lookup_insert_eq; by eexists.
  - intros x (X&EX). destruct (ng_sessions_fwd x X EX) as (X'&?&_). by eexists.
  - intros x X EX. destruct (ng_sessions x X EX) as [(Em&->&->&Hn)|(X0&EX0&_&_&_&_&->)].
    + rewrite decide_True by done. cbn. split; [|lia]. rewrite count_map_zero; [lia|].
      intros g G EG Es. destruct (go_ses _ _ w (inv_groups w HI) g G EG). congruence.
    + destruct (go_count _ _ w (inv_groups w HI) x X0 EX0) as (->&?). cbn. case_decide; split; lia.
Qed.

Lemma ng_lead : lead_ok (Some p) ng_w.
Proof.
  destruct ng_same as ((E1&E2&_)&E3).
  pose proof (lead_ok_upd (Some p) p ng_P P w (lead_ok_weaken w p (inv_lead w HI) Hinit) EP E1 E2 E3) as H.
  constructor.
  - intros s X q EX El HL. destruct (ng_sessions s X EX) as [(_&_&->&_)|(X0&EX0&E&_)]; [by injection El as <-|].
    destruct (lo_leader _ _ H s X0 q EX0) as (Q&g&G&?&?&?&EG&?&?); [congruence|done|].
    exists Q, g, G. split_and!; [done..| |done|done]. cbn. rewrite lookup_insert_ne; [done|]. intros <-. pose proof ng_g_fresh. cbn in EG. congruence.
  - intros q Q g G EQ EG Eid HL. cbn in EG. apply lookup_insert_Some in EG as [(<-&<-)|(Hg&EG)].
    + cbn in Eid. exfalso. apply HL. f_equal. change (procs (upd p ng_P w) !! q = Some Q) in EQ. rewrite procs_upd_lookup in EQ.
      case_decide; [done|]. apply (po_pid w (inv_procs w HI) q p Q P); congruence.
    + destruct (lo_own _ _ H q Q g G EQ EG Eid HL) as (h&Eh&Es). exists h. split; [done|].
      rewrite <- Es. pose proof Es as (K&EK&_)%sesof_Some. change (sesof (upd p ng_P w) h) with (sesof w h). apply ng_sesof. intros ->. pose proof ng_g_fresh. cbn in EK. congruence.
  - destruct (lo_init _ _ H) as (I&g&s&X&EI&?&Eg&Es&EX&?&?). destruct (ng_sessions_fwd s X EX) as (X'&?&El&_).
    exists I, g, s, X'. split_and!; [done..| |done|by rewrite El|done].
    rewrite <- Es. change (sesof (upd p ng_P w) g) with (sesof w g). apply ng_sesof.
    intros ->. pose proof Es as (K&EK&_)%sesof_Some. pose proof ng_g_fresh. cbn in EK. congruence.
Qed.

Lemma ng_tty : tty_ok ng_w.
Proof.
  pose proof (inv_tty w HI) as H. constructor.
  - intros t T g ET Eg. destruct (tt_pgrp w H t T g ET Eg) as (s&?&Es). exists s. split; [done|].
    rewrite <- Es. apply ng_sesof. intros ->. pose proof Es as (K&EK&_)%sesof_Some. pose proof ng_g_fresh. congruence.
  - intros t T s ET Et. destruct (tt_ses w H t T s ET Et) as (X&EX&?&?&?).
    destruct (ng_sessions_fwd s X EX) as (X'&?&E1&E2&E3). exists X'. by rewrite E1, E2, E3.
  - intros s X EX. destruct (ng_sessions s X EX) as [(_&_&->&_)|(X0&EX0&_&_&->&->&_)]; [by intros []|]. exact (tt_vp w H s X0 EX0).
  - intros s X t EX. destruct (ng_sessions s X EX) as [(_&_&->&_)|(X0&EX0&_&_&_&->&_)]; [done|]. exact (tt_live w H s X0 t EX0).
Qed.

Lemma ng_jobs : jobs_ok ng_w.
Proof.
  intros x X EX Hs. rewrite (jobs_same w _ x ng_members). cbn in EX. apply lookup_insert_Some in EX as [(<-&<-)|(Hx&EX)].
  - rewrite jobs_0; [done|]. intros q Hq. by apply ng_pgof_live in Hq.
  - apply (inv_jobs w HI); [done|]. rewrite ng_sesof, (init_session_same w ng_w ng_members) in Hs by done. done.
Qed.

Lemma ng_hup x : hup ng_w x = hup w x.
Proof.
  destruct ng_same as ((_&Es&_)&_).
  assert (forall q, stopped ng_w q = stopped w q) as Hst.
  { intros q. unfold stopped. change (procs ng_w) with (procs (upd p ng_P w)). rewrite procs_upd_lookup.
    case_decide; [|done]. subst. by rewrite EP, Es. }
  unfold hup, mem. change (pgrps ng_w) with (<[ng_g := mkPgrp pgid [] ng_s 0]> (pgrps w)).
  destruct (decide (x = ng_g)) as [E|E].
  - subst x. rewrite lookup_insert_eq, ng_g_fresh. done.
  - rewrite lookup_insert_ne by done. generalize (default [] (pg_mem <$> pgrps w !! x)). intros l.
    assert (existsb (stopped ng_w) l = existsb (stopped w) l) as ->; [|done].
    induction l as [|q l IH]; [done|]. cbn. by rewrite Hst, IH.
Qed.
End NewGroup.

(** What enterpgrp does: the process is in the group with the id, of a session of
    its own or of its session; every other process is where it was, and the
    groups that lose their last qualified member are told, each once. *)
Record entered (p : loc) (pgid : Z) (mksess : bool) (w w' : pworld) : Prop := {
  en_proc : exists P g, procs w !! p = Some P /\ procs w' = <[p := set_p_pgrp (Some g) (ng_P P mksess)]> (procs w);
  en_group : exists g G, pgof w' p = Some g /\ pgrps w' !! g = Some G /\ pg_id G = pgid /\
    if mksess then sessions w !! pg_session G = None
      /\ exists S, sessions w' !! pg_session G = Some S /\ s_leader S = Some p /\ s_ttyp S = None
    else pgof w p ≫= sesof w = Some (pg_session G);
  en_others : forall q, q <> p -> pgof w' q = pgof w q;
  en_sesof : forall h, is_Some (sesof w h) -> is_Some (sesof w' h) -> sesof w' h = sesof w h;
  en_tables : pidhash w' = pidhash w /\ allproc w' = allproc w /\ zombproc w' = zombproc w /\ nprocs w' = nprocs w
    /\ proc0 w' = proc0 w /\ initproc w' = initproc w;
  en_orphans : exists os, plog w' = plog w ++ (os ≫= hup w) /\
    (pgof w p ≫= sesof w <> init_session w -> NoDup os /\ forall x, x ∈ os <-> 0 < jobs w x /\ jobs w' x = 0);
}.

Section Enter.
Context (w : pworld) (p : loc) (P : proc) (old : loc) (O : pgrp) (S : session).
Hypothesis HI : Inv w.
Hypothesis EP : procs w !! p = Some P.
Hypothesis Hstat : p_stat P <> SZOMB.
Hypothesis Hp0 : p <> proc0 w.
Hypothesis Hinit : p <> initproc w.
Hypothesis Eold : p_pgrp P = Some old.
Hypothesis EO : pgrps w !! old = Some O.
Hypothesis ES : sessions w !! pg_session O = Some S.
Hypothesis Hnolead : s_leader S <> Some p.

Lemma not_leader s X : sessions w !! s = Some X -> s_leader X <> Some p.
Proof.
  intros EX El. destruct (lo_leader _ w (inv_lead w HI) s X p EX El ltac:(done)) as (P'&g&G&?&?&?&?&?&?). simplify_eq.
Qed.

Lemma own_session_of h K : pgrps w !! h = Some K -> pg_id K = p_pid P -> pg_session K = pg_session O.
Proof.
  intros EK Ei. destruct (lo_own _ w (inv_lead w HI) p P h K EP EK Ei ltac:(done)) as (k&Ek&(X&EX&Es)%sesof_Some). simplify_eq. congruence.
Qed.

Lemma orphans_hup (w0 w1 : pworld) os : (forall x, hup w0 x = hup w1 x) -> (os ≫= hup w0) = os ≫= hup w1.
Proof. intros H. induction os as [|x os IH]; [done|]. cbn. by rewrite H, IH. Qed.

(** Into a group of the session. *)
Lemma enter_old g G : pgrps w !! g = Some G -> g <> old -> pg_session G = pg_session O ->
  exists w', regroup p old g w = Ok w' /\ Inv w' /\ entered p (pg_id G) false w w'.
Proof.
  intros EG Hne Hs.
  destruct (regroup_ok w p P old g O G) as (w'&Er&HI'&Hr); [apply HI|apply HI| | | | |apply HI|done|done|done|done|done|done|done| | | |done|].
  { apply (groups_ok_weaken None []); [apply HI|set_solver]. } { by apply lead_ok_weaken; [apply HI|]. } { apply HI. } { apply HI. }
  { intros X EX. by eapply not_leader. } { intros s X EX El. by destruct (not_leader s X EX). }
  { intros h K EK Ei. rewrite Hs. by eapply own_session_of. }
  exists w'. split; [done|]. split; [done|].
  assert (pgof w p = Some old) as Hpg by (apply pgof_Some; eauto).
  assert (pgof w' p = Some g) as Hpg' by (by rewrite (rg_pgof _ _ _ _ _ Hr), decide_True).
  destruct (rg_live _ _ _ _ _ Hr p g Hpg') as (G'&EG'). destruct (rg_id _ _ _ _ _ Hr g G' EG') as (G0&?&Ei&Es). simplify_eq.
  constructor.
  - destruct (rg_procs _ _ _ _ _ Hr) as (P'&?&?). exists P', g. done.
  - exists g, G'. split_and!; [done..|]. rewrite Hpg. cbn. apply sesof_Some. exists O. split; congruence.
  - intros q Hq. by rewrite (rg_pgof _ _ _ _ _ Hr), decide_False.
  - intros h _ (s&Hh). pose proof Hh as (K&EK&Ek)%sesof_Some. destruct (rg_id _ _ _ _ _ Hr h K EK) as (K0&?&?&?).
    rewrite Hh. symmetry. apply sesof_Some. exists K0. split; congruence.
  - exact (rg_tables _ _ _ _ _ Hr).
  - destruct (rg_orphans _ _ _ _ _ Hr) as (os&El&Ho). exists os. split; [done|]. by rewrite Hpg.
Qed.

(** Into a new group. *)
Lemma enter_new mksess : (forall g G, pgrps w !! g = Some G -> pg_id G <> p_pid P) ->
  exists w', ('(g, w1) ← newpgrp p old (p_pid P) mksess w; regroup p old g w1) = Ok w' /\ Inv w'
    /\ entered p (p_pid P) mksess w w'.
Proof.
  intros Hnew. pose proof (ng_g_fresh w) as Hf.
  pose proof (ng_members w p P old O S (p_pid P) mksess HI EP Eold eq_refl Hnew) as Hm.
  rewrite (newpgrp_eq w p P old O S (p_pid P) mksess) by done. cbn [mbind outcome_bind].
  set (g := ng_g w) in *. set (w0 := ng_w w p P O S (p_pid P) mksess). fold w0 in Hm.
  pose proof (ng_same P mksess) as ((E1&E2&E3&E4&E5)&E6).
  assert (procs w0 = <[p := ng_P P mksess]> (procs w)) as Epr by done.
  assert (g <> old) as Hgo by (intros ->; congruence).
  destruct (regroup_ok w0 p (ng_P P mksess) old g O (mkPgrp (p_pid P) [] (ng_s w O mksess) 0)) as (w'&Er&HI'&Hr).
  { apply (procs_ok_same (upd p (ng_P P mksess) w)); [|done..]. by apply (procs_ok_upd p _ P); [apply HI|..]. }
  { apply (tree_ok_same (upd p (ng_P P mksess) w)); [|done..]. by apply (tree_ok_upd p _ P); [apply HI|..]. }
  { by apply (ng_groups w p P). } { by apply (ng_lead w p P). } { by apply (ng_tty w p P). } { by apply (ng_jobs w p P old). }
  { by apply (ru_ok_upd p _ P); [apply HI|..]. }
  { by rewrite Epr, lookup_insert_eq. } { by rewrite E2. } { done. } { by rewrite E6. }
  { cbn. by rewrite lookup_insert_ne. } { cbn. by rewrite lookup_insert_eq. } { done. }
  { intros X EX El. destruct (ng_sessions w p O S mksess Hinit ES _ X EX) as [(_&_&_&Hn)|(X0&EX0&El0&_)]; [congruence|].
    rewrite El0 in El. by destruct (not_leader _ X0 EX0). }
  { intros s X EX El. destruct (ng_sessions w p O S mksess Hinit ES s X EX) as [(_&->&_)|(X0&EX0&El0&_)]; [by rewrite E1, E2|].
    rewrite El0 in El. by destruct (not_leader _ X0 EX0). }
  { intros h K EK Ei. cbn in EK. apply lookup_insert_Some in EK as [(<-&<-)|(_&EK)]; [done|]. rewrite E1 in Ei. by destruct (Hnew h K). }
  { done. }
  exists w'. split; [done|]. split; [done|].
  assert (pgof w p = Some old) as Hpg by (apply pgof_Some; eauto).
  assert (pgof w' p = Some g) as Hpg' by (by rewrite (rg_pgof _ _ _ _ _ Hr), decide_True).
  destruct (rg_live _ _ _ _ _ Hr p g Hpg') as (G'&EG').
  destruct (rg_id _ _ _ _ _ Hr g G' EG') as (G0&EG0&Ei&Es). cbn in EG0. rewrite lookup_insert_eq in EG0. injection EG0 as <-. cbn in Ei, Es.
  constructor.
  - destruct (rg_procs _ _ _ _ _ Hr) as (P'&EP'&Epr'). rewrite Epr, lookup_insert_eq in EP'. injection EP' as <-.
    exists P, g. by rewrite Epr', Epr, insert_insert_eq.
  - exists g, G'. split_and!; [done..|]. rewrite Es. unfold ng_s. destruct mksess.
    + split; [apply new_loc_fresh|]. destruct (go_ses _ _ w' (inv_groups w' HI') g G' EG') as (X&EX). rewrite Es in EX.
      exists X. split; [done|]. destruct (rg_sessions _ _ _ _ _ Hr _ X EX) as (X0&EX0&<-&_&_&<-).
      cbn in EX0. rewrite lookup_insert_eq in EX0. by injection EX0 as <-.
    + rewrite Hpg. cbn. apply sesof_Some. eauto.
  - intros q Hq. rewrite (rg_pgof _ _ _ _ _ Hr), decide_False by done. exact (sm_groups _ _ Hm q).
  - intros h (s0&Hh0) (s&Hh). pose proof Hh as (K&EK&Ek)%sesof_Some. destruct (rg_id _ _ _ _ _ Hr h K EK) as (K0&EK0&?&?).
    cbn in EK0. apply lookup_insert_Some in EK0 as [(<-&_)|(?&EK0)]; [apply sesof_Some in Hh0 as (K1&EK1&_); change (pgrps w !! g = Some K1) in EK1; congruence|].
    rewrite Hh. symmetry. apply sesof_Some. exists K0. split; congruence.
  - exact (rg_tables _ _ _ _ _ Hr).
  - destruct (rg_orphans _ _ _ _ _ Hr) as (os&El&Ho). exists os. split.
    + rewrite El. f_equal. apply orphans_hup. intros x. by apply (ng_hup w p P O S).
    + rewrite Hpg. cbn [mbind option_bind]. intros Hs.
      destruct Ho as (Hnd&Ho); [rewrite (init_session_same w w0 Hm), (sm_sessions _ _ Hm p old Hpg); done|].
      split; [done|]. intros x. by rewrite Ho, (jobs_same w w0 x Hm).
Qed.
End Enter.
