(* ===== verification/PgrpCalls.v ===== *)
(** * The system calls on process groups and sessions

    setsid, setpgid and the terminal ioctls of [Pgrp] meet their specifications
    and keep the invariant of [PgrpInv]. *)

From S2P Require Import Prelude Cred Pgrp PgrpInv.

Lemma pid_s16 w p P : procs_ok w -> procs w !! p = Some P -> s16 (p_pid P) = p_pid P.
Proof. intros H EP. apply s16_id. destruct (po_range w H p P EP). lia. Qed.

Lemma pgid_find w pgid : Inv w -> exists r, pgfind pgid w = Ok r /\ pgfind (s16 pgid) w = Ok r /\
  match r with
  | Some g => exists G, pgrps w !! g = Some G /\ pg_id G = s16 pgid
  | None => forall g G, pgrps w !! g = Some G -> pg_id G <> s16 pgid
  end.
Proof.
  intros HI. destruct (pgfind_spec pgid w None [] (inv_groups w HI)) as (r&E&Hr). exists r.
  split_and!; [done| |done]. unfold pgfind in *. by rewrite s16_idem.
Qed.

(** The group and the session of a process. *)
Lemma proc_groups w p P : Inv w -> procs w !! p = Some P -> exists g G S, p_pgrp P = Some g /\ pgof w p = Some g
  /\ pgrps w !! g = Some G /\ sesof w g = Some (pg_session G) /\ sessions w !! pg_session G = Some S /\ p ∈ pg_mem G.
Proof.
  intros HI EP. destruct (go_pgof _ _ w p P (inv_groups w HI) EP ltac:(done)) as (g&G&Epg&Eg&EG&Hm).
  destruct (go_ses _ _ w (inv_groups w HI) g G EG) as (S&ES). exists g, G, S. split_and!; [done..| |done|done].
  apply sesof_Some. eauto.
Qed.

Lemma session_of_ok w p g G : Inv w -> pgof w p = Some g -> pgrps w !! g = Some G -> session_of p w = Ok (pg_session G).
Proof. intros HI Eg EG. apply (session_of_eq p w g); [done|]. apply sesof_Some. eauto. Qed.

(** Whether a process leads its session. *)
Definition leads (w : pworld) (p : loc) : Prop :=
  exists s S, pgof w p ≫= sesof w = Some s /\ sessions w !! s = Some S /\ s_leader S = Some p.

Lemma SESS_LEADER_ok w p P : Inv w -> procs w !! p = Some P ->
  exists b, SESS_LEADER p w = Ok b /\ (b = true <-> leads w p).
Proof.
  intros HI EP. destruct (proc_groups w p P HI EP) as (g&G&S&_&Epg&EG&Es&ES&_).
  unfold SESS_LEADER, leads. rewrite (session_of_eq p w g (pg_session G)) by done. cbn [mbind outcome_bind].
  rewrite ES. cbn. eexists. split; [done|]. rewrite bool_decide_eq_true, Epg. cbn. rewrite Es. naive_solver.
Qed.

Lemma leads_init w : Inv w -> leads w (initproc w).
Proof.
  intros HI. destruct (lo_init _ w (inv_lead w HI)) as (I&g&s&S&EI&_&Eg&Es&ES&El&_). exists s, S.
  split_and!; [|done..]. by rewrite (proj2 (pgof_Some w (initproc w) g)) by eauto.
Qed.

(** The group of a session leader has its id. *)
Lemma leader_id w p P s S : Inv w -> procs w !! p = Some P -> sessions w !! s = Some S -> s_leader S = Some p ->
  exists g G, pgof w p = Some g /\ pgrps w !! g = Some G /\ pg_id G = p_pid P.
Proof.
  intros HI EP ES El. destruct (lo_leader _ w (inv_lead w HI) s S p ES El ltac:(done)) as (P'&g&G&EP'&_&Eg&EG&Ei&_).
  simplify_eq. exists g, G. split_and!; [|done..]. apply pgof_Some. eauto.
Qed.

Lemma entered_refl w p P g G : Inv w -> procs w !! p = Some P -> pgof w p = Some g -> pgrps w !! g = Some G ->
  entered p (pg_id G) false w w.
Proof.
  intros HI EP Epg EG. constructor; [| |done..|].
  - exists P, g. split; [done|]. apply pgof_Some in Epg as (P'&?&?). simplify_eq. symmetry. apply insert_id. rewrite EP. f_equal.
    destruct P. cbn in *. by subst.
  - exists g, G. split_and!; [done..|]. rewrite Epg. cbn. apply sesof_Some. eauto.
  - exists []. cbn. rewrite app_nil_r. split; [done|]. intros _. split; [apply NoDup_nil_2|].
    intros x. split; [by intros ?%not_elem_of_nil|lia].
Qed.

(** A group in the process's session, or the process's own. *)
Lemma enterpgrp_join w p P pgid : Inv w -> procs w !! p = Some P -> p_stat P <> SZOMB -> p <> proc0 w -> ~ leads w p ->
  (s16 pgid = p_pid P \/ exists g G, pgrps w !! g = Some G /\ pg_id G = s16 pgid /\ pgof w p ≫= sesof w = Some (pg_session G)) ->
  exists w', enterpgrp p pgid false w = Ok w' /\ Inv w' /\ entered p (s16 pgid) false w w'.
Proof.
  intros HI EP Hs Hp0 Hl Hid. destruct (proc_groups w p P HI EP) as (old&O&S&Eold&Epg&EO&Es&ES&_).
  assert (p <> initproc w) as Hi by (intros ->; by apply Hl, leads_init).
  assert (s_leader S <> Some p) as Hnl. { intros El. apply Hl. exists (pg_session O), S. by rewrite Epg. }
  destruct (pgid_find w pgid HI) as (r&_&Er&Hr). unfold enterpgrp. rewrite Er. cbn [mbind outcome_bind].
  rewrite (group_of_eq p w old Epg). cbn [mbind outcome_bind]. destruct r as [g|].
  - destruct Hr as (G&EG&Ei). destruct (decide (Some g = Some old)) as [[= ->]|Hne].
    + exists w. simplify_eq. rewrite <- Ei. split; [done|]. split; [done|]. by apply (entered_refl w p P old).
    + cbn [mret outcome_ret mbind outcome_bind]. rewrite <- Ei.
      apply (enter_old w p P old O S); [done..|congruence|].
      destruct Hid as [Hid|(h&H&EH&Eh&Ess)].
      * apply (own_session_of w p P old O HI EP Eold EO g G EG). congruence.
      * assert (h = g) as -> by (apply (go_id _ _ w (inv_groups w HI) h g H G); congruence).
        rewrite Epg in Ess. cbn in Ess. rewrite Es in Ess. congruence.
  - destruct Hid as [Hid|(h&H&EH&Eh&_)]; [|by destruct (Hr h H EH)]. rewrite decide_False by done.
    rewrite Hid in *. apply (enter_new w p P old O S); done.
Qed.

(** A session of its own. *)
Lemma enterpgrp_session w p P : Inv w -> procs w !! p = Some P -> p_stat P <> SZOMB -> p <> proc0 w ->
  (forall g G, pgrps w !! g = Some G -> pg_id G <> p_pid P) ->
  exists w', enterpgrp p (p_pid P) true w = Ok w' /\ Inv w' /\ entered p (p_pid P) true w w'.
Proof.
  intros HI EP Hs Hp0 Hnew. destruct (proc_groups w p P HI EP) as (old&O&S&Eold&Epg&EO&Es&ES&_).
  assert (forall s S, sessions w !! s = Some S -> s_leader S <> Some p) as Hnl.
  { intros s X EX El. destruct (leader_id w p P s X HI EP EX El) as (g&G&_&EG&Ei). by destruct (Hnew g G). }
  assert (p <> initproc w) as Hi. { intros ->. destruct (leads_init w HI) as (s&X&_&EX&El). by destruct (Hnl s X). }
  unfold enterpgrp. rewrite (pid_s16 w p P) by eauto with kernel.
  destruct (pgid_find w (p_pid P) HI) as (r&Er&_&Hr). rewrite Er. cbn [mbind outcome_bind].
  rewrite (group_of_eq p w old Epg). cbn [mbind outcome_bind]. rewrite (pid_s16 w p P) in Hr by eauto with kernel.
  destruct r as [g|]; [destruct Hr as (G&EG&Ei); by destruct (Hnew g G)|]. rewrite decide_False by done.
  by apply (enter_new w p P old O S); try done; eapply Hnl.
Qed.

(** The id of a process's group. *)
Definition pgid_of (w : pworld) (p : loc) : Z := default 0 (pg_id <$> (pgof w p ≫= fun g => pgrps w !! g)).

Lemma getpgrp_ok w p P : Inv w -> procs w !! p = Some P -> getpgrp p w = Ok (pgid_of w p).
Proof.
  intros HI EP. destruct (proc_groups w p P HI EP) as (g&G&S&_&Epg&EG&_). unfold getpgrp, pgid_of.
  rewrite (group_of_eq p w g Epg), Epg. cbn [mbind outcome_bind option_bind]. by rewrite EG.
Qed.

(** ** setsid and setpgid *)

Lemma setsid_ok w p P : Inv w -> procs w !! p = Some P -> p_stat P <> SZOMB -> p <> proc0 w ->
  ((exists g G, pgrps w !! g = Some G /\ pg_id G = p_pid P) /\ setsid p w = Ok (EPERM, 0, w)) \/
  ((forall g G, pgrps w !! g = Some G -> pg_id G <> p_pid P) /\
   exists w', setsid p w = Ok (0, p_pid P, w') /\ Inv w' /\ entered p (p_pid P) true w w').
Proof.
  intros HI EP Hs Hp0. destruct (proc_groups w p P HI EP) as (old&O&S&Eold&Epg&EO&Es&ES&_).
  destruct (pgid_find w (p_pid P) HI) as (r&Er&_&Hr). rewrite (pid_s16 w p P) in Hr by eauto with kernel.
  assert (getpgrp p w = Ok (pg_id O)) as Hg.
  { unfold getpgrp. rewrite (group_of_eq p w old Epg). cbn [mbind outcome_bind]. by rewrite EO. }
  unfold setsid. rewrite EP. cbn [deref mbind outcome_bind]. rewrite Hg. cbn [mbind outcome_bind]. rewrite Er. cbn [mbind outcome_bind].
  destruct r as [g|].
  - left. destruct Hr as (G&?&?). split; [eauto|]. rewrite (bool_decide_true (is_Some (Some g))) by by eexists.
    by rewrite orb_true_r.
  - right. split; [done|]. destruct (enterpgrp_session w p P) as (w'&E&?&?); [done..|]. exists w'.
    rewrite bool_decide_false by by intros [? ?]. destruct (Z.eqb_spec (pg_id O) (p_pid P)) as [E0|_]; [by destruct (Hr old O)|].
    cbn [orb]. by rewrite E.
Qed.

(** The process a call of setpgid with the argument [pid] is about: the caller, or
    one of its descendants that has not exited. *)
Definition target (w : pworld) (curp : loc) (C : proc) (pid : Z) (t : loc) : Prop :=
  if decide (pid = 0 \/ pid = p_pid C) then t = curp
  else exists T, procs w !! t = Some T /\ p_stat T <> SZOMB /\ t <> proc0 w /\ p_pid T = pid
    /\ rtc (fun a b => ppof w a = Some b) t curp.

(** The session of a process. *)
Definition psession (w : pworld) (p : loc) : option loc := pgof w p ≫= sesof w.

Lemma psession_of w p P : Inv w -> procs w !! p = Some P -> exists s, session_of p w = Ok s /\ psession w p = Some s.
Proof.
  intros HI EP. destruct (proc_groups w p P HI EP) as (g&G&S&_&Epg&EG&Es&_). exists (pg_session G).
  split; [by apply (session_of_ok w p g)|]. unfold psession. by rewrite Epg.
Qed.

Lemma setpgid_target_spec w curp C pid : Inv w -> procs w !! curp = Some C ->
  (exists t, target w curp C pid t /\
     ((exists T, procs w !! t = Some T /\ setpgid_target curp pid w = Ok (inr t) /\ psession w t = psession w curp
         /\ (t = curp \/ Z.land (p_flag T) SEXEC = 0))
      \/ (psession w t <> psession w curp /\ setpgid_target curp pid w = Ok (inl EPERM))
      \/ (exists T, procs w !! t = Some T /\ Z.land (p_flag T) SEXEC <> 0 /\ pid <> 0 /\ pid <> p_pid C
          /\ setpgid_target curp pid w = Ok (inl EACCES))))
  \/ (forall t, ~ target w curp C pid t) /\ setpgid_target curp pid w = Ok (inl ESRCH).
Proof.
  intros HI EC. unfold setpgid_target, target. rewrite EC. cbn [deref mbind outcome_bind].
  destruct (decide (pid = 0 \/ pid = p_pid C)) as [Hp|Hp].
  { left. exists curp. split; [done|]. left. exists C. split; [done|]. split; [|by split; [|left]].
    destruct (Z.eqb_spec pid 0), (Z.eqb_spec pid (p_pid C)); try done; lia. }
  assert ((pid =? 0) || (pid =? p_pid C) = false) as -> by (apply orb_false_iff; split; apply Z.eqb_neq; tauto).
  destruct (pfind_spec pid w (inv_procs w HI)) as (r&->&Hr). cbn [mbind outcome_bind]. destruct r as [t|].
  2: { right. split; [|done]. intros t (T&ET&?&?&?&_). by apply (Hr t T). }
  destruct Hr as (T&ET&Hst&Ht0&Epid).
  destruct (inferior_spec w curp t (inv_procs w HI) (inv_tree w HI) (mk_is_Some _ _ ET)) as (b&->&Hb).
  cbn [mbind outcome_bind]. destruct b; cbn [negb].
  2: { right. split; [|done]. intros u (U&EU&_&_&Eu&Hu).
    assert (u = t) as -> by (apply (po_pid w (inv_procs w HI) u t U T); congruence). by apply Hb in Hu. }
  left. exists t. split; [exists T; split_and!; [done..|by apply Hb]|].
  destruct (psession_of w t T HI ET) as (s1&->&->), (psession_of w curp C HI EC) as (s2&->&->). cbn [mbind outcome_bind].
  destruct (decide (s1 <> s2)) as [Hs|Hs]; [right; left; split; [congruence|done]|].
  apply dec_stable in Hs as ->. rewrite ET. cbn [deref mbind outcome_bind].
  destruct (Z.eqb_spec (Z.land (p_flag T) SEXEC) 0) as [Ef|Ef]; cbn [negb].
  - left. exists T. split_and!; [done..|by right].
  - right; right. exists T. split_and!; [done..| | |done]; tauto.
Qed.

(** Whether a group of the session [s] has the id. *)
Definition group_in (w : pworld) (s : option loc) (pgid : Z) : Prop :=
  exists g G, pgrps w !! g = Some G /\ pg_id G = s16 pgid /\ s = Some (pg_session G).

Lemma setpgid_ok w curp C pid pgid : Inv w -> procs w !! curp = Some C -> p_stat C <> SZOMB -> curp <> proc0 w ->
  (exists t T w', target w curp C pid t /\ procs w !! t = Some T /\ setpgid curp pid pgid w = Ok (0, w') /\ Inv w'
     /\ psession w t = psession w curp /\ ~ leads w t /\ (t = curp \/ Z.land (p_flag T) SEXEC = 0)
     /\ (pgid = 0 \/ pgid = p_pid T \/ group_in w (psession w curp) pgid)
     /\ entered t (if pgid =? 0 then p_pid T else s16 pgid) false w w')
  \/ ((forall t, ~ target w curp C pid t) /\ setpgid curp pid pgid w = Ok (ESRCH, w))
  \/ (exists t T, target w curp C pid t /\ procs w !! t = Some T /\ Z.land (p_flag T) SEXEC <> 0 /\ pid <> 0 /\ pid <> p_pid C
        /\ setpgid curp pid pgid w = Ok (EACCES, w))
  \/ (exists t T, target w curp C pid t /\ procs w !! t = Some T /\ setpgid curp pid pgid w = Ok (EPERM, w)
        /\ (psession w t <> psession w curp \/ leads w t
            \/ (pgid <> 0 /\ pgid <> p_pid T /\ ~ group_in w (psession w curp) pgid))).
Proof.
  intros HI EC HsC Hc0. unfold setpgid.
  destruct (setpgid_target_spec w curp C pid HI EC) as [(t&Ht&Hcase)|(Hno&->)]; [|by right; left].
  assert (exists T, procs w !! t = Some T /\ p_stat T <> SZOMB /\ t <> proc0 w) as (T&ET&HsT&Ht0).
  { unfold target in Ht. case_decide; [subst; eauto|]. destruct Ht as (T&?&?&?&_). eauto. }
  destruct Hcase as [(T'&ET'&->&Hs&Hx)|[(Hs&->)|(T'&ET'&Hf&?&?&->)]]; try (assert (T' = T) as -> by congruence);
    cbn [mbind outcome_bind].
  2: { right; right; right. exists t, T. split_and!; [done..|by left]. }
  2: { right; right; left. by exists t, T. }
  destruct (SESS_LEADER_ok w t T HI ET) as (b&->&Hb). cbn [mbind outcome_bind]. destruct b.
  { right; right; right. exists t, T. split_and!; [done..|]. right; left. by apply Hb. }
  assert (~ leads w t) as Hl by (intros H%Hb; done). rewrite ET. cbn [deref mbind outcome_bind].
  pose proof (pid_s16 w t T (inv_procs w HI) ET) as Epid.
  destruct (psession_of w curp C HI EC) as (sc&Esc&Epsc). rewrite Epsc in *.
  destruct (Z.eqb_spec pgid 0) as [->|Hpg0].
  { rewrite Z.eqb_refl. cbn [mret outcome_ret mbind outcome_bind negb].
    destruct (enterpgrp_join w t T (p_pid T)) as (w'&->&HI'&He); [done..|by left|]. left. exists t, T, w'. rewrite Epid in He.
    split_and!; [done..|by left|done]. }
  destruct (Z.eqb_spec pgid (p_pid T)) as [->|Hne]; cbn [mret outcome_ret mbind outcome_bind].
  { cbn [negb]. destruct (enterpgrp_join w t T (p_pid T)) as (w'&->&HI'&He); [done..|by left|]. left. exists t, T, w'.
    split_and!; [done..|by right; left|done]. }
  destruct (pgid_find w pgid HI) as (r&->&_&Hr). cbn [mbind outcome_bind]. destruct r as [g|].
  - destruct Hr as (G&EG&Ei). rewrite EG. cbn [deref mbind outcome_bind]. rewrite Esc. cbn [mret outcome_ret mbind outcome_bind].
    destruct (decide (pg_session G = sc)) as [Eg|Eg].
    + rewrite bool_decide_true by done. cbn [negb].
      destruct (enterpgrp_join w t T pgid) as (w'&->&HI'&He); [done..| |].
      2: { left. exists t, T, w'. split_and!; [done..| |done]. right; right. exists g, G. split_and!; [done..|]. by rewrite Eg. }
      right. exists g, G. split_and!; [done..|]. change (psession w t = Some (pg_session G)). by rewrite Hs, Eg.
    + rewrite bool_decide_false by done. cbn [negb]. right; right; right. exists t, T. split_and!; [done..|]. right; right.
      split_and!; [done..|]. intros (h&H&EH&Eh&Eses).
      assert (h = g) as -> by (apply (go_id _ _ w (inv_groups w HI) h g H G); congruence). simplify_eq.
  - cbn [mret outcome_ret mbind outcome_bind negb]. right; right; right. exists t, T. split_and!; [done..|]. right; right.
    split_and!; [done..|]. intros (h&H&EH&Eh&_). by destruct (Hr h H).
Qed.

(** ** The controlling terminal *)

(** A process changes, but not its place. *)
Lemma Inv_upd w p P P0 : Inv w -> procs w !! p = Some P0 -> same_id P P0 -> p_pgrp P = p_pgrp P0 -> Inv (upd p P w).
Proof.
  intros HI E0 Hs Hg. pose proof Hs as (E1&E2&E3&E4&E5).
  assert (same_members w (upd p P w)) as Hm.
  { constructor; [done|intros q..|done].
    - by apply (ppof_upd p P P0). - by apply (alive_upd p P P0).
    - rewrite pgof_upd. case_decide; [|done]. subst. unfold pgof. by rewrite E0.
    - done. }
  constructor.
  - by apply (procs_ok_upd p P P0); [apply HI|..].
  - by apply (tree_ok_upd p P P0); [apply HI|..].
  - by apply (groups_ok_upd None [] p P P0); [apply HI|..].
  - by apply (lead_ok_upd None p P P0); [apply HI|..].
  - destruct (inv_tty w HI). by constructor.
  - intros x X EX Hx. rewrite (jobs_same w _ x Hm). rewrite (init_session_same w _ Hm) in Hx. by apply (inv_jobs w HI).
  - by apply (ru_ok_upd p P P0); [apply HI|..].
Qed.

(** Sessions and terminals change, but not who leads the sessions. *)
Lemma Inv_ttys w ss tt : Inv w ->
  (forall s S, ss !! s = Some S -> exists S0, sessions w !! s = Some S0 /\ s_count S = s_count S0 /\ s_leader S = s_leader S0) ->
  (forall s S0, sessions w !! s = Some S0 -> exists S, ss !! s = Some S /\ s_leader S = s_leader S0) ->
  tty_ok (set_ttys tt (set_sessions ss w)) -> Inv (set_ttys tt (set_sessions ss w)).
Proof.
  intros HI Hb Hf Ht. constructor; [..|done| |].
  - by apply (procs_ok_same w); [apply HI|..].
  - by apply (tree_ok_same w); [apply HI|..].
  - destruct (inv_groups w HI) as [A B C D F K]. constructor; [exact A|exact B|exact C|exact D| |].
    + intros g G EG. destruct (F g G EG) as (S0&ES0). destruct (Hf _ S0 ES0) as (S&?&_). by eexists.
    + intros s S ES. destruct (Hb s S ES) as (S0&ES0&->&_). exact (K s S0 ES0).
  - destruct (inv_lead w HI) as [A B (I&g&s&S0&?&?&?&?&ES0&El&?)]. constructor; [|exact B|].
    + intros s' S p ES El' HL. destruct (Hb s' S ES) as (S1&ES1&_&E1). apply (A s' S1 p ES1); [congruence|done].
    + destruct (Hf s S0 ES0) as (S&ES&E1). exists I, g, s, S. split_and!; [done..|by rewrite E1|done].
  - exact (inv_jobs w HI).
  - exact (inv_ru w HI).
Qed.

Lemma Inv_log w es : Inv w -> Inv (add_plog es w).
Proof. intros [[] [] [] [] [] ? ?]. by constructor. Qed.

(** The session [s] and terminal [t] become each other's. *)
Lemma tty_ok_bind w s S t T g : tty_ok w -> sessions w !! s = Some S -> ttys w !! t = Some T -> sesof w g = Some s ->
  is_Some (s_leader S) -> (s_ttyvp S = None /\ t_session T = None \/ t_session T = Some s) -> forall vp,
  tty_ok (set_ttys (<[t := mkTty (Some s) (Some g)]> (ttys w))
            (set_sessions (<[s := mkSession (s_count S) (s_leader S) (Some vp) (Some t) (s_login S)]> (sessions w)) w)).
Proof.
  intros H ES ET Eg Hl Hc vp. constructor; cbn.
  - intros u U h EU Eh. apply lookup_insert_Some in EU as [(<-&<-)|(Hu&EU)].
    + cbn in *. injection Eh as <-. by exists s.
    + destruct (tt_pgrp w H u U h EU Eh) as (x&?&?). by exists x.
  - intros u U x EU Ex. apply lookup_insert_Some in EU as [(<-&<-)|(Hu&EU)].
    + cbn in Ex. injection Ex as <-. rewrite lookup_insert_eq. eexists. split; [done|]. cbn. split_and!; [done|by eexists|done].
    + destruct (tt_ses w H u U x EU Ex) as (X&EX&?&Hvp&Etp). destruct (decide (x = s)) as [->|Hx].
      * simplify_eq. destruct Hc as [(Hv&_)|Ht]; [rewrite Hv in Hvp; by destruct Hvp|].
        destruct (tt_ses w H t T s ET Ht) as (S'&?&_&_&?). simplify_eq. 
      * exists X. by rewrite lookup_insert_ne.
  - intros x X EX Hv. apply lookup_insert_Some in EX as [(<-&<-)|(Hx&EX)]; [by eexists|exact (tt_vp w H x X EX Hv)].
  - intros x X u EX Eu. assert (is_Some (ttys w !! u) -> is_Some (<[t := mkTty (Some s) (Some g)]> (ttys w) !! u)) as Hu.
    { intros (U&EU). destruct (decide (u = t)) as [->|]; [rewrite lookup_insert_eq; by eexists|rewrite lookup_insert_ne by done; by eexists]. }
    apply Hu. apply lookup_insert_Some in EX as [(<-&<-)|(Hx&EX)]; [cbn in Eu; simplify_eq; by eexists|exact (tt_live w H x X u EX Eu)].
Qed.

Lemma sctty_ok w p P t T vp : Inv w -> procs w !! p = Some P -> ttys w !! t = Some T ->
  exists g s S, pgof w p = Some g /\ sesof w g = Some s /\ sessions w !! s = Some S /\
  ((s_leader S = Some p /\ (s_ttyvp S = None /\ t_session T = None \/ t_session T = Some s) /\
    exists w', vn_ioctl_sctty p t vp w = Ok (0, w') /\ Inv w'
      /\ ttys w' = <[t := mkTty (Some s) (Some g)]> (ttys w)
      /\ sessions w' = <[s := mkSession (s_count S) (Some p) (Some vp) (Some t) (s_login S)]> (sessions w)
      /\ pgrps w' = pgrps w /\ (exists P', procs w' = <[p := P']> (procs w) /\ p_pgrp P' = Some g /\ Z.land (p_flag P') SCTTY <> 0)
      /\ plog w' = plog w ++ [Vref vp])
   \/ (~ (s_leader S = Some p /\ (s_ttyvp S = None /\ t_session T = None \/ t_session T = Some s)) /\
       vn_ioctl_sctty p t vp w = Ok (EPERM, w))).
Proof.
  intros HI EP ET. destruct (proc_groups w p P HI EP) as (g&G&S&Eg&Epg&EG&Es&ES&_). exists g, (pg_session G), S.
  split_and!; [done..|]. unfold vn_ioctl_sctty, tiocsctty, SESS_LEADER.
  rewrite (session_of_eq p w g (pg_session G)) by done. cbn [mbind outcome_bind]. rewrite ES, ET. cbn [deref mret outcome_ret mbind outcome_bind].
  assert (negb (bool_decide (s_leader S = Some p)) || (bool_decide (is_Some (s_ttyvp S)) || bool_decide (is_Some (t_session T)))
      && negb (bool_decide (t_session T = Some (pg_session G)))
    = negb (bool_decide (s_leader S = Some p /\ (s_ttyvp S = None /\ t_session T = None \/ t_session T = Some (pg_session G))))) as ->.
  { rewrite !bool_decide_and, bool_decide_or, bool_decide_and.
    assert (forall A (o : option A), bool_decide (is_Some o) = match o with Some _ => true | None => false end) as Hi.
    { intros A [a|]; [apply bool_decide_true; by eexists|apply bool_decide_false; by intros [? ?]]. }
    rewrite !Hi. destruct (s_ttyvp S) as [v|], (t_session T) as [x|]; rewrite ?(bool_decide_false (Some _ = None)) by done;
      rewrite ?(bool_decide_true (None = None)) by done; rewrite ?(bool_decide_false (None = Some _)) by done;
      destruct (bool_decide (s_leader S = Some p)); cbn; try done; by destruct (bool_decide (Some x = _)). }
  case_bool_decide as Hc; cbn [negb].
  2: { right. split; done. }
  left. destruct Hc as (El&Hc). split_and!; [done..|]. cbn [mret outcome_ret mbind outcome_bind].
  rewrite (group_of_eq p w g) by done. cbn [mbind outcome_bind]. rewrite EP. cbn [deref mret outcome_ret mbind outcome_bind negb Z.eqb].
  set (P' := set_p_flag (Z.lor (p_flag P) SCTTY) P).
  match goal with |- context [session_of p ?x] => set (w1 := x) end.
  assert (session_of p w1 = Ok (pg_session G)) as ->.
  { apply (session_of_eq p w1 g); [|exact Es]. unfold w1, pgof. cbn. rewrite lookup_insert_eq. done. }
  cbn [mbind outcome_bind].
  assert (sessions w1 = <[pg_session G := mkSession (s_count S) (s_leader S) (s_ttyvp S) (Some t) (s_login S)]> (sessions w)) as Ew1 by done.
  rewrite Ew1, lookup_insert_eq. cbn [deref mret outcome_ret mbind outcome_bind s_count s_leader s_ttyp s_login]. eexists. split; [done|].
  rewrite insert_insert_eq, El. unfold w1.
  split_and!; [|done..|exists P'; split_and!; [done..|]|done].
  - apply Inv_log. change (Inv (upd p P' (set_ttys (<[t := mkTty (Some (pg_session G)) (Some g)]> (ttys w))
        (set_sessions (<[pg_session G := mkSession (s_count S) (Some p) (Some vp) (Some t) (s_login S)]> (sessions w)) w)))).
    apply (Inv_upd _ p P' P); [|done..]. apply Inv_ttys; [done|..].
    + intros s X EX. apply lookup_insert_Some in EX as [(<-&<-)|(?&EX)]; [by exists S|by exists X].
    + intros s X EX. destruct (decide (s = pg_session G)) as [->|]; [|exists X; by rewrite lookup_insert_ne].
      rewrite lookup_insert_eq. simplify_eq. by eexists.
    + rewrite <- El. apply (tty_ok_bind w _ S t T g); [apply HI|done..| |done]. by eexists.
  - cbn. rewrite Z.land_lor_distr_l. intros H%Z.lor_eq_0_iff. by destruct H.
Qed.

Lemma isctty_ok w p P T : Inv w -> procs w !! p = Some P ->
  isctty p T w = Ok (bool_decide (t_session T = psession w p) && negb (Z.land (p_flag P) SCTTY =? 0)).
Proof.
  intros HI EP. destruct (psession_of w p P HI EP) as (s&Es&Eps). unfold isctty. rewrite Es. cbn [mbind outcome_bind].
  by rewrite EP, Eps.
Qed.

(** The foreground group changes. *)
Lemma Inv_fg w t T o : Inv w -> ttys w !! t = Some T -> (forall g, o = Some g -> exists s, t_session T = Some s /\ sesof w g = Some s) ->
  Inv (set_ttys (<[t := mkTty (t_session T) o]> (ttys w)) w).
Proof.
  intros HI ET Ho. pose proof (inv_tty w HI) as H.
  destruct HI as [A B C D F J R]. constructor; [by destruct A; constructor|by destruct B; constructor|
    by destruct C; constructor|by destruct D; constructor| |exact J|exact R].
  constructor; [| |exact (tt_vp w H)|].
  - intros u U g EU Eg. cbn in EU. apply lookup_insert_Some in EU as [(<-&<-)|(?&EU)]; [by apply Ho|exact (tt_pgrp w H u U g EU Eg)].
  - intros u U s EU Es. cbn in EU. apply lookup_insert_Some in EU as [(<-&<-)|(?&EU)]; [exact (tt_ses w H _ T s ET Es)|exact (tt_ses w H u U s EU Es)].
  - intros s S u ES Eu. destruct (tt_live w H s S u ES Eu) as (U&EU). cbn.
    destruct (decide (u = t)) as [->|]; [rewrite lookup_insert_eq; by eexists|rewrite lookup_insert_ne by done; by eexists].
Qed.

Lemma Inv_ttyclose w t T : Inv w -> ttys w !! t = Some T -> Inv (set_ttys (<[t := mkTty None None]> (ttys w)) w).
Proof.
  intros HI ET. pose proof (inv_tty w HI) as H.
  destruct HI as [A B C D F J R]. constructor; [by destruct A; constructor|by destruct B; constructor|
    by destruct C; constructor|by destruct D; constructor| |exact J|exact R].
  constructor; [| |exact (tt_vp w H)|].
  - intros u U g EU Eg. cbn in EU. apply lookup_insert_Some in EU as [(<-&<-)|(?&EU)]; [done|exact (tt_pgrp w H u U g EU Eg)].
  - intros u U s EU Es. cbn in EU. apply lookup_insert_Some in EU as [(<-&<-)|(?&EU)]; [done|exact (tt_ses w H u U s EU Es)].
  - intros s S u ES Eu. destruct (tt_live w H s S u ES Eu) as (U&EU). cbn.
    destruct (decide (u = t)) as [->|]; [rewrite lookup_insert_eq; by eexists|rewrite lookup_insert_ne by done; by eexists].
Qed.

Lemma spgrp_ok w p P t T pgid : Inv w -> procs w !! p = Some P -> ttys w !! t = Some T ->
  let ctty := bool_decide (t_session T = psession w p) && negb (Z.land (p_flag P) SCTTY =? 0) in
  if negb ctty then tiocspgrp p t pgid w = Ok (ENOTTY, w) /\ tiocgpgrp p t w = Ok (ENOTTY, 0)
  else (exists w', tiocspgrp p t pgid w = Ok (0, w') /\ Inv w' /\ group_in w (psession w p) pgid /\ tiocgpgrp p t w' = Ok (0, s16 pgid))
    \/ (~ group_in w (psession w p) pgid /\ tiocspgrp p t pgid w = Ok (EPERM, w)).
Proof.
  intros HI EP ET. cbv zeta. destruct (pgid_find w pgid HI) as (r&Er&_&Hr).
  unfold tiocspgrp, tiocgpgrp. rewrite Er, ET. cbn [deref mret outcome_ret mbind outcome_bind].
  rewrite (isctty_ok w p P T HI EP). cbn [mbind outcome_bind].
  destruct (bool_decide (t_session T = psession w p) && negb (Z.land (p_flag P) SCTTY =? 0)) eqn:Ec; cbn [negb]; [|done].
  destruct (psession_of w p P HI EP) as (s&Es&Eps). rewrite Eps in *.
  destruct r as [g|]; [|right; split; [|done]; intros (g&G&EG&Ei&_); by destruct (Hr g G)].
  destruct Hr as (G&EG&Ei). rewrite EG. cbn [deref mret outcome_ret mbind outcome_bind]. rewrite Es. cbn [mbind outcome_bind].
  destruct (decide (pg_session G = s)) as [Hg|Hg].
  2: { right. split; [|done]. intros (h&H&EH&Eh&Eses). assert (h = g) as -> by (apply (go_id _ _ w (inv_groups w HI) h g H G); congruence).
       simplify_eq. }
  left. eexists. split; [done|].
  assert (t_session T = Some s) as Ets by (apply andb_true_iff in Ec as (Ec&_); by apply bool_decide_eq_true in Ec).
  assert (Inv (set_ttys (<[t := mkTty (t_session T) (Some g)]> (ttys w)) w)) as HI'.
  { apply Inv_fg; [done..|]. intros h [= <-]. exists s. split; [done|]. apply sesof_Some. eauto. }
  split; [done|]. split; [exists g, G; split_and!; congruence|].
  cbn [ttys set_ttys]. rewrite lookup_insert_eq. cbn [deref mret outcome_ret mbind outcome_bind].
  rewrite (isctty_ok _ p P (mkTty (t_session T) (Some g)) HI' EP). change (psession (set_ttys _ w) p) with (psession w p).
  cbn [t_session mbind outcome_bind]. rewrite Eps, Ec. cbn [negb t_pgrp pgrps set_ttys]. rewrite EG. cbn. by rewrite Ei.
Qed.
