(* ===== verification/Exit.v ===== *)
(** * The life of a process (sys/kern/kern_exit.c and the second part of fork1
      in sys/kern/kern_fork.c)

    fork1 from the child's place in the table to its place in the process tree,
    kexit and wait1, on the stores of [Pgrp].  A call that sleeps ends its step
    at [tsleep]; the sleeps of other components inside kexit (closing files,
    draining the terminal) are not steps of their own. *)

From S2P Require Import Prelude Pgrp.
From S2P Require Resource TimeVal.

Definition SRUN : Z := 3.
Definition SLOAD : Z := 0x1.
Definition SPPWAIT : Z := 0x10.
Definition SWEXIT : Z := 0x100.
Definition STRC : Z := 0x4000.
Definition SWTED : Z := 0x8000.
Definition WNOHANG : Z := 1.
Definition WUNTRACED : Z := 2.
Definition WAIT_ANY : Z := -1.
Definition W_STOPCODE (sig : Z) : Z := Z.lor (Z.shiftl sig 8) 127.

(** ** fork1 *)

(** [p2->p_pgrpnxt = p1->p_pgrpnxt; p1->p_pgrpnxt = p2]. *)
Fixpoint insert_after (p1 p2 : loc) (l : list loc) : list loc :=
  match l with
  | [] => []
  | q :: l => if decide (q = p1) then q :: p2 :: l else q :: insert_after p1 p2 l
  end.

Definition ru0 : Resource.rusage :=
  Resource.mkRusage TimeVal.timerclear TimeVal.timerclear 0 (replicate 13 0).

(** Lines 157-224 for the id [pid]; [xstat] is what the allocated memory held.
    vm_fork and setrq are left out: the child is made runnable at once. *)
Definition fork_child (p1 : loc) (pid xstat : Z) (isvfork : bool) (w : pworld) : outcome (loc * pworld) :=
  P1 ← deref (procs w !! p1);
  let p2 := new_loc (procs w) in
  g ← deref (p_pgrp P1);
  G ← deref (pgrps w !! g);
  S ← deref (sessions w !! pg_session G);
  let ctty := if bool_decide (is_Some (s_ttyvp S)) && has (p_flag P1) SCTTY then SCTTY else 0 in
  let flag := Z.lor (Z.lor SLOAD ctty) (if isvfork then SPPWAIT else 0) in
  let P2 := mkProc pid (Some g) (Some p1) [] SRUN flag xstat TimeVal.timerclear TimeVal.timerclear ru0 ru0 None in
  let w := set_lists (p2 :: allproc w) (zombproc w) (nprocs w + 1) w in
  let w := set_pidhash (<[PIDHASH pid := p2 :: chain (pidhash w) (PIDHASH pid)]> (pidhash w)) w in
  let w := set_pgrps (<[g := set_mem (insert_after p1 p2 (pg_mem G)) G]> (pgrps w)) w in
  mret (p2, set_procs (<[p2 := P2]> (<[p1 := set_p_cptr (p2 :: p_cptr P1) P1]> (procs w))) w).

(** ** kexit *)

(** Lines 140-165: the leader of a session gives up its terminal; vgoneall
    closes the device. *)
Definition exit_session (p : loc) (w : pworld) : outcome pworld :=
  lead ← SESS_LEADER p w;
  if negb (lead : bool) then mret w
  else
    s ← session_of p w;
    S ← deref (sessions w !! s);
    w ← match s_ttyvp S with
        | None => mret w
        | Some vp =>
            t ← deref (s_ttyp S);
            T ← deref (ttys w !! t);
            w ← (if decide (t_session T = Some s) then
                   w ← pgsignal (t_pgrp T) SIGHUP true w;
                   ttyclose t (add_plog [Ttywait t; Vgoneall vp] w)
                 else mret w);
            mret (add_plog [Vrele vp] w)
        end;
    S ← deref (sessions w !! s);
    mret (set_sessions (<[s := mkSession (s_count S) None None (s_ttyp S) (s_login S)]> (sessions w)) w).

(** Lines 186-203. *)
Definition exit_zombie (p : loc) (w : pworld) : outcome pworld :=
  all ← deref (unlink p (allproc w));
  let w := set_lists all (p :: zombproc w) (nprocs w) w in
  P ← deref (procs w !! p);
  let w := set_procs (<[p := set_p_stat SZOMB P]> (procs w)) w in
  let n := PIDHASH (p_pid P) in
  match unlink p (chain (pidhash w) n) with
  | None => Panic "exit"
  | Some l => mret (set_pidhash (<[n := l]> (pidhash w)) w)
  end.

(** Lines 207-226, for each child in turn. *)
Fixpoint reparent (l : list loc) (w : pworld) : outcome pworld :=
  match l with
  | [] => mret w
  | q :: l =>
      I ← deref (procs w !! initproc w);
      let w := set_procs (<[initproc w := set_p_cptr (q :: p_cptr I) I]> (procs w)) w in
      Q ← deref (procs w !! q);
      let strc := has (p_flag Q) STRC in
      let flag := if strc then Z.land (p_flag Q) (Z.lnot STRC) else p_flag Q in
      let w := set_procs (<[q := set_p_flag flag (set_p_pptr (Some (initproc w)) Q)]> (procs w)) w in
      reparent l (if strc then add_plog [Psignal q SIGKILL] w else w)
  end.

Definition exit_children (p : loc) (w : pworld) : outcome pworld :=
  P ← deref (procs w !! p);
  let w := match p_cptr P with [] => w | _ :: _ => add_plog [Wakeup (initproc w)] w end in
  w ← reparent (p_cptr P) w;
  P ← deref (procs w !! p);
  mret (set_procs (<[p := set_p_cptr [] P]> (procs w)) w).

(** Lines 233-237: the status and the resources used, the children's too. *)
Definition exit_info (rv : Z) (P : proc) : proc :=
  let ru := p_sru P in
  let ru := Resource.mkRusage (p_utime P) (p_stime P) (Resource.ru_maxrss ru) (Resource.ru_longs ru) in
  mkProc (p_pid P) (p_pgrp P) (p_pptr P) (p_cptr P) (p_stat P) (p_flag P) (u16 rv) (p_utime P) (p_stime P)
    (p_sru P) (p_cru P) (Some (Resource.ruadd ru (p_cru P))).

Definition kexit (p : loc) (rv : Z) (w : pworld) : outcome pworld :=
  P ← deref (procs w !! p);
  let w := add_plog [Acct p] w in
  let flag := Z.lor (Z.land (p_flag P) (Z.lnot (Z.lor STRC SPPWAIT))) SWEXIT in
  let w := set_procs (<[p := set_p_flag flag P]> (procs w)) w in
  let w := add_plog [Untimeout p; Fdfree p] w in
  if p_pid P =? 1 then Panic "init died"
  else
    w ← exit_session p w;
    g ← group_of p w;
    w ← fixjobc p g false w;
    w ← exit_zombie p (add_plog [Limfree p] w);
    w ← exit_children p w;
    P ← deref (procs w !! p);
    q ← deref (p_pptr P);
    mret (add_plog [Psignal q SIGCHLD; Wakeup q; CpuExit p] (set_procs (<[p := exit_info rv P]> (procs w)) w)).

Definition rexit (p : loc) (rval : Z) (w : pworld) : outcome pworld := kexit p (Z.shiftl rval 8) w.

(** ** wait1 *)

Record wait_args := mkWait {
  wa_pid : Z;
  wa_status : option (Z -> Z);                 (* copyout of the status *)
  wa_options : Z;
  wa_rusage : option (Resource.rusage -> Z);   (* copyout of the usage *)
  wa_compat : bool;
}.

(** The error and the two results, or a sleep. *)
Inductive wait_res := WReturn (error r0 r1 : Z) | WSleep.

Definition set_p_cru (ru : Resource.rusage) (P : proc) : proc :=
  mkProc (p_pid P) (p_pgrp P) (p_pptr P) (p_cptr P) (p_stat P) (p_flag P) (p_xstat P) (p_utime P) (p_stime P)
    (p_sru P) ru (p_ru P).

(** Lines 360-391: the end of the zombie [p], a child of [q]. *)
Definition reap (q p : loc) (w : pworld) : outcome pworld :=
  P ← deref (procs w !! p);
  ru ← deref (p_ru P);
  Q ← deref (procs w !! q);
  let w := set_procs (<[q := set_p_cru (Resource.ruadd (p_cru Q) ru) Q]> (procs w)) w in
  w ← leavepgrp p (add_plog [Crfree p] w);
  zomb ← deref (unlink p (zombproc w));
  q' ← deref (p_pptr P);
  Q ← deref (procs w !! q');
  l ← deref (unlink p (p_cptr Q));
  let w := set_procs (<[q' := set_p_cptr l Q]> (procs w)) w in
  let w := set_lists (allproc w) zomb (nprocs w - 1) (add_plog [CpuWait p] w) in
  mret (set_procs (delete p (procs w)) w).

Definition copy_status (a : wait_args) (status : Z) : Z :=
  match wa_status a with Some f => f status | None => 0 end.

(** Lines 344-392, a zombie. *)
Definition wait_zombie (q : loc) (a : wait_args) (p : loc) (P : proc) (w : pworld) : outcome (wait_res * pworld) :=
  let r1 := if wa_compat a then p_xstat P else 0 in
  let error := if wa_compat a then 0 else copy_status a (p_xstat P) in
  if negb (error =? 0) then mret (WReturn error (p_pid P) r1, w)
  else
    ru ← deref (p_ru P);
    let error := match wa_rusage a with Some f => f ru | None => 0 end in
    if negb (error =? 0) then mret (WReturn error (p_pid P) r1, w)
    else w ← reap q p w; mret (WReturn 0 (p_pid P) r1, w).

(** Lines 393-410, a stopped child that is traced or that the caller asks
    about. *)
Definition wait_stopped (a : wait_args) (P : proc) : bool :=
  (p_stat P =? SSTOP) && negb (has (p_flag P) SWTED) && (has (p_flag P) STRC || has (wa_options a) WUNTRACED).

Definition wait_stop (a : wait_args) (p : loc) (P : proc) (w : pworld) : wait_res * pworld :=
  let w := set_procs (<[p := set_p_flag (Z.lor (p_flag P) SWTED) P]> (procs w)) w in
  (if wa_compat a then WReturn 0 (p_pid P) (W_STOPCODE (p_xstat P))
   else WReturn (copy_status a (W_STOPCODE (p_xstat P))) (p_pid P) 0, w).

(** The loop over the children (lines 339-411). *)
Fixpoint wait_scan (q : loc) (a : wait_args) (pid nfound : Z) (l : list loc) (w : pworld) : outcome (wait_res * pworld) :=
  match l with
  | [] =>
      mret (if nfound =? 0 then WReturn ECHILD 0 0
            else if has (wa_options a) WNOHANG then WReturn 0 0 0 else WSleep, w)
  | p :: l =>
      P ← deref (procs w !! p);
      pgid ← getpgrp p w;
      if negb (pid =? WAIT_ANY) && negb (p_pid P =? pid) && negb (pgid =? - pid) then wait_scan q a pid nfound l w
      else if p_stat P =? SZOMB then wait_zombie q a p P w
      else if wait_stopped a P then mret (wait_stop a p P w)
      else wait_scan q a pid (nfound + 1) l w
  end.

Definition wait1 (q : loc) (a : wait_args) (w : pworld) : outcome (wait_res * pworld) :=
  pgid ← getpgrp q w;
  Q ← deref (procs w !! q);
  wait_scan q a (if wa_pid a =? 0 then - pgid else wa_pid a) 0 (p_cptr Q) w.

Definition wait4 (q : loc) (a : wait_args) (w : pworld) : outcome (wait_res * pworld) :=
  wait1 q (mkWait (wa_pid a) (wa_status a) (wa_options a) (wa_rusage a) false) w.
Definition owait (q : loc) (w : pworld) : outcome (wait_res * pworld) :=
  wait1 q (mkWait WAIT_ANY None 0 None true) w.
