(* ===== verification/ForkInv.v ===== *)
(** * The birth of a process

    The place fork1 gives a child keeps the invariant of [PgrpInv], and, seen
    through the part of a process that [Fork] models, is the place [Fork.fork1]
    gives it. *)

From S2P Require Import Prelude Pgrp PgrpInv PgrpCalls Exit.
From S2P Require Fork Resource TimeVal.

(** No process and no group has the id. *)
Definition fresh_pid (w : pworld) (pid : Z) : Prop :=
  0 < pid < 2 ^ 15 /\ (forall p P, procs w !! p = Some P -> p_pid P <> pid) /\
  (forall g G, pgrps w !! g = Some G -> pg_id G <> pid).

Lemma insert_after_perm p1 p2 l : p1 ∈ l -> insert_after p1 p2 l ≡ₚ p2 :: l.
Proof.
  induction l as [|q l IH]; intros Hp; [by apply not_elem_of_nil in Hp|]. cbn.
  destruct (decide (q = p1)) as [->|Hne]; [apply Permutation_swap|].
  apply elem_of_cons in Hp as [->|Hp]; [done|]. rewrite IH by done. apply Permutation_swap.
Qed.

Section Child.
Context (w : pworld) (p1 : loc) (P1 : proc) (g : loc) (G : pgrp) (pid xstat : Z) (isvfork : bool).
Hypothesis HI : Inv w.
Hypothesis EP : procs w !! p1 = Some P1.
Hypothesis Hstat : p_stat P1 <> SZOMB.
Hypothesis Eg : p_pgrp P1 = Some g.
Hypothesis EG : pgrps w !! g = Some G.
Hypothesis Hpid : fresh_pid w pid.

Definition fc_flag (vp : option Z) : Z :=
  Z.lor (Z.lor SLOAD (if bool_decide (is_Some vp) && has (p_flag P1) SCTTY then SCTTY else 0)) (if isvfork then SPPWAIT else 0).
Definition fc_P (vp : option Z) : proc :=
  mkProc pid (Some g) (Some p1) [] SRUN (fc_flag vp) xstat TimeVal.timerclear TimeVal.timerclear ru0 ru0 None.
Definition fc_w (P2 : proc) : pworld :=
  let p2 := new_loc (procs w) in
  mkPworld (<[p2 := P2]> (<[p1 := set_p_cptr (p2 :: p_cptr P1) P1]> (procs w)))
    (<[g := set_mem (insert_after p1 p2 (pg_mem G)) G]> (pgrps w)) (sessions w) (ttys w)
    (<[PIDHASH pid := p2 :: chain (pidhash w) (PIDHASH pid)]> (pidhash w)) (pgrphash w)
    (p2 :: allproc w) (zombproc w) (nprocs w + 1) (proc0 w) (initproc w) (plog w).

Let p2 := new_loc (procs w).

Lemma fork_child_eq : exists S, sessions w !! pg_session G = Some S /\
  fork_child p1 pid xstat isvfork w = Ok (p2, fc_w (fc_P (s_ttyvp S))).
Proof.
  destruct (go_ses _ _ w (inv_groups w HI) g G EG) as (S&ES). exists S. split; [done|].
  unfold fork_child. rewrite EP. cbn [deref mbind outcome_bind]. rewrite Eg. cbn [deref mbind outcome_bind].
  rewrite EG. cbn [deref mbind outcome_bind]. by rewrite ES.
Qed.

Context (vp : option Z).
Let w' := fc_w (fc_P vp).

Lemma p2_fresh : procs w !! p2 = None.
Proof. apply new_loc_fresh. Qed.
Lemma p2_p1 : p2 <> p1.
Proof. intros E. pose proof p2_fresh. congruence. Qed.

Lemma fc_lookup q : procs w' !! q = if decide (q = p2) then Some (fc_P vp)
  else if decide (q = p1) then Some (set_p_cptr (p2 :: p_cptr P1) P1) else procs w !! q.
Proof.
  unfold w'. cbn. fold p2. destruct (decide (q = p2)) as [->|]; [by rewrite lookup_insert_eq|].
  rewrite lookup_insert_ne by done. destruct (decide (q = p1)) as [->|]; [by rewrite lookup_insert_eq|by rewrite lookup_insert_ne].
Qed.

(** The processes are those of [w], one of them with another child, and the new
    one. *)
Lemma fc_old q Q : procs w' !! q = Some Q -> q = p2 /\ Q = fc_P vp \/
  q <> p2 /\ exists Q0, procs w !! q = Some Q0 /\ p_pid Q = p_pid Q0 /\ p_stat Q = p_stat Q0 /\ p_pptr Q = p_pptr Q0
    /\ p_pgrp Q = p_pgrp Q0 /\ p_ru Q = p_ru Q0 /\ (forall c, c ∈ p_cptr Q <-> c ∈ p_cptr Q0 \/ q = p1 /\ c = p2).
Proof.
  rewrite fc_lookup. destruct (decide (q = p2)); [intros [= <-]; by left|].
  destruct (decide (q = p1)) as [->|]; intros E; right; split; try done.
  - injection E as <-. exists P1. split_and!; [done..|]. intros c. cbn. rewrite elem_of_cons. naive_solver.
  - exists Q. split_and!; [done..|]. naive_solver.
Qed.

Lemma fc_new q Q0 : procs w !! q = Some Q0 -> q <> p2 /\ exists Q, procs w' !! q = Some Q /\ p_pid Q = p_pid Q0
  /\ p_stat Q = p_stat Q0 /\ p_pptr Q = p_pptr Q0 /\ p_pgrp Q = p_pgrp Q0 /\ (forall c, c ∈ p_cptr Q0 -> c ∈ p_cptr Q).
Proof.
  intros EQ. assert (q <> p2) as Hq by (intros ->; pose proof p2_fresh; congruence). split; [done|].
  rewrite fc_lookup, decide_False by done. destruct (decide (q = p1)) as [->|]; [|by exists Q0].
  eexists. simplify_eq. split_and!; [done..|]. intros c. cbn. rewrite elem_of_cons. by right.
Qed.

Lemma fc_ppof q : ppof w' q = if decide (q = p2) then Some p1 else ppof w q.
Proof.
  unfold ppof. rewrite fc_lookup. destruct (decide (q = p2)); [done|]. destruct (decide (q = p1)) as [->|]; [|done].
  by rewrite EP.
Qed.
Lemma fc_pgof q : pgof w' q = if decide (q = p2) then Some g else pgof w q.
Proof.
  unfold pgof. rewrite fc_lookup. destruct (decide (q = p2)); [done|]. destruct (decide (q = p1)) as [->|]; [|done].
  by rewrite EP.
Qed.
Lemma fc_sesof h : sesof w' h = sesof w h.
Proof.
  unfold sesof, w'. cbn. destruct (decide (h = g)) as [->|]; [by rewrite lookup_insert_eq, EG|by rewrite lookup_insert_ne].
Qed.

Lemma p2_not_parent c : ppof w c <> Some p2.
Proof.
  intros (C&EC&Ep)%ppof_Some. destruct (decide (c = proc0 w)) as [->|Hc].
  - destruct (to_root w (inv_tree w HI)) as (R&ER&Er&_). congruence.
  - destruct (to_parent w (inv_tree w HI) c C EC Hc) as (q&Q&Eq&EQ&_). pose proof p2_fresh. congruence.
Qed.

Lemma fc_procs : procs_ok w'.
Proof.
  pose proof (inv_procs w HI) as H. destruct Hpid as (Hr&Hf&_).
  assert (p2 ∉ known w) as Hk. { intros (?&?)%(po_dom w H). pose proof p2_fresh. congruence. }
  assert (known w' = p2 :: known w) as Ek by done. constructor.
  - rewrite Ek. apply list.NoDup_cons. split; [done|apply H].
  - intros q. rewrite Ek, elem_of_cons, fc_lookup. destruct (decide (q = p2)); [split; [by eexists|by left]|].
    rewrite (po_dom w H). destruct (decide (q = p1)) as [->|]; [rewrite EP|]; naive_solver.
  - intros q Q [(->&->)|(?&Q0&EQ&_&->&_)]%fc_old.
    + split; [|done]. intros Hz. exfalso. apply Hk. unfold known. apply elem_of_app. by right.
    + exact (po_zomb w H q Q0 EQ).
  - rewrite Ek. cbn. rewrite (po_n w H). lia.
  - intros a b A B [(->&->)|(?&A0&EA&->&_)]%fc_old [(->&->)|(?&B0&EB&->&_)]%fc_old; [done|..|by apply (po_pid w H)].
    + intros E. by destruct (Hf b B0 EB).
    + intros E. by destruct (Hf a A0 EA).
  - intros q Q [(->&->)|(?&Q0&EQ&->&_)]%fc_old; [|exact (po_range w H q Q0 EQ)].
    cbn. split; [lia|]. split; [lia|]. intros E. destruct (to_root w (inv_tree w HI)) as (R&ER&_). pose proof p2_fresh.
    change (p2 = proc0 w) in E. congruence.
  - assert (hashes (<[PIDHASH pid := p2 :: chain (pidhash w) (PIDHASH pid)]> (pidhash w)) (<[p2 := fc_P vp]> (procs w)) p_pid
      (fun p P => p_stat P <> SZOMB /\ p <> proc0 w)) as Hh.
    { apply (hashes_insert (pidhash w) (procs w) p_pid (fun p P => p_stat P <> SZOMB /\ p <> proc0 w) p2 (fc_P vp)); [apply H|apply p2_fresh| |done].
      split; [done|]. intros E. destruct (to_root w (inv_tree w HI)) as (R&ER&_). pose proof p2_fresh. congruence. }
    refine (hashes_ext _ _ _ _ _ _ Hh _). intros q n. change (proc0 w') with (proc0 w).
    rewrite fc_lookup. destruct (decide (q = p2)) as [->|Hq]; [by rewrite lookup_insert_eq|].
    rewrite lookup_insert_ne by done. destruct (decide (q = p1)) as [->|]; [|done]. rewrite EP. naive_solver.
Qed.

Lemma fc_tree : tree_ok w'.
Proof.
  pose proof (inv_tree w HI) as T. constructor.
  - intros q Q [(->&->)|(Hq&Q0&EQ&_&_&->&_)]%fc_old Hr.
    + exists p1, (set_p_cptr (p2 :: p_cptr P1) P1). rewrite fc_lookup, decide_False, decide_True by (done || apply not_eq_sym, p2_p1).
      split_and!; [done..|]. by left.
    + destruct (to_parent w T q Q0 EQ Hr) as (r&R0&->&ER&?&Hin). destruct (fc_new r R0 ER) as (_&R&ER'&_&Es&_&_&Hc).
      exists r, R. rewrite Es. split_and!; [done..|by apply Hc].
  - destruct (to_root w T) as (R0&ER&Er&Hs). destruct (fc_new _ R0 ER) as (_&R&ER'&_&Es&Epp&_).
    exists R. rewrite Es, Epp. done.
  - intros q Q EQ. assert (NoDup (p_cptr Q)) as Hnd.
    { rewrite fc_lookup in EQ. destruct (decide (q = p2)); [injection EQ as <-; apply NoDup_nil_2|].
      destruct (decide (q = p1)); [|by apply (to_child w T q)]. injection EQ as <-. apply list.NoDup_cons. split; [|by apply (to_child w T p1)].
      intros Hc. apply (to_child w T p1 P1 EP), ppof_Some in Hc as (C&EC&_). pose proof p2_fresh. congruence. }
    split; [done|]. intros c Hc. rewrite fc_ppof. apply fc_old in EQ as [(->&->)|(Hq&Q0&EQ&_&_&_&_&_&Hm)]; [by apply not_elem_of_nil in Hc|].
    apply Hm in Hc as [Hc|(->&->)]; [|by rewrite decide_True].
    assert (ppof w c = Some q) as Hpp by (by apply (to_child w T q Q0 EQ)).
    rewrite decide_False; [done|]. intros ->. apply ppof_Some in Hpp as (C&EC&_). pose proof p2_fresh. congruence.
  - assert (forall q Q0, procs w !! q = Some Q0 -> rtc (fun a b => ppof w' a = Some b) q (proc0 w)) as Hold.
    { intros q Q0 EQ. eapply rtc_subrel; [|exact (to_reach w T q Q0 EQ)]. intros a b Hab. rewrite fc_ppof, decide_False; [done|].
      intros ->. apply ppof_Some in Hab as (C&EC&_). pose proof p2_fresh. congruence. }
    intros q Q [(->&->)|(Hq&Q0&EQ&_)]%fc_old; [|by eapply Hold].
    eapply rtc_l; [|exact (Hold p1 P1 EP)]. by rewrite fc_ppof, decide_True.
  - pose proof (to_init w T) as Hi. change (ppof w' (initproc w) = Some (proc0 w)). rewrite fc_ppof, decide_False; [done|].
    intros E. rewrite E in Hi. apply ppof_Some in Hi as (C&EC&_). pose proof p2_fresh. congruence.
Qed.

Lemma fc_groups : groups_ok None [] w'.
Proof.
  pose proof (inv_groups w HI) as H.
  destruct (go_group _ _ w H p1 P1 EP ltac:(done)) as (g'&G'&Eg'&EG'&Hp1). simplify_eq.
  pose proof (insert_after_perm p1 p2 (pg_mem G) Hp1) as Hperm.
  destruct (go_mem _ _ w H g G EG) as (_&Hnd&Hm).
  assert (p2 ∉ pg_mem G) as Hp2. { intros Hin. destruct (Hm p2 Hin) as (_&(C&EC&_)%pgof_Some). pose proof p2_fresh. congruence. }
  constructor.
  - intros q Q [(->&->)|(Hq&Q0&EQ&_&_&_&->&_)]%fc_old _.
    + exists g, (set_mem (insert_after p1 p2 (pg_mem G)) G). cbn. rewrite lookup_insert_eq. split_and!; [done..|].
      cbn. fold p2. rewrite Hperm. by left.
    + destruct (go_group _ _ w H q Q0 EQ ltac:(done)) as (h&K&?&EK&Hin). exists h. cbn.
      destruct (decide (h = g)) as [->|]; [|exists K; by rewrite lookup_insert_ne].
      rewrite lookup_insert_eq. eexists. simplify_eq. split_and!; [done..|]. cbn. fold p2. rewrite Hperm. by right.
  - intros h K EK. cbn in EK. apply lookup_insert_Some in EK as [(<-&<-)|(Hh&EK)]; cbn; fold p2.
    + split_and!.
      * left. intros E. fold p2 in E. rewrite E in Hperm. by apply Permutation_nil_cons in Hperm.
      * rewrite Hperm. by apply list.NoDup_cons.
      * intros q. rewrite Hperm, elem_of_cons, fc_pgof. intros [->|Hq]; [by rewrite decide_True|].
        destruct (decide (q = p2)); [done|]. by apply Hm.
    + destruct (go_mem _ _ w H h K EK) as (?&?&Hq). split_and!; [done..|]. intros q Hin. destruct (Hq q Hin) as (?&Hpg).
      split; [done|]. rewrite fc_pgof, decide_False; [done|]. intros ->. apply pgof_Some in Hpg as (C&EC&_). pose proof p2_fresh. congruence.
  - intros h k K K' EK EK'. cbn in EK, EK'. apply lookup_insert_Some in EK as [(<-&<-)|(?&EK)], EK' as [(<-&<-)|(?&EK')]; cbn; [done|..].
    + exact (go_id _ _ w H g k G K' EG EK'). + exact (go_id _ _ w H h g K G EK EG). + exact (go_id _ _ w H h k K K' EK EK').
  - refine (hashes_ext _ _ _ _ _ _ (go_hash _ _ w H) _). intros h n. cbn.
    destruct (decide (h = g)) as [->|]; [rewrite lookup_insert_eq, EG; naive_solver|by rewrite lookup_insert_ne].
  - intros h K EK. cbn in EK. apply lookup_insert_Some in EK as [(<-&<-)|(?&EK)]; [exact (go_ses _ _ w H g G EG)|exact (go_ses _ _ w H h K EK)].
  - intros s S ES. destruct (go_count _ _ w H s S ES) as (->&?). split; [|done]. f_equal. apply count_map_ext. intros h. cbn.
    destruct (decide (h = g)) as [->|]; [rewrite lookup_insert_eq, EG; naive_solver|by rewrite lookup_insert_ne].
Qed.

Lemma fc_lead : lead_ok None w'.
Proof.
  pose proof (inv_lead w HI) as H. destruct Hpid as (_&_&Hg).
  assert (forall h K, pgrps w' !! h = Some K -> exists K0, pgrps w !! h = Some K0 /\ pg_id K = pg_id K0 /\ pg_session K = pg_session K0) as Hb.
  { intros h K EK. cbn in EK. apply lookup_insert_Some in EK as [(<-&<-)|(?&EK)]; [by exists G|by exists K]. }
  assert (forall h K0, pgrps w !! h = Some K0 -> exists K, pgrps w' !! h = Some K /\ pg_id K = pg_id K0 /\ pg_session K = pg_session K0) as Hn.
  { intros h K EK. cbn. destruct (decide (h = g)) as [->|]; [|exists K; by rewrite lookup_insert_ne].
    rewrite lookup_insert_eq. simplify_eq. by eexists. }
  constructor.
  - intros s S q ES El _. destruct (lo_leader _ w H s S q ES El ltac:(done)) as (Q0&h&K0&EQ&?&?&EK&?&?).
    destruct (fc_new q Q0 EQ) as (_&Q&?&?&?&_&?&_), (Hn h K0 EK) as (K&?&?&?). exists Q, h, K. split_and!; congruence || done.
  - intros q Q h K [(->&->)|(Hq&Q0&EQ&Epid&_&_&Epg&_)]%fc_old EK Eid _; destruct (Hb h K EK) as (K0&EK0&E1&E2).
    + cbn in Eid. exfalso. apply (Hg h K0 EK0). congruence.
    + destruct (lo_own _ w H q Q0 h K0 EQ EK0) as (k&?&?); [congruence|done|]. exists k. rewrite fc_sesof. split; congruence.
  - destruct (lo_init _ w H) as (I0&h&s&S&EI&?&?&?&?&?&_). destruct (fc_new _ I0 EI) as (_&I&?&?&?&_&?&_).
    exists I, h, s, S. rewrite fc_sesof. change (initproc w') with (initproc w). split_and!; congruence || done.
Qed.

Lemma fc_tty : tty_ok w'.
Proof.
  pose proof (inv_tty w HI) as H. constructor; [|apply H..]. intros t T h ET Eh.
  destruct (tt_pgrp w H t T h ET Eh) as (s&?&?). exists s. by rewrite fc_sesof.
Qed.

(** The child is of its parent's group, so no count changes. *)
Lemma fc_jobs : jobs_ok w'.
Proof.
  assert (forall x q, q <> p2 -> qual w' x q = qual w x q) as Hq.
  { intros x q Hq. unfold qual, alive. rewrite fc_ppof, fc_pgof, !decide_False by done.
    assert (match procs w' !! q with Some P => negb (p_stat P =? SZOMB) | None => false end
      = match procs w !! q with Some P => negb (p_stat P =? SZOMB) | None => false end) as ->.
    { rewrite fc_lookup, decide_False by done. destruct (decide (q = p1)) as [->|]; [by rewrite EP|done]. }
    destruct (ppof w q) as [r|] eqn:Er; cbn [mbind option_bind]; [|done]. rewrite fc_pgof, decide_False.
    - destruct (pgof w r); [|done]. by rewrite !fc_sesof.
    - intros ->. by apply (p2_not_parent q). }
  assert (forall x, jobs w' x = jobs w x) as Hj.
  { intros x. unfold jobs. change (known w') with (p2 :: known w). rewrite sumZ_cons.
    rewrite (sumZ_ext _ (fun q => Z.b2z (qual w x q)) (known w)).
    - unfold qual at 1. rewrite fc_ppof, fc_pgof, !decide_True by done. cbn [mbind option_bind].
      rewrite fc_pgof, decide_False by apply not_eq_sym, p2_p1.
      rewrite (proj2 (pgof_Some w p1 g)) by eauto. destruct (decide (g = x)) as [->|Hne].
      + rewrite (bool_decide_true (x = x)) by done. cbn [negb andb]. by rewrite andb_false_r.
      + rewrite (bool_decide_false (Some g = Some x)) by congruence. done.
    - intros q Hk. f_equal. apply Hq. intros ->. apply (po_dom w (inv_procs w HI)) in Hk as (?&?). pose proof p2_fresh. congruence. }
  assert (init_session w' = init_session w) as Hi.
  { unfold init_session. change (initproc w') with (initproc w). destruct (lo_init _ w (inv_lead w HI)) as (I0&_&_&_&EI&_).
    rewrite fc_pgof, decide_False by (intros E; pose proof p2_fresh; congruence).
    destruct (pgof w (initproc w)); cbn [mbind option_bind]; [apply fc_sesof|done]. }
  intros h K EK. rewrite fc_sesof, Hi, Hj. cbn in EK. apply lookup_insert_Some in EK as [(<-&<-)|(?&EK)].
  - exact (inv_jobs w HI g G EG).
  - exact (inv_jobs w HI h K EK).
Qed.

Lemma fc_Inv : Inv w'.
Proof.
  constructor; [exact fc_procs|exact fc_tree|exact fc_groups|exact fc_lead|exact fc_tty|exact fc_jobs|].
  intros q Q [(->&->)|(Hq&Q0&EQ&_&->&_&_&->&_)]%fc_old; [done|exact (inv_ru w HI q Q0 EQ)].
Qed.
End Child.

(** What fork1 makes: a runnable child of the caller, in its group. *)
Record forked (p1 : loc) (pid : Z) (isvfork : bool) (w : pworld) (p2 : loc) (w' : pworld) : Prop := {
  fk_new : procs w !! p2 = None;
  fk_child : exists P2, procs w' !! p2 = Some P2 /\ p_pid P2 = pid /\ p_pptr P2 = Some p1 /\ p_cptr P2 = []
    /\ p_stat P2 = SRUN /\ pgof w' p2 = pgof w p1 /\ p_utime P2 = TimeVal.timerclear /\ p_cru P2 = ru0
    /\ has (p_flag P2) SPPWAIT = isvfork /\ has (p_flag P2) SEXEC = false
    /\ (forall P1 S s, procs w !! p1 = Some P1 -> psession w p1 = Some s -> sessions w !! s = Some S ->
          has (p_flag P2) SCTTY = bool_decide (is_Some (s_ttyvp S)) && has (p_flag P1) SCTTY)
    /\ has (p_flag P2) SLOAD = true /\ has (p_flag P2) SWEXIT = false;
  fk_parent : exists P1, procs w !! p1 = Some P1 /\ procs w' !! p1 = Some (set_p_cptr (p2 :: p_cptr P1) P1);
  fk_others : forall q, q <> p1 -> q <> p2 -> procs w' !! q = procs w !! q;
  fk_groups : forall q, q <> p2 -> pgof w' q = pgof w q;
  fk_sesof : forall h, sesof w' h = sesof w h;
  fk_ids : forall h, pg_id <$> pgrps w' !! h = pg_id <$> pgrps w !! h;
  fk_lists : allproc w' = p2 :: allproc w /\ zombproc w' = zombproc w /\ nprocs w' = nprocs w + 1
    /\ proc0 w' = proc0 w /\ initproc w' = initproc w /\ ttys w' = ttys w /\ sessions w' = sessions w;
}.

Lemma fork_child_ok w p1 P1 pid xstat isvfork : Inv w -> procs w !! p1 = Some P1 -> p_stat P1 <> SZOMB -> fresh_pid w pid ->
  exists p2 w', fork_child p1 pid xstat isvfork w = Ok (p2, w') /\ Inv w' /\ forked p1 pid isvfork w p2 w'.
Proof.
  intros HI EP Hs Hf. destruct (proc_groups w p1 P1 HI EP) as (g&G&S&Eg&Epg&EG&Es&ES&_).
  destruct (fork_child_eq w p1 P1 g G pid xstat isvfork HI EP Eg EG) as (S'&ES'&->). simplify_eq.
  eexists _, _. split; [done|]. split; [by apply (fc_Inv w p1 P1 g G)|].
  pose proof (p2_fresh w) as H2. pose proof (p2_p1 w p1 P1 EP) as H21. set (p2 := new_loc (procs w)) in *.
  pose proof (fc_lookup w p1 P1 g G pid xstat isvfork (s_ttyvp S)) as Hl. fold p2 in Hl. constructor.
  - done.
  - exists (fc_P p1 P1 g pid xstat isvfork (s_ttyvp S)). rewrite Hl, decide_True by done. split_and!; [done..| |done|done| | | | |].
    + rewrite Epg. rewrite (fc_pgof w p1 P1 g G pid xstat isvfork EP (s_ttyvp S) p2), decide_True; done.
    + cbn. unfold fc_flag. destruct (bool_decide _ && _), isvfork; reflexivity.
    + cbn. unfold fc_flag. destruct (bool_decide _ && _), isvfork; reflexivity.
    + intros P1' S' s E1 E2 E3. unfold psession in E2. rewrite Epg in E2. cbn in E2. rewrite Es in E2. simplify_eq.
      cbn. unfold fc_flag. destruct (bool_decide _ && _), isvfork; reflexivity.
    + cbn. unfold fc_flag. destruct (bool_decide _ && _), isvfork; reflexivity.
    + cbn. unfold fc_flag. destruct (bool_decide _ && _), isvfork; reflexivity.
  - exists P1. split; [done|]. rewrite Hl, decide_False, decide_True by done. done.
  - intros q Hq1 Hq2. by rewrite Hl, !decide_False.
  - intros q Hq. by rewrite (fc_pgof w p1 P1 g G pid xstat isvfork EP (s_ttyvp S) q), decide_False.
  - intros h. by apply (fc_sesof w p1 P1 g G pid).
  - intros h. cbn. destruct (decide (h = g)) as [->|]; [by rewrite lookup_insert_eq, EG|by rewrite lookup_insert_ne].
  - done.
Qed.

(** ** fork1 *)

(** What [Fork.fork1] sees of a process. *)
Definition fview (uid : loc -> Z) (w : pworld) (p : loc) : Fork.fproc :=
  Fork.mkFproc (default 0 (p_pid <$> procs w !! p)) (pgid_of w p) (uid p).
Definition ftable_of (uid : loc -> Z) (nextpid pidchecked : Z) (w : pworld) : Fork.ftable :=
  Fork.mkFtable (fview uid w <$> allproc w) (fview uid w <$> zombproc w) (nprocs w) nextpid pidchecked.

(** fork1: the choice of the id, then the child; [uid] gives the processes'
    effective users. *)
Definition fork1 (maxproc nproc_cur : Z) (uid : loc -> Z) (p1 : loc) (xstat : Z) (isvfork : bool)
    (nextpid pidchecked : Z) (w : pworld) : outcome (Z * Z * option loc * Fork.ftable * pworld) :=
  '(error, pid, t) ← Fork.fork1 (Z.to_nat (2 * Fork.PID_MAX)) maxproc nproc_cur (fview uid w p1) (ftable_of uid nextpid pidchecked w);
  if negb (error =? 0) then mret (error, 0, None, t, w)
  else '(p2, w) ← fork_child p1 pid xstat isvfork w; mret (0, pid, Some p2, t, w).

(** No room for another process: the table is at its limit, or the user of [p1] has
    more processes, zombies among them, than its limit. *)
Definition fork_full (maxproc nproc_cur : Z) (uid : loc -> Z) (p1 : loc) (w : pworld) : Prop :=
  maxproc <= nprocs w \/
  nproc_cur < (if uid p1 =? 0 then 0 else Z.of_nat (length (filter (fun q => uid q = uid p1) (known w)))).

Lemma fork_full_code maxproc nproc_cur uid p1 n c w :
  fork_full maxproc nproc_cur uid p1 w <->
  maxproc <= Fork.nprocs (ftable_of uid n c w) \/ nproc_cur < Fork.user_count (uid p1) (ftable_of uid n c w).
Proof.
  unfold fork_full, Fork.user_count, known. destruct (uid p1 =? 0); [done|]. cbn. rewrite <- fmap_app.
  assert (forall l, length (filter (fun p => Fork.f_uid p = uid p1) (fview uid w <$> l)) = length (filter (fun q => uid q = uid p1) l)) as Hl.
  { intros l. induction l as [|q l IH]; [done|]. rewrite fmap_cons, !filter_cons. cbn [Fork.f_uid fview].
    destruct (decide (uid q = uid p1)); cbn [length]; by rewrite IH. }
  by rewrite Hl.
Qed.

Lemma fview_known uid n c w p : Inv w -> is_Some (procs w !! p) ->
  fview uid w p ∈ Fork.allproc (ftable_of uid n c w) ++ Fork.zombproc (ftable_of uid n c w).
Proof.
  intros HI Hp. cbn. rewrite <- fmap_app. apply list_elem_of_fmap. exists p. split; [done|].
  by apply (po_dom w (inv_procs w HI)).
Qed.

(** An id unused in the table is fresh: every group has a member. *)
Lemma unused_fresh uid n c w pid : Inv w -> 0 < pid < Fork.PID_MAX ->
  ~ Fork.used (Fork.allproc (ftable_of uid n c w) ++ Fork.zombproc (ftable_of uid n c w)) pid -> fresh_pid w pid.
Proof.
  intros HI Hr Hu. split; [unfold Fork.PID_MAX in Hr; lia|]. split.
  - intros p P EP E. apply Hu. exists (fview uid w p). split; [by apply fview_known|]. left. cbn. by rewrite EP.
  - intros g G EG E. apply Hu. destruct (go_mem _ _ w (inv_groups w HI) g G EG) as ([Hm|Hm]&_&Hp); [|by apply not_elem_of_nil in Hm].
    destruct (pg_mem G) as [|p l]; [done|]. destruct (Hp p ltac:(by left)) as (_&Hpg).
    exists (fview uid w p). split; [apply fview_known; [done|]; apply pgof_Some in Hpg as (P&?&_); by eexists|].
    right. cbn. unfold pgid_of. rewrite Hpg. cbn. by rewrite EG.
Qed.

Lemma fview_forked uid p1 pid isvfork w p2 w' q : forked p1 pid isvfork w p2 w' -> is_Some (procs w !! q) ->
  fview (fun x => if decide (x = p2) then uid p1 else uid x) w' q = fview uid w q.
Proof.
  intros H (Q&EQ). assert (q <> p2) as Hq by (intros ->; pose proof (fk_new _ _ _ _ _ _ H); congruence).
  unfold fview, pgid_of. rewrite decide_False, (fk_groups _ _ _ _ _ _ H q Hq) by done. f_equal.
  - destruct (decide (q = p1)) as [->|Hp]; [|by rewrite (fk_others _ _ _ _ _ _ H)].
    destruct (fk_parent _ _ _ _ _ _ H) as (P1&EP&->). by rewrite EP.
  - destruct (pgof w q) as [g|]; cbn [mbind option_bind]; [|done]. by rewrite (fk_ids _ _ _ _ _ _ H).
Qed.
