(* ===== verification/ExitInv.v ===== *)
(** * The end of a process

    kexit makes a zombie of the caller, gives its children to init and takes it out
    of job control; wait1 reports on the children of the caller and reaps their zombies.  Both
    keep the invariant of [PgrpInv]. *)

From S2P Require Import Prelude Pgrp PgrpInv PgrpCalls Exit.
From S2P Require Resource TimeVal.

Lemma add_plog_app a b w : add_plog a (add_plog b w) = add_plog (b ++ a) w.
Proof. unfold add_plog. cbn. by rewrite <- app_assoc. Qed.

(** ** The leader of a session leaves *)

Lemma Inv_leaderless w s S p tt : Inv w -> sessions w !! s = Some S -> s_leader S = Some p -> p <> initproc w ->
  (forall t T, tt !! t = Some T -> t_session T <> Some s /\ (T = mkTty None None \/ ttys w !! t = Some T)) ->
  (forall t, is_Some (ttys w !! t) -> is_Some (tt !! t)) ->
  Inv (set_ttys tt (set_sessions (<[s := mkSession (s_count S) None None (s_ttyp S) (s_login S)]> (sessions w)) w)).
Proof.
  intros HI ES El Hi Ht Hl. pose proof (inv_tty w HI) as HT. destruct HI as [A B C D F J R].
  constructor; [by destruct A; constructor|by destruct B; constructor| | | |exact J|exact R].
  - destruct C as [C1 C2 C3 C4 C5 C6]. constructor; [exact C1|exact C2|exact C3|exact C4| |].
    + intros g G EG. cbn. destruct (decide (pg_session G = s)) as [->|]; [rewrite lookup_insert_eq; by eexists|].
      rewrite lookup_insert_ne by done. exact (C5 g G EG).
    + intros x X EX. cbn in EX. apply lookup_insert_Some in EX as [(<-&<-)|(?&EX)]; [exact (C6 s S ES)|exact (C6 x X EX)].
  - destruct D as [D1 D2 (I&g&x&X&?&?&?&?&EX&EI&?)]. constructor; [|exact D2|].
    + intros x' X' q EX' Eq HL. cbn in EX'. apply lookup_insert_Some in EX' as [(<-&<-)|(?&EX')]; [done|exact (D1 x' X' q EX' Eq HL)].
    + exists I, g, x, X. split_and!; [done..| |done|done]. cbn. rewrite lookup_insert_ne; [done|]. intros <-. simplify_eq.
  - constructor.
    + intros t T g ET Eg. destruct (Ht t T ET) as (_&[->|ET']); [done|exact (tt_pgrp w HT t T g ET' Eg)].
    + intros t T x ET Ex. destruct (Ht t T ET) as (Hn&[->|ET']); [done|].
      destruct (tt_ses w HT t T x ET' Ex) as (X&EX&?). exists X. split; [|done]. cbn. rewrite lookup_insert_ne; [done|congruence].
    + intros x X EX. cbn in EX. apply lookup_insert_Some in EX as [(<-&<-)|(?&EX)]; [by intros []|exact (tt_vp w HT x X EX)].
    + intros x X t EX Et. apply Hl. cbn in EX. apply lookup_insert_Some in EX as [(<-&<-)|(?&EX)];
        [exact (tt_live w HT s S t ES Et)|exact (tt_live w HT x X t EX Et)].
Qed.

Definition cttys (w : pworld) (sig : Z) (l : list loc) : list pevent :=
  omap (fun p => P ← procs w !! p; if has (p_flag P) SCTTY then Some (Psignal p sig) else None) l.

Lemma pgsignal_spec g sig w : (forall G, g = Some G -> is_Some (pgrps w !! G)) -> members_live w ->
  pgsignal g sig true w = Ok (add_plog (match g with Some g => cttys w sig (mem w g) | None => [] end) w).
Proof.
  intros Hg Hm. destruct g as [g|]; cbn [pgsignal].
  2: { unfold add_plog. rewrite app_nil_r. by destruct w. }
  destruct (Hg g eq_refl) as (G&EG). unfold mem. rewrite EG. cbn [deref mbind outcome_bind fmap option_fmap option_map default]. unfold id.
  assert (forall l, (forall p, p ∈ l -> is_Some (procs w !! p)) -> sig_members sig true l w = Ok (cttys w sig l)) as ->; [|done|intros p; by apply (Hm g)].
  induction l as [|p l IH]; intros Hl; [done|]. cbn [sig_members]. destruct (Hl p) as (P&EP); [by left|]. rewrite EP.
  cbn [deref mbind outcome_bind]. rewrite IH by (intros q Hq; apply Hl; by right). cbn [mbind outcome_bind]. unfold cttys, has. cbn [omap list_omap].
  rewrite EP. cbn [mbind option_bind negb orb]. by destruct (negb _).
Qed.

(** What is logged when the process [p] gives up its session. *)
Definition hangup (p : loc) (w : pworld) : list pevent :=
  match psession w p ≫= fun s => sessions w !! s with
  | Some X =>
      if bool_decide (s_leader X = Some p) then
        match s_ttyvp X, s_ttyp X with
        | Some vp, Some t =>
            match ttys w !! t with
            | Some T =>
                if bool_decide (t_session T = psession w p) then
                  match t_pgrp T with Some g => cttys w SIGHUP (mem w g) | None => [] end ++ [Ttywait t; Vgoneall vp; Vrele vp]
                else [Vrele vp]
            | None => []
            end
        | _, _ => []
        end
      else []
  | None => []
  end.

Lemma exit_session_spec w p P : Inv w -> procs w !! p = Some P -> p <> initproc w ->
  exists ss tt, exit_session p w = Ok (add_plog (hangup p w) (set_ttys tt (set_sessions ss w)))
    /\ Inv (set_ttys tt (set_sessions ss w))
    /\ (forall s S, ss !! s = Some S -> s_leader S <> Some p)
    /\ (forall s S, ss !! s = Some S -> exists S0, sessions w !! s = Some S0 /\ (s_leader S = s_leader S0 \/ s_leader S0 = Some p) /\ s_login S = s_login S0).
Proof.
  intros HI EP Hi. destruct (SESS_LEADER_ok w p P HI EP) as (b&Eb&Hb). unfold exit_session, hangup. rewrite Eb. cbn [mbind outcome_bind].
  destruct (psession_of w p P HI EP) as (s&Es&Eps). rewrite Eps. cbn [mbind option_bind]. destruct b; cbn [negb].
  2: { exists (sessions w), (ttys w).
    assert (forall s S, sessions w !! s = Some S -> s_leader S <> Some p) as Hn.
    { intros x X EX El. assert (leads w p) as Hl; [|by apply Hb in Hl]. exists x, X. split_and!; [|done..].
      destruct (lo_leader _ w (inv_lead w HI) x X p EX El ltac:(done)) as (P'&g&G&EP'&_&Eg&EG&_&<-).
      rewrite (proj2 (pgof_Some w p g)) by eauto. cbn. apply sesof_Some. eauto. }
    destruct (sessions w !! s) as [S|] eqn:ES; cbn [mbind option_bind]; [rewrite bool_decide_false by by eapply Hn|];
      (split; [unfold add_plog; rewrite app_nil_r; by destruct w|]); (split; [by destruct w|]); split; [done|by eauto|done|by eauto]. }
  destruct (proj1 Hb eq_refl) as (s'&S&Es'&ES&El). change (psession w p = Some s') in Es'. rewrite Eps in Es'. injection Es' as <-.
  rewrite Es. cbn [deref mbind outcome_bind option_bind]. rewrite ES. cbn [deref mbind outcome_bind option_bind]. rewrite bool_decide_true by done.
  set (ss := <[s := mkSession (s_count S) None None (s_ttyp S) (s_login S)]> (sessions w)).
  assert (forall x X, ss !! x = Some X -> s_leader X <> Some p) as Hn.
  { intros x X EX. unfold ss in EX. apply lookup_insert_Some in EX as [(<-&<-)|(Hx&EX)]; [done|]. intros Elx.
    destruct (lo_leader _ w (inv_lead w HI) x X p EX Elx ltac:(done)) as (P1&g&G&EP1&_&Eg&EG&_&Ex). unfold psession in Eps.
    rewrite (proj2 (pgof_Some w p g)) in Eps by eauto. cbn in Eps. apply sesof_Some in Eps as (G'&?&?). simplify_eq. }
  assert (forall x X, ss !! x = Some X -> exists X0, sessions w !! x = Some X0 /\ (s_leader X = s_leader X0 \/ s_leader X0 = Some p) /\ s_login X = s_login X0) as Hb'.
  { intros x X EX. unfold ss in EX. apply lookup_insert_Some in EX as [(<-&<-)|(Hx&EX)]; [exists S|exists X]; split_and!; try done; [by right|by left]. }
  pose proof (inv_tty w HI) as HT. exists ss.
  destruct (s_ttyvp S) as [vp|] eqn:Ev.
  2: { exists (ttys w). cbn [mret outcome_ret mbind outcome_bind]. rewrite ES. cbn [deref mbind outcome_bind]. split; [|split; [|by split]].
    - unfold add_plog. rewrite app_nil_r. by destruct w.
    - apply (Inv_leaderless w s S p); [done..| |done]. intros t T ET. split; [|by right]. intros Et.
      destruct (tt_ses w HT t T s ET Et) as (S'&?&_&Hv&_). simplify_eq. rewrite Ev in Hv. by destruct Hv. }
  destruct (tt_vp w HT s S ES) as (t&Et); [rewrite Ev; by eexists|]. rewrite Et. cbn [deref mbind outcome_bind].
  destruct (tt_live w HT s S t ES Et) as (T&ET). rewrite ET. cbn [deref mbind outcome_bind].
  assert (forall u U, ttys w !! u = Some U -> t_session U = Some s -> u = t) as Huniq.
  { intros u U EU Eu. destruct (tt_ses w HT u U s EU Eu) as (S'&?&_&_&?). simplify_eq. congruence. }
  destruct (decide (t_session T = Some s)) as [Ets|Ets].
  - rewrite bool_decide_true by done. rewrite pgsignal_spec; [|intros g Eg|by eapply groups_live, (inv_groups w HI)].
    2: { destruct (tt_pgrp w HT t T g ET Eg) as (x&_&(G&EG&_)%sesof_Some). by eexists. }
    cbn [mbind outcome_bind]. unfold ttyclose. cbn [ttys add_plog]. rewrite ET. cbn [deref mret outcome_ret mbind outcome_bind sessions set_ttys add_plog].
    rewrite ES. cbn [deref mbind outcome_bind]. exists (<[t := mkTty None None]> (ttys w)). split_and!; [| |done|done].
    + do 2 f_equal. unfold add_plog. cbn. by rewrite <- !app_assoc.
    + apply (Inv_leaderless w s S p); [done..| |].
      * intros u U EU. apply lookup_insert_Some in EU as [(<-&<-)|(Hu&EU)]; [by split; [|left]|]. split; [|by right].
        intros Eu. by apply Hu, eq_sym, (Huniq u U).
      * intros u (U&EU). destruct (decide (u = t)) as [->|]; [rewrite lookup_insert_eq; by eexists|rewrite lookup_insert_ne by done; by eexists].
  - rewrite bool_decide_false by done. cbn [mret outcome_ret mbind outcome_bind sessions add_plog]. rewrite ES. cbn [deref mbind outcome_bind].
    exists (ttys w). split_and!; [done| |done|done].
    apply (Inv_leaderless w s S p); [done..| |done]. intros u U EU. split; [|by right]. intros Eu.
    assert (u = t) as -> by (by apply (Huniq u U)). simplify_eq.
Qed.

(** ** The children go to init *)

(** A child in init's hands. *)
Definition adopted (i : loc) (Q : proc) : proc :=
  set_p_flag (if has (p_flag Q) STRC then Z.land (p_flag Q) (Z.lnot STRC) else p_flag Q) (set_p_pptr (Some i) Q).

Definition kills (m : gmap loc proc) (l : list loc) : list pevent :=
  omap (fun q => Q ← m !! q; if has (p_flag Q) STRC then Some (Psignal q SIGKILL) else None) l.

Lemma kills_ext m m' l : (forall q, q ∈ l -> m !! q = m' !! q) -> kills m l = kills m' l.
Proof.
  induction l as [|q l IH]; intros H; [done|]. unfold kills in *. cbn [omap list_omap]. rewrite (H q) by by left.
  rewrite IH; [done|]. intros x Hx. apply H. by right.
Qed.

Lemma reparent_spec l w I : NoDup l -> initproc w ∉ l -> procs w !! initproc w = Some I ->
  (forall q, q ∈ l -> is_Some (procs w !! q)) ->
  exists m, reparent l w = Ok (add_plog (kills (procs w) l) (set_procs m w)) /\
    forall q, m !! q = if decide (q ∈ l) then adopted (initproc w) <$> procs w !! q
      else if decide (q = initproc w) then Some (set_p_cptr (reverse l ++ p_cptr I) I) else procs w !! q.
Proof.
  revert w I. induction l as [|c l IH]; intros w I Hnd Hi EI Hl; cbn [reparent].
  - exists (procs w). split; [unfold add_plog; cbn; rewrite app_nil_r; by destruct w|]. intros q.
    rewrite decide_False by by apply not_elem_of_nil. destruct (decide (q = initproc w)) as [->|]; [|done].
    rewrite EI. cbn. by destruct I.
  - apply list.NoDup_cons in Hnd as (Hc&Hnd). apply not_elem_of_cons in Hi as (Hic&Hi). rewrite EI. cbn [deref mbind outcome_bind].
    destruct (Hl c) as (C&EC); [by left|]. cbn [procs set_procs]. rewrite lookup_insert_ne, EC by done. cbn [deref mbind outcome_bind].
    set (m1 := <[c := adopted (initproc w) C]> (<[initproc w := set_p_cptr (c :: p_cptr I) I]> (procs w))).
    set (es := if has (p_flag C) STRC then [Psignal c SIGKILL] else []).
    assert (forall w0, (if has (p_flag C) STRC then add_plog [Psignal c SIGKILL] w0 else w0) = add_plog es w0) as He.
    { intros w0. unfold es. destruct (has (p_flag C) STRC); [done|]. unfold add_plog. rewrite app_nil_r. by destruct w0. }
    rewrite He.
    assert (forall q, m1 !! q = if decide (q = c) then Some (adopted (initproc w) C)
      else if decide (q = initproc w) then Some (set_p_cptr (c :: p_cptr I) I) else procs w !! q) as Hm1.
    { intros q. unfold m1. destruct (decide (q = c)) as [->|]; [by rewrite lookup_insert_eq|]. rewrite lookup_insert_ne by done.
      destruct (decide (q = initproc w)) as [->|]; [by rewrite lookup_insert_eq|by rewrite lookup_insert_ne]. }
    destruct (IH (add_plog es (set_procs m1 w)) (set_p_cptr (c :: p_cptr I) I)) as (m&Em&Hm); [done|done| | |].
    { cbn. rewrite Hm1, decide_False, decide_True by done. done. }
    { intros q Hq. cbn. rewrite Hm1. repeat case_decide; [by eexists..|]. apply Hl. by right. }
    exists m. split.
    + etransitivity; [exact Em|]. cbn [procs add_plog set_procs initproc] in *.
      rewrite (kills_ext m1 (procs w) l).
      2: { intros q Hq. rewrite Hm1, !decide_False; [done|by intros ->|by intros ->]. }
      unfold kills at 2. cbn [omap list_omap]. rewrite EC. cbn [mbind option_bind]. fold (kills (procs w) l).
      unfold add_plog, set_procs, es. cbn. rewrite <- app_assoc. by destruct (has (p_flag C) STRC).
    + intros q. rewrite Hm. cbn [procs add_plog set_procs initproc]. rewrite Hm1. cbn [p_cptr set_p_cptr].
      rewrite reverse_cons, <- app_assoc. cbn [app].
      destruct (decide (q ∈ l)) as [Hq|Hq].
      * rewrite (decide_True (P := q ∈ c :: l)) by by right. rewrite !decide_False; [done|by intros ->|by intros ->].
      * destruct (decide (q = initproc w)) as [->|Hqi].
        { rewrite (decide_False (P := initproc w ∈ c :: l)) by (by apply not_elem_of_cons). done. }
        destruct (decide (q = c)) as [->|Hqc]; [rewrite (decide_True (P := c ∈ c :: l)) by (by left); by rewrite EC|].
        rewrite (decide_False (P := q ∈ c :: l)) by (by apply not_elem_of_cons). done.
Qed.

(** The same processes in the same groups. *)
Lemma groups_ok_same E w w' : groups_ok None E w -> (forall x, pgof w' x = pgof w x) ->
  (forall x, is_Some (procs w' !! x) -> is_Some (procs w !! x)) ->
  pgrps w' = pgrps w -> pgrphash w' = pgrphash w -> sessions w' = sessions w -> groups_ok None E w'.
Proof.
  intros H Hg Hd E1 E2 E3. constructor; [| |rewrite E1; apply H|rewrite E1, E2; apply H|rewrite E1, E3; apply H|rewrite E1, E3; apply H].
  - intros x X EX _. destruct (Hd x (mk_is_Some _ _ EX)) as (X0&EX0).
    destruct (go_pgof _ _ w x X0 H EX0 ltac:(done)) as (h&K&Eh&_&EK&Hm). exists h, K. rewrite E1. split_and!; [|done..].
    rewrite <- Hg in Eh. apply pgof_Some in Eh as (X'&?&?). congruence.
  - intros h K EK. rewrite E1 in EK. destruct (go_mem _ _ w H h K EK) as (?&?&Hm). split_and!; [done..|]. intros x Hx.
    rewrite Hg. by apply Hm.
Qed.

(** ** kexit, once the session is given up *)

(** The rest of kexit. *)
Definition exit_tail (p g : loc) (rv : Z) (w : pworld) : outcome pworld :=
  w ← fixjobc p g false w;
  w ← exit_zombie p (add_plog [Limfree p] w);
  w ← exit_children p w;
  P ← deref (procs w !! p);
  q ← deref (p_pptr P);
  mret (add_plog [Psignal q SIGCHLD; Wakeup q; CpuExit p] (set_procs (<[p := exit_info rv P]> (procs w)) w)).

Section Exited.
Context (w : pworld) (p : loc) (P : proc) (g : loc) (G : pgrp) (I : proc) (q : loc) (rv : Z).
Hypothesis HI : Inv w.
Hypothesis EP : procs w !! p = Some P.
Hypothesis Hstat : p_stat P <> SZOMB.
Hypothesis Hp0 : p <> proc0 w.
Hypothesis Hi : p <> initproc w.
Hypothesis Eg : p_pgrp P = Some g.
Hypothesis EG : pgrps w !! g = Some G.
Hypothesis EI : procs w !! initproc w = Some I.
Hypothesis Eq : p_pptr P = Some q.
Hypothesis Hnl : forall s S, sessions w !! s = Some S -> s_leader S <> Some p.

Let T := targets w p g.
Definition ex_d (x : loc) : Z := - occZ x (targets w p g).
Definition ex_os : list loc := orphans w (targets w p g) (fun _ => 0).
Definition ex_log : list pevent :=
  (ex_os ≫= hup w) ++ [Limfree p] ++ (match p_cptr P with [] => [] | _ :: _ => [Wakeup (initproc w)] end)
  ++ kills (procs w) (p_cptr P) ++ [Psignal q SIGCHLD; Wakeup q; CpuExit p].
Definition ex_P : proc := exit_info rv (set_p_cptr [] (set_p_stat SZOMB P)).
Definition ex_w (fp : gmap loc proc) (l : list loc) (all : list loc) : pworld :=
  mkPworld fp (bump ex_d (pgrps w)) (sessions w) (ttys w) (<[PIDHASH (p_pid P) := l]> (pidhash w)) (pgrphash w)
    all (p :: zombproc w) (nprocs w) (proc0 w) (initproc w) (plog w ++ ex_log).

Lemma ex_child_ne c : c ∈ p_cptr P -> c <> p /\ c <> initproc w /\ c <> proc0 w.
Proof.
  pose proof (inv_tree w HI) as HT. intros Hc%(to_child w HT p P EP). split_and!; intros ->.
  - by apply (not_own_parent w p HT). - rewrite (to_init w HT) in Hc. congruence. - by rewrite (ppof_root w HT) in Hc.
Qed.

Record ex_fp (fp : gmap loc proc) : Prop := {
  ex_self : fp !! p = Some ex_P;
  ex_child : forall c, c ∈ p_cptr P -> fp !! c = adopted (initproc w) <$> procs w !! c;
  ex_init : fp !! initproc w = Some (set_p_cptr (reverse (p_cptr P) ++ p_cptr I) I);
  ex_other : forall x, x <> p -> x ∉ p_cptr P -> x <> initproc w -> fp !! x = procs w !! x;
}.

Lemma exit_tail_eq : exists fp l all, exit_tail p g rv w = Ok (ex_w fp l all) /\ ex_fp fp
  /\ unlink p (allproc w) = Some all /\ unlink p (chain (pidhash w) (PIDHASH (p_pid P))) = Some l.
Proof.
  pose proof (inv_tree w HI) as HT. pose proof (inv_procs w HI) as HP. pose proof (inv_groups w HI) as HG.
  assert (forall x X, procs w !! x = Some X -> exists h, pgof w x = Some h /\ is_Some (sesof w h)) as Hgr.
  { intros x X EX. destruct (proc_groups w x X HI EX) as (h&H&S&_&?&_&?&_). exists h. split; [done|by eexists]. }
  unfold exit_tail. replace (fixjobc p g false w) with (fixjobc p g false (mk w (fun _ => 0) [])) by (by rewrite mk_0).
  rewrite fixjobc_mk; [|by eapply groups_live|by apply (sesof_live w g G)| |].
  2: { destruct (to_parent w HT p P EP Hp0) as (q'&Q&Eq'&EQ&_). simplify_eq. destruct (Hgr q Q EQ) as (h&?&?). exists q, h.
       split_and!; [apply ppof_Some; eauto|done|done]. }
  2: { intros P' c EP' Hc. apply (to_child w HT p P' EP'), ppof_Some in Hc as (C&EC&_). by eapply Hgr. }
  destruct (adjusts w false (targets w p g) (fun _ => 0)) as [d es] eqn:Ea.
  assert (forall x, d x = ex_d x) as Hd.
  { intros x. pose proof (adjusts_delta w false (targets w p g) (fun _ => 0) x) as H. rewrite Ea in H. cbn in H. unfold ex_d. lia. }
  assert (es = ex_os ≫= hup w) as Hes. { pose proof (adjusts_log_leave w (targets w p g) (fun _ => 0)) as H. by rewrite Ea in H. }
  cbn [mbind outcome_bind app]. assert (mk w d es = mk w ex_d es) as -> by (unfold mk; by rewrite (bump_ext d ex_d (pgrps w) (fun x _ => Hd x))).
  destruct (unlink_spec p (allproc w)) as (all&Eall&_).
  { pose proof (po_nodup w HP) as Hn. by apply list.NoDup_app in Hn as (?&_). }
  { assert (p ∈ known w) as Hk by (apply (po_dom w HP); by eexists). apply elem_of_app in Hk as [|Hz]; [done|].
    by apply (po_zomb w HP p P EP) in Hz. }
  destruct (unlink_spec p (chain (pidhash w) (PIDHASH (p_pid P)))) as (l&El&_).
  { apply (po_hash w HP). } { apply (po_hash w HP). by exists P. }
  unfold exit_zombie. cbn [allproc mk add_plog set_pgrps]. rewrite Eall. cbn [deref mbind outcome_bind procs set_lists].
  change (procs (add_plog [Limfree p] (mk w ex_d es))) with (procs w).
  rewrite EP. cbn [deref mbind outcome_bind pidhash set_procs set_lists].
  change (pidhash (add_plog [Limfree p] (mk w ex_d es))) with (pidhash w). rewrite El. cbn [mret outcome_ret mbind outcome_bind].
  unfold exit_children. cbn [procs set_pidhash set_procs]. rewrite lookup_insert_eq. cbn [deref mbind outcome_bind p_cptr set_p_stat].
  set (w2 := set_pidhash _ _). assert (procs w2 = <[p := set_p_stat SZOMB P]> (procs w)) as Ew2 by done.
  change (initproc w2) with (initproc w).
  assert (forall c, c ∈ p_cptr P -> procs w2 !! c = procs w !! c) as Hc2.
  { intros c Hc. rewrite Ew2, lookup_insert_ne; [done|]. intros <-. by destruct (ex_child_ne p Hc) as (?&_). }
  set (w3 := match p_cptr P with [] => w2 | _ :: _ => add_plog [Wakeup (initproc w)] w2 end).
  assert (w3 = add_plog (match p_cptr P with [] => [] | _ :: _ => [Wakeup (initproc w)] end) w2) as Ew3.
  { unfold w3. destruct (p_cptr P); [|done]. unfold add_plog. rewrite app_nil_r. by destruct w2. }
  rewrite Ew3. set (wk := match p_cptr P with [] => [] | _ :: _ => [Wakeup (initproc w)] end).
  destruct (reparent_spec (p_cptr P) (add_plog wk w2) I) as (m&->&Hm).
  { by apply (to_child w HT p P EP). } { intros Hin. by destruct (ex_child_ne (initproc w) Hin) as (_&?&_). }
  { cbn. by rewrite lookup_insert_ne. }
  { intros c Hc. change (procs (add_plog wk w2)) with (procs w2). rewrite Hc2 by done.
    apply (to_child w HT p P EP), ppof_Some in Hc as (C&EC&_). by eexists. }
  change (procs (add_plog wk w2)) with (procs w2) in *. change (initproc (add_plog wk w2)) with (initproc w) in *.
  cbn [mbind outcome_bind procs add_plog set_procs].
  assert (p ∉ p_cptr P) as Hpc by (intros Hin; by destruct (ex_child_ne p Hin) as (?&_)).
  assert (m !! p = Some (set_p_stat SZOMB P)) as Emp.
  { rewrite Hm, !decide_False by done. by rewrite Ew2, lookup_insert_eq. }
  rewrite Emp. cbn [deref mret outcome_ret mbind outcome_bind procs add_plog set_procs]. rewrite lookup_insert_eq.
  cbn [deref mret outcome_ret mbind outcome_bind p_pptr set_p_cptr set_p_stat]. rewrite Eq.
  cbn [deref mret outcome_ret mbind outcome_bind].
  eexists _, l, all. split; [|split; [|done]].
  - f_equal. unfold ex_w. rewrite (kills_ext (procs w2) (procs w)) by done. 
    cbv [w2 mk add_plog set_procs set_pidhash set_lists set_pgrps procs pgrps sessions ttys pidhash pgrphash allproc zombproc nprocs proc0 initproc plog].
    f_equal. unfold ex_log. rewrite <- Hes, <- !app_assoc. done.
  - constructor.
    + by rewrite lookup_insert_eq.
    + intros c Hc. assert (c <> p) by (by apply (ex_child_ne c)). rewrite !lookup_insert_ne by done.
      rewrite Hm, decide_True by done. by rewrite Hc2.
    + rewrite !lookup_insert_ne by done. rewrite Hm, decide_False, decide_True; [done..|]. intros Hin. by destruct (ex_child_ne (initproc w) Hin) as (_&?&_).
    + intros x Hx Hxc Hxi. rewrite !lookup_insert_ne by done. rewrite Hm, !decide_False by done. by rewrite Ew2, lookup_insert_ne.
Qed.

Section Gone.
Context (fp : gmap loc proc) (l all : list loc).
Hypothesis Hfp : ex_fp fp.
Hypothesis Hall : unlink p (allproc w) = Some all.
Hypothesis Hl : unlink p (chain (pidhash w) (PIDHASH (p_pid P))) = Some l.

Let w' := ex_w fp l all.

(** A process of the new world is one of the old, with its id and group. *)
Lemma ex_back x X : fp !! x = Some X -> exists X0, procs w !! x = Some X0 /\ p_pid X = p_pid X0 /\ p_pgrp X = p_pgrp X0
  /\ (x <> p -> p_stat X = p_stat X0 /\ p_ru X = p_ru X0)
  /\ p_pptr X = (if decide (x ∈ p_cptr P) then Some (initproc w) else p_pptr X0)
  /\ p_cptr X = (if decide (x = p) then [] else if decide (x = initproc w) then reverse (p_cptr P) ++ p_cptr X0 else p_cptr X0).
Proof.
  intros EX. destruct (decide (x ∈ p_cptr P)) as [Hx|Hx].
  - rewrite (ex_child _ Hfp x Hx) in EX. apply fmap_Some in EX as (X0&EX0&->). exists X0.
    destruct (ex_child_ne x Hx) as (?&?&_). rewrite !decide_False by done. done.
  - destruct (decide (x = p)) as [->|Hxp]; [rewrite (ex_self _ Hfp) in EX; injection EX as <-; by exists P|].
    destruct (decide (x = initproc w)) as [->|Hxi].
    + rewrite (ex_init _ Hfp) in EX. injection EX as <-. by exists I.
    + rewrite (ex_other _ Hfp) in EX by done. by exists X.
Qed.

Lemma ex_fwd x X0 : procs w !! x = Some X0 -> exists X, fp !! x = Some X.
Proof.
  intros EX. destruct (decide (x ∈ p_cptr P)) as [Hx|Hx]; [rewrite (ex_child _ Hfp x Hx), EX; by eexists|].
  destruct (decide (x = p)) as [->|Hxp]; [rewrite (ex_self _ Hfp); by eexists|].
  destruct (decide (x = initproc w)) as [->|Hxi]; [rewrite (ex_init _ Hfp); by eexists|].
  rewrite (ex_other _ Hfp) by done. by eexists.
Qed.

Lemma ex_fwd' x X0 : procs w !! x = Some X0 -> exists X, fp !! x = Some X /\ p_pid X = p_pid X0 /\ p_pgrp X = p_pgrp X0
  /\ (x <> p -> p_stat X = p_stat X0 /\ p_ru X = p_ru X0)
  /\ p_pptr X = (if decide (x ∈ p_cptr P) then Some (initproc w) else p_pptr X0)
  /\ p_cptr X = (if decide (x = p) then [] else if decide (x = initproc w) then reverse (p_cptr P) ++ p_cptr X0 else p_cptr X0).
Proof.
  intros EX. destruct (ex_fwd x X0 EX) as (X&EX'). exists X. split; [done|].
  destruct (ex_back x X EX') as (X1&EX1&H). simplify_eq. exact H.
Qed.

Lemma ex_pgof x : pgof w' x = pgof w x.
Proof.
  unfold pgof. change (procs w') with fp. destruct (procs w !! x) as [X|] eqn:EX.
  - destruct (ex_fwd' x X EX) as (X'&->&_&E&_). cbn. by rewrite E.
  - destruct (fp !! x) as [X'|] eqn:EX'; [|done]. destruct (ex_back x X' EX') as (X0&?&_). congruence.
Qed.

Lemma ex_ppof x : ppof w' x = if decide (x ∈ p_cptr P) then Some (initproc w) else ppof w x.
Proof.
  unfold ppof. change (procs w') with fp. destruct (procs w !! x) as [X|] eqn:EX.
  - destruct (ex_fwd' x X EX) as (X'&->&_&_&_&E&_). cbn. by rewrite E.
  - destruct (fp !! x) as [X'|] eqn:EX'; [destruct (ex_back x X' EX') as (X0&?&_); congruence|].
    rewrite decide_False; [done|]. intros Hx. apply (to_child w (inv_tree w HI) p P EP), ppof_Some in Hx as (?&?&_). congruence.
Qed.

Lemma ex_sesof h : sesof w' h = sesof w h.
Proof. unfold sesof, w'. cbn. rewrite lookup_bump. by destruct (pgrps w !! h). Qed.

Lemma ex_alive x : alive w' x = if decide (x = p) then false else alive w x.
Proof.
  unfold alive. change (procs w') with fp. destruct (decide (x = p)) as [->|Hx]; [by rewrite (ex_self _ Hfp)|].
  destruct (procs w !! x) as [X|] eqn:EX.
  - destruct (ex_fwd' x X EX) as (X'&->&_&_&Hs&_). destruct (Hs Hx) as (->&_). done.
  - destruct (fp !! x) as [X'|] eqn:EX'; [|done]. destruct (ex_back x X' EX') as (X0&?&_). congruence.
Qed.

Lemma ex_known : known w' ≡ₚ known w.
Proof.
  pose proof (unlink_perm p _ _ Hall) as Hp. unfold known, w'. cbn. rewrite Hp. cbn. by rewrite <- Permutation_middle.
Qed.

Lemma ex_procs : procs_ok w'.
Proof.
  pose proof (inv_procs w HI) as H. constructor.
  - rewrite ex_known. apply H.
  - intros x. rewrite ex_known, (po_dom w H). split; intros (X&EX).
    + destruct (ex_fwd x X EX) as (X'&?). by eexists.
    + destruct (ex_back x X EX) as (X0&?&_). by eexists.
  - intros x X EX. change (zombproc w') with (p :: zombproc w). rewrite elem_of_cons.
    destruct (decide (x = p)) as [->|Hx].
    + change (fp !! p = Some X) in EX. rewrite (ex_self _ Hfp) in EX. injection EX as <-. split; [done|by left].
    + destruct (ex_back x X EX) as (X0&EX0&_&_&Hs&_). destruct (Hs Hx) as (->&_). rewrite <- (po_zomb w H x X0 EX0). naive_solver.
  - change (nprocs w') with (nprocs w). rewrite (po_n w H). by rewrite (Permutation_length ex_known).
  - intros a b A B EA EB. destruct (ex_back a A EA) as (A0&EA0&->&_), (ex_back b B EB) as (B0&EB0&->&_). by apply (po_pid w H a b A0 B0).
  - intros x X EX. destruct (ex_back x X EX) as (X0&EX0&->&_). exact (po_range w H x X0 EX0).
  - destruct (hashes_delete (pidhash w) (procs w) fp p_pid (fun x X => p_stat X <> SZOMB /\ x <> proc0 w)
      (fun x X => p_stat X <> SZOMB /\ x <> proc0 w) p P) as (l'&El'&Hh); [apply H|done|done| |by simplify_eq].
    intros x n. split.
    + intros (X&EX&(Hz&?)&En). destruct (ex_back x X EX) as (X0&EX0&Epid&_&Hs&_).
      assert (x <> p) as Hx. { intros ->. rewrite (ex_self _ Hfp) in EX. injection EX as <-. done. }
      split; [done|]. exists X0. destruct (Hs Hx) as (Hs'&_). rewrite <- Hs', <- Epid. done.
    + intros (Hx&X0&EX0&(?&?)&<-). destruct (ex_fwd' x X0 EX0) as (X&EX&Epid&_&Hs&_). destruct (Hs Hx) as (Hs'&_).
      exists X. rewrite Hs', Epid. done.
Qed.

Lemma ex_tree : tree_ok w'.
Proof.
  pose proof (inv_tree w HI) as HT.
  assert (p_stat I <> SZOMB) as HsI.
  { destruct (leads_init w HI) as (s&S&_&ES&El). destruct (lo_leader _ w (inv_lead w HI) s S _ ES El ltac:(done)) as (I'&?&?&?&?&_). by simplify_eq. }
  assert (forall x X, procs w !! x = Some X -> x <> p -> p_stat X <> SZOMB ->
    exists X', procs w' !! x = Some X' /\ p_stat X' <> SZOMB /\ forall c, c ∈ p_cptr X -> c ∈ p_cptr X') as Hpar.
  { intros x X EX Hx Hs. destruct (ex_fwd' x X EX) as (X'&EX'&_&_&Hs'&_&Ec). destruct (Hs' Hx) as (Es&_).
    exists X'. rewrite Es. split_and!; [done..|]. intros c Hc. rewrite Ec, decide_False by done.
    destruct (decide (x = initproc w)); [|done]. apply elem_of_app. by right. }
  constructor.
  - intros x X EX Hx0. destruct (ex_back x X EX) as (X0&EX0&_&_&_&Epp&_). destruct (decide (x ∈ p_cptr P)) as [Hx|Hx].
    + destruct (ex_fwd' (initproc w) I EI) as (I'&EI'&_&_&Hs&_&Ec). destruct (Hs ltac:(done)) as (Es&_).
      exists (initproc w), I'. rewrite Es, Ec, decide_False, decide_True by done. split_and!; [done..|].
      apply elem_of_app. left. by apply elem_of_reverse.
    + destruct (to_parent w HT x X0 EX0 Hx0) as (r&R&Er&ER&Hs&Hin). rewrite Epp, Er.
      destruct (Hpar r R ER) as (R'&?&?&Hc); [|done|].
      { intros ->. apply Hx. by simplify_eq. }
      exists r, R'. split_and!; [done..|by apply Hc].
  - destruct (to_root w HT) as (R&ER&Er&Hs). destruct (Hpar _ R ER) as (R'&ER'&?&_); [congruence|done|].
    exists R'. split; [done|]. split; [|done]. pose proof (ex_ppof (proc0 w)) as Hpp. unfold ppof in Hpp at 1. rewrite ER' in Hpp. cbn in Hpp.
    rewrite Hpp, decide_False; [by apply ppof_root|]. intros Hin. by destruct (ex_child_ne _ Hin) as (_&_&?).
  - intros x X EX. destruct (ex_back x X EX) as (X0&EX0&_&_&_&_&Ec). destruct (to_child w HT x X0 EX0) as (Hnd&Hc).
    rewrite Ec. destruct (decide (x = p)) as [->|Hx]; [split; [apply NoDup_nil_2|by intros c ?%not_elem_of_nil]|].
    destruct (to_child w HT p P EP) as (HndP&HcP).
    assert (forall c, c ∈ p_cptr X0 -> c ∉ p_cptr P) as Hdis. { intros c H1%Hc H2%HcP. congruence. }
    destruct (decide (x = initproc w)) as [->|Hxi].
    + split.
      * apply list.NoDup_app. split_and!; [by rewrite reverse_Permutation| |done].
        intros c H1 H2. rewrite elem_of_reverse in H1. exact (Hdis c H2 H1).
      * intros c. rewrite elem_of_app, elem_of_reverse, ex_ppof. intros [Hin|Hin]; [by rewrite decide_True|].
        rewrite decide_False by by apply Hdis. by apply Hc.
    + split; [done|]. intros c Hin. rewrite ex_ppof, decide_False by by apply Hdis. by apply Hc.
  - assert (ppof w' (initproc w) = Some (proc0 w)) as Hip.
    { rewrite ex_ppof, decide_False; [apply (to_init w HT)|]. intros Hin. by destruct (ex_child_ne _ Hin) as (_&?&_). }
    assert (forall x, rtc (fun a b => ppof w a = Some b) x (proc0 w) -> rtc (fun a b => ppof w' a = Some b) x (proc0 w)) as Hr.
    { apply (rtc_ind_l (fun x => rtc (fun a b => ppof w' a = Some b) x (proc0 w))); [apply rtc_refl|]. intros x y Hxy _ IH.
      destruct (decide (x ∈ p_cptr P)) as [Hin|Hin].
      - eapply rtc_l; [by rewrite ex_ppof, decide_True|]. eapply rtc_l; [exact Hip|apply rtc_refl].
      - eapply rtc_l; [by rewrite ex_ppof, decide_False|done]. }
    intros x X EX. destruct (ex_back x X EX) as (X0&EX0&_). apply Hr. exact (to_reach w HT x X0 EX0).
  - change (ppof w' (initproc w) = Some (proc0 w)). rewrite ex_ppof, decide_False; [apply (to_init w HT)|].
    intros Hin. by destruct (ex_child_ne _ Hin) as (_&?&_).
Qed.

Lemma ex_groups : groups_ok None [] w'.
Proof.
  apply (groups_ok_same [] (mk w ex_d [])); [by apply groups_ok_mk, HI|exact ex_pgof| |done..].
  intros x (X&EX). destruct (ex_back x X EX) as (X0&?&_). by eexists.
Qed.

Lemma ex_lead : lead_ok None w'.
Proof.
  pose proof (inv_lead w HI) as H.
  assert (forall h K, pgrps w' !! h = Some K -> exists K0, pgrps w !! h = Some K0 /\ pg_id K = pg_id K0 /\ pg_session K = pg_session K0) as Hb.
  { intros h K EK. cbn in EK. rewrite lookup_bump in EK. apply fmap_Some in EK as (K0&EK0&->). by exists K0. }
  assert (forall h K0, pgrps w !! h = Some K0 -> exists K, pgrps w' !! h = Some K /\ pg_id K = pg_id K0 /\ pg_session K = pg_session K0) as Hn.
  { intros h K0 EK. cbn. rewrite lookup_bump, EK. by eexists. }
  constructor.
  - intros s S x ES El _. destruct (lo_leader _ w H s S x ES El ltac:(done)) as (X0&h&K0&EX0&?&?&EK&?&?).
    assert (x <> p) as Hx by (intros ->; by apply (Hnl s S)).
    destruct (ex_fwd' x X0 EX0) as (X&EX&?&?&Hs&_), (Hn h K0 EK) as (K&?&?&?). destruct (Hs Hx) as (?&_).
    exists X, h, K. split_and!; congruence || done.
  - intros x X h K EX EK Eid _. destruct (ex_back x X EX) as (X0&EX0&?&Epg&_), (Hb h K EK) as (K0&EK0&?&?).
    destruct (lo_own _ w H x X0 h K0 EX0 EK0) as (k&?&?); [congruence|done|]. exists k. rewrite ex_sesof. split; congruence.
  - destruct (lo_init _ w H) as (I0&h&s&S&EI0&?&?&?&?&?&_). destruct (ex_fwd' _ I0 EI0) as (I'&EI'&?&?&_).
    exists I', h, s, S. rewrite ex_sesof. change (initproc w') with (initproc w). split_and!; congruence || done.
Qed.

Lemma ex_tty : tty_ok w'.
Proof.
  pose proof (inv_tty w HI) as H. constructor; [|apply H..]. intros t U h EU Eh.
  destruct (tt_pgrp w H t U h EU Eh) as (s&?&?). exists s. by rewrite ex_sesof.
Qed.

Lemma ex_init_session : init_session w' = init_session w.
Proof.
  unfold init_session. change (initproc w') with (initproc w). rewrite ex_pgof.
  destruct (pgof w (initproc w)); cbn [mbind option_bind]; [apply ex_sesof|done].
Qed.

(** A group outside init's session loses the process, and the children of the process that
    were of another group of the session. *)
Lemma ex_jobs x X : pgrps w !! x = Some X -> sesof w x <> init_session w -> jobs w' x = jobs w x - occZ x (targets w p g).
Proof.
  intros EX Hx. pose proof (inv_procs w HI) as HP. pose proof (inv_tree w HI) as HT.
  rewrite (jobs_split w p P x HP HT EP), (occ_targets w p P g x EP Hstat); [|apply pgof_Some; eauto|apply (to_child w HT p P EP)].
  unfold jobs. rewrite (sumZ_perm _ _ _ ex_known), (sumZ_perm _ _ _ (known_split w p P HP HT EP)), sumZ_cons, sumZ_app.
  assert (qual w' x p = false) as ->.
  { unfold qual. rewrite ex_alive, decide_True by done. by rewrite andb_false_r. }
  rewrite (sumZ_0 _ (p_cptr P)).
  2: { intros c Hc. unfold qual. rewrite ex_ppof, decide_True by done. cbn [mbind option_bind]. rewrite !ex_pgof.
    unfold init_session in Hx. destruct (pgof w (initproc w)) as [h|] eqn:Eh; cbn [mbind option_bind] in Hx; [|by rewrite andb_false_r].
    rewrite !ex_sesof, (bool_decide_false (sesof w h = sesof w x)) by done. by rewrite !andb_false_r. }
  rewrite (sumZ_ext (fun y => Z.b2z (qual w' x y)) (fun y => Z.b2z (qual w x y)) (rest w p)); [cbn [Z.b2z]; lia|].
  intros y Hy. unfold rest in Hy. apply list_elem_of_filter in Hy as ((Hyp&Hpp)&_). f_equal. unfold qual.
  rewrite ex_pgof, ex_alive, ex_ppof, !decide_False; [|by intros Hc%(to_child w HT p P EP)|done].
  destruct (ppof w y) as [r|]; cbn [mbind option_bind]; [|done]. rewrite ex_pgof. destruct (pgof w r); [|done]. by rewrite !ex_sesof.
Qed.

Lemma ex_Inv : Inv w'.
Proof.
  constructor; [exact ex_procs|exact ex_tree|exact ex_groups|exact ex_lead|exact ex_tty| |].
  - intros x X EX. rewrite ex_init_session, ex_sesof. intros Hx. cbn in EX. rewrite lookup_bump in EX.
    apply fmap_Some in EX as (X0&EX0&->). rewrite (ex_jobs x X0) by done. cbn. unfold ex_d.
    rewrite (inv_jobs w HI x X0 EX0 Hx). lia.
  - intros x X EX Hz. destruct (decide (x = p)) as [->|Hx].
    + change (fp !! p = Some X) in EX. rewrite (ex_self _ Hfp) in EX. injection EX as <-. by eexists.
    + destruct (ex_back x X EX) as (X0&EX0&_&_&Hs&_). destruct (Hs Hx) as (Es&->). rewrite Es in Hz. exact (inv_ru w HI x X0 EX0 Hz).
Qed.

(** The groups orphaned by the exit. *)
Lemma ex_orphans : sesof w g <> init_session w ->
  NoDup ex_os /\ forall x, x ∈ ex_os <-> sesof w x = sesof w g /\ 0 < jobs w x /\ jobs w' x = 0.
Proof.
  intros Hses. pose proof (inv_procs w HI) as HP. pose proof (inv_tree w HI) as HT.
  assert (forall x, occZ x (targets w p g) <= jobs w x) as Hle.
  { intros x. apply (occ_le_jobs w p P g x HP HT EP Hstat). apply pgof_Some. eauto. }
  assert (forall x, x ∈ targets w p g -> jobc w x = jobs w x) as Hex by (intros x; apply (jobc_targets w p g G); [apply HI|done..]).
  assert (forall x, sesof w x = sesof w g -> jobs w' x = jobs w x - occZ x (targets w p g)) as Hj.
  { intros x Hx. destruct (sesof_live w g G EG) as (s&Eg'). pose proof Hx as Hx'. rewrite Eg' in Hx'. apply sesof_Some in Hx' as (X&EX&_).
    apply (ex_jobs x X EX). by rewrite Hx. }
  destruct (orphans_spec w (targets w p g) (fun _ => 0)) as (Hnd&Hm).
  { intros x Hx. rewrite Hex by done. pose proof (Hle x). lia. }
  split; [done|]. intros x. unfold ex_os. rewrite Hm. split.
  - intros (Hx&E). pose proof (targets_session w p g x Hx) as Hs. rewrite Hex in E by done. rewrite (Hj x Hs). pose proof (occZ_pos x _ Hx).
    split; [done|]. lia.
  - intros (Hs&H1&H2). rewrite (Hj x Hs) in H2. assert (x ∈ targets w p g) as Hx.
    { destruct (decide (x ∈ targets w p g)) as [|Hn]; [done|]. rewrite (occZ_zero x _ Hn) in H2. lia. }
    split; [done|]. rewrite Hex by done. lia.
Qed.
End Gone.
End Exited.

(** What kexit leaves: a zombie with its status and usage; its children are
    init's; the groups it orphans are told; everything else is as before. *)
Record exited (p : loc) (rv : Z) (P : proc) (w w' : pworld) : Prop := {
  xt_self : exists P', procs w' !! p = Some P' /\ p_stat P' = SZOMB /\ p_xstat P' = u16 rv /\ p_cptr P' = []
    /\ p_pid P' = p_pid P /\ p_pptr P' = p_pptr P
    /\ p_ru P' = Some (Resource.ruadd (Resource.mkRusage (p_utime P) (p_stime P) (Resource.ru_maxrss (p_sru P)) (Resource.ru_longs (p_sru P))) (p_cru P));
  xt_children : forall c, c ∈ p_cptr P -> ppof w' c = Some (initproc w)
    /\ exists C C', procs w !! c = Some C /\ procs w' !! c = Some C' /\ p_stat C' = p_stat C /\ has (p_flag C') STRC = false;
  xt_init : exists I I', procs w !! initproc w = Some I /\ procs w' !! initproc w = Some I' /\ p_cptr I' = reverse (p_cptr P) ++ p_cptr I;
  xt_others : forall x, x <> p -> x ∉ p_cptr P -> x <> initproc w -> procs w' !! x = procs w !! x;
  xt_groups : forall x, pgof w' x = pgof w x;
  xt_sesof : forall h, sesof w' h = sesof w h;
  xt_leader : forall s S, sessions w' !! s = Some S -> s_leader S <> Some p
    /\ exists S0, sessions w !! s = Some S0 /\ (s_leader S = s_leader S0 \/ s_leader S0 = Some p);
  xt_lists : zombproc w' = p :: zombproc w /\ allproc w ≡ₚ p :: allproc w' /\ nprocs w' = nprocs w
    /\ proc0 w' = proc0 w /\ initproc w' = initproc w;
  xt_log : exists os q, p_pptr P = Some q /\
    plog w' = plog w ++ [Acct p; Untimeout p; Fdfree p] ++ hangup p w ++ (os ≫= hup w) ++ [Limfree p]
      ++ (match p_cptr P with [] => [] | _ :: _ => [Wakeup (initproc w)] end) ++ kills (procs w) (p_cptr P)
      ++ [Psignal q SIGCHLD; Wakeup q; CpuExit p] /\
    (psession w p <> init_session w ->
       NoDup os /\ forall x, x ∈ os <-> sesof w x = psession w p /\ 0 < jobs w x /\ jobs w' x = 0);
}.

Definition exiting (P : proc) : proc := set_p_flag (Z.lor (Z.land (p_flag P) (Z.lnot (Z.lor STRC SPPWAIT))) SWEXIT) P.

Lemma exiting_ctty P : has (p_flag (exiting P)) SCTTY = has (p_flag P) SCTTY.
Proof.
  unfold has. cbn. rewrite Z.land_lor_distr_l, <- Z.land_assoc. change (Z.land SWEXIT SCTTY) with 0.
  change (Z.land (Z.lnot (Z.lor STRC SPPWAIT)) SCTTY) with SCTTY. by rewrite Z.lor_0_r.
Qed.

Lemma cttys_ext w w' sig l : (forall x, match procs w' !! x with Some X => has (p_flag X) SCTTY | None => false end
    = match procs w !! x with Some X => has (p_flag X) SCTTY | None => false end) -> cttys w' sig l = cttys w sig l.
Proof.
  intros H. induction l as [|x l IH]; [done|]. unfold cttys in *. cbn [omap list_omap]. rewrite IH. specialize (H x).
  destruct (procs w' !! x), (procs w !! x); cbn [mbind option_bind]; by rewrite ?H || rewrite <- ?H.
Qed.

Lemma upd_views w p P P0 : procs w !! p = Some P0 -> same_id P P0 -> p_pgrp P = p_pgrp P0 ->
  (forall x, pgof (upd p P w) x = pgof w x) /\ (forall x, psession (upd p P w) x = psession w x)
  /\ (forall x, stopped (upd p P w) x = stopped w x).
Proof.
  intros E0 (_&Es&_) Hg.
  assert (forall x, pgof (upd p P w) x = pgof w x) as H1.
  { intros x. rewrite pgof_upd. case_decide; [|done]. subst. unfold pgof. by rewrite E0. }
  split_and!; [done| |].
  - intros x. unfold psession. by rewrite H1.
  - intros x. unfold stopped. rewrite procs_upd_lookup. case_decide; [|done]. subst. by rewrite E0, Es.
Qed.

Lemma hup_ext w w' x : (forall q, stopped w' q = stopped w q) -> mem w' x = mem w x -> hup w' x = hup w x.
Proof.
  intros Hs Hm. unfold hup. rewrite Hm. assert (existsb (stopped w') (mem w x) = existsb (stopped w) (mem w x)) as ->; [|done].
  clear Hm. induction (mem w x) as [|y l IH]; [done|]. cbn. by rewrite Hs, IH.
Qed.

Lemma init_pid w p P : Inv w -> procs w !! p = Some P -> (p_pid P = 1 <-> p = initproc w).
Proof.
  intros HI EP. destruct (lo_init _ w (inv_lead w HI)) as (I&_&_&_&EI&Epid&_). split.
  - intros E. apply (po_pid w (inv_procs w HI) _ _ P I); congruence.
  - intros ->. congruence.
Qed.

Lemma kexit_ok w p P rv : Inv w -> procs w !! p = Some P -> p_stat P <> SZOMB -> p <> proc0 w ->
  (p = initproc w /\ kexit p rv w = Panic "init died") \/
  (p <> initproc w /\ exists w', kexit p rv w = Ok w' /\ Inv w' /\ exited p rv P w w').
Proof.
  intros HI EP Hs Hp0. unfold kexit. rewrite EP. cbn [deref mbind outcome_bind].
  destruct (Z.eqb_spec (p_pid P) 1) as [E1|E1]; [left; split; [by apply (init_pid w p P HI EP)|done]|right].
  assert (p <> initproc w) as Hi by (intros E; by apply E1, (init_pid w p P HI EP)). split; [done|].
  match goal with |- context [exit_session p ?x] => set (w1 := x) end.
  assert (w1 = add_plog [Untimeout p; Fdfree p] (upd p (exiting P) (add_plog [Acct p] w))) as Ew1 by done.
  assert (Inv w1) as HI1. { rewrite Ew1. apply Inv_log, (Inv_upd _ p (exiting P) P); [by apply Inv_log|done..]. }
  assert (procs w1 !! p = Some (exiting P)) as EP1 by (rewrite Ew1; cbn; by rewrite lookup_insert_eq).
  assert (forall x, x <> p -> procs w1 !! x = procs w !! x) as Hw1 by (intros x Hx; rewrite Ew1; cbn; by rewrite lookup_insert_ne).
  destruct (upd_views w p (exiting P) P EP) as (Hv1&Hv2&Hv3); [done..|].
  assert (hangup p w1 = hangup p w) as Hh.
  { unfold hangup. change (psession w1 p) with (psession (upd p (exiting P) w) p). rewrite Hv2.
    change (sessions w1) with (sessions w). change (ttys w1) with (ttys w). change (mem w1) with (mem w).
    assert (forall sig l, cttys w1 sig l = cttys w sig l) as Hc; [|repeat case_match; by rewrite ?Hc].
    intros sig l. apply cttys_ext. intros x. destruct (decide (x = p)) as [->|]; [|by rewrite Hw1].
    by rewrite EP1, EP, exiting_ctty. }
  destruct (exit_session_spec w1 p (exiting P) HI1 EP1 Hi) as (ss&tt&->&HI2&Hnl&Hses). cbn [mbind outcome_bind]. rewrite Hh.
  set (w2 := add_plog (hangup p w) (set_ttys tt (set_sessions ss w1))).
  assert (Inv w2) as HI2' by by apply Inv_log.
  destruct (proc_groups w p P HI EP) as (g&G&S&Eg&Epg&EG&Es&_).
  assert (group_of p w2 = Ok g) as ->. { apply group_of_eq. change (pgof (upd p (exiting P) w) p = Some g). by rewrite Hv1. }
  cbn [mbind outcome_bind]. change (procs w2) with (procs w1).
  destruct (lo_init _ w2 (inv_lead w2 HI2')) as (I&_&_&_&EI&_). change (initproc w2) with (initproc w) in EI.
  destruct (to_parent w (inv_tree w HI) p P EP Hp0) as (q&Q&Eq&_).
  destruct (exit_tail_eq w2 p (exiting P) g G I q rv) as (fp&l&all&Et&Hfp&Eall&El); [done..|].
  change (exists w', exit_tail p g rv w2 = Ok w' /\ Inv w' /\ exited p rv P w w'). rewrite Et.
  eexists. split; [done|]. split; [exact (ex_Inv w2 p (exiting P) g I q rv HI2' EP1 Hs Hp0 Hi Eg EI Eq Hnl fp l all Hfp Eall El)|].
  assert (p ∉ p_cptr P) as Hpc. { intros Hin. by apply (not_own_parent w p (inv_tree w HI)), (to_child w (inv_tree w HI) p P EP). }
  assert (forall c, c ∈ p_cptr P -> exists C, procs w !! c = Some C /\ fp !! c = Some (adopted (initproc w) C)) as Hch.
  { intros c Hc. pose proof Hc as Hc'. apply (to_child w (inv_tree w HI) p P EP), ppof_Some in Hc' as (C&EC&_). exists C. split; [done|].
    rewrite (ex_child _ _ _ _ _ _ Hfp c Hc). change (procs w2 !! c) with (procs w1 !! c). rewrite Hw1 by (by intros ->). by rewrite EC. }
  constructor.
  - exists (ex_P (exiting P) rv). split; [exact (ex_self _ _ _ _ _ _ Hfp)|done].
  - intros c Hc. destruct (Hch c Hc) as (C&EC&EC'). split; [apply ppof_Some; by eexists|]. exists C. eexists. split_and!; [done..|].
    unfold adopted, has. cbn. destruct (Z.land (p_flag C) STRC =? 0) eqn:Ef; cbn [negb]; [by rewrite Ef|].
    by rewrite <- Z.land_assoc, Z.land_0_r.
  - destruct (lo_init _ w (inv_lead w HI)) as (I0&_&_&_&EI0&_). rewrite <- (Hw1 (initproc w)) in EI0 by done. change (procs w2) with (procs w1) in EI. 
    rewrite EI0 in EI. injection EI as <-. rewrite Hw1 in EI0 by done. exists I0. eexists. split; [done|]. split; [exact (ex_init _ _ _ _ _ _ Hfp)|done].
  - intros x Hx Hc Hxi. change (procs (ex_w w2 p (exiting P) g q fp l all) !! x) with (fp !! x). rewrite (ex_other _ _ _ _ _ _ Hfp) by done. by apply Hw1.
  - intros x. rewrite (ex_pgof w2 p (exiting P) g I q rv HI2' EP1 Hp0 EI fp l all Hfp). apply Hv1.
  - intros h. by rewrite (ex_sesof w2 p (exiting P) g).
  - intros s X EX. split; [exact (Hnl s X EX)|]. destruct (Hses s X EX) as (X0&?&?&_). by exists X0.
  - split_and!; [done| |done..]. exact (unlink_perm p (allproc w) all Eall).
  - exists (ex_os w2 p g), q. split; [done|]. split.
    + change (plog (ex_w w2 p (exiting P) g q fp l all)) with (plog w2 ++ ex_log w2 p (exiting P) g q).
      unfold ex_log. change (p_cptr (exiting P)) with (p_cptr P). change (initproc w2) with (initproc w). change (procs w2) with (procs w1).
      rewrite (kills_ext (procs w1) (procs w)) by (intros c Hc; apply Hw1; by intros ->).
      rewrite (orphans_hup w2 w) by (intros x; apply hup_ext; [exact Hv3|done]).
      change (plog w2) with (((plog w ++ [Acct p]) ++ [Untimeout p; Fdfree p]) ++ hangup p w). by rewrite <- !app_assoc.
    + intros Hns. unfold psession in *. rewrite Epg in *. cbn [mbind option_bind] in *.
      assert (same_members w w2) as Hm.
      { constructor; [done|intros x..|done].
        - exact (ppof_upd p (exiting P) P w x EP eq_refl). - exact (alive_upd p (exiting P) P w x EP eq_refl). - exact (Hv1 x). - done. }
      destruct (ex_orphans w2 p (exiting P) g G I q rv HI2' EP1 Hs Hp0 Hi Eg EG EI fp l all Hfp Eall) as (Hnd&Hos).
      { rewrite (init_session_same w w2 Hm). exact Hns. }
      split; [done|]. intros x. rewrite Hos, (jobs_same w w2 x Hm). done.
Qed.
