(* ===== verification/WaitInv.v ===== *)
(** * Waiting for children

    wait1 reports on the first child it finds that matches and has something to
    report, reaps it when it is a zombie, and keeps the invariant of [PgrpInv]. *)

From S2P Require Import Prelude Pgrp PgrpInv PgrpCalls Exit.
From S2P Require Resource TimeVal.

(** ** The zombie goes *)

(** What reaping the child [p] of [q] leaves: the entry is gone, from its group
    too, and its usage is added to that of the parent's children. *)
Record reaped (q p : loc) (ru : Resource.rusage) (w w' : pworld) : Prop := {
  rp_gone : procs w' !! p = None;
  rp_parent : exists Q l, procs w !! q = Some Q /\ unlink p (p_cptr Q) = Some l
    /\ procs w' !! q = Some (set_p_cptr l (set_p_cru (Resource.ruadd (p_cru Q) ru) Q));
  rp_others : forall x, x <> p -> x <> q -> procs w' !! x = procs w !! x;
  rp_groups : forall h, pgrps w' !! h = None \/ sesof w' h = sesof w h;
  rp_group : forall g, pgof w p = Some g -> (pgrps w' !! g = None <-> mem w g = [p]);
  rp_lists : allproc w' = allproc w /\ unlink p (zombproc w) = Some (zombproc w') /\ nprocs w' = nprocs w - 1
    /\ proc0 w' = proc0 w /\ initproc w' = initproc w;
  rp_log : plog w' = plog w ++ [Crfree p; CpuWait p];
}.

Section Reap.
Context (w : pworld) (q p : loc) (Q P : proc) (g : loc) (G : pgrp) (ru : Resource.rusage).
Hypothesis HI : Inv w.
Hypothesis EQ : procs w !! q = Some Q.
Hypothesis EP : procs w !! p = Some P.
Hypothesis Hz : p_stat P = SZOMB.
Hypothesis Hpq : p ∈ p_cptr Q.
Hypothesis Eg : p_pgrp P = Some g.
Hypothesis EG : pgrps w !! g = Some G.
Hypothesis Eru : p_ru P = Some ru.

Let Q1 := set_p_cru (Resource.ruadd (p_cru Q) ru) Q.
Let w1 := add_plog [Crfree p] (upd q Q1 w).

Lemma rp_ne : p <> q /\ p <> proc0 w /\ p <> initproc w.
Proof.
  pose proof (inv_tree w HI) as HT. split_and!.
  - intros ->. by apply (not_own_parent w q HT), (to_child w HT q Q EQ).
  - intros ->. apply (to_child w HT q Q EQ) in Hpq. by rewrite (ppof_root w HT) in Hpq.
  - intros ->. destruct (leads_init w HI) as (s&S&_&ES&El).
    destruct (lo_leader _ w (inv_lead w HI) s S _ ES El ltac:(done)) as (I&?&?&?&?&_). by simplify_eq.
Qed.

Lemma rp_no_child x : ppof w x <> Some p.
Proof.
  intros Hx. pose proof Hx as (X&EX&Epp)%ppof_Some. pose proof (inv_tree w HI) as HT.
  destruct (decide (x = proc0 w)) as [->|Hx0]; [by rewrite (ppof_root w HT) in Hx|].
  destruct (to_parent w HT x X EX Hx0) as (r&R&Er&ER&HsR&_). by simplify_eq.
Qed.

Lemma rp_Inv1 : Inv w1.
Proof. apply Inv_log, (Inv_upd w q Q1 Q); done. Qed.

Lemma rp_EP1 : procs w1 !! p = Some P.
Proof. unfold w1. change (procs (upd q Q1 w) !! p = Some P). rewrite procs_upd_lookup, decide_False; [done|apply rp_ne]. Qed.

Lemma rp_not_leader s S : sessions w !! s = Some S -> s_leader S <> Some p.
Proof.
  intros ES El. destruct (lo_leader _ w (inv_lead w HI) s S p ES El ltac:(done)) as (P'&?&?&?&Hs&_). by simplify_eq.
Qed.

Section Left.
Context (w3 : pworld) (zomb l : list loc).
Hypothesis Hul : unlinked p g w1 w3.
Hypothesis Hg3 : groups_ok (Some p) [] w3.
Hypothesis Hl3 : lead_ok (Some p) w3.
Hypothesis Ht3 : tty_ok w3.
Hypothesis Hzomb : unlink p (zombproc w) = Some zomb.
Hypothesis Hl : unlink p (p_cptr Q) = Some l.

Definition rp_w : pworld :=
  mkPworld (delete p (<[q := set_p_cptr l Q1]> (<[p := set_p_pgrp None P]> (procs w3)))) (pgrps w3) (sessions w3) (ttys w3)
    (pidhash w3) (pgrphash w3) (allproc w3) zomb (nprocs w3 - 1) (proc0 w3) (initproc w3) (plog w3 ++ [CpuWait p]).

Lemma rp_lookup x : procs rp_w !! x = if decide (x = p) then None else if decide (x = q) then Some (set_p_cptr l Q1) else procs w !! x.
Proof.
  cbn. destruct (decide (x = p)) as [->|Hxp]; [by rewrite lookup_delete_eq|]. rewrite lookup_delete_ne by done.
  destruct (decide (x = q)) as [->|Hxq]; [by rewrite lookup_insert_eq|]. rewrite !lookup_insert_ne by done.
  rewrite (ul_procs _ _ _ _ Hul). change (procs w1) with (procs (upd q Q1 w)). by rewrite procs_upd_lookup, decide_False.
Qed.

Lemma rp_back x X : procs rp_w !! x = Some X -> x <> p /\ exists X0, procs w !! x = Some X0 /\ p_pid X = p_pid X0
  /\ p_pgrp X = p_pgrp X0 /\ p_stat X = p_stat X0 /\ p_pptr X = p_pptr X0 /\ p_ru X = p_ru X0
  /\ p_cptr X = if decide (x = q) then l else p_cptr X0.
Proof.
  rewrite rp_lookup. destruct (decide (x = p)); [done|]. intros E. split; [done|]. destruct (decide (x = q)) as [->|]; [|by exists X].
  injection E as <-. by exists Q.
Qed.

Lemma rp_fwd x X0 : procs w !! x = Some X0 -> x <> p -> exists X, procs rp_w !! x = Some X /\ p_pid X = p_pid X0
  /\ p_pgrp X = p_pgrp X0 /\ p_stat X = p_stat X0 /\ p_pptr X = p_pptr X0 /\ p_ru X = p_ru X0
  /\ p_cptr X = if decide (x = q) then l else p_cptr X0.
Proof.
  intros EX Hx. rewrite rp_lookup, decide_False by done. destruct (decide (x = q)) as [->|]; [|by exists X0].
  simplify_eq. eexists. split; [done|]. done.
Qed.

Lemma rp_view {A} (f : proc -> option A) : f (set_p_cptr l Q1) = f Q ->
  forall x, x <> p -> procs rp_w !! x ≫= f = procs w !! x ≫= f.
Proof.
  intros Hf x Hx. rewrite rp_lookup, decide_False by done. destruct (decide (x = q)) as [->|]; [|done]. by rewrite EQ.
Qed.

Lemma rp_pgof x : x <> p -> pgof rp_w x = pgof w x.
Proof. by apply (rp_view p_pgrp). Qed.
Lemma rp_ppof x : x <> p -> ppof rp_w x = ppof w x.
Proof. by apply (rp_view p_pptr). Qed.
Lemma rp_pgof3 x : x <> p -> pgof w3 x = pgof rp_w x.
Proof.
  intros Hx. rewrite rp_pgof by done. unfold pgof. rewrite (ul_procs _ _ _ _ Hul). change (procs w1) with (procs (upd q Q1 w)).
  rewrite procs_upd_lookup. destruct (decide (x = q)) as [->|]; [by rewrite EQ|done].
Qed.

Lemma rp_group_back h K : pgrps w3 !! h = Some K -> exists K0, pgrps w !! h = Some K0 /\ pg_id K = pg_id K0
  /\ pg_session K = pg_session K0 /\ pg_jobc K = pg_jobc K0.
Proof.
  intros EK. destruct (decide (h = g)) as [->|Hh]; [|rewrite (ul_others _ _ _ _ Hul) in EK by done; by exists K].
  destruct (ul_group _ _ _ _ Hul) as [(_&?)|(K1&k&EK1&EK2&_)]; [congruence|]. simplify_eq. by exists K1.
Qed.

Lemma rp_sesof h : is_Some (pgrps w3 !! h) -> sesof rp_w h = sesof w h.
Proof.
  intros (K&EK). destruct (rp_group_back h K EK) as (K0&EK0&_&Es&_).
  rewrite (proj2 (sesof_Some rp_w h (pg_session K))) by eauto. symmetry. apply sesof_Some. eauto.
Qed.

Lemma rp_known : known w ≡ₚ p :: known rp_w.
Proof.
  unfold known. cbn. destruct (ul_tables _ _ _ _ Hul) as (_&->&_). change (allproc w1) with (allproc w).
  rewrite (unlink_perm p _ _ Hzomb). by rewrite Permutation_middle.
Qed.

Lemma rp_procs : procs_ok rp_w.
Proof.
  pose proof (inv_procs w HI) as H. destruct (ul_tables _ _ _ _ Hul) as (E1&E2&E3&E4&E5&E6&_).
  pose proof rp_known as Hk. pose proof (po_nodup w H) as Hnd. rewrite Hk in Hnd. apply list.NoDup_cons in Hnd as (Hp&Hnd).
  constructor.
  - done.
  - intros x. split.
    + intros Hx. assert (x <> p) as Hxp by (intros ->; done). assert (x ∈ known w) as Hxk by (rewrite Hk; by right).
      apply (po_dom w H) in Hxk as (X0&EX0). destruct (rp_fwd x X0 EX0 Hxp) as (X&?&_). by eexists.
    + intros (X&EX). destruct (rp_back x X EX) as (Hxp&X0&EX0&_). assert (x ∈ known w) as Hxk by (apply (po_dom w H); by eexists).
      rewrite Hk in Hxk. by apply elem_of_cons in Hxk as [->|].
  - intros x X EX. destruct (rp_back x X EX) as (Hxp&X0&EX0&_&_&->&_). rewrite <- (po_zomb w H x X0 EX0).
    rewrite (unlink_perm p _ _ Hzomb), elem_of_cons. change (zombproc rp_w) with zomb. naive_solver.
  - change (nprocs rp_w) with (nprocs w3 - 1). rewrite E4. change (nprocs w1) with (nprocs w). rewrite (po_n w H).
    rewrite (Permutation_length Hk). cbn. lia.
  - intros a b A B EA EB. destruct (rp_back a A EA) as (_&A0&EA0&->&_), (rp_back b B EB) as (_&B0&EB0&->&_). by apply (po_pid w H a b A0 B0).
  - intros x X EX. destruct (rp_back x X EX) as (_&X0&EX0&->&_). change (proc0 rp_w) with (proc0 w3). rewrite E5. exact (po_range w H x X0 EX0).
  - change (pidhash rp_w) with (pidhash w3). change (proc0 rp_w) with (proc0 w3). rewrite E1, E5.
    refine (hashes_ext _ _ _ _ _ _ (po_hash w H) _). intros x n. split.
    + intros (X&EX&?&?). destruct (rp_back x X EX) as (_&X0&EX0&Epid&_&Es&_). exists X0. rewrite <- Epid, <- Es. done.
    + intros (X0&EX0&(Hs&?)&?). assert (x <> p) as Hxp by (intros ->; congruence).
      destruct (rp_fwd x X0 EX0 Hxp) as (X&EX&Epid&_&Es&_). exists X. rewrite Epid, Es. done.
Qed.

Lemma rp_tree : tree_ok rp_w.
Proof.
  pose proof (inv_tree w HI) as T. destruct rp_ne as (Hne&Hn0&Hni).
  destruct (ul_tables _ _ _ _ Hul) as (_&_&_&_&E5&E6&_). change (proc0 w1) with (proc0 w) in E5. change (initproc w1) with (initproc w) in E6.
  pose proof (to_child w T q Q EQ) as (HndQ&HcQ).
  destruct (unlink_spec p (p_cptr Q) HndQ Hpq) as (l'&El'&_&Hml&Hndl). simplify_eq.
  assert (forall x, rtc (fun a b => ppof w a = Some b) x (proc0 w) -> x <> p -> rtc (fun a b => ppof rp_w a = Some b) x (proc0 w)) as Hr.
  { apply (rtc_ind_l (fun x => x <> p -> rtc (fun a b => ppof rp_w a = Some b) x (proc0 w))); [intros _; apply rtc_refl|].
    intros x y Hxy _ IH Hx. eapply rtc_l; [by rewrite rp_ppof|]. apply IH. intros ->. by apply (rp_no_child x). }
  constructor; change (proc0 rp_w) with (proc0 w3); rewrite ?E5.
  - intros x X EX Hx0. destruct (rp_back x X EX) as (Hxp&X0&EX0&_&_&_&->&_).
    destruct (to_parent w T x X0 EX0 Hx0) as (r&R0&Er&ER&Hs&Hin).
    assert (r <> p) as Hrp. { intros ->. apply (rp_no_child x), ppof_Some. eauto. }
    destruct (rp_fwd r R0 ER Hrp) as (R&ER'&_&_&Es&_&_&Ec). exists r, R. rewrite Es, Ec. split_and!; [done..|].
    destruct (decide (r = q)) as [->|]; [|done]. simplify_eq. by apply Hml.
  - destruct (to_root w T) as (R0&ER&Er&Hs). destruct (rp_fwd _ R0 ER (not_eq_sym Hn0)) as (R&ER'&_&_&Es&Epp&_).
    exists R. rewrite Es, Epp. done.
  - intros x X EX. destruct (rp_back x X EX) as (Hxp&X0&EX0&_&_&_&_&_&Ec). rewrite Ec. destruct (decide (x = q)) as [->|].
    + split; [done|]. intros c (Hc&Hcp)%Hml. rewrite rp_ppof by done. by apply HcQ.
    + destruct (to_child w T x X0 EX0) as (?&Hc). split; [done|]. intros c Hin. pose proof (Hc c Hin) as Hpp.
      rewrite rp_ppof; [done|]. intros ->. rewrite (HcQ p Hpq) in Hpp. congruence.
  - intros x X EX. destruct (rp_back x X EX) as (Hxp&X0&EX0&_). apply Hr; [|done]. exact (to_reach w T x X0 EX0).
  - change (initproc rp_w) with (initproc w3). rewrite E6, rp_ppof by done. apply (to_init w T).
Qed.

Lemma rp_groups_ok : groups_ok None [] rp_w.
Proof.
  constructor; [| |apply Hg3..].
  - intros x X EX _. destruct (rp_back x X EX) as (Hxp&X0&EX0&_&Epg&_).
    assert (is_Some (procs w3 !! x)) as (X3&EX3).
    { rewrite (ul_procs _ _ _ _ Hul). change (procs w1) with (procs (upd q Q1 w)). rewrite procs_upd_lookup. case_decide; by eexists. }
    destruct (go_pgof _ _ w3 x X3 Hg3 EX3 ltac:(congruence)) as (h&K&Eh&_&EK&Hm). exists h, K. split_and!; [|done..].
    rewrite rp_pgof3 in Eh by done. apply pgof_Some in Eh as (X'&?&?). congruence.
  - intros h K EK. destruct (go_mem _ _ w3 Hg3 h K EK) as (?&?&Hm). split_and!; [done..|]. intros x Hx.
    destruct (Hm x Hx) as (Hxp&Hpg). split; [done|]. by rewrite <- rp_pgof3 by congruence.
Qed.

Lemma rp_lead : lead_ok None rp_w.
Proof.
  destruct (ul_tables _ _ _ _ Hul) as (_&_&_&_&_&E6&_). change (initproc w1) with (initproc w) in E6.
  assert (forall x X3, procs w3 !! x = Some X3 -> x <> p -> exists X, procs rp_w !! x = Some X /\ p_pid X = p_pid X3
    /\ p_stat X = p_stat X3 /\ p_pgrp X = p_pgrp X3) as Hf.
  { intros x X3 EX Hx. rewrite (ul_procs _ _ _ _ Hul) in EX. change (procs w1) with (procs (upd q Q1 w)) in EX. rewrite procs_upd_lookup in EX.
    rewrite rp_lookup, decide_False by done. destruct (decide (x = q)); [|by exists X3]. injection EX as <-. by eexists. }
  assert (forall x X, procs rp_w !! x = Some X -> x <> p /\ exists X3, procs w3 !! x = Some X3 /\ p_pid X = p_pid X3
    /\ p_stat X = p_stat X3 /\ p_pgrp X = p_pgrp X3) as Hb.
  { intros x X EX. rewrite rp_lookup in EX. destruct (decide (x = p)); [done|]. split; [done|].
    rewrite (ul_procs _ _ _ _ Hul). change (procs w1) with (procs (upd q Q1 w)). rewrite procs_upd_lookup.
    destruct (decide (x = q)); [|by exists X]. injection EX as <-. by eexists. }
  constructor.
  - intros s S x ES El _. assert (x <> p) as Hx.
    { intros ->. destruct (ul_sessions _ _ _ _ Hul s S ES) as (S0&ES0&E0&_). apply (rp_not_leader s S0 ES0). congruence. }
    destruct (lo_leader _ w3 Hl3 s S x ES El ltac:(congruence)) as (X3&h&K&EX3&?&?&?&?&?). destruct (Hf x X3 EX3 Hx) as (X&?&?&?&?).
    exists X, h, K. split_and!; congruence || done.
  - intros x X h K EX EK Eid _. destruct (Hb x X EX) as (Hx&X3&EX3&?&?&?).
    destruct (lo_own _ w3 Hl3 x X3 h K EX3 EK) as (k&?&?); [congruence..|]. exists k. split; [congruence|done].
  - destruct (lo_init _ w3 Hl3) as (I3&h&s&S&EI3&?&?&?&?&?&Hne). destruct (Hf _ I3 EI3) as (I'&?&?&?&?); [congruence|].
    exists I', h, s, S. change (initproc rp_w) with (initproc w3). split_and!; congruence || done.
Qed.

Lemma rp_jobs : jobs_ok rp_w.
Proof.
  destruct (ul_tables _ _ _ _ Hul) as (_&_&_&_&_&E6&_). change (initproc w1) with (initproc w) in E6. destruct rp_ne as (Hne&Hn0&Hni).
  assert (forall x h, pgof rp_w x = Some h -> is_Some (pgrps w3 !! h)) as Hlive.
  { intros x h (X&EX&Eh)%pgof_Some. destruct (go_group _ _ rp_w rp_groups_ok x X EX ltac:(done)) as (k&K&Ek&EK&_). simplify_eq. by eexists. }
  assert (forall x, is_Some (pgrps w3 !! x) -> jobs rp_w x = jobs w x) as Hj.
  { intros x Hx. unfold jobs. rewrite (sumZ_perm _ _ _ rp_known), sumZ_cons.
    assert (qual w x p = false) as ->. { unfold qual, alive. rewrite EP, Hz. by rewrite andb_false_r. }
    cbn [Z.b2z]. rewrite Z.add_0_l. apply sumZ_ext. intros y Hy. f_equal.
    assert (y <> p) as Hyp. { intros ->. apply (po_dom _ rp_procs) in Hy as (Y&EY). by apply rp_back in EY as (?&_). }
    unfold qual. rewrite rp_pgof, rp_ppof by done.
    assert (alive rp_w y = alive w y) as ->.
    { unfold alive. rewrite rp_lookup, decide_False by done. destruct (decide (y = q)) as [->|]; [by rewrite EQ|done]. }
    destruct (ppof w y) as [r|] eqn:Er; cbn [mbind option_bind]; [|done].
    assert (r <> p) as Hrp by (intros ->; by apply (rp_no_child y)).
    destruct (pgof rp_w r) as [h|] eqn:Eh; rewrite rp_pgof in Eh by done; rewrite Eh; [|done].
    rewrite rp_sesof, (rp_sesof x); [done..|]. apply (Hlive r). by rewrite rp_pgof. }
  assert (init_session rp_w = init_session w) as Hi.
  { unfold init_session. change (initproc rp_w) with (initproc w3). rewrite E6, rp_pgof by done.
    destruct (pgof w (initproc w)) as [h|] eqn:Eh; cbn [mbind option_bind]; [|done]. apply rp_sesof. apply (Hlive (initproc w)). by rewrite rp_pgof. }
  intros x X EX. change (pgrps rp_w) with (pgrps w3) in EX. assert (is_Some (pgrps w3 !! x)) as Hx by by eexists.
  rewrite Hi, rp_sesof, Hj by done. destruct (rp_group_back x X EX) as (X0&EX0&_&_&->). exact (inv_jobs w HI x X0 EX0).
Qed.

Lemma rp_Inv : Inv rp_w.
Proof.
  constructor; [exact rp_procs|exact rp_tree|exact rp_groups_ok|exact rp_lead| |exact rp_jobs|].
  - destruct Ht3. by constructor.
  - intros x X EX. destruct (rp_back x X EX) as (_&X0&EX0&_&_&->&_&->&_). exact (inv_ru w HI x X0 EX0).
Qed.
End Left.
End Reap.

Lemma reap_ok w q p Q P ru : Inv w -> procs w !! q = Some Q -> procs w !! p = Some P -> p_stat P = SZOMB -> p ∈ p_cptr Q ->
  p_ru P = Some ru -> exists w', reap q p w = Ok w' /\ Inv w' /\ reaped q p ru w w'.
Proof.
  intros HI EQ EP Hz Hpq Eru. destruct (proc_groups w p P HI EP) as (g&G&S&Eg&Epg&EG&_&ES&_).
  destruct (rp_ne w q p Q P ru HI EQ EP Hz Hpq) as (Hne&Hn0&Hni).
  pose proof (rp_Inv1 w q p Q ru HI EQ) as HI1. pose proof (rp_EP1 w q p Q P ru HI EQ EP Hz Hpq) as EP1.
  set (Q1 := set_p_cru (Resource.ruadd (p_cru Q) ru) Q) in *. cbv zeta in *.
  pose proof (ppof_Some w p q) as Hpp. assert (p_pptr P = Some q) as Epp.
  { apply (to_child w (inv_tree w HI) q Q EQ), ppof_Some in Hpq as (P'&?&?). by simplify_eq. }
  unfold reap. rewrite EP. cbn [deref mbind outcome_bind]. rewrite Eru. cbn [deref mbind outcome_bind]. rewrite EQ. cbn [deref mbind outcome_bind].
  fold Q1. set (w1 := add_plog [Crfree p] (upd q Q1 w)) in *.
  change (add_plog [Crfree p] (set_procs (<[q := Q1]> (procs w)) w)) with w1.
  unfold leavepgrp. rewrite (group_of_eq p w1 g) by (apply pgof_Some; eauto). cbn [mbind outcome_bind].
  destruct (pg_unlink_ok "leavepgrp: can't find p in pgrp" [] w1 p P g G) as (w3&->&Hul&Hg3&Hl3&Ht3);
    [apply HI1|by apply lead_ok_weaken; [apply HI1|]|apply HI1|done|done|done| |].
  { intros X EX. by apply (rp_not_leader w p P HI EP Hz _ X EX). }
  cbn [mbind outcome_bind]. rewrite (ul_procs _ _ _ _ Hul), EP1. cbn [deref mret outcome_ret mbind outcome_bind].
  destruct (ul_tables _ _ _ _ Hul) as (E1&E2&E3&E4&E5&E6&E7).
  destruct (unlink_spec p (zombproc w)) as (zomb&Ez&_).
  { pose proof (po_nodup w (inv_procs w HI)) as Hn. by apply list.NoDup_app in Hn as (_&_&?). }
  { by apply (po_zomb w (inv_procs w HI) p P EP). }
  destruct (unlink_spec p (p_cptr Q)) as (l&El&_); [by apply (to_child w (inv_tree w HI) q Q EQ)|done|].
  change (zombproc (set_procs (<[p:=set_p_pgrp None P]> (procs w1)) w3)) with (zombproc w3).
  rewrite E3. change (zombproc w1) with (zombproc w). rewrite Ez. cbn [deref mret outcome_ret mbind outcome_bind]. rewrite Epp.
  cbn [deref mret outcome_ret mbind outcome_bind procs set_procs]. rewrite lookup_insert_ne by done.
  change (procs w1 !! q) with (procs (upd q Q1 w) !! q). rewrite procs_upd_lookup, decide_True by done.
  cbn [deref mret outcome_ret mbind outcome_bind]. change (p_cptr Q1) with (p_cptr Q). rewrite El.
  cbn [deref mret outcome_ret mbind outcome_bind]. exists (rp_w q p Q P ru w3 zomb l). split.
  - f_equal. unfold rp_w. rewrite (ul_procs _ _ _ _ Hul). done.
  - split; [by apply (rp_Inv w q p Q P g ru)|].
    pose proof (rp_lookup w q p Q P g ru w3 zomb l Hul) as Hlk. constructor.
    + by rewrite Hlk, decide_True.
    + exists Q, l. split_and!; [done..|]. by rewrite Hlk, decide_False, decide_True.
    + intros x Hx Hxq. by rewrite Hlk, !decide_False.
    + intros h. destruct (pgrps w3 !! h) as [K|] eqn:EK; [right|by left].
      apply (rp_sesof w q p Q P g ru w3 zomb l Hul). by eexists.
    + intros h Eh. assert (h = g) as -> by congruence. change (pgrps (rp_w q p Q P ru w3 zomb l)) with (pgrps w3).
      destruct (ul_group _ _ _ _ Hul) as [(Hm&Hn)|(K1&k&EK1&EK2&Hp&Hk)]; change (mem w1 g) with (mem w g) in *; [done|].
      rewrite EK2. split; [done|]. intros Hm. rewrite Hm in Hp. exfalso. apply Permutation_length in Hp. cbn in Hp. by destruct k.
    + split_and!; [exact E2|done|cbn; rewrite E4; done|exact E5|exact E6].
    + cbn. rewrite E7. cbn. by rewrite <- app_assoc.
Qed.

(** ** wait1 *)

(** A child the call is about. *)
Definition matches (w : pworld) (pid : Z) (c : loc) : bool :=
  match procs w !! c with
  | Some C => (pid =? WAIT_ANY) || (p_pid C =? pid) || (pgid_of w c =? - pid)
  | None => false
  end.

(** A child with something to report: a zombie, or a stopped one that has not been
    reported and that is traced or asked about. *)
#[local] Abbreviation clear flags f := (Z.land flags f = 0).
Definition to_report (a : wait_args) (C : proc) : Prop :=
  p_stat C = SZOMB \/
  (p_stat C = SSTOP /\ clear (p_flag C) SWTED /\ (~ clear (p_flag C) STRC \/ ~ clear (wa_options a) WUNTRACED)).

Definition ready (w : pworld) (a : wait_args) (c : loc) : bool :=
  match procs w !! c with
  | Some C => bool_decide (to_report a C)
  | None => false
  end.

Lemma to_report_code a C : bool_decide (to_report a C) = (p_stat C =? SZOMB) || wait_stopped a C.
Proof.
  unfold to_report, wait_stopped, has. apply Bool.eq_iff_eq_true.
  rewrite bool_decide_eq_true, orb_true_iff, !andb_true_iff, orb_true_iff, !negb_true_iff, negb_false_iff, !Z.eqb_eq, !Z.eqb_neq. tauto.
Qed.

(** A stop that has been reported is not there to report, whatever is asked. *)
Lemma reported_once a C : p_stat C <> SZOMB -> ~ to_report a (set_p_flag (Z.lor (p_flag C) SWTED) C).
Proof.
  intros Hz [?|(_&Hc&_)]; [done|]. cbn in Hc. rewrite Z.land_lor_distr_l in Hc. by apply Z.lor_eq_0_iff in Hc as [_ ?].
Qed.

Lemma wait_scan_spec w q a pid n l : Inv w -> (forall c, c ∈ l -> is_Some (procs w !! c)) -> 0 <= n ->
  (exists l1 c l2 C, l = l1 ++ c :: l2 /\ (forall x, x ∈ l1 -> matches w pid x && ready w a x = false)
     /\ matches w pid c = true /\ procs w !! c = Some C /\ ready w a c = true
     /\ wait_scan q a pid n l w = if p_stat C =? SZOMB then wait_zombie q a c C w else mret (wait_stop a c C w))
  \/ ((forall x, x ∈ l -> matches w pid x && ready w a x = false) /\
      wait_scan q a pid n l w = Ok (if (n =? 0) && negb (existsb (matches w pid) l) then WReturn ECHILD 0 0
                                    else if has (wa_options a) WNOHANG then WReturn 0 0 0 else WSleep, w)).
Proof.
  intros HI. revert n. induction l as [|c l IH]; intros n Hl Hn; cbn [wait_scan].
  - right. split; [by intros x ?%not_elem_of_nil|]. cbn [existsb negb]. by rewrite andb_true_r.
  - destruct (Hl c) as (C&EC); [by left|]. rewrite EC. cbn [deref mbind outcome_bind]. rewrite (getpgrp_ok w c C HI EC). cbn [mbind outcome_bind].
    assert (matches w pid c = (pid =? WAIT_ANY) || (p_pid C =? pid) || (pgid_of w c =? - pid)) as Em by (unfold matches; by rewrite EC).
    assert (ready w a c = (p_stat C =? SZOMB) || wait_stopped a C) as Er by (unfold ready; by rewrite EC, to_report_code).
    rewrite <- !negb_orb, <- Em.
    assert (forall m, matches w pid c && ready w a c = false -> (negb (matches w pid c) = false -> n + 1 = m) ->
      (negb (matches w pid c) = true -> n = m) -> wait_scan q a pid n (c :: l) w = wait_scan q a pid m l w ->
      (exists l1 x l2 X, c :: l = l1 ++ x :: l2 /\ (forall x, x ∈ l1 -> matches w pid x && ready w a x = false)
         /\ matches w pid x = true /\ procs w !! x = Some X /\ ready w a x = true
         /\ wait_scan q a pid m l w = if p_stat X =? SZOMB then wait_zombie q a x X w else mret (wait_stop a x X w))
      \/ ((forall x, x ∈ c :: l -> matches w pid x && ready w a x = false) /\
          wait_scan q a pid m l w = Ok (if (n =? 0) && negb (existsb (matches w pid) (c :: l)) then WReturn ECHILD 0 0
                                        else if has (wa_options a) WNOHANG then WReturn 0 0 0 else WSleep, w))) as Hstep.
    { intros m Hc Hm1 Hm2 _. assert (0 <= m) as Hm0 by (destruct (negb (matches w pid c)); lia).
      destruct (IH m) as [(l1&x&l2&X&->&H1&H2&H3&H4&->)|(H1&->)]; [by intros y Hy; apply Hl; right|done| |].
      - left. exists (c :: l1), x, l2, X. split_and!; [done| |done..]. intros y [->|Hy]%elem_of_cons; [done|by apply H1].
      - right. split; [intros y [->|Hy]%elem_of_cons; [done|by apply H1]|]. cbn [existsb].
        destruct (matches w pid c); cbn [negb orb] in *; [|by rewrite Hm2]. rewrite andb_false_r, <- (Hm1 eq_refl).
        destruct (Z.eqb_spec (n + 1) 0); [lia|done]. }
    destruct (matches w pid c) eqn:Emc; cbn [negb].
    + destruct (p_stat C =? SZOMB) eqn:Ez.
      { left. exists [], c, l, C. split_and!; [done|by intros x ?%not_elem_of_nil|done|done|by rewrite Er|by rewrite Ez]. }
      destruct (wait_stopped a C) eqn:Ew.
      { left. exists [], c, l, C. split_and!; [done|by intros x ?%not_elem_of_nil|done|done|by rewrite Er, orb_true_r|by rewrite Ez]. }
      apply (Hstep (n + 1)); [by rewrite Er|done|done|]. cbn [wait_scan]. rewrite EC. cbn [deref mbind outcome_bind].
      rewrite (getpgrp_ok w c C HI EC). cbn [mbind outcome_bind]. rewrite <- !negb_orb, <- Em, Ez, Ew. done.
    + apply (Hstep n); [done|done|done|]. cbn [wait_scan]. rewrite EC. cbn [deref mbind outcome_bind].
      rewrite (getpgrp_ok w c C HI EC). cbn [mbind outcome_bind]. by rewrite <- !negb_orb, <- Em.
Qed.

(** The pid argument of wait1. *)
Definition wait_pid (w : pworld) (q : loc) (a : wait_args) : Z := if wa_pid a =? 0 then - pgid_of w q else wa_pid a.

(** What wait1 returns for the child [c] it stops at. *)
Definition wait_reports (q c : loc) (C : proc) (a : wait_args) (w : pworld) (o : outcome (wait_res * pworld)) : Prop :=
  if p_stat C =? SZOMB then
    exists ru, p_ru C = Some ru /\
      let r1 := if wa_compat a then p_xstat C else 0 in
      let e1 := if wa_compat a then 0 else copy_status a (p_xstat C) in
      let e2 := match wa_rusage a with Some f => f ru | None => 0 end in
      if (e1 =? 0) && (e2 =? 0) then exists w', o = Ok (WReturn 0 (p_pid C) r1, w') /\ Inv w' /\ reaped q c ru w w'
      else o = Ok (WReturn (if e1 =? 0 then e2 else e1) (p_pid C) r1, w)
  else
    exists w', o = Ok ((if wa_compat a then WReturn 0 (p_pid C) (W_STOPCODE (p_xstat C))
                        else WReturn (copy_status a (W_STOPCODE (p_xstat C))) (p_pid C) 0), w')
      /\ Inv w' /\ procs w' = <[c := set_p_flag (Z.lor (p_flag C) SWTED) C]> (procs w) /\ pgrps w' = pgrps w /\ plog w' = plog w
      /\ forall a', ready w' a' c = false.

Lemma wait1_ok w q Q a : Inv w -> procs w !! q = Some Q -> p_stat Q <> SZOMB ->
  let pid := wait_pid w q a in
  (existsb (matches w pid) (p_cptr Q) = false /\ wait1 q a w = Ok (WReturn ECHILD 0 0, w))
  \/ (existsb (matches w pid) (p_cptr Q) = true /\ (forall c, c ∈ p_cptr Q -> matches w pid c && ready w a c = false)
      /\ wait1 q a w = Ok (if has (wa_options a) WNOHANG then WReturn 0 0 0 else WSleep, w))
  \/ (exists l1 c l2 C, p_cptr Q = l1 ++ c :: l2 /\ (forall x, x ∈ l1 -> matches w pid x && ready w a x = false)
      /\ procs w !! c = Some C /\ matches w pid c = true /\ ready w a c = true /\ wait_reports q c C a w (wait1 q a w)).
Proof.
  intros HI EQ HsQ pid. unfold wait1. rewrite (getpgrp_ok w q Q HI EQ). cbn [mbind outcome_bind]. rewrite EQ. cbn [deref mbind outcome_bind].
  fold (wait_pid w q a). fold pid. pose proof (to_child w (inv_tree w HI) q Q EQ) as (_&Hch).
  destruct (wait_scan_spec w q a pid 0 (p_cptr Q)) as [(l1&c&l2&C&El&H1&H2&EC&H3&->)|(H1&->)]; [done| |lia| |].
  { intros c Hc. apply Hch, ppof_Some in Hc as (C&EC&_). by eexists. }
  - right; right. exists l1, c, l2, C. split_and!; [done..|]. unfold wait_reports.
    destruct (Z.eqb_spec (p_stat C) SZOMB) as [Ez|Ez].
    + destruct (inv_ru w HI c C EC Ez) as (ru&Eru). exists ru. split; [done|]. cbv zeta. unfold wait_zombie.
      set (e1 := if wa_compat a then 0 else _). set (r1 := if wa_compat a then p_xstat C else 0).
      destruct (Z.eqb_spec e1 0) as [E1|E1]; cbn [negb andb]; [|done]. rewrite Eru. cbn [deref mbind outcome_bind].
      destruct (Z.eqb_spec (match wa_rusage a with Some f => f ru | None => 0 end) 0) as [E2|E2]; cbn [negb andb]; [|done].
      destruct (reap_ok w q c Q C ru) as (w'&->&HI'&Hr); [done..| |done|by exists w'].
      rewrite El. apply elem_of_app. right. by left.
    + exists (set_procs (<[c := set_p_flag (Z.lor (p_flag C) SWTED) C]> (procs w)) w). split; [done|]. split; [|do 3 (split; [done|])].
      2: { intros a'. unfold ready. cbn [procs set_procs]. rewrite lookup_insert_eq. by apply bool_decide_eq_false, reported_once. }
      exact (Inv_upd w c (set_p_flag (Z.lor (p_flag C) SWTED) C) C HI EC (same_id_refl _) eq_refl).
  - cbn [Z.eqb andb]. destruct (existsb (matches w pid) (p_cptr Q)) eqn:Ee; cbn [negb]; [right; left|left]; done.
Qed.

(** ** A caller that waits until there is nothing to report *)

Fixpoint drain (n : nat) (q : loc) (a : wait_args) (w : pworld) : outcome pworld :=
  match n with
  | O => Fault
  | S n =>
      '(r, w) ← wait1 q a w;
      match r with
      | WReturn error pid _ => if (error =? 0) && negb (pid =? 0) then drain n q a w else mret w
      | WSleep => mret w
      end
  end.

Definition nready (w : pworld) (a : wait_args) (l : list loc) : nat := length (List.filter (ready w a) l).
Definition zombie (w : pworld) (c : loc) : Prop := exists C, procs w !! c = Some C /\ p_stat C = SZOMB.

Lemma nready_ext w w' a l : (forall x, x ∈ l -> ready w' a x = ready w a x) -> nready w' a l = nready w a l.
Proof.
  intros H. unfold nready. f_equal. induction l as [|x l IH]; [done|]. cbn. rewrite (H x) by by left.
  rewrite IH; [done|]. intros y Hy. apply H. by right.
Qed.

Lemma nready_unlink w a c l l' : unlink c l = Some l' -> ready w a c = true -> nready w a l = S (nready w a l').
Proof.
  revert l'. induction l as [|x l IH]; intros l' E Hr; cbn in E; [done|].
  destruct (decide (x = c)) as [->|]; [injection E as <-; unfold nready; cbn; by rewrite Hr|].
  destruct (unlink c l) as [k|] eqn:Ek; cbn in E; [|done]. injection E as <-. specialize (IH k eq_refl Hr).
  unfold nready in *. cbn. destruct (ready w a x); cbn; lia.
Qed.

Lemma nready_mark w w' a c l : NoDup l -> c ∈ l -> ready w a c = true -> ready w' a c = false ->
  (forall x, x ∈ l -> x <> c -> ready w' a x = ready w a x) -> nready w a l = S (nready w' a l).
Proof.
  induction l as [|x l IH]; intros Hnd Hin H1 H2 H; [by apply not_elem_of_nil in Hin|].
  apply list.NoDup_cons in Hnd as (Hx&Hnd). apply elem_of_cons in Hin as [<-|Hin].
  - unfold nready. cbn. rewrite H1, H2. cbn. f_equal. symmetry. apply nready_ext. intros y Hy. apply H; [by right|by intros ->].
  - assert (x <> c) by (by intros ->). specialize (IH Hnd Hin H1 H2 ltac:(intros y Hy; apply H; by right)).
    unfold nready in *. cbn. rewrite (H x) by (by left || done). destruct (ready w a x); cbn; lia.
Qed.

(** After a report the caller has one less. *)
Lemma report_less w q Q a c C : Inv w -> procs w !! q = Some Q -> c ∈ p_cptr Q -> procs w !! c = Some C -> ready w a c = true ->
  wa_status a = None -> wa_rusage a = None -> wait_reports q c C a w (wait1 q a w) ->
  exists pid r1 w' Q', wait1 q a w = Ok (WReturn 0 pid r1, w') /\ pid <> 0 /\ Inv w' /\ procs w' !! q = Some Q'
    /\ p_stat Q' = p_stat Q /\ nready w a (p_cptr Q) = S (nready w' a (p_cptr Q'))
    /\ (forall x, x ∈ p_cptr Q' /\ ~ zombie w' x <-> x ∈ p_cptr Q /\ ~ zombie w x).
Proof.
  intros HI EQ Hc EC Hr Hst Hru H. pose proof (inv_tree w HI) as HT. destruct (to_child w HT q Q EQ) as (Hnd&Hch).
  assert (q <> c) as Hqc by (intros ->; by apply (not_own_parent w c HT), Hch).
  assert (p_pid C <> 0) as Hpid.
  { intros E. apply (po_range w (inv_procs w HI) c C EC) in E as ->. apply Hch in Hc. by rewrite (ppof_root w HT) in Hc. }
  unfold wait_reports in H. destruct (Z.eqb_spec (p_stat C) SZOMB) as [Ez|Ez].
  - assert (exists ru r1 w', wait1 q a w = Ok (WReturn 0 (p_pid C) r1, w') /\ Inv w' /\ reaped q c ru w w') as (ru&r1&w'&E&HI'&Hrp).
    { destruct H as (ru&_&H). cbv zeta in H. rewrite Hru in H. unfold copy_status in H. rewrite Hst in H.
      destruct (wa_compat a); cbn [Z.eqb andb] in H; destruct H as (w'&E&?&?); by do 3 eexists. }
    destruct (rp_parent _ _ _ _ _ Hrp) as (Q0&l&EQ0&El&EQ'). rewrite EQ in EQ0. injection EQ0 as <-.
    destruct (unlink_spec c (p_cptr Q) Hnd Hc) as (l'&El'&_&Hml&_). rewrite El in El'. injection El' as <-.
    assert (forall x, x ∈ l -> procs w' !! x = procs w !! x) as Hsame.
    { intros x (Hx&Hxc)%Hml. apply (rp_others _ _ _ _ _ Hrp); [done|]. intros ->. by apply (not_own_parent w q HT), Hch. }
    exists (p_pid C), r1, w', (set_p_cptr l (set_p_cru (Resource.ruadd (p_cru Q) ru) Q)).
    split; [done|]. split; [done|]. split; [done|]. split; [done|]. split; [done|]. cbn [p_cptr set_p_cptr]. split.
    + rewrite (nready_ext w w' a l) by (intros x Hx; unfold ready; by rewrite Hsame). by apply (nready_unlink w a c).
    + intros x. split.
      * intros (Hx&Hz). split; [by apply Hml in Hx as (?&_)|]. unfold zombie in *. by rewrite <- Hsame.
      * intros (Hx&Hz). assert (x ∈ l) as Hx' by (apply Hml; split; [done|]; intros ->; apply Hz; by exists C).
        split; [done|]. unfold zombie in *. by rewrite Hsame.
  - destruct H as (w'&E&HI'&Ep&_&_&Hno). unfold copy_status in E. rewrite Hst in E.
    assert (procs w' !! q = Some Q) as EQ' by (by rewrite Ep, lookup_insert_ne).
    assert (forall x, x <> c -> procs w' !! x = procs w !! x) as Hsame by (intros x Hx; by rewrite Ep, lookup_insert_ne).
    pose proof (Hno a) as Hr'.
    assert (wait1 q a w = Ok (WReturn 0 (p_pid C) (if wa_compat a then W_STOPCODE (p_xstat C) else 0), w')) as E' by (rewrite E; by destruct (wa_compat a)).
    do 3 eexists. exists Q. split; [done|]. split; [done|]. split; [done|]. split; [done|]. split; [done|]. split.
    + apply (nready_mark w w' a c); [done..|]. intros x _ Hx. unfold ready. by rewrite Hsame.
    + intros x. assert (zombie w' x <-> zombie w x) as ->; [|done]. unfold zombie. destruct (decide (x = c)) as [->|]; [|by rewrite Hsame].
      rewrite Ep, lookup_insert_eq, EC. naive_solver.
Qed.
