(* ===== verification/Life.v ===== *)
(** * The process life cycle

    The operations of [Pgrp] and [Exit] as the steps of one system, from a world
    with the system process and init on.  Whatever the order of the steps, no
    operation faults or panics, and the invariant of [PgrpInv] holds. *)

From S2P Require Import Prelude Pgrp PgrpInv PgrpCalls Exit ForkInv ExitInv WaitInv.
From S2P Require Resource TimeVal.

(** A step: a system call of a process, a terminal that closes, or what the
    scheduler, signals and exec do to a process ([Sched]). *)
Inductive op :=
  | Fork (p : loc) (pid xstat : Z) (isvfork : bool)
  | Setsid (p : loc)
  | Setpgid (p : loc) (pid pgid : Z)
  | Sctty (p t : loc) (vp : Z)
  | Spgrp (p t : loc) (pgid : Z)
  | Ttyclose (t : loc)
  | Sched (p : loc) (stat flag : Z)
  | Exit (p : loc) (rv : Z)
  | Wait (p : loc) (a : wait_args).

Definition sched (p : loc) (stat flag : Z) (w : pworld) : outcome pworld :=
  P ← deref (procs w !! p); mret (set_procs (<[p := set_p_stat stat (set_p_flag flag P)]> (procs w)) w).

Definition step (o : op) (w : pworld) : outcome pworld :=
  match o with
  | Fork p pid xstat isvfork => snd <$> fork_child p pid xstat isvfork w
  | Setsid p => snd <$> setsid p w
  | Setpgid p pid pgid => snd <$> setpgid p pid pgid w
  | Sctty p t vp => snd <$> vn_ioctl_sctty p t vp w
  | Spgrp p t pgid => snd <$> tiocspgrp p t pgid w
  | Ttyclose t => ttyclose t w
  | Sched p stat flag => sched p stat flag w
  | Exit p rv => kexit p rv w
  | Wait p a => snd <$> wait1 p a w
  end.

(** A process that can make a call. *)
Definition runs (w : pworld) (p : loc) : bool := alive w p && negb (bool_decide (p = proc0 w)).

Definition fresh_pidb (w : pworld) (pid : Z) : bool :=
  (0 <? pid) && (pid <? 2 ^ 15) && bool_decide (map_Forall (fun _ P => p_pid P <> pid) (procs w))
  && bool_decide (map_Forall (fun _ G => pg_id G <> pid) (pgrps w)).

(** The calls a process may make: init does not exit, and fork1 has found an id. *)
Definition legal (o : op) (w : pworld) : bool :=
  match o with
  | Fork p pid _ _ => alive w p && fresh_pidb w pid
  | Setsid p | Setpgid p _ _ | Wait p _ => runs w p
  | Sctty p t _ | Spgrp p t _ => runs w p && bool_decide (is_Some (ttys w !! t))
  | Ttyclose t => bool_decide (is_Some (ttys w !! t))
  | Sched p stat _ => alive w p && negb (stat =? SZOMB)
  | Exit p _ => runs w p && negb (bool_decide (p = initproc w))
  end.

Fixpoint run (os : list op) (w : pworld) : outcome pworld :=
  match os with
  | [] => mret w
  | o :: os => w ← step o w; run os w
  end.

Fixpoint legal_run (os : list op) (w : pworld) : bool :=
  match os with
  | [] => true
  | o :: os => legal o w && match step o w with Ok w => legal_run os w | _ => false end
  end.

(** ** Each step *)

Lemma fresh_pidb_spec w pid : fresh_pidb w pid = true -> fresh_pid w pid.
Proof.
  unfold fresh_pidb. rewrite !andb_true_iff, !bool_decide_eq_true, !Z.ltb_lt. intros (((?&?)&H1)&H2).
  split; [lia|]. split; [intros p P EP; exact (H1 p P EP)|intros g G EG; exact (H2 g G EG)].
Qed.

Lemma alive_true w p : alive w p = true -> exists P, procs w !! p = Some P /\ p_stat P <> SZOMB.
Proof.
  unfold alive. destruct (procs w !! p) as [P|]; [|done]. intros H. exists P. split; [done|]. intros E. by rewrite E in H.
Qed.

Lemma runs_true w p : runs w p = true -> exists P, procs w !! p = Some P /\ p_stat P <> SZOMB /\ p <> proc0 w.
Proof.
  unfold runs. intros ((P&?&?)%alive_true&Hn)%andb_true_iff. exists P. split_and!; [done..|].
  intros E. by rewrite bool_decide_true in Hn.
Qed.

(** The fields that say where a process is. *)
Definition same_place (P Q : proc) : Prop :=
  p_pid Q = p_pid P /\ p_pgrp Q = p_pgrp P /\ p_pptr Q = p_pptr P /\ p_cptr Q = p_cptr P /\ p_ru Q = p_ru P
  /\ (p_stat Q = SZOMB <-> p_stat P = SZOMB).

Lemma Inv_put w p P P' : Inv w -> procs w !! p = Some P -> same_place P P' -> Inv (upd p P' w).
Proof.
  intros HI EP (Epid&Epg&Epp&Ecp&Eru&Ezz).
  assert (forall q Q, procs (upd p P' w) !! q = Some Q -> exists Q0, procs w !! q = Some Q0 /\ p_pid Q = p_pid Q0 /\ p_pgrp Q = p_pgrp Q0
    /\ p_pptr Q = p_pptr Q0 /\ p_cptr Q = p_cptr Q0 /\ p_ru Q = p_ru Q0 /\ (p_stat Q = SZOMB <-> p_stat Q0 = SZOMB)) as Hb.
  { intros q Q. rewrite procs_upd_lookup. destruct (decide (q = p)) as [->|]; [|by eauto 10]. intros [= <-]. exists P. split_and!; done. }
  assert (forall q Q0, procs w !! q = Some Q0 -> exists Q, procs (upd p P' w) !! q = Some Q /\ p_pid Q = p_pid Q0 /\ p_pgrp Q = p_pgrp Q0
    /\ p_pptr Q = p_pptr Q0 /\ p_cptr Q = p_cptr Q0 /\ p_ru Q = p_ru Q0 /\ (p_stat Q = SZOMB <-> p_stat Q0 = SZOMB)) as Hf.
  { intros q Q0 EQ. rewrite procs_upd_lookup. destruct (decide (q = p)) as [->|]; [|by eauto 10]. simplify_eq. exists P'. split_and!; done. }
  assert (forall q, ppof (upd p P' w) q = ppof w q) as Hpp by (intros q; by apply (ppof_upd p P' P)).
  pose proof (inv_procs w HI) as HP. pose proof (inv_tree w HI) as HT. pose proof (inv_lead w HI) as HL.
  assert (same_members w (upd p P' w)) as Hm.
  { constructor; [done|done| | |done|done].
    - intros q. unfold alive. rewrite procs_upd_lookup. destruct (decide (q = p)) as [->|]; [|done]. rewrite EP. cbn.
      destruct (Z.eqb_spec (p_stat P') SZOMB), (Z.eqb_spec (p_stat P) SZOMB); tauto.
    - intros q. rewrite pgof_upd. destruct (decide (q = p)) as [->|]; [|done]. unfold pgof. by rewrite EP. }
  constructor.
  - constructor; [apply HP| | |apply HP| | |].
    + intros q. change (known (upd p P' w)) with (known w). rewrite (po_dom w HP). split; intros (Q&EQ).
      * destruct (Hf q Q EQ) as (Q'&?&_). by eexists. * destruct (Hb q Q EQ) as (Q'&?&_). by eexists.
    + intros q Q EQ. destruct (Hb q Q EQ) as (Q0&EQ0&_&_&_&_&_&->). exact (po_zomb w HP q Q0 EQ0).
    + intros a b A B EA EB. destruct (Hb a A EA) as (A0&EA0&->&_), (Hb b B EB) as (B0&EB0&->&_). by apply (po_pid w HP a b A0 B0).
    + intros q Q EQ. destruct (Hb q Q EQ) as (Q0&EQ0&->&_). exact (po_range w HP q Q0 EQ0).
    + refine (hashes_ext _ _ _ _ _ _ (po_hash w HP) _). intros q n. split.
      * intros (Q&EQ&?&?). destruct (Hb q Q EQ) as (Q0&?&E1&_&_&_&_&E2). exists Q0. rewrite <- E1, <- E2. done.
      * intros (Q0&EQ&?&?). destruct (Hf q Q0 EQ) as (Q&?&E1&_&_&_&_&E2). exists Q. rewrite E1, E2. done.
  - constructor.
    + intros q Q EQ Hq. destruct (Hb q Q EQ) as (Q0&EQ0&_&_&->&_). destruct (to_parent w HT q Q0 EQ0 Hq) as (r&R0&Er&ER&?&?).
      destruct (Hf r R0 ER) as (R&?&_&_&_&Ec&_&Ez). exists r, R. rewrite Ez, Ec. done.
    + destruct (to_root w HT) as (R0&ER&?&?). destruct (Hf _ R0 ER) as (R&?&_&_&Ep&_&_&Ez). exists R. rewrite Ez, Ep. done.
    + intros q Q EQ. destruct (Hb q Q EQ) as (Q0&EQ0&_&_&_&->&_). destruct (to_child w HT q Q0 EQ0) as (?&Hc). split; [done|].
      intros c Hin. rewrite Hpp. by apply Hc.
    + intros q Q EQ. destruct (Hb q Q EQ) as (Q0&EQ0&_). eapply rtc_subrel; [|exact (to_reach w HT q Q0 EQ0)]. intros a b Hab. by rewrite Hpp.
    + rewrite Hpp. apply (to_init w HT).
  - by apply (groups_ok_upd None [] p P' P); [apply HI|..].
  - constructor.
    + intros s S q ES El HL'. destruct (lo_leader _ w HL s S q ES El HL') as (Q0&g&G&EQ&?&?&?&?&?).
      destruct (Hf q Q0 EQ) as (Q&?&?&?&_&_&_&Ez). exists Q, g, G. rewrite Ez. split_and!; congruence || done.
    + intros q Q g G EQ EG Ei HL'. destruct (Hb q Q EQ) as (Q0&EQ0&?&?&_). destruct (lo_own _ w HL q Q0 g G EQ0 EG) as (h&?&?); [congruence|done|].
      exists h. split; [congruence|done].
    + destruct (lo_init _ w HL) as (I0&g&s&S&EI&?&?&?&?&?&?). destruct (Hf _ I0 EI) as (I&?&?&?&_). exists I, g, s, S. split_and!; congruence || done.
  - destruct (inv_tty w HI). by constructor.
  - intros x X EX Hx. rewrite (jobs_same w _ x Hm). rewrite (init_session_same w _ Hm) in Hx. exact (inv_jobs w HI x X EX Hx).
  - intros q Q EQ. destruct (Hb q Q EQ) as (Q0&EQ0&_&_&_&_&->&->). exact (inv_ru w HI q Q0 EQ0).
Qed.

Lemma Inv_sched w p P stat flag : Inv w -> procs w !! p = Some P -> p_stat P <> SZOMB -> stat <> SZOMB ->
  Inv (upd p (set_p_stat stat (set_p_flag flag P)) w).
Proof. intros HI EP Hs Hn. by apply (Inv_put w p P). Qed.

(** The processes change, but none its place. *)
Record placed (w w' : pworld) : Prop := mkPlaced {
  pl_frame : w' = set_procs (procs w') w;
  pl_procs : forall p, option_Forall2 same_place (procs w !! p) (procs w' !! p);
}.

Lemma same_place_refl P : same_place P P.
Proof. by unfold same_place. Qed.
Lemma same_place_trans P Q R : same_place P Q -> same_place Q R -> same_place P R.
Proof. unfold same_place. intros (?&?&?&?&?&?) (?&?&?&?&?&?). split_and!; congruence || tauto. Qed.
#[export] Hint Resolve same_place_refl : kernel.

Lemma placed_refl w : placed w w.
Proof. constructor; [by destruct w|]. intros p. destruct (procs w !! p); constructor. apply same_place_refl. Qed.

Lemma placed_trans w1 w2 w3 : placed w1 w2 -> placed w2 w3 -> placed w1 w3.
Proof.
  intros [E1 H1] [E2 H2]. constructor; [rewrite E2, E1; by destruct w1|]. intros p. specialize (H1 p). specialize (H2 p).
  destruct (procs w1 !! p), (procs w2 !! p), (procs w3 !! p); inversion H1; inversion H2; subst; constructor.
  by eapply same_place_trans.
Qed.

Lemma placed_in w w' p P : placed w w' -> procs w !! p = Some P -> exists P', procs w' !! p = Some P' /\ same_place P P'.
Proof. intros [_ Hp] E. specialize (Hp p). rewrite E in Hp. inversion Hp; subst. eauto. Qed.

Lemma placed_put w p P P' : procs w !! p = Some P -> same_place P P' -> placed w (upd p P' w).
Proof.
  intros E Hs. constructor; [by destruct w|]. intros q. rewrite procs_upd_lookup. destruct (decide (q = p)) as [->|].
  - rewrite E. by constructor.
  - destruct (procs w !! q); constructor. apply same_place_refl.
Qed.

(** One process at a time: those of the list [l] are all that change. *)
Lemma Inv_placed_list m : forall (l : list loc) w, (forall p, p ∉ l -> m !! p = procs w !! p) ->
  (forall p, option_Forall2 same_place (procs w !! p) (m !! p)) -> Inv w -> Inv (set_procs m w).
Proof.
  induction l as [|p l IH]; intros w Ho Hp HI.
  - replace (set_procs m w) with w; [done|]. transitivity (set_procs (procs w) w); [by destruct w|]. f_equal.
    symmetry. apply map_eq. intros q. apply Ho, not_elem_of_nil.
  - pose proof (Hp p) as Hpp. destruct (m !! p) as [P'|] eqn:E'.
    + inversion Hpp as [P ? Hs E0|]; subst. symmetry in E0. change (set_procs m w) with (set_procs m (upd p P' w)).
      apply IH; [| |by eapply Inv_put].
      * intros q Hq. rewrite procs_upd_lookup. destruct (decide (q = p)) as [->|]; [done|]. apply Ho. rewrite elem_of_cons. tauto.
      * intros q. rewrite procs_upd_lookup. destruct (decide (q = p)) as [->|]; [|apply Hp]. rewrite E'. constructor. apply same_place_refl.
    + inversion Hpp as [|E0]. apply IH; [|done..]. intros q Hq. destruct (decide (q = p)) as [->|]; [congruence|].
      apply Ho. rewrite elem_of_cons. tauto.
Qed.

Lemma Inv_placed w w' : Inv w -> placed w w' -> Inv w'.
Proof.
  intros HI [-> Hp]. apply (Inv_placed_list _ (elements (dom (procs w)))); [|exact Hp|done].
  intros p Hn. rewrite elem_of_elements, elem_of_dom in Hn. specialize (Hp p).
  destruct (procs w !! p); [destruct Hn; by eexists|]. by inversion Hp.
Qed.

Lemma fmap_Ok {A B} (f : A -> B) (x : outcome A) a : x = Ok a -> f <$> x = Ok (f a).
Proof. by intros ->. Qed.

Lemma step_ok o w : Inv w -> legal o w = true -> exists w', step o w = Ok w' /\ Inv w'.
Proof.
  intros HI Hl. destruct o as [p pid xstat v|p|p pid pgid|p t vp|p t pgid|t|p stat flag|p rv|p a]; cbn [legal step] in *.
  - apply andb_true_iff in Hl as ((P&EP&Hs)%alive_true&Hf%fresh_pidb_spec).
    destruct (fork_child_ok w p P pid xstat v HI EP Hs Hf) as (p2&w'&E&?&_). exists w'. by rewrite E.
  - apply runs_true in Hl as (P&EP&Hs&Hp). destruct (setsid_ok w p P HI EP Hs Hp) as [(_&E)|(_&w'&E&?&_)]; rewrite E; eexists; done.
  - apply runs_true in Hl as (P&EP&Hs&Hp).
    destruct (setpgid_ok w p P pid pgid HI EP Hs Hp) as [(t&T&w'&_&_&E&?&_)|[(_&E)|[(t&T&_&_&_&_&_&E)|(t&T&_&_&E&_)]]]; rewrite E; eexists; done.
  - apply andb_true_iff in Hl as ((P&EP&Hs&Hp)%runs_true&(T&ET)%bool_decide_eq_true).
    destruct (sctty_ok w p P t T vp HI EP ET) as (g&s&S&_&_&_&[(_&_&w'&E&?&_)|(_&E)]); rewrite E; eexists; done.
  - apply andb_true_iff in Hl as ((P&EP&Hs&Hp)%runs_true&(T&ET)%bool_decide_eq_true).
    pose proof (spgrp_ok w p P t T pgid HI EP ET) as H. cbv zeta in H. destruct (negb _); [destruct H as (E&_); rewrite E; by eexists|].
    destruct H as [(w'&E&?&_)|(_&E)]; rewrite E; eexists; done.
  - apply bool_decide_eq_true in Hl as (T&ET). unfold ttyclose. rewrite ET. eexists. split; [done|]. by apply (Inv_ttyclose w t T).
  - apply andb_true_iff in Hl as ((P&EP&Hs)%alive_true&Hn%negb_true_iff%Z.eqb_neq). unfold sched. rewrite EP. eexists. split; [done|].
    by apply (Inv_sched w p P stat flag).
  - apply andb_true_iff in Hl as ((P&EP&Hs&Hp)%runs_true&Hn%negb_true_iff%bool_decide_eq_false).
    destruct (kexit_ok w p P rv HI EP Hs Hp) as [(?&_)|(_&w'&E&?&_)]; [done|]. by exists w'.
  - apply runs_true in Hl as (P&EP&Hs&Hp). pose proof (wait1_ok w p P a HI EP Hs) as H. cbv zeta in H.
    destruct H as [(_&E)|[(_&_&E)|(l1&c&l2&C&_&_&_&_&_&Hr)]]; [rewrite E; eexists; done..|]. unfold wait_reports in Hr.
    destruct (p_stat C =? SZOMB); [destruct Hr as (ru&_&Hr); cbv zeta in Hr; destruct (_ && _) in Hr|];
      [destruct Hr as (w'&E&?&_)|rename Hr into E|destruct Hr as (w'&E&?&_)]; rewrite E; eexists; done.
Qed.

Lemma run_ok os w : Inv w -> legal_run os w = true -> exists w', run os w = Ok w' /\ Inv w'.
Proof.
  revert w. induction os as [|o os IH]; intros w HI Hl; cbn [run legal_run] in *; [by exists w|].
  apply andb_true_iff in Hl as (Ho&Hl). destruct (step_ok o w HI Ho) as (w1&E&HI1). rewrite E in *. cbn [mbind outcome_bind].
  by apply IH.
Qed.

(** ** The world at the start *)

(** Process 0, alone in its session, and init, which has made one of its own;
    and one terminal. *)
Definition boot_proc (pid : Z) (g : loc) (up : option loc) (down : list loc) : proc :=
  mkProc pid (Some g) up down SRUN SLOAD 0 TimeVal.timerclear TimeVal.timerclear ru0 ru0 None.
Definition boot : pworld :=
  mkPworld
    (<[1%positive := boot_proc 0 1 None [2%positive]]> (<[2%positive := boot_proc 1 2 (Some 1%positive) []]> ∅))
    (<[1%positive := mkPgrp 0 [1%positive] 1 0]> (<[2%positive := mkPgrp 1 [2%positive] 2 0]> ∅))
    (<[1%positive := mkSession 1 (Some 1%positive) None None []]> (<[2%positive := mkSession 1 (Some 2%positive) None None []]> ∅))
    (<[1%positive := mkTty None None]> ∅)
    (<[1 := [2%positive]]> ∅) (<[0 := [1%positive]]> (<[1 := [2%positive]]> ∅))
    [2%positive; 1%positive] [] 2 1 2 [].

Ltac boot_cases H :=
  cbn in H; repeat (apply lookup_insert_Some in H as [(<-&<-)|(?&H)]); try (by rewrite lookup_empty in H).

Lemma boot_Inv : Inv boot.
Proof.
  assert (forall p P, procs boot !! p = Some P -> p = 1%positive /\ P = boot_proc 0 1 None [2%positive]
    \/ p = 2%positive /\ P = boot_proc 1 2 (Some 1%positive) []) as HP.
  { intros p P H. boot_cases H; [by left|by right]. }
  assert (forall g G, pgrps boot !! g = Some G -> g = 1%positive /\ G = mkPgrp 0 [1%positive] 1 0
    \/ g = 2%positive /\ G = mkPgrp 1 [2%positive] 2 0) as HG.
  { intros g G H. boot_cases H; [by left|by right]. }
  assert (forall s S, sessions boot !! s = Some S -> s = 1%positive /\ S = mkSession 1 (Some 1%positive) None None []
    \/ s = 2%positive /\ S = mkSession 1 (Some 2%positive) None None []) as HS.
  { intros s S H. boot_cases H; [by left|by right]. }
  assert (forall t T, ttys boot !! t = Some T -> t = 1%positive /\ T = mkTty None None) as HT.
  { intros t T H. by boot_cases H. }
  assert (forall n, (n = 1 /\ chain (pidhash boot) n = [2%positive]) \/ (n <> 1 /\ chain (pidhash boot) n = [])) as Hc1.
  { intros n. unfold chain. cbn. destruct (decide (n = 1)) as [->|Hn]; [by left|right]. split; [done|]. by rewrite lookup_insert_ne. }
  assert (forall n, (n = 0 /\ chain (pgrphash boot) n = [1%positive]) \/ (n = 1 /\ chain (pgrphash boot) n = [2%positive])
    \/ (n <> 0 /\ n <> 1 /\ chain (pgrphash boot) n = [])) as Hc2.
  { intros n. unfold chain. cbn. destruct (decide (n = 0)) as [->|H0]; [by left|]. destruct (decide (n = 1)) as [->|H1]; [by right; left|].
    right; right. split_and!; [done..|]. by rewrite !lookup_insert_ne. }
  constructor.
  - constructor.
    + apply (bool_decide_unpack _). by vm_compute.
    + intros p. unfold known. cbn [allproc zombproc boot app]. rewrite !elem_of_cons. split.
      * intros [->|[->|H]]; [by eexists..|by apply not_elem_of_nil in H].
      * intros (P&[(->&_)|(->&_)]%HP); [by right; left|by left].
    + intros p P [(->&->)|(->&->)]%HP; split; intros H; [by apply not_elem_of_nil in H|done|by apply not_elem_of_nil in H|done].
    + done.
    + intros p q P Q [(->&->)|(->&->)]%HP [(->&->)|(->&->)]%HP; done.
    + intros p P [(->&->)|(->&->)]%HP; cbn; split; lia || done.
    + intros n. destruct (Hc1 n) as [(->&->)|(Hn&->)]; (split; [apply (bool_decide_unpack _); by vm_compute|]); intros p; split.
      * intros ->%list_elem_of_singleton. by eexists.
      * intros (P&[(->&->)|(->&->)]%HP&(_&?)&_); [done|]. by left.
      * by intros ?%not_elem_of_nil.
      * intros (P&[(->&->)|(->&->)]%HP&(_&?)&E); [done|]. by destruct Hn.
  - constructor.
    + intros p P [(->&->)|(->&->)]%HP Hn; [done|]. exists 1%positive. eexists. split_and!; [done..|]. by left.
    + by eexists.
    + intros p P [(->&->)|(->&->)]%HP; (split; [apply (bool_decide_unpack _); by vm_compute|]); intros c Hc.
      * apply list_elem_of_singleton in Hc as ->. done. * by apply not_elem_of_nil in Hc.
    + intros p P [(->&->)|(->&->)]%HP; [apply rtc_refl|by apply rtc_once].
    + done.
  - constructor.
    + intros p P [(->&->)|(->&->)]%HP _; [exists 1%positive|exists 2%positive]; eexists; (split_and!; [done..|by left]).
    + intros g G [(->&->)|(->&->)]%HG; (split_and!; [by left|apply (bool_decide_unpack _); by vm_compute|]);
        intros p ->%list_elem_of_singleton; done.
    + intros g h G H [(->&->)|(->&->)]%HG [(->&->)|(->&->)]%HG; done.
    + intros n. destruct (Hc2 n) as [(->&->)|[(->&->)|(H0&H1&->)]]; (split; [apply (bool_decide_unpack _); by vm_compute|]); intros g; split.
      * intros ->%list_elem_of_singleton. by eexists.
      * intros (G&[(->&->)|(->&->)]%HG&_&?); [by left|done].
      * intros ->%list_elem_of_singleton. by eexists.
      * intros (G&[(->&->)|(->&->)]%HG&_&?); [done|by left].
      * by intros ?%not_elem_of_nil.
      * intros (G&[(->&->)|(->&->)]%HG&_&E); [by destruct H0|by destruct H1].
    + intros g G [(->&->)|(->&->)]%HG; by eexists.
    + intros s S [(->&->)|(->&->)]%HS; (split; [by vm_compute|done]).
  - constructor.
    + intros s S p [(->&->)|(->&->)]%HS; intros [= <-] _; do 3 eexists; (split_and!; done).
    + intros p P g G [(->&->)|(->&->)]%HP [(->&->)|(->&->)]%HG; intros; try done; eexists; split; done.
    + do 4 eexists. split_and!; done.
  - constructor.
    + intros t T g (->&->)%HT. done. + intros t T s (->&->)%HT. done.
    + intros s S [(->&->)|(->&->)]%HS; by intros []. + intros s S t [(->&->)|(->&->)]%HS; done.
  - intros g G [(->&->)|(->&->)]%HG _; by vm_compute.
  - intros p P [(->&->)|(->&->)]%HP; done.
Qed.

(** ** The system *)

(** A group is orphaned when every live member's parent is in the group or of another
    session. *)
Definition orphaned (w : pworld) (g : loc) (G : pgrp) : Prop :=
  forall p q h, p ∈ pg_mem G -> alive w p = true -> ppof w p = Some q -> pgof w q = Some h ->
    h = g \/ sesof w h <> Some (pg_session G).

Lemma sumZ_all_0 f l : (forall x, 0 <= f x) -> sumZ f l = 0 -> forall x, x ∈ l -> f x = 0.
Proof.
  intros Hf. induction l as [|y l IH]; intros H x Hx; [by apply not_elem_of_nil in Hx|].
  rewrite sumZ_cons in H. pose proof (sumZ_nonneg f l Hf). pose proof (Hf y).
  apply elem_of_cons in Hx as [->|Hx]; [lia|]. apply IH; [lia|done].
Qed.

Lemma jobs_orphaned w g G : Inv w -> pgrps w !! g = Some G -> (jobs w g = 0 <-> orphaned w g G).
Proof.
  intros HI EG. assert (sesof w g = Some (pg_session G)) as Es by (apply sesof_Some; eauto). split.
  - intros Hj p q h Hp Ha Eq Eh. destruct (go_mem _ _ w (inv_groups w HI) g G EG) as (_&_&Hm). destruct (Hm p Hp) as (_&Hpg).
    assert (Z.b2z (qual w g p) = 0) as Hq.
    { apply (sumZ_all_0 (fun p => Z.b2z (qual w g p)) (known w)); [intros x; by destruct (qual w g x)|done|].
      apply (po_dom w (inv_procs w HI)). apply pgof_Some in Hpg as (P&?&_). by eexists. }
    unfold qual in Hq. rewrite Hpg, Ha, Eq, bool_decide_true in Hq by done. cbn [mbind option_bind andb] in Hq. rewrite Eh, Es in Hq.
    destruct (decide (h = g)) as [->|Hne]; [by left|right]. intros E. rewrite E in Hq.
    by rewrite (bool_decide_false (h = g)), (bool_decide_true (Some _ = Some _)) in Hq by done.
  - intros Ho. apply sumZ_0. intros p _. unfold qual.
    destruct (decide (pgof w p = Some g)) as [Hpg|Hpg]; [|by rewrite bool_decide_false].
    rewrite bool_decide_true by done. destruct (alive w p) eqn:Ha; [|done]. cbn [andb].
    destruct (ppof w p) as [q|] eqn:Eq; cbn [mbind option_bind]; [|done]. destruct (pgof w q) as [h|] eqn:Eh; [|done].
    assert (p ∈ pg_mem G) as Hp.
    { apply pgof_Some in Hpg as (P&EP&Epg). destruct (go_group _ _ w (inv_groups w HI) p P EP ltac:(done)) as (g'&G'&?&?&?). by simplify_eq. }
    rewrite Es. destruct (Ho p q h Hp Ha Eq Eh) as [->|Hn]; [by rewrite bool_decide_true|].
    rewrite (bool_decide_false (sesof w h = _)) by done. by rewrite andb_false_r.
Qed.
