(* ===== verification/LifeSpec.v ===== *)
(** * The process life cycle: the properties

    What the system calls on processes, groups, sessions and the controlling
    terminal promise, each with a run of the system it applies to. *)

From S2P Require Import Prelude Cred Pgrp PgrpInv PgrpCalls Exit ForkInv ExitInv WaitInv Life.
From S2P Require Fork Resource TimeVal.

(** The world after the steps [os]. *)
Definition world_of (os : list op) : pworld := match run os boot with Ok w => w | _ => boot end.
Definition proc_of (w : pworld) (p : loc) : proc := default (boot_proc 0 1 None []) (procs w !! p).

Lemma world_Inv os : legal_run os boot = true -> Inv (world_of os).
Proof. intros Hl. destruct (run_ok os boot boot_Inv Hl) as (w&E&HI). unfold world_of. by rewrite E. Qed.

(** A shell (5) that leads a session with a terminal, and a job of two processes (6
    and 7) in the foreground, of which one is stopped. *)
Definition session_ops : list op := [Life.Fork 2 5 0 false; Setsid 3; Sctty 3 1 9].
Definition job_ops : list op :=
  session_ops ++ [Life.Fork 3 6 0 false; Setpgid 3 6 6; Life.Fork 3 7 0 false; Setpgid 3 7 6; Spgrp 3 1 6;
                  Sched 5 SSTOP (Z.lor SLOAD SCTTY)].



(** C2. Job control is exact. In any reachable world a group outside init's
    session has the count 0 exactly when it is orphaned, that is, when every
    live member's parent is in the group or in another session. The count is
    what the terminal driver and the signal code test before they stop a
    process. *)
Theorem jobc_orphaned os w g G : legal_run os boot = true -> run os boot = Ok w ->
  pgrps w !! g = Some G -> sesof w g <> init_session w -> (pg_jobc G = 0 <-> orphaned w g G).
Proof.
  intros Hl Er EG Hs. destruct (run_ok os boot boot_Inv Hl) as (w'&E&HI). rewrite Er in E. injection E as <-.
  rewrite (inv_jobs w HI g G EG Hs). by apply jobs_orphaned.
Qed.

Lemma jobc_orphaned_witness : exists G, pgrps (world_of job_ops) !! 4%positive = Some G /\ pg_jobc G = 2 /\ ~ orphaned (world_of job_ops) 4 G.
Proof.
  eexists. split; [by vm_compute|]. split; [done|]. intros Ho.
  apply (jobc_orphaned job_ops (world_of job_ops) 4) in Ho; [done|by vm_compute|by vm_compute|by vm_compute|by vm_compute].
Defined.

(** setsid fails with EPERM, changing nothing, exactly when some process
    group has the caller's pid as its id. Otherwise the caller leads a new
    session without a terminal, alone in a new group with its pid as id; no
    other process changes group, every group that loses its last member
    qualified for job control is told once (SIGHUP and SIGCONT to its members
    when one is stopped), and the invariant holds. *)
Theorem setsid_spec w p P : Inv w -> procs w !! p = Some P -> p_stat P <> SZOMB -> p <> proc0 w ->
  ((exists g G, pgrps w !! g = Some G /\ pg_id G = p_pid P) /\ setsid p w = Ok (EPERM, 0, w)) \/
  ((forall g G, pgrps w !! g = Some G -> pg_id G <> p_pid P) /\
   exists w', setsid p w = Ok (0, p_pid P, w') /\ Inv w' /\ entered p (p_pid P) true w w').
Proof. exact (setsid_ok w p P). Qed.

Lemma setsid_spec_witness : let w := world_of [Life.Fork 2 5 0 false] in exists w', setsid 3 w = Ok (0, 5, w') /\ Inv w' /\ entered 3 5 true w w'.
Proof.
  cbv zeta. destruct (setsid_spec (world_of [Life.Fork 2 5 0 false]) 3 (proc_of (world_of [Life.Fork 2 5 0 false]) 3)) as [(_&E)|(_&w'&E&H)].
  - apply world_Inv. by vm_compute.
  - by vm_compute.
  - by vm_compute.
  - by vm_compute.
  - exfalso. vm_compute in E. discriminate.
  - exists w'. split; [exact E|exact H].
Defined.



(** C24. fork1, from the choice of the id to the child's place in the process
    tree, refines the search on the table of ids of Fork: it fails with EAGAIN,
    changing nothing, exactly when the table is at maxproc or the user (other than
    root) has more processes, zombies included, than its limit; otherwise (when some
    id from 100 on is unused and no process has a group id next to its own) the
    caller gets a runnable child in its group and session, with an id that no
    process and no group has, the table of ids is the one the search leaves, and the
    invariant holds. *)
Theorem fork1_refines w uid maxproc cur p1 P1 xstat isvfork n c m : Inv w ->
  procs w !! p1 = Some P1 -> p_stat P1 <> SZOMB ->
  let t := ftable_of uid n c w in
  let ids := Fork.allproc t ++ Fork.zombproc t in
  Fork.table_ok t -> Fork.no_neighbours ids -> 100 <= m < Fork.PID_MAX -> ~ Fork.used ids m ->
  (exists t', fork1 maxproc cur uid p1 xstat isvfork n c w = Ok (EAGAIN, 0, None, t', w) /\ t' = t
     /\ fork_full maxproc cur uid p1 w)
  \/ (exists pid p2 t' w', fork1 maxproc cur uid p1 xstat isvfork n c w = Ok (0, pid, Some p2, t', w')
     /\ ~ fork_full maxproc cur uid p1 w /\ Inv w' /\ forked p1 pid isvfork w p2 w' /\ fresh_pid w pid
     /\ t' = ftable_of (fun x => if decide (x = p2) then uid p1 else uid x) (Fork.nextpid t') (Fork.pidchecked t') w'
     /\ Fork.table_ok t').
Proof.
  intros HI EP Hs t ids Ht Hn Hm Hu. unfold fork1. fold t.
  assert (fview uid w p1 ∈ Fork.allproc t) as Hin.
  { apply list_elem_of_fmap. exists p1. split; [done|].
    assert (p1 ∈ known w) as Hk by (apply (po_dom w (inv_procs w HI)); by eexists).
    apply elem_of_app in Hk as [|Hz]; [done|]. by apply (po_zomb w (inv_procs w HI) p1 P1 EP) in Hz. }
  destruct (Fork.fork1_total maxproc cur (fview uid w p1) t m Ht Hin Hm Hu) as (error&pid&t'&->&He1&He2&He3).
  cbn [mbind outcome_bind]. destruct (decide (error = EAGAIN)) as [->|Hne].
  - left. exists t'. split; [done|]. split; [by apply He2|]. by apply (fork_full_code _ _ _ _ n c), He1.
  - right. destruct (He3 Hne) as (->&En&Eall&Ez&Hfr). destruct (Hfr Hn) as (Hr&Hun&Hok). cbn [negb Z.eqb].
    destruct (fork_child_ok w p1 P1 pid xstat isvfork) as (p2&w'&->&HI'&Hfk); [done..|by eapply unused_fresh|].
    exists pid, p2, t', w'. split; [done|]. split; [intros Hfull%(fork_full_code _ _ _ _ n c); by apply Hne, He1|]. split; [done|]. split; [done|].
    split; [by eapply unused_fresh|]. split; [|done].
    destruct (fk_lists _ _ _ _ _ _ Hfk) as (Ea'&Ez'&En'&_). destruct (fk_child _ _ _ _ _ _ Hfk) as (P2&EP2&Epid&_&_&_&Epg&_).
    assert (forall l, l ⊆ known w -> fview (fun x => if decide (x = p2) then uid p1 else uid x) w' <$> l = fview uid w <$> l) as Hl.
    { intros l Hsub. apply list_fmap_ext. intros i q Hq%list_elem_of_lookup_2. apply (fview_forked uid p1 pid isvfork w p2); [done|].
      by apply (po_dom w (inv_procs w HI)), Hsub. }
    destruct t' as [ta tz tn tnp tc]. cbn in Eall, Ez, En. subst. unfold ftable_of. cbn [Fork.nextpid Fork.pidchecked].
    rewrite Ea', Ez', En'. cbn [fmap list_fmap]. f_equal; [|symmetry; apply Hl; unfold known; set_solver].
    f_equal; [|symmetry; apply Hl; unfold known; set_solver]. unfold fview at 1. rewrite EP2, decide_True by done. cbn [fmap option_fmap option_map default].
    unfold id. f_equal. unfold pgid_of. rewrite Epg. destruct (pgof w p1) as [g|]; cbn [mbind option_bind]; [|done].
    by rewrite (fk_ids _ _ _ _ _ _ Hfk).
Qed.

Lemma fork1_refines_witness : let w := world_of session_ops in
  exists t' w', fork1 20 10 (fun _ => 0) 3 0 false 5 0 w = Ok (0, 6, Some 4%positive, t', w') /\ Inv w' /\ Fork.table_ok t'.
Proof.
  cbv zeta. assert (Fork.allproc (ftable_of (fun _ => 0) 5 0 (world_of session_ops))
      ++ Fork.zombproc (ftable_of (fun _ => 0) 5 0 (world_of session_ops))
    = [Fork.mkFproc 5 5 0; Fork.mkFproc 1 1 0; Fork.mkFproc 0 0 0]) as El by (by vm_compute).
  destruct (fork1_refines (world_of session_ops) (fun _ => 0) 20 10 3 (proc_of (world_of session_ops) 3) 0 false 5 0 100)
    as [(t'&E&_)|(pid&p2&t'&w'&E&_&HI&_&_&_&Ht)].
  - apply world_Inv. by vm_compute.
  - by vm_compute.
  - by vm_compute.
  - split; [by vm_compute|]. split; [by vm_compute|]. intros i Hi. cbn in Hi. lia.
  - intros x Hx. rewrite El, !elem_of_cons in Hx.
    destruct Hx as [->|[->|[->|Hx]]]; [cbn; lia..|by apply not_elem_of_nil in Hx].
  - unfold Fork.PID_MAX. lia.
  - intros (x&Hx&Hi). rewrite El, !elem_of_cons in Hx.
    destruct Hx as [->|[->|[->|Hx]]]; [cbn in Hi; lia..|by apply not_elem_of_nil in Hx].
  - exfalso. vm_compute in E. discriminate.
  - exists t', w'. pose proof E as E'. vm_compute in E'. injection E' as <- <- _ _. split; [exact E|]. split; [exact HI|exact Ht].
Defined.



(** C20. wait1 fails with ECHILD exactly when no child matches the argument. It
    stops at the first matching child, youngest first, with something to report: a
    zombie, or a stopped process whose SWTED is clear and that is traced or asked
    about by WUNTRACED; when there is none it sleeps (or returns 0 for WNOHANG),
    changing nothing. A stop is reported once: the report sets SWTED, also when the
    copyout of the status fails, and then the child has nothing to report to any
    call of wait1. A zombie's status and usage are handed over and the zombie is
    reaped, its usage added to the caller's; after a failed copyout it is still
    there. The invariant holds. *)
Theorem wait1_spec w q Q a : Inv w -> procs w !! q = Some Q -> p_stat Q <> SZOMB ->
  let pid := wait_pid w q a in
  (existsb (matches w pid) (p_cptr Q) = false /\ wait1 q a w = Ok (WReturn ECHILD 0 0, w))
  \/ (existsb (matches w pid) (p_cptr Q) = true /\ (forall c, c ∈ p_cptr Q -> matches w pid c && ready w a c = false)
      /\ wait1 q a w = Ok (if has (wa_options a) WNOHANG then WReturn 0 0 0 else WSleep, w))
  \/ (exists l1 c l2 C, p_cptr Q = l1 ++ c :: l2 /\ (forall x, x ∈ l1 -> matches w pid x && ready w a x = false)
      /\ procs w !! c = Some C /\ matches w pid c = true /\ ready w a c = true /\ wait_reports q c C a w (wait1 q a w)).
Proof. exact (wait1_ok w q Q a). Qed.

Lemma wait1_spec_witness : let w := world_of (job_ops ++ [Exit 4 0]) in
  exists w', wait1 3 (mkWait (-6) None WNOHANG None false) w = Ok (WReturn 0 6 0, w') /\ Inv w'.
Proof.
  cbv zeta. set (os := job_ops ++ [Exit 4 0]). set (a := mkWait (-6) None WNOHANG None false).
  pose proof (wait1_spec (world_of os) 3 (proc_of (world_of os) 3) a) as H. cbv zeta in H.
  destruct H as [(_&E)|[(_&_&E)|(l1&c&l2&C&_&_&EC&_&_&Hr)]].
  - apply world_Inv. by vm_compute.
  - by vm_compute.
  - by vm_compute.
  - exfalso. vm_compute in E. discriminate.
  - exfalso. vm_compute in E. discriminate.
  - unfold wait_reports in Hr. destruct (p_stat C =? SZOMB).
    + destruct Hr as (ru&_&w'&E&HI&_). exists w'. split; [|exact HI].
      assert (p_pid C = 6) as Hp by (vm_compute in E; injection E as Hp _; symmetry; exact Hp). rewrite E, Hp. done.
    + destruct Hr as (w'&E&HI&_). exists w'. split; [|exact HI].
      assert (p_pid C = 6) as Hp by (vm_compute in E; injection E as Hp _; symmetry; exact Hp). rewrite E, Hp. done.
Defined.

(** Waiting ends. A process that waits for any child until nothing is
    reported is done after as many calls as it has children to report on, and
    one more; its children are then exactly those that had not exited, and none
    of them is left to report. *)
Theorem drain_ends w q Q a : Inv w -> procs w !! q = Some Q -> p_stat Q <> SZOMB ->
  wa_pid a = WAIT_ANY -> wa_status a = None -> wa_rusage a = None ->
  exists w' Q', drain (S (nready w a (p_cptr Q))) q a w = Ok w' /\ Inv w' /\ procs w' !! q = Some Q'
    /\ (forall c, c ∈ p_cptr Q' <-> c ∈ p_cptr Q /\ ~ zombie w c) /\ (forall c, c ∈ p_cptr Q' -> ready w' a c = false).
Proof.
  intros HI EQ Hs Hp Hst Hru. remember (nready w a (p_cptr Q)) as n eqn:En. revert w Q HI EQ Hs En.
  induction n as [n IH] using lt_wf_ind. intros w Q HI EQ Hs En.
  assert (forall c, c ∈ p_cptr Q -> matches w (wait_pid w q a) c = true) as Hm.
  { intros c Hc. apply (to_child w (inv_tree w HI) q Q EQ), ppof_Some in Hc as (C&EC&_). unfold matches, wait_pid. rewrite EC, Hp. done. }
  assert ((forall c, c ∈ p_cptr Q -> ready w a c = false) ->
    (forall c, c ∈ p_cptr Q <-> c ∈ p_cptr Q /\ ~ zombie w c)) as Hnz.
  { intros Hr c. split; [|tauto]. intros Hc. split; [done|]. intros (C&EC&Ez). specialize (Hr c Hc). unfold ready in Hr. rewrite EC in Hr.
    apply bool_decide_eq_false in Hr. apply Hr. by left. }
  pose proof (wait1_ok w q Q a HI EQ Hs) as H. cbv zeta in H. cbn [drain].
  destruct H as [(He&->)|[(_&Hr&->)|(l1&c&l2&C&El&_&EC&_&Hr&H)]]; cbn [mbind outcome_bind].
  - exists w, Q. split; [done|]. assert (p_cptr Q = []) as Enil.
    { destruct (p_cptr Q) as [|x l]; [done|]. cbn in He. by rewrite (Hm x) in He by by left. }
    rewrite Enil in *. split_and!; [done..| |by intros c ?%not_elem_of_nil]. apply Hnz. by intros c ?%not_elem_of_nil.
  - exists w, Q. assert (forall c, c ∈ p_cptr Q -> ready w a c = false) as Hr'.
    { intros c Hc. specialize (Hr c Hc). by rewrite (Hm c Hc) in Hr. }
    split; [by destruct (has (wa_options a) WNOHANG)|]. split_and!; [done..|by apply Hnz|done].
  - assert (c ∈ p_cptr Q) as Hc by (rewrite El; apply elem_of_app; right; by left).
    destruct (report_less w q Q a c C HI EQ Hc EC Hr Hst Hru H) as (pid&r1&w1&Q1&->&Hpid&HI1&EQ1&Es1&En1&Hz1).
    cbn [mbind outcome_bind Z.eqb andb]. destruct (Z.eqb_spec pid 0); [done|]. cbn [negb].
    rewrite En1 in En. subst n.
    destruct (IH (nready w1 a (p_cptr Q1)) ltac:(lia) w1 Q1) as (w'&Q'&E&HI'&EQ'&Hc'&Hr'); [done|done|congruence|done|].
    exists w', Q'. split; [exact E|]. split_and!; [done..| |done]. intros x. rewrite Hc'. apply Hz1.
Qed.

Lemma drain_ends_witness : let w := world_of (job_ops ++ [Exit 4 0]) in
  exists w' Q', drain 2 3 (mkWait WAIT_ANY None WNOHANG None false) w = Ok w' /\ procs w' !! 3%positive = Some Q'
    /\ Inv w' /\ 5%positive ∈ p_cptr Q' /\ 4%positive ∉ p_cptr Q'.
Proof.
  cbv zeta. set (os := job_ops ++ [Exit 4 0]).
  destruct (drain_ends (world_of os) 3 (proc_of (world_of os) 3) (mkWait WAIT_ANY None WNOHANG None false)) as (w'&Q'&E&HI&EQ&Hc&_).
  - apply world_Inv. by vm_compute.
  - by vm_compute.
  - by vm_compute.
  - done.
  - done.
  - done.
  - exists w', Q'. split; [exact E|]. split; [exact EQ|]. split; [exact HI|]. rewrite !Hc. split.
    + assert (p_cptr (proc_of (world_of os) 3) = [5%positive; 4%positive]) as -> by (by vm_compute). split; [by left|].
      assert (p_stat <$> procs (world_of os) !! 5%positive = Some SSTOP) as H5 by (by vm_compute).
      intros (C&EC&Ez). rewrite EC in H5. injection H5 as H5. rewrite Ez in H5. discriminate H5.
    + intros (_&Hz). apply Hz. exists (proc_of (world_of os) 4). split; by vm_compute.
Defined.

(** TIOCSCTTY gives the terminal to the caller's session, with the caller's
    group in the foreground, exactly when the caller leads its session and
    either the session has no terminal and the terminal no session, or the
    terminal is already the session's; otherwise it fails with EPERM and changes
    nothing. The invariant holds. *)
Theorem sctty_spec w p P t T vp : Inv w -> procs w !! p = Some P -> ttys w !! t = Some T ->
  exists g s S, pgof w p = Some g /\ sesof w g = Some s /\ sessions w !! s = Some S /\
  ((s_leader S = Some p /\ (s_ttyvp S = None /\ t_session T = None \/ t_session T = Some s) /\
    exists w', vn_ioctl_sctty p t vp w = Ok (0, w') /\ Inv w'
      /\ ttys w' = <[t := mkTty (Some s) (Some g)]> (ttys w)
      /\ sessions w' = <[s := mkSession (s_count S) (Some p) (Some vp) (Some t) (s_login S)]> (sessions w)
      /\ pgrps w' = pgrps w /\ (exists P', procs w' = <[p := P']> (procs w) /\ p_pgrp P' = Some g /\ Z.land (p_flag P') SCTTY <> 0)
      /\ plog w' = plog w ++ [Vref vp])
   \/ (~ (s_leader S = Some p /\ (s_ttyvp S = None /\ t_session T = None \/ t_session T = Some s)) /\
       vn_ioctl_sctty p t vp w = Ok (EPERM, w))).
Proof. exact (sctty_ok w p P t T vp). Qed.

Lemma sctty_spec_witness : let w := world_of [Life.Fork 2 5 0 false; Setsid 3] in
  exists w', vn_ioctl_sctty 3 1 9 w = Ok (0, w') /\ Inv w'.
Proof.
  cbv zeta. set (os := [Life.Fork 2 5 0 false; Setsid 3]).
  destruct (sctty_spec (world_of os) 3 (proc_of (world_of os) 3) 1 (mkTty None None) 9) as (g&s&S&_&_&_&[(_&_&w'&E&HI&_)|(_&E)]).
  - apply world_Inv. by vm_compute.
  - by vm_compute.
  - by vm_compute.
  - exists w'. split; [exact E|exact HI].
  - exfalso. vm_compute in E. discriminate.
Defined.

(** TIOCSPGRP puts a group in the foreground of a terminal exactly when the
    terminal is the caller's controlling terminal (ENOTTY otherwise) and the id
    is that of a group of the caller's session (EPERM otherwise), and the
    invariant holds; TIOCGPGRP then reads the id back. *)
Theorem spgrp_spec w p P t T pgid : Inv w -> procs w !! p = Some P -> ttys w !! t = Some T ->
  let ctty := bool_decide (t_session T = psession w p) && negb (Z.land (p_flag P) SCTTY =? 0) in
  if negb ctty then tiocspgrp p t pgid w = Ok (ENOTTY, w) /\ tiocgpgrp p t w = Ok (ENOTTY, 0)
  else (exists w', tiocspgrp p t pgid w = Ok (0, w') /\ Inv w' /\ group_in w (psession w p) pgid /\ tiocgpgrp p t w' = Ok (0, s16 pgid))
    \/ (~ group_in w (psession w p) pgid /\ tiocspgrp p t pgid w = Ok (EPERM, w)).
Proof. exact (spgrp_ok w p P t T pgid). Qed.

Lemma spgrp_spec_witness : let w := world_of (session_ops ++ [Life.Fork 3 6 0 false; Setpgid 3 6 6]) in
  exists w', tiocspgrp 3 1 6 w = Ok (0, w') /\ Inv w' /\ tiocgpgrp 3 1 w' = Ok (0, 6).
Proof.
  cbv zeta. set (os := session_ops ++ [Life.Fork 3 6 0 false; Setpgid 3 6 6]).
  pose proof (spgrp_spec (world_of os) 3 (proc_of (world_of os) 3) 1 (default (mkTty None None) (ttys (world_of os) !! 1%positive)) 6) as H.
  cbv zeta in H. match type of H with _ -> _ -> _ -> if ?b then _ else _ => assert (b = false) as Hb by (by vm_compute); rewrite Hb in H end.
  destruct H as [(w'&E&HI&_&Eg)|(_&E)].
  - apply world_Inv. by vm_compute.
  - by vm_compute.
  - by vm_compute.
  - exists w'. split; [exact E|]. split; [exact HI|exact Eg].
  - exfalso. vm_compute in E. discriminate.
Defined.

(** In init's session the count drifts. A child of init in a group of its
    own forks and exits; the grandchild, now init's, qualifies the group, but
    kexit has only counted down, and the grandchild's own exit takes the count
    below 0. *)
Theorem jobc_init_drift :
  let os := [Fork 2 5 0 false; Setpgid 2 5 5; Fork 3 6 0 false; Fork 4 7 0 false; Exit 3 0] in
  legal_run (os ++ [Exit 4 0]) boot = true /\
  exists w w', run os boot = Ok w /\ (pg_jobc <$> pgrps w !! 3%positive) = Some 0 /\ jobs w 3%positive = 1
    /\ run [Exit 4 0] w = Ok w' /\ (pg_jobc <$> pgrps w' !! 3%positive) = Some (-1).
Proof. split; [by vm_compute|]. eexists _, _. split; [by vm_compute|]. split; [by vm_compute|]. split; [by vm_compute|]. split; by vm_compute. Qed.

(** A session leader that asks for its controlling terminal again takes another
    reference to the vnode; the exit of the leader gives back one. *)
Theorem sctty_again_leaks :
  let os := [Fork 2 5 0 false; Setsid 3; Sctty 3 1 9; Sctty 3 1 9; Exit 3 0] in
  legal_run os boot = true /\ exists w, run os boot = Ok w
    /\ plog w = [Vref 9; Vref 9; Acct 3; Untimeout 3; Fdfree 3; Psignal 3 SIGHUP; Ttywait 1; Vgoneall 9; Vrele 9; Limfree 3;
                 Psignal 2 SIGCHLD; Wakeup 2; CpuExit 3].
Proof. split; [by vm_compute|]. eexists. split; by vm_compute. Qed.
