(* ===== verification/SleepQ.v ===== *)
(** * The sleep queues as they are linked (sys/kern/kern_synch.c)

    A queue of sleeping processes is a list linked through [p_link] with the
    address of its last link, [sq_tailp].  Insertion, removal and the scan of
    wakeup, on the links, are the operations on the list of the elements that
    [Sleep] uses. *)

From S2P Require Import Prelude Pgrp PgrpInv.

(** The address of a link: of [sq_head], or of the [p_link] of a process. *)
Inductive cell := SqHead | Link (p : loc).
#[export] Instance cell_eq_dec : EqDecision cell.
Proof. solve_decision. Defined.

(** [sq_tailp] starts as a null pointer and is not read while the queue is
    empty. *)
Record slpque := mkSlpque {
  sq_head : option loc;
  sq_tailp : cell;
  p_link : gmap loc (option loc);
}.

Definition get (c : cell) (q : slpque) : outcome (option loc) :=
  match c with SqHead => mret (sq_head q) | Link p => deref (p_link q !! p) end.

Definition put (c : cell) (o : option loc) (q : slpque) : slpque :=
  match c with
  | SqHead => mkSlpque o (sq_tailp q) (p_link q)
  | Link p => mkSlpque (sq_head q) (sq_tailp q) (<[p := o]> (p_link q))
  end.

Definition set_tailp (c : cell) (q : slpque) : slpque := mkSlpque (sq_head q) c (p_link q).

(** tsleep and sleep: the process at the end of the queue. *)
Definition sq_insert (p : loc) (q : slpque) : slpque :=
  let q := match sq_head q with None => put SqHead (Some p) q | Some _ => put (sq_tailp q) (Some p) q end in
  put (Link p) None (set_tailp (Link p) q).

(** [*hp = p->p_link], and the tail moves back if the process was the last. *)
Definition sq_remove (hp : cell) (p : loc) (q : slpque) : outcome slpque :=
  o ← get (Link p) q;
  let q := put hp o q in
  mret (if decide (sq_tailp q = Link p) then set_tailp hp q else q).

(** unsleep: [while ( *hp != p) hp = &( *hp)->p_link], of at most [n] steps. *)
Fixpoint sq_find (n : nat) (p : loc) (hp : cell) (q : slpque) : outcome cell :=
  match n with
  | O => Fault
  | S n => o ← get hp q; r ← deref o; if decide (r = p) then mret hp else sq_find n p (Link r) q
  end.

Definition sq_unsleep (p : loc) (q : slpque) : outcome slpque :=
  hp ← sq_find (S (size (p_link q))) p SqHead q;
  sq_remove hp p q.

(** The loop of wakeup up to the first restart: the processes to wake are taken
    off; a stopped one stays stopped and the loop goes on, another is returned. *)
Fixpoint sq_scan (n : nat) (hit stop : loc -> bool) (c : cell) (q : slpque) : outcome (option loc * slpque) :=
  match n with
  | O => Fault
  | S n =>
      o ← get c q;
      match o with
      | None => mret (None, q)
      | Some p =>
          if hit p then
            q ← sq_remove c p q;
            if stop p then sq_scan n hit stop c q else mret (Some p, q)
          else sq_scan n hit stop (Link p) q
      end
  end.

(** ** The list of a queue *)

Fixpoint seg (m : gmap loc (option loc)) (o : option loc) (l : list loc) (e : option loc) : Prop :=
  match l with
  | [] => o = e
  | p :: l => o = Some p /\ exists o', m !! p = Some o' /\ seg m o' l e
  end.

Definition last_cell (l : list loc) : cell := match list.last l with Some p => Link p | None => SqHead end.

(** The links of [q] hold the list [l]. *)
Record repr (q : slpque) (l : list loc) : Prop := mkRepr {
  rp_nodup : NoDup l;
  rp_seg : seg (p_link q) (sq_head q) l None;
  rp_tail : l <> [] -> sq_tailp q = last_cell l;
}.

Lemma last_cell_app l p : last_cell (l ++ [p]) = Link p.
Proof. unfold last_cell. by rewrite last_snoc. Qed.

Lemma last_cell_cons p l : last_cell (p :: l) = match last_cell l with SqHead => Link p | c => c end.
Proof. unfold last_cell. destruct l as [|x l]; [done|]. rewrite last_cons_cons. by destruct (list.last (x :: l)) eqn:E; [|apply last_None in E]. Qed.

Lemma last_cell_app2 l k : k <> [] -> last_cell (l ++ k) = last_cell k.
Proof. intros Hk. unfold last_cell. rewrite last_app. destruct (list.last k) eqn:E; [done|]. by apply last_None in E. Qed.

Lemma seg_app m o l k e : seg m o (l ++ k) e <-> exists o', seg m o l o' /\ seg m o' k e.
Proof.
  revert o. induction l as [|p l IH]; intros o; cbn.
  - split; [by eexists|]. by intros (?&->&?).
  - setoid_rewrite IH. naive_solver.
Qed.

Lemma seg_insert_ne m o l e p v : p ∉ l -> seg (<[p := v]> m) o l e <-> seg m o l e.
Proof.
  revert o. induction l as [|x l IH]; intros o Hp; cbn; [done|]. apply not_elem_of_cons in Hp as (?&?).
  rewrite lookup_insert_ne by done. by setoid_rewrite IH.
Qed.

Lemma seg_last q l e : seg (p_link q) (sq_head q) l e -> get (last_cell l) q = Ok e.
Proof.
  destruct l as [|p l] using rev_ind; [by intros <-|]. rewrite last_cell_app.
  intros (o&_&_&o'&E&<-)%seg_app. cbn. by rewrite E.
Qed.

(** Another value in the last link. *)
Lemma seg_put q l e v : NoDup l -> seg (p_link q) (sq_head q) l e ->
  let q' := put (last_cell l) v q in seg (p_link q') (sq_head q') l v /\ sq_tailp q' = sq_tailp q.
Proof.
  destruct l as [|p l _] using rev_ind; [done|]. intros (_&Hn&_)%list.NoDup_app Hs. rewrite last_cell_app. cbn.
  split; [|done]. apply seg_app in Hs as (o&Hs&->&o'&E&_). apply seg_app. exists (Some p). split.
  - apply seg_insert_ne; [|done]. intros Hp. apply (Hn p Hp). by left.
  - split; [done|]. exists v. by rewrite lookup_insert_eq.
Qed.

(** The links of a segment whose processes are not [last_cell l]. *)
Lemma seg_put_other q l k v o e : NoDup (l ++ k) -> seg (p_link q) o k e -> seg (p_link (put (last_cell l) v q)) o k e.
Proof.
  destruct l as [|p l _] using rev_ind; [done|]. rewrite last_cell_app. intros (_&Hn&_)%list.NoDup_app Hs. cbn.
  apply seg_insert_ne; [|done]. apply Hn, elem_of_app. right. by left.
Qed.

Lemma sq_insert_repr p q l : repr q l -> p ∉ l -> repr (sq_insert p q) (l ++ [p]).
Proof.
  intros [Hn Hs Ht] Hp.
  assert (match sq_head q with None => put SqHead (Some p) q | Some _ => put (sq_tailp q) (Some p) q end
    = put (last_cell l) (Some p) q) as E.
  { destruct l as [|x l]; [by cbn in Hs; rewrite Hs|]. destruct Hs as (->&_). by rewrite Ht. }
  destruct (seg_put q l None (Some p) Hn Hs) as (Hs'&_). constructor.
  - apply list.NoDup_app. split_and!; [done|set_solver|apply NoDup_singleton].
  - unfold sq_insert. rewrite E. cbn. apply seg_app. exists (Some p). split.
    + by apply seg_insert_ne.
    + split; [done|]. exists None. by rewrite lookup_insert_eq.
  - intros _. unfold sq_insert. rewrite E, last_cell_app. done.
Qed.

Lemma sq_remove_repr q l p k : repr q (l ++ p :: k) ->
  exists q', sq_remove (last_cell l) p q = Ok q' /\ repr q' (l ++ k).
Proof.
  intros [Hn Hs Ht]. pose proof Hs as Hs0.
  apply seg_app in Hs as (o&Hl&->&o'&E&Hk).
  assert (p ∉ l /\ p ∉ k /\ NoDup (l ++ k)) as (Hpl&Hpk&Hnd).
  { apply list.NoDup_app in Hn as (?&H2&(?&?)%list.NoDup_cons). split_and!; [|done|].
    - intros Hp. apply (H2 p Hp). by left. - apply list.NoDup_app. split_and!; [done|set_solver|done]. }
  unfold sq_remove. cbn [get mret outcome_ret mbind outcome_bind]. rewrite E. cbn [deref].
  assert (NoDup l) as Hnl by (by apply list.NoDup_app in Hnd as (?&_)).
  destruct (seg_put q l _ o' Hnl Hl) as (Hl'&Ht').
  assert (seg (p_link (put (last_cell l) o' q)) o' k None) as Hk' by (by apply seg_put_other).
  eexists. split; [reflexivity|].
  assert (forall c, seg (p_link (set_tailp c (put (last_cell l) o' q))) (sq_head (set_tailp c (put (last_cell l) o' q))) (l ++ k) None) as Hall.
  { intros c. apply seg_app. exists o'. by split. }
  rewrite Ht'. rewrite Ht in * by (by destruct l). rewrite last_cell_app2 by done. rewrite last_cell_cons.
  destruct (decide (_ = Link p)) as [Ed|Ed].
  - assert (k = []) as ->.
    { destruct k as [|x k]; [done|]. exfalso. rewrite last_cell_cons in Ed. unfold last_cell in Ed.
      destruct (list.last k) as [y|] eqn:Ey; injection Ed as ->; [|set_solver].
      apply Hpk. right. apply last_Some in Ey as (?&->). set_solver. }
    constructor; [done|apply Hall|]. rewrite app_nil_r. done.
  - constructor; [done|apply (Hall (sq_tailp (put (last_cell l) o' q)))|]. intros Hne. rewrite Ht'.
    destruct k as [|x k]; [done|]. rewrite (last_cell_app2 l) by done. rewrite last_cell_cons.
    rewrite (last_cell_app2 l), !last_cell_cons by done. unfold last_cell. destruct (list.last k); done.
Qed.

Lemma sq_find_repr p q l1 : forall k n, repr q (l1 ++ k) -> p ∈ k -> (length k <= n)%nat ->
  exists k1 k2, k = k1 ++ p :: k2 /\ sq_find n p (last_cell l1) q = Ok (last_cell (l1 ++ k1)).
Proof.
  intros k. revert l1. induction k as [|x k IH]; intros l1 n Hr Hp Hlen; [by apply not_elem_of_nil in Hp|].
  destruct n as [|n]; [cbn in Hlen; lia|]. cbn [sq_find].
  pose proof (rp_seg q _ Hr) as Hs. apply seg_app in Hs as (o&Hl&->&o'&E&Hk).
  rewrite (seg_last q l1 _ Hl). cbn. destruct (decide (x = p)) as [->|Hne].
  - exists [], k. by rewrite app_nil_r.
  - apply elem_of_cons in Hp as [->|Hp]; [done|]. assert (Link x = last_cell (l1 ++ [x])) as -> by (by rewrite last_cell_app).
    replace (l1 ++ x :: k) with ((l1 ++ [x]) ++ k) in Hr by (by rewrite <- (assoc_L (++))).
    destruct (IH (l1 ++ [x]) n Hr Hp) as (k1&k2&->&->); [cbn in Hlen; lia|].
    exists (x :: k1), k2. split; [done|]. by rewrite <- (assoc_L (++)).
Qed.

Lemma seg_dom m o l e : seg m o l e -> forall p, p ∈ l -> is_Some (m !! p).
Proof.
  revert o. induction l as [|x l IH]; intros o Hs p Hp; [by apply not_elem_of_nil in Hp|].
  destruct Hs as (_&o'&E&Hs). apply elem_of_cons in Hp as [->|Hp]; [by eexists|]. by eapply IH.
Qed.

Lemma repr_length q l : repr q l -> (length l <= size (p_link q))%nat.
Proof.
  intros [Hn Hs _]. rewrite <- size_dom. rewrite <- (size_list_to_set (C := gset loc)) by done.
  apply subseteq_size. intros p Hp. apply elem_of_list_to_set in Hp. apply elem_of_dom. by eapply seg_dom.
Qed.

Lemma sq_unsleep_repr p q l : repr q l -> p ∈ l ->
  exists l1 l2 q', l = l1 ++ p :: l2 /\ sq_unsleep p q = Ok q' /\ repr q' (l1 ++ l2).
Proof.
  intros Hr Hp. destruct (sq_find_repr p q [] l (S (size (p_link q)))) as (l1&l2&->&E); [done..| |].
  { pose proof (repr_length q l Hr). lia. }
  destruct (sq_remove_repr q l1 p l2 Hr) as (q'&E'&Hr'). exists l1, l2, q'. split_and!; [done| |done].
  unfold sq_unsleep. change SqHead with (last_cell []). rewrite E. cbn. exact E'.
Qed.

(** The scan on lists, [pre] the elements that have been passed. *)
Fixpoint scan (hit stop : loc -> bool) (pre l : list loc) : option loc * list loc :=
  match l with
  | [] => (None, pre)
  | p :: l =>
      if hit p then if stop p then scan hit stop pre l else (Some p, pre ++ l)
      else scan hit stop (pre ++ [p]) l
  end.

Lemma sq_scan_repr hit stop : forall l pre q n, repr q (pre ++ l) -> (length l < n)%nat ->
  exists q', sq_scan n hit stop (last_cell pre) q = Ok ((scan hit stop pre l).1, q') /\ repr q' (scan hit stop pre l).2.
Proof.
  induction l as [|p l IH]; intros pre q n Hr Hn; (destruct n as [|n]; [lia|]); cbn [sq_scan scan].
  - pose proof (rp_seg q _ Hr) as Hs. apply seg_app in Hs as (o&Hl&Hs). cbn in Hs. subst o.
    rewrite (seg_last q pre _ Hl). cbn. exists q. by rewrite app_nil_r in Hr.
  - pose proof (rp_seg q _ Hr) as Hs. apply seg_app in Hs as (o&Hl&->&o'&E&Hk).
    rewrite (seg_last q pre _ Hl). cbn [mbind outcome_bind length] in *. destruct (hit p).
    + destruct (sq_remove_repr q pre p l Hr) as (q1&->&Hr1). cbn [mbind outcome_bind]. destruct (stop p); [|by exists q1].
      apply (IH pre q1 n Hr1). lia.
    + assert (Link p = last_cell (pre ++ [p])) as -> by (by rewrite last_cell_app).
      apply (IH (pre ++ [p])); [by rewrite <- (assoc_L (++))|lia].
Qed.

(** ** A queue over its life *)

(** What is done to a queue: a process goes to sleep, one is taken off, or a
    wakeup scans for the processes [hit], of which those in [stop] do not end the
    scan. *)
Inductive qop := QSleep (p : loc) | QUnsleep (p : loc) | QWake (hit stop : list loc).

Definition isin (l : list loc) (p : loc) : bool := bool_decide (p ∈ l).

Definition sq_step (o : qop) (q : slpque) : outcome (option loc * slpque) :=
  match o with
  | QSleep p => mret (None, sq_insert p q)
  | QUnsleep p => q ← sq_unsleep p q; mret (None, q)
  | QWake hit stop => sq_scan (S (size (p_link q))) (isin hit) (isin stop) SqHead q
  end.

(** The same on the list. *)
Definition list_step (o : qop) (l : list loc) : option loc * list loc :=
  match o with
  | QSleep p => (None, l ++ [p])
  | QUnsleep p => (None, default l (unlink p l))
  | QWake hit stop => scan (isin hit) (isin stop) [] l
  end.

Fixpoint sq_run (os : list qop) (q : slpque) : outcome (list (option loc) * slpque) :=
  match os with
  | [] => mret ([], q)
  | o :: os => '(r, q) ← sq_step o q; '(rs, q) ← sq_run os q; mret (r :: rs, q)
  end.
Fixpoint list_run (os : list qop) (l : list loc) : list (option loc) * list loc :=
  match os with
  | [] => ([], l)
  | o :: os => let '(r, l) := list_step o l in let '(rs, l) := list_run os l in (r :: rs, l)
  end.

(** A process sleeps once at a time, and one that is taken off sleeps. *)
Definition q_legal (o : qop) (l : list loc) : bool :=
  match o with QSleep p => negb (isin l p) | QUnsleep p => isin l p | QWake _ _ => true end.
Fixpoint q_legal_run (os : list qop) (l : list loc) : bool :=
  match os with [] => true | o :: os => q_legal o l && q_legal_run os (list_step o l).2 end.

Lemma sq_step_ok o q l : repr q l -> q_legal o l = true ->
  exists q', sq_step o q = Ok ((list_step o l).1, q') /\ repr q' (list_step o l).2.
Proof.
  intros Hr Hl. destruct o as [p|p|hit stop]; cbn [q_legal sq_step list_step] in *.
  - eexists. split; [reflexivity|]. apply sq_insert_repr; [done|]. by apply negb_true_iff, bool_decide_eq_false in Hl.
  - apply bool_decide_eq_true in Hl. destruct (sq_unsleep_repr p q l Hr Hl) as (l1&l2&q'&El&->&Hr'). exists q'. split; [done|].
    destruct (unlink_spec p l (rp_nodup _ _ Hr) Hl) as (l'&El'&_). cbn. rewrite El'. cbn.
    assert (l' = l1 ++ l2) as ->; [|done]. pose proof (rp_nodup _ _ Hr) as Hn. rewrite El in El', Hn. clear -El' Hn.
    revert l' El'. induction l1 as [|x l1 IH]; cbn; intros l'; [rewrite decide_True by done; by intros [= <-]|].
    cbn in Hn. apply list.NoDup_cons in Hn as (Hx&Hn). rewrite decide_False by set_solver. destruct (unlink p (l1 ++ p :: l2)); [|done].
    intros [= <-]. f_equal. by apply IH.
  - destruct (sq_scan_repr (isin hit) (isin stop) l [] q (S (size (p_link q)))) as (q'&E&Hr'); [done| |by exists q'].
    pose proof (repr_length q l Hr). lia.
Qed.

(** C19. Whatever the sequence of sleeps, removals and wakeups, the linked queue, with
    its tail pointer, holds the list of the processes in the order they went to
    sleep, and each wakeup finds the same process. *)
Theorem sleepq_refines os q l : repr q l -> q_legal_run os l = true ->
  exists q', sq_run os q = Ok ((list_run os l).1, q') /\ repr q' (list_run os l).2.
Proof.
  revert q l. induction os as [|o os IH]; intros q l Hr Hl; cbn [sq_run list_run q_legal_run] in *; [by exists q|].
  apply andb_true_iff in Hl as (Ho&Hl). destruct (sq_step_ok o q l Hr Ho) as (q1&E&Hr1). rewrite E. cbn [mbind outcome_bind].
  destruct (list_step o l) as (r&l1). cbn [fst snd] in *. destruct (IH q1 l1 Hr1 Hl) as (q'&E'&Hr'). rewrite E'.
  destruct (list_run os l1) as (rs&l2). by exists q'.
Qed.

Lemma sleepq_refines_witness : exists q',
  sq_run [QSleep 1; QSleep 2; QSleep 3; QUnsleep 3; QSleep 4; QWake [1; 2; 4] [1]; QWake [4] []]%positive (mkSlpque None SqHead ∅)
    = Ok ([None; None; None; None; None; Some 2; Some 4]%positive, q') /\ repr q' [].
Proof.
  apply (sleepq_refines [QSleep 1; QSleep 2; QSleep 3; QUnsleep 3; QSleep 4; QWake [1; 2; 4] [1]; QWake [4] []]%positive (mkSlpque None SqHead ∅) []).
  - constructor; [apply NoDup_nil_2|done|done].
  - by vm_compute.
Defined.
