(* ===== verification/Sleep.v ===== *)
(** * Sleep queues, run queues and priorities (sys/kern/kern_synch.c; the run
      queues in sys/i386/i386/locore.s)

    The process world of [Pgrp] with the scheduling fields of each process, the
    sleep queues and the run queues.  A queue is the list of its elements;
    [SleepQ] shows that the links are such lists.  A routine that gives up the
    processor ends its step there. *)

From S2P Require Import Prelude Pgrp Exit.
From S2P Require Resource.

Definition SSLEEP : Z := 1.
Definition SIDL : Z := 4.
Definition SSINTR : Z := 0x4.
Definition STIMO : Z := 0x40.
Definition PRIMASK : Z := 0xff.
Definition PCATCH : Z := 0x100.
Definition PUSER : Z := Resource.PUSER.
Definition MAXPRI : Z := Resource.MAXPRI.
Definition UCHAR_MAX : Z := 255.
Definition FSHIFT : Z := 11.
Definition FSCALE : Z := Z.shiftl 1 FSHIFT.
Definition CCPU_SHIFT : Z := 11.
(** 0.95122942450071400909 * FSCALE, converted to an integer. *)
Definition ccpu : Z := 1948.
Definition PPQ : Z := 128 / 32.

Definition SQSIZE : Z := 64.
Definition HASH (x : Z) : Z := Z.land (Z.shiftr (s32 x) 5) (SQSIZE - 1).

(** The scheduling fields of a process; [p_rlink] is whether it is on a run
    queue, the test setrq makes. *)
Record thread := mkThread {
  p_pri : Z;
  p_usrpri : Z;
  p_nice : Z;
  p_cpu : Z;
  p_cpticks : Z;
  p_pctcpu : Z;
  p_wchan : Z;
  p_time : Z;
  p_slptime : Z;
  p_rlink : bool;
}.

(** What the code leaves to the clock, the processor and the pageout daemon. *)
Inductive kevent :=
  | TimeoutEndtsleep (p : loc) (timo : Z)
  | UntimeoutEndtsleep (p : loc)
  | TimeoutRoundrobin (ticks : Z)
  | TimeoutSchedcpu (ticks : Z)
  | Vmmeter
  | Nvcsw (p : loc)
  | Nivcsw (p : loc).

Record kworld := mkKworld {
  pw : pworld;
  threads : gmap loc thread;
  slpq : gmap Z (list loc);
  qs : gmap Z (list loc);
  curproc : option loc;
  curpri : Z;
  want_resched : bool;
  ast : bool;
  averunnable : Z;
  klog : list kevent;
}.

Definition set_pw (w : pworld) (k : kworld) : kworld :=
  mkKworld w (threads k) (slpq k) (qs k) (curproc k) (curpri k) (want_resched k) (ast k) (averunnable k) (klog k).
Definition set_threads (m : gmap loc thread) (k : kworld) : kworld :=
  mkKworld (pw k) m (slpq k) (qs k) (curproc k) (curpri k) (want_resched k) (ast k) (averunnable k) (klog k).
Definition set_slpq (q : gmap Z (list loc)) (k : kworld) : kworld :=
  mkKworld (pw k) (threads k) q (qs k) (curproc k) (curpri k) (want_resched k) (ast k) (averunnable k) (klog k).
Definition set_qs (q : gmap Z (list loc)) (k : kworld) : kworld :=
  mkKworld (pw k) (threads k) (slpq k) q (curproc k) (curpri k) (want_resched k) (ast k) (averunnable k) (klog k).
Definition set_curproc (p : option loc) (k : kworld) : kworld :=
  mkKworld (pw k) (threads k) (slpq k) (qs k) p (curpri k) (want_resched k) (ast k) (averunnable k) (klog k).
Definition set_curpri (n : Z) (k : kworld) : kworld :=
  mkKworld (pw k) (threads k) (slpq k) (qs k) (curproc k) n (want_resched k) (ast k) (averunnable k) (klog k).
Definition set_resched (w a : bool) (k : kworld) : kworld :=
  mkKworld (pw k) (threads k) (slpq k) (qs k) (curproc k) (curpri k) w a (averunnable k) (klog k).
Definition add_klog (es : list kevent) (k : kworld) : kworld :=
  mkKworld (pw k) (threads k) (slpq k) (qs k) (curproc k) (curpri k) (want_resched k) (ast k) (averunnable k) (klog k ++ es).

Definition set_thread (p : loc) (T : thread) (k : kworld) : kworld := set_threads (<[p := T]> (threads k)) k.
Definition set_proc (p : loc) (P : proc) (k : kworld) : kworld := set_pw (set_procs (<[p := P]> (procs (pw k))) (pw k)) k.
Definition thread_of (p : loc) (k : kworld) : outcome thread := deref (threads k !! p).
Definition proc_of (p : loc) (k : kworld) : outcome proc := deref (procs (pw k) !! p).

Definition set_pri (n : Z) (T : thread) : thread :=
  mkThread n (p_usrpri T) (p_nice T) (p_cpu T) (p_cpticks T) (p_pctcpu T) (p_wchan T) (p_time T) (p_slptime T) (p_rlink T).
Definition set_usrpri (n : Z) (T : thread) : thread :=
  mkThread (p_pri T) n (p_nice T) (p_cpu T) (p_cpticks T) (p_pctcpu T) (p_wchan T) (p_time T) (p_slptime T) (p_rlink T).
Definition set_nice (n : Z) (T : thread) : thread :=
  mkThread (p_pri T) (p_usrpri T) n (p_cpu T) (p_cpticks T) (p_pctcpu T) (p_wchan T) (p_time T) (p_slptime T) (p_rlink T).
Definition set_cpu (n : Z) (T : thread) : thread :=
  mkThread (p_pri T) (p_usrpri T) (p_nice T) n (p_cpticks T) (p_pctcpu T) (p_wchan T) (p_time T) (p_slptime T) (p_rlink T).
Definition set_wchan (c : Z) (T : thread) : thread :=
  mkThread (p_pri T) (p_usrpri T) (p_nice T) (p_cpu T) (p_cpticks T) (p_pctcpu T) c (p_time T) (p_slptime T) (p_rlink T).
Definition set_slptime (n : Z) (T : thread) : thread :=
  mkThread (p_pri T) (p_usrpri T) (p_nice T) (p_cpu T) (p_cpticks T) (p_pctcpu T) (p_wchan T) (p_time T) n (p_rlink T).
Definition set_times (t s pct ticks : Z) (T : thread) : thread :=
  mkThread (p_pri T) (p_usrpri T) (p_nice T) (p_cpu T) ticks pct (p_wchan T) t s (p_rlink T).
Definition set_rlink (b : bool) (T : thread) : thread :=
  mkThread (p_pri T) (p_usrpri T) (p_nice T) (p_cpu T) (p_cpticks T) (p_pctcpu T) (p_wchan T) (p_time T) (p_slptime T) b.

(** The addresses that processes sleep on: those of the process structures and
    of their signal actions, and the clock's [lbolt]. *)
Class Layout := {
  proc_addr : loc -> Z;
  sigacts_addr : loc -> Z;
  lbolt : Z;
  lbolt_nz : lbolt <> 0;
  proc_addr_nz p : proc_addr p <> 0;
  proc_addr_inj p q : proc_addr p = proc_addr q -> p = q;
  sigacts_addr_nz p : sigacts_addr p <> 0;
}.

(** ** Run queues *)

Definition aston (k : kworld) : kworld := set_resched (want_resched k) true k.
Definition need_resched (k : kworld) : kworld := set_resched true true k.

Definition setrq (p : loc) (k : kworld) : outcome kworld :=
  T ← thread_of p k;
  if p_rlink T then Panic "setrq"
  else
    let n := p_pri T / PPQ in
    mret (set_qs (<[n := chain (qs k) n ++ [p]]> (qs k)) (set_thread p (set_rlink true T) k)).

(** The bit of the queue in [whichqs] is set when the queue is not empty; the
    process is linked in the queue of its priority. *)
Definition remrq (p : loc) (k : kworld) : outcome kworld :=
  T ← thread_of p k;
  let n := p_pri T / PPQ in
  if decide (chain (qs k) n = []) then Panic "remrq"
  else
    l ← deref (unlink p (chain (qs k) n));
    mret (set_qs (<[n := l]> (qs k)) (set_thread p (set_rlink false T) k)).

Definition rqinit (k : kworld) : kworld := set_qs ∅ k.

(** The first queue that is not empty, from [n] on, of [m]. *)
Fixpoint first_queue (m : nat) (n : Z) (q : gmap Z (list loc)) : option (Z * loc * list loc) :=
  match m with
  | O => None
  | S m => match chain q n with p :: l => Some (n, p, l) | [] => first_queue m (n + 1) q end
  end.

(** swtch from [sw1] on: the first process of the first queue, or none (Idle). *)
Definition swtch (k : kworld) : outcome kworld :=
  let k := set_curproc None k in
  match first_queue 32 0 (qs k) with
  | None => mret k
  | Some (n, p, l) =>
      T ← thread_of p k;
      let k := set_qs (<[n := l]> (qs k)) (set_resched false (ast k) k) in
      mret (set_curproc (Some p) (set_thread p (set_rlink false T) k))
  end.

Definition roundrobin (hz : Z) (k : kworld) : kworld := add_klog [TimeoutRoundrobin (hz / 10)] (need_resched k).

(** ** Priorities *)

Definition loadfactor (loadav : Z) : Z := u32 (2 * loadav).
Definition decay_cpu (loadfac cpu : Z) : Z := u32 (loadfac * cpu) / u32 (loadfac + FSCALE).

Definition setpri (p : loc) (k : kworld) : outcome kworld :=
  T ← thread_of p k;
  let newpri := Z.min (u32 (PUSER + p_cpu T / 4 + 2 * p_nice T)) MAXPRI in
  let k := set_thread p (set_usrpri (u8 newpri) T) k in
  mret (if newpri <? curpri k then need_resched k else k).

(** [while (newcpu && --p->p_slptime)], with the final values of both. *)
Fixpoint decay_loop (n : nat) (loadfac newcpu slptime : Z) : outcome (Z * Z) :=
  if newcpu =? 0 then mret (newcpu, slptime)
  else
    let slptime := u32 (slptime - 1) in
    if slptime =? 0 then mret (newcpu, slptime)
    else match n with O => Fault | S n => decay_loop n loadfac (u32 (s32 (decay_cpu loadfac newcpu))) slptime end.

Definition updatepri (p : loc) (k : kworld) : outcome kworld :=
  T ← thread_of p k;
  let loadfac := loadfactor (averunnable k) in
  T ← (if u32 (5 * loadfac) <? p_slptime T then mret (set_cpu 0 T)
       else
         '(newcpu, slptime) ← decay_loop (Z.to_nat (p_cpu T)) loadfac (p_cpu T) (u32 (p_slptime T - 1));
         mret (set_cpu (Z.min newcpu UCHAR_MAX) (set_slptime slptime T)));
  setpri p (set_thread p T k).

(** ** Sleep and wakeup *)

Definition sleepq_insert (p : loc) (chan : Z) (k : kworld) : kworld :=
  set_slpq (<[HASH chan := chain (slpq k) (HASH chan) ++ [p]]> (slpq k)) k.

Definition unsleep (p : loc) (k : kworld) : outcome kworld :=
  T ← thread_of p k;
  if p_wchan T =? 0 then mret k
  else
    let n := HASH (p_wchan T) in
    l ← deref (unlink p (chain (slpq k) n));
    mret (set_thread p (set_wchan 0 T) (set_slpq (<[n := l]> (slpq k)) k)).

(** The processes asleep or stopped on a channel. *)
Definition sleepers (k : kworld) : nat := sum_map (K := Z) length (slpq k).

Section Wakeup.
Context `{Layout}.

(** The loop of wakeup over the queue [pre ++ l], from [l] on, to the first
    process that is made runnable. *)
Fixpoint wakeup_scan (chan : Z) (pre l : list loc) (k : kworld) : outcome (option loc * kworld) :=
  match l with
  | [] => mret (None, k)
  | p :: l =>
      T ← thread_of p k;
      if p_wchan T =? chan then
        let k := set_slpq (<[HASH chan := pre ++ l]> (slpq k)) (set_thread p (set_wchan 0 T) k) in
        P ← proc_of p k;
        if p_stat P =? SSLEEP then mret (Some p, k) else wakeup_scan chan pre l k
      else wakeup_scan chan (pre ++ [p]) l k
  end.

(** The expansion of setrun up to the swapper's wakeup. *)
Definition wakeup_run (p : loc) (k : kworld) : outcome kworld :=
  T ← thread_of p k;
  k ← (if 1 <? p_slptime T then updatepri p k else mret k);
  T ← thread_of p k;
  P ← proc_of p k;
  let k := set_proc p (set_p_stat SRUN P) (set_thread p (set_slptime 0 T) k) in
  if has (p_flag P) SLOAD then setrq p k else mret k.

Fixpoint wakeup_loop (n : nat) (chan : Z) (k : kworld) : outcome kworld :=
  match n with
  | O => Fault
  | S n =>
      '(r, k) ← wakeup_scan chan [] (chain (slpq k) (HASH chan)) k;
      match r with
      | None => mret k
      | Some p =>
          k ← wakeup_run p k;
          P ← proc_of p k;
          k ← (if has (p_flag P) SLOAD then mret (need_resched k)
               else wakeup_loop n (proc_addr (proc0 (pw k))) k);
          wakeup_loop n chan k
      end
  end.

Definition wakeup (chan : Z) (k : kworld) : outcome kworld := wakeup_loop (S (sleepers k)) chan k.

Definition setrun (p : loc) (k : kworld) : outcome kworld :=
  P ← proc_of p k;
  k ← (if (p_stat P =? SSTOP) || (p_stat P =? SSLEEP) then unsleep p k
       else if p_stat P =? SIDL then mret k else Panic "setrun");
  let k := set_proc p (set_p_stat SRUN P) k in
  k ← (if has (p_flag P) SLOAD then setrq p k else mret k);
  T ← thread_of p k;
  k ← (if 1 <? p_slptime T then updatepri p k else mret k);
  T ← thread_of p k;
  let k := set_thread p (set_slptime 0 T) k in
  if negb (has (p_flag P) SLOAD) then wakeup (proc_addr (proc0 (pw k))) k
  else mret (if p_pri T <? curpri k then need_resched k else k).

Definition endtsleep (p : loc) (k : kworld) : outcome kworld :=
  T ← thread_of p k;
  if p_wchan T =? 0 then mret k
  else
    P ← proc_of p k;
    k ← (if p_stat P =? SSLEEP then setrun p k else unsleep p k);
    P ← proc_of p k;
    mret (set_proc p (set_p_flag (Z.lor (p_flag P) STIMO) P) k).

(** The process on the queue of [chan], with the priority [pri] (lines 291-300
    and 407-416). *)
Definition sleep_on (p : loc) (chan pri : Z) (k : kworld) : outcome kworld :=
  T ← thread_of p k;
  mret (sleepq_insert p chan (set_thread p (set_pri (u8 pri) (set_slptime 0 (set_wchan chan T))) k)).

(** Asleep: the processor goes to another process. *)
Definition doze (p : loc) (k : kworld) : outcome kworld :=
  P ← proc_of p k;
  swtch (add_klog [Nvcsw p] (set_proc p (set_p_stat SSLEEP P) k)).

(** sleep; [cold] is whether the system is starting or has panicked. *)
Definition sleep (cold : bool) (chan pri : Z) (k : kworld) : outcome kworld :=
  if cold then mret k
  else
    p ← deref (curproc k);
    k ← sleep_on p chan pri k;
    doze p k.

(** The process goes on after its sleep. *)
Definition sleep_resume (p : loc) (k : kworld) : outcome kworld :=
  T ← thread_of p k; mret (set_curpri (p_usrpri T) k).

(** ** The clock's second *)

(** The body of the loop of schedcpu. *)
Definition schedcpu_proc (hz loadfac : Z) (p : loc) (k : kworld) : outcome kworld :=
  P ← proc_of p k;
  T ← thread_of p k;
  let slptime := if (p_stat P =? SSLEEP) || (p_stat P =? SSTOP) then u32 (p_slptime T + 1) else p_slptime T in
  let pctcpu := Z.shiftr (u32 (p_pctcpu T * ccpu)) FSHIFT in
  let T := set_times (u32 (p_time T + 1)) slptime pctcpu (p_cpticks T) T in
  if 1 <? slptime then mret (set_thread p T k)
  else
    let ticks := Z.shiftl (u32 (p_cpticks T)) (FSHIFT - CCPU_SHIFT) in
    let pctcpu := u32 (pctcpu + (if hz =? 100 then ticks else u32 (100 * ticks) / hz)) in
    let newcpu := u32 (decay_cpu loadfac (p_cpu T) + p_nice T) in
    let T := set_cpu (Z.min newcpu UCHAR_MAX) (set_times (p_time T) slptime pctcpu 0 T) in
    k ← setpri p (set_thread p T k);
    T ← thread_of p k;
    if PUSER <=? p_pri T then
      if negb (bool_decide (curproc k = Some p)) && (p_stat P =? SRUN)
           && (Z.land (p_flag P) (Z.lor SLOAD SWEXIT) =? SLOAD)
           && negb (p_pri T / PPQ =? p_usrpri T / PPQ)
      then
        k ← remrq p k;
        T ← thread_of p k;
        setrq p (set_thread p (set_pri (p_usrpri T) T) k)
      else mret (set_thread p (set_pri (p_usrpri T) T) k)
    else mret k.

Fixpoint schedcpu_loop (hz loadfac : Z) (l : list loc) (k : kworld) : outcome kworld :=
  match l with
  | [] => mret k
  | p :: l => k ← schedcpu_proc hz loadfac p k; schedcpu_loop hz loadfac l k
  end.

(** [bclnlist] is whether dirty buffers wait for the pageout daemon [pageproc]. *)
Definition schedcpu (hz : Z) (bclnlist : bool) (pageproc : loc) (k : kworld) : outcome kworld :=
  let loadfac := loadfactor (averunnable k) in
  k ← wakeup lbolt k;
  k ← schedcpu_loop hz loadfac (allproc (pw k)) k;
  let k := add_klog [Vmmeter] k in
  k ← (if bclnlist then wakeup (proc_addr pageproc) k else mret k);
  mret (add_klog [TimeoutSchedcpu hz] k).

End Wakeup.

(** The end of trap and syscall: the process goes back to its user priority, and
    gives way when it has to (trap.c). *)
Definition preempt (p : loc) (k : kworld) : outcome kworld :=
  T ← thread_of p k;
  let k := set_thread p (set_pri (p_usrpri T) T) k in
  if want_resched k then k ← setrq p k; swtch (add_klog [Nivcsw p] k) else mret k.
