(* ===== verification/SleepInv.v ===== *)
(** * Sleep queues and run queues: invariant and correctness of the operations
      of [Sleep] *)

From S2P Require Import Prelude Pgrp PgrpInv Exit Sleep.

(** ** Decay *)

Definition load_ok (lf : Z) : Prop := 0 <= lf < 2 ^ 32 - FSCALE.

Lemma decay_lt lf c : load_ok lf -> 0 < c -> 0 <= decay_cpu lf c < c.
Proof.
  unfold load_ok, decay_cpu. change FSCALE with 2048. intros Hl Hc.
  rewrite (u32_id (lf + 2048)) by lia. pose proof (u32_range (lf * c)).
  assert (u32 (lf * c) <= lf * c) by (apply Z.mod_le; nia).
  split; [apply Z.div_pos; lia|]. apply Z.div_lt_upper_bound; nia.
Qed.

Lemma decay_0 lf : decay_cpu lf 0 = 0.
Proof. unfold decay_cpu. by rewrite Z.mul_0_r. Qed.

Lemma iter_decay_0 lf n : Nat.iter n (decay_cpu lf) 0 = 0.
Proof. induction n as [|n IH]; [done|]. by rewrite Nat.iter_succ, IH, decay_0. Qed.

Lemma iter_decay_range lf n c : load_ok lf -> 0 <= c -> 0 <= Nat.iter n (decay_cpu lf) c <= c.
Proof.
  intros Hl Hc. induction n as [|n IH]; [cbn; lia|]. rewrite Nat.iter_succ.
  destruct (Z.eq_dec (Nat.iter n (decay_cpu lf) c) 0) as [->|]; [rewrite decay_0; lia|].
  pose proof (decay_lt lf (Nat.iter n (decay_cpu lf) c) Hl). lia.
Qed.

Lemma decay_loop_ok lf : load_ok lf -> forall n c s, 0 <= c < 2 ^ 32 -> (Z.to_nat c <= n)%nat -> 1 <= s < 2 ^ 32 ->
  exists s', decay_loop n lf c s = Ok (Nat.iter (Z.to_nat (s - 1)) (decay_cpu lf) c, s').
Proof.
  intros Hl n. induction n as [|n IH]; intros c s Hc Hn Hs; cbn [decay_loop].
  - assert (c = 0) as -> by lia. rewrite iter_decay_0. by eexists.
  - destruct (Z.eqb_spec c 0) as [->|Hne]; [rewrite iter_decay_0; by eexists|].
    rewrite (u32_id (s - 1)) by lia. destruct (Z.eqb_spec (s - 1) 0) as [E|E]; [rewrite E; by eexists|].
    pose proof (decay_lt lf c Hl ltac:(lia)) as Hd.
    assert (u32 (s32 (decay_cpu lf c)) = decay_cpu lf c) as ->.
    { unfold u32, s32, wrapu, wraps. rewrite Zminus_mod, Z.mod_mod, <- Zminus_mod by lia.
      replace (decay_cpu lf c + 2 ^ (32 - 1) - 2 ^ (32 - 1)) with (decay_cpu lf c) by lia. apply Z.mod_small. lia. }
    destruct (IH (decay_cpu lf c) (s - 1)) as (s'&->); [lia..|]. exists s'.
    replace (Z.to_nat (s - 1)) with (S (Z.to_nat (s - 1 - 1))) by lia. by rewrite Nat.iter_succ_r.
Qed.

(** The usage that updatepri leaves: of [s] seconds asleep, [s - 2] decays. *)
Definition slept_cpu (lf : Z) (T : thread) : Z :=
  if u32 (5 * lf) <? p_slptime T then 0
  else Z.min (Nat.iter (Z.to_nat (p_slptime T - 2)) (decay_cpu lf) (p_cpu T)) UCHAR_MAX.

Definition usr_pri (cpu nice : Z) : Z := Z.min (u32 (PUSER + cpu / 4 + 2 * nice)) MAXPRI.
Definition set_prio (cpu : Z) (T : thread) : thread := set_usrpri (u8 (usr_pri cpu (p_nice T))) (set_cpu cpu T).
Definition repriced (lf : Z) (T : thread) : thread :=
  if 1 <? p_slptime T then set_prio (slept_cpu lf T) T else T.

Lemma usr_pri_range cpu nice : 0 <= usr_pri cpu nice <= MAXPRI.
Proof. unfold usr_pri. pose proof (u32_range (PUSER + cpu / 4 + 2 * nice)). change MAXPRI with 127. lia. Qed.

Lemma setpri_ok p k T : threads k !! p = Some T ->
  exists b a, setpri p k = Ok (set_resched b a (set_thread p (set_usrpri (u8 (usr_pri (p_cpu T) (p_nice T))) T) k)).
Proof.
  intros E. unfold setpri, thread_of. rewrite E. cbn. fold (usr_pri (p_cpu T) (p_nice T)).
  destruct (_ <? _); do 2 eexists; reflexivity.
Qed.

(** ** The invariant *)

(** A table of queues holds each process at most once, in the queue [pos] says. *)
Definition queue_ok (q : gmap Z (list loc)) (pos : loc -> option Z) : Prop :=
  forall n, NoDup (chain q n) /\ forall p, p ∈ chain q n <-> pos p = Some n.

Lemma queue_ok_ext q pos pos' : queue_ok q pos -> (forall x, pos' x = pos x) -> queue_ok q pos'.
Proof. intros Hq He n. destruct (Hq n) as (?&Hm). split; [done|]. intros x. by rewrite He. Qed.

(** The queues when [p] goes from the queue [o] to the queue [o']. *)
Definition moves (p : loc) (o o' : option Z) (q q' : gmap Z (list loc)) : Prop :=
  match o, o' with
  | None, None => q' = q
  | Some n, Some m => q' = q /\ n = m
  | None, Some n => q' = <[n := chain q n ++ [p]]> q
  | Some n, None => exists l1 l2, chain q n = l1 ++ p :: l2 /\ q' = <[n := l1 ++ l2]> q
  end.

Lemma queue_moves p q q' pos pos' : queue_ok q pos -> moves p (pos p) (pos' p) q q' ->
  (forall x, x <> p -> pos' x = pos x) -> queue_ok q' pos'.
Proof.
  intros Hq Hm He n. destruct (Hq n) as (Hn&Hp). unfold moves in Hm.
  assert (forall x, pos' x = Some n <-> (x = p /\ pos' p = Some n) \/ (x <> p /\ pos x = Some n)) as Hx.
  { intros x. destruct (decide (x = p)) as [->|]; [naive_solver|]. rewrite He by done. naive_solver. }
  destruct (pos p) as [m|] eqn:E, (pos' p) as [m'|] eqn:E'.
  - destruct Hm as (->&<-). split; [done|]. intros x. rewrite Hx, Hp.
    destruct (decide (x = p)) as [->|]; naive_solver.
  - destruct Hm as (l1&l2&Hl&->). rewrite chain_insert. assert (chain q m ≡ₚ p :: (l1 ++ l2)) as Hl' by (by rewrite Hl, Permutation_middle).
    clear Hl. rename Hl' into Hl. destruct (decide (n = m)) as [->|Hne].
    + rewrite Hl in Hn. apply list.NoDup_cons in Hn as (Hnp&Hn). split; [done|]. intros x. rewrite Hx, <- Hp, Hl, elem_of_cons.
      destruct (decide (x = p)) as [->|]; naive_solver.
    + split; [done|]. intros x. rewrite Hx, Hp. destruct (decide (x = p)) as [->|]; naive_solver.
  - subst q'. rewrite chain_insert. destruct (decide (n = m')) as [->|Hne].
    + assert (p ∉ chain q m') by (rewrite Hp, E; done). split.
      * apply list.NoDup_app. split_and!; [done|set_solver|apply NoDup_singleton].
      * intros x. rewrite elem_of_app, list_elem_of_singleton, Hx, Hp. destruct (decide (x = p)) as [->|]; naive_solver.
    + split; [done|]. intros x. rewrite Hx, Hp. destruct (decide (x = p)) as [->|]; naive_solver.
  - subst q'. split; [done|]. intros x. rewrite Hx, Hp. destruct (decide (x = p)) as [->|]; naive_solver.
Qed.

(** Where a process waits, if it does. *)
Definition wslot (T : thread) : option Z := if p_wchan T =? 0 then None else Some (HASH (p_wchan T)).
Definition wpos (k : kworld) (p : loc) : option Z := threads k !! p ≫= wslot.

(** What the fields of one process have to do with one another; [cur] is
    whether it has the processor.  A process that is asleep waits on a channel;
    one that waits is asleep or stopped, or about to sleep; one on a run queue
    is runnable and not running; one that is runnable, in memory and not running
    is on a run queue. *)
Record thread_ok (cur : Prop) (P : proc) (T : thread) : Prop := mkThreadOk {
  th_sleeps : p_stat P = SSLEEP -> p_wchan T <> 0;
  th_waits : p_wchan T <> 0 -> p_stat P = SSLEEP \/ p_stat P = SSTOP \/ (cur /\ p_stat P = SRUN);
  th_queued : p_rlink T = true -> p_stat P = SRUN /\ ~ cur /\ has (p_flag P) SLOAD = true;
  th_runs : p_stat P = SRUN -> has (p_flag P) SLOAD = true -> cur \/ p_rlink T = true;
  th_cur : cur -> p_stat P <> SSLEEP /\ has (p_flag P) SLOAD = true;
  th_cpu : 0 <= p_cpu T < 2 ^ 32;
  th_slptime : 0 <= p_slptime T < 2 ^ 32;
  th_pri : 0 <= p_pri T <= MAXPRI;
  th_usrpri : 0 <= p_usrpri T <= MAXPRI;
}.

Record Sq_at (rpos : loc -> option Z) (k : kworld) : Prop := mkSq {
  sq_dom : forall p, is_Some (threads k !! p) <-> is_Some (procs (pw k) !! p);
  sq_slp : queue_ok (slpq k) (wpos k);
  sq_run : queue_ok (qs k) rpos;
  sq_rpos : forall p n, rpos p = Some n -> exists P T, procs (pw k) !! p = Some P /\ threads k !! p = Some T
    /\ p_rlink T = true /\ 0 <= n < 32 /\ (n = p_pri T / PPQ \/ has (p_flag P) SWEXIT = true);
  sq_rlink : forall p T, threads k !! p = Some T -> p_rlink T = true -> is_Some (rpos p);
  sq_st : forall p P T, procs (pw k) !! p = Some P -> threads k !! p = Some T -> thread_ok (curproc k = Some p) P T;
  sq_load : 0 <= averunnable k < 2 ^ 31 - 1024;
}.
Definition Sq (k : kworld) : Prop := exists rpos, Sq_at rpos k.

Lemma Sq_load k : Sq k -> load_ok (loadfactor (averunnable k)).
Proof.
  intros (r&[]). unfold load_ok, loadfactor. change FSCALE with 2048. rewrite u32_id by lia. lia.
Qed.

Lemma pri_slot T P c : thread_ok c P T -> 0 <= p_pri T / PPQ < 32.
Proof.
  intros H. pose proof (th_pri _ _ _ H) as Hp. change MAXPRI with 127 in Hp. change PPQ with 4.
  split; [apply Z.div_pos; lia|apply Z.div_lt_upper_bound; lia].
Qed.

(** How the run queues change with one process. *)
Inductive rmoves (rpos : loc -> option Z) (p : loc) (P' : proc) (T T' : thread) (q q' : gmap Z (list loc)) : Prop :=
  | rm_same : q' = q -> p_rlink T' = p_rlink T ->
      (p_rlink T = true -> p_pri T' / PPQ = p_pri T / PPQ \/ has (p_flag P') SWEXIT = true) -> rmoves rpos p P' T T' q q'
  | rm_add : p_rlink T = false -> p_rlink T' = true -> q' = <[p_pri T' / PPQ := chain q (p_pri T' / PPQ) ++ [p]]> q ->
      rmoves rpos p P' T T' q q'
  | rm_del n l1 l2 : p_rlink T = true -> p_rlink T' = false -> rpos p = Some n -> chain q n = l1 ++ p :: l2 -> q' = <[n := l1 ++ l2]> q ->
      rmoves rpos p P' T T' q q'.

Lemma thread_ok_iff c c' P T : (c' <-> c) -> thread_ok c P T -> thread_ok c' P T.
Proof. intros E []. constructor; tauto. Qed.

(** One process changes: its fields, the queues it is on, whether it runs. *)
Lemma Sq_change_at rpos o' p P T P' T' k k' : Sq_at rpos k ->
  procs (pw k) !! p = Some P -> threads k !! p = Some T ->
  procs (pw k') = <[p := P']> (procs (pw k)) -> threads k' = <[p := T']> (threads k) ->
  (forall x, x <> p -> (curproc k' = Some x <-> curproc k = Some x)) -> averunnable k' = averunnable k ->
  moves p (wslot T) (wslot T') (slpq k) (slpq k') ->
  queue_ok (qs k') (fun x => if decide (x = p) then o' else rpos x) ->
  (p_rlink T' = true <-> is_Some o') ->
  (forall n, o' = Some n -> 0 <= n < 32 /\ (n = p_pri T' / PPQ \/ has (p_flag P') SWEXIT = true)) ->
  thread_ok (curproc k' = Some p) P' T' -> Sq_at (fun x => if decide (x = p) then o' else rpos x) k'.
Proof.
  intros [Hd Hs Hr Hrp Hrl Hst Hl] EP ET Ep Et Ec Ea Hw Hq Hro Hon Hok. constructor; [| |done| | | |].
  - intros x. rewrite Et, Ep. destruct (decide (x = p)) as [->|Hn].
    + rewrite !lookup_insert_eq. split; by eexists.
    + rewrite !lookup_insert_ne by done. apply Hd.
  - refine (queue_moves p _ _ _ _ Hs _ _).
    + unfold wpos. rewrite ET, Et, lookup_insert_eq. exact Hw.
    + intros x Hn. unfold wpos. by rewrite Et, lookup_insert_ne.
  - intros x n. rewrite Ep, Et. destruct (decide (x = p)) as [->|Hn].
    + rewrite !lookup_insert_eq. intros Ho. exists P', T'. do 2 (split; [done|]). split; [apply Hro; by eexists|by apply Hon].
    + rewrite !lookup_insert_ne by done. apply Hrp.
  - intros x X. rewrite Et. destruct (decide (x = p)) as [->|Hn].
    + rewrite lookup_insert_eq. intros [= <-] E. by apply Hro.
    + rewrite lookup_insert_ne by done. apply Hrl.
  - intros x X Y. rewrite Ep, Et. destruct (decide (x = p)) as [->|Hn].
    + rewrite !lookup_insert_eq. by intros [= <-] [= <-].
    + rewrite !lookup_insert_ne by done. intros EX EY. apply (thread_ok_iff _ _ _ _ (Ec x Hn)). by apply Hst.
  - by rewrite Ea.
Qed.

Lemma rpos_rlink rpos p T k : Sq_at rpos k -> threads k !! p = Some T -> (p_rlink T = true <-> is_Some (rpos p)).
Proof.
  intros HS ET. split; [by eapply sq_rlink|]. intros (n&E). destruct (sq_rpos _ _ HS p n E) as (?&?&_&?&?&_). congruence.
Qed.

Lemma Sq_change_gen rpos p P T P' T' k k' : Sq_at rpos k ->
  procs (pw k) !! p = Some P -> threads k !! p = Some T ->
  procs (pw k') = <[p := P']> (procs (pw k)) -> threads k' = <[p := T']> (threads k) ->
  (forall x, x <> p -> (curproc k' = Some x <-> curproc k = Some x)) -> averunnable k' = averunnable k ->
  moves p (wslot T) (wslot T') (slpq k) (slpq k') ->
  rmoves rpos p P' T T' (qs k) (qs k') ->
  (has (p_flag P') SWEXIT = has (p_flag P) SWEXIT) ->
  thread_ok (curproc k' = Some p) P' T' -> exists rpos', Sq_at rpos' k' /\ forall x, x <> p -> rpos' x = rpos x.
Proof.
  intros HS EP ET Ep Et Ec Ea Hw Hm Hx Hok. pose proof (rpos_rlink rpos p T k HS ET) as Hrl.
  set (o' := if p_rlink T' then if p_rlink T then rpos p else Some (p_pri T' / PPQ) else None).
  exists (fun x => if decide (x = p) then o' else rpos x). split; [|intros x ?; by rewrite decide_False].
  assert (p_rlink T = false -> rpos p = None) as Hnone.
  { intros E. destruct (rpos p) as [n|]; [|done]. rewrite (proj2 Hrl) in E; [done|by eexists]. }
  apply (Sq_change_at rpos o' p P T P' T' k k' HS EP ET Ep Et Ec Ea Hw); [| | |done]; unfold o'.
  - refine (queue_moves p _ _ _ _ (sq_run _ _ HS) _ _); [|intros x ?; by rewrite decide_False]. rewrite decide_True by done.
    destruct Hm as [->E _|E E' ->|n l1 l2 E E' En Hp ->].
    + rewrite E. destruct (p_rlink T); [|by rewrite Hnone]. destruct (proj1 Hrl eq_refl) as (n&->). done.
    + by rewrite E, E', Hnone.
    + rewrite E', En. by exists l1, l2.
  - destruct (p_rlink T'); [|split; [done|by intros (?&?)]]. destruct (p_rlink T); [done|]. split; [by eexists|done].
  - intros n Ho. destruct (p_rlink T') eqn:E'; [|done]. destruct (p_rlink T) eqn:E.
    + destruct (sq_rpos _ _ HS p n Ho) as (P0&T0&EP0&ET0&_&Hn&Hor). split; [done|]. simplify_eq. rewrite Hx.
      destruct Hor as [->|?]; [|by right]. destruct Hm as [_ _ Hpr|?|?]; [|congruence..].
      destruct (Hpr E) as [?|?]; [by left|right; congruence].
    + injection Ho as <-. split; [by eapply pri_slot|by left].
Qed.

Lemma Sq_change rpos p P T P' T' k k' : Sq_at rpos k ->
  procs (pw k) !! p = Some P -> threads k !! p = Some T ->
  procs (pw k') = <[p := P']> (procs (pw k)) -> threads k' = <[p := T']> (threads k) ->
  curproc k' = curproc k -> averunnable k' = averunnable k ->
  moves p (wslot T) (wslot T') (slpq k) (slpq k') ->
  rmoves rpos p P' T T' (qs k) (qs k') ->
  (has (p_flag P') SWEXIT = has (p_flag P) SWEXIT) ->
  thread_ok (curproc k = Some p) P' T' -> exists rpos', Sq_at rpos' k' /\ forall x, x <> p -> rpos' x = rpos x.
Proof.
  intros HS EP ET Ep Et Ec Ea Hw Hm Hx Hok. apply (Sq_change_gen rpos p P T P' T' k k'); try done.
  - intros x _. by rewrite Ec. - by rewrite Ec.
Qed.

(** ** One process *)

Lemma thread_of_eq p k T : threads k !! p = Some T -> thread_of p k = Ok T.
Proof. unfold thread_of. by intros ->. Qed.
Lemma proc_of_eq p k P : procs (pw k) !! p = Some P -> proc_of p k = Ok P.
Proof. unfold proc_of. by intros ->. Qed.

Lemma set_thread_twice p A B k : set_thread p A (set_thread p B k) = set_thread p A k.
Proof. unfold set_thread, set_threads. cbn. by rewrite insert_insert_eq. Qed.

Lemma set_thread_same p T k : threads k !! p = Some T -> set_thread p T k = k.
Proof. intros E. destruct k. unfold set_thread, set_threads. cbn in *. by rewrite insert_id. Qed.

Lemma set_wchan_same T : p_wchan T = 0 -> set_wchan 0 T = T.
Proof. destruct T. cbn. by intros ->. Qed.

Lemma set_rlink_same T : p_rlink T = false -> set_rlink false T = T.
Proof. destruct T. cbn. by intros ->. Qed.

Lemma unlink_split p l l' : unlink p l = Some l' -> exists l1 l2, l = l1 ++ p :: l2 /\ l' = l1 ++ l2.
Proof.
  revert l'. induction l as [|x l IH]; cbn; intros l'; [done|]. destruct (decide (x = p)) as [->|].
  - intros [= <-]. by exists [], l.
  - destruct (unlink p l) as [k|]; cbn; [|done]. intros [= <-]. destruct (IH k) as (l1&l2&->&->); [done|].
    by exists (x :: l1), l2.
Qed.

(** A change of [p_wchan] to zero, with the queue without the process. *)
Lemma unsleep_eq p k T : queue_ok (slpq k) (wpos k) -> threads k !! p = Some T ->
  exists q, unsleep p k = Ok (set_thread p (set_wchan 0 T) (set_slpq q k)) /\ moves p (wslot T) None (slpq k) q.
Proof.
  intros Hq ET. unfold unsleep, thread_of, wslot. rewrite ET. cbn.
  destruct (Z.eqb_spec (p_wchan T) 0) as [E|E].
  - exists (slpq k). split; [|done]. rewrite set_wchan_same by done. f_equal.
    transitivity (set_slpq (slpq k) k); [by destruct k|]. symmetry. apply set_thread_same. exact ET.
  - destruct (Hq (HASH (p_wchan T))) as (Hn&Hm). destruct (unlink_spec p (chain (slpq k) (HASH (p_wchan T)))) as (l&El&Hl&_).
    + done.
    + apply Hm. unfold wpos, wslot. rewrite ET. cbn. by destruct (Z.eqb_spec (p_wchan T) 0).
    + rewrite El. cbn. eexists. split; [reflexivity|]. destruct (unlink_split _ _ _ El) as (l1&l2&->&->). by exists l1, l2.
Qed.

Lemma updatepri_ok p k T : threads k !! p = Some T -> load_ok (loadfactor (averunnable k)) ->
  0 <= p_cpu T < 2 ^ 32 -> 1 < p_slptime T < 2 ^ 32 ->
  exists b a s, updatepri p k =
    Ok (set_resched b a (set_thread p (set_prio (slept_cpu (loadfactor (averunnable k)) T) (set_slptime s T)) k)).
Proof.
  intros ET Hl Hc Hs. unfold updatepri, thread_of, slept_cpu. rewrite ET. cbn [deref mret outcome_ret mbind outcome_bind].
  set (lf := loadfactor (averunnable k)) in *.
  assert (forall T', p_nice T' = p_nice T -> exists b a, setpri p (set_thread p T' k) =
    Ok (set_resched b a (set_thread p (set_usrpri (u8 (usr_pri (p_cpu T') (p_nice T))) T') k))) as Hset.
  { intros T' En. destruct (setpri_ok p (set_thread p T' k) T') as (b&a&->); [apply lookup_insert_eq|].
    exists b, a. rewrite set_thread_twice, En. done. }
  destruct (_ <? _); cbn [mret outcome_ret mbind outcome_bind].
  - destruct (Hset (set_cpu 0 T)) as (b&a&->); [done|]. exists b, a, (p_slptime T). by destruct T.
  - rewrite (u32_id (p_slptime T - 1)) by lia.
    destruct (decay_loop_ok lf Hl (Z.to_nat (p_cpu T)) (p_cpu T) (p_slptime T - 1)) as (s'&->); [lia..|].
    cbn [mret outcome_ret mbind outcome_bind]. destruct (Hset (set_cpu (Z.min (Nat.iter (Z.to_nat (p_slptime T - 1 - 1)) (decay_cpu lf) (p_cpu T)) UCHAR_MAX) (set_slptime s' T))) as (b&a&->); [done|].
    exists b, a, s'. by replace (p_slptime T - 1 - 1) with (p_slptime T - 2) by lia.
Qed.

(** A process made runnable. *)
Definition running (lf : Z) (P : proc) (T : thread) : thread :=
  set_rlink (has (p_flag P) SLOAD) (set_slptime 0 (repriced lf (set_wchan 0 T))).
Definition run_queue (p : loc) (P : proc) (T : thread) (q : gmap Z (list loc)) : gmap Z (list loc) :=
  if has (p_flag P) SLOAD then <[p_pri T / PPQ := chain q (p_pri T / PPQ) ++ [p]]> q else q.

Lemma repriced_pri lf T : p_pri (repriced lf T) = p_pri T /\ p_wchan (repriced lf T) = p_wchan T /\ p_rlink (repriced lf T) = p_rlink T
  /\ p_nice (repriced lf T) = p_nice T.
Proof. unfold repriced. by case_if. Qed.

(** The body of [if (p_slptime > 1) updatepri(p); p_slptime = 0]. *)
Lemma reprice_ok p k T : threads k !! p = Some T -> load_ok (loadfactor (averunnable k)) ->
  0 <= p_cpu T < 2 ^ 32 -> 0 <= p_slptime T < 2 ^ 32 ->
  exists b a T', (if 1 <? p_slptime T then updatepri p k else mret k) = Ok (set_resched b a (set_thread p T' k))
    /\ set_slptime 0 T' = set_slptime 0 (repriced (loadfactor (averunnable k)) T)
    /\ p_pri T' = p_pri T /\ p_rlink T' = p_rlink T.
Proof.
  intros ET Hl Hc Hs. unfold repriced. destruct (Z.ltb_spec 1 (p_slptime T)).
  - destruct (updatepri_ok p k T) as (b&a&s&->); [done..|lia|]. eexists _, _, _. split; [reflexivity|done].
  - exists (want_resched k), (ast k), T. split; [|done]. rewrite set_thread_same by done. by destruct k.
Qed.

Lemma wakeup_run_ok p k T P : threads k !! p = Some T -> procs (pw k) !! p = Some P -> load_ok (loadfactor (averunnable k)) ->
  0 <= p_cpu T < 2 ^ 32 -> 0 <= p_slptime T < 2 ^ 32 -> p_wchan T = 0 -> p_rlink T = false ->
  exists b a, wakeup_run p k = Ok (set_resched b a (set_qs (run_queue p P T (qs k))
    (set_proc p (set_p_stat SRUN P) (set_thread p (running (loadfactor (averunnable k)) P T) k)))).
Proof.
  intros ET EP Hl Hc Hs Hw Hr. unfold wakeup_run, running, run_queue. rewrite set_wchan_same by done.
  rewrite (thread_of_eq p k T ET). cbn [mbind outcome_bind].
  destruct (reprice_ok p k T ET Hl Hc Hs) as (b&a&T'&->&E&Ep&Er). cbn [mbind outcome_bind].
  unfold thread_of, proc_of. cbn. rewrite lookup_insert_eq, EP. cbn [deref mret outcome_ret mbind outcome_bind]. rewrite <- E.
  exists b, a. destruct (has (p_flag P) SLOAD).
  - unfold setrq, thread_of. cbn. rewrite lookup_insert_eq. cbn. rewrite Er, Hr, Ep.
    unfold set_thread, set_threads, set_qs, set_proc, set_pw, set_resched. cbn. rewrite !insert_insert_eq. done.
  - unfold set_thread, set_threads, set_qs, set_proc, set_pw, set_resched. cbn. rewrite !insert_insert_eq.
    rewrite (set_rlink_same (set_slptime 0 T')); [done|]. cbn. congruence.
Qed.

Definition runnable (P : proc) : Prop := p_stat P = SSTOP \/ p_stat P = SSLEEP \/ p_stat P = SIDL.

Lemma slept_cpu_range lf T : load_ok lf -> 0 <= p_cpu T -> 0 <= slept_cpu lf T <= UCHAR_MAX.
Proof.
  intros Hl Hc. unfold slept_cpu. change UCHAR_MAX with 255. case_if; [lia|].
  pose proof (iter_decay_range lf (Z.to_nat (p_slptime T - 2)) (p_cpu T) Hl Hc). lia.
Qed.

Lemma usr_pri_u8 cpu nice : 0 <= u8 (usr_pri cpu nice) <= MAXPRI.
Proof. pose proof (usr_pri_range cpu nice). change MAXPRI with 127 in *. rewrite u8_id; lia. Qed.
#[local] Hint Resolve usr_pri_u8 : core.

Lemma thread_ok_running lf c P T : load_ok lf -> thread_ok c P T -> ~ c ->
  thread_ok c (set_p_stat SRUN P) (running lf P T).
Proof.
  intros Hl [] Hc. pose proof (slept_cpu_range lf (set_wchan 0 T) Hl) as Hr. change UCHAR_MAX with 255 in Hr.
  cbn in Hr. unfold running, repriced. cbn [p_slptime set_wchan].
  destruct (Z.ltb_spec 1 (p_slptime T)); constructor; cbn; auto; try done; lia.
Qed.

Lemma not_queued c P T : thread_ok c P T -> p_stat P <> SRUN -> p_rlink T = false.
Proof. intros H Hn. apply not_true_is_false. intros E. by destruct (th_queued _ _ _ H E). Qed.

Lemma running_facts lf P T : p_wchan (running lf P T) = 0 /\ p_pri (running lf P T) = p_pri T
  /\ p_rlink (running lf P T) = has (p_flag P) SLOAD.
Proof. unfold running. cbn. destruct (repriced_pri lf (set_wchan 0 T)) as (->&->&_). done. Qed.

(** A process that is not current and not runnable becomes so. *)
Lemma Sq_running r p P T k k' : Sq_at r k -> procs (pw k) !! p = Some P -> threads k !! p = Some T ->
  runnable P -> curproc k <> Some p ->
  procs (pw k') = <[p := set_p_stat SRUN P]> (procs (pw k)) ->
  threads k' = <[p := running (loadfactor (averunnable k)) P T]> (threads k) ->
  moves p (wslot T) None (slpq k) (slpq k') -> qs k' = run_queue p P T (qs k) ->
  curproc k' = curproc k -> averunnable k' = averunnable k -> Sq k'.
Proof.
  intros HS EP ET Hrun Hc Ep Et Hm Hq Ec Ea. pose proof (sq_st _ _ HS p P T EP ET) as Hok.
  destruct (running_facts (loadfactor (averunnable k)) P T) as (Fw&Fp&Fr).
  assert (p_rlink T = false) as Hr.
  { apply (not_queued _ _ _ Hok). intros H. unfold runnable in Hrun. rewrite H in Hrun. by destruct Hrun as [|[|]]. }
  destruct (Sq_change r p P T (set_p_stat SRUN P) (running (loadfactor (averunnable k)) P T) k k' HS EP ET Ep Et Ec Ea) as (r'&Hr'&_); [| |done| |by exists r'].
  - unfold wslot at 2. rewrite Fw. exact Hm.
  - rewrite Hq. unfold run_queue. destruct (has (p_flag P) SLOAD) eqn:El.
    + apply rm_add; [done|congruence|]. by rewrite Fp.
    + apply rm_same; [done|congruence|]. rewrite Hr. done.
  - apply thread_ok_running; [apply Sq_load; by exists r|done|done].
Qed.

(** A process that does not sleep stops waiting. *)
Lemma Sq_unwait r p P T k k' : Sq_at r k -> procs (pw k) !! p = Some P -> threads k !! p = Some T ->
  p_stat P <> SSLEEP -> pw k' = pw k -> threads k' = <[p := set_wchan 0 T]> (threads k) ->
  moves p (wslot T) None (slpq k) (slpq k') -> qs k' = qs k ->
  curproc k' = curproc k -> averunnable k' = averunnable k -> Sq k'.
Proof.
  intros HS EP ET Hn Ew Et Hm Hq Ec Ea. pose proof (sq_st _ _ HS p P T EP ET) as [].
  destruct (Sq_change r p P T P (set_wchan 0 T) k k' HS EP ET) as (r'&Hr'&_); [by rewrite Ew, insert_id|done..| | |done| |by exists r'].
  - exact Hm.
  - rewrite Hq. apply rm_same; [done..|]. intros _. by left.
  - constructor; cbn; auto; done.
Qed.

(** ** Waking *)

(** The processes [W] that wait are woken: one that is asleep becomes runnable,
    one that is stopped only stops waiting. *)
Definition woken_proc (P : proc) : proc := if p_stat P =? SSLEEP then set_p_stat SRUN P else P.
Definition woken_thread (lf : Z) (P : proc) (T : thread) : thread :=
  if p_stat P =? SSLEEP then running lf P T else set_wchan 0 T.

Record same_frame (k k' : kworld) : Prop := mkFrame {
  fr_pw : pw k' = set_procs (procs (pw k')) (pw k);
  fr_cur : curproc k' = curproc k;
  fr_curpri : curpri k' = curpri k;
  fr_load : averunnable k' = averunnable k;
}.

Definition in_proc (k : kworld) (p : loc) (P : proc) (T : thread) : Prop :=
  procs (pw k) !! p = Some P /\ threads k !! p = Some T.

(** A process that is asleep and in memory, of the priority of run queue [n], is woken. *)
Definition queued_by (W : loc -> bool) (k : kworld) (n : Z) (p : loc) : Prop :=
  exists P T, in_proc k p P T /\ W p = true /\ p_wchan T <> 0 /\ p_stat P = SSLEEP /\ has (p_flag P) SLOAD = true /\ p_pri T / PPQ = n.

Record wakes (W : loc -> bool) (k k' : kworld) : Prop := mkWakes {
  wk_frame : same_frame k k';
  wk_none : forall p, procs (pw k) !! p = None -> procs (pw k') !! p = None;
  wk_in : forall p P T, in_proc k p P T ->
    if W p && negb (p_wchan T =? 0) then in_proc k' p (woken_proc P) (woken_thread (loadfactor (averunnable k)) P T)
    else in_proc k' p P T;
  wk_order : forall n, chain (slpq k') n `sublist_of` chain (slpq k) n;
  wk_nothread : forall p, threads k !! p = None -> threads k' !! p = None;
  wk_queue : forall n, exists l, chain (qs k') n = chain (qs k) n ++ l /\ forall p, p ∈ l <-> queued_by W k n p;
}.

Lemma same_frame_refl k : same_frame k k.
Proof. constructor; [|done..]. by destruct k as [[]]. Qed.
Lemma same_frame_trans k1 k2 k3 : same_frame k1 k2 -> same_frame k2 k3 -> same_frame k1 k3.
Proof.
  intros [E1 ???] [E2 ???]. constructor; try congruence. rewrite E2. rewrite E1. by destruct (pw k1).
Qed.

Lemma wakes_refl W k : (forall p P T, in_proc k p P T -> W p = true -> p_wchan T = 0) -> wakes W k k.
Proof.
  intros Hw. constructor; [apply same_frame_refl|done| |done|done|].
  - intros p P T Hp. destruct (W p) eqn:E; [|done]. rewrite (Hw p P T) by done. done.
  - intros n. exists []. split; [by rewrite app_nil_r|]. intros p. split; [by intros ?%not_elem_of_nil|].
    intros (P&T&Hp&HW&Hn&_). by destruct Hn, (Hw p P T Hp HW).
Qed.

Lemma woken_wchan lf P T : p_wchan (woken_thread lf P T) = 0.
Proof. unfold woken_thread. case_if; [apply running_facts|done]. Qed.

Lemma wakes_trans W1 W2 k1 k2 k3 : wakes W1 k1 k2 -> wakes W2 k2 k3 -> wakes (fun p => W1 p || W2 p) k1 k3.
Proof.
  intros [F1 N1 I1 O1 N1' Q1] [F2 N2 I2 O2 N2' Q2]. constructor.
  - by eapply same_frame_trans.
  - auto.
  - intros p P T Hp. specialize (I1 p P T Hp). destruct (p_wchan T =? 0) eqn:Ew; cbn in *.
    + rewrite andb_false_r in *. specialize (I2 p P T I1). by rewrite Ew, andb_false_r in I2.
    + rewrite andb_true_r in *. destruct (W1 p); cbn in *.
      * specialize (I2 _ _ _ I1). rewrite woken_wchan, andb_false_r in I2. done.
      * specialize (I2 p P T I1). rewrite Ew, andb_true_r, (fr_load _ _ F1) in I2. done.
  - intros n. by transitivity (chain (slpq k2) n).
  - auto.
  - intros n. destruct (Q1 n) as (l1&E1&H1), (Q2 n) as (l2&E2&H2). exists (l1 ++ l2). split; [by rewrite E2, E1, (assoc_L (++))|].
    intros p. rewrite elem_of_app, H1, H2. unfold queued_by. split.
    + intros [(P&T&Hp&HW&Hr)|(P&T&(EP&ET)&HW&Hn&Hr)]; [exists P, T; by rewrite HW|].
      destruct (procs (pw k1) !! p) as [P1|] eqn:EP1; [|by rewrite N1 in EP]. destruct (threads k1 !! p) as [T1|] eqn:ET1; [|by rewrite N1' in ET].
      specialize (I1 p P1 T1 (conj EP1 ET1)). destruct (W1 p && _) eqn:E; destruct I1 as (Ex&Ey); simplify_eq.
      * by destruct Hn, (woken_wchan (loadfactor (averunnable k1)) P1 T1).
      * exists P1, T1. split; [done|]. rewrite HW, orb_true_r. tauto.
    + intros (P&T&Hp&HW&Hn&Hr). specialize (I1 p P T Hp). destruct (W1 p) eqn:E1'; [left; exists P, T; by rewrite ?E1'|].
      right. exists P, T. cbn in *. done.
Qed.

Lemma wakes_ext W W' k k' : wakes W k k' ->
  (forall p P T, in_proc k p P T -> p_wchan T <> 0 -> W p = W' p) -> wakes W' k k'.
Proof.
  intros [F N I O N' Q] He. constructor; [done..| |done|done|].
  - intros p P T Hp. specialize (I p P T Hp).
    destruct (Z.eqb_spec (p_wchan T) 0) as [E|E]; [by rewrite andb_false_r in *|]. by rewrite <- (He p P T Hp E).
  - intros n. destruct (Q n) as (l&E&Hl). exists l. split; [done|]. intros p. rewrite Hl. unfold queued_by.
    split; intros (P&T&Hp&HW&Hn&Hr); exists P, T; [rewrite <- (He p P T Hp Hn)|rewrite (He p P T Hp Hn)]; done.
Qed.

Lemma wakes_not W k k' p P T : wakes W k k' -> in_proc k p P T -> W p = false \/ p_wchan T = 0 -> in_proc k' p P T.
Proof.
  intros Hwk Hp Hor. pose proof (wk_in _ _ _ Hwk p P T Hp) as Hx. destruct Hor as [E|E]; rewrite E in Hx; [done|].
  by rewrite andb_false_r in Hx.
Qed.
Lemma wakes_yes W k k' p P T : wakes W k k' -> in_proc k p P T -> W p = true -> p_wchan T <> 0 ->
  in_proc k' p (woken_proc P) (woken_thread (loadfactor (averunnable k)) P T).
Proof.
  intros Hwk Hp E En. pose proof (wk_in _ _ _ Hwk p P T Hp) as Hx. apply Z.eqb_neq in En. by rewrite E, En in Hx.
Qed.

(** The process waits on the channel. *)
Definition hits (chan : Z) (k : kworld) (p : loc) : bool :=
  match threads k !! p with Some T => p_wchan T =? chan | None => false end.

Lemma moves_sublist p q q' o n : moves p o None q q' -> chain q' n `sublist_of` chain q n.
Proof.
  unfold moves. destruct o as [m|]; [|by intros ->]. intros (l1&l2&E&->). rewrite chain_insert.
  destruct (decide (n = m)) as [->|]; [|done]. rewrite E. apply sublist_app; [done|]. by apply sublist_cons.
Qed.

(** *** How many wait *)

Lemma chain_lookup (q : gmap Z (list loc)) n : chain q n <> [] -> q !! n = Some (chain q n).
Proof. unfold chain. by destruct (q !! n). Qed.

Lemma sum_chain_le (q' q : gmap Z (list loc)) : (forall n, (length (chain q' n) <= length (chain q n))%nat) ->
  (sum_map length q' <= sum_map length q)%nat.
Proof.
  revert q. induction q' as [|i x m Hi IH] using map_ind; intros q Hle.
  - unfold sum_map at 1. rewrite map_fold_empty. lia.
  - rewrite sum_map_fresh by done. pose proof (Hle i) as Hx. rewrite chain_insert, decide_True in Hx by done.
    assert (forall n, (length (chain m n) <= length (chain (delete i q) n))%nat) as Hm.
    { intros n. specialize (Hle n). rewrite chain_insert in Hle. unfold chain at 2. destruct (decide (n = i)) as [->|].
      - unfold chain. rewrite Hi. cbn. lia.
      - rewrite lookup_delete_ne by done. done. }
    specialize (IH _ Hm). destruct (q !! i) as [y|] eqn:Ey.
    + rewrite (sum_map_delete _ q i y Ey). unfold chain in Hx. rewrite Ey in Hx. cbn in Hx. lia.
    + unfold chain in Hx. rewrite Ey in Hx. cbn in Hx. rewrite delete_id in IH by done. lia.
Qed.

Lemma sum_chain_del (q : gmap Z (list loc)) n l1 p l2 : chain q n = l1 ++ p :: l2 ->
  S (sum_map length (<[n := l1 ++ l2]> q)) = sum_map length q.
Proof.
  intros E. pose proof (sum_map_insert length q n (l1 ++ p :: l2) (l1 ++ l2)) as Hs.
  rewrite <- E in Hs at 1. rewrite chain_lookup in Hs by (rewrite E; by destruct l1). specialize (Hs eq_refl).
  rewrite !length_app in Hs. cbn in Hs. lia.
Qed.

Lemma wakes_sleepers W k k' : wakes W k k' -> (sleepers k' <= sleepers k)%nat.
Proof. intros [_ _ _ O _ _]. apply sum_chain_le. intros n. apply sublist_length, O. Qed.

(** *** The loops of wakeup *)

Lemma hits_in c k p P T : in_proc k p P T -> hits c k p = (p_wchan T =? c).
Proof. intros (_&E). unfold hits. by rewrite E. Qed.

Lemma Sq_in k p T : Sq k -> threads k !! p = Some T -> exists P, in_proc k p P T.
Proof. intros (r&HS) E. destruct (proj1 (sq_dom _ _ HS p)) as (P&EP); [by eexists|]. by exists P. Qed.

Lemma queue_hit k p chan : Sq k -> p ∈ chain (slpq k) (HASH chan) -> exists P T, in_proc k p P T /\ p_wchan T <> 0.
Proof.
  intros HS Hp. pose proof HS as (r&HS'). apply (sq_slp _ _ HS') in Hp. unfold wpos in Hp.
  destruct (threads k !! p) as [T|] eqn:ET; [|done]. destruct (Sq_in k p T HS ET) as (P&HP). exists P, T. split; [done|].
  cbn in Hp. unfold wslot in Hp. by destruct (Z.eqb_spec (p_wchan T) 0).
Qed.

Lemma wakes_one k k' p P T : in_proc k p P T -> p_wchan T <> 0 -> same_frame k k' ->
  procs (pw k') = <[p := woken_proc P]> (procs (pw k)) ->
  threads k' = <[p := woken_thread (loadfactor (averunnable k)) P T]> (threads k) ->
  moves p (wslot T) None (slpq k) (slpq k') ->
  qs k' = (if p_stat P =? SSLEEP then run_queue p P T (qs k) else qs k) -> wakes (fun x => bool_decide (x = p)) k k'.
Proof.
  intros (EP&ET) Hw F Ep Et Hm Hq. constructor; [done| | | | |].
  - intros x Ex. rewrite Ep. rewrite lookup_insert_ne; [done|]. intros ->. congruence.
  - intros x X Y (EX&EY). unfold in_proc. rewrite Ep, Et. destruct (decide (x = p)) as [->|Hne].
    + simplify_eq. rewrite bool_decide_true by done. apply Z.eqb_neq in Hw. rewrite Hw. cbn.
      by rewrite !lookup_insert_eq.
    + rewrite bool_decide_false by done. cbn. by rewrite !lookup_insert_ne.
  - intros n. by eapply moves_sublist.
  - intros x Ex. rewrite Et. rewrite lookup_insert_ne; [done|]. intros ->. congruence.
  - intros n. rewrite Hq. unfold run_queue, queued_by.
    destruct (decide (p_stat P = SSLEEP /\ has (p_flag P) SLOAD = true /\ p_pri T / PPQ = n)) as [(Es&El&En)|Hno].
    + exists [p]. rewrite (proj2 (Z.eqb_eq _ _) Es), El, En, chain_insert, decide_True by done. split; [done|].
      intros x. rewrite list_elem_of_singleton. split; [intros ->; exists P, T; by rewrite bool_decide_true|].
      intros (?&?&_&Hx%bool_decide_eq_true&_). done.
    + exists []. split.
      * rewrite app_nil_r. destruct (Z.eqb_spec (p_stat P) SSLEEP); [|done]. destruct (has (p_flag P) SLOAD) eqn:El; [|done].
        rewrite chain_insert, decide_False; [done|]. intros E. by apply Hno.
      * intros x. split; [by intros ?%not_elem_of_nil|]. intros (X&Y&(EX&EY)&->%bool_decide_eq_true&_&H). by simplify_eq.
Qed.

Section Loops.
Context `{Layout}.

(** A process asleep on the channel is swapped out. *)
Definition unloaded (chan : Z) (k : kworld) : Prop :=
  exists p P T, in_proc k p P T /\ p_wchan T = chan /\ p_stat P = SSLEEP /\ has (p_flag P) SLOAD = false.

Lemma scan_ok chan : chan <> 0 -> forall l pre k, Sq k -> chain (slpq k) (HASH chan) = pre ++ l ->
  (forall x, x ∈ pre -> hits chan k x = false) ->
  exists r k2 k1 W, wakeup_scan chan pre l k = Ok (r, k2) /\ wakes W k k1 /\ Sq k1
    /\ (forall x P T, in_proc k x P T -> W x = true -> p_wchan T = chan /\ p_stat P <> SSLEEP)
    /\ match r with
       | None => k2 = k1 /\ forall x, hits chan k1 x = false
       | Some p => exists P T q, in_proc k1 p P T /\ p_wchan T = chan /\ p_stat P = SSLEEP
           /\ moves p (wslot T) None (slpq k1) q /\ k2 = set_slpq q (set_thread p (set_wchan 0 T) k1)
       end.
Proof.
  intros Hc l. induction l as [|p l IH]; intros pre k HS Ec Hpre; cbn [wakeup_scan].
  - exists None, k, k, (fun _ => false). split_and!; [done|by apply wakes_refl|done|done|done|].
    intros x. destruct (hits chan k x) eqn:E; [|done]. rewrite <- (Hpre x), E; [done|].
    unfold hits in E. destruct (threads k !! x) as [T|] eqn:ET; [|done]. apply Z.eqb_eq in E.
    rewrite app_nil_r in Ec. rewrite <- Ec. destruct HS as (r&HS). apply (sq_slp _ _ HS). unfold wpos, wslot. rewrite ET. cbn.
    rewrite E. by destruct (Z.eqb_spec chan 0).
  - destruct (queue_hit k p chan HS) as (P&T&Hin&Hw); [rewrite Ec; set_solver|]. pose proof Hin as (EP&ET).
    rewrite (thread_of_eq p k T ET). cbn [mbind outcome_bind]. destruct (Z.eqb_spec (p_wchan T) chan) as [Ew|Ew].
    + assert (moves p (wslot T) None (slpq k) (<[HASH chan := pre ++ l]> (slpq k))) as Hm.
      { unfold wslot. rewrite Ew. destruct (Z.eqb_spec chan 0); [done|]. by exists pre, l. }
      set (k' := set_slpq _ _). assert (proc_of p k' = Ok P) as -> by (by apply proc_of_eq). cbn [mbind outcome_bind].
      destruct (Z.eqb_spec (p_stat P) SSLEEP) as [Es|Es].
      * exists (Some p), k', k, (fun _ => false). split_and!; [done|by apply wakes_refl|done|done|].
        exists P, T, (<[HASH chan := pre ++ l]> (slpq k)). split_and!; done.
      * assert (Sq k') as HS'. { destruct HS as (r&HS). by apply (Sq_unwait r p P T k k'). }
        assert (wakes (fun x => bool_decide (x = p)) k k') as Hwk.
        { apply (wakes_one k k' p P T); [done|done| | | |done|by destruct (Z.eqb_spec (p_stat P) SSLEEP)].
          - constructor; try done. unfold k'. cbn. by destruct (pw k).
          - unfold woken_proc. destruct (Z.eqb_spec (p_stat P) SSLEEP); [done|]. by rewrite insert_id.
          - unfold woken_thread. by destruct (Z.eqb_spec (p_stat P) SSLEEP). }
        assert (forall x, x ∈ pre ++ l -> x <> p) as Hnp.
        { destruct HS as (r&HS). destruct (sq_slp _ _ HS (HASH chan)) as (Hn&_). rewrite Ec in Hn.
          intros x Hx ->. rewrite <- Permutation_middle in Hn. apply list.NoDup_cons in Hn as (Hn&_). done. }
        destruct (IH pre k') as (r&k2&k1&W&Esc&Hwk1&HS1&HW&Hr); [done| | |].
        { unfold k'. cbn. by rewrite chain_insert, decide_True. }
        { intros x Hx. rewrite <- (Hpre x Hx). unfold hits, k'. cbn. rewrite lookup_insert_ne; [done|]. intros <-.
          apply (Hnp p); [set_solver|done]. }
        exists r, k2, k1, (fun x => bool_decide (x = p) || W x). split_and!; [done|by eapply wakes_trans|done| |done].
        intros x X Y HX HWx. destruct (decide (x = p)) as [->|Hne].
        { destruct HX as (EX&EY). simplify_eq. done. }
        rewrite bool_decide_false in HWx by done. apply (HW x X Y); [|done].
        apply (wakes_not _ _ _ _ _ _ Hwk HX). left. by apply bool_decide_false.
    + apply IH; [done|by rewrite Ec, <- (assoc_L (++))|]. intros x Hx. apply elem_of_app in Hx as [Hx|Hx]; [by apply Hpre|]. apply list_elem_of_singleton in Hx as ->.
      rewrite (hits_in _ _ _ _ _ Hin). by apply Z.eqb_neq.
Qed.
(** A process taken off its queue is made runnable. *)
Lemma woken_run_ok r p P T q k : Sq_at r k -> in_proc k p P T -> p_stat P = SSLEEP -> p_wchan T <> 0 ->
  moves p (wslot T) None (slpq k) q ->
  exists k', wakeup_run p (set_slpq q (set_thread p (set_wchan 0 T) k)) = Ok k' /\ Sq k'
    /\ wakes (fun x => bool_decide (x = p)) k k' /\ sleepers k = S (sleepers k').
Proof.
  intros HS (EP&ET) Es Hw Hm. pose proof (sq_st _ _ HS p P T EP ET) as Hok. set (k2 := set_slpq _ _).
  assert (Sq k) as HSq by (by exists r). pose proof (Sq_load k HSq) as Hl.
  assert (p_rlink T = false) as Hr.
  { apply (not_queued _ _ _ Hok). by rewrite Es. }
  destruct (wakeup_run_ok p k2 (set_wchan 0 T) P) as (b&a&->); [apply lookup_insert_eq|done|done|apply Hok|apply Hok|done|done|].
  eexists. split; [reflexivity|]. set (k' := set_resched _ _ _).
  assert (procs (pw k') = <[p := set_p_stat SRUN P]> (procs (pw k))) as Ep by done.
  assert (threads k' = <[p := running (loadfactor (averunnable k)) P T]> (threads k)) as Et.
  { unfold k', k2. cbn. rewrite insert_insert_eq. done. }
  split; [|split].
  - apply (Sq_running r p P T k k'); try done; [by right; left|]. intros Ec. by apply (th_cur _ _ _ Hok Ec).
  - apply (wakes_one k k' p P T); [done|done|by constructor| | |done|by rewrite Es].
    + unfold woken_proc. by rewrite Es.
    + unfold woken_thread. by rewrite Es.
  - unfold wslot in Hm. destruct (Z.eqb_spec (p_wchan T) 0); [done|]. destruct Hm as (l1&l2&E&->).
    unfold sleepers. cbn. by rewrite (sum_chain_del _ _ _ _ _ E).
Qed.

Lemma hits_wakes_not c W k k' x P T : wakes W k k' -> in_proc k x P T -> W x = false \/ p_wchan T = 0 -> hits c k' x = hits c k x.
Proof. intros Hw Hx Hor. by rewrite (hits_in _ _ _ _ _ (wakes_not _ _ _ _ _ _ Hw Hx Hor)), (hits_in _ _ _ _ _ Hx). Qed.

(** A process that still waits, or sleeps, after some were woken, did before. *)
Lemma wakes_back W k k' p P T : Sq k -> wakes W k k' -> in_proc k' p P T -> p_wchan T <> 0 -> in_proc k p P T.
Proof.
  intros HS Hw (EP&ET) Hn. destruct (procs (pw k) !! p) as [P0|] eqn:EP0; [|by rewrite (wk_none _ _ _ Hw p EP0) in EP].
  destruct (threads k !! p) as [T0|] eqn:ET0; [|destruct HS as (r&HS); destruct (proj2 (sq_dom _ _ HS p)) as (?&?); [by eexists|congruence]].
  assert (in_proc k p P0 T0) as Hi by done. pose proof (wk_in _ _ _ Hw p P0 T0 Hi) as Hx.
  destruct (W p && _).
  - destruct Hx as (_&Ex). rewrite ET in Ex. injection Ex as ->. by rewrite woken_wchan in Hn.
  - destruct Hx as (Ex&Ey). by simplify_eq.
Qed.

Lemma wakeup_loop_ok : forall n chan k, chan <> 0 -> Sq k -> (sleepers k < n)%nat ->
  exists k' b, wakeup_loop n chan k = Ok k' /\ Sq k' /\ (b = true <-> unloaded chan k)
    /\ wakes (fun x => hits chan k x || (b && hits (proc_addr (proc0 (pw k))) k x)) k k'.
Proof.
  intros n. induction n as [|n IH]; intros chan k Hc HS Hn; [lia|]. cbn [wakeup_loop].
  destruct (scan_ok chan Hc (chain (slpq k) (HASH chan)) [] k HS) as (r&k2&k1&W&->&Hwk&HS1&HW&Hr); [done|set_solver|].
  cbn [mbind outcome_bind]. destruct r as [p|].
  2:{ destruct Hr as (->&Hno). exists k1, false. split; [done|]. split; [done|]. split.
      - split; [done|]. intros (p&P&T&Hp&Ew&Es&_). exfalso.
        assert (hits chan k1 p = true) as Hh; [|by rewrite Hno in Hh].
        rewrite (hits_in chan k1 p P T); [by apply Z.eqb_eq|]. apply (wakes_not _ _ _ _ _ _ Hwk Hp). left.
        apply not_true_is_false. intros E. by destruct (HW p P T Hp E).
      - apply (wakes_ext W); [done|]. intros x P T Hx Hw. cbn. rewrite orb_false_r. destruct (W x) eqn:EW.
        + destruct (HW x P T Hx EW) as (Ew&_). rewrite (hits_in _ _ _ _ _ Hx). symmetry. by apply Z.eqb_eq.
        + rewrite <- (hits_wakes_not chan _ _ _ _ _ _ Hwk Hx) by (by left). by rewrite Hno. }
  destruct Hr as (P&T&q&Hp&Ew&Es&Hm&->). destruct HS1 as (r1&HS1).
  destruct (woken_run_ok r1 p P T q k1) as (k3&->&HS3&Hwk3&Hsl); [done|done|done|congruence|done|].
  cbn [mbind outcome_bind]. pose proof (wakes_sleepers _ _ _ Hwk). assert (wakes (fun x => W x || bool_decide (x = p)) k k3) as Hw13 by exact (wakes_trans _ _ _ _ _ Hwk Hwk3).
  assert (in_proc k3 p (set_p_stat SRUN P) (running (loadfactor (averunnable k1)) P T)) as Hp3.
  { pose proof (wakes_yes _ _ _ _ _ _ Hwk3 Hp) as Hx. unfold woken_proc, woken_thread in Hx. rewrite Es in Hx. apply Hx; [by apply bool_decide_true|congruence]. }
  assert (in_proc k p P T) as Hpk by (apply (wakes_back W k k1); [done..|congruence]).
  rewrite (proc_of_eq p k3 _ (proj1 Hp3)). cbn [mbind outcome_bind p_flag set_p_stat].
  assert (forall x X Y, in_proc k x X Y -> W x || bool_decide (x = p) = true -> p_wchan Y = chan) as Hsub.
  { intros x X Y Hx. destruct (W x) eqn:EW; [intros _; by apply (HW x X Y)|]. cbn. intros ->%bool_decide_eq_true.
    destruct Hx, Hpk. by simplify_eq. }
  assert (proc0 (pw k3) = proc0 (pw k)) as E0 by (by rewrite (fr_pw _ _ (wk_frame _ _ _ Hw13))).
  set (a0 := proc_addr (proc0 (pw k))). destruct (has (p_flag P) SLOAD) eqn:El.
  - set (k4 := need_resched k3).
    assert (Sq k4) as HS4. { destruct HS3 as (r3&[]). exists r3. by constructor. }
    destruct (IH chan k4 Hc HS4) as (k5&b&E5&HS5&Hb&Hwk5); [change (sleepers k4) with (sleepers k3); lia|].
    cbn [mret outcome_ret mbind outcome_bind]. exists k5, b. split; [done|]. split; [done|]. split.
    + rewrite Hb. split; intros (x&X&Y&Hx&Ewx&Esx&Elx).
      * exists x, X, Y. split_and!; [|done..]. refine (wakes_back _ k k3 x X Y HS Hw13 Hx _). congruence.
      * exists x, X, Y. split_and!; [|done..]. change (in_proc k3 x X Y). apply (wakes_not _ _ _ _ _ _ Hw13 Hx). left.
        apply orb_false_iff. split; [apply not_true_is_false; intros EW; by destruct (HW x X Y Hx EW)|].
        apply bool_decide_false. intros ->. destruct Hx, Hpk. simplify_eq. congruence.
    + assert (wakes (fun x => (W x || bool_decide (x = p)) || (hits chan k3 x || (b && hits a0 k3 x))) k k5) as Hall.
      { apply (wakes_trans _ _ k k3 k5); [done|]. destruct Hwk5 as [[] ? ? ? ? ?]. cbn in *. rewrite E0 in *. by constructor. }
      apply (wakes_ext _ _ _ _ Hall). intros x X Y Hx Hwx. rewrite (hits_in chan k x X Y Hx), (hits_in a0 k x X Y Hx).
      destruct (W x || bool_decide (x = p)) eqn:Ex.
      * cbn. rewrite (Hsub x X Y Hx Ex), Z.eqb_refl. done.
      * cbn [orb]. rewrite !(hits_wakes_not _ _ _ _ _ _ _ Hw13 Hx) by (by left).
        by rewrite (hits_in chan k x X Y Hx), (hits_in a0 k x X Y Hx).
  - destruct (IH (proc_addr (proc0 (pw k3))) k3) as (k4&b4&->&HS4&_&Hwk4); [apply proc_addr_nz|done|lia|].
    cbn [mbind outcome_bind]. rewrite E0 in Hwk4. fold a0 in Hwk4.
    pose proof (wakes_trans _ _ _ _ _ Hw13 Hwk4) as Hw14. pose proof (wakes_sleepers _ _ _ Hwk4).
    destruct (IH chan k4 Hc HS4) as (k5&b&E5&HS5&Hb&Hwk5); [lia|].
    exists k5, true. split; [done|]. split; [done|]. split; [split; [intros _|done]; by exists p, P, T|].
    pose proof (wakes_trans _ _ _ _ _ Hw14 Hwk5) as Hall.
    assert (proc0 (pw k4) = proc0 (pw k)) as E04 by (by rewrite (fr_pw _ _ (wk_frame _ _ _ Hw14))).
    rewrite E04 in Hall. fold a0 in Hall. apply (wakes_ext _ _ _ _ Hall). intros x X Y Hx Hwx. rewrite (hits_in chan k x X Y Hx), (hits_in a0 k x X Y Hx).
    destruct (W x || bool_decide (x = p)) eqn:Ex.
    + cbn. rewrite (Hsub x X Y Hx Ex), Z.eqb_refl. done.
    + cbn [orb]. assert (in_proc k3 x X Y) as Hx3 by (apply (wakes_not _ _ _ _ _ _ Hw13 Hx); by left).
      rewrite (hits_in a0 k3 x X Y Hx3). destruct (p_wchan Y =? a0) eqn:E; [by rewrite !orb_true_r|].
      rewrite andb_false_r, orb_false_l, orb_false_r. assert (in_proc k4 x X Y) as Hx4.
      { apply (wakes_not _ _ _ _ _ _ Hwk4 Hx3). left. by rewrite (hits_in a0 k3 x X Y Hx3), E, andb_false_r. }
      by rewrite (hits_in chan k4 x X Y Hx4), (hits_in a0 k4 x X Y Hx4), E, andb_false_r, orb_false_r.
Qed.

Lemma wakeup_ok chan k : chan <> 0 -> Sq k ->
  exists k' b, wakeup chan k = Ok k' /\ Sq k' /\ (b = true <-> unloaded chan k)
    /\ wakes (fun x => hits chan k x || (b && hits (proc_addr (proc0 (pw k))) k x)) k k'.
Proof. intros Hc HS. apply wakeup_loop_ok; [done|done|lia]. Qed.
End Loops.
