(* ===== verification/SleepCalls.v ===== *)
(** * Sleep queues and run queues: the operations that use wakeup, the switch to
      another process and the clock's second *)

From S2P Require Import Prelude Pgrp PgrpInv Exit Sleep SleepInv.

(** ** The switch *)

Lemma first_queue_ok q : forall m n,
  match first_queue m n q with
  | Some (i, p, l) => n <= i < n + Z.of_nat m /\ chain q i = p :: l /\ forall j, n <= j < i -> chain q j = []
  | None => forall j, n <= j < n + Z.of_nat m -> chain q j = []
  end.
Proof.
  intros m. induction m as [|m IH]; intros n; cbn [first_queue]; [intros j Hj; lia|].
  destruct (chain q n) as [|p l] eqn:E.
  - specialize (IH (n + 1)). destruct (first_queue m (n + 1) q) as [((i&p)&l)|].
    + destruct IH as (?&?&Hj). split; [lia|]. split; [done|]. intros j ?.
      destruct (Z.eq_dec j n) as [->|]; [done|]. apply Hj. lia.
    + intros j ?. destruct (Z.eq_dec j n) as [->|]; [done|]. apply IH. lia.
  - split; [lia|]. split; [done|]. intros j ?. lia.
Qed.

(** The process on the processor after a switch: of the processes on the run
    queues, one whose queue comes first; the exiting ones may be on a queue that
    is not that of their priority. *)
Definition switched (k k' : kworld) : Prop :=
  match curproc k' with
  | None => threads k' = threads k /\ forall q Q, threads k !! q = Some Q -> p_rlink Q = false
  | Some p => exists P T, in_proc k p P T /\ p_rlink T = true /\ threads k' = <[p := set_rlink false T]> (threads k)
      /\ (has (p_flag P) SWEXIT = false -> forall q Q R, in_proc k q Q R -> p_rlink R = true ->
            has (p_flag Q) SWEXIT = false -> p_pri T / PPQ <= p_pri R / PPQ)
  end.

Lemma swtch_ok k : Sq (set_curproc None k) ->
  exists k', swtch k = Ok k' /\ Sq k' /\ pw k' = pw k /\ slpq k' = slpq k /\ averunnable k' = averunnable k
    /\ klog k' = klog k /\ curpri k' = curpri k /\ switched k k'.
Proof.
  intros (r&HS). unfold swtch. pose proof (first_queue_ok (qs k) 32 0) as Hf.
  cbn [qs set_curproc]. destruct (first_queue 32 0 (qs k)) as [((i&p)&l)|].
  - destruct Hf as (Hi&Ec&Hbefore). assert (r p = Some i) as Er.
    { apply (sq_run _ _ HS). change (p ∈ chain (qs k) i). rewrite Ec. by left. }
    destruct (sq_rpos _ _ HS p i Er) as (P&T&EP&ET&Hr&_&Hpi). cbn in EP, ET. unfold thread_of. cbn [threads set_curproc].
    rewrite ET. cbn. eexists. split; [reflexivity|]. pose proof (sq_st _ _ HS p P T EP ET) as Hok. split; [|split_and!; try done].
    + set (k' := set_curproc (Some p) _). destruct (Sq_change_gen r p P T P (set_rlink false T) (set_curproc None k) k' HS EP ET) as (r'&Hr'&_).
      * cbn. by rewrite insert_id. * done. * cbn. intros x Hx. split; [|done]. intros [= ->]. done. * done.
      * unfold wslot. cbn. by case_if.
      * cbn. by apply (rm_del _ _ _ _ _ _ _ i [] l).
      * done.
      * destruct Hok as [Hs Hw Hq Hru]. destruct (Hq Hr) as (Esr&_&Eld). constructor; cbn; try done.
        -- intros _. right. by right.
        -- by left.
        -- intros _. by rewrite Esr.
      * by exists r'.
    + cbn. exists P, T. do 3 (split; [done|]). intros Hx q Q R (EQ&ER) HR HxQ.
      destruct (sq_rlink _ _ HS q R ER HR) as (j&Ej). destruct (sq_rpos _ _ HS q j Ej) as (Q'&R'&EQ'&ER'&_&Hj&Hpj).
      cbn in EQ', ER'. simplify_eq. destruct Hpi as [<-|?]; [|congruence]. destruct Hpj as [<-|?]; [|congruence].
      apply Z.le_ngt. intros Hlt. pose proof (Hbefore j ltac:(lia)) as Hb.
      apply (sq_run _ _ HS) in Ej. change (q ∈ chain (qs k) j) in Ej. rewrite Hb in Ej. by apply not_elem_of_nil in Ej.
  - eexists. split; [reflexivity|]. split_and!; [by exists r|done..|]. unfold switched. cbn. split; [done|].
    intros q Q EQ. apply not_true_is_false. intros E. destruct (sq_rlink _ _ HS q Q EQ E) as (j&Ej).
    destruct (sq_rpos _ _ HS q j Ej) as (_&_&_&_&_&Hj&_). apply (sq_run _ _ HS) in Ej.
    change (q ∈ chain (qs k) j) in Ej. rewrite Hf in Ej by lia. by apply not_elem_of_nil in Ej.
Qed.

Lemma Sq_ext k k' : Sq k -> pw k' = pw k -> threads k' = threads k -> slpq k' = slpq k -> qs k' = qs k ->
  curproc k' = curproc k -> averunnable k' = averunnable k -> Sq k'.
Proof.
  intros (r&[]) E1 E2 E3 E4 E5 E6. exists r.
  constructor; rewrite ?E1, ?E2, ?E3, ?E4, ?E5, ?E6; try done. unfold wpos. by rewrite E2.
Qed.

(** ** setrun *)

(** The process [p] is made runnable, and nothing else changes. *)
Record ran (p : loc) (P : proc) (T : thread) (k k' : kworld) : Prop := mkRan {
  rn_frame : same_frame k k';
  rn_procs : procs (pw k') = <[p := set_p_stat SRUN P]> (procs (pw k));
  rn_threads : threads k' = <[p := running (loadfactor (averunnable k)) P T]> (threads k);
  rn_moves : moves p (wslot T) None (slpq k) (slpq k');
  rn_qs : qs k' = run_queue p P T (qs k);
}.

Lemma ran_other p P T k k' x X Y : ran p P T k k' -> x <> p -> in_proc k' x X Y <-> in_proc k x X Y.
Proof. intros [_ E1 E2 _ _] Hx. unfold in_proc. by rewrite E1, E2, !lookup_insert_ne. Qed.

Lemma ran_self p P T k k' : ran p P T k k' ->
  in_proc k' p (set_p_stat SRUN P) (running (loadfactor (averunnable k)) P T).
Proof. intros [_ E1 E2 _ _]. unfold in_proc. by rewrite E1, E2, !lookup_insert_eq. Qed.

Lemma repriced_rlink lf b T : repriced lf (set_rlink b T) = set_rlink b (repriced lf T).
Proof. unfold repriced, set_prio, slept_cpu. cbn. by case_if. Qed.

Section Setrun.
Context `{Layout}.

Lemma setrun_ok k p P T : Sq k -> in_proc k p P T -> runnable P -> curproc k <> Some p ->
  exists k1 k2, setrun p k = Ok k2 /\ ran p P T k k1 /\ Sq k2
    /\ wakes (fun x => negb (has (p_flag P) SLOAD) && hits (proc_addr (proc0 (pw k))) k1 x) k1 k2.
Proof.
  intros HS (EP&ET) Hrun Hc. pose proof HS as (r&HSr). pose proof (sq_st _ _ HSr p P T EP ET) as Hok.
  pose proof (Sq_load k HS) as Hl. set (lf := loadfactor (averunnable k)) in *.
  destruct (unsleep_eq p k T (sq_slp _ _ HSr) ET) as (q&Eu&Hm).
  assert (p_rlink T = false) as Hr.
  { apply (not_queued _ _ _ Hok). intros E. unfold runnable in Hrun. rewrite E in Hrun. by destruct Hrun as [|[|]]. }
  assert ((if (p_stat P =? SSTOP) || (p_stat P =? SSLEEP) then unsleep p k
    else if p_stat P =? SIDL then mret k else Panic "setrun") = Ok (set_thread p (set_wchan 0 T) (set_slpq q k))) as Es.
  { destruct (Z.eqb_spec (p_stat P) SSTOP); [done|]. destruct (Z.eqb_spec (p_stat P) SSLEEP); [done|]. cbn [orb].
    assert (p_stat P = SIDL) as E by (unfold runnable in Hrun; tauto). rewrite E. cbn.
    assert (p_wchan T = 0) as Ew.
    { destruct (Z.eq_dec (p_wchan T) 0) as [|Hw]; [done|]. destruct (th_waits _ _ _ Hok Hw) as [|[|(_&Ex)]]; [done..|].
      by rewrite E in Ex. }
    assert (q = slpq k) as -> by (unfold wslot in Hm; by rewrite Ew in Hm). rewrite set_wchan_same by done.
    f_equal. rewrite (set_thread_same p T (set_slpq _ _)) by done. by destruct k. }
  unfold setrun. rewrite (proc_of_eq p k P EP). cbn [mbind outcome_bind]. rewrite Es. cbn [mbind outcome_bind].
  set (k0 := set_proc p (set_p_stat SRUN P) (set_thread p (set_wchan 0 T) (set_slpq q k))).
  set (b := has (p_flag P) SLOAD). set (T1 := set_rlink b (set_wchan 0 T)).
  assert ((if b then setrq p k0 else mret k0) = Ok (set_qs (run_queue p P T (qs k)) (set_thread p T1 k0))) as Eq.
  { unfold run_queue, T1. fold b. destruct b.
    - unfold setrq, thread_of. cbn. rewrite lookup_insert_eq. cbn. by rewrite Hr.
    - rewrite set_rlink_same by done. rewrite (set_thread_same p (set_wchan 0 T) k0) by (apply lookup_insert_eq).
      unfold k0, set_qs, set_proc, set_pw. by destruct k. }
  rewrite Eq. cbn [mbind outcome_bind]. set (k1 := set_qs _ _).
  assert (threads k1 !! p = Some T1) as ET1 by apply lookup_insert_eq.
  rewrite (thread_of_eq p k1 T1 ET1). cbn [mbind outcome_bind].
  destruct (reprice_ok p k1 T1 ET1) as (w&a&T2&->&E2&Ep2&_); [exact Hl|apply Hok|apply Hok|].
  cbn [mbind outcome_bind]. rewrite (thread_of_eq p _ T2) by apply lookup_insert_eq. cbn [mbind outcome_bind].
  set (k2 := set_thread p (set_slptime 0 T2) _).
  assert (ran p P T k k2) as Hran.
  { constructor; [by constructor|done| |exact Hm|done].
    unfold k2, k1, k0. cbn. rewrite !insert_insert_eq. f_equal. rewrite E2. unfold running. fold b.
    change (averunnable k1) with (averunnable k). fold lf. unfold T1. rewrite repriced_rlink. done. }
  assert (Sq k2) as HS2.
  { apply (Sq_running r p P T k k2); try done. apply (rn_threads _ _ _ _ _ Hran). }
  fold b. destruct b; cbn [negb andb].
  - exists k2. eexists. split; [reflexivity|]. split; [exact Hran|]. destruct (p_pri T2 <? curpri k2).
    + split; [by apply (Sq_ext k2)|]. destruct (wakes_refl (fun _ => false) k2) as [[] ? ? ?]; [done|]. by constructor.
    + split; [done|]. by apply wakes_refl.
  - destruct (wakeup_ok (proc_addr (proc0 (pw k2))) k2) as (k3&b3&->&HS3&_&Hw); [apply proc_addr_nz|done|].
    exists k2, k3. split; [done|]. split; [exact Hran|]. split; [done|]. apply (wakes_ext _ _ _ _ Hw).
    intros x X Y Hx _. cbn. by destruct b3; rewrite ?orb_diag, ?orb_false_r.
Qed.
End Setrun.

(** ** Flags *)

(** The fields of a process that the queues do not depend on. *)
Definition same_sched (P P' : proc) : Prop :=
  p_stat P' = p_stat P /\ has (p_flag P') SLOAD = has (p_flag P) SLOAD /\ has (p_flag P') SWEXIT = has (p_flag P) SWEXIT.

Lemma Sq_proc k p P T P' : Sq k -> in_proc k p P T -> same_sched P P' -> Sq (set_proc p P' k).
Proof.
  intros (r&HS) (EP&ET) (E1&E2&E3). destruct (Sq_change r p P T P' T k (set_proc p P' k) HS EP ET) as (r'&Hr&_);
    [done|cbn; by rewrite insert_id|done|done| |by apply rm_same; [done..|left]|done| |by exists r'].
  - unfold wslot. by destruct (_ =? _).
  - destruct (sq_st _ _ HS p P T EP ET). constructor; rewrite ?E1, ?E2; done.
Qed.

Section Calls.
Context `{Layout}.

(** A process whose sleep timed out: it no longer waits, and says why. *)
Lemma endtsleep_ok k p P T : Sq k -> in_proc k p P T -> curproc k <> Some p ->
  exists k', endtsleep p k = Ok k' /\ Sq k' /\
    if p_wchan T =? 0 then k' = k
    else (exists P' T', in_proc k' p P' T' /\ p_wchan T' = 0 /\ p_flag P' = Z.lor (p_flag P) STIMO
            /\ p_stat P' = (if p_stat P =? SSLEEP then SRUN else p_stat P))
      /\ forall x X Y, x <> p -> in_proc k x X Y -> p_wchan Y <> proc_addr (proc0 (pw k)) -> in_proc k' x X Y.
Proof.
  intros HS Hp Hc. pose proof Hp as (EP&ET). unfold endtsleep. rewrite (thread_of_eq p k T ET). cbn [mbind outcome_bind].
  destruct (p_wchan T =? 0) eqn:Ew; [by exists k|]. rewrite (proc_of_eq p k P EP). cbn [mbind outcome_bind].
  assert (forall k2 P2 T2, Sq k2 -> in_proc k2 p P2 T2 -> p_wchan T2 = 0 -> p_flag P2 = p_flag P ->
    p_stat P2 = (if p_stat P =? SSLEEP then SRUN else p_stat P) ->
    (forall x X Y, x <> p -> in_proc k x X Y -> p_wchan Y <> proc_addr (proc0 (pw k)) -> in_proc k2 x X Y) ->
    exists k', (P ← proc_of p k2; mret (set_proc p (set_p_flag (Z.lor (p_flag P) STIMO) P) k2) : outcome kworld) = Ok k' /\ Sq k' /\
      (exists P' T', in_proc k' p P' T' /\ p_wchan T' = 0 /\ p_flag P' = Z.lor (p_flag P) STIMO
            /\ p_stat P' = (if p_stat P =? SSLEEP then SRUN else p_stat P))
      /\ forall x X Y, x <> p -> in_proc k x X Y -> p_wchan Y <> proc_addr (proc0 (pw k)) -> in_proc k' x X Y) as Hfin.
  { intros k2 P2 T2 HS2 Hp2 Ew2 Ef2 Es2 Ho. rewrite (proc_of_eq p k2 P2 (proj1 Hp2)). eexists. split; [reflexivity|]. split; [|split].
    - apply (Sq_proc k2 p P2 T2); [done|done|]. split; [done|]. cbn. by rewrite !has_lor.
    - exists (set_p_flag (Z.lor (p_flag P2) STIMO) P2), T2. split; [|cbn; by rewrite Ef2, Es2].
      split; [apply lookup_insert_eq|apply Hp2].
    - intros x X Y Hx HX Hw. destruct (Ho x X Y Hx HX Hw) as (EX&EY). split; [|done]. cbn. by rewrite lookup_insert_ne. }
  destruct (p_stat P =? SSLEEP) eqn:Es.
  - apply Z.eqb_eq in Es. destruct (setrun_ok k p P T) as (k1&k2&->&Hr&HS2&Hwk); [done|done|by right; left|done|].
    cbn [mbind outcome_bind]. destruct (running_facts (loadfactor (averunnable k)) P T) as (Fw&_).
    assert (in_proc k2 p (set_p_stat SRUN P) (running (loadfactor (averunnable k)) P T)) as Hp2.
    { apply (wakes_not _ _ _ _ _ _ Hwk (ran_self _ _ _ _ _ Hr)). by right. }
    eapply Hfin; [done|done|done|done|done|]. intros x X Y Hx HX Hw.
    assert (in_proc k1 x X Y) as HX1 by (by apply (ran_other _ _ _ _ _ _ _ _ Hr Hx)).
    apply (wakes_not _ _ _ _ _ _ Hwk HX1). left. rewrite (hits_in _ _ _ _ _ HX1). apply andb_false_intro2. by apply Z.eqb_neq.
  - apply Z.eqb_neq in Es. destruct HS as (r&HSr). destruct (unsleep_eq p k T (sq_slp _ _ HSr) ET) as (q&->&Hm).
    cbn [mbind outcome_bind]. apply (Hfin _ P (set_wchan 0 T)); try done.
    + apply (Sq_unwait r p P T k); done.
    + split; [done|apply lookup_insert_eq].
    + intros x X Y Hx (EX&EY) _. split; [done|]. cbn. by rewrite lookup_insert_ne.
Qed.
End Calls.

(** ** Giving up the processor *)

Lemma switched_in k k' x X Y : pw k' = pw k -> switched k k' -> in_proc k x X Y ->
  in_proc k' x X (if decide (curproc k' = Some x) then set_rlink false Y else Y).
Proof.
  intros Ew Hs (EX&EY). unfold in_proc. rewrite Ew. split; [done|]. unfold switched in Hs. destruct (curproc k') as [p|].
  - destruct Hs as (P&T&(EP&ET)&_&->&_). destruct (decide (Some p = Some x)) as [[= ->]|Hne].
    + rewrite lookup_insert_eq. congruence.
    + rewrite lookup_insert_ne; congruence.
  - destruct Hs as (->&_). by rewrite decide_False.
Qed.

Lemma sleep_on_ok k p P T chan pri : Sq k -> curproc k = Some p -> in_proc k p P T -> p_stat P = SRUN -> p_wchan T = 0 ->
  chan <> 0 -> 0 <= pri <= MAXPRI ->
  exists k1, sleep_on p chan pri k = Ok k1 /\ Sq k1 /\ same_frame k k1
    /\ in_proc k1 p P (set_pri pri (set_slptime 0 (set_wchan chan T)))
    /\ slpq k1 = <[HASH chan := chain (slpq k) (HASH chan) ++ [p]]> (slpq k) /\ qs k1 = qs k
    /\ forall x X Y, x <> p -> in_proc k x X Y <-> in_proc k1 x X Y.
Proof.
  intros (r&HS) Hc (EP&ET) Es Ew Hch Hpri. unfold sleep_on. rewrite (thread_of_eq p k T ET). cbn [mbind outcome_bind mret outcome_ret].
  rewrite u8_id by (change MAXPRI with 127 in Hpri; lia). set (T' := set_pri pri (set_slptime 0 (set_wchan chan T))).
  pose proof (sq_st _ _ HS p P T EP ET) as Hok. destruct Hok as [? ? Hq Hr Hcur ? ? ? ?].
  eexists. split; [reflexivity|]. set (k1 := sleepq_insert _ _ _). split; [|split; [constructor; [by destruct k as [[]]|done..]|split; [|split; [done|split; [done|]]]]].
  - destruct (Sq_change r p P T P T' k k1 HS EP ET) as (r'&?&_); [|done|done|done| | |done| |by exists r'].
    + cbn. by rewrite insert_id.
    + unfold wslot. rewrite Ew. cbn. by destruct (Z.eqb_spec chan 0).
    + apply rm_same; [done|done|]. intros E. destruct (Hq E) as (_&Hx&_). done.
    + constructor; cbn; auto; done.
  - split; [done|]. apply lookup_insert_eq.
  - intros x X Y Hx. unfold in_proc. cbn. rewrite lookup_insert_ne by done. done.
Qed.

(** The world of doze when the processor is given up. *)
Definition dozing (p : loc) (P : proc) (k : kworld) : kworld :=
  set_curproc None (add_klog [Nvcsw p] (set_proc p (set_p_stat SSLEEP P) k)).

Lemma dozing_Sq k p P T : Sq k -> curproc k = Some p -> in_proc k p P T -> p_wchan T <> 0 -> Sq (dozing p P k).
Proof.
  intros (r&HS) Hc (EP&ET) Hw. pose proof (sq_st _ _ HS p P T EP ET) as Hok.
  assert (p_rlink T = false) as Hr. { apply not_true_is_false. intros E. by destruct (th_queued _ _ _ Hok E) as (_&?&_). }
  destruct (Sq_change_gen r p P T (set_p_stat SSLEEP P) T k (dozing p P k) HS EP ET) as (r'&?&_);
    [done|cbn; by rewrite insert_id| |done| | |done| |by exists r'].
  - intros x Hx. cbn. rewrite Hc. split; [done|]. intros [= ->]. done.
  - unfold wslot. by destruct (_ =? _).
  - apply rm_same; [done|done|]. by rewrite Hr.
  - destruct Hok. constructor; cbn; auto; try done. by rewrite Hr.
Qed.

Lemma doze_ok k p P T : Sq k -> curproc k = Some p -> in_proc k p P T -> p_wchan T <> 0 ->
  exists k', doze p k = Ok k' /\ swtch (dozing p P k) = Ok k' /\ Sq k' /\ in_proc k' p (set_p_stat SSLEEP P) T /\ slpq k' = slpq k
    /\ curproc k' <> Some p /\ averunnable k' = averunnable k
    /\ forall x X Y, x <> p -> in_proc k x X Y -> in_proc k' x X (if decide (curproc k' = Some x) then set_rlink false Y else Y).
Proof.
  intros HS Hc (EP&ET) Hw. pose proof (dozing_Sq k p P T HS Hc (conj EP ET) Hw) as HS1. destruct HS as (r&HS).
  unfold doze. rewrite (proc_of_eq p k P EP). cbn [mbind outcome_bind].
  pose proof (sq_st _ _ HS p P T EP ET) as Hok. set (k1 := add_klog _ _).
  assert (p_rlink T = false) as Hr. { apply not_true_is_false. intros E. by destruct (th_queued _ _ _ Hok E) as (_&?&_). }
  destruct (swtch_ok k1 HS1) as (k'&E1&HS'&Ew&Eq&Ea&_&_&Hsw).
  assert (in_proc k1 p (set_p_stat SSLEEP P) T) as Hp1 by (split; [apply lookup_insert_eq|done]).
  assert (curproc k' <> Some p) as Hcp.
  { intros E. unfold switched in Hsw. rewrite E in Hsw. destruct Hsw as (P2&T2&(_&E2)&Hr2&_). destruct Hp1 as (_&E3). rewrite E3 in E2. congruence. }
  exists k'. split; [exact E1|]. split; [exact E1|]. split; [done|]. split; [|do 3 (split; [done|])].
  - pose proof (switched_in k1 k' p _ _ Ew Hsw Hp1) as Hx. by rewrite decide_False in Hx.
  - intros x X Y Hx (EX&EY). apply (switched_in k1 k'); [done|done|]. split; [cbn; by rewrite lookup_insert_ne|done].
Qed.

Lemma sleep_call_ok k p P T chan pri : Sq k -> curproc k = Some p -> in_proc k p P T -> p_stat P = SRUN -> p_wchan T = 0 ->
  chan <> 0 -> 0 <= pri <= MAXPRI ->
  exists k', sleep false chan pri k = Ok k' /\ Sq k' /\ curproc k' <> Some p
    /\ in_proc k' p (set_p_stat SSLEEP P) (set_pri pri (set_slptime 0 (set_wchan chan T)))
    /\ slpq k' = <[HASH chan := chain (slpq k) (HASH chan) ++ [p]]> (slpq k).
Proof.
  intros HS Hc Hp Es Ew Hch Hpri. unfold sleep. rewrite Hc. cbn [deref mbind outcome_bind].
  destruct (sleep_on_ok k p P T chan pri HS Hc Hp Es Ew Hch Hpri) as (k1&->&HS1&[_ Ec _ _]&Hp1&Eq&_&_). cbn [mbind outcome_bind].
  destruct (doze_ok k1 p P _ HS1 ltac:(congruence) Hp1 Hch) as (k'&->&_&HS'&Hp'&Eq'&Hc'&_). exists k'. by rewrite Eq', Eq.
Qed.

(** At the return to user mode a process goes back to its user priority; if it
    must give way it joins the run queue, and a process of the best queue runs. *)
Lemma preempt_ok k p P T : Sq k -> curproc k = Some p -> in_proc k p P T -> p_stat P = SRUN -> p_wchan T = 0 ->
  exists k', preempt p k = Ok k' /\ Sq k' /\
    if want_resched k then (exists q, curproc k' = Some q) /\
      exists k1, Sq k1 /\ (swtch k1 = Ok k' /\ k1 = set_curproc None k1) /\ pw k1 = pw k /\
        threads k1 = <[p := set_rlink true (set_pri (p_usrpri T) T)]> (threads k)
    else curproc k' = Some p /\ threads k' = <[p := set_pri (p_usrpri T) T]> (threads k) /\ pw k' = pw k.
Proof.
  intros (r&HS) Hc (EP&ET) Es Ew. unfold preempt. rewrite (thread_of_eq p k T ET). cbn [mbind outcome_bind].
  pose proof (sq_st _ _ HS p P T EP ET) as Hok. pose proof (th_usrpri _ _ _ Hok) as Hu.
  assert (p_rlink T = false) as Hr. { apply not_true_is_false. intros E. by destruct (th_queued _ _ _ Hok E) as (_&?&_). }
  cbn [want_resched set_thread set_threads]. destruct (want_resched k).
  - unfold setrq, thread_of. cbn. rewrite lookup_insert_eq. cbn. rewrite Hr. cbn [mret outcome_ret mbind outcome_bind].
    set (k1 := add_klog _ _). set (n := p_usrpri T / PPQ).
    assert (threads k1 = <[p := set_rlink true (set_pri (p_usrpri T) T)]> (threads k)) as Et.
    { unfold k1. cbn. by rewrite insert_insert_eq. }
    assert (Sq (set_curproc None k1)) as HS1.
    { destruct (Sq_change_gen r p P T P (set_rlink true (set_pri (p_usrpri T) T)) k (set_curproc None k1) HS EP ET) as (r'&?&_);
        [cbn; by rewrite insert_id|exact Et| |done| |by apply rm_add|done| |by exists r'].
      - intros x Hx. cbn. rewrite Hc. split; [done|]. intros [= ->]. done.
      - unfold wslot. cbn. by destruct (_ =? _).
      - destruct Hok as [? ? ? ? Hcur ? ? ? ?]. destruct (Hcur Hc) as (_&?). constructor; cbn; auto; try done. }
    destruct (swtch_ok k1 HS1) as (k'&Esw&HS'&_&_&_&_&_&Hsw). rewrite Esw. exists k'. split; [done|]. split; [done|].
    split; [|by exists (set_curproc None k1)]. unfold switched in Hsw. destruct (curproc k') as [q|]; [by exists q|]. exfalso. destruct Hsw as (_&Hn).
    specialize (Hn p (set_rlink true (set_pri (p_usrpri T) T))). rewrite Et, lookup_insert_eq in Hn. by specialize (Hn eq_refl).
  - cbn. eexists. split; [reflexivity|]. split; [|done]. set (k1 := set_thread _ _ _).
    destruct (Sq_change r p P T P (set_pri (p_usrpri T) T) k k1 HS EP ET) as (r'&?&_);
      [cbn; by rewrite insert_id|done|done|done| |apply rm_same; [done|done|by rewrite Hr]|done| |by exists r'].
    + unfold wslot. cbn. by destruct (_ =? _).
    + destruct Hok. constructor; cbn; auto.
Qed.

(** ** The clock's second *)

(** What schedcpu makes of a process. *)
Definition ticked (hz lf : Z) (P : proc) (T : thread) : thread :=
  let slptime := if (p_stat P =? SSLEEP) || (p_stat P =? SSTOP) then u32 (p_slptime T + 1) else p_slptime T in
  let pctcpu := Z.shiftr (u32 (p_pctcpu T * ccpu)) FSHIFT in
  let T1 := set_times (u32 (p_time T + 1)) slptime pctcpu (p_cpticks T) T in
  if 1 <? slptime then T1
  else
    let ticks := Z.shiftl (u32 (p_cpticks T)) (FSHIFT - CCPU_SHIFT) in
    let pctcpu := u32 (pctcpu + (if hz =? 100 then ticks else u32 (100 * ticks) / hz)) in
    let cpu := Z.min (u32 (decay_cpu lf (p_cpu T) + p_nice T)) UCHAR_MAX in
    let T2 := set_prio cpu (set_times (p_time T1) slptime pctcpu 0 T1) in
    if PUSER <=? p_pri T then set_pri (p_usrpri T2) T2 else T2.

Lemma ticked_facts hz lf P T : p_wchan (ticked hz lf P T) = p_wchan T /\ p_rlink (ticked hz lf P T) = p_rlink T
  /\ p_nice (ticked hz lf P T) = p_nice T.
Proof. unfold ticked. by repeat case_if. Qed.

Lemma ticked_ok hz lf c P T : thread_ok c P T -> thread_ok c P (ticked hz lf P T).
Proof.
  intros Hok. pose proof (th_slptime _ _ _ Hok) as Hs. unfold ticked.
  set (sl := if _ || _ then _ else _). assert (0 <= sl < 2 ^ 32) as Hsl.
  { unfold sl. case_if; [apply u32_range|done]. }
  set (cpu := Z.min _ _). assert (0 <= cpu < 2 ^ 32) as Hc.
  { unfold cpu. pose proof (u32_range (decay_cpu lf (p_cpu T) + p_nice T)). change UCHAR_MAX with 255. lia. }
  destruct Hok. destruct (1 <? sl); [constructor; cbn; auto|].
  destruct (PUSER <=? p_pri T); constructor; cbn; auto using usr_pri_u8.
Qed.

Lemma requeued_same T n : p_rlink T = true -> set_rlink true (set_pri n (set_rlink false T)) = set_pri n T.
Proof. destruct T. cbn. by intros ->. Qed.

Lemma moves_wait p T T' q : p_wchan T' = p_wchan T -> moves p (wslot T) (wslot T') q q.
Proof. intros E. unfold wslot. rewrite E. by destruct (_ =? _). Qed.

(** The same change of a process that does not leave its queues. *)
Lemma Sq_in_place r p P T T' k k' : Sq_at r k -> in_proc k p P T -> pw k' = pw k -> threads k' = <[p := T']> (threads k) ->
  slpq k' = slpq k -> qs k' = qs k -> curproc k' = curproc k -> averunnable k' = averunnable k ->
  p_wchan T' = p_wchan T -> p_rlink T' = p_rlink T ->
  (p_rlink T = true -> p_pri T' / PPQ = p_pri T / PPQ \/ has (p_flag P) SWEXIT = true) ->
  thread_ok (curproc k = Some p) P T' -> Sq k'.
Proof.
  intros HS (EP&ET) Ew Et Eq Er Ec Ea E1 E2 E3 Hok.
  destruct (Sq_change r p P T P T' k k' HS EP ET) as (r'&?&_);
    [by rewrite Ew, insert_id|done|done|done| |by apply rm_same|done|done|by exists r'].
  rewrite Eq. by apply moves_wait.
Qed.

(** A process that goes from one run queue to another. *)
Lemma Sq_requeue r p P T T' k k' n l : Sq_at r k -> in_proc k p P T -> pw k' = pw k -> threads k' = <[p := T']> (threads k) ->
  slpq k' = slpq k -> curproc k' = curproc k -> averunnable k' = averunnable k ->
  r p = Some n -> unlink p (chain (qs k) n) = Some l ->
  qs k' = <[p_pri T' / PPQ := chain (<[n := l]> (qs k)) (p_pri T' / PPQ) ++ [p]]> (<[n := l]> (qs k)) ->
  p_wchan T' = p_wchan T -> p_rlink T' = true -> thread_ok (curproc k = Some p) P T' -> Sq k'.
Proof.
  intros HS (EP&ET) Ew Et Es Ec Ea Er El Eq E1 E2 Hok. set (m := p_pri T' / PPQ) in *.
  eexists. apply (Sq_change_at r (Some m) p P T P T' k k' HS EP ET); [by rewrite Ew, insert_id|done| |done| | | | |by rewrite Ec].
  - intros x _. by rewrite Ec.
  - rewrite Es. by apply moves_wait.
  - rewrite Eq. destruct (unlink_split _ _ _ El) as (l1&l2&E&->).
    apply (queue_moves p (<[n := l1 ++ l2]> (qs k)) _ (fun x => if decide (x = p) then None else r x)).
    + apply (queue_moves p (qs k) _ r); [apply HS| |intros x ?; by rewrite decide_False].
      rewrite decide_True, Er by done. by exists l1, l2.
    + by rewrite !decide_True.
    + intros x ?. by rewrite !decide_False.
  - split; [by eexists|done].
  - intros j [= <-]. split; [by eapply pri_slot|by left].
Qed.

Lemma schedcpu_proc_ok hz lf k p P T : Sq k -> in_proc k p P T ->
  exists k', schedcpu_proc hz lf p k = Ok k' /\ Sq k' /\ pw k' = pw k /\ slpq k' = slpq k /\ curproc k' = curproc k
    /\ averunnable k' = averunnable k /\ threads k' = <[p := ticked hz lf P T]> (threads k).
Proof.
  intros (r&HS) Hp. pose proof Hp as (EP&ET). pose proof (sq_st _ _ HS p P T EP ET) as Hok.
  pose proof (ticked_ok hz lf _ P T Hok) as Hok'. destruct (ticked_facts hz lf P T) as (Fw&Fr&_).
  unfold schedcpu_proc. rewrite (proc_of_eq p k P EP), (thread_of_eq p k T ET). cbn [mbind outcome_bind].
  unfold ticked in Hok', Fw, Fr |- *.
  set (sl := if (p_stat P =? SSLEEP) || (p_stat P =? SSTOP) then u32 (p_slptime T + 1) else p_slptime T) in *.
  destruct (1 <? sl).
  - eexists. split; [reflexivity|]. split; [|done]. eapply (Sq_in_place r p P T); try done. intros _. by left.
  - set (T2 := set_cpu _ _). match goal with |- context [set_prio ?c ?t] => set (T3 := set_prio c t) in * end.
    destruct (setpri_ok p (set_thread p T2 k) T2) as (b&a&->); [apply lookup_insert_eq|].
    rewrite set_thread_twice. cbn [mbind outcome_bind].
    change (set_usrpri (u8 (usr_pri (p_cpu T2) (p_nice T2))) T2) with T3. set (k3 := set_resched _ _ _).
    assert (threads k3 !! p = Some T3) as E3 by apply lookup_insert_eq.
    rewrite (thread_of_eq p k3 T3 E3). cbn [mbind outcome_bind]. change (p_pri T3) with (p_pri T).
    destruct (PUSER <=? p_pri T).
    + change (curproc k3) with (curproc k).
      destruct (negb (bool_decide (curproc k = Some p)) && (p_stat P =? SRUN) && (Z.land (p_flag P) (Z.lor SLOAD SWEXIT) =? SLOAD)
        && negb (p_pri T / PPQ =? p_usrpri T3 / PPQ)) eqn:Ec.
      * rewrite !andb_true_iff, !negb_true_iff, bool_decide_eq_false, !Z.eqb_eq, Z.eqb_neq in Ec.
        destruct Ec as (((Hcp&Es)&Ef)&_).
        assert (has (p_flag P) SLOAD = true /\ has (p_flag P) SWEXIT = false) as (Hl&Hx).
        { unfold has. split.
          - replace SLOAD with (Z.land (Z.lor SLOAD SWEXIT) SLOAD) by done. by rewrite Z.land_assoc, Ef.
          - replace SWEXIT with (Z.land (Z.lor SLOAD SWEXIT) SWEXIT) by done. by rewrite Z.land_assoc, Ef. }
        destruct (th_runs _ _ _ Hok Es Hl) as [?|Hr]; [done|]. destruct (sq_rlink _ _ HS p T ET Hr) as (n&En).
        destruct (sq_rpos _ _ HS p n En) as (P0&T0&EP0&ET0&_&_&Hor). simplify_eq. destruct Hor as [->|?]; [|congruence].
        destruct (sq_run _ _ HS (p_pri T / PPQ)) as (Hnd&Hmem). pose proof (proj2 (Hmem p) En) as Hin.
        destruct (unlink_spec p _ Hnd Hin) as (l&El&_).
        unfold remrq. rewrite (thread_of_eq p k3 T3 E3). cbn [mbind outcome_bind]. change (p_pri T3) with (p_pri T).
        change (qs k3) with (qs k). rewrite decide_False by (intros E; rewrite E in El; done). rewrite El.
        cbn [deref mret outcome_ret mbind outcome_bind]. unfold thread_of at 1. cbn. rewrite lookup_insert_eq.
        cbn [deref mbind outcome_bind]. unfold setrq, thread_of. cbn. rewrite lookup_insert_eq. cbn.
        eexists. split; [reflexivity|]. match goal with |- Sq ?x /\ _ => set (k' := x) end.
        assert (threads k' = <[p := set_pri (p_usrpri T3) T3]> (threads k)) as Et.
        { unfold k'. cbn. rewrite !insert_insert_eq. f_equal. apply (requeued_same T3). exact Hr. }
        split; [|done]. by eapply (Sq_requeue r p P T (set_pri (p_usrpri T3) T3) k k').
      * eexists. split; [reflexivity|]. match goal with |- Sq ?x /\ _ => set (k' := x) end.
        assert (threads k' = <[p := set_pri (p_usrpri T3) T3]> (threads k)) as Et by (unfold k'; cbn; by rewrite !insert_insert_eq).
        split; [|done]. eapply (Sq_in_place r p P T (set_pri (p_usrpri T3) T3)); try done. intros Hr.
        destruct (th_queued _ _ _ Hok Hr) as (Es&Hcp&Hl). rewrite bool_decide_false, Es in Ec by done. cbn in Ec.
        apply andb_false_iff in Ec as [Ef|Ef].
        -- right. apply not_false_is_true. intros Hx. apply Z.eqb_neq in Ef. apply Ef. unfold has in Hl, Hx.
           rewrite Z.land_lor_distr_r. apply negb_false_iff, Z.eqb_eq in Hx. rewrite Hx, Z.lor_0_r.
           change SLOAD with (Z.ones 1) in *. rewrite Z.land_ones in * by lia.
           pose proof (Z.mod_pos_bound (p_flag P) (2 ^ 1) ltac:(lia)). apply negb_true_iff, Z.eqb_neq in Hl. change (Z.ones 1) with 1. lia.
        -- left. apply negb_false_iff, Z.eqb_eq in Ef. by rewrite Ef.
    + exists k3. split; [done|]. split; [|done]. eapply (Sq_in_place r p P T T3); try done. intros _. by left.
Qed.

Lemma schedcpu_loop_ok hz lf : forall l k, Sq k -> NoDup l -> (forall p, p ∈ l -> is_Some (procs (pw k) !! p)) ->
  exists k', schedcpu_loop hz lf l k = Ok k' /\ Sq k' /\ pw k' = pw k /\ slpq k' = slpq k /\ curproc k' = curproc k
    /\ averunnable k' = averunnable k
    /\ forall p P T, in_proc k p P T -> in_proc k' p P (if decide (p ∈ l) then ticked hz lf P T else T).
Proof.
  induction l as [|q l IH]; intros k HS Hnd Hin; cbn [schedcpu_loop].
  - exists k. split; [done|]. split; [done|]. do 4 (split; [done|]). intros p P T Hp. by rewrite decide_False by apply not_elem_of_nil.
  - apply list.NoDup_cons in Hnd as (Hq&Hnd). destruct (Hin q) as (Q&EQ); [by left|].
    destruct HS as (r&HS). destruct (proj2 (sq_dom _ _ HS q)) as (R&ER); [by eexists|].
    destruct (schedcpu_proc_ok hz lf k q Q R) as (k1&->&HS1&Ew&Es&Ec&Ea&Et); [by exists r|done|]. cbn [mbind outcome_bind].
    destruct (IH k1 HS1 Hnd) as (k'&->&HS'&Ew'&Es'&Ec'&Ea'&Hk'); [intros p Hp; rewrite Ew; apply Hin; by right|].
    exists k'. split; [done|]. split; [done|]. do 4 (split; [congruence|]). intros p P T (EP&ET). destruct (decide (p = q)) as [->|Hne].
    + simplify_eq. rewrite decide_True by (by left). specialize (Hk' q Q (ticked hz lf Q R)). rewrite decide_False in Hk' by done.
      apply Hk'. split; [by rewrite Ew|]. by rewrite Et, lookup_insert_eq.
    + specialize (Hk' p P T). assert (in_proc k1 p P T) as Hp1 by (split; [by rewrite Ew|by rewrite Et, lookup_insert_ne]).
      specialize (Hk' Hp1). destruct (decide (p ∈ q :: l)) as [Hl|Hl]; rewrite elem_of_cons in Hl.
      * by rewrite decide_True in Hk' by naive_solver. * by rewrite decide_False in Hk' by naive_solver.
Qed.

(** The second: lbolt's sleepers are woken, every process is aged, and the
    pageout daemon is woken when buffers wait for it. *)
Lemma schedcpu_ok `{Layout} hz bclnlist pageproc k : Sq k -> procs_ok (pw k) ->
  exists k1 k2 k' b, wakeup lbolt k = Ok k1 /\ schedcpu hz bclnlist pageproc k = Ok k' /\ Sq k'
    /\ (forall p P T, in_proc k1 p P T -> in_proc k2 p P (if decide (p ∈ allproc (pw k)) then ticked hz (loadfactor (averunnable k)) P T else T))
    /\ wakes (fun x => bclnlist && (hits (proc_addr pageproc) k2 x || (b && hits (proc_addr (proc0 (pw k))) k2 x))) k2 k'.
Proof.
  intros HS HP. unfold schedcpu. destruct (wakeup_ok lbolt k lbolt_nz HS) as (k1&b1&E1&HS1&_&Hw1). rewrite E1. cbn [mbind outcome_bind].
  pose proof (wk_frame _ _ _ Hw1) as F1. set (lf := loadfactor (averunnable k)).
  assert (allproc (pw k1) = allproc (pw k)) as Eall by (by rewrite (fr_pw _ _ F1)). rewrite Eall.
  destruct (schedcpu_loop_ok hz lf (allproc (pw k)) k1 HS1) as (k2&->&HS2&Ew2&_&_&_&Hk2).
  { pose proof (po_nodup _ HP) as Hn. by apply list.NoDup_app in Hn as (?&_). }
  { intros p Hp. destruct (proj1 (po_dom _ HP p)) as (P&EP); [unfold known; set_solver|].
    destruct HS as (r&HS). destruct (proj2 (sq_dom _ _ HS p)) as (T&ET); [by eexists|].
    pose proof (wk_in _ _ _ Hw1 p P T (conj EP ET)) as Hx. destruct (_ && _); destruct Hx as (Hx&_); by eexists. }
  cbn [mbind outcome_bind]. set (k3 := add_klog [Vmmeter] k2). assert (Sq k3) as HS3 by (by apply (Sq_ext k2)).
  assert (proc0 (pw k2) = proc0 (pw k)) as E0 by (by rewrite Ew2, (fr_pw _ _ F1)).
  destruct bclnlist.
  - destruct (wakeup_ok (proc_addr pageproc) k3 (proc_addr_nz _) HS3) as (k4&b&->&HS4&_&Hw4). cbn [mret outcome_ret mbind outcome_bind].
    exists k1, k2, (add_klog [TimeoutSchedcpu hz] k4), b. split; [done|]. split; [done|]. split; [by apply (Sq_ext k4)|]. split; [exact Hk2|].
    cbn [andb]. rewrite <- E0. destruct Hw4 as [[] ? ? ?]. by constructor.
  - exists k1, k2, (add_klog [TimeoutSchedcpu hz] k3), false. split; [done|]. split; [done|]. split; [by apply (Sq_ext k3)|]. split; [exact Hk2|].
    destruct (wakes_refl (fun _ => false) k2) as [[] ? ? ?]; [done|]. by constructor.
Qed.
