(* ===== verification/SleepSpec.v ===== *)
(** * Sleep queues, run queues and priorities: what the operations guarantee *)

From S2P Require Import Prelude Pgrp PgrpInv Exit Life Sleep SleepInv SleepCalls.
From S2P Require Resource.

(** ** A small world *)

#[export] Instance flat : Layout.
Proof.
  refine {| proc_addr p := 4096 * Zpos p; sigacts_addr p := 4096 * Zpos p + 64; lbolt := 8 |}; abstract (intros; lia).
Defined.

Definition idle (pri : Z) : thread := mkThread pri pri 0 0 0 0 0 0 0 false.

(** The boot world of [Life]: process 0, the swapper, waits for work, and init is
    on the processor or on its run queue. *)
Definition swapper : proc := set_p_stat SSLEEP (boot_proc 0 1 None [2%positive]).
Definition boot_pw : pworld := set_procs (<[1%positive := swapper]> (procs boot)) boot.
Definition boot_at (running : bool) : kworld :=
  mkKworld boot_pw (<[1%positive := set_wchan 4096 (idle 0)]> (<[2%positive := set_rlink (negb running) (idle 50)]> ∅))
    (<[HASH 4096 := [1%positive]]> ∅) (if running then ∅ else <[12 := [2%positive]]> ∅) (if running then Some 2%positive else None)
    50 false false 2048 [].
Definition boot_k : kworld := boot_at true.

Lemma boot_pw_procs p P : procs boot_pw !! p = Some P -> p = 1%positive /\ P = swapper
  \/ p = 2%positive /\ P = boot_proc 1 2 (Some 1%positive) [].
Proof. intros H. boot_cases H; [by left|done|by right]. Qed.

Lemma boot_pw_Inv : Inv boot_pw.
Proof. apply (Inv_sched boot 1%positive (boot_proc 0 1 None [2%positive]) SSLEEP SLOAD boot_Inv); done. Qed.

Lemma boot_at_threads c p T : threads (boot_at c) !! p = Some T -> p = 1%positive /\ T = set_wchan 4096 (idle 0)
  \/ p = 2%positive /\ T = set_rlink (negb c) (idle 50).
Proof. intros H. boot_cases H; [by left|by right]. Qed.

(** A table with one process on one queue. *)
Lemma queue_one n p : queue_ok (<[n := [p]]> ∅) (fun x => if decide (x = p) then Some n else None).
Proof.
  intros m. unfold chain. destruct (decide (m = n)) as [->|Hm].
  - rewrite lookup_insert_eq. cbn. split; [apply NoDup_singleton|]. intros x. rewrite list_elem_of_singleton. case_decide; naive_solver.
  - rewrite lookup_insert_ne by done. cbn. split; [apply NoDup_nil_2|]. intros x. split; [by intros ?%not_elem_of_nil|]. case_decide; naive_solver.
Qed.
Lemma queue_none : queue_ok ∅ (fun _ => None).
Proof. intros m. split; [apply NoDup_nil_2|]. intros x. split; [by intros ?%not_elem_of_nil|done]. Qed.
Lemma boot_at_Sq c : Sq (boot_at c).
Proof.
  exists (fun p => if decide (p = 2%positive) then if c then None else Some 12 else None). constructor.
  - intros p. split; intros (X&E).
    + apply boot_at_threads in E as [(->&_)|(->&_)]; by eexists. + apply boot_pw_procs in E as [(->&_)|(->&_)]; by eexists.
  - apply (queue_ok_ext _ _ _ (queue_one (HASH 4096) 1%positive)). intros p. unfold wpos.
    destruct (threads (boot_at c) !! p) as [T|] eqn:E; [by apply boot_at_threads in E as [(->&->)|(->&->)]|]. by case_decide as Hp; [subst p|].
  - destruct c.
    + apply (queue_ok_ext _ _ _ queue_none). intros p. by case_decide. + apply queue_one.
  - intros p n. case_decide; [|done]. destruct c; [done|]. intros [= <-]; subst p.
    exists (boot_proc 1 2 (Some 1%positive) []), (set_rlink true (idle 50)). do 4 (split; [done|]). by left.
  - intros p T E Hr. apply boot_at_threads in E as [(->&->)|(->&->)]; [done|]. destruct c; [done|by eexists].
  - intros p P T EP ET. apply boot_pw_procs in EP as [(->&->)|(->&->)]; apply boot_at_threads in ET as [(?&->)|(?&->)]; try done;
      destruct c; constructor; cbn; try done; auto.
  - done.
Qed.

Lemma boot_k_Sq : Sq boot_k.
Proof. exact (boot_at_Sq true). Qed.

(** ** wakeup *)

Section Wakeup.
Context `{Layout}.

(** Who a wakeup wakes: the processes that wait on its channel and, with [swapper],
    those that wait on the address of process 0. *)
Definition woken_by (chan : Z) (swapper : bool) (k : kworld) (T : thread) : bool :=
  (p_wchan T =? chan) || (swapper && negb (p_wchan T =? 0) && (p_wchan T =? proc_addr (proc0 (pw k)))).

(** C18. A wakeup ends and wakes exactly the processes that wait on its channel and,
    exactly when one of those that sleep there is not in memory, the swapper (the
    processes that wait on the address of process 0): one that sleeps becomes
    runnable and is charged for the time it slept; one that is stopped stays so.
    Each run queue is what it was with, at its end, exactly the woken sleepers of its
    priority that are in memory. No other process changes, and the queues stay
    sound. *)
Theorem wakeup_spec chan k : chan <> 0 -> Sq k -> exists k' swapper, wakeup chan k = Ok k' /\ Sq k' /\
  (swapper = true <-> exists p P T, in_proc k p P T /\ p_wchan T = chan /\ p_stat P = SSLEEP /\ has (p_flag P) SLOAD = false) /\
  (forall n, exists l, chain (qs k') n = chain (qs k) n ++ l /\ NoDup l /\ forall p, p ∈ l <->
    exists P T, in_proc k p P T /\ woken_by chan swapper k T = true /\ p_stat P = SSLEEP /\ has (p_flag P) SLOAD = true /\ p_pri T / PPQ = n) /\
  forall p P T, in_proc k p P T ->
    if woken_by chan swapper k T then
      exists P' T', in_proc k' p P' T' /\ p_wchan T' = 0 /\ p_pri T' = p_pri T /\
        if p_stat P =? SSLEEP then p_stat P' = SRUN /\ p_slptime T' = 0 /\ p_rlink T' = has (p_flag P) SLOAD
          /\ p_cpu T' = (if 1 <? p_slptime T then slept_cpu (loadfactor (averunnable k)) T else p_cpu T)
        else P' = P /\ p_cpu T' = p_cpu T
    else in_proc k' p P T.
Proof.
  intros Hc HS. destruct (wakeup_ok chan k Hc HS) as (k'&b&E&HS'&Hb&Hw). exists k', b. split; [done|]. split; [done|]. split; [exact Hb|].
  assert (forall p P T, in_proc k p P T -> (hits chan k p || (b && hits (proc_addr (proc0 (pw k))) k p)) && negb (p_wchan T =? 0)
    = woken_by chan b k T) as Eb.
  { intros p P T Hp. rewrite !(hits_in _ _ _ _ _ Hp). unfold woken_by.
    destruct (Z.eqb_spec (p_wchan T) chan) as [->|]; [by rewrite (proj2 (Z.eqb_neq chan 0))|]. cbn.
    by destruct b, (p_wchan T =? 0), (_ =? proc_addr _). }
  split.
  - intros n. destruct (wk_queue _ _ _ Hw n) as (l&El&Hl). exists l. split; [done|]. split.
    { destruct HS' as (r&HS'). destruct (sq_run _ _ HS' n) as (Hn&_). rewrite El in Hn. by apply list.NoDup_app in Hn as (_&_&?). }
    intros p. rewrite Hl. unfold queued_by. split.
    + intros (P&T&Hp&HW&Hn%Z.eqb_neq&Hr). exists P, T. by rewrite <- (Eb p P T Hp), HW, Hn.
    + intros (P&T&Hp&HW&Hr). exists P, T. rewrite <- (Eb p P T Hp) in HW. apply andb_true_iff in HW as (HW&Hn%negb_true_iff%Z.eqb_neq). done.
  - intros p P T Hp. pose proof (wk_in _ _ _ Hw p P T Hp) as Hx. cbv beta in Hx. rewrite (Eb p P T Hp) in Hx.
    destruct (woken_by chan b k T); [|done]. eexists _, _. split; [exact Hx|]. split; [apply woken_wchan|].
    unfold woken_thread, woken_proc. destruct (p_stat P =? SSLEEP); [|done].
    destruct (running_facts (loadfactor (averunnable k)) P T) as (_&->&->). split; [done|]. split; [done|]. split; [done|]. split; [done|].
    unfold running, repriced. cbn. by case_if.
Qed.
End Wakeup.

(** The swapper is woken. *)
Lemma wakeup_spec_witness : exists k', wakeup 4096 (boot_at true) = Ok k' /\ Sq k' /\
  exists P' T', in_proc k' 1%positive P' T' /\ p_stat P' = SRUN /\ p_rlink T' = true.
Proof.
  destruct (wakeup_spec 4096 (boot_at true)) as (k'&b&E&HS&_&_&Hall); [done|exact (boot_at_Sq true)|]. exists k'. split; [exact E|]. split; [exact HS|].
  destruct (Hall 1%positive swapper (set_wchan 4096 (idle 0))) as (P'&T'&Hp&_&_&Hs); [by split|]. exists P', T'. split; [exact Hp|].
  destruct Hs as (E1&_&E2&_). split; [exact E1|]. rewrite E2. reflexivity.
Defined.

(** ** The switch *)

(** swtch gives the processor to the process at the head of the first queue that
    is not empty: of the processes on the run queues, none that is not exiting
    has a better priority, counted in queues of four.  When all the queues are
    empty, and only then, none runs.  Nothing else changes. *)
Theorem swtch_spec k : Sq (set_curproc None k) -> exists k', swtch k = Ok k' /\ Sq k' /\ pw k' = pw k /\ slpq k' = slpq k /\
  match curproc k' with
  | Some p => exists P T, in_proc k p P T /\ p_rlink T = true /\ p_stat P = SRUN /\ has (p_flag P) SLOAD = true
      /\ threads k' = <[p := set_rlink false T]> (threads k)
      /\ (has (p_flag P) SWEXIT = false -> forall q Q R, in_proc k q Q R -> p_rlink R = true -> has (p_flag Q) SWEXIT = false ->
            p_pri T / PPQ <= p_pri R / PPQ)
  | None => threads k' = threads k /\ forall q Q, threads k !! q = Some Q -> p_rlink Q = false
  end.
Proof.
  intros HS. destruct (swtch_ok k HS) as (k'&E&HS'&Ew&Es&_&_&_&Hsw). exists k'. do 4 (split; [done|]). unfold switched in Hsw.
  destruct (curproc k') as [p|]; [|done]. destruct Hsw as (P&T&Hp&Hr&Et&Hb). exists P, T. destruct HS as (r&HS). destruct Hp as (EP&ET).
  destruct (th_queued _ _ _ (sq_st _ _ HS p P T EP ET) Hr) as (?&_&?). split_and!; try done.
Qed.

Lemma swtch_spec_witness : exists k', swtch (boot_at false) = Ok k' /\ Sq k' /\ curproc k' = Some 2%positive.
Proof.
  destruct (swtch_spec (boot_at false) (boot_at_Sq false)) as (k'&E&HS&_). exists k'. split; [exact E|]. split; [exact HS|].
  vm_compute in E. injection E as <-. reflexivity.
Defined.

(** ** Priorities *)

(** What updatepri makes of the usage of a process that slept [p_slptime]
    seconds: nothing is left when these are more than five times the (scaled)
    load factor, and else [p_slptime - 2] decays are applied; the user priority
    follows, within 0 and 127, and nothing else changes. *)
Theorem updatepri_spec p k T : threads k !! p = Some T -> load_ok (loadfactor (averunnable k)) -> 0 <= p_cpu T <= UCHAR_MAX ->
  1 < p_slptime T < 2 ^ 32 ->
  let lf := loadfactor (averunnable k) in
  exists k' T', updatepri p k = Ok k' /\ threads k' = <[p := T']> (threads k) /\ pw k' = pw k /\ qs k' = qs k /\ slpq k' = slpq k /\
    p_cpu T' = (if u32 (5 * lf) <? p_slptime T then 0 else Nat.iter (Z.to_nat (p_slptime T - 2)) (decay_cpu lf) (p_cpu T)) /\
    p_usrpri T' = Z.min (u32 (PUSER + p_cpu T' / 4 + 2 * p_nice T)) MAXPRI /\ 0 <= p_usrpri T' <= 127 /\ p_pri T' = p_pri T.
Proof.
  intros ET Hl Hc Hs lf. change UCHAR_MAX with 255 in *.
  destruct (updatepri_ok p k T ET Hl) as (b&a&s&->); [lia|lia|]. do 2 eexists. split; [reflexivity|]. split; [reflexivity|].
  do 3 (split; [done|]). cbn. unfold slept_cpu. fold lf.
  assert ((if u32 (5 * lf) <? p_slptime T then 0 else Z.min (Nat.iter (Z.to_nat (p_slptime T - 2)) (decay_cpu lf) (p_cpu T)) UCHAR_MAX)
    = if u32 (5 * lf) <? p_slptime T then 0 else Nat.iter (Z.to_nat (p_slptime T - 2)) (decay_cpu lf) (p_cpu T)) as ->.
  { case_if; [done|]. pose proof (iter_decay_range lf (Z.to_nat (p_slptime T - 2)) (p_cpu T) Hl ltac:(lia)). change UCHAR_MAX with 255. lia. }
  split; [done|]. set (c := if _ : bool then _ else _). pose proof (usr_pri_range c (p_nice T)) as Hr. change MAXPRI with 127 in Hr.
  rewrite u8_id by lia. split; [done|]. done.
Qed.

(** Seven seconds asleep at load 1: five decays. *)
Definition slept_k : kworld := set_thread 2%positive (set_cpu 200 (set_slptime 7 (idle 50))) (boot_at true).
Lemma updatepri_spec_witness : exists k' T', updatepri 2%positive slept_k = Ok k' /\ threads k' !! 2%positive = Some T' /\ p_cpu T' = 25.
Proof.
  destruct (updatepri_spec 2%positive slept_k (set_cpu 200 (set_slptime 7 (idle 50)))) as (k'&T'&E&Et&_&_&_&Ec&_);
    [reflexivity|vm_compute; split; congruence|vm_compute; split; congruence|vm_compute; split; congruence|].
  exists k', T'. split; [exact E|]. rewrite Et, Ec. split; [apply lookup_insert_eq|vm_compute; reflexivity].
Defined.

(** At load 1 (a load factor of 4096) five decays leave 33 of the greatest usage
    and eleven leave 2; the shortcut is for more than 20480 seconds. *)
Lemma decay_at_load_1 : Nat.iter 5 (decay_cpu (loadfactor FSCALE)) 255 = 33 /\ Nat.iter 11 (decay_cpu (loadfactor FSCALE)) 255 = 2
  /\ u32 (5 * loadfactor FSCALE) = 20480.
Proof. by vm_compute. Qed.

(** schedcpu on a process that has not slept for more than a second: the usage
    decays, the nice value is added and the sum is kept below 256; a sum that a
    negative nice value makes negative wraps around, and counts as the most. *)
Theorem schedcpu_usage hz lf P T : load_ok lf -> 0 <= p_cpu T <= UCHAR_MAX -> -20 <= p_nice T <= 20 -> 0 <= p_slptime T <= 1 ->
  p_stat P = SRUN ->
  let n := decay_cpu lf (p_cpu T) + p_nice T in
  let T' := ticked hz lf P T in
  p_cpu T' = (if n <? 0 then UCHAR_MAX else Z.min n UCHAR_MAX) /\ 0 <= p_cpu T' <= UCHAR_MAX /\
  p_usrpri T' = Z.min (u32 (PUSER + p_cpu T' / 4 + 2 * p_nice T)) MAXPRI /\ 0 <= p_usrpri T' <= 127 /\
  p_pri T' = (if PUSER <=? p_pri T then p_usrpri T' else p_pri T).
Proof.
  intros Hl Hc Hn Hs Es n T'. change UCHAR_MAX with 255 in *.
  assert (0 <= decay_cpu lf (p_cpu T) <= 255) as Hd.
  { destruct (Z.eq_dec (p_cpu T) 0) as [->|]; [rewrite decay_0; lia|]. pose proof (decay_lt lf (p_cpu T) Hl). lia. }
  assert (Z.min (u32 n) 255 = if n <? 0 then 255 else Z.min n 255) as En.
  { destruct (Z.ltb_spec n 0); [|rewrite u32_id; unfold n in *; lia]. unfold u32, wrapu.
    replace n with (n + 2 ^ 32 + (-1) * 2 ^ 32) by lia. rewrite Z.mod_add, Z.mod_small; unfold n in *; lia. }
  set (cpu := if n <? 0 then 255 else Z.min n 255) in *.
  assert (p_cpu T' = cpu /\ p_usrpri T' = u8 (usr_pri cpu (p_nice T)) /\ p_pri T' = if PUSER <=? p_pri T then u8 (usr_pri cpu (p_nice T)) else p_pri T) as (E1&E2&E3).
  { unfold T', ticked. rewrite Es. change ((SRUN =? SSLEEP) || (SRUN =? SSTOP)) with false. cbv iota.
    rewrite (proj2 (Z.ltb_ge 1 (p_slptime T))) by lia. change UCHAR_MAX with 255. fold n. rewrite En. fold cpu. by case_if. }
  pose proof (usr_pri_range cpu (p_nice T)) as Hr. change MAXPRI with 127 in *. rewrite u8_id in E2, E3 by lia. rewrite E1, E2, E3.
  split; [done|]. split; [unfold cpu, n; case_if; lia|]. split; [done|]. by split.
Qed.

(** A process with nice -20 that uses little: its usage becomes 255, and its
    priority the worst that its nice value allows. *)
Lemma schedcpu_usage_witness : let T := mkThread 50 50 (-20) 10 0 0 0 0 0 false in
  p_cpu (ticked 100 4096 (boot_proc 1 2 None []) T) = 255 /\ p_usrpri (ticked 100 4096 (boot_proc 1 2 None []) T) = 73.
Proof.
  destruct (schedcpu_usage 100 4096 (boot_proc 1 2 None []) (mkThread 50 50 (-20) 10 0 0 0 0 0 false)) as (E1&_&E2&_);
    [vm_compute; split; congruence|vm_compute; split; congruence|vm_compute; split; congruence|vm_compute; split; congruence|reflexivity|].
  split; [rewrite E1; reflexivity|rewrite E2, E1; reflexivity].
Defined.
