(* ===== verification/Signal.v ===== *)
(** * Signals (sys/kern/kern_sig.c, sys/sys/signalvar.h; sendsig and sigreturn in
      sys/i386/i386/machdep.c; tsleep in sys/kern/kern_synch.c)

    The signal state of each process beside the process world of [Pgrp] and the
    queues of [Sleep].  Sets of signals are 32-bit masks.  A routine that gives
    up the processor, in tsleep or when a process stops in issig, ends its step
    there and says where it goes on. *)

From S2P Require Import Prelude Pgrp Exit Sleep.

Definition NSIG : Z := 32.
Definition SIGILL : Z := 4.
Definition SIGTERM : Z := 15.
Definition SIGSTOP : Z := 17.
Definition SIGTSTP : Z := 18.
Definition SIGTTIN : Z := 21.
Definition SIGTTOU : Z := 22.
Definition SIGSYS : Z := 12.
Definition SIG_DFL : Z := 0.
Definition SIG_IGN : Z := 1.
Definition SIG_CATCH : Z := 2.
Definition SIG_HOLD : Z := 3.
Definition SA_ONSTACK : Z := 0x1.
Definition SA_RESTART : Z := 0x2.
Definition SA_NOCLDSTOP : Z := 0x4.
Definition SV_INTERRUPT : Z := SA_RESTART.
Definition SIG_BLOCK : Z := 1.
Definition SIG_UNBLOCK : Z := 2.
Definition SIG_SETMASK : Z := 3.
Definition SA_OLDMASK : Z := 0x1.
Definition SSYS : Z := 0x2.
Definition SNOCLDSTOP : Z := 0x200.
Definition NZERO : Z := 0.
Definition PPAUSE : Z := 40.
Definition AXSIG : Z := 0x10.
Definition WCOREFLAG : Z := 128.
Definition ERESTART : Z := -1.
Definition EJUSTRETURN : Z := -2.
Definition EWOULDBLOCK : Z := 35.

(** ** Properties of the signals *)

Definition SA_KILL : Z := 0x01.
Definition SA_CORE : Z := 0x02.
Definition SA_STOP : Z := 0x04.
Definition SA_TTYSTOP : Z := Z.lor 0x08 SA_STOP.
Definition SA_IGNORE : Z := 0x10.
Definition SA_CONT : Z := 0x20.

Definition sigprop_table : list Z :=
  [0; SA_KILL; SA_KILL; Z.lor SA_KILL SA_CORE; Z.lor SA_KILL SA_CORE; Z.lor SA_KILL SA_CORE; Z.lor SA_KILL SA_CORE;
   Z.lor SA_KILL SA_CORE; Z.lor SA_KILL SA_CORE; SA_KILL; Z.lor SA_KILL SA_CORE; Z.lor SA_KILL SA_CORE;
   Z.lor SA_KILL SA_CORE; SA_KILL; SA_KILL; SA_KILL; SA_IGNORE; SA_STOP; SA_TTYSTOP; Z.lor SA_IGNORE SA_CONT;
   SA_IGNORE; SA_TTYSTOP; SA_TTYSTOP; SA_IGNORE; SA_KILL; SA_KILL; SA_KILL; SA_KILL; SA_IGNORE; SA_IGNORE;
   SA_KILL; SA_KILL].
Definition sigprop (sig : Z) : Z := default 0 (sigprop_table !! Z.to_nat sig).

Definition sigmask (sig : Z) : Z := Z.shiftl 1 (sig - 1).
Definition stopsigmask : Z :=
  Z.lor (Z.lor (Z.lor (sigmask SIGSTOP) (sigmask SIGTSTP)) (sigmask SIGTTIN)) (sigmask SIGTTOU).
Definition contsigmask : Z := sigmask SIGCONT.
Definition sigcantmask : Z := Z.lor (sigmask SIGKILL) (sigmask SIGSTOP).

(** The position of the first bit of a positive number, from 1. *)
Fixpoint ffs_pos (p : positive) : Z :=
  match p with xO p => 1 + ffs_pos p | _ => 1 end.
Definition ffs (m : Z) : Z := match m with Zpos p => ffs_pos p | _ => 0 end.

(** ** The signal state of a process *)

Record sigacts := mkSigacts {
  ps_sigact : list Z;
  ps_catchmask : list Z;
  ps_sigonstack : Z;
  ps_sigintr : Z;
  ps_oldmask : Z;
  ps_flags : Z;
  ps_sigsp : Z;
  ps_onstack : Z;
  ps_sig : Z;
  ps_code : Z;
}.

(** The signal fields of the process structure, and the ids that CANSIGNAL
    compares. *)
Record sigproc := mkSigproc {
  p_sig : Z;
  p_sigmask : Z;
  p_sigignore : Z;
  p_sigcatch : Z;
  p_sigacts : sigacts;
  p_ruid : Z;
  p_uid : Z;        (* p_ucred->cr_uid *)
  p_acflag : Z;
  ru_nsignals : Z;
}.

(** What goes to the handler's frame. *)
Inductive sevent := Sendsig (p : loc) (catcher sig mask code onstack : Z).

Record sworld := mkSworld { kw : kworld; sigs : gmap loc sigproc; slog : list sevent }.

Definition set_kw (k : kworld) (w : sworld) : sworld := mkSworld k (sigs w) (slog w).
Definition set_sigproc (p : loc) (S : sigproc) (w : sworld) : sworld := mkSworld (kw w) (<[p := S]> (sigs w)) (slog w).
Definition add_slog (es : list sevent) (w : sworld) : sworld := mkSworld (kw w) (sigs w) (slog w ++ es).
Definition sig_of (p : loc) (w : sworld) : outcome sigproc := deref (sigs w !! p).
Definition lift (f : kworld -> outcome kworld) (w : sworld) : outcome sworld :=
  k ← f (kw w); mret (set_kw k w).

Definition set_p_sig (m : Z) (S : sigproc) : sigproc :=
  mkSigproc m (p_sigmask S) (p_sigignore S) (p_sigcatch S) (p_sigacts S) (p_ruid S) (p_uid S) (p_acflag S) (ru_nsignals S).
Definition set_p_sigmask (m : Z) (S : sigproc) : sigproc :=
  mkSigproc (p_sig S) m (p_sigignore S) (p_sigcatch S) (p_sigacts S) (p_ruid S) (p_uid S) (p_acflag S) (ru_nsignals S).
Definition set_p_sigignore (m : Z) (S : sigproc) : sigproc :=
  mkSigproc (p_sig S) (p_sigmask S) m (p_sigcatch S) (p_sigacts S) (p_ruid S) (p_uid S) (p_acflag S) (ru_nsignals S).
Definition set_p_sigcatch (m : Z) (S : sigproc) : sigproc :=
  mkSigproc (p_sig S) (p_sigmask S) (p_sigignore S) m (p_sigacts S) (p_ruid S) (p_uid S) (p_acflag S) (ru_nsignals S).
Definition set_p_sigacts (ps : sigacts) (S : sigproc) : sigproc :=
  mkSigproc (p_sig S) (p_sigmask S) (p_sigignore S) (p_sigcatch S) ps (p_ruid S) (p_uid S) (p_acflag S) (ru_nsignals S).
Definition set_sacflag (f : Z) (S : sigproc) : sigproc :=
  mkSigproc (p_sig S) (p_sigmask S) (p_sigignore S) (p_sigcatch S) (p_sigacts S) (p_ruid S) (p_uid S) f (ru_nsignals S).
Definition set_nsignals (n : Z) (S : sigproc) : sigproc :=
  mkSigproc (p_sig S) (p_sigmask S) (p_sigignore S) (p_sigcatch S) (p_sigacts S) (p_ruid S) (p_uid S) (p_acflag S) n.

Definition set_action (sig act mask onstack intr : Z) (ps : sigacts) : sigacts :=
  mkSigacts (<[Z.to_nat sig := act]> (ps_sigact ps)) (<[Z.to_nat sig := mask]> (ps_catchmask ps)) onstack intr
    (ps_oldmask ps) (ps_flags ps) (ps_sigsp ps) (ps_onstack ps) (ps_sig ps) (ps_code ps).
Definition set_sigact (sig act : Z) (ps : sigacts) : sigacts :=
  mkSigacts (<[Z.to_nat sig := act]> (ps_sigact ps)) (ps_catchmask ps) (ps_sigonstack ps) (ps_sigintr ps)
    (ps_oldmask ps) (ps_flags ps) (ps_sigsp ps) (ps_onstack ps) (ps_sig ps) (ps_code ps).
Definition set_oldmask (m f : Z) (ps : sigacts) : sigacts :=
  mkSigacts (ps_sigact ps) (ps_catchmask ps) (ps_sigonstack ps) (ps_sigintr ps) m f (ps_sigsp ps) (ps_onstack ps)
    (ps_sig ps) (ps_code ps).
Definition set_sigstack (sp onstack : Z) (ps : sigacts) : sigacts :=
  mkSigacts (ps_sigact ps) (ps_catchmask ps) (ps_sigonstack ps) (ps_sigintr ps) (ps_oldmask ps) (ps_flags ps) sp onstack
    (ps_sig ps) (ps_code ps).
Definition set_sigonstack (m : Z) (ps : sigacts) : sigacts :=
  mkSigacts (ps_sigact ps) (ps_catchmask ps) m (ps_sigintr ps) (ps_oldmask ps) (ps_flags ps) (ps_sigsp ps) (ps_onstack ps)
    (ps_sig ps) (ps_code ps).
Definition set_core (sig code : Z) (ps : sigacts) : sigacts :=
  mkSigacts (ps_sigact ps) (ps_catchmask ps) (ps_sigonstack ps) (ps_sigintr ps) (ps_oldmask ps) (ps_flags ps) (ps_sigsp ps)
    (ps_onstack ps) sig code.

Definition act_of (sig : Z) (ps : sigacts) : Z := default 0 (ps_sigact ps !! Z.to_nat sig).
Definition catchmask_of (sig : Z) (ps : sigacts) : Z := default 0 (ps_catchmask ps !! Z.to_nat sig).

(** ** Actions *)

Record sigaction := mkSigaction { sa_handler : Z; sa_mask : Z; sa_flags : Z }.

(** [p_sig], [p_sigignore] and [p_sigcatch] after a new action for [sig]. *)
Definition setsigvec_sets (sig handler : Z) (S : sigproc) : sigproc :=
  let bit := sigmask sig in
  if (handler =? SIG_IGN) || (has (sigprop sig) SA_IGNORE && (handler =? SIG_DFL)) then
    let S := set_p_sig (andnot (p_sig S) bit) S in
    let S := if sig =? SIGCONT then S else set_p_sigignore (Z.lor (p_sigignore S) bit) S in
    set_p_sigcatch (andnot (p_sigcatch S) bit) S
  else
    let S := set_p_sigignore (andnot (p_sigignore S) bit) S in
    set_p_sigcatch (if handler =? SIG_DFL then andnot (p_sigcatch S) bit else Z.lor (p_sigcatch S) bit) S.

Definition setsigvec (p : loc) (sig : Z) (sa : sigaction) (w : sworld) : outcome sworld :=
  S ← sig_of p w;
  P ← proc_of p (kw w);
  let bit := sigmask sig in
  let ps := p_sigacts S in
  let intr := if has (sa_flags sa) SA_RESTART then andnot (ps_sigintr ps) bit else Z.lor (ps_sigintr ps) bit in
  let onstack := if has (sa_flags sa) SA_ONSTACK then Z.lor (ps_sigonstack ps) bit else andnot (ps_sigonstack ps) bit in
  let ps := set_action sig (sa_handler sa) (andnot (sa_mask sa) sigcantmask) onstack intr ps in
  let flag := if sig =? SIGCHLD then
                if has (sa_flags sa) SA_NOCLDSTOP then Z.lor (p_flag P) SNOCLDSTOP else andnot (p_flag P) SNOCLDSTOP
              else p_flag P in
  let w := set_kw (set_proc p (set_p_flag flag P) (kw w)) w in
  mret (set_sigproc p (setsigvec_sets sig (sa_handler sa) (set_p_sigacts ps S)) w).

(** The action that sigaction reports. *)
Definition old_action (sig : Z) (S : sigproc) (flag : Z) : sigaction :=
  let ps := p_sigacts S in
  let bit := sigmask sig in
  let fl := if has (ps_sigonstack ps) bit then SA_ONSTACK else 0 in
  let fl := if has (ps_sigintr ps) bit then fl else Z.lor fl SA_RESTART in
  let fl := if has flag SNOCLDSTOP then Z.lor fl SA_NOCLDSTOP else fl in
  mkSigaction (act_of sig ps) (catchmask_of sig ps) fl.

(** [osa] is the copyout of the old action, when there is one; [nsa] the new
    action, or the error of its copyin. *)
Definition action_call (sig : Z) (old : sigproc -> Z -> sigaction) (osa : option (sigaction -> Z))
    (nsa : option (Z + sigaction)) (new : sigaction -> sigaction) (p : loc) (w : sworld) : outcome (Z * sworld) :=
  if (sig <=? 0) || (NSIG <=? sig) || (sig =? SIGKILL) || (sig =? SIGSTOP) then mret (EINVAL, w)
  else
    S ← sig_of p w;
    P ← proc_of p (kw w);
    let error := match osa with Some copyout => copyout (old S (p_flag P)) | None => 0 end in
    if negb (error =? 0) then mret (error, w)
    else
      match nsa with
      | None => mret (0, w)
      | Some (inl error) => mret (error, w)
      | Some (inr sa) => w ← setsigvec p sig (new sa) w; mret (0, w)
      end.

Definition sigaction_call (p : loc) (sig : Z) (osa : option (sigaction -> Z)) (nsa : option (Z + sigaction)) (w : sworld) :
    outcome (Z * sworld) :=
  action_call sig (old_action sig) osa nsa id p w.

(** osigvec, with the opposite sense of the restart bit. *)
Definition old_vec (sig : Z) (S : sigproc) (flag : Z) : sigaction :=
  let ps := p_sigacts S in
  let bit := sigmask sig in
  let fl := if has (ps_sigonstack ps) bit then SA_ONSTACK else 0 in
  let fl := if has (ps_sigintr ps) bit then Z.lor fl SV_INTERRUPT else fl in
  let fl := if has flag SNOCLDSTOP then Z.lor fl SA_NOCLDSTOP else fl in
  mkSigaction (act_of sig ps) (catchmask_of sig ps) fl.
Definition osigvec (p : loc) (sig : Z) (osv : option (sigaction -> Z)) (nsv : option (Z + sigaction)) (w : sworld) :
    outcome (Z * sworld) :=
  action_call sig (old_vec sig) osv nsv
    (fun sv => mkSigaction (sa_handler sv) (sa_mask sv) (Z.lxor (sa_flags sv) SA_RESTART)) p w.

Definition siginit_set (l : list Z) (m : Z) : Z :=
  fold_left (fun m i => if has (sigprop i) SA_IGNORE && negb (i =? SIGCONT) then Z.lor m (sigmask i) else m) l m.
Definition siginit (p : loc) (w : sworld) : outcome sworld :=
  S ← sig_of p w;
  mret (set_sigproc p (set_p_sigignore (siginit_set (Z.of_nat <$> seq 0 (Z.to_nat NSIG)) (p_sigignore S)) S) w).

(** The loop of execsigs over the signals that are caught. *)
Fixpoint execsigs_loop (n : nat) (S : sigproc) : outcome sigproc :=
  if p_sigcatch S =? 0 then mret S
  else
    match n with
    | O => Fault
    | Datatypes.S n =>
        let nc := ffs (p_sigcatch S) in
        let mask := sigmask nc in
        let S := set_p_sigcatch (andnot (p_sigcatch S) mask) S in
        let S :=
          if has (sigprop nc) SA_IGNORE then
            let S := if nc =? SIGCONT then S else set_p_sigignore (Z.lor (p_sigignore S) mask) S in
            set_p_sig (andnot (p_sig S) mask) S
          else S in
        execsigs_loop n (set_p_sigacts (set_sigact nc SIG_DFL (p_sigacts S)) S)
    end.
Definition execsigs (p : loc) (w : sworld) : outcome sworld :=
  S ← sig_of p w;
  S ← execsigs_loop 32 S;
  mret (set_sigproc p (set_p_sigacts (set_sigonstack 0 (set_sigstack 0 0 (p_sigacts S))) S) w).

(** ** The mask *)

(** The error, the old mask and the world. *)
Definition sigprocmask (p : loc) (how mask : Z) (w : sworld) : outcome (Z * Z * sworld) :=
  S ← sig_of p w;
  let old := p_sigmask S in
  if how =? SIG_BLOCK then
    mret (0, old, set_sigproc p (set_p_sigmask (Z.lor (p_sigmask S) (andnot mask sigcantmask)) S) w)
  else if how =? SIG_UNBLOCK then mret (0, old, set_sigproc p (set_p_sigmask (andnot (p_sigmask S) mask) S) w)
  else if how =? SIG_SETMASK then mret (0, old, set_sigproc p (set_p_sigmask (andnot mask sigcantmask) S) w)
  else mret (EINVAL, old, w).

Definition sigpending (p : loc) (w : sworld) : outcome Z := S ← sig_of p w; mret (p_sig S).

Definition osigblock (p : loc) (mask : Z) (w : sworld) : outcome (Z * sworld) :=
  S ← sig_of p w;
  mret (p_sigmask S, set_sigproc p (set_p_sigmask (Z.lor (p_sigmask S) (andnot (u32 mask) sigcantmask)) S) w).
Definition osigsetmask (p : loc) (mask : Z) (w : sworld) : outcome (Z * sworld) :=
  S ← sig_of p w;
  mret (p_sigmask S, set_sigproc p (set_p_sigmask (andnot (u32 mask) sigcantmask) S) w).

(** [oss] is the copyout of the old stack, [nss] the new one or the error of its
    copyin. *)
Definition sigstack (p : loc) (oss : option (Z * Z -> Z)) (nss : option (Z + Z * Z)) (w : sworld) : outcome (Z * sworld) :=
  S ← sig_of p w;
  let ps := p_sigacts S in
  let error := match oss with Some copyout => copyout (ps_sigsp ps, ps_onstack ps) | None => 0 end in
  if negb (error =? 0) then mret (error, w)
  else
    match nss with
    | None => mret (error, w)
    | Some (inl error) => mret (error, w)
    | Some (inr (sp, onstack)) => mret (0, set_sigproc p (set_p_sigacts (set_sigstack sp onstack ps) S) w)
    end.

(** The part of sigreturn that is about signals: [scp] is the context, unless
    useracc refuses its address. *)
Definition sigreturn (p : loc) (scp : option (Z * Z)) (w : sworld) : outcome (Z * sworld) :=
  match scp with
  | None => mret (EINVAL, w)
  | Some (sc_onstack, sc_mask) =>
      S ← sig_of p w;
      let S := set_p_sigacts (set_sigstack (ps_sigsp (p_sigacts S)) (Z.land sc_onstack 1) (p_sigacts S)) S in
      let cant := Z.lor (Z.lor (sigmask SIGKILL) (sigmask SIGCONT)) (sigmask SIGSTOP) in
      mret (EJUSTRETURN, set_sigproc p (set_p_sigmask (andnot (u32 sc_mask) cant) S) w)
  end.

(** ** Posting *)

Section Post.
Context `{Layout}.

Definition with_proc (p : loc) (f : proc -> proc) (w : sworld) : outcome sworld :=
  P ← proc_of p (kw w); mret (set_kw (set_proc p (f P) (kw w)) w).
Definition with_thread (p : loc) (f : thread -> thread) (w : sworld) : outcome sworld :=
  T ← thread_of p (kw w); mret (set_kw (set_thread p (f T) (kw w)) w).
Definition with_sig (p : loc) (f : sigproc -> sigproc) (w : sworld) : outcome sworld :=
  S ← sig_of p w; mret (set_sigproc p (f S) w).

Definition set_p_xstat (n : Z) (P : proc) : proc :=
  mkProc (p_pid P) (p_pgrp P) (p_pptr P) (p_cptr P) (p_stat P) (p_flag P) (u16 n) (p_utime P) (p_stime P)
    (p_sru P) (p_cru P) (p_ru P).

(** stop: the parent is woken; signals are the caller's affair. *)
Definition stop (p : loc) (w : sworld) : outcome sworld :=
  w ← with_proc p (fun P => set_p_flag (andnot (p_flag P) SWTED) (set_p_stat SSTOP P)) w;
  P ← proc_of p (kw w);
  q ← deref (p_pptr P);
  lift (wakeup (proc_addr q)) w.

(** [if ((p->p_pptr->p_flag & SNOCLDSTOP) == 0) psignal(p->p_pptr, SIGCHLD)]. *)
Definition tell_parent (post : loc -> Z -> sworld -> outcome sworld) (p : loc) (w : sworld) : outcome sworld :=
  P ← proc_of p (kw w);
  q ← deref (p_pptr P);
  Q ← proc_of q (kw w);
  if has (p_flag Q) SNOCLDSTOP then mret w else post q SIGCHLD w.

Definition run_fast (p : loc) (w : sworld) : outcome sworld :=
  w ← with_thread p (fun T => if PUSER <? p_pri T then set_pri PUSER T else T) w;
  lift (setrun p) w.

(** The first half of psignal: the action, and the pending set with the signal;
    no action when nothing more is to be done. *)
Definition psignal_pend (p : loc) (sig : Z) (w : sworld) : outcome (option Z * sworld) :=
  let mask := sigmask sig in
  let prop := sigprop sig in
  P ← proc_of p (kw w);
  S ← sig_of p w;
  let traced := has (p_flag P) STRC in
  if negb traced && has (p_sigignore S) mask then mret (None, w)
  else
    let action := if traced then SIG_DFL
                  else if has (p_sigmask S) mask then SIG_HOLD
                  else if has (p_sigcatch S) mask then SIG_CATCH
                  else SIG_DFL in
    w ← with_thread p (fun T =>
      if (NZERO <? p_nice T) && ((sig =? SIGKILL) || ((sig =? SIGTERM) && (traced || negb (action =? SIG_DFL))))
      then Sleep.set_nice NZERO T else T) w;
    w ← (if has prop SA_CONT then with_sig p (fun S => set_p_sig (andnot (p_sig S) stopsigmask) S) w else mret w);
    '(discard, w) ←
      (if has prop SA_STOP then
         g ← deref (p_pgrp P);
         G ← deref (pgrps (pw (kw w)) !! g);
         if has prop SA_TTYSTOP && (pg_jobc G =? 0) && (action =? SIG_DFL) then mret (true, w)
         else w ← with_sig p (fun S => set_p_sig (andnot (p_sig S) contsigmask) S) w; mret (false, w)
       else mret (false, w));
    if (discard : bool) then mret (None, w)
    else
      w ← with_sig p (fun S => set_p_sig (Z.lor (p_sig S) mask) S) w;
      if (action =? SIG_HOLD) && (negb (has prop SA_CONT) || negb (p_stat P =? SSTOP)) then mret (None, w)
      else mret (Some action, w).

(** The second half: what becomes of the process. *)
Definition psignal_act (post : loc -> Z -> sworld -> outcome sworld) (p : loc) (sig action : Z) (w : sworld) : outcome sworld :=
  let mask := sigmask sig in
  let prop := sigprop sig in
  let clear := with_sig p (fun S => set_p_sig (andnot (p_sig S) mask) S) in
  P ← proc_of p (kw w);
  T ← thread_of p (kw w);
  if p_stat P =? SSLEEP then
    if negb (has (p_flag P) SSINTR) then mret w
    else if has (p_flag P) STRC then lift (setrun p) w
    else if has prop SA_STOP then
      if negb (action =? SIG_DFL) then run_fast p w
      else if has (p_flag P) SPPWAIT then mret w
      else
        w ← clear w;
        w ← with_proc p (set_p_xstat sig) w;
        w ← tell_parent post p w;
        stop p w
    else run_fast p w
  else if p_stat P =? SSTOP then
    if has (p_flag P) STRC then mret w
    else if sig =? SIGKILL then run_fast p w
    else if has prop SA_CONT then
      w ← (if action =? SIG_DFL then clear w else mret w);
      if action =? SIG_CATCH then run_fast p w
      else if p_wchan T =? 0 then lift (setrun p) w
      else with_proc p (set_p_stat SSLEEP) w
    else if has prop SA_STOP then clear w
    else if negb (p_wchan T =? 0) && has (p_flag P) SSINTR then lift (unsleep p) w
    else mret w
  else mret (if decide (curproc (kw w) = Some p) then set_kw (aston (kw w)) w else w).

(** A stop is told to the parent with SIGCHLD, which is no stop signal: two
    levels are enough. *)
Fixpoint psignal_n (n : nat) (p : loc) (sig : Z) (w : sworld) : outcome sworld :=
  match n with
  | O => Fault
  | Datatypes.S n =>
      if (sig <=? 0) || (NSIG <=? sig) then Panic "psignal sig"
      else
        '(action, w) ← psignal_pend p sig w;
        match action with
        | None => mret w
        | Some action => psignal_act (psignal_n n) p sig action w
        end
  end.
Definition psignal : loc -> Z -> sworld -> outcome sworld := psignal_n 2.

(** ** Sending *)

(** [p->p_session], by its group. *)
Definition CANSIGNAL (p q : loc) (signo : Z) (w : sworld) : outcome bool :=
  SP ← sig_of p w;
  SQ ← sig_of q w;
  if (p_uid SP =? 0) || (p_ruid SP =? p_ruid SQ) || (p_uid SP =? p_ruid SQ) || (p_ruid SP =? p_uid SQ) || (p_uid SP =? p_uid SQ)
  then mret true
  else if signo =? SIGCONT then
    s ← session_of q (pw (kw w)); t ← session_of p (pw (kw w)); mret (bool_decide (s = t))
  else mret false.

(** The loops of killpg1: [skip] is the test before the permission. *)
Fixpoint killpg_loop (cp : loc) (signo : Z) (skip : loc -> proc -> bool) (l : list loc) (nfound : Z) (w : sworld) :
    outcome (Z * sworld) :=
  match l with
  | [] => mret (nfound, w)
  | p :: l =>
      P ← proc_of p (kw w);
      ok ← (if skip p P then mret false else CANSIGNAL cp p signo w);
      if (ok : bool) then
        w ← (if signo =? 0 then mret w else psignal p signo w);
        killpg_loop cp signo skip l (nfound + 1) w
      else killpg_loop cp signo skip l nfound w
  end.

Definition killpg1 (cp : loc) (signo pgid : Z) (all : bool) (w : sworld) : outcome (Z * sworld) :=
  '(nfound, w) ←
    (if all then
       killpg_loop cp signo (fun p P => (p_pid P <=? 1) || has (p_flag P) SSYS || bool_decide (p = cp))
         (allproc (pw (kw w))) 0 w
     else
       pgrp ← (if pgid =? 0 then C ← proc_of cp (kw w); mret (p_pgrp C) else pgfind pgid (pw (kw w)));
       match pgrp with
       | None => mret (-1, w)
       | Some g =>
           G ← deref (pgrps (pw (kw w)) !! g);
           killpg_loop cp signo (fun p P => (p_pid P <=? 1) || has (p_flag P) SSYS || (p_stat P =? SZOMB)) (pg_mem G) 0 w
       end);
  mret (if 0 <? nfound then 0 else ESRCH, w).

Definition kill (cp : loc) (pid signo : Z) (w : sworld) : outcome (Z * sworld) :=
  if (signo <? 0) || (NSIG <=? signo) then mret (EINVAL, w)
  else if 0 <? pid then
    r ← pfind pid (pw (kw w));
    match r with
    | None => mret (ESRCH, w)
    | Some p =>
        ok ← CANSIGNAL cp p signo w;
        if negb (ok : bool) then mret (EPERM, w)
        else w ← (if signo =? 0 then mret w else psignal p signo w); mret (0, w)
    end
  else if pid =? -1 then killpg1 cp signo 0 true w
  else if pid =? 0 then killpg1 cp signo 0 false w
  else killpg1 cp signo (s32 (- pid)) false w.

Definition okillpg (p : loc) (pgid signo : Z) (w : sworld) : outcome (Z * sworld) :=
  if (signo <? 0) || (NSIG <=? signo) then mret (EINVAL, w) else killpg1 p signo pgid false w.

(** pgsignal on the members of a group. *)
Fixpoint pgsignal_loop (sig : Z) (checkctty : bool) (l : list loc) (w : sworld) : outcome sworld :=
  match l with
  | [] => mret w
  | p :: l =>
      P ← proc_of p (kw w);
      w ← (if negb checkctty || has (p_flag P) SCTTY then psignal p sig w else mret w);
      pgsignal_loop sig checkctty l w
  end.
Definition pgsignal (pgrp : option loc) (sig : Z) (checkctty : bool) (w : sworld) : outcome sworld :=
  match pgrp with
  | None => mret w
  | Some g => G ← deref (pgrps (pw (kw w)) !! g); pgsignal_loop sig checkctty (pg_mem G) w
  end.
Definition gsignal (pgid sig : Z) (w : sworld) : outcome sworld :=
  if pgid =? 0 then mret w
  else r ← pgfind pgid (pw (kw w)); pgsignal r sig false w.

(** ** Taking *)

(** The frame of the handler; [ok] is whether useracc accepts its address. *)
Definition sendsig (ok : bool) (p : loc) (catcher sig mask code : Z) (w : sworld) : outcome sworld :=
  S ← sig_of p w;
  let ps := p_sigacts S in
  let oonstack := ps_onstack ps in
  let ps := if (ps_onstack ps =? 0) && has (ps_sigonstack ps) (sigmask sig) then set_sigstack (ps_sigsp ps) 1 ps else ps in
  if ok then mret (add_slog [Sendsig p catcher sig mask code oonstack] (set_sigproc p (set_p_sigacts ps S) w))
  else
    let bit := sigmask SIGILL in
    let S := set_p_sigacts (set_sigact SIGILL SIG_DFL ps) S in
    let S := set_p_sigignore (andnot (p_sigignore S) bit) S in
    let S := set_p_sigcatch (andnot (p_sigcatch S) bit) S in
    let S := set_p_sigmask (andnot (p_sigmask S) bit) S in
    psignal p SIGILL (set_sigproc p S w).

(** [p->p_sigmask |= ps->ps_catchmask[sig] | mask]. *)
Definition hold_caught (sig : Z) (S : sigproc) : sigproc :=
  set_p_sigmask (Z.lor (p_sigmask S) (Z.lor (catchmask_of sig (p_sigacts S)) (sigmask sig))) S.

Definition trapsignal (ok : bool) (p : loc) (sig code : Z) (w : sworld) : outcome sworld :=
  let mask := sigmask sig in
  P ← proc_of p (kw w);
  S ← sig_of p w;
  if bool_decide (curproc (kw w) = Some p) && negb (has (p_flag P) STRC) && has (p_sigcatch S) mask && negb (has (p_sigmask S) mask)
  then
    let w := set_sigproc p (set_nsignals (ru_nsignals S + 1) S) w in
    w ← sendsig ok p (act_of sig (p_sigacts S)) sig (p_sigmask S) code w;
    with_sig p (hold_caught sig) w
  else
    w ← with_sig p (fun S => set_p_sigacts (set_core (ps_sig (p_sigacts S)) code (p_sigacts S)) S) w;
    psignal p sig w.

Definition nosys (p : loc) (w : sworld) : outcome (Z * sworld) := w ← psignal p SIGSYS w; mret (EINVAL, w).

(** Where issig goes on: another round, with the signal to take, with none, or
    after the process that it stopped is run again, to clear the signal [mask]
    or to see what the tracing parent wants. *)
Inductive issig_next :=
  | Again
  | Take (sig : Z)
  | NoSig
  | Stopped (mask : Z)
  | Traced (sig : Z).

(** The signal [sig] of the properties [prop] is decided upon. *)
Definition issig_decide (p : loc) (sig prop : Z) (w : sworld) : outcome (issig_next * sworld) :=
  let mask := sigmask sig in
  let clear (w : sworld) := w ← with_sig p (fun S => set_p_sig (andnot (p_sig S) mask) S) w; mret (Again, w) in
  S ← sig_of p w;
  P ← proc_of p (kw w);
  let act := act_of sig (p_sigacts S) in
  if act =? SIG_DFL then
    if p_pid P <=? 1 then clear w
    else if has prop SA_STOP then
      g ← deref (p_pgrp P);
      G ← deref (pgrps (pw (kw w)) !! g);
      if has (p_flag P) STRC || ((pg_jobc G =? 0) && has prop SA_TTYSTOP) then clear w
      else
        w ← with_proc p (set_p_xstat sig) w;
        w ← stop p w;
        w ← tell_parent psignal p w;
        w ← lift swtch w;
        mret (Stopped mask, w)
    else if has prop SA_IGNORE then clear w
    else mret (Take sig, w)
  else if act =? SIG_IGN then clear w
  else mret (Take sig, w).

Definition issig_step (p : loc) (w : sworld) : outcome (issig_next * sworld) :=
  S ← sig_of p w;
  P ← proc_of p (kw w);
  let mask := andnot (p_sig S) (p_sigmask S) in
  let mask := if has (p_flag P) SPPWAIT then andnot mask stopsigmask else mask in
  if mask =? 0 then mret (NoSig, w)
  else
    let sig := ffs mask in
    let mask := sigmask sig in
    let prop := sigprop sig in
    if has mask (p_sigignore S) && negb (has (p_flag P) STRC) then
      mret (Again, set_sigproc p (set_p_sig (andnot (p_sig S) mask) S) w)
    else if has (p_flag P) STRC && negb (has (p_flag P) SPPWAIT) then
      w ← with_proc p (set_p_xstat sig) w;
      q ← deref (p_pptr P);
      w ← psignal q SIGCHLD w;
      w ← stop p w;
      w ← lift swtch w;
      mret (Traced sig, w)
    else issig_decide p sig prop w.

(** A traced process goes on; [procxmt] is what that call returns, after what
    the parent did to the process. *)
Definition issig_traced (p : loc) (sig : Z) (procxmt : bool) (w : sworld) : outcome (issig_next * sworld) :=
  P ← proc_of p (kw w);
  if negb procxmt && has (p_flag P) STRC then
    w ← stop p w;
    w ← lift swtch w;
    mret (Traced sig, w)
  else if negb (has (p_flag P) STRC) then mret (Again, w)
  else
    w ← with_sig p (fun S => set_p_sig (andnot (p_sig S) (sigmask sig)) S) w;
    let prop := sigprop sig in
    let sig := p_xstat P in
    if sig =? 0 then mret (Again, w)
    else
      w ← with_sig p (fun S => set_p_sig (Z.lor (p_sig S) (sigmask sig)) S) w;
      S ← sig_of p w;
      if has (p_sigmask S) (sigmask sig) then mret (Again, w)
      else issig_decide p sig prop w.

(** The rounds of issig until it returns or stops; every round that does not
    takes a signal from the pending set. *)
Fixpoint issig_loop (n : nat) (p : loc) (w : sworld) : outcome (issig_next * sworld) :=
  match n with
  | O => Fault
  | Datatypes.S n =>
      '(r, w) ← issig_step p w;
      match r with Again => issig_loop n p w | _ => mret (r, w) end
  end.
Definition issig (p : loc) (w : sworld) : outcome (issig_next * sworld) := issig_loop 33 p w.

(** issig from the point where it stopped. *)
Definition issig_resume (p : loc) (at_ : issig_next) (procxmt : bool) (w : sworld) : outcome (issig_next * sworld) :=
  '(r, w) ← match at_ with
            | Stopped mask => w ← with_sig p (fun S => set_p_sig (andnot (p_sig S) mask) S) w; mret (Again, w)
            | Traced sig => issig_traced p sig procxmt w
            | r => mret (r, w)
            end;
  match r with Again => issig p w | _ => mret (r, w) end.

Definition CURSIG (p : loc) (w : sworld) : outcome (issig_next * sworld) :=
  S ← sig_of p w;
  P ← proc_of p (kw w);
  if (p_sig S =? 0) || (negb (has (p_flag P) STRC) && (andnot (p_sig S) (p_sigmask S) =? 0)) then mret (NoSig, w)
  else issig p w.

(** psig goes on, or calls exit with a status; [dumped] is whether coredump
    succeeds. *)
Inductive psig_res := PsDone | PsExit (status : Z).

Definition sigexit (p : loc) (sig : Z) (dumped : bool) (w : sworld) : outcome (psig_res * sworld) :=
  S ← sig_of p w;
  let S := set_sacflag (Z.lor (p_acflag S) AXSIG) S in
  let core := has (sigprop sig) SA_CORE in
  let S := if core then set_p_sigacts (set_core sig (ps_code (p_sigacts S)) (p_sigacts S)) S else S in
  let sig := if core && dumped then Z.lor sig WCOREFLAG else sig in
  mret (PsExit (Z.lor (Z.shiftl 0 8) sig), set_sigproc p S w).

Definition psig (p : loc) (sig : Z) (ok dumped : bool) (w : sworld) : outcome (psig_res * sworld) :=
  S ← sig_of p w;
  let S := set_p_sig (andnot (p_sig S) (sigmask sig)) S in
  let ps := p_sigacts S in
  let action := act_of sig ps in
  if action =? SIG_DFL then sigexit p sig dumped (set_sigproc p S w)
  else
    let old := has (ps_flags ps) SA_OLDMASK in
    let returnmask := if old then ps_oldmask ps else p_sigmask S in
    let S := if old then set_p_sigacts (set_oldmask (ps_oldmask ps) (andnot (ps_flags ps) SA_OLDMASK) ps) S else S in
    let S := hold_caught sig S in
    let S := set_nsignals (ru_nsignals S + 1) S in
    w ← sendsig ok p action sig returnmask 0 (set_sigproc p S w);
    mret (PsDone, w).

(** [while (sig = CURSIG(p)) psig(sig)], at the return to user mode; it ends when
    no signal is left, when the process exits or when it is stopped. *)
Inductive user_res := UserRun | UserExit (status : Z) | UserStopped (at_ : issig_next).

(** What [r], the result of CURSIG, leads to; [again] is the rest of the loop. *)
Definition user_next (again : sworld -> outcome (user_res * sworld)) (ok : Z -> bool) (dumped : bool) (p : loc) (r : issig_next)
    (w : sworld) : outcome (user_res * sworld) :=
  match r with
  | NoSig => mret (UserRun, w)
  | Take sig =>
      '(e, w) ← psig p sig (ok sig) dumped w;
      match e with PsExit status => mret (UserExit status, w) | PsDone => again w end
  | r => mret (UserStopped r, w)
  end.

Fixpoint user_loop (n : nat) (ok : Z -> bool) (dumped : bool) (p : loc) (w : sworld) : outcome (user_res * sworld) :=
  match n with
  | O => Fault
  | Datatypes.S n =>
      '(r, w) ← CURSIG p w;
      user_next (user_loop n ok dumped p) ok dumped p r w
  end.

(** The loop goes on where issig stopped the process. *)
Definition user_resume (ok : Z -> bool) (dumped : bool) (p : loc) (at_ : issig_next) (procxmt : bool) (w : sworld) :
    outcome (user_res * sworld) :=
  '(r, w) ← issig_resume p at_ procxmt w;
  user_next (user_loop 32 ok dumped p) ok dumped p r w.

(** ** Sleeping with signals *)

Inductive tsleep_res :=
  | TReturn (error : Z)
  | TAsleep (catch_ : bool) (timo : Z)
  | TStopped (at_ : issig_next) (timo : Z)      (* stopped before the sleep *)
  | TStopped2 (at_ : issig_next).               (* stopped after it *)

(** The end of tsleep: the signal that was caught, if any. *)
Definition tsleep_error (p : loc) (sig : Z) (w : sworld) : outcome Z :=
  S ← sig_of p w; mret (if has (ps_sigintr (p_sigacts S)) (sigmask sig) then EINTR else ERESTART).

Definition tsleep_caught (p : loc) (r : issig_next) (w : sworld) : outcome (tsleep_res * sworld) :=
  match r with
  | NoSig => mret (TReturn 0, w)
  | Take sig => e ← tsleep_error p sig w; mret (TReturn e, w)
  | r => mret (TStopped2 r, w)
  end.

(** The priority and the flags after the sleep, and whether it timed out. *)
Definition tsleep_flags (p : loc) (w : sworld) : outcome (bool * sworld) :=
  w ← lift (sleep_resume p) w;
  P ← proc_of p (kw w);
  let timedout := has (p_flag P) STIMO in
  w ← with_proc p (fun P => set_p_flag (andnot (p_flag P) (if timedout then Z.lor SSINTR STIMO else SSINTR)) P) w;
  mret (timedout, w).

(** From [resume] on (lines 328-348). *)
Definition tsleep_wake (p : loc) (catch_ : bool) (sig timo : Z) (w : sworld) : outcome (tsleep_res * sworld) :=
  '(timedout, w) ← tsleep_flags p w;
  if (timedout : bool) && (negb catch_ || (sig =? 0)) then mret (TReturn EWOULDBLOCK, w)
  else
    let w := if negb timedout && negb (timo =? 0) then set_kw (add_klog [UntimeoutEndtsleep p] (kw w)) w else w in
    if catch_ then
      if negb (sig =? 0) then e ← tsleep_error p sig w; mret (TReturn e, w)
      else '(r, w) ← CURSIG p w; tsleep_caught p r w
    else mret (TReturn 0, w).

(** After the first CURSIG (lines 314-327). *)
Definition tsleep_checked (p : loc) (sig timo : Z) (w : sworld) : outcome (tsleep_res * sworld) :=
  if negb (sig =? 0) then
    w ← lift (unsleep p) w;
    w ← with_proc p (set_p_stat SRUN) w;
    tsleep_wake p true sig timo w
  else
    T ← thread_of p (kw w);
    if p_wchan T =? 0 then tsleep_wake p false 0 timo w
    else w ← lift (doze p) w; mret (TAsleep true timo, w).

Definition tsleep_issig (p : loc) (timo : Z) (r : issig_next) (w : sworld) : outcome (tsleep_res * sworld) :=
  match r with
  | NoSig => tsleep_checked p 0 timo w
  | Take sig => tsleep_checked p sig timo w
  | r => mret (TStopped r timo, w)
  end.

(** tsleep goes on where issig stopped the process, before the sleep or after it. *)
Definition tsleep_resume (p : loc) (at_ : issig_next) (procxmt : bool) (timo : Z) (w : sworld) : outcome (tsleep_res * sworld) :=
  '(r, w) ← issig_resume p at_ procxmt w; tsleep_issig p timo r w.
Definition tsleep_resume2 (p : loc) (at_ : issig_next) (procxmt : bool) (w : sworld) : outcome (tsleep_res * sworld) :=
  '(r, w) ← issig_resume p at_ procxmt w; tsleep_caught p r w.

Definition tsleep (cold : bool) (chan pri timo : Z) (w : sworld) : outcome (tsleep_res * sworld) :=
  if cold then mret (TReturn 0, w)
  else
    p ← deref (curproc (kw w));
    w ← lift (sleep_on p chan (Z.land pri PRIMASK)) w;
    let w := if timo =? 0 then w else set_kw (add_klog [TimeoutEndtsleep p timo] (kw w)) w in
    if has pri PCATCH then
      w ← with_proc p (fun P => set_p_flag (Z.lor (p_flag P) SSINTR) P) w;
      '(r, w) ← CURSIG p w;
      tsleep_issig p timo r w
    else w ← lift (doze p) w; mret (TAsleep false timo, w).

(** sigsuspend up to the sleep; whatever that returns, the error is EINTR. *)
Definition sigsuspend (p : loc) (mask : Z) (w : sworld) : outcome (tsleep_res * sworld) :=
  S ← sig_of p w;
  let ps := p_sigacts S in
  let S := set_p_sigacts (set_oldmask (p_sigmask S) (Z.lor (ps_flags ps) SA_OLDMASK) ps) S in
  tsleep false (sigacts_addr p) (Z.lor PPAUSE PCATCH) 0 (set_sigproc p (set_p_sigmask (andnot mask sigcantmask) S) w).

(** ** Forking *)

(** The scheduling fields of a child: those that are zeroed and those that are
    copied. *)
Definition fork_thread (T : thread) : thread := mkThread (p_pri T) (p_usrpri T) (p_nice T) 0 0 0 0 0 0 false.

(** The signal fields of a child; vm_fork copies the actions, and the child sets
    its accounting flag when it first runs. *)
Definition AFORK : Z := 0x01.
Definition fork_sig (S : sigproc) : sigproc :=
  mkSigproc 0 (p_sigmask S) (p_sigignore S) (p_sigcatch S) (p_sigacts S) (p_ruid S) (p_uid S) AFORK 0.

Definition PWAIT : Z := 32.

(** fork1 from the child's place in the table on (lines 157-272): the child is put
    on its run queue, and a parent that waits for it goes to sleep. *)
Definition sfork (p : loc) (pid xstat : Z) (isvfork : bool) (w : sworld) : outcome (loc * option tsleep_res * sworld) :=
  '(p2, u) ← fork_child p pid xstat isvfork (pw (kw w));
  T ← thread_of p (kw w);
  S ← sig_of p w;
  k ← setrq p2 (set_thread p2 (fork_thread T) (set_pw u (kw w)));
  let w := mkSworld k (<[p2 := fork_sig S]> (sigs w)) (slog w) in
  if isvfork then '(r, w) ← tsleep false (proc_addr p) PWAIT 0 w; mret (p2, Some r, w)
  else mret (p2, None, w).

End Post.
