(* ===== verification/SignalInv.v ===== *)
(** * Signals: sets of signals, and the invariant of a process's signal state *)

From S2P Require Import Prelude Pgrp PgrpInv Exit Sleep SleepInv SleepCalls Signal.

(** ** Sets of signals *)

Definition mem (m sig : Z) : bool := Z.testbit m (sig - 1).
Definition valid (sig : Z) : Prop := 1 <= sig < NSIG.

Lemma land_pow2 m n : 0 <= n -> Z.land m (2 ^ n) = if Z.testbit m n then 2 ^ n else 0.
Proof.
  intros Hn. apply Z.bits_inj'. intros i Hi. rewrite Z.land_spec, Z.pow2_bits_eqb by done.
  destruct (Z.eqb_spec n i) as [<-|Hne].
  - destruct (Z.testbit m n) eqn:E; [by rewrite Z.pow2_bits_eqb, Z.eqb_refl by done|by rewrite Z.bits_0].
  - rewrite andb_false_r. destruct (Z.testbit m n); [|by rewrite Z.bits_0].
    rewrite Z.pow2_bits_eqb by done. by destruct (Z.eqb_spec n i).
Qed.

Lemma sigmask_pow sig : sigmask sig = 2 ^ (sig - 1).
Proof. apply Z.shiftl_1_l. Qed.

Lemma has_mem m sig : 1 <= sig -> has m (sigmask sig) = mem m sig.
Proof.
  intros Hs. unfold has, mem. rewrite sigmask_pow, land_pow2 by lia.
  destruct (Z.testbit m (sig - 1)); [|done]. pose proof (Z.pow_pos_nonneg 2 (sig - 1)).
  by destruct (Z.eqb_spec (2 ^ (sig - 1)) 0); [lia|].
Qed.

Lemma mem_lor a b sig : mem (Z.lor a b) sig = mem a sig || mem b sig.
Proof. apply Z.lor_spec. Qed.

Lemma mem_andnot a b sig : 1 <= sig -> mem (andnot a b) sig = mem a sig && negb (mem b sig).
Proof. intros Hs. unfold mem, andnot. rewrite Z.land_spec, Z.lnot_spec by lia. done. Qed.

Lemma mem_sigmask s sig : 1 <= s -> 1 <= sig -> mem (sigmask s) sig = (sig =? s).
Proof.
  intros Hs Hg. unfold mem. rewrite sigmask_pow, Z.pow2_bits_eqb by lia.
  destruct (Z.eqb_spec (s - 1) (sig - 1)), (Z.eqb_spec sig s); lia || done.
Qed.

Lemma mem_cant sig : 1 <= sig -> mem sigcantmask sig = (sig =? SIGKILL) || (sig =? SIGSTOP).
Proof. intros Hs. unfold sigcantmask. by rewrite mem_lor, !mem_sigmask. Qed.

Lemma mem_0 sig : mem 0 sig = false.
Proof. apply Z.testbit_0_l. Qed.

(** Masks of [n] bits. *)
Definition fits (n m : Z) : Prop := 0 <= m < 2 ^ n.

Lemma fits_bits n m : 0 <= n -> fits n m <-> 0 <= m /\ forall i, n <= i -> Z.testbit m i = false.
Proof.
  intros Hn. unfold fits. split.
  - intros [H0 H1]. split; [done|]. intros i Hi. destruct (Z.eq_dec m 0) as [->|]; [apply Z.bits_0|].
    apply Z.bits_above_log2; [lia|]. apply Z.lt_le_trans with n; [|done]. apply Z.log2_lt_pow2; lia.
  - intros [H0 Hb]. split; [done|]. destruct (Z.lt_ge_cases m (2 ^ n)) as [|Hge]; [done|exfalso].
    pose proof (Z.pow_pos_nonneg 2 n). assert (n <= Z.log2 m) by (apply Z.log2_le_pow2; lia).
    specialize (Hb (Z.log2 m)). rewrite Z.bit_log2 in Hb by lia. by specialize (Hb ltac:(lia)).
Qed.

Lemma fits_lor n a b : 0 <= n -> fits n a -> fits n b -> fits n (Z.lor a b).
Proof.
  intros Hn. rewrite !fits_bits by done. intros (?&Ha) (?&Hb). split; [by apply Z.lor_nonneg|].
  intros i Hi. by rewrite Z.lor_spec, Ha, Hb.
Qed.

Lemma fits_andnot n a b : 0 <= n -> fits n a -> fits n (andnot a b).
Proof.
  intros Hn. rewrite !fits_bits by done. intros (?&Ha). unfold andnot. split; [apply Z.land_nonneg; by left|].
  intros i Hi. by rewrite Z.land_spec, Ha.
Qed.

Lemma fits_sigmask n sig : 1 <= sig <= n -> fits n (sigmask sig).
Proof. intros Hs. unfold fits. rewrite sigmask_pow. split; [apply Z.pow_nonneg; lia|]. apply Z.pow_lt_mono_r; lia. Qed.

Lemma fits_weaken a b m : 0 <= a <= b -> fits a m -> fits b m.
Proof. unfold fits. intros Hab (?&?). pose proof (Z.pow_le_mono_r 2 a b). lia. Qed.

Lemma fits_0 n : 0 <= n -> fits n 0.
Proof. intros Hn. unfold fits. pose proof (Z.pow_pos_nonneg 2 n). lia. Qed.

#[export] Hint Resolve fits_lor fits_andnot fits_sigmask fits_0 : kernel.

(** *** The first signal of a set *)

Lemma ffs_pos_spec p : 1 <= ffs_pos p /\ Z.testbit (Zpos p) (ffs_pos p - 1) = true /\
  forall i, 0 <= i < ffs_pos p - 1 -> Z.testbit (Zpos p) i = false.
Proof.
  induction p as [p IH|p IH|]; cbn [ffs_pos].
  - split; [lia|]. split; [done|]. intros i ?. lia.
  - destruct IH as (H1&H2&H3). split; [lia|]. rewrite (Pos2Z.inj_xO p). split.
    + replace (1 + ffs_pos p - 1) with (Z.succ (ffs_pos p - 1)) by lia. by rewrite Z.testbit_even_succ by lia.
    + intros i Hi. destruct (Z.eq_dec i 0) as [->|]; [apply Z.testbit_even_0|].
      replace i with (Z.succ (i - 1)) by lia. rewrite Z.testbit_even_succ by lia. apply H3. lia.
  - split; [lia|]. split; [done|]. intros i ?. lia.
Qed.

Lemma ffs_spec n m : 0 <= n -> fits n m -> m <> 0 ->
  1 <= ffs m <= n /\ mem m (ffs m) = true /\ forall i, 1 <= i < ffs m -> mem m i = false.
Proof.
  intros Hn Hf Hm. destruct m as [|p|p]; [done| |destruct Hf; lia]. cbn [ffs].
  destruct (ffs_pos_spec p) as (H1&H2&H3). split; [split; [done|]|split; [done|]].
  - apply fits_bits in Hf as (_&Hb); [|done]. destruct (Z.le_gt_cases (ffs_pos p) n) as [|Hgt]; [done|].
    rewrite Hb in H2 by lia. done.
  - intros i Hi. unfold mem. apply H3. lia.
Qed.

Lemma mem_ext n a b : 0 <= n -> fits n a -> fits n b -> (forall s, 1 <= s <= n -> mem a s = mem b s) -> a = b.
Proof.
  intros Hn Ha Hb He. apply Z.bits_inj'. intros i Hi. apply fits_bits in Ha as (_&Ha), Hb as (_&Hb); [|done..].
  destruct (Z.lt_ge_cases i n); [|by rewrite Ha, Hb]. specialize (He (i + 1)). unfold mem in He.
  replace (i + 1 - 1) with i in He by lia. apply He. lia.
Qed.

(** ** The invariant of one process *)

Definition is_dflt (sig act : Z) : bool := (act =? SIG_DFL) && has (sigprop sig) SA_IGNORE.

(** The sets agree with the actions; SIGKILL and SIGSTOP are never caught,
    ignored or blocked, now or while a handler runs. *)
Record sig_ok (S : sigproc) : Prop := mkSigOk {
  so_len : length (ps_sigact (p_sigacts S)) = 32%nat;
  so_lenm : length (ps_catchmask (p_sigacts S)) = 32%nat;
  so_sig : fits 31 (p_sig S);
  so_mask : fits 32 (p_sigmask S);
  so_catchfits : fits 31 (p_sigcatch S);
  so_catch : forall s, valid s -> mem (p_sigcatch S) s =
    negb (act_of s (p_sigacts S) =? SIG_DFL) && negb (act_of s (p_sigacts S) =? SIG_IGN);
  so_ignore : forall s, valid s -> mem (p_sigignore S) s =
    negb (s =? SIGCONT) && ((act_of s (p_sigacts S) =? SIG_IGN) || is_dflt s (act_of s (p_sigacts S)));
  so_masks : forall s, fits 32 (catchmask_of s (p_sigacts S));
  so_old : fits 32 (ps_oldmask (p_sigacts S));
  so_cant : forall s, s = SIGKILL \/ s = SIGSTOP -> act_of s (p_sigacts S) = SIG_DFL /\ mem (p_sigmask S) s = false
    /\ mem (ps_oldmask (p_sigacts S)) s = false /\ forall i, mem (catchmask_of i (p_sigacts S)) s = false;
}.

Lemma sig_ok_pend S m : sig_ok S -> fits 31 m -> sig_ok (set_p_sig m S).
Proof. intros [] Hm. by constructor. Qed.

Lemma sig_ok_mask S m : sig_ok S -> fits 32 m -> (forall s, s = SIGKILL \/ s = SIGSTOP -> mem m s = false) ->
  sig_ok (set_p_sigmask m S).
Proof. intros [] Hm Hc. constructor; try done. intros s Hs. destruct (so_cant0 s Hs) as (?&?&?&?). auto. Qed.

Lemma cant_andnot m s : s = SIGKILL \/ s = SIGSTOP -> mem (andnot m sigcantmask) s = false.
Proof.
  intros Hs. rewrite mem_andnot, mem_cant by (destruct Hs; subst; done).
  destruct Hs as [->| ->]; apply andb_false_r.
Qed.

Lemma lookup_act sig sig' act mask on intr ps : valid sig -> 0 <= sig' -> length (ps_sigact ps) = 32%nat ->
  act_of sig' (set_action sig act mask on intr ps) = if decide (sig' = sig) then act else act_of sig' ps.
Proof.
  intros Hs Hs' Hl. unfold act_of. cbn. unfold valid, NSIG in Hs. destruct (decide (sig' = sig)) as [->|Hne].
  - rewrite list_lookup_insert_eq; [done|]. lia.
  - rewrite list_lookup_insert_ne; [done|]. lia.
Qed.

Lemma lookup_catchmask sig s act mask on intr ps : 0 <= sig -> catchmask_of s (set_action sig act mask on intr ps) = mask
  \/ catchmask_of s (set_action sig act mask on intr ps) = catchmask_of s ps.
Proof.
  intros Hs. unfold catchmask_of. cbn. destruct (decide (Z.to_nat s = Z.to_nat sig)) as [E|Hne].
  - rewrite E. destruct (decide (Z.to_nat sig < length (ps_catchmask ps))%nat).
    + left. by rewrite list_lookup_insert_eq.
    + right. by rewrite list_insert_ge by lia.
  - right. by rewrite list_lookup_insert_ne.
Qed.

(** [mem_simpl] computes membership in the sets the code builds. *)
Ltac mem_simpl := rewrite ?mem_lor, ?mem_andnot, ?mem_sigmask by (unfold valid in *; lia).

Lemma setsigvec_sets_ok sig h mask on intr S : sig_ok S -> valid sig -> sig <> SIGKILL -> sig <> SIGSTOP -> fits 32 mask ->
  sig_ok (setsigvec_sets sig h (set_p_sigacts (set_action sig h (andnot mask sigcantmask) on intr (p_sigacts S)) S)).
Proof.
  intros HS Hv Hk Hst Hm. set (ps := set_action sig h (andnot mask sigcantmask) on intr (p_sigacts S)).
  set (bit := sigmask sig). assert (fits 31 bit) as Hb by (apply fits_sigmask; unfold valid, NSIG in Hv; lia).
  assert (forall s, valid s -> act_of s ps = if decide (s = sig) then h else act_of s (p_sigacts S)) as Hact.
  { intros s Hs. apply lookup_act; [done| |apply HS]. unfold valid in Hs. lia. }
  assert (forall c ig pend, fits 31 c -> fits 31 pend ->
    (forall s, valid s -> mem c s = if decide (s = sig) then negb (h =? SIG_DFL) && negb (h =? SIG_IGN) else mem (p_sigcatch S) s) ->
    (forall s, valid s -> mem ig s = if decide (s = sig) then negb (s =? SIGCONT) && ((h =? SIG_IGN) || is_dflt s h) else mem (p_sigignore S) s) ->
    sig_ok (mkSigproc pend (p_sigmask S) ig c ps (p_ruid S) (p_uid S) (p_acflag S) (ru_nsignals S))) as Hfin.
  { intros c ig pend Hc Hp Hcm Him. destruct HS. constructor; cbn; try done.
    - by rewrite length_insert. - by rewrite length_insert.
    - intros s Hs. rewrite Hcm, Hact by done. destruct (decide (s = sig)); [done|by apply so_catch0].
    - intros s Hs. rewrite Him, Hact by done. destruct (decide (s = sig)); [done|by apply so_ignore0].
    - intros s. destruct (lookup_catchmask sig s h (andnot mask sigcantmask) on intr (p_sigacts S)) as [E|E];
        [unfold valid in Hv; lia|unfold ps; rewrite E; auto with kernel..]. apply fits_andnot; [lia|done].
    - intros s Hs. destruct (so_cant0 s Hs) as (Ha&?&?&Hcm'). split; [|split; [done|split; [done|]]].
      + rewrite Hact by (destruct Hs; subst; done). rewrite decide_False by (destruct Hs; congruence). done.
      + intros i. destruct (lookup_catchmask sig i h (andnot mask sigcantmask) on intr (p_sigacts S)) as [E|E];
          [unfold valid in Hv; lia|unfold ps; rewrite E..]; [by apply cant_andnot|done]. }
  unfold setsigvec_sets. fold bit. cbn [p_sig p_sigignore p_sigcatch set_p_sigacts]. unfold is_dflt in *.
  assert (fits 31 (andnot (p_sigcatch S) bit)) as Hca by (apply fits_andnot; [lia|apply HS]).
  destruct (_ || _) eqn:E.
  - apply orb_true_iff in E. rewrite andb_true_iff, !Z.eqb_eq in E.
    assert (forall s, valid s -> mem (andnot (p_sigcatch S) bit) s =
      if decide (s = sig) then negb (h =? SIG_DFL) && negb (h =? SIG_IGN) else mem (p_sigcatch S) s) as Hc.
    { intros s Hs. unfold bit. mem_simpl. destruct (decide (s = sig)) as [->|Hne].
      - rewrite Z.eqb_refl, andb_false_r. destruct E as [->|(_&->)]; done.
      - rewrite (proj2 (Z.eqb_neq s sig)) by done. by rewrite andb_true_r. }
    assert (fits 31 (andnot (p_sig S) bit)) by (apply fits_andnot; [lia|apply HS]).
    assert ((h =? SIG_IGN) || (h =? SIG_DFL) && has (sigprop sig) SA_IGNORE = true) as Hi.
    { destruct E as [->|(-> & ->)]; [done|by rewrite orb_true_r]. }
    destruct (Z.eqb_spec sig SIGCONT) as [Ec|Ec]; apply Hfin; try done; intros s Hs.
    + destruct (decide (s = sig)) as [->|]; [|done]. cbn. rewrite (so_ignore _ HS sig Hv), Ec. done.
    + cbn. unfold bit. mem_simpl. destruct (decide (s = sig)) as [->|Hne].
      * rewrite Z.eqb_refl, orb_true_r, Hi. by rewrite (proj2 (Z.eqb_neq sig SIGCONT)).
      * rewrite (proj2 (Z.eqb_neq s sig)) by done. by rewrite orb_false_r.
  - apply orb_false_iff in E as (E1&E2). apply Z.eqb_neq in E1.
    assert (forall s, valid s -> mem (andnot (p_sigignore S) bit) s = if decide (s = sig) then negb (s =? SIGCONT) &&
      ((h =? SIG_IGN) || (h =? SIG_DFL) && has (sigprop s) SA_IGNORE) else mem (p_sigignore S) s) as Him.
    { intros s Hs. unfold bit. mem_simpl. destruct (decide (s = sig)) as [->|Hne].
      - rewrite Z.eqb_refl, andb_false_r, (proj2 (Z.eqb_neq h SIG_IGN)), andb_comm, (andb_comm (h =? SIG_DFL)), E2 by done. done.
      - rewrite (proj2 (Z.eqb_neq s sig)) by done. by rewrite andb_true_r. }
    destruct (Z.eqb_spec h SIG_DFL) as [Ed|Ed]; apply Hfin; try done; try apply HS; intros; unfold bit; mem_simpl; auto using fits_lor.
    + destruct (decide (s = sig)) as [->|Hne]; [rewrite Z.eqb_refl; by rewrite andb_false_r|].
      rewrite (proj2 (Z.eqb_neq s sig)) by done. by rewrite andb_true_r.
    + apply fits_lor; [lia|apply HS|done].
    + destruct (decide (s = sig)) as [->|Hne]; [rewrite Z.eqb_refl, orb_true_r|].
      * by rewrite (proj2 (Z.eqb_neq h SIG_IGN)).
      * rewrite (proj2 (Z.eqb_neq s sig)) by done. by rewrite orb_false_r.
Qed.

(** *** exec *)

Lemma act_set_sigact s sig act ps : valid sig -> 0 <= s -> length (ps_sigact ps) = 32%nat ->
  act_of s (set_sigact sig act ps) = if decide (s = sig) then act else act_of s ps.
Proof.
  intros Hs Hs' Hl. unfold act_of. cbn. unfold valid, NSIG in Hs. destruct (decide (s = sig)) as [->|Hne].
  - rewrite list_lookup_insert_eq; [done|]. lia.
  - rewrite list_lookup_insert_ne; [done|]. lia.
Qed.

(** A signal goes back to its default action: its bit leaves the caught set, and
    is in the ignored set when [ig] says so. *)
Lemma sig_ok_default sig S c ig pend : sig_ok S -> valid sig -> fits 31 c -> fits 31 pend ->
  (forall s, valid s -> mem c s = negb (s =? sig) && mem (p_sigcatch S) s) ->
  (forall s, valid s -> mem ig s = if decide (s = sig) then negb (s =? SIGCONT) && has (sigprop s) SA_IGNORE
     else mem (p_sigignore S) s) ->
  forall m, fits 32 m -> (forall s, s = SIGKILL \/ s = SIGSTOP -> mem m s = false) ->
  sig_ok (mkSigproc pend m ig c (set_sigact sig SIG_DFL (p_sigacts S)) (p_ruid S) (p_uid S) (p_acflag S) (ru_nsignals S)).
Proof.
  intros HS Hv Hc Hp Hcm Him m Hm Hcant.
  assert (forall s, 0 <= s -> act_of s (set_sigact sig SIG_DFL (p_sigacts S)) = if decide (s = sig) then SIG_DFL else act_of s (p_sigacts S)) as Hact
    by (intros s Hs; apply act_set_sigact; [done|done|apply HS]).
  destruct HS. constructor; cbn; try done.
  - by rewrite length_insert.
  - intros s Hs. rewrite Hcm, Hact by (unfold valid in *; lia || done). destruct (decide (s = sig)) as [->|Hne].
    + by rewrite Z.eqb_refl. + rewrite (proj2 (Z.eqb_neq s sig)) by done. by apply so_catch0.
  - intros s Hs. rewrite Him, Hact by (unfold valid in *; lia || done). destruct (decide (s = sig)) as [->|Hne]; [done|by apply so_ignore0].
  - intros s Hs. destruct (so_cant0 s Hs) as (Ha&?&?&?). split; [|by auto]. rewrite Hact by (destruct Hs; subst; done).
    destruct (decide (s = sig)); [done|exact Ha].
Qed.

(** What execsigs leaves: no signal is caught, and a caught one that is ignored
    by default is no longer pending. *)
Definition exec_reset (S S' : sigproc) : Prop :=
  sig_ok S' /\ p_sigcatch S' = 0 /\ p_sigmask S' = p_sigmask S
  /\ (forall s, valid s -> act_of s (p_sigacts S') = if mem (p_sigcatch S) s then SIG_DFL else act_of s (p_sigacts S))
  /\ (forall s, valid s -> mem (p_sig S') s = mem (p_sig S) s && negb (mem (p_sigcatch S) s && has (sigprop s) SA_IGNORE)).

Lemma execsigs_loop_ok : forall n S j, sig_ok S -> 0 <= j -> (forall i, 1 <= i <= j -> mem (p_sigcatch S) i = false) ->
  31 - j <= Z.of_nat n -> exists S', execsigs_loop n S = Ok S' /\ exec_reset S S'.
Proof.
  intros n. induction n as [|n IH]; intros S j HS Hj Hlow Hn; cbn [execsigs_loop].
  - assert (p_sigcatch S = 0) as E.
    { apply (mem_ext 31); [lia|apply HS|by apply fits_0|]. intros s Hs. rewrite mem_0. apply Hlow. lia. }
    rewrite E. exists S. split; [done|]. split; [done|]. split; [done|]. split; [done|].
    split; intros s Hs; rewrite E, mem_0; [done|by rewrite andb_true_r].
  - destruct (Z.eqb_spec (p_sigcatch S) 0) as [E|E].
    + exists S. split; [done|]. split; [done|]. split; [done|]. split; [done|].
      split; intros s Hs; rewrite E, mem_0; [done|by rewrite andb_true_r].
    + destruct (ffs_spec 31 (p_sigcatch S) ltac:(lia) (so_catchfits _ HS) E) as (Hnc&Hmem&Hmin).
      set (nc := ffs (p_sigcatch S)) in *. assert (valid nc) as Hv by (unfold valid, NSIG; lia).
      assert (j < nc) as Hjn. { destruct (Z.lt_ge_cases j nc); [done|]. rewrite Hlow in Hmem by lia. done. }
      set (bit := sigmask nc). set (c := andnot (p_sigcatch S) bit).
      assert (fits 31 bit) as Hb by (apply fits_sigmask; lia).
      assert (fits 31 c) as Hc by (apply fits_andnot; [lia|apply HS]).
      assert (forall s, valid s -> mem c s = negb (s =? nc) && mem (p_sigcatch S) s) as Hcm.
      { intros s Hs. unfold c, bit. mem_simpl. by rewrite andb_comm. }
      pose proof (so_catch _ HS nc Hv) as Hcaught. rewrite Hmem in Hcaught. symmetry in Hcaught.
      apply andb_true_iff in Hcaught as (Hd&Hi). apply negb_true_iff in Hd, Hi.
      assert (mem (p_sigignore S) nc = false) as Hnig.
      { rewrite (so_ignore _ HS nc Hv), Hi. unfold is_dflt. rewrite Hd. by rewrite andb_false_r. }
      set (dig := has (sigprop nc) SA_IGNORE).
      set (S1 := mkSigproc (if dig then andnot (p_sig S) bit else p_sig S) (p_sigmask S)
        (if dig then if nc =? SIGCONT then p_sigignore S else Z.lor (p_sigignore S) bit else p_sigignore S) c
        (set_sigact nc SIG_DFL (p_sigacts S)) (p_ruid S) (p_uid S) (p_acflag S) (ru_nsignals S)).
      assert (sig_ok S1) as HS1.
      { apply sig_ok_default; try done; [| |apply HS|intros s Hs; by destruct (so_cant _ HS s Hs) as (_&?&_)].
        - destruct dig; [apply fits_andnot; [lia|]|]; apply HS.
        - intros s Hs. fold dig. destruct (decide (s = nc)) as [->|Hne].
          + fold dig. destruct dig; [|by rewrite andb_false_r, Hnig]. rewrite andb_true_r.
            destruct (Z.eqb_spec nc SIGCONT); [done|]. unfold bit. mem_simpl. by rewrite Z.eqb_refl, orb_true_r.
          + destruct dig; [|done]. destruct (Z.eqb_spec nc SIGCONT); [done|]. unfold bit. mem_simpl.
            rewrite (proj2 (Z.eqb_neq s nc)) by done. by rewrite orb_false_r. }
      destruct (IH S1 nc HS1) as (S'&E'&HS'&Ec'&Em'&Ha'&Hp'); [lia| |lia|].
      { intros i Hi'. unfold S1. cbn [p_sigcatch]. rewrite Hcm by (unfold valid, NSIG; lia).
        destruct (Z.eqb_spec i nc) as [->|]; [done|]. cbn. apply Hmin. lia. }
      exists S'. split.
      { rewrite <- E'. f_equal. unfold S1. destruct dig eqn:Ed; [|done]. by destruct (nc =? SIGCONT). }
      split; [done|]. split; [done|]. split; [done|]. split; intros s Hs.
      * rewrite Ha' by done. unfold S1. cbn [p_sigcatch p_sigacts]. rewrite Hcm by done. rewrite act_set_sigact by (try apply HS; unfold valid in *; lia || done).
        destruct (Z.eqb_spec s nc) as [->|Hne]; cbn; [by rewrite Hmem, decide_True|by rewrite decide_False].
      * rewrite Hp' by done. unfold S1. cbn [p_sigcatch p_sig]. rewrite Hcm by done. destruct (Z.eqb_spec s nc) as [->|Hne]; cbn.
        -- rewrite Hmem. fold dig. rewrite andb_true_r. destruct dig; [|by rewrite andb_true_r]. unfold bit. mem_simpl. by rewrite Z.eqb_refl.
        -- destruct dig; [|done]. unfold bit. mem_simpl. rewrite (proj2 (Z.eqb_neq s nc)) by done. by rewrite andb_true_r.
Qed.

(** *** The other changes *)

Lemma sig_ok_hold sig S : sig_ok S -> valid sig -> sig <> SIGKILL -> sig <> SIGSTOP -> sig_ok (hold_caught sig S).
Proof.
  intros HS Hv Hk Hs. apply sig_ok_mask; [done| |].
  - apply fits_lor; [lia|apply HS|]. apply fits_lor; [lia|apply HS|]. apply fits_sigmask. unfold valid, NSIG in Hv. lia.
  - intros s Hc. destruct (so_cant _ HS s Hc) as (_&Hm&_&Hcm). rewrite !mem_lor, Hm, Hcm. cbn. unfold valid in Hv.
    rewrite mem_sigmask by (destruct Hc; subst; unfold SIGKILL, SIGSTOP; lia). apply Z.eqb_neq. destruct Hc; congruence.
Qed.

(** A caught signal is neither SIGKILL nor SIGSTOP. *)
Lemma caught_not_cant S sig : sig_ok S -> act_of sig (p_sigacts S) <> SIG_DFL -> sig <> SIGKILL /\ sig <> SIGSTOP.
Proof. intros HS Hn. split; intros ->; apply Hn; [destruct (so_cant _ HS SIGKILL)|destruct (so_cant _ HS SIGSTOP)]; auto. Qed.

Lemma sig_ok_illegal S : sig_ok S -> let bit := sigmask SIGILL in
  sig_ok (set_p_sigmask (andnot (p_sigmask S) bit) (set_p_sigcatch (andnot (p_sigcatch S) bit)
    (set_p_sigignore (andnot (p_sigignore S) bit) (set_p_sigacts (set_sigact SIGILL SIG_DFL (p_sigacts S)) S)))).
Proof.
  intros HS bit. assert (valid SIGILL) as Hv by (unfold valid, SIGILL, NSIG; lia).
  refine (sig_ok_default SIGILL S _ _ _ HS Hv _ _ _ _ _ _ _); unfold bit;
    cbn [p_sig p_sigmask p_sigignore p_sigcatch set_p_sigmask set_p_sigcatch set_p_sigignore set_p_sigacts].
  - apply fits_andnot; [lia|apply HS]. - apply HS.
  - intros s Hs. rewrite mem_andnot, mem_sigmask by (unfold valid, SIGILL in *; lia). by rewrite andb_comm.
  - intros s Hs. rewrite mem_andnot, mem_sigmask by (unfold valid, SIGILL in *; lia). destruct (decide (s = SIGILL)) as [->|Hne].
    + rewrite Z.eqb_refl. by rewrite andb_false_r.
    + rewrite (proj2 (Z.eqb_neq s SIGILL)) by done. by rewrite andb_true_r.
  - apply fits_andnot; [lia|apply HS].
  - intros s Hs. destruct (so_cant _ HS s Hs) as (_&Hm&_). rewrite mem_andnot, Hm by (destruct Hs; subst; unfold SIGKILL, SIGSTOP; lia). done.
Qed.

(** Fields of the actions that no set depends on. *)
Lemma sig_ok_acts S ps : sig_ok S -> ps_sigact ps = ps_sigact (p_sigacts S) -> ps_catchmask ps = ps_catchmask (p_sigacts S) ->
  fits 32 (ps_oldmask ps) -> (forall s, s = SIGKILL \/ s = SIGSTOP -> mem (ps_oldmask ps) s = false) -> sig_ok (set_p_sigacts ps S).
Proof.
  intros [] Ea Ec Hf Hm. unfold act_of, catchmask_of in *.
  constructor; cbn; unfold act_of, catchmask_of; rewrite ?Ea, ?Ec; try done.
  intros s Hs. destruct (so_cant0 s Hs) as (?&?&_&?). auto.
Qed.
