(* ===== verification/SignalPost.v ===== *)
(** * Signals: posting, stopping and continuing processes *)

From S2P Require Import Prelude Pgrp PgrpInv Exit Life Sleep SleepInv SleepCalls Signal SignalInv.

(** ** Steps of the queues *)

(** The flags are the same, but for the one of the stopped that have been waited
    for. *)
Definition same_flags (P P' : proc) : Prop := forall b, Z.land SWTED b = 0 -> has (p_flag P') b = has (p_flag P) b.

(** What a signal may do to the processes: none changes its place, another
    process does not get the processor, none starts to wait, and those that are
    runnable stay so. *)
Record ksteps (k k' : kworld) : Prop := mkKsteps {
  ks_sq : Sq k';
  ks_place : placed (pw k) (pw k');
  ks_cur : curproc k' = curproc k;
  ks_wchan : forall x Y', threads k' !! x = Some Y' ->
    p_wchan Y' = 0 \/ exists Y, threads k !! x = Some Y /\ p_wchan Y' = p_wchan Y;
  ks_run : forall x X, procs (pw k) !! x = Some X -> p_stat X = SRUN ->
    exists X', procs (pw k') !! x = Some X' /\ p_stat X' = SRUN;
  ks_flags : forall x X, procs (pw k) !! x = Some X -> exists X', procs (pw k') !! x = Some X' /\ same_flags X X';
}.

Lemma ksteps_refl k : Sq k -> ksteps k k.
Proof. intros HS. constructor; [done|apply placed_refl|done| |by intros; eexists|by intros; eexists]. intros x Y E. right. by exists Y. Qed.

Lemma ksteps_trans k1 k2 k3 : ksteps k1 k2 -> ksteps k2 k3 -> ksteps k1 k3.
Proof.
  intros [_ P1 C1 W1 R1 F1] [S2 P2 C2 W2 R2 F2]. constructor; [done|by eapply placed_trans|congruence| | |].
  - intros x Y' E. destruct (W2 x Y' E) as [?|(Y&EY&->)]; [by left|exact (W1 x Y EY)].
  - intros x X EX ER. destruct (R1 x X EX ER) as (X1&E1&ER1). exact (R2 x X1 E1 ER1).
  - intros x X EX. destruct (F1 x X EX) as (X1&E1&H1). destruct (F2 x X1 E1) as (X2&E2&H2). exists X2. split; [done|].
    intros b Hb. by rewrite H2, H1.
Qed.

Lemma ksteps_log es k : Sq k -> ksteps k (add_klog es k).
Proof.
  intros HS. constructor; [by apply (Sq_ext k)|apply placed_refl|done| |by intros; eexists|by intros; eexists].
  intros x Y E. right. by exists Y.
Qed.

Lemma Sq_thread k p P : Sq k -> procs (pw k) !! p = Some P -> exists T, in_proc k p P T.
Proof. intros (r&HS) E. destruct (proj2 (sq_dom _ _ HS p)) as (T&ET); [by eexists|]. by exists T. Qed.

Lemma stat_place P P' : p_pid P' = p_pid P -> p_pgrp P' = p_pgrp P -> p_pptr P' = p_pptr P -> p_cptr P' = p_cptr P ->
  p_ru P' = p_ru P -> p_stat P <> SZOMB -> p_stat P' <> SZOMB -> same_place P P'.
Proof. unfold same_place. tauto. Qed.

Lemma ksteps_wakes W k k' : Sq k -> Sq k' -> wakes W k k' -> ksteps k k'.
Proof.
  intros HS HS' Hw. destruct (wk_frame _ _ _ Hw) as [F Fc _ _]. constructor; [done| |done| | |].
  - constructor; [done|]. intros p. destruct (procs (pw k) !! p) as [P|] eqn:EP; [|rewrite (wk_none _ _ _ Hw p EP); constructor].
    destruct (Sq_thread k p P HS EP) as (T&Hp). pose proof (wk_in _ _ _ Hw p P T Hp) as Hx.
    destruct (_ && _); destruct Hx as (->&_); constructor; [|apply same_place_refl]. unfold woken_proc.
    destruct (Z.eqb_spec (p_stat P) SSLEEP) as [E|]; [|apply same_place_refl]. apply stat_place; try done. by rewrite E.
  - intros x Y' E. destruct (Sq_in k' x Y' HS' E) as (X'&Hx'). destruct (Z.eq_dec (p_wchan Y') 0) as [|Hn]; [by left|right].
    pose proof (wakes_back W k k' x X' Y' HS Hw Hx' Hn) as (_&?). by exists Y'.
  - intros x X EX ER. destruct (Sq_thread k x X HS EX) as (T&Hx). pose proof (wk_in _ _ _ Hw x X T Hx) as Hx'.
    destruct (_ && _); [exists (woken_proc X); split; [apply Hx'|by unfold woken_proc; rewrite ER]|exists X; split; [apply Hx'|done]].
  - intros x X EX. destruct (Sq_thread k x X HS EX) as (T&Hx). pose proof (wk_in _ _ _ Hw x X T Hx) as Hx'.
    destruct (_ && _); [exists (woken_proc X); split; [apply Hx'|unfold woken_proc; by case_if]|exists X; split; [apply Hx'|done]].
Qed.

Lemma ksteps_ran p P T k k' : Sq k -> in_proc k p P T -> runnable P -> ran p P T k k' -> Sq k' -> ksteps k k'.
Proof.
  intros HS (EP&ET) Hr [[F Fc _ _] E1 E2 _ _] HS'. constructor; [done| |done| | |].
  - rewrite F, E1. apply (placed_put _ p P); [done|]. apply stat_place; try done. unfold runnable in Hr.
    destruct Hr as [E|[E|E]]; by rewrite E.
  - intros x Y' E. rewrite E2 in E. destruct (decide (x = p)) as [->|].
    + rewrite lookup_insert_eq in E. injection E as <-. left. apply running_facts.
    + rewrite lookup_insert_ne in E by done. right. by exists Y'.
  - intros x X EX ER. rewrite E1. destruct (decide (x = p)) as [->|]; [rewrite lookup_insert_eq; by eexists|].
    rewrite lookup_insert_ne by done. by exists X.
  - intros x X EX. rewrite E1. destruct (decide (x = p)) as [->|]; [rewrite lookup_insert_eq; eexists; split; [done|]; by assert (X = P) as -> by congruence|].
    rewrite lookup_insert_ne by done. by exists X.
Qed.

Lemma ksteps_proc k p P T P' : Sq k -> in_proc k p P T -> same_place P P' -> (p_stat P = SRUN -> p_stat P' = SRUN) -> same_flags P P' -> Sq (set_proc p P' k) -> ksteps k (set_proc p P' k).
Proof.
  intros HS (EP&ET) Hp Hr Hf HS'. constructor; [done|by apply (placed_put _ p P)|done| | |].
  - intros x Y E. right. by exists Y.
  - intros x X EX ER. cbn. destruct (decide (x = p)) as [->|]; [rewrite lookup_insert_eq; eexists; split; [done|]|].
    + apply Hr. cbn in EX. congruence. + rewrite lookup_insert_ne by done. by exists X.
  - intros x X EX. cbn. destruct (decide (x = p)) as [->|]; [rewrite lookup_insert_eq; eexists; split; [done|]|].
    + cbn in EX. by assert (X = P) as -> by congruence. + rewrite lookup_insert_ne by done. by exists X.
Qed.

Lemma ksteps_thread k p P T T' : Sq k -> in_proc k p P T -> p_wchan T' = p_wchan T -> p_rlink T' = p_rlink T ->
  (p_rlink T = true -> p_pri T' = p_pri T) -> (forall c, thread_ok c P T -> thread_ok c P T') -> ksteps k (set_thread p T' k).
Proof.
  intros (r&HS) Hp Ew Er Epr Hok. pose proof Hp as (EP&ET).
  constructor; [|apply placed_refl|done| |by intros; eexists|by intros; eexists].
  - apply (Sq_in_place r p P T T' k); try done; [intros E; left; by rewrite Epr|apply Hok, (sq_st _ _ HS p P T EP ET)].
  - intros x Y E. cbn in E. destruct (decide (x = p)) as [->|].
    + rewrite lookup_insert_eq in E. injection E as <-. right. by exists T.
    + rewrite lookup_insert_ne in E by done. right. by exists Y.
Qed.

(** A process that is on no run queue changes its state. *)
Lemma Sq_stat k p P T P' : Sq k -> in_proc k p P T -> p_stat P <> SRUN \/ curproc k = Some p ->
  has (p_flag P') SLOAD = has (p_flag P) SLOAD -> has (p_flag P') SWEXIT = has (p_flag P) SWEXIT ->
  p_stat P' = SSTOP \/ (p_stat P' = SSLEEP /\ p_wchan T <> 0 /\ curproc k <> Some p) -> Sq (set_proc p P' k).
Proof.
  intros (r&HS) (EP&ET) Hn El Ex Hs. pose proof (sq_st _ _ HS p P T EP ET) as Hok.
  assert (p_rlink T = false) as Hr.
  { destruct Hn as [Hn|Hc]; [by apply (not_queued _ _ _ Hok)|]. apply not_true_is_false. intros E. by destruct (th_queued _ _ _ Hok E) as (_&?&_). }
  destruct (Sq_change r p P T P' T k (set_proc p P' k) HS EP ET) as (r'&?&_);
    [done|cbn; by rewrite insert_id|done|done|by apply moves_wait|by apply rm_same; [done..|left]|done| |by exists r'].
  destruct Hok. constructor; rewrite ?El; try done.
  - intros E. destruct Hs as [E'|(_&?&_)]; [|done]. rewrite E' in E. discriminate.
  - intros _. destruct Hs as [E'|(E'&_)]; auto.
  - by rewrite Hr.
  - intros E. rewrite E in Hs. by destruct Hs as [|(?&_)].
  - intros Hc. split; [|by apply th_cur]. destruct Hs as [E|(_&_&?)]; [by rewrite E|done].
Qed.

(** A process keeps its fields. *)
Definition kept (x : loc) (k k' : kworld) : Prop := forall X Y, in_proc k x X Y -> in_proc k' x X Y.
Lemma kept_refl x k : kept x k k.
Proof. by intros X Y. Qed.
Lemma kept_trans x k1 k2 k3 : kept x k1 k2 -> kept x k2 k3 -> kept x k1 k3.
Proof. intros H1 H2 X Y Hx. by apply H2, H1. Qed.
Lemma kept_set_proc x p P k : x <> p -> kept x k (set_proc p P k).
Proof. intros Hx X Y (?&?). split; [|done]. cbn. by rewrite lookup_insert_ne. Qed.
Lemma kept_set_thread x p T k : x <> p -> kept x k (set_thread p T k).
Proof. intros Hx X Y (?&?). split; [done|]. cbn. by rewrite lookup_insert_ne. Qed.
#[export] Hint Resolve kept_refl kept_set_proc kept_set_thread : kernel.

(** Only the swapper waits for the swapper. *)
Definition swap_ok `{Layout} (k : kworld) : Prop :=
  forall x Y, threads k !! x = Some Y -> p_wchan Y = proc_addr (proc0 (pw k)) -> x = proc0 (pw k).

Lemma swap_ok_steps `{Layout} k k' : ksteps k k' -> swap_ok k -> swap_ok k'.
Proof.
  intros [_ [Ef _] _ Hw] Hs x Y E Ew. assert (proc0 (pw k') = proc0 (pw k)) as E0 by (by rewrite Ef). rewrite E0 in *.
  clear Ef E0. destruct (Hw x Y E) as [E0|(Y0&EY&E0)].
  - exfalso. rewrite E0 in Ew. symmetry in Ew. by apply (proc_addr_nz (proc0 (pw k))).
  - apply (Hs x Y0 EY). congruence.
Qed.

Section Setrun.
Context `{Layout}.

Lemma setrun_steps k p P T : Sq k -> swap_ok k -> in_proc k p P T -> runnable P -> curproc k <> Some p ->
  exists k', setrun p k = Ok k' /\ ksteps k k' /\ (forall x, x <> p -> x <> proc0 (pw k) -> kept x k k')
    /\ (in_proc k' p (set_p_stat SRUN P) (running (loadfactor (averunnable k)) P T)).
Proof.
  intros HS Hsw Hp Hr Hc. destruct (setrun_ok k p P T HS Hp Hr Hc) as (k1&k2&E&Hran&HS2&Hw).
  assert (Sq k1) as HS1.
  { destruct HS as (r&HS). destruct Hran as [[? ? ? ?] ? ? ? ?]. by apply (Sq_running r p P T k k1); [|apply Hp..| | | | | | | |]. }
  pose proof (ksteps_ran p P T k k1 HS Hp Hr Hran HS1) as H1. exists k2. split; [done|]. split; [|split].
  - eapply ksteps_trans; [exact H1|by eapply ksteps_wakes].
  - intros x Hx H0 X Y HX. assert (in_proc k1 x X Y) as HX1 by (by apply (ran_other _ _ _ _ _ _ _ _ Hran Hx)).
    apply (wakes_not _ _ _ _ _ _ Hw HX1). left. rewrite (hits_in _ _ _ _ _ HX1). apply andb_false_intro2, Z.eqb_neq.
    intros Ew. apply H0, (Hsw x Y); [apply HX|done].
  - apply (wakes_not _ _ _ _ _ _ Hw (ran_self _ _ _ _ _ Hran)). right. apply running_facts.
Qed.

Lemma wakeup_steps k c : c <> 0 -> Sq k -> exists k' b, wakeup c k = Ok k' /\ ksteps k k'
  /\ wakes (fun x => hits c k x || (b && hits (proc_addr (proc0 (pw k))) k x)) k k'.
Proof.
  intros Hc HS. destruct (wakeup_ok c k Hc HS) as (k'&b&E&HS'&_&Hw). exists k', b. split; [done|]. split; [|done].
  by eapply ksteps_wakes.
Qed.
End Setrun.

(** ** Steps of the signals *)

Definition pend_only (S S' : sigproc) : Prop := (fits 31 (p_sig S) -> fits 31 (p_sig S')) /\ S' = set_p_sig (p_sig S') S.

Record steps (w w' : sworld) : Prop := mkSteps {
  st_k : ksteps (kw w) (kw w');
  st_sigs : forall x, option_Forall2 pend_only (sigs w !! x) (sigs w' !! x);
}.

Lemma Forall2_Some {A B} (R : A -> B -> Prop) a b : option_Forall2 R a b -> is_Some a <-> is_Some b.
Proof. intros [x y ?|]; split; intros (?&?); by (by exists x) || (by exists y) || done. Qed.

Lemma pend_only_refl S : pend_only S S.
Proof. split; [done|by destruct S]. Qed.
Lemma pend_only_trans S1 S2 S3 : pend_only S1 S2 -> pend_only S2 S3 -> pend_only S1 S3.
Proof. intros [F1 E1] [F2 E2]. split; [auto|]. rewrite E2, E1. done. Qed.

Lemma steps_k w k : ksteps (kw w) k -> steps w (set_kw k w).
Proof. intros Hk. constructor; [done|]. intros x. cbn. destruct (sigs w !! x); constructor. apply pend_only_refl. Qed.
Lemma steps_refl w : Sq (kw w) -> steps w w.
Proof. intros HS. constructor; [by apply ksteps_refl|]. intros x. destruct (sigs w !! x); constructor. apply pend_only_refl. Qed.
Lemma steps_trans w1 w2 w3 : steps w1 w2 -> steps w2 w3 -> steps w1 w3.
Proof.
  intros [K1 S1] [K2 S2]. constructor; [by eapply ksteps_trans|]. intros x. specialize (S1 x). specialize (S2 x).
  destruct (sigs w1 !! x), (sigs w2 !! x), (sigs w3 !! x); inversion S1; inversion S2; subst; constructor.
  by eapply pend_only_trans.
Qed.
Lemma steps_sig w p S m : Sq (kw w) -> sigs w !! p = Some S -> (fits 31 (p_sig S) -> fits 31 m) ->
  steps w (set_sigproc p (set_p_sig m S) w).
Proof.
  intros HS ES Hm. constructor; [by apply ksteps_refl|]. intros x. cbn. destruct (decide (x = p)) as [->|].
  - rewrite lookup_insert_eq, ES. constructor. by split.
  - rewrite lookup_insert_ne by done. destruct (sigs w !! x); constructor. apply pend_only_refl.
Qed.

Lemma sig_of_eq p w S : sigs w !! p = Some S -> sig_of p w = Ok S.
Proof. unfold sig_of. by intros ->. Qed.

Section Post.
Context `{Layout}.

(** What posting a signal needs of the world. *)
Record base (w : sworld) : Prop := mkBase {
  b_sq : Sq (kw w);
  b_swap : swap_ok (kw w);
  b_dom : forall p, is_Some (sigs w !! p) <-> is_Some (procs (pw (kw w)) !! p);
}.

Lemma base_steps w w' : base w -> steps w w' -> base w'.
Proof.
  intros [HS Hsw Hd] [Hk Hs]. constructor; [apply Hk|by eapply swap_ok_steps|].
  intros p. rewrite <- (Forall2_Some _ _ _ (Hs p)), <- (Forall2_Some _ _ _ (pl_procs _ _ (ks_place _ _ Hk) p)). apply Hd.
Qed.

(** A process, its thread and its signals. *)
Definition at_ (w : sworld) (p : loc) (P : proc) (T : thread) (S : sigproc) : Prop :=
  in_proc (kw w) p P T /\ sigs w !! p = Some S.

Lemma base_at w p P : base w -> procs (pw (kw w)) !! p = Some P -> exists T S, at_ w p P T S.
Proof.
  intros [HS _ Hd] E. destruct (Sq_thread _ p P HS E) as (T&HT). destruct (proj2 (Hd p)) as (S&ES); [by eexists|]. by exists T, S.
Qed.

(** Another process is left alone. *)
Definition left_alone (x : loc) (w w' : sworld) : Prop := kept x (kw w) (kw w') /\ sigs w' !! x = sigs w !! x.
Lemma left_alone_refl x w : left_alone x w w.
Proof. by split; [apply kept_refl|]. Qed.
Lemma left_alone_trans x w1 w2 w3 : left_alone x w1 w2 -> left_alone x w2 w3 -> left_alone x w1 w3.
Proof. intros [K1 E1] [K2 E2]. split; [by eapply kept_trans|congruence]. Qed.
Lemma left_alone_k x w k : kept x (kw w) k -> left_alone x w (set_kw k w).
Proof. by split. Qed.
Lemma left_alone_sig x p S w : x <> p -> left_alone x w (set_sigproc p S w).
Proof. intros Hx. split; [apply kept_refl|]. cbn. by rewrite lookup_insert_ne. Qed.

(** *** The decision table of psignal *)

Definition traced (P : proc) : bool := has (p_flag P) STRC.
Definition action_of (P : proc) (S : sigproc) (sig : Z) : Z :=
  if traced P then SIG_DFL
  else if has (p_sigmask S) (sigmask sig) then SIG_HOLD
  else if has (p_sigcatch S) (sigmask sig) then SIG_CATCH
  else SIG_DFL.
Definition is_stop (sig : Z) : bool := has (sigprop sig) SA_STOP.
Definition is_cont (sig : Z) : bool := has (sigprop sig) SA_CONT.

(** The signal is dropped: it is ignored, or it would stop a process of an
    orphaned group. *)
Definition dropped (P : proc) (S : sigproc) (orphan : bool) (sig : Z) : bool :=
  (negb (traced P) && has (p_sigignore S) (sigmask sig)) ||
  (is_stop sig && orphan && (action_of P S sig =? SIG_DFL)).

(** The pending set with the signal; stop signals and SIGCONT drive each other
    out. *)
Definition pend_set (sig m : Z) : Z :=
  Z.lor (if is_cont sig then andnot m stopsigmask else if is_stop sig then andnot m contsigmask else m) (sigmask sig).

(** The state of the process afterwards, and whether the signal has done its
    work and leaves the pending set. *)
Definition next_stat (P : proc) (T : thread) (sig action : Z) : Z :=
  if (action =? SIG_HOLD) && negb (is_cont sig && (p_stat P =? SSTOP)) then p_stat P
  else if p_stat P =? SSLEEP then
    if negb (has (p_flag P) SSINTR) then SSLEEP
    else if traced P then SRUN
    else if is_stop sig && (action =? SIG_DFL) then if has (p_flag P) SPPWAIT then SSLEEP else SSTOP
    else SRUN
  else if p_stat P =? SSTOP then
    if traced P then SSTOP
    else if sig =? SIGKILL then SRUN
    else if is_cont sig then if (action =? SIG_CATCH) || (p_wchan T =? 0) then SRUN else SSLEEP
    else SSTOP
  else p_stat P.

Definition done_at_once (P : proc) (sig action : Z) : bool :=
  negb ((action =? SIG_HOLD) && negb (is_cont sig && (p_stat P =? SSTOP))) && negb (traced P) &&
  (((p_stat P =? SSLEEP) && has (p_flag P) SSINTR && is_stop sig && (action =? SIG_DFL) && negb (has (p_flag P) SPPWAIT))
   || ((p_stat P =? SSTOP) && negb (sig =? SIGKILL) && (is_stop sig || (is_cont sig && (action =? SIG_DFL))))).
Definition next_pend (P : proc) (sig action m : Z) : Z :=
  if done_at_once P sig action then andnot (pend_set sig m) (sigmask sig) else pend_set sig m.

Definition orphan_group (w : sworld) (P : proc) : bool :=
  match p_pgrp P ≫= fun g => pgrps (pw (kw w)) !! g with Some G => pg_jobc G =? 0 | None => false end.

Lemma valid_cases (Q : Z -> Prop) : Forall Q (Z.of_nat <$> seq 1 31) -> forall sig, valid sig -> Q sig.
Proof.
  intros HF sig Hv. unfold valid, NSIG in Hv. rewrite list.Forall_forall in HF. apply HF. apply list_elem_of_fmap. exists (Z.to_nat sig).
  split; [lia|]. apply elem_of_seq. lia.
Qed.

(** The table of properties: a stop signal is not SIGCONT, and the test of
    SA_TTYSTOP is true of every stop signal. *)
Lemma sigprop_stop sig : valid sig -> (is_cont sig = true -> is_stop sig = false) /\ has (sigprop sig) SA_TTYSTOP = is_stop sig
  /\ (sig = SIGKILL -> is_stop sig = false /\ is_cont sig = false) /\ (is_cont sig = true <-> sig = SIGCONT).
Proof. revert sig. apply valid_cases. repeat constructor; try done; vm_compute; congruence. Qed.

Lemma pend_set_fits sig m : valid sig -> fits 31 m -> fits 31 (pend_set sig m).
Proof.
  intros Hv Hm. unfold valid, NSIG in Hv. unfold pend_set. apply fits_lor; [lia| |apply fits_sigmask; lia].
  destruct (is_cont sig); [by apply fits_andnot; [lia|]|]. destruct (is_stop sig); [by apply fits_andnot; [lia|]|done].
Qed.
Lemma next_pend_fits P sig action m : valid sig -> fits 31 m -> fits 31 (next_pend P sig action m).
Proof.
  intros Hv Hm. pose proof (pend_set_fits sig m Hv Hm). unfold next_pend. destruct (done_at_once _ _ _); [by apply fits_andnot; [lia|]|done].
Qed.

Definition niced (P : proc) (S : sigproc) (sig : Z) (T : thread) : thread :=
  if (NZERO <? p_nice T) && ((sig =? SIGKILL) || ((sig =? SIGTERM) && (traced P || negb (action_of P S sig =? SIG_DFL))))
  then Sleep.set_nice NZERO T else T.

Lemma psignal_pend_eq w p P T S sig : at_ w p P T S -> valid sig ->
  (is_stop sig = true -> exists g G, p_pgrp P = Some g /\ pgrps (pw (kw w)) !! g = Some G) ->
  let action := action_of P S sig in
  let k := set_thread p (niced P S sig T) (kw w) in
  psignal_pend p sig w = Ok (
    if dropped P S (orphan_group w P) sig then
      (None, if negb (traced P) && has (p_sigignore S) (sigmask sig) then w else set_kw k w)
    else (if (action =? SIG_HOLD) && negb (is_cont sig && (p_stat P =? SSTOP)) then None else Some action,
          mkSworld k (<[p := set_p_sig (pend_set sig (p_sig S)) S]> (sigs w)) (slog w))).
Proof.
  intros ((EP&ET)&ES) Hv Hg action k. destruct (sigprop_stop sig Hv) as (Hcs&Htty&_).
  unfold psignal_pend, dropped. rewrite (proc_of_eq p _ P EP), (sig_of_eq p w S ES). cbn [mbind outcome_bind].
  fold (traced P). destruct (negb (traced P) && has (p_sigignore S) (sigmask sig)); [done|]. cbn [orb].
  fold (action_of P S sig). fold action. unfold with_thread. rewrite (thread_of_eq p _ T ET). cbn [mret outcome_ret mbind outcome_bind].
  match goal with |- context [set_kw (set_thread p ?t (kw w)) w] => change t with (niced P S sig T) end.
  fold k. fold (is_cont sig) (is_stop sig). rewrite Htty.
  assert (forall w', sigs w' !! p = Some S -> forall f, with_sig p f w' = Ok (set_sigproc p (f S) w')) as Hws.
  { intros w' E f. unfold with_sig. by rewrite (sig_of_eq p w' S E). }
  assert (forall w' A B, set_sigproc p A (set_sigproc p B w') = set_sigproc p A w') as Htw.
  { intros w' A B. unfold set_sigproc. cbn. by rewrite insert_insert_eq. }
  assert (sigs (set_kw k w) !! p = Some S) as ESk by done.
  assert (forall m (w' : sworld), sigs w' !! p = Some (set_p_sig m S) -> forall f, with_sig p f w' = Ok (set_sigproc p (f (set_p_sig m S)) w')) as Hwm.
  { intros m w' E f. unfold with_sig. by rewrite (sig_of_eq p w' _ E). }
  unfold pend_set. destruct (is_cont sig) eqn:Ec.
  - rewrite Hcs by done. rewrite (Hws _ ESk). cbn [mret outcome_ret mbind outcome_bind andb].
    rewrite (Hwm (andnot (p_sig S) stopsigmask)) by apply lookup_insert_eq. cbn [mret outcome_ret mbind outcome_bind]. rewrite Htw.
    cbn [negb orb]. destruct (action =? SIG_HOLD), (p_stat P =? SSTOP); reflexivity.
  - cbn [mret outcome_ret mbind outcome_bind negb orb andb]. destruct (is_stop sig) eqn:Es.
    + destruct Hg as (g&G&Eg&EG); [done|]. unfold orphan_group. rewrite Eg. cbn [deref mbind outcome_bind option_bind].
      change (pw (kw (set_kw k w))) with (pw (kw w)). rewrite EG. cbn [deref mbind outcome_bind andb option_bind].
      destruct ((pg_jobc G =? 0) && (action =? SIG_DFL)); [reflexivity|]. rewrite (Hws _ ESk). cbn [mret outcome_ret mbind outcome_bind].
      rewrite (Hwm (andnot (p_sig S) contsigmask)) by apply lookup_insert_eq. cbn [mret outcome_ret mbind outcome_bind]. rewrite Htw.
      rewrite andb_true_r. destruct (action =? SIG_HOLD); reflexivity.
    + cbn [mret outcome_ret mbind outcome_bind andb]. rewrite (Hws _ ESk). cbn [mret outcome_ret mbind outcome_bind].
      rewrite andb_true_r. destruct (action =? SIG_HOLD); reflexivity.
Qed.

(** *** What becomes of the process *)

Lemma lift_eq f w k : f (kw w) = Ok k -> lift f w = Ok (set_kw k w).
Proof. unfold lift. by intros ->. Qed.

Lemma with_sig_eq p f w S : sigs w !! p = Some S -> with_sig p f w = Ok (set_sigproc p (f S) w).
Proof. intros E. unfold with_sig. by rewrite (sig_of_eq p w S E). Qed.
Lemma with_proc_eq p f w P : procs (pw (kw w)) !! p = Some P -> with_proc p f w = Ok (set_kw (set_proc p (f P) (kw w)) w).
Proof. intros E. unfold with_proc. by rewrite (proc_of_eq p _ P E). Qed.
Lemma with_thread_eq p f w T : threads (kw w) !! p = Some T -> with_thread p f w = Ok (set_kw (set_thread p (f T) (kw w)) w).
Proof. intros E. unfold with_thread. by rewrite (thread_of_eq p _ T E). Qed.

Lemma setrun_w w p P T S : base w -> at_ w p P T S -> runnable P -> curproc (kw w) <> Some p ->
  exists w' T', lift (setrun p) w = Ok w' /\ steps w w' /\ at_ w' p (set_p_stat SRUN P) T' S /\ sigs w' = sigs w
    /\ forall x, x <> p -> x <> proc0 (pw (kw w)) -> left_alone x w w'.
Proof.
  intros [HS Hsw Hd] (Hp&ES) Hr Hc. destruct (setrun_steps (kw w) p P T HS Hsw Hp Hr Hc) as (k&E&Hk&Ho&Hp').
  eexists _, _. split; [by apply lift_eq|]. split; [by apply steps_k|]. split; [by split|]. split; [done|].
  intros x ? ?. apply left_alone_k. by apply Ho.
Qed.

Lemma run_fast_w w p P T S : base w -> at_ w p P T S -> p_stat P = SSTOP \/ p_stat P = SSLEEP -> curproc (kw w) <> Some p ->
  exists w' T', run_fast p w = Ok w' /\ steps w w' /\ at_ w' p (set_p_stat SRUN P) T' S /\ sigs w' = sigs w
    /\ forall x, x <> p -> x <> proc0 (pw (kw w)) -> left_alone x w w'.
Proof.
  intros Hb ((EP&ET)&ES) Hs Hc. unfold run_fast. rewrite (with_thread_eq p _ w T ET). cbn [mbind outcome_bind].
  set (T1 := if _ : bool then _ else _). set (w1 := set_kw _ w).
  destruct (b_sq _ Hb) as (r&HSr). pose proof (sq_st _ _ HSr p P T EP ET) as Hok.
  assert (p_rlink T = false) as Hrl. { apply (not_queued _ _ _ Hok). by destruct Hs as [->| ->]. }
  assert (ksteps (kw w) (set_thread p T1 (kw w))) as Hk.
  { unfold T1. apply (ksteps_thread _ p P T); [by exists r|done|by destruct (_ <? _)|by destruct (_ <? _)|by rewrite Hrl|].
    intros c Hok'. destruct (PUSER <? p_pri T); [|done]. destruct Hok'. constructor; cbn; auto. done. }
  assert (at_ w1 p P T1 S) as Hat by (split; [split; [done|apply lookup_insert_eq]|done]).
  pose proof (steps_k w _ Hk) as Hst. fold w1 in Hst.
  destruct (setrun_w w1 p P T1 S (base_steps _ _ Hb Hst) Hat) as (w'&T'&E&Hst'&Hat'&Es&Ho);
    [unfold runnable; tauto|done|].
  exists w', T'. split; [done|]. split; [by eapply steps_trans|]. split; [done|]. split; [done|].
  intros x Hx H0. eapply left_alone_trans; [|by apply Ho]. apply left_alone_k. by apply kept_set_thread.
Qed.

(** The outcome of the second half of psignal, with the signal pending. *)
Record acted (p : loc) (P : proc) (T : thread) (S : sigproc) (sig action : Z) (alone : loc -> Prop) (w w' : sworld) : Prop := mkActed {
  ac_steps : steps w w';
  ac_at : exists P' T' S', at_ w' p P' T' S' /\ p_stat P' = next_stat P T sig action
    /\ p_sig S' = (if done_at_once P sig action then andnot (p_sig S) (sigmask sig) else p_sig S);
  ac_alone : forall x, x <> p -> x <> proc0 (pw (kw w)) -> alone x -> left_alone x w w';
}.

Lemma acted_same p P T S sig action alone w : base w -> at_ w p P T S -> next_stat P T sig action = p_stat P ->
  done_at_once P sig action = false -> acted p P T S sig action alone w w.
Proof.
  intros Hb Hat En Ed. constructor; [apply steps_refl, Hb| |by intros; apply left_alone_refl]. exists P, T, S. by rewrite Ed.
Qed.

Lemma acted_run p P T S sig action alone w w' T' : at_ w' p (set_p_stat SRUN P) T' S -> steps w w' ->
  (forall x, x <> p -> x <> proc0 (pw (kw w)) -> left_alone x w w') -> next_stat P T sig action = SRUN ->
  done_at_once P sig action = false -> acted p P T S sig action alone w w'.
Proof. intros Hat Hs Ho En Ed. constructor; [done| |auto]. eexists _, _, _. split; [exact Hat|]. by rewrite En, Ed. Qed.

Lemma steps_clear w p P T S m : base w -> at_ w p P T S -> let w' := set_sigproc p (set_p_sig (andnot (p_sig S) m) S) w in
  steps w w' /\ at_ w' p P T (set_p_sig (andnot (p_sig S) m) S).
Proof.
  intros Hb (Hp&ES) w'. split.
  - apply steps_sig; [apply Hb|done|]. intros Hf. by apply fits_andnot.
  - split; [done|apply lookup_insert_eq].
Qed.

(** The table on the stopped process, whatever the signal. *)
Lemma act_stopped post w p P T S sig action : base w -> at_ w p P T S -> valid sig -> p_stat P = SSTOP -> curproc (kw w) <> Some p ->
  (action =? SIG_HOLD) && negb (is_cont sig && (p_stat P =? SSTOP)) = false ->
  exists w', psignal_act post p sig action w = Ok w' /\ acted p P T S sig action (fun _ => True) w w'.
Proof.
  intros Hb Hat Hv Es Hc Hh. pose proof Hat as ((EP&ET)&ES). destruct (sigprop_stop sig Hv) as (Hcs&_&Hk&_).
  unfold psignal_act. rewrite (proc_of_eq p _ P EP), (thread_of_eq p _ T ET). cbn [mbind outcome_bind]. fold (is_stop sig) (is_cont sig) (traced P).
  assert (next_stat P T sig action = if traced P then SSTOP else if sig =? SIGKILL then SRUN
    else if is_cont sig then if (action =? SIG_CATCH) || (p_wchan T =? 0) then SRUN else SSLEEP else SSTOP) as En.
  { unfold next_stat. rewrite Hh, Es. reflexivity. }
  assert (done_at_once P sig action = negb (traced P) && negb (sig =? SIGKILL) && (is_stop sig || (is_cont sig && (action =? SIG_DFL)))) as Ed.
  { unfold done_at_once. rewrite Hh, Es. change (SSTOP =? SSLEEP) with false. change (SSTOP =? SSTOP) with true. cbn [andb orb negb]. by destruct (traced P), (sig =? SIGKILL). }
  rewrite Es in *. cbn [Z.eqb SSTOP SSLEEP Pos.eqb] in *. destruct (traced P).
  { exists w. split; [done|]. apply acted_same; [done|done|by rewrite En|by rewrite Ed]. }
  destruct (sig =? SIGKILL).
  { destruct (run_fast_w w p P T S Hb Hat) as (w'&T'&->&Hs&Hat'&_&Ho); [by left|done|]. exists w'. split; [done|].
    by eapply acted_run; [done|done|done|rewrite En|rewrite Ed]. }
  destruct (steps_clear w p P T S (sigmask sig) Hb Hat) as (Hs1&Hat1). set (w1 := set_sigproc _ _ w) in *.
  pose proof (base_steps _ _ Hb Hs1) as Hb1. set (S1 := set_p_sig _ S) in *.
  assert (forall x, x <> p -> left_alone x w w1) as Ho1 by (intros x Hx; by apply left_alone_sig).
  cbn [negb andb] in Ed. destruct (is_cont sig).
  - rewrite (Hcs eq_refl) in Ed. cbn in Ed.
    set (c := (if action =? SIG_DFL then with_sig p _ w else mret w)).
    set (w2 := if action =? SIG_DFL then w1 else w). set (S2 := if action =? SIG_DFL then S1 else S).
    assert (c = Ok w2) as -> by (unfold c, w2; destruct (action =? SIG_DFL); [by rewrite (with_sig_eq p _ w S ES)|done]).
    assert (base w2 /\ steps w w2 /\ at_ w2 p P T S2 /\ p_sig S2 = (if done_at_once P sig action then andnot (p_sig S) (sigmask sig) else p_sig S)
      /\ (forall x, x <> p -> left_alone x w w2) /\ kw w2 = kw w) as (Hb2&Hs2&Hat2&Ep2&Ho2&Ek2).
    { rewrite Ed. unfold w2, S2. destruct (action =? SIG_DFL); [done|].
      split; [done|]. split; [apply steps_refl, Hb|]. split; [done|]. split; [done|]. split; [intros; apply left_alone_refl|done]. }
    cbn [mbind outcome_bind]. clearbody w2 S2. rewrite <- Ek2 in Hc.
    assert (forall w3 T3, at_ w3 p (set_p_stat SRUN P) T3 S2 -> steps w2 w3 -> (forall x, x <> p -> x <> proc0 (pw (kw w2)) -> left_alone x w2 w3) ->
      next_stat P T sig action = SRUN -> acted p P T S sig action (fun _ => True) w w3) as Hfin.
    { intros w3 T3 Hat3 Hs3 Ho3 En3. constructor; [by eapply steps_trans| |].
      - eexists _, _, _. split; [exact Hat3|]. by rewrite En3.
      - intros x Hx H0 _. eapply left_alone_trans; [by apply Ho2|]. apply Ho3; [done|by rewrite Ek2]. }
    destruct (action =? SIG_CATCH); cbn [orb] in En.
    + destruct (run_fast_w w2 p P T S2 Hb2 Hat2) as (w3&T3&->&Hs3&Hat3&_&Ho3); [by left|done|]. exists w3. split; [done|]. by eapply Hfin.
    + destruct (Z.eqb_spec (p_wchan T) 0) as [Ew|Ew].
      * destruct (setrun_w w2 p P T S2 Hb2 Hat2) as (w3&T3&->&Hs3&Hat3&_&Ho3); [by left|done|]. exists w3. split; [done|]. by eapply Hfin.
      * destruct Hat2 as ((EP2&ET2)&ES2). rewrite (with_proc_eq p _ w2 P EP2). eexists. split; [reflexivity|].
        assert (ksteps (kw w2) (set_proc p (set_p_stat SSLEEP P) (kw w2))) as Hk3.
        { apply (ksteps_proc _ p P T); [apply Hb2|done|apply stat_place; by rewrite ?Es|by rewrite Es|done|].
          apply (Sq_stat _ p P T); try done; [apply Hb2|left; by rewrite Es|by right]. }
        constructor; [eapply steps_trans; [exact Hs2|by apply steps_k]| |].
        -- exists (set_p_stat SSLEEP P), T, S2. split; [split; [split; [apply lookup_insert_eq|done]|done]|]. by rewrite En.
        -- intros x Hx H0 _. eapply left_alone_trans; [by apply Ho2|]. apply left_alone_k. by apply kept_set_proc.
  - rewrite orb_false_r in Ed. destruct (is_stop sig).
    + rewrite (with_sig_eq p _ w S ES). exists w1. split; [done|]. constructor; [done| |by intros; apply Ho1].
      exists P, T, S1. split; [done|]. by rewrite En, Ed, Es.
    + destruct (negb (p_wchan T =? 0) && has (p_flag P) SSINTR).
      * destruct (b_sq _ Hb) as (r&HSr). destruct (unsleep_eq p (kw w) T (sq_slp _ _ HSr) ET) as (q&E&Hm).
        rewrite (lift_eq _ w _ E). eexists. split; [reflexivity|]. set (k := set_thread p _ _).
        assert (ksteps (kw w) k) as Hk'.
        { constructor; [by apply (Sq_unwait r p P T (kw w) k); rewrite ?Es|apply placed_refl|done| |by intros; eexists|by intros; eexists].
          intros x Y E'. cbn in E'. destruct (decide (x = p)) as [->|]; [rewrite lookup_insert_eq in E'; injection E' as <-; by left|].
          rewrite lookup_insert_ne in E' by done. right. by exists Y. }
        constructor; [by apply steps_k| |].
        -- exists P, (set_wchan 0 T), S. split; [split; [split; [done|apply lookup_insert_eq]|done]|]. by rewrite En, Ed, Es.
        -- intros x Hx H0 _. apply left_alone_k. intros X Y (EX&EY). split; [done|]. cbn. by rewrite lookup_insert_ne.
      * exists w. split; [done|]. apply acted_same; [done|done|by rewrite En, Es|by rewrite Ed].
Qed.

(** The process is stopped at once, out of its sleep. *)
Definition stops_now (P : proc) (sig action : Z) : bool :=
  (p_stat P =? SSLEEP) && has (p_flag P) SSINTR && negb (traced P) && is_stop sig && (action =? SIG_DFL)
  && negb (has (p_flag P) SPPWAIT).

(** Not concerned by the stop of a child of [P]'s parent. *)
Definition apart (P : proc) (w : sworld) (x : loc) : Prop := forall q, p_pptr P = Some q ->
  x <> q /\ forall Y, threads (kw w) !! x = Some Y -> p_wchan Y <> proc_addr q.

(** The process in the state of the stopped. *)
Definition halted (P : proc) : proc := set_p_flag (andnot (p_flag P) SWTED) (set_p_stat SSTOP P).

Lemma halt_Sq k p P T : Sq k -> in_proc k p P T -> p_stat P <> SRUN \/ curproc k = Some p -> Sq (set_proc p (halted P) k).
Proof. intros HS Hp Hr. apply (Sq_stat k p P T); [done|done|done|by apply has_clear|by apply has_clear|by left]. Qed.
Lemma halt_place P : p_stat P <> SZOMB -> same_place P (halted P).
Proof. intros Hz. by apply stat_place. Qed.

(** stop: the process is stopped and its parent woken from wait. *)
Lemma stop_ok w p P T S q : base w -> at_ w p P T S -> p_pptr P = Some q -> (p_stat P <> SRUN \/ curproc (kw w) = Some p) ->
  exists w' T', stop p w = Ok w' /\ steps (set_kw (set_proc p (halted P) (kw w)) w) w' /\ at_ w' p (halted P) T' S
    /\ (T' = T \/ T' = set_wchan 0 T) /\ sigs w' = sigs w
    /\ forall x, x <> p -> x <> proc0 (pw (kw w)) -> (forall Y, threads (kw w) !! x = Some Y -> p_wchan Y <> proc_addr q) ->
         left_alone x w w'.
Proof.
  intros Hb (Hp&ES) Eq Hr. pose proof Hp as (EP&ET). unfold stop. rewrite (with_proc_eq p _ w P EP). cbn [mbind outcome_bind].
  fold (halted P). set (P1 := halted P). set (k1 := set_proc p P1 (kw w)).
  assert (Sq k1) as HS1 by (apply (halt_Sq _ p P T); [apply Hb|done|done]).
  rewrite (proc_of_eq p _ P1) by apply lookup_insert_eq. cbn [mbind outcome_bind]. change (p_pptr P1) with (p_pptr P). rewrite Eq. cbn [deref mbind outcome_bind].
  destruct (wakeup_steps k1 (proc_addr q) (proc_addr_nz q) HS1) as (k2&b&E2&Hk2&Hw).
  assert (in_proc k1 p P1 T) as Hp1 by (split; [apply lookup_insert_eq|done]).
  assert (exists T', in_proc k2 p P1 T' /\ (T' = T \/ T' = set_wchan 0 T)) as (T'&Hp2&HT').
  { pose proof (wk_in _ _ _ Hw p P1 T Hp1) as Hx. destruct (_ && _); [|by exists T; auto]. exists (set_wchan 0 T). auto. }
  rewrite (lift_eq _ (set_kw k1 w) k2) by done. exists (set_kw k2 w), T'. split; [done|].
  split; [by apply (steps_k (set_kw k1 w))|]. split; [by split|]. split; [done|]. split; [done|].
  intros x Hx H0 HY. apply left_alone_k. intros X Y HX. assert (in_proc k1 x X Y) as HX1 by (by apply kept_set_proc).
  apply (wakes_not _ _ _ _ _ _ Hw HX1). left. rewrite !(hits_in _ _ _ _ _ HX1). apply orb_false_iff. split.
  - apply Z.eqb_neq, HY, HX.
  - apply andb_false_intro2, Z.eqb_neq. intros E. apply H0, (b_swap _ Hb x Y); [apply HX|done].
Qed.

(** The process that has the processor is running. *)
Definition cur_runs (w : sworld) (x : loc) : Prop :=
  curproc (kw w) = Some x -> forall X, procs (pw (kw w)) !! x = Some X -> p_stat X = SRUN.

(** What posting SIGCHLD to the parent has to do. *)
Definition tells (post : loc -> Z -> sworld -> outcome sworld) (q : loc) : Prop :=
  forall w, base w -> is_Some (procs (pw (kw w)) !! q) -> cur_runs w q ->
    exists w', post q SIGCHLD w = Ok w' /\ steps w w' /\ forall x, x <> q -> x <> proc0 (pw (kw w)) -> left_alone x w w'.

Lemma tell_parent_ok post w p P T S q : base w -> at_ w p P T S -> p_pptr P = Some q -> is_Some (procs (pw (kw w)) !! q) ->
  cur_runs w q -> tells post q ->
  exists w', tell_parent post p w = Ok w' /\ steps w w' /\ forall x, x <> q -> x <> proc0 (pw (kw w)) -> left_alone x w w'.
Proof.
  intros Hb ((EP&_)&_) Eq (Q&EQ) Hc Hpost. unfold tell_parent. rewrite (proc_of_eq p _ P EP). cbn [mbind outcome_bind].
  rewrite Eq. cbn [deref mbind outcome_bind]. rewrite (proc_of_eq q _ Q EQ). cbn [mbind outcome_bind].
  destruct (has (p_flag Q) SNOCLDSTOP); [|by apply Hpost; [|eexists|]].
  exists w. split; [done|]. split; [apply steps_refl, Hb|]. intros. apply left_alone_refl.
Qed.

Lemma steps_proc0 w w' : steps w w' -> proc0 (pw (kw w')) = proc0 (pw (kw w)).
Proof. intros [[_ [E _] _ _] _]. by rewrite E. Qed.
Lemma steps_cur w w' : steps w w' -> curproc (kw w') = curproc (kw w).
Proof. by intros [[] _]. Qed.
Lemma steps_alive w w' q : steps w w' -> is_Some (procs (pw (kw w)) !! q) -> is_Some (procs (pw (kw w')) !! q).
Proof. intros [[_ [_ Hp] _ _] _]. by apply (Forall2_Some _ _ _ (Hp q)). Qed.
Lemma left_alone_at x w w' P T S : left_alone x w w' -> at_ w x P T S -> at_ w' x P T S.
Proof. intros (Hk&Es) (Hp&ES). split; [by apply Hk|congruence]. Qed.

(** The stop of a process that sleeps. *)
Lemma act_stop post w p P T S sig q : base w -> at_ w p P T S -> valid sig -> p_stat P = SSLEEP -> curproc (kw w) <> Some p ->
  p_pptr P = Some q -> is_Some (procs (pw (kw w)) !! q) -> q <> p -> p <> proc0 (pw (kw w)) -> cur_runs w q -> tells post q ->
  exists w', (w ← with_sig p (fun S => set_p_sig (andnot (p_sig S) (sigmask sig)) S) w;
              w ← with_proc p (set_p_xstat sig) w; w ← tell_parent post p w; stop p w) = Ok w'
    /\ steps w w' /\ (exists P' T', at_ w' p P' T' (set_p_sig (andnot (p_sig S) (sigmask sig)) S) /\ p_stat P' = SSTOP /\ p_xstat P' = u16 sig)
    /\ forall x, x <> p -> x <> proc0 (pw (kw w)) -> apart P w x -> left_alone x w w'.
Proof.
  intros Hb Hat Hv Es Hc Eq Hq Hqp Hp0 Hcq Hpost. pose proof Hat as ((EP&ET)&ES).
  destruct (steps_clear w p P T S (sigmask sig) Hb Hat) as (Hs1&Hat1).
  rewrite (with_sig_eq p _ w S ES). cbn [mbind outcome_bind]. set (w1 := set_sigproc _ _ w) in *. set (S1 := set_p_sig _ S) in *.
  pose proof (base_steps _ _ Hb Hs1) as Hb1. rewrite (with_proc_eq p _ w1 P) by apply Hat1. cbn [mbind outcome_bind].
  set (P2 := set_p_xstat sig P). set (k2 := set_proc p P2 (kw w1)). set (w2 := set_kw k2 w1).
  assert (Hk2 : ksteps (kw w1) k2).
  { apply (ksteps_proc (kw w1) p P T); [apply Hb1|apply Hat1|apply stat_place; cbn; by rewrite ?Es|done|done|].
    by apply (Sq_proc (kw w1) p P T); [apply Hb1|apply Hat1|]. }
  pose proof (steps_k w1 k2 Hk2) as Hs2. fold w2 in Hs2. pose proof (base_steps _ _ Hb1 Hs2) as Hb2.
  assert (Hat2 : at_ w2 p P2 T S1) by (split; [split; [apply lookup_insert_eq|apply Hat1]|apply Hat1]).
  assert (Hq2 : is_Some (procs (pw (kw w2)) !! q)) by (eapply steps_alive; [exact Hs2|]; by eapply steps_alive).
  assert (Hcq2 : cur_runs w2 q).
  { intros E X EX. apply (Hcq E). cbn in EX. by rewrite lookup_insert_ne in EX. }
  destruct (tell_parent_ok post w2 p P2 T S1 q Hb2 Hat2 Eq Hq2 Hcq2 Hpost) as (w3&->&Hs3&Ho3). cbn [mbind outcome_bind].
  pose proof (base_steps _ _ Hb2 Hs3) as Hb3. assert (Hat3 : at_ w3 p P2 T S1) by (by apply (left_alone_at p w2 w3); [apply Ho3|]).
  destruct (stop_ok w3 p P2 T S1 q Hb3 Hat3 Eq) as (w4&T4&->&Hs4&Hat4&_&_&Ho4); [left; cbn; by rewrite Es|].
  assert (Hs34 : steps w3 (set_kw (set_proc p (halted P2) (kw w3)) w3)).
  { apply steps_k. apply (ksteps_proc _ p P2 T); [apply Hb3|apply Hat3|apply halt_place; cbn; by rewrite Es|cbn; by rewrite Es|by intros b Hb'; apply has_clear|].
    apply (halt_Sq _ p P2 T); [apply Hb3|apply Hat3|left; cbn; by rewrite Es]. }
  exists w4. split; [done|]. split; [do 4 (eapply steps_trans; [eassumption|]); exact Hs4|]. split; [eexists _, _; by split|].
  intros x Hx H0 Hap. destruct (Hap q Eq) as (Hxq&HY).
  eapply left_alone_trans; [by apply (left_alone_sig x p S1 w)|]. eapply left_alone_trans; [by apply (left_alone_k x w1 k2), kept_set_proc|].
  pose proof (Ho3 x Hxq H0) as Hx3. eapply left_alone_trans; [exact Hx3|]. apply Ho4; [done| |].
  - by rewrite (steps_proc0 _ _ Hs3).
  - intros Y EY. destruct (ks_wchan _ _ (st_k _ _ Hs3) x Y EY) as [->|(Y0&EY0&->)]; [intros E; by apply (proc_addr_nz q)|by apply HY].
Qed.

(** The second half of psignal does what the table says. *)
Lemma act_ok post w p P T S sig action : base w -> at_ w p P T S -> valid sig ->
  (curproc (kw w) = Some p -> p_stat P = SRUN) ->
  (action =? SIG_HOLD) && negb (is_cont sig && (p_stat P =? SSTOP)) = false ->
  (stops_now P sig action = true -> p <> proc0 (pw (kw w)) /\ exists q, p_pptr P = Some q /\ q <> p /\ is_Some (procs (pw (kw w)) !! q)
     /\ cur_runs w q /\ tells post q) ->
  exists w', psignal_act post p sig action w = Ok w'
    /\ acted p P T S sig action (fun x => stops_now P sig action = true -> apart P w x) w w'.
Proof.
  intros Hb Hat Hv Hc Hh Hst. pose proof Hat as ((EP&ET)&ES).
  destruct (Z.eq_dec (p_stat P) SSTOP) as [Es|Hns].
  { destruct (act_stopped post w p P T S sig action Hb Hat Hv Es) as (w'&E&[Hs Ha Ho]); [|done|].
    - intros E. rewrite Hc in Es; done.
    - exists w'. split; [done|]. constructor; [done..|]. intros; by apply Ho. }
  unfold psignal_act. rewrite (proc_of_eq p _ P EP), (thread_of_eq p _ T ET). cbn [mbind outcome_bind]. fold (is_stop sig) (is_cont sig) (traced P).
  destruct (Z.eqb_spec (p_stat P) SSLEEP) as [Es|Hnl].
  - assert (curproc (kw w) <> Some p) as Hcp by (intros E; rewrite Hc in Es; done).
    assert (En : next_stat P T sig action = if negb (has (p_flag P) SSINTR) then SSLEEP else if traced P then SRUN
      else if is_stop sig && (action =? SIG_DFL) then if has (p_flag P) SPPWAIT then SSLEEP else SSTOP else SRUN).
    { unfold next_stat. rewrite Hh, Es. reflexivity. }
    assert (Ed : done_at_once P sig action = stops_now P sig action).
    { unfold done_at_once, stops_now. rewrite Hh, Es. change (SSLEEP =? SSLEEP) with true. change (SSLEEP =? SSTOP) with false.
      cbn [andb orb negb]. rewrite orb_false_r. by destruct (traced P), (has (p_flag P) SSINTR), (is_stop sig). }
    unfold stops_now in *. rewrite Es in *. change (SSLEEP =? SSLEEP) with true in *. cbn [andb] in *.
    destruct (has (p_flag P) SSINTR); cbn [negb andb] in *.
    2: { exists w. split; [done|]. apply acted_same; [done|done|by rewrite Es|done]. }
    destruct (traced P); cbn [negb andb] in *.
    { destruct (setrun_w w p P T S Hb Hat) as (w'&T'&->&Hs&Hat'&_&Ho); [by right; left|done|]. exists w'. split; [done|].
      eapply acted_run; [done|done|by intros; apply Ho|done|done]. }
    destruct (is_stop sig) eqn:Eis; cbn [andb] in *.
    2: { destruct (run_fast_w w p P T S Hb Hat) as (w'&T'&->&Hs&Hat'&_&Ho); [by right|done|]. exists w'. split; [done|].
         eapply acted_run; [done|done|by intros; apply Ho|done|done]. }
    destruct (action =? SIG_DFL); cbn [negb andb] in *.
    2: { destruct (run_fast_w w p P T S Hb Hat) as (w'&T'&->&Hs&Hat'&_&Ho); [by right|done|]. exists w'. split; [done|].
         eapply acted_run; [done|done|by intros; apply Ho|done|done]. }
    destruct (has (p_flag P) SPPWAIT); cbn [negb] in *.
    { exists w. split; [done|]. apply acted_same; [done|done|by rewrite Es|done]. }
    destruct (Hst eq_refl) as (Hp0&q&Eq&Hqp&Hq&Hcq&Hpost).
    destruct (act_stop post w p P T S sig q Hb Hat Hv Es Hcp Eq Hq Hqp Hp0 Hcq Hpost) as (w'&->&Hs&(P'&T'&Hat'&Es'&_)&Ho).
    exists w'. split; [done|]. constructor; [done| |intros x Hx H0 Ha; by apply Ho; [..|apply Ha]].
    eexists _, _, _. split; [exact Hat'|]. rewrite En, Ed. by split.
  - rewrite (proj2 (Z.eqb_neq (p_stat P) SSTOP) Hns).
    assert (next_stat P T sig action = p_stat P) as En.
    { unfold next_stat. rewrite (proj2 (Z.eqb_neq _ _) Hns), (proj2 (Z.eqb_neq _ _) Hnl). by case_if. }
    assert (done_at_once P sig action = false) as Ed.
    { unfold done_at_once. rewrite (proj2 (Z.eqb_neq _ _) Hns), (proj2 (Z.eqb_neq _ _) Hnl). cbn. by rewrite andb_false_r. }
    destruct (decide (curproc (kw w) = Some p)) as [E|E].
    + eexists. split; [reflexivity|].
      assert (ksteps (kw w) (aston (kw w))) as Hk.
      { constructor; [by apply (Sq_ext (kw w)); [apply Hb|..]|apply placed_refl|done| |by intros; eexists|by intros; eexists]. intros x Y EY. right. by exists Y. }
      constructor; [by apply steps_k| |intros; apply left_alone_k; by intros X Y]. exists P, T, S. by rewrite En, Ed.
    + exists w. split; [done|]. by apply acted_same.
Qed.

(** *** psignal *)

Lemma niced_fields P S sig T : p_pri (niced P S sig T) = p_pri T /\ p_wchan (niced P S sig T) = p_wchan T
  /\ p_rlink (niced P S sig T) = p_rlink T /\ forall c Q, thread_ok c Q T -> thread_ok c Q (niced P S sig T).
Proof. unfold niced. case_if; [|done]. do 3 (split; [done|]). intros c Q []. by constructor. Qed.

Lemma niced_steps w p P T S sig : base w -> at_ w p P T S -> let w1 := set_kw (set_thread p (niced P S sig T) (kw w)) w in
  steps w w1 /\ at_ w1 p P (niced P S sig T) S /\ forall x, x <> p -> left_alone x w w1.
Proof.
  intros Hb ((EP&ET)&ES) w1. destruct (niced_fields P S sig T) as (Ep&Ew&Er&Hok). split; [|split].
  - apply steps_k. apply (ksteps_thread _ p P T); [apply Hb|done|done|done|done|auto].
  - split; [split; [done|apply lookup_insert_eq]|done].
  - intros x Hx. apply left_alone_k. by apply kept_set_thread.
Qed.

(** What psignal comes to, by the table. *)
Record posted (p : loc) (P : proc) (T : thread) (S : sigproc) (sig : Z) (w w' : sworld) : Prop := mkPosted {
  po_steps : steps w w';
  po_at : exists P' T' S', at_ w' p P' T' S' /\
    (p_stat P', p_sig S') =
      (if dropped P S (orphan_group w P) sig then (p_stat P, p_sig S)
       else (next_stat P T sig (action_of P S sig), next_pend P sig (action_of P S sig) (p_sig S)));
  po_alone : forall x, x <> p -> x <> proc0 (pw (kw w)) ->
    (stops_now P sig (action_of P S sig) = true -> apart P w x) -> left_alone x w w';
}.

(** The group that psignal looks at. *)
Definition has_group (w : sworld) (P : proc) : Prop := exists g G, p_pgrp P = Some g /\ pgrps (pw (kw w)) !! g = Some G.

Lemma psignal_S_ok n w p P T S sig : base w -> at_ w p P T S -> valid sig -> (is_stop sig = true -> has_group w P) ->
  (curproc (kw w) = Some p -> p_stat P = SRUN) ->
  (stops_now P sig (action_of P S sig) = true -> p <> proc0 (pw (kw w)) /\ exists q, p_pptr P = Some q /\ q <> p
     /\ is_Some (procs (pw (kw w)) !! q) /\ cur_runs w q /\ tells (psignal_n n) q) ->
  exists w', psignal_n (Datatypes.S n) p sig w = Ok w' /\ posted p P T S sig w w'.
Proof.
  intros Hb Hat Hv Hg Hc Hst. set (action := action_of P S sig) in *.
  assert ((sig <=? 0) || (NSIG <=? sig) = false) as Er by (unfold valid in Hv; apply orb_false_iff; lia).
  destruct (niced_steps w p P T S sig Hb Hat) as (Hs1&Hat1&Ho1). set (w1 := set_kw _ w) in *. pose proof (base_steps _ _ Hb Hs1) as Hb1.
  cbn [psignal_n]. rewrite Er, (psignal_pend_eq w p P T S sig Hat Hv Hg). fold action.
  destruct (dropped P S (orphan_group w P) sig) eqn:Ed; cbn [mbind outcome_bind].
  { destruct (_ && has (p_sigignore S) (sigmask sig)).
    - exists w. split; [done|]. constructor; [apply steps_refl, Hb| |by intros; apply left_alone_refl]. exists P, T, S. by rewrite Ed.
    - fold w1. exists w1. split; [done|]. constructor; [done| |auto]. exists P, (niced P S sig T), S. by rewrite Ed. }
  set (S2 := set_p_sig (pend_set sig (p_sig S)) S). set (w2 := mkSworld _ _ _).
  assert (Hs2 : steps w1 w2).
  { apply (steps_sig w1 p S (pend_set sig (p_sig S))); [apply Hb1|apply Hat1|]. intros Hf. by apply pend_set_fits. }
  assert (Hat2 : at_ w2 p P (niced P S sig T) S2) by (split; [apply Hat1|apply lookup_insert_eq]).
  assert (Ho2 : forall x, x <> p -> left_alone x w w2).
  { intros x Hx. eapply left_alone_trans; [by apply Ho1|]. by apply (left_alone_sig x p S2 w1). }
  pose proof (base_steps _ _ Hb1 Hs2) as Hb2. assert (Hs12 : steps w w2) by (by eapply steps_trans).
  destruct (niced_fields P S sig T) as (_&Ewc&_).
  assert (En : next_stat P (niced P S sig T) sig action = next_stat P T sig action) by (unfold next_stat; by rewrite Ewc).
  destruct ((action =? SIG_HOLD) && _) eqn:Eh; cbn [mbind outcome_bind].
  - exists w2. split; [done|]. constructor; [done| |auto]. exists P, (niced P S sig T), S2. split; [done|]. rewrite Ed. fold action.
    unfold next_stat, next_pend, done_at_once. by rewrite Eh.
  - destruct (act_ok (psignal_n n) w2 p P _ S2 sig action Hb2 Hat2 Hv) as (w'&->&[Hs3 (P'&T'&S'&Hat'&E1&E2) Ho3]); [done|done|exact Hst|].
    exists w'. split; [done|]. constructor; [by eapply steps_trans| |].
    + exists P', T', S'. split; [done|]. rewrite Ed. fold action. rewrite E1, E2, En. unfold next_pend. done.
    + intros x Hx H0 Ha. eapply left_alone_trans; [by apply Ho2|]. apply Ho3; [done|done|]. intros E q Eq. destruct (Ha E q Eq) as (?&HY).
      split; [done|]. intros Y EY. cbn in EY. rewrite lookup_insert_ne in EY by done. by apply HY.
Qed.

(** SIGCHLD stops nobody. *)
Lemma tells_psignal n q : tells (psignal_n (Datatypes.S n)) q.
Proof.
  intros w Hb (Q&EQ) Hc. destruct (base_at w q Q Hb EQ) as (T&S&Hat).
  destruct (psignal_S_ok n w q Q T S SIGCHLD Hb Hat) as (w'&E&[Hs _ Ho]); [done|done|intros E; by apply Hc|..].
  - unfold stops_now. change (is_stop SIGCHLD) with false. by rewrite andb_false_r.
  - exists w'. split; [done|]. split; [done|]. intros x Hx H0. apply Ho; [done|done|].
    unfold stops_now. change (is_stop SIGCHLD) with false. by rewrite andb_false_r.
Qed.

(** The parent that is told of a stop. *)
Definition has_parent (w : sworld) (p : loc) (P : proc) : Prop :=
  p <> proc0 (pw (kw w)) /\ exists q, p_pptr P = Some q /\ q <> p /\ is_Some (procs (pw (kw w)) !! q)
    /\ cur_runs w q.


Lemma psignal_ok w p P T S sig : base w -> at_ w p P T S -> valid sig -> (is_stop sig = true -> has_group w P) ->
  (curproc (kw w) = Some p -> p_stat P = SRUN) -> (stops_now P sig (action_of P S sig) = true -> has_parent w p P) ->
  exists w', psignal p sig w = Ok w' /\ posted p P T S sig w w'.
Proof.
  intros Hb Hat Hv Hg Hc Hst. apply psignal_S_ok; try done. intros E. destruct (Hst E) as (?&q&?&?&?&?).
  split; [done|]. exists q. split_and!; [done..|]. apply tells_psignal.
Qed.

End Post.
