(* ===== verification/SignalTake.v ===== *)
(** * Signals: taking them, and the state of the whole system *)

From S2P Require Import Prelude Pgrp PgrpInv Exit Life Sleep SleepInv SleepCalls Signal SignalInv SignalPost.

(** ** How many signals are pending *)

Definition all_sigs : list Z := Z.of_nat <$> seq 1 31.
Definition count (m : Z) : nat := length (filter (fun s => mem m s = true) all_sigs).

Lemma elem_all_sigs s : s ∈ all_sigs <-> valid s.
Proof.
  unfold all_sigs, valid, NSIG. rewrite list_elem_of_fmap. split.
  - intros (n&->&Hn%elem_of_seq). lia.
  - intros Hs. exists (Z.to_nat s). rewrite elem_of_seq. lia.
Qed.

Lemma count_le m : (count m <= 31)%nat.
Proof. unfold count. etransitivity; [apply length_filter|]. by vm_compute. Qed.

Lemma filter_length_le (f g : Z -> bool) l : (forall y, y ∈ l -> f y = true -> g y = true) ->
  (length (filter (fun s => f s = true) l) <= length (filter (fun s => g s = true) l))%nat.
Proof.
  intros Hfg. induction l as [|y l IH]; [done|]. assert (forall z, z ∈ l -> f z = true -> g z = true) as H' by (intros z Hz; apply Hfg; by right).
  specialize (IH H'). specialize (Hfg y). rewrite !filter_cons. repeat case_decide; cbn; try lia. destruct Hfg; [by left|done..].
Qed.

Lemma filter_length_lt (f g : Z -> bool) l x : (forall y, y ∈ l -> f y = true -> g y = true) -> x ∈ l -> g x = true -> f x = false ->
  (length (filter (fun s => f s = true) l) < length (filter (fun s => g s = true) l))%nat.
Proof.
  intros Hfg Hx Hg Hf. induction l as [|y l IH]; [by apply not_elem_of_nil in Hx|].
  assert (forall z, z ∈ l -> f z = true -> g z = true) as H' by (intros z Hz; apply Hfg; by right).
  pose proof (filter_length_le f g l H'). rewrite !filter_cons. apply elem_of_cons in Hx as [->|Hx].
  - rewrite decide_False, decide_True by congruence. cbn. lia.
  - specialize (IH H' Hx). specialize (Hfg y). repeat case_decide; cbn; try lia. destruct Hfg; [by left|done..].
Qed.

Lemma count_lt m m' sig : valid sig -> mem m sig = true -> mem m' sig = false -> (forall s, valid s -> mem m' s = true -> mem m s = true) ->
  (count m' < count m)%nat.
Proof.
  intros Hv Hm Hm' Hs. apply (filter_length_lt (mem m') (mem m) _ sig); [|by apply elem_all_sigs|done|done].
  intros y Hy. apply Hs. by apply elem_all_sigs.
Qed.

Lemma has_comm a b : has a b = has b a.
Proof. unfold has. by rewrite Z.land_comm. Qed.

(** ** The state of the system *)

(** The invariant, but for what is on the processor. *)
Record core `{Layout} (w : sworld) : Prop := mkCore {
  co_base : base w;
  co_inv : Inv (pw (kw w));
  co_sig : forall p S, sigs w !! p = Some S -> sig_ok S;
}.

(** The process on the processor is running, and waits for nothing. *)
Definition awake (k : kworld) : Prop :=
  forall p P T, curproc k = Some p -> in_proc k p P T -> p_stat P = SRUN /\ p_wchan T = 0.

Section Take.
Context `{Layout}.

Lemma core_steps w w' : core w -> steps w w' -> core w'.
Proof.
  intros [Hb HI Hs] Hst. constructor; [by eapply base_steps|by eapply Inv_placed; [|apply Hst]|].
  intros p S' E. pose proof (st_sigs _ _ Hst p) as Hp. rewrite E in Hp. inversion Hp as [S ? (Hf&->) E0|]; subst.
  specialize (Hs p S (eq_sym E0)). apply sig_ok_pend; [done|]. apply Hf, Hs.
Qed.

(** The pid and the lasting flags of a process. *)
Lemma steps_same w w' p P : steps w w' -> procs (pw (kw w)) !! p = Some P ->
  exists P', procs (pw (kw w')) !! p = Some P' /\ p_pid P' = p_pid P /\ same_flags P P'.
Proof.
  intros Hst EP. destruct (ks_flags _ _ (st_k _ _ Hst) p P EP) as (P'&EP'&Hf). exists P'. split; [done|]. split; [|exact Hf].
  pose proof (pl_procs _ _ (ks_place _ _ (st_k _ _ Hst)) p) as Hp. rewrite EP, EP' in Hp. inversion Hp as [? ? Hs|]. apply Hs.
Qed.

Lemma steps_orphan w w' P : steps w w' -> orphan_group w' P = orphan_group w P.
Proof. intros Hst. unfold orphan_group. by rewrite (pl_frame _ _ (ks_place _ _ (st_k _ _ Hst))). Qed.

Lemma steps_awake w w' : core w -> awake (kw w) -> steps w w' -> awake (kw w').
Proof.
  intros Hc Ha Hst p P' T' Ec Hp. pose proof (steps_cur _ _ Hst) as Ec'. rewrite Ec in Ec'. symmetry in Ec'.
  pose proof (pl_procs _ _ (ks_place _ _ (st_k _ _ Hst)) p) as Hpl. destruct Hp as (EP'&ET'). rewrite EP' in Hpl.
  inversion Hpl as [P ? _ E0|]; subst. symmetry in E0. destruct (base_at w p P (co_base _ Hc) E0) as (T&S&Hp&_).
  destruct (Ha p P T Ec' Hp) as (Hr&Hw). split.
  - destruct (ks_run _ _ (st_k _ _ Hst) p P E0 Hr) as (X&EX&?). congruence.
  - destruct (ks_wchan _ _ (st_k _ _ Hst) p T' ET') as [|(Y&EY&->)]; [done|]. destruct Hp as (_&ET). congruence.
Qed.

(** Every process but process 0 has a parent, another one, that is alive. *)
Lemma tree_no_loop w p : Inv w -> ppof w p = Some p -> is_Some (procs w !! p) -> p = proc0 w.
Proof.
  intros HI Hpp (P&EP). pose proof (to_reach w (inv_tree w HI) p P EP) as Hr. remember (proc0 w) as z eqn:Ez. clear Ez.
  induction Hr as [|x y z Hxy Hr IH]; [done|]. rewrite Hpp in Hxy. injection Hxy as <-. by apply IH.
Qed.

Lemma core_parent w p P : core w -> procs (pw (kw w)) !! p = Some P -> p <> proc0 (pw (kw w)) ->
  exists q Q, p_pptr P = Some q /\ q <> p /\ procs (pw (kw w)) !! q = Some Q /\ p_stat Q <> SZOMB.
Proof.
  intros Hc EP Hp. pose proof (co_inv _ Hc) as HI. destruct (to_parent _ (inv_tree _ HI) p P EP Hp) as (q&Q&Eq&EQ&Hz&_).
  exists q, Q. split; [done|]. split; [|done]. intros ->. apply Hp, tree_no_loop; [done| |by eexists].
  unfold ppof. rewrite EP. done.
Qed.

Lemma core_group w p P : core w -> procs (pw (kw w)) !! p = Some P -> has_group w P.
Proof.
  intros Hc EP. destruct (go_group _ _ _ (inv_groups _ (co_inv _ Hc)) p P EP ltac:(done)) as (g&G&?&?&_). by exists g, G.
Qed.

Lemma core_at w p P : core w -> procs (pw (kw w)) !! p = Some P -> exists T S, at_ w p P T S /\ sig_ok S.
Proof.
  intros Hc EP. destruct (base_at w p P (co_base _ Hc) EP) as (T&S&Hat). exists T, S. split; [done|]. by apply (co_sig _ Hc p), Hat.
Qed.

(** A signal posted to any process but process 0. *)
Lemma post_ok w p P T S sig : core w -> (forall q, cur_runs w q) -> at_ w p P T S -> valid sig -> p <> proc0 (pw (kw w)) ->
  exists w', psignal p sig w = Ok w' /\ posted p P T S sig w w'.
Proof.
  intros Hc Hcr Hat Hv Hp. pose proof Hat as ((EP&ET)&ES). apply psignal_ok; [apply Hc|done|done| | |].
  - intros _. by eapply core_group.
  - intros E. by apply (Hcr p).
  - intros _. destruct (core_parent w p P Hc EP Hp) as (q&Q&?&?&?&?). split; [done|]. exists q. split_and!; [done..|by eexists|apply Hcr].
Qed.

Lemma awake_cur_runs w q : core w -> awake (kw w) -> cur_runs w q.
Proof.
  intros Hc Ha E X EX. destruct (core_at w q X Hc EX) as (T&S&(Hin&_)&_). by apply (Ha q X T E Hin).
Qed.

(** *** Giving up the processor *)

Lemma Sq_off k p P T : Sq k -> curproc k = Some p -> in_proc k p P T -> p_stat P = SSTOP -> Sq (set_curproc None k).
Proof.
  intros (r&HS) Hc (EP&ET) Es. pose proof (sq_st _ _ HS p P T EP ET) as Hok.
  assert (p_rlink T = false) as Hr by (apply (not_queued _ _ _ Hok); by rewrite Es).
  destruct (Sq_change_gen r p P T P T k (set_curproc None k) HS EP ET) as (r'&?&_);
    [cbn; by rewrite insert_id|cbn; by rewrite insert_id| |done|by apply moves_wait|by apply rm_same; [..|rewrite Hr]|done| |by exists r'].
  - intros x Hx. cbn. rewrite Hc. split; [done|]. intros [= ->]. done.
  - destruct Hok. constructor; cbn; try done; rewrite ?Es; try done; auto. by rewrite Hr.
Qed.

Lemma swtch_core w : core w -> Sq (set_curproc None (kw w)) -> exists k', swtch (kw w) = Ok k' /\ core (set_kw k' w) /\ awake k'
  /\ pw k' = pw (kw w) /\ switched (kw w) k'.
Proof.
  intros [[HS Hsw Hd] HI Hs] HS0. destruct (swtch_ok (kw w) HS0) as (k'&E&HS'&Ew&_&_&_&_&Hx). exists k'. split; [done|].
  split; [constructor; [constructor; [done| |]| |done]|split; [|by split]].
  - intros x Y EY Ewc. cbn [kw set_kw] in *. rewrite Ew in *. unfold switched in Hx. destruct (curproc k') as [q|].
    + destruct Hx as (P&T&(EP&ET)&_&Et&_). rewrite Et in EY. destruct (decide (x = q)) as [->|].
      * rewrite lookup_insert_eq in EY. injection EY as <-. by apply (Hsw q T).
      * rewrite lookup_insert_ne in EY by done. by apply (Hsw x Y).
    + destruct Hx as (Et&_). rewrite Et in EY. by apply (Hsw x Y).
  - intros q. cbn [kw set_kw sigs]. rewrite Ew. apply Hd.
  - cbn. by rewrite Ew.
  - intros p P T Ec (EP&ET). unfold switched in Hx. rewrite Ec in Hx. destruct Hx as (P1&T1&(EP1&ET1)&Hr&Et&_).
    destruct HS0 as (r&HS0). pose proof (sq_st _ _ HS0 p P1 T1 EP1 ET1) as Hok. destruct (th_queued _ _ _ Hok Hr) as (Es&Hnc&_).
    rewrite Ew in EP. rewrite Et, lookup_insert_eq in ET. simplify_eq. split; [done|]. cbn.
    destruct (Z.eq_dec (p_wchan T1) 0) as [|Hn]; [done|]. destruct (th_waits _ _ _ Hok Hn) as [E1|[E1|(E1&_)]]; [by rewrite Es in E1..|done].
Qed.

(** *** Stopping oneself *)

(** The process [p] is stopped, and another one, if any, has the processor. *)
Definition gave_up (p : loc) (w' : sworld) : Prop :=
  core w' /\ awake (kw w') /\ curproc (kw w') <> Some p /\ exists P' T' S', at_ w' p P' T' S' /\ p_stat P' = SSTOP.

Lemma core_proc w p P T S P' : core w -> at_ w p P T S -> same_place P P' -> Sq (set_proc p P' (kw w)) ->
  core (set_kw (set_proc p P' (kw w)) w).
Proof.
  intros [[HS Hsw Hd] HI Hs] ((EP&ET)&ES) Hp HS'. constructor; [constructor; [done|done|]| |done].
  - intros q. cbn. rewrite Hd. destruct (decide (q = p)) as [->|]; [|by rewrite lookup_insert_ne].
    rewrite lookup_insert_eq, EP. split; by eexists.
  - cbn. apply (Inv_placed (pw (kw w))); [done|]. by apply (placed_put _ p P).
Qed.

Lemma swtch_stopped w p P T S : core w -> curproc (kw w) = Some p -> at_ w p P T S -> p_stat P = SSTOP ->
  exists w', lift swtch w = Ok w' /\ gave_up p w'.
Proof.
  intros Hc Ec Hat Es. pose proof Hat as (Hp&ES). pose proof (b_sq _ (co_base _ Hc)) as HS.
  destruct (swtch_core w Hc) as (k'&E&Hc'&Ha'&Ew&Hx); [by apply (Sq_off _ p P T)|].
  rewrite (lift_eq _ w k' E). eexists. split; [reflexivity|]. split; [done|]. split; [done|].
  assert (curproc k' <> Some p) as Hne.
  { intros E'. unfold switched in Hx. rewrite E' in Hx. destruct Hx as (P1&T1&(EP1&ET1)&Hr&_). destruct Hp as (EP&ET). simplify_eq.
    destruct HS as (r&HS). pose proof (sq_st _ _ HS p P T EP ET) as Hok. destruct (th_queued _ _ _ Hok Hr) as (E1&_). by rewrite Es in E1. }
  split; [done|]. pose proof (switched_in (kw w) k' p P T Ew Hx Hp) as Hp'. rewrite decide_False in Hp' by done. exists P, T, S. by split.
Qed.

Lemma stop_self w p P T S : core w -> curproc (kw w) = Some p -> at_ w p P T S -> p <> proc0 (pw (kw w)) -> p_stat P = SRUN ->
  exists w' T', stop p w = Ok w' /\ core w' /\ curproc (kw w') = Some p /\ at_ w' p (halted P) T' S /\ proc0 (pw (kw w')) = proc0 (pw (kw w)).
Proof.
  intros Hc Ec Hat Hp Es. pose proof Hat as ((EP&ET)&ES). destruct (core_parent w p P Hc EP Hp) as (q&Q&Eq&_).
  destruct (stop_ok w p P T S q (co_base _ Hc) Hat Eq) as (w'&T'&E&Hs&Hat'&_); [by right|].
  assert (core (set_kw (set_proc p (halted P) (kw w)) w)) as Hc1.
  { apply (core_proc w p P T S); [done|done|apply halt_place; by rewrite Es|apply (halt_Sq _ p P T); [apply Hc|done|by right]]. }
  exists w', T'. split; [done|]. split; [by eapply core_steps|]. split; [by rewrite (steps_cur _ _ Hs)|]. split; [done|].
  by rewrite (steps_proc0 _ _ Hs).
Qed.

(** The status of the stop, and SIGCHLD to the parent, of the current process. *)
Lemma xstat_ok w p P T S sig : core w -> at_ w p P T S -> let w1 := set_kw (set_proc p (set_p_xstat sig P) (kw w)) w in
  core w1 /\ at_ w1 p (set_p_xstat sig P) T S.
Proof.
  intros Hc Hat w1. pose proof Hat as (Hp&ES). split; [|split; [split; [apply lookup_insert_eq|apply Hp]|done]].
  apply (core_proc w p P T S); [done|done|by unfold same_place|]. by apply (Sq_proc _ p P T); [apply Hc|..].
Qed.

Lemma post_parent_ok w p P T S q Q : core w -> curproc (kw w) = Some p -> at_ w p P T S -> q <> p -> p <> proc0 (pw (kw w)) ->
  procs (pw (kw w)) !! q = Some Q ->
  exists w', psignal q SIGCHLD w = Ok w' /\ core w' /\ curproc (kw w') = Some p /\ at_ w' p P T S /\ proc0 (pw (kw w')) = proc0 (pw (kw w)).
Proof.
  intros Hc Ec Hat Hqp Hp EQ. destruct (tells_psignal 1 q w (co_base _ Hc)) as (w'&E&Hs&Ho); [by eexists|intros E; congruence|].
  exists w'. split; [exact E|]. split; [by eapply core_steps|]. split; [by rewrite (steps_cur _ _ Hs)|]. split; [|by rewrite (steps_proc0 _ _ Hs)].
  apply (left_alone_at p w w'); [|done]. by apply Ho.
Qed.

Lemma tell_self_ok w p P T S : core w -> curproc (kw w) = Some p -> at_ w p P T S -> p <> proc0 (pw (kw w)) ->
  exists w', tell_parent psignal p w = Ok w' /\ core w' /\ curproc (kw w') = Some p /\ at_ w' p P T S.
Proof.
  intros Hc Ec Hat Hp. pose proof Hat as ((EP&ET)&ES). destruct (core_parent w p P Hc EP Hp) as (q&Q&Eq&Hqp&EQ&_).
  unfold tell_parent. rewrite (proc_of_eq p _ P EP). cbn [mbind outcome_bind]. rewrite Eq. cbn [deref mbind outcome_bind].
  rewrite (proc_of_eq q _ Q EQ). cbn [mbind outcome_bind]. destruct (has (p_flag Q) SNOCLDSTOP); [by exists w|].
  destruct (post_parent_ok w p P T S q Q Hc Ec Hat Hqp Hp EQ) as (w'&E&?&?&?&_). by exists w'.
Qed.

(** *** issig *)

(** The signals that a process may take now. *)
Definition deliverable (P : proc) (S : sigproc) : Z :=
  let m := andnot (p_sig S) (p_sigmask S) in if has (p_flag P) SPPWAIT then andnot m stopsigmask else m.

(** The signal is one to take: it is caught, or its default action ends the
    process. *)
Definition takes (P : proc) (S : sigproc) (sig : Z) : Prop :=
  valid sig /\ mem (deliverable P S) sig = true /\
  (act_of sig (p_sigacts S) = SIG_DFL -> 1 < p_pid P /\ is_stop sig = false /\ has (sigprop sig) SA_IGNORE = false) /\
  act_of sig (p_sigacts S) <> SIG_IGN.

(** Nothing but the pending set has changed, and only by signals that left it. *)
Definition dropped_some (S S' : sigproc) : Prop :=
  sig_ok S' /\ S' = set_p_sig (p_sig S') S /\ forall s, valid s -> mem (p_sig S') s = true -> mem (p_sig S) s = true.

Lemma dropped_some_refl S : sig_ok S -> dropped_some S S.
Proof. intros HS. split; [done|]. split; [by destruct S|done]. Qed.
Lemma dropped_some_trans S1 S2 S3 : dropped_some S1 S2 -> dropped_some S2 S3 -> dropped_some S1 S3.
Proof. intros (_&E1&H1) (HS&E2&H2). split; [done|]. split; [rewrite E2, E1; done|auto]. Qed.
Lemma dropped_some_clear S sig : sig_ok S -> valid sig -> dropped_some S (set_p_sig (andnot (p_sig S) (sigmask sig)) S).
Proof.
  intros HS Hv. split; [apply sig_ok_pend; [done|apply fits_andnot; [lia|apply HS]]|]. split; [done|]. intros s Hs.
  unfold valid in *. cbn. rewrite mem_andnot by lia. by intros (?&_)%andb_true_iff.
Qed.

(** The signal comes to nothing when it is looked at: it is ignored, or its default
    action is to do nothing, or it is the default action of a signal to init or of a
    stop signal that may not stop the process ([orphan]: its group is orphaned). *)
Definition ignores (orphan : bool) (P : proc) (S : sigproc) (sig : Z) : Prop :=
  act_of sig (p_sigacts S) = SIG_IGN \/
  (act_of sig (p_sigacts S) = SIG_DFL /\
   (p_pid P <= 1 \/ has (sigprop sig) SA_IGNORE = true \/
    (is_stop sig = true /\ (traced P = true \/ (orphan = true /\ has (sigprop sig) SA_TTYSTOP = true))))).

(** What has left the pending set could be delivered and came to nothing. *)
Definition unheeded (orphan : bool) (P : proc) (S S' : sigproc) : Prop :=
  forall s, valid s -> mem (p_sig S) s = true ->
    mem (p_sig S') s = true \/ (mem (deliverable P S) s = true /\ ignores orphan P S s).

Lemma unheeded_refl o P S : unheeded o P S S.
Proof. by left. Qed.

Lemma deliverable_sub P S S' s : valid s -> p_sigmask S' = p_sigmask S -> mem (deliverable P S') s = true ->
  (mem (p_sig S') s = true -> mem (p_sig S) s = true) -> mem (deliverable P S) s = true.
Proof.
  intros Hv Em. unfold deliverable, valid in *. case_if; rewrite ?mem_andnot, ?Em by lia; rewrite !andb_true_iff; tauto.
Qed.

Lemma unheeded_trans o P S1 S2 S3 : dropped_some S1 S2 -> unheeded o P S1 S2 -> unheeded o P S2 S3 -> unheeded o P S1 S3.
Proof.
  intros (_&E&Hsub) H1 H2 s Hv Hm. destruct (H1 s Hv Hm) as [Hm2|?]; [|by right]. destruct (H2 s Hv Hm2) as [?|(Hd&Hi)]; [by left|right].
  split; [|by rewrite E in Hi]. apply (deliverable_sub P S1 S2); [done|by rewrite E|done|auto].
Qed.

Lemma unheeded_clear o P S sig : valid sig -> mem (deliverable P S) sig = true -> ignores o P S sig ->
  unheeded o P S (set_p_sig (andnot (p_sig S) (sigmask sig)) S).
Proof.
  intros Hv Hd Hi s Hs Hm. destruct (decide (s = sig)) as [->|Hne]; [by right|left]. unfold valid in *. cbn.
  rewrite mem_andnot, mem_sigmask, Hm by lia. by rewrite (proj2 (Z.eqb_neq s sig)).
Qed.

(** The process has been killed. *)
Definition killed (P : proc) (S : sigproc) : Prop := mem (p_sig S) SIGKILL = true /\ traced P = false /\ 1 < p_pid P.

Definition decided (p : loc) (P : proc) (S : sigproc) (w : sworld) (r : issig_next) (w' : sworld) : Prop :=
  match r with
  | NoSig => w' = w /\ deliverable P S = 0
  | Again => exists sig, valid sig /\ mem (p_sig S) sig = true /\ mem (deliverable P S) sig = true /\ ignores (orphan_group w P) P S sig /\
      (killed P S -> sig <> SIGKILL) /\
      w' = set_sigproc p (set_p_sig (andnot (p_sig S) (sigmask sig)) S) w
  | Take sig => w' = w /\ takes P S sig
  | Stopped _ | Traced _ => gave_up p w' /\ ~ killed P S
  end.


Lemma stop_above_kill sig : valid sig -> is_stop sig = true -> SIGKILL < sig.
Proof. revert sig. apply (valid_cases (fun sig => is_stop sig = true -> SIGKILL < sig)). by repeat constructor. Qed.

Lemma kill_props : is_stop SIGKILL = false /\ has (sigprop SIGKILL) SA_IGNORE = false /\ valid SIGKILL.
Proof. by split_and!. Qed.

Lemma clear_ok (r : issig_next) w p S m : sigs w !! p = Some S ->
  (w ← with_sig p (fun S => set_p_sig (andnot (p_sig S) m) S) w; mret (r, w)) =
    Ok (r, set_sigproc p (set_p_sig (andnot (p_sig S) m) S) w).
Proof. intros ES. by rewrite (with_sig_eq p _ w S ES). Qed.

Lemma issig_decide_ok w p P T S sig : core w -> curproc (kw w) = Some p -> at_ w p P T S -> p <> proc0 (pw (kw w)) -> p_stat P = SRUN ->
  valid sig -> mem (deliverable P S) sig = true -> mem (p_sig S) sig = true -> (killed P S -> sig <= SIGKILL) ->
  exists r w', issig_decide p sig (sigprop sig) w = Ok (r, w') /\ decided p P S w r w'.
Proof.
  intros Hc Ec Hat Hp Es Hv Hd Hm Hk. pose proof Hat as ((EP&ET)&ES). destruct kill_props as (Ks&Ki&_).
  assert (HS : sig_ok S) by (by apply (co_sig _ Hc p)). destruct (so_cant _ HS SIGKILL) as (Ka&_); [by left|].
  unfold issig_decide. rewrite (sig_of_eq p w S ES), (proc_of_eq p _ P EP). cbn [mbind outcome_bind]. fold (is_stop sig).
  assert (forall sig', sig' = sig -> ignores (orphan_group w P) P S sig -> (killed P S -> sig' <> SIGKILL) ->
    decided p P S w Again (set_sigproc p (set_p_sig (andnot (p_sig S) (sigmask sig)) S) w)) as Hag.
  { intros ? -> Hi Hn. by exists sig. }
  destruct (Z.eqb_spec (act_of sig (p_sigacts S)) SIG_DFL) as [Ea|Ea].
  - destruct (Z.leb_spec (p_pid P) 1) as [Hpid|Hpid].
    { rewrite (clear_ok Again w p S _ ES). do 2 eexists. split; [reflexivity|]. apply (Hag sig); [done|right; split; [done|by left]|]. intros (_&_&?). lia. }
    destruct (is_stop sig) eqn:Eis.
    + assert (~ killed P S) as Hnk. { intros K. specialize (Hk K). pose proof (stop_above_kill sig Hv Eis). lia. }
      destruct (core_group w p P Hc EP) as (g&G&Eg&EG). rewrite Eg. cbn [deref mbind outcome_bind]. rewrite EG. cbn [deref mbind outcome_bind].
      destruct (has (p_flag P) STRC || _) eqn:Eo.
      { rewrite (clear_ok Again w p S _ ES). do 2 eexists. split; [reflexivity|]. apply (Hag sig); [done| |done].
        right. split; [done|]. right; right. split; [done|]. apply orb_true_iff in Eo as [|(?&?)%andb_true_iff]; [by left|right].
        unfold orphan_group. rewrite Eg. cbn. by rewrite EG. }
      rewrite (with_proc_eq p _ w P EP). cbn [mbind outcome_bind]. destruct (xstat_ok w p P T S sig Hc Hat) as (Hc1&Hat1). cbv zeta in *.
      set (w1 := set_kw _ w) in *.
      destruct (stop_self w1 p _ T S Hc1 Ec Hat1) as (w2&T2&->&Hc2&Ec2&Hat2&E02); [done|done|]. cbn [mbind outcome_bind].
      destruct (tell_self_ok w2 p _ T2 S Hc2 Ec2 Hat2) as (w3&->&Hc3&Ec3&Hat3); [by rewrite E02|]. cbn [mbind outcome_bind].
      destruct (swtch_stopped w3 p _ T2 S Hc3 Ec3 Hat3) as (w4&->&Hg); [done|]. do 2 eexists. split; [reflexivity|]. by split.
    + destruct (has (sigprop sig) SA_IGNORE) eqn:Ei.
      * rewrite (clear_ok Again w p S _ ES). do 2 eexists. split; [reflexivity|]. apply (Hag sig); [done|right; split; [done|]; right; by left|]. intros _ ->. congruence.
      * exists (Take sig), w. split; [done|]. split; [done|]. split; [done|]. split; [done|]. split; [done|]. by rewrite Ea.
  - destruct (Z.eqb_spec (act_of sig (p_sigacts S)) SIG_IGN) as [Ei|Ei].
    + rewrite (clear_ok Again w p S _ ES). do 2 eexists. split; [reflexivity|]. apply (Hag sig); [done|by left|]. intros _ ->. congruence.
    + exists (Take sig), w. split; [done|]. split; [done|]. done.
Qed.

Lemma deliverable_fits P S : sig_ok S -> fits 31 (deliverable P S).
Proof. intros HS. unfold deliverable. case_if; repeat (apply fits_andnot; [lia|]); apply HS. Qed.

Lemma deliverable_mem P S s : valid s -> mem (deliverable P S) s = mem (p_sig S) s && negb (mem (p_sigmask S) s)
  && negb (has (p_flag P) SPPWAIT && is_stop s).
Proof.
  intros Hv. assert (mem stopsigmask s = is_stop s) as <-.
  { revert s Hv. apply valid_cases. by repeat constructor. }
  unfold valid in Hv. unfold deliverable. destruct (has (p_flag P) SPPWAIT); rewrite ?mem_andnot by lia; [done|]. by rewrite andb_true_r.
Qed.

Lemma issig_step_ok w p P T S : core w -> curproc (kw w) = Some p -> at_ w p P T S -> p <> proc0 (pw (kw w)) -> p_stat P = SRUN ->
  exists r w', issig_step p w = Ok (r, w') /\ decided p P S w r w'.
Proof.
  intros Hc Ec Hat Hp Es. pose proof Hat as ((EP&ET)&ES). assert (HS : sig_ok S) by (by apply (co_sig _ Hc p)).
  unfold issig_step. rewrite (sig_of_eq p w S ES), (proc_of_eq p _ P EP). cbn [mbind outcome_bind]. fold (deliverable P S). fold (traced P).
  destruct (Z.eqb_spec (deliverable P S) 0) as [E0|E0]; [by exists NoSig, w|].
  destruct (ffs_spec 31 (deliverable P S) ltac:(lia) (deliverable_fits P S HS) E0) as (Hf&Hm&Hmin).
  set (sig := ffs (deliverable P S)) in *. assert (valid sig) as Hv by (unfold valid, NSIG; lia).
  pose proof Hm as Hms. rewrite (deliverable_mem P S sig Hv), !andb_true_iff in Hms. destruct Hms as ((Hms&_)&_).
  assert (killed P S -> sig <= SIGKILL) as Hk.
  { intros (Hmk&_). destruct (Z.le_gt_cases sig SIGKILL) as [|Hgt]; [done|]. destruct kill_props as (Ks&_&Kv).
    destruct (so_cant _ HS SIGKILL) as (_&Kb&_); [by left|]. pose proof (Hmin SIGKILL ltac:(unfold SIGKILL in *; lia)) as Hx.
    rewrite (deliverable_mem P S SIGKILL Kv), Hmk, Kb, Ks, andb_false_r in Hx. done. }
  destruct (has (sigmask sig) (p_sigignore S) && negb (traced P)) eqn:Ei.
  { do 2 eexists. split; [reflexivity|]. exists sig. split; [done|]. split; [done|]. split; [done|]. split.
    { apply andb_true_iff in Ei as (Ei&_). rewrite has_comm, has_mem, (so_ignore _ HS sig Hv) in Ei by (unfold valid in Hv; lia).
      apply andb_true_iff in Ei as (_&[?%Z.eqb_eq|(?%Z.eqb_eq&?)%andb_true_iff]%orb_true_iff); [by left|right]. split; [done|]. right; by left. }
    split; [|done]. intros _ E.
    apply andb_true_iff in Ei as (Ei&_). rewrite has_comm, has_mem, (so_ignore _ HS sig Hv), E in Ei by (unfold valid in Hv; lia).
    destruct (so_cant _ HS SIGKILL) as (Ka&_); [by left|]. by rewrite Ka in Ei. }
  destruct (traced P && negb (has (p_flag P) SPPWAIT)) eqn:Et; [|by apply (issig_decide_ok w p P T S)].
  apply andb_true_iff in Et as (Et&_). rewrite (with_proc_eq p _ w P EP). cbn [mbind outcome_bind].
  destruct (xstat_ok w p P T S sig Hc Hat) as (Hc1&Hat1). cbv zeta in *. set (w1 := set_kw _ w) in *.
  destruct (core_parent w1 p _ Hc1 (proj1 (proj1 Hat1))) as (q&Q&Eq&Hqp&EQ&_); [done|]. change (p_pptr (set_p_xstat sig P)) with (p_pptr P) in Eq.
  rewrite Eq. cbn [deref mbind outcome_bind].
  destruct (post_parent_ok w1 p _ T S q Q Hc1 Ec Hat1 Hqp) as (w2&->&Hc2&Ec2&Hat2&E02); [done|done|]. cbn [mbind outcome_bind].
  destruct (stop_self w2 p _ T S Hc2 Ec2 Hat2) as (w3&T3&->&Hc3&Ec3&Hat3&_); [by rewrite E02|done|]. cbn [mbind outcome_bind].
  destruct (swtch_stopped w3 p _ T3 S Hc3 Ec3 Hat3) as (w4&->&Hg); [done|]. do 2 eexists. split; [reflexivity|]. split; [done|].
  intros (_&Ht&_). congruence.
Qed.

Lemma set_sigproc_twice p A B w : set_sigproc p A (set_sigproc p B w) = set_sigproc p A w.
Proof. unfold set_sigproc. cbn. by rewrite insert_insert_eq. Qed.
Lemma set_sigproc_id p S w : sigs w !! p = Some S -> set_sigproc p S w = w.
Proof. intros E. destruct w. unfold set_sigproc. cbn in *. by rewrite insert_id. Qed.

Lemma core_sig w p P T S S' : core w -> at_ w p P T S -> sig_ok S' -> core (set_sigproc p S' w) /\ at_ (set_sigproc p S' w) p P T S'.
Proof.
  intros [[HS Hsw Hd] HI Hs] (Hp&ES) HS'. split; [constructor; [constructor; [done|done|]|done|]|split; [done|apply lookup_insert_eq]].
  - intros q. cbn. rewrite <- Hd. destruct (decide (q = p)) as [->|]; [|by rewrite lookup_insert_ne].
    rewrite lookup_insert_eq, ES. split; by eexists.
  - intros q S1. cbn. destruct (decide (q = p)) as [->|]; [rewrite lookup_insert_eq; by intros [= <-]|].
    rewrite lookup_insert_ne by done. apply Hs.
Qed.

(** What issig returns: none, and then none can be delivered; a signal to take;
    or the process has stopped.  A killed process takes a signal. *)
Definition issued (p : loc) (P : proc) (S : sigproc) (w : sworld) (r : issig_next) (w' : sworld) : Prop :=
  (killed P S -> exists sig, r = Take sig) /\
  match r with
  | Again => False
  | NoSig => exists S', dropped_some S S' /\ unheeded (orphan_group w P) P S S' /\ w' = set_sigproc p S' w /\ deliverable P S' = 0
  | Take sig => exists S', dropped_some S S' /\ unheeded (orphan_group w P) P S S' /\ w' = set_sigproc p S' w /\ takes P S' sig /\ (killed P S -> killed P S')
  | Stopped _ | Traced _ => gave_up p w'
  end.

Lemma issig_loop_ok p P T : p_stat P = SRUN -> forall n w S, core w -> curproc (kw w) = Some p -> at_ w p P T S ->
  p <> proc0 (pw (kw w)) -> (count (p_sig S) < n)%nat ->
  exists r w', issig_loop n p w = Ok (r, w') /\ issued p P S w r w'.
Proof.
  intros Es. induction n as [|n IH]; intros w S Hc Ec Hat Hp Hn; [lia|]. cbn [issig_loop].
  assert (HS : sig_ok S) by (by apply (co_sig _ Hc p), Hat). pose proof (proj2 Hat) as ES.
  destruct (issig_step_ok w p P T S Hc Ec Hat Hp Es) as (r&w1&->&Hd). cbn [mbind outcome_bind]. destruct r as [|sig| |m|sig]; cbn [decided] in Hd.
  - destruct Hd as (sig&Hv&Hm&Hdl&Hig&Hk&->). pose proof (unheeded_clear _ P S sig Hv Hdl Hig) as Hu. set (S1 := set_p_sig _ S) in *. pose proof (dropped_some_clear S sig HS Hv) as Hds. fold S1 in Hds.
    destruct (core_sig w p P T S S1 Hc Hat (proj1 Hds)) as (Hc1&Hat1).
    assert (mem (p_sig S1) sig = false) as Hm1 by (unfold S1, valid in *; cbn; rewrite mem_andnot, mem_sigmask, Z.eqb_refl by lia; by rewrite andb_false_r).
    pose proof (count_lt (p_sig S) (p_sig S1) sig Hv Hm Hm1 (proj2 (proj2 Hds))).
    destruct (IH (set_sigproc p S1 w) S1 Hc1 Ec Hat1 Hp ltac:(lia)) as (r&w'&->&Hkill&Hi).
    assert (killed P S -> killed P S1) as HkS.
    { intros K. pose proof (Hk K) as Hne. destruct K as (Hmk&?&?). split; [|done]. unfold S1. cbn. unfold valid in Hv.
      rewrite mem_andnot, mem_sigmask, Hmk by (unfold SIGKILL; lia). rewrite (proj2 (Z.eqb_neq SIGKILL sig)) by congruence. done. }
    exists r, w'. split; [done|]. split; [auto|]. destruct r; [done| | |done|done].
    + destruct Hi as (S2&Hd2&Hu2&->&Ht&Hk2). exists S2. rewrite set_sigproc_twice. split; [by eapply dropped_some_trans|]. split; [by eapply unheeded_trans|]. auto.
    + destruct Hi as (S2&Hd2&Hu2&->&Ht). exists S2. rewrite set_sigproc_twice. split; [by eapply dropped_some_trans|]. split; [by eapply unheeded_trans|]. auto.
  - destruct Hd as (->&Ht). exists (Take sig), w. split; [done|]. split; [intros _; by exists sig|]. exists S.
    rewrite set_sigproc_id by done. split; [by apply dropped_some_refl|]. split; [apply unheeded_refl|]. auto.
  - destruct Hd as (->&Ht). exists NoSig, w. split; [done|]. split.
    + intros (Hmk&_). destruct kill_props as (Ks&_&Kv). destruct (so_cant _ HS SIGKILL) as (_&Kb&_); [by left|].
      pose proof (deliverable_mem P S SIGKILL Kv) as Hx. rewrite Ht, mem_0, Hmk, Kb, Ks, andb_false_r in Hx. done.
    + exists S. rewrite set_sigproc_id by done. split; [by apply dropped_some_refl|]. split; [apply unheeded_refl|]. auto.
  - destruct Hd as (Hg&Hk). eexists _, _. split; [reflexivity|]. split; [by intros ?%Hk|done].
  - destruct Hd as (Hg&Hk). eexists _, _. split; [reflexivity|]. split; [by intros ?%Hk|done].
Qed.


Lemma issig_ok w p P T S : core w -> curproc (kw w) = Some p -> at_ w p P T S -> p <> proc0 (pw (kw w)) -> p_stat P = SRUN ->
  exists r w', issig p w = Ok (r, w') /\ issued p P S w r w'.
Proof. intros Hc Ec Hat Hp Es. apply (issig_loop_ok p P T Es 33); [done..|]. pose proof (count_le (p_sig S)). lia. Qed.

Lemma CURSIG_ok w p P T S : core w -> curproc (kw w) = Some p -> at_ w p P T S -> p <> proc0 (pw (kw w)) -> p_stat P = SRUN ->
  exists r w', CURSIG p w = Ok (r, w') /\ issued p P S w r w'.
Proof.
  intros Hc Ec Hat Hp Es. pose proof Hat as ((EP&ET)&ES). assert (HS : sig_ok S) by (by apply (co_sig _ Hc p)).
  unfold CURSIG. rewrite (sig_of_eq p w S ES), (proc_of_eq p _ P EP). cbn [mbind outcome_bind].
  destruct (_ || _) eqn:E; [|by apply (issig_ok w p P T S)].
  assert (deliverable P S = 0) as E0.
  { unfold deliverable. assert (andnot (p_sig S) (p_sigmask S) = 0) as ->; [|by case_if].
    apply orb_true_iff in E as [E%Z.eqb_eq|(_&E%Z.eqb_eq)%andb_true_iff]; [by rewrite E|done]. }
  exists NoSig, w. split; [done|]. split.
  - intros (Hmk&_). destruct kill_props as (Ks&_&Kv). destruct (so_cant _ HS SIGKILL) as (_&Kb&_); [by left|].
    pose proof (deliverable_mem P S SIGKILL Kv) as Hx. rewrite E0, mem_0, Hmk, Kb, Ks, andb_false_r in Hx. done.
  - exists S. rewrite set_sigproc_id by done. split; [by apply dropped_some_refl|]. split; [apply unheeded_refl|]. auto.
Qed.

(** *** psig *)

(** A signal posted to a process that is runnable only goes to the pending set. *)
Lemma psignal_runnable w p P T S sig : core w -> at_ w p P T S -> valid sig -> p_stat P = SRUN ->
  exists w' T', psignal p sig w = Ok w' /\ steps w w' /\ slog w' = slog w /\ p_wchan T' = p_wchan T /\
    at_ w' p P T' (if dropped P S (orphan_group w P) sig then S else set_p_sig (pend_set sig (p_sig S)) S).
Proof.
  intros Hc Hat Hv Es. pose proof Hat as ((EP&ET)&ES). pose proof (co_base _ Hc) as Hb.
  assert ((sig <=? 0) || (NSIG <=? sig) = false) as Er by (unfold valid in Hv; apply orb_false_iff; lia).
  destruct (niced_steps w p P T S sig Hb Hat) as (Hs1&Hat1&_). destruct (niced_fields P S sig T) as (_&Ewc&_). set (w1 := set_kw _ w) in *.
  pose proof (base_steps _ _ Hb Hs1) as Hb1. unfold psignal. cbn [psignal_n]. rewrite Er, (psignal_pend_eq w p P T S sig Hat Hv).
  2: { intros _. by eapply core_group. }
  destruct (dropped P S (orphan_group w P) sig); cbn [mbind outcome_bind].
  { destruct (_ && has (p_sigignore S) (sigmask sig)); [exists w, T|exists w1, (niced P S sig T)]; (split; [done|]); (split; [|by split_and!]);
      [by apply steps_refl, Hb|done]. }
  set (S2 := set_p_sig (pend_set sig (p_sig S)) S). set (w2 := mkSworld _ _ _).
  assert (Hs2 : steps w1 w2). { apply (steps_sig w1 p S (pend_set sig (p_sig S))); [apply Hb1|apply Hat1|]. intros Hf. by apply pend_set_fits. }
  assert (Hat2 : at_ w2 p P (niced P S sig T) S2) by (split; [apply Hat1|apply lookup_insert_eq]).
  pose proof (base_steps _ _ Hb1 Hs2) as Hb2. assert (Hs12 : steps w w2) by (by eapply steps_trans).
  destruct (_ && _); cbn [mbind outcome_bind]; [by exists w2, (niced P S sig T)|].
  unfold psignal_act. rewrite (proc_of_eq p _ P), (thread_of_eq p _ (niced P S sig T)) by apply Hat2. cbn [mbind outcome_bind]. rewrite Es.
  change (SRUN =? SSLEEP) with false. change (SRUN =? SSTOP) with false. cbn [mret outcome_ret].
  destruct (decide _); [|by exists w2, (niced P S sig T)]. eexists _, (niced P S sig T). split; [reflexivity|]. split; [|by split].
  eapply steps_trans; [exact Hs12|]. apply steps_k.
  constructor; [by apply (Sq_ext (kw w2)); [apply Hb2|..]|apply placed_refl|done| |by intros; eexists|by intros; eexists]. intros x Y EY. right. by exists Y.
Qed.

(** The signals that are caught and not blocked. *)
Definition armed (S : sigproc) : Z := andnot (p_sigcatch S) (p_sigmask S).

Lemma core_slog es w : core w -> core (add_slog es w).
Proof. intros [[HS Hsw Hd] HI Hs]. by constructor. Qed.

(** What the current process is after a call: only its signal state has changed. *)
Record still (p : loc) (P : proc) (S' : sigproc) (w' : sworld) : Prop := mkStill {
  sl_core : core w';
  sl_cur : curproc (kw w') = Some p;
  sl_at : exists T', at_ w' p P T' S' /\ p_wchan T' = 0;
  sl_p0 : p <> proc0 (pw (kw w'));
}.

Lemma still_awake p P S w : still p P S w -> p_stat P = SRUN -> awake (kw w).
Proof. intros [_ Ec (T&((EP&ET)&_)&Ew) _] Es q Q R Eq (EQ&ER). simplify_eq. done. Qed.

(** The onstack flag that sendsig sets. *)
Definition on_stack (sig : Z) (S : sigproc) : sigproc :=
  let ps := p_sigacts S in
  set_p_sigacts (if (ps_onstack ps =? 0) && has (ps_sigonstack ps) (sigmask sig) then set_sigstack (ps_sigsp ps) 1 ps else ps) S.

Lemma on_stack_ok sig S : sig_ok S -> sig_ok (on_stack sig S).
Proof.
  intros HS. unfold on_stack. assert (forall s, s = SIGKILL \/ s = SIGSTOP -> mem (ps_oldmask (p_sigacts S)) s = false) as Ho
    by (intros s Hs; by destruct (so_cant _ HS s Hs) as (_&_&?&_)).
  apply sig_ok_acts; try done; case_if; done || apply HS || apply Ho.
Qed.

(** The state in which SIGILL is posted. *)
Definition illegal (S : sigproc) : sigproc :=
  let bit := sigmask SIGILL in
  set_p_sigmask (andnot (p_sigmask S) bit) (set_p_sigcatch (andnot (p_sigcatch S) bit)
    (set_p_sigignore (andnot (p_sigignore S) bit) (set_p_sigacts (set_sigact SIGILL SIG_DFL (p_sigacts S)) S))).

Lemma sendsig_ok ok p catcher sig mask code w P T S : core w -> curproc (kw w) = Some p -> at_ w p P T S -> p_stat P = SRUN -> p_wchan T = 0 ->
  p <> proc0 (pw (kw w)) -> exists w', sendsig ok p catcher sig mask code w = Ok w' /\
    still p P (if ok then on_stack sig S
               else set_p_sig (Z.lor (p_sig S) (sigmask SIGILL)) (illegal (on_stack sig S))) w' /\
    orphan_group w' P = orphan_group w P /\
    slog w' = slog w ++ (if ok then [Sendsig p catcher sig mask code (ps_onstack (p_sigacts S))] else []).
Proof.
  intros Hc Ec Hat Es Ew Hp0. pose proof Hat as (Hp&ES). assert (HS : sig_ok S) by (by apply (co_sig _ Hc p)).
  pose proof (on_stack_ok sig S HS) as HS1. unfold sendsig. rewrite (sig_of_eq p w S ES). cbn [mbind outcome_bind].
  set (ps := if _ && _ then _ else _). change (set_p_sigacts ps S) with (on_stack sig S). destruct ok.
  - eexists. split; [reflexivity|]. destruct (core_sig w p P T S _ Hc Hat HS1) as (Hc1&Hat1). split; [|done].
    constructor; [by apply core_slog|done| |done]. exists T. by split.
  - match goal with |- context [psignal p SIGILL (set_sigproc p ?s w)] => change s with (illegal (on_stack sig S)) end.
    pose proof (sig_ok_illegal _ HS1) as HS2. change (sig_ok (illegal (on_stack sig S))) in HS2.
    destruct (core_sig w p P T S _ Hc Hat HS2) as (Hc2&Hat2). set (w2 := set_sigproc p _ w) in *.
    assert (valid SIGILL) as Hv by done.
    destruct (psignal_runnable w2 p P T _ SIGILL Hc2 Hat2 Hv Es) as (w'&T'&->&Hs&El&Ew'&Hat'). exists w'. split; [done|].
    split; [|split; [by rewrite (steps_orphan _ _ _ Hs)|by rewrite app_nil_r]]. constructor; [by eapply core_steps|by rewrite (steps_cur _ _ Hs)| |by rewrite (steps_proc0 _ _ Hs)]. exists T'. split; [|congruence].
    assert (dropped P (illegal (on_stack sig S)) (orphan_group w2 P) SIGILL = false) as Ed.
    { unfold dropped. change (is_stop SIGILL) with false. cbn [andb orb]. rewrite orb_false_r. apply andb_false_intro2.
      rewrite has_mem by done. unfold illegal. cbn. rewrite mem_andnot, mem_sigmask by done. by rewrite andb_false_r. }
    rewrite Ed in Hat'. exact Hat'.
Qed.


Lemma still_sig p P S S' w : still p P S w -> sig_ok S' -> still p P S' (set_sigproc p S' w).
Proof. intros [Hc Ec (T&Hat&Ew) Hp] HS'. destruct (core_sig w p P T S S' Hc Hat HS'). constructor; [done|done| |done]. by exists T. Qed.
Lemma still_ok p P S w : still p P S w -> sig_ok S.
Proof. intros [Hc _ (T&(_&ES)&_) _]. by apply (co_sig _ Hc p). Qed.

Lemma armed_fits S : sig_ok S -> fits 31 (armed S).
Proof. intros HS. apply fits_andnot; [lia|apply HS]. Qed.

Lemma count_armed S S' sig : valid sig -> mem (p_sigcatch S) sig = true -> mem (p_sigmask S) sig = false -> mem (armed S') sig = false ->
  (forall s, valid s -> mem (armed S') s = true -> mem (armed S) s = true) -> (count (armed S') < count (armed S))%nat.
Proof.
  intros Hv Hc Hm Ha Hs. apply (count_lt _ _ sig Hv); [|done|done]. unfold armed, valid in *. rewrite mem_andnot by lia. by rewrite Hc, Hm.
Qed.

Lemma armed_illegal sig S s : valid s -> mem (armed (illegal (on_stack sig S))) s = true -> mem (armed S) s = true.
Proof.
  intros Hv. unfold armed, illegal, valid in *. cbn [p_sigcatch p_sigmask set_p_sigmask set_p_sigcatch]. rewrite !mem_andnot by lia.
  cbn [p_sigcatch p_sigmask set_p_sigignore set_p_sigacts on_stack].
  destruct (mem (p_sigcatch S) s), (mem (p_sigmask S) s), (mem (sigmask SIGILL) s); done.
Qed.

(** *** Signals served, over several rounds *)

(** SIGILL, which the kernel sends itself when a handler cannot be started. *)
Definition fallen (ok : Z -> bool) (s : Z) : Prop := s = SIGILL /\ exists s', valid s' /\ ok s' = false.

(** From the state [S] to [S'], with the handlers in [L] started: a signal that was
    pending still is, came to nothing, or had its handler started (or was lost
    because the frame of the handler could not be written); none is new, no action
    changes and none is unblocked, SIGILL perhaps apart. *)
Record served (ok : Z -> bool) (o : bool) (p : loc) (P : proc) (S S' : sigproc) (L : list sevent) : Prop := mkServed {
  sv_pend : forall s, valid s -> mem (p_sig S) s = true ->
    mem (p_sig S') s = true \/ ignores o P S s \/ (exists m b, Sendsig p (act_of s (p_sigacts S)) s m 0 b ∈ L) \/
    (ok s = false /\ act_of s (p_sigacts S) <> SIG_DFL) \/ fallen ok s;
  sv_new : forall s, valid s -> mem (p_sig S') s = true -> mem (p_sig S) s = true \/ fallen ok s;
  sv_act : forall s, valid s -> act_of s (p_sigacts S') = act_of s (p_sigacts S) \/ fallen ok s;
  sv_mask : forall s, valid s -> mem (p_sigmask S) s = true -> mem (p_sigmask S') s = true \/ fallen ok s;
}.

Lemma served_trans ok o p P S1 S2 S3 L1 L2 : served ok o p P S1 S2 L1 -> served ok o p P S2 S3 L2 -> served ok o p P S1 S3 (L1 ++ L2).
Proof.
  intros [P1 N1 A1 M1] [P2 N2 A2 M2]. constructor.
  - intros s Hv Hm. setoid_rewrite elem_of_app.
    destruct (P1 s Hv Hm) as [Hm2|[?|[(m&b&?)|[?|?]]]]; [|by right; left|right; right; left; eauto|tauto..].
    destruct (A1 s Hv) as [Ea|?]; [|tauto]. specialize (P2 s Hv Hm2). unfold ignores in *. rewrite Ea in P2.
    destruct P2 as [?|[?|[(m&b&?)|[?|?]]]]; [tauto|tauto|right; right; left; eauto|tauto|tauto].
  - intros s Hv Hm. destruct (N2 s Hv Hm); [auto|by right].
  - intros s Hv. destruct (A2 s Hv) as [->|]; [auto|by right].
  - intros s Hv Hm. destruct (M1 s Hv Hm); [auto|by right].
Qed.

Lemma served_unheeded ok o p P S S' : dropped_some S S' -> unheeded o P S S' -> served ok o p P S S' [].
Proof.
  intros (_&E&Hsub) Hu. constructor.
  - intros s Hv Hm. destruct (Hu s Hv Hm) as [|(_&?)]; tauto.
  - auto.
  - intros s _. left. by rewrite E.
  - intros s _ Hm. left. by rewrite E.
Qed.

(** The signal ends the process: its action is the default one and that is to end
    it.  It could be delivered, or is the SIGILL of a handler that could not be started. *)
Definition ends_with (ok : Z -> bool) (P : proc) (S : sigproc) (sig : Z) : Prop :=
  valid sig /\ is_stop sig = false /\ has (sigprop sig) SA_IGNORE = false /\ 1 < p_pid P /\
  ((mem (deliverable P S) sig = true /\ act_of sig (p_sigacts S) = SIG_DFL) \/ fallen ok sig).

Definition exit_status (dumped : bool) (sig : Z) : Z := if has (sigprop sig) SA_CORE && dumped then Z.lor sig WCOREFLAG else sig.

Lemma ends_served ok o p P S S' L sig : served ok o p P S S' L -> ends_with ok P S' sig -> ends_with ok P S sig.
Proof.
  intros [_ N A M] (Hv&Hs&Hi&Hp&[(Hd&Ha)|?]); [|by unfold ends_with; tauto]. do 4 (split; [done|]).
  rewrite !deliverable_mem, !andb_true_iff, !negb_true_iff in * by done. destruct Hd as ((Hm&Hk)&Hpp).
  destruct (N sig Hv Hm) as [Hm0|]; [|by right]. destruct (A sig Hv) as [Ea|]; [|by right].
  destruct (mem (p_sigmask S) sig) eqn:Ek; [|left; rewrite <- Ea; tauto]. destruct (M sig Hv Ek) as [?|]; [congruence|by right].
Qed.

Lemma act_of_set_sigact s sig h ps : s <> sig -> valid s -> valid sig -> act_of s (set_sigact sig h ps) = act_of s ps.
Proof. intros Hne Hs Hg. unfold act_of, valid in *. cbn. rewrite list_lookup_insert_ne; [done|]. lia. Qed.

Lemma act_of_on_stack s sig S : act_of s (p_sigacts (on_stack sig S)) = act_of s (p_sigacts S).
Proof. unfold on_stack. cbn. by case_if. Qed.

(** A handler is started, or its frame cannot be written. *)
Lemma served_caught ok o p P S S4 sig L : valid sig -> act_of sig (p_sigacts S) <> SIG_DFL ->
  p_sig S4 = andnot (p_sig S) (sigmask sig) -> (forall s, act_of s (p_sigacts S4) = act_of s (p_sigacts S)) ->
  (forall s, valid s -> mem (p_sigmask S) s = true -> mem (p_sigmask S4) s = true) ->
  (ok sig = true -> exists m b, Sendsig p (act_of sig (p_sigacts S)) sig m 0 b ∈ L) ->
  served ok o p P S (if ok sig then on_stack sig S4
                     else set_p_sig (Z.lor (p_sig S4) (sigmask SIGILL)) (illegal (on_stack sig S4))) L.
Proof.
  intros Hv Ha Ep Eact Hmask HL. assert (forall s, valid s -> mem (p_sig S4) s = mem (p_sig S) s && negb (s =? sig)) as Hm4.
  { intros s Hs. unfold valid in *. by rewrite Ep, mem_andnot, mem_sigmask by lia. }
  assert (ok sig = false -> forall s, s = SIGILL -> fallen ok s) as Hf by (intros; split; [done|by exists sig]).
  assert (valid SIGILL) as HvI by done. constructor.
  - intros s Hs Hm. destruct (decide (s = sig)) as [->|Hne]; [destruct (ok sig) eqn:Eo; [|tauto]; right; right; left; auto|left].
    assert (mem (p_sig S4) s = true) as Hx by (rewrite Hm4, Hm by done; by rewrite (proj2 (Z.eqb_neq s sig))).
    destruct (ok sig); [done|]. cbn. by rewrite mem_lor, Hx.
  - intros s Hs Hm. assert (mem (p_sig S4) s = true \/ fallen ok s) as [Hx|]; [|rewrite Hm4 in Hx by done; apply andb_true_iff in Hx; tauto|by right].
    destruct (ok sig) eqn:Eo; [by left|]. cbn in Hm. unfold valid in Hs. rewrite mem_lor, mem_sigmask in Hm by (done || lia).
    apply orb_true_iff in Hm as [|?%Z.eqb_eq]; [by left|right; auto].
  - intros s Hs. destruct (ok sig) eqn:Eo; [left; by rewrite act_of_on_stack|]. destruct (decide (s = SIGILL)) as [|Hne]; [right; auto|left].
    unfold illegal. cbn [p_sigacts set_p_sig set_p_sigmask set_p_sigcatch set_p_sigignore set_p_sigacts].
    rewrite act_of_set_sigact by done. by rewrite act_of_on_stack.
  - intros s Hs Hm. specialize (Hmask s Hs Hm). destruct (ok sig) eqn:Eo; [by left|]. destruct (decide (s = SIGILL)) as [|Hne]; [right; auto|left].
    unfold illegal. cbn. unfold valid in Hs. rewrite mem_andnot, mem_sigmask, Hmask by (done || lia). by rewrite (proj2 (Z.eqb_neq s SIGILL)).
Qed.

Lemma psig_ok p sig ok dumped P S w : still p P S w -> p_stat P = SRUN -> takes P S sig ->
  exists r w', psig p sig (ok sig) dumped w = Ok (r, w') /\
    match r with
    | PsExit status => act_of sig (p_sigacts S) = SIG_DFL /\ (exists S', still p P S' w') /\ status = exit_status dumped sig
    | PsDone => act_of sig (p_sigacts S) <> SIG_DFL /\ exists S' L, still p P S' w' /\ (count (armed S') < count (armed S))%nat
        /\ (killed P S -> killed P S') /\ orphan_group w' P = orphan_group w P /\ slog w' = slog w ++ L
        /\ served ok (orphan_group w P) p P S S' L
    end.
Proof.
  intros Hst Es (Hv&Hd&Hdfl&Hign). pose proof (still_ok p P S w Hst) as HS. pose proof (sl_at _ _ _ _ Hst) as (T&Hat&Ew).
  unfold psig. rewrite (sig_of_eq p w S) by apply Hat. cbn [mbind outcome_bind]. set (S1 := set_p_sig (andnot _ _) S).
  assert (sig_ok S1) as HS1 by (apply dropped_some_clear; done).
  change (p_sigacts S1) with (p_sigacts S). change (p_sigmask S1) with (p_sigmask S). destruct (Z.eqb_spec (act_of sig (p_sigacts S)) SIG_DFL) as [Ea|Ea].
  - unfold sigexit. rewrite (sig_of_eq p _ S1) by apply lookup_insert_eq. cbn [mret outcome_ret mbind outcome_bind]. rewrite set_sigproc_twice.
    do 2 eexists. split; [reflexivity|]. split; [done|]. cbn [p_sig p_sigmask].
    match goal with |- (exists S', still _ _ S' (set_sigproc p ?s w)) /\ _ => assert (sig_ok s) as HS2 end.
    { set (S2 := set_sacflag _ S1). assert (sig_ok S2) as HS2 by (destruct HS1; by constructor). case_if; [|done].
      apply sig_ok_acts; try done; [apply HS2|]. intros s Hs. by destruct (so_cant _ HS2 s Hs) as (_&_&?&_). }
    split; [|unfold exit_status; apply Z.lor_0_l]. eexists. by apply (still_sig _ _ _ _ _ Hst HS2).
  - rewrite (deliverable_mem P S sig Hv), !andb_true_iff, !negb_true_iff in Hd. destruct Hd as ((Hm&Hnm)&_).
    destruct (caught_not_cant S sig HS Ea) as (Hk&Hs). set (old := has _ SA_OLDMASK).
    set (S2 := if old then _ else S1). assert (sig_ok S2) as HS2.
    { unfold S2. case_if; [|done]. apply sig_ok_acts; try done; [apply HS1|]. intros s Hs'. by destruct (so_cant _ HS1 s Hs') as (_&_&?&_). }
    pose proof (sig_ok_hold sig S2 HS2 Hv Hk Hs) as HS3. set (S3 := hold_caught sig S2) in *.
    set (S4 := set_nsignals _ S3). assert (sig_ok S4) as HS4 by (destruct HS3; by constructor).
    pose proof (still_sig _ _ _ _ _ Hst HS4) as Hst4. pose proof (sl_at _ _ _ _ Hst4) as (T4&Hat4&Ew4).
    match goal with |- context [sendsig (ok sig) p ?a sig ?m 0 _] =>
      destruct (sendsig_ok (ok sig) p a sig m 0 _ P T4 S4 (sl_core _ _ _ _ Hst4) (sl_cur _ _ _ _ Hst4) Hat4 Es Ew4 (sl_p0 _ _ _ _ Hst4)) as (w'&->&Hst'&Eor&El) end.
    cbn [mbind outcome_bind]. do 2 eexists. split; [reflexivity|]. split; [done|]. eexists _, _. split; [exact Hst'|].
    assert (mem (p_sigcatch S) sig = true) as Hc.
    { rewrite (so_catch _ HS sig Hv), (proj2 (Z.eqb_neq _ _) Ea), (proj2 (Z.eqb_neq _ _) Hign). done. }
    assert (p_sigcatch S4 = p_sigcatch S) as Ec4 by (unfold S4, S3, S2; by case_if).
    assert (p_sig S4 = andnot (p_sig S) (sigmask sig)) as Ep4 by (unfold S4, S3, S2; by case_if).
    assert (exists m, p_sigmask S4 = Z.lor (p_sigmask S) (Z.lor m (sigmask sig))) as (cm&Em4).
    { assert (p_sigmask S2 = p_sigmask S) as <- by (unfold S2; by case_if). by exists (catchmask_of sig (p_sigacts S2)). }
    assert (forall s, valid s -> mem (armed S4) s = true -> mem (armed S) s = true /\ s <> sig) as Hsub.
    { intros s Hvs. unfold armed, valid in *. rewrite Ec4, Em4, !mem_andnot, !mem_lor, mem_sigmask by lia.
      destruct (mem (p_sigcatch S) s), (mem (p_sigmask S) s), (mem cm s), (Z.eqb_spec s sig); try done. }
    assert (forall s, valid s -> mem (armed (if ok sig then on_stack sig S4
              else set_p_sig (Z.lor (p_sig S4) (sigmask SIGILL)) (illegal (on_stack sig S4)))) s = true -> mem (armed S4) s = true) as Hsub'.
    { intros s Hvs. destruct (ok sig); [done|]. by apply (armed_illegal sig S4). }
    split; [|split; [|split; [exact Eor|split; [exact El|]]]].
    + apply (count_armed _ _ sig Hv Hc Hnm).
      * apply not_true_is_false. intros Hx. by destruct (Hsub sig Hv (Hsub' sig Hv Hx)).
      * intros s Hvs Hx. by apply Hsub, Hsub'.
    + intros (Hmk&Ht&Hpid). split; [|done]. assert (mem (p_sig S4) SIGKILL = true) as Hmk4.
      { unfold valid in Hv. rewrite Ep4, mem_andnot, mem_sigmask, Hmk by (unfold SIGKILL; lia). by rewrite (proj2 (Z.eqb_neq SIGKILL sig)) by congruence. }
      destruct (ok sig); [done|]. cbn [p_sig set_p_sig]. by rewrite mem_lor, Hmk4.
    + apply served_caught; [done..| | |].
      * intros s. assert (forall m f, act_of s (set_oldmask m f (p_sigacts S)) = act_of s (p_sigacts S)) as Ho by done.
        unfold S4, S3, S2, hold_caught. cbn. by case_if.
      * intros s _ Hm'. by rewrite Em4, mem_lor, Hm'.
      * intros ->. do 2 eexists. by apply list_elem_of_singleton.
Qed.

(** *** The return to user mode *)

Definition user_post (ok : Z -> bool) (dumped : bool) (p : loc) (P : proc) (S : sigproc) (w : sworld) (r : user_res) (w' : sworld) : Prop :=
  match r with
  | UserRun => ~ killed P S /\ exists S' L, still p P S' w' /\ deliverable P S' = 0 /\ slog w' = slog w ++ L /\
      served ok (orphan_group w P) p P S S' L
  | UserExit status => (exists S', still p P S' w') /\ exists sig, ends_with ok P S sig /\ status = exit_status dumped sig
  | UserStopped _ => ~ killed P S /\ gave_up p w'
  end.

(** After some rounds. *)
Lemma user_post_after ok dumped p P S S2 w w2 L r w' : served ok (orphan_group w P) p P S S2 L -> orphan_group w2 P = orphan_group w P ->
  slog w2 = slog w ++ L -> (killed P S -> killed P S2) -> user_post ok dumped p P S2 w2 r w' -> user_post ok dumped p P S w r w'.
Proof.
  intros Hs Eo El Hk Hp. destruct r as [|status|a]; cbn [user_post] in *.
  - destruct Hp as (Hn&S'&L'&Hst&Hd&El'&Hs'). split; [auto|]. exists S', (L ++ L'). split; [done|]. split; [done|].
    split; [by rewrite El', El, (assoc_L (++))|]. rewrite Eo in Hs'. by eapply served_trans.
  - destruct Hp as (Hst&sig&He&->). split; [done|]. exists sig. split; [by eapply ends_served|done].
  - split; [|apply Hp]. intros K. by apply (proj1 Hp), Hk.
Qed.

Lemma user_next_ok again ok dumped p P S w r w1 : p_stat P = SRUN -> still p P S w -> issued p P S w r w1 ->
  (forall w2 S2, still p P S2 w2 -> (count (armed S2) < count (armed S))%nat ->
     exists r w', again w2 = Ok (r, w') /\ user_post ok dumped p P S2 w2 r w') ->
  exists r' w', user_next again ok dumped p r w1 = Ok (r', w') /\ user_post ok dumped p P S w r' w'.
Proof.
  intros Es Hst (Hk&Hr) Hagain. destruct r as [|sig| |m|sig]; [done| | | |]; cbn [user_next].
  - destruct Hr as (S1&Hd1&Hu1&->&Ht&HkS). pose proof (still_sig _ _ _ _ _ Hst (proj1 Hd1)) as Hst1.
    pose proof (served_unheeded ok _ p P S S1 Hd1 Hu1) as Hs1.
    destruct (psig_ok p sig ok dumped P S1 _ Hst1 Es Ht) as (e&w2&->&He). cbn [mbind outcome_bind]. destruct e as [|status].
    + destruct He as (_&S2&L&Hst2&Hc2&Hk2&Eo&El&Hs2). assert (count (armed S1) = count (armed S)) as Ec1 by (destruct Hd1 as (_&->&_); done).
      destruct (Hagain w2 S2 Hst2) as (r&w'&->&Hr'); [lia|]. exists r, w'. split; [done|].
      apply (user_post_after ok dumped p P S S2 w w2 L); [exact (served_trans _ _ _ _ _ _ _ [] L Hs1 Hs2)|done|done|auto|done].
    + destruct He as (Ea&Hst2&->). do 2 eexists. split; [reflexivity|]. split; [done|]. exists sig. split; [|done].
      apply (ends_served _ _ _ _ _ _ _ _ Hs1). destruct Ht as (Hv&Hdl&Hdfl&_). destruct (Hdfl Ea) as (Hp1&Hns&Hni). do 4 (split; [done|]). by left.
  - destruct Hr as (S1&Hd1&Hu1&->&E0). do 2 eexists. split; [reflexivity|]. split; [intros K; by destruct (Hk K)|].
    exists S1, []. split; [apply (still_sig _ _ _ _ _ Hst), Hd1|]. split; [done|]. split; [by rewrite app_nil_r|]. by apply served_unheeded.
  - do 2 eexists. split; [reflexivity|]. split; [intros K; by destruct (Hk K)|done].
  - do 2 eexists. split; [reflexivity|]. split; [intros K; by destruct (Hk K)|done].
Qed.

Lemma user_loop_ok ok dumped p P : p_stat P = SRUN -> forall n w S, still p P S w ->
  (count (armed S) < n)%nat -> exists r w', user_loop n ok dumped p w = Ok (r, w') /\ user_post ok dumped p P S w r w'.
Proof.
  intros Es. induction n as [|n IH]; intros w S Hst Hn; [lia|]. cbn [user_loop].
  pose proof (sl_at _ _ _ _ Hst) as (T&Hat&Ew).
  destruct (CURSIG_ok w p P T S (sl_core _ _ _ _ Hst) (sl_cur _ _ _ _ Hst) Hat (sl_p0 _ _ _ _ Hst) Es) as (r&w1&->&Hi). cbn [mbind outcome_bind].
  apply (user_next_ok _ ok dumped p P S w r w1 Es Hst Hi). intros w2 S2 Hst2 Hlt. apply IH; [done|lia].
Qed.

(** issig goes on after a stop of the kind that clears the stop signal. *)
Lemma issig_resume_ok p P S sig pt w : p_stat P = SRUN -> still p P S w -> valid sig -> sig <> SIGKILL ->
  exists S1 r w', issig_resume p (Stopped (sigmask sig)) pt w = Ok (r, w') /\ still p P S1 (set_sigproc p S1 w)
    /\ dropped_some S S1 /\ issued p P S1 (set_sigproc p S1 w) r w' /\ (killed P S -> killed P S1).
Proof.
  intros Es Hst Hv Hk. unfold issig_resume. pose proof (sl_at _ _ _ _ Hst) as (T&Hat&Ew). pose proof (still_ok p P S w Hst) as HS.
  rewrite (with_sig_eq p _ w S) by apply Hat. cbn [mbind outcome_bind mret outcome_ret].
  pose proof (dropped_some_clear S sig HS Hv) as Hd. set (S1 := set_p_sig _ S) in *.
  pose proof (still_sig _ _ _ _ _ Hst (proj1 Hd)) as Hst1. pose proof (sl_at _ _ _ _ Hst1) as (T1&Hat1&Ew1).
  destruct (issig_ok _ p P T1 S1 (sl_core _ _ _ _ Hst1) (sl_cur _ _ _ _ Hst1) Hat1 (sl_p0 _ _ _ _ Hst1) Es) as (r&w1&->&Hi).
  exists S1, r, w1. do 4 (split; [done|]). intros (Hm&?&?). split; [|done]. unfold S1, valid in *. cbn.
  rewrite mem_andnot, mem_sigmask, Hm by (unfold SIGKILL; lia). by rewrite (proj2 (Z.eqb_neq SIGKILL sig)) by congruence.
Qed.

Lemma user_resume_ok ok dumped p P sig pt w S : p_stat P = SRUN -> still p P S w -> valid sig -> sig <> SIGKILL ->
  exists S1 r w', user_resume ok dumped p (Stopped (sigmask sig)) pt w = Ok (r, w') /\ dropped_some S S1 /\ (killed P S -> killed P S1) /\
    user_post ok dumped p P S1 (set_sigproc p S1 w) r w'.
Proof.
  intros Es Hst Hv Hk. unfold user_resume. destruct (issig_resume_ok p P S sig pt w Es Hst Hv Hk) as (S1&r&w1&->&Hst1&Hd&Hi&HkS). cbn [mbind outcome_bind].
  destruct (user_next_ok (user_loop 32 ok dumped p) ok dumped p P S1 _ r w1 Es Hst1 Hi) as (r'&w'&->&Hpost).
  { intros w2 S2 Hst2 _. apply user_loop_ok; [done..|]. pose proof (count_le (armed S2)). lia. }
  by exists S1, r', w'.
Qed.
End Take.
