(* ===== verification/SignalSend.v ===== *)
(** * Signals: sending them to processes and groups *)

From S2P Require Import Prelude Pgrp PgrpInv PgrpCalls Exit Life Sleep SleepInv SleepCalls Signal SignalInv SignalPost SignalTake.

Section Send.
Context `{Layout}.

(** ** Who may signal whom *)

Definition same_user (SP SQ : sigproc) : bool :=
  (p_uid SP =? 0) || (p_ruid SP =? p_ruid SQ) || (p_uid SP =? p_ruid SQ) || (p_ruid SP =? p_uid SQ) || (p_uid SP =? p_uid SQ).

Definition permitted (cp p : loc) (signo : Z) (w : sworld) : bool :=
  match sigs w !! cp, sigs w !! p with Some SP, Some SQ => same_user SP SQ | _, _ => false end
  || (signo =? SIGCONT) && bool_decide (psession (pw (kw w)) p = psession (pw (kw w)) cp).

Lemma session_ok w p P : Inv w -> procs w !! p = Some P -> exists s, session_of p w = Ok s /\ psession w p = Some s.
Proof.
  intros HI EP. destruct (proc_groups w p P HI EP) as (g&G&S&_&Epg&EG&Es&_). exists (pg_session G).
  split; [by apply (session_of_ok w p g)|]. unfold psession. by rewrite Epg.
Qed.

Lemma CANSIGNAL_ok w cp p signo C P : core w -> procs (pw (kw w)) !! cp = Some C -> procs (pw (kw w)) !! p = Some P ->
  CANSIGNAL cp p signo w = Ok (permitted cp p signo w).
Proof.
  intros Hc EC EP. destruct (core_at w cp C Hc EC) as (_&SC&(_&ESC)&_). destruct (core_at w p P Hc EP) as (_&SP&(_&ESP)&_).
  unfold CANSIGNAL, permitted. rewrite (sig_of_eq cp w SC ESC), (sig_of_eq p w SP ESP), ESC, ESP. cbn [mbind outcome_bind].
  fold (same_user SC SP). destruct (same_user SC SP); [done|]. cbn [orb]. destruct (signo =? SIGCONT); [|done].
  destruct (session_ok _ cp C (co_inv _ Hc) EC) as (t&Et&Et'). destruct (session_ok _ p P (co_inv _ Hc) EP) as (s&Es&Es').
  rewrite Es, Et, Es', Et'. cbn. f_equal. apply bool_decide_ext. split; congruence.
Qed.

Lemma permitted_steps w w' cp p signo : steps w w' -> permitted cp p signo w' = permitted cp p signo w.
Proof.
  intros Hst. unfold permitted. pose proof (ks_place _ _ (st_k _ _ Hst)) as [Ef Hp].
  assert (forall x, psession (pw (kw w')) x = psession (pw (kw w)) x) as Hs.
  { intros x. assert (pgof (pw (kw w')) x = pgof (pw (kw w)) x) as Eg.
    { unfold pgof. specialize (Hp x). inversion Hp as [X X' (_&Eg&_) E E'|E E']; cbn; [by rewrite Eg|done]. }
    unfold psession. rewrite Eg. destruct (pgof (pw (kw w)) x) as [g|]; [|done]. cbn. unfold sesof. rewrite Ef. done. }
  rewrite !Hs. f_equal. pose proof (st_sigs _ _ Hst cp) as H1. pose proof (st_sigs _ _ Hst p) as H2.
  inversion H1 as [A A' (_&EA) E1 E1'|]; [|done]. inversion H2 as [B B' (_&EB) E2 E2'|]; [|done]. by rewrite EA, EB.
Qed.

(** ** Posting to several processes *)

(** The processes of the list get the signal, one after the other. *)
Inductive posts (sig : Z) : list loc -> sworld -> sworld -> Prop :=
  | posts_nil w : posts sig [] w w
  | posts_cons p l P T S w w1 w' : at_ w p P T S -> posted p P T S sig w w1 -> posts sig l w1 w' -> posts sig (p :: l) w w'.

Lemma posts_steps sig l w w' : Sq (kw w) -> posts sig l w w' -> steps w w'.
Proof.
  intros HS Hp. induction Hp as [w|p l P T S w w1 w' _ Hpo _ IH]; [by apply steps_refl|].
  eapply steps_trans; [apply Hpo|]. apply IH, Hpo.
Qed.

(** Signal 0 is not posted. *)
Definition sent (sig : Z) (l : list loc) (w w' : sworld) : Prop := if sig =? 0 then w' = w else posts sig l w w'.

Lemma steps_procs w w' p : steps w w' -> is_Some (procs (pw (kw w)) !! p) -> is_Some (procs (pw (kw w')) !! p).
Proof. intros Hst Hp. by eapply steps_alive. Qed.

(** The invariant at the start of a call. *)
Definition calm (w : sworld) : Prop := core w /\ awake (kw w).
Lemma calm_steps w w' : calm w -> steps w w' -> calm w'.
Proof. intros (Hc&Ha) Hst. split; [by eapply core_steps|by eapply steps_awake]. Qed.

Lemma post_calm w p P T S sig : calm w -> at_ w p P T S -> valid sig -> p <> proc0 (pw (kw w)) ->
  exists w', psignal p sig w = Ok w' /\ posted p P T S sig w w'.
Proof. intros (Hc&Ha) Hat Hv Hp. apply post_ok; [done| |done..]. intros q. by apply awake_cur_runs. Qed.

(** *** killpg1 *)

(** What the tests of killpg1 look at. *)
Definition skip_like (skip : loc -> proc -> bool) : Prop := forall p P P', same_place P P' -> same_flags P P' -> skip p P' = skip p P.

Definition hit (cp : loc) (signo : Z) (skip : loc -> proc -> bool) (w : sworld) (p : loc) : bool :=
  match procs (pw (kw w)) !! p with Some P => negb (skip p P) && permitted cp p signo w | None => false end.

Lemma hit_steps cp signo skip w w' p : skip_like skip -> steps w w' -> hit cp signo skip w' p = hit cp signo skip w p.
Proof.
  intros Hsk Hst. unfold hit. rewrite (permitted_steps w w') by done. pose proof (ks_place _ _ (st_k _ _ Hst)) as [_ Hp].
  specialize (Hp p). inversion Hp as [P P' Hsp E E'|]; [|done].
  destruct (ks_flags _ _ (st_k _ _ Hst) p P (eq_sym E)) as (P''&E''&Hf). assert (P'' = P') as -> by congruence. by rewrite (Hsk p P P').
Qed.

Lemma killpg_loop_ok cp signo skip : skip_like skip -> (forall p P, p_pid P <= 1 -> skip p P = true) -> (signo = 0 \/ valid signo) ->
  forall l w n, calm w -> is_Some (procs (pw (kw w)) !! cp) -> (forall p, p ∈ l -> is_Some (procs (pw (kw w)) !! p)) ->
  exists w', killpg_loop cp signo skip l n w = Ok (n + Z.of_nat (length (filter (fun p => hit cp signo skip w p = true) l)), w')
    /\ sent signo (filter (fun p => hit cp signo skip w p = true) l) w w' /\ steps w w'.
Proof.
  intros Hsk Hpid Hs. induction l as [|p l IH]; intros w n Hw Hcp Hl; cbn [killpg_loop].
  - exists w. cbn. rewrite Z.add_0_r. split; [done|]. split; [unfold sent; case_if; [done|constructor]|]. apply steps_refl, Hw.
  - destruct (Hl p) as (P&EP); [by left|]. pose proof Hcp as (C&EC). rewrite (proc_of_eq p _ P EP). cbn [mbind outcome_bind].
    assert ((if skip p P then mret false else CANSIGNAL cp p signo w) = Ok (hit cp signo skip w p)) as ->.
    { unfold hit. rewrite EP. destruct (skip p P); [done|]. by apply (CANSIGNAL_ok w cp p signo C P); [apply Hw|..]. }
    cbn [mbind outcome_bind]. rewrite filter_cons. destruct (hit cp signo skip w p) eqn:Eh.
    2: { rewrite decide_False by done. apply IH; [done|done|]. intros x Hx. apply Hl. by right. }
    rewrite decide_True by done. destruct (core_at w p P (proj1 Hw) EP) as (T&S&Hat&_).
    assert (exists w1, (if signo =? 0 then mret w else psignal p signo w) = Ok w1 /\ (if signo =? 0 then w1 = w else posted p P T S signo w w1)
      /\ steps w w1) as (w1&->&Hp1&Hst1).
    { destruct (Z.eqb_spec signo 0) as [E0|E0]; [exists w; split; [done|]; split; [done|apply steps_refl, Hw]|].
      destruct (post_calm w p P T S signo Hw Hat) as (w1&E&Hpo); [by destruct Hs| |exists w1; split; [done|]; split; [done|apply Hpo]].
      intros ->. pose proof (po_range _ (inv_procs _ (co_inv _ (proj1 Hw))) _ P EP) as (_&Hz). unfold hit in Eh. rewrite EP in Eh.
      rewrite (Hpid _ P) in Eh; [done|]. rewrite (proj2 Hz) by done. lia. }
    cbn [mbind outcome_bind]. destruct (IH w1 (n + 1)) as (w'&->&Hse&Hst2); [by eapply calm_steps|by eapply steps_procs| |].
    { intros x Hx. eapply steps_procs; [done|]. apply Hl. by right. }
    assert (filter (fun p => hit cp signo skip w1 p = true) l = filter (fun p => hit cp signo skip w p = true) l) as Ef.
    { clear -Hsk Hst1 H. induction l as [|x l IHl]; [done|]. rewrite !filter_cons, IHl, (hit_steps cp signo skip w w1 x) by done. done. }
    rewrite Ef in *. exists w'. split; [f_equal; f_equal; cbn; lia|]. split; [|by eapply steps_trans].
    unfold sent in *. destruct (signo =? 0); [by subst w1|]. by econstructor.
Qed.

(** The processes that a call of killpg1 signals. *)
Definition skip_all (cp : loc) (p : loc) (P : proc) : bool := (p_pid P <=? 1) || has (p_flag P) SSYS || bool_decide (p = cp).
Definition skip_group (p : loc) (P : proc) : bool := (p_pid P <=? 1) || has (p_flag P) SSYS || (p_stat P =? SZOMB).

(** The group that a pgid argument names. *)
Definition names_group (w : pworld) (cp : loc) (pgid : Z) (g : loc) : Prop :=
  if pgid =? 0 then pgof w cp = Some g else exists G, pgrps w !! g = Some G /\ pg_id G = s16 pgid.

Definition targets (cp : loc) (signo pgid : Z) (all : bool) (w : sworld) (l : list loc) : Prop :=
  if all then l = filter (fun p => hit cp signo (skip_all cp) w p = true) (allproc (pw (kw w)))
  else (exists g G, names_group (pw (kw w)) cp pgid g /\ pgrps (pw (kw w)) !! g = Some G /\
          l = filter (fun p => hit cp signo skip_group w p = true) (pg_mem G))
    \/ (l = [] /\ forall g, ~ names_group (pw (kw w)) cp pgid g).

Lemma skip_all_like cp : skip_like (skip_all cp).
Proof. intros p P P' (Ep&_) Hf. unfold skip_all. by rewrite Ep, (Hf SSYS). Qed.
Lemma skip_group_like : skip_like skip_group.
Proof.
  intros p P P' (Ep&_&_&_&_&Hz) Hf. unfold skip_group. rewrite Ep, (Hf SSYS) by done. f_equal.
  destruct (Z.eqb_spec (p_stat P') SZOMB), (Z.eqb_spec (p_stat P) SZOMB); tauto || done.
Qed.

Lemma killpg1_ok cp signo pgid all w : calm w -> is_Some (procs (pw (kw w)) !! cp) -> signo = 0 \/ valid signo ->
  exists l w', killpg1 cp signo pgid all w = Ok (if decide (l = []) then ESRCH else 0, w') /\ targets cp signo pgid all w l
    /\ sent signo l w w' /\ steps w w'.
Proof.
  intros Hw (C&EC) Hs. pose proof (co_inv _ (proj1 Hw)) as HI. unfold killpg1, targets.
  assert (forall l : list loc, (if 0 <? 0 + Z.of_nat (length l) then 0 else ESRCH) = if decide (l = []) then ESRCH else 0) as Hlen.
  { intros [|x l]; [done|]. rewrite decide_False by done. cbn [length]. by rewrite (proj2 (Z.ltb_lt _ _)) by lia. }
  destruct all.
  - destruct (killpg_loop_ok cp signo (skip_all cp) (skip_all_like cp)) with (l := allproc (pw (kw w))) (w := w) (n := 0) as (w'&E&Hse&Hst); [|done|done| | |].
    { intros p P Hp. unfold skip_all. by rewrite (proj2 (Z.leb_le _ _) Hp). }
    { by eexists. }
    { intros p Hp. apply (po_dom _ (inv_procs _ HI)). apply elem_of_app. by left. }
    unfold skip_all in E at 1. rewrite E. cbn [mbind outcome_bind mret outcome_ret]. rewrite Hlen. eexists _, w'. split; [done|]. split; [done|]. by split.
  - assert (exists r, (if pgid =? 0 then C ← proc_of cp (kw w); mret (p_pgrp C) else pgfind pgid (pw (kw w))) = Ok r /\
      match r with Some g => names_group (pw (kw w)) cp pgid g /\ is_Some (pgrps (pw (kw w)) !! g) | None => forall g, ~ names_group (pw (kw w)) cp pgid g end) as (r&->&Hr).
    { unfold names_group. destruct (pgid =? 0).
      - rewrite (proc_of_eq cp _ C EC). cbn [mbind outcome_bind mret outcome_ret].
        destruct (go_pgof _ _ _ cp C (inv_groups _ HI) EC ltac:(done)) as (g&G&Epg&Eg&EG&_). exists (Some g). rewrite Eg. split; [done|]. split; [done|by eexists].
      - destruct (pgfind_spec pgid _ _ _ (inv_groups _ HI)) as (r&E&Hr). exists r. split; [done|]. destruct r as [g|].
        + destruct Hr as (G&EG&?). split; [by exists G|by eexists]. + intros g (G&EG&?). by apply (Hr g G). }
    cbn [mbind outcome_bind]. destruct r as [g|].
    2: { exists [], w. split; [done|]. split; [by right|]. split; [unfold sent; case_if; [done|constructor]|apply steps_refl, Hw]. }
    destruct Hr as (Hng&G&EG). rewrite EG. cbn [deref mbind outcome_bind].
    destruct (killpg_loop_ok cp signo skip_group skip_group_like) with (l := pg_mem G) (w := w) (n := 0) as (w'&E&Hse&Hst); [|done|done| | |].
    { intros p P Hp. unfold skip_group. by rewrite (proj2 (Z.leb_le _ _) Hp). }
    { by eexists. }
    { intros p Hp. destruct (go_mem _ _ _ (inv_groups _ HI) g G EG) as (_&_&Hm). destruct (Hm p Hp) as (_&(P&EP&_)%pgof_Some). by eexists. }
    unfold skip_group in E at 1. rewrite E. cbn [mbind outcome_bind mret outcome_ret]. rewrite Hlen. eexists _, w'. split; [done|].
    split; [left; by exists g, G|]. by split.
Qed.

(** kill: the error, and who is signalled. *)
Lemma kill_ok cp pid signo w : calm w -> is_Some (procs (pw (kw w)) !! cp) ->
  exists e w', kill cp pid signo w = Ok (e, w') /\ steps w w' /\
    if (signo <? 0) || (NSIG <=? signo) then e = EINVAL /\ w' = w
    else if 0 <? pid then
      (e = ESRCH /\ w' = w /\ forall p P, procs (pw (kw w)) !! p = Some P -> p_stat P <> SZOMB -> p_pid P <> pid) \/
      (exists p P, procs (pw (kw w)) !! p = Some P /\ p_stat P <> SZOMB /\ p_pid P = pid /\
         if permitted cp p signo w then e = 0 /\ sent signo [p] w w' else e = EPERM /\ w' = w)
    else exists l, e = (if decide (l = []) then ESRCH else 0) /\ sent signo l w w' /\
      targets cp signo (if (pid =? -1) || (pid =? 0) then 0 else s32 (- pid)) (pid =? -1) w l.
Proof.
  intros Hw (C&EC). pose proof (co_inv _ (proj1 Hw)) as HI. unfold kill.
  destruct ((signo <? 0) || (NSIG <=? signo)) eqn:Er.
  { exists EINVAL, w. split; [done|]. split; [apply steps_refl, Hw|done]. }
  assert (signo = 0 \/ valid signo) as Hs. { apply orb_false_iff in Er. unfold valid. lia. }
  destruct (Z.ltb_spec 0 pid) as [Hp|Hp].
  - destruct (pfind_spec pid _ (inv_procs _ HI)) as (r&->&Hr). cbn [mbind outcome_bind]. destruct r as [p|].
    + destruct Hr as (P&EP&Hz&Hp0&Epid). rewrite (CANSIGNAL_ok w cp p signo C P (proj1 Hw) EC EP). cbn [mbind outcome_bind].
      destruct (permitted cp p signo w) eqn:Ep; cbn [negb].
      2: { exists EPERM, w. split; [done|]. split; [apply steps_refl, Hw|]. right. exists p, P. rewrite Ep. by split_and!. }
      destruct (core_at w p P (proj1 Hw) EP) as (T&S&Hat&_). destruct (Z.eqb_spec signo 0) as [E0|E0].
      * exists 0, w. split; [done|]. split; [apply steps_refl, Hw|]. right. exists p, P. rewrite Ep. split_and!; [done..|]. unfold sent. by rewrite E0.
      * destruct (post_calm w p P T S signo Hw Hat) as (w1&->&Hpo); [by destruct Hs|done|]. cbn [mbind outcome_bind].
        exists 0, w1. split; [done|]. split; [apply Hpo|]. right. exists p, P. rewrite Ep. split_and!; [done..|]. unfold sent.
        rewrite (proj2 (Z.eqb_neq _ _) E0). econstructor; [exact Hat|exact Hpo|constructor].
    + exists ESRCH, w. split; [done|]. split; [apply steps_refl, Hw|]. left. split; [done|]. split; [done|].
      intros p P EP Hz Hpid. destruct (decide (p = proc0 (pw (kw w)))) as [->|Hn]; [|by apply (Hr p P)].
      pose proof (po_range _ (inv_procs _ HI) _ P EP) as (_&Hz0). rewrite (proj2 Hz0) in Hpid by done. lia.
  - destruct (Z.eqb_spec pid (-1)) as [E1|E1]; cbn [orb].
    + destruct (killpg1_ok cp signo 0 true w Hw) as (l&w'&->&Ht&Hse&Hst); [by eexists|done|]. eexists _, w'. split; [done|]. split; [done|]. by exists l.
    + destruct (Z.eqb_spec pid 0) as [E0|E0].
      * destruct (killpg1_ok cp signo 0 false w Hw) as (l&w'&->&Ht&Hse&Hst); [by eexists|done|]. eexists _, w'. split; [done|]. split; [done|]. by exists l.
      * destruct (killpg1_ok cp signo (s32 (- pid)) false w Hw) as (l&w'&->&Ht&Hse&Hst); [by eexists|done|]. eexists _, w'. split; [done|]. split; [done|]. by exists l.
Qed.

(** *** pgsignal *)

Definition ctty_like (checkctty : bool) (w : sworld) (p : loc) : bool :=
  match procs (pw (kw w)) !! p with Some P => negb checkctty || has (p_flag P) SCTTY | None => false end.

Lemma ctty_steps c w w' p : steps w w' -> ctty_like c w' p = ctty_like c w p.
Proof.
  intros Hst. unfold ctty_like. pose proof (ks_place _ _ (st_k _ _ Hst)) as [_ Hp]. specialize (Hp p).
  inversion Hp as [P P' _ E E'|]; [|done]. destruct (ks_flags _ _ (st_k _ _ Hst) p P (eq_sym E)) as (P''&E''&Hf).
  assert (P'' = P') as -> by congruence. by rewrite (Hf SCTTY).
Qed.

Lemma pgsignal_loop_ok sig c : valid sig -> forall l w, calm w -> (forall p, p ∈ l -> is_Some (procs (pw (kw w)) !! p) /\ p <> proc0 (pw (kw w))) ->
  exists w', pgsignal_loop sig c l w = Ok w' /\ posts sig (filter (fun p => ctty_like c w p = true) l) w w'.
Proof.
  intros Hv. induction l as [|p l IH]; intros w Hw Hl; cbn [pgsignal_loop]; [exists w; split; [done|constructor]|].
  destruct (Hl p) as ((P&EP)&Hp0); [by left|]. rewrite (proc_of_eq p _ P EP). cbn [mbind outcome_bind]. rewrite filter_cons.
  assert (ctty_like c w p = negb c || has (p_flag P) SCTTY) as Ec by (unfold ctty_like; by rewrite EP). rewrite Ec.
  destruct (negb c || has (p_flag P) SCTTY).
  - rewrite decide_True by done. destruct (core_at w p P (proj1 Hw) EP) as (T&S&Hat&_).
    destruct (post_calm w p P T S sig Hw Hat Hv Hp0) as (w1&->&Hpo). cbn [mbind outcome_bind]. pose proof (po_steps _ _ _ _ _ _ _ Hpo) as Hst.
    destruct (IH w1) as (w'&->&Hps); [by eapply calm_steps| |].
    { intros x Hx. destruct (Hl x) as (?&?); [by right|]. split; [by eapply steps_procs|by rewrite (steps_proc0 _ _ Hst)]. }
    exists w'. split; [done|]. econstructor; [exact Hat|exact Hpo|].
    replace (filter _ l) with (filter (fun p => ctty_like c w1 p = true) l); [done|].
    clear -Hst H. induction l as [|x l IHl]; [done|]. rewrite !filter_cons, IHl, (ctty_steps c w w1 x) by done. done.
  - rewrite decide_False by done. cbn [mret outcome_ret mbind outcome_bind]. apply IH; [done|]. intros x Hx. apply Hl. by right.
Qed.
End Send.
