(* ===== verification/SignalSys.v ===== *)
(** * Signals: sleeping, and the system of processes that signal one another *)

From S2P Require Import Prelude Pgrp PgrpInv PgrpCalls Exit ForkInv Life Sleep SleepInv SleepCalls Signal SignalInv SignalPost SignalTake SignalSend.

Section Tsleep.
Context `{Layout}.

(** A change of the queues that leaves the processes and the signals alone. *)
Lemma core_k w k : core w -> Sq k -> swap_ok k -> pw k = pw (kw w) -> core (set_kw k w).
Proof. intros [[HS Hsw Hd] HI Hs] HS' Hsw' Ew. constructor; [constructor; [done|done|]|cbn; by rewrite Ew|done]. intros q. cbn. by rewrite Ew. Qed.

(** The events of the log change nothing. *)
Lemma core_klog es w : core w -> core (set_kw (add_klog es (kw w)) w).
Proof. intros Hc. apply core_k; [done|by apply (Sq_ext (kw w)); [apply Hc|..]|apply Hc|done]. Qed.

Lemma sleep_on_core w p P T S chan pri : core w -> curproc (kw w) = Some p -> at_ w p P T S -> p_stat P = SRUN -> p_wchan T = 0 ->
  chan <> 0 -> chan <> proc_addr (proc0 (pw (kw w))) -> 0 <= pri <= MAXPRI ->
  exists w1, lift (sleep_on p chan pri) w = Ok w1 /\ core w1 /\ curproc (kw w1) = Some p /\ pw (kw w1) = pw (kw w)
    /\ at_ w1 p P (set_pri pri (set_slptime 0 (set_wchan chan T))) S.
Proof.
  intros Hc Ec Hat Es Ew Hch Hc0 Hpri. pose proof Hat as (Hp&ES). pose proof Hp as (EP&ET).
  destruct (sleep_on_ok (kw w) p P T chan pri (b_sq _ (co_base _ Hc)) Ec Hp Es Ew Hch Hpri) as (k1&E&HS1&[_ Ec1 _ _]&Hp1&_).
  pose proof E as E'. unfold sleep_on in E'. rewrite (thread_of_eq p _ T ET) in E'. cbn [mbind outcome_bind mret outcome_ret] in E'.
  injection E' as Ek. assert (pw k1 = pw (kw w)) as Epw by (by rewrite <- Ek).
  rewrite (lift_eq _ w k1 E). eexists. split; [reflexivity|]. split; [|split; [cbn; congruence|split; [cbn; by rewrite Epw|by split]]].
  apply core_k; [done|done| |done]. intros x Y EY Ewc. rewrite Epw in *. destruct (decide (x = p)) as [->|Hx].
  - destruct Hp1 as (_&ET1). rewrite ET1 in EY. injection EY as <-. by destruct Hc0.
  - apply (b_swap _ (co_base _ Hc) x Y); [|done]. rewrite <- Ek in EY. cbn in EY. by rewrite lookup_insert_ne in EY.
Qed.

(** Asleep, the processor goes to another process. *)
Lemma doze_core w p P T S : core w -> curproc (kw w) = Some p -> at_ w p P T S -> p_stat P = SRUN -> p_wchan T <> 0 ->
  exists w', lift (doze p) w = Ok w' /\ core w' /\ awake (kw w') /\ curproc (kw w') <> Some p /\ at_ w' p (set_p_stat SSLEEP P) T S.
Proof.
  intros Hc Ec Hat Es Hw. pose proof Hat as (Hp&ES). pose proof Hp as (EP&ET). pose proof (b_sq _ (co_base _ Hc)) as HS.
  destruct (doze_ok (kw w) p P T HS Ec Hp Hw) as (k'&E&E2&_&Hp'&_&Hne&_).
  pose proof (dozing_Sq (kw w) p P T HS Ec Hp Hw) as HS0. set (k0 := dozing p P (kw w)) in *.
  assert (core (set_kw k0 w)) as Hc0.
  { destruct Hc as [[_ Hsw Hd] HI Hs]. constructor; [constructor; [done|done|]| |done].
    - intros q. cbn. rewrite Hd. destruct (decide (q = p)) as [->|]; [|by rewrite lookup_insert_ne].
      rewrite lookup_insert_eq, EP. split; by eexists.
    - cbn. apply (Inv_placed (pw (kw w))); [done|]. apply (placed_put _ p P); [done|]. apply stat_place; try done. by rewrite Es. }
  destruct (swtch_core (set_kw k0 w) Hc0) as (k2&E3&Hc'&Ha'&_&_); [exact HS0|].
  assert (k2 = k') as -> by (cbn in E3; congruence). rewrite (lift_eq _ w k' E). eexists. split; [reflexivity|]. split; [exact Hc'|].
  split; [exact Ha'|]. split; [exact Hne|]. by split.
Qed.

(** A process that has gone to its sleep queue and is not to sleep after all. *)
Lemma unsleep_self w p P T S : core w -> curproc (kw w) = Some p -> at_ w p P T S -> p_stat P = SRUN ->
  exists w', lift (unsleep p) w = Ok w' /\ core w' /\ curproc (kw w') = Some p /\ at_ w' p P (set_wchan 0 T) S
    /\ proc0 (pw (kw w')) = proc0 (pw (kw w)).
Proof.
  intros Hc Ec Hat Es. pose proof Hat as ((EP&ET)&ES). pose proof (b_sq _ (co_base _ Hc)) as (r&HS).
  destruct (unsleep_eq p (kw w) T (sq_slp _ _ HS) ET) as (q&E&Hm). rewrite (lift_eq _ w _ E). eexists. split; [reflexivity|].
  split; [|split; [done|split; [split; [split; [done|apply lookup_insert_eq]|done]|done]]].
  apply core_k; [done|by apply (Sq_unwait r p P T (kw w)); rewrite ?Es| |done].
  intros x Y EY Ewc. cbn in EY. destruct (decide (x = p)) as [->|].
  - rewrite lookup_insert_eq in EY. injection EY as <-. cbn in Ewc. symmetry in Ewc. by apply proc_addr_nz in Ewc.
  - rewrite lookup_insert_ne in EY by done. by apply (b_swap _ (co_base _ Hc) x Y).
Qed.

(** [p->p_stat = SRUN] changes nothing. *)
Lemma set_run_same p P T S w : at_ w p P T S -> p_stat P = SRUN -> set_kw (set_proc p (set_p_stat SRUN P) (kw w)) w = w.
Proof.
  intros ((EP&_)&_) Es. assert (set_p_stat SRUN P = P) as -> by (destruct P; cbn in *; by rewrite Es).
  destruct w as [[[]] ? ?]. unfold set_kw, set_proc, set_pw, set_procs. cbn in *. by rewrite insert_id.
Qed.

Definition eintr (sig : Z) (S : sigproc) : Z := if has (ps_sigintr (p_sigacts S)) (sigmask sig) then EINTR else ERESTART.

(** The flags of the sleep are cleared. *)
Lemma tsleep_flags_ok p P S w : still p P S w -> p_stat P = SRUN ->
  exists w' P', tsleep_flags p w = Ok (has (p_flag P) STIMO, w') /\ still p P' S w' /\ p_stat P' = SRUN /\ p_pid P' = p_pid P
    /\ has (p_flag P') SSINTR = false /\ has (p_flag P') STIMO = false /\ traced P' = traced P
    /\ forall X, deliverable P' X = deliverable P X.
Proof.
  intros Hst Es. pose proof (sl_at _ _ _ _ Hst) as (T&Hat&Ew). pose proof (sl_core _ _ _ _ Hst) as Hc. pose proof Hat as ((EP&ET)&ES).
  unfold tsleep_flags, lift, sleep_resume. rewrite (thread_of_eq p _ T ET). cbn [mbind outcome_bind mret outcome_ret]. set (w1 := set_kw _ w).
  assert (core w1) as Hc1 by (apply core_k; [done|by apply (Sq_ext (kw w)); [apply Hc|..]|apply Hc|done]).
  assert (at_ w1 p P T S) as Hat1 by done. rewrite (proc_of_eq p _ P) by done. cbn [mbind outcome_bind].
  rewrite (with_proc_eq p _ w1 P EP). cbn [mbind outcome_bind]. set (m := if has (p_flag P) STIMO then _ else _). set (P' := set_p_flag _ P).
  set (w2 := set_kw _ w1).
  assert (forall b, Z.land (Z.lor SSINTR STIMO) b = 0 -> has (p_flag P') b = has (p_flag P) b) as Hb.
  { intros b E. rewrite Z.land_lor_distr_l in E. apply Z.lor_eq_0_iff in E as (E1&E2). apply has_clear. unfold m. case_if; [|done].
    rewrite Z.land_lor_distr_l, E1, E2. done. }
  assert (core w2) as Hc2.
  { apply (core_proc w1 p P T S); [done|done|by unfold same_place|]. apply (Sq_proc _ p P T); [apply Hc1|apply Hat1|].
    split; [done|]. split; by apply Hb. }
  exists w2, P'. split; [done|]. split; [constructor; [done|apply Hst| |apply Hst]|].
  { exists T. split; [split; [split; [apply lookup_insert_eq|done]|done]|done]. }
  split; [done|]. split; [done|]. split; [|split; [|split; [by apply Hb|]]].
  - unfold P', m, has. cbn. unfold andnot. case_if; rewrite <- Z.land_assoc; [change (Z.land _ SSINTR) with 0|change (Z.land _ SSINTR) with 0]; by rewrite Z.land_0_r.
  - unfold P', m, has. cbn. unfold andnot. destruct (negb (Z.land (p_flag P) STIMO =? 0)) eqn:E.
    + rewrite <- Z.land_assoc. change (Z.land _ STIMO) with 0. by rewrite Z.land_0_r.
    + rewrite <- Z.land_assoc. change (Z.land (Z.lnot SSINTR) STIMO) with STIMO. done.
  - intros X. unfold deliverable. by rewrite Hb.
Qed.

Lemma still_klog es p P S w : still p P S w -> still p P S (set_kw (add_klog es (kw w)) w).
Proof. intros [Hc Ec (T&Hat&Ew) Hp]. constructor; [by apply core_klog|done| |done]. by exists T. Qed.

(** The end of a sleep that a signal kept from starting. *)
Lemma tsleep_wake_ok p P S w sig timo : still p P S w -> p_stat P = SRUN -> sig <> 0 ->
  exists w' P', tsleep_wake p true sig timo w = Ok (TReturn (eintr sig S), w') /\ still p P' S w' /\ p_stat P' = SRUN
    /\ has (p_flag P') SSINTR = false.
Proof.
  intros Hst Es Hs. unfold tsleep_wake. destruct (tsleep_flags_ok p P S w Hst Es) as (w1&P1&->&Hst1&Es1&_&Hsi&_). cbn [mbind outcome_bind].
  rewrite (proj2 (Z.eqb_neq sig 0) Hs). cbn [negb orb]. rewrite andb_false_r. set (w2 := if _ && _ then _ else w1).
  assert (still p P1 S w2) as Hst2 by (unfold w2; case_if; [by apply still_klog|done]). pose proof (sl_at _ _ _ _ Hst2) as (T2&Hat2&_).
  unfold tsleep_error. rewrite (sig_of_eq p _ S) by apply Hat2. cbn [mbind outcome_bind mret outcome_ret]. by exists w2, P1.
Qed.

(** What a signal taken after a sleep comes to. *)
Lemma tsleep_caught_ok p P S w r w1 : p_stat P = SRUN -> still p P S w -> issued p P S w r w1 ->
  exists t w', tsleep_caught p r w1 = Ok (t, w') /\
    match t with
    | TReturn e => exists S', still p P S' w' /\ dropped_some S S' /\
        if e =? 0 then deliverable P S' = 0 /\ ~ killed P S else exists sig, takes P S' sig /\ e = eintr sig S'
    | TStopped2 _ => gave_up p w' /\ ~ killed P S
    | _ => False
    end.
Proof.
  intros Es Hst (Hk&Hr). destruct r as [|sig| |m|sig]; [done| | | |]; cbn [tsleep_caught].
  - destruct Hr as (S1&Hd&_&->&Ht&_). unfold tsleep_error. rewrite (sig_of_eq p _ S1) by apply lookup_insert_eq. cbn [mbind outcome_bind mret outcome_ret].
    do 2 eexists. split; [reflexivity|]. exists S1. split; [by apply (still_sig p P S), Hd|]. split; [done|].
    fold (eintr sig S1). assert (eintr sig S1 =? 0 = false) as -> by (unfold eintr; by case_if). by exists sig.
  - destruct Hr as (S1&Hd&_&->&E0). do 2 eexists. split; [reflexivity|]. exists S1. split; [by apply (still_sig p P S), Hd|]. split; [done|].
    change (0 =? 0) with true. cbv iota. split; [done|]. intros K. by destruct (Hk K).
  - do 2 eexists. split; [reflexivity|]. split; [done|]. intros K. by destruct (Hk K).
  - do 2 eexists. split; [reflexivity|]. split; [done|]. intros K. by destruct (Hk K).
Qed.

(** What a process that has slept comes to: it timed out, or took a signal or
    none if it looks at them ([c]), or stopped. *)
Definition woke (p : loc) (P P' : proc) (S : sigproc) (c : bool) (t : tsleep_res) (w' : sworld) : Prop :=
  if has (p_flag P) STIMO then t = TReturn EWOULDBLOCK /\ still p P' S w'
  else if c then match t with
    | TReturn e => exists S', still p P' S' w' /\ dropped_some S S' /\
        if e =? 0 then deliverable P' S' = 0 /\ ~ killed P' S else exists sig, takes P' S' sig /\ e = eintr sig S'
    | TStopped2 _ => gave_up p w' /\ ~ killed P' S
    | _ => False
    end
  else t = TReturn 0 /\ still p P' S w'.

(** The end of a sleep: it timed out, or the signals are looked at. *)
Lemma tsleep_woken_ok p P S w c timo : still p P S w -> p_stat P = SRUN ->
  exists t w' P', tsleep_wake p c 0 timo w = Ok (t, w') /\ p_stat P' = SRUN /\ has (p_flag P') SSINTR = false /\ has (p_flag P') STIMO = false
    /\ traced P' = traced P /\ p_pid P' = p_pid P /\ (forall X, deliverable P' X = deliverable P X) /\
    woke p P P' S c t w'.
Proof.
  intros Hst Es. unfold tsleep_wake. destruct (tsleep_flags_ok p P S w Hst Es) as (w1&P1&->&Hst1&Es1&Epid&Hsi&Hti&Htr&Hdel). cbn [mbind outcome_bind].
  change (0 =? 0) with true. rewrite orb_true_r, andb_true_r. unfold woke. destruct (has (p_flag P) STIMO).
  { exists (TReturn EWOULDBLOCK), w1, P1. by split_and!. }
  set (w2 := if _ && _ then _ else w1).
  assert (still p P1 S w2) as Hst2 by (unfold w2; case_if; [by apply still_klog|done]). cbn [negb]. destruct c.
  - pose proof (sl_at _ _ _ _ Hst2) as (T2&Hat2&_).
    destruct (CURSIG_ok w2 p P1 T2 S (sl_core _ _ _ _ Hst2) (sl_cur _ _ _ _ Hst2) Hat2 (sl_p0 _ _ _ _ Hst2) Es1) as (r&w3&->&Hi). cbn [mbind outcome_bind].
    destruct (tsleep_caught_ok p P1 S w2 r w3 Es1 Hst2 Hi) as (t&w'&->&Ht). exists t, w', P1. by split_and!.
  - exists (TReturn 0), w2, P1. by split_and!.
Qed.

(** tsleep goes on after a stop that was for [sig]: before the sleep, which has
    ended meanwhile, or after it.  It returns, or stops once more. *)
Definition went_on (p : loc) (S : sigproc) (r : tsleep_res) (w' : sworld) : Prop :=
  match r with
  | TReturn e => (exists P' S', still p P' S' w' /\ p_stat P' = SRUN /\ dropped_some S S') /\ e ∈ [0; EINTR; ERESTART; EWOULDBLOCK]
  | TStopped _ _ | TStopped2 _ => gave_up p w'
  | TAsleep _ _ => False
  end.

Lemma eintr_in sig S : eintr sig S ∈ [0; EINTR; ERESTART; EWOULDBLOCK].
Proof. unfold eintr. case_if; set_solver. Qed.

Lemma tsleep_resume_ok p P S sig pt timo w : still p P S w -> p_stat P = SRUN -> valid sig -> sig <> SIGKILL ->
  exists r w', tsleep_resume p (Stopped (sigmask sig)) pt timo w = Ok (r, w') /\ went_on p S r w'.
Proof.
  intros Hst Es Hv Hk. unfold tsleep_resume. destruct (issig_resume_ok p P S sig pt w Es Hst Hv Hk) as (S1&r&w1&->&Hst1&Hd1&(_&Hr)&_).
  cbn [mbind outcome_bind]. destruct r as [|g| |m|g]; [done| | | |]; cbn [tsleep_issig]; [| |by do 2 eexists..].
  - destruct Hr as (S2&Hd2&_&->&(Hvg&_)&_). pose proof (still_sig _ _ _ _ _ Hst1 (proj1 Hd2)) as Hst2. set (w2 := set_sigproc p S2 _) in *.
    pose proof (sl_at _ _ _ _ Hst2) as (T&Hat&Ew). unfold tsleep_checked. assert (g <> 0) as Hg by (unfold valid in Hvg; lia).
    rewrite (proj2 (Z.eqb_neq g 0) Hg). cbn [negb].
    destruct (unsleep_self w2 p P T S2 (sl_core _ _ _ _ Hst2) (sl_cur _ _ _ _ Hst2) Hat Es) as (w3&->&Hc3&Ec3&Hat3&E03). cbn [mbind outcome_bind].
    rewrite (with_proc_eq p _ w3 P) by apply Hat3. cbn [mbind outcome_bind].
    assert (still p P S2 w3) as Hst3 by (constructor; [done|done|eexists; by split|rewrite E03; apply Hst2]).
    rewrite (set_run_same p P _ _ w3 Hat3 Es).
    destruct (tsleep_wake_ok p P S2 w3 g timo Hst3 Es Hg) as (w'&P'&->&Hst'&Es'&_). do 2 eexists. split; [reflexivity|].
    split; [|apply eintr_in]. exists P', S2. split; [done|]. split; [done|]. by eapply dropped_some_trans.
  - destruct Hr as (S2&Hd2&_&->&_). pose proof (still_sig _ _ _ _ _ Hst1 (proj1 Hd2)) as Hst2. set (w2 := set_sigproc p S2 _) in *.
    pose proof (sl_at _ _ _ _ Hst2) as (T&Hat&Ew). unfold tsleep_checked. cbn [negb Z.eqb].
    rewrite (thread_of_eq p _ T) by apply Hat. cbn [mbind outcome_bind]. rewrite Ew. change (0 =? 0) with true. cbv iota.
    destruct (tsleep_woken_ok p P S2 w2 false timo Hst2 Es) as (t&w'&P'&->&Es'&_&_&_&_&_&Ht).
    do 2 eexists. split; [reflexivity|]. assert (dropped_some S S2) as Hd by (by eapply dropped_some_trans).
    unfold woke in Ht. destruct (has (p_flag P) STIMO); destruct Ht as (->&Hst'); (split; [|set_solver]); by exists P', S2.
Qed.

Lemma tsleep_resume2_ok p P S sig pt w : still p P S w -> p_stat P = SRUN -> valid sig -> sig <> SIGKILL ->
  exists r w', tsleep_resume2 p (Stopped (sigmask sig)) pt w = Ok (r, w') /\ went_on p S r w'.
Proof.
  intros Hst Es Hv Hk. unfold tsleep_resume2. destruct (issig_resume_ok p P S sig pt w Es Hst Hv Hk) as (S1&r&w1&->&Hst1&Hd1&Hi&_).
  cbn [mbind outcome_bind]. destruct (tsleep_caught_ok p P S1 _ r w1 Es Hst1 Hi) as (t&w'&->&Ht). do 2 eexists. split; [reflexivity|].
  destruct t as [e| | |]; cbn [went_on] in *; [|done..|apply Ht]. destruct Ht as (S2&Hst2&Hd2&He). split.
  - exists P, S2. split; [done|]. split; [done|]. by eapply dropped_some_trans.
  - revert He. destruct (Z.eqb_spec e 0) as [->|]; [intros _; set_solver|]. intros (g&_&->). apply eintr_in.
Qed.

(** What tsleep comes to. *)
Definition slept (o : bool) (p : loc) (P : proc) (S : sigproc) (chan pri timo : Z) (r : tsleep_res) (w' : sworld) : Prop :=
  match r with
  | TReturn e => has pri PCATCH = true /\ exists sig P' S', takes P S' sig /\ dropped_some S S' /\ unheeded o P S S' /\ e = eintr sig S' /\ still p P' S' w'
      /\ p_stat P' = SRUN
  | TAsleep c t => c = has pri PCATCH /\ t = timo /\ core w' /\ awake (kw w') /\ curproc (kw w') <> Some p /\
      exists P' T' S', at_ w' p P' T' S' /\ p_stat P' = SSLEEP /\ p_wchan T' = chan /\ dropped_some S S'
        /\ (if c then unheeded o P S S' else S' = S) /\ (c = true -> deliverable P S' = 0 /\ ~ killed P S)
  | TStopped _ t => has pri PCATCH = true /\ t = timo /\ gave_up p w' /\ ~ killed P S
  | TStopped2 _ => False
  end.

Lemma tsleep_ok w p P T S chan pri timo : calm w -> curproc (kw w) = Some p -> at_ w p P T S -> p <> proc0 (pw (kw w)) ->
  chan <> 0 -> chan <> proc_addr (proc0 (pw (kw w))) -> Z.land pri PRIMASK <= MAXPRI ->
  exists r w', tsleep false chan pri timo w = Ok (r, w') /\ slept (orphan_group w P) p P S chan pri timo r w'.
Proof.
  intros (Hc&Ha) Ec Hat Hp0 Hch Hc0 Hpri. destruct (Ha p P T Ec (proj1 Hat)) as (Es&Ew).
  assert (0 <= Z.land pri PRIMASK) as Hpri0 by (apply Z.land_nonneg; by right).
  unfold tsleep. rewrite Ec. cbn [deref mbind outcome_bind].
  destruct (sleep_on_core w p P T S chan (Z.land pri PRIMASK) Hc Ec Hat Es Ew Hch Hc0) as (w1&->&Hc1&Ec1&Epw1&Hat1); [done|].
  assert (proc0 (pw (kw w1)) = proc0 (pw (kw w))) as E01 by (by rewrite Epw1).
  cbn [mbind outcome_bind]. set (T1 := set_pri _ _) in *.
  set (w2 := if timo =? 0 then w1 else _).
  assert (core w2 /\ curproc (kw w2) = Some p /\ proc0 (pw (kw w2)) = proc0 (pw (kw w)) /\ at_ w2 p P T1 S) as (Hc2&Ec2&E02&Hat2).
  { unfold w2. case_if; [done|]. split; [by apply core_klog|]. done. }
  assert (pgrps (pw (kw w2)) = pgrps (pw (kw w))) as Epg2 by (unfold w2; case_if; cbn; by rewrite Epw1).
  clearbody w2. pose proof (co_sig _ Hc2 p S (proj2 Hat2)) as HS. destruct (has pri PCATCH) eqn:Epc.
  2: { destruct (doze_core w2 p P T1 S Hc2 Ec2 Hat2 Es Hch) as (w'&->&Hc'&Ha'&Hne&Hat'). cbn [mbind outcome_bind].
       do 2 eexists. split; [reflexivity|]. cbn [slept]. rewrite Epc. do 5 (split; [done|]). eexists _, _, _. split; [exact Hat'|].
       split; [done|]. split; [done|]. split; [by apply dropped_some_refl|done]. }
  rewrite (with_proc_eq p _ w2 P) by apply Hat2. cbn [mbind outcome_bind]. set (P2 := set_p_flag _ P). set (w3 := set_kw _ w2).
  assert (core w3) as Hc3.
  { apply (core_proc w2 p P T1 S); [done|done|by unfold same_place|]. apply (Sq_proc _ p P T1); [apply Hc2|apply Hat2|].
    split; [done|]. split; by apply has_lor. }
  assert (at_ w3 p P2 T1 S) as Hat3 by (split; [split; [apply lookup_insert_eq|apply Hat2]|apply Hat2]).
  assert (forall X, deliverable P2 X = deliverable P X) as Hdel by (intros X; unfold deliverable; cbn; by rewrite has_lor).
  assert (forall X, unheeded (orphan_group w3 P2) P2 S X -> unheeded (orphan_group w P) P S X) as Hunh.
  { intros X HX s Hs Hm. destruct (HX s Hs Hm) as [?|(H1&H2)]; [by left|right]. rewrite Hdel in H1. split; [done|].
    assert (orphan_group w3 P2 = orphan_group w P) as Eo by (unfold orphan_group; cbn; by rewrite Epg2). rewrite Eo in H2.
    unfold ignores, traced in *. cbn in H2. by rewrite has_lor in H2. }
  assert (forall X, killed P X -> killed P2 X) as Hkl by (intros X (?&?&?); split; [done|]; split; [unfold traced in *; cbn; by rewrite has_lor|done]).
  destruct (CURSIG_ok w3 p P2 T1 S Hc3 Ec2 Hat3) as (r&w4&->&Hk&Hr); [change (p <> proc0 (pw (kw w2))); by rewrite E02|done|]. cbn [mbind outcome_bind tsleep_issig].
  destruct r as [|sig| |m|sig]; [done| | | |]; cbn [tsleep_issig].
  - destruct Hr as (S'&Hd&Hu%Hunh&->&(Hv&Hdm&Hdfl&Hig)&_). set (w4 := set_sigproc p S' w3).
    destruct (core_sig w3 p P2 T1 S S' Hc3 Hat3 (proj1 Hd)) as (Hc4&Hat4). fold w4 in Hc4, Hat4. unfold tsleep_checked.
    assert (sig <> 0) as Hs0 by (unfold valid in Hv; lia). rewrite (proj2 (Z.eqb_neq sig 0) Hs0). cbn [negb].
    destruct (unsleep_self w4 p P2 T1 S' Hc4 Ec2 Hat4 Es) as (w5&->&Hc5&Ec5&Hat5&E05). cbn [mbind outcome_bind].
    rewrite (with_proc_eq p _ w5 P2) by apply Hat5. cbn [mbind outcome_bind].
    rewrite (set_run_same p P2 _ _ w5 Hat5 Es).
    assert (still p P2 S' w5) as Hst5.
    { constructor; [done|done| |rewrite E05; change (p <> proc0 (pw (kw w2))); by rewrite E02]. eexists. by split. }
    destruct (tsleep_wake_ok p P2 S' w5 sig timo Hst5 Es Hs0) as (w'&P'&->&Hst&Es'&_).
    do 2 eexists. split; [reflexivity|]. split; [done|]. exists sig, P', S'. split; [|by split]. split; [done|]. by rewrite <- Hdel.
  - destruct Hr as (S'&Hd&Hu%Hunh&->&E0). destruct (core_sig w3 p P2 T1 S S' Hc3 Hat3 (proj1 Hd)) as (Hc4&Hat4). set (w4 := set_sigproc p S' w3) in *.
    unfold tsleep_checked. cbn [negb Z.eqb]. rewrite (thread_of_eq p _ T1) by apply Hat4. cbn [mbind outcome_bind].
    rewrite (proj2 (Z.eqb_neq (p_wchan T1) 0)) by done.
    destruct (doze_core w4 p P2 T1 S' Hc4 Ec2 Hat4 Es Hch) as (w'&->&Hc'&Ha'&Hne&Hat'). cbn [mbind outcome_bind].
    do 2 eexists. split; [reflexivity|]. cbn [slept]. do 5 (split; [done|]). eexists _, _, _. split; [exact Hat'|].
    split; [done|]. split; [done|]. split; [done|]. split; [done|]. intros _. rewrite <- Hdel. split; [done|]. intros K. by destruct (Hk (Hkl _ K)).
  - do 2 eexists. split; [reflexivity|]. split; [done|]. split; [done|]. split; [done|]. intros K. by destruct (Hk (Hkl _ K)).
  - do 2 eexists. split; [reflexivity|]. split; [done|]. split; [done|]. split; [done|]. intros K. by destruct (Hk (Hkl _ K)).
Qed.
End Tsleep.

(** ** Forking *)

(** A new process on its run queue. *)
Lemma Sq_new r k p1 pid vf p2 u T2 : Sq_at r k -> forked p1 pid vf (pw k) p2 u -> curproc k = Some p1 ->
  p_wchan T2 = 0 -> p_rlink T2 = false -> 0 <= p_pri T2 <= MAXPRI -> 0 <= p_usrpri T2 <= MAXPRI -> 0 <= p_cpu T2 < 2 ^ 32 ->
  0 <= p_slptime T2 < 2 ^ 32 ->
  exists k2, setrq p2 (set_thread p2 T2 (set_pw u k)) = Ok k2 /\ Sq k2 /\ pw k2 = u /\ curproc k2 = curproc k
    /\ threads k2 = <[p2 := set_rlink true T2]> (threads k).
Proof.
  intros HS Hf Hc Ew Er Hp Hu Hcpu Hsl. unfold setrq, thread_of. cbn. rewrite lookup_insert_eq. cbn. rewrite Er.
  eexists. split; [reflexivity|]. cbn. split; [|split; [done|split; [done|by rewrite insert_insert_eq]]]. set (k2 := set_qs _ _).
  pose proof (fk_new _ _ _ _ _ _ Hf) as Hnew. destruct (fk_child _ _ _ _ _ _ Hf) as (P2&EP2&_&_&_&Es2&_&_&_&_&_&_&El2&Ex2).
  destruct (fk_parent _ _ _ _ _ _ Hf) as (P1&EP1&EP1'). pose proof (fk_others _ _ _ _ _ _ Hf) as Ho.
  assert (threads k !! p2 = None) as HnT.
  { destruct (threads k !! p2) as [T|] eqn:E; [|done]. destruct (proj1 (sq_dom _ _ HS p2)) as (?&?); [by eexists|]. congruence. }
  assert (p1 <> p2) as H12 by congruence.
  assert (forall x X, x <> p2 -> procs u !! x = Some X -> exists X0, procs (pw k) !! x = Some X0 /\ p_stat X = p_stat X0 /\ p_flag X = p_flag X0) as Hback.
  { intros x X Hx EX. destruct (decide (x = p1)) as [->|Hx1]; [|rewrite Ho in EX by done; by exists X].
    exists P1. split; [done|]. rewrite EP1' in EX. by injection EX as <-. }
  assert (r p2 = None) as Hr2.
  { destruct (r p2) as [n|] eqn:E; [|done]. destruct (sq_rpos _ _ HS p2 n E) as (X&?&EX&_). congruence. }
  assert (Hth : forall x, threads k2 !! x = if decide (x = p2) then Some (set_rlink true T2) else threads k !! x).
  { intros x. unfold k2. cbn. rewrite insert_insert_eq. destruct (decide (x = p2)) as [->|]; [apply lookup_insert_eq|by apply lookup_insert_ne]. }
  set (n := p_pri T2 / PPQ) in *. exists (fun x => if decide (x = p2) then Some n else r x). constructor.
  - intros x. rewrite Hth. change (procs (pw k2)) with (procs u). destruct (decide (x = p2)) as [->|Hx]; [by split; eexists|].
    rewrite (sq_dom _ _ HS x). destruct (decide (x = p1)) as [->|]; [|by rewrite Ho]. rewrite EP1, EP1'. by split; eexists.
  - apply (queue_ok_ext (slpq k) (wpos k)); [apply HS|]. intros x. unfold wpos. rewrite Hth. destruct (decide (x = p2)) as [->|]; [|done].
    rewrite HnT. cbn. unfold wslot. cbn. by rewrite Ew.
  - apply (queue_moves p2 (qs k) (qs k2) r); [apply HS| |intros x Hx; by rewrite decide_False]. rewrite decide_True, Hr2 by done. done.
  - intros x m. rewrite Hth. change (procs (pw k2)) with (procs u). destruct (decide (x = p2)) as [->|Hx].
    + intros [= <-]. exists P2, (set_rlink true T2). split; [done|]. split; [done|]. split; [done|]. split; [|by left].
      change MAXPRI with 127 in Hp. unfold n. change PPQ with 4. split; [apply Z.div_pos; lia|apply Z.div_lt_upper_bound; lia].
    + intros E. destruct (sq_rpos _ _ HS x m E) as (X&Y&EX&EY&HR&Hm&Hor). destruct (decide (x = p1)) as [->|].
      * exists (set_p_cptr (p2 :: p_cptr P1) P1), Y. simplify_eq. done. * exists X, Y. rewrite Ho by done. done.
  - intros x T. rewrite Hth. destruct (decide (x = p2)) as [->|]; [by eexists|]. apply (sq_rlink _ _ HS).
  - intros x X Y. rewrite Hth. change (procs (pw k2)) with (procs u). change (curproc k2) with (curproc k). destruct (decide (x = p2)) as [->|Hx].
    + intros EX [= <-]. assert (X = P2) as -> by congruence. constructor; cbn; rewrite ?Es2, ?El2; auto; try done.
      intros _. split; [done|]. split; [|done]. rewrite Hc. congruence.
    + intros EX EY. destruct (Hback x X Hx EX) as (X0&EX0&E1&E2). destruct (sq_st _ _ HS x X0 Y EX0 EY). constructor; rewrite ?E1, ?E2; done.
  - exact (sq_load _ _ HS).
Qed.

Lemma fork_sig_ok S : sig_ok S -> sig_ok (fork_sig S).
Proof. intros []. by constructor. Qed.

Section Fork.
Context `{Layout}.

Lemma sfork_ok w p P pid xstat vf : calm w -> curproc (kw w) = Some p -> procs (pw (kw w)) !! p = Some P -> fresh_pid (pw (kw w)) pid ->
  p <> proc0 (pw (kw w)) ->
  exists p2 r w', sfork p pid xstat vf w = Ok (p2, r, w') /\ calm w' /\ procs (pw (kw w)) !! p2 = None
    /\ (if vf then r = Some (TAsleep false 0) /\ curproc (kw w') <> Some p
        else r = None /\ curproc (kw w') = Some p /\
          exists P2 T2 S2 S, at_ w' p2 P2 T2 S2 /\ p_pid P2 = pid /\ p_rlink T2 = true /\ sigs w !! p = Some S /\ S2 = fork_sig S).
Proof.
  intros Hw Ec EP Hf Hp0. pose proof Hw as (Hc&Ha). destruct (core_at w p P Hc EP) as (T&S&Hat&HS). pose proof Hat as ((_&ET)&ES).
  destruct (Ha p P T Ec (proj1 Hat)) as (Es&Ew). destruct Hc as [[HSq Hsw Hd] HI Hs]. destruct HSq as (r&HSr).
  destruct (fork_child_ok (pw (kw w)) p P pid xstat vf HI EP) as (p2&u&Ef&HIu&Hfk); [by rewrite Es|done|].
  pose proof (sq_st _ _ HSr p P T EP ET) as Hok.
  destruct (Sq_new r (kw w) p pid vf p2 u (fork_thread T) HSr Hfk Ec) as (k2&Eq&HS2&Epw&Ec2&Et2); [done|done|apply Hok|apply Hok|done|done|].
  unfold sfork. rewrite Ef. cbn [mbind outcome_bind]. rewrite (thread_of_eq p _ T ET), (sig_of_eq p w S ES). cbn [mbind outcome_bind]. rewrite Eq. cbn [mbind outcome_bind].
  set (w1 := mkSworld _ _ _). pose proof (fk_new _ _ _ _ _ _ Hfk) as Hnew.
  destruct (fk_child _ _ _ _ _ _ Hfk) as (P2&EP2&Epid&_). destruct (fk_parent _ _ _ _ _ _ Hfk) as (P1&EP1&EP1').
  destruct (fk_lists _ _ _ _ _ _ Hfk) as (_&_&_&E0&_). assert (p <> p2) as Hp2 by congruence.
  assert (sigs w !! p2 = None) as HnS.
  { destruct (sigs w !! p2) eqn:E; [|done]. destruct (proj1 (Hd p2)) as (?&?); [by eexists|]. congruence. }
  assert (core w1) as Hc1.
  { constructor; [constructor; [done| |]|cbn; by rewrite Epw|].
    - intros x Y. cbn [kw w1]. rewrite Epw, E0, Et2. destruct (decide (x = p2)) as [->|].
      + rewrite lookup_insert_eq. intros [= <-] E. cbn in E. symmetry in E. by apply proc_addr_nz in E.
      + rewrite lookup_insert_ne by done. apply Hsw.
    - intros q. cbn [kw w1 sigs]. rewrite Epw. destruct (decide (q = p2)) as [->|]; [rewrite lookup_insert_eq; by split; eexists|].
      rewrite lookup_insert_ne, Hd by done. destruct (decide (q = p)) as [->|]; [rewrite EP1, EP1'; by split; eexists|].
      by rewrite (fk_others _ _ _ _ _ _ Hfk).
    - intros q Q. cbn. destruct (decide (q = p2)) as [->|]; [rewrite lookup_insert_eq; intros [= <-]; by apply fork_sig_ok|].
      rewrite lookup_insert_ne by done. apply Hs. }
  assert (at_ w1 p (set_p_cptr (p2 :: p_cptr P1) P1) T S) as Hat1.
  { split; [split; [cbn; by rewrite Epw|cbn; by rewrite Et2, lookup_insert_ne]|cbn; by rewrite lookup_insert_ne]. }
  assert (p_stat P1 = SRUN) as Es1 by congruence.
  assert (awake (kw w1)) as Ha1.
  { intros q Q R Eq' (EQ&ER). cbn in Eq'. rewrite Ec2, Ec in Eq'. injection Eq' as <-. destruct Hat1 as ((EP'&ET')&_). by simplify_eq. }
  assert (at_ w1 p2 P2 (set_rlink true (fork_thread T)) (fork_sig S)) as Hat2.
  { split; [split; [cbn; by rewrite Epw|cbn; by rewrite Et2, lookup_insert_eq]|cbn; apply lookup_insert_eq]. }
  assert (curproc (kw w1) = Some p) as Ec1 by (cbn; by rewrite Ec2).
  assert (proc0 (pw (kw w1)) = proc0 (pw (kw w))) as E01 by (cbn; by rewrite Epw).
  destruct vf.
  - destruct (tsleep_ok w1 p _ T S (proc_addr p) PWAIT 0 (conj Hc1 Ha1) Ec1 Hat1) as (r'&w'&E&Hsl);
      [by rewrite E01|apply proc_addr_nz|rewrite E01; intros E; by apply Hp0, proc_addr_inj|done|].
    rewrite E. cbn [mbind outcome_bind]. exists p2, (Some r'), w'. split; [done|].
    destruct r' as [e|c t|a t|a]; cbn [slept] in Hsl; [by destruct Hsl as (?&_)| |by destruct Hsl as (?&_)|done].
    destruct Hsl as (->&->&Hc'&Ha'&Hne&_). by split_and!.
  - exists p2, None, w1. split; [done|]. split; [done|]. split; [done|]. split; [done|].
    split; [done|]. exists P2, (set_rlink true (fork_thread T)), (fork_sig S), S. done.
Qed.
End Fork.
