(* ===== verification/SignalRun.v ===== *)
(** * Signals: the system of processes that signal, sleep and fork

    The calls of the process on the processor, and what the clock and the kernel
    do to the others, as the steps of one system. *)

From S2P Require Import Prelude Pgrp PgrpInv PgrpCalls Exit ForkInv Life Sleep SleepInv SleepCalls.
From S2P Require Import Signal SignalInv SignalPost SignalTake SignalSend SignalSys.

Inductive sop :=
  | Post (p : loc) (sig : Z)                        (* psignal, from the kernel *)
  | Pgpost (g : option loc) (sig : Z) (checkctty : bool)
  | Kill (pid sig : Z)
  | Action (sig : Z) (osa : option (sigaction -> Z)) (nsa : option (Z + sigaction))
  | Procmask (how mask : Z)
  | Exec
  | ToUser (ok : Z -> bool) (dumped : bool)         (* the return to user mode *)
  | GoOn (sig : Z) (ok : Z -> bool) (dumped : bool) (* after a stop for [sig] *)
  | Tsleep (chan pri timo : Z)
  | Awaken (catch_ : bool) (timo : Z)               (* tsleep goes on, after the sleep *)
  | Resleep (sig : Z) (timo : Z)                    (* or after a stop for [sig], before the sleep *)
  | Rewaken (sig : Z)                               (* or after it *)
  | WakeChan (chan : Z)
  | Timedout (p : loc)
  | Second (hz : Z) (bclnlist : bool) (pageproc : loc)
  | Preempt
  | ForkProc (pid xstat : Z) (isvfork : bool).

Section Run.
Context `{Layout}.

(** A call of the process that has the processor. *)
Definition by_cur {A} (f : loc -> sworld -> outcome (A * sworld)) (w : sworld) : outcome sworld :=
  p ← deref (curproc (kw w)); '(_, w) ← f p w; mret w.

Definition exec_step (p : loc) (w : sworld) : outcome (unit * sworld) := w ← execsigs p w; mret (tt, w).

Definition sstep (o : sop) (w : sworld) : outcome sworld :=
  match o with
  | Post p sig => psignal p sig w
  | Pgpost g sig c => pgsignal g sig c w
  | Kill pid sig => by_cur (fun p => kill p pid sig) w
  | Action sig osa nsa => by_cur (fun p => sigaction_call p sig osa nsa) w
  | Procmask how mask => by_cur (fun p => sigprocmask p how mask) w
  | Exec => by_cur exec_step w
  | ToUser ok dumped => by_cur (fun p => user_loop 32 ok dumped p) w
  | GoOn sig ok dumped => by_cur (fun p => user_resume ok dumped p (Stopped (sigmask sig)) false) w
  | Tsleep chan pri timo => '(_, w) ← tsleep false chan pri timo w; mret w
  | Awaken c timo => by_cur (fun p => tsleep_wake p c 0 timo) w
  | Resleep sig timo => by_cur (fun p => tsleep_resume p (Stopped (sigmask sig)) false timo) w
  | Rewaken sig => by_cur (fun p => tsleep_resume2 p (Stopped (sigmask sig)) false) w
  | WakeChan chan => lift (wakeup chan) w
  | Timedout p => lift (endtsleep p) w
  | Second hz b pageproc => lift (schedcpu hz b pageproc) w
  | Preempt => p ← deref (curproc (kw w)); lift (preempt p) w
  | ForkProc pid xstat vf => by_cur (fun p => sfork p pid xstat vf) w
  end.

(** A process other than process 0 has the processor. *)
Definition running_user (w : sworld) : bool :=
  match curproc (kw w) with
  | Some p => bool_decide (is_Some (procs (pw (kw w)) !! p)) && negb (bool_decide (p = proc0 (pw (kw w))))
  | None => false
  end.

Definition okmask (m : Z) : bool := (0 <=? m) && (m <? 2 ^ 32).
Definition oksig (sig : Z) : bool := (1 <=? sig) && (sig <? NSIG).

(** The steps that can be: signals are posted to processes other than process 0,
    sets are 32 bits, channels are addresses, ids are fresh. *)
Definition slegal (o : sop) (w : sworld) : bool :=
  match o with
  | Post p sig => oksig sig && bool_decide (is_Some (procs (pw (kw w)) !! p)) && negb (bool_decide (p = proc0 (pw (kw w))))
  | Pgpost g sig _ => oksig sig &&
      match g with
      | Some g => match pgrps (pw (kw w)) !! g with Some G => negb (bool_decide (proc0 (pw (kw w)) ∈ pg_mem G)) | None => false end
      | None => true
      end
  | Kill _ _ | Exec | Preempt | ToUser _ _ | Awaken _ _ => running_user w
  | Action _ _ (Some (inr sa)) => running_user w && okmask (sa_mask sa)
  | Action _ _ _ => running_user w
  | Procmask _ mask => running_user w && okmask mask
  | GoOn sig _ _ | Resleep sig _ | Rewaken sig => running_user w && oksig sig && negb (sig =? SIGKILL)
  | Tsleep chan pri _ => running_user w && negb (chan =? 0) && negb (chan =? proc_addr (proc0 (pw (kw w))))
      && (Z.land pri PRIMASK <=? MAXPRI)
  | WakeChan chan => negb (chan =? 0)
  | Timedout p => bool_decide (is_Some (procs (pw (kw w)) !! p))
  | Second _ _ _ => true
  | ForkProc pid _ _ => running_user w && fresh_pidb (pw (kw w)) pid
  end.

Fixpoint srun (os : list sop) (w : sworld) : outcome sworld :=
  match os with
  | [] => mret w
  | o :: os => w ← sstep o w; srun os w
  end.

Fixpoint slegal_run (os : list sop) (w : sworld) : bool :=
  match os with
  | [] => true
  | o :: os => slegal o w && match sstep o w with Ok w => slegal_run os w | _ => false end
  end.

(** ** Each step *)

Lemma ksteps_calm w k : calm w -> ksteps (kw w) k -> calm (set_kw k w).
Proof. intros Hw Hk. apply (calm_steps w); [done|by apply steps_k]. Qed.

Lemma still_calm p P S w : still p P S w -> p_stat P = SRUN -> calm w.
Proof. intros Hst Es. split; [apply Hst|by eapply still_awake]. Qed.

(** The running process. *)
Lemma running_still w : calm w -> running_user w = true -> exists p P S, curproc (kw w) = Some p /\ still p P S w /\ p_stat P = SRUN.
Proof.
  intros (Hc&Ha) Hr. unfold running_user in Hr. destruct (curproc (kw w)) as [p|] eqn:Ec; [|done].
  apply andb_true_iff in Hr as ((P&EP)%bool_decide_eq_true&Hp%negb_true_iff%bool_decide_eq_false).
  destruct (core_at w p P Hc EP) as (T&S&Hat&_). destruct (Ha p P T Ec (proj1 Hat)) as (Es&Ew).
  exists p, P, S. split; [done|]. split; [|done]. constructor; [done|done| |done]. by exists T.
Qed.

Lemma oksig_valid sig : oksig sig = true -> valid sig.
Proof. unfold oksig, valid. lia. Qed.

(** The process goes on after a stop for [sig]. *)
Lemma stopped_for w sig : calm w -> running_user w && oksig sig && negb (sig =? SIGKILL) = true ->
  exists p P S, curproc (kw w) = Some p /\ still p P S w /\ p_stat P = SRUN /\ valid sig /\ sig <> SIGKILL.
Proof.
  intros Hw ((Hl&Hs%oksig_valid)%andb_true_iff&Hk%negb_true_iff%Z.eqb_neq)%andb_true_iff.
  destruct (running_still w Hw Hl) as (p&P&S&?&?&?). by exists p, P, S.
Qed.

Lemma okmask_fits m : okmask m = true -> fits 32 m.
Proof. unfold okmask, fits. lia. Qed.

Lemma setsigvec_ok p P S w sig sa : still p P S w -> valid sig -> sig <> SIGKILL -> sig <> SIGSTOP -> fits 32 (sa_mask sa) ->
  exists w' P' S', setsigvec p sig sa w = Ok w' /\ still p P' S' w' /\ p_stat P' = p_stat P.
Proof.
  intros Hst Hv Hk Hs Hm. pose proof (sl_at _ _ _ _ Hst) as (T&Hat&Ew). pose proof Hat as ((EP&ET)&ES). pose proof (still_ok p P S w Hst) as HS.
  unfold setsigvec. rewrite (sig_of_eq p w S ES), (proc_of_eq p _ P EP). cbn [mbind outcome_bind mret outcome_ret].
  set (P' := set_p_flag _ P). set (w1 := set_kw _ w). match goal with |- context [setsigvec_sets sig ?h ?s] => set (S' := setsigvec_sets sig h s) end.
  assert (sig_ok S') as HS' by (by apply setsigvec_sets_ok).
  assert (core w1) as Hc1.
  { apply (core_proc w p P T S); [apply Hst|done|by unfold same_place|]. apply (Sq_proc _ p P T); [apply Hst|done|].
    split; [done|]. unfold P', andnot. cbn. repeat case_if; split; (by apply has_lor) || (by apply has_clear) || done. }
  assert (at_ w1 p P' T S) as Hat1 by (split; [split; [apply lookup_insert_eq|done]|done]).
  destruct (core_sig w1 p P' T S S' Hc1 Hat1 HS') as (Hc2&Hat2). exists (set_sigproc p S' w1), P', S'. split; [done|]. split; [|done].
  constructor; [done|apply Hst| |apply Hst]. by exists T.
Qed.

Lemma action_calm p P S w sig old osa nsa new : still p P S w -> p_stat P = SRUN ->
  (forall sa, nsa = Some (inr sa) -> fits 32 (sa_mask (new sa))) ->
  exists e w', action_call sig old osa nsa new p w = Ok (e, w') /\ calm w'.
Proof.
  intros Hst Es Hm. pose proof (sl_at _ _ _ _ Hst) as (T&((EP&ET)&ES)&Ew). pose proof (still_calm p P S w Hst Es) as Hw. unfold action_call.
  destruct (_ || (sig =? SIGSTOP)) eqn:Er; [by exists EINVAL, w|]. rewrite (sig_of_eq p w S ES), (proc_of_eq p _ P EP). cbn [mbind outcome_bind].
  destruct (negb _); [by eexists _, w|]. destruct nsa as [[e|sa]|]; [by exists e, w| |by exists 0, w].
  rewrite !orb_false_iff in Er. destruct Er as (((?&?)&Ek)&Ess).
  destruct (setsigvec_ok p P S w sig (new sa) Hst) as (w'&P'&S'&->&Hst'&Es'); [unfold valid; lia|by apply Z.eqb_neq|by apply Z.eqb_neq|by apply Hm|].
  exists 0, w'. split; [done|]. apply (still_calm p P' S'); [done|congruence].
Qed.

Lemma procmask_ok p P S w how mask : still p P S w -> fits 32 mask ->
  exists e w' S', sigprocmask p how mask w = Ok (e, p_sigmask S, w') /\ still p P S' w'.
Proof.
  intros Hst Hm. pose proof (sl_at _ _ _ _ Hst) as (T&((EP&ET)&ES)&Ew). pose proof (still_ok p P S w Hst) as HS.
  unfold sigprocmask. rewrite (sig_of_eq p w S ES). cbn [mbind outcome_bind].
  assert (forall s, s = SIGKILL \/ s = SIGSTOP -> mem (p_sigmask S) s = false) as Hcant by (intros s Hs; by destruct (so_cant _ HS s Hs) as (_&?&_)).
  assert (fits 32 (andnot mask sigcantmask)) as Hf by (by apply fits_andnot; [lia|]).
  destruct (how =? SIG_BLOCK); [|destruct (how =? SIG_UNBLOCK); [|destruct (how =? SIG_SETMASK)]].
  - do 3 eexists. split; [reflexivity|]. apply still_sig with S; [done|]. apply sig_ok_mask; [done|apply fits_lor; [lia|apply HS|done]|].
    intros s Hs. by rewrite mem_lor, Hcant, cant_andnot by done.
  - do 3 eexists. split; [reflexivity|]. apply still_sig with S; [done|]. apply sig_ok_mask; [done|apply fits_andnot; [lia|apply HS]|].
    intros s Hs. rewrite mem_andnot, Hcant by (done || (destruct Hs; subst; unfold SIGKILL, SIGSTOP; lia)). done.
  - do 3 eexists. split; [reflexivity|]. apply still_sig with S; [done|]. apply sig_ok_mask; [done|done|]. intros s Hs. by apply cant_andnot.
  - by eexists _, w, S.
Qed.

(** What execsigs leaves in the state [S] once no signal is caught. *)
Definition exec_clear (S : sigproc) : sigproc := set_p_sigacts (set_sigonstack 0 (set_sigstack 0 0 (p_sigacts S))) S.

Lemma Ok_bind {A B} (f : A -> outcome B) a : (x ← Ok a; f x) = f a.
Proof. reflexivity. Qed.

Lemma execsigs_eq p w S S1 : sigs w !! p = Some S -> execsigs_loop 32 S = Ok S1 -> execsigs p w = Ok (set_sigproc p (exec_clear S1) w).
Proof. intros E1 E2. unfold execsigs. by rewrite (sig_of_eq p w S E1), Ok_bind, E2, Ok_bind. Qed.

Lemma exec_clear_ok S : sig_ok S -> sig_ok (exec_clear S).
Proof. intros HS. apply sig_ok_acts; try done; [apply HS|]. intros s Hs. by destruct (so_cant _ HS s Hs) as (_&_&?&_). Qed.

Lemma exec_ok p P S w : still p P S w -> exists S1, execsigs p w = Ok (set_sigproc p (exec_clear S1) w) /\ still p P (exec_clear S1) (set_sigproc p (exec_clear S1) w)
  /\ exec_reset S S1.
Proof.
  intros Hst. pose proof (sl_at _ _ _ _ Hst) as (T&(_&ES)&_). pose proof (still_ok p P S w Hst) as HS.
  assert (forall i, 1 <= i <= 0 -> mem (p_sigcatch S) i = false) as H0 by lia.
  destruct (execsigs_loop_ok 32 S 0 HS ltac:(lia) H0 ltac:(lia)) as (S1&E&Hr). exists S1. split; [by apply (execsigs_eq p w S)|].
  split; [|exact Hr]. apply (still_sig p P S); [exact Hst|]. apply exec_clear_ok, Hr.
Qed.

Lemma user_post_calm ok dumped p P S w r w' : user_post ok dumped p P S w r w' -> p_stat P = SRUN -> calm w'.
Proof.
  intros Hp Es. destruct r; cbn in Hp.
  - destruct Hp as (_&S'&L&Hst&_). by apply (still_calm p P S'). - destruct Hp as ((S'&Hst)&_). by apply (still_calm p P S').
  - destruct Hp as (_&Hg). by split; apply Hg.
Qed.

Lemma slept_calm o p P S chan pri timo r w' : slept o p P S chan pri timo r w' -> calm w'.
Proof.
  destruct r; cbn; [|intros (_&_&Hc&Ha&_); by split|intros (_&_&Hg&_); by split; apply Hg|done].
  intros (_&sig&P'&S'&_&_&_&_&Hst&Es'). by apply (still_calm p P' S').
Qed.

Lemma gave_up_calm p w' : gave_up p w' -> calm w'.
Proof. intros Hg. split; apply Hg. Qed.

Lemma went_on_calm p S r w' : went_on p S r w' -> calm w'.
Proof.
  destruct r; cbn; [|done|apply gave_up_calm..]. intros ((P'&S'&Hst&Es&_)&_). by apply (still_calm p P' S').
Qed.

Lemma woken_calm p P P' S c t w' : p_stat P' = SRUN -> woke p P P' S c t w' -> calm w'.
Proof.
  intros Es. unfold woke. destruct (has _ _); [intros (_&Hst); by apply (still_calm p P' S)|]. destruct c; [|intros (_&Hst); by apply (still_calm p P' S)].
  destruct t; [|done..|intros (Hg&_); by apply (gave_up_calm p)]. intros (S'&Hst&_). by apply (still_calm p P' S').
Qed.

(** The time of a sleep is over. *)
Lemma endtsleep_calm w p P : calm w -> procs (pw (kw w)) !! p = Some P -> exists w', lift (endtsleep p) w = Ok w' /\ calm w'.
Proof.
  intros Hw EP. pose proof Hw as (Hc&Ha). destruct (core_at w p P Hc EP) as (T&S&Hat&_). pose proof Hat as ((_&ET)&ES).
  unfold lift, endtsleep. rewrite (thread_of_eq p _ T ET). cbn [mbind outcome_bind].
  destruct (Z.eqb_spec (p_wchan T) 0) as [E|Ewc]; [exists (set_kw (kw w) w); split; [done|by destruct w]|].
  assert (curproc (kw w) <> Some p) as Hne by (intros E; by destruct (Ha p P T E (proj1 Hat))).
  rewrite (proc_of_eq p _ P EP). cbn [mbind outcome_bind].
  assert (forall w2 P2 T2 S2, calm w2 -> curproc (kw w2) <> Some p -> at_ w2 p P2 T2 S2 ->
    calm (set_kw (set_proc p (set_p_flag (Z.lor (p_flag P2) STIMO) P2) (kw w2)) w2)) as Hfin.
  { intros w2 P2 T2 S2 (Hc2&Ha2) Hn2 Hat2. split.
    - apply (core_proc w2 p P2 T2 S2); [done|done|by unfold same_place|]. apply (Sq_proc _ p P2 T2); [apply Hc2|apply Hat2|].
      split; [done|]. split; by apply has_lor.
    - intros q Q R Eq (EQ&ER). cbn in Eq, EQ, ER. rewrite lookup_insert_ne in EQ by congruence. by apply (Ha2 q Q R). }
  destruct (Z.eqb_spec (p_stat P) SSLEEP) as [Es|Es].
  - destruct (setrun_w w p P T S (co_base _ Hc) Hat) as (w2&T2&E2&Hst&Hat2&_); [by right; left|done|].
    unfold lift in E2. destruct (setrun p (kw w)) as [k2| |] eqn:Ek; [|done..]. cbn in E2. injection E2 as <-. cbn [mbind outcome_bind].
    rewrite (proc_of_eq p k2 _ (proj1 (proj1 Hat2))). cbn [mbind outcome_bind mret outcome_ret]. eexists. split; [reflexivity|].
    apply (Hfin (set_kw k2 w) _ T2 S); [by eapply calm_steps| |done]. by rewrite (steps_cur _ _ Hst).
  - pose proof (b_sq _ (co_base _ Hc)) as (r&HS). destruct (unsleep_eq p (kw w) T (sq_slp _ _ HS) ET) as (q&->&Hm). cbn [mbind outcome_bind].
    rewrite (proc_of_eq p _ P) by done. cbn [mbind outcome_bind mret outcome_ret]. eexists. split; [reflexivity|].
    set (k1 := set_thread p _ _). apply (Hfin (set_kw k1 w) P (set_wchan 0 T) S); [|done|split; [split; [done|apply lookup_insert_eq]|done]].
    apply ksteps_calm; [done|]. constructor; [by apply (Sq_unwait r p P T (kw w) k1)|apply placed_refl|done| |by intros; eexists|by intros; eexists].
    intros x Y E'. cbn in E'. destruct (decide (x = p)) as [->|]; [rewrite lookup_insert_eq in E'; injection E' as <-; by left|].
    rewrite lookup_insert_ne in E' by done. right. by exists Y.
Qed.

(** The second is a step of the queues. *)
Lemma schedcpu_steps hz b pageproc k : Sq k -> procs_ok (pw k) -> exists k', schedcpu hz b pageproc k = Ok k' /\ ksteps k k'.
Proof.
  intros HS HP. unfold schedcpu. set (lf := loadfactor (averunnable k)).
  destruct (wakeup_steps k lbolt lbolt_nz HS) as (k1&b1&->&Hk1&Hw1). cbn [mbind outcome_bind].
  pose proof (wk_frame _ _ _ Hw1) as F1. assert (allproc (pw k1) = allproc (pw k)) as Eall by (by rewrite (fr_pw _ _ F1)). rewrite Eall.
  destruct (schedcpu_loop_ok hz lf (allproc (pw k)) k1 (ks_sq _ _ Hk1)) as (k2&->&HS2&Ew2&_&Ec2&_&Hk2).
  { pose proof (po_nodup _ HP) as Hn. by apply list.NoDup_app in Hn as (?&_). }
  { intros p Hp. destruct (proj1 (po_dom _ HP p)) as (P&EP); [unfold known; set_solver|].
    destruct (placed_in _ _ p P (ks_place _ _ Hk1) EP) as (P'&?&_). by eexists. }
  cbn [mbind outcome_bind].
  assert (ksteps k1 k2) as Hs2.
  { constructor; [done|rewrite Ew2; apply placed_refl|done| |intros; rewrite Ew2; by eexists|intros; rewrite Ew2; by eexists].
    intros x Y' EY'. right. destruct (Sq_in k2 x Y' HS2 EY') as (X&EX&_). rewrite Ew2 in EX.
    destruct (Sq_thread k1 x X (ks_sq _ _ Hk1) EX) as (Y&Hx). destruct (Hk2 x X Y Hx) as (_&EY2). exists Y. split; [apply Hx|].
    assert (Y' = if decide (x ∈ allproc (pw k)) then ticked hz lf X Y else Y) as -> by congruence. case_decide; [|done].
    by destruct (ticked_facts hz lf X Y) as (->&_). }
  assert (ksteps k (add_klog [Vmmeter] k2)) as Hs3.
  { eapply ksteps_trans; [exact Hk1|]. eapply ksteps_trans; [exact Hs2|]. apply ksteps_log, Hs2. }
  destruct b.
  - destruct (wakeup_steps (add_klog [Vmmeter] k2) (proc_addr pageproc) (proc_addr_nz _)) as (k4&b4&->&Hk4&_); [apply Hs3|].
    cbn [mret outcome_ret mbind outcome_bind]. eexists. split; [reflexivity|]. eapply ksteps_trans; [exact Hs3|].
    eapply ksteps_trans; [exact Hk4|]. apply ksteps_log, Hk4.
  - cbn [mret outcome_ret mbind outcome_bind]. eexists. split; [reflexivity|]. eapply ksteps_trans; [exact Hs3|]. apply ksteps_log, Hs3.
Qed.

(** The process gives way at the end of a trap. *)
Lemma preempt_calm w : calm w -> running_user w = true -> exists w', (p ← deref (curproc (kw w)); lift (preempt p) w) = Ok w' /\ calm w'.
Proof.
  intros Hw Hr. destruct (running_still w Hw Hr) as (p&P&S&Ec&Hst&Es). pose proof (sl_at _ _ _ _ Hst) as (T&Hat&Ew).
  pose proof Hat as ((EP&ET)&ES). rewrite Ec. cbn [deref mbind outcome_bind]. pose proof Hw as (Hc&Ha).
  destruct (preempt_ok (kw w) p P T (b_sq _ (co_base _ Hc)) Ec (proj1 Hat) Es Ew) as (k'&E&HS'&Hk).
  rewrite (lift_eq _ w k' E). eexists. split; [reflexivity|]. destruct (want_resched (kw w)) eqn:Ewr.
  - destruct Hk as (_&k1&HS1&E1&Epw1&Eth1).
    assert (core (set_kw k1 w)) as Hc1.
    { apply core_k; [done|done| |done]. intros x Y EY Ewc. rewrite Eth1 in EY. rewrite Epw1 in *. destruct (decide (x = p)) as [->|].
      - rewrite lookup_insert_eq in EY. injection EY as <-. by apply (b_swap _ (co_base _ Hc) p T).
      - rewrite lookup_insert_ne in EY by done. by apply (b_swap _ (co_base _ Hc) x Y). }
    assert (k1 = set_curproc None k1) as Ek1 by (by destruct E1 as (?&?)).
    destruct (swtch_core (set_kw k1 w) Hc1) as (k2&E2&Hc2&Ha2&_&_); [cbn; by rewrite <- Ek1|].
    assert (k2 = k') as -> by (destruct E1; cbn in E2; congruence). by split.
  - destruct Hk as (Ec'&Et'&Ew'). split.
    + apply core_k; [done|done| |done]. intros x Y EY Ewc. rewrite Et' in EY. rewrite Ew' in *. destruct (decide (x = p)) as [->|].
      * rewrite lookup_insert_eq in EY. injection EY as <-. by apply (b_swap _ (co_base _ Hc) p T).
      * rewrite lookup_insert_ne in EY by done. by apply (b_swap _ (co_base _ Hc) x Y).
    + intros q Q R Eq (EQ&ER). cbn in Eq, EQ, ER. rewrite Ec' in Eq. injection Eq as <-. rewrite Ew' in EQ. rewrite Et', lookup_insert_eq in ER. by simplify_eq.
Qed.

Lemma by_cur_ok {A} (f : loc -> sworld -> outcome (A * sworld)) w p : curproc (kw w) = Some p ->
  (exists a w', f p w = Ok (a, w') /\ calm w') -> exists w', by_cur f w = Ok w' /\ calm w'.
Proof. intros Ec (a&w'&E&Hw'). unfold by_cur. rewrite Ec. cbn [deref mbind outcome_bind]. rewrite E. by exists w'. Qed.

Lemma posts_ok sig l w w' : calm w -> posts sig l w w' -> calm w'.
Proof. intros Hw Hp. apply (calm_steps w); [done|]. eapply posts_steps; [apply Hw|done]. Qed.

Lemma sstep_ok o w : calm w -> slegal o w = true -> exists w', sstep o w = Ok w' /\ calm w'.
Proof.
  intros Hw Hl. destruct o as [p sig|g sig c|pid sig|sig osa nsa|how mask| |ok dumped|sig ok dumped|chan pri timo|c timo|sig timo|sig|chan|p|hz b pg| |pid xstat vf];
    cbn [sstep slegal] in *.
  - apply andb_true_iff in Hl as ((Hs%oksig_valid&(P&EP)%bool_decide_eq_true)%andb_true_iff&Hp%negb_true_iff%bool_decide_eq_false).
    destruct (core_at w p P (proj1 Hw) EP) as (T&S&Hat&_). destruct (post_calm w p P T S sig Hw Hat Hs Hp) as (w'&E&Hpo).
    exists w'. split; [done|]. apply (calm_steps w); [done|apply Hpo].
  - apply andb_true_iff in Hl as (Hs%oksig_valid&Hg). unfold pgsignal. destruct g as [g|]; [|by exists w].
    destruct (pgrps (pw (kw w)) !! g) as [G|] eqn:EG; [|done]. apply negb_true_iff, bool_decide_eq_false in Hg. cbn [deref mbind outcome_bind].
    destruct (pgsignal_loop_ok sig c Hs (pg_mem G) w Hw) as (w'&E&Hps).
    { intros p Hp. destruct (go_mem _ _ _ (inv_groups _ (co_inv _ (proj1 Hw))) g G EG) as (_&_&Hm). destruct (Hm p Hp) as (_&(P&EP&_)%pgof_Some).
      split; [by eexists|]. by intros ->. }
    exists w'. split; [done|]. by eapply posts_ok.
  - destruct (running_still w Hw Hl) as (p&P&S&Ec&Hst&Es). apply (by_cur_ok _ w p Ec). pose proof (sl_at _ _ _ _ Hst) as (T&((EP&_)&_)&_).
    destruct (kill_ok p pid sig w Hw) as (e&w'&E&Hs&_); [by eexists|]. exists e, w'. split; [done|]. by apply (calm_steps w).
  - assert (running_user w = true /\ forall sa, nsa = Some (inr sa) -> fits 32 (sa_mask sa)) as (Hl'&Hm).
    { destruct nsa as [[e|sa]|]; [by split|apply andb_true_iff in Hl as (?&?%okmask_fits); split; [done|by intros ? [= <-]]|by split]. }
    destruct (running_still w Hw Hl') as (p&P&S&Ec&Hst&Es). apply (by_cur_ok _ w p Ec). by apply (action_calm p P S).
  - apply andb_true_iff in Hl as (Hl&Hm%okmask_fits). destruct (running_still w Hw Hl) as (p&P&S&Ec&Hst&Es). apply (by_cur_ok _ w p Ec).
    destruct (procmask_ok p P S w how mask Hst Hm) as (e&w'&S'&E&Hst'). exists (e, p_sigmask S), w'. split; [done|]. by apply (still_calm p P S').
  - destruct (running_still w Hw Hl) as (p&P&S&Ec&Hst&Es). apply (by_cur_ok _ w p Ec).
    destruct (exec_ok p P S w Hst) as (S1&E&Hst'&_). eexists tt, _. split; [unfold exec_step; by rewrite E, Ok_bind|].
    by apply (still_calm p P (exec_clear S1)).
  - destruct (running_still w Hw Hl) as (p&P&S&Ec&Hst&Es). apply (by_cur_ok _ w p Ec).
    destruct (user_loop_ok ok dumped p P Es 32 w S Hst) as (r&w'&E&Hp); [pose proof (count_le (armed S)); lia|].
    exists r, w'. split; [exact E|]. by eapply user_post_calm.
  - destruct (stopped_for w sig Hw Hl) as (p&P&S&Ec&Hst&Es&Hs&Hk). apply (by_cur_ok _ w p Ec).
    destruct (user_resume_ok ok dumped p P sig false w S Es Hst Hs Hk) as (S1&r&w'&E&_&_&Hp). exists r, w'. split; [exact E|]. by eapply user_post_calm.
  - apply andb_true_iff in Hl as (((Hl&Hch%negb_true_iff%Z.eqb_neq)%andb_true_iff&Hc0%negb_true_iff%Z.eqb_neq)%andb_true_iff&Hpri%Z.leb_le).
    destruct (running_still w Hw Hl) as (p&P&S&Ec&Hst&Es). pose proof (sl_at _ _ _ _ Hst) as (T&Hat&_).
    destruct (tsleep_ok w p P T S chan pri timo Hw Ec Hat (sl_p0 _ _ _ _ Hst) Hch Hc0 Hpri) as (r&w'&E&Hs). rewrite E, Ok_bind.
    exists w'. split; [done|]. by eapply slept_calm.
  - destruct (running_still w Hw Hl) as (p&P&S&Ec&Hst&Es). apply (by_cur_ok _ w p Ec).
    destruct (tsleep_woken_ok p P S w c timo Hst Es) as (t&w'&P'&E&Es'&_&_&_&_&_&Ht). exists t, w'. split; [done|]. by eapply woken_calm.
  - destruct (stopped_for w sig Hw Hl) as (p&P&S&Ec&Hst&Es&Hs&Hk). apply (by_cur_ok _ w p Ec).
    destruct (tsleep_resume_ok p P S sig false timo w Hst Es Hs Hk) as (r&w'&E&Hg). exists r, w'. split; [done|]. by eapply went_on_calm.
  - destruct (stopped_for w sig Hw Hl) as (p&P&S&Ec&Hst&Es&Hs&Hk). apply (by_cur_ok _ w p Ec).
    destruct (tsleep_resume2_ok p P S sig false w Hst Es Hs Hk) as (r&w'&E&Hg). exists r, w'. split; [done|]. by eapply went_on_calm.
  - apply negb_true_iff, Z.eqb_neq in Hl. destruct (wakeup_steps (kw w) chan Hl (b_sq _ (co_base _ (proj1 Hw)))) as (k'&b&E&Hk&_).
    rewrite (lift_eq _ w k' E). eexists. split; [reflexivity|]. by apply ksteps_calm.
  - apply bool_decide_eq_true in Hl as (P&EP). by apply (endtsleep_calm w p P).
  - destruct (schedcpu_steps hz b pg (kw w) (b_sq _ (co_base _ (proj1 Hw)))) as (k'&E&Hk); [apply (co_inv _ (proj1 Hw))|].
    rewrite (lift_eq _ w k' E). eexists. split; [reflexivity|]. by apply ksteps_calm.
  - by apply preempt_calm.
  - apply andb_true_iff in Hl as (Hl&Hf%fresh_pidb_spec). destruct (running_still w Hw Hl) as (p&P&S&Ec&Hst&Es).
    apply (by_cur_ok _ w p Ec). pose proof (sl_at _ _ _ _ Hst) as (T&((EP&_)&_)&_).
    destruct (sfork_ok w p P pid xstat vf Hw Ec EP Hf (sl_p0 _ _ _ _ Hst)) as (p2&r&w'&E&Hw'&_). by exists (p2, r), w'.
Qed.

Lemma srun_ok os w : calm w -> slegal_run os w = true -> exists w', srun os w = Ok w' /\ calm w'.
Proof.
  revert w. induction os as [|o os IH]; intros w Hw Hl; cbn [srun slegal_run] in *; [by exists w|].
  apply andb_true_iff in Hl as (Ho&Hl). destruct (sstep_ok o w Hw Ho) as (w1&E&Hw1). rewrite E in *. cbn [mbind outcome_bind]. by apply IH.
Qed.
End Run.
