(* ===== verification/SignalSpec.v ===== *)
(** * Signals: what the system of processes guarantees *)

From S2P Require Import Prelude Pgrp PgrpInv PgrpCalls Exit ForkInv Life Sleep SleepInv SleepCalls.
From S2P Require Import SleepSpec Signal SignalInv SignalPost SignalTake SignalSend SignalSys.
From S2P Require Import SignalRun.

(** ** A small world *)

Definition acts0 : sigacts := mkSigacts (replicate 32 0) (replicate 32 0) 0 0 0 0 0 0 0 0.
Definition sig0 : sigproc := mkSigproc 0 0 (siginit_set (Z.of_nat <$> seq 0 32) 0) 0 acts0 0 0 0 0.
Definition boot_s : sworld := mkSworld boot_k (<[1%positive := sig0]> (<[2%positive := sig0]> ∅)) [].

Lemma zeros_lookup (n : nat) (i : nat) : default 0 (replicate n 0 !! i) = 0.
Proof. destruct (replicate n 0 !! i) as [x|] eqn:E; [|done]. by apply lookup_replicate in E as (->&_). Qed.

Lemma sig0_ok : sig_ok sig0.
Proof.
  assert (forall s, act_of s acts0 = 0) as Ha by (intros s; apply zeros_lookup).
  assert (forall s, catchmask_of s acts0 = 0) as Hc by (intros s; apply zeros_lookup).
  constructor; try done; try by (apply fits_0; lia).
  - intros s Hs. cbn [p_sigcatch p_sigacts sig0]. by rewrite Ha, mem_0.
  - apply (valid_cases (fun s => mem (p_sigignore sig0) s =
      negb (s =? SIGCONT) && ((act_of s (p_sigacts sig0) =? SIG_IGN) || is_dflt s (act_of s (p_sigacts sig0))))).
    apply list.Forall_forall. intros s Hs. cbn [p_sigacts sig0]. rewrite Ha.
    revert s Hs. apply list.Forall_forall. by repeat constructor.
  - intros s. cbn [p_sigacts sig0]. rewrite Hc. apply fits_0. lia.
  - intros s Hs. cbn [p_sigacts p_sigmask sig0]. rewrite Ha. split; [done|]. split; [apply mem_0|]. split; [apply mem_0|].
    intros i. rewrite Hc. apply mem_0.
Qed.

Lemma boot_s_calm : calm boot_s.
Proof.
  assert (forall p S, sigs boot_s !! p = Some S -> S = sig0) as HS by (intros p S E; by boot_cases E).
  split; [constructor; [constructor| |]|].
  - exact boot_k_Sq.
  - intros x Y E Ew. apply boot_at_threads in E as [(->&->)|(->&->)]; done.
  - intros p. split; intros (X&E); boot_cases E; by eexists.
  - exact boot_pw_Inv.
  - intros p S E. rewrite (HS p S E). exact sig0_ok.
  - intros p P T [= <-] (EP&ET). apply boot_pw_procs in EP as [(?&->)|(?&->)]; [done|]. by apply boot_at_threads in ET as [(?&->)|(?&->)].
Qed.

(** A run of the little system.  Init sets a handler for SIGTERM, forks the
    processes 5 and 6 and sleeps; process 5 sleeps too.  Process 6 sends it
    SIGTERM: process 5 wakes, takes the processor at the next trap, has its sleep
    cut short and runs the handler it inherited.  It sleeps once more and times
    out; then it kills process 6, which is in a sleep that no signal ends, and
    which exits when it is woken and returns to user mode. *)
Definition tale : list sop :=
  [Action SIGTERM None (Some (inr (mkSigaction 4096 0 SA_RESTART))); ForkProc 5 0 false; ForkProc 6 0 false;
   Procmask SIG_BLOCK (sigmask SIGTSTP); Tsleep 80 (Z.lor 40 PCATCH) 0; Tsleep 96 (Z.lor 40 PCATCH) 100; Kill 5 SIGTERM;
   Second 100 false 1; Preempt; Awaken true 100; ToUser (fun _ => true) false; Tsleep 112 24 100; Timedout 3; WakeChan 80;
   Tsleep 120 30 0; Awaken false 100; Kill 6 SIGKILL; WakeChan 120; Tsleep 128 30 0; ToUser (fun _ => true) false].

(** The world after the first [n] steps. *)
Definition scene (n : nat) : sworld := match srun (take n tale) boot_s with Ok w => w | _ => boot_s end.

Lemma scene_calm n : slegal_run (take n tale) boot_s = true -> calm (scene n).
Proof.
  intros Hl. unfold scene. destruct (srun_ok _ boot_s boot_s_calm Hl) as (w&E&Hw). by rewrite E.
Qed.

Section Safety.
Context `{Layout}.

(** ** The system *)


(** C16. Along every run, in every process: SIGKILL and SIGSTOP are never blocked,
    caught or ignored, now or in the mask of a handler; a signal is caught
    exactly when its action is a handler; and it is ignored exactly when its
    action says so, by name or by default, but for SIGCONT. *)
Theorem signal_sets_ok os w w' p S : calm w -> slegal_run os w = true -> srun os w = Ok w' -> sigs w' !! p = Some S ->
  (forall s, s = SIGKILL \/ s = SIGSTOP ->
     mem (p_sigmask S) s = false /\ mem (p_sigcatch S) s = false /\ mem (p_sigignore S) s = false
     /\ forall i, mem (catchmask_of i (p_sigacts S)) s = false) /\
  (forall s, valid s -> mem (p_sigcatch S) s = negb (act_of s (p_sigacts S) =? SIG_DFL) && negb (act_of s (p_sigacts S) =? SIG_IGN)) /\
  (forall s, valid s -> mem (p_sigignore S) s =
     negb (s =? SIGCONT) && ((act_of s (p_sigacts S) =? SIG_IGN) || (act_of s (p_sigacts S) =? SIG_DFL) && has (sigprop s) SA_IGNORE)).
Proof.
  intros Hw Hl E ES. destruct (srun_ok os w Hw Hl) as (w2&E2&Hw2). assert (w2 = w') as -> by congruence.
  pose proof (co_sig _ (proj1 Hw2) p S ES) as HS. split; [|split; [apply HS|apply HS]]. intros s Hs.
  destruct (so_cant _ HS s Hs) as (Ha&Hm&_&Hc). assert (valid s) as Hv by (destruct Hs; subst; done). split; [done|].
  rewrite (so_catch _ HS s Hv), (so_ignore _ HS s Hv), Ha. split; [done|]. split; [|done].
  by destruct Hs as [->| ->].
Qed.

(** C6. Along every run the queues agree with the processes: a process is on a sleep
    queue exactly when it waits, once, on the queue of its channel; one on a run
    queue is runnable, in memory and not running, on the queue of its priority
    unless it is exiting; priorities are between 0 and 127. *)
Theorem queues_ok os w w' p P T : calm w -> slegal_run os w = true -> srun os w = Ok w' -> in_proc (kw w') p P T ->
  (forall n, p ∈ chain (slpq (kw w')) n <-> p_wchan T <> 0 /\ n = HASH (p_wchan T)) /\
  (forall n, NoDup (chain (slpq (kw w')) n) /\ NoDup (chain (qs (kw w')) n)) /\
  (forall n, p ∈ chain (qs (kw w')) n -> p_stat P = SRUN /\ has (p_flag P) SLOAD = true /\ curproc (kw w') <> Some p /\ p_wchan T = 0
     /\ (n = p_pri T / PPQ \/ has (p_flag P) SWEXIT = true)) /\
  (p_stat P = SRUN -> has (p_flag P) SLOAD = true -> curproc (kw w') = Some p \/ exists n, p ∈ chain (qs (kw w')) n) /\
  (p_stat P = SSLEEP -> p_wchan T <> 0) /\
  0 <= p_pri T <= 127 /\ 0 <= p_usrpri T <= 127.
Proof.
  intros Hw Hl E (EP&ET). destruct (srun_ok os w Hw Hl) as (w2&E2&Hw2). assert (w2 = w') as -> by congruence.
  destruct (b_sq _ (co_base _ (proj1 Hw2))) as (r&HS). pose proof (sq_st _ _ HS p P T EP ET) as Hok.
  split; [|split; [|split; [|split; [|split; [apply Hok|split; apply Hok]]]]].
  - intros n. destruct (sq_slp _ _ HS n) as (_&Hm). rewrite Hm. unfold wpos, wslot. rewrite ET. cbn.
    destruct (Z.eqb_spec (p_wchan T) 0); split; [done|by intros (?&_)|by intros [= <-]|by intros (_&->)].
  - intros n. split; [apply (sq_slp _ _ HS)|apply (sq_run _ _ HS)].
  - intros n Hin. apply (sq_run _ _ HS) in Hin. destruct (sq_rpos _ _ HS p n Hin) as (P'&T'&EP'&ET'&Hr&_&Hor). simplify_eq.
    destruct (th_queued _ _ _ Hok Hr) as (Es&Hc&Hld). split; [done|]. split; [done|]. split; [done|]. split; [|done].
    destruct (Z.eq_dec (p_wchan T) 0) as [|Hn]; [done|]. destruct (th_waits _ _ _ Hok Hn) as [E1|[E1|(E1&_)]]; [by rewrite Es in E1..|done].
  - intros Es Hld. destruct (th_runs _ _ _ Hok Es Hld) as [|Hr]; [by left|right]. destruct (sq_rlink _ _ HS p T ET Hr) as (n&En).
    exists n. by apply (sq_run _ _ HS).
Qed.

(** ** psignal *)

(** C8. psignal always returns, and does what its table says: whether the signal is
    dropped, what is pending afterwards (stop signals and SIGCONT drive each other
    out), whether the process is made runnable, stopped at once, put back to
    sleep or left as it is; every other process is left alone, but for the parent
    of one that is stopped, those that wait for that parent, and the swapper. *)
Theorem psignal_spec w p P T S sig : calm w -> at_ w p P T S -> 1 <= sig < NSIG -> p <> proc0 (pw (kw w)) ->
  exists w', psignal p sig w = Ok w' /\ calm w' /\
    (exists P' T' S', at_ w' p P' T' S' /\
       if dropped P S (orphan_group w P) sig then p_stat P' = p_stat P /\ p_sig S' = p_sig S
       else let action := action_of P S sig in
         p_stat P' = next_stat P T sig action /\ p_sig S' = next_pend P sig action (p_sig S)) /\
    forall x, x <> p -> x <> proc0 (pw (kw w)) ->
      (stops_now P sig (action_of P S sig) = true -> apart P w x) -> left_alone x w w'.
Proof.
  intros Hw Hat Hv Hp. destruct (post_calm w p P T S sig Hw Hat Hv Hp) as (w'&E&[Hst (P'&T'&S'&Hat'&Ho) Ha]).
  exists w'. split; [done|]. split; [by eapply calm_steps|]. split; [|done]. exists P', T', S'. split; [done|].
  destruct (dropped _ _ _ _); by injection Ho as -> ->.
Qed.

(** ** SIGKILL *)

(** C34. SIGKILL cannot be kept off: whatever the process blocks, catches or ignores,
    the signal is pending afterwards, and a process that sleeps interruptibly or
    is stopped is runnable; it is then killed, in the sense of [user_spec] and
    [tsleep_spec], so that it exits when it next returns to user mode.  (A traced
    process, and init, are excepted.) *)
Theorem sigkill_spec w p P T S : calm w -> at_ w p P T S -> p <> proc0 (pw (kw w)) -> traced P = false -> 1 < p_pid P ->
  exists w' P' T' S', psignal p SIGKILL w = Ok w' /\ calm w' /\ at_ w' p P' T' S' /\ killed P' S' /\
    (p_stat P = SSTOP \/ p_stat P = SSLEEP /\ has (p_flag P) SSINTR = true -> p_stat P' = SRUN).
Proof.
  intros Hw Hat Hp Ht Hpid. pose proof (co_sig _ (proj1 Hw) p S (proj2 Hat)) as HS.
  destruct (so_cant _ HS SIGKILL) as (Ka&Km&_); [by left|]. assert (valid SIGKILL) as Hv by done.
  destruct (post_calm w p P T S SIGKILL Hw Hat Hv Hp) as (w'&E&[Hst (P'&T'&S'&Hat'&Ho) _]). exists w', P', T', S'. split; [done|].
  split; [by eapply calm_steps|]. split; [done|].
  assert (has (p_sigignore S) (sigmask SIGKILL) = false) as Hi.
  { rewrite has_mem by done. rewrite (so_ignore _ HS SIGKILL Hv), Ka. done. }
  assert (action_of P S SIGKILL = SIG_DFL) as Ea.
  { unfold action_of. rewrite Ht, !has_mem, Km by done. by rewrite (so_catch _ HS SIGKILL Hv), Ka. }
  assert (dropped P S (orphan_group w P) SIGKILL = false) as Ed by (unfold dropped; rewrite Hi; by rewrite andb_false_r).
  rewrite Ed, Ea in Ho. injection Ho as Hs1 Hs2. split.
  - destruct (steps_same w w' p P Hst (proj1 (proj1 Hat))) as (P2&E2&Epid&Hf). assert (P2 = P') as -> by (destruct Hat' as ((?&_)&_); congruence).
    split; [|split; [unfold traced in *; by rewrite (Hf STRC)|by rewrite Epid]].
    rewrite Hs2. unfold next_pend, done_at_once. rewrite Ht. change (is_stop SIGKILL) with false. change (SIGKILL =? SIGKILL) with true. cbn.
    rewrite !andb_false_r. cbn. unfold pend_set. rewrite mem_lor, (mem_sigmask SIGKILL) by done. by rewrite orb_true_r.
  - rewrite Hs1. unfold next_stat. rewrite Ht. intros [->|(->&->)]; reflexivity.
Qed.

(** ** The return to user mode *)


(** ** tsleep *)


(** ** kill *)

End Safety.


(** Process 5, with the handler it inherited. *)
Lemma signal_sets_ok_witness : exists S, sigs (scene 20) !! 3%positive = Some S /\ mem (p_sigcatch S) SIGTERM = true
  /\ mem (p_sigmask S) SIGKILL = false.
Proof.
  destruct (sigs (scene 20) !! 3%positive) as [S|] eqn:E; [|vm_compute in E; discriminate E]. exists S. split; [reflexivity|].
  destruct (signal_sets_ok tale boot_s (scene 20) 3%positive S) as (Hc&Hs&_);
    [exact boot_s_calm|vm_compute; reflexivity|vm_compute; reflexivity|exact E|].
  split; [|apply (Hc SIGKILL); left; reflexivity]. rewrite (Hs SIGTERM) by (split; [discriminate|reflexivity]). vm_compute in E. injection E as <-. reflexivity.
Defined.

(** Init waits on channel 80. *)
Lemma queues_ok_witness : exists P T, in_proc (kw (scene 6)) 2%positive P T /\ p_wchan T = 80
  /\ 2%positive ∈ chain (slpq (kw (scene 6))) (HASH 80).
Proof.
  destruct (procs (pw (kw (scene 6))) !! 2%positive) as [P|] eqn:EP; [|vm_compute in EP; discriminate EP].
  destruct (threads (kw (scene 6)) !! 2%positive) as [T|] eqn:ET; [|vm_compute in ET; discriminate ET].
  exists P, T. assert (p_wchan T = 80) as Ew by (vm_compute in ET; injection ET as <-; reflexivity). split; [split; [exact EP|exact ET]|].
  split; [exact Ew|]. destruct (queues_ok (take 6 tale) boot_s (scene 6) 2%positive P T) as (Hq&_);
    [exact boot_s_calm|vm_compute; reflexivity|vm_compute; reflexivity|split; [exact EP|exact ET]|].
  apply Hq. rewrite Ew. split; [discriminate|reflexivity].
Defined.

(** SIGTERM for process 5, which sleeps interruptibly and has a handler. *)
Lemma psignal_spec_witness : exists w' P' T' S', psignal 3%positive SIGTERM (scene 6) = Ok w' /\ at_ w' 3%positive P' T' S'
  /\ p_stat P' = SRUN /\ p_sig S' = sigmask SIGTERM.
Proof.
  destruct (procs (pw (kw (scene 6))) !! 3%positive) as [P|] eqn:EP; [|vm_compute in EP; discriminate EP].
  destruct (threads (kw (scene 6)) !! 3%positive) as [T|] eqn:ET; [|vm_compute in ET; discriminate ET].
  destruct (sigs (scene 6) !! 3%positive) as [S|] eqn:ES; [|vm_compute in ES; discriminate ES].
  destruct (psignal_spec (scene 6) 3%positive P T S SIGTERM) as (w'&E&_&(P'&T'&S'&Hat&Ho)&_);
    [apply scene_calm; vm_compute; reflexivity|split; [split; [exact EP|exact ET]|exact ES]|split; [discriminate|reflexivity]|vm_compute; discriminate|].
  exists w', P', T', S'. split; [exact E|]. split; [exact Hat|]. vm_compute in EP, ET, ES. injection EP as <-. injection ET as <-. injection ES as <-.
  vm_compute in Ho. exact Ho.
Defined.

(** Process 5 is killed in its sleep. *)
Lemma sigkill_spec_witness : exists w' P' T' S', psignal 3%positive SIGKILL (scene 6) = Ok w' /\ at_ w' 3%positive P' T' S' /\ killed P' S'
  /\ p_stat P' = SRUN.
Proof.
  destruct (procs (pw (kw (scene 6))) !! 3%positive) as [P|] eqn:EP; [|vm_compute in EP; discriminate EP].
  destruct (threads (kw (scene 6)) !! 3%positive) as [T|] eqn:ET; [|vm_compute in ET; discriminate ET].
  destruct (sigs (scene 6) !! 3%positive) as [S|] eqn:ES; [|vm_compute in ES; discriminate ES].
  destruct (sigkill_spec (scene 6) 3%positive P T S) as (w'&P'&T'&S'&E&_&Hat&Hk&Hs);
    [apply scene_calm; vm_compute; reflexivity|split; [split; [exact EP|exact ET]|exact ES]|vm_compute; discriminate
    |vm_compute in EP; injection EP as <-; reflexivity|vm_compute in EP; injection EP as <-; reflexivity|].
  exists w', P', T', S'. split; [exact E|]. split; [exact Hat|]. split; [exact Hk|]. apply Hs. right.
  vm_compute in EP. injection EP as <-. split; reflexivity.
Defined.




