(* ===== verification/SignalEdge.v ===== *)
(** * Signals: the calls on actions, exec and fork, and the corners of taking a
      signal *)

From S2P Require Import Prelude Pgrp PgrpInv PgrpCalls Exit ForkInv Life Sleep SleepInv SleepCalls.
From S2P Require Import SleepSpec Signal SignalInv SignalPost SignalTake SignalSend SignalSys.
From S2P Require Import SignalRun SignalSpec.

Section Edge.
Context `{Layout}.

(** A running process is [still] what it is. *)
Lemma calm_still w p P T S : calm w -> curproc (kw w) = Some p -> at_ w p P T S -> p <> proc0 (pw (kw w)) ->
  still p P S w /\ p_stat P = SRUN.
Proof.
  intros Hw Ec Hat Hp0. destruct (proj2 Hw p P T Ec (proj1 Hat)) as (Es&Ew). split; [|done].
  constructor; [apply Hw|done|by exists T|done].
Qed.

(** ** Actions *)

Lemma setsigvec_sets_acts sig h S : p_sigacts (setsigvec_sets sig h S) = p_sigacts S.
Proof. unfold setsigvec_sets. by repeat case_if. Qed.

(** One bit set or cleared. *)
Definition put_bit (on : bool) (sig m : Z) : Z := if on then Z.lor m (sigmask sig) else andnot m (sigmask sig).
Lemma has_put_bit on sig m : valid sig -> has (put_bit on sig m) (sigmask sig) = on.
Proof.
  intros Hv. unfold valid in Hv. rewrite has_mem by lia. unfold put_bit. destruct on; mem_simpl; rewrite Z.eqb_refl;
    [apply orb_true_r|apply andb_false_r].
Qed.

(** What setsigvec leaves of the action and of the flag about stopped children. *)
Lemma setsigvec_fields p P T S w sig sa w' P' T' S' : at_ w p P T S -> valid sig -> setsigvec p sig sa w = Ok w' -> at_ w' p P' T' S' ->
  has (p_flag P') SNOCLDSTOP = (if sig =? SIGCHLD then has (sa_flags sa) SA_NOCLDSTOP else has (p_flag P) SNOCLDSTOP) /\
  exists intr on, p_sigacts S' = set_action sig (sa_handler sa) (andnot (sa_mask sa) sigcantmask) on intr (p_sigacts S)
    /\ has intr (sigmask sig) = negb (has (sa_flags sa) SA_RESTART) /\ has on (sigmask sig) = has (sa_flags sa) SA_ONSTACK.
Proof.
  intros ((EP&_)&ES) Hv E ((EP'&_)&ES'). unfold setsigvec in E. rewrite (sig_of_eq p w S ES), (proc_of_eq p _ P EP) in E.
  cbn [mbind outcome_bind mret outcome_ret] in E. injection E as <-. cbn in EP', ES'. rewrite lookup_insert_eq in EP'.
  rewrite lookup_insert_eq in ES'. injection EP' as <-. injection ES' as <-. split.
  - cbn [p_flag set_p_flag]. destruct (sig =? SIGCHLD); [|done].
    destruct (has (sa_flags sa) SA_NOCLDSTOP); [by apply (has_put_bit true 10)|by apply (has_put_bit false 10)].
  - rewrite setsigvec_sets_acts. eexists _, _. split; [reflexivity|]. split.
    + destruct (has (sa_flags sa) SA_RESTART); [apply (has_put_bit false)|apply (has_put_bit true)]; done.
    + destruct (has (sa_flags sa) SA_ONSTACK); [apply (has_put_bit true)|apply (has_put_bit false)]; done.
Qed.

(** A new action, read back: sigaction reports the handler that was set, the mask
    without SIGKILL and SIGSTOP, and the onstack and restart flags; the flag about
    stopped children is reported with every signal, and is what the action of
    SIGCHLD says. *)
Theorem sigaction_roundtrip w p P T S sig sa : calm w -> curproc (kw w) = Some p -> at_ w p P T S -> p <> proc0 (pw (kw w)) ->
  valid sig -> sig <> SIGKILL -> sig <> SIGSTOP -> fits 32 (sa_mask sa) ->
  exists w' sa', sigaction_call p sig None (Some (inr sa)) w = Ok (0, w') /\ calm w' /\
    (forall copyout, sigaction_call p sig (Some copyout) None w' = Ok (copyout sa', w')) /\
    sa_handler sa' = sa_handler sa /\ sa_mask sa' = andnot (sa_mask sa) sigcantmask /\
    has (sa_flags sa') SA_ONSTACK = has (sa_flags sa) SA_ONSTACK /\ has (sa_flags sa') SA_RESTART = has (sa_flags sa) SA_RESTART /\
    has (sa_flags sa') SA_NOCLDSTOP = (if sig =? SIGCHLD then has (sa_flags sa) SA_NOCLDSTOP else has (p_flag P) SNOCLDSTOP).
Proof.
  intros Hw Ec Hat Hp0 Hv Hk Hs Hm. destruct (calm_still w p P T S Hw Ec Hat Hp0) as (Hst&Es). pose proof Hat as ((EP&ET)&ES).
  pose proof (co_sig _ (proj1 Hw) p S ES) as HS.
  destruct (setsigvec_ok p P S w sig sa Hst Hv Hk Hs Hm) as (w'&P'&S'&E&Hst'&Es').
  destruct (sl_at _ _ _ _ Hst') as (T'&Hat'&_).
  destruct (setsigvec_fields p P T S w sig sa w' P' T' S' Hat Hv E Hat') as (Efl&intr&on&EA&Ei&Eo).
  set (fl := if sig =? SIGCHLD then _ else _) in *.
  assert (has (sa_flags (old_action sig S' (p_flag P'))) SA_ONSTACK = has (sa_flags sa) SA_ONSTACK /\
    has (sa_flags (old_action sig S' (p_flag P'))) SA_RESTART = has (sa_flags sa) SA_RESTART /\
    has (sa_flags (old_action sig S' (p_flag P'))) SA_NOCLDSTOP = fl) as Hfl.
  { unfold old_action. cbn [sa_flags]. rewrite EA. cbn [ps_sigonstack ps_sigintr set_action]. rewrite Ei, Eo, Efl.
    by destruct (has (sa_flags sa) SA_ONSTACK), (has (sa_flags sa) SA_RESTART), fl. }
  exists w', (old_action sig S' (p_flag P')). split; [|split; [by apply (still_calm p P' S'); [|congruence]|split; [|split; [|split; [|exact Hfl]]]]].
  - unfold sigaction_call, action_call, id. rewrite (proj2 (Z.eqb_neq sig SIGKILL) Hk), (proj2 (Z.eqb_neq sig SIGSTOP) Hs).
    assert ((sig <=? 0) || (NSIG <=? sig) = false) as -> by (unfold valid in Hv; lia). cbn [orb].
    rewrite (sig_of_eq p w S ES), (proc_of_eq p _ P EP). cbn [mbind outcome_bind]. change (0 =? 0) with true. cbn [negb]. by rewrite E.
  - intros copyout. destruct Hat' as ((EP1&_)&ES1). unfold sigaction_call, action_call, id.
    rewrite (proj2 (Z.eqb_neq sig SIGKILL) Hk), (proj2 (Z.eqb_neq sig SIGSTOP) Hs).
    assert ((sig <=? 0) || (NSIG <=? sig) = false) as -> by (unfold valid in Hv; lia). cbn [orb].
    rewrite (sig_of_eq p w' S' ES1), (proc_of_eq p _ P' EP1). cbn [mbind outcome_bind].
    destruct (Z.eqb_spec (copyout (old_action sig S' (p_flag P'))) 0) as [->|]; done.
  - cbn. rewrite EA, lookup_act by (done || (unfold valid in Hv; lia) || apply HS). by rewrite decide_True.
  - cbn. rewrite EA. unfold catchmask_of. cbn. rewrite list_lookup_insert_eq; [done|]. rewrite (so_lenm _ HS). unfold valid, NSIG in Hv. lia.
Qed.

(** ** exec and fork *)

(** exec takes every caught signal back to its default action, within 32 rounds,
    and drops those that are then ignored from the pending set; ignored signals
    stay ignored, the mask and the other pending signals stay, and the signal
    stack is forgotten.  Nothing else of the world changes. *)
Theorem execsigs_spec w p P T S : calm w -> curproc (kw w) = Some p -> at_ w p P T S -> p <> proc0 (pw (kw w)) ->
  exists S', execsigs p w = Ok (set_sigproc p S' w) /\ calm (set_sigproc p S' w) /\
    p_sigcatch S' = 0 /\ p_sigmask S' = p_sigmask S /\
    ps_sigonstack (p_sigacts S') = 0 /\ ps_sigsp (p_sigacts S') = 0 /\ ps_onstack (p_sigacts S') = 0 /\
    forall s, valid s -> act_of s (p_sigacts S') = (if act_of s (p_sigacts S) =? SIG_IGN then SIG_IGN else SIG_DFL) /\
      mem (p_sig S') s = mem (p_sig S) s && negb (mem (p_sigcatch S) s && has (sigprop s) SA_IGNORE).
Proof.
  intros Hw Ec Hat Hp0. destruct (calm_still w p P T S Hw Ec Hat Hp0) as (Hst&Es). pose proof (still_ok p P S w Hst) as HS.
  destruct (exec_ok p P S w Hst) as (S1&E&Hst'&(_&Hc&Hm&Ha&Hp)). exists (exec_clear S1). split; [done|].
  split; [by apply (still_calm p P (exec_clear S1))|]. do 5 (split; [done|]). intros s Hs. split; [|by apply Hp].
  change (act_of s (p_sigacts (exec_clear S1))) with (act_of s (p_sigacts S1)). rewrite (Ha s Hs), (so_catch _ HS s Hs).
  destruct (Z.eqb_spec (act_of s (p_sigacts S)) SIG_DFL) as [E0|], (Z.eqb_spec (act_of s (p_sigacts S)) SIG_IGN) as [E1|]; try done.
Qed.

(** The child of a fork has the mask, the actions and the caught and ignored
    signals of its parent, none pending, its own pid, and is on its run queue; the
    parent goes on.  The parent of a vfork sleeps, and no signal ends its sleep. *)
Theorem sfork_spec w p P T S pid xstat vf : calm w -> curproc (kw w) = Some p -> at_ w p P T S -> fresh_pid (pw (kw w)) pid ->
  p <> proc0 (pw (kw w)) ->
  exists p2 r w', sfork p pid xstat vf w = Ok (p2, r, w') /\ calm w' /\ procs (pw (kw w)) !! p2 = None /\
    if vf then r = Some (TAsleep false 0) /\ curproc (kw w') <> Some p
    else r = None /\ curproc (kw w') = Some p /\ exists P2 T2 S2 n, at_ w' p2 P2 T2 S2 /\ p_pid P2 = pid /\ p_stat P2 = SRUN /\
      p2 ∈ chain (qs (kw w')) n /\ p_sig S2 = 0 /\ p_sigmask S2 = p_sigmask S /\ p_sigignore S2 = p_sigignore S /\
      p_sigcatch S2 = p_sigcatch S /\ p_sigacts S2 = p_sigacts S.
Proof.
  intros Hw Ec Hat Hf Hp0. destruct (sfork_ok w p P pid xstat vf Hw Ec (proj1 (proj1 Hat)) Hf Hp0) as (p2&r&w'&E&Hw'&Hn&Hr).
  exists p2, r, w'. split; [done|]. split; [done|]. split; [done|]. destruct vf.
  - done.
  - destruct Hr as (->&Ec'&P2&T2&S2&S0&Hat2&Epid&Erl&ES0&->). split; [done|]. split; [done|].
    assert (S0 = S) as -> by (destruct Hat as (_&?); congruence). destruct (b_sq _ (co_base _ (proj1 Hw'))) as (q&HSq).
    pose proof Hat2 as ((EP2&ET2)&_). destruct (sq_rlink _ _ HSq p2 T2 ET2 Erl) as (n&En).
    exists P2, T2, (fork_sig S), n. split; [done|]. split; [done|].
    split; [apply (th_queued _ _ _ (sq_st _ _ HSq p2 P2 T2 EP2 ET2) Erl)|]. split; [by apply (sq_run _ _ HSq)|done].
Qed.

(** ** Corners *)

(** A handler for SIGSEGV, say, that blocks SIGILL, on a stack that cannot be
    written: sendsig posts SIGILL, with its default action and unblocked, to halt
    the process; but trapsignal then blocks what the handler asked for, SIGILL
    with it.  SIGILL is pending and cannot be delivered: when nothing else was to
    be delivered, the process goes on at the trapping instruction. *)
Theorem trapsignal_stuck w p P T S sig code : calm w -> curproc (kw w) = Some p -> at_ w p P T S -> p <> proc0 (pw (kw w)) -> valid sig ->
  traced P = false -> mem (p_sigcatch S) sig = true -> mem (p_sigmask S) sig = false ->
  mem (catchmask_of sig (p_sigacts S)) SIGILL = true -> deliverable P S = 0 ->
  exists w' T' S', trapsignal false p sig code w = Ok w' /\ calm w' /\ curproc (kw w') = Some p /\ at_ w' p P T' S' /\
    mem (p_sig S') SIGILL = true /\ act_of SIGILL (p_sigacts S') = SIG_DFL /\ mem (p_sigmask S') SIGILL = true /\ deliverable P S' = 0.
Proof.
  intros Hw Ec Hat Hp0 Hv Htr Hc Hm Hill Hd. destruct (calm_still w p P T S Hw Ec Hat Hp0) as (Hst&Es). pose proof Hat as ((EP&ET)&ES).
  pose proof (still_ok p P S w Hst) as HS. assert (1 <= sig) as Hs1 by (unfold valid in Hv; lia).
  assert (sig <> SIGKILL /\ sig <> SIGSTOP) as (Hk&Hsp).
  { apply (caught_not_cant S sig HS). intros E. by rewrite (so_catch _ HS _ Hv), E in Hc. }
  set (S1 := set_nsignals (ru_nsignals S + 1) S). assert (sig_ok S1) as HS1 by (destruct HS; by constructor).
  pose proof (still_sig _ _ _ _ _ Hst HS1) as Hst1. destruct (sl_at _ _ _ _ Hst1) as (T1&Hat1&Ew1). set (w1 := set_sigproc p S1 w) in *.
  unfold trapsignal. rewrite (proc_of_eq p _ P EP), (sig_of_eq p w S ES). cbn [mbind outcome_bind]. fold (traced P).
  rewrite Ec, bool_decide_true, Htr, !has_mem, Hc, Hm by done. cbn [negb andb]. fold S1 w1.
  destruct (sendsig_ok false p (act_of sig (p_sigacts S)) sig (p_sigmask S) code w1 P T1 S1 (sl_core _ _ _ _ Hst1) (sl_cur _ _ _ _ Hst1) Hat1 Es Ew1
    (sl_p0 _ _ _ _ Hst1)) as (w2&->&Hst2&_). cbn [mbind outcome_bind]. set (S2 := set_p_sig _ _) in Hst2.
  destruct (sl_at _ _ _ _ Hst2) as (T2&Hat2&_). rewrite (with_sig_eq p _ w2 S2) by apply Hat2.
  pose proof (sig_ok_hold sig S2 (still_ok _ _ _ _ Hst2) Hv Hk Hsp) as HS3. pose proof (still_sig _ _ _ _ _ Hst2 HS3) as Hst3.
  destruct (sl_at _ _ _ _ Hst3) as (T3&Hat3&_). exists (set_sigproc p (hold_caught sig S2) w2), T3, (hold_caught sig S2).
  split; [done|]. split; [by eapply still_calm|]. split; [apply Hst3|]. split; [done|].
  assert (catchmask_of sig (p_sigacts S2) = catchmask_of sig (p_sigacts S)) as Ecm by (unfold S2, illegal, on_stack; cbn; by case_if).
  assert (forall s, 1 <= s -> mem (p_sig (hold_caught sig S2)) s = mem (p_sig S) s || (s =? SIGILL)) as Hpend.
  { intros s Hs. unfold hold_caught, S2, illegal, on_stack. cbn. rewrite mem_lor, mem_sigmask by done. done. }
  assert (forall s, 1 <= s -> mem (p_sigmask (hold_caught sig S2)) s =
    mem (p_sigmask S) s && negb (s =? SIGILL) || (mem (catchmask_of sig (p_sigacts S)) s || (s =? sig))) as Hmask.
  { intros s Hs. unfold hold_caught. cbn [p_sigmask set_p_sigmask]. rewrite Ecm. unfold S2, illegal, on_stack. cbn [p_sigmask set_p_sigmask set_p_sig].
    by rewrite !mem_lor, mem_andnot, !mem_sigmask. }
  split; [by rewrite Hpend, Z.eqb_refl, orb_true_r|]. split.
  { change (act_of SIGILL (set_sigact SIGILL SIG_DFL (p_sigacts (on_stack sig S1))) = SIG_DFL).
    rewrite act_set_sigact; [done..|]. by apply on_stack_ok. }
  split; [by rewrite Hmask, Hill, orb_true_r|]. apply (mem_ext 31); [lia|by apply deliverable_fits|by apply fits_0|].
  intros s Hs. assert (valid s) as Hvs by (unfold valid, NSIG; lia). rewrite mem_0, deliverable_mem, Hpend, Hmask by (done || lia).
  pose proof (deliverable_mem P S s Hvs) as Hds. rewrite Hd, mem_0 in Hds. destruct (Z.eqb_spec s SIGILL) as [->|].
  - by rewrite Hill, orb_true_r, andb_false_r.
  - cbn [negb] in *. destruct (mem (p_sig S) s), (mem (p_sigmask S) s); done || (cbn in *; by rewrite <- Hds, ?andb_false_r || by rewrite ?andb_false_r).
Qed.

(** A traced process goes on with another signal than the one it stopped for.
    The properties that are looked at are still those of the old one: so when the
    old one ends a process by default, the new one does, if its action is the
    default one, whatever it is; SIGSTOP then ends the process, with SIGSTOP as
    its status. *)
Theorem issig_traced_stale w p P T S sig ok dumped : at_ w p P T S -> traced P = true -> 1 < p_pid P ->
  valid sig -> is_stop sig = false -> has (sigprop sig) SA_IGNORE = false ->
  valid (p_xstat P) -> act_of (p_xstat P) (p_sigacts S) = SIG_DFL -> mem (p_sigmask S) (p_xstat P) = false ->
  exists w' w2, issig_resume p (Traced sig) true w = Ok (Take (p_xstat P), w') /\
    psig p (p_xstat P) ok dumped w' =
      Ok (PsExit (if has (sigprop (p_xstat P)) SA_CORE && dumped then Z.lor (p_xstat P) WCOREFLAG else p_xstat P), w2).
Proof.
  intros ((EP&ET)&ES) Htr Hpid Hv Hst Hig Hvx Hact Hm. set (n := p_xstat P) in *. assert (n <> 0) as Hn by (unfold valid in Hvx; lia).
  assert (1 <= n) as Hn1 by (unfold valid in Hvx; lia).
  set (S1 := set_p_sig (andnot (p_sig S) (sigmask sig)) S). set (S2 := set_p_sig (Z.lor (p_sig S1) (sigmask n)) S1).
  set (w2 := set_sigproc p S2 (set_sigproc p S1 w)).
  assert (sigs w2 !! p = Some S2) as ES2 by apply lookup_insert_eq. eexists w2, _. split.
  - unfold issig_resume, issig_traced. rewrite (proc_of_eq p _ P EP). cbn [mbind outcome_bind negb andb]. fold (traced P). rewrite Htr. cbn [negb].
    rewrite (with_sig_eq p _ w S ES). cbn [mbind outcome_bind]. fold S1 n. rewrite (proj2 (Z.eqb_neq n 0) Hn).
    rewrite (with_sig_eq p _ _ S1) by apply lookup_insert_eq. cbn [mbind outcome_bind]. fold S2 w2.
    rewrite (sig_of_eq p w2 S2 ES2). cbn [mbind outcome_bind]. rewrite has_mem by done. change (p_sigmask S2) with (p_sigmask S). rewrite Hm.
    unfold issig_decide. rewrite (sig_of_eq p w2 S2 ES2), (proc_of_eq p (kw w2) P EP). cbn [mbind outcome_bind].
    change (p_sigacts S2) with (p_sigacts S). rewrite Hact. change (SIG_DFL =? SIG_DFL) with true. cbv iota.
    rewrite (proj2 (Z.leb_gt _ _) Hpid). fold (is_stop sig). rewrite Hst, Hig. done.
  - unfold psig. rewrite (sig_of_eq p w2 S2 ES2). cbn [mbind outcome_bind]. change (p_sigacts (set_p_sig _ S2)) with (p_sigacts S). rewrite Hact.
    change (SIG_DFL =? SIG_DFL) with true. cbv iota. unfold sigexit. rewrite (sig_of_eq p _ (set_p_sig (andnot (p_sig S2) (sigmask n)) S2)) by apply lookup_insert_eq.
    cbn [mbind outcome_bind mret outcome_ret]. reflexivity.
Qed.
End Edge.

(** ** The theorems at work *)

Notation init := 2%positive (only parsing).
Lemma boot_init : at_ boot_s init (boot_proc 1 2 (Some 1%positive) []) (idle 50) sig0.
Proof. split; [split|]; reflexivity. Qed.

(** A handler for SIGINT that restarts calls and blocks every signal. *)
Lemma sigaction_roundtrip_witness : exists w' sa', sigaction_call init 2 None (Some (inr (mkSigaction 4096 (2 ^ 32 - 1) SA_RESTART))) boot_s = Ok (0, w')
  /\ (forall copyout, sigaction_call init 2 (Some copyout) None w' = Ok (copyout sa', w')) /\ sa_mask sa' = 2 ^ 32 - 1 - 256 - 65536.
Proof.
  destruct (sigaction_roundtrip boot_s init _ _ _ 2 (mkSigaction 4096 (2 ^ 32 - 1) SA_RESTART) boot_s_calm eq_refl boot_init)
    as (w'&sa'&E&_&Hr&_&Em&_);
    [vm_compute; discriminate|split; [discriminate|reflexivity]|discriminate|discriminate|split; [discriminate|reflexivity]|].
  exists w', sa'. split; [exact E|]. split; [exact Hr|]. rewrite Em. reflexivity.
Defined.

(** Process 5, which has a handler, calls exec. *)
Lemma execsigs_spec_witness : exists S', execsigs 3%positive (scene 11) = Ok (set_sigproc 3%positive S' (scene 11)) /\ p_sigcatch S' = 0
  /\ act_of SIGTERM (p_sigacts S') = SIG_DFL.
Proof.
  destruct (procs (pw (kw (scene 11))) !! 3%positive) as [P|] eqn:EP; [|vm_compute in EP; discriminate EP].
  destruct (threads (kw (scene 11)) !! 3%positive) as [T|] eqn:ET; [|vm_compute in ET; discriminate ET].
  destruct (sigs (scene 11) !! 3%positive) as [S|] eqn:ES; [|vm_compute in ES; discriminate ES].
  destruct (execsigs_spec (scene 11) 3%positive P T S) as (S'&E&_&Hc&_&_&_&_&Ha);
    [apply scene_calm; vm_compute; reflexivity|vm_compute; reflexivity|split; [split; [exact EP|exact ET]|exact ES]|vm_compute; discriminate|].
  exists S'. split; [exact E|]. split; [exact Hc|]. destruct (Ha SIGTERM) as (->&_); [split; [discriminate|reflexivity]|].
  vm_compute in ES. injection ES as <-. reflexivity.
Defined.

(** Init forks the process 5. *)
Lemma sfork_spec_witness : exists p2 w' S2, sfork init 5 0 false boot_s = Ok (p2, None, w') /\ calm w' /\ sigs w' !! p2 = Some S2 /\ p_sig S2 = 0.
Proof.
  destruct (sfork_spec boot_s init _ _ _ 5 0 false boot_s_calm eq_refl boot_init) as (p2&r&w'&E&Hw&_&(->&_&P2&T2&S2&n&(_&ES2)&_&_&_&Hs&_));
    [apply fresh_pidb_spec; vm_compute; reflexivity|vm_compute; discriminate|].
  exists p2, w', S2. split; [exact E|]. split; [exact Hw|]. split; [exact ES2|exact Hs].
Defined.

(** A handler for SIGSEGV that blocks SIGILL, and a bad stack. *)
Definition segv_s : sworld := match sstep (Action 11 None (Some (inr (mkSigaction 4096 (sigmask SIGILL) 0)))) boot_s with Ok w => w | _ => boot_s end.
Lemma segv_calm : calm segv_s.
Proof.
  destruct (sstep_ok (Action 11 None (Some (inr (mkSigaction 4096 (sigmask SIGILL) 0)))) boot_s boot_s_calm) as (w&E&Hw); [by vm_compute|].
  unfold segv_s. by rewrite E.
Qed.

Lemma trapsignal_stuck_witness : exists w' S', trapsignal false init 11 0 segv_s = Ok w' /\ calm w' /\ sigs w' !! init = Some S'
  /\ mem (p_sig S') SIGILL = true /\ mem (p_sigmask S') SIGILL = true.
Proof.
  destruct (procs (pw (kw segv_s)) !! init) as [P|] eqn:EP; [|vm_compute in EP; discriminate EP].
  destruct (threads (kw segv_s) !! init) as [T|] eqn:ET; [|vm_compute in ET; discriminate ET].
  destruct (sigs segv_s !! init) as [S|] eqn:ES; [|vm_compute in ES; discriminate ES].
  assert (traced P = false /\ mem (p_sigcatch S) 11 = true /\ mem (p_sigmask S) 11 = false /\
    mem (catchmask_of 11 (p_sigacts S)) SIGILL = true /\ deliverable P S = 0) as (H1&H2&H3&H4&H5).
  { vm_compute in EP, ES. injection EP as <-. injection ES as <-. vm_compute. repeat split. }
  destruct (trapsignal_stuck segv_s init P T S 11 0 segv_calm) as (w'&T'&S'&E&Hw&_&(_&ES')&Hp&_&Hm&_);
    [vm_compute; reflexivity|split; [split; [exact EP|exact ET]|exact ES]|vm_compute; discriminate|split; [discriminate|reflexivity]
    |exact H1|exact H2|exact H3|exact H4|exact H5|].
  exists w', S'. split; [exact E|]. split; [exact Hw|]. split; [exact ES'|]. split; [exact Hp|exact Hm].
Defined.

(** Process 5 is traced; it stopped for SIGTERM, and is to go on with SIGSTOP. *)
Definition traced_s : sworld :=
  match procs (pw (kw (scene 3))) !! 3%positive with
  | Some P => set_kw (set_proc 3%positive (set_p_xstat SIGSTOP (set_p_flag (Z.lor (p_flag P) STRC) P)) (kw (scene 3))) (scene 3)
  | None => scene 3
  end.

Lemma issig_traced_stale_witness : exists w' w2, issig_resume 3%positive (Traced SIGTERM) true traced_s = Ok (Take SIGSTOP, w')
  /\ psig 3%positive SIGSTOP true false w' = Ok (PsExit SIGSTOP, w2).
Proof.
  destruct (procs (pw (kw traced_s)) !! 3%positive) as [P|] eqn:EP; [|vm_compute in EP; discriminate EP].
  destruct (threads (kw traced_s) !! 3%positive) as [T|] eqn:ET; [|vm_compute in ET; discriminate ET].
  destruct (sigs traced_s !! 3%positive) as [S|] eqn:ES; [|vm_compute in ES; discriminate ES].
  assert (traced P = true /\ 1 < p_pid P /\ p_xstat P = SIGSTOP /\ act_of SIGSTOP (p_sigacts S) = SIG_DFL /\ mem (p_sigmask S) SIGSTOP = false)
    as (H1&H2&H3&H4&H5).
  { vm_compute in EP, ES. injection EP as <-. injection ES as <-. vm_compute. repeat split. }
  destruct (issig_traced_stale traced_s 3%positive P T S SIGTERM true false) as (w'&w2&E1&E2); rewrite ?H3;
    [split; [split; [exact EP|exact ET]|exact ES]|exact H1|exact H2|split; [discriminate|reflexivity]|reflexivity|reflexivity
    |split; [discriminate|reflexivity]|exact H4|exact H5|].
  rewrite H3 in E1, E2. exists w', w2. split; [exact E1|]. rewrite E2. reflexivity.
Defined.
